(* ===== verification/_CoqProject ===== *)
-Q . S2P
Prelude.v
GoStrings.v
Float64.v
RetryChain.v
Config.v
Models.v
Circuit.v
Trial.v
Selection.v
Capability.v
Availability.v
Scheduler.v
SchedulerSnapshot.v
Identity.v
Annotations.v
Probe.v
State.v
Roster.v
ProbeWindow.v
StateStore.v
Fence.v
ProbeWAL.v
Coordinator.v
TypedReads.v
CredentialWAL.v
Bindings.v
Managed.v
Json.v
Text.v
RetryClassify.v
RetryFrames.v
RetryRequest.v
RetryRuntime.v
Quota.v
FloatExact.v
Durations.v
Rfc3339.v
Usage.v
RefreshLoop.v
RosterGate.v
Auth.v
Refresh.v
RefreshPass.v
ProbeRuntime.v
ProbeSequence.v
Publish.v
UserData.v
Sizes.v
Settings.v
Status.v
Decode.v
Management.v
PickActivity.v
HostAdapter.v
Dispatch.v
Headers.v
Redact.v
Diagnostics.v
HttpSlots.v
RosterFlight.v
