(* ===== verification/Prelude.v ===== *)
(** * Codex quota scheduler: a verification development

    The program is a plugin for a proxy that serves requests with a pool of
    codex accounts.  It keeps what it knows of the quota of each account,
    picks the account of each request, refreshes and probes quota in the
    background, rewrites credentials when they rotate, and retries requests on
    other models.  Its sources are the Go files of the repository's root; names
    of definitions are those of the sources.

    ** How Go is modelled

    Structs are records with a field update [r <| f := v |>], enumerations are
    inductive types, maps are [gmap]s whose iteration order is a parameter
    ([MapRange]), pointers are options, errors are values of a sum ([result]).
    Machine integers are integers with their wrap-around written out ([i64],
    [u64]), floating point is binary64 ([Float64]), times are nanoseconds since
    year 1.  Files are their bytes or their decoded content, and every file
    operation may fail; a crash is a failure at a named point.  Interleavings
    are step relations.  SHA-256 and the canonical form of JSON are
    parameters of the files that use them.  JSON texts are parsed by the model
    ([Json]); the parser has fuel twice the length of its text plus one, which
    [Json.parse_fuel] shows to be enough; other loops that are not structural
    take as fuel the length of the text they shorten each time round.

    ** Files

    - [Prelude]: records, integers, time, sorting, map iteration, results.
      [GoStrings], [Text]: string functions; [Float64]: floating point;
      [Json]: JSON texts.
    - Configuration: [RetryChain] (retry_chain.go), [Config] (config.go),
      [Durations] and [Rfc3339] (the duration and date texts of Go's time package),
      [FloatExact] and [Sizes] (sizes as text), [Settings] (the decoded file of config.go and the
      settings page of management.go), [UserData] (user_data.go, disk_state.go).
    - Scheduling: [Models] (models.go), [Circuit] and [State] (state.go: the
      account table, admission, logs, refresh deadlines), [Trial] (trial.go: the
      registry of trials with its compare-and-swap), [Selection] (selection.go),
      [Capability] (capability.go: tiers of the roster), [Availability] and
      [Scheduler] (scheduler.go), [SchedulerSnapshot] (scheduler_snapshot.go:
      picks under interference), [Annotations] (annotations.go), [Probe]
      (probe.go).
    - Roster and background work: [Roster] (roster_controller.go), [RosterFlight]
      (the callers that wait for a running synchronisation), [ProbeWindow]
      (probe_classify.go, probe_state.go: the controller of a probe),
      [Coordinator] and [TypedReads] (coordinator.go: the event loop of
      background operations and its shared reads), [HttpSlots] (the slots of its
      outgoing calls).
    - Durable state: [StateStore] (state_store.go, runtime_state.go), [Fence]
      (fence.go), [ProbeWAL] (probe_wal.go), [Identity] (identity.go),
      [CredentialWAL] (credential_wal.go), [Bindings] (binding_registry.go),
      [Managed] (managed_lifecycle.go).
    - Refresher: [RefreshLoop] (refresh_controller.go and the background loop of
      refresh.go), [RosterGate] (the gates of refresh.go on the lifecycle of the
      roster), [Auth] (auth.go and the rewrite of an auth file), [Refresh] (the
      refresh of one account in refresh.go, run on a copy of the state whose
      journal is applied afterwards, auth_transaction.go), [RefreshPass] (the
      passes over the accounts, the manual refresh, the pick's requests),
      [Publish] (how a confirmed roster or a settled credential becomes the state
      of all of them, with a failure at every store, and how a result is applied).
    - Probe runtime: [ProbeRuntime] (probe_runtime.go: the windows in memory and
      in the durable state), [ProbeSequence] (the probe sequence, its failures
      and the due and recovery passes).  What other goroutines do while a
      sequence waits is an argument; theorems assume that it follows the log.
    - Requests: [RetryClassify] (retry_classify.go), [RetryFrames]
      (retry_frames.go and the buffers of retry_runtime.go), [RetryRequest] and
      [RetryRuntime] (retry_runtime.go, retry_hostcall.go).
    - Quota: [Quota] (quota.go), [Usage] (usage.go, stream_observer.go,
      request_complete.go), [Headers] (the quota of response headers).
    - Management: [Status] (the status payload of management.go), [Decode] (JSON
      into the records of the requests' bodies), [Management] (the routes and
      handlers of management.go and the entry point in dispatch.go).
    - Entry points: [Dispatch] (dispatch.go, quota_provider.go and the publication
      of scheduler_snapshot.go), [PickActivity] (pick_activity.go and the log of a
      decision), [HostAdapter] (runtime_host_adapter.go and the envelopes of main.go).
    - Texts: [Redact] (the patterns of refresh.go that find secrets, searched as
      package regexp does, and the redaction), [Diagnostics] (the summary of the
      answer of a failed probe).  Files that only pass texts on take the redaction
      as a parameter.

    ** What the theorems show

    - Picks: the account picked is usable, the best in the order the code
      gives (the class before the priorities) and, where it needs a trial, holds one that nobody else holds; the pick ends.
    - Background work: one job runs per account, no more calls run than there are
      slots and slots are given back, one synchronisation runs at a time, results are
      applied once and only while current, no caller is left waiting, shared reads are fresh; a
      probe is sent at most once, also across restarts, and only on evidence.
    - Refresher: the loop wakes no later than the earliest deadline, a requested
      refresh or probe pass is served, no request leaves while the roster forbids
      it, and late notifications never replace newer ones.  A pass that is
      current refreshes exactly the listed accounts that are due, each once; a refresh records only what
      the host answered, and uses a rotated token only once it is saved.  A
      published roster is the one admitted, bound, on record and in force, a
      publication that fails publishes nothing, and an operator's confirmation of
      a credential is all or nothing.
    - Probe runtime: the passes implement the protocol of the write-ahead log, so
      no attempt is sent twice by the program; a request that may have been sent
      stays on record until it is verified (unless its account leaves the roster),
      recovery only verifies, and a hold of the roster stops every window.
    - Auth files: extraction does not depend on the order of a map where the file
      is unambiguous, and a rewritten file reads back as written, its expiry to the
      second.
    - Durable state: an update is all or nothing, fences never repeat, a state
      file that could not be read is never taken for a clean start again.
    - Settings and user data: whatever configuration was read, the settings page
      shows it so that saving the page gives it back; the file of the user's data
      survives crashes at every step of a save and of the migration (a crash while a
      damaged file is being replaced is the exception stated with the theorem).
    - Management: a change of the user's data is saved before it is in force, and
      a restart reads what an acknowledged change left; the resource routes expose
      nothing, the registered routes are the served ones, and the status page
      shows the accounts of the roster in the scheduler's order, written out.
    - Entry points: an acknowledged change is in force again after a restart, a
      reported usage limit keeps its account out of the picks that follow, and the
      pump of pick activity serves the latest pick.
    - Texts: a redacted text holds no bearer token, and does not depend on the values
      of its quoted secret fields; where no secret is found it is unchanged.
    - Credentials and bindings: the plugin's own recent rotations are never taken
      for a login of somebody else, a credential is sent to the host only after its
      plan is durable, an account that returns to the roster outdates old tokens,
      and an account the plugin disabled stays on record as
      its own until it is enabled again.
    - Retries: whatever the host answers, the streams are opened and closed by
      the rules, the client receives the output of one attempt only, attempts
      follow the plan, and the frames of a stream decide an attempt in order.
    - Quota: payloads decode consistently and only usage limits mark accounts.
    Theorems that exhibit a defect of the code are stated on concrete inputs and
    named after what goes wrong.

    ** Not modelled

    The table of methods of dispatch.go and the construction of the plugin in main.go,
    which only call what is modelled; the transport of bytes through the C ABI; the
    rendering of answers as HTML or JSON (management.go, management_page.go), YAML
    decoding of the configuration and the JSON encoding of the user's data, which are
    the libraries'; the channels behind the entry points of coordinator.go; and the
    replacement of files by the operating system. *)

From stdpp Require Export base gmap strings list sets sorting.
From Stdlib Require Export ZArith Lia SpecFloat.

#[global] Set Default Goal Selector "!".

Declare Scope go_scope.
Delimit Scope go_scope with go.
#[global] Open Scope Z_scope.

(** ** Records with functional update

    Go assigns to one field of a struct at a time.  [r <| f := v |>] is that
    assignment.  A record declares the list of its projections once, as an
    [Eta] instance; the update of one field is derived from it. *)

Class Eta (R : Type) := eta_expand : R -> R.

Class Setter {R T : Type} (proj : R -> T) := set_field : (T -> T) -> R -> R.
Arguments set_field {R T} proj {_} _ _ /.

Ltac derive_setter :=
  match goal with
  | |- @Setter ?R ?T ?p =>
      let inst := constr:(_ : Eta R) in
      let body := eval hnf in inst in
      lazymatch (eval pattern p in body) with
      | ?ctx _ =>
          let s := eval cbv beta in (fun (f : T -> T) => ctx (fun r : R => f (p r))) in
          exact s
      end
  end.
#[export] Hint Extern 0 (Setter _) => derive_setter : typeclass_instances.

Notation "r <| p := v |>" := (set_field p (fun _ => v) r)
  (at level 1, left associativity, p at level 9, v at level 200,
   format "r  <| p  :=  v |>") : go_scope.
#[global] Open Scope go_scope.

(** ** Machine integers

    [int], [int64] and [time.Duration] are 64-bit two's complement; [uint64]
    is arithmetic modulo [2^64]. *)

Definition maxInt64 : Z := 9223372036854775807.
Definition minInt64 : Z := -9223372036854775808.
Definition maxUint64 : Z := 18446744073709551615.

Definition i64 (x : Z) : Z := (x + 9223372036854775808) mod 18446744073709551616 - 9223372036854775808.
Definition u64 (x : Z) : Z := x mod 18446744073709551616.

Lemma i64_small x : minInt64 <= x <= maxInt64 -> i64 x = x.
Proof. unfold i64, minInt64, maxInt64. intros. rewrite Z.mod_small; lia. Qed.

Lemma i64_range x : minInt64 <= i64 x <= maxInt64.
Proof. unfold i64, minInt64, maxInt64. pose proof (Z.mod_pos_bound (x + 9223372036854775808) 18446744073709551616). lia. Qed.

Lemma u64_small x : 0 <= x <= maxUint64 -> u64 x = x.
Proof. unfold u64, maxUint64. intros. rewrite Z.mod_small; lia. Qed.

Lemma u64_range x : 0 <= u64 x <= maxUint64.
Proof. unfold u64, maxUint64. pose proof (Z.mod_pos_bound x 18446744073709551616). lia. Qed.

(** ** Time

    A [time.Time] is the number of nanoseconds since 0001-01-01T00:00:00Z, so
    that the zero value of the type is [0]; monotonic readings and locations
    play no role in the code.  [Add] is exact (the representation of
    [time.Time] covers far more than any [Duration] can reach).  [Sub]
    saturates at the bounds of [Duration], as the standard library documents. *)

Abbreviation Time := Z (only parsing).
Abbreviation Duration := Z (only parsing).

Definition zeroTime : Time := 0.
Definition IsZero (t : Time) : bool := t =? 0.
Definition After (t u : Time) : bool := u <? t.
Definition Before (t u : Time) : bool := t <? u.
Definition Equal (t u : Time) : bool := t =? u.
Definition Add (t : Time) (d : Duration) : Time := t + d.
Definition Sub (t u : Time) : Duration := Z.max minInt64 (Z.min maxInt64 (t - u)).

Definition Nanosecond : Duration := 1.
Definition Second : Duration := 1000000000.
Definition Minute : Duration := 60 * Second.
Definition Hour : Duration := 60 * Minute.

(** The tactic of the development for comparisons: every time operation is
    unfolded to comparisons of integers, the hypotheses on booleans are turned
    into propositions, and [lia] decides. *)
Ltac time_unfold :=
  unfold IsZero, After, Before, Equal, Add, Sub, zeroTime, Nanosecond, Minute, Hour, Second,
    minInt64, maxInt64, maxUint64 in *.

Ltac time_lia := time_unfold; lia.

(** Case analysis on the outermost conditionals and matches of a goal or of a
    hypothesis, the way the handlers branch. *)
Ltac branch :=
  match goal with
  | |- context [if ?b then _ else _] => destruct b eqn:?
  | |- context [match ?x with _ => _ end] => destruct x eqn:?
  end.
Ltac branch_in H :=
  match type of H with
  | context [if ?b then _ else _] => destruct b eqn:?
  | context [match ?x with _ => _ end] => destruct x eqn:?
  end.

Create Rewrite HintDb go.
#[export] Hint Rewrite andb_true_iff andb_false_iff orb_true_iff orb_false_iff
  negb_true_iff negb_false_iff Z.eqb_eq Z.eqb_neq Z.ltb_lt Z.ltb_ge Z.leb_le Z.leb_gt : go.
Ltac to_prop := autorewrite with go in *.

(** ** Strings

    A Go string is its bytes; [<] on strings compares them bytewise. *)

Definition str_lt (a b : string) : bool :=
  match String.compare a b with Lt => true | _ => false end.

Lemma ascii_compare_N a b : Ascii.compare a b = N.compare (Ascii.N_of_ascii a) (Ascii.N_of_ascii b).
Proof. reflexivity. Qed.

Lemma str_compare_lt_trans a b c :
  String.compare a b = Lt -> String.compare b c = Lt -> String.compare a c = Lt.
Proof.
  revert b c. induction a as [|x a IH]; intros [|y b] [|z c]; simpl; try done.
  rewrite !ascii_compare_N.
  destruct (N.compare_spec (Ascii.N_of_ascii x) (Ascii.N_of_ascii y)),
           (N.compare_spec (Ascii.N_of_ascii y) (Ascii.N_of_ascii z)); intros H1 H2; try done.
  - replace (Ascii.N_of_ascii x ?= Ascii.N_of_ascii z)%N with Eq
      by (symmetry; apply N.compare_eq_iff; congruence). eauto.
  - replace (Ascii.N_of_ascii x ?= Ascii.N_of_ascii z)%N with Lt
      by (symmetry; apply N.compare_lt_iff; lia). done.
  - replace (Ascii.N_of_ascii x ?= Ascii.N_of_ascii z)%N with Lt
      by (symmetry; apply N.compare_lt_iff; lia). done.
  - replace (Ascii.N_of_ascii x ?= Ascii.N_of_ascii z)%N with Lt
      by (symmetry; apply N.compare_lt_iff; lia). done.
Qed.

Lemma str_compare_refl a : String.compare a a = Eq.
Proof. pose proof (String.compare_antisym a a). by destruct (String.compare a a). Qed.

(** ** Sorting

    [sort.Slice] and [sort.SliceStable] run insertion sort on short slices:
    each element moves left while it is less than its left neighbour.
    [insert_left] is that inner loop on the reversed sorted prefix.  On longer
    slices the library uses other algorithms with the same contract; where the
    order is total on the slice, [sorted_perm_unique] shows that the result
    does not depend on the algorithm. *)

Section sorting.
Context {A : Type} (less : A -> A -> bool).

Fixpoint insert_left (x : A) (rev_prefix : list A) : list A :=
  match rev_prefix with
  | [] => [x]
  | y :: ys => if less x y then y :: insert_left x ys else x :: y :: ys
  end.

Definition sort_slice (l : list A) : list A :=
  reverse (foldl (fun acc x => insert_left x acc) [] l).

Lemma insert_left_perm x l : insert_left x l ≡ₚ x :: l.
Proof. induction l as [|y l IH]; simpl; [done|]. branch; [|done]. rewrite IH. constructor. Qed.

Lemma foldl_insert_perm l acc : foldl (fun acc x => insert_left x acc) acc l ≡ₚ acc ++ l.
Proof.
  revert acc. induction l as [|x l IH]; intros acc; simpl; [by rewrite app_nil_r|].
  rewrite IH, insert_left_perm. simpl. apply Permutation_middle.
Qed.

Lemma sort_slice_perm l : sort_slice l ≡ₚ l.
Proof. unfold sort_slice. by rewrite reverse_Permutation, foldl_insert_perm. Qed.

Lemma sort_slice_nil_inv l : sort_slice l = [] -> l = [].
Proof. intros E. apply Permutation_nil_r. by rewrite <- E, sort_slice_perm. Qed.

(** What the library requires of [less] on the elements [P] of the slice. *)
Record weak_order_on (P : A -> Prop) : Prop := {
  wo_asym : forall a b, P a -> P b -> less a b = true -> less b a = false;
  wo_split : forall a b c, P a -> P b -> P c -> less a c = true -> less a b = true \/ less b c = true;
}.

Definition total_on (P : A -> Prop) : Prop :=
  forall a b, P a -> P b -> less a b = false -> less b a = false -> a = b.

(** [not_after a b]: [a] may stand before [b]. *)
Definition not_after (a b : A) : Prop := less b a = false.

Context (P : A -> Prop) (W : weak_order_on P).

Lemma not_after_trans a b c : P a -> P b -> P c -> not_after a b -> not_after b c -> not_after a c.
Proof.
  unfold not_after. intros Pa Pb Pc Hab Hbc. destruct (less c a) eqn:E; [|done].
  destruct (wo_split _ W c b a); congruence.
Qed.

Lemma less_trans a b c : P a -> P b -> P c -> less a b = true -> less b c = true -> less a c = true.
Proof.
  intros Pa Pb Pc Hab Hbc. destruct (wo_split _ W a c b Pa Pc Pb Hab) as [|H]; [done|].
  by rewrite (wo_asym _ W b c) in H.
Qed.

Lemma insert_left_sorted x l :
  P x -> Forall P l -> StronglySorted (flip not_after) l -> StronglySorted (flip not_after) (insert_left x l).
Proof.
  intros Px. induction l as [|y l IH]; intros HP Hs; simpl; [repeat constructor|].
  apply Forall_cons in HP as [Py HP]. apply StronglySorted_inv in Hs as [Hs Hy].
  destruct (less x y) eqn:E.
  - constructor; [auto|]. rewrite insert_left_perm. constructor; [by apply (wo_asym _ W)|done].
  - constructor; [by constructor|]. constructor; [done|].
    rewrite Forall_forall in *. intros z Hz. unfold flip in *.
    apply not_after_trans with y; auto.
Qed.

Lemma foldl_insert_sorted l acc :
  Forall P acc -> Forall P l -> StronglySorted (flip not_after) acc ->
  StronglySorted (flip not_after) (foldl (fun acc x => insert_left x acc) acc l).
Proof.
  revert acc. induction l as [|x l IH]; intros acc Ha Hl Hs; simpl; [done|].
  apply Forall_cons in Hl as [Px Hl]. apply IH; [|done|by apply insert_left_sorted].
  rewrite insert_left_perm. by constructor.
Qed.

End sorting.

Lemma StronglySorted_snoc {A} (R : relation A) l x :
  StronglySorted R l -> Forall (fun y => R y x) l -> StronglySorted R (l ++ [x]).
Proof.
  induction l as [|y l IH]; simpl; intros Hs Hx; [repeat constructor|].
  apply StronglySorted_inv in Hs as [Hs Hy]. apply Forall_cons in Hx as [Hyx Hx].
  constructor; [auto|]. rewrite Forall_app. split; [done|by constructor].
Qed.

Lemma StronglySorted_reverse {A} (R : relation A) l :
  StronglySorted (flip R) l -> StronglySorted R (reverse l).
Proof.
  induction 1 as [|x l Hs IH Hx]; [constructor|]. rewrite reverse_cons.
  apply StronglySorted_snoc; [done|]. by rewrite Forall_reverse.
Qed.

Section sorting_spec.
Context {A : Type} (less : A -> A -> bool) (P : A -> Prop) (W : weak_order_on less P).

(** The contract of [sort.Slice]: no element stands behind one it precedes. *)
Lemma sort_slice_sorted l : Forall P l -> StronglySorted (not_after less) (sort_slice less l).
Proof.
  intros HP. apply StronglySorted_reverse.
  eapply foldl_insert_sorted; try done. constructor.
Qed.

(** The head of the sorted slice is preceded by no element of the slice. *)
Lemma sort_slice_head l x rest y :
  Forall P l -> sort_slice less l = x :: rest -> y ∈ l -> less y x = false.
Proof.
  intros HP E Hy. pose proof (sort_slice_sorted l HP) as Hs. rewrite E in Hs.
  apply StronglySorted_inv in Hs as [_ Hx]. rewrite <- (sort_slice_perm less), E in Hy.
  apply elem_of_cons in Hy as [->|Hy]; [|by apply (proj1 (Forall_forall _ _) Hx)].
  destruct (less x x) eqn:Exx; [|done].
  assert (P x) as Px.
  { rewrite Forall_forall in HP. apply HP. rewrite <- (sort_slice_perm less), E. constructor. }
  by rewrite (wo_asym _ _ W x x) in Exx.
Qed.

(** Where the order is total on the slice, every sorted permutation of it is
    the same list, whatever algorithm produced it. *)
Lemma sorted_perm_unique l1 l2 :
  total_on less P -> Forall P l1 ->
  StronglySorted (not_after less) l1 -> StronglySorted (not_after less) l2 -> l1 ≡ₚ l2 -> l1 = l2.
Proof.
  intros T HP S1 S2 Hperm. apply (StronglySorted_unique_strong (not_after less)); try done.
  intros x y Hx Hy Hxy Hyx. rewrite Forall_forall in HP.
  apply T; auto. apply HP. by rewrite Hperm.
Qed.
End sorting_spec.

(** Sorting permutations of a slice on which ties are equalities. *)
Lemma sort_slice_perm_eq {A} (less : A -> A -> bool) (l1 l2 : list A) :
  weak_order_on less (fun _ => True) ->
  (forall a b, a ∈ l1 -> b ∈ l1 -> less a b = false -> less b a = false -> a = b) ->
  l1 ≡ₚ l2 -> sort_slice less l1 = sort_slice less l2.
Proof.
  intros W T Hp. apply (sorted_perm_unique less (fun a => a ∈ l1)).
  - intros a b Ha Hb. by apply T.
  - rewrite sort_slice_perm. by apply Forall_forall.
  - apply (sort_slice_sorted less (fun _ => True) W). by apply Forall_forall.
  - apply (sort_slice_sorted less (fun _ => True) W). by apply Forall_forall.
  - by rewrite !sort_slice_perm.
Qed.

(** ** Lexicographic comparison functions

    The comparison functions of the program test one key after another:
    "if the keys differ, decide by the key, otherwise go on". *)

Definition lex {A} (l1 l2 : A -> A -> bool) (a b : A) : bool :=
  if l1 a b then true else if l1 b a then false else l2 a b.

Lemma lex_weak_order {A} (P : A -> Prop) (l1 l2 : A -> A -> bool) :
  weak_order_on l1 P -> weak_order_on l2 P -> weak_order_on (lex l1 l2) P.
Proof.
  intros W1 W2. unfold lex. split.
  - intros a b Pa Pb. destruct (l1 a b) eqn:E1, (l1 b a) eqn:E2; try done.
    + rewrite (wo_asym _ _ W1 a b) in E2; done.
    + apply (wo_asym _ _ W2); done.
  - intros a b c Pa Pb Pc.
    destruct (l1 a b) eqn:Eab; [by left|]. destruct (l1 b c) eqn:Ebc; [by right|].
    assert (l1 a c = true -> False) as Nac by (intros H; destruct (wo_split _ _ W1 a b c Pa Pb Pc H); congruence).
    destruct (l1 a c); [done|]. destruct (l1 c a) eqn:Eca; [done|].
    assert (l1 b a = true -> False) as Nba by (intros H; destruct (wo_split _ _ W1 b c a Pb Pc Pa H); congruence).
    assert (l1 c b = true -> False) as Ncb by (intros H; destruct (wo_split _ _ W1 c a b Pc Pa Pb H); congruence).
    destruct (l1 b a), (l1 c b); try done. apply (wo_split _ _ W2); done.
Qed.

(** A key in the integers, larger first or smaller first. *)
Lemma key_weak_order {A} (P : A -> Prop) (k : A -> Z) : weak_order_on (fun a b => k a <? k b) P.
Proof. split; intros; lia. Qed.
Lemma key_weak_order_desc {A} (P : A -> Prop) (k : A -> Z) : weak_order_on (fun a b => k b <? k a) P.
Proof. split; intros; lia. Qed.

Lemma str_weak_order {A} (P : A -> Prop) (k : A -> string) :
  weak_order_on (fun a b => str_lt (k a) (k b)) P.
Proof.
  unfold str_lt. split.
  - intros a b _ _. rewrite (String.compare_antisym (k b)). by destruct (String.compare (k a) (k b)).
  - intros a b c _ _ _ H. destruct (String.compare (k a) (k c)) eqn:Eac; try done.
    destruct (String.compare (k a) (k b)) eqn:Eab; [|by left|].
    + apply String.compare_eq_iff in Eab. rewrite <- Eab, Eac. by right.
    + rewrite String.compare_antisym in Eab.
      destruct (String.compare (k b) (k a)) eqn:Eba; try done.
      rewrite (str_compare_lt_trans (k b) (k a) (k c)); auto.
Qed.

Lemma str_lt_total a b : str_lt a b = false -> str_lt b a = false -> a = b.
Proof.
  unfold str_lt. rewrite (String.compare_antisym b). intros.
  apply String.compare_eq_iff. by destruct (String.compare a b).
Qed.

(** [sort.Strings] *)
Definition sortStrings : list string -> list string := sort_slice str_lt.

Lemma sortStrings_perm_eq l1 l2 : l1 ≡ₚ l2 -> sortStrings l1 = sortStrings l2.
Proof.
  apply sort_slice_perm_eq; [apply (str_weak_order _ (fun x => x))|]. intros a b _ _. apply str_lt_total.
Qed.

Lemma elem_of_sortStrings l x : x ∈ sortStrings l <-> x ∈ l.
Proof. unfold sortStrings. by rewrite sort_slice_perm. Qed.

(** ** Map iteration

    [for k, v := range m] visits the entries of a Go map in an unspecified
    order.  [MapRange] is what the language promises; definitions that iterate
    over a map are parameterised by an instance, and their theorems hold for
    every one. *)

Class MapRange := {
  map_range : forall {K V : Type} `{Countable K}, gmap K V -> list (K * V);
  map_range_perm : forall (K V : Type) `{Countable K} (m : gmap K V), map_range m ≡ₚ map_to_list m;
}.

#[export] Instance canonical_range : MapRange := {
  map_range := fun K V _ _ m => map_to_list m;
  map_range_perm := fun K V _ _ m => Permutation_refl (map_to_list m);
}.

Lemma elem_of_map_range `{MapRange} `{Countable K} {V} (m : gmap K V) k v :
  (k, v) ∈ map_range m <-> m !! k = Some v.
Proof. rewrite map_range_perm. apply elem_of_map_to_list. Qed.

(** ** Errors as values *)

Inductive result (E A : Type) : Type :=
  | Ok (a : A)
  | Err (e : E).
Arguments Ok {E A} a.
Arguments Err {E A} e.

Lemma Ok_inj {E A} (a b : A) : @Ok E A a = Ok b -> a = b.
Proof. congruence. Qed.

Definition rbind {E A B} (r : result E A) (f : A -> result E B) : result E B :=
  match r with Ok a => f a | Err e => Err e end.
Notation "'let!' x := r 'in' k" := (rbind r (fun x => k))
  (at level 200, x pattern, r at level 100, k at level 200, right associativity) : go_scope.

(** ** Lists *)

Lemma filter_id {A} (P : A -> Prop) `{!forall x, Decision (P x)} (l : list A) : Forall P l -> filter P l = l.
Proof. induction 1 as [|x l Hx Hl IH]; [done|]. by rewrite filter_cons_True, IH. Qed.

Lemma Forall_filter_sub {A} (P Q : A -> Prop) `{!forall x, Decision (Q x)} (l : list A) :
  Forall P l -> Forall P (filter Q l).
Proof. rewrite !Forall_forall. intros HP x Hx. apply list_elem_of_filter in Hx as [_ Hx]. auto. Qed.

(** The elements of a list with distinct keys are determined by their keys. *)
Lemma NoDup_fmap_inj_on {A B} (f : A -> B) (l : list A) :
  NoDup (f <$> l) -> forall a b, a ∈ l -> b ∈ l -> f a = f b -> a = b.
Proof.
  induction l as [|x l IH]; simpl; intros Hnd a b Ha Hb E; [by apply not_elem_of_nil in Ha|].
  apply NoDup_cons in Hnd as [Hx Hnd].
  apply elem_of_cons in Ha as [->|Ha], Hb as [->|Hb]; auto.
  - destruct Hx. rewrite E. by apply list_elem_of_fmap_2.
  - destruct Hx. rewrite <- E. by apply list_elem_of_fmap_2.
Qed.
