(* ===== verification/GoStrings.v ===== *)
(** * String functions of the Go standard library used by the program

    [strings.TrimSpace] on UTF-8 bytes with the white space of
    [unicode.IsSpace]; [strings.ToLower] on ASCII letters (bytes outside ASCII
    are left as they are: the names it is applied to are ASCII identifiers);
    [strings.Contains], [strings.HasPrefix], [strings.Split]. *)

From S2P Require Import Prelude.
From Stdlib Require Import Ascii.

Section trim_by.
Context (p1 : ascii -> bool) (p2 : ascii -> ascii -> bool) (p3 : ascii -> ascii -> ascii -> bool).

(** Drop encoded runes from the front while they satisfy the test of their
    length. *)
Fixpoint trim_by (l : list ascii) : list ascii :=
  match l with
  | [] => []
  | a :: l1 =>
      if p1 a then trim_by l1 else
      match l1 with
      | [] => l
      | b :: l2 =>
          if p2 a b then trim_by l2 else
          match l2 with
          | [] => l
          | c :: l3 => if p3 a b c then trim_by l3 else l
          end
      end
  end.

Definition starts (l : list ascii) : bool :=
  match l with
  | [] => false
  | a :: l1 =>
      p1 a || match l1 with
              | [] => false
              | b :: l2 => p2 a b || match l2 with [] => false | c :: _ => p3 a b c end
              end
  end.

Lemma trim_by_spec l : starts (trim_by l) = false /\ exists k, l = k ++ trim_by l.
Proof.
  induction l as [l IH] using (induction_ltof1 _ length). unfold ltof in IH.
  destruct l as [|a l1]; [by split; [|exists []]|]. simpl.
  destruct (p1 a) eqn:E1.
  { destruct (IH l1) as [H [k Hk]]; [simpl; lia|]. split; [done|]. exists (a :: k). simpl. by f_equal. }
  destruct l1 as [|b l2]; [simpl; rewrite E1; split; [done|by exists []]|].
  destruct (p2 a b) eqn:E2.
  { destruct (IH l2) as [H [k Hk]]; [simpl; lia|]. split; [done|]. exists (a :: b :: k). simpl. by do 2 f_equal. }
  destruct l2 as [|c l3]; [simpl; rewrite E1, E2; split; [done|by exists []]|].
  destruct (p3 a b c) eqn:E3.
  { destruct (IH l3) as [H [k Hk]]; [simpl; lia|]. split; [done|].
    exists (a :: b :: c :: k). simpl. by do 3 f_equal. }
  simpl. rewrite E1, E2, E3. split; [done|by exists []].
Qed.

Lemma trim_by_id l : starts l = false -> trim_by l = l.
Proof.
  destruct l as [|a l1]; simpl; [done|]. intros [-> H]%orb_false_iff.
  destruct l1 as [|b l2]; [done|]. apply orb_false_iff in H as [-> H].
  destruct l2 as [|c l3]; [done|]. by rewrite H.
Qed.

Lemma starts_prefix l k : starts l = true -> starts (l ++ k) = true.
Proof.
  destruct l as [|a [|b [|c l]]]; simpl; [done|..].
  - rewrite orb_false_r. by intros ->.
  - rewrite orb_false_r. intros [->| ->]%orb_true_iff; by rewrite ?orb_true_r.
  - done.
Qed.
End trim_by.

Definition byte_is (a : ascii) (n : N) : bool := N.eqb (N_of_ascii a) n.
Definition byte_in (a : ascii) (lo hi : N) : bool := N.leb lo (N_of_ascii a) && N.leb (N_of_ascii a) hi.

(** The encodings of [unicode.IsSpace]: one, two and three bytes. *)
Definition space1 (a : ascii) : bool := byte_in a 9 13 || byte_is a 32.
Definition space2 (a b : ascii) : bool := byte_is a 194 && (byte_is b 133 || byte_is b 160).
Definition space3 (a b c : ascii) : bool :=
  (byte_is a 225 && byte_is b 154 && byte_is c 128)
  || (byte_is a 226 && byte_is b 128 && (byte_in c 128 138 || byte_in c 168 169 || byte_is c 175))
  || (byte_is a 226 && byte_is b 129 && byte_is c 159)
  || (byte_is a 227 && byte_is b 128 && byte_is c 128).

Definition trim_left : list ascii -> list ascii := trim_by space1 space2 space3.
Definition trim_right (l : list ascii) : list ascii :=
  reverse (trim_by space1 (fun b a => space2 a b) (fun c b a => space3 a b c) (reverse l)).
Definition trim_list (l : list ascii) : list ascii := trim_right (trim_left l).

Definition TrimSpace (s : string) : string :=
  String.string_of_list_ascii (trim_list (String.list_ascii_of_string s)).

Definition lower_byte (a : ascii) : ascii :=
  if byte_in a 65 90 then ascii_of_N (N_of_ascii a + 32) else a.
Definition ToLower (s : string) : string :=
  String.string_of_list_ascii (lower_byte <$> String.list_ascii_of_string s).

Lemma trim_list_idem l : trim_list (trim_list l) = trim_list l.
Proof.
  unfold trim_list at 2 3. unfold trim_right.
  set (u := trim_left l).
  set (R := trim_by space1 (fun b a => space2 a b) (fun c b a => space3 a b c)).
  destruct (trim_by_spec space1 space2 space3 l) as [Hu _]. fold trim_left in Hu. fold u in Hu.
  destruct (trim_by_spec space1 (fun b a => space2 a b) (fun c b a => space3 a b c) (reverse u)) as [Hr [k Hk]].
  fold R in Hr, Hk.
  assert (u = reverse (R (reverse u)) ++ reverse k) as Hpre.
  { rewrite <- reverse_app, <- Hk. by rewrite reverse_involutive. }
  unfold trim_list, trim_left. rewrite trim_by_id.
  - unfold trim_right. rewrite reverse_involutive. f_equal. by apply trim_by_id.
  - apply not_true_iff_false. intros H. apply (starts_prefix _ _ _ _ (reverse k)) in H.
    rewrite <- Hpre in H. congruence.
Qed.

Lemma TrimSpace_idem s : TrimSpace (TrimSpace s) = TrimSpace s.
Proof. unfold TrimSpace. by rewrite String.list_ascii_of_string_of_list_ascii, trim_list_idem. Qed.

(** Lowering a byte changes no test of the white space encodings. *)
Lemma lower_byte_tests a :
  space1 (lower_byte a) = space1 a
  /\ (forall n, n ∈ [194; 133; 160; 225; 154; 128; 226; 175; 129; 159; 227]%N -> byte_is (lower_byte a) n = byte_is a n)
  /\ byte_in (lower_byte a) 128 138 = byte_in a 128 138
  /\ byte_in (lower_byte a) 168 169 = byte_in a 168 169
  /\ lower_byte (lower_byte a) = lower_byte a.
Proof.
  split_and!.
  - destruct a as [[] [] [] [] [] [] [] []]; reflexivity.
  - intros n Hn. rewrite !elem_of_cons, elem_of_nil in Hn.
    destruct_or? Hn; subst; try done; destruct a as [[] [] [] [] [] [] [] []]; reflexivity.
  - destruct a as [[] [] [] [] [] [] [] []]; reflexivity.
  - destruct a as [[] [] [] [] [] [] [] []]; reflexivity.
  - destruct a as [[] [] [] [] [] [] [] []]; reflexivity.
Qed.

Lemma space2_lower a b : space2 (lower_byte a) (lower_byte b) = space2 a b.
Proof.
  destruct (lower_byte_tests a) as (_ & Ha & _), (lower_byte_tests b) as (_ & Hb & _).
  unfold space2. rewrite Ha, !Hb by set_solver. done.
Qed.

Lemma space3_lower a b c : space3 (lower_byte a) (lower_byte b) (lower_byte c) = space3 a b c.
Proof.
  destruct (lower_byte_tests a) as (_ & Ha & _), (lower_byte_tests b) as (_ & Hb & _),
    (lower_byte_tests c) as (_ & Hc & Hc1 & Hc2 & _).
  unfold space3. rewrite !Ha, !Hb, !Hc, Hc1, Hc2 by set_solver. done.
Qed.

Lemma trim_by_lower p1 p2 p3 l :
  (forall a, p1 (lower_byte a) = p1 a) -> (forall a b, p2 (lower_byte a) (lower_byte b) = p2 a b) ->
  (forall a b c, p3 (lower_byte a) (lower_byte b) (lower_byte c) = p3 a b c) ->
  trim_by p1 p2 p3 (lower_byte <$> l) = lower_byte <$> trim_by p1 p2 p3 l.
Proof.
  intros H1 H2 H3. induction l as [l IH] using (induction_ltof1 _ length). unfold ltof in IH.
  destruct l as [|a l1]; [done|]. simpl. rewrite H1.
  destruct (p1 a); [apply IH; simpl; lia|]. destruct l1 as [|b l2]; [done|]. simpl. rewrite H2.
  destruct (p2 a b); [apply IH; simpl; lia|]. destruct l2 as [|c l3]; [done|]. simpl. rewrite H3.
  destruct (p3 a b c); [apply IH; simpl; lia|done].
Qed.

Lemma TrimSpace_ToLower s : TrimSpace (ToLower s) = ToLower (TrimSpace s).
Proof.
  unfold TrimSpace, ToLower. rewrite !String.list_ascii_of_string_of_list_ascii. f_equal.
  unfold trim_list, trim_right, trim_left.
  rewrite trim_by_lower; [|apply lower_byte_tests|apply space2_lower|apply space3_lower].
  rewrite <- fmap_reverse, trim_by_lower, <- fmap_reverse; [done|apply lower_byte_tests|..];
    intros; [apply space2_lower|apply space3_lower].
Qed.

Lemma ToLower_idem s : ToLower (ToLower s) = ToLower s.
Proof.
  unfold ToLower. rewrite String.list_ascii_of_string_of_list_ascii. f_equal.
  rewrite <- list_fmap_compose. apply list_fmap_ext. intros i a _. apply lower_byte_tests.
Qed.

(** A string is left alone by [TrimSpace] exactly when it neither starts nor
    ends with white space. *)
Definition startsR : list ascii -> bool := starts space1 (fun b a => space2 a b) (fun c b a => space3 a b c).
Definition startsL : list ascii -> bool := starts space1 space2 space3.

Lemma trim_list_fixed l : trim_list l = l <-> startsL l = false /\ startsR (reverse l) = false.
Proof.
  split.
  - intros E. unfold trim_list, trim_right in E. set (R := trim_by space1 _ _) in E.
    destruct (trim_by_spec space1 space2 space3 l) as [Hu [k Hk]]. fold trim_left in Hu, Hk.
    destruct (trim_by_spec space1 (fun b a => space2 a b) (fun c b a => space3 a b c) (reverse (trim_left l)))
      as [Hr [k' Hk']]. fold R in Hr, Hk'.
    assert (length (trim_left l) = length l) as Hlen.
    { apply (f_equal length) in Hk, Hk', E. rewrite length_app in Hk, Hk'. rewrite !length_reverse in *. lia. }
    destruct k as [|x k]; [|apply (f_equal length) in Hk; simpl in Hk; rewrite length_app in Hk; lia].
    simpl in Hk. rewrite <- Hk in *. split; [done|].
    rewrite <- E, reverse_involutive. done.
  - intros [HL HR]. unfold trim_list, trim_right, trim_left.
    rewrite (trim_by_id space1 space2 space3) by done.
    rewrite trim_by_id by done. apply reverse_involutive.
Qed.

Lemma TrimSpace_fixed s :
  TrimSpace s = s <-> trim_list (String.list_ascii_of_string s) = String.list_ascii_of_string s.
Proof.
  unfold TrimSpace. split; intros E.
  - rewrite <- E at 2. by rewrite String.list_ascii_of_string_of_list_ascii.
  - rewrite E. apply String.string_of_list_ascii_of_string.
Qed.

(** A separator that is no part of an encoded white space keeps the pieces
    around it trimmed. *)
Lemma starts_sep p1 p2 p3 (x : ascii) l k :
  p1 x = false -> (forall a, p2 a x = false) -> (forall a b, p3 a b x = false) -> (forall a b, p3 a x b = false) ->
  l <> [] -> starts p1 p2 p3 (l ++ x :: k) = starts p1 p2 p3 l.
Proof.
  intros H1 H2 H3 H4. destruct l as [|a [|b [|c l]]]; simpl; [done|..]; intros _.
  - destruct k; by rewrite H2, ?H4.
  - by rewrite H3.
  - done.
Qed.

Lemma trim_list_sep (x : ascii) l k :
  x = "/"%char -> l <> [] -> k <> [] -> trim_list l = l -> trim_list k = k ->
  trim_list (l ++ x :: k) = l ++ x :: k.
Proof.
  intros -> Hl Hk El Ek. apply trim_list_fixed in El as [Ll _], Ek as [_ Rk].
  assert (forall a, space2 a "/" = false) as S2 by (intros a; unfold space2; apply andb_false_r).
  assert (forall a b, space3 a b "/" = false) as S3.
  { intros a b. unfold space3. change (byte_is "/" 128) with false. change (byte_is "/" 159) with false.
    change (byte_in "/" 128 138) with false. change (byte_in "/" 168 169) with false.
    change (byte_is "/" 175) with false. simpl. by rewrite !andb_false_r. }
  assert (forall a b, space3 a "/" b = false) as S3'.
  { intros a b. unfold space3. change (byte_is "/" 154) with false. change (byte_is "/" 128) with false.
    change (byte_is "/" 129) with false. by rewrite !andb_false_r. }
  apply trim_list_fixed. split.
  - unfold startsL. rewrite starts_sep; done.
  - rewrite reverse_app, reverse_cons, <- app_assoc. simpl. unfold startsR. rewrite starts_sep; try done.
    intros E. apply Hk. apply (f_equal reverse) in E. by rewrite reverse_involutive in E.
Qed.
