(* ===== verification/Float64.v ===== *)
(** * binary64 arithmetic

    [float64] is the binary64 format of the [SpecFloat] formalisation
    (precision 53, largest exponent 1024), with its rounding to nearest even,
    its infinities and its NaN; [==], [<] and [>=] are false on a NaN.  The
    file shows that [<] is a strict weak order away from NaN, which the
    comparison functions of the scheduler need. *)

From S2P Require Import Prelude.
#[local] Open Scope Z_scope.
#[local] Open Scope go_scope.

Abbreviation float64 := spec_float (only parsing).

Definition f_of_Z (z : Z) : float64 := binary_normalize 53 1024 z 0 false.
Definition f_add : float64 -> float64 -> float64 := SFadd 53 1024.
Definition f_sub : float64 -> float64 -> float64 := SFsub 53 1024.
Definition f_mul : float64 -> float64 -> float64 := SFmul 53 1024.
Definition f_div : float64 -> float64 -> float64 := SFdiv 53 1024.
Definition f_lt : float64 -> float64 -> bool := SFltb.
Definition f_le : float64 -> float64 -> bool := SFleb.
Definition f_eq : float64 -> float64 -> bool := SFeqb.
Definition f_zero : float64 := S754_zero false.

Definition is_nan (f : float64) : bool := match f with S754_nan => true | _ => false end.

(** The order of the non-NaN values as a lexicographic order of integers. *)
Definition f_class (f : float64) : Z :=
  match f with
  | S754_infinity true => -2 | S754_finite true _ _ => -1
  | S754_zero _ | S754_nan => 0
  | S754_finite false _ _ => 1 | S754_infinity false => 2
  end.
Definition f_exp (f : float64) : Z :=
  match f with S754_finite true _ e => - e | S754_finite false _ e => e | _ => 0 end.
Definition f_man (f : float64) : Z :=
  match f with S754_finite true m _ => - Z.pos m | S754_finite false m _ => Z.pos m | _ => 0 end.

Definition f_key_lt (a b : float64) : bool :=
  lex (fun a b => f_class a <? f_class b) (lex (fun a b => f_exp a <? f_exp b) (fun a b => f_man a <? f_man b)) a b.

Lemma f_lt_key a b : is_nan a = false -> is_nan b = false -> f_lt a b = f_key_lt a b.
Proof.
  unfold f_lt, SFltb, f_key_lt, lex.
  destruct a as [sa|[]| |[] ma ea], b as [sb|[]| |[] mb eb]; simpl; try done; intros _ _;
    change (Pos.compare_cont Eq ma mb) with (Pos.compare ma mb);
    destruct (Z.compare_spec ea eb), (Pos.compare_spec ma mb); simpl; repeat case_match; try done; lia.
Qed.

Lemma f_eq_key a b :
  is_nan a = false -> is_nan b = false -> f_eq a b = negb (f_lt a b) && negb (f_lt b a).
Proof.
  intros Ha Hb. rewrite !f_lt_key by done. unfold f_eq, SFeqb, f_key_lt, lex.
  destruct a as [sa|[]| |[] ma ea], b as [sb|[]| |[] mb eb]; simpl in *; try done;
    change (Pos.compare_cont Eq ma mb) with (Pos.compare ma mb);
    destruct (Z.compare_spec ea eb), (Pos.compare_spec ma mb); simpl; repeat case_match; try done; lia.
Qed.

Lemma f_key_weak_order P : weak_order_on f_key_lt P.
Proof. apply lex_weak_order; [apply key_weak_order|]. apply lex_weak_order; apply key_weak_order. Qed.

(** A non-NaN floating point key, larger first. *)
Lemma f_weak_order_desc {A} (P : A -> Prop) (k : A -> float64) :
  (forall a, P a -> is_nan (k a) = false) -> weak_order_on (fun a b => f_lt (k b) (k a)) P.
Proof.
  intros N. split.
  - intros a b Pa Pb. rewrite !f_lt_key by auto.
    apply (wo_asym _ _ (f_key_weak_order (fun _ => True))); done.
  - intros a b c Pa Pb Pc. rewrite !f_lt_key by auto. intros H.
    apply or_comm. by apply (wo_split _ _ (f_key_weak_order (fun _ => True))).
Qed.

(** [Duration.Hours]: the whole hours plus the remaining nanoseconds as a
    fraction of an hour. *)
Definition Hours (d : Duration) : float64 :=
  f_add (f_of_Z (Z.quot d Hour)) (f_div (f_of_Z (Z.rem d Hour)) (f_of_Z Hour)).

Example hours_half : Hours (30 * Minute) = f_div (f_of_Z 1) (f_of_Z 2).
Proof. vm_compute. reflexivity. Qed.
