(* ===== verification/RetryChain.v ===== *)
(** * Retry chain configuration (retry_chain.go)

    Targets, rows and attempt plans of the retry chain: normalisation, the
    textual form of a target, the validity check of a chain, the lookup of the
    row for a requested model, and the bounds of an attempt plan. *)

From S2P Require Import Prelude GoStrings.
From Stdlib Require Import Ascii.
#[local] Open Scope string_scope.
#[local] Open Scope list_scope.
#[local] Open Scope Z_scope.
#[local] Open Scope go_scope.

Record RetryTarget := mkRetryTarget { rt_Provider : string; rt_Model : string }.
Record RetryChainRow := mkRetryChainRow { row_Model : string; row_Fallbacks : list RetryTarget }.
Record RetryPlan := mkRetryPlan {
  plan_Key : string;
  plan_Requested : RetryTarget;
  plan_Fallbacks : list RetryTarget;
  plan_MaxAttempts : Z;
}.

#[export] Instance RetryTarget_eq_dec : EqDecision RetryTarget.
Proof. solve_decision. Defined.

Definition TargetCount (p : RetryPlan) : Z :=
  let count := 1 + Z.of_nat (length (plan_Fallbacks p)) in
  if (0 <? plan_MaxAttempts p) && (plan_MaxAttempts p <? count) then plan_MaxAttempts p else count.

(** An attempt outside the budget is the [false] result; [Panic] is the index
    expression [p.Fallbacks[index-1]] out of range. *)
Inductive index_result (A : Type) := Found (a : A) | NotFound | Panic.
Arguments Found {A} a.
Arguments NotFound {A}.
Arguments Panic {A}.

Definition Target (p : RetryPlan) (index : Z) : index_result RetryTarget :=
  if (index <? 0) || (TargetCount p <=? index) then NotFound
  else if index =? 0 then Found (plan_Requested p)
  else match plan_Fallbacks p !! Z.to_nat (index - 1) with Some t => Found t | None => Panic end.

(** The loop of [Remaining], [n] iterations from [index]. *)
Fixpoint remaining_from (p : RetryPlan) (index : Z) (n : nat) : list RetryTarget :=
  match n with
  | O => []
  | S n => match Target p index with
           | Found t => t :: remaining_from p (index + 1) n
           | _ => remaining_from p (index + 1) n
           end
  end.
Definition Remaining (p : RetryPlan) (attemptIndex : Z) : list RetryTarget :=
  if TargetCount p - 1 <=? attemptIndex then []
  else remaining_from p (attemptIndex + 1) (Z.to_nat (TargetCount p - 1 - attemptIndex)).

Definition NormalizeRetryTarget (t : RetryTarget) : RetryTarget :=
  mkRetryTarget (ToLower (TrimSpace (rt_Provider t))) (TrimSpace (rt_Model t)).

Definition RetryTargetKey (t : RetryTarget) : string :=
  let t := NormalizeRetryTarget t in
  let model := ToLower (rt_Model t) in
  if String.eqb (rt_Provider t) "" then model else rt_Provider t +:+ "/" +:+ model.

Definition FormatRetryTarget (t : RetryTarget) : string :=
  let t := NormalizeRetryTarget t in
  if String.eqb (rt_Provider t) "" then rt_Model t else rt_Provider t +:+ "/" +:+ rt_Model t.

(** [strings.Split(s, "/")]: the pieces between the separators. *)
Fixpoint split_slash (s : string) : list string :=
  match s with
  | "" => [""]
  | String a s =>
      if Ascii.eqb a "/" then "" :: split_slash s
      else match split_slash s with
           | [] => [String a ""]
           | piece :: rest => String a piece :: rest
           end
  end.

Inductive TargetError := TargetEmpty | TargetMissingModel (raw : string) | TargetMalformed (raw : string).

Definition ParseRetryTarget (raw : string) : result TargetError RetryTarget :=
  let trimmed := TrimSpace raw in
  if String.eqb trimmed "" then Err TargetEmpty
  else match split_slash trimmed with
       | [m] => Ok (NormalizeRetryTarget (mkRetryTarget "" m))
       | [p; m] =>
           let target := NormalizeRetryTarget (mkRetryTarget p m) in
           if String.eqb (rt_Model target) "" then Err (TargetMissingModel trimmed) else Ok target
       | _ => Err (TargetMalformed trimmed)
       end.

Definition normalizeFallbacks (l : list RetryTarget) : list RetryTarget :=
  filter (fun t => rt_Model t <> "") (NormalizeRetryTarget <$> l).

Definition NormalizeRetryChain (rows : list RetryChainRow) : list RetryChainRow :=
  filter (fun r => row_Model r <> "")
    ((fun r => mkRetryChainRow (TrimSpace (row_Model r)) (normalizeFallbacks (row_Fallbacks r))) <$> rows).

Inductive ChainError :=
  | MissingModel
  | DuplicateModel (model : string)
  | NoFallback (model : string)
  | FallbackWithoutModel (model : string)
  | InvalidProvider (model provider : string)
  | FallsBackToItself (model : string)
  | ListedTwice (model key : string).

Fixpoint has_space_or_tab (s : string) : bool :=
  match s with
  | "" => false
  | String a s => Ascii.eqb a " " || Ascii.eqb a "009" || has_space_or_tab s
  end.

Definition EqualFold (a b : string) : bool := String.eqb (ToLower a) (ToLower b).

Fixpoint validateFallbacks (model : string) (seen : gset string) (l : list RetryTarget) : result ChainError unit :=
  match l with
  | [] => Ok tt
  | fallback :: l =>
      let target := NormalizeRetryTarget fallback in
      if String.eqb (rt_Model target) "" then Err (FallbackWithoutModel model)
      else if negb (String.eqb (rt_Provider target) "") && has_space_or_tab (rt_Provider target)
           then Err (InvalidProvider model (rt_Provider target))
      else if EqualFold (rt_Model target) model && String.eqb (rt_Provider target) "" then Err (FallsBackToItself model)
      else let key := RetryTargetKey target in
           if bool_decide (key ∈ seen) then Err (ListedTwice model key)
           else validateFallbacks model ({[key]} ∪ seen) l
  end.

Fixpoint validateRows (seen : gset string) (rows : list RetryChainRow) : result ChainError unit :=
  match rows with
  | [] => Ok tt
  | row :: rows =>
      let model := TrimSpace (row_Model row) in
      if String.eqb model "" then Err MissingModel
      else let lower := ToLower model in
           if bool_decide (lower ∈ seen) then Err (DuplicateModel model)
           else match row_Fallbacks row with
                | [] => Err (NoFallback model)
                | fallbacks =>
                    let! _ := validateFallbacks model ∅ fallbacks in
                    validateRows ({[lower]} ∪ seen) rows
                end
  end.
Definition validateRetryChain (rows : list RetryChainRow) : result ChainError unit := validateRows ∅ rows.

Definition retryChainRowFor (rows : list RetryChainRow) (model : string) : option RetryChainRow :=
  let trimmed := TrimSpace model in
  if String.eqb trimmed "" then None
  else match List.find (fun row => String.eqb (TrimSpace (row_Model row)) trimmed) rows with
       | Some row => Some row
       | None => List.find (fun row => String.eqb (ToLower (TrimSpace (row_Model row))) (ToLower trimmed)) rows
       end.

(** ** Normalisation *)

Lemma NormalizeRetryTarget_idem t : NormalizeRetryTarget (NormalizeRetryTarget t) = NormalizeRetryTarget t.
Proof.
  unfold NormalizeRetryTarget. simpl. f_equal; [|apply TrimSpace_idem].
  by rewrite TrimSpace_ToLower, TrimSpace_idem, ToLower_idem.
Qed.

Lemma RetryTargetKey_normalized t : RetryTargetKey (NormalizeRetryTarget t) = RetryTargetKey t.
Proof. unfold RetryTargetKey. by rewrite NormalizeRetryTarget_idem. Qed.

Lemma normalizeFallbacks_idem l : normalizeFallbacks (normalizeFallbacks l) = normalizeFallbacks l.
Proof.
  unfold normalizeFallbacks. induction l as [|t l IH]; [done|]. rewrite fmap_cons, filter_cons.
  case_decide as D; [|done]. rewrite fmap_cons, NormalizeRetryTarget_idem, filter_cons.
  rewrite decide_True by done. by rewrite IH.
Qed.

Lemma NormalizeRetryChain_idem rows : NormalizeRetryChain (NormalizeRetryChain rows) = NormalizeRetryChain rows.
Proof.
  unfold NormalizeRetryChain. induction rows as [|r rows IH]; [done|]. rewrite fmap_cons, filter_cons. simpl.
  case_decide as D; [|done]. rewrite fmap_cons, filter_cons. simpl.
  rewrite TrimSpace_idem, decide_True, IH, normalizeFallbacks_idem by done. done.
Qed.

(** ** Textual form of a target *)

Lemma split_slash_app p s :
  "/"%char ∉ String.list_ascii_of_string p -> split_slash (p +:+ String "/" s) = p :: split_slash s.
Proof.
  induction p as [|a p IH]; simpl; intros Hp; [done|].
  apply not_elem_of_cons in Hp as [Ha Hp]. rewrite IH by done.
  destruct (Ascii.eqb_spec a "/"); [congruence|done].
Qed.

Lemma split_slash_none s : "/"%char ∉ String.list_ascii_of_string s -> split_slash s = [s].
Proof.
  induction s as [|a s IH]; simpl; intros Hs; [done|].
  apply not_elem_of_cons in Hs as [Ha Hs]. rewrite IH by done.
  destruct (Ascii.eqb_spec a "/"); [congruence|done].
Qed.

Lemma list_of_string_app a b :
  String.list_ascii_of_string (a +:+ b) = String.list_ascii_of_string a ++ String.list_ascii_of_string b.
Proof. induction a as [|x a IH]; simpl; [done|by rewrite IH]. Qed.

Lemma trimmed_sep p m :
  p <> "" -> m <> "" -> TrimSpace p = p -> TrimSpace m = m ->
  TrimSpace (p +:+ String "/" m) = p +:+ String "/" m.
Proof.
  intros Hp Hm Ep Em. apply TrimSpace_fixed in Ep, Em. apply TrimSpace_fixed.
  rewrite list_of_string_app. simpl. apply trim_list_sep; try done.
  - by destruct p.
  - by destruct m.
Qed.

(** A target in normal form, written without the separator in its names. *)
Record printable_target (t : RetryTarget) : Prop := {
  pt_normal : NormalizeRetryTarget t = t;
  pt_model : rt_Model t <> "";
  pt_provider_sep : "/"%char ∉ String.list_ascii_of_string (rt_Provider t);
  pt_model_sep : "/"%char ∉ String.list_ascii_of_string (rt_Model t);
}.

Lemma ParseRetryTarget_format t : printable_target t -> ParseRetryTarget (FormatRetryTarget t) = Ok t.
Proof.
  intros [N M SP SM]. unfold FormatRetryTarget. rewrite N. destruct t as [p m]; simpl in *.
  unfold NormalizeRetryTarget in N. simpl in N. injection N as Ep Em.
  unfold ParseRetryTarget. destruct (String.eqb_spec p "") as [->|Hp].
  - rewrite Em. destruct (String.eqb_spec m ""); [done|]. rewrite split_slash_none by done.
    unfold NormalizeRetryTarget. simpl. by rewrite Em.
  - assert (TrimSpace p = p) as Tp by (rewrite <- Ep, TrimSpace_ToLower, TrimSpace_idem; done).
    change (p +:+ "/" +:+ m) with (p +:+ String "/" m). rewrite trimmed_sep by done.
    destruct (String.eqb_spec (p +:+ String "/" m) "") as [E|_]; [by destruct p|].
    rewrite split_slash_app, split_slash_none by done. unfold NormalizeRetryTarget. simpl.
    rewrite Ep, Em. by destruct (String.eqb_spec m "").
Qed.

(** What [ParseRetryTarget] returns is in normal form with a model. *)
Lemma ParseRetryTarget_normal raw t :
  ParseRetryTarget raw = Ok t -> NormalizeRetryTarget t = t.
Proof.
  unfold ParseRetryTarget. repeat case_match; intros; simplify_eq; apply NormalizeRetryTarget_idem.
Qed.

(** ** Validity of a chain *)

Definition fallback_ok (model : string) (f : RetryTarget) : Prop :=
  let t := NormalizeRetryTarget f in
  rt_Model t <> "" /\ (rt_Provider t <> "" -> has_space_or_tab (rt_Provider t) = false)
  /\ ~ (EqualFold (rt_Model t) model = true /\ rt_Provider t = "").

Definition row_ok (row : RetryChainRow) : Prop :=
  TrimSpace (row_Model row) <> "" /\ row_Fallbacks row <> []
  /\ Forall (fallback_ok (TrimSpace (row_Model row))) (row_Fallbacks row)
  /\ NoDup (RetryTargetKey <$> row_Fallbacks row).

Definition row_key (row : RetryChainRow) : string := ToLower (TrimSpace (row_Model row)).

Lemma fallback_ok_dec model f :
  String.eqb (rt_Model (NormalizeRetryTarget f)) "" = false ->
  negb (String.eqb (rt_Provider (NormalizeRetryTarget f)) "") && has_space_or_tab (rt_Provider (NormalizeRetryTarget f)) = false ->
  EqualFold (rt_Model (NormalizeRetryTarget f)) model && String.eqb (rt_Provider (NormalizeRetryTarget f)) "" = false ->
  fallback_ok model f.
Proof.
  unfold fallback_ok. generalize (NormalizeRetryTarget f); intros t E1 E2 E3.
  destruct (String.eqb_spec (rt_Model t) ""), (String.eqb_spec (rt_Provider t) ""); simpl in *; try done;
    split_and!; try done; intros [? ?]; try done.
  by rewrite andb_true_r in E3; rewrite E3 in *.
Qed.

Lemma validateFallbacks_ok model seen l :
  validateFallbacks model seen l = Ok tt <->
  Forall (fallback_ok model) l /\ NoDup (RetryTargetKey <$> l) /\ (forall k, k ∈ RetryTargetKey <$> l -> k ∉ seen).
Proof.
  revert seen. induction l as [|f l IH]; intros seen; cbn [validateFallbacks].
  { split; [intros _; split_and!; [constructor|constructor|set_solver]|done]. }
  rewrite RetryTargetKey_normalized.
  destruct (String.eqb _ "") eqn:E1.
  { split; [done|]. intros (HF & _). apply Forall_cons in HF as [[H _] _]. apply String.eqb_eq in E1. by destruct H. }
  destruct (negb _ && _) eqn:E2.
  { split; [done|]. intros (HF & _). apply Forall_cons in HF as [(_ & H & _) _].
    apply andb_true_iff in E2 as [En Eh]. apply negb_true_iff, String.eqb_neq in En. by rewrite H in Eh. }
  destruct (EqualFold _ _ && _) eqn:E3.
  { split; [done|]. intros (HF & _). apply Forall_cons in HF as [(_ & _ & H) _].
    apply andb_true_iff in E3 as [Ef Ep]. destruct H. split; [done|]. by apply String.eqb_eq. }
  pose proof (fallback_ok_dec model f E1 E2 E3) as Hf.
  case_bool_decide as D.
  { split; [done|]. intros (_ & _ & H). exfalso. eapply H; [|done]. constructor. }
  rewrite IH, Forall_cons, fmap_cons, NoDup_cons. set_solver.
Qed.

Lemma validateRows_ok seen rows :
  validateRows seen rows = Ok tt <->
  Forall row_ok rows /\ NoDup (row_key <$> rows) /\ (forall k, k ∈ row_key <$> rows -> k ∉ seen).
Proof.
  revert seen. induction rows as [|row rows IH]; intros seen; cbn [validateRows].
  { split; [intros _; split_and!; [constructor|constructor|set_solver]|done]. }
  fold (row_key row). rewrite Forall_cons, fmap_cons, NoDup_cons. unfold row_ok at 1.
  destruct (String.eqb_spec (TrimSpace (row_Model row)) ""); [naive_solver|].
  case_bool_decide as D.
  { split; [done|]. intros (_ & _ & H). exfalso. eapply H; [|done]. constructor. }
  destruct (row_Fallbacks row) as [|f fs] eqn:Ef; [naive_solver|].
  destruct (validateFallbacks _ ∅ (f :: fs)) as [[]|e] eqn:V; cbn [rbind].
  - apply validateFallbacks_ok in V as (HF & HN & _). rewrite IH. set_solver.
  - split; [done|]. intros (((_ & _ & HF & HN) & _) & _).
    assert (validateFallbacks (TrimSpace (row_Model row)) ∅ (f :: fs) = Ok tt) as V'.
    { apply validateFallbacks_ok. split_and!; [done|done|set_solver]. }
    congruence.
Qed.

(** ** Attempt plans *)

Lemma TargetCount_bounds p : 1 <= TargetCount p <= 1 + Z.of_nat (length (plan_Fallbacks p)).
Proof. unfold TargetCount. branch; to_prop; lia. Qed.

Lemma Target_in_budget p i :
  0 <= i < TargetCount p ->
  Target p i = match i with 0 => Found (plan_Requested p)
               | _ => match plan_Fallbacks p !! Z.to_nat (i - 1) with Some t => Found t | None => Panic end end
  /\ Target p i <> Panic.
Proof.
  intros Hi. pose proof (TargetCount_bounds p). unfold Target.
  replace ((i <? 0) || (TargetCount p <=? i)) with false by lia.
  destruct (Z.eqb_spec i 0) as [->|Hne]; [done|].
  destruct (lookup_lt_is_Some_2 (plan_Fallbacks p) (Z.to_nat (i - 1))) as [t Ht]; [lia|].
  rewrite Ht. destruct i; done.
Qed.

Lemma remaining_from_drop p n i :
  1 <= i -> Z.of_nat n + i = TargetCount p ->
  remaining_from p i n = take n (drop (Z.to_nat (i - 1)) (plan_Fallbacks p)).
Proof.
  revert i. induction n as [|n IH]; intros i H1 Hn; simpl; [done|].
  pose proof (TargetCount_bounds p).
  destruct (Target_in_budget p i) as [E _]; [lia|]. rewrite E.
  destruct (lookup_lt_is_Some_2 (plan_Fallbacks p) (Z.to_nat (i - 1))) as [t Ht]; [lia|].
  rewrite Ht, IH by lia. rewrite (drop_S _ t (Z.to_nat (i - 1))) by done. simpl.
  replace (Z.to_nat (i + 1 - 1)) with (S (Z.to_nat (i - 1))) by lia. by destruct i.
Qed.

(** ** Properties *)

(** Round trip of retry targets: a target in normal form without the
    separator in its names is read back from its text. *)
Theorem retry_target_roundtrip (t : RetryTarget) :
  printable_target t -> ParseRetryTarget (FormatRetryTarget t) = Ok t.
Proof. apply ParseRetryTarget_format. Qed.

Lemma retry_target_roundtrip_witness :
  ParseRetryTarget (FormatRetryTarget (mkRetryTarget "codex" "gpt-5")) = Ok (mkRetryTarget "codex" "gpt-5").
Proof.
  apply retry_target_roundtrip. split.
  - vm_compute. reflexivity.
  - vm_compute. discriminate.
  - apply (bool_decide_unpack _). vm_compute. exact I.
  - apply (bool_decide_unpack _). vm_compute. exact I.
Defined.

(** A retry chain is accepted exactly when every row names a model and at
    least one valid fallback, no row repeats a fallback or falls back to itself,
    and no two rows are for the same model up to case and space. *)
Theorem retry_chain_validation (rows : list RetryChainRow) :
  validateRetryChain rows = Ok tt <-> Forall row_ok rows /\ NoDup (row_key <$> rows).
Proof.
  unfold validateRetryChain. rewrite validateRows_ok. split; [by intros (? & ? & _)|].
  intros [? ?]. split_and!; [done|done|]. intros. apply not_elem_of_empty.
Qed.

(** The attempts of a plan: an attempt index yields a target exactly when it
    is within the budget, indexing never goes out of range, and the remaining
    targets after attempt [i] are the fallbacks from the [i]-th up to the budget. *)
Theorem retry_plan_attempts (p : RetryPlan) (i : Z) :
  Target p i <> Panic
  /\ ((exists t, Target p i = Found t) <-> 0 <= i < TargetCount p)
  /\ (0 <= i -> Remaining p i = take (Z.to_nat (TargetCount p - 1 - i)) (drop (Z.to_nat i) (plan_Fallbacks p))).
Proof.
  destruct (decide (0 <= i < TargetCount p)) as [Hi|Hi].
  - destruct (Target_in_budget p i Hi) as [E Hn]. split_and!; [done| |].
    + split; [done|]. intros _. destruct (Target p i) as [t| |] eqn:Et; [by exists t| |done].
      exfalso. unfold Target in Et. destruct (_ || _) eqn:Eb; [lia|]. repeat case_match; done.
    + intros _. unfold Remaining. destruct (Z.leb_spec (TargetCount p - 1) i).
      * by replace (Z.to_nat (TargetCount p - 1 - i)) with 0%nat by lia.
      * rewrite remaining_from_drop by lia. do 2 f_equal. lia.
  - assert (Target p i = NotFound) as E by (unfold Target; by replace ((i <? 0) || (TargetCount p <=? i)) with true by lia).
    rewrite E. split_and!; [done| |].
    + split; [by intros (t & ?)|done].
    + intros H0. unfold Remaining. replace (TargetCount p - 1 <=? i) with true by lia.
      by replace (Z.to_nat (TargetCount p - 1 - i)) with 0%nat by lia.
Qed.

Lemma retry_plan_attempts_witness :
  Remaining (mkRetryPlan "k" (mkRetryTarget "" "m") [mkRetryTarget "" "x"; mkRetryTarget "" "y"] 2) 0 = [mkRetryTarget "" "x"].
Proof.
  refine (proj2 (proj2 (retry_plan_attempts (mkRetryPlan "k" (mkRetryTarget "" "m") [mkRetryTarget "" "x"; mkRetryTarget "" "y"] 2) 0)) _).
  vm_compute. discriminate.
Defined.
