(* ===== verification/Config.v ===== *)
(** * Plugin configuration (config.go, the plan lookup of retry_chain.go and
    the normalisation of disk_state.go)

    The configuration record, its defaults, [NormalizeConfig] and what every
    normalised configuration satisfies. *)

From S2P Require Import Prelude GoStrings RetryChain.
#[local] Open Scope string_scope.
#[local] Open Scope list_scope.
#[local] Open Scope Z_scope.
#[local] Open Scope go_scope.

Definition chatGPTQuotaEndpoint : string := "https://chatgpt.com/backend-api/wham/usage".
Definition MonthlyModePriority : string := "priority".
Definition MonthlyModeExpiryOrder : string := "expiry_order".
Definition FallbackFillFirst : string := "fill-first".

Definition defaultRetryMaxAttempts : Z := 4.
Definition maxRetryMaxAttempts : Z := 16.
Definition defaultRetryStallTimeout : Duration := 60 * Second.
Definition defaultRetryHoldTimeout : Duration := 90 * Second.
Definition defaultRetryChainDeadline : Duration := 240 * Second.
Definition defaultRetryMaxFrames : Z := 4096.
Definition defaultRetryMaxBytes : Z := Z.shiftl 8 20.

Record Config := mkConfig {
  HandleEnabled : bool;
  QuotaRefreshInterval : Duration;
  StaleAfter : Duration;
  MonthlyMode : string;
  Fallback : string;
  EnableUsageFeedback : bool;
  EnableResetProbe : bool;
  ProbeOnProvisionalRoster : bool;
  MaxRefreshConcurrency : Z;
  QuotaEndpoint : string;
  RefreshActiveWindow : Duration;
  RefreshAfterResetDelay : Duration;
  RefreshRetryDelays : list Duration;
  AuthFailureRetryInterval : Duration;
  RefreshOnStartup : bool;
  CircuitFailureThreshold : Z;
  CircuitOpenDuration : Duration;
  CircuitHalfOpenSuccessThreshold : Z;
  MaxLogEntries : Z;
  LogRetention : Duration;
  ScheduleAcrossPriorities : bool;
  EnableManagedQuotaDisable : bool;
  LifecycleEventLimit : Z;
  RetryEnabled : bool;
  RetryShadow : bool;
  RetryAlways : bool;
  RetryMaxAttempts : Z;
  RetryStallTimeout : Duration;
  RetryHoldTimeout : Duration;
  RetryChainDeadline : Duration;
  RetryMaxFrames : Z;
  RetryMaxBytes : Z;
  RetryStripReasoning : bool;
  RetryChain : list RetryChainRow;
}.

#[export] Instance Config_eta : Eta Config := fun c => mkConfig
  (HandleEnabled c) (QuotaRefreshInterval c) (StaleAfter c) (MonthlyMode c) (Fallback c)
  (EnableUsageFeedback c) (EnableResetProbe c) (ProbeOnProvisionalRoster c) (MaxRefreshConcurrency c)
  (QuotaEndpoint c) (RefreshActiveWindow c) (RefreshAfterResetDelay c) (RefreshRetryDelays c)
  (AuthFailureRetryInterval c) (RefreshOnStartup c) (CircuitFailureThreshold c) (CircuitOpenDuration c)
  (CircuitHalfOpenSuccessThreshold c) (MaxLogEntries c) (LogRetention c) (ScheduleAcrossPriorities c)
  (EnableManagedQuotaDisable c) (LifecycleEventLimit c) (RetryEnabled c) (RetryShadow c) (RetryAlways c)
  (RetryMaxAttempts c) (RetryStallTimeout c) (RetryHoldTimeout c) (RetryChainDeadline c) (RetryMaxFrames c)
  (RetryMaxBytes c) (RetryStripReasoning c) (RetryChain c).

Definition DefaultConfig : Config := {|
  HandleEnabled := true;
  QuotaRefreshInterval := 30 * Minute;
  StaleAfter := 5 * Hour;
  MonthlyMode := MonthlyModeExpiryOrder;
  Fallback := FallbackFillFirst;
  EnableUsageFeedback := true;
  EnableResetProbe := false;
  ProbeOnProvisionalRoster := false;
  MaxRefreshConcurrency := 1;
  QuotaEndpoint := chatGPTQuotaEndpoint;
  RefreshActiveWindow := Hour;
  RefreshAfterResetDelay := Minute;
  RefreshRetryDelays := [Minute; 5 * Minute; 15 * Minute];
  AuthFailureRetryInterval := 30 * Minute;
  RefreshOnStartup := false;
  CircuitFailureThreshold := 5;
  CircuitOpenDuration := 30 * Minute;
  CircuitHalfOpenSuccessThreshold := 2;
  MaxLogEntries := 200;
  LogRetention := 24 * Hour;
  ScheduleAcrossPriorities := true;
  EnableManagedQuotaDisable := false;
  LifecycleEventLimit := 50;
  RetryEnabled := false;
  RetryShadow := false;
  RetryAlways := false;
  RetryMaxAttempts := defaultRetryMaxAttempts;
  RetryStallTimeout := defaultRetryStallTimeout;
  RetryHoldTimeout := defaultRetryHoldTimeout;
  RetryChainDeadline := defaultRetryChainDeadline;
  RetryMaxFrames := defaultRetryMaxFrames;
  RetryMaxBytes := defaultRetryMaxBytes;
  RetryStripReasoning := true;
  RetryChain := [];
|}.

Definition normalizeRetryDelays (values fallback : list Duration) : list Duration :=
  match filter (fun v => 0 < v) values with
  | [] => fallback
  | normalized => normalized
  end.

(** The replacement of a value that is not positive by its default. *)
Definition positive_or (v default : Z) : Z := if v <=? 0 then default else v.

Definition NormalizeConfig (cfg : Config) : Config :=
  let d := DefaultConfig in {|
  HandleEnabled := HandleEnabled cfg;
  QuotaRefreshInterval := positive_or (QuotaRefreshInterval cfg) (QuotaRefreshInterval d);
  StaleAfter := positive_or (StaleAfter cfg) (StaleAfter d);
  MonthlyMode := if String.eqb (MonthlyMode cfg) "" then MonthlyMode d else MonthlyMode cfg;
  Fallback := if String.eqb (Fallback cfg) "" then Fallback d else Fallback cfg;
  EnableUsageFeedback := EnableUsageFeedback cfg;
  EnableResetProbe := EnableResetProbe cfg;
  ProbeOnProvisionalRoster := ProbeOnProvisionalRoster cfg;
  MaxRefreshConcurrency := positive_or (MaxRefreshConcurrency cfg) (MaxRefreshConcurrency d);
  QuotaEndpoint := if String.eqb (TrimSpace (QuotaEndpoint cfg)) "" then QuotaEndpoint d else QuotaEndpoint cfg;
  RefreshActiveWindow := positive_or (RefreshActiveWindow cfg) (RefreshActiveWindow d);
  RefreshAfterResetDelay := positive_or (RefreshAfterResetDelay cfg) (RefreshAfterResetDelay d);
  RefreshRetryDelays := normalizeRetryDelays (RefreshRetryDelays cfg) (RefreshRetryDelays d);
  AuthFailureRetryInterval := positive_or (AuthFailureRetryInterval cfg) (AuthFailureRetryInterval d);
  RefreshOnStartup := RefreshOnStartup cfg;
  CircuitFailureThreshold := positive_or (CircuitFailureThreshold cfg) (CircuitFailureThreshold d);
  CircuitOpenDuration := positive_or (CircuitOpenDuration cfg) (CircuitOpenDuration d);
  CircuitHalfOpenSuccessThreshold :=
    positive_or (CircuitHalfOpenSuccessThreshold cfg) (CircuitHalfOpenSuccessThreshold d);
  MaxLogEntries := positive_or (MaxLogEntries cfg) (MaxLogEntries d);
  LogRetention := positive_or (LogRetention cfg) (LogRetention d);
  ScheduleAcrossPriorities := ScheduleAcrossPriorities cfg;
  EnableManagedQuotaDisable := EnableManagedQuotaDisable cfg;
  LifecycleEventLimit := LifecycleEventLimit cfg;
  RetryEnabled := RetryEnabled cfg;
  RetryShadow := RetryShadow cfg;
  RetryAlways := RetryAlways cfg;
  RetryMaxAttempts :=
    let n := positive_or (RetryMaxAttempts cfg) (RetryMaxAttempts d) in
    if maxRetryMaxAttempts <? n then maxRetryMaxAttempts else n;
  RetryStallTimeout := positive_or (RetryStallTimeout cfg) (RetryStallTimeout d);
  RetryHoldTimeout := positive_or (RetryHoldTimeout cfg) (RetryHoldTimeout d);
  RetryChainDeadline := positive_or (RetryChainDeadline cfg) (RetryChainDeadline d);
  RetryMaxFrames := positive_or (RetryMaxFrames cfg) (RetryMaxFrames d);
  RetryMaxBytes := positive_or (RetryMaxBytes cfg) (RetryMaxBytes d);
  RetryStripReasoning := RetryStripReasoning cfg;
  RetryChain := NormalizeRetryChain (RetryChain cfg);
|}.

Definition validateQuotaEndpoint (raw : string) : result string string :=
  let endpoint := TrimSpace raw in
  if String.eqb endpoint "" then Ok ""
  else if negb (String.eqb endpoint chatGPTQuotaEndpoint)
       then Err ("quota_endpoint must be " +:+ chatGPTQuotaEndpoint)
       else Ok endpoint.

(** The configuration part of [normalizePluginDiskState]. *)
Definition normalizeDiskConfig (cfg : Config) : Config :=
  let cfg := if (QuotaRefreshInterval cfg <=? 0) && (StaleAfter cfg <=? 0) && String.eqb (MonthlyMode cfg) ""
             then DefaultConfig else cfg in
  let cfg := NormalizeConfig cfg in
  match validateQuotaEndpoint (QuotaEndpoint cfg) with
  | Err _ => cfg <| QuotaEndpoint := QuotaEndpoint DefaultConfig |>
  | Ok _ => cfg
  end.

Definition RetryPlanFor (cfg : Config) (model : string) : option RetryPlan :=
  let maxAttempts := if RetryMaxAttempts cfg <=? 0 then RetryMaxAttempts DefaultConfig else RetryMaxAttempts cfg in
  match retryChainRowFor (RetryChain cfg) model with
  | None =>
      if RetryAlways cfg && negb (String.eqb (TrimSpace model) "") then
        Some {| plan_Key := TrimSpace model;
                plan_Requested := NormalizeRetryTarget (mkRetryTarget "" model);
                plan_Fallbacks := replicate (Z.to_nat (maxAttempts - 1)) (NormalizeRetryTarget (mkRetryTarget "" model));
                plan_MaxAttempts := maxAttempts |}
      else None
  | Some row =>
      Some {| plan_Key := TrimSpace (row_Model row);
              plan_Requested := NormalizeRetryTarget (mkRetryTarget "" (TrimSpace (row_Model row)));
              plan_Fallbacks := NormalizeRetryTarget <$> row_Fallbacks row;
              plan_MaxAttempts := maxAttempts |}
  end.

Definition RetryActive (cfg : Config) : bool :=
  RetryEnabled cfg && (RetryAlways cfg || negb (bool_decide (RetryChain cfg = []))).

(** ** Normalised configurations *)

(** What the rest of the program relies on: every duration and threshold is
    positive, the retry delays are a non-empty list of positive durations, the
    attempt budget is within its limit. *)
Record config_wf (c : Config) : Prop := {
  wf_interval : 0 < QuotaRefreshInterval c;
  wf_stale : 0 < StaleAfter c;
  wf_mode : MonthlyMode c <> "";
  wf_fallback : Fallback c <> "";
  wf_concurrency : 0 < MaxRefreshConcurrency c;
  wf_endpoint : TrimSpace (QuotaEndpoint c) <> "";
  wf_active : 0 < RefreshActiveWindow c;
  wf_delay : 0 < RefreshAfterResetDelay c;
  wf_delays : RefreshRetryDelays c <> [] /\ Forall (fun d => 0 < d) (RefreshRetryDelays c);
  wf_auth : 0 < AuthFailureRetryInterval c;
  wf_threshold : 0 < CircuitFailureThreshold c;
  wf_open : 0 < CircuitOpenDuration c;
  wf_half : 0 < CircuitHalfOpenSuccessThreshold c;
  wf_logs : 0 < MaxLogEntries c;
  wf_retention : 0 < LogRetention c;
  wf_attempts : 1 <= RetryMaxAttempts c <= maxRetryMaxAttempts;
  wf_stall : 0 < RetryStallTimeout c;
  wf_hold : 0 < RetryHoldTimeout c;
  wf_deadline : 0 < RetryChainDeadline c;
  wf_frames : 0 < RetryMaxFrames c;
  wf_bytes : 0 < RetryMaxBytes c;
  wf_chain : NormalizeRetryChain (RetryChain c) = RetryChain c;
}.

Lemma positive_or_pos v d : 0 < d -> 0 < positive_or v d.
Proof. unfold positive_or. intros. branch; to_prop; lia. Qed.

Lemma positive_or_id v d : 0 < v -> positive_or v d = v.
Proof. unfold positive_or. intros. branch; to_prop; lia. Qed.

Lemma normalizeRetryDelays_pos values fallback :
  fallback <> [] -> Forall (fun d => 0 < d) fallback ->
  normalizeRetryDelays values fallback <> [] /\ Forall (fun d => 0 < d) (normalizeRetryDelays values fallback).
Proof.
  unfold normalizeRetryDelays. intros. destruct (filter _ values) as [|v vs] eqn:E; [done|].
  split; [done|]. rewrite <- E. apply Forall_forall. intros x Hx. by apply list_elem_of_filter in Hx as [? _].
Qed.

Lemma normalizeRetryDelays_id values fallback :
  values <> [] -> Forall (fun d => 0 < d) values -> normalizeRetryDelays values fallback = values.
Proof.
  unfold normalizeRetryDelays. intros Hne HF. rewrite filter_id by done. by destruct values.
Qed.

Lemma endpoint_default_nonblank : TrimSpace chatGPTQuotaEndpoint <> "".
Proof. vm_compute. done. Qed.

Lemma NormalizeConfig_wf cfg : config_wf (NormalizeConfig cfg).
Proof.
  split; simpl; try (apply positive_or_pos; vm_compute; done).
  - by destruct (String.eqb_spec (MonthlyMode cfg) "").
  - by destruct (String.eqb_spec (Fallback cfg) "").
  - destruct (String.eqb_spec (TrimSpace (QuotaEndpoint cfg)) ""); [apply endpoint_default_nonblank|done].
  - apply normalizeRetryDelays_pos; [done|]. repeat constructor.
  - unfold positive_or, defaultRetryMaxAttempts, maxRetryMaxAttempts. repeat branch; to_prop; lia.
  - apply NormalizeRetryChain_idem.
Qed.

Lemma NormalizeConfig_id cfg : config_wf cfg -> NormalizeConfig cfg = cfg.
Proof.
  intros []. destruct cfg; unfold NormalizeConfig; simpl in *.
  f_equal; try (apply positive_or_id; done); try done.
  - destruct (String.eqb_spec MonthlyMode0 ""); [|reflexivity]. exfalso. auto.
  - by destruct (String.eqb_spec Fallback0 "").
  - by destruct (String.eqb_spec (TrimSpace QuotaEndpoint0) "").
  - destruct wf_delays0. by apply normalizeRetryDelays_id.
  - rewrite positive_or_id by lia. branch; to_prop; lia.
Qed.

Lemma RetryPlanFor_budget cfg model p :
  RetryPlanFor cfg model = Some p ->
  plan_MaxAttempts p = positive_or (RetryMaxAttempts cfg) defaultRetryMaxAttempts
  /\ 1 <= TargetCount p <= plan_MaxAttempts p.
Proof.
  unfold RetryPlanFor, positive_or. intros H.
  assert (plan_MaxAttempts p = if RetryMaxAttempts cfg <=? 0 then defaultRetryMaxAttempts else RetryMaxAttempts cfg)
    as E by (repeat case_match; by simplify_eq).
  split; [done|]. pose proof (TargetCount_bounds p).
  assert (0 < plan_MaxAttempts p) by (rewrite E; unfold defaultRetryMaxAttempts; branch; to_prop; lia).
  split; [lia|]. unfold TargetCount. branch; to_prop; lia.
Qed.

Lemma DefaultConfig_wf : config_wf DefaultConfig.
Proof. rewrite <- (eq_refl : NormalizeConfig DefaultConfig = DefaultConfig). apply NormalizeConfig_wf. Qed.

(** ** Properties *)

(** Normalisation of the configuration: whatever was decoded, the normalised
    configuration has positive durations and thresholds, a non-empty list of
    positive retry delays, an attempt budget between 1 and its limit and a
    normalised chain; it is a fixed point, and a well-formed configuration is
    not changed. *)
Theorem normalize_config_sound (cfg : Config) :
  config_wf (NormalizeConfig cfg) /\ NormalizeConfig (NormalizeConfig cfg) = NormalizeConfig cfg
  /\ (config_wf cfg <-> NormalizeConfig cfg = cfg).
Proof.
  pose proof (NormalizeConfig_wf cfg) as Hw. split_and!; [done|by apply NormalizeConfig_id|].
  split; [apply NormalizeConfig_id|]. intros E. by rewrite <- E.
Qed.

(** A retry plan never exceeds the attempt budget: with a normalised
    configuration every plan allows at least one and at most
    [RetryMaxAttempts], hence at most 16, attempts. *)
Theorem retry_plan_within_budget (cfg : Config) (model : string) (p : RetryPlan) :
  RetryPlanFor (NormalizeConfig cfg) model = Some p ->
  1 <= TargetCount p <= RetryMaxAttempts (NormalizeConfig cfg) /\ TargetCount p <= maxRetryMaxAttempts.
Proof.
  intros [E H]%RetryPlanFor_budget. pose proof (wf_attempts _ (NormalizeConfig_wf cfg)).
  rewrite positive_or_id in E by lia. lia.
Qed.

Lemma retry_plan_within_budget_witness :
  exists p, RetryPlanFor (NormalizeConfig (DefaultConfig <| RetryAlways := true |>)) "m" = Some p
    /\ 1 <= TargetCount p <= 4.
Proof.
  eexists. split; [vm_compute; reflexivity|].
  refine (proj1 (retry_plan_within_budget (DefaultConfig <| RetryAlways := true |>) "m" _ _)). vm_compute. reflexivity.
Defined.
