(* ===== verification/Models.v ===== *)
(** * Data model (models.go, the view types of selection.go, identity.go)

    The structs the scheduler keeps per account.  A pointer field is an
    [option]; a Go enumeration of strings with a closed set of values is an
    inductive type with one constructor per constant and one for the zero
    value [""]; the map keys ([WindowKind]) stay strings. *)

From S2P Require Import Prelude Float64 Config.
#[local] Open Scope string_scope.
#[local] Open Scope list_scope.
#[local] Open Scope Z_scope.
#[local] Open Scope go_scope.

Inductive AccountFamily := AccountFamilyNone | AccountFamilyUnknown | AccountFamilyWeekly | AccountFamilyMonthly.
#[export] Instance AccountFamily_eq_dec : EqDecision AccountFamily.
Proof. solve_decision. Defined.

Abbreviation WindowKind := string (only parsing).
Definition WindowFiveHour : WindowKind := "five_hour".
Definition WindowWeekly : WindowKind := "weekly".
Definition WindowMonthly : WindowKind := "monthly".

Record QuotaWindow := mkQuotaWindow {
  qw_Kind : WindowKind;
  qw_UsedPercent : option float64;
  qw_LimitWindowSeconds : option Z;
  qw_ResetAt : Time;
  qw_Exhausted : bool;
}.
#[export] Instance QuotaWindow_eta : Eta QuotaWindow := fun r => mkQuotaWindow
  (qw_Kind r) (qw_UsedPercent r) (qw_LimitWindowSeconds r) (qw_ResetAt r) (qw_Exhausted r).

Record ResetCredit := mkResetCredit {
  rc_ID : string;
  rc_Status : string;
  rc_GrantedAt : Time;
  rc_ExpiresAt : Time;
  rc_UsedAt : Time;
}.
#[export] Instance ResetCredit_eta : Eta ResetCredit := fun r => mkResetCredit
  (rc_ID r) (rc_Status r) (rc_GrantedAt r) (rc_ExpiresAt r) (rc_UsedAt r).

Record ParsedQuota := mkParsedQuota {
  pq_PlanType : string;
  pq_Family : AccountFamily;
  pq_FiveHour : option QuotaWindow;
  pq_LongWindow : option QuotaWindow;
  pq_CodeReviewWindows : list QuotaWindow;
  pq_AdditionalWindows : list QuotaWindow;
  pq_ResetCreditsAvailableCount : option Z;
  pq_ResetCreditsTotalEarnedCount : option Z;
  pq_ResetCredits : list ResetCredit;
}.
#[export] Instance ParsedQuota_eta : Eta ParsedQuota := fun r => mkParsedQuota
  (pq_PlanType r) (pq_Family r) (pq_FiveHour r) (pq_LongWindow r) (pq_CodeReviewWindows r)
  (pq_AdditionalWindows r) (pq_ResetCreditsAvailableCount r) (pq_ResetCreditsTotalEarnedCount r)
  (pq_ResetCredits r).

Definition emptyQuota : ParsedQuota := mkParsedQuota "" AccountFamilyNone None None [] [] None None [].

Inductive CircuitState := CircuitStateNone | CircuitStateClosed | CircuitStateOpen | CircuitStateHalfOpen.
#[export] Instance CircuitState_eq_dec : EqDecision CircuitState.
Proof. solve_decision. Defined.

Record CircuitBreakerState := mkCircuit {
  cb_State : CircuitState;
  cb_EffectiveState : CircuitState;
  cb_FailureCount : Z;
  cb_SuccessCount : Z;
  cb_OpenedAt : Time;
  cb_NextProbeAt : Time;
  cb_Reason : string;
  cb_LastFailureAt : Time;
  cb_LastSuccessAt : Time;
}.
#[export] Instance CircuitBreakerState_eta : Eta CircuitBreakerState := fun r => mkCircuit
  (cb_State r) (cb_EffectiveState r) (cb_FailureCount r) (cb_SuccessCount r) (cb_OpenedAt r)
  (cb_NextProbeAt r) (cb_Reason r) (cb_LastFailureAt r) (cb_LastSuccessAt r).

Definition emptyCircuit : CircuitBreakerState :=
  mkCircuit CircuitStateNone CircuitStateNone 0 0 zeroTime zeroTime "" zeroTime zeroTime.
Definition closedCircuit : CircuitBreakerState :=
  mkCircuit CircuitStateClosed CircuitStateClosed 0 0 zeroTime zeroTime "" zeroTime zeroTime.

Inductive RefreshFailureKind :=
  RefreshFailureNone | RefreshFailureTransient | RefreshFailureAuth | RefreshFailureLocal.
#[export] Instance RefreshFailureKind_eq_dec : EqDecision RefreshFailureKind.
Proof. solve_decision. Defined.

Record AccountRefreshState := mkRefresh {
  rf_LastFailureKind : RefreshFailureKind;
  rf_RetryAttempt : Z;
  rf_NextRetryAt : Time;
  rf_AuthFailure : bool;
  rf_DueReason : string;
  rf_LastFailureAt : Time;
}.
#[export] Instance AccountRefreshState_eta : Eta AccountRefreshState := fun r => mkRefresh
  (rf_LastFailureKind r) (rf_RetryAttempt r) (rf_NextRetryAt r) (rf_AuthFailure r) (rf_DueReason r)
  (rf_LastFailureAt r).

Definition emptyRefresh : AccountRefreshState := mkRefresh RefreshFailureNone 0 zeroTime false "" zeroTime.

Inductive ResetProbeStatus :=
  ResetProbeStatusNone | ResetProbeStatusPending | ResetProbeStatusConfirmedActive
  | ResetProbeStatusVerified | ResetProbeStatusFailed.
#[export] Instance ResetProbeStatus_eq_dec : EqDecision ResetProbeStatus.
Proof. solve_decision. Defined.

Record ResetProbeState := mkResetProbe {
  rp_WindowKind : WindowKind;
  rp_WindowSeconds : Z;
  rp_ResetAt : Time;
  rp_NextCheckAt : Time;
  rp_LastProbeAt : Time;
  rp_VerifiedAt : Time;
  rp_Attempts : Z;
  rp_Status : ResetProbeStatus;
  rp_Error : string;
}.
#[export] Instance ResetProbeState_eta : Eta ResetProbeState := fun r => mkResetProbe
  (rp_WindowKind r) (rp_WindowSeconds r) (rp_ResetAt r) (rp_NextCheckAt r) (rp_LastProbeAt r)
  (rp_VerifiedAt r) (rp_Attempts r) (rp_Status r) (rp_Error r).

Record AccountAnnotation := mkAnnotation {
  an_Alias : string;
  an_Notes : string;
  an_Tags : list string;
  an_GroupID : string;
  an_SchedulerPriority : Z;
}.
#[export] Instance AccountAnnotation_eta : Eta AccountAnnotation := fun r => mkAnnotation
  (an_Alias r) (an_Notes r) (an_Tags r) (an_GroupID r) (an_SchedulerPriority r).

Definition emptyAnnotation : AccountAnnotation := mkAnnotation "" "" [] "" 0.

Record GroupAnnotation := mkGroup {
  gr_Name : string;
  gr_Notes : string;
  gr_Tags : list string;
  gr_Color : string;
}.
#[export] Instance GroupAnnotation_eta : Eta GroupAnnotation := fun r => mkGroup
  (gr_Name r) (gr_Notes r) (gr_Tags r) (gr_Color r).

Record AnnotationState := mkAnnotations {
  ann_Accounts : gmap string AccountAnnotation;
  ann_Groups : gmap string GroupAnnotation;
}.
#[export] Instance AnnotationState_eta : Eta AnnotationState := fun r => mkAnnotations
  (ann_Accounts r) (ann_Groups r).

(** The epochs and instance identifiers are [uint64]. *)
Abbreviation AuthInstanceID := Z (only parsing).
Abbreviation InstanceAdmissionEpoch := Z (only parsing).
Abbreviation TierGeneration := Z (only parsing).
Abbreviation AuthBindingEpoch := Z (only parsing).
Abbreviation LoginEpoch := Z (only parsing).
Abbreviation TokenEpoch := Z (only parsing).

(** SHA-256 digests are strings of 32 bytes. *)

Record CredentialFingerprint := mkFingerprint {
  fp_SubjectHash : string;
  fp_RefreshTokenHash : string;
  fp_MetadataHash : string;
  fp_CompositeHash : string;
}.
#[export] Instance CredentialFingerprint_eta : Eta CredentialFingerprint := fun r => mkFingerprint
  (fp_SubjectHash r) (fp_RefreshTokenHash r) (fp_MetadataHash r) (fp_CompositeHash r).

#[export] Instance CredentialFingerprint_eq_dec : EqDecision CredentialFingerprint.
Proof. solve_decision. Defined.
Definition zeroHash : string := String.string_of_list_ascii (replicate 32 Ascii.zero).
Definition zeroFingerprint : CredentialFingerprint := mkFingerprint zeroHash zeroHash zeroHash zeroHash.

Record AccountState := mkAccount {
  a_Identity : Z;
  a_Instance : AuthInstanceID;
  a_AdmissionEpoch : InstanceAdmissionEpoch;
  a_BindingEpoch : AuthBindingEpoch;
  a_LoginEpoch : LoginEpoch;
  a_TokenEpoch : TokenEpoch;
  a_TierGeneration : TierGeneration;
  a_CredentialFingerprint : CredentialFingerprint;
  a_AuthID : string;
  a_AuthIndex : string;
  a_DisplayName : string;
  a_Email : string;
  a_Provider : string;
  a_Priority : Z;
  a_ChatGPTAccountID : string;
  a_Family : AccountFamily;
  a_Quota : ParsedQuota;
  a_LastRefreshAt : Time;
  a_LastSuccessAt : Time;
  a_LastObservedAt : Time;
  a_LastError : string;
  a_Stale : bool;
  a_TemporaryExhausted : bool;
  a_TemporaryResetAt : Time;
  a_Circuit : CircuitBreakerState;
  a_Refresh : AccountRefreshState;
  a_ResetProbes : gmap WindowKind ResetProbeState;
  a_Annotation : AccountAnnotation;
}.
#[export] Instance AccountState_eta : Eta AccountState := fun r => mkAccount
  (a_Identity r) (a_Instance r) (a_AdmissionEpoch r) (a_BindingEpoch r) (a_LoginEpoch r) (a_TokenEpoch r)
  (a_TierGeneration r) (a_CredentialFingerprint r) (a_AuthID r) (a_AuthIndex r) (a_DisplayName r) (a_Email r)
  (a_Provider r) (a_Priority r) (a_ChatGPTAccountID r) (a_Family r) (a_Quota r) (a_LastRefreshAt r)
  (a_LastSuccessAt r) (a_LastObservedAt r) (a_LastError r) (a_Stale r) (a_TemporaryExhausted r)
  (a_TemporaryResetAt r) (a_Circuit r) (a_Refresh r) (a_ResetProbes r) (a_Annotation r).

Definition emptyAccount : AccountState :=
  mkAccount 0 0 0 0 0 0 0 zeroFingerprint "" "" "" "" "" 0 "" AccountFamilyNone emptyQuota zeroTime zeroTime
    zeroTime "" false false zeroTime emptyCircuit emptyRefresh ∅ emptyAnnotation.

Record TierAdmission := mkTier {
  tier_Priority : Z;
  tier_AuthIDs : gset string;
}.
#[export] Instance TierAdmission_eta : Eta TierAdmission := fun r => mkTier
  (tier_Priority r) (tier_AuthIDs r).

Record CPAAdmissionState := mkAdmission {
  adm_Observed : bool;
  adm_Priority : Z;
  adm_AuthIDs : gset string;
  adm_Tiers : list TierAdmission;
}.
#[export] Instance CPAAdmissionState_eta : Eta CPAAdmissionState := fun r => mkAdmission
  (adm_Observed r) (adm_Priority r) (adm_AuthIDs r) (adm_Tiers r).

#[export] Instance TierAdmission_eq_dec : EqDecision TierAdmission.
Proof. solve_decision. Defined.
#[export] Instance CPAAdmissionState_eq_dec : EqDecision CPAAdmissionState.
Proof. solve_decision. Defined.
Definition emptyAdmission : CPAAdmissionState := mkAdmission false 0 ∅ [].

(** A value of type [any] in the fields of a log entry. *)
Inductive any_value := AnyString (s : string) | AnyInt (z : Z) | AnyBool (b : bool) | AnyFloat (f : float64).

Record LogEntry := mkLog {
  log_Time : Time;
  log_Level : string;
  log_Event : string;
  log_Message : string;
  log_Fields : gmap string any_value;
}.
#[export] Instance LogEntry_eta : Eta LogEntry := fun r => mkLog
  (log_Time r) (log_Level r) (log_Event r) (log_Message r) (log_Fields r).

Record StateSnapshot := mkStateSnapshot {
  ss_Config : Config;
  ss_Accounts : list AccountState;
  ss_CPAAdmission : CPAAdmissionState;
  ss_CPAAdmissionVersion : Z;
  ss_Annotations : AnnotationState;
  ss_Logs : list LogEntry;
  ss_LastSelected : string;
  ss_LastReason : string;
  ss_LastCodexActivityAt : Time;
  ss_LastAuthScanAt : Time;
  ss_CodexAuthCount : Z;
  ss_Now : Time;
}.
#[export] Instance StateSnapshot_eta : Eta StateSnapshot := fun r => mkStateSnapshot
  (ss_Config r) (ss_Accounts r) (ss_CPAAdmission r) (ss_CPAAdmissionVersion r) (ss_Annotations r) (ss_Logs r)
  (ss_LastSelected r) (ss_LastReason r) (ss_LastCodexActivityAt r) (ss_LastAuthScanAt r)
  (ss_CodexAuthCount r) (ss_Now r).

(** ** Host requests

    The fields of the host's request types the scheduler reads. *)

Record SchedulerAuthCandidate := mkCandidate {
  c_ID : string;
  c_Provider : string;
  c_Priority : Z;
}.
#[export] Instance SchedulerAuthCandidate_eta : Eta SchedulerAuthCandidate := fun r => mkCandidate
  (c_ID r) (c_Provider r) (c_Priority r).

Record SchedulerPickRequest := mkPickRequest {
  req_Provider : string;
  req_Providers : list string;
  req_Candidates : list SchedulerAuthCandidate;
}.
#[export] Instance SchedulerPickRequest_eta : Eta SchedulerPickRequest := fun r => mkPickRequest
  (req_Provider r) (req_Providers r) (req_Candidates r).
