(* ===== verification/Circuit.v ===== *)
(** * Circuit breaker (the circuit functions of state.go)

    One breaker per account: closed, open until a probe time, half open once
    the probe time has passed.  [circuit_step] is the transition system of the
    three operations the plugin performs on it; its reachable states satisfy
    [circuit_inv]. *)

From S2P Require Import Prelude Float64 Config Models.
#[local] Open Scope string_scope.
#[local] Open Scope list_scope.
#[local] Open Scope Z_scope.
#[local] Open Scope go_scope.

Definition usageLimitReachedReason : string := "usage_limit_reached".
Definition usageLimitNoResetReason : string := "usage_limit_reached_no_reset".

Definition effectiveCircuitState (circuit : CircuitBreakerState) (now : Time) : CircuitBreakerState :=
  let circuit := if decide (cb_State circuit = CircuitStateNone)
                 then circuit <| cb_State := CircuitStateClosed |> else circuit in
  let circuit := circuit <| cb_EffectiveState := cb_State circuit |> in
  if bool_decide (cb_State circuit = CircuitStateOpen) && negb (IsZero (cb_NextProbeAt circuit))
     && negb (After (cb_NextProbeAt circuit) now)
  then circuit <| cb_EffectiveState := CircuitStateHalfOpen |> else circuit.

Definition nextProbeTime (cfg : Config) (reason : string) (resetAt now : Time) : Time :=
  let next := Add now (CircuitOpenDuration cfg) in
  let next := if String.eqb reason usageLimitNoResetReason && negb (IsZero resetAt) && After resetAt now
              then resetAt else next in
  if negb (IsZero resetAt) && After resetAt next then resetAt else next.

Definition applyCircuitFailure (account : AccountState) (cfg : Config) (reason : string) (resetAt now : Time)
  : AccountState :=
  let c := effectiveCircuitState (a_Circuit account) now in
  let c := c <| cb_FailureCount := i64 (cb_FailureCount c + 1) |> <| cb_SuccessCount := 0 |>
             <| cb_Reason := reason |> <| cb_LastFailureAt := now |> in
  let nextProbeAt := nextProbeTime cfg reason resetAt now in
  let c := if negb (IsZero resetAt) && After resetAt now && Before (cb_NextProbeAt c) nextProbeAt
           then c <| cb_NextProbeAt := nextProbeAt |> else c in
  let threshold := if CircuitFailureThreshold cfg <=? 0 then 1 else CircuitFailureThreshold cfg in
  let c := if bool_decide (cb_State c = CircuitStateHalfOpen)
              || bool_decide (cb_EffectiveState c = CircuitStateHalfOpen)
              || (threshold <=? cb_FailureCount c)
           then c <| cb_State := CircuitStateOpen |> <| cb_EffectiveState := CircuitStateOpen |>
                  <| cb_OpenedAt := now |> <| cb_NextProbeAt := nextProbeAt |>
           else c in
  account <| a_Circuit := c |> <| a_LastError := reason |>.

Definition applyCircuitSuccess (account : AccountState) (cfg : Config) (now : Time) : AccountState :=
  let c := effectiveCircuitState (a_Circuit account) now in
  if decide (cb_EffectiveState c = CircuitStateHalfOpen) then
    let c := c <| cb_SuccessCount := i64 (cb_SuccessCount c + 1) |> <| cb_LastSuccessAt := now |> in
    let threshold := if CircuitHalfOpenSuccessThreshold cfg <=? 0 then 1 else CircuitHalfOpenSuccessThreshold cfg in
    if threshold <=? cb_SuccessCount c then
      account <| a_Circuit := closedCircuit |> <| a_LastError := "" |>
    else
      let c := c <| cb_State := CircuitStateHalfOpen |> <| cb_EffectiveState := CircuitStateHalfOpen |>
                 <| cb_NextProbeAt := zeroTime |> in
      account <| a_Circuit := c |> <| a_LastError := "" |>
  else if decide (cb_EffectiveState c = CircuitStateOpen) then
    account <| a_Circuit := c <| cb_LastSuccessAt := now |> |>
  else
    account <| a_Circuit := closedCircuit <| cb_LastSuccessAt := now |> |> <| a_LastError := "" |>.

Definition markTemporaryExhausted (account : AccountState) (resetAt : Time) (reason : string) : AccountState :=
  account <| a_TemporaryExhausted := true |> <| a_TemporaryResetAt := resetAt |>
          <| a_LastError := reason |> <| a_Circuit := closedCircuit |>.

#[global] Arguments effectiveCircuitState : simpl never.
#[global] Arguments applyCircuitFailure : simpl never.
#[global] Arguments applyCircuitSuccess : simpl never.

(** ** The breaker as a transition system *)

Inductive circuit_event :=
  | EvFailure (reason : string) (resetAt now : Time)
  | EvSuccess (now : Time)
  | EvExhausted (resetAt : Time) (reason : string).

Definition circuit_apply (cfg : Config) (a : AccountState) (e : circuit_event) : AccountState :=
  match e with
  | EvFailure reason resetAt now => applyCircuitFailure a cfg reason resetAt now
  | EvSuccess now => applyCircuitSuccess a cfg now
  | EvExhausted resetAt reason => markTemporaryExhausted a resetAt reason
  end.

(** Events carry the current time, which is a real instant (after year 1);
    counters are bounded by the number of events and stay far from the limit
    of [int]. *)
Definition event_time_ok (e : circuit_event) : Prop :=
  match e with EvFailure _ _ now | EvSuccess now => 0 < now | EvExhausted _ _ => True end.

Inductive circuit_reachable (cfg : Config) : AccountState -> Prop :=
  | circuit_init a : a_Circuit a = emptyCircuit -> circuit_reachable cfg a
  | circuit_step a e :
      circuit_reachable cfg a -> event_time_ok e -> cb_FailureCount (a_Circuit a) < maxInt64 ->
      circuit_reachable cfg (circuit_apply cfg a e).

Record circuit_inv (cfg : Config) (c : CircuitBreakerState) : Prop := {
  ci_counts : 0 <= cb_FailureCount c <= maxInt64 /\ 0 <= cb_SuccessCount c;
  ci_closed : cb_State c = CircuitStateClosed \/ cb_State c = CircuitStateNone ->
              cb_FailureCount c < CircuitFailureThreshold cfg /\ cb_SuccessCount c = 0;
  ci_open : cb_State c = CircuitStateOpen ->
            CircuitFailureThreshold cfg <= cb_FailureCount c /\ cb_SuccessCount c = 0
            /\ 0 < cb_OpenedAt c < cb_NextProbeAt c;
  ci_half : cb_State c = CircuitStateHalfOpen ->
            CircuitFailureThreshold cfg <= cb_FailureCount c
            /\ 0 < cb_SuccessCount c < CircuitHalfOpenSuccessThreshold cfg /\ cb_NextProbeAt c = 0;
}.

Lemma nextProbeTime_after cfg reason resetAt now :
  0 < CircuitOpenDuration cfg -> now < nextProbeTime cfg reason resetAt now.
Proof.
  unfold nextProbeTime. intros. time_unfold. destruct (String.eqb reason usageLimitNoResetReason); simpl;
    repeat case_match; lia.
Qed.

(** The effective state, by cases on the stored one. *)
Lemma effective_cases c now :
  let e := effectiveCircuitState c now in
  cb_FailureCount e = cb_FailureCount c /\ cb_SuccessCount e = cb_SuccessCount c
  /\ cb_NextProbeAt e = cb_NextProbeAt c /\ cb_OpenedAt e = cb_OpenedAt c /\
  match cb_State c with
  | CircuitStateNone | CircuitStateClosed => cb_State e = CircuitStateClosed /\ cb_EffectiveState e = CircuitStateClosed
  | CircuitStateHalfOpen => cb_State e = CircuitStateHalfOpen /\ cb_EffectiveState e = CircuitStateHalfOpen
  | CircuitStateOpen => cb_State e = CircuitStateOpen /\
      cb_EffectiveState e = if negb (IsZero (cb_NextProbeAt c)) && negb (After (cb_NextProbeAt c) now)
                            then CircuitStateHalfOpen else CircuitStateOpen
  end.
Proof.
  destruct c as [st ef f s o n r lf ls]. unfold effectiveCircuitState. destruct st; simpl; split_and!; try done;
    by destruct (negb (IsZero n) && negb (After n now)).
Qed.

(** A failure opens the breaker when it was half open or when the count
    reaches the threshold. *)
Definition failure_opens (cfg : Config) (c : CircuitBreakerState) (now : Time) : bool :=
  bool_decide (cb_EffectiveState (effectiveCircuitState c now) = CircuitStateHalfOpen)
  || ((if CircuitFailureThreshold cfg <=? 0 then 1 else CircuitFailureThreshold cfg) <=? i64 (cb_FailureCount c + 1)).

Lemma failure_fields a cfg reason resetAt now :
  let c := a_Circuit (applyCircuitFailure a cfg reason resetAt now) in
  let opens := failure_opens cfg (a_Circuit a) now in
  cb_FailureCount c = i64 (cb_FailureCount (a_Circuit a) + 1) /\ cb_SuccessCount c = 0
  /\ cb_State c = (if opens then CircuitStateOpen else cb_State (effectiveCircuitState (a_Circuit a) now))
  /\ cb_EffectiveState c = (if opens then CircuitStateOpen else cb_EffectiveState (effectiveCircuitState (a_Circuit a) now))
  /\ (opens = true -> cb_OpenedAt c = now /\ cb_NextProbeAt c = nextProbeTime cfg reason resetAt now).
Proof.
  unfold applyCircuitFailure, failure_opens. cbv zeta.
  pose proof (effective_cases (a_Circuit a) now) as (E1 & E2 & E3 & E4 & E5).
  set (e := effectiveCircuitState (a_Circuit a) now) in *.
  set (t := if CircuitFailureThreshold cfg <=? 0 then 1 else CircuitFailureThreshold cfg).
  set (n := nextProbeTime cfg reason resetAt now).
  destruct (_ && _ && _); simpl; rewrite E1.
  all: destruct (cb_State (a_Circuit a)); destruct E5 as [E5 E6]; rewrite ?E5, ?E6; simpl;
    try (destruct (negb _ && negb _)); simpl; try (destruct (t <=? i64 (cb_FailureCount (a_Circuit a) + 1))); simpl; rewrite ?E5, ?E6; done.
Qed.

Section invariant.
(** Thresholds are values of type [int]. *)
Context (cfg : Config) (Hcfg : config_wf cfg) (Hint : CircuitHalfOpenSuccessThreshold cfg <= maxInt64).

Lemma circuit_inv_closed c :
  cb_State c = CircuitStateClosed -> cb_FailureCount c = 0 -> cb_SuccessCount c = 0 -> circuit_inv cfg c.
Proof. intros E F S. destruct Hcfg. split; rewrite ?E, ?F, ?S; unfold maxInt64; try done; lia. Qed.

Lemma circuit_inv_failure a reason resetAt now :
  0 < now -> cb_FailureCount (a_Circuit a) < maxInt64 -> circuit_inv cfg (a_Circuit a) ->
  circuit_inv cfg (a_Circuit (applyCircuitFailure a cfg reason resetAt now)).
Proof.
  intros Hnow Hcnt [Hc Hcl Hop Hhf].
  pose proof (nextProbeTime_after cfg reason resetAt now (wf_open _ Hcfg)) as Hn.
  destruct (failure_fields a cfg reason resetAt now) as (F & S & St & _ & Op).
  rewrite i64_small in F by (unfold minInt64; lia). unfold failure_opens in *.
  rewrite i64_small in St, Op by (unfold minInt64; lia).
  replace (CircuitFailureThreshold cfg <=? 0) with false in * by (pose proof (wf_threshold _ Hcfg); lia).
  pose proof (effective_cases (a_Circuit a) now) as (_ & _ & _ & _ & E5).
  destruct (_ || _) eqn:Eo.
  - split; rewrite ?F, ?S, ?St; try done; try lia; [by intros [|]|]. intros _. destruct (Op eq_refl) as [-> ->]. split_and!; try lia.
    destruct (cb_State (a_Circuit a)); destruct E5 as [_ E6]; rewrite E6 in Eo; simpl in Eo; try lia.
    + destruct (Hop eq_refl). lia.
    + destruct (Hhf eq_refl). lia.
  - apply orb_false_iff in Eo as [_ Eo]. to_prop.
    assert (cb_State (a_Circuit a) = CircuitStateClosed \/ cb_State (a_Circuit a) = CircuitStateNone) as Hst.
    { destruct (cb_State (a_Circuit a)); auto; [destruct (Hop eq_refl)|destruct (Hhf eq_refl)]; lia. }
    split; rewrite ?F, ?S, ?St; destruct Hst as [Hst|Hst]; rewrite Hst in E5; destruct E5 as [E5 _];
      rewrite ?E5; try done; lia.
Qed.

Lemma half_open_counts a now :
  circuit_inv cfg (a_Circuit a) ->
  cb_EffectiveState (effectiveCircuitState (a_Circuit a) now) = CircuitStateHalfOpen ->
  CircuitFailureThreshold cfg <= cb_FailureCount (a_Circuit a)
  /\ 0 <= cb_SuccessCount (a_Circuit a) < CircuitHalfOpenSuccessThreshold cfg.
Proof.
  intros [Hc Hcl Hop Hhf] H. pose proof (effective_cases (a_Circuit a) now) as (_ & _ & _ & _ & E5).
  pose proof (wf_half _ Hcfg).
  destruct (cb_State (a_Circuit a)); destruct E5 as [_ E6]; try congruence.
  - destruct (Hop eq_refl) as (? & -> & _). lia.
  - destruct (Hhf eq_refl) as (? & ? & _). lia.
Qed.

Lemma circuit_inv_success a now :
  circuit_inv cfg (a_Circuit a) -> circuit_inv cfg (a_Circuit (applyCircuitSuccess a cfg now)).
Proof.
  intros Hinv. pose proof (half_open_counts a now Hinv) as Hhalf.
  pose proof (effective_cases (a_Circuit a) now) as (E1 & E2 & E3 & E4 & E5).
  unfold applyCircuitSuccess. cbv zeta. set (e := effectiveCircuitState (a_Circuit a) now) in *.
  case_decide as H.
  - destruct (Hhalf H) as [Hf Hs]. pose proof (wf_half _ Hcfg). pose proof (ci_counts _ _ Hinv).
    replace (CircuitHalfOpenSuccessThreshold cfg <=? 0) with false by lia. simpl. rewrite E2.
    rewrite i64_small by (unfold minInt64; lia).
    branch; simpl; [by apply circuit_inv_closed|].
    split; simpl; rewrite ?E1, ?E2, ?i64_small by (unfold minInt64; lia); try done; try lia; [by intros [|]|].
    intros _. to_prop. unfold zeroTime. lia.
  - case_decide as H'; simpl; [|by apply circuit_inv_closed].
    destruct Hinv as [Hc Hcl Hop Hhf].
    split; simpl; rewrite ?E1, ?E2, ?E3, ?E4; [done|..]; destruct (cb_State (a_Circuit a)); destruct E5 as [E5 E6];
      rewrite ?E5; try congruence; intros; try (by apply Hop); naive_solver.
Qed.

Lemma circuit_inv_reachable a : circuit_reachable cfg a -> circuit_inv cfg (a_Circuit a).
Proof.
  induction 1 as [a E|a e Ha IH Ht Hc].
  - rewrite E. pose proof (wf_threshold _ Hcfg). split; simpl; try done; unfold maxInt64; lia.
  - destruct e; simpl in *.
    + by apply circuit_inv_failure.
    + by apply circuit_inv_success.
    + by apply circuit_inv_closed.
Qed.
End invariant.

(** ** Behaviour over runs of events *)

(** [k] failures in a row, each with its reason, reported reset and time. *)
Definition fail_all (cfg : Config) (a : AccountState) (fs : list (string * Time * Time)) : AccountState :=
  foldl (fun a '(reason, resetAt, now) => applyCircuitFailure a cfg reason resetAt now) a fs.

Definition succeed_all (cfg : Config) (a : AccountState) (ts : list Time) : AccountState :=
  foldl (fun a now => applyCircuitSuccess a cfg now) a ts.

Lemma effective_closed c t :
  cb_State c = CircuitStateClosed -> cb_EffectiveState (effectiveCircuitState c t) = CircuitStateClosed.
Proof. intros E. pose proof (effective_cases c t) as (_ & _ & _ & _ & H). rewrite E in H. apply H. Qed.

Lemma effective_half c t :
  cb_State c = CircuitStateHalfOpen -> cb_EffectiveState (effectiveCircuitState c t) = CircuitStateHalfOpen.
Proof. intros E. pose proof (effective_cases c t) as (_ & _ & _ & _ & H). rewrite E in H. apply H. Qed.

Lemma effective_open c t :
  cb_State c = CircuitStateOpen -> cb_NextProbeAt c <> 0 ->
  cb_EffectiveState (effectiveCircuitState c t) = if cb_NextProbeAt c <=? t then CircuitStateHalfOpen else CircuitStateOpen.
Proof.
  intros E N. pose proof (effective_cases c t) as (_ & _ & _ & _ & H). rewrite E in H. destruct H as [_ ->].
  replace (negb (IsZero (cb_NextProbeAt c)) && negb (After (cb_NextProbeAt c) t)) with (cb_NextProbeAt c <=? t)
    by time_lia. done.
Qed.

Section runs.
Context (cfg : Config) (Hcfg : config_wf cfg) (Hint : CircuitHalfOpenSuccessThreshold cfg <= maxInt64)
  (Hint' : CircuitFailureThreshold cfg <= maxInt64).

Lemma failure_closed a reason resetAt now :
  cb_State (a_Circuit a) = CircuitStateClosed -> 0 <= cb_FailureCount (a_Circuit a) < CircuitFailureThreshold cfg ->
  let c := a_Circuit (applyCircuitFailure a cfg reason resetAt now) in
  cb_FailureCount c = cb_FailureCount (a_Circuit a) + 1
  /\ if CircuitFailureThreshold cfg <=? cb_FailureCount (a_Circuit a) + 1
     then cb_State c = CircuitStateOpen /\ now < cb_NextProbeAt c
     else cb_State c = CircuitStateClosed.
Proof.
  intros E Hf. pose proof (nextProbeTime_after cfg reason resetAt now (wf_open _ Hcfg)) as Hn.
  destruct (failure_fields a cfg reason resetAt now) as (F & _ & St & _ & Op).
  pose proof (effective_cases (a_Circuit a) now) as (_ & _ & _ & _ & E5). rewrite E in E5. destruct E5 as [E5 E6].
  unfold failure_opens in *. rewrite E6 in St, Op.
  rewrite i64_small in F, St, Op by (unfold minInt64; lia).
  change (bool_decide (CircuitStateClosed = CircuitStateHalfOpen)) with false in St, Op. rewrite orb_false_l in St, Op.
  replace (CircuitFailureThreshold cfg <=? 0) with false in * by lia.
  split; [done|]. rewrite St, E5. destruct (CircuitFailureThreshold cfg <=? _); [|done].
  destruct (Op eq_refl) as [_ ->]. done.
Qed.

Lemma fail_all_closed fs a :
  cb_State (a_Circuit a) = CircuitStateClosed -> 0 <= cb_FailureCount (a_Circuit a) ->
  cb_FailureCount (a_Circuit a) + Z.of_nat (length fs) < CircuitFailureThreshold cfg ->
  cb_State (a_Circuit (fail_all cfg a fs)) = CircuitStateClosed
  /\ cb_FailureCount (a_Circuit (fail_all cfg a fs)) = cb_FailureCount (a_Circuit a) + Z.of_nat (length fs).
Proof.
  revert a. induction fs as [|[[reason resetAt] now] fs IH]; intros a E F H; cbn [fail_all foldl length] in *; [split; [done|lia]|].
  destruct (failure_closed a reason resetAt now E) as [F' S']; [lia|].
  replace (CircuitFailureThreshold cfg <=? _) with false in S' by lia.
  destruct (IH (applyCircuitFailure a cfg reason resetAt now)) as [E1 E2]; [done|lia|lia|].
  split; [done|]. unfold fail_all in *. rewrite E2. lia.
Qed.

Lemma success_half_open a now :
  circuit_inv cfg (a_Circuit a) ->
  cb_EffectiveState (effectiveCircuitState (a_Circuit a) now) = CircuitStateHalfOpen ->
  let c := a_Circuit (applyCircuitSuccess a cfg now) in
  if CircuitHalfOpenSuccessThreshold cfg <=? cb_SuccessCount (a_Circuit a) + 1 then c = closedCircuit
  else cb_State c = CircuitStateHalfOpen /\ cb_SuccessCount c = cb_SuccessCount (a_Circuit a) + 1.
Proof.
  intros Hinv H. pose proof (half_open_counts cfg Hcfg a now Hinv H) as [_ Hs].
  pose proof (effective_cases (a_Circuit a) now) as (_ & E2 & _).
  unfold applyCircuitSuccess. cbv zeta. rewrite decide_True by done.
  replace (CircuitHalfOpenSuccessThreshold cfg <=? 0) with false by lia. simpl. rewrite E2.
  rewrite !i64_small by (unfold minInt64; lia). branch; done.
Qed.

Lemma succeed_all_half ts a :
  circuit_inv cfg (a_Circuit a) -> cb_State (a_Circuit a) = CircuitStateHalfOpen ->
  cb_SuccessCount (a_Circuit a) + Z.of_nat (length ts) <= CircuitHalfOpenSuccessThreshold cfg ->
  let c := a_Circuit (succeed_all cfg a ts) in
  if cb_SuccessCount (a_Circuit a) + Z.of_nat (length ts) =? CircuitHalfOpenSuccessThreshold cfg then c = closedCircuit
  else cb_State c = CircuitStateHalfOpen /\ cb_SuccessCount c = cb_SuccessCount (a_Circuit a) + Z.of_nat (length ts).
Proof.
  revert a. induction ts as [|t ts IH]; intros a Hinv E H; cbn [succeed_all foldl length] in *.
  - destruct (ci_half _ _ Hinv E) as (_ & ? & _). branch; to_prop; [lia|split; [done|lia]].
  - pose proof (success_half_open a t Hinv (effective_half _ _ E)) as Hs. cbv zeta in Hs.
    pose proof (circuit_inv_success cfg Hcfg Hint a t Hinv) as Hinv'.
    destruct (Z.leb_spec (CircuitHalfOpenSuccessThreshold cfg) (cb_SuccessCount (a_Circuit a) + 1)).
    + destruct ts; [|cbn [length] in *; lia]. cbn [foldl length] in *. rewrite Hs.
      destruct (Z.eqb_spec (cb_SuccessCount (a_Circuit a) + Z.of_nat 1) (CircuitHalfOpenSuccessThreshold cfg)); [done|lia].
    + destruct Hs as [E' S']. specialize (IH (applyCircuitSuccess a cfg t) Hinv' E'). rewrite S' in IH.
      replace (cb_SuccessCount (a_Circuit a) + Z.of_nat (S (length ts)))
        with (cb_SuccessCount (a_Circuit a) + 1 + Z.of_nat (length ts)) by lia.
      apply IH. lia.
Qed.
End runs.

(** ** Properties *)

(** Every breaker state reachable from a fresh account by failures,
    successes and exhaustion marks satisfies the breaker's invariant: a closed
    breaker has fewer failures than the threshold, an open one has reached it
    and carries a probe time after its opening time, a half-open one has some
    but not enough successes. *)
Theorem breaker_reachable_states (cfg : Config) (a : AccountState) :
  config_wf cfg -> CircuitHalfOpenSuccessThreshold cfg <= maxInt64 ->
  circuit_reachable cfg a -> circuit_inv cfg (a_Circuit a).
Proof. intros Hw Hi Hr. by apply circuit_inv_reachable. Qed.

Lemma breaker_reachable_states_witness :
  let a := circuit_apply DefaultConfig emptyAccount (EvFailure "boom" 0 100) in
  circuit_reachable DefaultConfig a /\ circuit_inv DefaultConfig (a_Circuit a).
Proof.
  assert (circuit_reachable DefaultConfig (circuit_apply DefaultConfig emptyAccount (EvFailure "boom" 0 100))) as H.
  { constructor; [by constructor|vm_compute; done|vm_compute; done]. }
  split; [exact H|]. apply (breaker_reachable_states DefaultConfig); [apply DefaultConfig_wf|vm_compute; done|exact H].
Defined.

(** A closed breaker stays closed for any number of failures below the
    threshold; the failure that reaches the threshold opens it, and it then
    stays open exactly until its probe time, which lies after that failure,
    and is half open from then on. *)
Theorem breaker_trips_at_threshold (cfg : Config) (a : AccountState) (fs : list (string * Time * Time))
    (reason : string) (resetAt now : Time) :
  config_wf cfg -> CircuitFailureThreshold cfg <= maxInt64 -> 0 < now ->
  cb_State (a_Circuit a) = CircuitStateClosed -> cb_FailureCount (a_Circuit a) = 0 ->
  Z.of_nat (length fs) + 1 = CircuitFailureThreshold cfg ->
  (forall k t, cb_EffectiveState (effectiveCircuitState (a_Circuit (fail_all cfg a (take k fs))) t) = CircuitStateClosed)
  /\ let c := a_Circuit (fail_all cfg a (fs ++ [(reason, resetAt, now)])) in
     now < cb_NextProbeAt c
     /\ forall t, cb_EffectiveState (effectiveCircuitState c t)
                  = if cb_NextProbeAt c <=? t then CircuitStateHalfOpen else CircuitStateOpen.
Proof.
  intros Hw Hi Hnow Hc Hf Hlen. split.
  - intros k t. apply effective_closed, fail_all_closed; try done; [lia|]. rewrite length_take. lia.
  - destruct (fail_all_closed cfg Hw Hi fs a Hc) as [E F]; [lia|lia|].
    unfold fail_all in *. rewrite foldl_app. cbn [foldl].
    destruct (failure_closed cfg Hw Hi _ reason resetAt now E) as [_ S]; [lia|].
    replace (CircuitFailureThreshold cfg <=? _) with true in S by lia. destruct S as [S N].
    split; [done|]. intros t. apply effective_open; [done|]. unfold fail_all in *. lia.
Qed.

Lemma breaker_trips_at_threshold_witness :
  let a := emptyAccount <| a_Circuit := closedCircuit |> in
  let fs := replicate 4 ("boom", 0, 100) in
  cb_State (a_Circuit (fail_all DefaultConfig a (fs ++ [("boom", 0, 200)]))) = CircuitStateOpen
  /\ 200 < cb_NextProbeAt (a_Circuit (fail_all DefaultConfig a (fs ++ [("boom", 0, 200)]))).
Proof.
  cbv zeta. split; [vm_compute; reflexivity|].
  apply (breaker_trips_at_threshold DefaultConfig (emptyAccount <| a_Circuit := closedCircuit |>)
           (replicate 4 ("boom", 0, 100)) "boom" 0 200); try (vm_compute; done). apply DefaultConfig_wf.
Defined.

(** An open breaker whose probe time has passed closes after exactly the
    configured number of successes; with fewer it is half open at every time
    and has counted them. *)
Theorem breaker_recovers_after_successes (cfg : Config) (a : AccountState) (t : Time) (ts : list Time) :
  config_wf cfg -> CircuitHalfOpenSuccessThreshold cfg <= maxInt64 ->
  circuit_inv cfg (a_Circuit a) -> cb_State (a_Circuit a) = CircuitStateOpen -> cb_NextProbeAt (a_Circuit a) <= t ->
  1 + Z.of_nat (length ts) <= CircuitHalfOpenSuccessThreshold cfg ->
  let c := a_Circuit (succeed_all cfg a (t :: ts)) in
  if 1 + Z.of_nat (length ts) =? CircuitHalfOpenSuccessThreshold cfg then c = closedCircuit
  else cb_SuccessCount c = 1 + Z.of_nat (length ts)
       /\ forall t', cb_EffectiveState (effectiveCircuitState c t') = CircuitStateHalfOpen.
Proof.
  intros Hw Hi Hinv Ho Ht Hlen. destruct (ci_open _ _ Hinv Ho) as (_ & S0 & Hn).
  assert (cb_EffectiveState (effectiveCircuitState (a_Circuit a) t) = CircuitStateHalfOpen) as He.
  { rewrite effective_open by (done || lia). by replace (_ <=? t) with true by lia. }
  pose proof (success_half_open cfg Hw Hi a t Hinv He) as Hs. cbv zeta in Hs. rewrite S0 in Hs.
  pose proof (circuit_inv_success cfg Hw Hi a t Hinv) as Hinv'.
  cbn [succeed_all foldl]. destruct (Z.leb_spec (CircuitHalfOpenSuccessThreshold cfg) (0 + 1)).
  - destruct ts; [|cbn [length] in *; lia]. cbn [foldl length].
    destruct (Z.eqb_spec (1 + Z.of_nat 0) (CircuitHalfOpenSuccessThreshold cfg)); [done|cbn [length] in *; lia].
  - destruct Hs as [E' S']. pose proof (succeed_all_half cfg Hw Hi ts (applyCircuitSuccess a cfg t) Hinv' E') as H'.
    cbv zeta in H'. rewrite S' in H'. specialize (H' ltac:(lia)).
    change (0 + 1) with 1 in H'. unfold succeed_all in H'. branch; [done|]. destruct H' as [H1 H2].
    split; [done|]. intros t'. by apply effective_half.
Qed.

Lemma breaker_recovers_after_successes_witness :
  let a := fail_all DefaultConfig (emptyAccount <| a_Circuit := closedCircuit |>) (replicate 5 ("boom", 0, 100)) in
  a_Circuit (succeed_all DefaultConfig a [Hour; Hour + 1]) = closedCircuit.
Proof.
  apply (breaker_recovers_after_successes DefaultConfig _ Hour [Hour + 1]);
    [apply DefaultConfig_wf|vm_compute; done| |vm_compute; done|vm_compute; done|vm_compute; done].
  split; vm_compute; try done; by intros [|].
Defined.
