(* ===== verification/Trial.v ===== *)
(** * Trial registry (trial.go)

    Accounts without fresh quota evidence are used on trial: one request at a
    time, until evidence arrives or the trial expires into a back-off.  A cell
    of the registry is a pointer to an immutable record, replaced by
    compare-and-swap; [TryBegin] and the other operations below are its atomic
    effect, and the last part of the file shows that the compare-and-swap loop
    has that effect under any interleaving. *)

From S2P Require Import Prelude Float64 Config Models.
#[local] Open Scope Z_scope.
#[local] Open Scope go_scope.

Inductive TrialState := TrialNone | TrialActive | TrialUnknown.
#[export] Instance TrialState_eq_dec : EqDecision TrialState.
Proof. solve_decision. Defined.

Definition trialEvidencePendingGrace : Duration := 60 * Second.
Definition trialEvidenceBudget : Duration := 5 * Minute.
Definition trialEvidenceMaxRetries : Z := 3.

Inductive EvidenceKind := EvidenceUnknown | EvidenceUsageFeedback | EvidenceReliableQuotaWriteback | EvidenceRequestSuccess.

Record Evidence := mkEvidence { ev_Kind : EvidenceKind; ev_At : Time }.

Record trialRecord := mkTrial {
  tr_state : TrialState;
  tr_began : Time;
  tr_pending : bool;
  tr_retries : Z;
  tr_backoffs : Z;
  tr_nextRetry : Time;
}.
#[export] Instance trialRecord_eta : Eta trialRecord := fun r => mkTrial
  (tr_state r) (tr_began r) (tr_pending r) (tr_retries r) (tr_backoffs r) (tr_nextRetry r).

(** A cell that is absent or holds [nil] is not in the map. *)
Abbreviation TrialRegistry := (gmap AuthInstanceID trialRecord).

Definition NewTrialRegistry : TrialRegistry := ∅.

(** One round of [TryBegin] on the value of a cell. *)
Definition tryBegin_cell (old : option trialRecord) (now : Time) : option trialRecord * bool :=
  match old with
  | Some r =>
      if bool_decide (tr_state r = TrialActive) || Before now (tr_nextRetry r) then (old, false)
      else (Some (mkTrial TrialActive now false 0 (tr_backoffs r) zeroTime), true)
  | None => (Some (mkTrial TrialActive now false 0 0 zeroTime), true)
  end.

Definition TryBegin (reg : TrialRegistry) (id : AuthInstanceID) (now : Time) : TrialRegistry * bool :=
  let '(cell, ok) := tryBegin_cell (reg !! id) now in
  (partial_alter (fun _ => cell) id reg, ok).

Definition ObserveEvidence (reg : TrialRegistry) (id : AuthInstanceID) (e : Evidence) : TrialRegistry :=
  match ev_Kind e with
  | EvidenceUsageFeedback | EvidenceReliableQuotaWriteback | EvidenceRequestSuccess => delete id reg
  | EvidenceUnknown => reg
  end.

(** [update]: nothing happens on a [nil] cell. *)
Definition trial_update (reg : TrialRegistry) (id : AuthInstanceID) (f : trialRecord -> trialRecord) : TrialRegistry :=
  alter f id reg.

Definition MarkEvidencePending (reg : TrialRegistry) (id : AuthInstanceID) (p : bool) : TrialRegistry :=
  trial_update reg id (fun v => v <| tr_pending := p |>).

Definition trialDelays : list Duration := [Minute; 2 * Minute; 5 * Minute; 10 * Minute; 15 * Minute].

(** [delays[index]] with [index] capped at the last entry. *)
Definition trialDelay (backoffs : Z) : Duration :=
  let index := if Z.of_nat (length trialDelays) <=? backoffs then Z.of_nat (length trialDelays) - 1 else backoffs in
  nth (Z.to_nat index) trialDelays 0.

Definition unknownTrial (v : trialRecord) (now : Time) : trialRecord :=
  v <| tr_state := TrialUnknown |> <| tr_backoffs := i64 (tr_backoffs v + 1) |>
    <| tr_nextRetry := Add now (trialDelay (tr_backoffs v)) |>.

Definition observeRetry_record (now : Time) (v : trialRecord) : trialRecord :=
  let v := v <| tr_retries := i64 (tr_retries v + 1) |> in
  if trialEvidenceMaxRetries <=? tr_retries v then unknownTrial v now else v.
Definition ObserveRetry (reg : TrialRegistry) (id : AuthInstanceID) (now : Time) : TrialRegistry :=
  trial_update reg id (observeRetry_record now).

Definition advance_record (now : Time) (v : trialRecord) : trialRecord :=
  if bool_decide (tr_state v = TrialActive)
     && (negb (Before now (Add (tr_began v) trialEvidenceBudget))
         || (negb (tr_pending v) && negb (Before now (Add (tr_began v) trialEvidencePendingGrace))))
  then unknownTrial v now else v.
Definition Advance (reg : TrialRegistry) (id : AuthInstanceID) (now : Time) : TrialRegistry :=
  trial_update reg id (advance_record now).

Definition trial_State (reg : TrialRegistry) (id : AuthInstanceID) (now : Time) : TrialState :=
  match reg !! id with
  | None => TrialNone
  | Some v => if bool_decide (tr_state v = TrialUnknown) && negb (Before now (tr_nextRetry v)) then TrialNone else tr_state v
  end.

Definition NextRetryAt (reg : TrialRegistry) (id : AuthInstanceID) : Time :=
  match reg !! id with None => zeroTime | Some v => tr_nextRetry v end.

(** ** The registry as a transition system *)

Inductive trial_op :=
  | OpTryBegin (now : Time)
  | OpEvidence (e : Evidence)
  | OpPending (p : bool)
  | OpRetry (now : Time)
  | OpAdvance (now : Time).

Definition trial_apply (reg : TrialRegistry) (id : AuthInstanceID) (op : trial_op) : TrialRegistry :=
  match op with
  | OpTryBegin now => (TryBegin reg id now).1
  | OpEvidence e => ObserveEvidence reg id e
  | OpPending p => MarkEvidencePending reg id p
  | OpRetry now => ObserveRetry reg id now
  | OpAdvance now => Advance reg id now
  end.

(** The counters stay far from the limit of [int]; the bound is explicit. *)
Definition counters_small (reg : TrialRegistry) : Prop :=
  forall id v, reg !! id = Some v -> tr_backoffs v < maxInt64 /\ tr_retries v < maxInt64.

Inductive trial_reachable : TrialRegistry -> Prop :=
  | trial_init : trial_reachable NewTrialRegistry
  | trial_step reg id op : trial_reachable reg -> counters_small reg -> trial_reachable (trial_apply reg id op).

(** A record is never in state [TrialNone]; its back-off counter indexes the
    delay table; a record out of its trial has backed off at least once; an
    active trial has retries left. *)
Record trial_wf (v : trialRecord) : Prop := {
  tw_state : tr_state v <> TrialNone;
  tw_counts : 0 <= tr_backoffs v /\ 0 <= tr_retries v;
  tw_active : tr_state v = TrialActive -> tr_nextRetry v = zeroTime /\ tr_retries v < trialEvidenceMaxRetries;
  tw_unknown : tr_state v = TrialUnknown -> 1 <= tr_backoffs v;
}.

Lemma trialDelays_bounds : Forall (fun d => Minute <= d <= 15 * Minute) trialDelays.
Proof. unfold trialDelays. repeat constructor; time_lia. Qed.

Lemma trialDelay_bounds b : 0 <= b -> Minute <= trialDelay b <= 15 * Minute.
Proof.
  unfold trialDelay. change (Z.of_nat (length trialDelays)) with 5. intros Hb.
  pose proof (proj1 (List.Forall_forall _ _) trialDelays_bounds) as H. apply H, nth_In.
  change (length trialDelays) with 5%nat. branch; to_prop; lia.
Qed.

Lemma unknownTrial_wf v now : 0 <= tr_backoffs v < maxInt64 -> 0 <= tr_retries v -> trial_wf (unknownTrial v now).
Proof.
  intros Hb Hr. unfold unknownTrial. split; simpl; rewrite ?i64_small by (unfold minInt64; lia); try done; lia.
Qed.

Lemma trial_apply_wf reg id op :
  counters_small reg -> map_Forall (fun _ v => trial_wf v) reg -> map_Forall (fun _ v => trial_wf v) (trial_apply reg id op).
Proof.
  intros Hs Hwf.
  assert (forall f, (forall v, reg !! id = Some v -> trial_wf (f v)) ->
          map_Forall (fun _ v => trial_wf v) (trial_update reg id f)) as Hupd.
  { intros f Hf i v. unfold trial_update. rewrite lookup_alter_Some.
    intros [(<- & w & Hw & ->)|[? Hv]]; [by apply Hf|by apply (Hwf i)]. }
  destruct op as [now|e|p|now|now]; simpl.
  - unfold TryBegin, tryBegin_cell. intros i v. destruct (reg !! id) as [r|] eqn:E; [destruct (_ || _) eqn:B|]; simpl.
    all: rewrite lookup_partial_alter_Some; intros [[<- Hv]|[? Hv]]; simplify_eq; try by apply (Hwf i).
    all: first [by apply (Hwf id) | destruct (Hwf _ _ E); split; simpl; try done; lia | by split].
  - unfold ObserveEvidence. destruct (ev_Kind e); try done; by apply map_Forall_delete.
  - apply Hupd. intros v Hv. destruct (Hwf _ _ Hv). by split.
  - apply Hupd. intros v Hv. destruct (Hwf _ _ Hv) as [? [? ?] Ha Hu]. destruct (Hs _ _ Hv).
    unfold observeRetry_record. simpl. rewrite i64_small by (unfold minInt64; lia). branch.
    + apply unknownTrial_wf; simpl; lia.
    + to_prop. split; simpl; try done; [lia|]. intros HA. split; [by apply Ha|lia].
  - apply Hupd. intros v Hv. destruct (Hwf _ _ Hv) as [? [? ?] Ha Hu]. destruct (Hs _ _ Hv).
    unfold advance_record. branch; [|by split]. apply unknownTrial_wf; lia.
Qed.

Lemma trial_reachable_wf reg : trial_reachable reg -> map_Forall (fun _ v => trial_wf v) reg.
Proof. induction 1; [apply map_Forall_empty|by apply trial_apply_wf]. Qed.

(** ** Exclusivity and expiry *)

(** Operations that bring no evidence and no retry on a trial that began at
    [began], within its pending grace. *)
Definition quiet_op (began : Time) (op : trial_op) : Prop :=
  match op with
  | OpTryBegin _ | OpPending _ => True
  | OpAdvance t => t < began + trialEvidencePendingGrace
  | OpEvidence e => ev_Kind e = EvidenceUnknown
  | OpRetry _ => False
  end.

Definition active_since (began : Time) (reg : TrialRegistry) (id : AuthInstanceID) : Prop :=
  exists v, reg !! id = Some v /\ tr_state v = TrialActive /\ tr_began v = began.

Lemma tryBegin_active began reg id now : active_since began reg id -> TryBegin reg id now = (reg, false).
Proof.
  intros (v & Hv & Hs & _). unfold TryBegin, tryBegin_cell. rewrite Hv, Hs. simpl. f_equal.
  apply map_eq. intros i. rewrite lookup_partial_alter. case_decide; by subst.
Qed.

Lemma quiet_keeps_active began reg id op :
  active_since began reg id -> quiet_op began op -> active_since began (trial_apply reg id op) id.
Proof.
  intros Ha Hq. destruct op as [now|e|p|now|now]; simpl in *; try done.
  - by rewrite (tryBegin_active began).
  - unfold ObserveEvidence. by rewrite Hq.
  - destruct Ha as (v & Hv & Hs & Hb). exists (v <| tr_pending := p |>).
    unfold MarkEvidencePending, trial_update. by rewrite lookup_alter_eq, Hv.
  - destruct Ha as (v & Hv & Hs & Hb). exists v. unfold Advance, trial_update. rewrite lookup_alter_eq, Hv. simpl.
    unfold advance_record. rewrite Hs. split; [|done]. f_equal. simpl.
    replace (_ || _) with false; [done|]. symmetry. unfold trialEvidenceBudget, trialEvidencePendingGrace in *.
    time_lia.
Qed.

(** ** The compare-and-swap loop

    Several callers run [TryBegin] on one cell while other operations replace
    the cell.  Records are immutable and every replacement allocates a new
    pointer, so a pointer determines its record: [heap] only grows. *)

Record cas_state := mkCas {
  cas_heap : gmap nat trialRecord;   (* every record ever allocated *)
  cas_cell : option nat;             (* the pointer in the cell *)
}.

Inductive cas_pc := PStart | PLoaded (old : option nat) | PDone (ok : bool).

Definition deref (s : cas_state) (p : option nat) : option trialRecord := p ≫= (cas_heap s !!.).

(** [cas_step now s pc s' pc']: one step of a caller at time [now], or a step
    of the environment (the caller's position unchanged). *)
Inductive cas_step (now : Time) : cas_state -> cas_pc -> cas_state -> cas_pc -> Prop :=
  | step_load_blocked s :
      (tryBegin_cell (deref s (cas_cell s)) now).2 = false ->
      cas_step now s PStart s (PDone false)
  | step_load s :
      (tryBegin_cell (deref s (cas_cell s)) now).2 = true ->
      cas_step now s PStart s (PLoaded (cas_cell s))
  | step_cas_ok s old p r :
      cas_cell s = old -> cas_heap s !! p = None ->
      (tryBegin_cell (deref s old) now).1 = Some r ->
      cas_step now s (PLoaded old) (mkCas (<[p := r]> (cas_heap s)) (Some p)) (PDone true)
  | step_cas_fail s old :
      cas_cell s <> old -> cas_step now s (PLoaded old) s PStart
  | step_env_store s pc p r :
      cas_heap s !! p = None -> cas_step now s pc (mkCas (<[p := r]> (cas_heap s)) (Some p)) pc
  | step_env_clear s pc : cas_step now s pc (mkCas (cas_heap s) None) pc.

Inductive cas_steps (now : Time) : cas_state -> cas_pc -> cas_state -> cas_pc -> Prop :=
  | cas_refl s pc : cas_steps now s pc s pc
  | cas_trans s1 pc1 s2 pc2 s3 pc3 :
      cas_steps now s1 pc1 s2 pc2 -> cas_step now s2 pc2 s3 pc3 -> cas_steps now s1 pc1 s3 pc3.

(** The cell is allocated, and a loaded pointer is allocated and was free to
    begin a trial when it was read, which its record shows for good. *)
Definition cas_inv (now : Time) (s : cas_state) (pc : cas_pc) : Prop :=
  (forall p, cas_cell s = Some p -> is_Some (cas_heap s !! p))
  /\ match pc with
     | PLoaded old => (forall p, old = Some p -> is_Some (cas_heap s !! p))
                      /\ (tryBegin_cell (deref s old) now).2 = true
     | _ => True
     end.

Lemma deref_grow s p r c q :
  cas_heap s !! p = None -> (forall q', q = Some q' -> is_Some (cas_heap s !! q')) ->
  deref (mkCas (<[p := r]> (cas_heap s)) c) q = deref s q.
Proof.
  intros Hp Hq. destruct q as [q|]; [|done]. simpl. destruct (Hq q eq_refl) as [w Hw].
  rewrite lookup_insert_ne; [done|]. intros ->. congruence.
Qed.

Lemma cas_inv_step now s pc s' pc' : cas_inv now s pc -> cas_step now s pc s' pc' -> cas_inv now s' pc'.
Proof.
  intros [Hc Hpc] Hs. inversion Hs; subst; simpl; split; try done; simpl.
  - intros q [= ->]. rewrite lookup_insert_eq. eauto.
  - intros q [= ->]. rewrite lookup_insert_eq. eauto.
  - destruct pc' as [|old|ok]; try done. destruct Hpc as [Ha Hb]. split.
    + intros q Hq. rewrite lookup_insert_is_Some'. right. by apply Ha.
    + by rewrite deref_grow.
Qed.

Lemma cas_inv_steps now s pc s' pc' : cas_steps now s pc s' pc' -> cas_inv now s pc -> cas_inv now s' pc'.
Proof. induction 1; eauto using cas_inv_step. Qed.

Lemma tryBegin_cell_false c now : (tryBegin_cell c now).2 = false -> tryBegin_cell c now = (c, false).
Proof. unfold tryBegin_cell. destruct c as [r|]; [|done]. by destruct (_ || _). Qed.

(** ** Properties *)

(** Every record of a reachable registry is well formed: it is in a trial
    or in back-off, its back-off counter is a valid index of the delay table,
    a back-off follows at least one expiry, an active trial has retries left
    and no retry time. *)
Theorem trial_records_well_formed (reg : TrialRegistry) (id : AuthInstanceID) (v : trialRecord) :
  trial_reachable reg -> reg !! id = Some v -> trial_wf v.
Proof. intros Hr. apply (trial_reachable_wf reg Hr). Qed.

Lemma trial_records_well_formed_witness :
  trial_wf (mkTrial TrialActive 100 false 0 0 0).
Proof.
  apply (trial_records_well_formed (trial_apply NewTrialRegistry 7 (OpTryBegin 100)) 7); [|reflexivity].
  constructor; [constructor|]. intros i v Hv. discriminate Hv.
Defined.

(** A successful [TryBegin] gives the caller exclusive use of the account
    through the pending grace: whatever further begins, pending marks and
    timely advances follow, the trial stays active and every other [TryBegin]
    fails. *)
Theorem trial_begin_exclusive (reg : TrialRegistry) (id : AuthInstanceID) (began : Time) (ops : list trial_op) :
  (TryBegin reg id began).2 = true -> Forall (quiet_op began) ops ->
  let reg' := foldl (fun r op => trial_apply r id op) (TryBegin reg id began).1 ops in
  forall t, trial_State reg' id t = TrialActive /\ TryBegin reg' id t = (reg', false).
Proof.
  intros Hok Hq. assert (active_since began (TryBegin reg id began).1 id) as Ha.
  { unfold TryBegin, tryBegin_cell in *. destruct (reg !! id) as [r|] eqn:E; [destruct (_ || _) eqn:B|]; simpl in *; try done.
    all: eexists; by rewrite lookup_partial_alter_eq. }
  cbv zeta. revert Ha. generalize (TryBegin reg id began).1. clear Hok. induction Hq as [|op ops Hop Hops IH]; intros r Ha t.
  - simpl. split; [|by apply (tryBegin_active began)]. destruct Ha as (v & Hv & Hs & _).
    unfold trial_State. by rewrite Hv, Hs.
  - simpl. apply IH. by apply quiet_keeps_active.
Qed.

Lemma trial_begin_exclusive_witness :
  let reg' := trial_apply (TryBegin NewTrialRegistry 7 1000).1 7 (OpAdvance (1000 + Second)) in
  TryBegin reg' 7 (1000 + Minute) = (reg', false).
Proof.
  cbv zeta.
  apply (trial_begin_exclusive NewTrialRegistry 7 1000 [OpAdvance (1000 + Second)]); [reflexivity|].
  constructor; [vm_compute; reflexivity|constructor].
Defined.

(** No trial excludes an account for ever: an active trial advanced after
    its evidence budget goes to back-off, the account is excluded for at least
    a minute, and from fifteen minutes on it is selectable again and a new
    trial can begin. *)
Theorem trial_expires (reg : TrialRegistry) (id : AuthInstanceID) (v : trialRecord) (now t : Time) :
  trial_reachable reg -> counters_small reg -> reg !! id = Some v -> tr_state v = TrialActive ->
  tr_began v + trialEvidenceBudget <= now ->
  let reg' := Advance reg id now in
  (t < now + Minute -> trial_State reg' id t = TrialUnknown /\ (TryBegin reg' id t).2 = false)
  /\ (now + 15 * Minute <= t -> trial_State reg' id t = TrialNone /\ (TryBegin reg' id t).2 = true).
Proof.
  intros Hr Hc Hv Hs Hb. pose proof (trial_reachable_wf reg Hr id v Hv) as [_ [Hk _] _ _].
  pose proof (trialDelay_bounds (tr_backoffs v) Hk) as Hd.
  assert (Advance reg id now !! id = Some (unknownTrial v now)) as E.
  { unfold Advance, trial_update, advance_record. rewrite lookup_alter_eq, Hv. simpl. rewrite Hs. simpl.
    by replace (negb (Before now (Add (tr_began v) trialEvidenceBudget))) with true by time_lia. }
  cbv zeta. unfold trial_State, TryBegin, tryBegin_cell. rewrite E.
  unfold unknownTrial. cbn -[trialDelay Minute]. split; intros Ht.
  - replace (Before t (Add now (trialDelay (tr_backoffs v)))) with true by time_lia. done.
  - replace (Before t (Add now (trialDelay (tr_backoffs v)))) with false by time_lia. done.
Qed.

Lemma trial_expires_witness :
  let reg' := Advance (trial_apply NewTrialRegistry 7 (OpTryBegin 0)) 7 (5 * Minute) in
  trial_State reg' 7 (20 * Minute) = TrialNone /\ (TryBegin reg' 7 (20 * Minute)).2 = true.
Proof.
  refine (proj2 (trial_expires (trial_apply NewTrialRegistry 7 (OpTryBegin 0)) 7 (mkTrial TrialActive 0 false 0 0 0)
                   (5 * Minute) (20 * Minute) _ _ _ _ _) _).
  - constructor; [constructor|]. intros i v Hv. discriminate Hv.
  - intros i v Hv.
    change (partial_alter (fun _ => Some (mkTrial TrialActive 0 false 0 0 0)) 7 NewTrialRegistry !! i = Some v) in Hv.
    apply lookup_partial_alter_Some in Hv as [[_ [= <-]]|[_ Hv]]; [vm_compute; done|discriminate Hv].
  - reflexivity.
  - reflexivity.
  - cbn. unfold trialEvidenceBudget. lia.
  - lia.
Defined.

(** The compare-and-swap loop of [TryBegin] is linearizable: under any
    interleaving with stores and clears by others, the step at which a caller
    finishes changes the cell exactly as the atomic [tryBegin_cell] at that
    moment does and returns its answer, and every other step of the caller
    leaves the cell as it is. *)
Theorem tryBegin_linearizable (now : Time) (s0 s s' : cas_state) (pc pc' : cas_pc) :
  (forall p, cas_cell s0 = Some p -> is_Some (cas_heap s0 !! p)) ->
  cas_steps now s0 PStart s pc -> cas_step now s pc s' pc' -> pc <> pc' ->
  match pc' with
  | PDone ok => tryBegin_cell (deref s (cas_cell s)) now = (deref s' (cas_cell s'), ok)
  | _ => deref s' (cas_cell s') = deref s (cas_cell s)
  end.
Proof.
  intros H0 Hsteps Hstep Hne. pose proof (cas_inv_steps _ _ _ _ _ Hsteps) as Hinv.
  specialize (Hinv (conj H0 I)). destruct Hinv as [_ Hpc].
  inversion Hstep; subst; simpl in *; try done.
  - by apply tryBegin_cell_false.
  - rewrite lookup_insert_eq. simpl. destruct Hpc as [_ Hok].
    by destruct (tryBegin_cell (deref s (cas_cell s)) now); simplify_eq/=.
Qed.

Lemma tryBegin_linearizable_witness :
  let s' := mkCas {[ 1%nat := mkTrial TrialActive 5 false 0 0 0 ]} (Some 1%nat) in
  tryBegin_cell (deref (mkCas ∅ None) None) 5 = (deref s' (cas_cell s'), true).
Proof.
  apply (tryBegin_linearizable 5 (mkCas ∅ None) (mkCas ∅ None)
           (mkCas {[ 1%nat := mkTrial TrialActive 5 false 0 0 0 ]} (Some 1%nat)) (PLoaded None) (PDone true)).
  - intros p Hp. discriminate Hp.
  - eapply cas_trans; [apply cas_refl|]. by apply (step_load 5 (mkCas ∅ None)).
  - by apply (step_cas_ok 5 (mkCas ∅ None) None 1%nat (mkTrial TrialActive 5 false 0 0 0)).
  - done.
Defined.
