(* ===== verification/Selection.v ===== *)
(** * Account selection (selection.go)

    The pure core of the scheduler: availability classes, the comparison of two
    selectable accounts, and the choice of one account among the candidates of
    a pick request. *)

From S2P Require Import Prelude Float64 Config Models Trial.
#[local] Open Scope string_scope.
#[local] Open Scope list_scope.
#[local] Open Scope Z_scope.
#[local] Open Scope go_scope.

Inductive AvailabilityClass := Preferred | Opportunistic | Excluded.
Inductive CacheClass := CacheFresh | CacheAging | CacheUnknown | CacheStale.
Inductive CircuitClass := CircuitClosed | CircuitOpen | CircuitHalfOpen.
#[export] Instance AvailabilityClass_eq_dec : EqDecision AvailabilityClass.
Proof. solve_decision. Defined.
#[export] Instance CacheClass_eq_dec : EqDecision CacheClass.
Proof. solve_decision. Defined.
#[export] Instance CircuitClass_eq_dec : EqDecision CircuitClass.
Proof. solve_decision. Defined.

Record AccountView := mkView {
  v_ID : string;
  v_AuthIndex : string;
  v_Instance : AuthInstanceID;
  v_PluginPriority : Z;
  v_CPAPriority : Z;
  v_Family : AccountFamily;
  v_Cache : CacheClass;
  v_LastKnownAvailable : bool;
  v_Exhausted : bool;
  v_ResetAt : Time;
  v_AuthBlocked : bool;
  v_Circuit : CircuitClass;
  v_TemporaryUnavailable : bool;
  v_Trial : TrialState;
  v_Expiry : Time;
  v_RemainingQuota : float64;
  v_QuotaPressure : float64;
}.
#[export] Instance AccountView_eta : Eta AccountView := fun r => mkView
  (v_ID r) (v_AuthIndex r) (v_Instance r) (v_PluginPriority r) (v_CPAPriority r) (v_Family r) (v_Cache r)
  (v_LastKnownAvailable r) (v_Exhausted r) (v_ResetAt r) (v_AuthBlocked r) (v_Circuit r)
  (v_TemporaryUnavailable r) (v_Trial r) (v_Expiry r) (v_RemainingQuota r) (v_QuotaPressure r).

Record Candidate := mkPlainCandidate { cand_ID : string; cand_Provider : string }.

Record SelectionResult := mkSelection {
  sel_AuthID : string;
  sel_Instance : AuthInstanceID;
  sel_Class : AvailabilityClass;
  sel_Trial : bool;
  sel_Fallback : bool;
  sel_EvidenceSource : string;
  sel_Reason : string;
  sel_Ordered : list AccountView;
}.
#[export] Instance SelectionResult_eta : Eta SelectionResult := fun r => mkSelection
  (sel_AuthID r) (sel_Instance r) (sel_Class r) (sel_Trial r) (sel_Fallback r) (sel_EvidenceSource r)
  (sel_Reason r) (sel_Ordered r).

(** The part of [SchedulerSnapshot] the selection reads. *)
Record SchedulerSnapshot := mkSnapshot {
  sn_HandleEnabled : bool;
  sn_Fallback : string;
  sn_MonthlyMode : string;
  sn_Accounts : list AccountView;
  sn_ActiveHighestTier : gset string;
  sn_AdmissionVersion : Z;
}.
#[export] Instance SchedulerSnapshot_eta : Eta SchedulerSnapshot := fun r => mkSnapshot
  (sn_HandleEnabled r) (sn_Fallback r) (sn_MonthlyMode r) (sn_Accounts r) (sn_ActiveHighestTier r)
  (sn_AdmissionVersion r).

Definition ClassifyAccount (a : AccountView) (now : Time) : AvailabilityClass :=
  if v_AuthBlocked a || bool_decide (v_Circuit a = CircuitOpen) || v_TemporaryUnavailable a
     || negb (bool_decide (v_Trial a = TrialNone)) then Excluded
  else if v_Exhausted a && After (v_ResetAt a) now then Excluded
  else if bool_decide (v_Cache a = CacheFresh) || bool_decide (v_Cache a = CacheAging) then
    if negb (v_Exhausted a) then Preferred else Opportunistic
  else if bool_decide (v_Cache a = CacheUnknown) || (bool_decide (v_Cache a = CacheStale) && v_LastKnownAvailable a)
  then Opportunistic
  else Excluded.

Definition accountViewLess (mode : string) (a b : AccountView) : bool :=
  if negb (v_CPAPriority a =? v_CPAPriority b) then v_CPAPriority b <? v_CPAPriority a
  else if negb (v_PluginPriority a =? v_PluginPriority b) then v_PluginPriority b <? v_PluginPriority a
  else if String.eqb mode MonthlyModePriority && negb (bool_decide (v_Family a = v_Family b))
       then bool_decide (v_Family a = AccountFamilyMonthly)
  else if negb (f_eq (v_QuotaPressure a) (v_QuotaPressure b)) then f_lt (v_QuotaPressure b) (v_QuotaPressure a)
  else if negb (Equal (v_Expiry a) (v_Expiry b)) then
    if IsZero (v_Expiry a) then false else if IsZero (v_Expiry b) then true else Before (v_Expiry a) (v_Expiry b)
  else if negb (f_eq (v_RemainingQuota a) (v_RemainingQuota b)) then f_lt (v_RemainingQuota b) (v_RemainingQuota a)
  else str_lt (v_ID a) (v_ID b).

Definition eligibleIDs (snapshot : SchedulerSnapshot) (candidates : list Candidate) : gset string :=
  list_to_set (cand_ID <$> filter (fun c => cand_ID c <> "" /\ cand_Provider c = "codex"
                                            /\ cand_ID c ∈ sn_ActiveHighestTier snapshot) candidates).

(** The loop over the snapshot's accounts: the registry, if there is one, is
    advanced for each account considered. *)
Fixpoint select_scan (eligible : gset string) (skip : gset AuthInstanceID) (now : Time)
    (accounts : list AccountView) (trials : option TrialRegistry)
  : option TrialRegistry * (list AccountView * list AccountView) :=
  match accounts with
  | [] => (trials, ([], []))
  | a :: accounts =>
      if bool_decide (v_Instance a ∈ skip) then select_scan eligible skip now accounts trials
      else if negb (bool_decide (v_ID a ∈ eligible)) then select_scan eligible skip now accounts trials
      else
        let trials := (fun reg => Advance reg (v_Instance a) now) <$> trials in
        let a := match trials with
                 | Some reg => a <| v_Trial := trial_State reg (v_Instance a) now |>
                 | None => a
                 end in
        let '(trials, (preferred, opportunistic)) := select_scan eligible skip now accounts trials in
        match ClassifyAccount a now with
        | Preferred => (trials, (a :: preferred, opportunistic))
        | Opportunistic => (trials, (preferred, a :: opportunistic))
        | Excluded => (trials, (preferred, opportunistic))
        end
  end.

Definition selectedResult (class : AvailabilityClass) (accounts : list AccountView) (a : AccountView) : SelectionResult :=
  let trial := bool_decide (class = Opportunistic) in {|
    sel_AuthID := v_ID a; sel_Instance := v_Instance a; sel_Class := class; sel_Trial := trial;
    sel_Fallback := false; sel_EvidenceSource := if trial then "trial_evidence" else "";
    sel_Reason := "selected"; sel_Ordered := accounts |}.

Definition noSelection (fallback : string) : SelectionResult := {|
    sel_AuthID := ""; sel_Instance := 0; sel_Class := Preferred; sel_Trial := false;
    sel_Fallback := String.eqb fallback FallbackFillFirst; sel_EvidenceSource := "";
    sel_Reason := "no_selectable_account"; sel_Ordered := [] |}.

Definition selectAccountSkipping (snapshot : SchedulerSnapshot) (candidates : list Candidate) (now : Time)
    (skip : gset AuthInstanceID) (trials : option TrialRegistry) : option TrialRegistry * SelectionResult :=
  let '(trials, (preferred, opportunistic)) :=
    select_scan (eligibleIDs snapshot candidates) skip now (sn_Accounts snapshot) trials in
  let preferred := sort_slice (accountViewLess (sn_MonthlyMode snapshot)) preferred in
  let opportunistic := sort_slice (accountViewLess (sn_MonthlyMode snapshot)) opportunistic in
  (trials,
   match preferred with
   | a :: _ => selectedResult Preferred preferred a
   | [] => match opportunistic with
           | a :: _ => selectedResult Opportunistic opportunistic a
           | [] => noSelection (sn_Fallback snapshot)
           end
   end).

Definition SelectAccount (snapshot : SchedulerSnapshot) (candidates : list Candidate) (now : Time) : SelectionResult :=
  (selectAccountSkipping snapshot candidates now ∅ None).2.

(** ** The comparison of two accounts is a strict weak order *)

Definition family_less (mode : string) (a b : AccountView) : bool :=
  String.eqb mode MonthlyModePriority && negb (bool_decide (v_Family a = v_Family b))
  && bool_decide (v_Family a = AccountFamilyMonthly).

Definition expiry_less (a b : AccountView) : bool :=
  negb (Equal (v_Expiry a) (v_Expiry b)) && negb (IsZero (v_Expiry a))
  && (IsZero (v_Expiry b) || Before (v_Expiry a) (v_Expiry b)).

(** The views on which the comparison is meaningful: no NaN, and, when monthly
    accounts come first, only the two families the mode compares. *)
Record comparable (mode : string) (a : AccountView) : Prop := {
  cmp_pressure : is_nan (v_QuotaPressure a) = false;
  cmp_remaining : is_nan (v_RemainingQuota a) = false;
  cmp_family : mode = MonthlyModePriority -> v_Family a = AccountFamilyWeekly \/ v_Family a = AccountFamilyMonthly;
}.

Lemma family_less_spec mode a b :
  comparable mode a -> comparable mode b ->
  (if String.eqb mode MonthlyModePriority && negb (bool_decide (v_Family a = v_Family b))
   then bool_decide (v_Family a = AccountFamilyMonthly) = family_less mode a b
        /\ family_less mode a b = negb (family_less mode b a)
   else family_less mode a b = false /\ family_less mode b a = false).
Proof.
  intros [_ _ Ha] [_ _ Hb]. unfold family_less.
  destruct (String.eqb_spec mode MonthlyModePriority) as [E|]; simpl; [|done].
  specialize (Ha E). specialize (Hb E).
  destruct Ha as [-> | ->], Hb as [-> | ->]; vm_compute; done.
Qed.

(** The same comparison, key by key. *)
Definition accountViewLex (mode : string) : AccountView -> AccountView -> bool :=
  lex (fun a b => v_CPAPriority b <? v_CPAPriority a)
   (lex (fun a b => v_PluginPriority b <? v_PluginPriority a)
    (lex (family_less mode)
     (lex (fun a b => f_lt (v_QuotaPressure b) (v_QuotaPressure a))
      (lex expiry_less
       (lex (fun a b => f_lt (v_RemainingQuota b) (v_RemainingQuota a)) (fun a b => str_lt (v_ID a) (v_ID b))))))).

Lemma accountViewLess_lex mode a b :
  comparable mode a -> comparable mode b -> accountViewLess mode a b = accountViewLex mode a b.
Proof.
  intros Ha Hb. pose proof (family_less_spec mode a b Ha Hb) as Hf. destruct Ha as [Np Nr _], Hb as [Np' Nr' _].
  unfold accountViewLess, accountViewLex, lex.
  rewrite !f_eq_key by done.
  destruct (Z.eqb_spec (v_CPAPriority a) (v_CPAPriority b)) as [E|E]; simpl;
    [replace (v_CPAPriority b <? v_CPAPriority a) with false by lia;
     replace (v_CPAPriority a <? v_CPAPriority b) with false by lia|destruct (v_CPAPriority b <? _) eqn:?; [done|];
     by replace (v_CPAPriority a <? v_CPAPriority b) with true by lia].
  destruct (Z.eqb_spec (v_PluginPriority a) (v_PluginPriority b)) as [E'|E']; simpl;
    [replace (v_PluginPriority b <? v_PluginPriority a) with false by lia;
     replace (v_PluginPriority a <? v_PluginPriority b) with false by lia|destruct (v_PluginPriority b <? _) eqn:?; [done|];
     by replace (v_PluginPriority a <? v_PluginPriority b) with true by lia].
  destruct (String.eqb mode MonthlyModePriority && _).
  { destruct Hf as [-> Hf]. rewrite Hf. by destruct (family_less mode b a). }
  destruct Hf as [-> ->].
  destruct (f_lt (v_QuotaPressure b) (v_QuotaPressure a)) eqn:P1; simpl; [by rewrite andb_false_r|].
  destruct (f_lt (v_QuotaPressure a) (v_QuotaPressure b)) eqn:P2; simpl; [done|].
  unfold expiry_less.
  destruct (negb (Equal (v_Expiry a) (v_Expiry b))) eqn:X.
  { replace (negb (Equal (v_Expiry b) (v_Expiry a))) with true by time_lia.
    destruct (IsZero (v_Expiry a)) eqn:Za, (IsZero (v_Expiry b)) eqn:Zb; simpl; try done; [time_lia|].
    destruct (Before (v_Expiry a) (v_Expiry b)) eqn:B1; [done|].
    by replace (Before (v_Expiry b) (v_Expiry a)) with true by time_lia. }
  replace (negb (Equal (v_Expiry b) (v_Expiry a))) with false by time_lia. simpl.
  destruct (f_lt (v_RemainingQuota b) (v_RemainingQuota a)) eqn:R1; simpl; [by rewrite andb_false_r|].
  by destruct (f_lt (v_RemainingQuota a) (v_RemainingQuota b)) eqn:R2; simpl.
Qed.

Lemma expiry_less_weak_order P : weak_order_on expiry_less P.
Proof. unfold expiry_less. split; intros; time_lia. Qed.

Lemma family_less_weak_order mode : weak_order_on (family_less mode) (comparable mode).
Proof.
  unfold family_less. destruct (String.eqb_spec mode MonthlyModePriority) as [E|]; simpl.
  - split.
    + intros a b [_ _ Ha] [_ _ Hb]. destruct (Ha E) as [-> | ->], (Hb E) as [-> | ->]; vm_compute; done.
    + intros a b c [_ _ Ha] [_ _ Hb] [_ _ Hc].
      destruct (Ha E) as [-> | ->], (Hb E) as [-> | ->], (Hc E) as [-> | ->]; vm_compute; auto.
  - split; by intros.
Qed.

Lemma accountViewLess_weak_order mode : weak_order_on (accountViewLess mode) (comparable mode).
Proof.
  assert (weak_order_on (accountViewLex mode) (comparable mode)) as W.
  2: { split.
       - intros a b Pa Pb. rewrite !accountViewLess_lex by done. apply (wo_asym _ _ W); done.
       - intros a b c Pa Pb Pc. rewrite !accountViewLess_lex by done. apply (wo_split _ _ W); done. }
  unfold accountViewLex. repeat apply lex_weak_order; auto using key_weak_order_desc, family_less_weak_order, expiry_less_weak_order, str_weak_order;
    apply f_weak_order_desc; by intros a [].
Qed.

(** Accounts that compare equal have the same identifier. *)
Lemma accountViewLess_total mode a b :
  comparable mode a -> comparable mode b ->
  accountViewLess mode a b = false -> accountViewLess mode b a = false -> v_ID a = v_ID b.
Proof.
  intros Pa Pb. rewrite !accountViewLess_lex by done. unfold accountViewLex, lex.
  repeat match goal with |- context [if ?c then _ else _] => destruct c; try done end. apply str_lt_total.
Qed.

(** ** What the scan collects *)

(** The view of an account at pick time. *)
Definition view_now (trials : option TrialRegistry) (now : Time) (a : AccountView) : AccountView :=
  match trials with
  | Some reg => a <| v_Trial := trial_State (Advance reg (v_Instance a) now) (v_Instance a) now |>
  | None => a
  end.

Definition considered (eligible : gset string) (skip : gset AuthInstanceID) (a : AccountView) : Prop :=
  v_Instance a ∉ skip /\ v_ID a ∈ eligible.
#[export] Instance considered_dec eligible skip a : Decision (considered eligible skip a).
Proof. unfold considered. apply _. Defined.

Lemma advance_record_idem now v : advance_record now (advance_record now v) = advance_record now v.
Proof.
  unfold advance_record at 2 3. destruct (_ && _) eqn:E; [|by unfold advance_record; rewrite E].
  unfold advance_record. done.
Qed.

Lemma Advance_idem reg i now : Advance (Advance reg i now) i now = Advance reg i now.
Proof.
  unfold Advance, trial_update. apply map_eq. intros j. destruct (decide (i = j)) as [->|].
  - rewrite !lookup_alter_eq. destruct (reg !! j); simpl; [by rewrite advance_record_idem|done].
  - by rewrite !lookup_alter_ne.
Qed.

Lemma Advance_comm reg i j now : Advance (Advance reg i now) j now = Advance (Advance reg j now) i now.
Proof.
  destruct (decide (i = j)) as [->|]; [done|]. unfold Advance, trial_update. apply alter_alter_ne. done.
Qed.

Lemma trial_State_advance_other reg i j now :
  i <> j -> trial_State (Advance reg i now) j now = trial_State reg j now.
Proof. intros. unfold trial_State, Advance, trial_update. by rewrite lookup_alter_ne. Qed.

(** Advancing the registry for one account changes the view of no account. *)
Lemma view_now_advance reg i now a : view_now (Some (Advance reg i now)) now a = view_now (Some reg) now a.
Proof.
  simpl. f_equal. destruct (decide (i = v_Instance a)) as [->|]; [by rewrite Advance_idem|].
  rewrite Advance_comm. by apply trial_State_advance_other.
Qed.

Lemma select_scan_spec eligible skip now accounts trials :
  let views := view_now trials now <$> filter (considered eligible skip) accounts in
  (select_scan eligible skip now accounts trials).2 =
  (filter (fun v => ClassifyAccount v now = Preferred) views,
   filter (fun v => ClassifyAccount v now = Opportunistic) views).
Proof.
  cbv zeta. revert trials. induction accounts as [|a accounts IH]; intros trials; [done|].
  cbn [select_scan]. unfold considered in *. rewrite filter_cons.
  case_bool_decide as Hs; [by rewrite decide_False by tauto|].
  case_bool_decide as He; cbn [negb]; [|by rewrite decide_False by tauto].
  rewrite decide_True by done. rewrite fmap_cons.
  set (trials' := (fun reg => Advance reg (v_Instance a) now) <$> trials).
  assert (match trials' with Some reg => a <| v_Trial := trial_State reg (v_Instance a) now |> | None => a end
          = view_now trials now a) as ->. { unfold trials'. by destruct trials. }
  specialize (IH trials').
  assert (view_now trials' now <$> filter (fun x => v_Instance x ∉ skip /\ v_ID x ∈ eligible) accounts
          = view_now trials now <$> filter (fun x => v_Instance x ∉ skip /\ v_ID x ∈ eligible) accounts) as Eq.
  { apply list_fmap_ext. intros i x _. unfold trials'. destruct trials; [apply view_now_advance|done]. }
  rewrite Eq in IH. destruct (select_scan eligible skip now accounts trials') as [t [p o]]. simpl in IH.
  injection IH as -> ->. rewrite !filter_cons.
  destruct (ClassifyAccount (view_now trials now a) now); simpl; repeat case_decide; done.
Qed.

Lemma elem_of_eligible snapshot candidates id :
  id ∈ eligibleIDs snapshot candidates <->
  id <> "" /\ id ∈ sn_ActiveHighestTier snapshot /\ exists c, c ∈ candidates /\ cand_ID c = id /\ cand_Provider c = "codex".
Proof.
  unfold eligibleIDs. rewrite elem_of_list_to_set, list_elem_of_fmap. split.
  - intros (c & -> & Hc). apply list_elem_of_filter in Hc as [(H1 & H2 & H3) Hc]. eauto 10.
  - intros (H1 & H2 & c & Hc & <- & Hp). exists c. split; [done|]. by apply list_elem_of_filter.
Qed.

(** ** Specification of a selection *)

(** The accounts a pick considers, as they are at pick time. *)
Definition pick_views (snapshot : SchedulerSnapshot) (candidates : list Candidate) (now : Time)
    (skip : gset AuthInstanceID) (trials : option TrialRegistry) : list AccountView :=
  view_now trials now <$> filter (considered (eligibleIDs snapshot candidates) skip) (sn_Accounts snapshot).

(** [r] selects [a]: [a] is selectable, of the best class present, and, when the
    order is meaningful on the accounts considered, none of its class comes before
    it. *)
Record selects (mode : string) (views : list AccountView) (now : Time) (r : SelectionResult) (a : AccountView) : Prop := {
  sc_id : sel_AuthID r = v_ID a /\ sel_Instance r = v_Instance a;
  sc_member : a ∈ views;
  sc_class : sel_Class r = ClassifyAccount a now /\ sel_Class r <> Excluded;
  sc_best_class : forall b, b ∈ views -> ClassifyAccount b now = Preferred -> sel_Class r = Preferred;
  sc_best : Forall (comparable mode) views ->
    forall b, b ∈ views -> ClassifyAccount b now = sel_Class r -> accountViewLess mode b a = false;
  sc_trial : sel_Trial r = bool_decide (sel_Class r = Opportunistic) /\ sel_Fallback r = false;
}.

Lemma sorted_class_head mode views now class a rest :
  sort_slice (accountViewLess mode) (filter (fun v => ClassifyAccount v now = class) views) = a :: rest ->
  a ∈ views /\ ClassifyAccount a now = class
  /\ (Forall (comparable mode) views -> forall b, b ∈ views -> ClassifyAccount b now = class -> accountViewLess mode b a = false).
Proof.
  intros E. set (l := filter _ views) in E.
  assert (a ∈ l) as Ha by (rewrite <- (sort_slice_perm (accountViewLess mode)), E; constructor).
  apply list_elem_of_filter in Ha as [Hc Ha]. split_and!; try done.
  intros HF b Hb Hbc. assert (Forall (comparable mode) l) as HFl by (by apply Forall_filter_sub).
  eapply (sort_slice_head _ _ (accountViewLess_weak_order mode) l); try done.
  by apply list_elem_of_filter.
Qed.

Lemma sorted_class_nil mode views now class :
  sort_slice (accountViewLess mode) (filter (fun v => ClassifyAccount v now = class) views) = [] ->
  forall b, b ∈ views -> ClassifyAccount b now <> class.
Proof.
  intros E b Hb Hc. apply sort_slice_nil_inv in E. by apply (filter_nil_not_elem_of _ _ b E Hc).
Qed.

Lemma select_views snapshot candidates now skip trials :
  let mode := sn_MonthlyMode snapshot in
  let views := pick_views snapshot candidates now skip trials in
  (selectAccountSkipping snapshot candidates now skip trials).2 =
  match sort_slice (accountViewLess mode) (filter (fun v => ClassifyAccount v now = Preferred) views) with
  | a :: rest => selectedResult Preferred (a :: rest) a
  | [] => match sort_slice (accountViewLess mode) (filter (fun v => ClassifyAccount v now = Opportunistic) views) with
          | a :: rest => selectedResult Opportunistic (a :: rest) a
          | [] => noSelection (sn_Fallback snapshot)
          end
  end.
Proof.
  cbv zeta. unfold selectAccountSkipping, pick_views.
  pose proof (select_scan_spec (eligibleIDs snapshot candidates) skip now (sn_Accounts snapshot) trials) as Hs.
  cbv zeta in Hs. destruct (select_scan _ _ _ _ _) as [t [p o]]. simpl in Hs. injection Hs as -> ->. cbn [snd].
  repeat case_match; by simplify_eq.
Qed.

(** ** Properties *)


(** A small snapshot for the witnesses: two weekly accounts. *)
Definition example_view (id : string) (instance priority : Z) (cache : CacheClass) : AccountView :=
  mkView id "" instance 0 priority AccountFamilyWeekly cache true false 0 false CircuitClosed false TrialNone 10
    (f_of_Z 50) (f_of_Z 1).
Definition example_snapshot (accounts : list AccountView) : SchedulerSnapshot :=
  mkSnapshot true FallbackFillFirst MonthlyModeExpiryOrder accounts (list_to_set (v_ID <$> accounts)) 1.
Definition example_candidates (accounts : list AccountView) : list Candidate :=
  (fun a => mkPlainCandidate (v_ID a) "codex") <$> accounts.


Lemma sort_slice_order_independent mode l1 l2 :
  Forall (comparable mode) l1 -> (forall a b, a ∈ l1 -> b ∈ l1 -> v_ID a = v_ID b -> a = b) -> l1 ≡ₚ l2 ->
  sort_slice (accountViewLess mode) l1 = sort_slice (accountViewLess mode) l2.
Proof.
  intros HF Hid Hp. set (Q := fun a => comparable mode a /\ a ∈ l1).
  assert (weak_order_on (accountViewLess mode) Q) as W.
  { pose proof (accountViewLess_weak_order mode) as W. split.
    - intros a b [Pa _] [Pb _]. by apply (wo_asym _ _ W).
    - intros a b c [Pa _] [Pb _] [Pc _]. by apply (wo_split _ _ W). }
  assert (Forall Q l1) as H1. { rewrite Forall_forall in *. intros x Hx. split; auto. }
  assert (Forall Q l2) as H2 by by rewrite <- Hp.
  apply (sorted_perm_unique (accountViewLess mode) Q).
  - intros a b [Pa Ha] [Pb Hb] E1 E2. apply Hid; try done. by apply (accountViewLess_total mode).
  - by rewrite sort_slice_perm.
  - by apply (sort_slice_sorted (accountViewLess mode) Q W).
  - by apply (sort_slice_sorted (accountViewLess mode) Q W).
  - by rewrite !sort_slice_perm.
Qed.

(** The selection does not depend on the order in which the snapshot lists
    its accounts: with distinct identifiers, snapshots whose accounts are
    permutations of each other give the same result, ordering included. *)
Theorem selection_order_independent (snapshot : SchedulerSnapshot) (accounts' : list AccountView)
    (candidates : list Candidate) (now : Time) (skip : gset AuthInstanceID) (trials : option TrialRegistry) :
  let mode := sn_MonthlyMode snapshot in
  Forall (comparable mode) (pick_views snapshot candidates now skip trials) ->
  NoDup (v_ID <$> sn_Accounts snapshot) -> sn_Accounts snapshot ≡ₚ accounts' ->
  (selectAccountSkipping (snapshot <| sn_Accounts := accounts' |>) candidates now skip trials).2
  = (selectAccountSkipping snapshot candidates now skip trials).2.
Proof.
  cbv zeta. intros HF Hnd Hp. rewrite !select_views. cbv zeta.
  set (views := pick_views snapshot candidates now skip trials) in *.
  assert (views ≡ₚ pick_views (snapshot <| sn_Accounts := accounts' |>) candidates now skip trials) as Hv.
  { unfold views, pick_views. simpl. by rewrite Hp. }
  assert (forall a b, a ∈ views -> b ∈ views -> v_ID a = v_ID b -> a = b) as Hid.
  { unfold views, pick_views. intros a b Ha Hb E.
    apply list_elem_of_fmap in Ha as (a0 & -> & Ha), Hb as (b0 & -> & Hb).
    apply list_elem_of_filter in Ha as [_ Ha], Hb as [_ Hb].
    assert (v_ID a0 = v_ID b0) as E0 by (by destruct trials).
    by rewrite (NoDup_fmap_inj_on _ _ Hnd a0 b0 Ha Hb E0). }
  assert (forall c, sort_slice (accountViewLess (sn_MonthlyMode snapshot))
            (filter (fun v => ClassifyAccount v now = c) (pick_views (snapshot <| sn_Accounts := accounts' |>) candidates now skip trials))
          = sort_slice (accountViewLess (sn_MonthlyMode snapshot)) (filter (fun v => ClassifyAccount v now = c) views)) as Hs.
  { intros c. symmetry. apply sort_slice_order_independent; [by apply Forall_filter_sub| |by rewrite Hv].
    intros a b Ha Hb. apply list_elem_of_filter in Ha as [_ Ha], Hb as [_ Hb]. auto. }
  cbn [sn_MonthlyMode sn_Fallback set_field]. by rewrite !Hs.
Qed.

Lemma selection_order_independent_witness :
  let a := example_view "a" 1 0 CacheFresh in let b := example_view "b" 2 5 CacheFresh in
  (selectAccountSkipping ((example_snapshot [a; b]) <| sn_Accounts := [b; a] |>) (example_candidates [a; b]) 5 ∅ None).2
  = (selectAccountSkipping (example_snapshot [a; b]) (example_candidates [a; b]) 5 ∅ None).2.
Proof.
  cbv zeta. apply (selection_order_independent (example_snapshot [_; _])).
  - vm_compute. repeat constructor; simpl; intros; discriminate.
  - simpl. apply NoDup_cons. split; [|apply NoDup_singleton]. intros H%list_elem_of_singleton. discriminate H.
  - simpl. apply Permutation_swap.
Defined.

(** An account a selection returns is usable: its authentication is not
    blocked, its circuit is not open, it is neither temporarily exhausted nor
    in a trial, and no exhausted window of it awaits a future reset. *)
Theorem selected_account_usable (snapshot : SchedulerSnapshot) (candidates : list Candidate) (now : Time)
    (skip : gset AuthInstanceID) (trials : option TrialRegistry) :
  let r := (selectAccountSkipping snapshot candidates now skip trials).2 in
  sel_AuthID r <> "" ->
  exists a, a ∈ pick_views snapshot candidates now skip trials /\ v_ID a = sel_AuthID r
    /\ v_ID a ∈ sn_ActiveHighestTier snapshot
    /\ v_AuthBlocked a = false /\ v_Circuit a <> CircuitOpen /\ v_TemporaryUnavailable a = false
    /\ v_Trial a = TrialNone /\ ~ (v_Exhausted a = true /\ now < v_ResetAt a).
Proof.
  cbv zeta. rewrite select_views. cbv zeta. set (views := pick_views _ _ _ _ _). intros Hne.
  assert (exists a, a ∈ views /\ ClassifyAccount a now <> Excluded /\ v_ID a = sel_AuthID
     (match sort_slice (accountViewLess (sn_MonthlyMode snapshot)) (filter (fun v => ClassifyAccount v now = Preferred) views) with
      | a :: rest => selectedResult Preferred (a :: rest) a
      | [] => match sort_slice (accountViewLess (sn_MonthlyMode snapshot)) (filter (fun v => ClassifyAccount v now = Opportunistic) views) with
              | a :: rest => selectedResult Opportunistic (a :: rest) a
              | [] => noSelection (sn_Fallback snapshot) end end)) as (a & Hm & Hc & E).
  { destruct (sort_slice _ (filter (fun v => ClassifyAccount v now = Preferred) views)) as [|a rest] eqn:E1;
      [destruct (sort_slice _ (filter (fun v => ClassifyAccount v now = Opportunistic) views)) as [|a rest] eqn:E2|]; try done.
    - exists a. assert (a ∈ filter (fun v => ClassifyAccount v now = Opportunistic) views) as Ha
        by (rewrite <- (sort_slice_perm (accountViewLess (sn_MonthlyMode snapshot))), E2; constructor).
      apply list_elem_of_filter in Ha as [Hc Ha]. rewrite Hc. done.
    - exists a. assert (a ∈ filter (fun v => ClassifyAccount v now = Preferred) views) as Ha
        by (rewrite <- (sort_slice_perm (accountViewLess (sn_MonthlyMode snapshot))), E1; constructor).
      apply list_elem_of_filter in Ha as [Hc Ha]. rewrite Hc. done. }
  exists a. split_and!; try done.
  - unfold views, pick_views in Hm. apply list_elem_of_fmap in Hm as (a0 & -> & H0).
    apply list_elem_of_filter in H0 as [[_ H0] _]. apply elem_of_eligible in H0 as (_ & H0 & _). by destruct trials.
  - unfold ClassifyAccount in Hc. by destruct (v_AuthBlocked a).
  - unfold ClassifyAccount in Hc. intros Hx. rewrite Hx, orb_true_r in Hc. done.
  - unfold ClassifyAccount in Hc. destruct (v_TemporaryUnavailable a); [|done]. rewrite orb_true_r in Hc. done.
  - unfold ClassifyAccount in Hc. destruct (v_Trial a); [done|..]; rewrite orb_true_r in Hc; done.
  - intros [Hx Ht]. unfold ClassifyAccount in Hc. rewrite Hx in Hc.
    replace (After (v_ResetAt a) now) with true in Hc by time_lia. simpl in Hc. by destruct (_ || _ || _ || _).
Qed.

Lemma selected_account_usable_witness :
  let accounts := [example_view "a" 1 0 CacheFresh; example_view "b" 2 5 CacheFresh] in
  exists a, a ∈ pick_views (example_snapshot accounts) (example_candidates accounts) 5 ∅ None /\ v_ID a = "b".
Proof.
  cbv zeta. set (accounts := [example_view "a" 1 0 CacheFresh; example_view "b" 2 5 CacheFresh]).
  destruct (selected_account_usable (example_snapshot accounts) (example_candidates accounts) 5 ∅ None) as (a & Hm & E & _).
  - vm_compute. discriminate.
  - exists a. split; [exact Hm|]. rewrite E. vm_compute. reflexivity.
Defined.

(** With [monthly_mode: priority] the comparison is not a strict weak order
    as soon as an account of unknown family takes part: two weekly accounts
    are each tied with it although one precedes the other, and the selection
    then depends on the listing order and can pass over the better account. *)
Theorem monthly_priority_unknown_family_misorders :
  exists best other unknown : AccountView,
    accountViewLess MonthlyModePriority best other = true
    /\ accountViewLess MonthlyModePriority best unknown = false
    /\ accountViewLess MonthlyModePriority unknown best = false
    /\ accountViewLess MonthlyModePriority unknown other = false
    /\ accountViewLess MonthlyModePriority other unknown = false
    /\ let pick l := sel_AuthID (SelectAccount ((example_snapshot l) <| sn_MonthlyMode := MonthlyModePriority |>)
                                   (example_candidates l) 5) in
       pick [other; unknown; best] = v_ID other /\ pick [best; unknown; other] = v_ID best /\ v_ID best <> v_ID other.
Proof.
  exists ((example_view "best" 1 0 CacheFresh) <| v_QuotaPressure := f_of_Z 9 |>),
    (example_view "other" 2 0 CacheFresh), ((example_view "unknown" 3 0 CacheFresh) <| v_Family := AccountFamilyUnknown |>).
  vm_compute. split_and!; try reflexivity. discriminate.
Qed.

(** A higher CPA tier does not always win: an account of a lower tier with
    fresh evidence is selected over a selectable account of a higher tier
    whose evidence is unknown, because the class is compared before the tier. *)
Theorem lower_tier_preferred_over_higher_trial :
  exists high low : AccountView,
    v_CPAPriority low < v_CPAPriority high
    /\ ClassifyAccount high 5 = Opportunistic /\ ClassifyAccount low 5 = Preferred
    /\ sel_AuthID (SelectAccount (example_snapshot [high; low]) (example_candidates [high; low]) 5) = v_ID low
    /\ sel_AuthID (SelectAccount (example_snapshot [high]) (example_candidates [high]) 5) = v_ID high.
Proof.
  exists (example_view "high" 1 10 CacheUnknown), (example_view "low" 2 0 CacheFresh).
  vm_compute. split_and!; reflexivity.
Qed.
