(* ===== verification/Capability.v ===== *)
(** * Host roster tiers (capability.go)

    The roster entries the host lists, the detection of an authoritative
    roster, and the grouping of the codex entries by CPA priority. *)

From S2P Require Import Prelude Float64 Config Models.
#[local] Open Scope string_scope.
#[local] Open Scope list_scope.
#[local] Open Scope Z_scope.
#[local] Open Scope go_scope.

Inductive HostCapability := CapabilityB | CapabilityA.
#[export] Instance HostCapability_eq_dec : EqDecision HostCapability.
Proof. solve_decision. Defined.

Inductive RosterHealth := RosterHealthNone | RosterWaiting | RosterHealthy | RosterDegraded | RosterFailClosed.
#[export] Instance RosterHealth_eq_dec : EqDecision RosterHealth.
Proof. solve_decision. Defined.

Record RosterEntry := mkEntry {
  re_ID : string;
  re_AuthIndex : string;
  re_Provider : string;
  re_Priority : option Z;
}.
#[export] Instance RosterEntry_eq_dec : EqDecision RosterEntry.
Proof. solve_decision. Defined.

Record HostRosterSnapshot := mkHostRoster {
  hr_Capability : HostCapability;
  hr_Confirmed : bool;
  hr_Provisional : bool;
  hr_BackgroundAllowed : bool;
  hr_Health : RosterHealth;
  hr_Generation : Z;
  hr_LifecycleRevision : Z;
  hr_Entries : list RosterEntry;
  hr_ConfirmedAt : Time;
  hr_DegradedSince : Time;
}.
#[export] Instance HostRosterSnapshot_eta : Eta HostRosterSnapshot := fun r => mkHostRoster
  (hr_Capability r) (hr_Confirmed r) (hr_Provisional r) (hr_BackgroundAllowed r) (hr_Health r)
  (hr_Generation r) (hr_LifecycleRevision r) (hr_Entries r) (hr_ConfirmedAt r) (hr_DegradedSince r).

(** [HostRosterSnapshot{Capability: CapabilityB}] *)
Definition emptyHostRoster : HostRosterSnapshot :=
  mkHostRoster CapabilityB false false false RosterHealthNone 0 0 [] zeroTime zeroTime.

Definition normalizeHostRosterLifecycle (roster : HostRosterSnapshot) : HostRosterSnapshot :=
  if bool_decide (hr_Capability roster = CapabilityA) && bool_decide (hr_Health roster = RosterHealthNone) then
    roster <| hr_Confirmed := true |> <| hr_BackgroundAllowed := true |> <| hr_Health := RosterHealthy |>
  else roster.

(** The host is a parameter: [None] when there is none, otherwise what its
    [ListHostAuths] returns. *)
Definition DetectHostRoster (host : option (result string (list RosterEntry))) (now : Time) : HostRosterSnapshot :=
  match host with
  | None | Some (Err _) => emptyHostRoster
  | Some (Ok entries) =>
      if bool_decide (entries = []) then emptyHostRoster
      else if existsb (fun e => bool_decide (re_Priority e = None)) entries then emptyHostRoster
      else emptyHostRoster <| hr_Capability := CapabilityA |> <| hr_Entries := entries |>
             <| hr_ConfirmedAt := now |>
  end.

(** The entries both groupings skip, and the priority of the others. *)
Definition codexPriority (entry : RosterEntry) : option Z :=
  if String.eqb (re_ID entry) "" || negb (String.eqb (re_Provider entry) "codex") then None
  else re_Priority entry.

(** The variables of the loop of [HighestCodexTier]. *)
Record TierScan := mkTierScan {
  ts_priority : Z;
  ts_ids : list string;
  ts_ok : bool;
  ts_seen : gset string;
}.

Definition highest_step (s : TierScan) (entry : RosterEntry) : TierScan :=
  match codexPriority entry with
  | None => s
  | Some p =>
      let s := if negb (ts_ok s) || (ts_priority s <? p) then mkTierScan p [] true ∅ else s in
      if p =? ts_priority s then
        if bool_decide (re_ID entry ∈ ts_seen s) then s
        else mkTierScan (ts_priority s) (ts_ids s ++ [re_ID entry]) (ts_ok s) ({[re_ID entry]} ∪ ts_seen s)
      else s
  end.

Definition HighestCodexTier (entries : list RosterEntry) : Z * list string * bool :=
  let s := foldl highest_step (mkTierScan 0 [] false ∅) entries in
  if negb (ts_ok s) then (0, [], false) else (ts_priority s, sortStrings (ts_ids s), true).

Definition group_step (acc : gmap Z (gset string) * list Z) (entry : RosterEntry)
  : gmap Z (gset string) * list Z :=
  match codexPriority entry with
  | None => acc
  | Some priority =>
      let '(byPriority, priorities) := acc in
      let '(tier, priorities) :=
        match byPriority !! priority with
        | Some tier => (tier, priorities)
        | None => (∅, priorities ++ [priority])
        end in
      (<[priority := {[re_ID entry]} ∪ tier]> byPriority, priorities)
  end.

(** [sort.Sort(sort.Reverse(sort.IntSlice(priorities)))] *)
Definition int_greater (a b : Z) : bool := b <? a.

Definition CodexTierGroups (entries : list RosterEntry) : list TierAdmission * bool :=
  let '(byPriority, priorities) := foldl group_step (∅, []) entries in
  if bool_decide (priorities = []) then ([], false)
  else ((fun priority => mkTier priority (default ∅ (byPriority !! priority))) <$>
          sort_slice int_greater priorities, true).

(** ** The loops *)

(** [entry] is a codex entry of priority [p]. *)
Definition tier_member (entries : list RosterEntry) (p : Z) (id : string) : Prop :=
  exists e, e ∈ entries /\ codexPriority e = Some p /\ re_ID e = id.

Lemma tier_member_snoc entries e p id :
  tier_member (entries ++ [e]) p id <-> tier_member entries p id \/ (codexPriority e = Some p /\ re_ID e = id).
Proof.
  unfold tier_member. split.
  - intros (e' & [H| ->%list_elem_of_singleton]%elem_of_app & Hp & Hid); [left; eauto|by right].
  - intros [(e' & H & Hp & Hid)|[Hp Hid]]; [exists e'|exists e]; rewrite elem_of_app, list_elem_of_singleton; auto.
Qed.

Record group_inv (entries : list RosterEntry) (acc : gmap Z (gset string) * list Z) : Prop := {
  gi_nodup : NoDup acc.2;
  gi_dom : forall p, p ∈ acc.2 <-> is_Some (acc.1 !! p);
  gi_tier : forall p id, (exists t, acc.1 !! p = Some t /\ id ∈ t) <-> tier_member entries p id;
  gi_inhabited : forall p t, acc.1 !! p = Some t -> exists id, id ∈ t;
}.

Lemma group_step_inv entries acc e :
  group_inv entries acc -> group_inv (entries ++ [e]) (group_step acc e).
Proof.
  intros [Hnd Hdom Htier Hinh]. destruct acc as [m ps]. unfold group_step. simpl in *.
  destruct (codexPriority e) as [p|] eqn:Ep.
  2:{ split; simpl; auto. intros p id. rewrite Htier, tier_member_snoc, Ep. naive_solver. }
  set (old := default ∅ (m !! p)). set (ps' := match m !! p with Some _ => ps | None => ps ++ [p] end).
  assert ((let '(tier, priorities) := match m !! p with Some tier => (tier, ps) | None => (∅, ps ++ [p]) end in
           (<[p:={[re_ID e]} ∪ tier]> m, priorities)) = (<[p:={[re_ID e]} ∪ old]> m, ps')) as ->.
  { unfold old, ps'. by destruct (m !! p). }
  split; simpl.
  - unfold ps'. destruct (m !! p) eqn:E; [done|]. apply NoDup_app. split_and!; [done| |apply NoDup_singleton].
    intros x Hx ->%list_elem_of_singleton. apply Hdom in Hx. rewrite E in Hx. by destruct Hx.
  - intros q. unfold ps'. destruct (decide (q = p)) as [->|Hne].
    + rewrite lookup_insert_eq. split; [by eauto|intros _]. destruct (m !! p) eqn:E.
      * apply Hdom. by rewrite E.
      * rewrite elem_of_app, list_elem_of_singleton. by right.
    + rewrite lookup_insert_ne by done. rewrite <- Hdom. destruct (m !! p); [done|].
      rewrite elem_of_app, list_elem_of_singleton. naive_solver.
  - intros q id. rewrite tier_member_snoc, <- Htier, Ep. destruct (decide (q = p)) as [->|Hne].
    + rewrite lookup_insert_eq. unfold old. split.
      * intros (t & [= <-] & [->%elem_of_singleton|H]%elem_of_union); [by right|left].
        destruct (m !! p) as [t|]; [by eauto|by apply not_elem_of_empty in H].
      * intros [(t & E & H)|[_ <-]]; (eexists; split; [done|]); [rewrite E; set_solver|set_solver].
    + rewrite lookup_insert_ne by done. naive_solver.
  - intros q t. destruct (decide (q = p)) as [->|Hne].
    + rewrite lookup_insert_eq. intros [= <-]. exists (re_ID e). set_solver.
    + rewrite lookup_insert_ne by done. apply Hinh.
Qed.

Lemma group_fold_inv entries : group_inv entries (foldl group_step (∅, []) entries).
Proof.
  induction entries as [|e entries IH] using rev_ind.
  - split; simpl; try done.
    + constructor.
    + intros p. rewrite lookup_empty, is_Some_alt. split; [by intros ?%not_elem_of_nil|done].
    + intros p id. rewrite lookup_empty. split; [naive_solver|]. intros (e & ?%not_elem_of_nil & _). done.
  - rewrite foldl_snoc. by apply group_step_inv.
Qed.

Record highest_inv (entries : list RosterEntry) (s : TierScan) : Prop := {
  hi_none : ts_ok s = false -> forall p id, ~ tier_member entries p id;
  hi_some : ts_ok s = true -> (exists id, tier_member entries (ts_priority s) id)
              /\ (forall p id, tier_member entries p id -> p <= ts_priority s);
  hi_ids : ts_ok s = true -> forall id, id ∈ ts_ids s <-> tier_member entries (ts_priority s) id;
  hi_nodup : NoDup (ts_ids s);
  hi_seen : forall id, id ∈ ts_seen s <-> id ∈ ts_ids s;
}.

(** Appending the identifier of an entry of the current priority, unless it
    was seen. *)
Lemma highest_append entries s e p :
  codexPriority e = Some p -> ts_ok s = true -> ts_priority s = p ->
  (forall q id, tier_member entries q id -> q <= p) ->
  (forall id, id ∈ ts_ids s <-> tier_member entries p id) ->
  NoDup (ts_ids s) -> (forall id, id ∈ ts_seen s <-> id ∈ ts_ids s) ->
  highest_inv (entries ++ [e])
    (if bool_decide (re_ID e ∈ ts_seen s) then s
     else mkTierScan (ts_priority s) (ts_ids s ++ [re_ID e]) (ts_ok s) ({[re_ID e]} ∪ ts_seen s)).
Proof.
  intros Ep Hok Hp Hmax Hids Hnd Hseen.
  assert (forall q id, tier_member (entries ++ [e]) q id -> q <= p) as Hmax'.
  { intros q id. rewrite tier_member_snoc, Ep. intros [H|[[= ->] _]]; [by eapply Hmax|lia]. }
  assert (tier_member (entries ++ [e]) p (re_ID e)) as Hself by (rewrite tier_member_snoc; by right).
  case_bool_decide as Hin; split; simpl; rewrite ?Hp; try done; try congruence.
  - eauto.
  - intros _ id. rewrite Hids, tier_member_snoc, Ep. split; [by left|].
    intros [H|[_ <-]]; [done|]. apply Hids, Hseen, Hin.
  - eauto.
  - intros _ id. rewrite elem_of_app, list_elem_of_singleton, Hids, tier_member_snoc, Ep. naive_solver.
  - apply NoDup_app. split_and!; [done| |apply NoDup_singleton].
    intros x Hx ->%list_elem_of_singleton. apply Hin, Hseen, Hx.
  - intros id. rewrite elem_of_union, elem_of_singleton, elem_of_app, list_elem_of_singleton, Hseen. naive_solver.
Qed.

Lemma highest_step_inv entries s e : highest_inv entries s -> highest_inv (entries ++ [e]) (highest_step s e).
Proof.
  intros [H1 H2 H3 H4 H5]. unfold highest_step. destruct (codexPriority e) as [p|] eqn:Ep.
  2:{ assert (forall q id, tier_member (entries ++ [e]) q id <-> tier_member entries q id) as Hm.
      { intros. rewrite tier_member_snoc, Ep. naive_solver. }
      split; auto; setoid_rewrite Hm; auto. }
  destruct (negb (ts_ok s) || (ts_priority s <? p)) eqn:Enew; cbn [ts_priority].
  - rewrite Z.eqb_refl.
    assert (forall q id, tier_member entries q id -> q < p) as Hlt.
    { intros q id Hm. destruct (ts_ok s) eqn:Eok.
      - simpl in Enew. destruct (H2 eq_refl) as [_ Hmax]. apply Hmax in Hm. lia.
      - by destruct (H1 eq_refl q id). }
    apply (highest_append entries (mkTierScan p [] true ∅) e p); simpl; try done.
    + intros q id Hm%Hlt. lia.
    + intros id. split; [by intros ?%not_elem_of_nil|]. intros Hm%Hlt. lia.
    + constructor.
    + set_solver.
  - apply orb_false_iff in Enew as [Eok%negb_false_iff Ele]. destruct (H2 Eok) as [[id0 H0] Hmax].
    destruct (p =? ts_priority s) eqn:Eq.
    + apply (highest_append entries s e p); try done; replace p with (ts_priority s) by lia; auto.
    + assert (forall id, tier_member (entries ++ [e]) (ts_priority s) id <-> tier_member entries (ts_priority s) id) as Hm.
      { intros. rewrite tier_member_snoc, Ep. split; [|by left]. intros [|[[= ->] _]]; [done|lia]. }
      split; try done; try congruence.
      * intros _. split; [exists id0; by rewrite Hm|]. intros q id. rewrite tier_member_snoc, Ep.
        intros [?|[[= <-] _]]; [eauto|lia].
      * intros _ id. by rewrite Hm, H3.
Qed.

Lemma highest_fold_inv entries : highest_inv entries (foldl highest_step (mkTierScan 0 [] false ∅) entries).
Proof.
  induction entries as [|e entries IH] using rev_ind.
  - split; simpl; try done.
    + intros _ p id (e & ?%not_elem_of_nil & _). done.
    + constructor.
    + set_solver.
  - rewrite foldl_snoc. by apply highest_step_inv.
Qed.

(** ** Properties *)

Lemma int_greater_weak_order : weak_order_on int_greater (fun _ => True).
Proof. apply (key_weak_order_desc _ (fun x => x)). Qed.

Lemma sort_descending (l : list Z) : NoDup l -> StronglySorted (fun a b => b < a) (sort_slice int_greater l).
Proof.
  intros Hnd. assert (NoDup (sort_slice int_greater l)) as Hnd' by by rewrite sort_slice_perm.
  assert (StronglySorted (not_after int_greater) (sort_slice int_greater l)) as Hs.
  { apply (sort_slice_sorted _ _ int_greater_weak_order). by apply Forall_forall. }
  induction Hs as [|x l' Hs IH Hx]; [constructor|]. apply NoDup_cons in Hnd' as [Hn Hnd'].
  constructor; [auto|]. rewrite Forall_forall in *. intros y Hy. specialize (Hx y Hy).
  unfold not_after, int_greater in Hx. assert (y <> x) by (by intros ->). lia.
Qed.

(** What the tiers of a list of entries are: strictly descending priorities,
    no empty tier, and each tier holds exactly the identifiers listed at its
    priority. *)
Record tiers_of (entries : list RosterEntry) (tiers : list TierAdmission) : Prop := {
  to_descending : StronglySorted (fun a b => tier_Priority b < tier_Priority a) tiers;
  to_inhabited : Forall (fun t => tier_AuthIDs t <> ∅) tiers;
  to_member : forall p id,
    (exists t, t ∈ tiers /\ tier_Priority t = p /\ id ∈ tier_AuthIDs t) <-> tier_member entries p id;
}.

Lemma CodexTierGroups_tiers entries : tiers_of entries (CodexTierGroups entries).1.
Proof.
  unfold CodexTierGroups. pose proof (group_fold_inv entries) as [Hnd Hdom Htier Hinh].
  destruct (foldl group_step (∅, []) entries) as [m ps]. simpl in *. case_bool_decide as Hps; simpl.
  - subst ps. split; [constructor..|]. intros p id. rewrite <- Htier. split.
    + intros (t & ?%not_elem_of_nil & _). done.
    + intros (t & Ht & _). assert (p ∈ []) as ?%not_elem_of_nil by (apply Hdom; by rewrite Ht). done.
  - split.
    + apply sort_descending in Hnd. induction Hnd as [|x l Hs IH Hx]; simpl; [constructor|].
      constructor; [done|]. rewrite Forall_fmap. done.
    + rewrite Forall_fmap, Forall_forall. intros p Hp. rewrite sort_slice_perm in Hp. simpl.
      apply Hdom in Hp as [t Ht]. rewrite Ht. simpl. intros ->. destruct (Hinh _ _ Ht) as [id H].
      by apply not_elem_of_empty in H.
    + intros p id. rewrite <- Htier. split.
      * intros (t & (q & -> & Hq)%list_elem_of_fmap & <- & Hid). simpl in *. rewrite sort_slice_perm in Hq.
        apply Hdom in Hq as [t Ht]. rewrite Ht in Hid. eauto.
      * intros (t & Ht & Hid). exists (mkTier p t). simpl. split_and!; try done.
        apply list_elem_of_fmap. exists p. rewrite Ht, sort_slice_perm. split; [done|]. apply Hdom. by rewrite Ht.
Qed.

Lemma CodexTierGroups_ok entries : (CodexTierGroups entries).2 = false <-> (CodexTierGroups entries).1 = [].
Proof.
  unfold CodexTierGroups. destruct (foldl group_step (∅, []) entries) as [m ps].
  case_bool_decide as Hps; simpl; [done|]. split; [done|]. intros H%fmap_nil_inv%sort_slice_nil_inv. done.
Qed.

(** The tiers of a roster: [CodexTierGroups] reports success exactly when
    some entry is a codex entry with an identifier and a priority; its tiers
    have strictly descending priorities, none is empty, and an identifier is in
    the tier of priority [p] exactly when some entry lists it at [p]. *)
Theorem tier_groups_partition (entries : list RosterEntry) :
  tiers_of entries (CodexTierGroups entries).1
  /\ ((CodexTierGroups entries).2 = true <-> exists p id, tier_member entries p id).
Proof.
  pose proof (CodexTierGroups_tiers entries) as Ht. split; [done|]. destruct Ht as [_ Hinh Hm].
  pose proof (CodexTierGroups_ok entries) as Hok. destruct (CodexTierGroups entries) as [tiers ok]. simpl in *.
  split.
  - intros ->. destruct tiers as [|t ts]; [by specialize (proj2 Hok eq_refl)|].
    apply Forall_cons in Hinh as [Hne _]. apply set_choose_L in Hne as [id Hid].
    exists (tier_Priority t), id. apply Hm. exists t. split; [constructor|done].
  - intros (p & id & (t & Hin & _)%Hm). destruct ok; [done|]. rewrite (proj1 Hok eq_refl) in Hin.
    by apply not_elem_of_nil in Hin.
Qed.

(** [CodexTierGroups] generalises [HighestCodexTier]: the single-pass scan
    for the highest tier returns the priority and the sorted identifiers of the
    first group, and reports failure exactly when there is no group. *)
Theorem highest_tier_is_first_group (entries : list RosterEntry) :
  HighestCodexTier entries =
    match CodexTierGroups entries with
    | (t :: _, _) => (tier_Priority t, sortStrings (elements (tier_AuthIDs t)), true)
    | ([], _) => (0, [], false)
    end.
Proof.
  pose proof (CodexTierGroups_tiers entries) as [Hs Hinh Hm].
  destruct (CodexTierGroups entries) as [tiers ok]. simpl in *.
  unfold HighestCodexTier. pose proof (highest_fold_inv entries) as [H1 H2 H3 H4 H5].
  set (s := foldl highest_step _ entries) in *. destruct (ts_ok s) eqn:Eok; cbn [negb].
  - destruct (H2 eq_refl) as [[id0 H0] Hmax]. destruct tiers as [|t ts].
    { apply Hm in H0 as (t & ?%not_elem_of_nil & _). done. }
    assert (ts_priority s = tier_Priority t) as Ep.
    { apply StronglySorted_inv in Hs as [_ Hs]. rewrite Forall_forall in Hs. apply Forall_cons in Hinh as [Hne _].
      apply set_choose_L in Hne as [id Hid].
      assert (tier_Priority t <= ts_priority s) by (apply (Hmax _ id), Hm; exists t; split; [constructor|done]).
      apply Hm in H0 as (t' & [->|Hin]%elem_of_cons & Hp & _); [done|]. apply Hs in Hin. lia. }
    rewrite Ep. do 2 f_equal. apply sortStrings_perm_eq. apply NoDup_Permutation; [done|apply NoDup_elements|].
    intros id. rewrite elem_of_elements, H3, Ep, <- Hm by done. split; [|by exists t; split; [constructor|]].
    intros (t' & [->|Hin]%elem_of_cons & Hp & Hid); [done|]. apply StronglySorted_inv in Hs as [_ Hs].
    rewrite Forall_forall in Hs. apply Hs in Hin. lia.
  - destruct tiers as [|t ts]; [done|]. apply Forall_cons in Hinh as [Hne _]. apply set_choose_L in Hne as [id Hid].
    destruct (H1 eq_refl (tier_Priority t) id). apply Hm. exists t. split; [constructor|done].
Qed.
