(* ===== verification/Availability.v ===== *)
(** * Availability of one account (scheduler.go, scheduler_snapshot.go)

    The two judgements the program makes about an account: the queue state the
    management page and [PickCodexAccount] use, and the view published to the
    selection, together with the reason the fallback summary reports. *)

From S2P Require Import Prelude Float64 Config Models Circuit Trial Selection.
#[local] Open Scope string_scope.
#[local] Open Scope list_scope.
#[local] Open Scope Z_scope.
#[local] Open Scope go_scope.

Inductive QueueStatus :=
  QueueStatusNone | QueueStatusAvailable | QueueStatusFiveHourExhausted
  | QueueStatusLongWindowExhausted | QueueStatusUnavailable.
#[export] Instance QueueStatus_eq_dec : EqDecision QueueStatus.
Proof. solve_decision. Defined.

Definition windowExhausted (window : option QuotaWindow) (now : Time) : bool :=
  match window with
  | None => false
  | Some w => if negb (qw_Exhausted w) then false else IsZero (qw_ResetAt w) || After (qw_ResetAt w) now
  end.

Definition accountSortTime (account : AccountState) : Time :=
  match pq_LongWindow (a_Quota account) with Some w => qw_ResetAt w | None => zeroTime end.

Definition temporarilyExhausted (account : AccountState) (now : Time) : bool :=
  a_TemporaryExhausted account && (IsZero (a_TemporaryResetAt account) || After (a_TemporaryResetAt account) now).

(** The weekly and the monthly case of the switch differ in their reasons
    only. *)
Definition longWindowQueueState (missing missingReset exhausted : string) (account : AccountState) (now : Time)
  : QueueStatus * bool * string * Time :=
  match pq_LongWindow (a_Quota account) with
  | None => (QueueStatusUnavailable, false, missing, zeroTime)
  | Some long =>
      if IsZero (qw_ResetAt long) then (QueueStatusUnavailable, false, missingReset, zeroTime)
      else if windowExhausted (Some long) now then (QueueStatusLongWindowExhausted, false, exhausted, qw_ResetAt long)
      else if temporarilyExhausted account now then
        (QueueStatusFiveHourExhausted, false, "temporary_exhausted", a_TemporaryResetAt account)
      else
        match pq_FiveHour (a_Quota account) with
        | Some five =>
            if IsZero (qw_ResetAt five) then (QueueStatusUnavailable, false, "missing_five_hour_reset", zeroTime)
            else if windowExhausted (Some five) now then
              (QueueStatusFiveHourExhausted, false, "five_hour_exhausted", qw_ResetAt five)
            else (QueueStatusAvailable, true, "", qw_ResetAt long)
        | None => (QueueStatusAvailable, true, "", qw_ResetAt long)
        end
  end.

Definition accountQueueState (account : AccountState) (now : Time) : QueueStatus * bool * string * Time :=
  if rf_AuthFailure (a_Refresh account) then (QueueStatusUnavailable, false, "auth_failure", zeroTime)
  else if bool_decide (rf_LastFailureKind (a_Refresh account) = RefreshFailureLocal)
  then (QueueStatusUnavailable, false, "local_failure", zeroTime)
  else if a_Stale account then (QueueStatusUnavailable, false, "stale_quota", zeroTime)
  else
    let circuit := effectiveCircuitState (a_Circuit account) now in
    if bool_decide (cb_EffectiveState circuit = CircuitStateOpen)
    then (QueueStatusUnavailable, false, "circuit_open", cb_NextProbeAt circuit)
    else if bool_decide (cb_EffectiveState circuit = CircuitStateClosed) && (0 <? cb_FailureCount circuit)
            && negb (IsZero (cb_NextProbeAt circuit)) && After (cb_NextProbeAt circuit) now
    then (QueueStatusUnavailable, false, "quota_probe_wait", cb_NextProbeAt circuit)
    else
      match a_Family account with
      | AccountFamilyWeekly =>
          longWindowQueueState "missing_weekly_window" "missing_weekly_reset" "weekly_exhausted" account now
      | AccountFamilyMonthly =>
          longWindowQueueState "missing_monthly_window" "missing_monthly_reset" "monthly_exhausted" account now
      | _ =>
          if temporarilyExhausted account now then
            (QueueStatusFiveHourExhausted, false, "temporary_exhausted", a_TemporaryResetAt account)
          else (QueueStatusUnavailable, false, "unknown_family", zeroTime)
      end.

Definition accountAvailable (account : AccountState) (now : Time) : bool * string :=
  let '(_, available, reason, _) := accountQueueState account now in (available, reason).

Definition accountExhaustion (a : AccountState) (now : Time) : bool * Time :=
  if windowExhausted (pq_LongWindow (a_Quota a)) now
  then (true, match pq_LongWindow (a_Quota a) with Some w => qw_ResetAt w | None => zeroTime end)
  else if windowExhausted (pq_FiveHour (a_Quota a)) now
  then (true, match pq_FiveHour (a_Quota a) with Some w => qw_ResetAt w | None => zeroTime end)
  else (false, zeroTime).

Definition remainingQuota (a : AccountState) : float64 :=
  match pq_LongWindow (a_Quota a) ≫= qw_UsedPercent with
  | Some used => f_sub (f_of_Z 100) used
  | None =>
      match pq_FiveHour (a_Quota a) ≫= qw_UsedPercent with
      | Some used => f_sub (f_of_Z 100) used
      | None => f_zero
      end
  end.

Definition minimumQuotaPressureWindow : Duration := 30 * Minute.

Definition quotaPressure (a : AccountState) (now : Time) : float64 :=
  match pq_LongWindow (a_Quota a) with
  | None => f_zero
  | Some window =>
      match qw_UsedPercent window with
      | None => f_zero
      | Some used =>
          if IsZero (qw_ResetAt window) then f_zero
          else
            let untilReset := Sub (qw_ResetAt window) now in
            if untilReset <=? 0 then f_zero
            else
              let untilReset := if untilReset <? minimumQuotaPressureWindow then minimumQuotaPressureWindow else untilReset in
              let remaining := f_sub (f_of_Z 100) used in
              let remaining := if f_lt remaining f_zero then f_zero
                               else if f_lt (f_of_Z 100) remaining then f_of_Z 100 else remaining in
              f_div remaining (Hours untilReset)
      end
  end.

Definition accountViewFromState (a : AccountState) (cfg : Config) (now : Time) (trials : option TrialRegistry)
  : AccountView :=
  let cache :=
    if IsZero (a_LastSuccessAt a) then CacheUnknown
    else if a_Stale a then CacheStale
    else if QuotaRefreshInterval cfg <? Sub now (a_LastSuccessAt a) then CacheAging
    else CacheFresh in
  let '(exhausted, reset) := accountExhaustion a now in
  let trial := match trials with Some reg => trial_State reg (a_Instance a) now | None => TrialNone end in
  let circuitClass :=
    match cb_EffectiveState (effectiveCircuitState (a_Circuit a) now) with
    | CircuitStateOpen => CircuitOpen
    | CircuitStateHalfOpen => CircuitHalfOpen
    | _ => CircuitClosed
    end in {|
    v_ID := a_AuthID a; v_AuthIndex := a_AuthIndex a; v_Instance := a_Instance a;
    v_PluginPriority := an_SchedulerPriority (a_Annotation a); v_CPAPriority := a_Priority a;
    v_Family := a_Family a; v_Cache := cache; v_LastKnownAvailable := String.eqb (a_LastError a) "";
    v_Exhausted := exhausted; v_ResetAt := reset; v_AuthBlocked := rf_AuthFailure (a_Refresh a);
    v_Circuit := circuitClass;
    v_TemporaryUnavailable := a_TemporaryExhausted a && After (a_TemporaryResetAt a) now;
    v_Trial := trial; v_Expiry := accountSortTime a; v_RemainingQuota := remainingQuota a;
    v_QuotaPressure := quotaPressure a now |}.

Definition accountExclusionReason (a : AccountView) (now : Time) : string :=
  if v_AuthBlocked a then "auth_failure"
  else if bool_decide (v_Circuit a = CircuitOpen) then "circuit_open"
  else if bool_decide (v_Circuit a = CircuitHalfOpen) then "circuit_half_open"
  else if v_TemporaryUnavailable a then "temporary_exhausted"
  else if negb (bool_decide (v_Trial a = TrialNone)) then "trial_pending"
  else if v_Exhausted a && (IsZero (v_ResetAt a) || After (v_ResetAt a) now) then "window_exhausted"
  else if bool_decide (v_Cache a = CacheStale) && negb (v_LastKnownAvailable a) then "stale_quota"
  else "available".

(** ** Properties *)

(** A window that lets requests through: it has a reset time and is not
    exhausted up to a reset still to come. *)
Definition window_open (w : QuotaWindow) (now : Time) : Prop :=
  qw_ResetAt w <> zeroTime /\ (qw_Exhausted w = true -> qw_ResetAt w <= now).

(** What the queue requires of an available account. *)
Record queue_available (a : AccountState) (now : Time) (long : QuotaWindow) : Prop := {
  qa_auth : rf_AuthFailure (a_Refresh a) = false;
  qa_local : rf_LastFailureKind (a_Refresh a) <> RefreshFailureLocal;
  qa_stale : a_Stale a = false;
  qa_open : cb_EffectiveState (effectiveCircuitState (a_Circuit a) now) <> CircuitStateOpen;
  qa_wait : cb_EffectiveState (effectiveCircuitState (a_Circuit a) now) = CircuitStateClosed ->
            0 < cb_FailureCount (effectiveCircuitState (a_Circuit a) now) ->
            cb_NextProbeAt (effectiveCircuitState (a_Circuit a) now) = zeroTime
            \/ cb_NextProbeAt (effectiveCircuitState (a_Circuit a) now) <= now;
  qa_family : a_Family a = AccountFamilyWeekly \/ a_Family a = AccountFamilyMonthly;
  qa_long : pq_LongWindow (a_Quota a) = Some long /\ window_open long now;
  qa_five : forall five, pq_FiveHour (a_Quota a) = Some five -> window_open five now;
  qa_temporary : a_TemporaryExhausted a = true -> a_TemporaryResetAt a <> zeroTime /\ a_TemporaryResetAt a <= now;
}.

Lemma windowExhausted_open w now :
  window_open w now <-> IsZero (qw_ResetAt w) = false /\ windowExhausted (Some w) now = false.
Proof.
  unfold window_open, windowExhausted. destruct (qw_Exhausted w); simpl; time_unfold; split; intros; lia.
Qed.

Lemma temporarilyExhausted_spec a now :
  temporarilyExhausted a now = false
  <-> (a_TemporaryExhausted a = true -> a_TemporaryResetAt a <> zeroTime /\ a_TemporaryResetAt a <= now).
Proof. unfold temporarilyExhausted. destruct (a_TemporaryExhausted a); simpl; time_unfold; split; intros; try lia; done. Qed.

Lemma longWindowQueueState_available m r e a now t reason status :
  longWindowQueueState m r e a now = (status, true, reason, t) <->
  status = QueueStatusAvailable /\ reason = "" /\
  exists long, t = qw_ResetAt long /\ pq_LongWindow (a_Quota a) = Some long /\ window_open long now
    /\ temporarilyExhausted a now = false
    /\ (forall five, pq_FiveHour (a_Quota a) = Some five -> window_open five now).
Proof.
  unfold longWindowQueueState. setoid_rewrite windowExhausted_open. split.
  - repeat branch; try done; intros [= <- <- <-]; split_and!; try done; eexists; split_and!; try done;
      intros ? [= <-]; done.
  - intros (-> & -> & long & -> & -> & [-> ->] & -> & Hf). destruct (pq_FiveHour (a_Quota a)) as [five|]; [|done].
    by destruct (Hf five eq_refl) as [-> ->].
Qed.

Lemma accountQueueState_available (a : AccountState) (now : Time) (status : QueueStatus) (reason : string) (t : Time) :
  accountQueueState a now = (status, true, reason, t) <->
  status = QueueStatusAvailable /\ reason = "" /\ exists long, t = qw_ResetAt long /\ queue_available a now long.
Proof.
  unfold accountQueueState. cbv zeta. set (c := effectiveCircuitState (a_Circuit a) now). split.
  - destruct (rf_AuthFailure _) eqn:E1; [done|]. case_bool_decide as E2; [done|]. destruct (a_Stale a) eqn:E3; [done|].
    case_bool_decide as E4; [done|]. destruct (_ && _ && _ && _) eqn:E5; [done|]. intros H.
    assert (a_Family a = AccountFamilyWeekly \/ a_Family a = AccountFamilyMonthly) as Hf
      by (destruct (a_Family a); auto; branch_in H; done).
    assert (exists m r e, longWindowQueueState m r e a now = (status, true, reason, t)) as (m & r & e & H')
      by (destruct Hf as [E|E]; rewrite E in H; eauto).
    apply longWindowQueueState_available in H' as (-> & -> & long & -> & Hl & Ho & Ht & Hfive).
    split_and!; try done. exists long. split; [done|]. rewrite temporarilyExhausted_spec in Ht.
    split; try done. fold c. intros Hc Hn. rewrite bool_decide_true in E5 by done. simpl in E5. time_lia.
  - intros (-> & -> & long & -> & [H1 H2 H3 H4 H5 H6 [H7 H8] H9 H10]). fold c in H4, H5.
    rewrite H1, (bool_decide_false _ H2), H3, (bool_decide_false _ H4).
    assert (bool_decide (cb_EffectiveState c = CircuitStateClosed) && (0 <? cb_FailureCount c)
            && negb (IsZero (cb_NextProbeAt c)) && After (cb_NextProbeAt c) now = false) as ->.
    { case_bool_decide as E; [|done]. simpl. specialize (H5 E). time_lia. }
    apply temporarilyExhausted_spec in H10.
    destruct H6 as [-> | ->]; apply longWindowQueueState_available; eauto 10.
Qed.


(** The queue state of an account: it is reported available exactly when
    authentication works, no local failure is pending, the quota is not stale,
    the circuit is not open nor waiting for its next probe, the family is known,
    both windows are open and no temporary exhaustion runs; the reported time is
    then the reset of the long window. *)
Theorem queue_available_iff (a : AccountState) (now : Time) (status : QueueStatus) (reason : string) (t : Time) :
  accountQueueState a now = (status, true, reason, t) <->
  status = QueueStatusAvailable /\ reason = "" /\ exists long, t = qw_ResetAt long /\ queue_available a now long.
Proof. apply accountQueueState_available. Qed.

Lemma available_class (a : AccountState) (cfg : Config) (now : Time) (trials : option TrialRegistry) :
  (accountAvailable a now).1 = true ->
  v_Trial (accountViewFromState a cfg now trials) = TrialNone ->
  ClassifyAccount (accountViewFromState a cfg now trials) now
  = if IsZero (a_LastSuccessAt a) then Opportunistic else Preferred.
Proof.
  unfold accountAvailable. destruct (accountQueueState a now) as [[[status avail] reason] t] eqn:E. simpl. intros ->.
  apply accountQueueState_available in E as (_ & _ & long & _ & [H1 H2 H3 H4 _ H6 [H7 H8] H9 H10]).
  apply windowExhausted_open in H8 as [_ Hl].
  assert (windowExhausted (pq_FiveHour (a_Quota a)) now = false) as Hf.
  { destruct (pq_FiveHour (a_Quota a)) as [five|]; [|done]. by apply (windowExhausted_open five), H9. }
  unfold accountViewFromState, accountExhaustion. rewrite H7, Hl, Hf. cbn [v_Trial]. intros Ht.
  unfold ClassifyAccount. cbn [v_AuthBlocked v_Circuit v_TemporaryUnavailable v_Trial v_Exhausted v_Cache v_LastKnownAvailable].
  rewrite H1, H3, Ht.
  assert (a_TemporaryExhausted a && After (a_TemporaryResetAt a) now = false) as ->.
  { destruct (a_TemporaryExhausted a); [|done]. destruct (H10 eq_refl). simpl. time_lia. }
  destruct (cb_EffectiveState _); try done; simpl; destruct (IsZero (a_LastSuccessAt a)); simpl; try done;
    by destruct (_ <? _).
Qed.


(** The queue never promises more than the selection grants: an account the
    queue reports available is selectable when no trial of it runs, and it is
    Preferred as soon as it has been refreshed successfully once. *)
Theorem queue_available_selectable (a : AccountState) (cfg : Config) (now : Time) (trials : option TrialRegistry) :
  (accountAvailable a now).1 = true ->
  v_Trial (accountViewFromState a cfg now trials) = TrialNone ->
  ClassifyAccount (accountViewFromState a cfg now trials) now
  = if IsZero (a_LastSuccessAt a) then Opportunistic else Preferred.
Proof. apply available_class. Qed.

Definition example_account : AccountState :=
  emptyAccount <| a_AuthID := "a" |> <| a_Instance := 1 |> <| a_Family := AccountFamilyWeekly |>
    <| a_LastSuccessAt := 10 |> <| a_Circuit := closedCircuit |>
    <| a_Quota := emptyQuota <| pq_LongWindow := Some (mkQuotaWindow WindowWeekly (Some (f_of_Z 40)) None (5 * Hour) false) |> |>.

Lemma queue_available_selectable_witness :
  accountAvailable example_account 20 = (true, "")
  /\ ClassifyAccount (accountViewFromState example_account DefaultConfig 20 None) 20 = Preferred.
Proof.
  split; [vm_compute; reflexivity|].
  refine (queue_available_selectable example_account DefaultConfig 20 None _ _); vm_compute; reflexivity.
Defined.

(** The fallback summary never calls an excluded account available: whatever
    excludes a view from the selection has a reason of its own. *)
Theorem exclusion_reason_explains (v : AccountView) (now : Time) :
  ClassifyAccount v now = Excluded -> accountExclusionReason v now <> "available".
Proof.
  unfold ClassifyAccount, accountExclusionReason.
  destruct (v_AuthBlocked v); [done|]. destruct (v_Circuit v); cbn; try done;
  (destruct (v_TemporaryUnavailable v); [done|]; destruct (v_Trial v); cbn; try done;
   destruct (v_Exhausted v); cbn;
     [destruct (After (v_ResetAt v) now); [by rewrite orb_true_r|]; destruct (IsZero (v_ResetAt v)); cbn|];
     by destruct (v_Cache v), (v_LastKnownAvailable v)).
Qed.

Lemma exclusion_reason_explains_witness :
  accountExclusionReason ((example_view "a" 1 0 CacheStale) <| v_LastKnownAvailable := false |>) 5 <> "available".
Proof. apply exclusion_reason_explains. vm_compute. reflexivity. Defined.
