(* ===== verification/Scheduler.v ===== *)
(** * Request admission and the ordered account list (scheduler.go) *)

From S2P Require Import Prelude Float64 Config Models Circuit Trial Selection Capability Availability.
#[local] Open Scope string_scope.
#[local] Open Scope list_scope.
#[local] Open Scope Z_scope.
#[local] Open Scope go_scope.

Record ScheduledAccount := mkScheduled {
  sa_AuthID : string;
  sa_CPAPriority : Z;
  sa_SchedulerPriority : Z;
  sa_Family : AccountFamily;
  sa_QueueStatus : QueueStatus;
  sa_Available : bool;
  sa_UnavailableReason : string;
  sa_SortTime : Time;
  sa_Annotation : AccountAnnotation;
  sa_selectionClass : AvailabilityClass;
  sa_selectionView : AccountView;
}.

Record PickDecision := mkDecision {
  pd_AuthID : string;
  pd_Handled : bool;
  pd_DelegateBuiltin : string;
  pd_Reason : string;
  pd_Ordered : list ScheduledAccount;
  pd_UnavailableSummary : string;
}.
#[export] Instance PickDecision_eta : Eta PickDecision := fun r => mkDecision
  (pd_AuthID r) (pd_Handled r) (pd_DelegateBuiltin r) (pd_Reason r) (pd_Ordered r) (pd_UnavailableSummary r).

(** [PickDecision{Reason: reason}] *)
Definition declined (reason : string) : PickDecision := mkDecision "" false "" reason [] "".

(** The zero [AccountView] with an identifier. *)
Definition unknownView (id : string) : AccountView :=
  mkView id "" 0 0 0 AccountFamilyNone CacheFresh false false zeroTime false CircuitClosed false TrialNone zeroTime
    f_zero f_zero.

Definition requestIncludesCodex (req : SchedulerPickRequest) : bool :=
  String.eqb (req_Provider req) "codex" || existsb (fun p => String.eqb p "codex") (req_Providers req).

Definition isCodexCandidate (c : SchedulerAuthCandidate) : Prop := c_ID c <> "" /\ c_Provider c = "codex".
#[export] Instance isCodexCandidate_dec c : Decision (isCodexCandidate c).
Proof. unfold isCodexCandidate. apply _. Defined.

Definition requestEntries (req : SchedulerPickRequest) : list RosterEntry :=
  (fun c => mkEntry (c_ID c) "" (c_Provider c) (Some (c_Priority c))) <$> filter isCodexCandidate (req_Candidates req).

(** The slice operation [tiers[:1]] panics on an empty slice; it is reached
    only when there is a tier. *)
Definition CodexAdmissionFromRequest (req : SchedulerPickRequest) (acrossPriorities : bool) : CPAAdmissionState * bool :=
  let '(tiers, ok) := CodexTierGroups (requestEntries req) in
  if negb ok then (emptyAdmission, false)
  else
    let tiers := if negb acrossPriorities then take 1 tiers else tiers in
    let union := ⋃ (tier_AuthIDs <$> tiers) in
    (mkAdmission true (match tiers with t :: _ => tier_Priority t | [] => 0 end) union tiers, true).

Definition HighestPriorityCodexAdmission (req : SchedulerPickRequest) : CPAAdmissionState * bool :=
  CodexAdmissionFromRequest req false.

Definition codexCandidateCount (req : SchedulerPickRequest) : Z :=
  Z.of_nat (size (list_to_set (c_ID <$> filter isCodexCandidate (req_Candidates req)) : gset string)).

(** [priorityByAuthID]: the tiers are visited in order, the higher priority is
    kept; within a tier all identifiers get the same value, so that the order
    of the map iteration does not matter. *)
Definition add_tier_priority (m : gmap string Z) (tier : TierAdmission) : gmap string Z :=
  set_fold (fun id m => match m !! id with
                        | Some existing => if existing <? tier_Priority tier then <[id := tier_Priority tier]> m else m
                        | None => <[id := tier_Priority tier]> m
                        end) m (tier_AuthIDs tier).
Definition highestTierPriorities (tiers : list TierAdmission) : gmap string Z := foldl add_tier_priority ∅ tiers.

(** [accountsByAuthID]: a later account replaces an earlier one. *)
Definition accountsByID (accounts : list AccountState) : gmap string AccountState :=
  foldl (fun m a => if String.eqb (a_AuthID a) "" then m else <[a_AuthID a := a]> m) ∅ accounts.

Definition scheduledFor (snapshot : StateSnapshot) (now : Time) (trials : option TrialRegistry)
    (candidatePriority : Z) (id : string) (known : option AccountState) : ScheduledAccount :=
  match known with
  | None => {|
      sa_AuthID := id; sa_CPAPriority := candidatePriority; sa_SchedulerPriority := 0; sa_Family := AccountFamilyUnknown;
      sa_QueueStatus := QueueStatusUnavailable; sa_Available := false; sa_UnavailableReason := "unknown_account";
      sa_SortTime := zeroTime; sa_Annotation := emptyAnnotation; sa_selectionClass := Excluded;
      sa_selectionView := unknownView id |}
  | Some account =>
      let '(queueStatus, available, reason, sortTime) := accountQueueState account now in
      let view := (accountViewFromState account (ss_Config snapshot) now trials) <| v_CPAPriority := candidatePriority |> in
      let selectionClass := ClassifyAccount view now in
      let '(queueStatus, available, reason, sortTime) :=
        if bool_decide (selectionClass = Excluded) && available && negb (bool_decide (v_Trial view = TrialNone))
        then (QueueStatusUnavailable, false, "quota_probe_wait", zeroTime)
        else (queueStatus, available, reason, sortTime) in {|
      sa_AuthID := id; sa_CPAPriority := candidatePriority;
      sa_SchedulerPriority := an_SchedulerPriority (a_Annotation account); sa_Family := a_Family account;
      sa_QueueStatus := queueStatus; sa_Available := available; sa_UnavailableReason := reason;
      sa_SortTime := sortTime; sa_Annotation := a_Annotation account; sa_selectionClass := selectionClass;
      sa_selectionView := view |}
  end.

(** The loop over the candidates, with the set of identifiers already seen. *)
Fixpoint scheduled_scan (snapshot : StateSnapshot) (now : Time) (trials : option TrialRegistry)
    (admission : CPAAdmissionState) (seen : gset string) (candidates : list SchedulerAuthCandidate)
  : list ScheduledAccount :=
  match candidates with
  | [] => []
  | c :: candidates =>
      if negb (bool_decide (isCodexCandidate c)) || negb (bool_decide (c_ID c ∈ adm_AuthIDs admission))
         || bool_decide (c_ID c ∈ seen)
      then scheduled_scan snapshot now trials admission seen candidates
      else
        let candidatePriority := default (c_Priority c) (highestTierPriorities (adm_Tiers admission) !! c_ID c) in
        scheduledFor snapshot now trials candidatePriority (c_ID c) (accountsByID (ss_Accounts snapshot) !! c_ID c)
        :: scheduled_scan snapshot now trials admission ({[c_ID c]} ∪ seen) candidates
  end.

Definition class_rank (c : AvailabilityClass) : Z :=
  match c with Preferred => 0 | Opportunistic => 1 | Excluded => 2 end.

Definition scheduledLess (mode : string) (left right : ScheduledAccount) : bool :=
  if negb (bool_decide (sa_selectionClass left = sa_selectionClass right))
  then class_rank (sa_selectionClass left) <? class_rank (sa_selectionClass right)
  else if negb (bool_decide (sa_selectionClass left = Excluded)) then
    if negb (sa_CPAPriority left =? sa_CPAPriority right) then sa_CPAPriority right <? sa_CPAPriority left
    else accountViewLess mode (sa_selectionView left) (sa_selectionView right)
  else if negb (Equal (sa_SortTime left) (sa_SortTime right)) then
    if IsZero (sa_SortTime left) then false else if IsZero (sa_SortTime right) then true
    else Before (sa_SortTime left) (sa_SortTime right)
  else str_lt (sa_AuthID left) (sa_AuthID right).

Definition buildOrderedAccounts (req : SchedulerPickRequest) (snapshot : StateSnapshot) (now : Time)
    (trials : option TrialRegistry) : list ScheduledAccount :=
  let '(admission, ok) := CodexAdmissionFromRequest req (ScheduleAcrossPriorities (ss_Config snapshot)) in
  if negb ok then []
  else sort_slice (scheduledLess (MonthlyMode (ss_Config snapshot)))
         (scheduled_scan snapshot now trials admission ∅ (req_Candidates req)).

Definition BuildOrderedAccounts (req : SchedulerPickRequest) (snapshot : StateSnapshot) (now : Time) :=
  buildOrderedAccounts req snapshot now None.

Section pick.
(** The host's name of its fill-first scheduler. *)
Context (SchedulerBuiltinFillFirst : string).

Definition PickCodexAccount (req : SchedulerPickRequest) (snapshot : StateSnapshot) (now : Time) : PickDecision :=
  if negb (HandleEnabled (ss_Config snapshot)) then declined "handle_disabled"
  else if negb (requestIncludesCodex req) then declined "provider_not_codex"
  else
    let ordered := BuildOrderedAccounts req snapshot now in
    if bool_decide (length ordered = 0%nat) then (declined "no_codex_candidates") <| pd_Ordered := ordered |>
    else
      match List.find sa_Available ordered with
      | Some account => mkDecision (sa_AuthID account) true "" "selected" ordered ""
      | None =>
          if String.eqb (Fallback (ss_Config snapshot)) FallbackFillFirst
          then mkDecision "" true SchedulerBuiltinFillFirst "fallback_fill_first" ordered ""
          else (declined "no_selectable_account") <| pd_Ordered := ordered |>
      end.
End pick.

(** ** Admission *)

Lemma elem_of_requestEntries req p id :
  tier_member (requestEntries req) p id
  <-> exists c, c ∈ req_Candidates req /\ isCodexCandidate c /\ c_Priority c = p /\ c_ID c = id.
Proof.
  unfold tier_member, requestEntries. split.
  - intros (e & (c & -> & [Hc Hin]%list_elem_of_filter)%list_elem_of_fmap & Hp & Hid). simpl in *.
    exists c. unfold codexPriority in Hp. simpl in Hp. destruct (_ || _); [done|]. by injection Hp as <-.
  - intros (c & Hin & Hc & <- & <-). eexists. split_and!.
    + apply list_elem_of_fmap. exists c. split; [done|]. by apply list_elem_of_filter.
    + unfold codexPriority. simpl. destruct Hc as [Hid Hpr]. rewrite Hpr.
      destruct (String.eqb_spec (c_ID c) ""); done.
    + done.
Qed.

(** The admission of a request: [admitted req across p id] means that the
    candidate [id] is offered at priority [p] and that [p] counts. *)
Definition offered (req : SchedulerPickRequest) (p : Z) (id : string) : Prop :=
  exists c, c ∈ req_Candidates req /\ isCodexCandidate c /\ c_Priority c = p /\ c_ID c = id.

Record admission_of (req : SchedulerPickRequest) (across : bool) (adm : CPAAdmissionState) : Prop := {
  ao_observed : adm_Observed adm = true;
  ao_highest : exists id, offered req (adm_Priority adm) id;
  ao_maximal : forall p id, offered req p id -> p <= adm_Priority adm;
  ao_tiers : forall p id, (exists t, t ∈ adm_Tiers adm /\ tier_Priority t = p /\ id ∈ tier_AuthIDs t)
               <-> offered req p id /\ (across = true \/ p = adm_Priority adm);
  ao_ids : forall id, id ∈ adm_AuthIDs adm <-> exists p, offered req p id /\ (across = true \/ p = adm_Priority adm);
}.

Lemma elem_of_tier_union id (tiers : list TierAdmission) :
  id ∈ ⋃ (tier_AuthIDs <$> tiers) <-> exists t, t ∈ tiers /\ id ∈ tier_AuthIDs t.
Proof.
  rewrite elem_of_union_list. split.
  - intros (X & (t & -> & Ht)%list_elem_of_fmap & Hid). eauto.
  - intros (t & Ht & Hid). exists (tier_AuthIDs t). split; [|done]. apply list_elem_of_fmap. eauto.
Qed.

Lemma admission_from_tiers req across tiers :
  tiers_of (requestEntries req) tiers -> tiers <> [] ->
  admission_of req across
    (let ts := if negb across then take 1 tiers else tiers in
     mkAdmission true (match ts with t :: _ => tier_Priority t | [] => 0 end) (⋃ (tier_AuthIDs <$> ts)) ts).
Proof.
  intros [Hs Hinh Hm] Hne. destruct tiers as [|t0 ts]; [done|]. clear Hne.
  apply StronglySorted_inv in Hs as [_ Hlow]. rewrite Forall_forall in Hlow.
  apply Forall_cons in Hinh as [Hne0 _]. apply set_choose_L in Hne0 as [id0 Hid0].
  setoid_rewrite elem_of_requestEntries in Hm. change (forall p id,
    (exists t, t ∈ t0 :: ts /\ tier_Priority t = p /\ id ∈ tier_AuthIDs t) <-> offered req p id) in Hm.
  set (sel := if negb across then take 1 (t0 :: ts) else t0 :: ts).
  assert (forall t, t ∈ sel <-> t ∈ t0 :: ts /\ (across = true \/ tier_Priority t = tier_Priority t0)) as Hsel.
  { intros t. unfold sel. destruct across; simpl.
    - naive_solver.
    - rewrite take_0, list_elem_of_singleton. split; [intros ->; split; [constructor|by right]|].
      intros [[->|Hin]%elem_of_cons [?|E]]; try done. apply Hlow in Hin. lia. }
  assert (match sel with t :: _ => tier_Priority t | [] => 0 end = tier_Priority t0) as Ep
    by (unfold sel; by destruct across).
  assert (forall p id, (exists t, t ∈ sel /\ tier_Priority t = p /\ id ∈ tier_AuthIDs t)
            <-> offered req p id /\ (across = true \/ p = tier_Priority t0)) as Ht.
  { intros p id. rewrite <- Hm. setoid_rewrite Hsel. naive_solver. }
  split; cbn [adm_Observed adm_Priority adm_Tiers adm_AuthIDs]; rewrite ?Ep; auto.
  - exists id0. apply Hm. exists t0. split; [constructor|done].
  - intros p id (t & [->|Hin]%elem_of_cons & <- & _)%Hm; [done|]. apply Hlow in Hin. lia.
  - intros id. rewrite elem_of_tier_union. setoid_rewrite <- Ht. naive_solver.
Qed.

Lemma CodexAdmissionFromRequest_spec req across :
  match CodexAdmissionFromRequest req across with
  | (adm, true) => admission_of req across adm
  | (adm, false) => adm = emptyAdmission /\ forall p id, ~ offered req p id
  end.
Proof.
  unfold CodexAdmissionFromRequest. pose proof (CodexTierGroups_tiers (requestEntries req)) as Ht.
  pose proof (CodexTierGroups_ok (requestEntries req)) as Hok.
  destruct (CodexTierGroups (requestEntries req)) as [tiers ok]. simpl in *. destruct ok; simpl.
  - apply admission_from_tiers; [done|]. intros ->. by specialize (proj2 Hok eq_refl).
  - split; [done|]. rewrite (proj1 Hok eq_refl) in Ht. intros p id Ho.
    destruct (proj2 (to_member _ _ Ht p id)) as (t & ?%not_elem_of_nil & _); [|done]. by apply elem_of_requestEntries.
Qed.

(** The admission of a pick request: it succeeds exactly when the request
    offers a codex candidate; it then admits the candidates of the highest
    priority only, or of every priority when scheduling across priorities, and
    its tiers list each of them at the priorities it was offered at. *)
Theorem admission_from_request (req : SchedulerPickRequest) (across : bool) :
  match CodexAdmissionFromRequest req across with
  | (adm, true) => admission_of req across adm
  | (adm, false) => adm = emptyAdmission /\ forall p id, ~ offered req p id
  end.
Proof. apply CodexAdmissionFromRequest_spec. Qed.

(** ** The ordered list *)

Lemma add_tier_priority_lookup m t id :
  add_tier_priority m t !! id =
    if decide (id ∈ tier_AuthIDs t)
    then Some (match m !! id with Some e => Z.max e (tier_Priority t) | None => tier_Priority t end)
    else m !! id.
Proof.
  unfold add_tier_priority. revert id.
  set (P := fun (m' : gmap string Z) (X : gset string) => forall id, m' !! id =
    if decide (id ∈ X) then Some (match m !! id with Some e => Z.max e (tier_Priority t) | None => tier_Priority t end)
    else m !! id).
  match goal with |- forall id, set_fold ?f ?b ?X !! id = _ => change (P (set_fold f b X) X) end.
  apply set_fold_ind_L; unfold P; clear P.
  - intros id. rewrite decide_False; [done|]. set_solver.
  - intros x X m' Hx IH id. pose proof (IH x) as Hx'. rewrite decide_False in Hx' by done. rewrite Hx'.
    destruct (decide (id = x)) as [->|Hne].
    + rewrite decide_True by set_solver. destruct (m !! x) as [e|] eqn:E.
      * destruct (Z.ltb_spec e (tier_Priority t)).
        { rewrite lookup_insert_eq. f_equal. lia. }
        rewrite Hx'. f_equal. lia.
      * by rewrite lookup_insert_eq.
    + assert (forall v, <[x:=v]> m' !! id = m' !! id) as Hins by (intros; by apply lookup_insert_ne).
      replace (match m !! x with
               | Some existing => if existing <? tier_Priority t then <[x:=tier_Priority t]> m' else m'
               | None => <[x:=tier_Priority t]> m' end !! id) with (m' !! id)
        by (destruct (m !! x); [destruct (_ <? _)|]; by rewrite ?Hins).
      rewrite IH. destruct (decide (id ∈ X)).
      * by rewrite decide_True by set_solver.
      * by rewrite decide_False by set_solver.
Qed.

Lemma highestTierPriorities_lookup tiers id :
  match highestTierPriorities tiers !! id with
  | Some p => (exists t, t ∈ tiers /\ tier_Priority t = p /\ id ∈ tier_AuthIDs t)
              /\ forall t, t ∈ tiers -> id ∈ tier_AuthIDs t -> tier_Priority t <= p
  | None => forall t, t ∈ tiers -> id ∉ tier_AuthIDs t
  end.
Proof.
  unfold highestTierPriorities. induction tiers as [|t tiers IH] using rev_ind.
  - simpl. rewrite lookup_empty. intros t ?%not_elem_of_nil. done.
  - rewrite foldl_snoc, add_tier_priority_lookup.
    assert (forall t', t' ∈ tiers ++ [t] <-> t' ∈ tiers \/ t' = t) as Hel
      by (intros t'; by rewrite elem_of_app, list_elem_of_singleton).
    case_decide as Hin.
    + destruct (foldl _ _ _ !! id) as [e|]; setoid_rewrite Hel.
      * destruct IH as [(t' & Ht' & He & Hid) Hmax]. split.
        -- destruct (Z.max_spec e (tier_Priority t)) as [[_ ->]|[_ ->]]; eauto.
        -- intros t'' [H| ->] Hid'; [specialize (Hmax t'' H Hid')|]; lia.
      * split; [by eauto|]. intros t' [H| ->] Hid'; [by destruct (IH t' H)|done].
    + destruct (foldl _ _ _ !! id) as [e|]; setoid_rewrite Hel.
      * destruct IH as [(t' & Ht' & He & Hid) Hmax]. split; [by eauto|]. intros t'' [H| ->] Hid'; [auto|done].
      * intros t' [H| ->]; auto.
Qed.

(** The entry of the ordered list for the candidate [id]. *)
Definition ordered_entry (req : SchedulerPickRequest) (snapshot : StateSnapshot) (now : Time)
    (trials : option TrialRegistry) (x : ScheduledAccount) : Prop :=
  exists p, offered req p (sa_AuthID x) /\ (forall q, offered req q (sa_AuthID x) -> q <= p)
    /\ x = scheduledFor snapshot now trials p (sa_AuthID x) (accountsByID (ss_Accounts snapshot) !! sa_AuthID x).

Lemma scheduledFor_id snapshot now trials p id known :
  sa_AuthID (scheduledFor snapshot now trials p id known) = id.
Proof.
  unfold scheduledFor. destruct known as [a|]; [|done]. destruct (accountQueueState a now) as [[[? ?] ?] ?].
  cbv zeta. by destruct (_ && _ && _).
Qed.

Lemma scheduled_scan_ids snapshot now trials adm seen cs :
  NoDup (sa_AuthID <$> scheduled_scan snapshot now trials adm seen cs)
  /\ forall id, id ∈ sa_AuthID <$> scheduled_scan snapshot now trials adm seen cs
       <-> id ∉ seen /\ id ∈ adm_AuthIDs adm /\ exists c, c ∈ cs /\ isCodexCandidate c /\ c_ID c = id.
Proof.
  revert seen. induction cs as [|c cs IH]; intros seen; simpl.
  { split; [constructor|]. intros id. split; [by intros ?%not_elem_of_nil|]. intros (_ & _ & c & ?%not_elem_of_nil & _). done. }
  setoid_rewrite elem_of_cons. destruct (_ || _ || _) eqn:E.
  - destruct (IH seen) as [Hnd Hid]. split; [done|]. intros id. rewrite Hid. split.
    { intros (? & ? & c' & ? & ?). split_and!; eauto. }
    intros (? & ? & c' & [-> |?] & ? & <-); split_and!; eauto. exfalso. revert E.
    rewrite !orb_true_iff, !negb_true_iff, !bool_decide_eq_false, bool_decide_eq_true. naive_solver.
  - apply orb_false_iff in E as [[E1 E2]%orb_false_iff E3].
    apply negb_false_iff, bool_decide_eq_true in E1, E2. apply bool_decide_eq_false in E3.
    destruct (IH ({[c_ID c]} ∪ seen)) as [Hnd Hid]. rewrite fmap_cons, scheduledFor_id. split.
    + apply NoDup_cons. split; [|done]. rewrite Hid. set_solver.
    + intros id. rewrite elem_of_cons, Hid, not_elem_of_union, not_elem_of_singleton. split.
      * intros [->|((? & ?) & ? & c' & ? & ?)]; split_and!; eauto.
      * intros (? & ? & c' & [-> |?] & ? & <-); [by left|]. destruct (decide (c_ID c' = c_ID c)); [by left|right].
        split_and!; eauto.
Qed.

Lemma scheduled_scan_entry snapshot now trials adm seen cs x :
  x ∈ scheduled_scan snapshot now trials adm seen cs ->
  exists c, c ∈ cs /\ isCodexCandidate c /\ c_ID c ∈ adm_AuthIDs adm
    /\ x = scheduledFor snapshot now trials (default (c_Priority c) (highestTierPriorities (adm_Tiers adm) !! c_ID c))
             (c_ID c) (accountsByID (ss_Accounts snapshot) !! c_ID c).
Proof.
  revert seen. induction cs as [|c cs IH]; intros seen; simpl; [by intros ?%not_elem_of_nil|].
  setoid_rewrite elem_of_cons. destruct (_ || _ || _) eqn:E.
  - intros (c' & ? & ?)%IH. eauto.
  - apply orb_false_iff in E as [[E1 E2]%orb_false_iff _]. apply negb_false_iff, bool_decide_eq_true in E1, E2.
    intros [->|(c' & ? & ?)%IH]%elem_of_cons; eauto 10.
Qed.

Lemma scan_ordered_entry req snapshot now trials across adm x :
  admission_of req across adm -> x ∈ scheduled_scan snapshot now trials adm ∅ (req_Candidates req) ->
  ordered_entry req snapshot now trials x.
Proof.
  intros [_ _ Hmax Ht Hids] (c & Hc & Hcc & Hin & ->)%scheduled_scan_entry. unfold ordered_entry. rewrite scheduledFor_id.
  pose proof (highestTierPriorities_lookup (adm_Tiers adm) (c_ID c)) as Hp.
  apply Hids in Hin as (p0 & Ho & Hac).
  destruct (proj2 (Ht p0 (c_ID c)) (conj Ho Hac)) as (t0 & Ht0 & E0 & Hid0).
  destruct (highestTierPriorities (adm_Tiers adm) !! c_ID c) as [p|]; [|by destruct (Hp t0 Ht0)].
  destruct Hp as [He Hle]. exists p. split_and!; [by apply Ht| |done].
  intros q Hq. destruct Hac as [Ha | ->].
  - destruct (proj2 (Ht q (c_ID c))) as (t & H1 & <- & H2); [by auto|]. by apply Hle.
  - apply Hmax in Hq. specialize (Hle t0 Ht0 Hid0). lia.
Qed.

Lemma find_split {A} (f : A -> bool) (l : list A) x :
  List.find f l = Some x ->
  exists pre post, l = pre ++ x :: post /\ f x = true /\ Forall (fun y => f y = false) pre.
Proof.
  induction l as [|y l IH]; simpl; [done|]. destruct (f y) eqn:E.
  - intros [= ->]. by exists [], l.
  - intros (pre & post & -> & Hx & Hp)%IH. exists (y :: pre), post. split_and!; try done. by constructor.
Qed.

(** An entry of the list is available only if the selection would take it. *)
Lemma scheduledFor_available snapshot now p id known :
  sa_Available (scheduledFor snapshot now None p id known) = true ->
  sa_selectionClass (scheduledFor snapshot now None p id known) <> Excluded.
Proof.
  unfold scheduledFor. destruct known as [a|]; [|done].
  destruct (accountQueueState a now) as [[[status avail] reason] t] eqn:E. cbv zeta.
  set (view := set_field v_CPAPriority _ _).
  destruct (_ && _ && _) eqn:Eq; [done|]. cbn [sa_Available sa_selectionClass]. intros ->.
  assert (ClassifyAccount view now = ClassifyAccount (accountViewFromState a (ss_Config snapshot) now None) now) as -> by done.
  rewrite available_class.
  - by destruct (IsZero _).
  - unfold accountAvailable. by rewrite E.
  - unfold accountViewFromState. by destruct (accountExhaustion a now).
Qed.

Definition example_request : SchedulerPickRequest :=
  mkPickRequest "codex" [] [mkCandidate "a" "codex" 1; mkCandidate "b" "codex" 0; mkCandidate "a" "codex" 3].
Definition example_state (accounts : list AccountState) : StateSnapshot :=
  mkStateSnapshot (DefaultConfig <| ScheduleAcrossPriorities := true |>) accounts emptyAdmission 0 (mkAnnotations ∅ ∅) [] "" ""
    zeroTime zeroTime 0 20.

(** The ordered list of a request: it lists every admitted candidate exactly
    once, at the highest priority it was offered at (even when the request
    repeats it), and nothing else. *)
Theorem ordered_accounts_spec (req : SchedulerPickRequest) (snapshot : StateSnapshot) (now : Time)
    (trials : option TrialRegistry) :
  let ordered := buildOrderedAccounts req snapshot now trials in
  NoDup (sa_AuthID <$> ordered)
  /\ Forall (ordered_entry req snapshot now trials) ordered
  /\ forall id, id ∈ sa_AuthID <$> ordered
       <-> id ∈ adm_AuthIDs (CodexAdmissionFromRequest req (ScheduleAcrossPriorities (ss_Config snapshot))).1.
Proof.
  cbv zeta. unfold buildOrderedAccounts.
  pose proof (CodexAdmissionFromRequest_spec req (ScheduleAcrossPriorities (ss_Config snapshot))) as Ha.
  destruct (CodexAdmissionFromRequest req _) as [adm [|]]; cbn [negb fst].
  2:{ destruct Ha as [-> _]. split_and!; [constructor..|]. simpl. intros id. split; [by intros ?%not_elem_of_nil|].
      by intros ?%not_elem_of_empty. }
  destruct (scheduled_scan_ids snapshot now trials adm ∅ (req_Candidates req)) as [Hnd Hid].
  split_and!; [by rewrite sort_slice_perm| |].
  - rewrite sort_slice_perm. apply Forall_forall. intros x. by apply (scan_ordered_entry _ _ _ _ _ _ _ Ha).
  - intros id. rewrite sort_slice_perm, Hid. split; [by intros (_ & ? & _)|]. intros Hin. split_and!; [apply not_elem_of_empty|done|].
    apply (ao_ids _ _ _ Ha) in Hin as (p & (c & ? & ? & _ & ?) & _). eauto.
Qed.

(** The order of the list, key by key: the classes Preferred, Opportunistic and
    Excluded follow each other; selectable accounts of one class stand by priority,
    highest first, then by the order of the selection; excluded ones by the time
    they are expected back, the unknown times last, then by identifier. *)
Record listed_before (mode : string) (x y : ScheduledAccount) : Prop := {
  lb_class : class_rank (sa_selectionClass x) <= class_rank (sa_selectionClass y);
  lb_selectable : sa_selectionClass x = sa_selectionClass y -> sa_selectionClass x <> Excluded ->
    sa_CPAPriority y <= sa_CPAPriority x
    /\ (sa_CPAPriority x = sa_CPAPriority y -> accountViewLess mode (sa_selectionView y) (sa_selectionView x) = false);
  lb_excluded : sa_selectionClass x = Excluded -> sa_selectionClass y = Excluded ->
    (IsZero (sa_SortTime y) = false -> IsZero (sa_SortTime x) = false /\ sa_SortTime x <= sa_SortTime y)
    /\ (sa_SortTime x = sa_SortTime y -> str_lt (sa_AuthID y) (sa_AuthID x) = false);
}.

(** The entries whose place the order of the selection decides. *)
Definition placeable (mode : string) (x : ScheduledAccount) : Prop :=
  sa_selectionClass x <> Excluded -> comparable mode (sa_selectionView x).

(** Excluded entries, key by key. *)
Definition excludedLex : ScheduledAccount -> ScheduledAccount -> bool :=
  lex (fun x y => (if IsZero (sa_SortTime x) then 1 else 0) <? (if IsZero (sa_SortTime y) then 1 else 0))
   (lex (fun x y => sa_SortTime x <? sa_SortTime y) (fun x y => str_lt (sa_AuthID x) (sa_AuthID y))).
Definition selectableLex (mode : string) : ScheduledAccount -> ScheduledAccount -> bool :=
  lex (fun x y => sa_CPAPriority y <? sa_CPAPriority x) (fun x y => accountViewLess mode (sa_selectionView x) (sa_selectionView y)).

Lemma class_rank_inj a b : class_rank a = class_rank b -> a = b.
Proof. by destruct a, b. Qed.

Lemma scheduledLess_keys mode x y :
  scheduledLess mode x y = if decide (sa_selectionClass x = sa_selectionClass y)
    then if decide (sa_selectionClass x = Excluded) then excludedLex x y else selectableLex mode x y
    else class_rank (sa_selectionClass x) <? class_rank (sa_selectionClass y).
Proof.
  unfold scheduledLess, excludedLex, selectableLex, lex.
  destruct (decide (sa_selectionClass x = sa_selectionClass y)) as [E|E]; [rewrite (bool_decide_true _ E)|by rewrite (bool_decide_false _ E)].
  destruct (decide (sa_selectionClass x = Excluded)) as [E'|E']; [rewrite (bool_decide_true _ E')|rewrite (bool_decide_false _ E')]; cbn [negb].
  - unfold Equal, IsZero, Before. destruct (Z.eqb_spec (sa_SortTime x) (sa_SortTime y)) as [->|Hne]; cbn [negb].
    + by rewrite !Z.ltb_irrefl.
    + destruct (Z.eqb_spec (sa_SortTime x) 0), (Z.eqb_spec (sa_SortTime y) 0); cbn; try done; [lia|].
      repeat case_match; try done; lia.
  - destruct (Z.eqb_spec (sa_CPAPriority x) (sa_CPAPriority y)) as [->|Hne]; cbn [negb]; [by rewrite Z.ltb_irrefl|].
    repeat case_match; try done; lia.
Qed.

Lemma scheduledLess_weak_order mode : weak_order_on (scheduledLess mode) (placeable mode).
Proof.
  assert (forall P, weak_order_on excludedLex P) as We.
  { intros P. unfold excludedLex. repeat apply lex_weak_order; [apply key_weak_order|apply key_weak_order|apply str_weak_order]. }
  assert (weak_order_on (selectableLex mode) (fun x => comparable mode (sa_selectionView x))) as Ws.
  { apply lex_weak_order; [apply key_weak_order_desc|]. pose proof (accountViewLess_weak_order mode) as W. split.
    - intros a b Pa Pb. by apply (wo_asym _ _ W).
    - intros a b c Pa Pb Pc. by apply (wo_split _ _ W). }
  split.
  - intros a b Pa Pb. rewrite !scheduledLess_keys. repeat case_decide; try congruence; [apply (wo_asym _ _ (We (fun _ => True))); done| |lia].
    apply (wo_asym _ _ Ws); [by apply Pa|apply Pb; congruence].
  - intros a b c Pa Pb Pc. rewrite !scheduledLess_keys. pose proof (class_rank_inj (sa_selectionClass a) (sa_selectionClass b)) as Hab.
    pose proof (class_rank_inj (sa_selectionClass b) (sa_selectionClass c)) as Hbc.
    destruct (decide (sa_selectionClass a = sa_selectionClass c)) as [E|E], (decide (sa_selectionClass a = sa_selectionClass b)) as [E1|E1],
      (decide (sa_selectionClass b = sa_selectionClass c)) as [E2|E2]; try congruence.
    + rewrite <- E1. case_decide; [by apply (wo_split _ _ (We (fun _ => True)))|].
      apply (wo_split _ _ Ws); [by apply Pa|apply Pb; congruence|apply Pc; congruence].
    + intros _. rewrite <- E in *. destruct (Z.ltb_spec (class_rank (sa_selectionClass a)) (class_rank (sa_selectionClass b))); [by left|].
      right. apply Z.ltb_lt. assert (class_rank (sa_selectionClass a) <> class_rank (sa_selectionClass b)) by (by intros ?%Hab). lia.
    + intros ?%Z.ltb_lt. right. apply Z.ltb_lt. by rewrite <- E1.
    + intros ?%Z.ltb_lt. left. apply Z.ltb_lt. by rewrite E2.
    + intros ?%Z.ltb_lt. destruct (Z.ltb_spec (class_rank (sa_selectionClass a)) (class_rank (sa_selectionClass b))); [by left|right; lia].
Qed.

Lemma not_after_listed mode x y : scheduledLess mode y x = false -> listed_before mode x y.
Proof.
  rewrite scheduledLess_keys. intros H. split.
  - case_decide as E; [by rewrite E|]. lia.
  - intros E Hx. rewrite decide_True, decide_False in H by congruence. unfold selectableLex, lex in H.
    split; [case_match; [done|lia]|]. intros Ep. by rewrite Ep, !Z.ltb_irrefl in H.
  - intros E Hx. rewrite decide_True, decide_True in H by congruence. unfold excludedLex, lex in H. split.
    + intros Hz. rewrite Hz in H. destruct (IsZero (sa_SortTime x)); [done|]. cbn in H. repeat case_match; try done; lia.
    + intros Et. rewrite Et in H. by rewrite !Z.ltb_irrefl in H.
Qed.

(** The ordered list of a request stands in the order of its keys, when the order
    of the selection is meaningful on its selectable entries. *)
Lemma ordered_accounts_sorted req snapshot now trials :
  let mode := MonthlyMode (ss_Config snapshot) in
  let ordered := buildOrderedAccounts req snapshot now trials in
  Forall (placeable mode) ordered -> StronglySorted (listed_before mode) ordered.
Proof.
  cbv zeta. unfold buildOrderedAccounts. destruct (CodexAdmissionFromRequest _ _) as [adm [|]]; cbn [negb]; [|constructor].
  intros HP. rewrite sort_slice_perm in HP. pose proof (sort_slice_sorted _ _ (scheduledLess_weak_order _) _ HP) as Hs.
  clear HP. induction Hs as [|x l Hs IH Hx]; constructor; [done|]. eapply Forall_impl; [exact Hx|]. intros y. apply not_after_listed.
Qed.

(** [PickCodexAccount] returns the first available account of the ordered
    list, one the selection would not exclude and the request offers; when it
    returns none, no account of the list is available, and it is handled only
    by delegating to fill-first when that fallback is configured. *)
Theorem pick_codex_account_sound (builtin : string) (req : SchedulerPickRequest) (snapshot : StateSnapshot) (now : Time) :
  let d := PickCodexAccount builtin req snapshot now in
  let ordered := BuildOrderedAccounts req snapshot now in
  HandleEnabled (ss_Config snapshot) = true -> requestIncludesCodex req = true ->
  (exists pre x post, ordered = pre ++ x :: post /\ Forall (fun y => sa_Available y = false) pre
     /\ sa_Available x = true /\ sa_selectionClass x <> Excluded /\ (exists p, offered req p (sa_AuthID x))
     /\ d = mkDecision (sa_AuthID x) true "" "selected" ordered "")
  \/ (Forall (fun y => sa_Available y = false) ordered /\ pd_AuthID d = "" /\ pd_Ordered d = ordered
      /\ (pd_Handled d = true <-> ordered <> [] /\ Fallback (ss_Config snapshot) = FallbackFillFirst)).
Proof.
  cbv zeta. intros Hh Hr. unfold PickCodexAccount. rewrite Hh, Hr. cbn [negb].
  assert (Forall (ordered_entry req snapshot now None) (BuildOrderedAccounts req snapshot now)) as He.
  { unfold BuildOrderedAccounts, buildOrderedAccounts.
    pose proof (CodexAdmissionFromRequest_spec req (ScheduleAcrossPriorities (ss_Config snapshot))) as Ha.
    destruct (CodexAdmissionFromRequest req _) as [adm [|]]; simpl; [|constructor].
    rewrite sort_slice_perm. apply Forall_forall. intros x. by apply (scan_ordered_entry _ _ _ _ _ _ _ Ha). }
  set (ordered := BuildOrderedAccounts req snapshot now) in *.
  case_bool_decide as Hlen.
  { apply nil_length_inv in Hlen. rewrite Hlen. right. split_and!; try done. naive_solver. }
  destruct (List.find sa_Available ordered) as [x|] eqn:Ef.
  - left. apply find_split in Ef as (pre & post & E & Hx & Hpre). exists pre, x, post. rewrite E in He.
    apply Forall_app in He as [_ He]. apply Forall_cons in He as [(p & Ho & _ & Ex) _].
    split_and!; try done; [|by eauto]. rewrite Ex in Hx |- *. by apply scheduledFor_available.
  - right. pose proof (find_none _ _ Ef) as Hn. assert (ordered <> []) by (by intros ->).
    split_and!; [apply Forall_forall; intros y Hy; apply Hn; by apply list_elem_of_In|by branch|by branch|].
    destruct (String.eqb_spec (Fallback (ss_Config snapshot)) FallbackFillFirst); simpl; naive_solver.
Qed.

Lemma pick_codex_account_sound_witness :
  pd_AuthID (PickCodexAccount "fill-first" example_request (example_state [example_account]) 20) = "a"
  /\ exists pre x post, BuildOrderedAccounts example_request (example_state [example_account]) 20 = pre ++ x :: post
       /\ sa_AuthID x = "a".
Proof.
  split; [vm_compute; reflexivity|].
  destruct (pick_codex_account_sound "fill-first" example_request (example_state [example_account]) 20)
    as [(pre & x & post & E & _ & _ & _ & _ & Hd)|(_ & Hd & _)].
  - vm_compute. reflexivity.
  - vm_compute. reflexivity.
  - exists pre, x, post. split; [exact E|]. change (sa_AuthID x) with (pd_AuthID (mkDecision (sa_AuthID x) true "" "selected"
      (BuildOrderedAccounts example_request (example_state [example_account]) 20) "")). rewrite <- Hd. vm_compute. reflexivity.
  - exfalso. revert Hd. vm_compute. discriminate.
Defined.
