(* ===== verification/SchedulerSnapshot.v ===== *)
(** * The published snapshot and the pick path (scheduler_snapshot.go)

    A pick reads the published snapshot without a lock.  The trial registry and
    the evidence channel the snapshot points to are shared with other picks:
    they are passed in and returned, and [env] is what other goroutines do to
    the registry between the selection and the [TryBegin] of a round. *)

From stdpp Require Import pretty.
From S2P Require Import Prelude Float64 Config Models Circuit Trial Selection Capability Availability Scheduler.
#[local] Open Scope string_scope.
#[local] Open Scope list_scope.
#[local] Open Scope Z_scope.
#[local] Open Scope go_scope.

Record EvidenceIntent := mkIntent { ei_AuthID : string; ei_Instance : AuthInstanceID; ei_BeganAt : Time }.

(** A buffered channel: its capacity and the values waiting in it. *)
Record EvidenceChan := mkChan { ch_cap : nat; ch_buf : list EvidenceIntent }.

(** [select { case ch <- x: ... default: }]; a nil channel is never ready. *)
Definition trySend (ch : option EvidenceChan) (x : EvidenceIntent) : option EvidenceChan * bool :=
  match ch with
  | None => (None, false)
  | Some c => if Nat.ltb (length (ch_buf c)) (ch_cap c)
              then (Some (mkChan (ch_cap c) (ch_buf c ++ [x])), true) else (ch, false)
  end.

(** The published value: the snapshot and whether its callbacks are set. *)
Record Published := mkPublished {
  pub_snapshot : SchedulerSnapshot;
  pub_hasActivity : bool;
  pub_hasObservation : bool;
}.

(** The calls a pick makes to the callbacks. *)
Inductive pick_effect :=
  | ActivityCall (admissionVersion : Z)
  | ObservationCall (decision : PickDecision).

Record PickOutcome := mkOutcome {
  po_decision : PickDecision;
  po_result : SelectionResult;
  po_trials : option TrialRegistry;
  po_chan : option EvidenceChan;
  po_effects : list pick_effect;
}.

Definition count_reason (counts : gmap string Z) (reason : string) : gmap string Z :=
  <[reason := default 0 (counts !! reason) + 1]> counts.

Definition summaryCounts (eligible : gset string) (accounts : list AccountView) (now : Time) : gmap string Z :=
  foldl (fun counts a => count_reason counts (accountExclusionReason a now)) ∅
    (filter (fun a => v_ID a ∈ eligible) accounts).

Definition fallbackUnavailableSummary `{MapRange} (snapshot : SchedulerSnapshot) (candidates : list Candidate) (now : Time)
  : string :=
  let eligible := eligibleIDs snapshot candidates in
  if bool_decide (eligible = ∅) then "no ordered candidates"
  else
    let counts := summaryCounts eligible (sn_Accounts snapshot) now in
    let parts := (fun '(reason, count) => reason +:+ "=" +:+ pretty (count : Z)) <$> map_range counts in
    String.concat "," (sortStrings parts).

(** The retry loop of [schedulerPickPublished]: [None] when the fuel runs out. *)
Fixpoint pick_loop (fuel : nat) (env : nat -> TrialRegistry -> TrialRegistry) (snapshot : SchedulerSnapshot)
    (candidates : list Candidate) (now : Time) (skipped : gset AuthInstanceID) (trials : option TrialRegistry)
    (result : SelectionResult) : option (option TrialRegistry * SelectionResult) :=
  match fuel with
  | O => None
  | S fuel =>
      if String.eqb (sel_AuthID result) "" || negb (bool_decide (sel_Class result = Opportunistic))
      then Some (trials, result)
      else
        let '(trials, began) :=
          match trials with
          | None => (None, false)
          | Some reg => let '(reg, ok) := TryBegin (env fuel reg) (sel_Instance result) now in (Some reg, ok)
          end in
        if began then Some (trials, result)
        else
          let skipped := {[sel_Instance result]} ∪ skipped in
          let '(trials, result) := selectAccountSkipping snapshot candidates now skipped trials in
          pick_loop fuel env snapshot candidates now skipped trials result
  end.

Section published.
Context `{MapRange} (SchedulerBuiltinFillFirst : string).

Definition observeSchedulerDecision (p : Published) (decision : PickDecision) : list pick_effect :=
  if pub_hasObservation p then [ObservationCall decision] else [].

Definition pickCandidates (req : SchedulerPickRequest) : list Candidate :=
  (fun c => mkPlainCandidate (c_ID c) (c_Provider c)) <$> req_Candidates req.

Definition schedulerPickPublished (fuel : nat) (env : nat -> TrialRegistry -> TrialRegistry) (published : option Published)
    (req : SchedulerPickRequest) (now : Time) (trials : option TrialRegistry) (intents : option EvidenceChan)
  : option PickOutcome :=
  match published with
  | None => Some (mkOutcome (declined "handle_disabled") (noSelection "") trials intents [])
  | Some p =>
      let snapshot := pub_snapshot p in
      if negb (requestIncludesCodex req)
      then Some (mkOutcome (declined "provider_not_codex") (noSelection "") trials intents [])
      else if negb (sn_HandleEnabled snapshot) then
        let d := declined "handle_disabled" in
        Some (mkOutcome d (noSelection "") trials intents (observeSchedulerDecision p d))
      else
        let activity := if pub_hasActivity p then [ActivityCall (sn_AdmissionVersion snapshot)] else [] in
        let candidates := pickCandidates req in
        let '(trials, result) := selectAccountSkipping snapshot candidates now ∅ trials in
        match pick_loop fuel env snapshot candidates now ∅ trials result with
        | None => None
        | Some (trials, result) =>
            let '(trials, intents) :=
              if negb (String.eqb (sel_AuthID result) "") && bool_decide (sel_Class result = Opportunistic) then
                let '(intents, sent) := trySend intents (mkIntent (sel_AuthID result) (sel_Instance result) now) in
                (if sent then (fun reg => MarkEvidencePending reg (sel_Instance result) true) <$> trials else trials, intents)
              else (trials, intents) in
            let d :=
              if negb (String.eqb (sel_AuthID result) "") then mkDecision (sel_AuthID result) true "" "selected" [] ""
              else if String.eqb (sn_Fallback snapshot) FallbackFillFirst then
                mkDecision "" true SchedulerBuiltinFillFirst (sel_Reason result) []
                  (fallbackUnavailableSummary snapshot candidates now)
              else declined (sel_Reason result) in
            Some (mkOutcome d result trials intents (activity ++ observeSchedulerDecision p d))
        end
  end.
End published.

(** [Activity], [Observation] are set from the global pump when it runs;
    [AdmissionVersion] is filled in by the caller. *)
Definition schedulerSnapshotFromState (state : StateSnapshot) (trials : option TrialRegistry) (pump : bool) : Published :=
  mkPublished
    {| sn_HandleEnabled := HandleEnabled (ss_Config state); sn_Fallback := Fallback (ss_Config state);
       sn_MonthlyMode := MonthlyMode (ss_Config state);
       sn_Accounts := (fun a => accountViewFromState a (ss_Config state) (ss_Now state) trials) <$> ss_Accounts state;
       sn_ActiveHighestTier := adm_AuthIDs (ss_CPAAdmission state); sn_AdmissionVersion := 0 |}
    pump pump.

(** ** The loop *)

Lemma select_result_account snapshot candidates now skip trials :
  let r := (selectAccountSkipping snapshot candidates now skip trials).2 in
  sel_AuthID r <> "" ->
  exists a, a ∈ sn_Accounts snapshot /\ v_ID a = sel_AuthID r /\ v_Instance a = sel_Instance r /\ v_Instance a ∉ skip
    /\ v_ID a ∈ eligibleIDs snapshot candidates
    /\ ClassifyAccount (view_now trials now a) now = sel_Class r /\ sel_Class r <> Excluded.
Proof.
  cbv zeta. rewrite select_views. cbv zeta.
  assert (forall c a rest, sort_slice (accountViewLess (sn_MonthlyMode snapshot))
            (filter (fun v => ClassifyAccount v now = c) (pick_views snapshot candidates now skip trials)) = a :: rest ->
          exists a0, a0 ∈ sn_Accounts snapshot /\ v_ID a0 = v_ID a /\ v_Instance a0 = v_Instance a /\ v_Instance a0 ∉ skip
            /\ v_ID a0 ∈ eligibleIDs snapshot candidates /\ ClassifyAccount (view_now trials now a0) now = c) as Hc.
  { intros c a rest E.
    assert (a ∈ filter (fun v => ClassifyAccount v now = c) (pick_views snapshot candidates now skip trials)) as Ha
      by (rewrite <- (sort_slice_perm (accountViewLess (sn_MonthlyMode snapshot))), E; constructor).
    apply list_elem_of_filter in Ha as [Hcl (a0 & -> & [[Hs He] Hin]%list_elem_of_filter)%list_elem_of_fmap].
    exists a0. split_and!; try done; unfold view_now; by destruct trials. }
  destruct (sort_slice _ (filter (fun v => ClassifyAccount v now = Preferred) _)) as [|a rest] eqn:E1.
  - destruct (sort_slice _ (filter (fun v => ClassifyAccount v now = Opportunistic) _)) as [|a rest] eqn:E2; [done|].
    intros _. destruct (Hc _ _ _ E2) as (a0 & ? & ? & ? & ? & ? & ?). by exists a0.
  - intros _. destruct (Hc _ _ _ E1) as (a0 & ? & ? & ? & ? & ? & ?). by exists a0.
Qed.

(** The accounts a round can still skip. *)
Definition unskipped (snapshot : SchedulerSnapshot) (skip : gset AuthInstanceID) : nat :=
  length (filter (fun a => v_Instance a ∉ skip) (sn_Accounts snapshot)).

Lemma filter_length_lt {A} (P Q : A -> Prop) `{!forall x, Decision (P x)} `{!forall x, Decision (Q x)} (l : list A) x :
  (forall y, P y -> Q y) -> x ∈ l -> Q x -> ~ P x -> (length (filter P l) < length (filter Q l))%nat.
Proof.
  intros HPQ Hx HQ HP. induction l as [|y l IH]; [by apply not_elem_of_nil in Hx|].
  assert (length (filter P l) <= length (filter Q l))%nat as Hle.
  { clear -HPQ. induction l as [|z l IH]; [done|]. rewrite !filter_cons. repeat case_decide; simpl; try lia. naive_solver. }
  rewrite !filter_cons. apply elem_of_cons in Hx as [<-|Hx].
  - rewrite (decide_False _ _ HP), (decide_True _ _ HQ). simpl. lia.
  - specialize (IH Hx). repeat case_decide; simpl; try lia. naive_solver.
Qed.

Lemma unskipped_decreases snapshot skip a :
  a ∈ sn_Accounts snapshot -> v_Instance a ∉ skip ->
  (unskipped snapshot ({[v_Instance a]} ∪ skip) < unskipped snapshot skip)%nat.
Proof. intros Ha Hs. apply (filter_length_lt _ _ _ a); set_solver. Qed.

Lemma pick_loop_total fuel env snapshot candidates now skip trials0 trials :
  (unskipped snapshot skip < fuel)%nat ->
  is_Some (pick_loop fuel env snapshot candidates now skip trials (selectAccountSkipping snapshot candidates now skip trials0).2).
Proof.
  revert skip trials0 trials. induction fuel as [|fuel IH]; intros skip trials0 trials Hf; [lia|]. simpl.
  set (r := (selectAccountSkipping snapshot candidates now skip trials0).2).
  destruct (String.eqb_spec (sel_AuthID r) "") as [|Hne]; simpl; [by eauto|].
  case_bool_decide as Hc; simpl; [|by eauto].
  destruct (match trials with Some _ => _ | None => _ end) as [trials1 [|]]; [by eauto|].
  destruct (select_result_account snapshot candidates now skip trials0 Hne) as (a & Ha & _ & Hi & Hs & _).
  fold r in Hi. pose proof (IH ({[sel_Instance r]} ∪ skip) trials1) as IH'.
  destruct (selectAccountSkipping snapshot candidates now ({[sel_Instance r]} ∪ skip) trials1) as [trials2 r2].
  apply IH'. rewrite <- Hi. pose proof (unskipped_decreases snapshot skip a Ha Hs). lia.
Qed.

(** What the loop returns: a preferred account, or an account whose trial this
    pick began. *)
Definition loop_result (snapshot : SchedulerSnapshot) (candidates : list Candidate) (now : Time)
    (trials : option TrialRegistry) (r : SelectionResult) : Prop :=
  sel_AuthID r <> "" ->
  exists a, a ∈ sn_Accounts snapshot /\ v_ID a = sel_AuthID r /\ v_Instance a = sel_Instance r
    /\ v_ID a ∈ eligibleIDs snapshot candidates
    /\ (sel_Class r = Preferred
        \/ (sel_Class r = Opportunistic /\ exists reg v, trials = Some reg /\ reg !! sel_Instance r = Some v
              /\ tr_state v = TrialActive /\ tr_began v = now)).

Lemma TryBegin_true reg id now reg' :
  TryBegin reg id now = (reg', true) -> exists v, reg' !! id = Some v /\ tr_state v = TrialActive /\ tr_began v = now.
Proof.
  unfold TryBegin, tryBegin_cell. destruct (reg !! id) as [v|]; [destruct (_ || _)|]; intros [= <-];
    rewrite lookup_partial_alter_eq; eauto.
Qed.

Lemma pick_loop_result fuel env snapshot candidates now skip trials0 trials trials' r' :
  pick_loop fuel env snapshot candidates now skip trials (selectAccountSkipping snapshot candidates now skip trials0).2
  = Some (trials', r') ->
  loop_result snapshot candidates now trials' r'.
Proof.
  revert skip trials0 trials. induction fuel as [|fuel IH]; intros skip trials0 trials; simpl; [done|].
  set (r := (selectAccountSkipping snapshot candidates now skip trials0).2).
  destruct (String.eqb_spec (sel_AuthID r) "") as [E|Hne]; simpl.
  { intros [= <- <-] Hne. by destruct Hne. }
  destruct (select_result_account snapshot candidates now skip trials0 Hne) as (a & Ha & Hid & Hi & _ & He & _ & Hx).
  fold r in Hid, Hi, Hx. case_bool_decide as Hc; simpl.
  - destruct (match trials with Some _ => _ | None => _ end) as [trials1 [|]] eqn:Et.
    + intros [= <- <-] _. exists a. split_and!; try done. right. split; [done|].
      destruct trials as [reg|]; [|done]. destruct (TryBegin _ _ _) as [reg' ok] eqn:Eb. injection Et as <- ->.
      apply TryBegin_true in Eb as (v & ? & ?). by exists reg', v.
    + pose proof (IH ({[sel_Instance r]} ∪ skip) trials1) as IH'.
      destruct (selectAccountSkipping snapshot candidates now ({[sel_Instance r]} ∪ skip) trials1) as [trials2 r2].
      apply IH'.
  - intros [= <- <-] _. exists a. split_and!; try done. left. by destruct (sel_Class r).
Qed.

Lemma unskipped_le snapshot skip : (unskipped snapshot skip <= length (sn_Accounts snapshot))%nat.
Proof. apply length_filter. Qed.

Lemma map_range_order_free (mr1 mr2 : MapRange) {B} (f : string * Z -> B) (m : gmap string Z) :
  f <$> @map_range mr1 _ _ _ _ m ≡ₚ f <$> @map_range mr2 _ _ _ _ m.
Proof. by rewrite (@map_range_perm mr1), (@map_range_perm mr2). Qed.

(** ** Properties *)

(** C2: A pick returns: whatever other goroutines do to the trial registry while
    it runs, the loop that skips accounts whose trial cannot begin ends after at
    most one round per account of the snapshot and one more. *)
Theorem pick_published_terminates `{MapRange} (builtin : string) (env : nat -> TrialRegistry -> TrialRegistry)
    (p : Published) (req : SchedulerPickRequest) (now : Time) (trials : option TrialRegistry)
    (intents : option EvidenceChan) (fuel : nat) :
  (length (sn_Accounts (pub_snapshot p)) < fuel)%nat ->
  is_Some (schedulerPickPublished builtin fuel env (Some p) req now trials intents).
Proof.
  intros Hf. unfold schedulerPickPublished. destruct (negb (requestIncludesCodex req)); [by eauto|].
  destruct (negb (sn_HandleEnabled _)); [by eauto|]. cbv zeta.
  pose proof (pick_loop_total fuel env (pub_snapshot p) (pickCandidates req) now ∅ trials) as Hl.
  destruct (selectAccountSkipping _ _ _ _ _) as [trials1 r1]. simpl in Hl.
  destruct (Hl trials1) as [[trials2 r2] ->].
  { pose proof (unskipped_le (pub_snapshot p) ∅). lia. }
  destruct (negb _ && _); [|by eauto]. destruct (trySend _ _). by eauto.
Qed.

Definition example_published (accounts : list AccountView) : Published := mkPublished (example_snapshot accounts) true true.
Definition pick_request_for (ids : list string) : SchedulerPickRequest :=
  mkPickRequest "codex" [] ((fun id => mkCandidate id "codex" 0) <$> ids).

Lemma pick_published_terminates_witness :
  let v := example_view "a" 1 0 CacheUnknown in
  is_Some (schedulerPickPublished "fill-first" 3 (fun _ reg => reg) (Some (example_published [v; v])) (pick_request_for ["a"]) 5
             (Some ∅) (Some (mkChan 64 []))).
Proof. cbv zeta. apply (pick_published_terminates "fill-first"). vm_compute. repeat constructor. Defined.

(** C1: A pick is sound under interference: the account it returns belongs to
    the snapshot, was offered by the request and is admitted; it is Preferred,
    or it is Opportunistic and this very pick began its trial, which is then
    running in the registry.  When no account is returned, the decision is
    handled only by delegating to fill-first where that fallback is configured. *)
Theorem pick_published_sound `{MapRange} (builtin : string) (fuel : nat) (env : nat -> TrialRegistry -> TrialRegistry)
    (p : Published) (req : SchedulerPickRequest) (now : Time) (trials : option TrialRegistry)
    (intents : option EvidenceChan) (out : PickOutcome) :
  schedulerPickPublished builtin fuel env (Some p) req now trials intents = Some out ->
  (pd_AuthID (po_decision out) <> "" ->
     pd_AuthID (po_decision out) = sel_AuthID (po_result out)
     /\ pd_AuthID (po_decision out) ∈ sn_ActiveHighestTier (pub_snapshot p)
     /\ loop_result (pub_snapshot p) (pickCandidates req) now (po_trials out) (po_result out))
  /\ (pd_AuthID (po_decision out) = "" -> pd_Handled (po_decision out) = true ->
      sn_Fallback (pub_snapshot p) = FallbackFillFirst /\ pd_DelegateBuiltin (po_decision out) = builtin).
Proof.
  unfold schedulerPickPublished. destruct (negb (requestIncludesCodex req)); [by intros [= <-]|].
  destruct (negb (sn_HandleEnabled _)); [by intros [= <-]|]. cbv zeta.
  pose proof (fun trials1 t' r' => pick_loop_result fuel env (pub_snapshot p) (pickCandidates req) now ∅ trials trials1 t' r') as Hl.
  destruct (selectAccountSkipping _ _ _ _ _) as [trials1 r1]. simpl in Hl.
  destruct (pick_loop _ _ _ _ _ _ _ _) as [[trials2 r]|] eqn:El; [|done]. specialize (Hl _ _ _ El).
  destruct (String.eqb_spec (sel_AuthID r) "") as [E|Hne]; cbn [negb andb].
  - intros [= <-]. cbn [po_decision po_result]. destruct (String.eqb_spec (sn_Fallback (pub_snapshot p)) FallbackFillFirst); done.
  - destruct (Hl Hne) as (a & Ha & Hid & Hi & He & Hc).
    assert (sel_AuthID r ∈ sn_ActiveHighestTier (pub_snapshot p)) as Hact.
    { rewrite Hid in He. by apply elem_of_eligible in He as (_ & ? & _). }
    case_bool_decide as Hop.
    + destruct (trySend _ _) as [intents2 sent]. intros [= <-]. cbn. split; [|done]. intros _. split_and!; [done..|].
      intros _. exists a. split_and!; try done. right. split; [done|]. destruct Hc as [?|(_ & reg & v & -> & Hv & Hs & Hb)]; [congruence|].
      destruct sent; [|by exists reg, v]. exists (MarkEvidencePending reg (sel_Instance r) true), (v <| tr_pending := true |>).
      split_and!; try done. unfold MarkEvidencePending, trial_update. by rewrite lookup_alter_eq, Hv.
    + intros [= <-]. cbn. split; [|done]. intros _. split_and!; [done..|]. exact Hl.
Qed.

Lemma pick_published_sound_witness :
  let v := example_view "a" 1 0 CacheUnknown in
  exists out, schedulerPickPublished "fill-first" 3 (fun _ reg => reg) (Some (example_published [v])) (pick_request_for ["a"]) 5
     (Some ∅) (Some (mkChan 64 [])) = Some out
  /\ pd_AuthID (po_decision out) = "a"
  /\ loop_result (example_snapshot [v]) (pickCandidates (pick_request_for ["a"])) 5 (po_trials out) (po_result out).
Proof.
  cbv zeta. eexists. split; [vm_compute; reflexivity|]. split; [vm_compute; reflexivity|].
  refine (proj2 (proj2 (proj1 (pick_published_sound "fill-first" 3 (fun _ reg => reg)
    (example_published [example_view "a" 1 0 CacheUnknown]) (pick_request_for ["a"]) 5 (Some ∅) (Some (mkChan 64 [])) _ _) _))).
  - vm_compute. reflexivity.
  - vm_compute. discriminate.
Defined.

(** The fallback summary does not depend on the order in which the runtime
    iterates over the map of counts. *)
Theorem fallback_summary_deterministic (mr1 mr2 : MapRange) (snapshot : SchedulerSnapshot)
    (candidates : list Candidate) (now : Time) :
  @fallbackUnavailableSummary mr1 snapshot candidates now = @fallbackUnavailableSummary mr2 snapshot candidates now.
Proof.
  unfold fallbackUnavailableSummary. case_bool_decide; [done|]. cbv zeta. f_equal.
  apply sortStrings_perm_eq, map_range_order_free.
Qed.

(** The fallback summary can call an account available although it is the
    reason for the fallback: the summary reads the trial state stored when the
    snapshot was published, not the registry, so that an account whose trial
    another pick began counts as available. *)
Theorem fallback_summary_misses_running_trial :
  exists (accounts : list AccountView) (ids : list string) (first second : PickOutcome),
    schedulerPickPublished "fill-first" 2 (fun _ reg => reg) (Some (example_published accounts)) (pick_request_for ids) 5
      (Some ∅) (Some (mkChan 64 [])) = Some first
    /\ pd_AuthID (po_decision first) = "a"
    /\ schedulerPickPublished "fill-first" 2 (fun _ reg => reg) (Some (example_published accounts)) (pick_request_for ids) 6
         (po_trials first) (po_chan first) = Some second
    /\ pd_AuthID (po_decision second) = "" /\ pd_UnavailableSummary (po_decision second) = "available=1".
Proof.
  exists [example_view "a" 1 0 CacheUnknown], ["a"]. eexists _, _. split; [vm_compute; reflexivity|].
  split; [vm_compute; reflexivity|]. split; [vm_compute; reflexivity|]. split; vm_compute; reflexivity.
Qed.
