(* ===== verification/Identity.v ===== *)
(** * Credential identity (identity.go)

    Execution tokens, credential fingerprints and the chain of credential
    rotations the plugin wrote itself, against which a credential observed in
    the host's auth file is classified. *)

From S2P Require Import Prelude GoStrings Float64 Config Models.
#[local] Open Scope string_scope.
#[local] Open Scope list_scope.
#[local] Open Scope Z_scope.
#[local] Open Scope go_scope.

Record ExecutionToken := mkToken {
  tok_Instance : AuthInstanceID;
  tok_Admission : InstanceAdmissionEpoch;
  tok_Tier : TierGeneration;
  tok_Fence : Z;
}.
#[export] Instance ExecutionToken_eq_dec : EqDecision ExecutionToken.
Proof. solve_decision. Defined.

Definition ValidFor (t : ExecutionToken) (instance : AuthInstanceID) (admission : InstanceAdmissionEpoch)
    (tier : TierGeneration) : bool :=
  (tok_Instance t =? instance) && (tok_Admission t =? admission) && (tok_Tier t =? tier).

Section fingerprints.
(** [sha256.Sum256], and the canonical form [json.Marshal] gives a JSON text
    ([None] when [json.Unmarshal] rejects it). *)
Context (Sum256 : string -> string) (canonicalJSON : string -> option string).

Definition canonicalMetadata (value : string) : string :=
  match canonicalJSON value with Some raw => raw | None => TrimSpace value end.

Definition NewCredentialFingerprint (subject refresh metadata : string) : CredentialFingerprint :=
  let s := Sum256 subject in
  let r := Sum256 refresh in
  let m := Sum256 (canonicalMetadata metadata) in
  mkFingerprint s r m (Sum256 (s +:+ r +:+ m)).

Definition ValidHashes (f : CredentialFingerprint) : bool :=
  if String.eqb (fp_SubjectHash f) zeroHash || String.eqb (fp_RefreshTokenHash f) zeroHash
     || String.eqb (fp_MetadataHash f) zeroHash || String.eqb (fp_CompositeHash f) zeroHash then false
  else String.eqb (Sum256 (fp_SubjectHash f +:+ fp_RefreshTokenHash f +:+ fp_MetadataHash f)) (fp_CompositeHash f).

(** A fingerprint built from the hashes is valid, as long as no hash is the
    all-zero digest. *)
Lemma NewCredentialFingerprint_valid subject refresh metadata :
  (forall x, Sum256 x <> zeroHash) -> ValidHashes (NewCredentialFingerprint subject refresh metadata) = true.
Proof.
  intros Hz. unfold ValidHashes, NewCredentialFingerprint. simpl.
  rewrite !(proj2 (String.eqb_neq _ _)) by apply Hz. simpl. apply String.eqb_refl.
Qed.
End fingerprints.

Record BindingVersion := mkBindingVersion {
  bv_Instance : AuthInstanceID;
  bv_Admission : InstanceAdmissionEpoch;
  bv_Tier : TierGeneration;
  bv_Login : LoginEpoch;
  bv_Fingerprint : CredentialFingerprint;
}.
Record WritebackVersion := mkWriteback {
  wb_Token : ExecutionToken;
  wb_Login : LoginEpoch;
  wb_Fingerprint : CredentialFingerprint;
}.

Definition ValidateWriteback (current : BindingVersion) (write : WritebackVersion) : bool :=
  ValidFor (wb_Token write) (bv_Instance current) (bv_Admission current) (bv_Tier current)
  && (wb_Login write =? bv_Login current)
  && String.eqb (fp_CompositeHash (wb_Fingerprint write)) (fp_CompositeHash (bv_Fingerprint current)).

Inductive TransitionPhase := TransitionPlanned | TransitionApplied | TransitionAborted | TransitionOutcomeUnknown.
#[export] Instance TransitionPhase_eq_dec : EqDecision TransitionPhase.
Proof. solve_decision. Defined.

Record CredentialTransition := mkTransition {
  ct_Prev : CredentialFingerprint;
  ct_Next : CredentialFingerprint;
  ct_SaveSeq : Z;
  ct_Phase : TransitionPhase;
  ct_CreatedAt : Time;
}.
#[export] Instance CredentialTransition_eta : Eta CredentialTransition := fun r => mkTransition
  (ct_Prev r) (ct_Next r) (ct_SaveSeq r) (ct_Phase r) (ct_CreatedAt r).
#[export] Instance CredentialTransition_eq_dec : EqDecision CredentialTransition.
Proof. solve_decision. Defined.

Record TransitionChain := mkChain {
  tc_Cursor : CredentialFingerprint;
  tc_Transitions : list CredentialTransition;
}.
#[export] Instance TransitionChain_eta : Eta TransitionChain := fun r => mkChain (tc_Cursor r) (tc_Transitions r).
#[export] Instance TransitionChain_eq_dec : EqDecision TransitionChain.
Proof. solve_decision. Defined.

Definition same_hash (a b : CredentialFingerprint) : bool := String.eqb (fp_CompositeHash a) (fp_CompositeHash b).

Fixpoint tail_from (current : CredentialFingerprint) (trs : list CredentialTransition) : CredentialFingerprint :=
  match trs with
  | [] => current
  | tr :: trs =>
      if negb (same_hash (ct_Prev tr) current) then current
      else tail_from (if bool_decide (ct_Phase tr = TransitionApplied) then ct_Next tr else current) trs
  end.
Definition Tail (c : TransitionChain) : CredentialFingerprint := tail_from (tc_Cursor c) (tc_Transitions c).

Inductive CredentialError := ErrCredentialUnresolved.

Fixpoint saveTail_from (current : CredentialFingerprint) (trs : list CredentialTransition)
  : result CredentialError CredentialFingerprint :=
  match trs with
  | [] => Ok current
  | tr :: trs =>
      if negb (same_hash (ct_Prev tr) current) then Ok current
      else
        match ct_Phase tr with
        | TransitionApplied => saveTail_from (ct_Next tr) trs
        | TransitionPlanned | TransitionOutcomeUnknown => Err ErrCredentialUnresolved
        | TransitionAborted => saveTail_from current trs
        end
  end.
Definition SaveTail (c : TransitionChain) : result CredentialError CredentialFingerprint :=
  saveTail_from (tc_Cursor c) (tc_Transitions c).

Definition GenerationCount (c : TransitionChain) : Z := 1 + Z.of_nat (length (tc_Transitions c)).

(** The loop that drops settled transitions older than a day. *)
Fixpoint prune_settled (now : Time) (cursor : CredentialFingerprint) (trs : list CredentialTransition)
  : CredentialFingerprint * list CredentialTransition :=
  match trs with
  | [] => (cursor, [])
  | tr :: rest =>
      if same_hash (ct_Prev tr) cursor && bool_decide (ct_Phase tr = TransitionApplied)
         && negb (IsZero (ct_CreatedAt tr)) && (24 * Hour <? Sub now (ct_CreatedAt tr))
      then prune_settled now (ct_Next tr) rest
      else (cursor, trs)
  end.

Definition AppendAt (c : TransitionChain) (t : CredentialTransition) (now : Time) : TransitionChain :=
  let now := if IsZero now then ct_CreatedAt t else now in
  let '(cursor, trs) := prune_settled now (tc_Cursor c) (tc_Transitions c) in
  let trs := trs ++ [t] in
  if Nat.ltb 11 (length trs) then
    let trs := drop (length trs - 11) trs in
    mkChain (match trs with tr :: _ => ct_Prev tr | [] => cursor end) trs
  else mkChain cursor trs.

Definition Append (c : TransitionChain) (t : CredentialTransition) : TransitionChain := AppendAt c t (ct_CreatedAt t).

Inductive CredentialObservationKind :=
  CredentialSame | CredentialOwnedRotation | CredentialMetadataOnly | CredentialExternalLogin | CredentialAmbiguous.
Record CredentialObservation := mkObservation { co_Kind : CredentialObservationKind; co_Advance : Z }.

(** The loop over the transitions, with the index of the next one; [None] when
    it is left without a verdict. *)
Fixpoint classify_from (i : Z) (current observed : CredentialFingerprint) (now : Time) (trs : list CredentialTransition)
  : option CredentialObservation :=
  match trs with
  | [] => None
  | tr :: trs =>
      if negb (same_hash (ct_Prev tr) current) then None
      else if negb (IsZero (ct_CreatedAt tr)) && (24 * Hour <? Sub now (ct_CreatedAt tr)) then
        if same_hash observed (ct_Next tr) then Some (mkObservation CredentialAmbiguous 0) else None
      else
        match ct_Phase tr with
        | TransitionApplied =>
            if same_hash observed (ct_Next tr) then Some (mkObservation CredentialOwnedRotation (i + 1))
            else classify_from (i + 1) (ct_Next tr) observed now trs
        | TransitionPlanned | TransitionOutcomeUnknown =>
            if same_hash observed (ct_Next tr) then Some (mkObservation CredentialAmbiguous 0) else None
        | TransitionAborted => None
        end
  end.

Definition ClassifyObservedCredentialAt (chain : TransitionChain) (observed : CredentialFingerprint) (now : Time)
  : CredentialObservation :=
  if same_hash observed (tc_Cursor chain) then mkObservation CredentialSame 0
  else
    match classify_from 0 (tc_Cursor chain) observed now (tc_Transitions chain) with
    | Some verdict => verdict
    | None =>
        if String.eqb (fp_SubjectHash observed) (fp_SubjectHash (tc_Cursor chain))
           && String.eqb (fp_RefreshTokenHash observed) (fp_RefreshTokenHash (tc_Cursor chain))
        then mkObservation CredentialMetadataOnly 0
        else mkObservation CredentialExternalLogin 0
    end.

(** ** Chains *)

Lemma same_hash_spec a b : same_hash a b = true <-> fp_CompositeHash a = fp_CompositeHash b.
Proof. apply String.eqb_eq. Qed.
Lemma same_hash_refl a : same_hash a a = true.
Proof. by apply same_hash_spec. Qed.

(** The credential after one transition. *)
Definition after (current : CredentialFingerprint) (tr : CredentialTransition) : CredentialFingerprint :=
  if bool_decide (ct_Phase tr = TransitionApplied) then ct_Next tr else current.

(** Every transition starts at the credential the previous ones lead to. *)
Fixpoint linked (current : CredentialFingerprint) (trs : list CredentialTransition) : Prop :=
  match trs with
  | [] => True
  | tr :: trs => same_hash (ct_Prev tr) current = true /\ linked (after current tr) trs
  end.
Definition chain_linked (c : TransitionChain) : Prop := linked (tc_Cursor c) (tc_Transitions c).

Lemma linked_tail current trs : linked current trs -> tail_from current trs = foldl after current trs.
Proof. revert current. induction trs as [|tr trs IH]; intros current; simpl; [done|]. intros [-> H]. simpl. by apply IH. Qed.

Lemma linked_app current l1 l2 : linked current (l1 ++ l2) <-> linked current l1 /\ linked (foldl after current l1) l2.
Proof. revert current. induction l1 as [|tr l1 IH]; intros current; simpl; [naive_solver|]. rewrite IH. naive_solver. Qed.

(** Chains are compared by the composite hash only. *)
Lemma after_hash a b tr : same_hash a b = true -> same_hash (after a tr) (after b tr) = true.
Proof. unfold after. case_bool_decide; [by rewrite same_hash_refl|done]. Qed.
Lemma foldl_after_hash a b trs : same_hash a b = true -> same_hash (foldl after a trs) (foldl after b trs) = true.
Proof. revert a b. induction trs as [|tr trs IH]; intros a b H; simpl; [done|]. by apply IH, after_hash. Qed.
Lemma linked_hash a b trs : same_hash a b = true -> linked a trs -> linked b trs.
Proof.
  revert a b. induction trs as [|tr trs IH]; intros a b H; simpl; [done|]. intros [H1 H2]. split.
  - rewrite same_hash_spec in *. congruence.
  - eapply IH; [|done]. by apply after_hash.
Qed.

Lemma prune_settled_spec now cursor trs cursor' trs' :
  prune_settled now cursor trs = (cursor', trs') -> linked cursor trs ->
  linked cursor' trs' /\ foldl after cursor' trs' = foldl after cursor trs /\ (length trs' <= length trs)%nat.
Proof.
  revert cursor. induction trs as [|tr trs IH]; intros cursor; simpl.
  - by intros [= <- <-] _.
  - destruct (_ && _ && _ && _) eqn:E.
    + intros Hp [H1 H2]. apply andb_true_iff in E as [[[_ E]%andb_true_iff _]%andb_true_iff _].
      assert (after cursor tr = ct_Next tr) as Ea by (unfold after; by rewrite E). rewrite Ea in *. apply IH in Hp as (? & ? & ?); [|done]. split_and!; [done|done|lia].
    + intros [= <- <-] [H1 H2]. by split_and!.
Qed.

(** Keeping the last transitions, with the cursor moved to the first of them. *)
Lemma drop_chain cursor trs k tr rest :
  linked cursor trs -> drop k trs = tr :: rest ->
  linked (ct_Prev tr) (tr :: rest) /\ same_hash (foldl after (ct_Prev tr) (tr :: rest)) (foldl after cursor trs) = true.
Proof.
  intros Hl Hd. rewrite <- (take_drop k trs), Hd in Hl |- *. apply linked_app in Hl as [_ Hl].
  assert (same_hash (foldl after cursor (take k trs)) (ct_Prev tr) = true) as Hs.
  { destruct Hl as [H _]. rewrite same_hash_spec in *. done. }
  split; [by eapply linked_hash|]. rewrite foldl_app. apply foldl_after_hash.
  by rewrite same_hash_spec in *.
Qed.

Lemma AppendAt_linked c t now :
  chain_linked c -> same_hash (ct_Prev t) (Tail c) = true ->
  chain_linked (AppendAt c t now) /\ same_hash (Tail (AppendAt c t now)) (after (Tail c) t) = true.
Proof.
  unfold chain_linked, AppendAt, Tail. intros Hl Hp. rewrite (linked_tail _ _ Hl) in Hp |- *.
  destruct (prune_settled _ _ _) as [cursor trs] eqn:E. apply prune_settled_spec in E as (Hl' & Hf & _); [|done].
  rewrite <- Hf in Hp |- *.
  assert (linked cursor (trs ++ [t])) as Happ by (apply linked_app; exact (conj Hl' (conj Hp I))).
  assert (foldl after cursor (trs ++ [t]) = after (foldl after cursor trs) t) as Hfold by apply foldl_snoc.
  destruct (Nat.ltb_spec 11 (length (trs ++ [t]))); cbn [tc_Cursor tc_Transitions].
  - destruct (drop (length (trs ++ [t]) - 11) (trs ++ [t])) as [|tr rest] eqn:Ed.
    { apply (f_equal length) in Ed. rewrite length_drop in Ed. simpl in Ed. lia. }
    destruct (drop_chain _ _ _ _ _ Happ Ed) as [H1 H2]. split; [done|]. rewrite linked_tail by done. by rewrite <- Hfold.
  - split; [done|]. rewrite linked_tail, Hfold by done. apply same_hash_refl.
Qed.

Lemma AppendAt_bounded c t now : (length (tc_Transitions (AppendAt c t now)) <= 11)%nat.
Proof.
  unfold AppendAt. destruct (prune_settled _ _ _) as [cursor trs].
  destruct (Nat.ltb_spec 11 (length (trs ++ [t]))); simpl; [|done]. rewrite length_drop. lia.
Qed.

Definition append_all (c : TransitionChain) (ts : list (CredentialTransition * Time)) : TransitionChain :=
  foldl (fun c '(t, now) => AppendAt c t now) c ts.

(** The transitions are appended the way the credential writer does: each one
    starts at the tail of the chain at that moment. *)
Fixpoint appends_at_tail (c : TransitionChain) (ts : list (CredentialTransition * Time)) : Prop :=
  match ts with
  | [] => True
  | (t, now) :: ts => same_hash (ct_Prev t) (Tail c) = true /\ appends_at_tail (AppendAt c t now) ts
  end.

(** ** Properties *)

(** The rotation chain never loses its place: however many transitions are
    appended at its tail, pruned after a day or dropped beyond eleven, the chain
    stays linked, keeps at most eleven transitions, and its tail is the
    credential the last applied transition led to. *)
Theorem chain_append_keeps_tail (cursor : CredentialFingerprint) (ts : list (CredentialTransition * Time)) :
  let c := append_all (mkChain cursor []) ts in
  appends_at_tail (mkChain cursor []) ts ->
  chain_linked c /\ GenerationCount c <= 12
  /\ same_hash (Tail c) (foldl after cursor (ts.*1)) = true.
Proof.
  cbv zeta. intros H.
  assert (forall c0, chain_linked c0 -> GenerationCount c0 <= 12 -> appends_at_tail c0 ts ->
    chain_linked (append_all c0 ts) /\ GenerationCount (append_all c0 ts) <= 12
    /\ same_hash (Tail (append_all c0 ts)) (foldl after (Tail c0) (ts.*1)) = true) as Hgen; [|by apply Hgen].
  clear. induction ts as [|[t now] ts IH]; intros c0 Hl Hg Ha; simpl.
  { split_and!; try done. apply same_hash_refl. }
  destruct Ha as [Hp Ha]. destruct (AppendAt_linked c0 t now Hl Hp) as [Hl' Ht]. destruct (IH (AppendAt c0 t now)) as (? & ? & Hs); try done.
  { pose proof (AppendAt_bounded c0 t now). unfold GenerationCount. lia. }
  split_and!; try done. pose proof (foldl_after_hash _ _ (ts.*1) Ht) as Hf.
  apply same_hash_spec. apply same_hash_spec in Hs, Hf. exact (eq_trans Hs Hf).
Qed.

Definition example_fp (n : string) : CredentialFingerprint := mkFingerprint "s" n "m" n.
Definition example_tr (p n : string) (phase : TransitionPhase) (at_ : Time) : CredentialTransition :=
  mkTransition (example_fp p) (example_fp n) 1 phase at_.

Lemma chain_append_keeps_tail_witness :
  let ts := [(example_tr "a" "b" TransitionApplied 5, 5); (example_tr "b" "x" TransitionAborted 6, 6);
             (example_tr "b" "c" TransitionApplied 7, 7)] in
  same_hash (Tail (append_all (mkChain (example_fp "a") []) ts)) (example_fp "c") = true.
Proof.
  cbv zeta. refine (proj2 (proj2 (chain_append_keeps_tail (example_fp "a") _ _))).
  vm_compute. repeat split; reflexivity.
Defined.

Lemma saveTail_from_spec current trs t :
  saveTail_from current trs = Ok t -> tail_from current trs = t.
Proof.
  revert current. induction trs as [|tr trs IH]; intros current; simpl; [by intros [= ->]|].
  destruct (negb _); [by intros [= ->]|]. destruct (ct_Phase tr); try done; apply IH.
Qed.

Lemma saveTail_from_unresolved current trs :
  linked current trs ->
  (saveTail_from current trs = Err ErrCredentialUnresolved
   <-> Exists (fun tr => ct_Phase tr = TransitionPlanned \/ ct_Phase tr = TransitionOutcomeUnknown) trs).
Proof.
  revert current. induction trs as [|tr trs IH]; intros current; simpl.
  { intros _. split; [done|]. intros H. by inversion H. }
  intros [-> Hl]. simpl. rewrite Exists_cons. unfold after in Hl.
  destruct (ct_Phase tr); simpl in Hl; try rewrite (IH _ Hl); naive_solver.
Qed.

(** A credential save starts from the tail of the chain, and is refused
    exactly while the outcome of an earlier save is open. *)
Theorem save_tail_resolved (c : TransitionChain) :
  chain_linked c ->
  (exists t, SaveTail c = Ok t /\ t = Tail c
     /\ Forall (fun tr => ct_Phase tr = TransitionApplied \/ ct_Phase tr = TransitionAborted) (tc_Transitions c))
  \/ (SaveTail c = Err ErrCredentialUnresolved
      /\ Exists (fun tr => ct_Phase tr = TransitionPlanned \/ ct_Phase tr = TransitionOutcomeUnknown) (tc_Transitions c)).
Proof.
  intros Hl. pose proof (saveTail_from_unresolved _ _ Hl) as Hu. destruct (SaveTail c) as [t|[]] eqn:E.
  - left. exists t. split_and!; [done|by rewrite <- (saveTail_from_spec _ _ _ E)|].
    apply Forall_forall. intros tr Htr. destruct (ct_Phase tr) eqn:Ep; auto; exfalso;
      (assert (saveTail_from (tc_Cursor c) (tc_Transitions c) = Err ErrCredentialUnresolved) as Hx
        by (apply Hu, Exists_exists; eauto)); unfold SaveTail in E; congruence.
  - right. split; [done|]. by apply Hu.
Qed.

Lemma save_tail_resolved_witness :
  exists t, SaveTail (mkChain (example_fp "a") [example_tr "a" "b" TransitionApplied 5]) = Ok t /\ t = example_fp "b".
Proof.
  destruct (save_tail_resolved (mkChain (example_fp "a") [example_tr "a" "b" TransitionApplied 5])) as [(t & E & Ht & _)|[E _]].
  - vm_compute. repeat split; reflexivity.
  - exists t. split; [exact E|exact Ht].
  - vm_compute in E. discriminate E.
Defined.

(** The first [n] transitions are applied rotations of the last day, and the
    last of them leads to the observed credential. *)
Definition owned_prefix (c : TransitionChain) (observed : CredentialFingerprint) (now : Time) (n : nat) : Prop :=
  exists pre tr post, tc_Transitions c = pre ++ tr :: post /\ n = S (length pre)
    /\ Forall (fun t => ct_Phase t = TransitionApplied
                        /\ (ct_CreatedAt t = zeroTime \/ Sub now (ct_CreatedAt t) <= 24 * Hour)) (pre ++ [tr])
    /\ linked (tc_Cursor c) (pre ++ [tr]) /\ same_hash observed (ct_Next tr) = true.

Lemma classify_owned i current observed now trs n :
  classify_from i current observed now trs = Some (mkObservation CredentialOwnedRotation n) ->
  exists pre tr post, trs = pre ++ tr :: post /\ n = i + 1 + Z.of_nat (length pre)
    /\ Forall (fun t => ct_Phase t = TransitionApplied
                        /\ (ct_CreatedAt t = zeroTime \/ Sub now (ct_CreatedAt t) <= 24 * Hour)) (pre ++ [tr])
    /\ linked current (pre ++ [tr]) /\ same_hash observed (ct_Next tr) = true.
Proof.
  revert i current. induction trs as [|tr trs IH]; intros i current; simpl; [done|].
  destruct (same_hash (ct_Prev tr) current) eqn:Ep; simpl; [|done].
  destruct (negb (IsZero (ct_CreatedAt tr)) && (24 * Hour <? Sub now (ct_CreatedAt tr))) eqn:Et; [by destruct (same_hash observed (ct_Next tr))|].
  assert (ct_CreatedAt tr = zeroTime \/ Sub now (ct_CreatedAt tr) <= 24 * Hour) as Hrec.
  { apply andb_false_iff in Et as [H|H]; [left; time_lia|right; lia]. }
  destruct (ct_Phase tr) eqn:Eph; [by destruct (same_hash observed (ct_Next tr))| |done|by destruct (same_hash observed (ct_Next tr))].
  destruct (same_hash observed (ct_Next tr)) eqn:Eo.
  - intros [= <-]. exists [], tr, trs. simpl. split_and!; try done; [lia|]. by apply Forall_singleton.
  - intros (pre & t & post & -> & -> & HF & Hl & Hs)%IH. exists (tr :: pre), t, post. split_and!; simpl; try done.
    + lia.
    + by constructor.
    + split; [done|]. unfold after. by rewrite bool_decide_true.
Qed.

(** A credential is taken for the plugin's own rotation only on proof: the
    classification [owned_rotation] with advance [n] means that the first [n]
    transitions of the chain are linked, applied and at most a day old, and that
    the [n]-th leads to the observed credential. *)
Theorem owned_rotation_sound (c : TransitionChain) (observed : CredentialFingerprint) (now : Time) (n : Z) :
  ClassifyObservedCredentialAt c observed now = mkObservation CredentialOwnedRotation n ->
  owned_prefix c observed now (Z.to_nat n) /\ 1 <= n <= Z.of_nat (length (tc_Transitions c)).
Proof.
  unfold ClassifyObservedCredentialAt. destruct (same_hash observed (tc_Cursor c)); [done|].
  destruct (classify_from _ _ _ _ _) as [v|] eqn:E; [|by destruct (_ && _)].
  intros ->. apply classify_owned in E as (pre & tr & post & E & -> & HF & Hl & Hs). split.
  - exists pre, tr, post. split_and!; try done. lia.
  - rewrite E, length_app. simpl. lia.
Qed.

Lemma owned_rotation_sound_witness :
  let c := mkChain (example_fp "a") [example_tr "a" "b" TransitionApplied 5; example_tr "b" "c" TransitionApplied 6] in
  owned_prefix c (example_fp "c") 7 2.
Proof.
  cbv zeta. refine (proj1 (owned_rotation_sound _ _ 7 2 _)). vm_compute. reflexivity.
Defined.

(** A rejected save makes the plugin's own rotation look foreign: after an
    aborted transition, the chain's tail is still the credential the next save
    applied, but the classification stops at the aborted transition and reports
    an external login. *)
Theorem rotation_after_aborted_save_is_external :
  exists (c : TransitionChain) (observed : CredentialFingerprint) (now : Time),
    chain_linked c /\ SaveTail c = Ok observed /\ Tail c = observed
    /\ Forall (fun tr => Sub now (ct_CreatedAt tr) < 24 * Hour) (tc_Transitions c)
    /\ ClassifyObservedCredentialAt c observed now = mkObservation CredentialExternalLogin 0.
Proof.
  exists (mkChain (example_fp "a") [example_tr "a" "x" TransitionAborted 5; example_tr "a" "b" TransitionApplied 6]),
    (example_fp "b"), 7.
  split; [vm_compute; repeat split; reflexivity|]. split; [vm_compute; reflexivity|]. split; [vm_compute; reflexivity|].
  split; [|vm_compute; reflexivity]. repeat constructor; vm_compute; reflexivity.
Qed.
