(* ===== verification/Annotations.v ===== *)
(** * Operator annotations (annotations.go)

    Values of the model are immutable, so that the clone functions of the code
    are the identity. *)

From stdpp Require Import pretty.
From S2P Require Import Prelude GoStrings Float64 Config Models.
#[local] Open Scope string_scope.
#[local] Open Scope list_scope.
#[local] Open Scope Z_scope.
#[local] Open Scope go_scope.

(** The loop with the set of tags seen. *)
Fixpoint normalizeTags_from (seen : gset string) (tags : list string) : list string :=
  match tags with
  | [] => []
  | tag :: tags =>
      let tag := TrimSpace tag in
      if String.eqb tag "" || bool_decide (tag ∈ seen) then normalizeTags_from seen tags
      else tag :: normalizeTags_from ({[tag]} ∪ seen) tags
  end.
Definition normalizeTags (tags : list string) : list string := normalizeTags_from ∅ tags.

Definition NormalizeAnnotationState (state : AnnotationState) : AnnotationState :=
  mkAnnotations ((fun a => a <| an_Tags := normalizeTags (an_Tags a) |>) <$> ann_Accounts state)
                ((fun g => g <| gr_Tags := normalizeTags (gr_Tags g) |>) <$> ann_Groups state).

Definition ResolveAnnotationKey (account : AccountState) : string :=
  if String.eqb (a_ChatGPTAccountID account) "" && negb (a_Instance account =? 0)
  then "instance:" +:+ pretty (a_Instance account : Z)
  else if negb (String.eqb (a_AuthID account) "") then "auth:" +:+ a_AuthID account
  else if negb (String.eqb (a_ChatGPTAccountID account) "") then "chatgpt:" +:+ a_ChatGPTAccountID account
  else if negb (String.eqb (a_Email account) "") then "email:" +:+ a_Email account
  else if negb (String.eqb (a_AuthIndex account) "") then "index:" +:+ a_AuthIndex account
  else "".

Definition applyAnnotation (normalized : AnnotationState) (account : AccountState) : AccountState :=
  match ann_Accounts normalized !! ResolveAnnotationKey account with
  | Some annotation => account <| a_Annotation := annotation |>
  | None => account
  end.

Definition ApplyAnnotations (accounts : list AccountState) (state : AnnotationState) : list AccountState :=
  applyAnnotation (NormalizeAnnotationState state) <$> accounts.

(** ** Properties *)

(** A list of tags that normalisation leaves alone. *)
Definition tags_normal (tags : list string) : Prop :=
  NoDup tags /\ Forall (fun t => t <> "" /\ TrimSpace t = t) tags.

Lemma normalizeTags_from_spec seen tags :
  tags_normal (normalizeTags_from seen tags)
  /\ forall t, t ∈ normalizeTags_from seen tags <-> t ∉ seen /\ t <> "" /\ exists t0, t0 ∈ tags /\ TrimSpace t0 = t.
Proof.
  revert seen. induction tags as [|tag tags IH]; intros seen; simpl.
  { split; [by split; constructor|]. intros t. split; [by intros ?%not_elem_of_nil|].
    intros (_ & _ & t0 & ?%not_elem_of_nil & _). done. }
  setoid_rewrite elem_of_cons.
  destruct (String.eqb_spec (TrimSpace tag) "") as [E|Hne]; simpl; [|case_bool_decide as Hin].
  - destruct (IH seen) as [Hn Hm]. split; [done|]. intros t. rewrite Hm. split; [naive_solver|].
    intros (? & Ht & t0 & [-> |?] & <-); [done|eauto].
  - destruct (IH seen) as [Hn Hm]. split; [done|]. intros t. rewrite Hm. split; [naive_solver|].
    intros (? & Ht & t0 & [-> |?] & <-); [done|eauto].
  - destruct (IH ({[TrimSpace tag]} ∪ seen)) as [[Hnd HF] Hm]. split.
    + split.
      * apply NoDup_cons. split; [|done]. rewrite Hm. set_solver.
      * constructor; [|done]. split; [done|apply TrimSpace_idem].
    + intros t. rewrite elem_of_cons, Hm, not_elem_of_union, not_elem_of_singleton. split; [naive_solver|].
      intros (? & Ht & t0 & [-> |?] & <-); [by left|].
      destruct (decide (TrimSpace t0 = TrimSpace tag)); [by left|right; eauto 10].
Qed.

Lemma normalizeTags_from_id seen tags :
  tags_normal tags -> (forall t, t ∈ tags -> t ∉ seen) -> normalizeTags_from seen tags = tags.
Proof.
  intros [Hnd HF]. revert seen. induction tags as [|tag tags IH]; intros seen Hs; simpl; [done|].
  apply NoDup_cons in Hnd as [Hn Hnd]. apply Forall_cons in HF as [[Hne Ht] HF]. rewrite Ht.
  rewrite (proj2 (String.eqb_neq _ _) Hne), bool_decide_false by (apply Hs; constructor). simpl. f_equal.
  apply IH; auto. intros t Hin. apply not_elem_of_union. split; [|apply Hs; by constructor].
  apply not_elem_of_singleton. by intros ->.
Qed.

(** Normalised tags: the result has no blank and no repeated tag, every tag
    is trimmed, it holds exactly the trimmed non-blank tags of the input, and
    normalising twice changes nothing. *)
Theorem normalize_tags_spec (tags : list string) :
  tags_normal (normalizeTags tags)
  /\ (forall t, t ∈ normalizeTags tags <-> t <> "" /\ exists t0, t0 ∈ tags /\ TrimSpace t0 = t)
  /\ normalizeTags (normalizeTags tags) = normalizeTags tags.
Proof.
  destruct (normalizeTags_from_spec ∅ tags) as [Hn Hm]. split_and!; [done| |].
  - intros t. unfold normalizeTags. rewrite Hm. set_solver.
  - by apply normalizeTags_from_id; [|set_solver].
Qed.
