(* ===== verification/Probe.v ===== *)
(** * Reset probes of the quota windows (probe.go)

    After a quota window resets, the plugin checks that the upstream really
    opened a new window.  The legacy probe states live in the account. *)

From S2P Require Import Prelude Float64 Config Models.
#[local] Open Scope string_scope.
#[local] Open Scope list_scope.
#[local] Open Scope Z_scope.
#[local] Open Scope go_scope.

Definition resetProbeAfterResetDelay : Duration := 10 * Minute.
Definition resetProbeCloseThreshold : Duration := 3 * Minute.

(** [time.Duration(seconds) * time.Second] wraps around. *)
Definition secondsDuration (seconds : Z) : Duration := i64 (seconds * Second).

Definition probeWindowDuration (window : QuotaWindow) : option Duration :=
  match qw_LimitWindowSeconds window with
  | Some s =>
      if 0 <? s then Some (secondsDuration s)
      else if String.eqb (qw_Kind window) WindowFiveHour then Some (5 * Hour)
      else if String.eqb (qw_Kind window) WindowWeekly then Some (7 * 24 * Hour) else None
  | None =>
      if String.eqb (qw_Kind window) WindowFiveHour then Some (5 * Hour)
      else if String.eqb (qw_Kind window) WindowWeekly then Some (7 * 24 * Hour) else None
  end.

(** [-d] wraps around on the least duration. *)
Definition absDuration (d : Duration) : Duration := if d <? 0 then i64 (- d) else d.

Definition closeToWindowEnd (now : Time) (resetAt : Time) (duration : Duration) : bool :=
  absDuration (Sub resetAt (Add now duration)) <=? resetProbeCloseThreshold.

Definition firstObservationLazyWindow (now : Time) (window : QuotaWindow) : Duration * bool :=
  match qw_UsedPercent window with
  | None => (0, false)
  | Some used =>
      if negb (f_eq used f_zero) || IsZero (qw_ResetAt window) then (0, false)
      else
        match probeWindowDuration window with
        | None => (0, false)
        | Some duration =>
            if duration <=? 0 then (0, false)
            else (duration, closeToWindowEnd now (qw_ResetAt window) duration)
        end
  end.

Definition resetProbeCandidateWindows (quota : ParsedQuota) : list QuotaWindow :=
  option_list (pq_FiveHour quota) ++ option_list (pq_LongWindow quota).

Definition scheduleProbeFor (now : Time) (next : gmap WindowKind ResetProbeState) (window : QuotaWindow)
  : gmap WindowKind ResetProbeState :=
  match probeWindowDuration window with
  | None => next
  | Some duration =>
      if (duration <=? 0) || IsZero (qw_ResetAt window) || After (qw_ResetAt window) now then next
      else if match next !! qw_Kind window with
              | Some existing => Equal (rp_ResetAt existing) (qw_ResetAt window)
              | None => false
              end then next
      else <[qw_Kind window := {|
              rp_WindowKind := qw_Kind window; rp_WindowSeconds := Z.quot duration Second;
              rp_ResetAt := qw_ResetAt window; rp_NextCheckAt := Add (qw_ResetAt window) resetProbeAfterResetDelay;
              rp_LastProbeAt := zeroTime; rp_VerifiedAt := zeroTime; rp_Attempts := 0;
              rp_Status := ResetProbeStatusPending; rp_Error := "" |}]> next
  end.

Definition scheduleResetProbesFromPrevious (previous : AccountState) (current : gmap WindowKind ResetProbeState) (now : Time)
  : gmap WindowKind ResetProbeState :=
  foldl (scheduleProbeFor now) current (resetProbeCandidateWindows (a_Quota previous)).

Definition resetProbeDue (probe : ResetProbeState) (now : Time) : bool :=
  bool_decide (rp_Status probe = ResetProbeStatusPending) && negb (IsZero (rp_NextCheckAt probe))
  && negb (After (rp_NextCheckAt probe) now).

(** The result does not depend on the order of the iteration. *)
Definition resetProbeDueAny (probes : gmap WindowKind ResetProbeState) (now : Time) : bool :=
  existsb (fun '(_, probe) => resetProbeDue probe now) (map_to_list probes).

Definition matchingProbeWindow (quota : ParsedQuota) (probe : ResetProbeState) : option QuotaWindow :=
  List.find (fun window => negb (negb (String.eqb (rp_WindowKind probe) "")
                                 && negb (String.eqb (qw_Kind window) (rp_WindowKind probe))))
    (resetProbeCandidateWindows quota).

Definition markResetProbeConfirmedActive (probe : ResetProbeState) : ResetProbeState :=
  probe <| rp_Status := ResetProbeStatusConfirmedActive |> <| rp_Error := "" |>.

Definition markResetProbeVerified (probe : ResetProbeState) (now : Time) : ResetProbeState :=
  probe <| rp_Status := ResetProbeStatusVerified |> <| rp_LastProbeAt := now |> <| rp_VerifiedAt := now |>
        <| rp_Error := "" |>.

(** [err] is the text of the error, already redacted. *)
Definition markResetProbeRetry (probe : ResetProbeState) (now : Time) (err : option string) (cfg : Config)
  : ResetProbeState :=
  let probe := probe <| rp_LastProbeAt := now |> <| rp_Attempts := i64 (rp_Attempts probe + 1) |>
                     <| rp_Error := default "" err |> in
  let retryDelays := RefreshRetryDelays (NormalizeConfig cfg) in
  if bool_decide (retryDelays = []) || (Z.of_nat (length retryDelays) <? rp_Attempts probe)
  then probe <| rp_Status := ResetProbeStatusFailed |> <| rp_NextCheckAt := zeroTime |>
  else probe <| rp_Status := ResetProbeStatusPending |>
             <| rp_NextCheckAt := Add now (nth (Z.to_nat (rp_Attempts probe - 1)) retryDelays 0) |>.

Definition looksLikeLazyReset (now : Time) (window : QuotaWindow) (windowSeconds : Z) : bool :=
  if (windowSeconds <=? 0) || IsZero (qw_ResetAt window) then false
  else closeToWindowEnd now (qw_ResetAt window) (secondsDuration windowSeconds).

(** ** Properties *)

Lemma resetProbeDueAny_spec probes now :
  resetProbeDueAny probes now = true <-> exists kind probe, probes !! kind = Some probe /\ resetProbeDue probe now = true.
Proof.
  unfold resetProbeDueAny. rewrite existsb_exists. split.
  - intros ([kind probe] & Hin%list_elem_of_In%elem_of_map_to_list & Hd). eauto.
  - intros (kind & probe & Hin & Hd). exists (kind, probe). split; [|done]. by apply list_elem_of_In, elem_of_map_to_list.
Qed.

Lemma absDuration_bound d t : minInt64 < d <= maxInt64 -> (absDuration d <= t <-> - t <= d <= t).
Proof. intros H. unfold absDuration. destruct (Z.ltb_spec d 0); [rewrite i64_small by time_lia|]; lia. Qed.

(** The closeness test: unless the difference saturates at the least
    duration, a window counts as freshly opened exactly when its reset lies
    within three minutes of a full window from now. *)
Theorem close_to_window_end_iff (now resetAt : Time) (duration : Duration) :
  minInt64 < resetAt - (now + duration) ->
  closeToWindowEnd now resetAt duration = true
  <-> now + duration - resetProbeCloseThreshold <= resetAt <= now + duration + resetProbeCloseThreshold.
Proof.
  intros H. unfold closeToWindowEnd. rewrite Z.leb_le, absDuration_bound by time_lia.
  unfold resetProbeCloseThreshold. time_lia.
Qed.

Lemma close_to_window_end_iff_witness :
  closeToWindowEnd 0 (5 * Hour + Minute) (5 * Hour) = true
  <-> 0 + 5 * Hour - resetProbeCloseThreshold <= 5 * Hour + Minute <= 0 + 5 * Hour + resetProbeCloseThreshold.
Proof. apply close_to_window_end_iff. vm_compute. reflexivity. Defined.

(** At the least duration the negation wraps around: a window whose reset
    lies more than 292 years in the past passes the closeness test. *)
Theorem close_to_window_end_saturates (now resetAt : Time) (duration : Duration) :
  resetAt - (now + duration) <= minInt64 -> closeToWindowEnd now resetAt duration = true.
Proof.
  intros H. unfold closeToWindowEnd. replace (Sub resetAt (Add now duration)) with minInt64 by time_lia. reflexivity.
Qed.

Lemma close_to_window_end_saturates_witness :
  closeToWindowEnd 9223372036854775808 0 (5 * Hour) = true.
Proof. apply close_to_window_end_saturates. vm_compute. discriminate. Defined.

(** One failed probe after another, at the given times. *)
Definition retry_all (cfg : Config) (probe : ResetProbeState) (times : list Time) : ResetProbeState :=
  foldl (fun p t => markResetProbeRetry p t (Some "error") cfg) probe times.

Lemma markResetProbeRetry_fields probe now err cfg :
  let delays := RefreshRetryDelays (NormalizeConfig cfg) in
  let p := markResetProbeRetry probe now err cfg in
  0 <= rp_Attempts probe < maxInt64 ->
  rp_Attempts p = rp_Attempts probe + 1
  /\ (if rp_Attempts probe <? Z.of_nat (length delays)
      then rp_Status p = ResetProbeStatusPending
           /\ rp_NextCheckAt p = now + nth (Z.to_nat (rp_Attempts probe)) delays 0
      else rp_Status p = ResetProbeStatusFailed /\ rp_NextCheckAt p = zeroTime).
Proof.
  cbv zeta. intros H. unfold markResetProbeRetry. cbn [rp_Attempts set_field].
  rewrite i64_small by time_lia. set (delays := RefreshRetryDelays (NormalizeConfig cfg)).
  assert (bool_decide (delays = []) || (Z.of_nat (length delays) <? rp_Attempts probe + 1)
          = negb (rp_Attempts probe <? Z.of_nat (length delays))) as ->.
  { case_bool_decide as E; [|cbn [orb]; lia]. cbn [orb]. rewrite E. cbn [length]. symmetry.
    apply negb_true_iff, Z.ltb_ge. lia. }
  replace (Z.to_nat (rp_Attempts probe + 1 - 1)) with (Z.to_nat (rp_Attempts probe)) by (f_equal; lia).
  by destruct (rp_Attempts probe <? Z.of_nat (length delays)).
Qed.

Lemma retry_all_attempts cfg times probe :
  0 <= rp_Attempts probe -> rp_Attempts probe + Z.of_nat (length times) < maxInt64 ->
  rp_Attempts (retry_all cfg probe times) = rp_Attempts probe + Z.of_nat (length times).
Proof.
  unfold retry_all. revert probe. induction times as [|t times IH]; intros probe H0 Hm; simpl in *; [lia|].
  destruct (markResetProbeRetry_fields probe t (Some "error") cfg ltac:(time_lia)) as [Ha _]. rewrite IH; rewrite ?Ha; lia.
Qed.

(** A reset probe gives up exactly after its retries are used: with [n]
    configured delays, a fresh probe is still pending after each of [n]
    failures, with the next check one configured delay later, and the failure
    after them ends it without a further check. *)
Theorem reset_probe_retry_budget (cfg : Config) (probe : ResetProbeState) (times : list Time) (now : Time) :
  let delays := RefreshRetryDelays (NormalizeConfig cfg) in
  let p := retry_all cfg probe (times ++ [now]) in
  rp_Attempts probe = 0 -> Z.of_nat (length times) < maxInt64 - 1 ->
  (if Z.of_nat (length times) <? Z.of_nat (length delays)
   then rp_Status p = ResetProbeStatusPending /\ rp_NextCheckAt p = now + nth (length times) delays 0
   else rp_Status p = ResetProbeStatusFailed /\ rp_NextCheckAt p = zeroTime).
Proof.
  cbv zeta. intros H0 Hm. unfold retry_all. rewrite foldl_snoc. fold (retry_all cfg probe times).
  pose proof (retry_all_attempts cfg times probe ltac:(lia) ltac:(lia)) as Ha. rewrite H0, Z.add_0_l in Ha.
  destruct (markResetProbeRetry_fields (retry_all cfg probe times) now (Some "error") cfg) as [_ Hf].
  { rewrite Ha. time_lia. }
  cbv zeta in Hf. rewrite Ha in Hf. replace (Z.to_nat (Z.of_nat (length times))) with (length times) in Hf by lia. exact Hf.
Qed.

Lemma reset_probe_retry_budget_witness :
  let probe := mkResetProbe WindowFiveHour 18000 100 200 0 0 0 ResetProbeStatusPending "" in
  let p := retry_all DefaultConfig probe ([] ++ [300]) in
  rp_Status p = ResetProbeStatusPending
  /\ rp_NextCheckAt p = 300 + nth 0 (RefreshRetryDelays (NormalizeConfig DefaultConfig)) 0.
Proof.
  cbv zeta.
  refine (reset_probe_retry_budget DefaultConfig (mkResetProbe WindowFiveHour 18000 100 200 0 0 0 ResetProbeStatusPending "")
    [] 300 _ _).
  - reflexivity.
  - vm_compute. reflexivity.
Defined.
