(* ===== verification/State.v ===== *)
(** * Plugin state (state.go)

    The shared state of the plugin: the cached accounts, the admission the host
    confirmed, annotations, logs and activity times.  Every method of the code
    holds the mutex from its first access to its last, so that one operation is
    one step.  [clock] is the reading of [time.Now()], used when the caller
    passes the zero time. *)

From stdpp Require Import pretty.
From S2P Require Import Prelude GoStrings Float64 Config Models Circuit Identity Annotations Probe.
#[local] Open Scope string_scope.
#[local] Open Scope list_scope.
#[local] Open Scope Z_scope.
#[local] Open Scope go_scope.

Record PluginState := mkState {
  st_cfg : Config;
  st_accounts : gmap string AccountState;
  st_cpaAdmission : CPAAdmissionState;
  st_cpaAdmissionVersion : Z;
  st_annotations : AnnotationState;
  st_logs : list LogEntry;
  st_lastSelected : string;
  st_lastReason : string;
  st_lastCodexActivityAt : Time;
  st_lastAuthScanAt : Time;
  st_codexAuthCount : Z;
}.
#[export] Instance PluginState_eta : Eta PluginState := fun r => mkState
  (st_cfg r) (st_accounts r) (st_cpaAdmission r) (st_cpaAdmissionVersion r) (st_annotations r) (st_logs r)
  (st_lastSelected r) (st_lastReason r) (st_lastCodexActivityAt r) (st_lastAuthScanAt r) (st_codexAuthCount r).

Definition NewPluginState (cfg : Config) : PluginState :=
  mkState (NormalizeConfig cfg) ∅ emptyAdmission 0 (NormalizeAnnotationState (mkAnnotations ∅ ∅)) [] "" "" zeroTime
    zeroTime 0.

Definition now_or (clock now : Time) : Time := if IsZero now then clock else now.

Definition accountStateKey (account : AccountState) : string :=
  if negb (String.eqb (a_AuthID account) "") then "auth:" +:+ a_AuthID account
  else if negb (String.eqb (a_ChatGPTAccountID account) "") then "chatgpt:" +:+ a_ChatGPTAccountID account
  else if negb (a_Instance account =? 0) then "instance:" +:+ pretty (a_Instance account : Z)
  else if negb (String.eqb (a_Email account) "") then "email:" +:+ a_Email account
  else if negb (String.eqb (a_AuthIndex account) "") then "index:" +:+ a_AuthIndex account
  else "".

Definition authKey (authID : string) : string := "auth:" +:+ authID.

Definition ReplaceConfig (s : PluginState) (cfg : Config) : PluginState := s <| st_cfg := NormalizeConfig cfg |>.

Definition SetAnnotations (s : PluginState) (state : AnnotationState) : PluginState :=
  s <| st_annotations := NormalizeAnnotationState state |>.

(** ** Admission *)

Definition equalIDs (left right : gset string) : bool := bool_decide (size left = size right) && bool_decide (left ⊆ right).

Definition equalTier (left right : TierAdmission) : bool :=
  (tier_Priority left =? tier_Priority right) && equalIDs (tier_AuthIDs left) (tier_AuthIDs right).

Fixpoint equalTiers (ls rs : list TierAdmission) : bool :=
  match ls, rs with
  | [], [] => true
  | l :: ls, r :: rs => equalTier l r && equalTiers ls rs
  | _, _ => false
  end.

Definition equalCPAAdmission (left right : CPAAdmissionState) : bool :=
  Bool.eqb (adm_Observed left) (adm_Observed right) && (adm_Priority left =? adm_Priority right)
  && equalIDs (adm_AuthIDs left) (adm_AuthIDs right) && equalTiers (adm_Tiers left) (adm_Tiers right).

(** [priorityByAuthID] of [ReplaceCPAAdmission]: a later tier overwrites an
    earlier one. *)
Definition lastTierPriority (tiers : list TierAdmission) (authID : string) : option Z :=
  foldl (fun found tier => if bool_decide (authID ∈ tier_AuthIDs tier) then Some (tier_Priority tier) else found) None tiers.

Definition admitAccount (value : CPAAdmissionState) (account : AccountState) : option AccountState :=
  if negb (bool_decide (a_AuthID account ∈ adm_AuthIDs value)) then None
  else Some (account <| a_Priority := default (adm_Priority value) (lastTierPriority (adm_Tiers value) (a_AuthID account)) |>).

Definition ReplaceCPAAdmission (s : PluginState) (value : CPAAdmissionState) : PluginState * Z :=
  if equalCPAAdmission (st_cpaAdmission s) value then (s, st_cpaAdmissionVersion s)
  else
    let s := s <| st_cpaAdmissionVersion := u64 (st_cpaAdmissionVersion s + 1) |> <| st_cpaAdmission := value |> in
    if negb (adm_Observed value) then (s, st_cpaAdmissionVersion s)
    else (s <| st_accounts := omap (admitAccount value) (st_accounts s) |>, st_cpaAdmissionVersion s).

Definition admissionCurrentLocked (s : PluginState) (authID : string) (version : Z) : bool :=
  if negb (st_cpaAdmissionVersion s =? version) || negb (adm_Observed (st_cpaAdmission s)) || String.eqb authID "" then false
  else bool_decide (authID ∈ adm_AuthIDs (st_cpaAdmission s)).

Definition BeginCPAAdmissionCall := admissionCurrentLocked.

Definition BeginCPAAdmissionVersionCall (s : PluginState) (version : Z) : bool :=
  adm_Observed (st_cpaAdmission s) && (st_cpaAdmissionVersion s =? version).

Definition CPAAdmissionVersionCurrent (s : PluginState) (version : Z) : bool := st_cpaAdmissionVersion s =? version.

Definition IsAuthAdmitted (s : PluginState) (authID : string) : bool :=
  if negb (adm_Observed (st_cpaAdmission s)) || String.eqb authID "" then false
  else bool_decide (authID ∈ adm_AuthIDs (st_cpaAdmission s)).

Definition ExecutionTokenCurrent (s : PluginState) (authID : string) (token : ExecutionToken) : bool :=
  match st_accounts s !! authKey authID with
  | None => false
  | Some a =>
      ValidateWriteback
        (mkBindingVersion (a_Instance a) (a_AdmissionEpoch a) (a_TierGeneration a) (a_LoginEpoch a) (a_CredentialFingerprint a))
        (mkWriteback token (a_LoginEpoch a) (a_CredentialFingerprint a))
  end.

(** The loop over the tiers: the first tier that lists the account. *)
Definition admissionPriorityLocked (s : PluginState) (authID : string) : Z :=
  match List.find (fun tier => bool_decide (authID ∈ tier_AuthIDs tier)) (adm_Tiers (st_cpaAdmission s)) with
  | Some tier => tier_Priority tier
  | None => adm_Priority (st_cpaAdmission s)
  end.

Definition AdmittedCPAPriorityVersioned (s : PluginState) (authID : string) : Z * Z * bool :=
  if negb (adm_Observed (st_cpaAdmission s)) || String.eqb authID "" then (0, st_cpaAdmissionVersion s, false)
  else if negb (bool_decide (authID ∈ adm_AuthIDs (st_cpaAdmission s))) then (0, st_cpaAdmissionVersion s, false)
  else (admissionPriorityLocked s authID, st_cpaAdmissionVersion s, true).

(** ** Accounts *)

Definition putAccount (s : PluginState) (key : string) (account : AccountState) : PluginState :=
  s <| st_accounts := <[key := account]> (st_accounts s) |>.

(** A successful refresh without error clears the failure bookkeeping. *)
Definition settleRefresh (account : AccountState) : AccountState :=
  if negb (IsZero (a_LastSuccessAt account)) && String.eqb (a_LastError account) ""
  then account <| a_Refresh := emptyRefresh |> else account.

Definition UpsertQuota (s : PluginState) (account : AccountState) : PluginState :=
  let key := accountStateKey account in
  if String.eqb key "" then s else putAccount s key (settleRefresh account).

Definition MarkAccountTemporaryExhausted (s : PluginState) (authID : string) (resetAt : Time) (reason : string) : PluginState :=
  if String.eqb authID "" then s
  else
    let account := default (emptyAccount <| a_AuthID := authID |>) (st_accounts s !! authKey authID) in
    putAccount s (authKey authID) (markTemporaryExhausted account resetAt reason).

Section lookup.
Context `{MapRange}.

(** The first account of the iteration with the given index. *)
Definition findByIndex (s : PluginState) (authIndex : string) : option (string * AccountState) :=
  List.find (fun '(_, a) => String.eqb (a_AuthIndex a) authIndex) (map_range (st_accounts s)).

Definition findAccountLocked (s : PluginState) (authID authIndex : string) : option (string * AccountState) :=
  match (if negb (String.eqb authID "") then st_accounts s !! authKey authID else None) with
  | Some account => Some (authKey authID, account)
  | None => if negb (String.eqb authIndex "") then findByIndex s authIndex else None
  end.

Definition MarkAccountTemporaryExhaustedByAuthIndex (s : PluginState) (authIndex : string) (resetAt : Time) (reason : string)
  : PluginState :=
  if String.eqb authIndex "" then s
  else
    match findByIndex s authIndex with
    | None => s
    | Some (key, account) => putAccount s key (markTemporaryExhausted account resetAt reason)
    end.

(** The account a failure is recorded on: a new one when the identifier is
    known and no account is cached. *)
Definition failureTarget (s : PluginState) (authID authIndex : string) : option (string * AccountState) :=
  match findAccountLocked s authID authIndex with
  | Some found => Some found
  | None =>
      if String.eqb authID "" then None
      else Some (authKey authID, emptyAccount <| a_AuthID := authID |> <| a_AuthIndex := authIndex |> <| a_Provider := "codex" |>)
  end.

Definition RecordAccountFailure (s : PluginState) (authID authIndex reason : string) (resetAt now : Time)
  : PluginState * option AccountState :=
  if String.eqb authID "" && String.eqb authIndex "" then (s, None)
  else
    match failureTarget s authID authIndex with
    | None => (s, None)
    | Some (key, account) =>
        let account := applyCircuitFailure account (NormalizeConfig (st_cfg s)) reason resetAt now in
        (putAccount s key account, Some account)
    end.

Definition RecordAccountSuccess (s : PluginState) (authID authIndex : string) (now : Time) : PluginState * option AccountState :=
  if String.eqb authID "" && String.eqb authIndex "" then (s, None)
  else
    match findAccountLocked s authID authIndex with
    | None => (s, None)
    | Some (key, account) =>
        let account := account <| a_TemporaryExhausted := false |> <| a_TemporaryResetAt := zeroTime |> in
        let account := applyCircuitSuccess account (NormalizeConfig (st_cfg s)) now in
        (putAccount s key account, Some account)
    end.

Definition ClearAccountTemporaryExhausted (s : PluginState) (authID : string) : PluginState * bool :=
  if String.eqb authID "" then (s, false)
  else
    match findAccountLocked s authID "" with
    | None => (s, false)
    | Some (key, account) =>
        if negb (a_TemporaryExhausted account) then (s, false)
        else (putAccount s key (account <| a_TemporaryExhausted := false |> <| a_TemporaryResetAt := zeroTime |>), true)
    end.

Definition ClearAccountAuthFailure (s : PluginState) (authID : string) : PluginState * bool :=
  if String.eqb authID "" then (s, false)
  else
    match findAccountLocked s authID "" with
    | None => (s, false)
    | Some (key, account) =>
        if negb (rf_AuthFailure (a_Refresh account)) then (s, false)
        else
          let refresh := (a_Refresh account) <| rf_AuthFailure := false |> <| rf_RetryAttempt := 0 |>
                           <| rf_NextRetryAt := zeroTime |> in
          (putAccount s key (account <| a_Refresh := refresh |>), true)
    end.

(** refresh.go *)
Definition windowShowsRemainingCapacity (window : option QuotaWindow) (now : Time) : bool :=
  match window with
  | None => false
  | Some w =>
      if qw_Exhausted w && (IsZero (qw_ResetAt w) || After (qw_ResetAt w) now) then false
      else match qw_UsedPercent w with
           | Some used => f_lt f_zero (f_sub (f_of_Z 100) used)
           | None => true
           end
  end.

Definition quotaRefreshConfirmsReset (account : AccountState) (now : Time) : bool :=
  if IsZero (a_LastSuccessAt account) then false
  else
    let longWindow := pq_LongWindow (a_Quota account) in
    if match longWindow with Some _ => negb (windowShowsRemainingCapacity longWindow now) | None => false end then false
    else
      match pq_FiveHour (a_Quota account) with
      | Some fiveHour =>
          if negb (windowShowsRemainingCapacity (Some fiveHour) now) then false
          else negb (Equal (qw_ResetAt fiveHour) (a_TemporaryResetAt account))
      | None =>
          match longWindow with
          | Some long => negb (IsZero (qw_ResetAt long)) && After (qw_ResetAt long) (a_TemporaryResetAt account)
          | None => false
          end
      end.

(** The reconciliation both quota paths share. *)
Definition reconcileMarker (account : AccountState) (now : Time) : AccountState :=
  if a_TemporaryExhausted account && quotaRefreshConfirmsReset account now
  then account <| a_TemporaryExhausted := false |> <| a_TemporaryResetAt := zeroTime |> <| a_LastError := "" |>
  else account.

Definition mergeQuota (account : AccountState) (quota : ParsedQuota) : AccountState :=
  let account := match pq_FiveHour quota with
                 | Some w => account <| a_Quota := (a_Quota account) <| pq_FiveHour := Some w |> |> | None => account end in
  let account := match pq_LongWindow quota with
                 | Some w => account <| a_Quota := (a_Quota account) <| pq_LongWindow := Some w |> |> | None => account end in
  if bool_decide (pq_Family quota = AccountFamilyNone) then account
  else account <| a_Quota := (a_Quota account) <| pq_Family := pq_Family quota |> |> <| a_Family := pq_Family quota |>.

(** The cached account with the observed windows, fresh as of now. *)
Definition observedAccount (account : AccountState) (quota : ParsedQuota) (now : Time) : AccountState :=
  (mergeQuota account quota) <| a_LastRefreshAt := now |> <| a_LastSuccessAt := now |>
    <| a_LastObservedAt := now |> <| a_Stale := false |>.

Definition ObserveAccountQuota (s : PluginState) (authID authIndex : string) (quota : ParsedQuota) (clock now : Time)
  : PluginState * option AccountState :=
  if String.eqb authID "" && String.eqb authIndex "" then (s, None)
  else
    let now := now_or clock now in
    match findAccountLocked s authID authIndex with
    | None => (s, None)
    | Some (key, account) =>
        let account := reconcileMarker (observedAccount account quota now) now in
        (putAccount s key account, Some account)
    end.

(** ** Refresh failures and results *)

Definition retryDelayForAttempt (cfg : Config) (attempt : Z) : Duration :=
  let delays := RefreshRetryDelays (NormalizeConfig cfg) in
  if bool_decide (delays = []) then Minute
  else
    let index := i64 (attempt - 1) in
    let index := if index <? 0 then 0 else index in
    let index := if Z.of_nat (length delays) <=? index then Z.of_nat (length delays) - 1 else index in
    nth (Z.to_nat index) delays 0.

Definition authFailureRetryDeadlineLocked (s : PluginState) (now : Time) (kind : RefreshFailureKind) : Time :=
  if negb (bool_decide (kind = RefreshFailureAuth)) then zeroTime
  else Add now (AuthFailureRetryInterval (NormalizeConfig (st_cfg s))).

(** What both failure paths do to the account. *)
Definition noteRefreshFailure (s : PluginState) (account : AccountState) (kind : RefreshFailureKind) (message : string) (now : Time)
  : AccountState :=
  let refresh := (a_Refresh account) <| rf_LastFailureKind := kind |> <| rf_LastFailureAt := now |> in
  let refresh :=
    if bool_decide (kind = RefreshFailureAuth) || bool_decide (kind = RefreshFailureLocal) then
      refresh <| rf_AuthFailure := bool_decide (kind = RefreshFailureAuth) |>
              <| rf_NextRetryAt := authFailureRetryDeadlineLocked s now kind |>
    else
      let attempt := i64 (rf_RetryAttempt refresh + 1) in
      refresh <| rf_AuthFailure := false |> <| rf_RetryAttempt := attempt |>
              <| rf_NextRetryAt := Add now (retryDelayForAttempt (NormalizeConfig (st_cfg s)) attempt) |> in
  account <| a_LastError := message |> <| a_Refresh := refresh |>.

Definition RecordRefreshFailure (s : PluginState) (authID authIndex : string) (kind : RefreshFailureKind) (message : string)
    (clock now : Time) : PluginState * option AccountState :=
  let now := now_or clock now in
  if String.eqb authID "" && String.eqb authIndex "" then (s, None)
  else
    match failureTarget s authID authIndex with
    | None => (s, None)
    | Some (key, account) =>
        let account := noteRefreshFailure s account kind message now in
        (putAccount s key account, Some account)
    end.

Definition ApplyQuotaRefreshFailureIfAdmissionCurrent (s : PluginState) (account : AccountState) (version : Z)
    (kind : RefreshFailureKind) (message : string) (clock now : Time) : PluginState * bool :=
  let now := now_or clock now in
  if negb (admissionCurrentLocked s (a_AuthID account) version) then (s, false)
  else
    let account := account <| a_Priority := admissionPriorityLocked s (a_AuthID account) |> in
    let account := noteRefreshFailure s account kind message now in
    let key := accountStateKey account in
    if String.eqb key "" then (s, false) else (putAccount s key account, true).

Definition ApplyQuotaRefreshSuccessIfAdmissionCurrent (s : PluginState) (account : AccountState) (version : Z) (clock now : Time)
  : PluginState * bool :=
  let now := now_or clock now in
  if negb (admissionCurrentLocked s (a_AuthID account) version) then (s, false)
  else
    let account := account <| a_Priority := admissionPriorityLocked s (a_AuthID account) |> in
    let account := settleRefresh account in
    let account := reconcileMarker account now in
    let account := applyCircuitSuccess account (NormalizeConfig (st_cfg s)) now in
    let key := accountStateKey account in
    if String.eqb key "" then (s, false) else (putAccount s key account, true).

(** ** Activity, scans, logs *)

Definition RecordSelection (s : PluginState) (authID reason : string) : PluginState :=
  s <| st_lastSelected := authID |> <| st_lastReason := reason |>.

Definition RecordCodexActivity (s : PluginState) (clock now : Time) : PluginState :=
  let now := now_or clock now in
  if IsZero (st_lastCodexActivityAt s) || After now (st_lastCodexActivityAt s)
  then s <| st_lastCodexActivityAt := now |> else s.

Definition RecordAuthScan (s : PluginState) (codexAuthCount : Z) (clock now : Time) : PluginState :=
  let codexAuthCount := if codexAuthCount <? 0 then 0 else codexAuthCount in
  s <| st_lastAuthScanAt := now_or clock now |> <| st_codexAuthCount := codexAuthCount |>.

Definition RecordAuthScanIfAdmissionCurrent (s : PluginState) (version codexAuthCount : Z) (clock now : Time) : PluginState * bool :=
  if negb (st_cpaAdmissionVersion s =? version) then (s, false) else (RecordAuthScan s codexAuthCount clock now, true).

Definition RefreshActive (s : PluginState) (clock now : Time) : bool :=
  negb (IsZero (st_lastCodexActivityAt s))
  && Before (now_or clock now) (Add (st_lastCodexActivityAt s) (RefreshActiveWindow (NormalizeConfig (st_cfg s)))).

Definition retainedLogs (logs : list LogEntry) (cfg : Config) (now : Time) : list LogEntry :=
  let cfg := NormalizeConfig cfg in
  let cutoff := Add now (i64 (- LogRetention cfg)) in
  let retained := filter (fun log => IsZero (log_Time log) || negb (Before (log_Time log) cutoff) = true) logs in
  if MaxLogEntries cfg <? Z.of_nat (length retained)
  then drop (length retained - Z.to_nat (MaxLogEntries cfg)) retained else retained.

Definition RecordLog (s : PluginState) (level event message : string) (fields : gmap string any_value) (clock now : Time)
  : PluginState :=
  let now := now_or clock now in
  let logs := st_logs s ++ [mkLog now level event message fields] in
  s <| st_logs := retainedLogs logs (NormalizeConfig (st_cfg s)) now |>.

Definition RecordLogIfAdmissionCurrent (s : PluginState) (authID : string) (version : Z) (level event message : string)
    (fields : gmap string any_value) (clock now : Time) : PluginState * bool :=
  if negb (admissionCurrentLocked s authID version) then (s, false)
  else (RecordLog s level event message fields clock now, true).

(** ** Legacy transactions (the clone of the state is the state itself) *)

Record LegacyEffectJournal := mkJournal { j_Accounts : list AccountState; j_Logs : list LogEntry }.

Definition legacyEffectJournal (s : PluginState) (authID : string) (baselineLogs : Z) : LegacyEffectJournal :=
  mkJournal (filter (fun a => a_AuthID a = authID) ((map_range (st_accounts s)).*2))
            (if baselineLogs <? Z.of_nat (length (st_logs s)) then drop (Z.to_nat baselineLogs) (st_logs s) else []).

Definition applyLegacyEffectJournal (s : PluginState) (j : LegacyEffectJournal) : PluginState :=
  let s := foldl (fun s account => let key := accountStateKey account in
                                   if String.eqb key "" then s else putAccount s key account) s (j_Accounts j) in
  s <| st_logs := st_logs s ++ j_Logs j |>.

(** ** Snapshots and refresh scheduling *)

Definition snapshotAccount (cfg : Config) (now : Time) (account : AccountState) : AccountState :=
  account <| a_Stale := negb (IsZero (a_LastSuccessAt account)) && (StaleAfter cfg <? Sub now (a_LastSuccessAt account)) |>
          <| a_Circuit := effectiveCircuitState (a_Circuit account) now |>.

Definition keyLess (a b : AccountState) : bool := str_lt (accountStateKey a) (accountStateKey b).

Definition Snapshot (s : PluginState) (now : Time) : StateSnapshot :=
  let accounts := snapshotAccount (st_cfg s) now <$> (map_range (st_accounts s)).*2 in
  {| ss_Config := st_cfg s;
     ss_Accounts := ApplyAnnotations (sort_slice keyLess accounts) (st_annotations s);
     ss_CPAAdmission := st_cpaAdmission s; ss_CPAAdmissionVersion := st_cpaAdmissionVersion s;
     ss_Annotations := st_annotations s; ss_Logs := retainedLogs (st_logs s) (NormalizeConfig (st_cfg s)) now;
     ss_LastSelected := st_lastSelected s; ss_LastReason := st_lastReason s;
     ss_LastCodexActivityAt := st_lastCodexActivityAt s; ss_LastAuthScanAt := st_lastAuthScanAt s;
     ss_CodexAuthCount := st_codexAuthCount s; ss_Now := now |}.

Definition refreshTriggerPending (lastSuccessAt triggerAt : Time) : bool :=
  negb (IsZero triggerAt) && (IsZero lastSuccessAt || Before lastSuccessAt triggerAt).

Definition resetDue (window : option QuotaWindow) (delay : Duration) (lastSuccessAt now : Time) : bool :=
  match window with
  | None => false
  | Some w =>
      if IsZero (qw_ResetAt w) then false
      else let triggerAt := Add (qw_ResetAt w) delay in
           refreshTriggerPending lastSuccessAt triggerAt && negb (After triggerAt now)
  end.

Definition accountRefreshDue (account : AccountState) (cfg : Config) (now : Time) : bool * string :=
  let cfg := NormalizeConfig cfg in
  let circuit := a_Circuit account in
  let refresh := a_Refresh account in
  if bool_decide (rf_LastFailureKind refresh = RefreshFailureLocal) then (false, "local_failure")
  else if negb (IsZero (cb_NextProbeAt circuit)) && After (cb_NextProbeAt circuit) now then (false, "circuit_wait")
  else if negb (IsZero (cb_NextProbeAt circuit))
          && (bool_decide (cb_State circuit = CircuitStateOpen)
              || bool_decide (cb_EffectiveState circuit = CircuitStateHalfOpen) || (0 <? cb_FailureCount circuit))
  then (true, "circuit_probe_due")
  else if negb (IsZero (rf_NextRetryAt refresh)) && After (rf_NextRetryAt refresh) now then (false, "retry_wait")
  else if negb (IsZero (rf_NextRetryAt refresh)) && negb (After (rf_NextRetryAt refresh) now) then (true, "retry_due")
  else if IsZero (a_LastSuccessAt account) then (true, "never_refreshed")
  else if StaleAfter cfg <? Sub now (a_LastSuccessAt account) then (true, "stale")
  else if negb (After (Add (a_LastSuccessAt account) (QuotaRefreshInterval cfg)) now) then (true, "refresh_interval_due")
  else if EnableResetProbe cfg && resetProbeDueAny (a_ResetProbes account) now then (true, "reset_probe_check_due")
  else if resetDue (pq_FiveHour (a_Quota account)) (RefreshAfterResetDelay cfg) (a_LastSuccessAt account) now
  then (true, "five_hour_reset_due")
  else if resetDue (pq_LongWindow (a_Quota account)) (RefreshAfterResetDelay cfg) (a_LastSuccessAt account) now
  then (true, "long_window_reset_due")
  else if a_TemporaryExhausted account && negb (IsZero (a_TemporaryResetAt account))
          && (let triggerAt := Add (a_TemporaryResetAt account) (RefreshAfterResetDelay cfg) in
              refreshTriggerPending (a_LastSuccessAt account) triggerAt && negb (After triggerAt now))
  then (true, "temporary_reset_due")
  else (false, "").

Definition dueLess : AccountState -> AccountState -> bool :=
  fun a b => if negb (a_Priority a =? a_Priority b) then a_Priority b <? a_Priority a else keyLess a b.

Definition withDueReason (cfg : Config) (now : Time) (account : AccountState) : option AccountState :=
  let '(due, reason) := accountRefreshDue account cfg now in
  if due then Some (account <| a_Refresh := (a_Refresh account) <| rf_DueReason := reason |> |>) else None.

Definition DueAccounts (s : PluginState) (clock now : Time) : list AccountState :=
  let now := now_or clock now in
  sort_slice dueLess (omap (withDueReason (NormalizeConfig (st_cfg s)) now) ((map_range (st_accounts s)).*2)).

(** [consider]: the earliest of the times, none before now. *)
Definition consider (now next t : Time) : Time :=
  if IsZero t then next
  else
    let t := if negb (After t now) then now else t in
    if IsZero next || Before t next then t else next.

(** The times one account contributes, in order. *)
Definition resetTrigger (cfg : Config) (lastSuccessAt resetAt : Time) : list Time :=
  if IsZero resetAt then []
  else let triggerAt := Add resetAt (RefreshAfterResetDelay cfg) in
       if refreshTriggerPending lastSuccessAt triggerAt then [triggerAt] else [].

Definition windowReset (window : option QuotaWindow) : Time := match window with Some w => qw_ResetAt w | None => zeroTime end.

Definition accountDeadlines (cfg : Config) (account : AccountState) : list Time :=
  if bool_decide (rf_LastFailureKind (a_Refresh account) = RefreshFailureLocal) then []
  else if negb (IsZero (cb_NextProbeAt (a_Circuit account))) then [cb_NextProbeAt (a_Circuit account)]
  else if negb (IsZero (rf_NextRetryAt (a_Refresh account))) then [rf_NextRetryAt (a_Refresh account)]
  else if IsZero (a_LastSuccessAt account) then []
  else
    (if EnableResetProbe cfg then
       rp_NextCheckAt <$> filter (fun p => rp_Status p = ResetProbeStatusPending /\ IsZero (rp_NextCheckAt p) = false)
                            ((map_range (a_ResetProbes account)).*2)
     else [])
    ++ resetTrigger cfg (a_LastSuccessAt account) (windowReset (pq_FiveHour (a_Quota account)))
    ++ resetTrigger cfg (a_LastSuccessAt account) (windowReset (pq_LongWindow (a_Quota account)))
    ++ (if a_TemporaryExhausted account then resetTrigger cfg (a_LastSuccessAt account) (a_TemporaryResetAt account) else []).

Definition NextRefreshDueAt (s : PluginState) (clock now : Time) : Time :=
  let now := now_or clock now in
  let cfg := NormalizeConfig (st_cfg s) in
  if IsZero (st_lastCodexActivityAt s)
     || negb (Before now (Add (st_lastCodexActivityAt s) (RefreshActiveWindow cfg))) then zeroTime
  else foldl (consider now) zeroTime ((map_range (st_accounts s)).*2 ≫= accountDeadlines cfg).
End lookup.

(** ** The state machine *)

Inductive state_op :=
  | OpReplaceConfig (cfg : Config)
  | OpSetAnnotations (a : AnnotationState)
  | OpReplaceAdmission (value : CPAAdmissionState)
  | OpUpsert (account : AccountState)
  | OpMarkExhausted (authID : string) (resetAt : Time) (reason : string)
  | OpMarkExhaustedByIndex (authIndex : string) (resetAt : Time) (reason : string)
  | OpFailure (authID authIndex reason : string) (resetAt now : Time)
  | OpSuccess (authID authIndex : string) (now : Time)
  | OpClearExhausted (authID : string)
  | OpClearAuthFailure (authID : string)
  | OpObserveQuota (authID authIndex : string) (quota : ParsedQuota) (clock now : Time)
  | OpRefreshFailure (authID authIndex : string) (kind : RefreshFailureKind) (message : string) (clock now : Time)
  | OpApplyFailure (account : AccountState) (version : Z) (kind : RefreshFailureKind) (message : string) (clock now : Time)
  | OpApplySuccess (account : AccountState) (version : Z) (clock now : Time)
  | OpSelection (authID reason : string)
  | OpActivity (clock now : Time)
  | OpAuthScan (count : Z) (clock now : Time)
  | OpAuthScanIfCurrent (version count : Z) (clock now : Time)
  | OpLog (level event message : string) (fields : gmap string any_value) (clock now : Time)
  | OpLogIfCurrent (authID : string) (version : Z) (level event message : string) (fields : gmap string any_value) (clock now : Time)
  | OpApplyJournal (j : LegacyEffectJournal).

Definition state_apply `{MapRange} (s : PluginState) (op : state_op) : PluginState :=
  match op with
  | OpReplaceConfig cfg => ReplaceConfig s cfg
  | OpSetAnnotations a => SetAnnotations s a
  | OpReplaceAdmission v => (ReplaceCPAAdmission s v).1
  | OpUpsert a => UpsertQuota s a
  | OpMarkExhausted id r reason => MarkAccountTemporaryExhausted s id r reason
  | OpMarkExhaustedByIndex i r reason => MarkAccountTemporaryExhaustedByAuthIndex s i r reason
  | OpFailure id i reason r now => (RecordAccountFailure s id i reason r now).1
  | OpSuccess id i now => (RecordAccountSuccess s id i now).1
  | OpClearExhausted id => (ClearAccountTemporaryExhausted s id).1
  | OpClearAuthFailure id => (ClearAccountAuthFailure s id).1
  | OpObserveQuota id i q c now => (ObserveAccountQuota s id i q c now).1
  | OpRefreshFailure id i k m c now => (RecordRefreshFailure s id i k m c now).1
  | OpApplyFailure a v k m c now => (ApplyQuotaRefreshFailureIfAdmissionCurrent s a v k m c now).1
  | OpApplySuccess a v c now => (ApplyQuotaRefreshSuccessIfAdmissionCurrent s a v c now).1
  | OpSelection id r => RecordSelection s id r
  | OpActivity c now => RecordCodexActivity s c now
  | OpAuthScan n c now => RecordAuthScan s n c now
  | OpAuthScanIfCurrent v n c now => (RecordAuthScanIfAdmissionCurrent s v n c now).1
  | OpLog l e m f c now => RecordLog s l e m f c now
  | OpLogIfCurrent id v l e m f c now => (RecordLogIfAdmissionCurrent s id v l e m f c now).1
  | OpApplyJournal j => applyLegacyEffectJournal s j
  end.

(** The states the plugin can reach; every step may iterate over the maps in
    its own order. *)
Inductive state_reachable : PluginState -> Prop :=
  | reach_new cfg : state_reachable (NewPluginState cfg)
  | reach_op (mr : MapRange) s op : state_reachable s -> state_reachable (@state_apply mr s op).

(** Every account is stored under its own key. *)
Definition keys_canonical (s : PluginState) : Prop :=
  map_Forall (fun key a => key = accountStateKey a) (st_accounts s).

Definition same_identity (a b : AccountState) : Prop :=
  a_AuthID a = a_AuthID b /\ a_ChatGPTAccountID a = a_ChatGPTAccountID b /\ a_Instance a = a_Instance b
  /\ a_Email a = a_Email b /\ a_AuthIndex a = a_AuthIndex b.

Lemma same_identity_key a b : same_identity a b -> accountStateKey a = accountStateKey b.
Proof. intros (H1 & H2 & H3 & H4 & H5). unfold accountStateKey. by rewrite H1, H2, H3, H4, H5. Qed.

Lemma identity_failure a cfg reason r now : same_identity (applyCircuitFailure a cfg reason r now) a.
Proof. by unfold applyCircuitFailure. Qed.
Lemma identity_success a cfg now : same_identity (applyCircuitSuccess a cfg now) a.
Proof. unfold applyCircuitSuccess. by repeat branch. Qed.
Lemma identity_settle a : same_identity (settleRefresh a) a.
Proof. unfold settleRefresh. by branch. Qed.
Lemma identity_reconcile a now : same_identity (reconcileMarker a now) a.
Proof. unfold reconcileMarker. by branch. Qed.
Lemma identity_merge a q : same_identity (mergeQuota a q) a.
Proof. unfold mergeQuota. by repeat branch. Qed.

(** Each of these changes nothing else of the state than the accounts. *)
Lemma put_canonical s key a : keys_canonical s -> key = accountStateKey a -> keys_canonical (putAccount s key a).
Proof. intros Hs ->. unfold keys_canonical, putAccount. simpl. by apply map_Forall_insert_2. Qed.

Lemma accountStateKey_auth a : a_AuthID a <> "" -> accountStateKey a = authKey (a_AuthID a).
Proof. intros H. unfold accountStateKey. by rewrite (proj2 (String.eqb_neq _ _) H). Qed.

Section steps.
Context {mr : MapRange}.

Lemma findByIndex_stored s i key a : findByIndex s i = Some (key, a) -> st_accounts s !! key = Some a.
Proof. unfold findByIndex. intros [Hin _]%find_some. by apply elem_of_map_range, list_elem_of_In. Qed.

Lemma findAccount_stored s id i key a : findAccountLocked s id i = Some (key, a) -> st_accounts s !! key = Some a.
Proof.
  unfold findAccountLocked. destruct (if negb (String.eqb id "") then _ else None) as [a'|] eqn:E.
  - intros [= <- <-]. by destruct (negb (String.eqb id "")).
  - destruct (negb (String.eqb i "")); [|done]. apply findByIndex_stored.
Qed.

Lemma failureTarget_canonical s id i key a :
  keys_canonical s -> failureTarget s id i = Some (key, a) -> key = accountStateKey a.
Proof.
  intros Hs. unfold failureTarget. destruct (findAccountLocked s id i) as [[k a']|] eqn:E.
  - intros [= <- <-]. by apply Hs, (findAccount_stored s id i).
  - destruct (String.eqb_spec id ""); [done|]. intros [= <- <-]. by rewrite accountStateKey_auth.
Qed.

Lemma put_changed s key a b :
  keys_canonical s -> key = accountStateKey a -> same_identity b a -> keys_canonical (putAccount s key b).
Proof. intros Hs -> Hi. apply put_canonical; [done|]. symmetry. by apply same_identity_key. Qed.

Lemma admitAccount_identity v a b : admitAccount v a = Some b -> same_identity b a.
Proof. unfold admitAccount. branch; [done|]. by intros [= <-]. Qed.

Lemma journal_canonical s l :
  keys_canonical s ->
  keys_canonical (foldl (fun s a => let key := accountStateKey a in if String.eqb key "" then s else putAccount s key a) s l).
Proof.
  revert s. induction l as [|a l IH]; intros s Hs; simpl; [done|]. apply IH.
  destruct (String.eqb _ _); [done|]. by apply put_canonical.
Qed.

Lemma state_apply_canonical s op : keys_canonical s -> keys_canonical (state_apply s op).
Proof.
  intros Hs. destruct op; cbn [state_apply]; try done.
  - unfold ReplaceCPAAdmission. branch; [done|]. simpl. branch; [done|]. unfold keys_canonical. simpl.
    intros key b (a & Ha & Hb)%lookup_omap_Some. rewrite (Hs key a Hb). symmetry.
    by apply same_identity_key, (admitAccount_identity value).
  - unfold UpsertQuota. destruct (String.eqb _ _); [done|]. apply put_canonical; [done|].
    symmetry. apply same_identity_key, identity_settle.
  - unfold MarkAccountTemporaryExhausted. destruct (String.eqb_spec authID ""); [done|].
    destruct (st_accounts s !! authKey authID) as [a|] eqn:E; simpl.
    + apply (put_changed s _ a); [done|by apply Hs|done].
    + apply put_canonical; [done|]. by rewrite accountStateKey_auth.
  - unfold MarkAccountTemporaryExhaustedByAuthIndex. destruct (String.eqb _ _); [done|].
    destruct (findByIndex s authIndex) as [[k a]|] eqn:E; [|done].
    apply (put_changed s _ a); [done|by apply Hs, (findByIndex_stored s authIndex)|done].
  - unfold RecordAccountFailure. branch; [done|]. destruct (failureTarget s authID authIndex) as [[k a]|] eqn:E; [|done]. cbn [fst].
    apply (put_changed s _ a); [done|by eapply failureTarget_canonical|apply identity_failure].
  - unfold RecordAccountSuccess. branch; [done|]. destruct (findAccountLocked s authID authIndex) as [[k a]|] eqn:E; [|done]. cbn [fst].
    apply (put_changed s _ a); [done|by apply Hs, (findAccount_stored s authID authIndex)|].
    by destruct (identity_success (a <| a_TemporaryExhausted := false |> <| a_TemporaryResetAt := zeroTime |>)
      (NormalizeConfig (st_cfg s)) now) as (? & ? & ? & ? & ?).
  - unfold ClearAccountTemporaryExhausted. branch; [done|]. destruct (findAccountLocked s authID "") as [[k a]|] eqn:E; [|done].
    branch; [done|]. apply (put_changed s _ a); [done|by apply Hs, (findAccount_stored s authID "")|done].
  - unfold ClearAccountAuthFailure. branch; [done|]. destruct (findAccountLocked s authID "") as [[k a]|] eqn:E; [|done].
    branch; [done|]. apply (put_changed s _ a); [done|by apply Hs, (findAccount_stored s authID "")|done].
  - unfold ObserveAccountQuota. branch; [done|]. cbv zeta. destruct (findAccountLocked s authID authIndex) as [[k a]|] eqn:E; [|done]. cbn [fst].
    apply (put_changed s _ a); [done|by apply Hs, (findAccount_stored s authID authIndex)|].
    destruct (identity_merge a quota) as (? & ? & ? & ? & ?).
    destruct (identity_reconcile (observedAccount a quota (now_or clock now)) (now_or clock now)) as (I1 & I2 & I3 & I4 & I5).
    unfold same_identity. rewrite I1, I2, I3, I4, I5. done.
  - unfold RecordRefreshFailure. cbv zeta. branch; [done|]. destruct (failureTarget s authID authIndex) as [[k a]|] eqn:E; [|done]. cbn [fst].
    apply (put_changed s _ a); [done|by eapply failureTarget_canonical|done].
  - unfold ApplyQuotaRefreshFailureIfAdmissionCurrent. cbv zeta. branch; [done|]. branch; [done|]. by apply put_canonical.
  - unfold ApplyQuotaRefreshSuccessIfAdmissionCurrent. cbv zeta. branch; [done|]. branch; [done|]. by apply put_canonical.
  - unfold RecordCodexActivity. cbv zeta. by branch.
  - unfold RecordAuthScanIfAdmissionCurrent. by branch.
  - unfold RecordLogIfAdmissionCurrent. by branch.
  - unfold applyLegacyEffectJournal. cbv zeta. by apply (journal_canonical s (j_Accounts j)).
Qed.
End steps.

Lemma reachable_canonical s : state_reachable s -> keys_canonical s.
Proof. induction 1; [by apply map_Forall_empty|by apply state_apply_canonical]. Qed.

(** ** Order of iteration *)

Lemma keyLess_weak_order : weak_order_on keyLess (fun _ => True).
Proof. apply (str_weak_order _ accountStateKey). Qed.

Lemma dueLess_weak_order : weak_order_on dueLess (fun _ => True).
Proof.
  assert (forall a b, dueLess a b = lex (fun a b => a_Priority b <? a_Priority a) keyLess a b) as Hl.
  { intros a b. unfold dueLess, lex. destruct (Z.eqb_spec (a_Priority a) (a_Priority b)) as [E|E]; simpl.
    - by rewrite E, Z.ltb_irrefl.
    - destruct (Z.ltb_spec (a_Priority b) (a_Priority a)); [done|].
      destruct (Z.ltb_spec (a_Priority a) (a_Priority b)); [done|lia]. }
  pose proof (lex_weak_order (fun _ => True) _ _ (key_weak_order_desc _ a_Priority) keyLess_weak_order) as W.
  split; intros *; rewrite !Hl; [apply (wo_asym _ _ W)|apply (wo_split _ _ W)].
Qed.

Lemma keyLess_total a b : keyLess a b = false -> keyLess b a = false -> accountStateKey a = accountStateKey b.
Proof. apply str_lt_total. Qed.

(** Accounts built from the stored ones, one each, keep distinct keys. *)
Lemma stored_by_key s (f : AccountState -> option AccountState) a b :
  keys_canonical s -> (forall x y, f x = Some y -> same_identity y x) ->
  a ∈ omap f ((map_to_list (st_accounts s)).*2) -> b ∈ omap f ((map_to_list (st_accounts s)).*2) ->
  accountStateKey a = accountStateKey b -> a = b.
Proof.
  intros Hs Hf (a0 & Ha & Ea)%list_elem_of_omap (b0 & Hb & Eb)%list_elem_of_omap E.
  apply list_elem_of_fmap in Ha as ([ka a1] & -> & Ha), Hb as ([kb b1] & -> & Hb). simpl in *.
  apply elem_of_map_to_list in Ha, Hb. pose proof (Hs _ _ Ha) as Ka. pose proof (Hs _ _ Hb) as Kb. simpl in Ka, Kb.
  rewrite (same_identity_key _ _ (Hf _ _ Ea)), (same_identity_key _ _ (Hf _ _ Eb)), <- Ka, <- Kb in E. subst kb.
  rewrite Ha in Hb. injection Hb as <-. congruence.
Qed.

Lemma ranges_perm (mr1 mr2 : MapRange) (m : gmap string AccountState) :
  (@map_range mr1 _ _ _ _ m).*2 ≡ₚ (@map_range mr2 _ _ _ _ m).*2.
Proof. by rewrite (@map_range_perm mr1), (@map_range_perm mr2). Qed.

Lemma sorted_accounts_order_free (mr1 mr2 : MapRange) s less (f : AccountState -> option AccountState) :
  keys_canonical s -> (forall x y, f x = Some y -> same_identity y x) ->
  weak_order_on less (fun _ => True) ->
  (forall a b, less a b = false -> less b a = false -> accountStateKey a = accountStateKey b) ->
  sort_slice less (omap f ((@map_range mr1 _ _ _ _ (st_accounts s)).*2))
  = sort_slice less (omap f ((@map_range mr2 _ _ _ _ (st_accounts s)).*2)).
Proof.
  intros Hs Hf W T. apply sort_slice_perm_eq; [done| |by rewrite (ranges_perm mr1 mr2)].
  intros a b Ha Hb H1 H2. rewrite (@map_range_perm mr1) in Ha, Hb. by apply (stored_by_key s f); auto.
Qed.

(** ** Properties *)

(** In every reachable state each account is stored under the key its own
    fields determine, so that no two cached accounts share a non-empty
    authentication identifier. *)
Theorem accounts_keyed_by_identity (s : PluginState) :
  state_reachable s ->
  map_Forall (fun key a => key = accountStateKey a) (st_accounts s)
  /\ forall k1 k2 a b, st_accounts s !! k1 = Some a -> st_accounts s !! k2 = Some b ->
       a_AuthID a = a_AuthID b -> a_AuthID a <> "" -> k1 = k2.
Proof.
  intros Hr%reachable_canonical. split; [exact Hr|]. intros k1 k2 a b Ha Hb E Hne.
  rewrite (Hr _ _ Ha), (Hr _ _ Hb), !accountStateKey_auth by congruence. by rewrite E.
Qed.

Definition example_reached : PluginState :=
  @state_apply canonical_range
    (@state_apply canonical_range (NewPluginState DefaultConfig)
       (OpFailure "a" "0" "usage_limit_reached" zeroTime 10))
    (OpUpsert (emptyAccount <| a_AuthID := "b" |> <| a_LastSuccessAt := 10 |>)).
Lemma example_reached_reachable : state_reachable example_reached.
Proof. by repeat constructor. Qed.

Lemma accounts_keyed_by_identity_witness :
  map_Forall (fun key a => key = accountStateKey a) (st_accounts example_reached)
  /\ size (st_accounts example_reached) = 2%nat.
Proof.
  split; [|vm_compute; reflexivity].
  exact (proj1 (accounts_keyed_by_identity example_reached example_reached_reachable)).
Defined.

(** Snapshots are deterministic: in a reachable state the snapshot and the
    list of due accounts are the same whatever order the runtime iterates over
    the account map in. *)
Theorem snapshot_deterministic (mr1 mr2 : MapRange) (s : PluginState) (clock now : Time) :
  state_reachable s ->
  @Snapshot mr1 s now = @Snapshot mr2 s now /\ @DueAccounts mr1 s clock now = @DueAccounts mr2 s clock now.
Proof.
  intros Hs%reachable_canonical. split.
  - unfold Snapshot. cbv zeta. f_equal. f_equal.
    assert (forall l : list AccountState, snapshotAccount (st_cfg s) now <$> l = omap (fun a => Some (snapshotAccount (st_cfg s) now a)) l) as Ho.
    { induction l as [|x l IH]; simpl; [done|]. by f_equal. }
    rewrite !Ho. apply sorted_accounts_order_free; auto using keyLess_weak_order, keyLess_total. by intros x y [= <-].
  - unfold DueAccounts. cbv zeta. apply sorted_accounts_order_free; auto using dueLess_weak_order.
    + unfold withDueReason. intros x y. destruct (accountRefreshDue _ _ _) as [[|] r]; [|done]. by intros [= <-].
    + intros a b. unfold dueLess. destruct (Z.eqb_spec (a_Priority a) (a_Priority b)) as [E|E]; simpl.
      * rewrite E, Z.eqb_refl. apply keyLess_total.
      * rewrite (proj2 (Z.eqb_neq _ _)) by lia. simpl. lia.
Qed.

(** A runtime that iterates in the opposite order. *)
Definition reversed_range : MapRange := {|
  map_range := fun K V _ _ m => reverse (map_to_list m);
  map_range_perm := fun K V _ _ m => reverse_Permutation (map_to_list m) |}.

Lemma snapshot_deterministic_witness :
  @Snapshot canonical_range example_reached 20 = @Snapshot reversed_range example_reached 20.
Proof. exact (proj1 (snapshot_deterministic canonical_range reversed_range example_reached 20 20 example_reached_reachable)). Defined.

Lemma equalIDs_spec l r : equalIDs l r = true <-> l = r.
Proof.
  unfold equalIDs. rewrite andb_true_iff, !bool_decide_eq_true. split; [|by intros ->].
  intros [Hsz Hsub]. apply set_eq. intros x. split; [set_solver|].
  intros Hx. destruct (decide (x ∈ l)) as [|Hn]; [done|]. exfalso.
  assert (size ({[x]} ∪ l) <= size r)%nat as Hle by (apply subseteq_size; set_solver).
  rewrite size_union, size_singleton in Hle by set_solver. lia.
Qed.

Lemma equalTiers_spec l r : equalTiers l r = true <-> l = r.
Proof.
  revert r. induction l as [|t l IH]; intros [|t' r]; simpl; try done.
  rewrite andb_true_iff, IH. unfold equalTier. rewrite andb_true_iff, Z.eqb_eq, equalIDs_spec.
  destruct t, t'; simpl. naive_solver.
Qed.

Lemma equalCPAAdmission_spec l r : equalCPAAdmission l r = true <-> l = r.
Proof.
  unfold equalCPAAdmission. rewrite !andb_true_iff, eqb_true_iff, Z.eqb_eq, equalIDs_spec, equalTiers_spec.
  destruct l, r; simpl. naive_solver.
Qed.

(** Replacing the admission: the version changes exactly when the admission
    does; an observed admission leaves only accounts it admits, stored under the
    same keys, with nothing but their priority changed; an unchanged or
    unobserved admission leaves the accounts alone. *)
Theorem replace_admission_effect (s : PluginState) (value : CPAAdmissionState) :
  let '(s', v) := ReplaceCPAAdmission s value in
  st_cpaAdmission s' = value /\ v = st_cpaAdmissionVersion s'
  /\ (v = st_cpaAdmissionVersion s <-> st_cpaAdmission s = value)
  /\ (if bool_decide (st_cpaAdmission s = value) || negb (adm_Observed value) then st_accounts s' = st_accounts s
      else forall key b, st_accounts s' !! key = Some b <->
             exists a, st_accounts s !! key = Some a /\ a_AuthID a ∈ adm_AuthIDs value
               /\ b = a <| a_Priority := default (adm_Priority value) (lastTierPriority (adm_Tiers value) (a_AuthID a)) |>).
Proof.
  assert (forall v, u64 (v + 1) <> v) as Hv.
  { intros v E. unfold u64 in E. pose proof (Z.mod_pos_bound (v + 1) 18446744073709551616 ltac:(lia)).
    destruct (decide (v + 1 < 18446744073709551616)).
    - rewrite Z.mod_small in E; lia.
    - assert (v + 1 = 18446744073709551616) as Eq by lia. rewrite Eq, Z.mod_same in E; lia. }
  unfold ReplaceCPAAdmission. destruct (equalCPAAdmission (st_cpaAdmission s) value) eqn:E.
  - apply equalCPAAdmission_spec in E. rewrite (bool_decide_true _ E). done.
  - assert (st_cpaAdmission s <> value) as Hne by (intros H%equalCPAAdmission_spec; congruence).
    rewrite (bool_decide_false _ Hne). specialize (Hv (st_cpaAdmissionVersion s)).
    destruct (adm_Observed value); cbn [negb orb]; split_and!; try done.
    intros key b. simpl. rewrite lookup_omap_Some. unfold admitAccount. split.
    + intros (a & Ha & Hk). revert Ha. case_bool_decide; [|done]. intros [= <-]. eauto.
    + intros (a & Ha & Hin & ->). exists a. rewrite bool_decide_true by done. done.
Qed.

(** Results of work begun under an earlier admission are discarded: once the
    admission has changed, a refresh result, a failure or a log entry carrying
    the earlier version is refused and the state stays as it is. *)
Theorem stale_admission_rejected `{MapRange} (s : PluginState) (value : CPAAdmissionState) (account : AccountState)
    (kind : RefreshFailureKind) (message authID level event : string) (fields : gmap string any_value) (clock now : Time) :
  let version := st_cpaAdmissionVersion s in
  let s' := (ReplaceCPAAdmission s value).1 in
  st_cpaAdmission s <> value -> 0 <= version <= maxUint64 ->
  ApplyQuotaRefreshSuccessIfAdmissionCurrent s' account version clock now = (s', false)
  /\ ApplyQuotaRefreshFailureIfAdmissionCurrent s' account version kind message clock now = (s', false)
  /\ RecordLogIfAdmissionCurrent s' authID version level event message fields clock now = (s', false)
  /\ BeginCPAAdmissionCall s' authID version = false /\ BeginCPAAdmissionVersionCall s' version = false.
Proof.
  cbv zeta. intros Hne Hr.
  assert (st_cpaAdmissionVersion (ReplaceCPAAdmission s value).1 =? st_cpaAdmissionVersion s = false) as Hv.
  { unfold ReplaceCPAAdmission. destruct (equalCPAAdmission _ _) eqn:E; [by apply equalCPAAdmission_spec in E|].
    apply Z.eqb_neq. assert (u64 (st_cpaAdmissionVersion s + 1) <> st_cpaAdmissionVersion s).
    { destruct (decide (st_cpaAdmissionVersion s = maxUint64)) as [Em|]; [rewrite Em; vm_compute; discriminate|].
      rewrite u64_small; time_lia. }
    by branch. }
  set (s' := (ReplaceCPAAdmission s value).1) in *.
  assert (forall id, admissionCurrentLocked s' id (st_cpaAdmissionVersion s) = false) as Hc
    by (intros id; unfold admissionCurrentLocked; by rewrite Hv).
  unfold ApplyQuotaRefreshSuccessIfAdmissionCurrent, ApplyQuotaRefreshFailureIfAdmissionCurrent,
    RecordLogIfAdmissionCurrent, BeginCPAAdmissionCall, BeginCPAAdmissionVersionCall.
  rewrite !Hc, Hv, andb_false_r. done.
Qed.

Lemma stale_admission_rejected_witness :
  let s' := (ReplaceCPAAdmission example_reached (mkAdmission true 1 {["b"]} [])).1 in
  ApplyQuotaRefreshSuccessIfAdmissionCurrent s' emptyAccount 0 5 5 = (s', false).
Proof.
  cbv zeta.
  refine (proj1 (stale_admission_rejected example_reached (mkAdmission true 1 {["b"]} []) emptyAccount
    RefreshFailureAuth "" "" "" "" ∅ 5 5 _ _)).
  - vm_compute. discriminate.
  - vm_compute. split; discriminate.
Defined.

(** An account listed at two priorities is ranked inconsistently: replacing
    the admission stores the lowest of its tiers, while the admitted priority the
    same state reports afterwards is that of the highest tier. *)
Theorem duplicate_candidate_priority_diverges :
  exists (s : PluginState) (value : CPAAdmissionState) (a : AccountState),
    state_reachable s /\ st_accounts (ReplaceCPAAdmission s value).1 !! authKey "a" = Some a
    /\ a_Priority a = 1 /\ AdmittedCPAPriorityVersioned (ReplaceCPAAdmission s value).1 "a" = (3, 1, true).
Proof.
  exists (@state_apply canonical_range (NewPluginState DefaultConfig) (OpUpsert (emptyAccount <| a_AuthID := "a" |>))),
    (mkAdmission true 3 {["a"]} [mkTier 3 {["a"]}; mkTier 1 {["a"]}]). eexists.
  split; [by repeat constructor|]. split; [vm_compute; reflexivity|]. split; [vm_compute; reflexivity|]. vm_compute. reflexivity.
Qed.

Lemma NormalizeConfig_twice cfg : NormalizeConfig (NormalizeConfig cfg) = NormalizeConfig cfg.
Proof. apply NormalizeConfig_id, NormalizeConfig_wf. Qed.

Lemma sublist_filter {A} (P : A -> Prop) `{!forall x, Decision (P x)} (l : list A) : sublist (filter P l) l.
Proof. induction l as [|x l IH]; [done|]. rewrite filter_cons. case_decide; by constructor. Qed.

(** The log is bounded in number and age: after an entry is recorded, the
    log holds at most the configured number of entries, none older than the
    retention, in their order, and the new entry is its last. *)
Theorem log_retention (s : PluginState) (level event message : string) (fields : gmap string any_value) (clock now : Time) :
  let cfg := NormalizeConfig (st_cfg s) in
  let entry := mkLog (now_or clock now) level event message fields in
  let logs := st_logs (RecordLog s level event message fields clock now) in
  LogRetention cfg <= maxInt64 ->
  Z.of_nat (length logs) <= MaxLogEntries cfg /\ last logs = Some entry /\ sublist logs (st_logs s ++ [entry])
  /\ Forall (fun log => log_Time log = zeroTime \/ now_or clock now - LogRetention cfg <= log_Time log) logs.
Proof.
  cbv zeta. intros Hmax. pose proof (NormalizeConfig_wf (st_cfg s)) as Hwf.
  unfold RecordLog, retainedLogs. cbv zeta. cbn [st_logs set_field]. rewrite NormalizeConfig_twice.
  set (cfg := NormalizeConfig (st_cfg s)) in *. set (t := now_or clock now). set (entry := mkLog t level event message fields).
  pose proof (wf_logs _ Hwf) as Hn. pose proof (wf_retention _ Hwf) as Hr. fold cfg in Hn, Hr.
  rewrite (i64_small (- LogRetention cfg)) by time_lia.
  set (P := fun log => IsZero (log_Time log) || negb (Before (log_Time log) (Add t (- LogRetention cfg))) = true).
  assert (filter P (st_logs s ++ [entry]) = filter P (st_logs s) ++ [entry]) as Ef.
  { rewrite filter_app. f_equal. rewrite filter_cons_True; [done|]. unfold P, entry. cbn [log_Time].
    apply orb_true_iff. right. apply negb_true_iff, Z.ltb_ge. unfold Add. lia. }
  assert (Forall (fun log => log_Time log = zeroTime \/ t - LogRetention cfg <= log_Time log) (filter P (st_logs s ++ [entry]))) as HF.
  { apply Forall_forall. intros x [Hx _]%list_elem_of_filter. unfold P in Hx. apply orb_true_iff in Hx as [H|H]; [left|right]; time_lia. }
  assert (sublist (filter P (st_logs s ++ [entry])) (st_logs s ++ [entry])) as Hs by apply sublist_filter.
  destruct (Z.ltb_spec (MaxLogEntries cfg) (Z.of_nat (length (filter P (st_logs s ++ [entry]))))) as [Hlt|Hle].
  - split_and!.
    + rewrite length_drop. lia.
    + rewrite Ef, length_app. cbn [length]. rewrite drop_app_le by lia. by rewrite last_snoc.
    + etrans; [apply sublist_drop|done].
    + by apply Forall_drop.
  - split_and!; try done. by rewrite Ef, last_snoc.
Qed.

Lemma log_retention_witness :
  Z.of_nat (length (st_logs (RecordLog example_reached "info" "e" "m" ∅ 7 5))) <= MaxLogEntries (NormalizeConfig (st_cfg example_reached)).
Proof.
  refine (proj1 (log_retention example_reached "info" "e" "m" ∅ 7 5 _)). vm_compute. discriminate.
Defined.

(** ** Refresh scheduling *)

Lemma foldl_consider now ts next :
  0 < now -> next = 0 \/ now <= next ->
  let r := foldl (consider now) next ts in
  (r = 0 \/ now <= r) /\ (next <> 0 -> r <> 0 /\ r <= next) /\ (forall t, t ∈ ts -> t <> 0 -> r <> 0 /\ r <= Z.max now t).
Proof.
  intros Hnow. revert next. induction ts as [|t ts IH]; intros next Hn; simpl.
  { split_and!; [done|lia|]. intros t ?%not_elem_of_nil. done. }
  assert (consider now next t = 0 \/ now <= consider now next t) as Hc.
  { unfold consider. destruct (After t now) eqn:?; cbn [negb]; repeat branch; time_lia. }
  destruct (IH _ Hc) as (H1 & H2 & H3). split_and!; [done| |].
  - intros Hne. assert (consider now next t <> 0 /\ consider now next t <= next) as [Hx Hy]
      by (unfold consider; destruct (After t now) eqn:?; cbn [negb]; repeat branch; time_lia).
    destruct (H2 Hx). split; [done|lia].
  - intros u [->|Hu]%elem_of_cons Hne; [|by auto].
    assert (consider now next t <> 0 /\ consider now next t <= Z.max now t) as [Hx Hy]
      by (unfold consider; destruct (After t now) eqn:?; cbn [negb]; repeat branch; time_lia).
    destruct (H2 Hx). split; [done|lia].
Qed.

(** The reasons for which the refresh loop relies on its periodic scan rather
    than on a deadline. *)
Definition scan_reasons : list string := ["never_refreshed"; "stale"; "refresh_interval_due"].

Lemma resetTrigger_due cfg last reset now :
  IsZero reset = false -> refreshTriggerPending last (Add reset (RefreshAfterResetDelay cfg)) = true ->
  After (Add reset (RefreshAfterResetDelay cfg)) now = false ->
  exists t, t ∈ resetTrigger cfg last reset /\ t <> 0 /\ t <= now.
Proof.
  intros H1 H2 H3. exists (Add reset (RefreshAfterResetDelay cfg)). unfold resetTrigger. rewrite H1, H2. split; [constructor|].
  unfold refreshTriggerPending in H2. apply andb_true_iff in H2 as [H2 _]. time_lia.
Qed.

Lemma resetDue_trigger cfg w last now :
  resetDue w (RefreshAfterResetDelay cfg) last now = true ->
  exists t, t ∈ resetTrigger cfg last (windowReset w) /\ t <> 0 /\ t <= now.
Proof.
  unfold resetDue. destruct w as [w|]; [|done]. destruct (IsZero (qw_ResetAt w)) eqn:E; [done|].
  intros [H1 H2%negb_true_iff]%andb_true_iff. by apply resetTrigger_due.
Qed.

Lemma accountRefreshDue_deadline `{MapRange} a cfg now reason :
  accountRefreshDue a cfg now = (true, reason) -> reason ∉ scan_reasons ->
  exists t, t ∈ accountDeadlines (NormalizeConfig cfg) a /\ t <> 0 /\ t <= now.
Proof.
  unfold accountRefreshDue, accountDeadlines. cbv zeta. set (c := NormalizeConfig cfg).
  case_bool_decide as E1; [done|].
  destruct (IsZero (cb_NextProbeAt (a_Circuit a))) eqn:E2; cbn [negb andb].
  2:{ destruct (After (cb_NextProbeAt (a_Circuit a)) now) eqn:E3; [done|]. intros _ _. eexists. split; [constructor|]. time_lia. }
  destruct (IsZero (rf_NextRetryAt (a_Refresh a))) eqn:E4; cbn [negb andb].
  2:{ destruct (After (rf_NextRetryAt (a_Refresh a)) now) eqn:E5; [done|]. intros _ _. eexists. split; [constructor|]. time_lia. }
  destruct (IsZero (a_LastSuccessAt a)) eqn:E6; [intros [= <-] []; unfold scan_reasons; set_solver|].
  destruct (StaleAfter c <? _); [intros [= <-] []; unfold scan_reasons; set_solver|].
  destruct (negb (After _ _)); [intros [= <-] []; unfold scan_reasons; set_solver|].
  setoid_rewrite elem_of_app. setoid_rewrite elem_of_app. setoid_rewrite elem_of_app.
  destruct (EnableResetProbe c && resetProbeDueAny (a_ResetProbes a) now) eqn:E7.
  { intros _ _. apply andb_true_iff in E7 as [-> (kind & p & Hp & Hd)%resetProbeDueAny_spec]. unfold resetProbeDue in Hd.
    apply andb_true_iff in Hd as [[Hs%bool_decide_eq_true Hz]%andb_true_iff Hd]. exists (rp_NextCheckAt p).
    split; [left|time_lia]. apply list_elem_of_fmap. exists p. split; [done|]. apply list_elem_of_filter.
    split; [split; [done|by apply negb_true_iff]|]. apply list_elem_of_fmap. exists (kind, p). split; [done|]. by apply elem_of_map_range. }
  destruct (resetDue (pq_FiveHour _) _ _ _) eqn:E8.
  { intros _ _. apply resetDue_trigger in E8 as (t & ? & ?). exists t. auto. }
  destruct (resetDue (pq_LongWindow _) _ _ _) eqn:E9.
  { intros _ _. apply resetDue_trigger in E9 as (t & ? & ?). exists t. auto. }
  destruct (a_TemporaryExhausted a); cbn [andb]; [|done]. destruct (IsZero (a_TemporaryResetAt a)) eqn:E10; cbn [negb andb]; [done|].
  destruct (refreshTriggerPending _ _) eqn:E11; cbn [andb]; [|done]. destruct (After _ now) eqn:E12; cbn [negb]; [done|].
  intros _ _. destruct (resetTrigger_due c _ _ _ E10 E11 E12) as (t & ? & ?). exists t. auto.
Qed.

(** The refresh loop does not oversleep: while the plugin is active, when an
    account is due because of a circuit probe, a retry, a reset probe or a window
    reset (every reason but those of the periodic scan), the next wake-up is now. *)
Theorem next_refresh_wakes `{MapRange} (s : PluginState) (clock now : Time) (key : string) (a : AccountState) (reason : string) :
  0 < now_or clock now -> RefreshActive s clock now = true ->
  st_accounts s !! key = Some a ->
  accountRefreshDue a (NormalizeConfig (st_cfg s)) (now_or clock now) = (true, reason) -> reason ∉ scan_reasons ->
  NextRefreshDueAt s clock now = now_or clock now.
Proof.
  intros Hnow Hact Ha Hd Hr. unfold NextRefreshDueAt. cbv zeta. unfold RefreshActive in Hact.
  apply andb_true_iff in Hact as [H1%negb_true_iff H2]. rewrite H1, H2. cbn [negb orb].
  apply accountRefreshDue_deadline in Hd as (t & Ht & Hne & Hle); [|done]. rewrite NormalizeConfig_twice in Ht.
  destruct (foldl_consider (now_or clock now)
    ((map_range (st_accounts s)).*2 ≫= accountDeadlines (NormalizeConfig (st_cfg s))) zeroTime Hnow (or_introl eq_refl)) as (R1 & _ & R3).
  destruct (R3 t) as [R4 R5]; [|done|lia]. apply list_elem_of_bind. exists a. split; [done|].
  apply list_elem_of_fmap. exists (key, a). split; [done|]. by apply elem_of_map_range.
Qed.

Lemma next_refresh_wakes_witness :
  let s := @state_apply canonical_range (@state_apply canonical_range (NewPluginState DefaultConfig) (OpActivity 10 10))
             (OpUpsert (emptyAccount <| a_AuthID := "b" |> <| a_Refresh := emptyRefresh <| rf_NextRetryAt := 12 |> |>)) in
  NextRefreshDueAt s 20 20 = now_or 20 20.
Proof.
  cbv zeta. eapply (next_refresh_wakes _ 20 20 (authKey "b") _ "retry_due").
  - vm_compute. reflexivity.
  - vm_compute. reflexivity.
  - vm_compute. reflexivity.
  - vm_compute. reflexivity.
  - intros H. apply list_elem_of_In in H. simpl in H. destruct H as [H|[H|[H|[]]]]; discriminate H.
Defined.

(** The due accounts are exactly the stored accounts whose refresh is due,
    each with its reason, ordered by descending priority and then by key. *)
Theorem due_accounts_exact `{MapRange} (s : PluginState) (clock now : Time) :
  let due := DueAccounts s clock now in
  StronglySorted (not_after dueLess) due
  /\ forall b, b ∈ due <-> exists key a reason, st_accounts s !! key = Some a
       /\ accountRefreshDue a (NormalizeConfig (st_cfg s)) (now_or clock now) = (true, reason)
       /\ b = a <| a_Refresh := (a_Refresh a) <| rf_DueReason := reason |> |>.
Proof.
  cbv zeta. unfold DueAccounts. cbv zeta. split.
  - apply (sort_slice_sorted _ _ dueLess_weak_order). by apply Forall_forall.
  - intros b. rewrite sort_slice_perm, list_elem_of_omap. unfold withDueReason. split.
    + intros (a & Ha & Hb). apply list_elem_of_fmap in Ha as ([key a'] & -> & Ha%elem_of_map_range). simpl in *.
      destruct (accountRefreshDue a' _ _) as [[|] reason] eqn:E; [|done]. injection Hb as <-. by exists key, a', reason.
    + intros (key & a & reason & Ha & E & ->). exists a. split.
      * apply list_elem_of_fmap. exists (key, a). split; [done|]. by apply elem_of_map_range.
      * by rewrite E.
Qed.

(** ** The temporary-exhaustion marker *)

(** What may clear the marker of an account: a successful request, an operator
    clearing it, a quota reading that confirms a reset, or a caller that stores
    an account without the marker. *)
Definition may_clear_marker (a : AccountState) (op : state_op) : Prop :=
  match op with
  | OpSuccess _ _ _ | OpClearExhausted _ => True
  | OpObserveQuota _ _ q clock now =>
      let t := now_or clock now in
      quotaRefreshConfirmsReset (observedAccount a q t) t = true
  | OpApplySuccess account _ clock now =>
      a_TemporaryExhausted account = false \/ quotaRefreshConfirmsReset account (now_or clock now) = true
  | OpUpsert account | OpApplyFailure account _ _ _ _ _ => a_TemporaryExhausted account = false
  | OpApplyJournal j => Exists (fun account => a_TemporaryExhausted account = false) (j_Accounts j)
  | _ => False
  end.

Lemma put_lookup s k b key x :
  st_accounts (putAccount s k b) !! key = Some x -> (k = key /\ x = b) \/ st_accounts s !! key = Some x.
Proof. unfold putAccount. simpl. intros [[? ?]|[? ?]]%lookup_insert_Some; auto. Qed.

Lemma failure_keeps_marker a cfg reason r now :
  a_TemporaryExhausted (applyCircuitFailure a cfg reason r now) = a_TemporaryExhausted a.
Proof. by unfold applyCircuitFailure. Qed.
Lemma success_keeps_marker a cfg now : a_TemporaryExhausted (applyCircuitSuccess a cfg now) = a_TemporaryExhausted a.
Proof. unfold applyCircuitSuccess. by repeat branch. Qed.
Lemma reconcile_marker a now :
  a_TemporaryExhausted (reconcileMarker a now) = a_TemporaryExhausted a && negb (quotaRefreshConfirmsReset a now).
Proof. unfold reconcileMarker. destruct (a_TemporaryExhausted a) eqn:E, (quotaRefreshConfirmsReset a now); simpl; by rewrite ?E. Qed.
Lemma settle_fields a :
  a_TemporaryExhausted (settleRefresh a) = a_TemporaryExhausted a
  /\ forall now, quotaRefreshConfirmsReset (settleRefresh a) now = quotaRefreshConfirmsReset a now.
Proof. unfold settleRefresh. by branch. Qed.
Lemma observed_marker a q now : a_TemporaryExhausted (observedAccount a q now) = a_TemporaryExhausted a.
Proof. change (a_TemporaryExhausted (mergeQuota a q) = a_TemporaryExhausted a). unfold mergeQuota. by repeat branch. Qed.

Lemma journal_lookup l s key x :
  st_accounts (foldl (fun s a => let key := accountStateKey a in if String.eqb key "" then s else putAccount s key a) s l) !! key
    = Some x -> x ∈ l \/ st_accounts s !! key = Some x.
Proof.
  revert s. induction l as [|a l IH]; intros s; simpl; [by right|]. intros [Hx|Hx]%IH; [left; by constructor|].
  destruct (String.eqb _ _); [by right|]. apply put_lookup in Hx as [[_ ->]|Hx]; [left; constructor|by right].
Qed.

Lemma target_marked `{MapRange} s id i k a key old :
  failureTarget s id i = Some (k, a) -> k = key -> st_accounts s !! key = Some old -> a = old.
Proof.
  unfold failureTarget. destruct (findAccountLocked s id i) as [[k' a']|] eqn:E.
  - intros [= <- <-] <- Hold. apply findAccount_stored in E. congruence.
  - destruct (String.eqb_spec id "") as [|Hne]; [done|]. intros [= <- <-] <- Hold. exfalso.
    unfold findAccountLocked in E. rewrite (proj2 (String.eqb_neq _ _) Hne), Hold in E. done.
Qed.

(** The step from [s] to [s'] clears the marker of the account [a]. *)
Definition clears (s s' : PluginState) (key : string) (a : AccountState) : Prop :=
  st_accounts s !! key = Some a /\ a_TemporaryExhausted a = true
  /\ exists b, st_accounts s' !! key = Some b /\ a_TemporaryExhausted b = false.

Lemma clears_same s s' key a : st_accounts s' = st_accounts s -> ~ clears s s' key a.
Proof. intros E (Ha & Hm & b & Hb & Hc). rewrite E, Ha in Hb. injection Hb as <-. by rewrite Hm in Hc. Qed.

Lemma clears_put s k x key a :
  clears s (putAccount s k x) key a -> k = key /\ st_accounts s !! k = Some a /\ a_TemporaryExhausted a = true /\ a_TemporaryExhausted x = false.
Proof.
  intros (Ha & Hm & b & Hb & Hc). apply put_lookup in Hb as [[-> ->]|Hb]; [done|].
  rewrite Ha in Hb. injection Hb as <-. by rewrite Hm in Hc.
Qed.

Lemma clears_put_found s k x y key a :
  st_accounts s !! k = Some x -> a_TemporaryExhausted y = a_TemporaryExhausted x ->
  ~ clears s (putAccount s k y) key a.
Proof. intros Hx E (-> & Ha & Hm & Hc)%clears_put. rewrite Hx in Ha. injection Ha as ->. by rewrite E, Hm in Hc. Qed.

Section markers.
Context {mr : MapRange} (s : PluginState) (key : string) (a : AccountState).

Lemma admission_keeps_marker v : ~ clears s (ReplaceCPAAdmission s v).1 key a.
Proof.
  unfold ReplaceCPAAdmission. branch; [by apply clears_same|]. cbv zeta. branch; [by apply clears_same|].
  intros (Ha & Hm & b & Hb & Hc). apply lookup_omap_Some in Hb as (a' & Hadm & Ha').
  cbn [st_accounts set_field] in Ha'. rewrite Ha in Ha'. injection Ha' as <-.
  unfold admitAccount in Hadm. branch_in Hadm; [done|]. injection Hadm as <-.
  cbn [a_TemporaryExhausted set_field] in Hc. by rewrite Hm in Hc.
Qed.

Lemma exhausted_keeps_marker id r reason : ~ clears s (MarkAccountTemporaryExhausted s id r reason) key a.
Proof. unfold MarkAccountTemporaryExhausted. branch; [by apply clears_same|]. by intros (_ & _ & _ & Hc)%clears_put. Qed.

Lemma exhaustedByIndex_keeps_marker i r reason : ~ clears s (MarkAccountTemporaryExhaustedByAuthIndex s i r reason) key a.
Proof.
  unfold MarkAccountTemporaryExhaustedByAuthIndex. branch; [by apply clears_same|].
  destruct (findByIndex s i) as [[k x]|]; [|by apply clears_same]. by intros (_ & _ & _ & Hc)%clears_put.
Qed.

(** A failure is recorded on the stored account, or on a new one. *)
Lemma target_keeps_marker id i k x y :
  failureTarget s id i = Some (k, x) -> a_TemporaryExhausted y = a_TemporaryExhausted x ->
  ~ clears s (putAccount s k y) key a.
Proof.
  intros Hf E Hc. pose proof Hc as (<- & Hst & _)%clears_put.
  rewrite (target_marked _ _ _ _ _ _ _ Hf eq_refl Hst) in E. by apply (clears_put_found s k a y k a).
Qed.

Lemma failures_keep_marker id i reason r now : ~ clears s (RecordAccountFailure s id i reason r now).1 key a.
Proof.
  unfold RecordAccountFailure. branch; [by apply clears_same|].
  destruct (failureTarget s id i) as [[k x]|] eqn:E; [|by apply clears_same].
  apply (target_keeps_marker _ _ _ _ _ E), failure_keeps_marker.
Qed.

Lemma refreshFailures_keep_marker id i kind m clock now : ~ clears s (RecordRefreshFailure s id i kind m clock now).1 key a.
Proof.
  unfold RecordRefreshFailure. cbv zeta. branch; [by apply clears_same|].
  destruct (failureTarget s id i) as [[k x]|] eqn:E; [|by apply clears_same].
  by apply (target_keeps_marker _ _ _ _ _ E).
Qed.

Lemma clearAuth_keeps_marker id : ~ clears s (ClearAccountAuthFailure s id).1 key a.
Proof.
  unfold ClearAccountAuthFailure. branch; [by apply clears_same|].
  destruct (findAccountLocked s id "") as [[k x]|] eqn:E; [|by apply clears_same]. branch; [by apply clears_same|].
  apply (clears_put_found s k x); [by apply (findAccount_stored s id "")|done].
Qed.

Lemma observe_clears id i q clock now :
  clears s (ObserveAccountQuota s id i q clock now).1 key a -> may_clear_marker a (OpObserveQuota id i q clock now).
Proof.
  unfold ObserveAccountQuota. branch; [by intros ?%clears_same|]. cbv zeta.
  destruct (findAccountLocked s id i) as [[k x]|] eqn:E; [|by intros ?%clears_same]. apply findAccount_stored in E.
  intros (<- & Ha & Hm & Hc)%clears_put. rewrite E in Ha. injection Ha as ->. rewrite reconcile_marker in Hc.
  rewrite observed_marker, Hm in Hc. by apply negb_false_iff in Hc.
Qed.

Lemma applySuccess_clears account v clock now :
  clears s (ApplyQuotaRefreshSuccessIfAdmissionCurrent s account v clock now).1 key a ->
  may_clear_marker a (OpApplySuccess account v clock now).
Proof.
  unfold ApplyQuotaRefreshSuccessIfAdmissionCurrent. cbv zeta. branch; [by intros ?%clears_same|].
  branch; [by intros ?%clears_same|]. intros (_ & _ & _ & Hc)%clears_put. rewrite success_keeps_marker, reconcile_marker in Hc.
  destruct (settle_fields (account <| a_Priority := admissionPriorityLocked s (a_AuthID account) |>)) as [S1 S2].
  rewrite S1, S2 in Hc. apply andb_false_iff in Hc as [Hc|Hc%negb_false_iff]; [by left|by right].
Qed.

Lemma stores_clear account v kind m clock now :
  (clears s (UpsertQuota s account) key a -> a_TemporaryExhausted account = false)
  /\ (clears s (ApplyQuotaRefreshFailureIfAdmissionCurrent s account v kind m clock now).1 key a -> a_TemporaryExhausted account = false).
Proof.
  split.
  - unfold UpsertQuota. cbv zeta. branch; [by intros ?%clears_same|]. intros (_ & _ & _ & Hc)%clears_put.
    by rewrite (proj1 (settle_fields account)) in Hc.
  - unfold ApplyQuotaRefreshFailureIfAdmissionCurrent. cbv zeta. branch; [by intros ?%clears_same|].
    branch; [by intros ?%clears_same|]. by intros (_ & _ & _ & Hc)%clears_put.
Qed.

Lemma journal_clears j : clears s (applyLegacyEffectJournal s j) key a -> may_clear_marker a (OpApplyJournal j).
Proof.
  intros (Ha & Hm & b & Hb & Hc). unfold applyLegacyEffectJournal in Hb. cbv zeta in Hb. cbn [st_accounts set_field] in Hb.
  apply journal_lookup in Hb as [Hb|Hb]; [apply Exists_exists; eauto|]. rewrite Ha in Hb. injection Hb as <-. by rewrite Hm in Hc.
Qed.

(** The operations that do not touch the accounts. *)
Lemma bookkeeping_accounts authID event message fields v n clock now :
  st_accounts (RecordCodexActivity s clock now) = st_accounts s
  /\ st_accounts (RecordAuthScanIfAdmissionCurrent s v n clock now).1 = st_accounts s
  /\ forall level, st_accounts (RecordLogIfAdmissionCurrent s authID v level event message fields clock now).1 = st_accounts s.
Proof.
  unfold RecordCodexActivity, RecordAuthScanIfAdmissionCurrent, RecordLogIfAdmissionCurrent. cbv zeta.
  split_and!; intros; by branch.
Qed.
End markers.

(** The temporary-exhaustion marker of an account survives every operation
    except a successful request, an operator's clearing, a quota reading that
    confirms a reset, and callers that store an account without the marker:
    in particular admissions, failures, scans, logs and configuration changes
    never clear it. *)
Theorem marker_cleared_only_with_evidence `{MapRange} (s : PluginState) (op : state_op) (key : string) (a b : AccountState) :
  st_accounts s !! key = Some a -> a_TemporaryExhausted a = true ->
  st_accounts (state_apply s op) !! key = Some b -> a_TemporaryExhausted b = false -> may_clear_marker a op.
Proof.
  intros Ha Hm Hb Hc. assert (clears s (state_apply s op) key a) as H' by (split_and!; eauto). clear b Ha Hm Hb Hc.
  destruct op; cbn [state_apply] in H'.
  all: try (exfalso; revert H'; by apply clears_same).
  all: try done.
  - by apply admission_keeps_marker in H'.
  - exact (proj1 (stores_clear s key a account 0 RefreshFailureNone "" 0 0) H').
  - by apply exhausted_keeps_marker in H'.
  - by apply exhaustedByIndex_keeps_marker in H'.
  - by apply failures_keep_marker in H'.
  - by apply clearAuth_keeps_marker in H'.
  - by apply (observe_clears s key).
  - by apply refreshFailures_keep_marker in H'.
  - exact (proj2 (stores_clear s key a account version kind message clock now) H').
  - by apply (applySuccess_clears s key).
  - exfalso. revert H'. apply clears_same, (bookkeeping_accounts s "" "" "" ∅ 0 0 clock now).
  - exfalso. revert H'. apply clears_same, (bookkeeping_accounts s "" "" "" ∅ version count clock now).
  - exfalso. revert H'. apply clears_same, (bookkeeping_accounts s authID event message fields version 0 clock now).
  - by apply (journal_clears s key).
Qed.

Lemma marker_cleared_only_with_evidence_witness :
  let a := emptyAccount <| a_AuthID := "a" |> <| a_TemporaryExhausted := true |> in
  let s := UpsertQuota (NewPluginState DefaultConfig) a in
  may_clear_marker a (OpClearExhausted "a").
Proof.
  cbv zeta.
  eapply (marker_cleared_only_with_evidence
    (UpsertQuota (NewPluginState DefaultConfig) (emptyAccount <| a_AuthID := "a" |> <| a_TemporaryExhausted := true |>))
    (OpClearExhausted "a") (authKey "a")); vm_compute; reflexivity.
Defined.
