(* ===== verification/Roster.v ===== *)
(** * Roster controller (roster_controller.go)

    The controller keeps the authoritative roster of codex accounts: it asks the
    host, publishes what changed, and degrades when the host does not answer.
    The host, the publisher and the provisional verification are parameters.
    Between reading the old roster and storing the new one the controller calls
    the publisher without its lock: [interfere] is what other goroutines do to
    the stored roster meanwhile. *)

From S2P Require Import Prelude Float64 Config Models Capability.
#[local] Open Scope string_scope.
#[local] Open Scope list_scope.
#[local] Open Scope Z_scope.
#[local] Open Scope go_scope.

Definition rosterActiveTTL : Duration := 5 * Minute.
Definition rosterDegradedLimit : Duration := 30 * Minute.
Definition provisionalMaxAge : Duration := 4 * Hour.

Definition provisionalAgeValid (now confirmedAt : Time) : bool :=
  if IsZero confirmedAt then false
  else let age := Sub now confirmedAt in (0 <=? age) && (age <? provisionalMaxAge).

Record ActiveRoster := mkRoster {
  ar_Capability : HostCapability;
  ar_Confirmed : bool;
  ar_Provisional : bool;
  ar_HighestPriority : Z;
  ar_Generation : Z;
  ar_LifecycleRevision : Z;
  ar_Instances : list string;
  ar_Entries : list RosterEntry;
  ar_ConfirmedAt : Time;
  ar_LastSyncAt : Time;
  ar_DegradedSince : Time;
  ar_Health : RosterHealth;
  ar_BackgroundAllowed : bool;
}.
#[export] Instance ActiveRoster_eta : Eta ActiveRoster := fun r => mkRoster
  (ar_Capability r) (ar_Confirmed r) (ar_Provisional r) (ar_HighestPriority r) (ar_Generation r)
  (ar_LifecycleRevision r) (ar_Instances r) (ar_Entries r) (ar_ConfirmedAt r) (ar_LastSyncAt r)
  (ar_DegradedSince r) (ar_Health r) (ar_BackgroundAllowed r).

(** [ActiveRoster{Capability: CapabilityB, Health: RosterWaiting}] *)
Definition waitingRoster : ActiveRoster :=
  mkRoster CapabilityB false false 0 0 0 [] [] zeroTime zeroTime zeroTime RosterWaiting false.

Definition hostRosterSnapshotFromActive (active : ActiveRoster) : HostRosterSnapshot :=
  mkHostRoster (ar_Capability active) (ar_Confirmed active) (ar_Provisional active) (ar_BackgroundAllowed active)
    (ar_Health active) (ar_Generation active) (ar_LifecycleRevision active) (ar_Entries active)
    (ar_ConfirmedAt active) (ar_DegradedSince active).

(** The controller's mutable fields; [rc_inFlight] tells whether the channel
    of a running synchronisation is set. *)
Record RosterController := mkController {
  rc_current : ActiveRoster;
  rc_inFlight : bool;
  rc_lastErr : option string;
}.
#[export] Instance RosterController_eta : Eta RosterController := fun r => mkController
  (rc_current r) (rc_inFlight r) (rc_lastErr r).

(** The calls the controller makes to its observers. *)
Inductive roster_event :=
  | NotifyRoster (active : ActiveRoster)
  | CancelInstances (ids : list string).

Definition NewRosterController (provisional : option ActiveRoster) (now : Time) : RosterController :=
  let current :=
    match provisional with
    | None => waitingRoster
    | Some p =>
        if negb (provisionalAgeValid now (ar_ConfirmedAt p)) then waitingRoster
        else p <| ar_Capability := CapabilityB |> <| ar_Confirmed := false |> <| ar_Provisional := true |>
               <| ar_Health := RosterWaiting |> <| ar_BackgroundAllowed := false |>
    end in
  mkController current false None.

Definition degradationExpired (active : ActiveRoster) (now : Time) : bool :=
  ar_Confirmed active && bool_decide (ar_Health active = RosterDegraded) && negb (IsZero (ar_DegradedSince active))
  && negb (Before now (Add (ar_DegradedSince active) rosterDegradedLimit)).

Definition EnforceLifecycle (c : RosterController) (now : Time) : RosterController * list roster_event * ActiveRoster :=
  let active := rc_current c in
  if degradationExpired active now then
    let active := active <| ar_Health := RosterFailClosed |> <| ar_BackgroundAllowed := false |>
                         <| ar_LifecycleRevision := u64 (ar_LifecycleRevision active + 1) |> in
    (c <| rc_current := active |>, [NotifyRoster active], active)
  else (c, [], active).

Definition degradedRoster (old : ActiveRoster) (now : Time) : ActiveRoster :=
  let old := old <| ar_LastSyncAt := now |> <| ar_BackgroundAllowed := false |> in
  if ar_Provisional old || IsZero (ar_ConfirmedAt old) then
    old <| ar_Capability := CapabilityB |> <| ar_Confirmed := false |> <| ar_Health := RosterWaiting |>
  else
    let old := if IsZero (ar_DegradedSince old) then old <| ar_DegradedSince := now |> else old in
    if Sub now (ar_DegradedSince old) <? rosterDegradedLimit
    then old <| ar_Health := RosterDegraded |> <| ar_BackgroundAllowed := true |>
    else old <| ar_Health := RosterFailClosed |>.

Definition sameEntry (a b : RosterEntry) : bool :=
  String.eqb (re_ID a) (re_ID b) && String.eqb (re_AuthIndex a) (re_AuthIndex b)
  && String.eqb (re_Provider a) (re_Provider b)
  && match re_Priority a, re_Priority b with Some p, Some q => p =? q | _, _ => false end.

Fixpoint all2 {A} (f : A -> A -> bool) (l r : list A) : bool :=
  match l, r with
  | [], [] => true
  | x :: l, y :: r => f x y && all2 f l r
  | _, _ => false
  end.

Definition sameRoster (old : ActiveRoster) (priority : Z) (entries : list RosterEntry) (ids : list string) : bool :=
  ar_Confirmed old && (ar_HighestPriority old =? priority)
  && all2 String.eqb (ar_Instances old) ids && all2 sameEntry (ar_Entries old) entries.

Definition filterRosterEntries (entries : list RosterEntry) (ids : list string) : list RosterEntry :=
  sort_slice (fun a b => str_lt (re_ID a) (re_ID b)) (filter (fun e => re_ID e ∈ ids) entries).

Definition removedRosterIDs (old next : list string) : list string :=
  sortStrings (filter (fun id => id ∉ next) old).

(** The roster a successful listing builds from the old one. *)
Definition confirmedRoster (old : ActiveRoster) (entries : list RosterEntry) (priority : Z) (ids : list string) (now : Time)
  : ActiveRoster :=
  let filtered := filterRosterEntries entries ids in
  let generation := if sameRoster old priority filtered ids then ar_Generation old else u64 (ar_Generation old + 1) in
  {| ar_Capability := CapabilityA; ar_Confirmed := true; ar_Provisional := false; ar_HighestPriority := priority;
     ar_Generation := generation; ar_LifecycleRevision := u64 (ar_LifecycleRevision old + 1); ar_Instances := ids;
     ar_Entries := filtered; ar_ConfirmedAt := now; ar_LastSyncAt := now; ar_DegradedSince := zeroTime;
     ar_Health := RosterHealthy; ar_BackgroundAllowed := true |}.

Section sync.
(** The publisher: [None] when it is not set, otherwise what it commits. *)
Context (publish : option (ActiveRoster -> result string ActiveRoster)) (interfere : ActiveRoster -> ActiveRoster).

Definition finishSync (c : RosterController) (listed : result string (list RosterEntry)) (now : Time)
  : RosterController * list roster_event * (ActiveRoster * option string) :=
  let old := rc_current c in
  let fail (c : RosterController) (err : string) :=
    let current := (degradedRoster old now) <| ar_LifecycleRevision := u64 (ar_LifecycleRevision old + 1) |> in
    (mkController current false (Some err), [NotifyRoster current], (current, Some err)) in
  match listed with
  | Err err => fail c err
  | Ok entries =>
      let '(priority, ids, ok) := HighestCodexTier entries in
      if negb ok then fail c "authoritative host roster has no confirmed codex tier"
      else
        let next := confirmedRoster old entries priority ids now in
        let committed := match publish with Some f => f next | None => Ok next end in
        let c := c <| rc_current := interfere (rc_current c) |> in
        match committed with
        | Err err => fail c err
        | Ok committed =>
            let next := if ar_Generation next <? ar_Generation committed
                        then next <| ar_Generation := ar_Generation committed |> else next in
            let next := if ar_LifecycleRevision next <=? ar_LifecycleRevision (rc_current c)
                        then next <| ar_LifecycleRevision := u64 (ar_LifecycleRevision (rc_current c) + 1) |> else next in
            let removed := removedRosterIDs (ar_Instances old) (ar_Instances next) in
            (mkController next false None,
             (if bool_decide (removed = []) then [] else [CancelInstances removed]) ++ [NotifyRoster next],
             (next, None))
        end
  end.

(** [sync]: answered from the stored roster, left to the synchronisation in
    flight, or carried out; [host] is what the host lists, [None] when there is
    no host. *)
Inductive sync_result :=
  | SyncCached (active : ActiveRoster)
  | SyncWaits
  | SyncDone (c : RosterController) (events : list roster_event) (active : ActiveRoster) (err : option string).

Definition sync (c : RosterController) (host : option (result string (list RosterEntry))) (force : bool) (now : Time)
  : sync_result :=
  let current := rc_current c in
  if force && bool_decide (rc_lastErr c = None) && negb (IsZero (ar_LastSyncAt current)) && Equal (ar_LastSyncAt current) now
  then SyncCached current
  else if negb force && negb (IsZero (ar_LastSyncAt current)) && (Sub now (ar_LastSyncAt current) <? rosterActiveTTL)
  then SyncCached current
  else if rc_inFlight c then SyncWaits
  else
    let listed := default (Err "authoritative host roster unavailable") host in
    let '(c, events, (active, err)) := finishSync (c <| rc_inFlight := true |>) listed now in
    SyncDone c events active err.
End sync.

(** The part of [WakeForProbe] after the synchronisation: the background
    permission of a provisional roster is withdrawn and granted again only when
    the verification succeeds; [verify] is its answer, [commitRuns] whether the
    commit callback runs the commit, [now1] and [now2] the clock before and
    inside it. *)
Definition WakeForProbe_provisional (c : RosterController) (got : ActiveRoster) (probeOnProvisional : bool)
    (verify : option (ActiveRoster -> bool)) (commitRuns : bool) (now1 now2 : Time)
  : RosterController * list roster_event * ActiveRoster :=
  let '(c, got, reset) :=
    if ar_Provisional got && (ar_Provisional (rc_current c) && (ar_Generation (rc_current c) =? ar_Generation got)
                              && ar_BackgroundAllowed (rc_current c)) then
      let current := (rc_current c) <| ar_BackgroundAllowed := false |>
                       <| ar_LifecycleRevision := u64 (ar_LifecycleRevision (rc_current c) + 1) |> in
      (c <| rc_current := current |>, current, true)
    else (c, got, false) in
  if ar_Provisional got && probeOnProvisional && provisionalAgeValid now1 (ar_ConfirmedAt got)
     && match verify with Some f => f got | None => false end then
    if commitRuns && ar_Provisional (rc_current c) && (ar_Generation (rc_current c) =? ar_Generation got)
       && provisionalAgeValid now2 (ar_ConfirmedAt got) then
      let current := (rc_current c) <| ar_BackgroundAllowed := true |>
                       <| ar_LifecycleRevision := u64 (ar_LifecycleRevision (rc_current c) + 1) |> in
      (c <| rc_current := current |>, [NotifyRoster current], current)
    else (c, [], got)
  else (c, if reset then [NotifyRoster got] else [], got).

(** ** Lifecycle *)

Record roster_inv (r : ActiveRoster) : Prop := {
  ri_background : ar_BackgroundAllowed r = true ->
    (ar_Confirmed r = true /\ (ar_Health r = RosterHealthy \/ ar_Health r = RosterDegraded))
    \/ (ar_Provisional r = true /\ ar_Health r = RosterWaiting);
  ri_confirmed : ar_Confirmed r = true ->
    ar_Capability r = CapabilityA /\ ar_Provisional r = false /\ ar_Instances r <> [];
  ri_unconfirmed : ar_Confirmed r = false -> ar_Capability r = CapabilityB /\ ar_Health r = RosterWaiting;
  ri_waiting : ar_Confirmed r = false -> ar_Provisional r = false ->
    ar_ConfirmedAt r = zeroTime /\ ar_BackgroundAllowed r = false;
}.

Lemma waiting_inv : roster_inv waitingRoster.
Proof. by split. Qed.

Lemma degraded_inv old now : roster_inv old -> roster_inv (degradedRoster old now).
Proof.
  intros [H1 H2 H3 H4]. unfold degradedRoster. cbv zeta. cbn [ar_Provisional ar_ConfirmedAt ar_DegradedSince set_field].
  destruct (ar_Provisional old) eqn:Ep; cbn [orb].
  { split; simpl; rewrite ?Ep; done. }
  destruct (IsZero (ar_ConfirmedAt old)) eqn:Ez.
  { split; simpl; auto; try done. intros _ _. split; [time_lia|done]. }
  destruct (ar_Confirmed old) eqn:Ec.
  - destruct (H2 eq_refl) as (? & ? & ?).
    destruct (IsZero (ar_DegradedSince old)); cbn [ar_DegradedSince set_field]; destruct (_ <? _); split; simpl; rewrite ?Ec; auto; done.
  - destruct (H4 eq_refl eq_refl) as [E _]. rewrite E in Ez. done.
Qed.

Lemma revision_inv r v : roster_inv r -> roster_inv (r <| ar_LifecycleRevision := v |>).
Proof. by intros [H1 H2 H3 H4]. Qed.
Lemma generation_inv r v : roster_inv r -> roster_inv (r <| ar_Generation := v |>).
Proof. by intros [H1 H2 H3 H4]. Qed.

Lemma HighestCodexTier_nonempty entries priority ids : HighestCodexTier entries = (priority, ids, true) -> ids <> [].
Proof.
  unfold HighestCodexTier. pose proof (highest_fold_inv entries) as [_ H2 H3 _ _].
  destruct (ts_ok _) eqn:E; [|done]. cbn [negb]. intros [= <- <-] Hnil. destruct (H2 eq_refl) as [[id Hm] _].
  apply (H3 eq_refl) in Hm. apply elem_of_sortStrings in Hm. rewrite Hnil in Hm. by apply not_elem_of_nil in Hm.
Qed.

Lemma confirmed_inv old entries priority ids now : ids <> [] -> roster_inv (confirmedRoster old entries priority ids now).
Proof. intros. split; simpl; auto; done. Qed.

Lemma finishSync_inv publish interfere c listed now :
  roster_inv (rc_current c) -> roster_inv (rc_current (finishSync publish interfere c listed now).1.1).
Proof.
  intros Hi. unfold finishSync. destruct listed as [entries|err]; [|by apply revision_inv, degraded_inv].
  destruct (HighestCodexTier entries) as [[priority ids] ok] eqn:E.
  destruct ok; cbn [negb]; [|by apply revision_inv, degraded_inv]. cbv zeta.
  destruct (match publish with Some f => _ | None => _ end) as [committed|err]; [|by apply revision_inv, degraded_inv].
  pose proof (confirmed_inv (rc_current c) entries priority ids now (HighestCodexTier_nonempty _ _ _ E)) as Hn.
  cbn [fst rc_current]. repeat (branch; try apply revision_inv; try apply generation_inv; try done).
Qed.

(** What can happen to a controller; a listing may finish with any result, any
    publisher and any interference. *)
Inductive controller_step : RosterController -> RosterController -> Prop :=
  | step_enforce c now : controller_step c (EnforceLifecycle c now).1.1
  | step_begin c : rc_inFlight c = false -> controller_step c (c <| rc_inFlight := true |>)
  | step_finish c publish interfere listed now : controller_step c (finishSync publish interfere c listed now).1.1
  | step_probe c probeOn verify commitRuns now1 now2 :
      controller_step c (WakeForProbe_provisional c (rc_current c) probeOn verify commitRuns now1 now2).1.1.

Inductive controller_reachable : RosterController -> Prop :=
  | reach_start provisional now : controller_reachable (NewRosterController provisional now)
  | reach_step c c' : controller_reachable c -> controller_step c c' -> controller_reachable c'.

Lemma provisional_background r b v :
  roster_inv r -> ar_Provisional r = true -> roster_inv (r <| ar_BackgroundAllowed := b |> <| ar_LifecycleRevision := v |>).
Proof.
  intros [H1 H2 H3 H4] Hp. assert (ar_Confirmed r = false) as Hc.
  { destruct (ar_Confirmed r); [|done]. destruct (H2 eq_refl) as (_ & ? & _). congruence. }
  split; cbn [ar_BackgroundAllowed ar_Confirmed ar_Provisional ar_Capability ar_Health ar_Instances ar_ConfirmedAt set_field];
    auto; rewrite ?Hp; try done.
  intros _. right. split; [done|]. by apply H3.
Qed.

Lemma wake_inv c probeOn verify commitRuns now1 now2 :
  roster_inv (rc_current c) ->
  roster_inv (rc_current (WakeForProbe_provisional c (rc_current c) probeOn verify commitRuns now1 now2).1.1).
Proof.
  intros Hi. unfold WakeForProbe_provisional. destruct (ar_Provisional (rc_current c)) eqn:Ep; cbn [andb]; [|by rewrite Ep].
  destruct ((ar_Generation (rc_current c) =? ar_Generation (rc_current c)) && ar_BackgroundAllowed (rc_current c)).
  - cbn [rc_current set_field]. cbv beta iota zeta.
    match goal with |- context [if ?b then _ else _] => destruct b end; [|by apply provisional_background].
    match goal with |- context [if ?b then _ else _] => destruct b end; [|by apply provisional_background].
    cbn [fst rc_current]. apply provisional_background; [|done]. by apply provisional_background.
  - match goal with |- context [if ?b then _ else _] => destruct b end; [|done].
    match goal with |- context [if ?b then _ else _] => destruct b end; [|done].
    cbn [fst rc_current set_field]. by apply provisional_background.
Qed.

Lemma controller_inv c : controller_reachable c -> roster_inv (rc_current c).
Proof.
  induction 1 as [provisional now|c c' _ IH Hs].
  - unfold NewRosterController. simpl. destruct provisional as [p|]; [|apply waiting_inv].
    branch; [apply waiting_inv|]. split; simpl; auto; done.
  - destruct Hs; [| |by apply finishSync_inv|by apply wake_inv].
    + unfold EnforceLifecycle. cbv zeta. destruct (degradationExpired (rc_current c) now) eqn:E; [|done].
      unfold degradationExpired in E. apply andb_true_iff in E as [[[Hc _]%andb_true_iff _]%andb_true_iff _].
      destruct IH as [H1 H2 H3 H4]. cbn [fst rc_current set_field]. split; simpl; auto; rewrite ?Hc; done.
    + done.
Qed.

(** ** Properties *)

(** The lifecycle of the roster: in every reachable state, whatever the host,
    the publisher and other goroutines do, background work is allowed only on a
    confirmed roster that is healthy or degraded, or on a provisional one;
    a confirmed roster comes from an authoritative host and names at least one
    account; an unconfirmed roster is waiting. *)
Theorem roster_lifecycle_invariant (c : RosterController) :
  controller_reachable c -> roster_inv (rc_current c).
Proof. apply controller_inv. Qed.

Definition example_entries : list RosterEntry := [mkEntry "a" "0" "codex" (Some 1); mkEntry "b" "1" "codex" (Some 0)].
Definition example_controller : RosterController :=
  (finishSync None (fun r => r) (NewRosterController None 10) (Ok example_entries) 10).1.1.
Lemma example_controller_reachable : controller_reachable example_controller.
Proof. eapply reach_step; [apply reach_start|apply step_finish]. Qed.

Lemma roster_lifecycle_invariant_witness :
  roster_inv (rc_current example_controller) /\ ar_BackgroundAllowed (rc_current example_controller) = true.
Proof. split; [exact (roster_lifecycle_invariant _ example_controller_reachable)|vm_compute; reflexivity]. Defined.

(** Failed synchronisations, one after another. *)
Definition fail_syncs (c : RosterController) (times : list Time) : RosterController :=
  foldl (fun c t => (finishSync None (fun r => r) c (Err "unavailable") t).1.1) c times.

(** A roster degraded since [since], judged at [last]. *)
Record degraded_at (r : ActiveRoster) (since last : Time) : Prop := {
  da_provisional : ar_Provisional r = false;
  da_confirmed : ar_ConfirmedAt r <> zeroTime;
  da_since : ar_DegradedSince r = since;
  da_background : ar_BackgroundAllowed r = true <-> last - since < rosterDegradedLimit;
  da_health : ar_Health r = if last - since <? rosterDegradedLimit then RosterDegraded else RosterFailClosed;
}.

Lemma degradedRoster_at r since t :
  ar_Provisional r = false -> ar_ConfirmedAt r <> zeroTime -> since <> zeroTime ->
  ar_DegradedSince r = since \/ (ar_DegradedSince r = zeroTime /\ since = t) ->
  degraded_at (degradedRoster r t) since t.
Proof.
  intros Hp Hc Hs Hd. unfold degradedRoster. cbv zeta. cbn [ar_Provisional ar_ConfirmedAt ar_DegradedSince set_field].
  rewrite Hp. replace (IsZero (ar_ConfirmedAt r)) with false by time_lia. cbn [orb].
  assert (forall d, (Sub t d <? rosterDegradedLimit) = (t - d <? rosterDegradedLimit)) as HS.
  { intros d. unfold rosterDegradedLimit. time_lia. }
  destruct Hd as [E|[E ->]]; rewrite E.
  - replace (IsZero since) with false by time_lia. cbn [ar_DegradedSince set_field]. rewrite ?E, HS.
    destruct (t - since <? rosterDegradedLimit) eqn:Eq; split; simpl; rewrite ?Eq; auto; lia.
  - cbn [IsZero Z.eqb zeroTime ar_DegradedSince set_field]. rewrite HS.
    destruct (t - t <? rosterDegradedLimit) eqn:Eq; split; simpl; rewrite ?Eq; auto; lia.
Qed.

(** A roster that a failed synchronisation at [t] leaves degraded since [since]. *)
Definition degradable (r : ActiveRoster) (since t : Time) : Prop :=
  ar_Provisional r = false /\ ar_ConfirmedAt r <> zeroTime /\ since <> zeroTime
  /\ (ar_DegradedSince r = since \/ (ar_DegradedSince r = zeroTime /\ since = t)).

Lemma degraded_at_revision r since t v : degraded_at r since t -> degraded_at (r <| ar_LifecycleRevision := v |>) since t.
Proof. by intros []. Qed.

Lemma degraded_degradable r since t t' : since <> zeroTime -> degraded_at r since t -> degradable r since t'.
Proof. intros Hs [D1 D2 D3 _ _]. unfold degradable. auto. Qed.

Lemma fail_step c since t :
  degradable (rc_current c) since t ->
  degraded_at (rc_current (finishSync None (fun r => r) c (Err "unavailable") t).1.1) since t.
Proof.
  intros (D1 & D2 & D3 & D4). unfold finishSync. cbn [fst rc_current].
  apply degraded_at_revision. by apply degradedRoster_at.
Qed.

Lemma fail_syncs_degraded times c since t0 t :
  degradable (rc_current c) since t0 ->
  degraded_at (rc_current (fail_syncs c (t0 :: times ++ [t]))) since t.
Proof.
  revert c t0. induction times as [|t1 times IH]; intros c t0 Hd; pose proof Hd as (_ & _ & Hs & _).
  - cbn [fail_syncs foldl app]. apply fail_step. eapply degraded_degradable; [done|]. by apply fail_step.
  - change (fail_syncs c (t0 :: (t1 :: times) ++ [t])) with
      (fail_syncs (finishSync None (fun r => r) c (Err "unavailable") t0).1.1 (t1 :: times ++ [t])).
    apply IH. eapply degraded_degradable; [done|]. by apply fail_step.
Qed.

(** Degradation is bounded: after a confirmed roster, background work stays
    allowed through failed synchronisations exactly while less than thirty
    minutes have passed since the first of them, however many there are; from
    then on the roster is failed closed. *)
Theorem degradation_bounded (c : RosterController) (t0 : Time) (times : list Time) (t : Time) :
  let r := rc_current (fail_syncs c (t0 :: times ++ [t])) in
  ar_Provisional (rc_current c) = false -> ar_ConfirmedAt (rc_current c) <> zeroTime ->
  ar_DegradedSince (rc_current c) = zeroTime -> t0 <> zeroTime ->
  (ar_BackgroundAllowed r = true <-> t - t0 < rosterDegradedLimit)
  /\ ar_Health r = if t - t0 <? rosterDegradedLimit then RosterDegraded else RosterFailClosed.
Proof.
  cbv zeta. intros Hp Hc Hd H0.
  destruct (fail_syncs_degraded times c t0 t0 t) as [_ _ _ H1 H2]; [|by split].
  unfold degradable. split_and!; [done..|by right].
Qed.

Lemma degradation_bounded_witness :
  ar_Health (rc_current (fail_syncs example_controller (20 :: [] ++ [30 * Minute]))) = RosterDegraded.
Proof.
  refine (proj2 (degradation_bounded example_controller 20 [] (30 * Minute) _ _ _ _)).
  - vm_compute. reflexivity.
  - vm_compute. discriminate.
  - vm_compute. reflexivity.
  - vm_compute. discriminate.
Defined.

Lemma all2_eq {A} (f : A -> A -> bool) (P : A -> Prop) (l r : list A) :
  (forall x y, f x y = true <-> x = y /\ P x) -> all2 f l r = true <-> l = r /\ Forall P l.
Proof.
  intros Hf. revert r. induction l as [|x l IH]; intros [|y r]; simpl.
  - split; [by intros _|done].
  - split; [done|]. by intros [? _].
  - split; [done|]. by intros [? _].
  - rewrite andb_true_iff, Hf, IH, Forall_cons. naive_solver.
Qed.

Lemma sameRoster_spec old priority entries ids :
  sameRoster old priority entries ids = true <->
  ar_Confirmed old = true /\ ar_HighestPriority old = priority /\ ar_Instances old = ids /\ ar_Entries old = entries
  /\ Forall (fun e => is_Some (re_Priority e)) entries.
Proof.
  unfold sameRoster. rewrite !andb_true_iff, Z.eqb_eq, (all2_eq _ (fun _ => True)), (all2_eq sameEntry (fun e => is_Some (re_Priority e))).
  - split; [intros (((? & ?) & ? & _) & E & HF); rewrite E in HF; done|].
    intros (? & ? & ? & E & HF). rewrite E. split_and!; try done. by apply Forall_forall.
  - intros [i x p q] [i' x' p' q']. unfold sameEntry. simpl. rewrite !andb_true_iff, !String.eqb_eq.
    destruct q as [q|], q' as [q'|]; rewrite ?Z.eqb_eq, ?is_Some_alt; simpl; naive_solver.
  - intros x y. rewrite String.eqb_eq. naive_solver.
Qed.

(** The generation of the roster counts its changes: a successful
    synchronisation keeps the generation exactly when the confirmed roster has
    the same priority, accounts and entries (each with a priority), and otherwise
    advances it; accounts that left the roster are cancelled. *)
Theorem generation_tracks_roster (c : RosterController) (entries : list RosterEntry) (now priority : Z) (ids : list string) :
  let old := rc_current c in
  let '(c', events, _) := finishSync None (fun r => r) c (Ok entries) now in
  let filtered := filterRosterEntries entries ids in
  HighestCodexTier entries = (priority, ids, true) ->
  (ar_Generation (rc_current c') = ar_Generation old <->
     ar_Confirmed old = true /\ ar_HighestPriority old = priority /\ ar_Instances old = ids /\ ar_Entries old = filtered
     /\ Forall (fun e => is_Some (re_Priority e)) filtered)
  /\ (forall removed, CancelInstances removed ∈ events ->
        forall id, id ∈ removed <-> id ∈ ar_Instances old /\ id ∉ ids).
Proof.
  cbv zeta. unfold finishSync. destruct (HighestCodexTier entries) as [[priority' ids'] ok] eqn:E.
  destruct ok; cbn [negb]; [|by intros; exfalso; congruence]. cbv zeta. cbn [rc_current set_field]. rewrite Z.ltb_irrefl.
  set (next := confirmedRoster (rc_current c) entries priority' ids' now).
  set (next' := if ar_LifecycleRevision next <=? _ then _ else next).
  assert (ar_Generation next' = ar_Generation next /\ ar_Instances next' = ids') as [Eg Ei]
    by (unfold next'; by branch). intros [= <- <-]. rewrite Ei. split.
  - rewrite Eg. unfold next. simpl. rewrite <- sameRoster_spec.
    destruct (sameRoster _ _ _ _); [done|]. split; [|done]. intros Hx. exfalso.
    unfold u64 in Hx. pose proof (Z.mod_pos_bound (ar_Generation (rc_current c) + 1) 18446744073709551616 ltac:(lia)).
    destruct (decide (ar_Generation (rc_current c) + 1 < 18446744073709551616)).
    + rewrite Z.mod_small in Hx; lia.
    + replace (ar_Generation (rc_current c) + 1) with 18446744073709551616 in Hx by lia. rewrite Z.mod_same in Hx; lia.
  - intros removed Hin id. assert (removed = removedRosterIDs (ar_Instances (rc_current c)) ids') as ->.
    { case_bool_decide; [apply list_elem_of_singleton in Hin; done|].
      apply elem_of_cons in Hin as [[= ->]|Hin]; [done|]. apply list_elem_of_singleton in Hin. done. }
    unfold removedRosterIDs. rewrite elem_of_sortStrings, list_elem_of_filter. naive_solver.
Qed.

Lemma generation_tracks_roster_witness :
  ar_Generation (rc_current (finishSync None (fun r => r) example_controller (Ok example_entries) 20).1.1) = 1.
Proof.
  refine (proj2 (proj1 (generation_tracks_roster example_controller example_entries 20 1 ["a"] _)) _).
  - vm_compute. reflexivity.
  - vm_compute. split_and!; try reflexivity. repeat constructor. eexists; reflexivity.
Defined.

(** Background work on a provisional roster needs verification: after a
    probe wake-up, a provisional roster allows background work only if probing
    on provisional rosters is enabled, the verification succeeded, the commit
    ran, and the roster was still young enough when it did. *)
Theorem provisional_background_verified (c : RosterController) (probeOn : bool) (verify : option (ActiveRoster -> bool))
    (commitRuns : bool) (now1 now2 : Time) :
  let c' := (WakeForProbe_provisional c (rc_current c) probeOn verify commitRuns now1 now2).1.1 in
  ar_Provisional (rc_current c) = true -> ar_BackgroundAllowed (rc_current c') = true ->
  probeOn = true /\ commitRuns = true
  /\ provisionalAgeValid now1 (ar_ConfirmedAt (rc_current c)) = true
  /\ provisionalAgeValid now2 (ar_ConfirmedAt (rc_current c)) = true
  /\ exists f r, verify = Some f /\ f r = true /\ ar_Entries r = ar_Entries (rc_current c).
Proof.
  cbv zeta. intros Hp. unfold WakeForProbe_provisional. rewrite Hp, Z.eqb_refl. cbn [andb].
  destruct (ar_BackgroundAllowed (rc_current c)) eqn:Eb; cbv beta iota zeta.
  - set (r := (rc_current c) <| ar_BackgroundAllowed := false |>
                <| ar_LifecycleRevision := u64 (ar_LifecycleRevision (rc_current c) + 1) |>).
    change (rc_current (c <| rc_current := r |>)) with r.
    change (ar_Provisional r) with (ar_Provisional (rc_current c)).
    change (ar_ConfirmedAt r) with (ar_ConfirmedAt (rc_current c)). rewrite Hp, Z.eqb_refl, !andb_true_r.
    destruct probeOn, (provisionalAgeValid now1 (ar_ConfirmedAt (rc_current c))); cbn [andb]; try done.
    destruct verify as [f|]; [|done]. destruct (f r) eqn:Ef; [|done].
    destruct commitRuns, (provisionalAgeValid now2 (ar_ConfirmedAt (rc_current c))); cbn [andb]; try done.
    intros _. split_and!; try done. by exists f, r.
  - rewrite Hp. cbn [andb].
    destruct probeOn, (provisionalAgeValid now1 (ar_ConfirmedAt (rc_current c))); cbn [andb]; try (by cbn [fst]; rewrite Eb).
    destruct verify as [f|]; [|by cbn [fst]; rewrite Eb]. destruct (f (rc_current c)) eqn:Ef; [|by cbn [fst]; rewrite Eb].
    rewrite Z.eqb_refl, !andb_true_r.
    destruct commitRuns, (provisionalAgeValid now2 (ar_ConfirmedAt (rc_current c))); cbn [andb];
      try (by cbn [fst]; rewrite Eb). intros _. split_and!; try done.
    by exists f, (rc_current c).
Qed.

Definition provisional_controller : RosterController :=
  NewRosterController (Some (rc_current example_controller)) (1 * Hour).

Lemma provisional_background_verified_witness :
  let c' := (WakeForProbe_provisional provisional_controller (rc_current provisional_controller) true (Some (fun _ => true))
               true (2 * Hour) (3 * Hour)).1.1 in
  ar_BackgroundAllowed (rc_current c') = true
  /\ provisionalAgeValid (3 * Hour) (ar_ConfirmedAt (rc_current provisional_controller)) = true.
Proof.
  cbv zeta. split; [vm_compute; reflexivity|].
  refine (proj1 (proj2 (proj2 (proj2 (provisional_background_verified provisional_controller true (Some (fun _ => true)) true
    (2 * Hour) (3 * Hour) _ _))))); vm_compute; reflexivity.
Defined.

(** A fail-closed roster can come back to life: when the degradation limit
    passes while a synchronisation is publishing and the publication then fails,
    the controller overwrites the fail-closed roster with one judged at the start
    of the synchronisation, which is degraded, allows background work, and bears
    the same lifecycle revision. *)
Theorem fail_closed_reverted_by_late_failure :
  exists (c : RosterController) (entries : list RosterEntry) (started enforced : Time),
    let interfere r := rc_current (EnforceLifecycle (mkController r true None) enforced).1.1 in
    let closed := interfere (rc_current c) in
    let final := rc_current (finishSync (Some (fun _ => Err "store")) interfere c (Ok entries) started).1.1 in
    controller_reachable c /\ started < enforced
    /\ ar_Health closed = RosterFailClosed /\ ar_BackgroundAllowed closed = false
    /\ ar_Health final = RosterDegraded /\ ar_BackgroundAllowed final = true
    /\ ar_LifecycleRevision final = ar_LifecycleRevision closed.
Proof.
  exists (finishSync None (fun r => r) example_controller (Err "unavailable") 20).1.1, example_entries,
    (30 * Minute), (31 * Minute). cbv zeta. split.
  - eapply reach_step; [apply example_controller_reachable|apply step_finish].
  - vm_compute. split_and!; reflexivity.
Qed.
