(* ===== verification/ProbeWindow.v ===== *)
(** * Probe windows (probe_classify.go, probe_state.go)

    A quota window that has reset stays lazy until a request opens it.  The
    controller keeps one state machine per account and window: it waits for the
    reset, checks the quota, sends one small request where strict evidence shows
    a lazy window, and verifies the effect. *)

From stdpp Require Import pretty.
From S2P Require Import Prelude Float64 Config Models Probe.
#[local] Open Scope string_scope.
#[local] Open Scope list_scope.
#[local] Open Scope Z_scope.
#[local] Open Scope go_scope.

Definition probeSkewTolerance : Duration := 120 * Second.
Definition probeMaxPlausibleWindow : Duration := 120 * 24 * Hour.
Definition probeUnknownResetRecheck : Duration := 30 * Minute.
Definition probeRefreshAfterResetDelay : Duration := Minute.

Inductive ProbeBaselineKind := ProbeBaselineNone | ProbeBaselineReset | ProbeBaselineUsageOnly.
#[export] Instance ProbeBaselineKind_eq_dec : EqDecision ProbeBaselineKind.
Proof. solve_decision. Defined.

Record ProbeBaseline := mkBaseline {
  pb_Kind : ProbeBaselineKind;
  pb_WindowKind : WindowKind;
  pb_ResetAt : Time;
  pb_Usage : float64;
  pb_NextRecheckAt : Time;
  pb_WindowLength : Duration;
  pb_CandidateLength : Duration;
  pb_StableIntervals : Z;
  pb_SuspectedLazy : bool;
}.
#[export] Instance ProbeBaseline_eta : Eta ProbeBaseline := fun r => mkBaseline
  (pb_Kind r) (pb_WindowKind r) (pb_ResetAt r) (pb_Usage r) (pb_NextRecheckAt r) (pb_WindowLength r)
  (pb_CandidateLength r) (pb_StableIntervals r) (pb_SuspectedLazy r).

Definition ResetProbeBaseline (reset : Time) (usage : float64) (length : Duration) : ProbeBaseline :=
  mkBaseline ProbeBaselineReset "" reset usage zeroTime length 0 0 false.
Definition UsageOnlyProbeBaseline (usage : float64) (next : Time) : ProbeBaseline :=
  mkBaseline ProbeBaselineUsageOnly "" zeroTime usage next 0 0 0 false.

Record QuotaSnapshot := mkQuotaSnapshot {
  qs_Valid : bool;
  qs_ResetAt : option Time;
  qs_Usage : option float64;
  qs_WindowKind : WindowKind;
  qs_WindowLength : Duration;
  qs_WindowLengthKnown : bool;
}.

Inductive ProbeClassificationKind :=
  ProbeInvalid | ProbeActivatedNew | ProbeActivatedInferred | ProbeNotDueYet | ProbeStillLazy | ProbeAmbiguous | ProbeAnomaly.
#[export] Instance ProbeClassificationKind_eq_dec : EqDecision ProbeClassificationKind.
Proof. solve_decision. Defined.

Record ProbeClassification := mkClassification {
  pc_Kind : ProbeClassificationKind;
  pc_Baseline : ProbeBaseline;
  pc_LengthUnknown : bool;
}.
Definition classified (kind : ProbeClassificationKind) (base : ProbeBaseline) : ProbeClassification :=
  mkClassification kind base false.

Definition usageActivated (old new : float64) : bool := f_lt f_zero old && f_eq new f_zero.

(** The reset moved further than two windows, or than any plausible window
    when the length is not known; [2*base.WindowLength] wraps around. *)
Definition jumpedTooFar (base : ProbeBaseline) (delta : Duration) : bool :=
  ((0 <? pb_WindowLength base) && (i64 (2 * pb_WindowLength base) <? delta))
  || ((pb_WindowLength base =? 0) && (probeMaxPlausibleWindow <? delta)).

Definition movedBack (base : ProbeBaseline) (reset : Time) : bool := Before reset (Add (pb_ResetAt base) (- probeSkewTolerance)).
Definition movedForward (base : ProbeBaseline) (reset : Time) : bool := After reset (Add (pb_ResetAt base) probeSkewTolerance).
Definition sameReset (base : ProbeBaseline) (reset : Time) : bool :=
  absDuration (Sub reset (pb_ResetAt base)) <=? probeSkewTolerance.

(** The block for a baseline suspected lazy; [None] falls through. *)
Definition classifySuspected (base : ProbeBaseline) (resetAt : option Time) (usage : float64) : option ProbeClassification :=
  match resetAt with
  | Some reset =>
      if movedBack base reset then Some (classified ProbeAnomaly base)
      else if jumpedTooFar base (Sub reset (pb_ResetAt base)) then Some (classified ProbeAnomaly base)
      else if movedForward base reset then
        Some (classified ProbeActivatedNew
                (base <| pb_ResetAt := reset |> <| pb_Usage := usage |> <| pb_SuspectedLazy := false |>))
      else if f_lt f_zero usage then
        Some (classified ProbeActivatedInferred (base <| pb_Usage := usage |> <| pb_SuspectedLazy := false |>))
      else if sameReset base reset then Some (classified ProbeStillLazy base)
      else None
  | None =>
      if f_lt f_zero usage then
        Some (classified ProbeActivatedInferred (base <| pb_Usage := usage |> <| pb_SuspectedLazy := false |>))
      else None
  end.

(** A first observation with a reset time. *)
Definition firstReset (snap : QuotaSnapshot) (reset : Time) (usage : float64) (now : Time) : ProbeClassification :=
  let n := (ResetProbeBaseline reset usage 0) <| pb_WindowKind := qs_WindowKind snap |> in
  let n := if qs_WindowLengthKnown snap then n <| pb_WindowLength := qs_WindowLength snap |> else n in
  if After reset now then classified ProbeNotDueYet n else classified ProbeStillLazy n.

(** The baseline moved to a new window; an unknown length is learnt from two
    intervals that agree. *)
Definition advanceBaseline (base : ProbeBaseline) (reset : Time) (usage : float64) (delta : Duration) : ProbeClassification :=
  let n := base <| pb_ResetAt := reset |> <| pb_Usage := usage |> <| pb_SuspectedLazy := false |> in
  let n :=
    if pb_WindowLength n =? 0 then
      if (0 <? pb_CandidateLength n) && (absDuration (i64 (pb_CandidateLength n - delta)) <=? probeSkewTolerance) then
        let n := n <| pb_StableIntervals := i64 (pb_StableIntervals n + 1) |> in
        if 2 <=? pb_StableIntervals n then n <| pb_WindowLength := delta |> else n
      else n <| pb_CandidateLength := delta |> <| pb_StableIntervals := 1 |>
    else n in
  mkClassification ProbeActivatedNew n (pb_WindowLength n =? 0).

(** The classification against a reset baseline. *)
Definition classifyReset (base : ProbeBaseline) (resetAt : option Time) (usage : float64) (now : Time) : ProbeClassification :=
  let settled :=
    if Before now (Add (pb_ResetAt base) probeRefreshAfterResetDelay) then classified ProbeNotDueYet base
    else
      match resetAt with
      | None =>
          if usageActivated (pb_Usage base) usage then
            classified ProbeActivatedInferred (base <| pb_Usage := usage |> <| pb_SuspectedLazy := false |>)
          else classified ProbeAmbiguous base
      | Some reset =>
          if sameReset base reset && negb (usageActivated (pb_Usage base) usage) then classified ProbeStillLazy base
          else classified ProbeAmbiguous base
      end in
  match resetAt with
  | Some reset =>
      let delta := Sub reset (pb_ResetAt base) in
      if movedBack base reset then classified ProbeAnomaly base
      else if jumpedTooFar base delta then classified ProbeAnomaly base
      else if movedForward base reset then advanceBaseline base reset usage delta
      else settled
  | None => settled
  end.

Definition classifyUsageOnly (base : ProbeBaseline) (usage : float64) (now : Time) : ProbeClassification :=
  if usageActivated (pb_Usage base) usage then
    classified ProbeActivatedInferred
      (base <| pb_Usage := usage |> <| pb_NextRecheckAt := Add now probeUnknownResetRecheck |> <| pb_SuspectedLazy := false |>)
  else if Before now (pb_NextRecheckAt base) then classified ProbeNotDueYet base
  else classified ProbeNotDueYet (base <| pb_NextRecheckAt := Add now probeUnknownResetRecheck |>).

Definition ClassifyProbeWindow (base : ProbeBaseline) (snap : QuotaSnapshot) (now : Time) : ProbeClassification :=
  match qs_Valid snap, qs_Usage snap with
  | true, Some usage =>
      match (if pb_SuspectedLazy base then classifySuspected base (qs_ResetAt snap) usage else None) with
      | Some c => c
      | None =>
          match pb_Kind base, qs_ResetAt snap with
          | ProbeBaselineNone, None =>
              classified ProbeNotDueYet (UsageOnlyProbeBaseline usage (Add now probeUnknownResetRecheck))
          | ProbeBaselineNone, Some reset | ProbeBaselineUsageOnly, Some reset => firstReset snap reset usage now
          | ProbeBaselineUsageOnly, None => classifyUsageOnly base usage now
          | ProbeBaselineReset, resetAt => classifyReset base resetAt usage now
          end
      end
  | _, _ => classified ProbeInvalid base
  end.

Definition looksLikeStrictLazyObservation (observedAt : Time) (used : option float64) (resetAt : Time) (length : Duration) : bool :=
  match used with
  | None => false
  | Some u =>
      if negb (f_eq u f_zero) || IsZero observedAt || IsZero resetAt || (length <=? 0) then false
      else closeToWindowEnd observedAt resetAt length
  end.

(** ** The controller *)

Abbreviation ProbeWindowKind := string (only parsing).
Definition ProbeWindowFiveHour : ProbeWindowKind := "five_hour".
Definition ProbeWindowLong : ProbeWindowKind := "long".

Inductive ProbeWindowState :=
  ProbeIdle | ProbeWaitingReset | ProbePendingCheck | ProbeSentAwaitingVerify | ProbeSentUnknown | ProbeRetryWait
  | ProbeConfirmed | ProbeAuthBlocked | ProbeAnomalyHold | ProbeWaitingRoster.
#[export] Instance ProbeWindowState_eq_dec : EqDecision ProbeWindowState.
Proof. solve_decision. Defined.

Record ProbeWindow := mkWindow {
  pw_State : ProbeWindowState;
  pw_Baseline : ProbeBaseline;
  pw_Deadline : Time;
  pw_RetryCount : Z;
  pw_AttemptID : string;
  pw_AuthBlockedAtLogin : LoginEpoch;
}.
#[export] Instance ProbeWindow_eta : Eta ProbeWindow := fun r => mkWindow
  (pw_State r) (pw_Baseline r) (pw_Deadline r) (pw_RetryCount r) (pw_AttemptID r) (pw_AuthBlockedAtLogin r).

Inductive ProbeEventKind :=
  ProbeEventDeadline | ProbeEventPrecheckResult | ProbeEventVerifyResult | ProbeEventAuthFailed | ProbeEventExternalLogin
  | ProbeEventRosterConfirmed | ProbeEventInstanceRemoved.
#[export] Instance ProbeEventKind_eq_dec : EqDecision ProbeEventKind.
Proof. solve_decision. Defined.

Record ProbeEvent := mkEvent {
  pe_Kind : ProbeEventKind;
  pe_Window : ProbeWindowKind;
  pe_Now : Time;
  pe_Snapshots : gmap ProbeWindowKind QuotaSnapshot;
  pe_ObservationInterval : Duration;
}.

(** The intents the controller emits, with the window they are for. *)
Inductive probe_intent :=
  | PrecheckIntent (instance : AuthInstanceID) (window : ProbeWindowKind)
  | SendIntent (instance : AuthInstanceID) (window : ProbeWindowKind).

Record ProbeController := mkProbeController {
  pr_windows : gmap AuthInstanceID (gmap ProbeWindowKind ProbeWindow);
  pr_seq : Z;
}.

Definition NewProbeController : ProbeController := mkProbeController ∅ 0.

(** [Load] drops windows in states it does not know; [ProbeWindowState] has only
    the known ones. *)
Definition LoadWindows (c : ProbeController) (all : gmap AuthInstanceID (gmap ProbeWindowKind ProbeWindow)) : ProbeController :=
  mkProbeController all (pr_seq c).

Definition deadlineFor (b : ProbeBaseline) (now : Time) (observationInterval : Duration) : Time :=
  if bool_decide (pb_Kind b = ProbeBaselineUsageOnly) then pb_NextRecheckAt b
  else if IsZero (pb_ResetAt b) then now
  else
    let resetMaturity := Add (pb_ResetAt b) probeRefreshAfterResetDelay in
    if (pb_WindowLength b <=? 0) || (observationInterval <=? 0) then resetMaturity
    else
      let observation := Add now observationInterval in
      if Before observation resetMaturity then observation else resetMaturity.

Definition readOnlyObservationDeadline (b : ProbeBaseline) (now : Time) (observationInterval : Duration) : Time :=
  let deadline := deadlineFor b now observationInterval in
  if After deadline now then deadline
  else Add now (if observationInterval <=? 0 then probeUnknownResetRecheck else observationInterval).

Definition probeBackoff (n : Z) : Duration := if n <=? 1 then Minute else if n =? 2 then 5 * Minute else 15 * Minute.

Definition compatibleLegacyProbeWindowKind (slot : ProbeWindowKind) (baseline : ProbeBaseline) (snap : QuotaSnapshot) : bool :=
  if (pb_WindowLength baseline <=? 0) || String.eqb (qs_WindowKind snap) "" || negb (qs_WindowLengthKnown snap)
     || (qs_WindowLength snap <=? 0)
     || (probeSkewTolerance <? absDuration (i64 (qs_WindowLength snap - pb_WindowLength baseline))) then false
  else if String.eqb slot ProbeWindowFiveHour then String.eqb (qs_WindowKind snap) WindowFiveHour
  else if String.eqb slot ProbeWindowLong
       then String.eqb (qs_WindowKind snap) WindowWeekly || String.eqb (qs_WindowKind snap) WindowMonthly
  else false.

Definition externalResetRebaseApplies (baseline : ProbeBaseline) (snap : QuotaSnapshot) (now : Time) : bool :=
  match qs_ResetAt snap, qs_Usage snap with
  | Some reset, Some usage =>
      if negb (bool_decide (pb_Kind baseline = ProbeBaselineReset)) || negb (qs_Valid snap) || negb (f_eq usage f_zero) then false
      else if negb (movedForward baseline reset) then false
      else
        let delta := Sub reset (pb_ResetAt baseline) in
        if (0 <? pb_WindowLength baseline) && (delta <=? i64 (2 * pb_WindowLength baseline)) then false
        else if (pb_WindowLength baseline =? 0) && (delta <=? probeMaxPlausibleWindow) then false
        else if negb (String.eqb (pb_WindowKind baseline) "") && negb (String.eqb (qs_WindowKind snap) (pb_WindowKind baseline)) then false
        else
          let length := if qs_WindowLengthKnown snap && (0 <? qs_WindowLength snap) then qs_WindowLength snap
                        else pb_WindowLength baseline in
          if length <=? 0 then false else looksLikeStrictLazyObservation now (Some usage) reset length
  | _, _ => false
  end.

(** The rebase of the baseline before a precheck is classified: the new
    baseline, whether the reset shifted to an unused window, and whether the
    strict lazy evidence authorises a send. *)
Definition precheckRebase (k : ProbeWindowKind) (baseline : ProbeBaseline) (snap : QuotaSnapshot) (now : Time)
  : ProbeBaseline * bool * bool :=
  match bool_decide (pb_Kind baseline = ProbeBaselineReset) && qs_Valid snap, qs_ResetAt snap, qs_Usage snap with
  | true, Some reset, Some usage =>
      let migrated := pb_SuspectedLazy baseline in
      let shifted := movedForward baseline reset in
      let shiftedZero := shifted && f_eq usage f_zero in
      let baseline := if String.eqb (pb_WindowKind baseline) "" && compatibleLegacyProbeWindowKind k baseline snap
                      then baseline <| pb_WindowKind := qs_WindowKind snap |> else baseline in
      let kindMatches := negb (String.eqb (pb_WindowKind baseline) "") && String.eqb (qs_WindowKind snap) (pb_WindowKind baseline) in
      if (shifted || migrated) && kindMatches && qs_WindowLengthKnown snap
         && looksLikeStrictLazyObservation now (Some usage) reset (qs_WindowLength snap)
      then (baseline <| pb_ResetAt := reset |> <| pb_Usage := usage |> <| pb_SuspectedLazy := true |>, shiftedZero, true)
      else (baseline, shiftedZero, false)
  | _, _, _ => (baseline, false, false)
  end.

Definition verifyRebase (baseline : ProbeBaseline) (snap : QuotaSnapshot) (now : Time) : ProbeBaseline :=
  match externalResetRebaseApplies baseline snap now, qs_ResetAt snap, qs_Usage snap with
  | true, Some reset, Some usage => baseline <| pb_ResetAt := reset |> <| pb_Usage := usage |> <| pb_SuspectedLazy := true |>
  | _, _, _ => baseline
  end.

Definition retryLater (w : ProbeWindow) (now : Time) : ProbeWindow :=
  let count := i64 (pw_RetryCount w + 1) in
  w <| pw_State := ProbeRetryWait |> <| pw_RetryCount := count |> <| pw_Deadline := Add now (probeBackoff count) |>.

(** A classified result: the new window, the intents and the sequence number. *)
Definition applyResult (i : AuthInstanceID) (k : ProbeWindowKind) (precheck : bool) (e : ProbeEvent) (w : ProbeWindow)
    (baseline : ProbeBaseline) (shiftedZero strictAuthorized : bool) (snap : QuotaSnapshot) (seq : Z)
  : ProbeWindow * list probe_intent * Z :=
  let cl := ClassifyProbeWindow baseline snap (pe_Now e) in
  let lazy := bool_decide (pc_Kind cl = ProbeStillLazy) || bool_decide (pc_Kind cl = ProbeAmbiguous) in
  let w := w <| pw_Baseline := pc_Baseline cl |> in
  if precheck && ((lazy && negb strictAuthorized)
                  || (shiftedZero && negb strictAuthorized && bool_decide (pc_Kind cl = ProbeActivatedNew))) then
    let b := (pw_Baseline w) <| pb_SuspectedLazy := false |> in
    (w <| pw_Baseline := b |> <| pw_State := ProbeWaitingReset |> <| pw_AttemptID := "" |>
       <| pw_Deadline := readOnlyObservationDeadline b (pe_Now e) (pe_ObservationInterval e) |>, [], seq)
  else
    match pc_Kind cl with
    | ProbeActivatedNew | ProbeActivatedInferred =>
        (w <| pw_State := ProbeConfirmed |> <| pw_Deadline := zeroTime |>, [], seq)
    | ProbeNotDueYet =>
        (w <| pw_State := ProbeWaitingReset |>
           <| pw_Deadline := deadlineFor (pw_Baseline w) (pe_Now e) (pe_ObservationInterval e) |>, [], seq)
    | ProbeAnomaly =>
        (w <| pw_State := ProbeAnomalyHold |> <| pw_Deadline := Add (pe_Now e) probeUnknownResetRecheck |>, [], seq)
    | ProbeStillLazy | ProbeAmbiguous =>
        if precheck then
          let seq := u64 (seq + 1) in
          (w <| pw_State := ProbeSentAwaitingVerify |> <| pw_AttemptID := "probe-" +:+ pretty (seq : Z) |>, [SendIntent i k], seq)
        else (retryLater w (pe_Now e), [], seq)
    | ProbeInvalid => (retryLater w (pe_Now e), [], seq)
    end.

(** One window of the loop of [Advance]. *)
Definition advanceWindow (i : AuthInstanceID) (e : ProbeEvent) (k : ProbeWindowKind) (w : ProbeWindow) (seq : Z)
  : ProbeWindow * list probe_intent * Z :=
  if negb (String.eqb (pe_Window e) "") && negb (String.eqb (pe_Window e) k) then (w, [], seq)
  else
    match pe_Kind e with
    | ProbeEventDeadline =>
        if (bool_decide (pw_State w = ProbeWaitingReset) || bool_decide (pw_State w = ProbeRetryWait)
            || bool_decide (pw_State w = ProbeAnomalyHold)) && negb (After (pw_Deadline w) (pe_Now e))
        then (w <| pw_State := ProbePendingCheck |> <| pw_Deadline := zeroTime |>, [PrecheckIntent i k], seq)
        else (w, [], seq)
    | ProbeEventPrecheckResult =>
        if negb (bool_decide (pw_State w = ProbePendingCheck)) then (w, [], seq)
        else
          match pe_Snapshots e !! k with
          | None => (w, [], seq)
          | Some snap =>
              let '(baseline, shiftedZero, strictAuthorized) := precheckRebase k (pw_Baseline w) snap (pe_Now e) in
              applyResult i k true e w baseline shiftedZero strictAuthorized snap seq
          end
    | ProbeEventVerifyResult =>
        if negb (bool_decide (pw_State w = ProbeSentAwaitingVerify)) && negb (bool_decide (pw_State w = ProbeSentUnknown))
        then (w, [], seq)
        else
          match pe_Snapshots e !! k with
          | None => (w, [], seq)
          | Some snap => applyResult i k false e w (verifyRebase (pw_Baseline w) snap (pe_Now e)) false false snap seq
          end
    | ProbeEventAuthFailed =>
        if negb (bool_decide (pw_State w = ProbeIdle)) then (w <| pw_State := ProbeAuthBlocked |>, [], seq) else (w, [], seq)
    | ProbeEventExternalLogin =>
        if bool_decide (pw_State w = ProbeAuthBlocked) then (w <| pw_State := ProbePendingCheck |>, [], seq) else (w, [], seq)
    | ProbeEventRosterConfirmed =>
        if negb (bool_decide (pw_State w = ProbeWaitingRoster)) then (w, [], seq)
        else if pb_SuspectedLazy (pw_Baseline w)
             then (w <| pw_State := ProbePendingCheck |> <| pw_Deadline := zeroTime |>, [], seq)
        else (w <| pw_State := ProbeWaitingReset |>
                <| pw_Deadline := deadlineFor (pw_Baseline w) (pe_Now e) (pe_ObservationInterval e) |>, [], seq)
    | ProbeEventInstanceRemoved => (w, [], seq)
    end.

Definition advance_step (i : AuthInstanceID) (e : ProbeEvent)
    (acc : gmap ProbeWindowKind ProbeWindow * list probe_intent * Z) (kw : ProbeWindowKind * ProbeWindow)
  : gmap ProbeWindowKind ProbeWindow * list probe_intent * Z :=
  let '(ws, out, seq) := acc in
  let '(k, w) := kw in
  let '(w, intents, seq) := advanceWindow i e k w seq in
  (<[k := w]> ws, out ++ intents, seq).

Definition Advance `{MapRange} (c : ProbeController) (i : AuthInstanceID) (e : ProbeEvent) : ProbeController * list probe_intent :=
  match pr_windows c !! i with
  | None => (c, [])
  | Some ws =>
      if bool_decide (pe_Kind e = ProbeEventInstanceRemoved) then (mkProbeController (delete i (pr_windows c)) (pr_seq c), [])
      else
        let '(ws, out, seq) := foldl (advance_step i e) (ws, [], pr_seq c) (map_range ws) in
        (mkProbeController (<[i := ws]> (pr_windows c)) seq, out)
  end.

Definition SetWindow (c : ProbeController) (i : AuthInstanceID) (k : ProbeWindowKind) (w : ProbeWindow) : ProbeController :=
  mkProbeController (<[i := <[k := w]> (default ∅ (pr_windows c !! i))]> (pr_windows c)) (pr_seq c).

Definition ReplaceInstance (c : ProbeController) (i : AuthInstanceID) (windows : gmap ProbeWindowKind ProbeWindow) : ProbeController :=
  if bool_decide (windows = ∅) then mkProbeController (delete i (pr_windows c)) (pr_seq c)
  else mkProbeController (<[i := windows]> (pr_windows c)) (pr_seq c).

Definition RemoveWindow (c : ProbeController) (i : AuthInstanceID) (k : ProbeWindowKind) : ProbeController :=
  match pr_windows c !! i with
  | None => c
  | Some ws =>
      let ws := delete k ws in
      if bool_decide (ws = ∅) then mkProbeController (delete i (pr_windows c)) (pr_seq c)
      else mkProbeController (<[i := ws]> (pr_windows c)) (pr_seq c)
  end.

(** The windows that wait for a deadline. *)
Definition sleeping (w : ProbeWindow) : bool :=
  bool_decide (pw_State w = ProbeWaitingReset) || bool_decide (pw_State w = ProbeRetryWait)
  || bool_decide (pw_State w = ProbeAnomalyHold).

Definition NextDeadline `{MapRange} (c : ProbeController) : Time :=
  foldl (fun out w => if negb (sleeping w) then out
                      else if negb (IsZero (pw_Deadline w)) && (IsZero out || Before (pw_Deadline w) out) then pw_Deadline w else out)
    zeroTime (concat ((fun ws => (map_range ws).*2) <$> (map_range (pr_windows c)).*2)).

(** ** The loop over the windows *)

Lemma advance_fold i e l ws out seq :
  NoDup l.*1 ->
  let r := foldl (advance_step i e) (ws, out, seq) l in
  (forall k, k ∉ l.*1 -> r.1.1 !! k = ws !! k)
  /\ (forall k w, (k, w) ∈ l -> exists s, r.1.1 !! k = Some (advanceWindow i e k w s).1.1)
  /\ (forall x, x ∈ r.1.2 -> x ∈ out \/ exists k w s, (k, w) ∈ l /\ x ∈ (advanceWindow i e k w s).1.2).
Proof.
  revert ws out seq. induction l as [|[k w] l IH]; intros ws out seq Hnd; simpl.
  { split_and!; try done; [|by left]. intros k w ?%not_elem_of_nil. done. }
  apply NoDup_cons in Hnd as [Hn Hnd]. destruct (advanceWindow i e k w seq) as [[w' intents] seq'] eqn:E.
  destruct (IH (<[k := w']> ws) (out ++ intents) seq' Hnd) as (H1 & H2 & H3). split_and!.
  - intros k' [Hne Hk']%not_elem_of_cons. rewrite H1 by done. by apply lookup_insert_ne.
  - intros k' w0 [[= -> ->]|Hin]%elem_of_cons; [|by apply H2]. exists seq. rewrite H1, lookup_insert_eq by done. by rewrite E.
  - intros x [[Hx|Hx]%elem_of_app|(k' & w0 & s & Hin & Hx)]%H3; [by left| |].
    + right. exists k, w, seq. rewrite E. split; [constructor|done].
    + right. exists k', w0, s. split; [by constructor|done].
Qed.

Lemma map_range_keys `{MapRange} (ws : gmap ProbeWindowKind ProbeWindow) : NoDup (map_range ws).*1.
Proof. rewrite map_range_perm. apply NoDup_fst_map_to_list. Qed.

(** What [Advance] does to the window [k] of the instance [i]. *)
Lemma Advance_windows `{MapRange} c i e ws :
  pr_windows c !! i = Some ws -> pe_Kind e <> ProbeEventInstanceRemoved ->
  exists ws', pr_windows (Advance c i e).1 = <[i := ws']> (pr_windows c)
    /\ (forall k, ws !! k = None -> ws' !! k = None)
    /\ (forall k w, ws !! k = Some w -> exists s, ws' !! k = Some (advanceWindow i e k w s).1.1)
    /\ (forall x, x ∈ (Advance c i e).2 -> exists k w s, ws !! k = Some w /\ x ∈ (advanceWindow i e k w s).1.2).
Proof.
  intros Hw Hk. unfold Advance. rewrite Hw, bool_decide_false by done.
  pose proof (advance_fold i e (map_range ws) ws [] (pr_seq c) (map_range_keys ws)) as (H1 & H2 & H3).
  destruct (foldl _ _ _) as [[ws' out] seq']. simpl in *. exists ws'. split_and!; [done|..].
  - intros k Hn. rewrite H1; [done|]. intros ([k' w] & -> & Hin%elem_of_map_range)%list_elem_of_fmap. simpl in *. congruence.
  - intros k w Hkw. apply H2. by apply elem_of_map_range.
  - intros x [Hx|(k & w & s & Hin & Hx)]%H3; [by apply not_elem_of_nil in Hx|].
    exists k, w, s. split; [|done]. by apply elem_of_map_range.
Qed.

Lemma Advance_absent `{MapRange} c i e : pr_windows c !! i = None -> Advance c i e = (c, []).
Proof. intros E. unfold Advance. by rewrite E. Qed.

(** ** Properties *)

(** A reset within three minutes of a full window from now, or more than 292 years
    before it, where the difference no longer fits a duration. *)
Definition freshly_opened (now reset length : Z) : Prop :=
  now + length - 3 * Minute <= reset <= now + length + 3 * Minute \/ reset - (now + length) <= minInt64.

(** Strict evidence for a lazy window: a valid snapshot of an unused window of
    known length and named kind whose reset lies one window from now, at a
    reset that moved forward by more than the tolerance or was already suspected. *)
Record strict_evidence (e : ProbeEvent) (k : ProbeWindowKind) (w : ProbeWindow) : Prop := {
  se_precheck : pe_Kind e = ProbeEventPrecheckResult;
  se_pending : pw_State w = ProbePendingCheck;
  se_snapshot : exists snap reset usage, pe_Snapshots e !! k = Some snap
    /\ qs_Valid snap = true /\ qs_ResetAt snap = Some reset /\ qs_Usage snap = Some usage /\ f_eq usage f_zero = true
    /\ qs_WindowLengthKnown snap = true /\ 0 < qs_WindowLength snap /\ qs_WindowKind snap <> ""
    /\ freshly_opened (pe_Now e) reset (qs_WindowLength snap)
    /\ (pb_ResetAt (pw_Baseline w) + probeSkewTolerance < reset \/ pb_SuspectedLazy (pw_Baseline w) = true);
}.

Lemma closeToWindowEnd_freshly now reset length : closeToWindowEnd now reset length = true -> freshly_opened now reset length.
Proof.
  intros H. unfold freshly_opened. destruct (Z.le_gt_cases (reset - (now + length)) minInt64) as [|Hgt]; [by right|left].
  by apply close_to_window_end_iff.
Qed.

Lemma strict_lazy_spec now used reset length :
  looksLikeStrictLazyObservation now (Some used) reset length = true ->
  f_eq used f_zero = true /\ 0 < length /\ freshly_opened now reset length.
Proof.
  unfold looksLikeStrictLazyObservation. destruct (f_eq used f_zero); simpl; [|done].
  destruct (IsZero now); [done|]. destruct (IsZero reset); [done|]. simpl. destruct (Z.leb_spec length 0); [done|].
  auto using closeToWindowEnd_freshly.
Qed.

Lemma precheckRebase_authorized k base snap now b z :
  precheckRebase k base snap now = (b, z, true) ->
  exists reset usage, qs_Valid snap = true /\ qs_ResetAt snap = Some reset /\ qs_Usage snap = Some usage
    /\ f_eq usage f_zero = true /\ qs_WindowLengthKnown snap = true /\ 0 < qs_WindowLength snap /\ qs_WindowKind snap <> ""
    /\ freshly_opened now reset (qs_WindowLength snap)
    /\ (pb_ResetAt base + probeSkewTolerance < reset \/ pb_SuspectedLazy base = true).
Proof.
  unfold precheckRebase. destruct (bool_decide (pb_Kind base = ProbeBaselineReset)); simpl; [|done].
  destruct (qs_Valid snap); [|done]. destruct (qs_ResetAt snap) as [reset|]; [|done]. destruct (qs_Usage snap) as [usage|]; [|done].
  set (base' := if String.eqb (pb_WindowKind base) "" && _ then _ else base).
  destruct (_ && _ && _ && _) eqn:E; [|done]. intros _. exists reset, usage.
  apply andb_true_iff in E as [[[E1 E2]%andb_true_iff E3]%andb_true_iff E4].
  apply strict_lazy_spec in E4 as (F1 & F2 & F3). apply orb_true_iff in E1.
  apply andb_true_iff in E2 as [E5%negb_true_iff%String.eqb_neq E6%String.eqb_eq].
  split_and!; try done; [congruence|]. destruct E1 as [E1|E1]; [left; revert E1; unfold movedForward; time_lia|by right].
Qed.

Lemma applyResult_send i k precheck e w base z auth snap seq x :
  x ∈ (applyResult i k precheck e w base z auth snap seq).1.2 -> x = SendIntent i k /\ precheck = true /\ auth = true.
Proof.
  unfold applyResult. cbv zeta. set (cl := ClassifyProbeWindow base snap (pe_Now e)).
  destruct precheck; cbn [andb].
  - destruct (_ || (z && _ && _)) eqn:E; [by intros ?%not_elem_of_nil|].
    destruct (pc_Kind cl) eqn:Ek; try (by intros ?%not_elem_of_nil);
      (intros ->%list_elem_of_singleton; split_and!; try done; destruct auth; [done|]; by simpl in E).
  - destruct (pc_Kind cl); by intros ?%not_elem_of_nil.
Qed.

(** C36: A probe request is sent only on strict evidence: every send intent of the
    controller is for a window that was pending, answers a precheck, and rests on
    a valid snapshot of an unused window of known length and kind whose reset moved
    forward by more than the tolerance, or was suspected before, and lies within three
    minutes of a full window from now (or so far in the past, more than 292 years,
    that the difference no longer fits a duration and passes the test). *)
Theorem probe_send_requires_strict_evidence `{MapRange} (c : ProbeController) (i j : AuthInstanceID) (k : ProbeWindowKind)
    (e : ProbeEvent) :
  SendIntent j k ∈ (Advance c i e).2 ->
  j = i /\ exists ws w, pr_windows c !! i = Some ws /\ ws !! k = Some w /\ strict_evidence e k w.
Proof.
  destruct (pr_windows c !! i) as [ws|] eqn:Hw; [|rewrite Advance_absent by done; by intros ?%not_elem_of_nil].
  destruct (decide (pe_Kind e = ProbeEventInstanceRemoved)) as [Hr|Hr].
  { unfold Advance. rewrite Hw, bool_decide_true by done. by intros ?%not_elem_of_nil. }
  destruct (Advance_windows c i e ws Hw Hr) as (ws' & _ & _ & _ & Hx). intros (k' & w & s & Hkw & Hin)%Hx.
  unfold advanceWindow in Hin. destruct (_ && _); [by apply not_elem_of_nil in Hin|].
  destruct (pe_Kind e) eqn:Ek; try (branch_in Hin; first [by apply not_elem_of_nil in Hin|by apply list_elem_of_singleton in Hin]).
  - case_bool_decide as Hp; cbn [negb] in Hin; [|by apply not_elem_of_nil in Hin].
    destruct (pe_Snapshots e !! k') as [snap|] eqn:Es; [|by apply not_elem_of_nil in Hin].
    destruct (precheckRebase k' (pw_Baseline w) snap (pe_Now e)) as [[b z] auth] eqn:Er.
    apply applyResult_send in Hin as ([= -> ->] & _ & ->). split; [done|]. exists ws, w. split_and!; try done.
    apply precheckRebase_authorized in Er as (reset & usage & Hs). split; [done|done|]. exists snap, reset, usage. tauto.
  - destruct (_ && _) in Hin; [by apply not_elem_of_nil in Hin|].
    destruct (pe_Snapshots e !! k') as [snap|] eqn:Es; [|by apply not_elem_of_nil in Hin].
    by apply applyResult_send in Hin as (_ & ? & _).
  - destruct (negb _); [by apply not_elem_of_nil in Hin|]. destruct (pb_SuspectedLazy _); by apply not_elem_of_nil in Hin.
  - by apply not_elem_of_nil in Hin.
Qed.

Definition example_lazy_window : ProbeWindow :=
  mkWindow ProbePendingCheck
    ((ResetProbeBaseline (1 * Hour) f_zero (5 * Hour)) <| pb_WindowKind := WindowFiveHour |>) zeroTime 0 "" 0.
Definition example_precheck : ProbeEvent :=
  mkEvent ProbeEventPrecheckResult "" (2 * Hour)
    {[ProbeWindowFiveHour := mkQuotaSnapshot true (Some (7 * Hour)) (Some f_zero) WindowFiveHour (5 * Hour) true]} (30 * Minute).
Definition example_probes : ProbeController :=
  mkProbeController {[1 := {[ProbeWindowFiveHour := example_lazy_window]}]} 0.

Lemma probe_send_requires_strict_evidence_witness :
  exists ws w, pr_windows example_probes !! 1 = Some ws /\ ws !! ProbeWindowFiveHour = Some w
    /\ strict_evidence example_precheck ProbeWindowFiveHour w.
Proof.
  refine (proj2 (probe_send_requires_strict_evidence example_probes 1 1 ProbeWindowFiveHour example_precheck _)).
  vm_compute. constructor.
Defined.

(** The state machine of one window. *)
Inductive probe_transition : ProbeEventKind -> ProbeWindowState -> ProbeWindowState -> Prop :=
  | tr_due s : s ∈ [ProbeWaitingReset; ProbeRetryWait; ProbeAnomalyHold] ->
      probe_transition ProbeEventDeadline s ProbePendingCheck
  | tr_precheck s' : s' ∈ [ProbeWaitingReset; ProbeConfirmed; ProbeAnomalyHold; ProbeSentAwaitingVerify; ProbeRetryWait] ->
      probe_transition ProbeEventPrecheckResult ProbePendingCheck s'
  | tr_verify s s' : s ∈ [ProbeSentAwaitingVerify; ProbeSentUnknown] ->
      s' ∈ [ProbeWaitingReset; ProbeConfirmed; ProbeAnomalyHold; ProbeRetryWait] ->
      probe_transition ProbeEventVerifyResult s s'
  | tr_auth s : s <> ProbeIdle -> probe_transition ProbeEventAuthFailed s ProbeAuthBlocked
  | tr_login : probe_transition ProbeEventExternalLogin ProbeAuthBlocked ProbePendingCheck
  | tr_roster s' : s' ∈ [ProbePendingCheck; ProbeWaitingReset] ->
      probe_transition ProbeEventRosterConfirmed ProbeWaitingRoster s'.

Lemma applyResult_state i k precheck e w base z auth snap seq :
  pw_State (applyResult i k precheck e w base z auth snap seq).1.1
  ∈ (if precheck then [ProbeWaitingReset; ProbeConfirmed; ProbeAnomalyHold; ProbeSentAwaitingVerify; ProbeRetryWait]
     else [ProbeWaitingReset; ProbeConfirmed; ProbeAnomalyHold; ProbeRetryWait]).
Proof.
  unfold applyResult. cbv zeta. destruct precheck; cbn [andb].
  - destruct (_ || _); [repeat constructor|]. destruct (pc_Kind _); simpl; repeat constructor.
  - destruct (pc_Kind _); simpl; repeat constructor.
Qed.

Lemma advanceWindow_transition i e k w s :
  let w' := (advanceWindow i e k w s).1.1 in
  w' = w \/ probe_transition (pe_Kind e) (pw_State w) (pw_State w').
Proof.
  cbv zeta. unfold advanceWindow. destruct (_ && _); [by left|]. destruct (pe_Kind e).
  - destruct (_ && _) eqn:E; [|by left]. right. apply andb_true_iff in E as [E _]. simpl. constructor.
    apply orb_true_iff in E as [[E%bool_decide_eq_true|E%bool_decide_eq_true]%orb_true_iff|E%bool_decide_eq_true];
      rewrite E; repeat constructor.
  - case_bool_decide as Hp; cbn [negb]; [|by left]. destruct (pe_Snapshots e !! k) as [snap|]; [|by left].
    destruct (precheckRebase _ _ _ _) as [[b z] auth]. right. rewrite Hp. constructor.
    exact (applyResult_state i k true e w b z auth snap s).
  - destruct (_ && _) eqn:E; [by left|]. destruct (pe_Snapshots e !! k) as [snap|]; [|by left]. right. constructor.
    + apply andb_false_iff in E as [E%negb_false_iff%bool_decide_eq_true|E%negb_false_iff%bool_decide_eq_true];
        rewrite E; repeat constructor.
    + exact (applyResult_state i k false e w _ false false snap s).
  - case_bool_decide as Hp; cbn [negb]; [by left|]. right. by constructor.
  - case_bool_decide as Hp; [|by left]. right. rewrite Hp. constructor.
  - case_bool_decide as Hp; cbn [negb]; [|by left]. right. rewrite Hp. constructor.
    destruct (pb_SuspectedLazy _); simpl; repeat constructor.
  - by left.
Qed.

(** The probe state machine: one event either leaves a window as it is or
    moves it along a permitted transition; it neither creates nor drops windows,
    nor touches the windows of other accounts, whatever the iteration order. *)
Theorem probe_transitions_permitted `{MapRange} (c : ProbeController) (i : AuthInstanceID) (e : ProbeEvent)
    (j : AuthInstanceID) (k : ProbeWindowKind) :
  pe_Kind e <> ProbeEventInstanceRemoved ->
  let before := pr_windows c !! j ≫= (.!! k) in
  let after := pr_windows (Advance c i e).1 !! j ≫= (.!! k) in
  before = after
  \/ (j = i /\ exists w w', before = Some w /\ after = Some w' /\ probe_transition (pe_Kind e) (pw_State w) (pw_State w')).
Proof.
  cbv zeta. intros Hr. destruct (pr_windows c !! i) as [ws|] eqn:Hw; [|rewrite Advance_absent by done; by left].
  destruct (Advance_windows c i e ws Hw Hr) as (ws' & -> & Hn & Hs & _).
  destruct (decide (j = i)) as [->|Hne]; [|left; by rewrite lookup_insert_ne by done].
  rewrite lookup_insert_eq, Hw. simpl. destruct (ws !! k) as [w|] eqn:Hk.
  - destruct (Hs k w Hk) as [s E]. rewrite E.
    destruct (advanceWindow_transition i e k w s) as [H'|H']; [left; by rewrite H'|right; eauto 10].
  - left. symmetry. by apply Hn.
Qed.

Lemma probe_transitions_permitted_witness :
  exists w', pr_windows (Advance example_probes 1 example_precheck).1 !! 1 ≫= (.!! ProbeWindowFiveHour) = Some w'
    /\ probe_transition ProbeEventPrecheckResult ProbePendingCheck (pw_State w').
Proof.
  destruct (probe_transitions_permitted example_probes 1 example_precheck 1 ProbeWindowFiveHour) as [E|(_ & w & w' & Ew & Ew' & Ht)].
  - vm_compute. discriminate.
  - vm_compute in E. discriminate E.
  - exists w'. split; [exact Ew'|]. vm_compute in Ew. injection Ew as <-. exact Ht.
Defined.

(** A window counts as newly activated only on plausible evidence: the
    snapshot is valid and its reset moved forward by more than the tolerance, by
    at most two windows where the length is known and at most 120 days where it
    is not; the baseline then moves to the new reset and is no longer suspected. *)
Theorem activation_is_plausible (base : ProbeBaseline) (snap : QuotaSnapshot) (now : Time) :
  let cl := ClassifyProbeWindow base snap now in
  pc_Kind cl = ProbeActivatedNew ->
  qs_Valid snap = true /\ exists reset, qs_ResetAt snap = Some reset
    /\ pb_ResetAt base + probeSkewTolerance < reset
    /\ jumpedTooFar base (Sub reset (pb_ResetAt base)) = false
    /\ pb_ResetAt (pc_Baseline cl) = reset /\ pb_SuspectedLazy (pc_Baseline cl) = false.
Proof.
  cbv zeta. unfold ClassifyProbeWindow. destruct (qs_Valid snap); [|done]. destruct (qs_Usage snap) as [usage|]; [|done].
  assert (forall reset, movedForward base reset = true -> pb_ResetAt base + probeSkewTolerance < reset) as Hf
    by (intros reset; unfold movedForward; time_lia).
  destruct (pb_SuspectedLazy base); [destruct (classifySuspected base (qs_ResetAt snap) usage) as [cl|] eqn:Es|].
  { unfold classifySuspected in Es. destruct (qs_ResetAt snap) as [reset|]; [|branch_in Es; by simplify_eq].
    destruct (movedBack base reset); [by simplify_eq|]. destruct (jumpedTooFar base _) eqn:Ej; [by simplify_eq|].
    destruct (movedForward base reset) eqn:Em.
    - injection Es as <-. intros _. split; [done|]. exists reset. split_and!; auto.
    - repeat (branch_in Es; try done); by simplify_eq. }
  all: assert (forall reset usage', pc_Kind (firstReset snap reset usage' now) <> ProbeActivatedNew) as Hfirst
    by (intros; unfold firstReset; by repeat branch).
  all: assert (pc_Kind (classifyReset base (qs_ResetAt snap) usage now) = ProbeActivatedNew ->
    exists reset, qs_ResetAt snap = Some reset /\ pb_ResetAt base + probeSkewTolerance < reset
      /\ jumpedTooFar base (Sub reset (pb_ResetAt base)) = false
      /\ pb_ResetAt (pc_Baseline (classifyReset base (qs_ResetAt snap) usage now)) = reset
      /\ pb_SuspectedLazy (pc_Baseline (classifyReset base (qs_ResetAt snap) usage now)) = false) as Hreset.
  1,3: unfold classifyReset; cbv zeta; destruct (qs_ResetAt snap) as [reset|];
    [destruct (movedBack base reset); [done|]; destruct (jumpedTooFar base _) eqn:Ej; [done|];
     destruct (movedForward base reset) eqn:Em;
     [intros _; exists reset; split_and!; auto; unfold advanceBaseline; cbv zeta; repeat branch; done
     |repeat (branch; try done)]
    |repeat (branch; try done)].
  all: destruct (pb_Kind base); [destruct (qs_ResetAt snap); [by intros ?%Hfirst|done]|by auto|
    destruct (qs_ResetAt snap); [by intros ?%Hfirst|unfold classifyUsageOnly; repeat (branch; try done)]].
Qed.

Lemma activation_is_plausible_witness :
  let base := ResetProbeBaseline (1 * Hour) f_zero (5 * Hour) in
  let snap := mkQuotaSnapshot true (Some (6 * Hour)) (Some f_zero) "" 0 false in
  exists reset, qs_ResetAt snap = Some reset /\ pb_ResetAt base + probeSkewTolerance < reset.
Proof.
  cbv zeta. destruct (activation_is_plausible (ResetProbeBaseline (1 * Hour) f_zero (5 * Hour))
    (mkQuotaSnapshot true (Some (6 * Hour)) (Some f_zero) "" 0 false) (2 * Hour)) as (_ & reset & E & Hlt & _).
  - vm_compute. reflexivity.
  - exists reset. split; [exact E|exact Hlt].
Defined.
