(* ===== verification/StateStore.v ===== *)
(** * The durable state store (state_store.go)

    The scheduler-control state is one JSON file with a backup.  A file is
    modelled by what reading it gives: nothing, a state, a text that does not
    decode, or a read error.  Replacing a file is atomic; it may fail before it
    takes effect or report an error after it did.  A crash is a failure at one of
    these points after which only the disk survives. *)

From S2P Require Import Prelude Float64 Config Models Identity Probe ProbeWindow.
#[local] Open Scope string_scope.
#[local] Open Scope list_scope.
#[local] Open Scope Z_scope.
#[local] Open Scope go_scope.

Definition CurrentStateSchema : Z := 2.

Inductive ProbeAttemptPhase := ProbeAttemptPrepared | ProbeAttemptSending | ProbeAttemptSent | ProbeAttemptSentUnknown.
#[export] Instance ProbeAttemptPhase_eq_dec : EqDecision ProbeAttemptPhase.
Proof. solve_decision. Defined.

Record ProbeAttempt := mkAttempt {
  at_Instance : AuthInstanceID;
  at_AttemptID : string;
  at_Windows : list string;
  at_Phase : ProbeAttemptPhase;
  at_SendFenceSeq : Z;
  at_CreatedAt : Time;
  at_SentAt : option Time;
  at_VerifyNotBefore : Time;
  at_SuppressUntil : Time;
}.
#[export] Instance ProbeAttempt_eta : Eta ProbeAttempt := fun r => mkAttempt
  (at_Instance r) (at_AttemptID r) (at_Windows r) (at_Phase r) (at_SendFenceSeq r) (at_CreatedAt r) (at_SentAt r)
  (at_VerifyNotBefore r) (at_SuppressUntil r).

Record RuntimeBinding := mkBinding {
  rb_AuthID : string;
  rb_AuthIndex : string;
  rb_AuthName : string;
  rb_Instance : AuthInstanceID;
  rb_Admission : InstanceAdmissionEpoch;
  rb_Generation : AuthBindingEpoch;
  rb_Login : LoginEpoch;
  rb_Token : TokenEpoch;
  rb_Fingerprint : CredentialFingerprint;
  rb_AuthBlocked : bool;
}.
#[export] Instance RuntimeBinding_eta : Eta RuntimeBinding := fun r => mkBinding
  (rb_AuthID r) (rb_AuthIndex r) (rb_AuthName r) (rb_Instance r) (rb_Admission r) (rb_Generation r) (rb_Login r)
  (rb_Token r) (rb_Fingerprint r) (rb_AuthBlocked r).
#[export] Instance RuntimeBinding_eq_dec : EqDecision RuntimeBinding.
Proof. solve_decision. Defined.

Record PersistedRosterEntry := mkPersistedEntry {
  pre_ID : string;
  pre_AuthIndex : string;
  pre_Priority : Z;
  pre_Fingerprint : CredentialFingerprint;
}.
Record PersistedConfirmedRoster := mkPersistedRoster {
  pcr_Generation : Z;
  pcr_ConfirmedAt : Time;
  pcr_Entries : list PersistedRosterEntry;
}.

(** The managed-disable records of managed_lifecycle.go. *)
Record LifecycleEvent := mkLifecycleEvent { le_Kind : string; le_At : Time; le_Detail : string }.
Record ManagedDisableRecord := mkManaged {
  mr_DisabledAt : Time;
  mr_DisableApplied : bool;
  mr_Fingerprint : CredentialFingerprint;
  mr_Last429At : Time;
  mr_ResetAt : Time;
  mr_LastQuotaCheckAt : Time;
  mr_NextQuotaCheckAt : Time;
  mr_Events : list LifecycleEvent;
}.
#[export] Instance ManagedDisableRecord_eta : Eta ManagedDisableRecord := fun r => mkManaged
  (mr_DisabledAt r) (mr_DisableApplied r) (mr_Fingerprint r) (mr_Last429At r) (mr_ResetAt r) (mr_LastQuotaCheckAt r)
  (mr_NextQuotaCheckAt r) (mr_Events r).

Record PersistentState := mkPersistent {
  ps_SchemaVersion : Z;
  ps_ReservedCeiling : Z;
  ps_NextSaveSeq : Z;
  ps_TierGeneration : TierGeneration;
  ps_AdmissionEpochs : gmap AuthInstanceID InstanceAdmissionEpoch;
  ps_CredentialChains : gmap AuthInstanceID TransitionChain;
  ps_FenceUnsafe : bool;
  ps_Bindings : gmap string RuntimeBinding;
  ps_ProbeAttempts : gmap AuthInstanceID ProbeAttempt;
  ps_ProbeAttemptSeq : Z;
  ps_ProbeWindows : gmap AuthInstanceID (gmap string ProbeWindow);
  ps_LastConfirmedRoster : option PersistedConfirmedRoster;
  ps_ManagedLifecycle : gmap string ManagedDisableRecord;
}.
#[export] Instance PersistentState_eta : Eta PersistentState := fun r => mkPersistent
  (ps_SchemaVersion r) (ps_ReservedCeiling r) (ps_NextSaveSeq r) (ps_TierGeneration r) (ps_AdmissionEpochs r)
  (ps_CredentialChains r) (ps_FenceUnsafe r) (ps_Bindings r) (ps_ProbeAttempts r) (ps_ProbeAttemptSeq r)
  (ps_ProbeWindows r) (ps_LastConfirmedRoster r) (ps_ManagedLifecycle r).

Definition NewPersistentState : PersistentState :=
  mkPersistent CurrentStateSchema 0 0 0 ∅ ∅ false ∅ ∅ 0 ∅ None ∅.

Inductive file := FileAbsent | FileState (st : PersistentState) | FileCorrupt | FileUnreadable.

Record Disk := mkDisk {
  d_primary : file;
  d_backup : file;
  d_primaryCorrupt : file;
  d_backupCorrupt : file;
}.
#[export] Instance Disk_eta : Eta Disk := fun r => mkDisk (d_primary r) (d_backup r) (d_primaryCorrupt r) (d_backupCorrupt r).

Record StateStore := mkStore {
  sto_disk : Disk;
  sto_readOnly : bool;
  sto_loaded : bool;
  sto_state : PersistentState;
}.
#[export] Instance StateStore_eta : Eta StateStore := fun r => mkStore
  (sto_disk r) (sto_readOnly r) (sto_loaded r) (sto_state r).

Definition NewStateStore (disk : Disk) : StateStore := mkStore disk false false NewPersistentState.

Inductive store_error := ErrStateReadOnly | ErrRead | ErrWrite | ErrEvidenceExists | ErrUpdate (reason : string).

(** The outcome of one atomic replacement. *)
Inductive write_outcome := WriteOk | FailsBefore | FailsAfter.

(** [writeAtomic]: the file after it, and the error it returns. *)
Definition writeAtomic (old new : file) (outcome : write_outcome) : file * option store_error :=
  match outcome with
  | WriteOk => (new, None)
  | FailsBefore => (old, Some ErrWrite)
  | FailsAfter => (new, Some ErrWrite)
  end.

(** The normalisation every write and load performs; nil maps are empty maps. *)
Definition writeLockedMode (s : StateStore) (state : PersistentState) (mirrorBackup : bool) (ioBackup ioPrimary : write_outcome)
  : StateStore * option store_error :=
  if sto_readOnly s then (s, Some ErrStateReadOnly)
  else
    let state := if sto_loaded s && ps_FenceUnsafe (sto_state s) then state <| ps_FenceUnsafe := true |> else state in
    let state := state <| ps_SchemaVersion := CurrentStateSchema |> in
    let write current :=
      let '(backup, err) := writeAtomic (d_backup (sto_disk s)) current ioBackup in
      let s := s <| sto_disk := (sto_disk s) <| d_backup := backup |> |> in
      match err with
      | Some e => (s, Some e)
      | None =>
          let '(primary, err) := writeAtomic (d_primary (sto_disk s)) (FileState state) ioPrimary in
          let s := s <| sto_disk := (sto_disk s) <| d_primary := primary |> |> in
          match err with
          | Some e => (s, Some e)
          | None => (s <| sto_state := state |> <| sto_loaded := true |>, None)
          end
      end in
    if mirrorBackup then write (FileState state)
    else
      match d_primary (sto_disk s) with
      | FileUnreadable => (s, Some ErrRead)
      | FileAbsent => write (FileState state)
      | current => write current
      end.
Definition writeLocked (s : StateStore) (state : PersistentState) := writeLockedMode s state false.

Definition WriteThrough (s : StateStore) (state : PersistentState) (ioBackup ioPrimary : write_outcome)
  : StateStore * option store_error := writeLocked s state ioBackup ioPrimary.

Record RecoveryReport := mkReport {
  rr_Migrated : bool;
  rr_ReadOnly : bool;
  rr_UsedBackup : bool;
  rr_RecoveredEmpty : bool;
  rr_FenceUnsafe : bool;
}.
#[export] Instance RecoveryReport_eta : Eta RecoveryReport := fun r => mkReport
  (rr_Migrated r) (rr_ReadOnly r) (rr_UsedBackup r) (rr_RecoveredEmpty r) (rr_FenceUnsafe r).
Definition emptyReport : RecoveryReport := mkReport false false false false false.

(** [quarantine] moves a file aside: the file, the evidence file and the error. *)
Definition quarantine (f evidence : file) (outcome : write_outcome) : file * file * option store_error :=
  match f with
  | FileAbsent => (f, evidence, None)
  | FileUnreadable => (f, evidence, Some ErrRead)
  | _ =>
      match evidence with
      | FileUnreadable => (f, evidence, Some ErrRead)
      | FileAbsent =>
          match outcome with
          | WriteOk => (FileAbsent, f, None)
          | FailsBefore => (f, evidence, Some ErrWrite)
          | FailsAfter => (FileAbsent, f, Some ErrWrite)
          end
      | _ => (f, evidence, Some ErrEvidenceExists)
      end
  end.

Definition quarantinePrimary (s : StateStore) (outcome : write_outcome) : StateStore * option store_error :=
  let '(f, ev, err) := quarantine (d_primary (sto_disk s)) (d_primaryCorrupt (sto_disk s)) outcome in
  (s <| sto_disk := (sto_disk s) <| d_primary := f |> <| d_primaryCorrupt := ev |> |>, err).
Definition quarantineBackup (s : StateStore) (outcome : write_outcome) : StateStore * option store_error :=
  let '(f, ev, err) := quarantine (d_backup (sto_disk s)) (d_backupCorrupt (sto_disk s)) outcome in
  (s <| sto_disk := (sto_disk s) <| d_backup := f |> <| d_backupCorrupt := ev |> |>, err).

(** The end of [loadLocked], with the state that was read. *)
Definition adoptState (s : StateStore) (state : PersistentState) (report : RecoveryReport)
  : StateStore * result store_error (PersistentState * RecoveryReport) :=
  let '(s, report) := if CurrentStateSchema <? ps_SchemaVersion state
                      then (s <| sto_readOnly := true |>, report <| rr_ReadOnly := true |>) else (s, report) in
  let '(state, report) := if ps_SchemaVersion state <? CurrentStateSchema
                          then (state <| ps_SchemaVersion := CurrentStateSchema |>, report <| rr_Migrated := true |>)
                          else (state, report) in
  let report := if ps_FenceUnsafe state then report <| rr_FenceUnsafe := true |> else report in
  (s <| sto_state := state |> <| sto_loaded := true |>, Ok (state, report)).

(** The outcomes of the file operations a load may perform. *)
Record load_io := mkLoadIO { io_quarantine1 : write_outcome; io_quarantine2 : write_outcome; io_backup : write_outcome; io_primary : write_outcome }.
Definition io_fine : load_io := mkLoadIO WriteOk WriteOk WriteOk WriteOk.

(** Both files are unusable: start empty, with fences marked unsafe. *)
Definition recoverEmpty (s : StateStore) (io : load_io) (primaryCorrupt backupCorrupt : bool)
  : StateStore * result store_error (PersistentState * RecoveryReport) :=
  let '(s, err1) := if primaryCorrupt then quarantinePrimary s (io_quarantine1 io) else (s, None) in
  match err1 with
  | Some e => (s, Err e)
  | None =>
      let '(s, err2) := if backupCorrupt then quarantineBackup s (io_quarantine2 io) else (s, None) in
      match err2 with
      | Some e => (s, Err e)
      | None =>
          let state := NewPersistentState <| ps_FenceUnsafe := true |> in
          let '(s, werr) := writeLocked s state (io_backup io) (io_primary io) in
          match werr with
          | Some e => (s, Err e)
          | None => (s, Ok (state, emptyReport <| rr_RecoveredEmpty := true |> <| rr_FenceUnsafe := true |>))
          end
      end
  end.

Definition loadLocked (s : StateStore) (io : load_io) : StateStore * result store_error (PersistentState * RecoveryReport) :=
  match d_primary (sto_disk s) with
  | FileState state => adoptState s state emptyReport
  | FileUnreadable => (s, Err ErrRead)
  | FileAbsent =>
      match d_backup (sto_disk s) with
      | FileState state => adoptState s state (emptyReport <| rr_UsedBackup := true |>)
      | FileAbsent => adoptState s NewPersistentState emptyReport
      | FileUnreadable => (s, Err ErrRead)
      | FileCorrupt => recoverEmpty s io false true
      end
  | FileCorrupt =>
      match d_backup (sto_disk s) with
      | FileState state =>
          let '(s, err) := quarantinePrimary s (io_quarantine1 io) in
          match err with
          | Some e => (s, Err e)
          | None =>
              let '(primary, werr) := writeAtomic (d_primary (sto_disk s)) (FileState state) (io_primary io) in
              let s := s <| sto_disk := (sto_disk s) <| d_primary := primary |> |> in
              match werr with
              | Some e => (s, Err e)
              | None => adoptState s state (emptyReport <| rr_UsedBackup := true |>)
              end
          end
      | FileAbsent => recoverEmpty s io true false
      | FileUnreadable => (s, Err ErrRead)
      | FileCorrupt => recoverEmpty s io true true
      end
  end.

(** [Load] always reads the files; the other operations load when needed. *)
Definition Load := loadLocked.

Definition ensureLoaded (s : StateStore) (io : load_io) : StateStore * option store_error :=
  if sto_loaded s then (s, None)
  else let '(s, r) := loadLocked s io in (s, match r with Ok _ => None | Err e => Some e end).

Definition PersistentSnapshot (s : StateStore) (io : load_io) : StateStore * result store_error PersistentState :=
  let '(s, err) := ensureLoaded s io in
  match err with Some e => (s, Err e) | None => (s, Ok (sto_state s)) end.

Definition updateMode (mirror : bool) (s : StateStore) (fn : PersistentState -> result string PersistentState) (io : load_io)
    (ioBackup ioPrimary : write_outcome) : StateStore * result store_error PersistentState :=
  let '(s, err) := ensureLoaded s io in
  match err with
  | Some e => (s, Err e)
  | None =>
      match fn (sto_state s) with
      | Err reason => (s, Err (ErrUpdate reason))
      | Ok next =>
          let '(s, werr) := writeLockedMode s next mirror ioBackup ioPrimary in
          match werr with Some e => (s, Err e) | None => (s, Ok (sto_state s)) end
      end
  end.
Definition Update := updateMode false.
Definition UpdateMirrored := updateMode true.

(** ** Crash safety *)

(** The store is loaded, writable, and its memory agrees with the disk. *)
Record synced (s : StateStore) (st : PersistentState) : Prop := {
  sy_loaded : sto_loaded s = true;
  sy_writable : sto_readOnly s = false;
  sy_state : sto_state s = st;
  sy_primary : d_primary (sto_disk s) = FileState st;
  sy_schema : ps_SchemaVersion st = CurrentStateSchema;
}.

(** What a write makes of the state it is given. *)
Definition written (old next : PersistentState) : PersistentState :=
  (if ps_FenceUnsafe old then next <| ps_FenceUnsafe := true |> else next) <| ps_SchemaVersion := CurrentStateSchema |>.

Lemma written_schema old next : ps_SchemaVersion (written old next) = CurrentStateSchema.
Proof. done. Qed.

Lemma adopt_current s st report :
  ps_SchemaVersion st = CurrentStateSchema ->
  adoptState s st report =
    (s <| sto_state := st |> <| sto_loaded := true |>, Ok (st, if ps_FenceUnsafe st then report <| rr_FenceUnsafe := true |> else report)).
Proof. intros E. unfold adoptState. rewrite E, !Z.ltb_irrefl. done. Qed.

(** The disk after a write, by the outcomes of its two replacements. *)
Definition write_result (s : StateStore) (st' : PersistentState) (current : file) (ioB ioP : write_outcome)
  : StateStore * option store_error :=
  match ioB, ioP with
  | FailsBefore, _ => (s, Some ErrWrite)
  | FailsAfter, _ => (s <| sto_disk := (sto_disk s) <| d_backup := current |> |>, Some ErrWrite)
  | WriteOk, FailsBefore => (s <| sto_disk := (sto_disk s) <| d_backup := current |> |>, Some ErrWrite)
  | WriteOk, FailsAfter =>
      (s <| sto_disk := (sto_disk s) <| d_backup := current |> <| d_primary := FileState st' |> |>, Some ErrWrite)
  | WriteOk, WriteOk =>
      (s <| sto_disk := (sto_disk s) <| d_backup := current |> <| d_primary := FileState st' |> |>
         <| sto_state := st' |> <| sto_loaded := true |>, None)
  end.

(** A write of a loaded store; memory may lag behind the disk. *)
Lemma write_loaded s st pst next mirror ioB ioP :
  sto_loaded s = true -> sto_readOnly s = false -> sto_state s = st -> d_primary (sto_disk s) = FileState pst ->
  writeLockedMode s next mirror ioB ioP
  = write_result s (written st next) (if mirror then FileState (written st next) else FileState pst) ioB ioP.
Proof.
  intros H1 H2 H3 H4. unfold writeLockedMode, written, write_result, writeAtomic. rewrite H1, H2, H3. cbn [andb]. cbv zeta.
  destruct s as [[p b pc bc] ro ld mem]. simpl in *. subst.
  destruct mirror, ioB, ioP; reflexivity.
Qed.

Lemma write_synced s st next mirror ioB ioP :
  synced s st ->
  writeLockedMode s next mirror ioB ioP
  = write_result s (written st next) (if mirror then FileState (written st next) else FileState st) ioB ioP.
Proof. intros [H1 H2 H3 H4 _]. by apply write_loaded. Qed.

Lemma Update_synced mirror s st fn next io ioB ioP :
  synced s st -> fn st = Ok next ->
  updateMode mirror s fn io ioB ioP =
    (let '(s', err) := write_result s (written st next) (if mirror then FileState (written st next) else FileState st) ioB ioP in
     (s', match err with Some e => Err e | None => Ok (sto_state s') end)).
Proof.
  intros Hs Hf. unfold updateMode, ensureLoaded. rewrite (sy_loaded _ _ Hs), (sy_state _ _ Hs), Hf, (write_synced s st) by done.
  by destruct (write_result _ _ _ _ _) as [s' [e|]].
Qed.

(** A property that both the memory and the main file of a loaded store have. *)
Record keeps (Q : PersistentState -> Prop) (s : StateStore) : Prop := {
  kp_loaded : sto_loaded s = true;
  kp_writable : sto_readOnly s = false;
  kp_memory : Q (sto_state s);
  kp_disk : exists d, d_primary (sto_disk s) = FileState d /\ ps_SchemaVersion d = CurrentStateSchema /\ Q d;
}.

(** An update whose function keeps the property keeps it on both sides, wherever
    it fails; a successful one leaves the same state on both. *)
Lemma updateMode_keeps mirror Q s fn io ioB ioP :
  keeps Q s -> (forall old st, Q st -> Q (written old st)) ->
  (forall st', fn (sto_state s) = Ok st' -> Q st') -> keeps Q (updateMode mirror s fn io ioB ioP).1.
Proof.
  intros [H1 H2 H3 (d & H4 & H5 & H6)] Hw Hf. unfold updateMode, ensureLoaded. rewrite H1.
  destruct (fn (sto_state s)) as [next|e]; [|split; eauto].
  rewrite (write_loaded s (sto_state s) d) by done.
  pose proof (Hw (sto_state s) next (Hf _ eq_refl)) as Hn. pose proof (written_schema (sto_state s) next) as Hv.
  set (st' := written _ _) in *. clearbody st'. destruct s as [[p b pc bc] ro ld mem]. simpl in *.
  destruct ioB; [destruct ioP|..]; cbn [write_result]; split; simpl; eauto.
Qed.
Lemma update_keeps Q s fn io ioB ioP :
  keeps Q s -> (forall old st, Q st -> Q (written old st)) ->
  (forall st', fn (sto_state s) = Ok st' -> Q st') -> keeps Q (Update s fn io ioB ioP).1.
Proof. apply updateMode_keeps. Qed.

Lemma updateMode_success mirror Q s fn io ioB ioP s' got :
  keeps Q s -> updateMode mirror s fn io ioB ioP = (s', Ok got) ->
  exists next, fn (sto_state s) = Ok next /\ synced s' (written (sto_state s) next) /\ got = written (sto_state s) next.
Proof.
  intros [H1 H2 H3 (d & H4 & H5 & H6)]. unfold updateMode, ensureLoaded. rewrite H1.
  destruct (fn (sto_state s)) as [next|e]; [|done]. rewrite (write_loaded s (sto_state s) d) by done. intros E. exists next.
  split; [done|]. pose proof (written_schema (sto_state s) next) as Hv. set (st' := written _ _) in *. clearbody st'.
  destruct s as [[p b pc bc] ro ld mem]. simpl in *.
  destruct ioB; [destruct ioP|..]; cbn [write_result] in E; try done. injection E as <- <-. by split.
Qed.
Lemma update_success Q s fn io ioB ioP s' got :
  keeps Q s -> Update s fn io ioB ioP = (s', Ok got) ->
  exists next, fn (sto_state s) = Ok next /\ synced s' (written (sto_state s) next).
Proof. intros Hk (next & Hf & Hs & _)%(updateMode_success false Q); [|done]. eauto. Qed.

(** A failed update leaves the memory as it was. *)
Lemma updateMode_failure mirror Q s fn io ioB ioP s' e :
  keeps Q s -> updateMode mirror s fn io ioB ioP = (s', Err e) -> sto_state s' = sto_state s.
Proof.
  intros [H1 H2 H3 (d & H4 & H5 & H6)]. unfold updateMode, ensureLoaded. rewrite H1.
  destruct (fn (sto_state s)) as [next|r]; [|by intros [= <- _]]. rewrite (write_loaded s (sto_state s) d) by done.
  destruct s as [[p b pc bc] ro ld mem]. simpl in *. destruct ioB; [destruct ioP|..]; cbn [write_result]; by intros [= <- _].
Qed.

Lemma snapshot_loaded Q s io : keeps Q s -> PersistentSnapshot s io = (s, Ok (sto_state s)).
Proof. intros [Hl _ _ _]. unfold PersistentSnapshot, ensureLoaded. by rewrite Hl. Qed.

Lemma keeps_mono (Q Q' : PersistentState -> Prop) s : (forall st, Q st -> Q' st) -> keeps Q s -> keeps Q' s.
Proof. intros HQ [H1 H2 H3 (d & H4 & H5 & H6)]. split; eauto 6. Qed.
Lemma synced_keeps (Q : PersistentState -> Prop) s st : synced s st -> Q st -> keeps Q s.
Proof. intros [H1 H2 H3 H4 H5] HQ. split; [done|done|by rewrite H3|by exists st]. Qed.

Lemma restart_keeps Q s io s' r :
  keeps Q s -> Load (NewStateStore (sto_disk s)) io = (s', Ok r) -> keeps Q s'.
Proof.
  intros [H1 H2 H3 (d & H4 & H5 & H6)]. unfold Load, loadLocked. simpl. rewrite H4, adopt_current by done.
  intros [= <- _]. split; simpl; eauto.
Qed.

Lemma load_primary disk st io :
  d_primary disk = FileState st -> ps_SchemaVersion st = CurrentStateSchema ->
  (Load (NewStateStore disk) io).2 = Ok (st, if ps_FenceUnsafe st then emptyReport <| rr_FenceUnsafe := true |> else emptyReport).
Proof. intros Hp Hv. unfold Load, loadLocked. simpl. rewrite Hp. by rewrite adopt_current. Qed.

(** C6: An update is atomic and durable: wherever it fails or the process dies,
    restarting on the disk it leaves behind loads either the state before it or
    the state after it, never an empty one; it reports success only if the new
    state is on disk, and after an error memory still holds the old state. *)
Theorem update_crash_safe (mirror : bool) (s : StateStore) (st next : PersistentState)
    (fn : PersistentState -> result string PersistentState) (io io' : load_io) (ioB ioP : write_outcome) :
  synced s st -> fn st = Ok next ->
  let '(s', r) := updateMode mirror s fn io ioB ioP in
  let st' := written st next in
  (exists st'', (st'' = st \/ st'' = st')
     /\ (Load (NewStateStore (sto_disk s')) io').2
        = Ok (st'', if ps_FenceUnsafe st'' then emptyReport <| rr_FenceUnsafe := true |> else emptyReport))
  /\ (forall got, r = Ok got -> got = st' /\ synced s' st')
  /\ (forall e, r = Err e -> sto_state s' = st).
Proof.
  intros Hs Hf. rewrite (Update_synced mirror s st fn next) by done. pose proof (written_schema st next) as Hv.
  set (st' := written st next) in *. clearbody st'. destruct Hs as [H1 H2 H3 H4 H5].
  destruct s as [[p b pc bc] ro ld mem]. simpl in *. subst.
  destruct ioB; [destruct ioP| |]; cbn [write_result]; (split; [|split; [intros got [= <-]|intros e [= <-]]]); try done.
  all: try (exists st; split; [by left|]; by apply load_primary).
  all: try (exists st'; split; [by right|]; by apply load_primary).
Qed.

Definition example_disk : Disk := mkDisk (FileState NewPersistentState) FileAbsent FileAbsent FileAbsent.
Definition example_store : StateStore := (Load (NewStateStore example_disk) io_fine).1.
Definition bump_seq (st : PersistentState) : result string PersistentState := Ok (st <| ps_NextSaveSeq := 7 |>).

Lemma update_crash_safe_witness :
  let s' := (Update example_store bump_seq io_fine WriteOk FailsAfter).1 in
  sto_state s' = NewPersistentState /\ d_primary (sto_disk s') = FileState (NewPersistentState <| ps_NextSaveSeq := 7 |>).
Proof.
  cbv zeta. split; [|reflexivity].
  refine (proj2 (proj2 (update_crash_safe false example_store NewPersistentState _ bump_seq io_fine io_fine WriteOk FailsAfter _ _)) ErrWrite _).
  - split; reflexivity.
  - reflexivity.
  - reflexivity.
Defined.

(** Losing the main file costs at most the last update: after a successful
    update, if the main file disappears or no longer decodes, a load still
    succeeds from the backup with the state before the update, and with the
    updated state itself when the update was mirrored. *)
Theorem backup_one_update_behind (mirror : bool) (s s' : StateStore) (st next got : PersistentState)
    (fn : PersistentState -> result string PersistentState) (io io' : load_io) (damaged : file) :
  synced s st -> fn st = Ok next -> updateMode mirror s fn io WriteOk WriteOk = (s', Ok got) ->
  damaged = FileAbsent \/ (damaged = FileCorrupt /\ d_primaryCorrupt (sto_disk s) = FileAbsent
                           /\ io_quarantine1 io' = WriteOk /\ io_primary io' = WriteOk) ->
  exists report, (Load (NewStateStore ((sto_disk s') <| d_primary := damaged |>)) io').2
    = Ok (if mirror then written st next else st, report) /\ rr_UsedBackup report = true /\ rr_RecoveredEmpty report = false.
Proof.
  intros Hs Hf. rewrite (Update_synced mirror s st fn next) by done. pose proof (written_schema st next) as Hv.
  set (st' := written st next) in *. clearbody st'. destruct Hs as [H1 H2 H3 H4 H5].
  destruct s as [[p b pc bc] ro ld mem]. simpl in *. subst. cbn [write_result]. intros [= <- _] Hd.
  set (kept := if mirror then st' else st).
  assert ((if mirror then FileState st' else FileState st) = FileState kept) as -> by (unfold kept; by destruct mirror).
  assert (ps_SchemaVersion kept = CurrentStateSchema) as Hk by (unfold kept; by destruct mirror). clearbody kept.
  exists (if ps_FenceUnsafe kept then emptyReport <| rr_UsedBackup := true |> <| rr_FenceUnsafe := true |>
          else emptyReport <| rr_UsedBackup := true |>).
  split; [|split; by destruct (ps_FenceUnsafe kept)].
  destruct Hd as [-> |(-> & -> & Hq & Hw)]; unfold Load, loadLocked; simpl.
  - by rewrite adopt_current.
  - unfold quarantinePrimary. simpl. rewrite Hq, Hw. simpl. by rewrite adopt_current.
Qed.

Lemma backup_one_update_behind_witness :
  exists report, (Load (NewStateStore ((sto_disk (Update example_store bump_seq io_fine WriteOk WriteOk).1) <| d_primary := FileCorrupt |>)) io_fine).2
    = Ok (NewPersistentState, report) /\ rr_UsedBackup report = true /\ rr_RecoveredEmpty report = false.
Proof.
  eapply (backup_one_update_behind false example_store _ NewPersistentState _ _ bump_seq io_fine io_fine FileCorrupt).
  - split; reflexivity.
  - reflexivity.
  - reflexivity.
  - right. repeat split; reflexivity.
Defined.

(** ** The unsafe-fence flag *)

(** Neither memory nor the main file promises safe fences. *)
Record unsafe_store (s : StateStore) : Prop := {
  us_memory : sto_loaded s = true -> ps_FenceUnsafe (sto_state s) = true;
  us_primary : exists st, d_primary (sto_disk s) = FileState st /\ ps_FenceUnsafe st = true;
}.

Lemma load_unsafe s io : unsafe_store s -> unsafe_store (loadLocked s io).1 /\ sto_loaded (loadLocked s io).1 = true.
Proof.
  intros [H1 (st & Hp & Hu)]. unfold loadLocked. rewrite Hp. unfold adoptState.
  destruct (CurrentStateSchema <? _), (_ <? CurrentStateSchema); simpl; split; try done; by split; [|eauto].
Qed.

Lemma write_unsafe s state mirror ioB ioP :
  unsafe_store s -> sto_loaded s = true -> unsafe_store (writeLockedMode s state mirror ioB ioP).1.
Proof.
  intros [H1 (st & Hp & Hu)] Hl. unfold writeLockedMode. destruct (sto_readOnly s); [by split; [|eauto]|]. cbv zeta.
  rewrite Hl, (H1 Hl), Hp. cbn [andb].
  set (state' := set_field ps_SchemaVersion _ _). assert (ps_FenceUnsafe state' = true) as Hst by done. clearbody state'.
  destruct s as [[p b pc bc] ro ld mem]. simpl in *.
  destruct mirror, ioB; try destruct ioP; simpl; split; simpl; eauto.
Qed.

Lemma update_unsafe mirror s fn io ioB ioP : unsafe_store s -> unsafe_store (updateMode mirror s fn io ioB ioP).1.
Proof.
  intros Hu. unfold updateMode, ensureLoaded.
  assert (forall s0, unsafe_store s0 -> sto_loaded s0 = true ->
    unsafe_store (match fn (sto_state s0) with
                  | Err reason => (s0, Err (ErrUpdate reason))
                  | Ok next => let '(s, werr) := writeLockedMode s0 next mirror ioB ioP in
                               match werr with Some e => (s, Err e) | None => (s, Ok (sto_state s)) end
                  end).1) as Hw.
  { intros s0 H0 Hl. destruct (fn (sto_state s0)) as [next|]; [|done].
    pose proof (write_unsafe s0 next mirror ioB ioP H0 Hl) as H'. by destruct (writeLockedMode _ _ _ _ _) as [s1 [e|]]. }
  destruct (sto_loaded s) eqn:El; [by apply Hw|].
  destruct (load_unsafe s io Hu) as [H1 H2]. destruct (loadLocked s io) as [s1 [r|e]]; [by apply Hw|done].
Qed.

(** What happens to a store: updates and writes by callers that loaded it,
    and restarts, which keep only the disk; a write may fail anywhere. *)
Inductive store_step : StateStore -> StateStore -> Prop :=
  | sstep_update s mirror fn io ioB ioP : store_step s (updateMode mirror s fn io ioB ioP).1
  | sstep_write s state ioB ioP : sto_loaded s = true -> store_step s (WriteThrough s state ioB ioP).1
  | sstep_load s io : store_step s (Load s io).1
  | sstep_restart s : store_step s (NewStateStore (sto_disk s)).
Definition store_steps := rtc store_step.

Lemma step_unsafe s s' : store_step s s' -> unsafe_store s -> unsafe_store s'.
Proof.
  intros Hs Hu. destruct Hs; [by apply update_unsafe|by apply write_unsafe|by apply load_unsafe|].
  destruct Hu as [_ H2]. by split.
Qed.

Lemma recoverEmpty_unsafe s io p b s' r :
  sto_loaded s = false -> recoverEmpty s io p b = (s', Ok r) -> unsafe_store s'.
Proof.
  unfold recoverEmpty. intros Hl.
  destruct (if p then _ else _) as [s1 [e|]] eqn:E1; [done|].
  destruct (if b then _ else _) as [s2 [e|]] eqn:E2; [done|].
  destruct (writeLocked s2 _ _ _) as [s3 [e|]] eqn:Ew; [done|]. intros [= <- _]. revert Ew.
  unfold writeLocked, writeLockedMode. destruct (sto_readOnly s2); [done|]. cbv zeta.
  set (state := set_field ps_SchemaVersion _ _).
  assert (ps_FenceUnsafe state = true) as Hst by (unfold state; by destruct (_ && _)). clearbody state.
  destruct s2 as [[p2 b2 pc bc] ro ld mem]. destruct p2, (io_backup io); try destruct (io_primary io); simpl; try done;
    intros [= <-]; split; simpl; eauto.
Qed.

(** An unusable state makes fences unsafe for good: once a load had to start
    from an empty state, every later state of the store, through updates that
    fail anywhere, writes, reloads and restarts, still says that fence numbers
    cannot be trusted. *)
Theorem fence_unsafe_sticky (disk : Disk) (io : load_io) (s s' : StateStore) (st : PersistentState) (report : RecoveryReport) :
  Load (NewStateStore disk) io = (s, Ok (st, report)) -> rr_RecoveredEmpty report = true -> store_steps s s' ->
  rr_FenceUnsafe report = true /\ unsafe_store s'.
Proof.
  intros HL Hr Hs.
  assert (unsafe_store s /\ rr_FenceUnsafe report = true) as [Hu Hf].
  { assert (forall s0 st0 rep0, rr_RecoveredEmpty rep0 = false -> (adoptState s0 st0 rep0).2 = Ok (st, report) -> False) as Hno.
    { intros s0 st0 rep0 H0. unfold adoptState. destruct (_ <? _), (_ <? _), (ps_FenceUnsafe _); simpl;
        intros [= _ <-]; simpl in Hr; congruence. }
    assert (exists p b, recoverEmpty (NewStateStore disk) io p b = (s, Ok (st, report))) as (p & b & E).
    { unfold Load, loadLocked in HL. simpl in HL.
      destruct (d_primary disk); [| |destruct (d_backup disk)|done]; try (by eauto);
        try (exfalso; eapply (Hno _ _ _); [|by rewrite HL]; done).
      - destruct (d_backup disk); try (by eauto); try (exfalso; eapply (Hno _ _ _); [|by rewrite HL]; done).
      - exfalso. destruct (quarantinePrimary _ _) as [s1 [e|]]; [done|].
        destruct (writeAtomic _ _ _) as [f [e|]]; [done|]. eapply (Hno _ _ _); [|by rewrite HL]. done. }
    split; [by apply (recoverEmpty_unsafe (NewStateStore disk) io p b s (st, report))|]. unfold recoverEmpty in E.
    destruct (if p then _ else _) as [s1 [e|]]; [done|]. destruct (if b then _ else _) as [s2 [e|]]; [done|].
    destruct (writeLocked _ _ _ _) as [s3 [e|]]; [done|]. by injection E as _ _ <-. }
  split; [done|]. clear HL Hr. induction Hs as [|x y z Hxy _ IH]; [done|]. apply IH. by eapply step_unsafe.
Qed.

Lemma fence_unsafe_sticky_witness :
  let s := (Load (NewStateStore (mkDisk FileCorrupt FileAbsent FileAbsent FileAbsent)) io_fine).1 in
  unsafe_store (NewStateStore (sto_disk s)).
Proof.
  cbv zeta.
  refine (proj2 (fence_unsafe_sticky (mkDisk FileCorrupt FileAbsent FileAbsent FileAbsent) io_fine _ _
    (NewPersistentState <| ps_FenceUnsafe := true |>) (emptyReport <| rr_RecoveredEmpty := true |> <| rr_FenceUnsafe := true |>) _ _ _)).
  - reflexivity.
  - reflexivity.
  - apply rtc_once. apply sstep_restart.
Defined.

(** A crash during recovery forgets the danger: when the main file does not
    decode and there is no backup, the load first moves the file aside; if the
    process dies before the empty state is written, the restart finds no file,
    starts from a fresh state, and reports neither a recovery nor unsafe fences. *)
Theorem recovery_crash_loses_unsafe_flag :
  exists (disk : Disk) (io : load_io) (e : store_error),
    d_primary disk = FileCorrupt
    /\ (Load (NewStateStore disk) io).2 = Err e
    /\ (Load (NewStateStore (sto_disk (Load (NewStateStore disk) io).1)) io_fine).2 = Ok (NewPersistentState, emptyReport)
    /\ ps_FenceUnsafe NewPersistentState = false.
Proof.
  exists (mkDisk FileCorrupt FileAbsent FileAbsent FileAbsent), (mkLoadIO WriteOk WriteOk FailsBefore WriteOk), ErrWrite.
  by repeat split.
Qed.
