(* ===== verification/Fence.v ===== *)
(** * Fence allocator (fence.go)

    Fences are sequence numbers that order the plugin's effects across restarts.
    The allocator reserves them in blocks: a ceiling is made durable before any
    number below it is handed out. *)

From S2P Require Import Prelude Float64 Config Models Identity Probe ProbeWindow StateStore.
#[local] Open Scope string_scope.
#[local] Open Scope list_scope.
#[local] Open Scope Z_scope.
#[local] Open Scope go_scope.

Definition FenceBlockSize : Z := Z.shiftl 1 20.

Inductive fence_error := ErrFenceOverflow | ErrFenceUnsafe | ErrFenceStore (e : store_error) | ErrFenceCrash.

(** The allocator; of its copy of the state it reads two fields. *)
Record FenceAllocator := mkAllocator {
  fa_reserved : Z;
  fa_unsafe : bool;
  fa_next : Z;
  fa_ceiling : Z;
  fa_initialized : bool;
}.
#[export] Instance FenceAllocator_eta : Eta FenceAllocator := fun r => mkAllocator
  (fa_reserved r) (fa_unsafe r) (fa_next r) (fa_ceiling r) (fa_initialized r).

Definition NewFenceAllocator (state : PersistentState) : FenceAllocator :=
  mkAllocator (ps_ReservedCeiling state) (ps_FenceUnsafe state) 0 0 false.

(** The update the allocator applies to the durable state. *)
Definition reserveBlock (s : PersistentState) : result string PersistentState :=
  if ps_FenceUnsafe s then Err "fence ceiling is not trustworthy"
  else if maxUint64 - FenceBlockSize <? ps_ReservedCeiling s then Err "fence sequence overflow"
  else Ok (s <| ps_ReservedCeiling := u64 (ps_ReservedCeiling s + FenceBlockSize) |>).

(** The outcomes of one call: the crash points and the file operations. *)
Record fence_io := mkFenceIO { fi_before : bool; fi_after : bool; fi_load : load_io; fi_backup : write_outcome; fi_primary : write_outcome }.
Definition fence_fine : fence_io := mkFenceIO true true io_fine WriteOk WriteOk.

Definition handOut (a : FenceAllocator) (s : StateStore) : FenceAllocator * StateStore * result fence_error Z :=
  (a <| fa_next := u64 (fa_next a + 1) |>, s, Ok (fa_next a)).

Definition Next (a : FenceAllocator) (s : StateStore) (io : fence_io) : FenceAllocator * StateStore * result fence_error Z :=
  if negb (fa_initialized a) && fa_unsafe a then (a, s, Err ErrFenceUnsafe)
  else
    let a := if negb (fa_initialized a)
             then a <| fa_next := u64 (fa_reserved a + 1) |> <| fa_ceiling := fa_reserved a |> <| fa_initialized := true |> else a in
    if fa_ceiling a <? fa_next a then
      if maxUint64 - FenceBlockSize <? fa_reserved a then (a, s, Err ErrFenceOverflow)
      else if negb (fi_before io) then (a, s, Err ErrFenceCrash)
      else
        let '(s, committed) := Update s reserveBlock (fi_load io) (fi_backup io) (fi_primary io) in
        match committed with
        | Err e => (a, s, Err (ErrFenceStore e))
        | Ok st =>
            let a := a <| fa_reserved := ps_ReservedCeiling st |> in
            if negb (fi_after io) then (a, s, Err ErrFenceCrash)
            else handOut (a <| fa_ceiling := fa_reserved a |>) s
        end
    else handOut a s.

(** ** Uniqueness *)

(** The plugin's use of the allocator: calls of [Next], whatever they meet, and
    restarts, which load the disk and build a new allocator.  [issued] lists the
    fences handed out, the latest first. *)
Inductive fence_run : FenceAllocator -> StateStore -> list Z -> Prop :=
  | run_start disk st io s report :
      Load (NewStateStore disk) io = (s, Ok (st, report)) -> d_primary disk = FileState st ->
      ps_SchemaVersion st = CurrentStateSchema -> ps_FenceUnsafe st = false ->
      (FenceBlockSize | ps_ReservedCeiling st) -> 0 <= ps_ReservedCeiling st <= maxUint64 ->
      fence_run (NewFenceAllocator st) s []
  | run_next a s issued io a' s' v :
      fence_run a s issued -> Next a s io = (a', s', Ok v) -> fence_run a' s' (v :: issued)
  | run_fail a s issued io a' s' e :
      fence_run a s issued -> Next a s io = (a', s', Err e) -> fence_run a' s' issued
  | run_restart a s issued io s' st report :
      fence_run a s issued -> Load (NewStateStore (sto_disk s)) io = (s', Ok (st, report)) ->
      fence_run (NewFenceAllocator st) s' issued.

Record fence_inv (a : FenceAllocator) (s : StateStore) (issued : list Z) (durable : PersistentState) : Prop := {
  fv_loaded : sto_loaded s = true;
  fv_writable : sto_readOnly s = false;
  fv_primary : d_primary (sto_disk s) = FileState durable;
  fv_schema : ps_SchemaVersion durable = CurrentStateSchema;
  fv_safe : ps_FenceUnsafe durable = false /\ ps_FenceUnsafe (sto_state s) = false /\ fa_unsafe a = false;
  fv_lag : ps_ReservedCeiling durable = ps_ReservedCeiling (sto_state s)
           \/ ps_ReservedCeiling durable = ps_ReservedCeiling (sto_state s) + FenceBlockSize;
  fv_block : (FenceBlockSize | ps_ReservedCeiling (sto_state s));
  fv_range : 0 <= ps_ReservedCeiling (sto_state s) /\ ps_ReservedCeiling durable <= maxUint64;
  fv_reserved : fa_reserved a = ps_ReservedCeiling (sto_state s);
  fv_next : if fa_initialized a
            then 0 <= fa_next a <= fa_ceiling a + 1 /\ 0 <= fa_ceiling a <= fa_reserved a /\ Forall (fun v => v < fa_next a) issued
            else Forall (fun v => v <= fa_reserved a) issued;
  fv_issued : StronglySorted (fun x y => y < x) issued;
}.

Lemma block_not_max c : (FenceBlockSize | c) -> c <= maxUint64 -> c <= maxUint64 - 1.
Proof.
  intros [k ->] H. change FenceBlockSize with 1048576 in *. unfold maxUint64 in *. lia.
Qed.

Lemma fv_issued_durable a s issued d : fence_inv a s issued d -> Forall (fun v => v <= ps_ReservedCeiling (sto_state s)) issued.
Proof.
  intros []. destruct (fa_initialized a).
  - destruct fv_next0 as (H1 & H2 & H3). eapply Forall_impl; [done|]. simpl. intros. lia.
  - by rewrite <- fv_reserved0.
Qed.

(** Handing out the next number of a block. *)
Lemma handOut_inv a s issued d a' s' r :
  fence_inv a s issued d -> fa_initialized a = true -> fa_next a <= fa_ceiling a -> handOut a s = (a', s', r) ->
  exists v, r = Ok v /\ fence_inv a' s' (v :: issued) d.
Proof.
  intros [V1 V2 V3 V4 V5 V6 V7 V8 V9 V10 V11] Hi Hle [= <- <- <-]. rewrite Hi in V10. destruct V10 as (N1 & N2 & N3).
  exists (fa_next a). split; [done|]. pose proof (block_not_max _ V7 ltac:(change FenceBlockSize with 1048576 in *; lia)) as Hb.
  split; try done.
  - cbn [fa_initialized fa_next fa_ceiling fa_reserved set_field]. rewrite Hi. rewrite u64_small by lia.
    split_and!; try lia. constructor; [lia|]. eapply Forall_impl; [done|]. simpl. intros. lia.
  - constructor; [done|]. done.
Qed.

(** The allocator after its first call has fixed its bounds. *)
Definition initialise (a : FenceAllocator) : FenceAllocator :=
  if negb (fa_initialized a)
  then a <| fa_next := u64 (fa_reserved a + 1) |> <| fa_ceiling := fa_reserved a |> <| fa_initialized := true |> else a.

Lemma initialise_inv a s issued d :
  fence_inv a s issued d -> fence_inv (initialise a) s issued d /\ fa_initialized (initialise a) = true.
Proof.
  intros [V1 V2 V3 V4 V5 V6 V7 V8 V9 V10 V11]. unfold initialise. destruct (fa_initialized a) eqn:Hi; cbn [negb].
  - split; [|done]. split; try done. by rewrite Hi.
  - split; [|done]. pose proof (block_not_max _ V7 ltac:(change FenceBlockSize with 1048576 in *; lia)) as Hb.
    split; try done. cbn [fa_initialized fa_next fa_ceiling fa_reserved set_field]. rewrite V9 in *.
    rewrite u64_small by lia. split_and!; try lia. eapply Forall_impl; [done|]. simpl. intros. lia.
Qed.

(** The reservation of a block. *)
Lemma reserve_update s d io ioB ioP s' r :
  sto_loaded s = true -> sto_readOnly s = false -> d_primary (sto_disk s) = FileState d ->
  ps_SchemaVersion d = CurrentStateSchema ->
  ps_FenceUnsafe d = false -> ps_FenceUnsafe (sto_state s) = false ->
  Update s reserveBlock io ioB ioP = (s', r) ->
  sto_loaded s' = true /\ sto_readOnly s' = false /\ ps_FenceUnsafe (sto_state s') = false /\
  exists d', d_primary (sto_disk s') = FileState d' /\ ps_SchemaVersion d' = CurrentStateSchema /\ ps_FenceUnsafe d' = false
    /\ match r with
       | Ok st => ps_ReservedCeiling (sto_state s) <= maxUint64 - FenceBlockSize
                  /\ st = sto_state s' /\ d' = st
                  /\ ps_ReservedCeiling st = u64 (ps_ReservedCeiling (sto_state s) + FenceBlockSize)
       | Err _ => sto_state s' = sto_state s
                  /\ (d' = d \/ (ps_ReservedCeiling (sto_state s) <= maxUint64 - FenceBlockSize
                                 /\ ps_ReservedCeiling d' = u64 (ps_ReservedCeiling (sto_state s) + FenceBlockSize)))
       end.
Proof.
  intros H1 H2 H3 H4 H5 H6. unfold Update, updateMode, ensureLoaded, reserveBlock. rewrite H1, H6.
  destruct (Z.ltb_spec (maxUint64 - FenceBlockSize) (ps_ReservedCeiling (sto_state s))) as [Hov|Hok].
  { intros [= <- <-]. split_and!; try done. exists d. split_and!; try done. by left. }
  rewrite (write_loaded s (sto_state s) d _ false) by done. unfold written. rewrite H6.
  set (next := set_field ps_SchemaVersion _ _).
  assert (ps_FenceUnsafe next = false /\ ps_SchemaVersion next = CurrentStateSchema
          /\ ps_ReservedCeiling next = u64 (ps_ReservedCeiling (sto_state s) + FenceBlockSize)) as (N1 & N2 & N3) by done.
  clearbody next. destruct s as [[p b pc bc] ro ld mem]. simpl in *.
  destruct ioB; [destruct ioP|..]; simpl; intros [= <- <-]; simpl; split_and!; try done.
  - exists next. by split_and!.
  - exists d. split_and!; try done. by left.
  - exists next. split_and!; try done. by right.
  - exists d. split_and!; try done. by left.
  - exists d. split_and!; try done. by left.
Qed.

Lemma Next_inv a s issued d io a' s' r :
  fence_inv a s issued d -> Next a s io = (a', s', r) ->
  match r with Ok v => exists d', fence_inv a' s' (v :: issued) d' | Err _ => exists d', fence_inv a' s' issued d' end.
Proof.
  intros Hinv. unfold Next. destruct (fv_safe _ _ _ _ Hinv) as (_ & _ & Hu). rewrite Hu, andb_false_r.
  fold (initialise a). cbv zeta. destruct (initialise_inv a s issued d Hinv) as [Hi Hinit].
  set (b := initialise a) in *. clearbody b. clear Hinv Hu a.
  destruct (Z.ltb_spec (fa_ceiling b) (fa_next b)) as [Hgt|Hle].
  2:{ intros H. destruct (handOut_inv _ _ _ _ _ _ _ Hi Hinit Hle H) as (v & -> & Hv). eauto. }
  destruct (maxUint64 - FenceBlockSize <? fa_reserved b); [intros [= <- <- <-]; eauto|].
  destruct (negb (fi_before io)); [intros [= <- <- <-]; eauto|].
  destruct (Update s reserveBlock _ _ _) as [s1 committed] eqn:EU.
  pose proof Hi as [V1 V2 V3 V4 (V5 & V5' & V5'') V6 V7 V8 V9 V10 V11]. rewrite Hinit in V10. destruct V10 as (N1 & N2 & N3).
  apply (reserve_update s d) in EU as (U1 & U2 & U3 & d' & U4 & U5 & U6 & U7); try done.
  assert (forall c, c = ps_ReservedCeiling (sto_state s) -> c <= maxUint64 - FenceBlockSize ->
          u64 (c + FenceBlockSize) = c + FenceBlockSize) as Hu64.
  { intros c -> Hc. change FenceBlockSize with 1048576 in *. rewrite u64_small; [done|]. lia. }
  destruct committed as [st|e].
  - destruct U7 as (B1 & B2 & -> & B4). rewrite (Hu64 _ eq_refl B1) in B4.
    assert (forall ceil, fa_ceiling b <= ceil <= ps_ReservedCeiling st ->
      fence_inv (b <| fa_reserved := ps_ReservedCeiling st |> <| fa_ceiling := ceil |>) s1 issued st) as Hb.
    { intros ceil Hceil. split; try done; cbn [fa_initialized fa_next fa_ceiling fa_reserved fa_unsafe set_field]; rewrite <- ?B2.
      - by left.
      - rewrite B4. by apply Z.divide_add_r; [|exists 1].
      - change FenceBlockSize with 1048576 in *. lia.
      - done.
      - rewrite Hinit. split_and!; try done; lia. }
    change FenceBlockSize with 1048576 in B4.
    destruct (negb (fi_after io)).
    + intros [= <- <- <-]. exists st. specialize (Hb (fa_ceiling b)). destruct b. apply Hb. simpl in *. lia.
    + intros H. destruct (handOut_inv (b <| fa_reserved := ps_ReservedCeiling st |> <| fa_ceiling := ps_ReservedCeiling st |>) s1 issued st a' s' r)
        as (v & -> & Hv); try done.
      * apply Hb. lia.
      * cbn [fa_next fa_ceiling set_field]. lia.
      * by exists st.
  - destruct U7 as (B1 & B2). intros [= <- <- <-]. exists d'. split; try done; rewrite ?B1; try done.
    + destruct B2 as [->|[B2 B3]]; [done|]. right. by rewrite B3, (Hu64 _ eq_refl B2).
    + destruct B2 as [->|[B2 B3]]; [done|]. rewrite B3, (Hu64 _ eq_refl B2). change FenceBlockSize with 1048576 in *. lia.
    + rewrite Hinit. done.
Qed.

Lemma fence_run_inv a s issued : fence_run a s issued -> exists d, fence_inv a s issued d.
Proof.
  induction 1 as [disk st io s report HL Hp Hv Hu Hb Hr|a s issued io a' s' v _ [d IH] HN|a s issued io a' s' e _ [d IH] HN
                 |a s issued io s' st report _ [d IH] HL].
  - exists st. unfold Load, loadLocked in HL. simpl in HL. rewrite Hp, adopt_current in HL by done. injection HL as <- _.
    split; simpl; auto; try done; try lia; constructor.
  - by apply (Next_inv _ _ _ _ _ _ _ _ IH) in HN.
  - by apply (Next_inv _ _ _ _ _ _ _ _ IH) in HN.
  - exists d. pose proof (fv_issued_durable _ _ _ _ IH) as Hiss. destruct IH as [V1 V2 V3 V4 (V5 & V5' & V5'') V6 V7 V8 V9 V10 V11].
    unfold Load, loadLocked in HL. simpl in HL. rewrite V3, adopt_current in HL by done. injection HL as <- <- _.
    split; simpl; auto; try lia.
    + destruct V6 as [-> | ->]; [done|]. by apply Z.divide_add_r; [|exists 1].
    + change FenceBlockSize with 1048576 in *. lia.
    + eapply Forall_impl; [done|]. simpl. intros. change FenceBlockSize with 1048576 in *. lia.
Qed.

(** C7: Fences are unique and increasing across crashes and restarts: in every
    run that starts from a readable, trustworthy state, with calls that fail at
    any file operation or crash point and restarts at any moment, each fence
    handed out is larger than every fence handed out before it, in this or in an
    earlier life of the process. *)
Theorem fences_increase_across_restarts (a : FenceAllocator) (s : StateStore) (issued : list Z) :
  fence_run a s issued -> StronglySorted (fun x y => y < x) issued.
Proof. intros H. apply fence_run_inv in H as [d Hd]. by apply (fv_issued _ _ _ _ Hd). Qed.

(** A run with one restart: the second life starts a new block. *)
Definition example_life1 := Next (NewFenceAllocator NewPersistentState) (Load (NewStateStore example_disk) io_fine).1 fence_fine.
Definition example_loaded2 : StateStore := (Load (NewStateStore (sto_disk example_life1.1.2)) io_fine).1.
Definition example_life2 := Next (NewFenceAllocator (sto_state example_loaded2)) example_loaded2 fence_fine.

Lemma fences_increase_across_restarts_witness :
  fence_run example_life2.1.1 example_life2.1.2 [FenceBlockSize + 1; 1]
  /\ StronglySorted (fun x y => y < x) [FenceBlockSize + 1; 1].
Proof.
  assert (fence_run example_life2.1.1 example_life2.1.2 [FenceBlockSize + 1; 1]) as Hrun.
  { eapply (run_next (NewFenceAllocator (sto_state example_loaded2)) example_loaded2 [1] fence_fine); [|vm_compute; reflexivity].
    eapply (run_restart example_life1.1.1 example_life1.1.2 [1] io_fine); [|vm_compute; reflexivity].
    eapply (run_next (NewFenceAllocator NewPersistentState) (Load (NewStateStore example_disk) io_fine).1 [] fence_fine);
      [|vm_compute; reflexivity].
    eapply (run_start example_disk NewPersistentState io_fine); try (vm_compute; reflexivity).
    - by exists 0.
    - by vm_compute. }
  split; [exact Hrun|]. exact (fences_increase_across_restarts _ _ _ Hrun).
Defined.

(** Allocators must not share a store: two allocators built from the same
    loaded state each start at the ceiling they saw, so when the first reserves a
    block and the second reserves the next, both hand out the same fence. *)
Theorem two_allocators_reissue_fence :
  let s := (Load (NewStateStore example_disk) io_fine).1 in
  let first := Next (NewFenceAllocator (sto_state s)) s fence_fine in
  let second := Next (NewFenceAllocator (sto_state s)) first.1.2 fence_fine in
  first.2 = Ok 1 /\ second.2 = Ok 1.
Proof. split; vm_compute; reflexivity. Qed.
