(* ===== verification/ProbeWAL.v ===== *)
(** * The probe write-ahead log (probe_wal.go)

    Activating a lazy quota window sends one real request.  Every attempt is
    recorded before and after the request in the durable state, so that a crash
    at any point neither repeats the request nor forgets that it may have been
    sent.  The claim of a new attempt (probe_runtime.go) is modelled with it. *)

From stdpp Require Import pretty.
From S2P Require Import Prelude Float64 Config Models Identity Probe ProbeWindow StateStore.
#[local] Open Scope string_scope.
#[local] Open Scope list_scope.
#[local] Open Scope Z_scope.
#[local] Open Scope go_scope.

Definition ErrProbeAttemptChanged : string := "probe attempt changed".

(** The recorded attempt, if it is the expected one in an expected phase. *)
Definition exactProbeAttempt (st : PersistentState) (instance : AuthInstanceID) (attemptID : string)
    (phases : list ProbeAttemptPhase) : result string ProbeAttempt :=
  match ps_ProbeAttempts st !! instance with
  | None => Err ErrProbeAttemptChanged
  | Some attempt =>
      if String.eqb attemptID "" || negb (String.eqb (at_AttemptID attempt) attemptID) then Err ErrProbeAttemptChanged
      else if existsb (fun phase => bool_decide (at_Phase attempt = phase)) phases then Ok attempt
      else Err ErrProbeAttemptChanged
  end.

Definition putAttempt (st : PersistentState) (instance : AuthInstanceID) (a : ProbeAttempt) : PersistentState :=
  st <| ps_ProbeAttempts := <[instance := a]> (ps_ProbeAttempts st) |>.

Definition persistProbeSentUnknown (instance : AuthInstanceID) (attemptID : string) (suppress : Time)
    (st : PersistentState) : result string PersistentState :=
  let! attempt := exactProbeAttempt st instance attemptID [ProbeAttemptSending; ProbeAttemptSent; ProbeAttemptSentUnknown] in
  let attempt := attempt <| at_Phase := ProbeAttemptSentUnknown |> in
  let attempt := if After suppress (at_SuppressUntil attempt) then attempt <| at_SuppressUntil := suppress |> else attempt in
  Ok (putAttempt st instance attempt).

(** The outcomes of one logged operation: its crash points and file operations. *)
Record wal_io := mkWalIO { wi_before : bool; wi_after : bool; wi_load : load_io; wi_backup : write_outcome; wi_primary : write_outcome }.
Definition wal_fine : wal_io := mkWalIO true true io_fine WriteOk WriteOk.

Inductive wal_error := ErrWalStore (e : store_error) | ErrWalCrash.

Definition storeErr (r : result store_error PersistentState) : option wal_error :=
  match r with Ok _ => None | Err e => Some (ErrWalStore e) end.

(** What [PersistSending] stores and the update that stores it. *)
Definition sendingAttempt (a : ProbeAttempt) : ProbeAttempt :=
  let a := a <| at_Phase := ProbeAttemptSending |> in
  if IsZero (at_SuppressUntil a) then a <| at_SuppressUntil := Add (at_CreatedAt a) (10 * Minute) |> else a.
Definition storeSending (a : ProbeAttempt) (st : PersistentState) : result string PersistentState :=
  let! _ := exactProbeAttempt st (at_Instance a) (at_AttemptID a) [ProbeAttemptPrepared] in
  Ok (putAttempt st (at_Instance a) a).
Definition PersistSending (s : StateStore) (a : ProbeAttempt) (io : wal_io) : StateStore * option wal_error :=
  let a := sendingAttempt a in
  if negb (wi_before io) then (s, Some ErrWalCrash)
  else
    let '(s, r) := Update s (storeSending a) (wi_load io) (wi_backup io) (wi_primary io) in
    match storeErr r with
    | Some e => (s, Some e)
    | None => (s, if wi_after io then None else Some ErrWalCrash)
    end.

(** [ExecuteSend]: whether the request was issued, and whether an error is
    returned; [sent] is what [send] returns. *)
Definition ExecuteSend (beforeHTTP afterHTTP : bool) (sent : bool) : bool * bool :=
  if negb beforeHTTP then (false, true) else if negb sent then (true, true) else (true, negb afterHTTP).

Definition storeSent (i : AuthInstanceID) (attemptID : string) (at_ : Time) (st : PersistentState) : result string PersistentState :=
  let! a := exactProbeAttempt st i attemptID [ProbeAttemptSending] in
  Ok (putAttempt st i (a <| at_Phase := ProbeAttemptSent |> <| at_SentAt := Some at_ |>)).
Definition PersistSent (s : StateStore) (i : AuthInstanceID) (attemptID : string) (at_ : Time) (io : wal_io)
  : StateStore * option wal_error :=
  if negb (wi_before io) then (s, Some ErrWalCrash)
  else let '(s, r) := Update s (storeSent i attemptID at_) (wi_load io) (wi_backup io) (wi_primary io) in (s, storeErr r).

Definition PersistSentUnknown (s : StateStore) (i : AuthInstanceID) (attemptID : string) (suppress : Time) (io : wal_io)
  : StateStore * option wal_error :=
  let '(s, r) := Update s (persistProbeSentUnknown i attemptID suppress) (wi_load io) (wi_backup io) (wi_primary io) in
  (s, storeErr r).

Definition dropAttempt (i : AuthInstanceID) (attemptID : string) (phases : list ProbeAttemptPhase) (st : PersistentState)
  : result string PersistentState :=
  let! _ := exactProbeAttempt st i attemptID phases in
  Ok (st <| ps_ProbeAttempts := base.delete i (ps_ProbeAttempts st) |>).
Definition Complete (s : StateStore) (i : AuthInstanceID) (attemptID : string) (phases : list ProbeAttemptPhase) (io : wal_io)
  : StateStore * option wal_error :=
  let '(s, r) := Update s (dropAttempt i attemptID phases) (wi_load io) (wi_backup io) (wi_primary io) in (s, storeErr r).

(** The attempts recovery owns: the request may have been sent. *)
Definition recoverable (a : ProbeAttempt) : bool :=
  match at_Phase a with ProbeAttemptPrepared => false | _ => true end.

(** The verification intent of an attempt; the other fields of [Intent] are
    filled in by the caller. *)
Record VerifyIntent := mkVerify { vi_Instance : AuthInstanceID; vi_StartedAfter : Z; vi_AttemptID : string; vi_Windows : list ProbeWindowKind }.
Definition verifyIntent (i : AuthInstanceID) (a : ProbeAttempt) : VerifyIntent :=
  mkVerify i (at_SendFenceSeq a) (at_AttemptID a) (at_Windows a).

Section recovery.
Context `{MapRange}.

Fixpoint deadline_scan (l : list (AuthInstanceID * ProbeAttempt)) (out : Time) (found : bool) : Time * bool :=
  match l with
  | [] => (out, found)
  | (_, a) :: l =>
      if negb (recoverable a) then deadline_scan l out found
      else if IsZero (at_VerifyNotBefore a) then (zeroTime, true)
      else if negb found || Before (at_VerifyNotBefore a) out then deadline_scan l (at_VerifyNotBefore a) true
      else deadline_scan l out found
  end.

Definition RecoveryDeadline (s : StateStore) (io : load_io) : StateStore * (Time * bool) :=
  let '(s, r) := PersistentSnapshot s io in
  match r with
  | Err _ => (s, (zeroTime, false))
  | Ok st => (s, deadline_scan (map_range (ps_ProbeAttempts st)) zeroTime false)
  end.

Fixpoint recover_loop (l : list (AuthInstanceID * ProbeAttempt)) (s : StateStore) (ios : AuthInstanceID -> wal_io) (now : Time)
    (out : list VerifyIntent) : StateStore * result store_error (list VerifyIntent) :=
  match l with
  | [] => (s, Ok out)
  | (i, a) :: l =>
      if negb (recoverable a) then recover_loop l s ios now out
      else if Before now (at_VerifyNotBefore a) then recover_loop l s ios now out
      else if bool_decide (at_Phase a = ProbeAttemptSending) then
        let io := ios i in
        let '(s, r) := Update s (persistProbeSentUnknown i (at_AttemptID a) (at_SuppressUntil a))
                         (wi_load io) (wi_backup io) (wi_primary io) in
        match r with
        | Err (ErrUpdate reason) =>
            if String.eqb reason ErrProbeAttemptChanged then recover_loop l s ios now out else (s, Err (ErrUpdate reason))
        | Err e => (s, Err e)
        | Ok committed =>
            match ps_ProbeAttempts committed !! i with
            | Some a => recover_loop l s ios now (out ++ [verifyIntent i a])
            | None => recover_loop l s ios now (out ++ [mkVerify i 0 "" []])
            end
        end
      else recover_loop l s ios now (out ++ [verifyIntent i a])
  end.

Definition RecoverChecked (s : StateStore) (io : load_io) (ios : AuthInstanceID -> wal_io) (now : Time)
  : StateStore * result store_error (list VerifyIntent) :=
  let '(s, r) := PersistentSnapshot s io in
  match r with
  | Err e => (s, Err e)
  | Ok st => recover_loop (map_range (ps_ProbeAttempts st)) s ios now []
  end.
Definition Recover (s : StateStore) (io : load_io) (ios : AuthInstanceID -> wal_io) (now : Time) : StateStore * list VerifyIntent :=
  let '(s, r) := RecoverChecked s io ios now in (s, match r with Ok out => out | Err _ => [] end).
End recovery.

(** The claim of an attempt by the due pass (probe_runtime.go). *)
Definition attemptIDFor (instance : AuthInstanceID) (seq : Z) : string :=
  "probe-" +:+ pretty instance +:+ "-" +:+ pretty seq.
Definition claimAttempt (instance : AuthInstanceID) (due : list ProbeWindowKind) (now : Time)
    (claimWindows : option (gmap ProbeWindowKind ProbeWindow)) (st : PersistentState) : result string PersistentState :=
  let fresh :=
    let seq := u64 (ps_ProbeAttemptSeq st + 1) in
    let attempt := mkAttempt instance (attemptIDFor instance seq) due ProbeAttemptPrepared 0 now None now zeroTime in
    let st := putAttempt (st <| ps_ProbeAttemptSeq := seq |>) instance attempt in
    Ok (st <| ps_ProbeWindows := match claimWindows with
                                 | Some ws => <[instance := ws]> (ps_ProbeWindows st)
                                 | None => base.delete instance (ps_ProbeWindows st)
                                 end |>) in
  match ps_ProbeAttempts st !! instance with
  | Some existing => if negb (String.eqb (at_AttemptID existing) "") then Ok st else fresh
  | None => fresh
  end.

(** ** At most one request per attempt *)

Lemma exact_ok st i id phases a :
  exactProbeAttempt st i id phases = Ok a ->
  ps_ProbeAttempts st !! i = Some a /\ at_AttemptID a = id /\ id <> "" /\ at_Phase a ∈ phases.
Proof.
  unfold exactProbeAttempt. destruct (ps_ProbeAttempts st !! i) as [b|] eqn:E; [|done].
  destruct (String.eqb_spec id "") as [|Hid]; [done|]. destruct (String.eqb_spec (at_AttemptID b) id) as [Hb|]; [|done].
  cbn [negb orb]. destruct (existsb _ phases) eqn:Ex; [|done]. intros [= ->]. split_and!; try done.
  apply existsb_exists in Ex as (p & Hp & ->%bool_decide_eq_true_1). by apply list_elem_of_In.
Qed.

(** How any other update of the durable state may treat the attempts: the
    sequence number stays, and an attempt it writes is not waiting to be sent. *)
Definition settles (st st' : PersistentState) : Prop :=
  ps_ProbeAttemptSeq st' = ps_ProbeAttemptSeq st
  /\ forall i a, ps_ProbeAttempts st' !! i = Some a -> ps_ProbeAttempts st !! i = Some a \/ at_Phase a <> ProbeAttemptPrepared.

Lemma put_settles st i a : at_Phase a <> ProbeAttemptPrepared -> settles st (putAttempt st i a).
Proof.
  intros Ha. split; [done|]. simpl. intros j b. destruct (decide (j = i)) as [-> |Hj].
  - rewrite lookup_insert_eq. intros [= <-]. by right.
  - rewrite lookup_insert_ne by done. by left.
Qed.

Lemma drop_settles i id phases st st' : dropAttempt i id phases st = Ok st' -> settles st st'.
Proof.
  unfold dropAttempt. destruct (exactProbeAttempt _ _ _ _); [|done]. intros [= <-]. split; [done|].
  simpl. intros j b [_ Hb]%lookup_delete_Some. by left.
Qed.

Lemma unknown_settles i id sup st st' : persistProbeSentUnknown i id sup st = Ok st' -> settles st st'.
Proof.
  unfold persistProbeSentUnknown. destruct (exactProbeAttempt _ _ _ _) as [a|]; [|done]. intros [= <-].
  apply put_settles. by destruct (After _ _).
Qed.

Lemma sent_settles i id t st st' : storeSent i id t st = Ok st' -> settles st st'.
Proof.
  unfold storeSent. destruct (exactProbeAttempt _ _ _ _) as [a|]; [|done]. intros [= <-]. by apply put_settles.
Qed.

Section runs.
(** The number the counter of attempts may reach; [maxUint64], where it wraps
    around, unless a caller counts the claims of a part of the run. *)
Variable limit : Z.

(** The prepared attempts were numbered by the state's counter. *)
Definition numbered (st : PersistentState) : Prop :=
  0 <= ps_ProbeAttemptSeq st <= limit
  /\ forall i a, ps_ProbeAttempts st !! i = Some a -> at_Phase a = ProbeAttemptPrepared ->
       exists k, k <= ps_ProbeAttemptSeq st /\ at_AttemptID a = attemptIDFor i k.

(** The plugin's use of the log.  [sends] lists the requests issued.  A request
    follows a successful [PersistSending]; every other update settles attempts;
    the process may stop anywhere and restart on the disk. *)
Inductive wal_run : StateStore -> list (AuthInstanceID * string) -> Prop :=
  | wr_start disk st io s report :
      Load (NewStateStore disk) io = (s, Ok (st, report)) -> d_primary disk = FileState st ->
      ps_SchemaVersion st = CurrentStateSchema -> numbered st ->
      wal_run s []
  | wr_claim s sends instance due now ws io :
      wal_run s sends -> ps_ProbeAttemptSeq (sto_state s) < limit ->
      wal_run (Update s (claimAttempt instance due now ws) (wi_load io) (wi_backup io) (wi_primary io)).1 sends
  | wr_send s sends a io s' before after ok issued err :
      wal_run s sends -> PersistSending s a io = (s', None) -> ExecuteSend before after ok = (issued, err) ->
      wal_run s' (if issued then (at_Instance a, at_AttemptID a) :: sends else sends)
  | wr_sending_fails s sends a io s' e :
      wal_run s sends -> PersistSending s a io = (s', Some e) -> wal_run s' sends
  | wr_sent s sends i id t io : wal_run s sends -> wal_run (PersistSent s i id t io).1 sends
  | wr_unknown s sends i id t io : wal_run s sends -> wal_run (PersistSentUnknown s i id t io).1 sends
  | wr_complete s sends i id phases io : wal_run s sends -> wal_run (Complete s i id phases io).1 sends
  | wr_other mirror s sends fn io ioB ioP :
      wal_run s sends -> (forall st st', fn st = Ok st' -> settles st st') ->
      wal_run (updateMode mirror s fn io ioB ioP).1 sends
  | wr_restart s sends io s' r :
      wal_run s sends -> Load (NewStateStore (sto_disk s)) io = (s', Ok r) -> wal_run s' sends.

#[export] Instance attemptIDFor_inj i : Inj (=) (=) (attemptIDFor i).
Proof. intros k1 k2 E. unfold attemptIDFor in E. by simplify_eq. Qed.

(** No request in [sends] can be issued again from [st]. *)
Definition spent (sends : list (AuthInstanceID * string)) (st : PersistentState) : Prop :=
  numbered st
  /\ Forall (fun '(i, id) => (exists k, k <= ps_ProbeAttemptSeq st /\ id = attemptIDFor i k)
              /\ forall a, ps_ProbeAttempts st !! i = Some a -> at_AttemptID a = id -> at_Phase a <> ProbeAttemptPrepared) sends.

Lemma spent_settles sends st st' : settles st st' -> spent sends st -> spent sends st'.
Proof.
  intros [Hseq Ha] [[H0 Hn] Hs]. unfold spent, numbered. rewrite Hseq. split; [split; [done|]|].
  - intros i a Hi Hp. destruct (Ha _ _ Hi); [eauto|done].
  - eapply Forall_impl; [exact Hs|]. intros [i id] [Hk Hid]. split; [done|].
    intros a Hi E. destruct (Ha _ _ Hi) as [Hold|]; [by apply (Hid a)|done].
Qed.

Lemma spent_claim sends i due now ws st st' :
  limit <= maxUint64 -> ps_ProbeAttemptSeq st < limit -> claimAttempt i due now ws st = Ok st' -> spent sends st -> spent sends st'.
Proof.
  intros Hlimit Hmax Hc [[H0 Hn] Hs]. unfold claimAttempt in Hc.
  assert (u64 (ps_ProbeAttemptSeq st + 1) = ps_ProbeAttemptSeq st + 1) as Eu by (apply u64_small; lia). rewrite Eu in Hc.
  set (new := set_field ps_ProbeWindows _ _) in Hc.
  assert (st' = new \/ st' = st) as [E| ->]; [|clear Hc Eu; subst new st'|done].
  { destruct (ps_ProbeAttempts st !! i); [destruct (negb _)|]; injection Hc as <-; auto. }
  split; [split|]; cbn -[attemptIDFor]; [lia| |].
  - intros j a. destruct (decide (j = i)) as [-> |Hj].
    + rewrite lookup_insert_eq. intros [= <-] _. eexists. split; [|done]. lia.
    + rewrite lookup_insert_ne by done. intros Ha Hp. destruct (Hn _ _ Ha Hp) as (k & ? & ?). exists k. split; [lia|done].
  - eapply Forall_impl; [exact Hs|]. intros [j id] [(k & Hk & ->) Hid]. split; [exists k; split; [lia|done]|].
    intros a. destruct (decide (j = i)) as [-> |Hj].
    + rewrite lookup_insert_eq. intros [= <-] E%attemptIDFor_inj. lia.
    + rewrite lookup_insert_ne by done. apply Hid.
Qed.

(** Storing the sending phase spends the attempt. *)
Lemma spent_sending sends a st st' :
  at_Phase a = ProbeAttemptSending -> storeSending a st = Ok st' -> spent sends st ->
  spent ((at_Instance a, at_AttemptID a) :: sends) st' /\ (at_Instance a, at_AttemptID a) ∉ sends.
Proof.
  intros Ha. unfold storeSending. destruct (exactProbeAttempt _ _ _ _) as [b|] eqn:E; [|done]. intros [= <-] Hsp.
  apply exact_ok in E as (Hb & Hid & _ & Hp). apply list_elem_of_singleton in Hp.
  pose proof Hsp as [[H0 Hn] Hs]. destruct (Hn _ _ Hb Hp) as (k & Hk & Ek).
  assert (spent sends (putAttempt st (at_Instance a) a)) as [Hn' Hs'].
  { apply (spent_settles _ st); [|done]. apply put_settles. congruence. }
  split; [split; [done|constructor; [|done]]|].
  - split; [exists k; split; [done|congruence]|]. cbn. intros c. rewrite lookup_insert_eq. intros [= <-]. congruence.
  - intros Hin. rewrite Forall_forall in Hs. apply Hs in Hin as [_ Hin]. by apply (Hin b).
Qed.

Lemma spent_cons x sends st : spent (x :: sends) st -> spent sends st.
Proof. intros [? [_ ?]%Forall_cons]. by split. Qed.

Lemma spent_written sends old st : spent sends st -> spent sends (written old st).
Proof. unfold written. by destruct (ps_FenceUnsafe old). Qed.

Lemma settle_update mirror sends s fn io ioB ioP :
  keeps (spent sends) s -> (forall st st', fn st = Ok st' -> settles st st') -> keeps (spent sends) (updateMode mirror s fn io ioB ioP).1.
Proof.
  intros Hk Hf. apply updateMode_keeps; [done|intros; by apply spent_written|].
  intros st' E. eapply spent_settles; [by eapply Hf|]. apply Hk.
Qed.

Lemma sendingAttempt_key a :
  at_Instance (sendingAttempt a) = at_Instance a /\ at_AttemptID (sendingAttempt a) = at_AttemptID a
  /\ at_Phase (sendingAttempt a) = ProbeAttemptSending.
Proof. unfold sendingAttempt. cbv zeta. by destruct (IsZero _). Qed.

Lemma PersistSending_fails_keeps sends s a io :
  keeps (spent sends) s -> keeps (spent sends) (PersistSending s a io).1.
Proof.
  intros Hk. unfold PersistSending. destruct (negb (wi_before io)); [done|].
  pose proof (update_keeps (spent sends) s (storeSending (sendingAttempt a)) (wi_load io) (wi_backup io) (wi_primary io) Hk
    ltac:(intros; by apply spent_written)) as Hu.
  destruct (Update _ _ _ _ _) as [s' r]. simpl in Hu.
  assert (keeps (spent sends) s') as Hs'.
  { apply Hu. intros st' E. eapply spent_cons, spent_sending; [|done|apply Hk]. apply sendingAttempt_key. }
  by destruct (storeErr r).
Qed.

Lemma PersistSending_ok sends s a io s' :
  keeps (spent sends) s -> PersistSending s a io = (s', None) ->
  keeps (spent ((at_Instance a, at_AttemptID a) :: sends)) s' /\ (at_Instance a, at_AttemptID a) ∉ sends.
Proof.
  intros Hk. unfold PersistSending. destruct (negb (wi_before io)); [done|].
  destruct (Update _ _ _ _ _) as [s1 r] eqn:EU. destruct r as [got|e]; simpl; [|done]. intros [= -> _].
  destruct (update_success _ _ _ _ _ _ _ _ Hk EU) as (next & Hn & [Y1 Y2 Y3 Y4 Y5]).
  destruct (sendingAttempt_key a) as (K1 & K2 & K3).
  destruct (spent_sending sends (sendingAttempt a) (sto_state s) next K3 Hn (kp_memory _ _ Hk)) as [Hsp Hnot].
  rewrite K1, K2 in *. split; [|done]. apply (spent_written _ (sto_state s)) in Hsp.
  split; try done; [by rewrite Y3|]. by eexists.
Qed.

Lemma wal_run_inv s sends : limit <= maxUint64 -> wal_run s sends -> keeps (spent sends) s /\ NoDup sends.
Proof.
  intros Hlimit. induction 1 as [disk st io s report HL Hp Hv Hn|s sends i due now ws io _ [Hk Hd] Hmax|s sends a io s' b c ok issued err _ [Hk Hd] HP HE
    |s sends a io s' e _ [Hk Hd] HP|s sends i id t io _ [Hk Hd]|s sends i id t io _ [Hk Hd]|s sends i id phases io _ [Hk Hd]
    |mirror s sends fn io ioB ioP _ [Hk Hd] Hf|s sends io s' r _ [Hk Hd] HL].
  - split; [|constructor]. unfold Load, loadLocked in HL. simpl in HL. rewrite Hp, adopt_current in HL by done.
    injection HL as <- _. assert (spent [] st) as Hs by (split; [done|constructor]). split; simpl; eauto.
  - split; [|done]. apply update_keeps; [done|intros; by apply spent_written|]. intros st' E.
    eapply spent_claim; [done..|]. apply Hk.
  - destruct (PersistSending_ok _ _ _ _ _ Hk HP) as [Hs Hnot].
    destruct issued; [by split; [|constructor]|]. split; [|done]. by apply (keeps_mono (spent ((at_Instance a, at_AttemptID a) :: sends))); [apply spent_cons|].
  - split; [|done]. pose proof (PersistSending_fails_keeps sends s a io Hk) as Hf. by rewrite HP in Hf.
  - split; [|done]. unfold PersistSent. destruct (negb _); [done|].
    pose proof (settle_update false sends s (storeSent i id t) (wi_load io) (wi_backup io) (wi_primary io) Hk ltac:(intros; by eapply sent_settles)).
    unfold Update. by destruct (updateMode _ _ _ _ _ _).
  - split; [|done]. unfold PersistSentUnknown.
    pose proof (settle_update false sends s (persistProbeSentUnknown i id t) (wi_load io) (wi_backup io) (wi_primary io) Hk
      ltac:(intros; by eapply unknown_settles)).
    unfold Update. by destruct (updateMode _ _ _ _ _ _).
  - split; [|done]. unfold Complete.
    pose proof (settle_update false sends s (dropAttempt i id phases) (wi_load io) (wi_backup io) (wi_primary io) Hk
      ltac:(intros; by eapply drop_settles)).
    unfold Update. by destruct (updateMode _ _ _ _ _ _).
  - split; [|done]. by apply settle_update.
  - split; [|done]. by eapply restart_keeps.
Qed.
End runs.

Lemma wal_run_mono limit limit' s sends : limit <= limit' -> wal_run limit s sends -> wal_run limit' s sends.
Proof.
  intros Hl. induction 1 as [disk st io s report HL Hp Hv [Hn1 Hn2]| | | | | | | |].
  - eapply wr_start; [done..|]. split; [lia|done].
  - eapply wr_claim; [done|lia].
  - by eapply wr_send.
  - by eapply wr_sending_fails.
  - by eapply wr_sent.
  - by eapply wr_unknown.
  - by eapply wr_complete.
  - by eapply wr_other.
  - by eapply wr_restart.
Qed.

(** C3: A probe request is issued at most once: in every run of claims, sends,
    completions, failures at any file operation or crash point, restarts and
    other updates of the durable state, no attempt of an instance is sent twice. *)
Theorem probe_sent_at_most_once (s : StateStore) (sends : list (AuthInstanceID * string)) :
  wal_run maxUint64 s sends -> NoDup sends.
Proof. intros H. exact (proj2 (wal_run_inv maxUint64 s sends ltac:(lia) H)). Qed.

(** An attempt that is claimed, sent, and followed by a crash and a restart. *)
Definition example_claimed : StateStore := (Update example_store (claimAttempt 5 ["long"] 100 None) io_fine WriteOk WriteOk).1.
Definition example_attempt : ProbeAttempt :=
  mkAttempt 5 (attemptIDFor 5 1) ["long"] ProbeAttemptPrepared 9 100 None 103 0.
Definition example_sending : StateStore := (PersistSending example_claimed example_attempt wal_fine).1.
Definition example_restarted : StateStore := (Load (NewStateStore (sto_disk example_sending)) io_fine).1.

Lemma probe_sent_at_most_once_witness :
  wal_run maxUint64 example_restarted [(5, "probe-5-1")] /\ NoDup [(5, "probe-5-1")]
  /\ (PersistSending example_restarted example_attempt wal_fine).2 = Some (ErrWalStore (ErrUpdate ErrProbeAttemptChanged)).
Proof.
  assert (wal_run maxUint64 example_restarted [(5, "probe-5-1")]) as Hrun.
  { eapply (wr_restart maxUint64 example_sending _ io_fine); [|vm_compute; reflexivity].
    eapply (wr_send maxUint64 example_claimed [] example_attempt wal_fine example_sending true false true true true);
      [|vm_compute; reflexivity|reflexivity].
    apply (wr_claim maxUint64 example_store [] 5 ["long"] 100 None wal_fine); [|vm_compute; reflexivity].
    eapply (wr_start maxUint64 example_disk NewPersistentState io_fine); try (vm_compute; reflexivity).
    split; [vm_compute; by split|]. intros i a Ha. change ((∅ : gmap Z ProbeAttempt) !! i = Some a) in Ha. by rewrite lookup_empty in Ha. }
  split; [exact Hrun|]. split; [exact (probe_sent_at_most_once _ _ Hrun)|]. vm_compute. reflexivity.
Defined.

(** ** Recovery *)

Section recovery_spec.
Context `{MapRange}.

(** The attempts recovery acts on at [now], and what it makes of an attempt. *)
Definition recovery_due (now : Time) (a : ProbeAttempt) : bool := recoverable a && negb (Before now (at_VerifyNotBefore a)).
Definition recovered (now : Time) (a : ProbeAttempt) : ProbeAttempt :=
  if recovery_due now a && bool_decide (at_Phase a = ProbeAttemptSending) then a <| at_Phase := ProbeAttemptSentUnknown |> else a.
Definition due_intents (now : Time) (l : list (AuthInstanceID * ProbeAttempt)) : list VerifyIntent :=
  (fun '(i, a) => verifyIntent i a) <$> filter (fun '(_, a) => recovery_due now a = true) l.

Lemma unknown_of_sending st i a :
  ps_ProbeAttempts st !! i = Some a -> at_AttemptID a <> "" -> at_Phase a = ProbeAttemptSending ->
  persistProbeSentUnknown i (at_AttemptID a) (at_SuppressUntil a) st = Ok (putAttempt st i (a <| at_Phase := ProbeAttemptSentUnknown |>)).
Proof.
  intros Ha Hid Hp. unfold persistProbeSentUnknown, exactProbeAttempt. rewrite Ha.
  destruct (String.eqb_spec (at_AttemptID a) ""); [done|]. rewrite String.eqb_refl. cbn [negb orb existsb].
  rewrite bool_decide_true by done. cbn [orb rbind]. cbv zeta. cbn [at_SuppressUntil set_field].
  replace (After _ _) with false by time_lia. done.
Qed.

(** One successful pass over the attempts still to visit. *)
Lemma recover_loop_spec l : forall s st ios now out,
  synced s st -> NoDup l.*1 ->
  (forall i, wi_backup (ios i) = WriteOk /\ wi_primary (ios i) = WriteOk) ->
  (forall i a, (i, a) ∈ l -> ps_ProbeAttempts st !! i = Some a /\ at_AttemptID a <> "") ->
  exists s' st', recover_loop l s ios now out = (s', Ok (out ++ due_intents now l)) /\ synced s' st'
    /\ (forall i, ps_ProbeAttempts st' !! i = if decide (i ∈ l.*1) then recovered now <$> ps_ProbeAttempts st !! i else ps_ProbeAttempts st !! i).
Proof.
  induction l as [|[i a] l IH]; intros s st ios now out Hs Hnd Hio Hl.
  { exists s, st. simpl. rewrite app_nil_r. by split_and!. }
  rewrite fmap_cons in Hnd. apply NoDup_cons in Hnd as [Hi Hnd].
  destruct (Hl i a ltac:(constructor)) as [Ha Hid].
  (* the attempts still to visit are unchanged when only [i] was written *)
  assert (forall s1 st1 out1, synced s1 st1 -> ps_ProbeAttempts st1 = <[i := recovered now a]> (ps_ProbeAttempts st) ->
            out1 = out ++ due_intents now [(i, a)] ->
            exists s' st', recover_loop l s1 ios now out1 = (s', Ok (out ++ due_intents now ((i, a) :: l))) /\ synced s' st'
              /\ (forall j, ps_ProbeAttempts st' !! j = if decide (j ∈ ((i, a) :: l).*1) then recovered now <$> ps_ProbeAttempts st !! j else ps_ProbeAttempts st !! j)) as Hgo.
  { intros s1 st1 out1 Hs1 E1 ->.
    destruct (IH s1 st1 ios now (out ++ due_intents now [(i, a)]) Hs1 Hnd Hio) as (s' & st' & E & Hs' & Hat).
    - intros j b Hj. destruct (Hl j b ltac:(by right)) as [Hb ?]. rewrite E1, lookup_insert_ne; [done|].
      intros ->. destruct Hi. by apply (list_elem_of_fmap_2 fst _ (j, b)).
    - exists s', st'. split_and!; [|done|].
      + rewrite E. unfold due_intents. rewrite <- app_assoc, <- fmap_app, <- filter_app. done.
      + intros j. rewrite Hat, E1. rewrite fmap_cons. destruct (decide (j = i)) as [-> |Hj].
        * rewrite decide_False by exact Hi. rewrite decide_True by apply list_elem_of_here. rewrite lookup_insert_eq, Ha. done.
        * rewrite lookup_insert_ne by done. simpl.
          destruct (decide (j ∈ l.*1)) as [Hin|Hout].
          -- by rewrite decide_True by (by right).
          -- rewrite decide_False; [done|]. by intros [?|?]%elem_of_cons. }
  assert (recovered now a = a -> <[i := recovered now a]> (ps_ProbeAttempts st) = ps_ProbeAttempts st) as Hsame
    by (intros ->; by apply insert_id).
  cbn [recover_loop].
  assert (due_intents now [(i, a)] = if recovery_due now a then [verifyIntent i a] else []) as Edue.
  { unfold due_intents. destruct (recovery_due now a) eqn:Ed.
    - by rewrite filter_cons_True by done.
    - rewrite filter_cons_False; [done|]. by rewrite Ed. }
  unfold recovered in *. unfold recovery_due in Edue, Hgo, Hsame.
  destruct (recoverable a) eqn:Er; cbn [negb andb] in *.
  2:{ apply (Hgo s st out Hs); [by rewrite Hsame|by rewrite Edue, app_nil_r]. }
  destruct (Before now (at_VerifyNotBefore a)) eqn:Eb; cbn [negb andb] in *.
  { apply (Hgo s st out Hs); [by rewrite Hsame|by rewrite Edue, app_nil_r]. }
  destruct (bool_decide_reflect (at_Phase a = ProbeAttemptSending)) as [Ep|Ep].
  2:{ apply (Hgo s st _ Hs); [by rewrite Hsame|by rewrite Edue]. }
  destruct (Hio i) as [-> ->]. unfold Update. rewrite (Update_synced false s st _ _ _ _ _ Hs (unknown_of_sending st i a Ha Hid Ep)).
  cbn [write_result]. cbn [sto_state set_field].
  set (st1 := written st _).
  assert (ps_ProbeAttempts st1 = <[i := a <| at_Phase := ProbeAttemptSentUnknown |>]> (ps_ProbeAttempts st)) as E1.
  { subst st1. unfold written. destruct (ps_FenceUnsafe st); reflexivity. }
  rewrite E1, lookup_insert_eq. apply (Hgo _ st1).
  - assert (ps_SchemaVersion st1 = CurrentStateSchema) as Hv by apply written_schema. clearbody st1.
    destruct Hs as [Y1 Y2 Y3 Y4 Y5], s as [[p b pc bc] ro ld mem]. by split.
  - done.
  - by rewrite Edue.
Qed.

(** Recovery is complete and exact: on a loaded, writable store whose attempts
    have identifiers, with writes that succeed, a recovery pass returns a
    verification intent for exactly the attempts that may have been sent and
    whose verification time has come, whatever the iteration order; the attempts
    found in the sending phase are durably marked as sent with unknown outcome,
    and all others are left as they were. *)
Theorem recover_checked_exact (s : StateStore) (st : PersistentState) (io : load_io) (ios : AuthInstanceID -> wal_io) (now : Time) :
  synced s st -> (forall i, wi_backup (ios i) = WriteOk /\ wi_primary (ios i) = WriteOk) ->
  (forall i a, ps_ProbeAttempts st !! i = Some a -> at_AttemptID a <> "") ->
  exists s' st' intents,
    RecoverChecked s io ios now = (s', Ok intents) /\ synced s' st'
    /\ ps_ProbeAttempts st' = recovered now <$> ps_ProbeAttempts st
    /\ intents ≡ₚ due_intents now (map_to_list (ps_ProbeAttempts st)).
Proof.
  intros Hs Hio Hid. unfold RecoverChecked, PersistentSnapshot, ensureLoaded. rewrite (sy_loaded _ _ Hs), (sy_state _ _ Hs).
  destruct (recover_loop_spec (map_range (ps_ProbeAttempts st)) s st ios now [] Hs) as (s' & st' & E & Hs' & Hat).
  - rewrite map_range_perm. apply NoDup_fst_map_to_list.
  - done.
  - intros i a Hi%elem_of_map_range. eauto.
  - exists s', st'. eexists. split_and!; [exact E|done| |].
    + apply map_eq. intros i. rewrite Hat, lookup_fmap. destruct (decide _) as [|Hn]; [done|].
      destruct (ps_ProbeAttempts st !! i) as [a|] eqn:Ea; [|done].
      destruct Hn. apply (list_elem_of_fmap_2 fst _ (i, a)). by apply elem_of_map_range.
    + simpl. unfold due_intents. by rewrite map_range_perm.
Qed.

(** The scan keeps the least time it has seen. *)
Lemma deadline_scan_spec l : forall out found,
  Forall (fun p => 0 <= at_VerifyNotBefore p.2) l -> (found = true -> 0 < out) ->
  let '(d, f) := deadline_scan l out found in
  (f = true <-> found = true \/ Exists (fun p => recoverable p.2 = true) l)
  /\ (f = true -> (found = true -> d <= out) /\ (forall p, p ∈ l -> recoverable p.2 = true -> d <= at_VerifyNotBefore p.2)
                 /\ ((found = true /\ d = out) \/ exists p, p ∈ l /\ recoverable p.2 = true /\ d = at_VerifyNotBefore p.2)).
Proof.
  induction l as [|[i a] l IH]; intros out found Hnn Ho; simpl.
  { split; [split; [by left|intros [|?%Exists_nil]; done]|]. intros ->. split_and!; [lia|set_solver|by left]. }
  apply Forall_cons in Hnn as [Ha Hnn]. simpl in Ha.
  pose proof (Exists_cons (fun p : AuthInstanceID * ProbeAttempt => recoverable p.2 = true) (i, a) l) as HE. simpl in HE.
  destruct (recoverable a) eqn:Er; cbn [negb].
  2:{ specialize (IH out found Hnn Ho). destruct (deadline_scan l out found) as [d f]. destruct IH as [I1 I2]. split; [naive_solver|].
      intros Hf. destruct (I2 Hf) as (J1 & J2 & J3). split_and!; [done| |].
      - intros p [-> |Hp]%elem_of_cons; [simpl; congruence|auto].
      - destruct J3 as [|(p & ? & ?)]; [by left|]. right. exists p. split; [by right|done]. }
  destruct (IsZero (at_VerifyNotBefore a)) eqn:Ez.
  { assert (at_VerifyNotBefore a = 0) by time_lia. split; [tauto|]. intros _. split_and!.
    - intros Hf. specialize (Ho Hf). time_lia.
    - intros p [-> |Hp]%elem_of_cons; [simpl; time_lia|]. rewrite Forall_forall in Hnn. specialize (Hnn p Hp). time_lia.
    - right. exists (i, a). split; [left|done]. }
  set (take := negb found || Before (at_VerifyNotBefore a) out).
  assert (exists o f, (if take then deadline_scan l (at_VerifyNotBefore a) true else deadline_scan l out found) = deadline_scan l o f
          /\ f = true /\ 0 < o /\ (found = true -> o <= out) /\ o <= at_VerifyNotBefore a
          /\ ((found = true /\ o = out) \/ o = at_VerifyNotBefore a)) as (o & f' & -> & -> & K1 & K2 & K3 & K4).
  { destruct take eqn:Et; subst take.
    - exists (at_VerifyNotBefore a), true. split_and!; try done; try time_lia; by intros ->; simpl in Et; time_lia.
    - apply orb_false_iff in Et as [->%negb_false_iff Et]. exists out, true. specialize (Ho eq_refl).
      split_and!; try done; try time_lia; by left. }
  specialize (IH o true Hnn ltac:(done)). destruct (deadline_scan l o true) as [d f]. destruct IH as [I1 I2].
  assert (f = true) as -> by (apply I1; by left). split; [tauto|]. intros _. destruct (I2 eq_refl) as (J1 & J2 & J3).
  specialize (J1 eq_refl). split_and!.
  - intros Hf. specialize (K2 Hf). lia.
  - intros p [-> |Hp]%elem_of_cons Hr; [simpl; lia|auto].
  - destruct J3 as [[_ ->]|(p & ? & ?)]; [destruct K4 as [| ->]; [by left|]|].
    + right. exists (i, a). split; [left|done].
    + right. exists p. split; [by right|done].
Qed.

(** Recovery never sleeps past its work: the recovery deadline exists exactly
    when some durable attempt may have been sent, and it is the first instant at
    which a recovery pass has an attempt to verify: none is due before it, one is
    due at it and at every later time. *)
Theorem recovery_deadline_exact (s : StateStore) (st : PersistentState) (io : load_io) :
  synced s st -> (forall i a, ps_ProbeAttempts st !! i = Some a -> 0 <= at_VerifyNotBefore a) ->
  let '(_, (deadline, found)) := RecoveryDeadline s io in
  (found = true <-> exists i a, ps_ProbeAttempts st !! i = Some a /\ recoverable a = true)
  /\ (found = true -> forall now,
        deadline <= now <-> exists i a, ps_ProbeAttempts st !! i = Some a /\ recovery_due now a = true).
Proof.
  intros Hs Hnn. unfold RecoveryDeadline, PersistentSnapshot, ensureLoaded. rewrite (sy_loaded _ _ Hs), (sy_state _ _ Hs).
  pose proof (deadline_scan_spec (map_range (ps_ProbeAttempts st)) zeroTime false) as Hd.
  destruct (deadline_scan _ _ _) as [d f]. destruct Hd as [H1 H2]; [|done|].
  { apply Forall_forall. intros [i a] Hi%elem_of_map_range. by apply (Hnn i). }
  rewrite Exists_exists in H1. split.
  - rewrite H1. split.
    + intros [|([i a] & Hi%elem_of_map_range & Hr)]; [done|]. eauto.
    + intros (i & a & Ha & Hr). right. exists (i, a). split; [by apply elem_of_map_range|done].
  - intros Hf now. destruct (H2 Hf) as (_ & J2 & J3). unfold recovery_due. split.
    + intros Hle. destruct J3 as [[]|([i a] & Hi%elem_of_map_range & Hr & ->)]; [done|]. exists i, a. split; [done|].
      simpl in *. rewrite Hr. cbn [andb]. time_lia.
    + intros (i & a & Ha & [Hr Hb]%andb_true_iff). specialize (J2 (i, a) ltac:(by apply elem_of_map_range) Hr).
      simpl in J2. time_lia.
Qed.
End recovery_spec.

Definition example_wal_state : PersistentState := sto_state example_sending.
Lemma example_sending_synced : synced example_sending example_wal_state.
Proof. by split. Defined.
Lemma example_attempts_ok i a :
  ps_ProbeAttempts example_wal_state !! i = Some a -> at_AttemptID a <> "" /\ 0 <= at_VerifyNotBefore a.
Proof.
  replace (ps_ProbeAttempts example_wal_state) with ({[ 5 := sendingAttempt example_attempt ]} : gmap Z ProbeAttempt)
    by (vm_compute; reflexivity).
  intros [<- <-]%lookup_singleton_Some. by split.
Qed.

Lemma recover_checked_exact_witness :
  exists s' st' intents,
    RecoverChecked example_sending io_fine (fun _ => wal_fine) 200 = (s', Ok intents) /\ synced s' st'
    /\ ps_ProbeAttempts st' = recovered 200 <$> ps_ProbeAttempts example_wal_state
    /\ intents ≡ₚ [mkVerify 5 9 "probe-5-1" ["long"]].
Proof.
  assert (due_intents 200 (map_to_list (ps_ProbeAttempts example_wal_state)) = [mkVerify 5 9 "probe-5-1" ["long"]]) as <-
    by (vm_compute; reflexivity).
  apply (recover_checked_exact example_sending example_wal_state io_fine (fun _ => wal_fine) 200).
  - apply example_sending_synced.
  - intros i. split; reflexivity.
  - intros i a Ha. by apply (example_attempts_ok i).
Defined.

Lemma recovery_deadline_exact_witness :
  RecoveryDeadline example_sending io_fine = (example_sending, (103, true))
  /\ forall now, 103 <= now <-> exists i a, ps_ProbeAttempts example_wal_state !! i = Some a /\ recovery_due now a = true.
Proof.
  assert (RecoveryDeadline example_sending io_fine = (example_sending, (103, true))) as E by (vm_compute; reflexivity).
  split; [exact E|].
  pose proof (recovery_deadline_exact example_sending example_wal_state io_fine example_sending_synced
    (fun i a Ha => proj2 (example_attempts_ok i a Ha))) as H. rewrite E in H. exact (proj2 H eq_refl).
Defined.
