(* ===== verification/Coordinator.v ===== *)
(** * The operation coordinator (coordinator.go)

    Work on an account runs under a lease: one job per auth instance at a time,
    the others queue.  One goroutine owns the tables and serves commands from a
    channel: submissions, results, expired leases, cancellations and drains.
    [handle] is one turn of that loop; pointers to jobs are keys of a heap.  The
    callbacks the loop calls are inputs of a turn, and its visible actions are
    the effects it returns. *)

From S2P Require Import Prelude Float64 Config Models Identity.
#[local] Open Scope string_scope.
#[local] Open Scope list_scope.
#[local] Open Scope Z_scope.
#[local] Open Scope go_scope.

Abbreviation OperationClass := string (only parsing).
Definition OperationLegacyRefresh : OperationClass := "legacy_refresh".
Definition OperationQuotaRead : OperationClass := "quota_read".
Definition OperationProbePrecheck : OperationClass := "probe_precheck".
Definition OperationProbeVerify : OperationClass := "probe_verify".
Definition OperationProbeSequence : OperationClass := "probe_sequence".
Definition OperationProbeSend : OperationClass := "probe_send".
Definition LegacyEnvelopeSource : string := "legacy_refresh_txn".

Definition formalSource (source : string) : bool :=
  bool_decide (source ∈ [LegacyEnvelopeSource; "scheduler_initial"; "scheduler_interval"; "scheduler_stale_recovery";
                         "manual_refresh"; "probe_startup"; "probe_precheck"; "probe_activation"; "probe_verify"]).

(** The payload is opaque to the coordinator; [in_Entry] is the typed-read entry
    a wrapped payload points to. *)
Record Intent := mkOpIntent {
  in_AuthID : string;
  in_Instance : AuthInstanceID;
  in_Generation : TierGeneration;
  in_Class : OperationClass;
  in_Source : string;
  in_StartedAfter : Z;
  in_ReadStartSeq : Z;
  in_AttemptID : string;
  in_Token : ExecutionToken;
  in_Login : LoginEpoch;
  in_Fingerprint : CredentialFingerprint;
  in_Entry : option nat;
}.
#[export] Instance Intent_eta : Eta Intent := fun r => mkOpIntent
  (in_AuthID r) (in_Instance r) (in_Generation r) (in_Class r) (in_Source r) (in_StartedAfter r) (in_ReadStartSeq r)
  (in_AttemptID r) (in_Token r) (in_Login r) (in_Fingerprint r) (in_Entry r).

Inductive ResultDisposition := ResultUnset | ResultApplied | ResultDiscardedStale | ResultCancelled.

(** [or_HostLogs]: the journal holds host logs.  The value and the identity
    fields a result carries for its receiver are not read here. *)
Record OperationResult := mkOpResult {
  or_Err : option string;
  or_Token : ExecutionToken;
  or_ProbeSendPhase : bool;
  or_SuppressUntil : Time;
  or_ReadStartSeq : Z;
  or_Disposition : ResultDisposition;
  or_HostLogs : bool;
  or_CallbackFailed : bool;
}.
#[export] Instance OperationResult_eta : Eta OperationResult := fun r => mkOpResult
  (or_Err r) (or_Token r) (or_ProbeSendPhase r) (or_SuppressUntil r) (or_ReadStartSeq r) (or_Disposition r)
  (or_HostLogs r) (or_CallbackFailed r).
Definition cancelledResult (token : ExecutionToken) : OperationResult :=
  mkOpResult (Some "context canceled") token false zeroTime 0 ResultCancelled false false.

Record DrainReport := mkDrainReport {
  dr_Completed : Z; dr_Cancelled : Z; dr_Invalidated : Z; dr_SentUnknown : Z;
  dr_PersistenceFailures : Z; dr_HandoffBlocked : bool;
}.
#[export] Instance DrainReport_eta : Eta DrainReport := fun r => mkDrainReport
  (dr_Completed r) (dr_Cancelled r) (dr_Invalidated r) (dr_SentUnknown r) (dr_PersistenceFailures r) (dr_HandoffBlocked r).
Definition emptyDrain : DrainReport := mkDrainReport 0 0 0 0 0 false.

(** Instance, class, generation, attempt and nonce. *)
Definition operationKey : Type := AuthInstanceID * OperationClass * TierGeneration * string * Z.

(** A job with its future and its held lease; [j_started] says that its context
    and lease exist, [j_cancelled] that the context was cancelled. *)
Record coordinatorJob := mkJob {
  j_key : operationKey;
  j_intent : Intent;
  j_future : option OperationResult;
  j_started : bool;
  j_cancelled : bool;
  j_probeSent : bool;
  j_suppressUntil : Time;
  j_expired : bool;
  j_invalidated : bool;
}.
#[export] Instance coordinatorJob_eta : Eta coordinatorJob := fun r => mkJob
  (j_key r) (j_intent r) (j_future r) (j_started r) (j_cancelled r) (j_probeSent r) (j_suppressUntil r) (j_expired r) (j_invalidated r).
Abbreviation job_id := nat (only parsing).
Definition j_instance (j : coordinatorJob) : AuthInstanceID := in_Instance (j_intent j).

(** The local variables of [loop], with the jobs and the nonce counter. *)
Record Coordinator := mkCoordinator {
  co_accepting : bool;
  co_inflight : gmap operationKey job_id;
  co_leases : gmap AuthInstanceID job_id;
  co_queue : gmap AuthInstanceID (list job_id);
  co_completedFence : gmap AuthInstanceID Z;
  co_instanceGeneration : gmap AuthInstanceID TierGeneration;
  co_cancelledThrough : gmap AuthInstanceID TierGeneration;
  co_cancelTokens : gmap AuthInstanceID Z;
  co_cancelNonce : Z;
  co_drains : list (nat * DrainReport);
  co_typedNonce : Z;
  co_jobs : gmap job_id coordinatorJob;
}.
#[export] Instance Coordinator_eta : Eta Coordinator := fun r => mkCoordinator
  (co_accepting r) (co_inflight r) (co_leases r) (co_queue r) (co_completedFence r) (co_instanceGeneration r)
  (co_cancelledThrough r) (co_cancelTokens r) (co_cancelNonce r) (co_drains r) (co_typedNonce r) (co_jobs r).

Definition NewCoordinator : Coordinator := mkCoordinator true ∅ ∅ ∅ ∅ ∅ ∅ ∅ 0 [] 0 ∅.

Inductive coordinator_command :=
  | SubmitCommand (intent : Intent)
  | ExpireCommand (key : operationKey) (job : job_id)
  | ResultCommand (key : operationKey) (job : job_id) (result : OperationResult)
  | LogCallbackCommand (key : operationKey) (job : job_id) (result : OperationResult) (err : option string)
  | SnapshotCommand
  | CancelInstancesCommand (instances : list AuthInstanceID)
  | ActivateInstancesCommand (generations : gmap AuthInstanceID TierGeneration)
  | RestoreInstancesCommand (generations : gmap AuthInstanceID TierGeneration) (tokens : gmap AuthInstanceID Z)
  | DrainCommand (waiter : nat).

Record CoordinatorSnapshot := mkCoordSnapshot {
  cs_Accepting : bool; cs_InFlight : nat; cs_Queued : nat; cs_LeasedInstances : list AuthInstanceID;
}.

(** What a turn does outside the tables. *)
Inductive coordinator_effect :=
  | ReplyFuture (job : job_id)
  | ReplyRejected
  | StartJob (job : job_id)
  | DispatchLogsCall (job : job_id) (result : OperationResult)
  | ApplyCall (job : job_id) (result : OperationResult)
  | InheritCall (job : job_id) (suppress : Time)
  | EnqueueCommand (cmd : coordinator_command)
  | SnapshotReply (snapshot : CoordinatorSnapshot)
  | CancelReply (tokens : gmap AuthInstanceID Z)
  | DrainReply (waiter : nat) (report : DrainReport).

(** The options' callbacks, as they answer in one turn; [None] is [nil]. *)
Record coordinator_callbacks := mkCallbacks {
  cb_Validate : option (Intent -> OperationResult -> bool);
  cb_Apply : option (Intent -> OperationResult -> option string);
  cb_InheritSentUnknown : option (Intent -> Time -> option string);
  cb_DispatchLogs : bool;
}.

Definition zread (m : gmap AuthInstanceID Z) (i : AuthInstanceID) : Z := default 0 (m !! i).
Definition queued (c : Coordinator) (i : AuthInstanceID) : list job_id := default [] (co_queue c !! i).

Definition onJob (c : Coordinator) (id : job_id) (f : coordinatorJob -> coordinatorJob) : Coordinator :=
  c <| co_jobs := alter f id (co_jobs c) |>.

(** A future is completed once. *)
Definition completeFuture (r : OperationResult) (j : coordinatorJob) : coordinatorJob :=
  match j_future j with None => j <| j_future := Some r |> | Some _ => j end.

Definition startJob (c : Coordinator) (id : job_id) (i : AuthInstanceID) : Coordinator :=
  onJob (c <| co_leases := <[i := id]> (co_leases c) |>) id (fun j => j <| j_started := true |>).

(** The next queued job of an instance starts when no lease is held, unless it
    is a legacy refresh that must wait for a fence. *)
Definition fenceBlocked (c : Coordinator) (i : AuthInstanceID) (j : coordinatorJob) : bool :=
  String.eqb (in_Class (j_intent j)) OperationLegacyRefresh
  && (zread (co_completedFence c) i <? in_StartedAfter (j_intent j)).
Definition tryStart (c : Coordinator) (i : AuthInstanceID) : Coordinator * list coordinator_effect :=
  if negb (co_accepting c) then (c, [])
  else match co_leases c !! i with
  | Some _ => (c, [])
  | None =>
      match queued c i with
      | [] => (c <| co_queue := base.delete i (co_queue c) |>, [])
      | id :: q =>
          match co_jobs c !! id with
          | None => (c, [])
          | Some j =>
              if fenceBlocked c i j then (c, [])
              else (startJob (c <| co_queue := <[i := q]> (co_queue c) |>) id i, [StartJob id])
          end
      end
  end.

Definition finishDrains (c : Coordinator) : Coordinator * list coordinator_effect :=
  if negb (bool_decide (co_inflight c = ∅)) || bool_decide (length (co_drains c) = 0%nat) then (c, [])
  else (c <| co_drains := [] |>, (fun '(w, report) => DrainReply w report) <$> co_drains c).

Definition onDrains (c : Coordinator) (f : DrainReport -> DrainReport) : Coordinator :=
  c <| co_drains := (fun '(w, report) => (w, f report)) <$> co_drains c |>.

Definition bumpFence (c : Coordinator) (i : AuthInstanceID) (fence : Z) : Coordinator :=
  if zread (co_completedFence c) i <? fence then c <| co_completedFence := <[i := fence]> (co_completedFence c) |> else c.

(** The removal of a job from the tables. *)
Definition unlease (c : Coordinator) (i : AuthInstanceID) (id : job_id) : Coordinator :=
  if bool_decide (co_leases c !! i = Some id) then c <| co_leases := base.delete i (co_leases c) |> else c.
Definition dropInflight (c : Coordinator) (key : operationKey) : Coordinator :=
  c <| co_inflight := base.delete key (co_inflight c) |>.

(** The end of a turn that freed an instance. *)
Definition settle (c : Coordinator) (i : AuthInstanceID) (before : list coordinator_effect) : Coordinator * list coordinator_effect :=
  let '(c, e1) := tryStart c i in
  let '(c, e2) := finishDrains c in
  (c, before ++ e1 ++ e2).

Definition handleSubmit (c : Coordinator) (intent : Intent) : Coordinator * list coordinator_effect :=
  let '(c, nonce) := if String.eqb (in_Class intent) OperationProbeSend
                     then let n := u64 (co_typedNonce c + 1) in (c <| co_typedNonce := n |>, n) else (c, 0) in
  let key : operationKey := (in_Instance intent, in_Class intent, in_Generation intent, in_AttemptID intent, nonce) in
  match co_inflight c !! key with
  | Some existing => (c, [ReplyFuture existing])
  | None =>
      if negb (co_accepting c) || bool_decide (is_Some (co_cancelledThrough c !! in_Instance intent))
         || negb (formalSource (in_Source intent))
         || (String.eqb (in_Source intent) LegacyEnvelopeSource && negb (String.eqb (in_Class intent) OperationLegacyRefresh))
      then (c, [ReplyRejected])
      else
        let i := in_Instance intent in
        let c := if zread (co_instanceGeneration c) i <? in_Generation intent
                 then c <| co_instanceGeneration := <[i := in_Generation intent]> (co_instanceGeneration c) |> else c in
        let id := fresh (dom (co_jobs c)) in
        let job := mkJob key intent None false false false zeroTime false false in
        let c := c <| co_jobs := <[id := job]> (co_jobs c) |> <| co_inflight := <[key := id]> (co_inflight c) |>
                   <| co_queue := <[i := queued c i ++ [id]]> (co_queue c) |> in
        let '(c, e) := tryStart c i in
        (c, ReplyFuture id :: e)
  end.

(** [InheritSentUnknown] is called for a job that may have sent a probe. *)
Definition inherit (cb : coordinator_callbacks) (id : job_id) (intent : Intent) (probe : bool) (suppress : Time)
  : option string * list coordinator_effect :=
  match (if probe then cb_InheritSentUnknown cb else None) with
  | Some f => (f intent suppress, [InheritCall id suppress])
  | None => (None, [])
  end.

Definition noteInherit (probe : bool) (err : option string) (r : DrainReport) : DrainReport :=
  let r := if probe && bool_decide (err = None) then r <| dr_SentUnknown := i64 (dr_SentUnknown r + 1) |> else r in
  match err with
  | Some _ => r <| dr_PersistenceFailures := i64 (dr_PersistenceFailures r + 1) |> <| dr_HandoffBlocked := true |>
  | None => r
  end.

Definition handleExpire (c : Coordinator) (cb : coordinator_callbacks) (key : operationKey) (id : job_id)
  : Coordinator * list coordinator_effect :=
  match co_jobs c !! id with
  | None => (c, [])
  | Some j =>
      if negb (bool_decide (co_inflight c !! key = Some id)) || j_expired j then (c, [])
      else
        let i := j_instance j in
        let c := onJob c id (fun j => j <| j_expired := true |> <| j_cancelled := j_started j |>) in
        let c := unlease (dropInflight c key) i id in
        let probe := j_probeSent j in
        let '(inheritErr, effects) := inherit cb id (j_intent j) probe (j_suppressUntil j) in
        let resultErr := match inheritErr with Some e => e | None => "context deadline exceeded" end in
        let c := onJob c id (completeFuture (mkOpResult (Some resultErr) (in_Token (j_intent j)) probe (j_suppressUntil j) 0
                                               ResultDiscardedStale false false)) in
        let c := bumpFence c i (tok_Fence (in_Token (j_intent j))) in
        let c := onDrains c (fun r => noteInherit probe inheritErr
                                        (r <| dr_Completed := i64 (dr_Completed r + 1) |> <| dr_Invalidated := i64 (dr_Invalidated r + 1) |>)) in
        settle c i effects
  end.

(** The result as the loop completes it, and whether it may be applied. *)
Definition mergeResult (j : coordinatorJob) (r : OperationResult) : OperationResult :=
  let r := r <| or_ProbeSendPhase := or_ProbeSendPhase r || j_probeSent j |> in
  if After (j_suppressUntil j) (or_SuppressUntil r) then r <| or_SuppressUntil := j_suppressUntil j |> else r.
Definition resultValid (cb : coordinator_callbacks) (j : coordinatorJob) (r : OperationResult) : bool :=
  negb (j_expired j) && negb (j_invalidated j) && negb (or_CallbackFailed r) && bool_decide (or_Token r = in_Token (j_intent j))
  && match cb_Validate cb with Some f => f (j_intent j) r | None => true end.

Definition handleResult (c : Coordinator) (cb : coordinator_callbacks) (key : operationKey) (id : job_id) (result : OperationResult)
  : Coordinator * list coordinator_effect :=
  match co_jobs c !! id with
  | None => (c, [])
  | Some j =>
      if negb (bool_decide (co_inflight c !! key = Some id)) then (c, [])
      else
        let i := j_instance j in
        let result := mergeResult j result in
        let valid := resultValid cb j result in
        if valid && cb_DispatchLogs cb && or_HostLogs result then (c, [DispatchLogsCall id result])
        else
          let c := unlease (dropInflight c key) i id in
          let '(valid, result, applied) :=
            match (if valid then cb_Apply cb else None) with
            | Some f => match f (j_intent j) result with
                        | Some err => (false, result <| or_Err := Some err |>, [ApplyCall id result])
                        | None => (true, result, [ApplyCall id result])
                        end
            | None => (valid, result, [])
            end in
          let '(c, result, effects) :=
            if negb valid then
              let result := result <| or_Disposition := ResultDiscardedStale |> in
              let c := bumpFence c i (tok_Fence (in_Token (j_intent j))) in
              let c := onDrains c (fun r => r <| dr_Invalidated := i64 (dr_Invalidated r + 1) |>) in
              let '(inheritErr, effects) := inherit cb id (j_intent j) (or_ProbeSendPhase result) (or_SuppressUntil result) in
              let c := onDrains c (noteInherit (or_ProbeSendPhase result) inheritErr) in
              (c, match inheritErr with Some e => result <| or_Err := Some e |> | None => result end, effects)
            else
              (bumpFence c i (tok_Fence (or_Token result)), result <| or_Disposition := ResultApplied |>, []) in
          let c := onJob c id (completeFuture result) in
          let c := onDrains c (fun r => r <| dr_Completed := i64 (dr_Completed r + 1) |>) in
          settle c i (applied ++ effects)
  end.

(** The goroutine that dispatches logs clears them before it calls back. *)
Definition handleLogCallback (c : Coordinator) (key : operationKey) (id : job_id) (result : OperationResult) (err : option string)
  : Coordinator * list coordinator_effect :=
  if negb (bool_decide (co_inflight c !! key = Some id)) then (c, [])
  else
    let result := result <| or_CallbackFailed := bool_decide (err <> None) |> in
    let result := match err with Some e => result <| or_Err := Some e |> | None => result end in
    (c, [EnqueueCommand (ResultCommand key id result)]).

(** A queued job is dropped from the tables and its future cancelled. *)
Definition cancelQueued (invalidate : bool) (c : Coordinator) (id : job_id) : Coordinator :=
  match co_jobs c !! id with
  | None => c
  | Some j =>
      let c := if bool_decide (co_inflight c !! j_key j = Some id) then dropInflight c (j_key j) else c in
      onJob c id (fun j => completeFuture (cancelledResult (in_Token (j_intent j)))
                             (if invalidate then j <| j_invalidated := true |> else j))
  end.

Definition cancelLeased (c : Coordinator) (i : AuthInstanceID) : Coordinator :=
  match co_leases c !! i with
  | None => c
  | Some id =>
      match co_jobs c !! id with
      | None => c
      | Some j =>
          let c := onJob c id (fun j => j <| j_invalidated := true |> <| j_cancelled := j_started j |>) in
          let c := dropInflight c (j_key j) in
          let c := c <| co_leases := base.delete i (co_leases c) |> in
          onJob c id (completeFuture (cancelledResult (in_Token (j_intent j))))
      end
  end.

Definition cancelInstance (c : Coordinator) (i : AuthInstanceID) : Coordinator :=
  let nonce := u64 (co_cancelNonce c + 1) in
  let c := c <| co_cancelNonce := nonce |> <| co_cancelTokens := <[i := nonce]> (co_cancelTokens c) |>
             <| co_cancelledThrough := <[i := zread (co_instanceGeneration c) i]> (co_cancelledThrough c) |> in
  let c := foldl (cancelQueued true) c (queued c i) in
  let c := c <| co_queue := base.delete i (co_queue c) |> in
  cancelLeased c i.

Definition issuedTokens (c : Coordinator) (instances : list AuthInstanceID) : gmap AuthInstanceID Z :=
  (foldl (fun '(nonce, m) i => let nonce := u64 (nonce + 1) in (nonce, <[i := nonce]> m)) (co_cancelNonce c, ∅) instances).2.

Definition handleCancel (c : Coordinator) (instances : list AuthInstanceID) : Coordinator * list coordinator_effect :=
  let '(c', effects) := finishDrains (foldl cancelInstance c instances) in
  (c', CancelReply (issuedTokens c instances) :: effects).

Definition activateInstance (c : Coordinator) (ig : AuthInstanceID * TierGeneration) : Coordinator :=
  let '(i, generation) := ig in
  let c := if zread (co_instanceGeneration c) i <? generation
           then c <| co_instanceGeneration := <[i := generation]> (co_instanceGeneration c) |> else c in
  if zread (co_cancelledThrough c) i <? generation
  then c <| co_cancelledThrough := base.delete i (co_cancelledThrough c) |> <| co_cancelTokens := base.delete i (co_cancelTokens c) |>
  else c.

Definition restoreInstance (tokens : gmap AuthInstanceID Z) (c : Coordinator) (ig : AuthInstanceID * TierGeneration) : Coordinator :=
  let '(i, generation) := ig in
  if (zread (co_cancelledThrough c) i =? generation) && (zread (co_cancelTokens c) i =? zread tokens i)
  then c <| co_cancelledThrough := base.delete i (co_cancelledThrough c) |> <| co_cancelTokens := base.delete i (co_cancelTokens c) |>
  else c.

Definition runningJob (c : Coordinator) (id : job_id) : bool :=
  match co_jobs c !! id with Some j => j_started j | None => false end.

Section loop.
Context `{MapRange}.

(** A drain cancels what is queued at once; what runs is cancelled and reports. *)
Definition drainQueued (c : Coordinator) : Coordinator * Z :=
  let ids := concat (map_range (co_queue c)).*2 in
  ((foldl (cancelQueued false) c ids) <| co_queue := ∅ |>, Z.of_nat (length ids)).
Definition drainRunning (c : Coordinator) : Coordinator * Z :=
  let running := filter (fun id => runningJob c id = true) (map_range (co_inflight c)).*2 in
  (foldl (fun c id => onJob c id (fun j => j <| j_cancelled := true |> <| j_invalidated := true |>)) c running,
   Z.of_nat (length running)).
Definition handleDrain (c : Coordinator) (waiter : nat) : Coordinator * list coordinator_effect :=
  let '(c, dropped) := drainQueued (c <| co_accepting := false |>) in
  let '(c, running) := drainRunning c in
  let report := emptyDrain <| dr_Completed := dropped |> <| dr_Cancelled := dropped + running |> in
  if bool_decide (co_inflight c = ∅) then (c, [DrainReply waiter report])
  else (c <| co_drains := co_drains c ++ [(waiter, report)] |>, []).

Definition coordinatorSnapshot (c : Coordinator) : CoordinatorSnapshot :=
  mkCoordSnapshot (co_accepting c) (size (co_inflight c)) (length (concat (map_range (co_queue c)).*2)) (map_range (co_leases c)).*1.

(** One turn of the loop. *)
Definition handle (c : Coordinator) (cb : coordinator_callbacks) (cmd : coordinator_command) : Coordinator * list coordinator_effect :=
  match cmd with
  | SubmitCommand intent => handleSubmit c intent
  | ExpireCommand key job => handleExpire c cb key job
  | ResultCommand key job result => handleResult c cb key job result
  | LogCallbackCommand key job result err => handleLogCallback c key job result err
  | SnapshotCommand => (c, [SnapshotReply (coordinatorSnapshot c)])
  | CancelInstancesCommand instances => handleCancel c instances
  | ActivateInstancesCommand generations => (foldl activateInstance c (map_range generations), [])
  | RestoreInstancesCommand generations tokens => (foldl (restoreInstance tokens) c (map_range generations), [])
  | DrainCommand waiter => handleDrain c waiter
  end.

(** The end of the loop: what is left in flight is cancelled. *)
Definition closeLoop (c : Coordinator) : Coordinator :=
  foldl (fun c id => onJob c id (fun j => completeFuture (cancelledResult (mkToken 0 0 0 0)) (j <| j_cancelled := j_started j |>)))
    c (map_range (co_inflight c)).*2.

(** A running job notes that its probe was sent. *)
Definition MarkProbeSent (c : Coordinator) (id : job_id) (suppressUntil : Time) : Coordinator :=
  onJob c id (fun j =>
    let j := j <| j_probeSent := true |> in
    if After suppressUntil (j_suppressUntil j) then j <| j_suppressUntil := suppressUntil |> else j).
End loop.

(** ** The tables *)

(** Every unfinished job is in flight under its key, and is either queued at its
    instance or running under the lease of its instance. *)
Record tables_ok (c : Coordinator) : Prop := {
  to_inflight : forall k id, co_inflight c !! k = Some id ->
    exists j, co_jobs c !! id = Some j /\ j_key j = k /\ j_future j = None /\ j_expired j = false
      /\ (if j_started j then co_leases c !! j_instance j = Some id else id ∈ queued c (j_instance j));
  to_lease : forall i id, co_leases c !! i = Some id ->
    exists j, co_jobs c !! id = Some j /\ j_instance j = i /\ j_started j = true /\ co_inflight c !! j_key j = Some id;
  to_queue : forall i id, id ∈ queued c i ->
    exists j, co_jobs c !! id = Some j /\ j_instance j = i /\ j_started j = false /\ co_inflight c !! j_key j = Some id;
  to_nodup : forall i, NoDup (queued c i);
  to_pending : forall id j, co_jobs c !! id = Some j -> j_future j = None -> co_inflight c !! j_key j = Some id;
}.

(** Cancelled instances are idle, and nothing is queued once draining. *)
Record gates_ok (c : Coordinator) : Prop := {
  ga_cancelled : forall i, is_Some (co_cancelledThrough c !! i) -> queued c i = [] /\ co_leases c !! i = None;
  ga_draining : co_accepting c = false -> forall i, queued c i = [];
  ga_drains : co_drains c <> [] -> co_accepting c = false;
}.

(** No free instance has a queued job that could start. *)
Definition busy (c : Coordinator) (i : AuthInstanceID) : Prop :=
  co_accepting c = true -> co_leases c !! i = None ->
  forall id q j, queued c i = id :: q -> co_jobs c !! id = Some j -> fenceBlocked c i j = true.

Definition drains_wait (c : Coordinator) : Prop := co_drains c <> [] -> co_inflight c <> ∅.

(** What the tables depend on; everything else may change freely. *)
Definition same_tables (c c' : Coordinator) : Prop :=
  co_inflight c' = co_inflight c /\ co_leases c' = co_leases c /\ co_queue c' = co_queue c /\ co_jobs c' = co_jobs c.

Lemma tables_same c c' : same_tables c c' -> tables_ok c -> tables_ok c'.
Proof.
  intros (E1 & E2 & E3 & E4) [T1 T2 T3 T4 T5]. assert (forall i, queued c' i = queued c i) as EQ by (intros; unfold queued; by rewrite E3).
  split; intros *; rewrite ?E1, ?E2, ?E4, ?EQ; auto.
  - intros H. destruct (T1 _ _ H) as (j & ? & ? & ? & ? & Hp). exists j. rewrite EQ. done.
Qed.

(** A job whose table entries are kept may change its other fields. *)
Record same_place (j j' : coordinatorJob) : Prop := {
  sp_key : j_key j' = j_key j; sp_intent : j_intent j' = j_intent j; sp_future : j_future j' = j_future j;
  sp_started : j_started j' = j_started j; sp_expired : j_expired j' = j_expired j;
}.

Lemma tables_touch c id f : (forall j, same_place j (f j)) -> tables_ok c -> tables_ok (onJob c id f).
Proof.
  intros Hf [T1 T2 T3 T4 T5].
  assert (forall x j', alter f id (co_jobs c) !! x = Some j' -> exists j, co_jobs c !! x = Some j /\ same_place j j') as Hb.
  { intros x j' H. destruct (decide (x = id)) as [-> |Hx].
    - rewrite lookup_alter_eq in H. destruct (co_jobs c !! id) as [j|]; [|done]. injection H as <-. eauto.
    - rewrite lookup_alter_ne in H by done. exists j'. split; [done|]. by split. }
  assert (forall x j, co_jobs c !! x = Some j -> exists j', alter f id (co_jobs c) !! x = Some j' /\ same_place j j') as Hfw.
  { intros x j H. destruct (decide (x = id)) as [-> |Hx].
    - rewrite lookup_alter_eq, H. simpl. eauto.
    - rewrite lookup_alter_ne by done. exists j. split; [done|]. by split. }
  split; cbn [co_jobs co_inflight co_leases onJob set_field]; unfold onJob.
  - intros k x H. destruct (T1 _ _ H) as (j & Hj & ? & ? & ? & Hp). destruct (Hfw _ _ Hj) as (j' & Hj' & []). exists j'.
    unfold j_instance in *. rewrite sp_key0, sp_intent0, sp_future0, sp_started0, sp_expired0. done.
  - intros i x H. destruct (T2 _ _ H) as (j & Hj & ? & ? & ?). destruct (Hfw _ _ Hj) as (j' & Hj' & []). exists j'.
    unfold j_instance in *. rewrite sp_key0, sp_intent0, sp_started0. done.
  - intros i x H. destruct (T3 _ _ H) as (j & Hj & ? & ? & ?). destruct (Hfw _ _ Hj) as (j' & Hj' & []). exists j'.
    unfold j_instance in *. rewrite sp_key0, sp_intent0, sp_started0. done.
  - apply T4.
  - intros x j' H Hn. destruct (Hb _ _ H) as (j & Hj & []). rewrite sp_key0. apply T5; [done|]. congruence.
Qed.

(** A running job leaves the tables with its future completed. *)
Lemma tables_finish c c' id j j' :
  tables_ok c -> co_jobs c !! id = Some j -> co_inflight c !! j_key j = Some id -> j_started j = true ->
  co_inflight c' = base.delete (j_key j) (co_inflight c) -> co_leases c' = base.delete (j_instance j) (co_leases c) ->
  co_queue c' = co_queue c -> co_jobs c' = <[id := j']> (co_jobs c) -> j_future j' <> None -> tables_ok c'.
Proof.
  intros HT Hj Hin Hs E1 E2 E3 E4 Hf.
  assert (forall i, queued c' i = queued c i) as EQ by (intros; unfold queued; by rewrite E3).
  pose proof (to_inflight _ HT _ _ Hin) as (j0 & Hj0 & _ & _ & _ & Hl). rewrite Hj in Hj0. injection Hj0 as <-. rewrite Hs in Hl.
  assert (forall k x, co_inflight c !! k = Some x -> k <> j_key j -> x <> id) as Hne.
  { intros k x Hx Hk ->. destruct (to_inflight _ HT _ _ Hx) as (j1 & H1 & H2 & _). congruence. }
  split.
  - intros k x. rewrite E1, lookup_delete_Some. intros [Hk Hx]. pose proof (Hne _ _ Hx (not_eq_sym Hk)).
    destruct (to_inflight _ HT _ _ Hx) as (jx & ? & ? & ? & ? & Hp). exists jx. rewrite E4, lookup_insert_ne, EQ, E2 by done.
    split_and!; try done. destruct (j_started jx); [|done]. rewrite lookup_delete_ne; [done|]. intros E. rewrite <- E in Hp. congruence.
  - intros i x. rewrite E2, lookup_delete_Some. intros [Hi Hx]. destruct (to_lease _ HT _ _ Hx) as (jx & ? & ? & ? & ?).
    assert (x <> id) by (intros ->; congruence). exists jx. rewrite E4, lookup_insert_ne, E1, lookup_delete_ne by congruence. done.
  - intros i x. rewrite EQ. intros Hx. destruct (to_queue _ HT _ _ Hx) as (jx & ? & ? & ? & ?).
    assert (x <> id) by (intros ->; congruence). exists jx. rewrite E4, lookup_insert_ne, E1, lookup_delete_ne by congruence. done.
  - intros i. rewrite EQ. apply HT.
  - intros x jx. rewrite E4. destruct (decide (x = id)) as [-> |Hx]; [rewrite lookup_insert_eq; congruence|].
    rewrite lookup_insert_ne by done. intros Hjx Hn. pose proof (to_pending _ HT _ _ Hjx Hn) as Hp.
    rewrite E1, lookup_delete_ne; [done|]. congruence.
Qed.

Lemma completeFuture_done r j : j_future (completeFuture r j) <> None.
Proof. unfold completeFuture. destruct (j_future j) eqn:E; [by rewrite E|done]. Qed.
Lemma completeFuture_key r j : j_key (completeFuture r j) = j_key j.
Proof. unfold completeFuture. by destruct (j_future j). Qed.

(** The fields a cancellation of queued jobs leaves alone. *)
Definition same_rest (c c' : Coordinator) : Prop :=
  co_leases c' = co_leases c /\ co_queue c' = co_queue c /\ co_accepting c' = co_accepting c /\ co_drains c' = co_drains c
  /\ co_cancelledThrough c' = co_cancelledThrough c /\ co_completedFence c' = co_completedFence c.

Definition keyed (c : Coordinator) : Prop :=
  forall k id, co_inflight c !! k = Some id -> exists j, co_jobs c !! id = Some j /\ j_key j = k.

Lemma cancelQueued_effect inv c id j :
  co_jobs c !! id = Some j -> co_inflight c !! j_key j = Some id ->
  exists j1, co_inflight (cancelQueued inv c id) = base.delete (j_key j) (co_inflight c)
    /\ co_jobs (cancelQueued inv c id) = <[id := j1]> (co_jobs c) /\ j_future j1 <> None /\ j_key j1 = j_key j
    /\ same_rest c (cancelQueued inv c id).
Proof.
  intros Hj Hk. unfold cancelQueued. rewrite Hj, bool_decide_true by done.
  exists (completeFuture (cancelledResult (in_Token (j_intent j))) (if inv then j <| j_invalidated := true |> else j)).
  split_and!; try done.
  - cbn. apply map_eq. intros x. destruct (decide (x = id)) as [-> |Hx].
    + by rewrite lookup_alter_eq, Hj, lookup_insert_eq.
    + by rewrite lookup_alter_ne, lookup_insert_ne by done.
  - apply completeFuture_done.
  - rewrite completeFuture_key. by destruct inv.
Qed.

(** The effect of cancelling a list of queued jobs. *)
Lemma cancel_fold (inv : bool) ids : forall c,
  keyed c -> NoDup ids ->
  (forall id, id ∈ ids -> exists j, co_jobs c !! id = Some j /\ co_inflight c !! j_key j = Some id) ->
  let c' := foldl (cancelQueued inv) c ids in
  (forall k id, co_inflight c' !! k = Some id <-> co_inflight c !! k = Some id /\ id ∉ ids)
  /\ (forall id, id ∉ ids -> co_jobs c' !! id = co_jobs c !! id)
  /\ (forall id, id ∈ ids -> exists j', co_jobs c' !! id = Some j' /\ j_future j' <> None)
  /\ same_rest c c'.
Proof.
  induction ids as [|id ids IH]; intros c Hkey Hnd Hin; simpl.
  { split_and!; try done; [set_solver|]. intros id H. by apply not_elem_of_nil in H. }
  apply NoDup_cons in Hnd as [Hni Hnd]. destruct (Hin id ltac:(left)) as (j & Hj & Hk).
  destruct (cancelQueued_effect inv c id j Hj Hk) as (j1 & E1 & E2 & E3 & E4 & E5).
  set (c1 := cancelQueued inv c id) in *. clearbody c1.
  assert (forall k x, co_inflight c1 !! k = Some x <-> co_inflight c !! k = Some x /\ x <> id) as Hin1.
  { intros k x. rewrite E1, lookup_delete_Some. split; intros [H1 H2]; split; try done.
    - intros ->. destruct (Hkey _ _ H2) as (j0 & ? & ?). congruence.
    - intros <-. congruence. }
  destruct (IH c1) as (F1 & F2 & F3 & F4); [|done| |].
  { intros k x Hx%Hin1. destruct Hx as [Hx Hne]. rewrite E2, lookup_insert_ne by done. by apply Hkey. }
  { intros x Hx. assert (x <> id) by (intros ->; done). destruct (Hin x ltac:(by right)) as (jx & Hjx & Hkx). exists jx.
    rewrite E2, lookup_insert_ne by done. split; [done|]. by apply Hin1. }
  split_and!.
  - intros k x. rewrite F1, Hin1, not_elem_of_cons. tauto.
  - intros x [Hx Hxs]%not_elem_of_cons. by rewrite F2, E2, lookup_insert_ne by done.
  - intros x [-> |Hx]%elem_of_cons; [|by apply F3]. exists j1. by rewrite F2, E2, lookup_insert_eq by done.
  - unfold same_rest in *. intuition congruence.
Qed.

Lemma tables_keyed c : tables_ok c -> keyed c.
Proof. intros HT k id H. destruct (to_inflight _ HT _ _ H) as (j & ? & ? & _). eauto. Qed.

(** Queued jobs leave the tables together with their queues: [ids] are the jobs
    of the queues that [c'] no longer has. *)
Lemma tables_unqueue inv c c' ids (gone : AuthInstanceID -> bool) :
  tables_ok c -> NoDup ids ->
  (forall id, id ∈ ids <-> exists i, gone i = true /\ id ∈ queued c i) ->
  (forall i, queued c' i = if gone i then [] else queued c i) ->
  co_inflight c' = co_inflight (foldl (cancelQueued inv) c ids) -> co_jobs c' = co_jobs (foldl (cancelQueued inv) c ids) ->
  co_leases c' = co_leases c -> tables_ok c'.
Proof.
  intros HT Hnd Hids Hq E1 E2 E3.
  destruct (cancel_fold inv ids c (tables_keyed _ HT) Hnd) as (F1 & F2 & F3 & F4).
  { intros id (i & _ & Hi)%Hids. destruct (to_queue _ HT _ _ Hi) as (j & ? & _ & _ & ?). eauto. }
  rewrite <- E1 in F1. rewrite <- E2 in F2, F3. clear E1 E2 F4.
  assert (forall id j, co_jobs c !! id = Some j -> j_started j = true -> id ∉ ids) as Hrun.
  { intros id j Hj Hs (i' & _ & Hi)%Hids. destruct (to_queue _ HT _ _ Hi) as (j' & ? & _ & ? & _). congruence. }
  split.
  - intros k id [H Hn]%F1. destruct (to_inflight _ HT _ _ H) as (j & ? & ? & ? & ? & Hp). exists j. rewrite F2, E3, Hq by done.
    split_and!; try done. destruct (j_started j); [done|]. destruct (gone (j_instance j)) eqn:Eg; [|done]. destruct Hn. apply Hids. eauto.
  - intros i id. rewrite E3. intros H. destruct (to_lease _ HT _ _ H) as (j & Hj & ? & Hs & ?). exists j.
    assert (id ∉ ids) by (by eapply Hrun). rewrite F2 by done. split_and!; try done. by apply F1.
  - intros i id. rewrite Hq. destruct (gone i) eqn:Eg; [by intros ?%not_elem_of_nil|]. intros H.
    destruct (to_queue _ HT _ _ H) as (j & Hj & Hi & Hs & ?). exists j.
    assert (id ∉ ids) as Hn. { intros (i' & Hg & Hi')%Hids. destruct (to_queue _ HT _ _ Hi') as (j' & ? & ? & _). congruence. }
    rewrite F2 by done. split_and!; try done. by apply F1.
  - intros i. rewrite Hq. destruct (gone i); [constructor|apply HT].
  - intros id j Hj Hn. destruct (decide (id ∈ ids)) as [Hid|Hid].
    + destruct (F3 _ Hid) as (j' & ? & ?). congruence.
    + rewrite F2 in Hj by done. apply F1. split; [|done]. by apply (to_pending _ HT).
Qed.

(** ** Starting a job *)

Lemma queued_insert c (q : list job_id) i i' : queued (c <| co_queue := <[i := q]> (co_queue c) |>) i' = if decide (i' = i) then q else queued c i'.
Proof. unfold queued. cbn. destruct (decide (i' = i)) as [-> |Hi]; [by rewrite lookup_insert_eq|by rewrite lookup_insert_ne]. Qed.
Lemma queued_delete c i i' : queued (c <| co_queue := base.delete i (co_queue c) |>) i' = if decide (i' = i) then [] else queued c i'.
Proof. unfold queued. cbn. destruct (decide (i' = i)) as [-> |Hi]; [by rewrite lookup_delete_eq|by rewrite lookup_delete_ne]. Qed.

(** Only the queues count, not how empty ones are stored. *)
Lemma tables_queues c c' :
  (forall i, queued c' i = queued c i) -> co_inflight c' = co_inflight c -> co_leases c' = co_leases c -> co_jobs c' = co_jobs c ->
  tables_ok c -> tables_ok c'.
Proof.
  intros EQ E1 E2 E4 [T1 T2 T3 T4 T5]. split; intros *; rewrite ?E1, ?E2, ?E4, ?EQ; auto.
  intros H. destruct (T1 _ _ H) as (j & ? & ? & ? & ? & Hp). exists j. by rewrite EQ.
Qed.

(** The three outcomes of [tryStart]. *)
Inductive try_start (c : Coordinator) (i : AuthInstanceID) : Coordinator -> list coordinator_effect -> Prop :=
  | ts_idle c' :
      (forall i', queued c' i' = queued c i') -> co_inflight c' = co_inflight c -> co_leases c' = co_leases c -> co_jobs c' = co_jobs c ->
      co_accepting c' = co_accepting c -> co_drains c' = co_drains c -> co_cancelledThrough c' = co_cancelledThrough c ->
      co_completedFence c' = co_completedFence c -> busy c i -> try_start c i c' []
  | ts_start id q j :
      co_accepting c = true -> co_leases c !! i = None -> queued c i = id :: q -> co_jobs c !! id = Some j -> fenceBlocked c i j = false ->
      try_start c i (startJob (c <| co_queue := <[i := q]> (co_queue c) |>) id i) [StartJob id].

Lemma tryStart_cases c i : tables_ok c -> try_start c i (tryStart c i).1 (tryStart c i).2.
Proof.
  intros HT. unfold tryStart. destruct (co_accepting c) eqn:Ea; cbn [negb]; [|by apply ts_idle; try done; intros ?; congruence].
  destruct (co_leases c !! i) eqn:El; [by apply ts_idle; try done; intros ?; congruence|].
  destruct (queued c i) as [|id q] eqn:Eq.
  - apply ts_idle; try done; [|intros _ _ id q j; rewrite Eq; done]. intros i'. etrans; [apply queued_delete|].
    destruct (decide (i' = i)) as [-> |]; done.
  - destruct (to_queue _ HT i id) as (j & Hj & _); [rewrite Eq; left|]. rewrite Hj.
    destruct (fenceBlocked c i j) eqn:Ef; [|by eapply ts_start].
    apply ts_idle; try done. intros _ _ id' q' j'. rewrite Eq. intros [= <- <-]. congruence.
Qed.

Lemma start_tables c i id q j :
  tables_ok c -> co_leases c !! i = None -> queued c i = id :: q -> co_jobs c !! id = Some j ->
  tables_ok (startJob (c <| co_queue := <[i := q]> (co_queue c) |>) id i).
Proof.
  intros HT Hl Hq Hj. set (c' := startJob _ _ _).
  assert (forall i', queued c' i' = if decide (i' = i) then q else queued c i') as EQ by (intros; apply queued_insert).
  assert (co_jobs c' = <[id := j <| j_started := true |>]> (co_jobs c)) as EJ.
  { cbn. apply map_eq. intros x. destruct (decide (x = id)) as [-> |Hx].
    - by rewrite lookup_alter_eq, Hj, lookup_insert_eq.
    - by rewrite lookup_alter_ne, lookup_insert_ne. }
  assert (co_inflight c' = co_inflight c) as EI by done. assert (co_leases c' = <[i := id]> (co_leases c)) as EL by done. clearbody c'.
  destruct (to_queue _ HT i id) as (j0 & Hj0 & Hi & Hs & Hk); [rewrite Hq; left|]. assert (j0 = j) as -> by congruence.
  pose proof (to_nodup _ HT i) as Hnd. rewrite Hq in Hnd. apply NoDup_cons in Hnd as [Hni Hnd].
  assert (forall i', co_leases c !! i' = Some id -> False) as Hno.
  { intros i' H. destruct (to_lease _ HT _ _ H) as (j' & ? & _ & ? & _). congruence. }
  split.
  - intros k x. rewrite EI. intros H. destruct (to_inflight _ HT _ _ H) as (jx & Hjx & ? & ? & ? & Hp). rewrite EJ.
    destruct (decide (x = id)) as [-> |Hx].
    + assert (jx = j) as -> by congruence. exists (j <| j_started := true |>). rewrite lookup_insert_eq, EL. split_and!; try done.
      change (<[i := id]> (co_leases c) !! j_instance j = Some id). by rewrite Hi, lookup_insert_eq.
    + exists jx. rewrite lookup_insert_ne by done. split_and!; try done. destruct (j_started jx).
      * rewrite EL, lookup_insert_ne; [done|]. congruence.
      * rewrite EQ. destruct (decide (j_instance jx = i)) as [E|]; [|done]. rewrite E, Hq in Hp. apply elem_of_cons in Hp as [|]; done.
  - intros i' x. rewrite EL, EJ, EI. destruct (decide (i' = i)) as [-> |Hi'].
    + rewrite lookup_insert_eq. intros [= <-]. exists (j <| j_started := true |>). rewrite lookup_insert_eq. done.
    + rewrite lookup_insert_ne by done. intros H. destruct (to_lease _ HT _ _ H) as (jx & ? & ? & ? & ?). exists jx.
      assert (x <> id) by (intros ->; by apply (Hno i')). by rewrite lookup_insert_ne.
  - intros i' x. rewrite EQ, EJ, EI. intros H.
    assert (x ∈ queued c i' /\ x <> id) as [Hx Hne].
    { destruct (decide (i' = i)) as [-> |Hi']; [rewrite Hq; split; [by right|]; by intros ->|]. split; [done|]. intros ->.
      destruct (to_queue _ HT _ _ H) as (jx & ? & ? & _). congruence. }
    destruct (to_queue _ HT _ _ Hx) as (jx & ? & ? & ? & ?). exists jx. by rewrite lookup_insert_ne.
  - intros i'. rewrite EQ. destruct (decide (i' = i)); [done|apply HT].
  - intros x jx. rewrite EJ, EI. destruct (decide (x = id)) as [-> |Hx].
    + rewrite lookup_insert_eq. by intros [= <-] _.
    + rewrite lookup_insert_ne by done. apply (to_pending _ HT).
Qed.

(** ** The invariant of the loop *)

Record core_inv (c : Coordinator) : Prop := {
  cr_tables : tables_ok c;
  cr_gates : gates_ok c;
  cr_busy : forall i, busy c i;
}.
Record coord_inv (c : Coordinator) : Prop := {
  cv_core : core_inv c;
  cv_drains : drains_wait c;
}.

(** What the state of an instance depends on. *)
Record same_at (c c' : Coordinator) (i : AuthInstanceID) : Prop := {
  sa_accepting : co_accepting c' = co_accepting c;
  sa_lease : co_leases c' !! i = co_leases c !! i;
  sa_queue : queued c' i = queued c i;
  sa_fence : zread (co_completedFence c') i = zread (co_completedFence c) i;
  sa_intents : forall id j', co_jobs c' !! id = Some j' -> id ∈ queued c i ->
                 exists j, co_jobs c !! id = Some j /\ j_intent j = j_intent j';
}.

Lemma busy_at c c' i : same_at c c' i -> busy c i -> busy c' i.
Proof.
  intros [] Hb Ha Hl id q j' Hq Hj. rewrite sa_queue0 in Hq.
  destruct (sa_intents0 id j' Hj) as (j & Hj0 & Ei); [rewrite Hq; left|].
  unfold fenceBlocked. rewrite sa_fence0, <- Ei. apply (Hb ltac:(congruence) ltac:(congruence) id q j Hq Hj0).
Qed.

Lemma tryStart_inv c i :
  tables_ok c -> gates_ok c -> (forall i', i' <> i -> busy c i') ->
  core_inv (tryStart c i).1 /\ co_drains (tryStart c i).1 = co_drains c /\ co_inflight (tryStart c i).1 = co_inflight c.
Proof.
  intros HT [G1 G2 G3] Hb. destruct (tryStart_cases c i HT) as [c' EQ E1 E2 E3 E4 E5 E6 E7 Hi|id q j Ha Hl Hq Hj Hf]; simpl.
  - split_and!; [|done|done]. split.
    + by apply (tables_queues c).
    + split; [|rewrite E4; intros H i'; rewrite EQ; by apply G2|by rewrite E4, E5].
      intros i'. rewrite E6, EQ, E2. apply G1.
    + intros i'. apply (busy_at c); [|destruct (decide (i' = i)) as [-> |]; auto].
      split; rewrite ?E2, ?E3, ?E7, ?EQ; eauto.
  - split_and!; [|done|done]. set (c' := startJob _ _ _).
    assert (forall i', queued c' i' = if decide (i' = i) then q else queued c i') as EQ by (intros; apply queued_insert).
    split; [by apply (start_tables c i id q j)|split|].
    + intros i' H'. destruct (G1 i' H') as [Q1 Q2]. assert (i' <> i) by (intros ->; congruence).
      rewrite EQ, decide_False by done. split; [done|]. cbn. by rewrite lookup_insert_ne.
    + cbn. congruence.
    + apply G3.
    + intros i'. destruct (decide (i' = i)) as [-> |Hne].
      { intros _ H'. cbn in H'. by rewrite lookup_insert_eq in H'. }
      apply (busy_at c); [|by apply Hb]. split; try done.
      * cbn. by rewrite lookup_insert_ne.
      * by rewrite EQ, decide_False.
      * intros x j' Hx Hin. exists j'. split; [|done]. cbn in Hx. rewrite lookup_alter_ne in Hx; [done|]. intros ->.
        destruct (to_queue _ HT _ _ Hin) as (j1 & ? & ? & _). destruct (to_queue _ HT i x) as (j2 & ? & ? & _); [rewrite Hq; left|]. congruence.
Qed.

Lemma finishDrains_inv c : core_inv c -> coord_inv (finishDrains c).1.
Proof.
  intros [HT [G1 G2 G3] Hb]. unfold finishDrains. destruct (bool_decide_reflect (co_inflight c = ∅)) as [E|E]; cbn [negb orb].
  - destruct (bool_decide_reflect (length (co_drains c) = 0%nat)) as [E0|E0]; simpl.
    + apply nil_length_inv in E0. split; [by split|]. intros ?. done.
    + split; [split|by intros []].
      * by apply (tables_same c).
      * split; [apply G1|apply G2|by intros []].
      * intros i. apply (busy_at c); [|apply Hb]. split; eauto.
  - simpl. split; [by split|]. by intros _.
Qed.

Lemma settle_inv c i effects :
  tables_ok c -> gates_ok c -> (forall i', i' <> i -> busy c i') -> coord_inv (settle c i effects).1.
Proof.
  intros HT HG Hb. unfold settle. destruct (tryStart_inv c i HT HG Hb) as [Hc _].
  destruct (tryStart c i) as [c1 e1]. pose proof (finishDrains_inv c1 Hc) as Hd. by destruct (finishDrains c1) as [c2 e2].
Qed.

(** A running job left the tables; its instance's fence may have moved. *)
Record removed (c c' : Coordinator) (id : job_id) (j : coordinatorJob) : Prop := {
  rm_inflight : co_inflight c' = base.delete (j_key j) (co_inflight c);
  rm_leases : co_leases c' = base.delete (j_instance j) (co_leases c);
  rm_queue : co_queue c' = co_queue c;
  rm_jobs : exists j', co_jobs c' = <[id := j']> (co_jobs c) /\ j_future j' <> None;
  rm_accepting : co_accepting c' = co_accepting c;
  rm_cancelled : co_cancelledThrough c' = co_cancelledThrough c;
  rm_drains : co_drains c' = [] <-> co_drains c = [];
  rm_fence : forall i, i <> j_instance j -> zread (co_completedFence c') i = zread (co_completedFence c) i;
}.

Lemma removed_inv c c' id j :
  core_inv c -> co_jobs c !! id = Some j -> co_inflight c !! j_key j = Some id -> j_started j = true -> removed c c' id j ->
  tables_ok c' /\ gates_ok c' /\ (forall i', i' <> j_instance j -> busy c' i').
Proof.
  intros [HT [G1 G2 G3] Hb] Hj Hin Hs [R1 R2 R3 (j' & R4 & R4') R5 R6 R7 R8].
  assert (forall i, queued c' i = queued c i) as EQ by (intros; unfold queued; by rewrite R3).
  split_and!; [by eapply (tables_finish c c' id j j')|split|].
  - intros i. rewrite R6, EQ, R2. intros H. destruct (G1 i H) as [Q1 Q2]. split; [done|]. by apply lookup_delete_None; right.
  - rewrite R5. intros H i. rewrite EQ. by apply G2.
  - rewrite R5. intros H. apply G3. by rewrite <- R7.
  - intros i Hi. apply (busy_at c); [|done]. split; rewrite ?R2, ?R5; auto.
    + by rewrite lookup_delete_ne.
    + intros x jx. rewrite R4. destruct (decide (x = id)) as [-> |Hx].
      * intros _ Hq. exfalso. destruct (to_queue _ HT _ _ Hq) as (j1 & ? & ? & ? & _). congruence.
      * rewrite lookup_insert_ne by done. eauto.
Qed.

Lemma alter_known {A} (f : A -> A) (m : gmap nat A) id x : m !! id = Some x -> alter f id m = <[id := f x]> m.
Proof.
  intros Hx. apply map_eq. intros y. destruct (decide (y = id)) as [-> |Hy].
  - by rewrite lookup_alter_eq, Hx, lookup_insert_eq.
  - by rewrite lookup_alter_ne, lookup_insert_ne.
Qed.

Lemma alter_alter {A} (f g : A -> A) (m : gmap nat A) id : alter f id (alter g id m) = alter (fun x => f (g x)) id m.
Proof.
  apply map_eq. intros y. destruct (decide (y = id)) as [-> |Hy].
  - rewrite !lookup_alter_eq. by destruct (m !! id).
  - by rewrite !lookup_alter_ne.
Qed.

(** A change of the drains' reports and of the fence of instance [i] only. *)
Record light (i : AuthInstanceID) (c c' : Coordinator) : Prop := {
  li_inflight : co_inflight c' = co_inflight c;
  li_leases : co_leases c' = co_leases c;
  li_queue : co_queue c' = co_queue c;
  li_jobs : co_jobs c' = co_jobs c;
  li_accepting : co_accepting c' = co_accepting c;
  li_cancelled : co_cancelledThrough c' = co_cancelledThrough c;
  li_drains : co_drains c' = [] <-> co_drains c = [];
  li_fence : forall i', i' <> i -> zread (co_completedFence c') i' = zread (co_completedFence c) i';
}.

Lemma light_refl i c : light i c c.
Proof. by split. Qed.
Lemma light_trans i c1 c2 c3 : light i c1 c2 -> light i c2 c3 -> light i c1 c3.
Proof.
  intros [A1 A2 A3 A4 A5 A6 A7 A8] [B1 B2 B3 B4 B5 B6 B7 B8]. split; try congruence.
  - by rewrite B7.
  - intros i' Hi. by rewrite B8, A8.
Qed.
Lemma light_drains i c f : light i c (onDrains c f).
Proof. split; try done. unfold onDrains. cbn. by destruct (co_drains c). Qed.
Lemma light_fence i c f : light i c (bumpFence c i f).
Proof.
  unfold bumpFence. destruct (_ <? _); [|apply light_refl]. split; try done. intros i' Hi. unfold zread. cbn. by rewrite lookup_insert_ne.
Qed.
#[local] Hint Resolve light_refl light_drains light_fence light_trans : core.

(** A running job is dropped from the tables, its future completed, with light
    changes in between. *)
Lemma removed_intro c id j f1 f2 c1 c2 c3 :
  core_inv c -> co_jobs c !! id = Some j -> co_inflight c !! j_key j = Some id -> j_started j = true ->
  j_future (f2 (f1 j)) <> None ->
  c1 = unlease (dropInflight (onJob c id f1) (j_key j)) (j_instance j) id ->
  light (j_instance j) c1 c2 -> light (j_instance j) (onJob c2 id f2) c3 -> removed c c3 id j.
Proof.
  intros [HT _ _] Hj Hin Hs Hf E1 L1 L2. destruct (to_inflight _ HT _ _ Hin) as (j0 & ? & _ & _ & _ & Hl).
  assert (j0 = j) as -> by congruence. rewrite Hs in Hl.
  assert (removed c (onJob c1 id f2) id j) as [R1 R2 R3 (j' & R4 & R4') R5 R6 R7 R8].
  { subst c1. unfold unlease. rewrite bool_decide_true by exact Hl. split; try done. exists (f2 (f1 j)). split; [|done].
    cbn. by rewrite alter_alter, (alter_known _ _ _ j). }
  destruct L1 as [A1 A2 A3 A4 A5 A6 A7 A8], L2 as [B1 B2 B3 B4 B5 B6 B7 B8]. cbn in *. split; try congruence.
  - exists j'. split; [|done]. by rewrite B4, A4.
  - by rewrite B7, A7.
  - intros i Hi. by rewrite B8, A8, R8.
Qed.

(** The turns that finish a running job. *)
Definition own_key (c : Coordinator) (key : operationKey) (id : job_id) : Prop :=
  exists j, co_jobs c !! id = Some j /\ j_key j = key /\ j_started j = true.

Lemma handleExpire_inv c cb key id : coord_inv c -> own_key c key id -> coord_inv (handleExpire c cb key id).1.
Proof.
  intros [Hc Hd] (j & Hj & Hk & Hs). unfold handleExpire. rewrite Hj.
  destruct (bool_decide_reflect (co_inflight c !! key = Some id)) as [Hin|]; cbn [negb orb]; [|by split].
  destruct (j_expired j); [by split|]. subst key. cbv zeta. destruct (inherit _ _ _ _ _) as [ierr eff].
  match goal with |- coord_inv (settle ?c3 _ _).1 => assert (removed c c3 id j) as Hr end.
  { eapply (removed_intro c id j); [done..| |reflexivity|apply light_refl|eauto]. apply completeFuture_done. }
  destruct (removed_inv c _ id j Hc Hj Hin Hs Hr) as (T & G & B). by apply settle_inv.
Qed.

Lemma onJob_id c id : onJob c id (fun j => j) = c.
Proof.
  destruct c. unfold onJob. cbn. f_equal. apply map_eq. intros y. destruct (decide (y = id)) as [-> |Hy].
  - rewrite lookup_alter_eq. by destruct (_ !! id).
  - by rewrite lookup_alter_ne.
Qed.

Lemma handleResult_inv c cb key id result : coord_inv c -> own_key c key id -> coord_inv (handleResult c cb key id result).1.
Proof.
  intros [Hc Hd] (j & Hj & Hk & Hs). unfold handleResult. rewrite Hj.
  destruct (bool_decide_reflect (co_inflight c !! key = Some id)) as [Hin|]; cbn [negb]; [|by split].
  cbv zeta. subst key. set (res := mergeResult j result). destruct (_ && _ && _); [by split|].
  destruct (match (if resultValid cb j res then cb_Apply cb else None) with Some _ => _ | None => _ end) as [[valid res'] applied].
  set (c1 := unlease _ _ _).
  assert (forall c2 f eff, light (j_instance j) c1 c2 -> (forall j, j_future (f j) <> None) ->
    coord_inv (settle (onDrains (onJob c2 id f) (fun r => r <| dr_Completed := i64 (dr_Completed r + 1) |>)) (j_instance j) eff).1) as Hgo.
  { intros c2 f eff L Hf.
    assert (removed c (onDrains (onJob c2 id f) (fun r => r <| dr_Completed := i64 (dr_Completed r + 1) |>)) id j) as Hr.
    { eapply (removed_intro c id j (fun j => j) f c1 c2); eauto. subst c1. by rewrite onJob_id. }
    destruct (removed_inv c _ id j Hc Hj Hin Hs Hr) as (T & G & B). by apply settle_inv. }
  destruct valid; cbn [negb].
  - apply Hgo; [eauto|]. intros. apply completeFuture_done.
  - destruct (inherit _ _ _ _ _) as [ierr eff]. apply Hgo; [eauto 6|]. intros. apply completeFuture_done.
Qed.

(** ** The other turns *)

(** A new job joins the queue of its instance. *)
Lemma tables_enqueue c c' id key intent :
  tables_ok c -> co_jobs c !! id = None -> co_inflight c !! key = None ->
  co_jobs c' = <[id := mkJob key intent None false false false zeroTime false false]> (co_jobs c) ->
  co_inflight c' = <[key := id]> (co_inflight c) -> co_leases c' = co_leases c ->
  (forall i, queued c' i = if decide (i = in_Instance intent) then queued c i ++ [id] else queued c i) -> tables_ok c'.
Proof.
  intros HT Hid Hkey E1 E2 E3 EQ. set (job := mkJob _ _ _ _ _ _ _ _ _) in E1.
  assert (forall x j, co_jobs c !! x = Some j -> x <> id) as Hne by (intros x j Hx ->; congruence).
  assert (forall x i, x ∈ queued c i -> x ∈ queued c' i) as Hq.
  { intros x i Hx. rewrite EQ. destruct (decide _); [|done]. apply elem_of_app. by left. }
  split.
  - intros k x. rewrite E1, E2. destruct (decide (k = key)) as [-> |Hk].
    + rewrite lookup_insert_eq. intros [= <-]. exists job. rewrite lookup_insert_eq. split_and!; try done. cbn. rewrite EQ.
      rewrite decide_True by done. apply elem_of_app. right. left.
    + rewrite lookup_insert_ne by done. intros H. destruct (to_inflight _ HT _ _ H) as (j & Hj & ? & ? & ? & Hp). exists j.
      rewrite lookup_insert_ne by (apply not_eq_sym; eauto). rewrite E3. split_and!; try done. destruct (j_started j); auto.
  - intros i x. rewrite E1, E2, E3. intros H. destruct (to_lease _ HT _ _ H) as (j & Hj & ? & ? & Hin). exists j.
    rewrite lookup_insert_ne by (apply not_eq_sym; eauto). rewrite lookup_insert_ne by congruence. done.
  - intros i x. rewrite EQ, E1, E2. intros H.
    assert (x ∈ queued c i \/ (i = in_Instance intent /\ x = id)) as [Hx|[-> ->]].
    { destruct (decide _) as [->|]; [|by left]. apply elem_of_app in H as [|H]; [by left|]. apply list_elem_of_singleton in H. by right. }
    + destruct (to_queue _ HT _ _ Hx) as (j & Hj & ? & ? & Hin). exists j.
      rewrite lookup_insert_ne by (apply not_eq_sym; eauto). rewrite lookup_insert_ne by congruence. done.
    + exists job. by rewrite !lookup_insert_eq.
  - intros i. rewrite EQ. destruct (decide _) as [->|]; [|apply HT]. apply NoDup_app. split_and!; [apply HT| |apply NoDup_singleton].
    intros x Hx ->%list_elem_of_singleton. destruct (to_queue _ HT _ _ Hx) as (j & ? & _). congruence.
  - intros x j. rewrite E1, E2. destruct (decide (x = id)) as [-> |Hx].
    + rewrite lookup_insert_eq. intros [= <-] _. by rewrite lookup_insert_eq.
    + rewrite lookup_insert_ne by done. intros Hj Hn. pose proof (to_pending _ HT _ _ Hj Hn). by rewrite lookup_insert_ne by congruence.
Qed.

(** Changes of the counters and generations only. *)
Lemma core_same c c' :
  same_tables c c' -> co_accepting c' = co_accepting c -> co_drains c' = co_drains c -> co_completedFence c' = co_completedFence c ->
  (forall i, is_Some (co_cancelledThrough c' !! i) -> is_Some (co_cancelledThrough c !! i)) -> core_inv c -> core_inv c'.
Proof.
  intros HS E1 E2 E3 E4 [HT [G1 G2 G3] Hb]. pose proof HS as (S1 & S2 & S3 & S4).
  assert (forall i, queued c' i = queued c i) as EQ by (intros; unfold queued; by rewrite S3). split.
  - by apply (tables_same c).
  - split; [|rewrite E1; intros; rewrite EQ; by apply G2|by rewrite E1, E2]. intros i Hi. rewrite EQ, S2. by apply G1, E4.
  - intros i. apply (busy_at c); [|done]. split; rewrite ?S2, ?S4, ?E3; eauto.
Qed.

Lemma coord_same c c' :
  same_tables c c' -> co_accepting c' = co_accepting c -> co_drains c' = co_drains c -> co_completedFence c' = co_completedFence c ->
  (forall i, is_Some (co_cancelledThrough c' !! i) -> is_Some (co_cancelledThrough c !! i)) -> coord_inv c -> coord_inv c'.
Proof.
  intros HS E1 E2 E3 E4 [Hc Hd]. split; [by eapply core_same|]. destruct HS as (S1 & _). unfold drains_wait. by rewrite E2, S1.
Qed.

Lemma handleSubmit_inv c intent : coord_inv c -> coord_inv (handleSubmit c intent).1.
Proof.
  intros Hv. unfold handleSubmit.
  destruct (if String.eqb _ _ then _ else _) as [c0 nonce] eqn:E0.
  assert (coord_inv c0) as [Hc Hd].
  { destruct (String.eqb _ _); injection E0 as <- _; [|done]. by apply (coord_same c). }
  clear E0 Hv c. cbv zeta. set (key := (_, _, _, _, _) : operationKey).
  destruct (co_inflight c0 !! key) eqn:Ek; [by split|].
  destruct (negb (co_accepting c0) || _ || _ || _) eqn:Eg; [by split|].
  apply orb_false_iff in Eg as [[[Ha%negb_false_iff Hcan%bool_decide_eq_false]%orb_false_iff _]%orb_false_iff _].
  set (c1 := if _ <? _ then _ else c0).
  assert (core_inv c1 /\ same_tables c0 c1 /\ co_accepting c1 = co_accepting c0 /\ co_drains c1 = co_drains c0
          /\ co_cancelledThrough c1 = co_cancelledThrough c0) as (Hc1 & (S1 & S2 & S3 & S4) & Ea & Ed & Ec).
  { subst c1. destruct (_ <? _); [|by split_and!]. split_and!; try done. by apply (core_same c0). }
  clearbody c1. set (id := fresh (dom (co_jobs c1))).
  assert (co_jobs c1 !! id = None) as Hid by (apply not_elem_of_dom, is_fresh). clearbody id.
  set (c2 := set_field co_queue _ _). destruct Hc1 as [HT [G1 G2 G3] Hb].
  assert (forall i, queued c2 i = if decide (i = in_Instance intent) then queued c1 i ++ [id] else queued c1 i) as EQ.
  { intros i. etrans; [apply (queued_insert c1)|]. by destruct (decide _) as [->|]. }
  destruct (tryStart_inv c2 (in_Instance intent)) as (Hc3 & Ed3 & _).
  - eapply (tables_enqueue c1 c2 id key intent); try done. by rewrite S1.
  - split; [|cbn; congruence|done]. intros i Hi. assert (i <> in_Instance intent) as Hne.
    { intros ->. apply Hcan. cbn in Hi. by rewrite Ec in Hi. }
    rewrite EQ, decide_False by done. by apply G1.
  - intros i Hi. apply (busy_at c1); [|done]. split; try done; [by rewrite EQ, decide_False|].
    intros x j' Hx Hin. exists j'. split; [|done]. cbn in Hx. rewrite lookup_insert_ne in Hx; [done|].
    intros ->. destruct (to_queue _ HT _ _ Hin) as (j & ? & _). congruence.
  - destruct (tryStart c2 _) as [c3 e3]. split; [done|]. intros Hne. change (co_drains c3 <> []) in Hne. cbn in Ed3. rewrite Ed3, Ed in Hne.
    exfalso. destruct Hne. destruct (co_drains c0) eqn:Edr; [done|]. pose proof (ga_drains _ (cr_gates _ Hc)) as H. rewrite Edr in H. naive_solver congruence.
Qed.

Lemma activate_inv c ig : coord_inv c -> coord_inv (activateInstance c ig).
Proof.
  destruct ig as [i g]. unfold activateInstance. intros Hv. set (c1 := if _ <? _ then _ else c).
  assert (coord_inv c1) as Hv1 by (subst c1; destruct (_ <? _); [by apply (coord_same c)|done]). clearbody c1.
  destruct (_ <? _); [|done]. apply (coord_same c1); try done. cbn. intros i' [x Hx]. apply lookup_delete_Some in Hx as [_ Hx]. eauto.
Qed.

Lemma restore_inv tokens c ig : coord_inv c -> coord_inv (restoreInstance tokens c ig).
Proof.
  destruct ig as [i g]. unfold restoreInstance. intros Hv. destruct (_ && _); [|done].
  apply (coord_same c); try done. cbn. intros i' [x Hx]. apply lookup_delete_Some in Hx as [_ Hx]. eauto.
Qed.

Lemma foldl_inv {A B} (P : A -> Prop) (f : A -> B -> A) l : forall a, (forall a b, P a -> P (f a b)) -> P a -> P (foldl f a l).
Proof. induction l as [|b l IH]; simpl; auto. Qed.

Lemma mark_inv c id t : coord_inv c -> coord_inv (MarkProbeSent c id t).
Proof.
  intros [[HT [G1 G2 G3] Hb] Hd]. unfold MarkProbeSent. set (f := fun j : coordinatorJob => _).
  assert (forall j, same_place j (f j)) as Hf. { intros j. subst f. cbv beta zeta. destruct (After _ _); by split. }
  clearbody f. split; [split|done].
  - by apply tables_touch.
  - by split.
  - intros i. apply (busy_at c); [|done]. split; try done. intros x j' Hx _. cbn in Hx.
    destruct (decide (x = id)) as [-> |Hne]; [|rewrite lookup_alter_ne in Hx by done; eauto].
    rewrite lookup_alter_eq in Hx. destruct (co_jobs c !! id) as [j|]; [|done]. injection Hx as <-. exists j. split; [done|]. by destruct (Hf j).
Qed.

(** Cancelling an instance goes through states in which the instance [i] is
    already marked as cancelled but not yet idle. *)
Record core_but (i : AuthInstanceID) (c : Coordinator) : Prop := {
  cb_tables : tables_ok c;
  cb_cancelled : forall i', i' <> i -> is_Some (co_cancelledThrough c !! i') -> queued c i' = [] /\ co_leases c !! i' = None;
  cb_draining : co_accepting c = false -> forall i', queued c i' = [];
  cb_drains : co_drains c <> [] -> co_accepting c = false;
  cb_busy : forall i', i' <> i -> busy c i';
}.

Lemma cancel_mark c i tokens nonce g :
  core_inv c ->
  core_but i (c <| co_cancelNonce := nonce |> <| co_cancelTokens := tokens |> <| co_cancelledThrough := <[i := g]> (co_cancelledThrough c) |>).
Proof.
  intros [HT [G1 G2 G3] Hb]. split; try done.
  - by apply (tables_same c).
  - intros i' Hne H'. cbn in H'. rewrite lookup_insert_ne in H' by done. by apply G1.
  - intros i' _. apply (busy_at c); [|done]. split; eauto.
Qed.

Lemma cancel_queue c i :
  core_but i c -> let c' := (foldl (cancelQueued true) c (queued c i)) <| co_queue := base.delete i (co_queue c) |> in
  core_but i c' /\ queued c' i = [] /\ co_drains c' = co_drains c.
Proof.
  intros [HT B1 B2 B3 B4]. cbv zeta.
  destruct (cancel_fold true (queued c i) c (tables_keyed _ HT) (to_nodup _ HT i)) as (F1 & F2 & F3 & (R1 & R2 & R3 & R4 & R5 & R6)).
  { intros id H. destruct (to_queue _ HT _ _ H) as (j & ? & _ & _ & ?). eauto. }
  set (c' := set_field co_queue _ _).
  assert (forall i', queued c' i' = if decide (i' = i) then [] else queued c i') as EQ by (intros; apply (queued_delete c)).
  assert (co_inflight c' = co_inflight (foldl (cancelQueued true) c (queued c i)) /\ co_jobs c' = co_jobs (foldl (cancelQueued true) c (queued c i))
          /\ co_leases c' = co_leases c /\ co_accepting c' = co_accepting c /\ co_drains c' = co_drains c
          /\ co_cancelledThrough c' = co_cancelledThrough c /\ co_completedFence c' = co_completedFence c)
    as (E1 & E2 & E3 & E4 & E5 & E6 & E7) by done. clearbody c'.
  split_and!; [|by rewrite EQ, decide_True|done]. split.
  - eapply (tables_unqueue true c c' (queued c i) (fun i' => bool_decide (i' = i))); try done; [apply HT| |].
    + intros id. split; [intros H; exists i; by rewrite bool_decide_true|]. by intros (i' & ->%bool_decide_eq_true & H).
    + intros i'. rewrite EQ. destruct (decide (i' = i)); [by rewrite bool_decide_true|by rewrite bool_decide_false].
  - intros i' Hne. rewrite E6, EQ, E3, decide_False by done. by apply B1.
  - rewrite E4. intros H' i'. rewrite EQ. destruct (decide _); [done|]. by apply B2.
  - by rewrite E4, E5.
  - intros i' Hne. apply (busy_at c); [|by apply B4]. split; rewrite ?E3, ?E4, ?E7; try done; [by rewrite EQ, decide_False|].
    intros id j' Hj' Hin. exists j'. split; [|done]. rewrite E2, F2 in Hj'; [done|]. intros Hq.
    destruct (to_queue _ HT _ _ Hin) as (? & ? & ? & _). destruct (to_queue _ HT _ _ Hq) as (? & ? & ? & _). congruence.
Qed.

Lemma cancel_lease c i : core_but i c -> queued c i = [] -> core_inv (cancelLeased c i) /\ co_drains (cancelLeased c i) = co_drains c.
Proof.
  intros [HT B1 B2 B3 B4] Hq. unfold cancelLeased. destruct (co_leases c !! i) as [id|] eqn:El.
  2:{ split; [|done]. split; [done|by split; [intros i' H'; destruct (decide (i' = i)) as [-> |]; auto|..]|].
      intros i'. destruct (decide (i' = i)) as [-> |Hne]; [|by apply B4]. intros _ _ x q j. by rewrite Hq. }
  destruct (to_lease _ HT i id El) as (j & Hj & Hi & Hs & Hin). rewrite Hj. cbv zeta. set (c' := onJob _ _ _).
  assert (exists j', co_jobs c' = <[id := j']> (co_jobs c) /\ j_future j' <> None) as (j' & Ej & Hf).
  { eexists. split; [cbn; rewrite alter_alter; apply (alter_known _ _ _ j Hj)|]. apply completeFuture_done. }
  assert (co_inflight c' = base.delete (j_key j) (co_inflight c) /\ co_leases c' = base.delete i (co_leases c) /\ co_queue c' = co_queue c
          /\ co_accepting c' = co_accepting c /\ co_drains c' = co_drains c /\ co_cancelledThrough c' = co_cancelledThrough c
          /\ co_completedFence c' = co_completedFence c) as (E1 & E2 & E3 & E4 & E5 & E6 & E7) by done. clearbody c'.
  assert (forall i', queued c' i' = queued c i') as EQ by (intros; unfold queued; by rewrite E3).
  split; [|done]. split; [|split|].
  - eapply (tables_finish c c' id j j'); try done. by rewrite Hi.
  - intros i'. rewrite E6, EQ, E2. intros H'. destruct (decide (i' = i)) as [-> |Hne]; [by rewrite lookup_delete_eq|].
    rewrite lookup_delete_ne by done. by apply B1.
  - rewrite E4. intros H' i'. rewrite EQ. by apply B2.
  - by rewrite E4, E5.
  - intros i'. destruct (decide (i' = i)) as [-> |Hne]; [intros _ _ x q jx; by rewrite EQ, Hq|].
    apply (busy_at c); [|by apply B4]. split; rewrite ?E2, ?E7; auto; [by rewrite lookup_delete_ne|].
    intros x jx Hx Hin'. exists jx. split; [|done]. rewrite Ej, lookup_insert_ne in Hx; [done|]. intros <-.
    destruct (to_queue _ HT _ _ Hin') as (? & ? & ? & ? & _). congruence.
Qed.

Lemma cancelInstance_inv c i : core_inv c -> core_inv (cancelInstance c i).
Proof.
  intros Hc. unfold cancelInstance. cbv zeta. pose proof (cancel_mark c i (<[i := u64 (co_cancelNonce c + 1)]> (co_cancelTokens c))
    (u64 (co_cancelNonce c + 1)) (zread (co_instanceGeneration c) i) Hc) as Hm.
  set (c0 := set_field co_cancelledThrough _ _) in *.
  destruct (cancel_queue c0 i Hm) as (Hq & Hq' & _).
  destruct (cancel_fold true (queued c0 i) c0 (tables_keyed _ (cb_tables _ _ Hm)) (to_nodup _ (cb_tables _ _ Hm) i)) as (_ & _ & _ & (_ & R2 & _)).
  { intros id H. destruct (to_queue _ (cb_tables _ _ Hm) _ _ H) as (j & ? & _ & _ & ?). eauto. }
  rewrite R2. by apply cancel_lease.
Qed.

Lemma handleCancel_inv c instances : coord_inv c -> coord_inv (handleCancel c instances).1.
Proof.
  intros [Hc _]. unfold handleCancel.
  pose proof (finishDrains_inv (foldl cancelInstance c instances)) as Hf.
  destruct (finishDrains _) as [c' e]. apply Hf. apply foldl_inv; [|done]. intros a b Ha. by apply cancelInstance_inv.
Qed.

(** ** Draining *)

Lemma concat_owned {K A} (l : list (K * list A)) :
  NoDup l.*1 -> (forall k q, (k, q) ∈ l -> NoDup q) ->
  (forall k1 q1 k2 q2 x, (k1, q1) ∈ l -> (k2, q2) ∈ l -> x ∈ q1 -> x ∈ q2 -> k1 = k2) -> NoDup (concat l.*2).
Proof.
  induction l as [|[k q] l IH]; intros Hk Hq Ho; [constructor|]. rewrite fmap_cons in Hk. apply NoDup_cons in Hk as [Hk Hl]. simpl.
  apply NoDup_app. split_and!.
  - apply (Hq k). left.
  - intros x Hx (q2 & Hq2 & Hx2)%list_elem_of_In%in_concat.
    apply list_elem_of_In, list_elem_of_fmap in Hq2 as ([k2 q2'] & -> & Hin). apply list_elem_of_In in Hx2.
    assert (k = k2) as -> by (eapply (Ho k q k2 q2' x); [left|by right|done|done]).
    apply Hk. by apply (list_elem_of_fmap_2 fst _ (k2, q2')).
  - apply IH; [done|intros; eapply Hq; by right|]. intros k1 q1 k2 q2 x H1 H2. apply (Ho k1 q1 k2 q2 x); by right.
Qed.

Section draining.
Context `{MapRange}.

Lemma all_queued c id : id ∈ concat (map_range (co_queue c)).*2 <-> exists i, id ∈ queued c i.
Proof.
  rewrite list_elem_of_In, in_concat. split.
  - intros (q & Hq & Hid). apply list_elem_of_In, list_elem_of_fmap in Hq as ([i q'] & -> & Hin%elem_of_map_range).
    exists i. unfold queued. rewrite Hin. by apply list_elem_of_In.
  - intros (i & Hi). unfold queued in Hi. destruct (co_queue c !! i) as [q|] eqn:E; [|by apply not_elem_of_nil in Hi].
    exists q. split; [|by apply list_elem_of_In]. apply list_elem_of_In. apply (list_elem_of_fmap_2 snd _ (i, q)). by apply elem_of_map_range.
Qed.

Lemma all_queued_nodup c : tables_ok c -> NoDup (concat (map_range (co_queue c)).*2).
Proof.
  intros HT. assert (forall i q, (i, q) ∈ map_range (co_queue c) -> queued c i = q) as Hq.
  { intros i q Hi%elem_of_map_range. unfold queued. by rewrite Hi. }
  apply concat_owned.
  - rewrite map_range_perm. apply NoDup_fst_map_to_list.
  - intros i q <-%Hq. apply HT.
  - intros i1 q1 i2 q2 x <-%Hq <-%Hq H1 H2. destruct (to_queue _ HT _ _ H1) as (? & ? & ? & _).
    destruct (to_queue _ HT _ _ H2) as (? & ? & ? & _). congruence.
Qed.

Lemma drainQueued_inv c :
  tables_ok c -> let c' := (drainQueued c).1 in
  tables_ok c' /\ (forall i, queued c' i = []) /\ co_leases c' = co_leases c /\ co_accepting c' = co_accepting c
  /\ co_drains c' = co_drains c /\ co_cancelledThrough c' = co_cancelledThrough c.
Proof.
  intros HT. unfold drainQueued. cbv zeta. cbn [fst]. set (ids := concat _).
  destruct (cancel_fold false ids c (tables_keyed _ HT) (all_queued_nodup _ HT)) as (_ & _ & _ & (R1 & R2 & R3 & R4 & R5 & R6)).
  { intros id (i & Hi)%all_queued. destruct (to_queue _ HT _ _ Hi) as (j & ? & _ & _ & ?). eauto. }
  split_and!; try done.
  eapply (tables_unqueue false c _ ids (fun _ => true)); try done.
  - by apply all_queued_nodup.
  - intros id. subst ids. rewrite all_queued. naive_solver.
Qed.

Lemma drainRunning_inv c :
  tables_ok c -> let c' := (drainRunning c).1 in
  tables_ok c' /\ co_queue c' = co_queue c /\ co_inflight c' = co_inflight c /\ co_leases c' = co_leases c /\ co_accepting c' = co_accepting c
  /\ co_drains c' = co_drains c /\ co_cancelledThrough c' = co_cancelledThrough c.
Proof.
  intros HT. unfold drainRunning. cbv zeta. cbn [fst]. generalize (filter (fun id => runningJob c id = true) (map_range (co_inflight c)).*2).
  intros ids. set (f := fun (c : Coordinator) (id : job_id) => _).
  apply (foldl_inv (fun c' => tables_ok c' /\ co_queue c' = co_queue c /\ co_inflight c' = co_inflight c /\ co_leases c' = co_leases c
    /\ co_accepting c' = co_accepting c /\ co_drains c' = co_drains c /\ co_cancelledThrough c' = co_cancelledThrough c)); [|by split_and!].
  intros c1 id (H1 & H2). split; [|done]. apply tables_touch; [|done]. intros j. by split.
Qed.

Lemma handleDrain_inv c w : coord_inv c -> coord_inv (handleDrain c w).1.
Proof.
  intros [Hc Hd]. unfold handleDrain.
  assert (tables_ok (c <| co_accepting := false |>)) as HT by (apply (tables_same c); [done|apply Hc]).
  pose proof (drainQueued_inv _ HT) as (T1 & Q1 & L1 & A1 & D1 & C1). destruct (drainQueued _) as [c1 n]. cbn [fst] in *.
  pose proof (drainRunning_inv _ T1) as (T2 & Q2 & I2 & L2 & A2 & D2 & C2). destruct (drainRunning c1) as [c2 m]. cbn [fst] in *.
  change (co_leases c1 = co_leases c) in L1. change (co_accepting c1 = false) in A1. change (co_drains c1 = co_drains c) in D1.
  change (co_cancelledThrough c1 = co_cancelledThrough c) in C1.
  assert (forall i, queued c2 i = []) as Hq. { intros i. unfold queued. rewrite Q2. apply Q1. }
  assert (forall c3, same_tables c2 c3 -> co_accepting c3 = false -> co_cancelledThrough c3 = co_cancelledThrough c2 -> core_inv c3) as Hgo.
  { intros c3 HS E1 E2. pose proof HS as (S1 & S2 & S3 & S4).
    assert (forall i, queued c3 i = []) as Hq3 by (intros i; unfold queued; rewrite S3; apply Hq).
    split; [by apply (tables_same c2)| |intros i ?; congruence]. split; [|done|done].
    intros i. rewrite E2, C2, C1, S2, L2, L1. intros H'. split; [done|]. by apply (ga_cancelled _ (cr_gates _ Hc)). }
  destruct (bool_decide_reflect (co_inflight c2 = ∅)) as [E|E]; cbn [fst].
  - split; [apply Hgo; [by repeat split|congruence|done]|]. intros Hne. exfalso. apply (Hd ltac:(congruence)).
    destruct (decide (co_inflight c = ∅)) as [|Hn]; [done|]. apply map_choose in Hn as (k & id & Hin).
    destruct (to_inflight _ (cr_tables _ Hc) _ _ Hin) as (j & Hj & _ & _ & _ & Hp).
    exfalso. assert (co_accepting c = false) as Ha by (apply (ga_drains _ (cr_gates _ Hc)); congruence).
    destruct (j_started j) eqn:Es.
    + assert (co_leases c2 !! j_instance j = Some id) as Hl by (rewrite L2, L1; exact Hp).
      destruct (to_lease _ T2 _ _ Hl) as (j' & _ & _ & _ & Hin'). by rewrite E, lookup_empty in Hin'.
    + rewrite (ga_draining _ (cr_gates _ Hc) Ha) in Hp. by apply not_elem_of_nil in Hp.
  - split; [|by intros _]. apply Hgo; [by repeat split| |done]. cbn. congruence.
Qed.

(** ** Runs of the loop *)

(** The commands a job's own goroutine, timer and log callback send carry its
    key and come after its start. *)
Definition command_ok (c : Coordinator) (cmd : coordinator_command) : Prop :=
  match cmd with
  | ExpireCommand key id | ResultCommand key id _ => own_key c key id
  | _ => True
  end.

(** Reachable states of the loop with the effects so far, the latest first. *)
Inductive coord_run : Coordinator -> list coordinator_effect -> Prop :=
  | cr_init : coord_run NewCoordinator []
  | cr_turn c trace cb cmd c' effects :
      coord_run c trace -> command_ok c cmd -> handle c cb cmd = (c', effects) -> coord_run c' (reverse effects ++ trace)
  | cr_mark c trace id t : coord_run c trace -> coord_run (MarkProbeSent c id t) trace.

Lemma handle_inv c cb cmd : coord_inv c -> command_ok c cmd -> coord_inv (handle c cb cmd).1.
Proof.
  intros Hv Hok. destruct cmd as [intent|key id|key id result|key id result err| |instances|gens|gens tokens|w]; simpl.
  - by apply handleSubmit_inv.
  - by apply handleExpire_inv.
  - by apply handleResult_inv.
  - unfold handleLogCallback. by destruct (negb _).
  - done.
  - by apply handleCancel_inv.
  - apply foldl_inv; [|done]. intros a b. apply activate_inv.
  - apply foldl_inv; [|done]. intros a b. apply restore_inv.
  - by apply handleDrain_inv.
Qed.

Lemma NewCoordinator_inv : coord_inv NewCoordinator.
Proof.
  assert (forall i, queued NewCoordinator i = []) as Hq by done.
  split; [split; [split|split|]|]; cbn; try done; intros *; rewrite ?lookup_empty; try done.
  - rewrite Hq. by intros ?%not_elem_of_nil.
  - rewrite Hq. constructor.
  - by intros [].
Qed.

Lemma coord_run_inv c trace : coord_run c trace -> coord_inv c.
Proof.
  induction 1 as [|c trace cb cmd c' effects _ IH Hok E|c trace id t _ IH].
  - apply NewCoordinator_inv.
  - pose proof (handle_inv c cb cmd IH Hok) as Hv. by rewrite E in Hv.
  - by apply mark_inv.
Qed.
End draining.

Section claims.
Context `{MapRange}.

(** An unfinished, running job holds the lease of its instance. *)
Lemma running_leased c id j :
  tables_ok c -> co_jobs c !! id = Some j -> j_future j = None -> j_started j = true -> co_leases c !! j_instance j = Some id.
Proof.
  intros HT Hj Hf Hs. pose proof (to_pending _ HT _ _ Hj Hf) as Hin.
  destruct (to_inflight _ HT _ _ Hin) as (j' & ? & _ & _ & _ & Hp). assert (j' = j) as -> by congruence. by rewrite Hs in Hp.
Qed.

(** C8: One job at a time per instance: in every state the loop can reach, two
    started jobs of the same auth instance whose futures are both pending are the
    same job, and it holds the instance's lease. *)
Theorem one_running_job_per_instance (c : Coordinator) (trace : list coordinator_effect) (id1 id2 : job_id) (j1 j2 : coordinatorJob) :
  coord_run c trace -> co_jobs c !! id1 = Some j1 -> co_jobs c !! id2 = Some j2 ->
  j_instance j1 = j_instance j2 -> j_started j1 = true -> j_started j2 = true -> j_future j1 = None -> j_future j2 = None ->
  id1 = id2 /\ co_leases c !! j_instance j1 = Some id1.
Proof.
  intros Hr%coord_run_inv Hj1 Hj2 Hi Hs1 Hs2 Hf1 Hf2. pose proof (cr_tables _ (cv_core _ Hr)) as HT.
  pose proof (running_leased _ _ _ HT Hj1 Hf1 Hs1) as L1. pose proof (running_leased _ _ _ HT Hj2 Hf2 Hs2) as L2. split; congruence.
Qed.

(** C10: No future is lost: in every reachable state a job's future is pending
    exactly while the job is in flight, where it is either running under the
    lease of its instance or waiting once in the queue of its instance; and when
    the loop closes, every future that was pending is completed. *)
Theorem no_future_lost (c : Coordinator) (trace : list coordinator_effect) :
  coord_run c trace ->
  (forall id j, co_jobs c !! id = Some j ->
     (j_future j = None <-> co_inflight c !! j_key j = Some id)
     /\ (j_future j = None -> if j_started j then co_leases c !! j_instance j = Some id
                              else id ∈ queued c (j_instance j) /\ NoDup (queued c (j_instance j))))
  /\ (forall id j, co_jobs (closeLoop c) !! id = Some j -> j_future j <> None).
Proof.
  intros Hr%coord_run_inv. pose proof (cr_tables _ (cv_core _ Hr)) as HT. split.
  - intros id j Hj. assert (j_future j = None -> co_inflight c !! j_key j = Some id) as Hp by apply (to_pending _ HT _ _ Hj). split.
    + split; [done|]. intros Hin. destruct (to_inflight _ HT _ _ Hin) as (j' & ? & _ & ? & _). congruence.
    + intros Hf. destruct (to_inflight _ HT _ _ (Hp Hf)) as (j' & ? & _ & _ & _ & Hq). assert (j' = j) as -> by congruence.
      destruct (j_started j); [done|]. split; [done|apply HT].
  - unfold closeLoop. set (f := fun (c : Coordinator) (id : job_id) => _).
    assert (forall ids c', (forall id j, co_jobs c' !! id = Some j -> j_future j = None -> id ∈ ids) ->
      forall id j, co_jobs (foldl f c' ids) !! id = Some j -> j_future j <> None) as Hgo.
    { induction ids as [|x ids IH]; intros c' Hp id j Hj Hf; simpl in *.
      - by apply (Hp id j) in Hf as ?%not_elem_of_nil.
      - eapply (IH (f c' x)); [|done|done]. intros y jy Hy Hfy. cbn in Hy. destruct (decide (y = x)) as [-> |Hne].
        + rewrite lookup_alter_eq in Hy. destruct (co_jobs c' !! x); [|done]. injection Hy as <-. by apply completeFuture_done in Hfy.
        + rewrite lookup_alter_ne in Hy by done. apply (Hp y jy Hy) in Hfy. by apply elem_of_cons in Hfy as [|]. }
    apply Hgo. intros id j Hj Hf. pose proof (to_pending _ HT _ _ Hj Hf) as Hin.
    apply (list_elem_of_fmap_2 snd _ (j_key j, id)). by apply elem_of_map_range.
Qed.

(** No lost wake-up: in every reachable state that accepts work, an instance
    without a lease has no queued job that could start: the head of its queue, if
    any, is a legacy refresh that waits for a fence not yet completed; and
    someone waits for a drain only while work is in flight and no new work is
    accepted. *)
Theorem no_lost_wakeup (c : Coordinator) (trace : list coordinator_effect) :
  coord_run c trace ->
  (forall i id q, co_accepting c = true -> co_leases c !! i = None -> queued c i = id :: q ->
     exists j, co_jobs c !! id = Some j /\ in_Class (j_intent j) = OperationLegacyRefresh
       /\ zread (co_completedFence c) i < in_StartedAfter (j_intent j))
  /\ (co_drains c <> [] -> co_inflight c <> ∅ /\ co_accepting c = false).
Proof.
  intros Hr%coord_run_inv. destruct Hr as [[HT HG Hb] Hd]. split.
  - intros i id q Ha Hl Hq. destruct (to_queue _ HT i id) as (j & Hj & _); [rewrite Hq; left|].
    pose proof (Hb i Ha Hl id q j Hq Hj) as [Hc%String.eqb_eq Hf]%andb_true_iff. exists j. split_and!; [done..|lia].
  - intros Hn. split; [by apply Hd|by apply (ga_drains _ HG)].
Qed.

(** A cancelled instance stays idle: while an instance is marked cancelled, no
    job of it is unfinished, and a submission for it creates no job. *)
Theorem cancelled_instance_idle (c : Coordinator) (trace : list coordinator_effect) (i : AuthInstanceID) :
  coord_run c trace -> is_Some (co_cancelledThrough c !! i) ->
  (forall id j, co_jobs c !! id = Some j -> j_instance j = i -> j_future j <> None)
  /\ (forall intent, in_Instance intent = i -> co_jobs (handleSubmit c intent).1 = co_jobs c).
Proof.
  intros Hr%coord_run_inv Hc. destruct Hr as [[HT HG _] _]. destruct (ga_cancelled _ HG i Hc) as [Hq Hl]. split.
  - intros id j Hj Hi Hf. pose proof (to_pending _ HT _ _ Hj Hf) as Hin. destruct (to_inflight _ HT _ _ Hin) as (j' & ? & _ & _ & _ & Hp).
    assert (j' = j) as -> by congruence. rewrite Hi, Hq in Hp. destruct (j_started j); [congruence|by apply not_elem_of_nil in Hp].
  - intros intent Hi. unfold handleSubmit. destruct (if String.eqb _ _ then _ else _) as [c0 nonce] eqn:E0.
    assert (co_jobs c0 = co_jobs c /\ co_cancelledThrough c0 = co_cancelledThrough c) as [Ej Ec] by (destruct (String.eqb _ _); by injection E0 as <- _).
    destruct (co_inflight c0 !! _); [done|]. rewrite Ec, Hi, bool_decide_true by done. rewrite orb_true_r. done.
Qed.

(** ** Results *)

Lemma tryStart_effects c i e : e ∈ (tryStart c i).2 -> exists id, e = StartJob id.
Proof.
  unfold tryStart. destruct (negb (co_accepting c)); [by intros ?%not_elem_of_nil|].
  destruct (co_leases c !! i); [by intros ?%not_elem_of_nil|]. destruct (queued c i) as [|x q]; [by intros ?%not_elem_of_nil|].
  destruct (co_jobs c !! x) as [j|]; [|by intros ?%not_elem_of_nil]. destruct (fenceBlocked c i j); [by intros ?%not_elem_of_nil|].
  intros He%list_elem_of_singleton. eauto.
Qed.

Lemma finishDrains_effects c e : e ∈ (finishDrains c).2 -> exists w r, e = DrainReply w r.
Proof.
  unfold finishDrains. destruct (_ || _); [by intros ?%not_elem_of_nil|]. intros ([w r] & -> & _)%list_elem_of_fmap. eauto.
Qed.

Lemma settle_apply c i effects id r : ApplyCall id r ∈ (settle c i effects).2 -> ApplyCall id r ∈ effects.
Proof.
  unfold settle. pose proof (tryStart_effects c i) as H1. destruct (tryStart c i) as [c1 e1].
  pose proof (finishDrains_effects c1) as H2. destruct (finishDrains c1) as [c2 e2]. simpl in *.
  rewrite !elem_of_app. intros [|[He|He]]; [done| |].
  - by apply H1 in He as [? ?].
  - by apply H2 in He as (? & ? & ?).
Qed.

Lemma inherit_apply cb x intent probe t id r : ApplyCall id r ∈ (inherit cb x intent probe t).2 -> False.
Proof.
  unfold inherit. destruct probe; [|by intros ?%not_elem_of_nil]. destruct (cb_InheritSentUnknown cb); [|by intros ?%not_elem_of_nil].
  by intros ?%list_elem_of_singleton.
Qed.

(** What holds of a job when its result is applied, and after. *)
Definition applicable (c : Coordinator) (cb : coordinator_callbacks) (id : job_id) (r : OperationResult) : Prop :=
  exists j, co_jobs c !! id = Some j /\ co_inflight c !! j_key j = Some id /\ j_expired j = false /\ j_invalidated j = false
    /\ or_Token r = in_Token (j_intent j) /\ or_CallbackFailed r = false
    /\ (forall f, cb_Validate cb = Some f -> f (j_intent j) r = true).

Lemma handleResult_apply c cb key x result id r :
  own_key c key x -> ApplyCall id r ∈ (handleResult c cb key x result).2 -> id = x /\ applicable c cb id r.
Proof.
  intros (j & Hj & Hk & Hs). unfold handleResult. rewrite Hj.
  destruct (bool_decide_reflect (co_inflight c !! key = Some x)) as [Hin|]; cbn [negb]; [|by intros ?%not_elem_of_nil].
  cbv zeta. set (res := mergeResult j result). destruct (resultValid cb j res) eqn:Ev; cbn [andb].
  - destruct (_ && _); [by intros ?%list_elem_of_singleton|].
    assert (applicable c cb x res) as Happ.
    { unfold resultValid in Ev. rewrite !andb_true_iff in Ev. destruct Ev as [[[[E1 E2] E3] E4] E5].
      exists j. rewrite Hk. split_and!; try done; [by apply negb_true_iff..|by apply bool_decide_eq_true in E4|by apply negb_true_iff|].
      intros f Hf. by rewrite Hf in E5. }
    assert (forall eff, ApplyCall id r ∈ [ApplyCall x res] ++ eff -> (ApplyCall id r ∈ eff -> False) -> id = x /\ applicable c cb id r) as Hfin.
    { intros eff [[= -> ->]%list_elem_of_singleton|He]%elem_of_app Hno; [done|by destruct Hno]. }
    destruct (cb_Apply cb) as [f|].
    + destruct (f (j_intent j) res) as [err|]; cbn [negb].
      * pose proof (inherit_apply cb x (j_intent j) (or_ProbeSendPhase (res <| or_Err := Some err |>)) (or_SuppressUntil (res <| or_Err := Some err |>)) id r) as Hno.
        destruct (inherit _ _ _ _ _) as [ierr eff]. intros He%settle_apply. by apply (Hfin eff).
      * intros He%settle_apply. apply (Hfin []); [done|by intros ?%not_elem_of_nil].
    + cbn [negb]. intros He%settle_apply. by apply not_elem_of_nil in He.
  - cbn [negb]. pose proof (inherit_apply cb x (j_intent j) (or_ProbeSendPhase res) (or_SuppressUntil res) id r) as Hno.
    destruct (inherit _ _ _ _ _) as [ierr eff]. intros He%settle_apply. by destruct Hno.
Qed.

Lemma handle_apply c cb cmd id r :
  command_ok c cmd -> ApplyCall id r ∈ (handle c cb cmd).2 -> applicable c cb id r /\ exists key result, cmd = ResultCommand key id result.
Proof.
  intros Hok. destruct cmd as [intent|key x|key x result|key x result err| |instances|gens|gens tokens|w]; simpl.
  - unfold handleSubmit. destruct (if String.eqb _ _ then _ else _) as [c0 nonce]. destruct (co_inflight c0 !! _); [by intros ?%list_elem_of_singleton|].
    destruct (_ || _ || _ || _); [by intros ?%list_elem_of_singleton|]. cbv zeta. set (c2 := set_field co_queue _ _).
    pose proof (tryStart_effects c2 (in_Instance intent)) as Ht. destruct (tryStart c2 _) as [c3 e3].
    intros [?|He]%elem_of_cons; [done|]. by apply Ht in He as [? ?].
  - unfold handleExpire. destruct (co_jobs c !! x) as [j|]; [|by intros ?%not_elem_of_nil]. destruct (_ || _); [by intros ?%not_elem_of_nil|].
    cbv zeta. pose proof (inherit_apply cb x (j_intent j) (j_probeSent j) (j_suppressUntil j) id r) as Hno.
    destruct (inherit _ _ _ _ _) as [ierr eff]. intros He%settle_apply. by destruct Hno.
  - intros He. apply handleResult_apply in He as [-> Ha]; [|done]. eauto.
  - unfold handleLogCallback. destruct (negb _); [by intros ?%not_elem_of_nil|by intros ?%list_elem_of_singleton].
  - by intros ?%list_elem_of_singleton.
  - unfold handleCancel. pose proof (finishDrains_effects (foldl cancelInstance c instances)) as Hf. destruct (finishDrains _) as [c' e].
    intros [?|He]%elem_of_cons; [done|]. by apply Hf in He as (? & ? & ?).
  - by intros ?%not_elem_of_nil.
  - by intros ?%not_elem_of_nil.
  - unfold handleDrain. destruct (drainQueued _) as [c1 n]. destruct (drainRunning c1) as [c2 m].
    destruct (bool_decide _); [by intros ?%list_elem_of_singleton|by intros ?%not_elem_of_nil].
Qed.

(** Jobs are never forgotten, and a completed future stays completed. *)
Definition grows (c c' : Coordinator) : Prop :=
  forall id j, co_jobs c !! id = Some j -> exists j', co_jobs c' !! id = Some j' /\ (j_future j <> None -> j_future j' <> None).

Lemma grows_refl c c' : co_jobs c' = co_jobs c -> grows c c'.
Proof. intros E id j Hj. exists j. by rewrite E. Qed.
Lemma grows_trans c1 c2 c3 : grows c1 c2 -> grows c2 c3 -> grows c1 c3.
Proof. intros H1 H2 id j Hj. destruct (H1 _ _ Hj) as (j2 & Hj2 & ?). destruct (H2 _ _ Hj2) as (j3 & ? & ?). exists j3. auto. Qed.
Lemma grows_onJob c c' id f : (forall j, j_future j <> None -> j_future (f j) <> None) -> grows c c' -> grows c (onJob c' id f).
Proof.
  intros Hf Hg. eapply grows_trans; [done|]. intros x j Hj. cbn. destruct (decide (x = id)) as [-> |Hx].
  - rewrite lookup_alter_eq, Hj. simpl. eauto.
  - rewrite lookup_alter_ne by done. eauto.
Qed.
Lemma grows_complete c c' id r : grows c c' -> grows c (onJob c' id (completeFuture r)).
Proof. apply grows_onJob. intros j _. apply completeFuture_done. Qed.
Lemma grows_jobs c c' c'' : co_jobs c'' = co_jobs c' -> grows c c' -> grows c c''.
Proof. intros E Hg id j Hj. rewrite E. by apply Hg. Qed.

Lemma grows_cancelQueued inv c id : grows c (cancelQueued inv c id).
Proof.
  unfold cancelQueued. destruct (co_jobs c !! id); [|by apply grows_refl]. apply grows_onJob.
  - intros j _. apply completeFuture_done.
  - destruct (bool_decide _); by apply grows_refl.
Qed.
Lemma grows_foldl {B} (f : Coordinator -> B -> Coordinator) l c : (forall c b, grows c (f c b)) -> grows c (foldl f c l).
Proof. intros Hf. apply (foldl_inv (grows c)); [|by apply grows_refl]. intros a b Ha. by eapply grows_trans. Qed.

Lemma grows_tryStart c i : grows c (tryStart c i).1.
Proof.
  unfold tryStart. destruct (negb _); [by apply grows_refl|]. destruct (co_leases c !! i); [by apply grows_refl|].
  destruct (queued c i) as [|x q]; [by apply grows_refl|]. destruct (co_jobs c !! x) as [j|]; [|by apply grows_refl].
  destruct (fenceBlocked c i j); [by apply grows_refl|]. unfold startJob. cbn [fst]. apply grows_onJob; [done|by apply grows_refl].
Qed.
Lemma grows_settle c c' i effects : grows c c' -> grows c (settle c' i effects).1.
Proof.
  intros Hg. unfold settle. pose proof (grows_tryStart c' i) as H1. destruct (tryStart c' i) as [c1 e1]. cbn [fst] in H1.
  assert (co_jobs (finishDrains c1).1 = co_jobs c1) as E by (unfold finishDrains; by destruct (_ || _)).
  destruct (finishDrains c1) as [c2 e2]. cbn [fst] in *. eapply grows_jobs; [done|]. by eapply grows_trans.
Qed.
Lemma grows_light i c c1 c2 : light i c1 c2 -> grows c c1 -> grows c c2.
Proof. intros L. apply grows_jobs, (li_jobs _ _ _ L). Qed.
Lemma grows_unlease c c' key i id : grows c c' -> grows c (unlease (dropInflight c' key) i id).
Proof. apply grows_jobs. unfold unlease. by destruct (bool_decide _). Qed.

Lemma grows_drainQueued c : grows c (drainQueued c).1.
Proof.
  unfold drainQueued. cbv zeta. cbn [fst]. apply (grows_jobs c (foldl (cancelQueued false) c (concat (map_range (co_queue c)).*2))); [done|].
  apply grows_foldl. intros. apply grows_cancelQueued.
Qed.
Lemma grows_drainRunning c : grows c (drainRunning c).1.
Proof. unfold drainRunning. cbv zeta. cbn [fst]. apply grows_foldl. intros a y. by apply grows_onJob; [|apply grows_refl]. Qed.

Lemma grows_cancelInstance c i : grows c (cancelInstance c i).
Proof.
  unfold cancelInstance. cbv zeta. set (a0 := set_field co_cancelledThrough _ _). set (a1 := foldl _ _ _).
  assert (grows c a1) as H1.
  { apply (grows_trans c a0); [by apply grows_refl|]. apply grows_foldl. intros. apply grows_cancelQueued. }
  unfold cancelLeased. cbn [co_leases co_jobs set_field]. destruct (co_leases a1 !! i) as [y|]; [|exact H1].
  destruct (co_jobs a1 !! y); [|exact H1]. apply grows_complete. apply (grows_trans c a1); [exact H1|].
  by apply (grows_onJob a1 a1); [|apply grows_refl].
Qed.

Lemma handle_grows c cb cmd : grows c (handle c cb cmd).1.
Proof.
  destruct cmd as [intent|key x|key x result|key x result err| |instances|gens|gens tokens|w]; simpl.
  - unfold handleSubmit. destruct (if String.eqb _ _ then _ else _) as [c0 nonce] eqn:E0.
    assert (co_jobs c0 = co_jobs c) as Ej by (destruct (String.eqb _ _); by injection E0 as <- _).
    destruct (co_inflight c0 !! _); [by apply grows_refl|]. destruct (_ || _ || _ || _); [by apply grows_refl|]. cbv zeta.
    set (c1 := if _ <? _ then _ else c0). assert (co_jobs c1 = co_jobs c) as Ej1 by (subst c1; by destruct (_ <? _)). clearbody c1.
    set (c2 := set_field co_queue _ _). pose proof (grows_tryStart c2 (in_Instance intent)) as Ht. destruct (tryStart c2 _) as [c3 e3].
    eapply grows_trans; [|done]. intros y j Hj. exists j. split; [|done]. cbn. rewrite Ej1, lookup_insert_ne; [done|].
    intros <-. assert (fresh (dom (co_jobs c)) ∈ dom (co_jobs c)) as Hin by by apply elem_of_dom_2 in Hj. by apply is_fresh in Hin.
  - unfold handleExpire. destruct (co_jobs c !! x) as [j|]; [|by apply grows_refl]. destruct (_ || _); [by apply grows_refl|].
    cbv zeta. destruct (inherit _ _ _ _ _) as [ierr eff]. apply grows_settle. eapply (grows_light (j_instance j)); [apply light_drains|].
    eapply grows_light; [apply light_fence|]. apply grows_complete, grows_unlease. by apply grows_onJob; [|apply grows_refl].
  - unfold handleResult. destruct (co_jobs c !! x) as [j|]; [|by apply grows_refl]. destruct (negb _); [by apply grows_refl|].
    cbv zeta. destruct (_ && _ && _); [by apply grows_refl|].
    destruct (match (if resultValid _ _ _ then _ else _) with Some _ => _ | None => _ end) as [[valid res'] applied].
    destruct valid; cbn [negb]; [|destruct (inherit _ _ _ _ _) as [ierr eff]]; apply grows_settle; (eapply (grows_light (j_instance j)); [apply light_drains|]); apply grows_complete.
    + eapply grows_light; [apply light_fence|]. apply grows_unlease. by apply grows_refl.
    + do 2 (eapply (grows_light (j_instance j)); [apply light_drains|]). eapply grows_light; [apply light_fence|]. apply grows_unlease. by apply grows_refl.
  - unfold handleLogCallback. destruct (negb _); by apply grows_refl.
  - by apply grows_refl.
  - unfold handleCancel. set (d := foldl _ _ _).
    assert (co_jobs (finishDrains d).1 = co_jobs d) as E by (unfold finishDrains; by destruct (_ || _)).
    destruct (finishDrains d) as [c' e]. apply (grows_jobs c d); [exact E|]. apply grows_foldl. intros. apply grows_cancelInstance.
  - apply grows_foldl. intros a [i g]. unfold activateInstance. destruct (_ <? _), (_ <? _); by apply grows_refl.
  - apply grows_foldl. intros a [i g]. unfold restoreInstance. destruct (_ && _); by apply grows_refl.
  - unfold handleDrain. pose proof (grows_drainQueued (c <| co_accepting := false |>)) as H1. destruct (drainQueued _) as [c1 n].
    pose proof (grows_drainRunning c1) as H2. destruct (drainRunning c1) as [c2 m]. cbn [fst] in *.
    assert (grows c c2) as Hg by (apply (grows_trans c c1); [exact H1|exact H2]).
    destruct (bool_decide _); [done|]. by apply (grows_jobs c c2).
Qed.

Definition applied_ids (trace : list coordinator_effect) : list job_id :=
  omap (fun e => match e with ApplyCall id _ => Some id | _ => None end) trace.

Lemma elem_of_applied trace id : id ∈ applied_ids trace <-> exists r, ApplyCall id r ∈ trace.
Proof.
  unfold applied_ids. rewrite list_elem_of_omap. split.
  - intros ([] & He & E); simplify_eq. eauto.
  - intros (r & He). eauto.
Qed.

Lemma applied_app l1 l2 : applied_ids (l1 ++ l2) = applied_ids l1 ++ applied_ids l2.
Proof. apply omap_app. Qed.
Lemma applied_none l : (forall id r, ApplyCall id r ∈ l -> False) -> applied_ids l = [].
Proof.
  intros Hl. destruct (applied_ids l) as [|id t] eqn:E; [done|]. exfalso.
  assert (id ∈ applied_ids l) as (r & Hr)%elem_of_applied by (rewrite E; left). by apply (Hl id r).
Qed.
Lemma settle_applied c i effects : applied_ids (settle c i effects).2 = applied_ids effects.
Proof.
  unfold settle. pose proof (tryStart_effects c i) as H1. destruct (tryStart c i) as [c1 e1].
  pose proof (finishDrains_effects c1) as H2. destruct (finishDrains c1) as [c2 e2]. cbn [snd] in *. rewrite !applied_app.
  rewrite (applied_none e1), (applied_none e2), !app_nil_r; [done|..].
  - intros id r He. by apply H2 in He as (? & ? & ?).
  - intros id r He. by apply H1 in He as [? ?].
Qed.

(** After the turn of a result that is applied, the job's future is completed. *)
Lemma handleResult_applied c cb key x result :
  applied_ids (handleResult c cb key x result).2 = []
  \/ applied_ids (handleResult c cb key x result).2 = [x]
     /\ exists j, co_jobs (handleResult c cb key x result).1 !! x = Some j /\ j_future j <> None.
Proof.
  unfold handleResult. destruct (co_jobs c !! x) as [j|] eqn:Hj; [|by left]. destruct (negb _); [by left|].
  cbv zeta. destruct (_ && _ && _); [by left|]. set (c1 := unlease _ _ _).
  assert (co_jobs c1 !! x = Some j) as Hj1 by (subst c1; unfold unlease; by destruct (bool_decide _)). clearbody c1.
  assert (forall c2 res f eff, light (j_instance j) c1 c2 ->
    exists j', co_jobs (settle (onDrains (onJob c2 x (completeFuture res)) f) (j_instance j) eff).1 !! x = Some j' /\ j_future j' <> None) as Hgo.
  { intros c2 res f eff L.
    destruct (grows_settle (onJob c2 x (completeFuture res)) (onDrains (onJob c2 x (completeFuture res)) f) (j_instance j) eff
                ltac:(by apply grows_refl) x (completeFuture res j)) as (j' & Hj' & Hf).
    - cbn. by rewrite lookup_alter_eq, (li_jobs _ _ _ L), Hj1.
    - exists j'. split; [done|]. apply Hf, completeFuture_done. }
  set (res := mergeResult j result).
  destruct (match (if resultValid cb j res then cb_Apply cb else None) with Some _ => _ | None => _ end) as [[valid res'] applied] eqn:Em.
  assert (applied_ids applied = [] \/ applied_ids applied = [x]) as Ha.
  { destruct (resultValid cb j res); [|injection Em as _ _ <-; by left]. destruct (cb_Apply cb) as [f|]; [|injection Em as _ _ <-; by left].
    destruct (f (j_intent j) res); injection Em as _ _ <-; by right. }
  destruct valid; cbn [negb].
  - rewrite settle_applied, applied_app. simpl. rewrite app_nil_r. destruct Ha as [-> | ->]; [by left|right; split; [done|]]. by apply Hgo.
  - pose proof (inherit_apply cb x (j_intent j) (or_ProbeSendPhase (res' <| or_Disposition := ResultDiscardedStale |>))
      (or_SuppressUntil (res' <| or_Disposition := ResultDiscardedStale |>))) as Hno.
    destruct (inherit _ _ _ _ _) as [ierr eff]. rewrite settle_applied, applied_app, (applied_none eff), app_nil_r by done.
    destruct Ha as [-> | ->]; [by left|right; split; [done|]]. apply Hgo. eauto 6.
Qed.

(** A turn applies at most one result; that job was unfinished before the turn
    and is finished after it. *)
Lemma handle_applied c cb cmd c' effects :
  coord_inv c -> command_ok c cmd -> handle c cb cmd = (c', effects) ->
  applied_ids effects = [] \/ exists id, applied_ids effects = [id]
    /\ (exists j, co_jobs c !! id = Some j /\ j_future j = None) /\ (exists j, co_jobs c' !! id = Some j /\ j_future j <> None).
Proof.
  intros Hv Hok E. destruct (applied_ids effects) as [|id t] eqn:Ea; [by left|right].
  assert (id ∈ applied_ids effects) as (r & Hr)%elem_of_applied by (rewrite Ea; left).
  assert (ApplyCall id r ∈ (handle c cb cmd).2) as Hr' by (by rewrite E).
  destruct (handle_apply c cb cmd id r Hok Hr') as [(j & Hj & Hin & _) (key & result & ->)]. simpl in E, Hok.
  pose proof (handleResult_applied c cb key id result) as Hap. rewrite E in Hap. cbn [fst snd] in Hap. rewrite Ea in Hap.
  destruct Hap as [|[[= ->] Hdone]]; [done|]. exists id. split_and!; [done| |done]. exists j. split; [done|].
  destruct (to_inflight _ (cr_tables _ (cv_core _ Hv)) _ _ Hin) as (j' & ? & _ & ? & _). congruence.
Qed.

Lemma coord_run_applied c trace :
  coord_run c trace -> NoDup (applied_ids trace) /\ forall id, id ∈ applied_ids trace -> exists j, co_jobs c !! id = Some j /\ j_future j <> None.
Proof.
  induction 1 as [|c trace cb cmd c' effects Hr [Hnd Hdone] Hok E|c trace id t Hr [Hnd Hdone]].
  - split; [constructor|]. by intros id ?%not_elem_of_nil.
  - assert (forall id, id ∈ applied_ids trace -> exists j, co_jobs c' !! id = Some j /\ j_future j <> None) as Hkeep.
    { intros id Hid. destruct (Hdone id Hid) as (j & Hj & Hf). pose proof (handle_grows c cb cmd) as Hg. rewrite E in Hg.
      destruct (Hg id j Hj) as (j' & ? & ?). eauto. }
    rewrite applied_app.
    destruct (handle_applied c cb cmd c' effects (coord_run_inv _ _ Hr) Hok E) as [Ea|(id & Ea & (j & Hj & Hf) & Hnew)].
    + rewrite (applied_none (reverse effects)); [done|]. intros id r Hid. rewrite reverse_Permutation in Hid.
      assert (id ∈ applied_ids effects) as Hin by (apply elem_of_applied; by exists r). rewrite Ea in Hin. by apply not_elem_of_nil in Hin.
    + assert (applied_ids (reverse effects) = [id]) as ->.
      { apply Permutation_singleton_r. rewrite <- Ea. unfold applied_ids. by rewrite reverse_Permutation. }
      split.
      * apply NoDup_cons. split; [|done]. intros Hin. destruct (Hdone id Hin) as (j' & ? & ?). congruence.
      * intros x [-> |Hx]%elem_of_cons; [done|by apply Hkeep].
  - split; [done|]. intros x Hx. destruct (Hdone x Hx) as (j & Hj & Hf).
    assert (grows c (MarkProbeSent c id t)) as Hg.
    { unfold MarkProbeSent. apply grows_onJob; [|by apply grows_refl]. intros j0. cbv beta zeta. by destruct (After _ _). }
    destruct (Hg x j Hj) as (j' & ? & ?). eauto.
Qed.

(** C9: Stale results are never applied, and no result is applied twice: in every
    run of the loop the jobs whose results were applied are pairwise distinct,
    and a turn applies a result only of a job that is still in flight, whose
    lease did not expire, that was neither cancelled nor drained, whose token is
    the submitted one and whose validation succeeded. *)
Theorem results_applied_once_and_current (c c' : Coordinator) (trace effects : list coordinator_effect) (cb : coordinator_callbacks)
    (cmd : coordinator_command) :
  coord_run c trace -> command_ok c cmd -> handle c cb cmd = (c', effects) ->
  NoDup (applied_ids (effects ++ trace)) /\ forall id r, ApplyCall id r ∈ effects -> applicable c cb id r.
Proof.
  intros Hr Hok E. split.
  - pose proof (cr_turn c trace cb cmd c' effects Hr Hok E) as Hr'. apply coord_run_applied in Hr' as [Hnd _].
    assert (applied_ids (effects ++ trace) ≡ₚ applied_ids (reverse effects ++ trace)) as -> by (unfold applied_ids; by rewrite reverse_Permutation).
    done.
  - intros id r Hin. apply (handle_apply c cb cmd id r Hok). by rewrite E.
Qed.
End claims.

(** ** Examples *)

(** Two reads of one instance: the first runs, the second waits. *)
Definition example_token : ExecutionToken := mkToken 7 1 1 3.
Definition example_intent (attempt : string) : Intent :=
  mkOpIntent "a" 7 1 OperationQuotaRead "manual_refresh" 0 0 attempt example_token 1 zeroFingerprint None.
Definition example_callbacks : coordinator_callbacks := mkCallbacks (Some (fun _ _ => true)) (Some (fun _ _ => None)) None false.
Definition example_result : OperationResult := mkOpResult None example_token false zeroTime 0 ResultUnset false false.
Definition example_key : operationKey := (7, OperationQuotaRead, 1, "x", 0).
Definition turn (s : Coordinator * list coordinator_effect) (cmd : coordinator_command) : Coordinator * list coordinator_effect :=
  let r := handle s.1 example_callbacks cmd in (r.1, reverse r.2 ++ s.2).
Definition example_two : Coordinator * list coordinator_effect :=
  turn (turn (NewCoordinator, []) (SubmitCommand (example_intent "x"))) (SubmitCommand (example_intent "y")).
Definition example_cancelled := turn example_two (CancelInstancesCommand [7]).
Definition example_drained := turn example_two (DrainCommand 1).

Lemma turn_run s cmd : coord_run s.1 s.2 -> command_ok s.1 cmd -> coord_run (turn s cmd).1 (turn s cmd).2.
Proof.
  intros Hr Hok. unfold turn. simpl. eapply (cr_turn s.1 s.2 example_callbacks cmd); [done|done|]. apply surjective_pairing.
Qed.
Lemma example_two_run : coord_run example_two.1 example_two.2.
Proof. apply turn_run; [|done]. apply turn_run; [|done]. apply cr_init. Qed.

Lemma one_running_job_per_instance_witness :
  exists j, co_jobs example_two.1 !! 0%nat = Some j /\ co_leases example_two.1 !! j_instance j = Some 0%nat.
Proof.
  destruct (co_jobs example_two.1 !! 0%nat) as [j|] eqn:E; [|vm_compute in E; discriminate E].
  exists j. split; [reflexivity|].
  assert (j_started j = true /\ j_future j = None) as [Hs Hf] by (vm_compute in E; injection E as <-; split; reflexivity).
  apply (one_running_job_per_instance _ _ 0%nat 0%nat j j example_two_run E E eq_refl Hs Hs Hf Hf).
Defined.

Lemma no_future_lost_witness :
  exists j, co_jobs (closeLoop example_two.1) !! 0%nat = Some j /\ j_future j <> None.
Proof.
  destruct (co_jobs (closeLoop example_two.1) !! 0%nat) as [j|] eqn:E; [|vm_compute in E; discriminate E].
  exists j. split; [reflexivity|].
  exact (proj2 (no_future_lost example_two.1 example_two.2 example_two_run) 0%nat j E).
Defined.

Lemma no_lost_wakeup_witness : co_inflight example_drained.1 <> ∅ /\ co_accepting example_drained.1 = false.
Proof.
  assert (coord_run example_drained.1 example_drained.2) as Hr by (apply turn_run; [apply example_two_run|exact I]).
  apply (proj2 (no_lost_wakeup _ _ Hr)). vm_compute. discriminate.
Defined.

Lemma cancelled_instance_idle_witness :
  co_jobs (handleSubmit example_cancelled.1 (example_intent "z")).1 = co_jobs example_cancelled.1.
Proof.
  assert (coord_run example_cancelled.1 example_cancelled.2) as Hr by (apply turn_run; [apply example_two_run|exact I]).
  apply (proj2 (cancelled_instance_idle _ _ 7 Hr ltac:(eexists; vm_compute; reflexivity))). reflexivity.
Defined.

Definition example_applied : Coordinator * list coordinator_effect :=
  handle example_two.1 example_callbacks (ResultCommand example_key 0%nat example_result).
Lemma results_applied_once_and_current_witness :
  applied_ids example_applied.2 = [0%nat] /\ NoDup (applied_ids (example_applied.2 ++ example_two.2)).
Proof.
  split; [vm_compute; reflexivity|].
  refine (proj1 (results_applied_once_and_current example_two.1 _ example_two.2 _ example_callbacks
    (ResultCommand example_key 0%nat example_result) example_two_run _ (surjective_pairing _))).
  destruct (co_jobs example_two.1 !! 0%nat) as [j|] eqn:E; [|vm_compute in E; discriminate E].
  exists j. split; [exact E|]. vm_compute in E. injection E as <-. split; reflexivity.
Defined.
