(* ===== verification/TypedReads.v ===== *)
(** * Shared reads (SubmitTyped of coordinator.go)

    Reads of the same instance share one execution when the running read is
    fresh enough for the caller: it started after the fence the caller names.
    The table of shared reads lives beside the coordinator's loop; entries are
    pointers, kept in a heap. *)

From stdpp Require Import pretty.
From S2P Require Import Prelude Float64 Config Models Identity Coordinator.
#[local] Open Scope string_scope.
#[local] Open Scope list_scope.
#[local] Open Scope Z_scope.
#[local] Open Scope go_scope.

(** [te_future] is the job whose future the entry holds, or [None] for the
    completed future of a rejected submission. *)
Record typedReadEntry := mkReadEntry {
  te_future : option nat;
  te_seq : Z;
  te_done : bool;
  te_attemptID : string;
  te_class : string;
}.
#[export] Instance typedReadEntry_eta : Eta typedReadEntry := fun r => mkReadEntry
  (te_future r) (te_seq r) (te_done r) (te_attemptID r) (te_class r).

Record TypedReads := mkTypedReads {
  ty_reads : gmap AuthInstanceID (list nat);
  ty_entries : gmap nat typedReadEntry;
  ty_loop : Coordinator;
}.
#[export] Instance TypedReads_eta : Eta TypedReads := fun r => mkTypedReads (ty_reads r) (ty_entries r) (ty_loop r).

Definition isTypedRead (class : string) : bool :=
  String.eqb class OperationQuotaRead || String.eqb class OperationProbePrecheck || String.eqb class OperationProbeVerify.

(** May the intent join the entry? *)
Definition joinable (intent : Intent) (e : typedReadEntry) : bool :=
  let attemptOK := if String.eqb (in_Class intent) OperationProbeVerify
                   then String.eqb (te_attemptID e) "" || String.eqb (te_attemptID e) (in_AttemptID intent) else true in
  let queuedSameClass := (te_seq e =? 0) && (in_StartedAfter intent =? 0) && String.eqb (te_class e) (in_Class intent) in
  negb (te_done e) && ((in_StartedAfter intent <? te_seq e) || queuedSameClass) && attemptOK.

Fixpoint findJoin (entries : gmap nat typedReadEntry) (intent : Intent) (ids : list nat) : option (nat * typedReadEntry) :=
  match ids with
  | [] => None
  | x :: ids => match entries !! x with
                | Some e => if joinable intent e then Some (x, e) else findJoin entries intent ids
                | None => findJoin entries intent ids
                end
  end.

Definition liveRead (t : TypedReads) (x : nat) : bool :=
  match ty_entries t !! x with Some e => negb (te_done e) | None => false end.
Definition liveReads (t : TypedReads) (i : AuthInstanceID) : list nat :=
  filter (fun x => liveRead t x = true) (default [] (ty_reads t !! i)).

(** What the caller gets: the future of a shared entry, or the reply of the loop. *)
Inductive typed_reply := SharedRead (entry : nat) | SubmittedRead (entry : nat) | SubmittedOther (future : option nat).

Definition replyOf (effects : list coordinator_effect) : option nat :=
  match effects with ReplyFuture id :: _ => Some id | _ => None end.

Definition SubmitTyped (t : TypedReads) (intent : Intent) : TypedReads * typed_reply :=
  if isTypedRead (in_Class intent) then
    let i := in_Instance intent in
    let live := liveReads t i in
    let t := t <| ty_reads := <[i := live]> (ty_reads t) |> in
    match findJoin (ty_entries t) intent live with
    | Some (x, e) =>
        let e := if String.eqb (in_Class intent) OperationProbeVerify && String.eqb (te_attemptID e) ""
                 then e <| te_attemptID := in_AttemptID intent |> else e in
        (t <| ty_entries := <[x := e]> (ty_entries t) |>, SharedRead x)
    | None =>
        let x := fresh (dom (ty_entries t)) in
        let nonce := u64 (co_typedNonce (ty_loop t) + 1) in
        let '(loop, effects) := handleSubmit ((ty_loop t) <| co_typedNonce := nonce |>)
                                  (intent <| in_AttemptID := "read-" +:+ pretty nonce |> <| in_Entry := Some x |>) in
        let e := mkReadEntry (replyOf effects) 0 false (in_AttemptID intent) (in_Class intent) in
        (mkTypedReads (<[i := live ++ [x]]> (ty_reads t)) (<[x := e]> (ty_entries t)) loop, SubmittedRead x)
    end
  else
    let '(t, intent) :=
      if String.eqb (in_Class intent) OperationProbeSend
      then let nonce := u64 (co_typedNonce (ty_loop t) + 1) in
           (t <| ty_loop := (ty_loop t) <| co_typedNonce := nonce |> |>,
            intent <| in_AttemptID := in_AttemptID intent +:+ "#" +:+ pretty nonce |>)
      else (t, intent) in
    let '(loop, effects) := handleSubmit (ty_loop t) intent in
    (t <| ty_loop := loop |>, SubmittedOther (replyOf effects)).

(** A read's job stores its start number, and later that it is done; a
    cancellation marks the reads of its instances done and forgets them. *)
Definition storeSeq (t : TypedReads) (x : nat) (seq : Z) : TypedReads :=
  t <| ty_entries := alter (fun e => e <| te_seq := seq |>) x (ty_entries t) |>.
Definition storeDone (t : TypedReads) (x : nat) : TypedReads :=
  t <| ty_entries := alter (fun e => e <| te_done := true |>) x (ty_entries t) |>.
Definition clearInstance (t : TypedReads) (i : AuthInstanceID) : TypedReads :=
  (foldl storeDone t (default [] (ty_reads t !! i))) <| ty_reads := base.delete i (ty_reads t) |>.
Definition clearTypedReads (t : TypedReads) (ids : list AuthInstanceID) : TypedReads := foldl clearInstance t ids.

(** ** Freshness *)

(** The entry a caller waits on. *)
Definition attached (reply : typed_reply) (intent : Intent) : list (nat * Intent) :=
  match reply with SharedRead x | SubmittedRead x => [(x, intent)] | SubmittedOther _ => [] end.

(** Runs of the table: [clock] is the last fence number handed out, [callers] the
    callers and the entries they wait on.  A caller names a fence handed out
    before; a read takes a new fence when it starts. *)
Inductive typed_run : TypedReads -> Z -> list (nat * Intent) -> Prop :=
  | ty_init loop : typed_run (mkTypedReads ∅ ∅ loop) 0 []
  | ty_submit t clock callers intent t' reply :
      typed_run t clock callers -> 0 <= in_StartedAfter intent <= clock ->
      (in_Class intent = OperationProbeVerify -> in_AttemptID intent <> "") ->
      SubmitTyped t intent = (t', reply) -> typed_run t' clock (attached reply intent ++ callers)
  | ty_start t clock callers x e seq :
      typed_run t clock callers -> ty_entries t !! x = Some e -> te_seq e = 0 -> clock < seq -> typed_run (storeSeq t x seq) seq callers
  | ty_done t clock callers x : typed_run t clock callers -> typed_run (storeDone t x) clock callers
  | ty_clear t clock callers ids : typed_run t clock callers -> typed_run (clearTypedReads t ids) clock callers
  | ty_loop_turn t clock callers loop : typed_run t clock callers -> typed_run (t <| ty_loop := loop |>) clock callers
  | ty_fence t clock callers seq : typed_run t clock callers -> clock < seq -> typed_run t seq callers.

(** A caller is served by its entry. *)
Record serves (clock : Z) (e : typedReadEntry) (intent : Intent) : Prop := {
  se_fresh : in_StartedAfter intent <= clock /\ (te_seq e = 0 \/ in_StartedAfter intent < te_seq e);
  se_attempt : in_Class intent = OperationProbeVerify -> te_attemptID e = in_AttemptID intent /\ te_attemptID e <> "";
}.

Record typed_inv (entries : gmap nat typedReadEntry) (clock : Z) (callers : list (nat * Intent)) : Prop := {
  tv_clock : 0 <= clock;
  tv_seq : forall x e, entries !! x = Some e -> 0 <= te_seq e <= clock;
  tv_callers : forall x intent, (x, intent) ∈ callers -> exists e, entries !! x = Some e /\ serves clock e intent;
}.

(** An entry may be marked done without effect on its callers. *)
Lemma typed_inv_alter entries clock callers x f :
  (forall e, te_seq (f e) = te_seq e /\ te_attemptID (f e) = te_attemptID e) ->
  typed_inv entries clock callers -> typed_inv (alter f x entries) clock callers.
Proof.
  intros Hf [H0 H1 H2].
  assert (forall y e, entries !! y = Some e -> exists e', alter f x entries !! y = Some e' /\ te_seq e' = te_seq e /\ te_attemptID e' = te_attemptID e) as Hfw.
  { intros y e He. destruct (decide (y = x)) as [-> |Hy]; [rewrite lookup_alter_eq, He; simpl; eauto|rewrite lookup_alter_ne by done; eauto]. }
  split; [done| |].
  - intros y e' He'. destruct (decide (y = x)) as [-> |Hy]; [|rewrite lookup_alter_ne in He' by done; eauto].
    rewrite lookup_alter_eq in He'. destruct (entries !! x) as [e|] eqn:E; [|done]. injection He' as <-. destruct (Hf e) as [-> _]. eauto.
  - intros y intent Hin. destruct (H2 _ _ Hin) as (e & He & [F A]). destruct (Hfw _ _ He) as (e' & ? & E1 & E2). exists e'.
    split; [done|]. split; [by rewrite E1|by rewrite E2].
Qed.

Lemma typed_inv_done clock callers ids : forall t,
  typed_inv (ty_entries t) clock callers -> typed_inv (ty_entries (foldl storeDone t ids)) clock callers.
Proof. induction ids as [|x ids IH]; intros t Hv; simpl; [done|]. apply IH. by apply typed_inv_alter. Qed.

Lemma findJoin_spec entries intent ids x e :
  findJoin entries intent ids = Some (x, e) -> entries !! x = Some e /\ joinable intent e = true.
Proof.
  induction ids as [|y ids IH]; simpl; [done|]. destruct (entries !! y) as [ey|] eqn:Ey; [|done].
  destruct (joinable intent ey) eqn:Ej; [|done]. by intros [= <- <-].
Qed.

Lemma SubmitTyped_inv t clock callers intent t' reply :
  typed_inv (ty_entries t) clock callers -> 0 <= in_StartedAfter intent <= clock ->
  (in_Class intent = OperationProbeVerify -> in_AttemptID intent <> "") -> SubmitTyped t intent = (t', reply) ->
  typed_inv (ty_entries t') clock (attached reply intent ++ callers).
Proof.
  intros [H0 H1 H2] Hs Ha. unfold SubmitTyped. destruct (isTypedRead _).
  2:{ destruct (if String.eqb _ _ then _ else _) as [t1 intent1] eqn:E1.
      assert (ty_entries t1 = ty_entries t) as Et by (destruct (String.eqb _ _); by injection E1 as <- _).
      destruct (handleSubmit (ty_loop t1) intent1) as [loop effects]. intros [= <- <-]. cbn. by rewrite Et. }
  cbn [ty_entries ty_loop set_field]. destruct (findJoin _ _ _) as [[x e]|] eqn:Ef.
  - apply findJoin_spec in Ef as [He Hj]. intros [= <- <-]. cbn [attached ty_entries set_field]. unfold joinable in Hj.
    rewrite !andb_true_iff, orb_true_iff in Hj. destruct Hj as [[_ Hseq] Hatt].
    set (e' := if _ && _ then _ else e).
    assert (te_seq e' = te_seq e /\ (te_attemptID e <> "" -> te_attemptID e' = te_attemptID e)
            /\ (in_Class intent = OperationProbeVerify -> te_attemptID e' = in_AttemptID intent)) as (E1 & E2 & E3).
    { subst e'. destruct (String.eqb_spec (in_Class intent) OperationProbeVerify) as [Ec|Ec], (String.eqb_spec (te_attemptID e) "") as [Et|Et];
        cbn [andb]; split_and!; try done. intros _. cbn [orb] in Hatt. by apply String.eqb_eq. }
    clearbody e'. split; [done| |].
    + intros y ey. destruct (decide (y = x)) as [-> |Hy]; [rewrite lookup_insert_eq; intros [= <-]; rewrite E1; eauto|].
      rewrite lookup_insert_ne by done. eauto.
    + intros y intent' [[= -> ->]|Hin]%elem_of_cons.
      * exists e'. rewrite lookup_insert_eq. split; [done|]. split; [split; [lia|]|intros Hc; rewrite (E3 Hc); auto].
        rewrite E1. destruct Hseq as [Hlt|[[Hz _]%andb_true_iff _]%andb_true_iff]; [right|left]; lia.
      * destruct (H2 _ _ Hin) as (ey & Hey & [F A]). destruct (decide (y = x)) as [-> |Hy].
        -- assert (ey = e) as -> by congruence. exists e'. rewrite lookup_insert_eq. split; [done|]. split; [by rewrite E1|].
           intros Hc. destruct (A Hc) as [A1 A2]. by rewrite E2.
        -- exists ey. by rewrite lookup_insert_ne.
  - destruct (handleSubmit _ _) as [loop effects]. intros [= <- <-]. cbn [attached ty_entries].
    set (x := fresh _). assert (ty_entries t !! x = None) as Hx by (apply not_elem_of_dom, is_fresh). clearbody x. split; [done| |].
    + intros y ey. destruct (decide (y = x)) as [-> |Hy]; [rewrite lookup_insert_eq; intros [= <-]; simpl; lia|].
      rewrite lookup_insert_ne by done. eauto.
    + intros y intent' [[= -> ->]|Hin]%elem_of_cons.
      * eexists. rewrite lookup_insert_eq. split; [done|]. split; simpl; [split; [lia|by left]|auto].
      * destruct (H2 _ _ Hin) as (ey & Hey & S). exists ey. rewrite lookup_insert_ne; [done|]. congruence.
Qed.

Lemma typed_run_inv t clock callers : typed_run t clock callers -> typed_inv (ty_entries t) clock callers.
Proof.
  induction 1 as [loop|t clock callers intent t' reply _ IH Hs Ha E|t clock callers x e seq _ IH He Hz Hlt|t clock callers x _ IH
    |t clock callers ids _ IH|t clock callers loop _ IH|t clock callers seq _ IH Hlt].
  - split; [done| |by intros x intent ?%not_elem_of_nil]. intros x e He. change ((∅ : gmap nat typedReadEntry) !! x = Some e) in He.
    by rewrite lookup_empty in He.
  - by eapply SubmitTyped_inv.
  - destruct IH as [H0 H1 H2]. cbn. rewrite (alter_known _ _ _ e He). split; [lia|..].
    + intros y ey. destruct (decide (y = x)) as [-> |Hy]; [rewrite lookup_insert_eq; intros [= <-]; simpl; lia|].
      rewrite lookup_insert_ne by done. intros Hey. specialize (H1 _ _ Hey). lia.
    + intros y intent Hin. destruct (H2 _ _ Hin) as (ey & Hey & [[F1 F2] A]). destruct (decide (y = x)) as [-> |Hy].
      * assert (ey = e) as -> by congruence. eexists. rewrite lookup_insert_eq. split; [done|]. split; simpl; [split; [lia|right; lia]|done].
      * exists ey. rewrite lookup_insert_ne by done. split; [done|]. split; [|done]. split; [lia|done].
  - by apply typed_inv_alter.
  - revert t IH. induction ids as [|i ids IHi]; intros t IH; simpl; [done|]. apply IHi. unfold clearInstance. cbn.
    by apply typed_inv_done.
  - done.
  - destruct IH as [H0 H1 H2]. split; [lia|..].
    + intros y ey Hey. specialize (H1 _ _ Hey). lia.
    + intros y intent Hin. destruct (H2 _ _ Hin) as (ey & Hey & [[F1 F2] A]). exists ey. split; [done|]. split; [|done]. split; [lia|done].
Qed.

(** A shared read is fresh for everyone who waits on it: whatever is submitted,
    started, finished or cancelled in between, once the read a caller waits on has
    started, its start number lies after the fence the caller named; and all
    verifications that wait on one read are of the same attempt. *)
Theorem shared_reads_fresh (t : TypedReads) (clock : Z) (callers : list (nat * Intent)) (x : nat) (intent : Intent) :
  typed_run t clock callers -> (x, intent) ∈ callers ->
  exists e, ty_entries t !! x = Some e
    /\ (te_seq e <> 0 -> in_StartedAfter intent < te_seq e)
    /\ (in_Class intent = OperationProbeVerify -> te_attemptID e = in_AttemptID intent).
Proof.
  intros [_ _ H2]%typed_run_inv Hin. destruct (H2 _ _ Hin) as (e & He & [[_ F] A]). exists e. split_and!; [done| |].
  - intros Hs. by destruct F.
  - intros Hc. by apply A.
Qed.

(** A read that runs with number 4, joined by a caller that names fence 2. *)
Definition example_reader (after : Z) : Intent :=
  mkOpIntent "a" 7 1 OperationProbeVerify "probe_verify" after 0 "probe-7-1" example_token 1 zeroFingerprint None.

Definition example_first : TypedReads := (SubmitTyped (mkTypedReads ∅ ∅ NewCoordinator) (example_reader 0)).1.

Definition example_reads : TypedReads := storeSeq example_first 0 4.

Lemma typed_step t clock callers intent reply :
  typed_run t clock callers -> 0 <= in_StartedAfter intent <= clock -> in_AttemptID intent <> "" ->
  (SubmitTyped t intent).2 = reply -> typed_run (SubmitTyped t intent).1 clock (attached reply intent ++ callers).
Proof. intros Hr Hs Ha <-. eapply ty_submit; [done|done|done|apply surjective_pairing]. Qed.

Lemma example_first_run : typed_run example_first 0 [(0%nat, example_reader 0)].
Proof. refine (typed_step _ 0 [] (example_reader 0) (SubmittedRead 0) (ty_init _) _ _ _); [simpl; lia|done|vm_compute; reflexivity]. Qed.

Lemma shared_reads_fresh_witness :
  (SubmitTyped example_reads (example_reader 2)).2 = SharedRead 0
  /\ exists e, ty_entries (SubmitTyped example_reads (example_reader 2)).1 !! 0%nat = Some e /\ te_seq e = 4 /\ 2 < te_seq e.
Proof.
  assert ((SubmitTyped example_reads (example_reader 2)).2 = SharedRead 0) as E2 by (vm_compute; reflexivity).
  split; [exact E2|].
  assert (exists e, ty_entries example_first !! 0%nat = Some e /\ te_seq e = 0) as (e0 & He0 & Hz) by (eexists; split; [vm_compute; reflexivity|reflexivity]).
  pose proof (ty_start example_first 0 _ 0%nat e0 4 example_first_run He0 Hz ltac:(lia)) as Hrun.
  apply (typed_step _ 4 _ (example_reader 2) (SharedRead 0)) in Hrun; [|simpl; lia|done|exact E2].
  destruct (shared_reads_fresh _ _ _ 0%nat (example_reader 2) Hrun ltac:(left)) as (e & He & Hs & _).
  exists e. split; [exact He|]. assert (te_seq e = 4) as E by (vm_compute in He; injection He as <-; reflexivity).
  split; [exact E|]. apply Hs. rewrite E. discriminate.
Defined.

(** ** A rejected read is shared *)

(** A rejected read poisons its instance: a read submitted while the instance
    is cancelled is answered by a completed, cancelled future, but its entry stays
    in the table as one that has not started; after the instance is activated
    again, the next read of the class joins that entry instead of being
    submitted. *)
Theorem rejected_read_is_shared :
  let read := (example_reader 0) <| in_Class := OperationQuotaRead |> in
  let cancelled := (handle NewCoordinator example_callbacks (CancelInstancesCommand [7])).1 in
  let t1 := (SubmitTyped (mkTypedReads ∅ ∅ cancelled) read).1 in
  let t2 := t1 <| ty_loop := (handle (ty_loop t1) example_callbacks (ActivateInstancesCommand {[7 := 1]})).1 |> in
  (exists e, ty_entries t1 !! 0%nat = Some e /\ te_future e = None)
  /\ co_cancelledThrough (ty_loop t2) !! 7 = None
  /\ (SubmitTyped t2 read).2 = SharedRead 0.
Proof. cbv zeta. split_and!; [eexists; split; vm_compute; reflexivity|vm_compute; reflexivity|vm_compute; reflexivity]. Qed.
