(* ===== verification/CredentialWAL.v ===== *)
(** * The credential write-ahead log (credential_wal.go)

    The plugin rotates credentials in the host's auth files.  Before it asks the
    host to save a new credential it writes the planned transition to the durable
    state, and afterwards the outcome.  When the outcome is not known, for instance
    after a crash, the credential read back from the host settles it.

    The store is the one of [StateStore], which has the operations the manager
    looks for; the branch for a writer without them serves tests only.  The host
    is a map of auth files; a failed save may or may not have reached it. *)

From S2P Require Import Prelude GoStrings Float64 Config Models Identity Probe ProbeWindow StateStore.
#[local] Open Scope string_scope.
#[local] Open Scope list_scope.
#[local] Open Scope Z_scope.
#[local] Open Scope go_scope.

Record HostAuth := mkHostAuth { ha_Name : string; ha_Raw : string; ha_Fingerprint : CredentialFingerprint }.

Inductive credential_error :=
  | ErrStore (e : store_error)
  | ErrStaleExecutionToken
  | ErrChainMissing
  | ErrUnresolved
  | ErrCredentialRejected
  | ErrHost
  | ErrCrash (point : string)
  | ErrHook (reason : string)
  | ErrCredentialResolutionScope
  | ErrCredentialRollbackFailed (after : string) (e : credential_error).
Definition scopeReason : string := "credential resolution requires an active roster instance".

Record CredentialSaveResult := mkSaveResult { sr_Phase : option TransitionPhase; sr_SaveSeq : Z }.
Definition noSave : CredentialSaveResult := mkSaveResult None 0.

(** [None] is the empty phase and the unset observation. *)
Record CredentialRecoveryReport := mkRecovery {
  cr_Ambiguous : bool;
  cr_Phase : option TransitionPhase;
  cr_Observation : option CredentialObservation;
}.
#[export] Instance CredentialRecoveryReport_eta : Eta CredentialRecoveryReport := fun r => mkRecovery
  (cr_Ambiguous r) (cr_Phase r) (cr_Observation r).
Definition noReport : CredentialRecoveryReport := mkRecovery false None None.

Record CredentialManager := mkCredentials { cm_store : StateStore; cm_state : PersistentState }.
#[export] Instance CredentialManager_eta : Eta CredentialManager := fun r => mkCredentials (cm_store r) (cm_state r).

(** The hooks of a reconciliation; the second may itself change the store. *)
Record CredentialReconcileHooks := mkHooks {
  hk_BeforeCommit : option (CredentialRecoveryReport -> option string);
  hk_AfterCommit : option (CredentialRecoveryReport -> PersistentState -> StateStore -> StateStore * option string);
}.

(** The outcomes of the file operations of one store update. *)
Record store_io := mkStoreIO { su_load : load_io; su_backup : write_outcome; su_primary : write_outcome }.
Definition store_fine : store_io := mkStoreIO io_fine WriteOk WriteOk.

(** What the host makes of a save. *)
Inductive save_outcome := SaveAccepted | SaveRejected | SaveFailed (landed : bool).
Definition hostSaveAuth (host : gmap AuthInstanceID HostAuth) (i : AuthInstanceID) (next : HostAuth) (outcome : save_outcome)
  : gmap AuthInstanceID HostAuth * option credential_error :=
  match outcome with
  | SaveAccepted => (<[i := next]> host, None)
  | SaveRejected => (host, Some ErrCredentialRejected)
  | SaveFailed landed => (if landed then <[i := next]> host else host, Some ErrHost)
  end.

Definition NewCredentialManager (store : StateStore) (io : load_io) : StateStore * result credential_error CredentialManager :=
  let '(s, st) := PersistentSnapshot store io in
  match st with Err e => (s, Err (ErrStore e)) | Ok st => (s, Ok (mkCredentials s st)) end.

(** [mutate]: one durable update; the manager's copy follows a success. *)
Definition mutate (m : CredentialManager) (fn : PersistentState -> result string PersistentState) (io : store_io)
  : CredentialManager * option credential_error :=
  match Update (cm_store m) fn (su_load io) (su_backup io) (su_primary io) with
  | (s, Ok committed) => (mkCredentials s committed, None)
  | (s, Err e) => (m <| cm_store := s |>, Some (ErrStore e))
  end.

Definition chainOf (st : PersistentState) (i : AuthInstanceID) : TransitionChain :=
  default (mkChain zeroFingerprint []) (ps_CredentialChains st !! i).

Definition setChain (m : CredentialManager) (i : AuthInstanceID) (chain : TransitionChain) (io : store_io)
  : CredentialManager * option credential_error :=
  mutate m (fun st => Ok (st <| ps_CredentialChains := <[i := chain]> (ps_CredentialChains st) |>)) io.

(** The two updates of a save: plan the transition under a new number, and
    record its outcome. *)
Definition planTransition (i : AuthInstanceID) (tail next : CredentialFingerprint) (created appended : Time) (st : PersistentState)
  : result string PersistentState :=
  let seq := u64 (ps_NextSaveSeq st + 1) in
  let ch := AppendAt (chainOf st i) (mkTransition tail next seq TransitionPlanned created) appended in
  Ok (st <| ps_NextSaveSeq := seq |> <| ps_CredentialChains := <[i := ch]> (ps_CredentialChains st) |>).

Definition markPhase (seq : Z) (phase : TransitionPhase) (tr : CredentialTransition) : CredentialTransition :=
  if ct_SaveSeq tr =? seq then tr <| ct_Phase := phase |> else tr.
Definition finishTransition (i : AuthInstanceID) (seq : Z) (phase : TransitionPhase) (st : PersistentState)
  : result string PersistentState :=
  let ch := chainOf st i in
  Ok (st <| ps_CredentialChains := <[i := ch <| tc_Transitions := markPhase seq phase <$> tc_Transitions ch |>]> (ps_CredentialChains st) |>).

(** The inputs of a save: the two clock readings, the crash points that are hit,
    what the host does, and the outcomes of the file operations. *)
Record save_env := mkSaveEnv {
  se_created : Time; se_appended : Time; se_crash : string -> bool; se_host : save_outcome;
  se_snapshot : load_io; se_plan : store_io; se_finish : store_io;
}.

(** The second half of a save, after the plan is durable: the host is called and
    the outcome recorded. *)
Definition deliverSave (m : CredentialManager) (host : gmap AuthInstanceID HostAuth) (i : AuthInstanceID) (next : HostAuth)
    (seq : Z) (env : save_env) : CredentialManager * gmap AuthInstanceID HostAuth * (CredentialSaveResult * option credential_error) :=
  let planned := mkSaveResult (Some TransitionPlanned) seq in
  let unknown := mkSaveResult (Some TransitionOutcomeUnknown) seq in
  if se_crash env "K_CREDENTIAL_AFTER_PLANNED" then (m, host, (planned, Some (ErrCrash "K_CREDENTIAL_AFTER_PLANNED")))
  else if se_crash env "K_CREDENTIAL_BEFORE_SAVEAUTH" then (m, host, (planned, Some (ErrCrash "K_CREDENTIAL_BEFORE_SAVEAUTH")))
  else
    let '(host, err) := hostSaveAuth host i next (se_host env) in
    if se_crash env "K_CREDENTIAL_AFTER_SAVEAUTH" then (m, host, (unknown, Some (ErrCrash "K_CREDENTIAL_AFTER_SAVEAUTH")))
    else
      let phase := match err with
                   | None => TransitionApplied
                   | Some ErrCredentialRejected => TransitionAborted
                   | Some _ => TransitionOutcomeUnknown
                   end in
      if se_crash env "K_CREDENTIAL_BEFORE_TERMINAL" then (m, host, (unknown, Some (ErrCrash "K_CREDENTIAL_BEFORE_TERMINAL")))
      else if se_crash env "K_CREDENTIAL_TERMINAL_WRITE" then (m, host, (unknown, Some (ErrCrash "K_CREDENTIAL_TERMINAL_WRITE")))
      else
        let '(m, perr) := mutate m (finishTransition i seq phase) (se_finish env) in
        (m, host, (mkSaveResult (Some phase) seq, match perr with Some e => Some e | None => err end)).

Definition saveVersionedWithHost (m : CredentialManager) (host : gmap AuthInstanceID HostAuth) (i : AuthInstanceID)
    (next : HostAuth) (token : ExecutionToken) (env : save_env)
  : CredentialManager * gmap AuthInstanceID HostAuth * (CredentialSaveResult * option credential_error) :=
  let '(s, fresh) := PersistentSnapshot (cm_store m) (se_snapshot env) in
  match fresh with
  | Err e => (m <| cm_store := s |>, host, (noSave, Some (ErrStore e)))
  | Ok fresh =>
      let m := mkCredentials s fresh in
      if negb (tok_Instance token =? i) then (m, host, (noSave, Some ErrStaleExecutionToken))
      else
        match ps_CredentialChains fresh !! i with
        | None => (m, host, (noSave, Some ErrChainMissing))
        | Some chain =>
            match SaveTail chain with
            | Err _ => (m, host, (noSave, Some ErrUnresolved))
            | Ok tail =>
                if se_crash env "K_CREDENTIAL_PLANNED_WRITE" then (m, host, (noSave, Some (ErrCrash "K_CREDENTIAL_PLANNED_WRITE")))
                else
                  let '(m, err) := mutate m (planTransition i tail (ha_Fingerprint next) (se_created env) (se_appended env)) (se_plan env) in
                  match err with
                  | Some e => (m, host, (noSave, Some e))
                  | None =>
                      let seq := ps_NextSaveSeq (cm_state m) in
                      deliverSave m host i next seq env
                  end
            end
        end
  end.
Definition SaveVersioned := saveVersionedWithHost.

(** ** Reconciliation *)

(** Has the chain a transition whose outcome is open? *)
Fixpoint unresolved_from (current : CredentialFingerprint) (trs : list CredentialTransition) : bool :=
  match trs with
  | [] => false
  | tr :: trs =>
      if negb (same_hash (ct_Prev tr) current) then false
      else match ct_Phase tr with
           | TransitionApplied => unresolved_from (ct_Next tr) trs
           | TransitionPlanned | TransitionOutcomeUnknown => true
           | TransitionAborted => false
           end
  end.
Definition credentialChainUnresolved (c : TransitionChain) : bool := unresolved_from (tc_Cursor c) (tc_Transitions c).

(** The settlement of the last transition by what the host holds: the chain, its
    phase for the report, and whether the observation fits neither side.  The
    transition is changed in place, so the caller's copy of the chain has it too. *)
Definition settleLast (chain : TransitionChain) (observed : CredentialFingerprint) : TransitionChain * option TransitionPhase * bool :=
  match last (tc_Transitions chain) with
  | None => (chain, None, false)
  | Some tr =>
      match ct_Phase tr with
      | TransitionPlanned | TransitionOutcomeUnknown =>
          let set phase := chain <| tc_Transitions := removelast (tc_Transitions chain) ++ [tr <| ct_Phase := phase |>] |> in
          if same_hash observed (ct_Next tr) then (set TransitionApplied, Some TransitionApplied, false)
          else if same_hash observed (ct_Prev tr) then (set TransitionAborted, Some TransitionAborted, false)
          else (chain, Some (ct_Phase tr), true)
      | phase => (chain, Some phase, false)
      end
  end.

Fixpoint drop_aborted (cursor : CredentialFingerprint) (trs : list CredentialTransition) : list CredentialTransition :=
  match trs with
  | tr :: rest => if bool_decide (ct_Prev tr = cursor) && bool_decide (ct_Phase tr = TransitionAborted) then drop_aborted cursor rest else trs
  | [] => []
  end.

Definition reconcileCredentialObservation (chain : TransitionChain) (observed : CredentialFingerprint) (now : Time)
  : TransitionChain * CredentialRecoveryReport :=
  let '(chain, phase, ambiguous) := settleLast chain observed in
  if ambiguous then (chain, mkRecovery true phase None)
  else
    let obs := ClassifyObservedCredentialAt chain observed now in
    let chain :=
      match co_Kind obs with
      | CredentialOwnedRotation => mkChain observed (drop (Z.to_nat (co_Advance obs)) (tc_Transitions chain))
      | CredentialExternalLogin => mkChain observed []
      | _ => chain
      end in
    (chain <| tc_Transitions := drop_aborted (tc_Cursor chain) (tc_Transitions chain) |>, mkRecovery false phase (Some obs)).

Section range.
Context `{MapRange}.

(** What one binding of the instance becomes; all bindings follow the new
    generation of an external login. *)
Definition rebind (i : AuthInstanceID) (observed : CredentialFingerprint) (kind : CredentialObservationKind)
    (st : PersistentState) (authID : string) : PersistentState :=
  match ps_Bindings st !! authID with
  | None => st
  | Some b =>
      if negb (rb_Instance b =? i) then st
      else
        match kind with
        | CredentialOwnedRotation =>
            st <| ps_Bindings := <[authID := b <| rb_Token := u64 (rb_Token b + 1) |> <| rb_Fingerprint := observed |>]> (ps_Bindings st) |>
        | CredentialExternalLogin =>
            let tier := u64 (ps_TierGeneration st + 1) in
            let tier := if tier =? 0 then 1 else tier in
            let admission := u64 (rb_Admission b + 1) in
            let b := b <| rb_Login := u64 (rb_Login b + 1) |> <| rb_Admission := admission |> <| rb_Fingerprint := observed |>
                       <| rb_AuthBlocked := false |> <| rb_Generation := tier |> in
            st <| ps_TierGeneration := tier |>
               <| ps_AdmissionEpochs := <[i := admission]> (ps_AdmissionEpochs st) |>
               <| ps_Bindings := <[authID := b]> ((fun active => active <| rb_Generation := tier |>) <$> ps_Bindings st) |>
        | _ => st
        end
  end.

Definition commitReconcile (i : AuthInstanceID) (requireUnresolved : bool) (nextChain : TransitionChain)
    (observed : CredentialFingerprint) (kind : CredentialObservationKind) (st : PersistentState) : result string PersistentState :=
  if requireUnresolved && negb (credentialChainUnresolved (chainOf st i)) then Err scopeReason
  else
    let st := st <| ps_CredentialChains := <[i := nextChain]> (ps_CredentialChains st) |> in
    Ok (foldl (rebind i observed kind) st (map_range (ps_Bindings st)).*1).

Definition rollbackReconcile (before committed : PersistentState) (st : PersistentState) : result string PersistentState :=
  if negb (ps_TierGeneration st =? ps_TierGeneration committed)
     || negb (bool_decide (ps_AdmissionEpochs st = ps_AdmissionEpochs committed))
     || negb (bool_decide (ps_CredentialChains st = ps_CredentialChains committed))
     || negb (bool_decide (ps_Bindings st = ps_Bindings committed))
  then Err scopeReason
  else Ok (st <| ps_TierGeneration := ps_TierGeneration before |> <| ps_AdmissionEpochs := ps_AdmissionEpochs before |>
              <| ps_CredentialChains := ps_CredentialChains before |> <| ps_Bindings := ps_Bindings before |>).

(** The inputs of a reconciliation; [re_get] is an error of the host's read. *)
Record reconcile_env := mkReconcileEnv {
  re_now : Time; re_get : bool; re_snapshot : load_io; re_commit : store_io; re_rollback : store_io;
}.

Definition storeErr (e : credential_error) : credential_error :=
  match e with ErrStore (ErrUpdate reason) => if String.eqb reason scopeReason then ErrCredentialResolutionScope else e | _ => e end.

Definition reconcile (Sum256 : string -> string) (m : CredentialManager) (host : gmap AuthInstanceID HostAuth) (i : AuthInstanceID)
    (requireUnresolved : bool) (hooks : CredentialReconcileHooks) (env : reconcile_env)
  : CredentialManager * (CredentialRecoveryReport * option credential_error) :=
  let '(s, fresh) := PersistentSnapshot (cm_store m) (re_snapshot env) in
  match fresh with
  | Err e => (m <| cm_store := s |>, (noReport, Some (ErrStore e)))
  | Ok fresh =>
      let m := mkCredentials s fresh in
      let nothing := (m, (noReport, if requireUnresolved then Some ErrCredentialResolutionScope else None)) in
      match ps_CredentialChains fresh !! i with
      | None => nothing
      | Some chain =>
          if negb (ValidHashes Sum256 (tc_Cursor chain)) then nothing
          else if requireUnresolved && negb (credentialChainUnresolved chain) then (m, (noReport, Some ErrCredentialResolutionScope))
          else
            match (if re_get env then None else host !! i) with
            | None => (m, (noReport, Some ErrHost))
            | Some current =>
                let observed := ha_Fingerprint current in
                let '(nextChain, report) := reconcileCredentialObservation chain observed (re_now env) in
                if cr_Ambiguous report then (m, (report, None))
                else
                  let settled := (settleLast chain observed).1.1 in
                  let m := m <| cm_state := (cm_state m) <| ps_CredentialChains := <[i := settled]> (ps_CredentialChains (cm_state m)) |> |> in
                  match (match hk_BeforeCommit hooks with Some f => f report | None => None end) with
                  | Some reason => (m, (report, Some (ErrHook reason)))
                  | None =>
                      let before := cm_state m in
                      let kind := match cr_Observation report with Some o => co_Kind o | None => CredentialSame end in
                      let '(m, err) := mutate m (commitReconcile i requireUnresolved nextChain observed kind) (re_commit env) in
                      match err with
                      | Some e => (m, (report, Some (storeErr e)))
                      | None =>
                          let committed := cm_state m in
                          match hk_AfterCommit hooks with
                          | None => (m, (report, None))
                          | Some f =>
                              let '(s, afterErr) := f report committed (cm_store m) in
                              let m := m <| cm_store := s |> in
                              match afterErr with
                              | None => (m, (report, None))
                              | Some reason =>
                                  let '(m, rerr) := mutate m (rollbackReconcile before committed) (re_rollback env) in
                                  match rerr with
                                  | Some e => (m, (report, Some (ErrCredentialRollbackFailed reason (storeErr e))))
                                  | None => (m, (report, Some (ErrHook reason)))
                                  end
                              end
                          end
                      end
                  end
            end
      end
  end.

Definition noHooks : CredentialReconcileHooks := mkHooks None None.
Definition Reconcile (Sum256 : string -> string) m host i := reconcile Sum256 m host i false noHooks.
Definition ReconcileWithHooks (Sum256 : string -> string) m host i hooks := reconcile Sum256 m host i false hooks.
Definition ReconcileUnresolved (Sum256 : string -> string) m host i := reconcile Sum256 m host i true noHooks.
End range.

(** ** Chains that explain the host's credential *)

(** [leads current trs h]: applied transitions lead from [current] to [h]. *)
Fixpoint leads (current : CredentialFingerprint) (trs : list CredentialTransition) (h : CredentialFingerprint) : Prop :=
  match trs with
  | [] => current = h
  | tr :: trs => ct_Prev tr = current /\ ct_Phase tr = TransitionApplied /\ leads (ct_Next tr) trs h
  end.

(** The hashes along a chain. *)
Definition trail (current : CredentialFingerprint) (trs : list CredentialTransition) : list string :=
  fp_CompositeHash current :: ((fun tr => fp_CompositeHash (ct_Next tr)) <$> trs).

Definition open_phase (p : TransitionPhase) : Prop := p = TransitionPlanned \/ p = TransitionOutcomeUnknown.

(** A chain without an open transition ends at the host's credential; with one
    open transition, its last, the host holds one of its two sides. *)
Definition settled (h : CredentialFingerprint) (c : TransitionChain) : Prop :=
  leads (tc_Cursor c) (tc_Transitions c) h /\ NoDup (trail (tc_Cursor c) (tc_Transitions c)).
Definition pending (h : CredentialFingerprint) (c : TransitionChain) (tr : CredentialTransition) : Prop :=
  exists trs, tc_Transitions c = trs ++ [tr] /\ leads (tc_Cursor c) trs (ct_Prev tr) /\ open_phase (ct_Phase tr)
    /\ (h = ct_Prev tr \/ h = ct_Next tr) /\ NoDup (trail (tc_Cursor c) (tc_Transitions c)).
Definition explained (h : CredentialFingerprint) (c : TransitionChain) : Prop := settled h c \/ exists tr, pending h c tr.

Lemma trail_app current l1 l2 : trail current (l1 ++ l2) = trail current l1 ++ ((fun tr => fp_CompositeHash (ct_Next tr)) <$> l2).
Proof. unfold trail. by rewrite fmap_app. Qed.

Lemma leads_last current trs h : leads current trs h -> trail current trs !! length trs = Some (fp_CompositeHash h).
Proof.
  revert current. induction trs as [|tr trs IH]; intros current; simpl; [by intros ->|]. intros (_ & _ & Hl). by apply (IH (ct_Next tr)).
Qed.

(** A chain may forget its oldest applied transitions. *)
Lemma leads_drop k current trs h :
  (k <= length trs)%nat -> leads current trs h ->
  exists current', leads current' (drop k trs) h /\ trail current' (drop k trs) = drop k (trail current trs).
Proof.
  revert current trs. induction k as [|k IH]; intros current trs Hk Hl; [by exists current|].
  destruct trs as [|tr trs]; simpl in Hk; [lia|]. destruct Hl as (_ & _ & Hl).
  destruct (IH (ct_Next tr) trs) as (c' & H1 & H2); [lia|done|]. by exists c'.
Qed.

Lemma prune_leads now current trs h current' trs' :
  prune_settled now current trs = (current', trs') -> leads current trs h ->
  leads current' trs' h /\ exists k, trail current' trs' = drop k (trail current trs) /\ trs' = drop k trs.
Proof.
  revert current. induction trs as [|tr trs IH]; intros current; simpl.
  - intros [= <- <-] ->. split; [done|]. by exists 0%nat.
  - destruct (_ && _ && _ && _).
    + intros Hp (_ & _ & Hl). destruct (IH _ Hp Hl) as (H1 & k & H2 & H3). split; [done|]. exists (S k). by split.
    + intros [= <- <-] Hl. split; [done|]. by exists 0%nat.
Qed.

Lemma NoDup_drop {A} k (l : list A) : NoDup l -> NoDup (drop k l).
Proof. intros Hn. rewrite <- (take_drop k l) in Hn. by apply NoDup_app in Hn as (_ & _ & Hn). Qed.

(** Appending an open transition at the end of a settled chain. *)
Lemma AppendAt_pending h c t now :
  settled h c -> ct_Prev t = h -> open_phase (ct_Phase t) -> fp_CompositeHash (ct_Next t) ∉ trail (tc_Cursor c) (tc_Transitions c) ->
  pending h (AppendAt c t now) t
  /\ exists k, tc_Transitions (AppendAt c t now) = drop k (tc_Transitions c) ++ [t].
Proof.
  intros [Hl Hn] Hp Ho Hnew. unfold AppendAt. destruct (prune_settled _ _ _) as [cur trs] eqn:E.
  apply prune_leads with (h := h) in E as (Hl' & k & Ht & ->); [|done]. set (trs := drop k (tc_Transitions c)) in *.
  assert (NoDup (trail cur (trs ++ [t]))) as Hn'.
  { rewrite trail_app, Ht. apply NoDup_app. split_and!; [by apply NoDup_drop| |by apply NoDup_singleton].
    intros x Hx ->%list_elem_of_singleton. destruct Hnew. rewrite <- (take_drop k (trail _ _)). apply elem_of_app. by right. }
  destruct (Nat.ltb_spec 11 (length (trs ++ [t]))) as [Hlen|Hlen].
  - rewrite length_app in *. simpl in *. set (n := (length trs + 1 - 11)%nat).
    assert (n <= length trs)%nat as Hle by lia.
    destruct (leads_drop n cur trs h Hle Hl') as (cur' & Hl2 & Ht2).
    rewrite (drop_app_le trs [t] n) by lia.
    assert (match drop n trs ++ [t] with tr :: _ => ct_Prev tr | [] => cur end = cur') as ->.
    { destruct (drop n trs) as [|x rest]; simpl in *; [congruence|]. by destruct Hl2. }
    split; [|exists (k + n)%nat; subst trs; simpl; by rewrite drop_drop].
    exists (drop n trs). split_and!; [done|by rewrite Hp|done|by left; rewrite Hp|]. cbn [tc_Cursor tc_Transitions].
    rewrite trail_app, Ht2. rewrite trail_app in Hn'. rewrite <- (drop_app_le (trail cur trs) _ n) by (simpl; rewrite length_fmap; lia).
    by apply NoDup_drop.
  - split; [|by exists k]. exists trs. split_and!; [done|by rewrite Hp|done|by left; rewrite Hp|done].
Qed.

Lemma saveTail_settled h c : settled h c -> SaveTail c = Ok h.
Proof.
  destruct c as [cur trs]. intros [Hl _]. unfold SaveTail. cbn [tc_Cursor tc_Transitions] in *. revert cur Hl.
  induction trs as [|tr trs IH]; intros cur; simpl; [by intros ->|]. intros (-> & -> & Hl). rewrite same_hash_refl. simpl. by apply IH.
Qed.

Lemma saveTail_pending h c tr : pending h c tr -> SaveTail c = Err ErrCredentialUnresolved.
Proof.
  destruct c as [cur l]. intros (trs & E & Hl & Ho & _). unfold SaveTail. cbn [tc_Cursor tc_Transitions] in *. subst l. revert cur Hl.
  induction trs as [|x trs IH]; intros cur; simpl.
  - intros <-. rewrite same_hash_refl. simpl. by destruct Ho as [-> | ->].
  - intros (-> & -> & Hl). rewrite same_hash_refl. simpl. by apply IH.
Qed.

(** Recording the outcome of the last transition. *)
Lemma markPhase_last trs tr seq phase :
  Forall (fun x => ct_SaveSeq x <> seq) trs -> ct_SaveSeq tr = seq ->
  markPhase seq phase <$> (trs ++ [tr]) = trs ++ [tr <| ct_Phase := phase |>].
Proof.
  intros Hne E. rewrite fmap_app. f_equal.
  - induction Hne as [|x trs Hx _ IH]; [done|]. rewrite fmap_cons, IH. f_equal. unfold markPhase. by rewrite (proj2 (Z.eqb_neq _ _)).
  - simpl. unfold markPhase. by rewrite (proj2 (Z.eqb_eq _ _)).
Qed.

Lemma leads_applied current trs tr :
  leads current trs (ct_Prev tr) -> leads current (trs ++ [tr <| ct_Phase := TransitionApplied |>]) (ct_Next tr).
Proof. revert current. induction trs as [|x trs IH]; intros current; simpl; [by intros ->|]. intros (? & ? & Hl). auto. Qed.

Lemma trail_phase current trs tr p : trail current (trs ++ [tr <| ct_Phase := p |>]) = trail current (trs ++ [tr]).
Proof. by rewrite !trail_app. Qed.

Lemma finish_explained h cur trs tr seq phase :
  leads cur trs (ct_Prev tr) -> NoDup (trail cur (trs ++ [tr])) ->
  Forall (fun x => ct_SaveSeq x <> seq) trs -> ct_SaveSeq tr = seq ->
  phase = TransitionApplied /\ h = ct_Next tr \/ open_phase phase /\ (h = ct_Prev tr \/ h = ct_Next tr) ->
  explained h (mkChain cur (markPhase seq phase <$> (trs ++ [tr]))).
Proof.
  intros Hl Hn Hs E Hp. rewrite markPhase_last by done. destruct Hp as [[-> ->]|[Ho Hh]].
  - left. split; cbn [tc_Cursor tc_Transitions]; [|by rewrite trail_phase]. by apply leads_applied.
  - right. exists (tr <| ct_Phase := phase |>), trs. split_and!; try done. cbn [tc_Cursor tc_Transitions]. by rewrite trail_phase.
Qed.

(** ** Observing the host's credential *)

Definition recent (now : Time) (tr : CredentialTransition) : Prop :=
  negb (IsZero (ct_CreatedAt tr)) && (24 * Hour <? Sub now (ct_CreatedAt tr)) = false.

Lemma same_hash_next current trs tr h :
  leads (ct_Next tr) trs h -> NoDup (trail current (tr :: trs)) -> same_hash h (ct_Next tr) = true -> trs = [].
Proof.
  intros Hl Hn Hs. destruct trs as [|x trs]; [done|]. exfalso. apply leads_last in Hl.
  apply same_hash_spec in Hs. rewrite Hs in Hl. simpl in Hn, Hl.
  apply NoDup_cons in Hn as [_ Hn]. apply NoDup_cons in Hn as [Hx _]. destruct Hx. by apply list_elem_of_lookup_2 in Hl.
Qed.

Lemma classify_leads i cur trs rest h now :
  leads cur trs h -> NoDup (trail cur trs) -> Forall (recent now) trs -> trs <> [] ->
  classify_from i cur h now (trs ++ rest) = Some (mkObservation CredentialOwnedRotation (i + Z.of_nat (length trs))).
Proof.
  revert i cur. induction trs as [|tr trs IH]; intros i cur Hl Hn Hr Hne; [done|]. destruct Hl as (Ep & Hp & Hl).
  apply Forall_cons in Hr as [Hr Hrs]. cbn [app classify_from]. rewrite Ep, same_hash_refl, Hp. unfold recent in Hr. rewrite Hr. cbn [negb].
  destruct (same_hash h (ct_Next tr)) eqn:E.
  - assert (trs = []) as -> by eauto using same_hash_next. done.
  - rewrite IH; [do 2 f_equal; simpl length; lia|done| |done|].
    + apply NoDup_cons in Hn as [_ Hn]. done.
    + intros ->. simpl in Hl. subst h. by rewrite same_hash_refl in E.
Qed.

(** A chain whose applied transitions lead to the observed credential, with an
    aborted transition behind them at most, is brought up to date. *)
Lemma observe_leads cur trs rest h now :
  leads cur trs h -> NoDup (trail cur trs) -> Forall (recent now) trs -> drop_aborted h rest = [] ->
  exists o, ClassifyObservedCredentialAt (mkChain cur (trs ++ rest)) h now = o
    /\ match co_Kind o with
       | CredentialSame => cur = h /\ trs = []
       | CredentialOwnedRotation => drop (Z.to_nat (co_Advance o)) (trs ++ rest) = rest
       | _ => False
       end.
Proof.
  intros Hl Hn Hr Hd. eexists. split; [done|]. unfold ClassifyObservedCredentialAt. cbn [tc_Cursor tc_Transitions].
  destruct trs as [|tr trs].
  - simpl in Hl. subst cur. rewrite same_hash_refl. done.
  - destruct (same_hash h cur) eqn:E.
    + exfalso. apply same_hash_spec in E. apply leads_last in Hl. rewrite E in Hl. cbn in Hn, Hl.
      apply NoDup_cons in Hn as [Hx _]. destruct Hx. by apply list_elem_of_lookup_2 in Hl.
    + rewrite classify_leads by done. cbn [co_Kind co_Advance]. rewrite Z.add_0_l, Nat2Z.id. apply drop_app_length.
Qed.

Lemma settleLast_snoc cur trs tr h :
  open_phase (ct_Phase tr) -> h = ct_Prev tr \/ h = ct_Next tr -> NoDup (trail cur (trs ++ [tr])) -> leads cur trs (ct_Prev tr) ->
  exists phase, settleLast (mkChain cur (trs ++ [tr])) h = (mkChain cur (trs ++ [tr <| ct_Phase := phase |>]), Some phase, false)
    /\ (phase = TransitionApplied /\ h = ct_Next tr \/ phase = TransitionAborted /\ h = ct_Prev tr).
Proof.
  intros Ho Hh Hn Hl. unfold settleLast. cbn [tc_Transitions]. rewrite last_snoc, removelast_last.
  assert (same_hash (ct_Prev tr) (ct_Next tr) = false) as Hne.
  { apply not_true_iff_false. intros E%same_hash_spec. apply leads_last in Hl. rewrite E in Hl. rewrite trail_app in Hn.
    apply NoDup_app in Hn as (_ & Hx & _). apply (Hx (fp_CompositeHash (ct_Next tr))); [by eapply list_elem_of_lookup_2|by left]. }
  destruct Hh as [-> | ->].
  - exists TransitionAborted. rewrite Hne, same_hash_refl. split; [by destruct Ho as [-> | ->]|by right].
  - exists TransitionApplied. rewrite same_hash_refl. split; [by destruct Ho as [-> | ->]|by left].
Qed.

Lemma reconcile_explained h c now :
  explained h c -> Forall (recent now) (tc_Transitions c) ->
  exists phase o, reconcileCredentialObservation c h now = (mkChain h [], mkRecovery false phase (Some o))
    /\ (co_Kind o = CredentialSame \/ co_Kind o = CredentialOwnedRotation).
Proof.
  intros He Hr. unfold reconcileCredentialObservation.
  assert (exists cur trs rest phase, settleLast c h = (mkChain cur (trs ++ rest), phase, false)
    /\ leads cur trs h /\ NoDup (trail cur trs) /\ Forall (recent now) trs /\ drop_aborted h rest = []) as
    (cur & trs & rest & phase & -> & Hl & Hn & Hrs & Hd).
  { destruct c as [cur l]. destruct He as [[Hl Hn]|(tr & trs & E & Hl & Ho & Hh & Hn)]; cbn [tc_Cursor tc_Transitions] in *.
    - exists cur, l, []. rewrite app_nil_r. unfold settleLast. cbn [tc_Transitions]. destruct (last l) as [tr|] eqn:Elast; [|by eexists].
      assert (ct_Phase tr = TransitionApplied) as ->.
      { apply last_Some in Elast as [l' ->]. clear -Hl. revert cur Hl. induction l' as [|x l' IH]; intros cur; simpl; naive_solver. }
      by eexists.
    - subst l. destruct (settleLast_snoc cur trs tr h Ho Hh Hn Hl) as (phase & -> & [[-> ->]|[-> ->]]).
      + exists cur, (trs ++ [tr <| ct_Phase := TransitionApplied |>]), []. eexists. rewrite app_nil_r. split_and!; [done| | | |done].
        * by apply leads_applied.
        * by rewrite trail_phase.
        * apply Forall_app in Hr as [Hr1 Hr2]. apply Forall_app. split; [done|]. constructor; [|constructor]. by inversion Hr2.
      + exists cur, trs, [tr <| ct_Phase := TransitionAborted |>]. eexists. split_and!; [done|done| | |].
        * rewrite trail_app in Hn. by apply NoDup_app in Hn as [Hn _].
        * by apply Forall_app in Hr as [Hr _].
        * simpl. by rewrite bool_decide_true. }
  destruct (observe_leads cur trs rest h now Hl Hn Hrs Hd) as (o & -> & Ho). exists phase, o.
  destruct (co_Kind o) eqn:Ek; try done; cbn [tc_Cursor tc_Transitions].
  - destruct Ho as [-> ->]. cbn [app]. split; [|by left]. by rewrite Hd.
  - split; [|by right]. by rewrite Ho, Hd.
Qed.

(** ** Runs of saves, crashes and reconciliations *)

Record credential_world := mkWorld { w_manager : CredentialManager; w_host : gmap AuthInstanceID HostAuth }.

(** What the durable state says of instance [i], whose host file holds [h] and
    whose bindings are at login epoch [L]. *)
Record tracks (i : AuthInstanceID) (L : LoginEpoch) (h : CredentialFingerprint) (st : PersistentState) : Prop := {
  tk_chain : exists c, ps_CredentialChains st !! i = Some c /\ explained h c
    /\ Forall (fun tr => ct_SaveSeq tr <= ps_NextSaveSeq st) (tc_Transitions c);
  tk_seq : 0 <= ps_NextSaveSeq st <= maxUint64;
  tk_login : forall a b, ps_Bindings st !! a = Some b -> rb_Instance b = i -> rb_Login b = L;
}.
Definition world_inv (i : AuthInstanceID) (L : LoginEpoch) (w : credential_world) : Prop :=
  exists auth, w_host w !! i = Some auth /\ keeps (tracks i L (ha_Fingerprint auth)) (cm_store (w_manager w)).

Lemma tracks_written i L h old st : tracks i L h st -> tracks i L h (written old st).
Proof. intros [Hc Hs Hl]. unfold written. destruct (ps_FenceUnsafe old); by split. Qed.

(** An update by the manager: it keeps what its function keeps, and a success
    leaves the new state on both sides. *)
Lemma mutate_keeps (Q : PersistentState -> Prop) m fn io :
  keeps Q (cm_store m) -> (forall old st, Q st -> Q (written old st)) ->
  (forall next, fn (sto_state (cm_store m)) = Ok next -> Q next) -> keeps Q (cm_store (mutate m fn io).1).
Proof.
  intros Hk Hw Hf. pose proof (update_keeps Q (cm_store m) fn (su_load io) (su_backup io) (su_primary io) Hk Hw Hf) as Hu.
  unfold mutate. by destruct (Update _ _ _ _ _) as [s [st|e]].
Qed.
Lemma mutate_success (Q : PersistentState -> Prop) m fn io m' :
  keeps Q (cm_store m) -> mutate m fn io = (m', None) ->
  exists next, fn (sto_state (cm_store m)) = Ok next
    /\ synced (cm_store m') (written (sto_state (cm_store m)) next) /\ cm_state m' = written (sto_state (cm_store m)) next.
Proof.
  unfold mutate. intros Hk E. destruct (Update _ _ _ _ _) as [s [st|e]] eqn:Eu; [|done]. injection E as <-.
  destruct (updateMode_success false Q _ _ _ _ _ _ _ Hk Eu) as (next & Hf & Hs & ->). by exists next.
Qed.

Lemma chainOf_lookup st i c : ps_CredentialChains st !! i = Some c -> chainOf st i = c.
Proof. unfold chainOf. by intros ->. Qed.

(** Between the plan and the outcome the durable chain ends in the planned
    transition, whichever side of it the host holds. *)
Definition planned_for (i : AuthInstanceID) (L : LoginEpoch) (prev next : CredentialFingerprint) (seq : Z) (st : PersistentState) : Prop :=
  exists cur trs tr, ps_CredentialChains st !! i = Some (mkChain cur (trs ++ [tr])) /\ leads cur trs (ct_Prev tr)
    /\ NoDup (trail cur (trs ++ [tr])) /\ Forall (fun x => ct_SaveSeq x < seq) trs
    /\ ct_Prev tr = prev /\ ct_Next tr = next /\ ct_SaveSeq tr = seq /\ ct_Phase tr = TransitionPlanned
    /\ ps_NextSaveSeq st = seq /\ 0 <= seq <= maxUint64
    /\ (forall a b, ps_Bindings st !! a = Some b -> rb_Instance b = i -> rb_Login b = L).

Lemma planned_tracks i L prev next seq h st : planned_for i L prev next seq st -> h = prev \/ h = next -> tracks i L h st.
Proof.
  intros (cur & trs & tr & Hc & Hl & Hn & Hs & <- & <- & <- & Hp & Es & Hb & Hlog) Hh. split; [|by rewrite Es|done].
  eexists. split_and!; [done|right; exists tr, trs; split_and!; [done|done|by left|done|done]|].
  cbn [tc_Transitions]. rewrite Es. apply Forall_app. split; [eapply Forall_impl; [done|simpl; lia]|by constructor].
Qed.

Lemma plan_planned i L h st next created appended st' :
  tracks i L h st -> ps_NextSaveSeq st < maxUint64 -> SaveTail (chainOf st i) = Ok h ->
  fp_CompositeHash next ∉ trail (tc_Cursor (chainOf st i)) (tc_Transitions (chainOf st i)) ->
  planTransition i h next created appended st = Ok st' -> planned_for i L h next (ps_NextSaveSeq st') st'.
Proof.
  intros [(c & Hc & He & Hs) Hb Hl] Hlt Ht Hnew. unfold planTransition. rewrite (chainOf_lookup _ _ _ Hc) in *. intros [= <-].
  rewrite u64_small in * by (unfold maxUint64 in *; lia).
  destruct He as [He|(tr & Hp)]; [|by rewrite (saveTail_pending _ _ _ Hp) in Ht].
  destruct (AppendAt_pending h c (mkTransition h next (ps_NextSaveSeq st + 1) TransitionPlanned created) appended He eq_refl (or_introl eq_refl) Hnew)
    as ((trs & Et & Hlead & _ & _ & Hn) & k & Ek).
  destruct (AppendAt _ _ _) as [cur l]. cbn [tc_Cursor tc_Transitions] in *. subst l.
  apply app_inj_tail in Ek as [-> _]. exists cur, (drop k (tc_Transitions c)). eexists.
  split_and!; [simpl; by rewrite lookup_insert_eq|done|done| |done|done|done|done|done|simpl; lia|simpl; unfold maxUint64 in *; lia|done].
  simpl. apply Forall_drop. eapply Forall_impl; [done|]. simpl. lia.
Qed.

Lemma finish_tracks i L prev next seq h phase st st' :
  planned_for i L prev next seq st ->
  phase = TransitionApplied /\ h = next \/ phase = TransitionOutcomeUnknown /\ (h = prev \/ h = next) ->
  finishTransition i seq phase st = Ok st' -> tracks i L h st'.
Proof.
  intros (cur & trs & tr & Hc & Hl & Hn & Hs & <- & <- & <- & Hp & Es & Hb & Hlog) Hh. unfold finishTransition.
  rewrite (chainOf_lookup _ _ _ Hc). intros [= <-]. split; [|simpl; by rewrite Es|done].
  eexists. split_and!; [simpl; by rewrite lookup_insert_eq| |].
  - change (explained h (mkChain cur (markPhase (ct_SaveSeq tr) phase <$> (trs ++ [tr])))). apply finish_explained; try done.
    + eapply Forall_impl; [done|]. simpl. lia.
    + destruct Hh as [?|[-> ?]]; [by left|right]. split; [by right|done].
  - simpl. rewrite Es. apply Forall_fmap. apply Forall_app.
    assert (forall x, ct_SaveSeq (markPhase (ct_SaveSeq tr) phase x) = ct_SaveSeq x) as Hseq by (intros x; unfold markPhase; by destruct (_ =? _)).
    split; [eapply Forall_impl; [done|]|constructor; [|constructor]]; simpl; intros; rewrite Hseq; lia.
Qed.

(** Work on another instance leaves the chain of this one alone. *)
Lemma plan_other i j L h st tail next created appended st' :
  j <> i -> tracks i L h st -> ps_NextSaveSeq st < maxUint64 ->
  planTransition j tail next created appended st = Ok st' -> tracks i L h st'.
Proof.
  intros Hj [(c & Hc & He & Hs) Hb Hl] Hlt [= <-]. rewrite u64_small by (unfold maxUint64 in *; lia).
  split; [|simpl; unfold maxUint64 in *; lia|done]. exists c. simpl. rewrite lookup_insert_ne by done.
  split_and!; [done|done|]. eapply Forall_impl; [done|]. simpl. lia.
Qed.
Lemma finish_other i j L h seq phase st st' :
  j <> i -> tracks i L h st -> finishTransition j seq phase st = Ok st' -> tracks i L h st'.
Proof.
  intros Hj [(c & Hc & He & Hs) Hb Hl] [= <-]. split; [|done|done]. exists c. simpl. by rewrite lookup_insert_ne.
Qed.

Section runs.
Context `{MapRange} (Sum256 : string -> string).

Definition at_login (i : AuthInstanceID) (L : LoginEpoch) (st : PersistentState) : Prop :=
  forall a b, ps_Bindings st !! a = Some b -> rb_Instance b = i -> rb_Login b = L.

Lemma rebind_login i j L observed kind st a :
  j <> i \/ kind <> CredentialExternalLogin -> at_login i L st -> at_login i L (rebind j observed kind st a).
Proof.
  intros Hk Hl. unfold rebind. destruct (ps_Bindings st !! a) as [b|] eqn:E; [|done].
  destruct (Z.eqb_spec (rb_Instance b) j) as [Hj|Hj]; [|done]. cbn [negb]. destruct kind; try done.
  - intros x bx Hx Hi. cbn in Hx. apply lookup_insert_Some in Hx as [[<- <-]|[_ Hx]]; [|by eauto]. exact (Hl a b E Hi).
  - destruct Hk as [Hne|]; [|done]. intros x bx Hx Hi. cbn in Hx. apply lookup_insert_Some in Hx as [[<- <-]|[_ Hx]].
    + by rewrite <- Hi, <- Hj in Hne.
    + rewrite lookup_fmap in Hx. apply fmap_Some in Hx as (b0 & Hb0 & ->). exact (Hl x b0 Hb0 Hi).
Qed.

Lemma rebind_keeps j observed kind st a :
  ps_CredentialChains (rebind j observed kind st a) = ps_CredentialChains st
  /\ ps_NextSaveSeq (rebind j observed kind st a) = ps_NextSaveSeq st.
Proof. unfold rebind. destruct (_ !! a); [|done]. destruct (negb _); [done|]. by destruct kind. Qed.

Lemma rebind_all i j L observed kind ids st :
  j <> i \/ kind <> CredentialExternalLogin -> at_login i L st ->
  let st' := foldl (rebind j observed kind) st ids in
  at_login i L st' /\ ps_CredentialChains st' = ps_CredentialChains st /\ ps_NextSaveSeq st' = ps_NextSaveSeq st.
Proof.
  intros Hk. cbv zeta. revert st. induction ids as [|a ids IH]; intros st Hl; simpl; [done|].
  destruct (IH (rebind j observed kind st a)) as (H1 & H2 & H3); [by apply rebind_login|].
  destruct (rebind_keeps j observed kind st a) as [E1 E2]. rewrite H2, H3. done.
Qed.

(** The commit of a reconciliation of this instance, and of another. *)
Lemma commit_tracks i L h req kind st st' :
  tracks i L h st -> kind <> CredentialExternalLogin ->
  commitReconcile i req (mkChain h []) h kind st = Ok st' -> tracks i L h st'.
Proof.
  intros [_ Hb Hl] Hk. unfold commitReconcile. destruct (req && _); [done|]. intros <-%Ok_inj.
  set (st1 := st <| ps_CredentialChains := <[i := mkChain h []]> (ps_CredentialChains st) |>).
  destruct (rebind_all i i L h kind (map_range (ps_Bindings st1)).*1 st1) as (H1 & H2 & H3); [by right|done|].
  split; [|by rewrite H3|done]. exists (mkChain h []). rewrite H2. subst st1. simpl. rewrite lookup_insert_eq.
  split_and!; [done| |by constructor]. left. split; [done|apply NoDup_singleton].
Qed.
Lemma commit_other i j L h req nextChain observed kind st st' :
  j <> i -> tracks i L h st -> commitReconcile j req nextChain observed kind st = Ok st' -> tracks i L h st'.
Proof.
  intros Hj [(c & Hc & He & Hs) Hb Hl]. unfold commitReconcile. destruct (req && _); [done|]. intros <-%Ok_inj.
  set (st1 := st <| ps_CredentialChains := <[j := nextChain]> (ps_CredentialChains st) |>).
  destruct (rebind_all i j L observed kind (map_range (ps_Bindings st1)).*1 st1) as (H1 & H2 & H3); [by left|done|].
  split; [|by rewrite H3|done]. exists c. rewrite H2, H3. subst st1. simpl. by rewrite lookup_insert_ne.
Qed.

(** A run: saves with new credentials that fail or crash anywhere, reconciliations
    while the transitions are at most a day old, and restarts.  No one else writes
    the auth files, and the host's adapter never reports a rejection. *)
Inductive credential_step : credential_world -> credential_world -> Prop :=
  | step_save w i next token env m' host' r :
      se_host env <> SaveRejected -> ps_NextSaveSeq (sto_state (cm_store (w_manager w))) < maxUint64 ->
      (forall c, ps_CredentialChains (sto_state (cm_store (w_manager w))) !! i = Some c ->
         fp_CompositeHash (ha_Fingerprint next) ∉ trail (tc_Cursor c) (tc_Transitions c)) ->
      saveVersionedWithHost (w_manager w) (w_host w) i next token env = (m', host', r) ->
      credential_step w (mkWorld m' host')
  | step_reconcile w i req env m' r :
      Forall (recent (re_now env)) (tc_Transitions (chainOf (sto_state (cm_store (w_manager w))) i)) ->
      reconcile Sum256 (w_manager w) (w_host w) i req noHooks env = (m', r) ->
      credential_step w (mkWorld m' (w_host w))
  | step_restart w io io2 s report s' m' :
      Load (NewStateStore (sto_disk (cm_store (w_manager w)))) io = (s, Ok report) ->
      NewCredentialManager s io2 = (s', Ok m') -> credential_step w (mkWorld m' (w_host w)).

(** The host after its part of a save that was not rejected. *)
Lemma hostSave_cases host i auth next outcome host' err :
  outcome <> SaveRejected -> host !! i = Some auth -> hostSaveAuth host i next outcome = (host', err) ->
  (exists auth', host' !! i = Some auth' /\ (auth' = next \/ auth' = auth /\ err = Some ErrHost))
  /\ (forall k, k <> i -> host' !! k = host !! k) /\ (err = None \/ err = Some ErrHost).
Proof.
  intros Hr Ha. destruct outcome as [| |[]]; [|done|..]; cbn; intros [= <- <-].
  - split_and!; [exists next; rewrite lookup_insert_eq; auto|intros; by rewrite lookup_insert_ne|by left].
  - split_and!; [exists next; rewrite lookup_insert_eq; auto|intros; by rewrite lookup_insert_ne|by right].
  - split_and!; [exists auth; auto|done|by right].
Qed.

Lemma deliver_inv i L m host auth next seq env m' host' r :
  planned_for i L (ha_Fingerprint auth) (ha_Fingerprint next) seq (sto_state (cm_store m)) ->
  synced (cm_store m) (sto_state (cm_store m)) -> host !! i = Some auth -> se_host env <> SaveRejected ->
  deliverSave m host i next seq env = (m', host', r) -> world_inv i L (mkWorld m' host').
Proof.
  intros Hp Hs Ha Hr. unfold deliverSave.
  assert (forall host1 auth1, host1 !! i = Some auth1 -> auth1 = auth \/ auth1 = next -> world_inv i L (mkWorld m host1)) as Hmid.
  { intros host1 auth1 H1 H2. exists auth1. split; [done|]. eapply synced_keeps; [done|]. eapply planned_tracks; [done|].
    destruct H2 as [-> | ->]; auto. }
  destruct (se_crash env _); [intros [= <- <- <-]; eauto|]. destruct (se_crash env _); [intros [= <- <- <-]; eauto|].
  destruct (hostSaveAuth _ _ _ _) as [host1 err] eqn:Eh.
  destruct (hostSave_cases _ _ _ _ _ _ _ Hr Ha Eh) as ((auth1 & Ha1 & Hcase) & _ & Herr).
  assert (auth1 = auth \/ auth1 = next) as Hor by naive_solver.
  destruct (se_crash env _); [intros [= <- <- <-]; eauto|]. destruct (se_crash env _); [intros [= <- <- <-]; eauto|].
  destruct (se_crash env _); [intros [= <- <- <-]; eauto|].
  destruct (mutate _ _ _) as [m1 perr] eqn:Em. intros [= <- <- <-]. exists auth1. split; [done|]. cbn [w_manager].
  set (phase := match err with None => _ | Some _ => _ end) in Em.
  pose proof (mutate_keeps (tracks i L (ha_Fingerprint auth1)) m (finishTransition i seq phase) (se_finish env)) as Hk.
  rewrite Em in Hk. apply Hk; [|apply tracks_written|].
  - destruct (Hmid host1 auth1 Ha1 Hor) as (a & E & K). cbn [w_host] in E. by replace auth1 with a by congruence.
  - intros st2 E2. eapply finish_tracks; [done| |done].
    destruct Herr as [-> | ->]; [left; naive_solver|right; split; [done|]; destruct Hor as [-> | ->]; auto].
Qed.

Lemma deliver_other i L h m host j next seq env m' host' r :
  j <> i -> keeps (tracks i L h) (cm_store m) -> se_host env <> SaveRejected -> deliverSave m host j next seq env = (m', host', r) ->
  keeps (tracks i L h) (cm_store m') /\ host' !! i = host !! i.
Proof.
  intros Hj Hk Hr. unfold deliverSave. destruct (se_crash env _); [by intros [= <- <- <-]|]. destruct (se_crash env _); [by intros [= <- <- <-]|].
  destruct (hostSaveAuth _ _ _ _) as [host1 err] eqn:Eh.
  assert (host1 !! i = host !! i) as Eh1.
  { destruct (se_host env) as [| |[]]; [|done|..]; injection Eh as <- _; try done; by rewrite lookup_insert_ne. }
  destruct (se_crash env _); [by intros [= <- <- <-]|]. destruct (se_crash env _); [by intros [= <- <- <-]|].
  destruct (se_crash env _); [by intros [= <- <- <-]|].
  destruct (mutate _ _ _) as [m1 perr] eqn:Em. intros [= <- <- <-]. split; [|done].
  set (phase := match err with None => _ | Some _ => _ end) in Em.
  pose proof (mutate_keeps (tracks i L h) m (finishTransition j seq phase) (se_finish env) Hk (tracks_written i L h)) as Hk1.
  rewrite Em in Hk1. apply Hk1. intros st2 E2. eapply finish_other; [done|by apply Hk|done].
Qed.

Lemma save_inv i L w j next token env m' host' r :
  world_inv i L w -> se_host env <> SaveRejected -> ps_NextSaveSeq (sto_state (cm_store (w_manager w))) < maxUint64 ->
  (forall c, ps_CredentialChains (sto_state (cm_store (w_manager w))) !! j = Some c ->
     fp_CompositeHash (ha_Fingerprint next) ∉ trail (tc_Cursor c) (tc_Transitions c)) ->
  saveVersionedWithHost (w_manager w) (w_host w) j next token env = (m', host', r) -> world_inv i L (mkWorld m' host').
Proof.
  destruct w as [m host]. intros (auth & Ha & Hk) Hrej Hlt Hnew. cbn [w_manager w_host] in *.
  unfold saveVersionedWithHost. rewrite (snapshot_loaded _ _ _ Hk).
  assert (forall m1, cm_store m1 = cm_store m -> world_inv i L (mkWorld m1 host)) as Hsame by (intros m1 E; exists auth; cbn [w_manager w_host]; by rewrite E).
  destruct (negb (tok_Instance token =? j)); [intros [= <- <- <-]; by apply Hsame|].
  destruct (ps_CredentialChains (sto_state (cm_store m)) !! j) as [c|] eqn:Ec; [|intros [= <- <- <-]; by apply Hsame].
  specialize (Hnew c eq_refl). destruct (SaveTail c) as [tail|e] eqn:Et; [|intros [= <- <- <-]; by apply Hsame].
  destruct (se_crash env "K_CREDENTIAL_PLANNED_WRITE"); [intros [= <- <- <-]; by apply Hsame|].
  set (m0 := mkCredentials (cm_store m) (sto_state (cm_store m))). set (fn := planTransition j tail _ _ _).
  destruct (mutate m0 fn (se_plan env)) as [m1 err] eqn:Em. pose proof (kp_memory _ _ Hk) as Hmem.
  assert (forall st1, j = i -> fn (sto_state (cm_store m)) = Ok st1 ->
    planned_for i L (ha_Fingerprint auth) (ha_Fingerprint next) (ps_NextSaveSeq st1) st1) as Hplan.
  { intros st1 -> E1. assert (tail = ha_Fingerprint auth) as ->.
    { destruct (tk_chain _ _ _ _ Hmem) as (c' & Hc' & He & _). assert (c' = c) as -> by congruence.
      destruct He as [He|(tr & Hp)]; [apply saveTail_settled in He|apply saveTail_pending in Hp]; congruence. }
    eapply plan_planned; [done|done|by rewrite (chainOf_lookup _ _ _ Ec)|by rewrite (chainOf_lookup _ _ _ Ec)|done]. }
  assert (keeps (tracks i L (ha_Fingerprint auth)) (cm_store m1)) as Hk1.
  { pose proof (mutate_keeps _ m0 fn (se_plan env) Hk (tracks_written i L (ha_Fingerprint auth))) as Hk1. rewrite Em in Hk1.
    apply Hk1. intros st1 E1. destruct (decide (j = i)) as [Hj|Hj]; [eapply planned_tracks; [by apply Hplan|by left]|by eapply plan_other]. }
  destruct err as [e|]; [intros [= <- <- <-]; by exists auth|].
  destruct (mutate_success _ m0 _ _ _ Hk Em) as (st1 & E1 & Hs & Est). rewrite Est. intros Ed.
  destruct (decide (j = i)) as [-> |Hj].
  - eapply (deliver_inv i L m1 host auth next); [|by rewrite (sy_state _ _ Hs)|done|done|exact Ed].
    rewrite (sy_state _ _ Hs). specialize (Hplan st1 eq_refl E1). unfold written. by destruct (ps_FenceUnsafe _).
  - destruct (deliver_other _ _ _ _ _ _ _ _ _ _ _ _ Hj Hk1 Hrej Ed) as [Hk2 Eh]. exists auth. simpl. by rewrite Eh.
Qed.

Definition kindOf (report : CredentialRecoveryReport) : CredentialObservationKind :=
  match cr_Observation report with Some o => co_Kind o | None => CredentialSame end.

(** A reconciliation without hooks reports nothing, finds the observation
    ambiguous, or commits. *)
Lemma reconcile_cases Q m host j req env m' r :
  keeps Q (cm_store m) -> reconcile Sum256 m host j req noHooks env = (m', r) ->
  cm_store m' = cm_store m /\ r.1 = noReport
  \/ exists c cur nextChain, ps_CredentialChains (sto_state (cm_store m)) !! j = Some c /\ host !! j = Some cur
      /\ reconcileCredentialObservation c (ha_Fingerprint cur) (re_now env) = (nextChain, r.1)
      /\ (cm_store m' = cm_store m
          \/ exists m1, cm_store m1 = cm_store m
              /\ m' = (mutate m1 (commitReconcile j req nextChain (ha_Fingerprint cur) (kindOf r.1)) (re_commit env)).1).
Proof.
  intros Hk. unfold reconcile. rewrite (snapshot_loaded _ _ _ Hk).
  destruct (ps_CredentialChains (sto_state (cm_store m)) !! j) as [c|] eqn:Ec; [|intros [= <- <-]; by left].
  destruct (negb (ValidHashes Sum256 (tc_Cursor c))); [intros [= <- <-]; by left|].
  destruct (req && _); [intros [= <- <-]; by left|].
  destruct (if re_get env then None else host !! j) as [cur|] eqn:Eg; [|intros [= <- <-]; by left].
  destruct (reconcileCredentialObservation c _ _) as [nextChain report] eqn:Er. intros Hrun. right. exists c, cur, nextChain.
  split_and!; [done|by destruct (re_get env)|..].
  - rewrite Er. f_equal. destruct (cr_Ambiguous report); [by injection Hrun as _ <-|].
    cbn [hk_BeforeCommit hk_AfterCommit noHooks] in Hrun. destruct (mutate _ _ _) as [m1 [e|]]; by injection Hrun as _ <-.
  - destruct (cr_Ambiguous report); [injection Hrun as <- _; by left|].
    cbn [hk_BeforeCommit hk_AfterCommit noHooks] in Hrun. right.
    match type of Hrun with context [mutate ?m0 _ _] => exists m0 end. split; [done|].
    destruct (mutate _ _ _) as [m1 err] eqn:Em in Hrun. destruct err; injection Hrun as <- <-; unfold kindOf; cbn [fst]; by rewrite Em.
Qed.

Lemma recon_inv i L w j req env m' r :
  world_inv i L w -> Forall (recent (re_now env)) (tc_Transitions (chainOf (sto_state (cm_store (w_manager w))) j)) ->
  reconcile Sum256 (w_manager w) (w_host w) j req noHooks env = (m', r) ->
  world_inv i L (mkWorld m' (w_host w))
  /\ (j = i -> cr_Ambiguous r.1 = false /\ (kindOf r.1 = CredentialSame \/ kindOf r.1 = CredentialOwnedRotation)).
Proof.
  destruct w as [m host]. intros (auth & Ha & Hk) Hrec Hrun. cbn [w_manager w_host] in *.
  assert (cm_store m' = cm_store m -> world_inv i L (mkWorld m' host)) as Hsame by (intros E; exists auth; cbn [w_manager w_host]; by rewrite E).
  destruct (reconcile_cases _ _ _ _ _ _ _ _ Hk Hrun) as [[E ->]|(c & cur & nextChain & Hc & Hcur & Hobs & Hm)].
  { split; [by apply Hsame|]. intros _. split; [done|by left]. }
  rewrite (chainOf_lookup _ _ _ Hc) in Hrec. pose proof (kp_memory _ _ Hk) as Hmem.
  assert (j = i -> nextChain = mkChain (ha_Fingerprint cur) [] /\ cur = auth /\ cr_Ambiguous r.1 = false
    /\ (kindOf r.1 = CredentialSame \/ kindOf r.1 = CredentialOwnedRotation)) as Hown.
  { intros ->. destruct (tk_chain _ _ _ _ Hmem) as (c' & Hc' & He & _). assert (c' = c) as -> by congruence. assert (cur = auth) as -> by congruence.
    destruct (reconcile_explained _ _ _ He Hrec) as (phase & o & E & Hkind). rewrite E in Hobs. injection Hobs as <- Er. by rewrite <- Er. }
  split; [|intros Hj; by apply Hown]. destruct Hm as [E|(m1 & Em1 & ->)]; [by apply Hsame|].
  exists auth. split; [done|]. cbn [w_manager]. rewrite <- Em1 in Hk, Hmem. apply mutate_keeps; [done|apply tracks_written|].
  intros st' E. destruct (decide (j = i)) as [Hj|Hj]; [|by eapply commit_other].
  destruct (Hown Hj) as (-> & -> & _ & Hkind). subst j. eapply commit_tracks; [done| |done]. by destruct Hkind as [-> | ->].
Qed.

Lemma credential_step_inv i L w w' : credential_step w w' -> world_inv i L w -> world_inv i L w'.
Proof.
  intros Hstep Hw. destruct Hstep as [w j next token env m' host' r Hr Hlt Hnew E|w j req env m' r Hrec E|w io io2 s report s' m' El En].
  - by eapply save_inv.
  - by apply (recon_inv i L w j req env m' r).
  - destruct Hw as (auth & Ha & Hk). pose proof (restart_keeps _ _ _ _ _ Hk El) as Hk'. exists auth. split; [done|].
    unfold NewCredentialManager in En. rewrite (snapshot_loaded _ _ _ Hk') in En. by injection En as <- <-.
Qed.

End runs.

(** ** The plan precedes the save *)

Lemma AppendAt_last c t now : last (tc_Transitions (AppendAt c t now)) = Some t.
Proof.
  unfold AppendAt. destruct (prune_settled _ _ _) as [cur trs]. destruct (Nat.ltb_spec 11 (length (trs ++ [t]))); cbn [tc_Transitions]; [|apply last_snoc].
  rewrite length_app in *. simpl in *. rewrite drop_app_le by lia. apply last_snoc.
Qed.

(** The durable record of a save: a transition with its number. *)
Definition recorded (i : AuthInstanceID) (prev next : CredentialFingerprint) (seq : Z) (st : PersistentState) : Prop :=
  exists c tr, ps_CredentialChains st !! i = Some c /\ tr ∈ tc_Transitions c
    /\ ct_Prev tr = prev /\ ct_Next tr = next /\ ct_SaveSeq tr = seq.

Lemma recorded_written i prev next seq old st : recorded i prev next seq st -> recorded i prev next seq (written old st).
Proof. unfold recorded, written. by destruct (ps_FenceUnsafe old). Qed.

Lemma recorded_finish i prev next seq phase st st' :
  recorded i prev next seq st -> finishTransition i seq phase st = Ok st' -> recorded i prev next seq st'.
Proof.
  intros (c & tr & Hc & Htr & <- & <- & <-). unfold finishTransition. rewrite (chainOf_lookup _ _ _ Hc). intros [= <-].
  eexists _, (markPhase (ct_SaveSeq tr) phase tr). simpl. rewrite lookup_insert_eq. split; [done|]. simpl.
  split; [by apply list_elem_of_fmap_2|]. unfold markPhase. by destruct (_ =? _).
Qed.

Lemma deliver_recorded i prev m host next seq env m' host' res err :
  keeps (recorded i prev (ha_Fingerprint next) seq) (cm_store m) ->
  deliverSave m host i next seq env = (m', host', (res, err)) ->
  keeps (recorded i prev (ha_Fingerprint next) seq) (cm_store m') /\ sr_SaveSeq res = seq.
Proof.
  intros Hk. unfold deliverSave. do 2 (destruct (se_crash env _); [by intros [= <- <- <- <-]|]).
  destruct (hostSaveAuth _ _ _ _) as [host1 herr]. do 3 (destruct (se_crash env _); [by intros [= <- <- <- <-]|]).
  set (phase := match herr with None => _ | Some _ => _ end).
  pose proof (mutate_keeps _ m (finishTransition i seq phase) (se_finish env) Hk (recorded_written _ _ _ _)) as Hm.
  destruct (mutate _ _ _) as [m1 perr]. intros [= <- <- <- <-]. split; [|done]. apply Hm. intros st1. apply recorded_finish, Hk.
Qed.

(** C12: The host is asked to save a credential only under a valid plan: if a save
    changes the auth file of its instance, then its token names the instance, no
    earlier transition was open, and the main state file records the transition
    from the tail of the chain to the new credential under the number the save
    reports, however the save ended. *)
Theorem host_saved_only_after_plan (m m' : CredentialManager) (host host' : gmap AuthInstanceID HostAuth) (i : AuthInstanceID)
    (next : HostAuth) (token : ExecutionToken) (env : save_env) (res : CredentialSaveResult) (err : option credential_error) :
  keeps (fun _ => True) (cm_store m) ->
  saveVersionedWithHost m host i next token env = (m', host', (res, err)) -> host' !! i <> host !! i ->
  tok_Instance token = i
  /\ exists c prev d, ps_CredentialChains (sto_state (cm_store m)) !! i = Some c /\ SaveTail c = Ok prev
     /\ d_primary (sto_disk (cm_store m')) = FileState d /\ recorded i prev (ha_Fingerprint next) (sr_SaveSeq res) d.
Proof.
  intros Hk. unfold saveVersionedWithHost. rewrite (snapshot_loaded _ _ _ Hk).
  destruct (Z.eqb_spec (tok_Instance token) i) as [Hi|]; cbn [negb]; [|by intros [= <- <- <- <-]].
  destruct (ps_CredentialChains (sto_state (cm_store m)) !! i) as [c|] eqn:Ec; [|by intros [= <- <- <- <-]].
  destruct (SaveTail c) as [prev|e] eqn:Et; [|by intros [= <- <- <- <-]].
  destruct (se_crash env _); [by intros [= <- <- <- <-]|].
  set (m0 := mkCredentials (cm_store m) (sto_state (cm_store m))). set (fn := planTransition i prev _ _ _).
  destruct (mutate m0 fn (se_plan env)) as [m1 [e|]] eqn:Em; [by intros [= <- <- <- <-]|].
  destruct (mutate_success _ m0 _ _ _ Hk Em) as (st1 & E1 & Hs & Est). rewrite Est. intros Hd _. split; [done|].
  assert (recorded i prev (ha_Fingerprint next) (ps_NextSaveSeq st1) st1) as Hrec.
  { injection E1 as <-. rewrite (chainOf_lookup _ _ _ Ec). eexists _, _. simpl. rewrite lookup_insert_eq.
    split_and!; [done|eapply last_Some_elem_of, AppendAt_last|done|done|done]. }
  assert (keeps (recorded i prev (ha_Fingerprint next) (ps_NextSaveSeq (written (sto_state (cm_store m0)) st1))) (cm_store m1)) as Hk1.
  { eapply synced_keeps; [done|]. apply recorded_written. unfold written. by destruct (ps_FenceUnsafe _). }
  destruct (deliver_recorded _ _ _ _ _ _ _ _ _ _ _ Hk1 Hd) as [Hk2 Eseq]. rewrite Eseq.
  destruct (kp_disk _ _ Hk2) as (d & Hdisk & _ & Hr). by exists c, prev, d.
Qed.

(** ** Examples *)

Definition example_hash : string -> string := fun x => x.
Definition example_credential (n : string) : CredentialFingerprint := NewCredentialFingerprint example_hash (fun _ => None) "s" n "m".
Definition example_auth (n : string) : HostAuth := mkHostAuth "auth.json" "{}" (example_credential n).
Definition example_binding : RuntimeBinding := mkBinding "a" "1" "auth.json" 7 1 1 1 1 (example_credential "r1") false.
Definition example_persisted : PersistentState :=
  NewPersistentState <| ps_CredentialChains := {[7 := mkChain (example_credential "r1") []]} |> <| ps_Bindings := {["a" := example_binding]} |>.
Definition example_loaded : StateStore := mkStore (mkDisk (FileState example_persisted) FileAbsent FileAbsent FileAbsent) false true example_persisted.
Definition example_world : credential_world := mkWorld (mkCredentials example_loaded example_persisted) {[7 := example_auth "r1"]}.

(** A save that reaches the host and then crashes. *)
Definition example_env : save_env :=
  mkSaveEnv (1 * Hour) (1 * Hour) (fun point => String.eqb point "K_CREDENTIAL_BEFORE_TERMINAL") SaveAccepted io_fine store_fine store_fine.
Definition example_crashed : CredentialManager * gmap AuthInstanceID HostAuth * (CredentialSaveResult * option credential_error) :=
  saveVersionedWithHost (w_manager example_world) (w_host example_world) 7 (example_auth "r2") (mkToken 7 1 1 1) example_env.
Definition example_after : credential_world := mkWorld example_crashed.1.1 example_crashed.1.2.
Definition example_reconcile : reconcile_env := mkReconcileEnv (2 * Hour) false io_fine store_fine store_fine.

Lemma triple_eta {A B C} (x : A * B * C) : x = (x.1.1, x.1.2, x.2).
Proof. by destruct x as [[??]?]. Qed.
Lemma example_synced : synced (cm_store (w_manager example_world)) (cm_state (w_manager example_world)).
Proof. by split. Qed.


Lemma host_saved_only_after_plan_witness :
  exists c prev d, ps_CredentialChains example_persisted !! 7 = Some c /\ SaveTail c = Ok prev
    /\ d_primary (sto_disk (cm_store example_crashed.1.1)) = FileState d
    /\ recorded 7 prev (example_credential "r2") (sr_SaveSeq example_crashed.2.1) d.
Proof.
  refine (proj2 (host_saved_only_after_plan (w_manager example_world) example_crashed.1.1 (w_host example_world) example_crashed.1.2 7
    (example_auth "r2") (mkToken 7 1 1 1) example_env example_crashed.2.1 example_crashed.2.2 _ _ _)).
  - split; [reflexivity|reflexivity|exact I|exists example_persisted; repeat split; reflexivity].
  - rewrite <- surjective_pairing. exact (triple_eta example_crashed).
  - vm_compute. discriminate.
Defined.

(** ** Credentials that are not recognised *)

(** A rotation hides behind an expired one: two rotations ten hours apart, with no
    observation between them, are both the plugin's own, but an observation
    twenty-five hours after the first stops at the expired transition and reports
    the second as an external login. *)
Theorem expired_rotation_hides_newer :
  let chain := mkChain (example_credential "r1")
    [mkTransition (example_credential "r1") (example_credential "r2") 1 TransitionApplied (1 * Hour);
     mkTransition (example_credential "r2") (example_credential "r3") 2 TransitionApplied (11 * Hour)] in
  Tail chain = example_credential "r3"
  /\ kindOf (reconcileCredentialObservation chain (example_credential "r3") (26 * Hour)).2 = CredentialExternalLogin
  /\ kindOf (reconcileCredentialObservation chain (example_credential "r3") (24 * Hour)).2 = CredentialOwnedRotation.
Proof. vm_compute. repeat split; reflexivity. Qed.

(** A rejected save blocks the operator: after it, a save whose outcome stays
    unknown leaves a chain that refuses further saves as unresolved, while the
    check that admits an operator's decision says that nothing is unresolved. *)
Theorem aborted_save_blocks_resolution :
  let chain := mkChain (example_credential "r1")
    [mkTransition (example_credential "r1") (example_credential "r2") 1 TransitionAborted (1 * Hour);
     mkTransition (example_credential "r1") (example_credential "r3") 2 TransitionOutcomeUnknown (2 * Hour)] in
  SaveTail chain = Err ErrCredentialUnresolved /\ credentialChainUnresolved chain = false
  /\ cr_Ambiguous (reconcileCredentialObservation chain (example_credential "r9") (3 * Hour)).2 = true.
Proof. vm_compute. repeat split; reflexivity. Qed.

(** The rollback of a reconciliation does not restore the chain: the open
    transition was settled in place before the copy for the rollback was taken, so
    after a failed publication the state still has it settled, and a later save is
    no longer refused. *)
Definition example_open : PersistentState :=
  example_persisted <| ps_CredentialChains := {[7 := mkChain (example_credential "r1")
    [mkTransition (example_credential "r1") (example_credential "r2") 1 TransitionOutcomeUnknown (1 * Hour)]]} |>.
Theorem rollback_keeps_settled_phase :
  let m := mkCredentials (mkStore (mkDisk (FileState example_open) FileAbsent FileAbsent FileAbsent) false true example_open) example_open in
  let hooks := mkHooks None (Some (fun _ _ s => (s, Some "publication failed"))) in
  let r := reconcile example_hash m {[7 := example_auth "r1"]} 7 false hooks example_reconcile in
  r.2.2 = Some (ErrHook "publication failed")
  /\ SaveTail (chainOf example_open 7) = Err ErrCredentialUnresolved
  /\ SaveTail (chainOf (sto_state (cm_store r.1)) 7) = Ok (example_credential "r1")
  /\ ct_Phase <$> tc_Transitions (chainOf (sto_state (cm_store r.1)) 7) = [TransitionAborted].
Proof. vm_compute. repeat split; reflexivity. Qed.
