(* ===== verification/Bindings.v ===== *)
(** * The binding registry (binding_registry.go)

    A binding ties an account of the host's roster to an auth instance, with the
    epochs that date the work on it.  The registry keeps a mirror of the durable
    bindings; reconciling a roster creates, renews and removes bindings. *)

From S2P Require Import Prelude GoStrings Float64 Config Models Capability Identity Probe ProbeWindow StateStore CredentialWAL.
#[local] Open Scope string_scope.
#[local] Open Scope list_scope.
#[local] Open Scope Z_scope.
#[local] Open Scope go_scope.

(** [legacyAuthInstanceID] of auth_transaction.go: the 64-bit FNV-1a hash of the
    identifier, with zero replaced by one. *)
Fixpoint fnv64a (h : Z) (s : string) : Z :=
  match s with
  | EmptyString => h
  | String c s => fnv64a (u64 (Z.lxor h (Z.of_N (Ascii.N_of_ascii c)) * 1099511628211)) s
  end.
Definition legacyAuthInstanceID (authID : string) : AuthInstanceID :=
  let v := fnv64a 14695981039346656037 authID in if v =? 0 then 1 else v.

Inductive binding_error := ErrCapabilityB | ErrBindingNotRosterConfirmed | ErrBindingStore (e : store_error) | ErrBindingHost.

Record BindingRegistry := mkRegistry { br_store : StateStore; br_bindings : gmap string RuntimeBinding }.
#[export] Instance BindingRegistry_eta : Eta BindingRegistry := fun r => mkRegistry (br_store r) (br_bindings r).

Record RosterReconcileResult := mkReconciled {
  rec_Bindings : gmap string RuntimeBinding;
  rec_Removed : list RuntimeBinding;
  rec_Generation : TierGeneration;
}.

Definition ExecutionToken_of (b : RuntimeBinding) (fence : Z) : ExecutionToken :=
  mkToken (rb_Instance b) (rb_Admission b) (rb_Generation b) fence.
Definition versionOf (b : RuntimeBinding) : BindingVersion :=
  mkBindingVersion (rb_Instance b) (rb_Admission b) (rb_Generation b) (rb_Login b) (rb_Fingerprint b).

Definition NewBindingRegistry (store : StateStore) (io : load_io) : StateStore * result binding_error BindingRegistry :=
  let '(s, r) := Load store io in
  match r with
  | Err e => (s, Err (ErrBindingStore e))
  | Ok (st, _) => (s, Ok (mkRegistry s (ps_Bindings st)))
  end.

Definition Lookup (r : BindingRegistry) (authID : string) : option RuntimeBinding := br_bindings r !! authID.

(** Is a result of work under [write] still current? *)
Definition ApplyIfCurrent (r : BindingRegistry) (authID : string) (write : WritebackVersion) : bool :=
  match br_bindings r !! authID with
  | None => false
  | Some b => ValidateWriteback (versionOf b) write
  end.

(** A mirrored update; the registry's copy follows a success. *)
Definition commitBindings (r : BindingRegistry) (fn : PersistentState -> PersistentState) (io : store_io)
  : BindingRegistry * option binding_error :=
  match UpdateMirrored (br_store r) (fun st => Ok (fn st)) (su_load io) (su_backup io) (su_primary io) with
  | (s, Ok committed) => (mkRegistry s (ps_Bindings committed), None)
  | (s, Err e) => (r <| br_store := s |>, Some (ErrBindingStore e))
  end.

Definition zeroBinding : RuntimeBinding := mkBinding "" "" "" 0 0 0 0 0 zeroFingerprint false.

Definition MarkAuthBlocked (r : BindingRegistry) (authID : string) (io : store_io) : BindingRegistry * option binding_error :=
  let b := (default zeroBinding (br_bindings r !! authID)) <| rb_AuthID := authID |> <| rb_AuthBlocked := true |> in
  commitBindings r (fun st => st <| ps_Bindings := <[authID := b]> (ps_Bindings st) |>) io.

Definition ObserveExternalLogin (r : BindingRegistry) (authID : string) (login : LoginEpoch) (fingerprint : CredentialFingerprint)
    (io : store_io) : BindingRegistry * option binding_error :=
  match br_bindings r !! authID with
  | None => (r, Some ErrBindingNotRosterConfirmed)
  | Some b =>
      if login <=? rb_Login b then (r, None)
      else
        let b := b <| rb_Login := login |> <| rb_Fingerprint := fingerprint |> <| rb_AuthBlocked := false |> in
        commitBindings r (fun st => st <| ps_Bindings := <[authID := b]> (ps_Bindings st) |>) io
  end.

(** ** Reconciling a roster *)

Definition prioritised (e : RosterEntry) : bool :=
  negb (String.eqb (re_ID e) "") && String.eqb (re_Provider e) "codex" && bool_decide (re_Priority e <> None).

(** The identifiers of all tiers, each once, in the order of their first entry. *)
Fixpoint tier_ids (seen : gset string) (entries : list RosterEntry) : list string :=
  match entries with
  | [] => []
  | e :: entries =>
      if negb (prioritised e) || bool_decide (re_ID e ∈ seen) then tier_ids seen entries
      else re_ID e :: tier_ids ({[re_ID e]} ∪ seen) entries
  end.

Definition rosterIDs (entries : list RosterEntry) (allTiers : bool) : option (list string) :=
  if allTiers then
    match tier_ids ∅ entries with [] => None | ids => Some (sortStrings ids) end
  else
    let '(_, ids, ok) := HighestCodexTier entries in if ok then Some ids else None.

(** The last entry of each identifier. *)
Definition entriesByID (entries : list RosterEntry) (ids : list string) : gmap string RosterEntry :=
  foldl (fun m e => if bool_decide (re_ID e ∈ ids) then <[re_ID e := e]> m else m) ∅ entries.

Definition zeroEntry : RosterEntry := mkEntry "" "" "" None.
Definition entryOf (m : gmap string RosterEntry) (id : string) : RosterEntry := default zeroEntry (m !! id).

Definition epochOf (m : gmap AuthInstanceID InstanceAdmissionEpoch) (i : AuthInstanceID) : InstanceAdmissionEpoch := default 0 (m !! i).
Definition raiseEpoch (m : gmap AuthInstanceID InstanceAdmissionEpoch) (ie : AuthInstanceID * InstanceAdmissionEpoch)
  : gmap AuthInstanceID InstanceAdmissionEpoch :=
  if epochOf m ie.1 <? ie.2 then <[ie.1 := ie.2]> m else m.

Definition rosterChangedFor (bindings : gmap string RuntimeBinding) (entries : gmap string RosterEntry) (ids : list string) : bool :=
  negb (Nat.eqb (size bindings) (length ids))
  || existsb (fun id => match bindings !! id with
                        | None => true
                        | Some b => negb (String.eqb (rb_AuthIndex b) (re_AuthIndex (entryOf entries id)))
                        end) ids.

Definition nextGeneration (incoming current : TierGeneration) (rosterChanged : bool) : TierGeneration :=
  if current =? 0 then if incoming =? 0 then 1 else incoming
  else if rosterChanged then if current <? incoming then incoming else u64 (current + 1)
  else if current <? incoming then incoming else current.

(** The variables of the loop over the identifiers. *)
Record reconcile_acc := mkAcc {
  ac_epochs : gmap AuthInstanceID InstanceAdmissionEpoch;
  ac_next : gmap string RuntimeBinding;
  ac_chains : gmap AuthInstanceID TransitionChain;
}.

Section reconciling.
Context `{MapRange}.

(** What the durable bindings add to the durable epochs and generation. *)
Definition durableMarks (st : PersistentState) : gmap AuthInstanceID InstanceAdmissionEpoch * TierGeneration :=
  foldl (fun '(epochs, tier) '(_, b) =>
           (raiseEpoch epochs (rb_Instance b, rb_Admission b), if tier <? rb_Generation b then rb_Generation b else tier))
    (ps_AdmissionEpochs st, ps_TierGeneration st) (map_range (ps_Bindings st)).

Definition reconcileOne (bindings : gmap string RuntimeBinding) (chainSeen : AuthInstanceID -> bool) (entries : gmap string RosterEntry)
    (generation : TierGeneration) (host : AuthInstanceID -> option HostAuth) (acc : reconcile_acc) (id : string)
  : result binding_error reconcile_acc :=
  let entry := entryOf entries id in
  let fresh :=
    let instance := legacyAuthInstanceID id in
    match host instance with
    | None => Err ErrBindingHost
    | Some observed =>
        let blocked := match bindings !! id with Some b => rb_AuthBlocked b | None => false end in
        let admission := epochOf (ac_epochs acc) instance in
        let admission := if admission =? 0 then if chainSeen instance then 2 else 1 else u64 (admission + 1) in
        let b := mkBinding id (re_AuthIndex entry) (ha_Name observed) instance admission generation 1 1 (ha_Fingerprint observed) blocked in
        Ok (mkAcc (<[instance := admission]> (ac_epochs acc)) (<[id := b]> (ac_next acc))
                  (<[instance := mkChain (ha_Fingerprint observed) []]> (ac_chains acc)))
    end in
  match bindings !! id with
  | Some existing =>
      if rb_Instance existing =? 0 then fresh
      else if String.eqb (rb_AuthIndex existing) (re_AuthIndex entry)
      then Ok (mkAcc (ac_epochs acc) (<[id := existing <| rb_AuthIndex := re_AuthIndex entry |> <| rb_Generation := generation |>]> (ac_next acc))
                     (ac_chains acc))
      else
        match host (rb_Instance existing) with
        | None => Err ErrBindingHost
        | Some observed =>
            let admission := epochOf (ac_epochs acc) (rb_Instance existing) in
            let admission := if admission <? rb_Admission existing then rb_Admission existing else admission in
            let admission := u64 (admission + 1) in
            let b := existing <| rb_Admission := admission |> <| rb_AuthName := ha_Name observed |>
                       <| rb_Fingerprint := ha_Fingerprint observed |> <| rb_AuthIndex := re_AuthIndex entry |>
                       <| rb_Generation := generation |> in
            Ok (mkAcc (<[rb_Instance existing := admission]> (ac_epochs acc)) (<[id := b]> (ac_next acc))
                      (<[rb_Instance existing := mkChain (ha_Fingerprint observed) []]> (ac_chains acc)))
        end
  | None => fresh
  end.

Fixpoint reconcileAll (step : reconcile_acc -> string -> result binding_error reconcile_acc) (acc : reconcile_acc) (ids : list string)
  : result binding_error reconcile_acc :=
  match ids with
  | [] => Ok acc
  | id :: ids => let! acc := step acc id in reconcileAll step acc ids
  end.

Definition commitRoster (generation : TierGeneration) (acc : reconcile_acc) (st : PersistentState) : PersistentState :=
  st <| ps_TierGeneration := generation |>
     <| ps_AdmissionEpochs := foldl raiseEpoch (ps_AdmissionEpochs st) (map_range (ac_epochs acc)) |>
     <| ps_Bindings := ac_next acc |>
     <| ps_CredentialChains := ac_chains acc ∪ ps_CredentialChains st |>.

Definition reconcileRosterEntries (r : BindingRegistry) (roster : HostRosterSnapshot) (host : AuthInstanceID -> option HostAuth)
    (allTiers : bool) (snapshot : load_io) (io : store_io) : BindingRegistry * result binding_error RosterReconcileResult :=
  if negb (bool_decide (hr_Capability roster = CapabilityA)) then (r, Err ErrCapabilityB)
  else
    match rosterIDs (hr_Entries roster) allTiers with
    | None => (r, Err ErrBindingNotRosterConfirmed)
    | Some ids =>
        let entries := entriesByID (hr_Entries roster) ids in
        let '(s, durable) := PersistentSnapshot (br_store r) snapshot in
        let r := r <| br_store := s |> in
        match durable with
        | Err e => (r, Err (ErrBindingStore e))
        | Ok durable =>
            let '(epochs, tier) := durableMarks durable in
            let generation := nextGeneration (hr_Generation roster) tier (rosterChangedFor (br_bindings r) entries ids) in
            let chainSeen i := bool_decide (is_Some (ps_CredentialChains durable !! i)) in
            match reconcileAll (reconcileOne (br_bindings r) chainSeen entries generation host) (mkAcc epochs ∅ ∅) ids with
            | Err e => (r, Err e)
            | Ok acc =>
                let removed := filter (fun b => rb_Instance b <> 0)
                                 ((filter (fun kb => ac_next acc !! kb.1 = None) (map_range (br_bindings r))).*2) in
                match commitBindings r (commitRoster generation acc) io with
                | (r, Some e) => (r, Err e)
                | (r, None) => (r, Ok (mkReconciled (br_bindings r) removed generation))
                end
            end
        end
    end.
Definition ReconcileRoster r roster host := reconcileRosterEntries r roster host false.
Definition ReconcileRosterTiers r roster host := reconcileRosterEntries r roster host true.
End reconciling.

(** The binding of one account is created from a confirmed roster entry. *)
Definition ObserveAuthoritative (r : BindingRegistry) (roster : HostRosterSnapshot) (authID : string)
    (host : AuthInstanceID -> option HostAuth) (io : store_io)
  : BindingRegistry * result binding_error (RuntimeBinding * bool) :=
  if negb (bool_decide (hr_Capability roster = CapabilityA)) then (r, Err ErrCapabilityB)
  else
    match find (fun e => String.eqb (re_ID e) authID) (hr_Entries roster) with
    | None => (r, Err ErrBindingNotRosterConfirmed)
    | Some entry =>
        if String.eqb (re_AuthIndex entry) "" then (r, Err ErrBindingNotRosterConfirmed)
        else
          let create :=
            let instance := legacyAuthInstanceID authID in
            match host instance with
            | None => (r, Err ErrBindingHost)
            | Some observed =>
                let blocked := match br_bindings r !! authID with Some b => rb_AuthBlocked b | None => false end in
                let b := mkBinding authID (re_AuthIndex entry) (ha_Name observed) instance 1 1 1 1 (ha_Fingerprint observed) blocked in
                let fn st := Ok (st <| ps_Bindings := <[authID := b]> (ps_Bindings st) |>
                                    <| ps_CredentialChains := match ps_CredentialChains st !! instance with
                                                              | Some _ => ps_CredentialChains st
                                                              | None => <[instance := mkChain (ha_Fingerprint observed) []]> (ps_CredentialChains st)
                                                              end |>) in
                match Update (br_store r) fn (su_load io) (su_backup io) (su_primary io) with
                | (s, Err e) => (r <| br_store := s |>, Err (ErrBindingStore e))
                | (s, Ok committed) => (mkRegistry s (ps_Bindings committed), Ok (b, true))
                end
            end in
          match br_bindings r !! authID with
          | Some existing => if rb_Instance existing =? 0 then create else (r, Ok (existing, false))
          | None => create
          end
    end.

(** ** Epochs *)

Lemma epochOf_raise m i x j : epochOf (raiseEpoch m (i, x)) j = if decide (i = j) then Z.max (epochOf m j) x else epochOf m j.
Proof.
  unfold raiseEpoch. cbn [fst snd]. destruct (Z.ltb_spec (epochOf m i) x); unfold epochOf in *; destruct (decide (i = j)) as [-> |Hij].
  - rewrite lookup_insert_eq. simpl. lia.
  - by rewrite lookup_insert_ne.
  - lia.
  - done.
Qed.

Lemma epochOf_insert m i x j : epochOf (<[i := x]> m) j = if decide (i = j) then x else epochOf m j.
Proof. unfold epochOf. destruct (decide (i = j)) as [-> |Hij]; [by rewrite lookup_insert_eq|by rewrite lookup_insert_ne]. Qed.

(** A number is reached by the raised epochs when it was reached before or one
    of the raises reaches it. *)
Lemma epochOf_raise_all l m j h :
  h <= epochOf (foldl raiseEpoch m l) j <-> h <= epochOf m j \/ exists x, (j, x) ∈ l /\ h <= x.
Proof.
  revert m. induction l as [|[i x] l IH]; intros m; cbn [foldl].
  - split; [by left|]. intros [|(x & ?%not_elem_of_nil & _)]; done.
  - rewrite IH, epochOf_raise. setoid_rewrite elem_of_cons. destruct (decide (i = j)) as [-> |Hij].
    + split.
      * intros [Hm|(y & Hy & Hh)]; [destruct (Z.le_gt_cases h x); [right; eauto|left; lia]|eauto].
      * intros [Hm|(y & [[= ->]|Hy] & Hh)]; [left; lia|left; lia|eauto].
    + split; [naive_solver|]. intros [Hm|(y & [[= ? ->]|Hy] & Hh)]; [by left|done|eauto].
Qed.

Section marks.
Context `{MapRange}.

Lemma marks_fold l e t :
  foldl (fun '(epochs, tier) '(_, b) =>
           (raiseEpoch epochs (rb_Instance b, rb_Admission b), if tier <? rb_Generation b then rb_Generation b else tier)) (e, t) l
  = (foldl raiseEpoch e ((fun kb : string * RuntimeBinding => (rb_Instance kb.2, rb_Admission kb.2)) <$> l),
     foldl Z.max t ((fun kb : string * RuntimeBinding => rb_Generation kb.2) <$> l)).
Proof.
  revert e t. induction l as [|[k b] l IH]; intros e t; [done|]. rewrite !fmap_cons. cbn [foldl snd]. rewrite IH. do 2 f_equal.
  destruct (Z.ltb_spec t (rb_Generation b)); lia.
Qed.

(** The high-water mark of an instance. *)
Definition mark (st : PersistentState) (i : AuthInstanceID) : Z := epochOf (durableMarks st).1 i.

Lemma mark_ge st i h :
  h <= mark st i <-> h <= epochOf (ps_AdmissionEpochs st) i
    \/ exists a b, ps_Bindings st !! a = Some b /\ rb_Instance b = i /\ h <= rb_Admission b.
Proof.
  unfold mark, durableMarks. rewrite marks_fold. cbn [fst]. rewrite epochOf_raise_all. apply or_iff_compat_l. split.
  - intros (x & ([a b] & [= -> ->] & Hin)%list_elem_of_fmap & Hh). exists a, b. by rewrite <- elem_of_map_range.
  - intros (a & b & Hb & <- & Hh). exists (rb_Admission b). split; [|done]. apply list_elem_of_fmap. exists (a, b).
    split; [done|]. by apply elem_of_map_range.
Qed.
Lemma mark_binding st a b : ps_Bindings st !! a = Some b -> rb_Admission b <= mark st (rb_Instance b).
Proof. intros Hb. apply mark_ge. right. by exists a, b. Qed.

(** ** The loop over the identifiers *)

(** How the binding of an account after a reconciliation relates to the ones
    before: it is kept, if the index is unchanged, and otherwise newer than every
    epoch seen for its instance. *)
Definition kept (bindings : gmap string RuntimeBinding) (a : string) (b' : RuntimeBinding) : Prop :=
  exists b, bindings !! a = Some b /\ rb_Instance b <> 0
    /\ b' = b <| rb_Generation := rb_Generation b' |>.
Definition newer (base : gmap AuthInstanceID InstanceAdmissionEpoch) (b' : RuntimeBinding) : Prop :=
  epochOf base (rb_Instance b') < rb_Admission b'.
Definition reindexed (bindings : gmap string RuntimeBinding) (a : string) (b' : RuntimeBinding) : Prop :=
  forall b, bindings !! a = Some b -> rb_Instance b <> 0 -> rb_AuthIndex b <> rb_AuthIndex b'.

Record acc_inv (bindings : gmap string RuntimeBinding) (base : gmap AuthInstanceID InstanceAdmissionEpoch)
    (entries : gmap string RosterEntry) (generation bound : Z) (done_ids : list string) (acc : reconcile_acc) : Prop := {
  av_epochs : forall i, epochOf base i <= epochOf (ac_epochs acc) i;
  av_bound : forall i, epochOf (ac_epochs acc) i <= bound;
  av_dom : forall a, is_Some (ac_next acc !! a) <-> a ∈ done_ids;
  av_next : forall a b', ac_next acc !! a = Some b' ->
    rb_Generation b' = generation /\ rb_AuthIndex b' = re_AuthIndex (entryOf entries a) /\ (kept bindings a b' \/ reindexed bindings a b' /\ newer base b');
}.

(** One turn of the loop inserts one binding. *)
Lemma acc_inv_insert bindings base entries generation bound ids acc acc' id i admission b' :
  acc_inv bindings base entries generation bound ids acc ->
  epochOf base i < admission -> epochOf (ac_epochs acc) i <= admission -> admission <= bound + 1 ->
  ac_epochs acc' = <[i := admission]> (ac_epochs acc) -> ac_next acc' = <[id := b']> (ac_next acc) ->
  rb_Instance b' = i -> rb_Admission b' = admission -> rb_Generation b' = generation -> rb_AuthIndex b' = re_AuthIndex (entryOf entries id) -> reindexed bindings id b' ->
  acc_inv bindings base entries generation (bound + 1) (ids ++ [id]) acc'.
Proof.
  intros [He Hb Hd Hn] H1 H2 H3 E1 E2 H4 H5 H6 H7 H8. split.
  - intros j. rewrite E1, epochOf_insert. destruct (decide (i = j)) as [-> |]; [lia|done].
  - intros j. rewrite E1, epochOf_insert. specialize (Hb j). destruct (decide (i = j)); lia.
  - intros a. rewrite E2, lookup_insert_is_Some, elem_of_app, list_elem_of_singleton, <- Hd. destruct (decide (id = a)); naive_solver.
  - intros a b. rewrite E2. intros [[<- <-]|[_ Hb']]%lookup_insert_Some; [|by apply Hn].
    split_and!; [done|done|right]. split; [done|]. unfold newer. by rewrite H4, H5.
Qed.

Lemma reconcileOne_inv bindings base chainSeen entries generation host bound ids acc id acc' :
  (forall a b, bindings !! a = Some b -> rb_Admission b <= epochOf base (rb_Instance b)) ->
  (forall i, 0 <= epochOf base i) -> 1 <= bound -> bound < maxUint64 ->
  acc_inv bindings base entries generation bound ids acc ->
  reconcileOne bindings chainSeen entries generation host acc id = Ok acc' ->
  acc_inv bindings base entries generation (bound + 1) (ids ++ [id]) acc'.
Proof.
  intros Hmir Hpos Hb1 Hb2 Hv. pose proof Hv as [He Hb Hd Hn]. unfold reconcileOne.
  assert (forall r, (forall b, bindings !! id = Some b -> rb_Instance b = 0) -> match host (legacyAuthInstanceID id) with
     | None => Err ErrBindingHost
     | Some observed =>
        let blocked := match bindings !! id with Some b => rb_AuthBlocked b | None => false end in
        let admission := epochOf (ac_epochs acc) (legacyAuthInstanceID id) in
        let admission := if admission =? 0 then if chainSeen (legacyAuthInstanceID id) then 2 else 1 else u64 (admission + 1) in
        let b := mkBinding id (re_AuthIndex (entryOf entries id)) (ha_Name observed) (legacyAuthInstanceID id) admission generation 1 1 (ha_Fingerprint observed) blocked in
        Ok (mkAcc (<[legacyAuthInstanceID id := admission]> (ac_epochs acc)) (<[id := b]> (ac_next acc))
                  (<[legacyAuthInstanceID id := mkChain (ha_Fingerprint observed) []]> (ac_chains acc)))
     end = Ok r -> acc_inv bindings base entries generation (bound + 1) (ids ++ [id]) r) as Hfresh.
  { intros r Hzero. destruct (host _) as [observed|]; [|done]. cbv zeta. set (i := legacyAuthInstanceID id).
    specialize (He i). specialize (Hb i). specialize (Hpos i). set (adm := if epochOf (ac_epochs acc) i =? 0 then _ else _).
    assert (epochOf base i < adm /\ epochOf (ac_epochs acc) i <= adm /\ adm <= bound + 1) as (A1 & A2 & A3).
    { subst adm. destruct (Z.eqb_spec (epochOf (ac_epochs acc) i) 0); [destruct (chainSeen i); lia|]. rewrite u64_small; lia. }
    intros <-%Ok_inj. eapply (acc_inv_insert bindings base entries generation bound ids acc _ id i adm _ Hv A1 A2 A3); try reflexivity. intros b Eb Hi. by rewrite (Hzero b Eb) in Hi. }
  destruct (bindings !! id) as [existing|] eqn:Eb; [|by apply Hfresh].
  destruct (Z.eqb_spec (rb_Instance existing) 0) as [|Hi]; [apply Hfresh; by intros b [= <-]|].
  destruct (String.eqb_spec (rb_AuthIndex existing) (re_AuthIndex (entryOf entries id))) as [Hx|Hx].
  - intros <-%Ok_inj. split; cbn [ac_epochs ac_next].
    + done.
    + intros i. specialize (Hb i). lia.
    + intros a. rewrite lookup_insert_is_Some, elem_of_app, list_elem_of_singleton, <- Hd. destruct (decide (id = a)); naive_solver.
    + intros a b'. intros [[<- <-]|[_ Hb']]%lookup_insert_Some; [|by apply Hn]. split_and!; [reflexivity|reflexivity|left].
      exists existing. split; [exact Eb|]. split; [exact Hi|]. rewrite <- Hx. by destruct existing.
  - destruct (host (rb_Instance existing)) as [observed|]; [|done]. cbv zeta. specialize (Hmir id existing Eb). intros <-%Ok_inj.
    specialize (He (rb_Instance existing)). specialize (Hb (rb_Instance existing)). specialize (Hpos (rb_Instance existing)).
    set (adm := u64 _).
    assert (epochOf base (rb_Instance existing) < adm /\ epochOf (ac_epochs acc) (rb_Instance existing) <= adm /\ adm <= bound + 1) as (A1 & A2 & A3).
    { subst adm. destruct (Z.ltb_spec (epochOf (ac_epochs acc) (rb_Instance existing)) (rb_Admission existing)); [lia|]. rewrite u64_small; lia. }
    eapply (acc_inv_insert bindings base entries generation bound ids acc _ id (rb_Instance existing) adm _ Hv A1 A2 A3); try reflexivity. by intros b; rewrite Eb; intros [= <-].
Qed.

Lemma reconcileAll_inv bindings base chainSeen entries generation host ids bound done_ids acc acc' :
  (forall a b, bindings !! a = Some b -> rb_Admission b <= epochOf base (rb_Instance b)) ->
  (forall i, 0 <= epochOf base i) -> 1 <= bound -> bound + Z.of_nat (length ids) <= maxUint64 ->
  acc_inv bindings base entries generation bound done_ids acc ->
  reconcileAll (reconcileOne bindings chainSeen entries generation host) acc ids = Ok acc' ->
  acc_inv bindings base entries generation (bound + Z.of_nat (length ids)) (done_ids ++ ids) acc'.
Proof.
  intros Hmir Hpos. revert bound done_ids acc. induction ids as [|id ids IH]; intros bound dn acc Hb1 Hb2 Hv.
  - intros <-%Ok_inj. by rewrite app_nil_r, Z.add_0_r.
  - cbn [reconcileAll length] in *. unfold rbind. destruct (reconcileOne _ _ _ _ _ _ _) as [acc1|] eqn:E; [|done]. intros Hr.
    replace (bound + Z.of_nat (S (length ids))) with (bound + 1 + Z.of_nat (length ids)) by lia. rewrite cons_middle, app_assoc.
    eapply IH; [lia|lia| |done]. eapply reconcileOne_inv; try done. lia.
Qed.

(** ** Reconciliation as a whole *)

Definition registry_ok (r : BindingRegistry) : Prop :=
  keeps (fun _ => True) (br_store r) /\ br_bindings r = ps_Bindings (sto_state (br_store r)).

(** No epoch is close to the end of its range. *)
Record sane (bound : Z) (st : PersistentState) : Prop := {
  sn_bound : 1 <= bound;
  sn_epochs : forall i, 0 <= epochOf (ps_AdmissionEpochs st) i;
  sn_marks : forall i, mark st i <= bound;
}.
Lemma sane_mark bound st i : sane bound st -> 0 <= mark st i.
Proof. intros Hs. apply mark_ge. left. apply Hs. Qed.

Lemma commit_keeps (Q : PersistentState -> Prop) r fn io r' err :
  keeps Q (br_store r) -> (forall old st, Q st -> Q (written old st)) -> Q (fn (sto_state (br_store r))) ->
  commitBindings r fn io = (r', err) -> keeps Q (br_store r').
Proof.
  intros Hk Hw Hf. unfold commitBindings, UpdateMirrored.
  assert (keeps Q (updateMode true (br_store r) (fun st => Ok (fn st)) (su_load io) (su_backup io) (su_primary io)).1) as Hu
    by (apply updateMode_keeps; [done|done|by intros st' <-%Ok_inj]).
  destruct (updateMode _ _ _ _ _ _) as [s [st|e]]; by intros [= <- _].
Qed.

Lemma commit_ok r fn io r' err :
  registry_ok r -> commitBindings r fn io = (r', err) ->
  registry_ok r' /\ (err = None -> synced (br_store r') (written (sto_state (br_store r)) (fn (sto_state (br_store r))))).
Proof.
  intros [Hk Hm] E. pose proof (commit_keeps _ _ _ _ _ _ Hk (fun _ _ H => H) I E) as Hk'. unfold commitBindings, UpdateMirrored in E.
  destruct (updateMode _ _ _ _ _ _) as [s [st|e]] eqn:Eu; injection E as <- <-.
  - destruct (updateMode_success _ _ _ _ _ _ _ _ _ Hk Eu) as (next & <-%Ok_inj & Hs & ->). split; [|done].
    split; [done|]. cbn. by rewrite (sy_state _ _ Hs).
  - apply updateMode_failure with (Q := fun _ => True) in Eu; [|done]. split; [|done]. split; [done|]. cbn. by rewrite Eu.
Qed.

Lemma written_bindings old st : ps_Bindings (written old st) = ps_Bindings st /\ ps_AdmissionEpochs (written old st) = ps_AdmissionEpochs st
  /\ ps_TierGeneration (written old st) = ps_TierGeneration st.
Proof. unfold written. by destruct (ps_FenceUnsafe old). Qed.

(** What a reconciliation computes before it commits. *)
Definition plan_of (r : BindingRegistry) (roster : HostRosterSnapshot) (host : AuthInstanceID -> option HostAuth) (ids : list string)
    (generation : TierGeneration) (acc : reconcile_acc) : Prop :=
  let st := sto_state (br_store r) in
  let entries := entriesByID (hr_Entries roster) ids in
  generation = nextGeneration (hr_Generation roster) (durableMarks st).2 (rosterChangedFor (br_bindings r) entries ids)
  /\ exists chainSeen, reconcileAll (reconcileOne (br_bindings r) chainSeen entries generation host) (mkAcc (durableMarks st).1 ∅ ∅) ids = Ok acc.

Lemma reconcile_runs r roster host allTiers snapshot io r' res :
  registry_ok r -> reconcileRosterEntries r roster host allTiers snapshot io = (r', res) ->
  br_store r' = br_store r /\ br_bindings r' = br_bindings r /\ (forall x, res <> Ok x)
  \/ exists ids generation acc err, rosterIDs (hr_Entries roster) allTiers = Some ids /\ plan_of r roster host ids generation acc
      /\ commitBindings r (commitRoster generation acc) io = (r', err)
      /\ (forall x, res = Ok x -> err = None /\ rec_Generation x = generation /\ rec_Bindings x = br_bindings r').
Proof.
  intros [Hk Hm]. unfold reconcileRosterEntries. destruct (negb _); [intros [= <- <-]; by left|].
  destruct (rosterIDs _ _) as [ids|]; [|intros [= <- <-]; by left]. rewrite (snapshot_loaded _ _ _ Hk).
  destruct (durableMarks _) as [epochs tier] eqn:Ed.
  destruct (reconcileAll _ _ _) as [acc|e] eqn:Ea; [|intros [= <- <-]; by left].
  assert (r <| br_store := br_store r |> = r) as Er by (by destruct r). rewrite Er in *. intros E. right.
  destruct (commitBindings r _ io) as [r1 err] eqn:Ec.
  eexists ids, _, acc, err. split_and!; [done| |destruct err; by injection E as <- _|].
  - unfold plan_of. rewrite Ed. split; [done|]. by eexists.
  - intros x ->. destruct err; [done|]. by injection E as <- <-.
Qed.

Lemma plan_inv r roster host ids generation acc bound :
  registry_ok r -> sane bound (sto_state (br_store r)) -> bound + Z.of_nat (length ids) <= maxUint64 -> plan_of r roster host ids generation acc ->
  acc_inv (br_bindings r) (durableMarks (sto_state (br_store r))).1 (entriesByID (hr_Entries roster) ids) generation
    (bound + Z.of_nat (length ids)) ids acc.
Proof.
  intros [_ Hm] Hs Hb (-> & chainSeen & E). eapply (reconcileAll_inv _ _ _ _ _ _ _ bound []); [| |apply Hs|done| |exact E].
  - intros a b. rewrite Hm. apply mark_binding.
  - intros i. by eapply sane_mark.
  - split; cbn [ac_epochs ac_next]; [done|apply Hs| |by intros a b' ?%lookup_empty_Some].
    intros a. rewrite lookup_empty. split; [intros []%is_Some_None|by intros ?%not_elem_of_nil].
Qed.

Lemma nextGeneration_ge incoming current changed :
  0 <= incoming -> 0 <= current < maxUint64 ->
  current <= nextGeneration incoming current changed /\ (changed = true -> current < nextGeneration incoming current changed).
Proof.
  intros Hi Hc. unfold nextGeneration. rewrite u64_small by (unfold maxUint64 in *; lia).
  destruct (Z.eqb_spec current 0), (Z.eqb_spec incoming 0), changed, (Z.ltb_spec current incoming); split; (lia || (intros; try discriminate; lia)).
Qed.

(** The index the roster reports for an account: that of its last entry. *)
Definition indexInRoster (entries : list RosterEntry) (a : string) : string :=
  re_AuthIndex (default zeroEntry (last (filter (fun e => re_ID e = a) entries))).

Lemma entriesByID_index entries ids a : a ∈ ids -> re_AuthIndex (entryOf (entriesByID entries ids) a) = indexInRoster entries a.
Proof.
  intros Ha. unfold entryOf, indexInRoster. do 2 f_equal. unfold entriesByID.
  induction entries as [|e entries IH] using rev_ind; [done|]. rewrite foldl_snoc, filter_app, filter_cons, filter_nil.
  destruct (decide (re_ID e = a)) as [<-|Hne].
  - rewrite bool_decide_true, lookup_insert_eq, last_snoc by done. done.
  - rewrite app_nil_r. case_bool_decide; [by rewrite lookup_insert_ne|done].
Qed.

Lemma tier_ids_NoDup entries : forall seen, NoDup (tier_ids seen entries) /\ forall id, id ∈ tier_ids seen entries -> id ∉ seen.
Proof.
  induction entries as [|e entries IH]; intros seen; cbn [tier_ids]; [split; [constructor|by intros ? ?%not_elem_of_nil]|].
  destruct (negb (prioritised e)); cbn [orb]; [apply IH|]. case_bool_decide as Hin; [apply IH|].
  destruct (IH ({[re_ID e]} ∪ seen)) as [H1 H2]. split.
  - constructor; [|done]. intros Hx%H2. set_solver.
  - intros id [-> |Hx%H2]%elem_of_cons; set_solver.
Qed.
Lemma rosterIDs_NoDup entries allTiers ids : rosterIDs entries allTiers = Some ids -> NoDup ids.
Proof.
  unfold rosterIDs. destruct allTiers.
  - pose proof (proj1 (tier_ids_NoDup entries ∅)) as Hk. destruct (tier_ids ∅ entries) as [|x l]; [done|]. intros [= <-].
    unfold sortStrings. by rewrite sort_slice_perm.
  - pose proof (hi_nodup _ _ (highest_fold_inv entries)) as Hk. unfold HighestCodexTier. destruct (ts_ok _); [|done]. intros [= <-].
    unfold sortStrings. by rewrite sort_slice_perm.
Qed.

(** An account that left, one that is new, and one whose index changed each change
    the roster. *)
Definition membership_changed (bindings : gmap string RuntimeBinding) (entries : list RosterEntry) (ids : list string) : Prop :=
  (exists a, is_Some (bindings !! a) /\ a ∉ ids) \/ (exists a, a ∈ ids /\ bindings !! a = None)
  \/ exists a b, a ∈ ids /\ bindings !! a = Some b /\ rb_AuthIndex b <> indexInRoster entries a.

Lemma membership_changed_spec bindings entries ids :
  NoDup ids -> membership_changed bindings entries ids -> rosterChangedFor bindings (entriesByID entries ids) ids = true.
Proof.
  intros Hnd Hch. unfold rosterChangedFor. apply orb_true_iff.
  destruct (existsb _ ids) eqn:Ex; [by right|left]. apply negb_true_iff, Nat.eqb_neq. intros Hsize.
  assert (forall a, a ∈ ids -> exists b, bindings !! a = Some b /\ rb_AuthIndex b = indexInRoster entries a) as Hall.
  { intros a Ha. assert (~ (match bindings !! a with None => true | Some b => negb (String.eqb (rb_AuthIndex b) (re_AuthIndex (entryOf (entriesByID entries ids) a))) end) = true) as Hk.
    { intros E. apply not_true_iff_false in Ex. apply Ex, existsb_exists. exists a. split; [by apply list_elem_of_In|done]. }
    destruct (bindings !! a) as [b|]; [|done]. exists b. split; [done|]. apply not_true_iff_false, negb_false_iff, String.eqb_eq in Hk.
    by rewrite Hk, entriesByID_index. }
  destruct Hch as [(a & Hb & Ha)|[(a & Ha & Hb)|(a & b & Ha & Hb & Hne)]].
  - assert (({[a]} ∪ list_to_set ids : gset string) ⊆ dom bindings) as Hsub.
    { intros x [->%elem_of_singleton|Hx%elem_of_list_to_set]%elem_of_union; apply elem_of_dom; [done|]. destruct (Hall x Hx) as (b & E & _). by eexists. }
    apply subseteq_size in Hsub. rewrite size_dom, size_union, size_singleton, size_list_to_set in Hsub by (done || set_solver). lia.
  - destruct (Hall a Ha) as (b & E & _). congruence.
  - destruct (Hall a Ha) as (b' & E & E'). congruence.
Qed.

(** C32: A reconciled roster is bound exactly: after a successful reconciliation the
    bindings are those of the roster's identifiers, each with the index the roster
    reports for it and the generation reported, which is also stored and never falls
    behind an earlier one, and grows when an account left, joined or changed its
    index; an account bound to an instance whose index is unchanged keeps its binding
    (the generation apart), and every other binding has an admission epoch beyond all
    epochs its instance ever had.  Assumed is that the registry is in step
    with its store, as the reconciliation leaves it, and that no number wraps around: the epochs
    on record are below 2^64 by at least the number of accounts, the generation on
    record is below 2^64 - 1 and that of the roster is not negative. *)
Theorem roster_reconcile_exact (r r' : BindingRegistry) (roster : HostRosterSnapshot) (host : AuthInstanceID -> option HostAuth)
    (allTiers : bool) (snapshot : load_io) (io : store_io) (res : RosterReconcileResult) (ids : list string) (bound : Z) :
  let st := sto_state (br_store r) in let tier := (durableMarks st).2 in
  registry_ok r -> sane bound st -> rosterIDs (hr_Entries roster) allTiers = Some ids -> bound + Z.of_nat (length ids) <= maxUint64 ->
  0 <= hr_Generation roster -> 0 <= tier < maxUint64 ->
  reconcileRosterEntries r roster host allTiers snapshot io = (r', Ok res) ->
  registry_ok r' /\ rec_Bindings res = br_bindings r' /\ ps_TierGeneration (sto_state (br_store r')) = rec_Generation res
  /\ tier <= rec_Generation res
  /\ (membership_changed (br_bindings r) (hr_Entries roster) ids -> tier < rec_Generation res)
  /\ (forall a, is_Some (br_bindings r' !! a) <-> a ∈ ids)
  /\ (forall a b', br_bindings r' !! a = Some b' ->
       rb_Generation b' = rec_Generation res /\ rb_AuthIndex b' = indexInRoster (hr_Entries roster) a
       /\ let same b := br_bindings r !! a = Some b /\ rb_Instance b <> 0 /\ rb_AuthIndex b = indexInRoster (hr_Entries roster) a in
          (forall b, same b -> b' = b <| rb_Generation := rec_Generation res |>)
          /\ ((forall b, ~ same b) -> mark st (rb_Instance b') < rb_Admission b')).
Proof.
  cbv zeta. intros Hr Hs Hids Hb Hg Ht E.
  destruct (reconcile_runs _ _ _ _ _ _ _ _ Hr E) as [(_ & _ & Hno)|(ids' & gen & acc & err & Hids' & Hp & Hc & Hres)]; [by destruct (Hno res)|].
  assert (ids' = ids) as -> by congruence. destruct (Hres res eq_refl) as (-> & Eg & Eb). pose proof (plan_inv _ _ _ _ _ _ _ Hr Hs Hb Hp) as [_ _ Hd Hn].
  destruct (commit_ok _ _ _ _ _ Hr Hc) as [Hr' Hsy]. specialize (Hsy eq_refl). destruct (written_bindings (sto_state (br_store r)) (commitRoster gen acc (sto_state (br_store r)))) as (W1 & _ & W3).
  assert (br_bindings r' = ac_next acc) as En by (rewrite (proj2 Hr'), (sy_state _ _ Hsy); exact W1).
  destruct Hp as [Hgen _]. destruct (nextGeneration_ge (hr_Generation roster) (durableMarks (sto_state (br_store r))).2
    (rosterChangedFor (br_bindings r) (entriesByID (hr_Entries roster) ids) ids) Hg Ht) as [G1 G2]. rewrite <- Hgen in G1, G2.
  rewrite Eg. split_and!; [done|done| |done| | |].
  - rewrite (sy_state _ _ Hsy). exact W3.
  - intros Hch. apply G2, membership_changed_spec; [by eapply rosterIDs_NoDup|done].
  - intros a. rewrite En. apply Hd.
  - intros a b'. rewrite En. intros Hb'. assert (a ∈ ids) as Ha by (apply Hd; by eexists).
    destruct (Hn a b' Hb') as (Eg' & Ei & Hk). rewrite (entriesByID_index _ _ _ Ha) in Ei. cbv zeta. split_and!; [done|done|..].
    + intros b (E1 & E2 & E3). destruct Hk as [(b0 & E0 & _ & ->)|[Hre _]]; [assert (b0 = b) as -> by congruence; cbn in Eg'; by rewrite Eg'|].
      exfalso. apply (Hre b E1 E2). congruence.
    + intros Hno. destruct Hk as [(b0 & E0 & Hi0 & Ek)|[_ Hnew]]; [|exact Hnew].
      exfalso. apply (Hno b0). split_and!; [done|done|]. rewrite <- Ei, Ek. by destruct b0.
Qed.

(** ** Tokens of an earlier admission *)

(** All bindings of the instance are newer than [h], and so will its next ones be. *)
Definition outdated (i : AuthInstanceID) (h : Z) (st : PersistentState) : Prop :=
  h <= mark st i /\ forall a b, ps_Bindings st !! a = Some b -> rb_Instance b = i -> h < rb_Admission b.

Lemma outdated_written i h old st : outdated i h st -> outdated i h (written old st).
Proof.
  unfold outdated. rewrite !mark_ge. destruct (written_bindings old st) as (-> & -> & _). done.
Qed.

(** Replacing a binding by one of the same instance and admission. *)
Lemma outdated_insert i h st a b b0 :
  i <> 0 -> (rb_Instance b = 0 /\ ps_Bindings st !! a = None \/ ps_Bindings st !! a = Some b0 /\ rb_Instance b = rb_Instance b0 /\ rb_Admission b = rb_Admission b0) ->
  outdated i h st -> outdated i h (st <| ps_Bindings := <[a := b]> (ps_Bindings st) |>).
Proof.
  intros Hi Hb [Hm Hn]. split.
  - rewrite mark_ge in *. cbn. destruct Hm as [|(a' & b' & Ha' & Hi' & Hle)]; [by left|right].
    destruct (decide (a' = a)) as [-> |Hne]; [|exists a', b'; by rewrite lookup_insert_ne].
    exists a, b. rewrite lookup_insert_eq. destruct Hb as [[_ E]|(E & Ei & Ea)]; [congruence|]. assert (b' = b0) as -> by congruence.
    split_and!; [done|congruence|lia].
  - intros a' b' Hl Hi'. cbn in Hl. apply lookup_insert_Some in Hl as [[<- <-]|[_ Hl]]; [|by eapply Hn].
    destruct Hb as [[E _]|(E & Ei & Ea)]; [congruence|]. rewrite Ea. apply (Hn _ _ E). congruence.
Qed.

(** What a reconciliation commits is outdated as well, provided its bindings of
    the instance are. *)
Lemma commitRoster_outdated i h r roster ids generation bound acc :
  sane bound (sto_state (br_store r)) -> h <= mark (sto_state (br_store r)) i ->
  acc_inv (br_bindings r) (durableMarks (sto_state (br_store r))).1 (entriesByID (hr_Entries roster) ids) generation
    (bound + Z.of_nat (length ids)) ids acc ->
  (forall a b, ac_next acc !! a = Some b -> rb_Instance b = i -> h < rb_Admission b) ->
  outdated i h (commitRoster generation acc (sto_state (br_store r))).
Proof.
  intros Hs Hm Hv Hb. split; [|exact Hb]. apply mark_ge. left. cbn. apply epochOf_raise_all.
  pose proof (av_epochs _ _ _ _ _ _ _ Hv i) as He. unfold mark in Hm. unfold epochOf in He at 2.
  destruct (ac_epochs acc !! i) as [x|] eqn:Ex; cbn [default] in He.
  - right. exists x. split; [by apply elem_of_map_range|]. simpl in He. lia.
  - left. pose proof (sn_epochs _ _ Hs i). simpl in He. lia.
Qed.

Lemma acc_outdated i h r base entries gen bound ids acc :
  acc_inv (br_bindings r) base entries gen bound ids acc -> h <= epochOf base i ->
  (forall a b b', br_bindings r !! a = Some b -> rb_Instance b = i -> ac_next acc !! a = Some b' -> h < rb_Admission b \/ rb_AuthIndex b' <> rb_AuthIndex b) ->
  forall a b, ac_next acc !! a = Some b -> rb_Instance b = i -> h < rb_Admission b.
Proof.
  intros Hv Hm Hold a b Hb Hi. destruct (av_next _ _ _ _ _ _ _ Hv a b Hb) as (_ & _ & [(b0 & Hb0 & _ & E)|[_ Hn]]).
  - assert (rb_Instance b = rb_Instance b0 /\ rb_Admission b = rb_Admission b0 /\ rb_AuthIndex b = rb_AuthIndex b0) as (E1 & E2 & E3) by (by rewrite E).
    rewrite E2. by destruct (Hold a b0 b Hb0) as [?|Hne]; [congruence| | |].
  - unfold newer in Hn. rewrite Hi in Hn. lia.
Qed.

(** The operations of the registry, with any outcome, and restarts. *)
Inductive registry_step : BindingRegistry -> BindingRegistry -> Prop :=
  | rs_reconcile r roster host allTiers snapshot io r' res bound :
      sane bound (sto_state (br_store r)) ->
      (forall ids, rosterIDs (hr_Entries roster) allTiers = Some ids -> bound + Z.of_nat (length ids) <= maxUint64) ->
      reconcileRosterEntries r roster host allTiers snapshot io = (r', res) -> registry_step r r'
  | rs_blocked r a io : registry_step r (MarkAuthBlocked r a io).1
  | rs_login r a login fp io : registry_step r (ObserveExternalLogin r a login fp io).1
  | rs_restart r io s r' : NewBindingRegistry (NewStateStore (sto_disk (br_store r))) io = (s, Ok r') -> registry_step r r'.

Lemma registry_step_outdated i h r r' :
  i <> 0 -> registry_step r r' -> registry_ok r -> keeps (outdated i h) (br_store r) -> registry_ok r' /\ keeps (outdated i h) (br_store r').
Proof.
  intros Hi Hstep Hr Hk. pose proof (kp_memory _ _ Hk) as Hmem. pose proof (proj2 Hr) as Hm.
  destruct Hstep as [r roster host allTiers snapshot io r' res bound Hs Hb E|r a io|r a login fp io|r io s r' E].
  - destruct (reconcile_runs _ _ _ _ _ _ _ _ Hr E) as [(E1 & E2 & _)|(ids & gen & acc & err & Hids & Hp & Hc & _)].
    { unfold registry_ok. by rewrite E1, E2. }
    split; [by eapply commit_ok|]. eapply commit_keeps; [done|apply outdated_written| |done].
    pose proof (plan_inv _ _ _ _ _ _ _ Hr Hs (Hb _ Hids) Hp) as Hv. eapply commitRoster_outdated; [done|apply Hmem|done|].
    eapply acc_outdated; [done|apply Hmem|]. intros a b b'. rewrite Hm. intros Hab Hib _. left. by eapply Hmem.
  - unfold MarkAuthBlocked. destruct (commitBindings _ _ _) as [r' err] eqn:Ec. split; [by eapply commit_ok|].
    eapply commit_keeps; [done|apply outdated_written| |done]. rewrite Hm.
    destruct (ps_Bindings (sto_state (br_store r)) !! a) as [b0|] eqn:E0; eapply (outdated_insert i h _ a _ (default zeroBinding (ps_Bindings (sto_state (br_store r)) !! a))); try done; rewrite E0; [by right|by left].
  - unfold ObserveExternalLogin. destruct (br_bindings r !! a) as [b0|] eqn:E0; [|done]. destruct (login <=? _); [done|].
    destruct (commitBindings _ _ _) as [r' err] eqn:Ec. split; [by eapply commit_ok|].
    eapply commit_keeps; [done|apply outdated_written| |done]. eapply (outdated_insert i h _ a _ b0); [done| |done].
    right. by rewrite <- Hm.
  - unfold NewBindingRegistry in E. destruct (Load _ _) as [s1 [[st rep]|e]] eqn:El; [|done]. injection E as <- <-.
    pose proof (restart_keeps _ _ _ _ _ Hk El) as Hk'. split; [|done]. split; [by eapply restart_keeps; [apply Hr|]|].
    cbn. destruct (kp_disk _ _ Hk) as (d & Hd & Hv & _). unfold Load, loadLocked in El. cbn in El. rewrite Hd, adopt_current in El by done.
    by injection El as <- <- _.
Qed.

(** Work of an earlier admission stays rejected: once a reconciliation has
    removed an account or given it another auth index, no token that was valid for
    its binding before is valid for any binding again, whatever is reconciled,
    blocked, logged in or restarted afterwards, even if the account returns. *)
Theorem readmission_outdates_tokens (r0 r1 r2 : BindingRegistry) (roster : HostRosterSnapshot) (host : AuthInstanceID -> option HostAuth)
    (allTiers : bool) (snapshot : load_io) (io : store_io) (res : RosterReconcileResult) (ids : list string) (bound : Z)
    (a0 : string) (b0 : RuntimeBinding) (token : ExecutionToken) :
  registry_ok r0 -> sane bound (sto_state (br_store r0)) -> rosterIDs (hr_Entries roster) allTiers = Some ids ->
  bound + Z.of_nat (length ids) <= maxUint64 ->
  br_bindings r0 !! a0 = Some b0 -> rb_Instance b0 <> 0 ->
  ValidFor token (rb_Instance b0) (rb_Admission b0) (rb_Generation b0) = true ->
  reconcileRosterEntries r0 roster host allTiers snapshot io = (r1, Ok res) ->
  (forall a b b', br_bindings r0 !! a = Some b -> rb_Instance b = rb_Instance b0 -> br_bindings r1 !! a = Some b' -> rb_AuthIndex b' <> rb_AuthIndex b) ->
  rtc registry_step r1 r2 ->
  forall a b, br_bindings r2 !! a = Some b -> ValidFor token (rb_Instance b) (rb_Admission b) (rb_Generation b) = false.
Proof.
  intros Hr Hs Hids Hb Ha0 Hi Hv E Hre Hrtc.
  destruct (reconcile_runs _ _ _ _ _ _ _ _ Hr E) as [(_ & _ & Hno)|(ids' & gen & acc & err & Hids' & Hp & Hc & Hres)]; [by destruct (Hno res)|].
  assert (ids' = ids) as -> by congruence. destruct (Hres res eq_refl) as (-> & _ & _). pose proof (plan_inv _ _ _ _ _ _ _ Hr Hs Hb Hp) as Hacc.
  destruct (commit_ok _ _ _ _ _ Hr Hc) as [Hr1 Hsy]. specialize (Hsy eq_refl).
  assert (br_bindings r1 = ac_next acc) as En.
  { rewrite (proj2 Hr1), (sy_state _ _ Hsy). apply written_bindings. }
  assert (rb_Admission b0 <= mark (sto_state (br_store r0)) (rb_Instance b0)) as Hmark by (apply mark_binding with a0; by rewrite <- (proj2 Hr)).
  assert (keeps (outdated (rb_Instance b0) (rb_Admission b0)) (br_store r1)) as Hk1.
  { eapply synced_keeps; [done|]. apply outdated_written. eapply commitRoster_outdated; [done|done|done|].
    intros a b Hab Hib. eapply (acc_outdated (rb_Instance b0)); [exact Hacc|exact Hmark| |exact Hab|exact Hib].
    intros a' b' b1 Hb' Hi' H1. right. apply (Hre a' b' b1 Hb' Hi'). by rewrite En. }
  assert (registry_ok r2 /\ keeps (outdated (rb_Instance b0) (rb_Admission b0)) (br_store r2)) as [Hr2 Hk2].
  { clear -Hrtc Hr1 Hk1 Hi. induction Hrtc as [|r r' r'' Hstep _ IH]; [done|].
    destruct (registry_step_outdated _ _ _ _ Hi Hstep Hr1 Hk1) as [H1 H2]. by apply IH. }
  intros a b Hab. apply not_true_iff_false. unfold ValidFor in *. intros [[E1 E2]%andb_true_iff _]%andb_true_iff.
  apply andb_true_iff in Hv as [[V1 V2]%andb_true_iff _]. rewrite (proj2 Hr2) in Hab.
  pose proof (proj2 (kp_memory _ _ Hk2) a b Hab ltac:(lia)). lia.
Qed.
End marks.

(** ** Examples *)

(** Two accounts; the first leaves the roster and comes back. *)
Definition example_host : AuthInstanceID -> option HostAuth := fun _ => Some (mkHostAuth "auth.json" "{}" (example_credential "r1")).
Definition example_roster (ids : list string) : HostRosterSnapshot :=
  emptyHostRoster <| hr_Capability := CapabilityA |> <| hr_Entries := (fun id => mkEntry id "1" "codex" (Some 5)) <$> ids |>.
Definition example_registry : BindingRegistry := mkRegistry example_store ∅.
Definition example_sync (r : BindingRegistry) (ids : list string) : BindingRegistry * result binding_error RosterReconcileResult :=
  ReconcileRoster r (example_roster ids) example_host io_fine store_fine.
Definition example_both : BindingRegistry := (example_sync example_registry ["a"; "b"]).1.
Definition example_left : BindingRegistry := (example_sync example_both ["b"]).1.
Definition example_back : BindingRegistry := (example_sync example_left ["a"; "b"]).1.

(** What a result holds; the examples only use it for successes. *)
Definition reconciledOf (r : result binding_error RosterReconcileResult) : RosterReconcileResult :=
  match r with Ok x => x | Err _ => mkReconciled ∅ [] 0 end.

Lemma example_both_ok : registry_ok example_both.
Proof. split; [|vm_compute; reflexivity]. split; [vm_compute; reflexivity..|exact I|]. eexists. split; [vm_compute; reflexivity|]. split; [vm_compute; reflexivity|exact I]. Qed.

Lemma sane_list bound st :
  1 <= bound -> Forall (fun ie : AuthInstanceID * Z => 0 <= ie.2 <= bound) (map_to_list (ps_AdmissionEpochs st)) ->
  Forall (fun ab : string * RuntimeBinding => rb_Admission ab.2 <= bound) (map_to_list (ps_Bindings st)) -> sane bound st.
Proof.
  intros Hb He Hbi. rewrite Forall_forall in He. rewrite Forall_forall in Hbi.
  assert (forall i, 0 <= epochOf (ps_AdmissionEpochs st) i <= bound) as Hep.
  { intros i. unfold epochOf. destruct (ps_AdmissionEpochs st !! i) as [x|] eqn:E; simpl; [|lia]. apply (He (i, x)). by apply elem_of_map_to_list. }
  split; [done|apply Hep|]. intros i. destruct (Z.le_gt_cases (mark st i) bound) as [|Hgt]; [done|].
  assert (bound + 1 <= mark st i) as [Hx|(a & b & Hab & _ & Hx)]%mark_ge by lia.
  - specialize (Hep i). lia.
  - specialize (Hbi (a, b)). simpl in Hbi. rewrite elem_of_map_to_list in Hbi. specialize (Hbi Hab). lia.
Qed.

Lemma example_both_sane : sane 10 (sto_state (br_store example_both)).
Proof. apply sane_list; [lia|vm_compute; repeat constructor; discriminate..]. Qed.

Lemma roster_reconcile_exact_witness :
  rec_Generation (reconciledOf (example_sync example_both ["b"]).2) = 2
  /\ ps_TierGeneration (sto_state (br_store example_left)) = rec_Generation (reconciledOf (example_sync example_both ["b"]).2).
Proof.
  split; [vm_compute; reflexivity|].
  refine (proj1 (proj2 (proj2 (roster_reconcile_exact example_both example_left (example_roster ["b"]) example_host false io_fine store_fine
    (reconciledOf (example_sync example_both ["b"]).2) ["b"] 10 example_both_ok example_both_sane _ _ _ _ _)))).
  - vm_compute. reflexivity.
  - vm_compute. discriminate.
  - vm_compute. discriminate.
  - vm_compute. split; [discriminate|reflexivity].
  - vm_compute. reflexivity.
Defined.

(** The token of the first admission of [a] is rejected when [a] is back. *)
Definition example_old : RuntimeBinding := default zeroBinding (br_bindings example_both !! "a").
Definition example_new : RuntimeBinding := default zeroBinding (br_bindings example_back !! "a").

Lemma readmission_outdates_tokens_witness :
  rb_Admission example_new = 2
  /\ ValidFor (ExecutionToken_of example_old 1) (rb_Instance example_new) (rb_Admission example_new) (rb_Generation example_new) = false.
Proof.
  split; [vm_compute; reflexivity|].
  refine (readmission_outdates_tokens example_both example_left example_back (example_roster ["b"]) example_host false io_fine store_fine
    (reconciledOf (example_sync example_both ["b"]).2) ["b"] 10 "a" example_old (ExecutionToken_of example_old 1)
    example_both_ok example_both_sane _ _ _ _ _ _ _ _ "a" example_new _).
  - vm_compute. reflexivity.
  - vm_compute. discriminate.
  - vm_compute. reflexivity.
  - vm_compute. discriminate.
  - vm_compute. reflexivity.
  - vm_compute. reflexivity.
  - intros a b b' Ha Hi Hb'. exfalso. apply elem_of_map_to_list in Ha, Hb'. vm_compute in Hb'. apply list_elem_of_In in Hb' as [[= <- <-]|[]].
    vm_compute in Ha. apply list_elem_of_In in Ha as [[= <-]|[[= <-]|[]]]; vm_compute in Hi; discriminate Hi.
  - apply rtc_once. apply (rs_reconcile example_left (example_roster ["a"; "b"]) example_host false io_fine store_fine example_back
      (example_sync example_left ["a"; "b"]).2 10).
    + apply sane_list; [lia|vm_compute; repeat constructor; discriminate..].
    + intros ids Hids. vm_compute in Hids. injection Hids as <-. vm_compute. discriminate.
    + apply surjective_pairing.
  - vm_compute. reflexivity.
Defined.

(** The bootstrap of a single account does not look at the epochs: an account that
    was admitted before, removed, and bootstrapped again gets its first admission
    and generation once more, and the old tokens are valid again. *)
Theorem bootstrap_reissues_admission :
  let single := (ObserveAuthoritative example_registry (example_roster ["a"; "b"]) "a" example_host store_fine).1 in
  let gone := (example_sync single ["b"]).1 in
  let again := (ObserveAuthoritative gone (example_roster ["a"; "b"]) "a" example_host store_fine).1 in
  br_bindings gone !! "a" = None
  /\ epochOf (ps_AdmissionEpochs (sto_state (br_store gone))) (legacyAuthInstanceID "a") = 1
  /\ br_bindings again !! "a" = br_bindings single !! "a".
Proof. vm_compute. repeat split; reflexivity. Qed.
