(* ===== verification/Managed.v ===== *)
(** * Managed quota disable and recovery (managed_lifecycle.go)

    After a confirmed quota failure the plugin may disable an account in the
    host's auth file, and enable it again when a quota read shows it usable.  A
    durable record says that the plugin, not an operator, owns the disabled flag.

    The host is a map from auth index to auth file.  A file is what the code reads
    of its JSON: whether it is an object, its disabled flag, the credentials
    [ExtractCodexCredentials] finds; [af_byPlugin] is a ghost that says who wrote
    the flag last.  The context is the background context of the callers. *)

From S2P Require Import Prelude GoStrings Float64 RetryChain Config Models Availability Identity Probe ProbeWindow StateStore CredentialWAL.
#[local] Open Scope string_scope.
#[local] Open Scope list_scope.
#[local] Open Scope Z_scope.
#[local] Open Scope go_scope.

Record CodexCredentials := mkCodexCredentials {
  cc_AccessToken : string; cc_RefreshToken : string; cc_IDToken : string; cc_ChatGPTAccountID : string; cc_ExpiresAt : Time;
}.
Record QuotaFailureEvent := mkFailureEvent { qf_AuthID : string; qf_AuthIndex : string; qf_ResetAt : Time; qf_Reason : string }.

Record AuthFile := mkAuthFile {
  af_Name : string;
  af_object : bool;
  af_disabled : bool;
  af_credentials : option CodexCredentials;
  af_byPlugin : bool;
}.
#[export] Instance AuthFile_eta : Eta AuthFile := fun r => mkAuthFile
  (af_Name r) (af_object r) (af_disabled r) (af_credentials r) (af_byPlugin r).
Abbreviation auth_host := (gmap string AuthFile) (only parsing).

Inductive managed_error := ErrManagedStore (e : store_error) | ErrManagedHost | ErrManagedJSON.

Definition appendLifecycleEvent (record : ManagedDisableRecord) (event : LifecycleEvent) (limit : Z) : ManagedDisableRecord :=
  if limit <=? 0 then record
  else
    let events := mr_Events record ++ [event] in
    let overflow := Z.of_nat (length events) - limit in
    record <| mr_Events := if 0 <? overflow then drop (Z.to_nat overflow) events else events |>.

(** The evidence for enabling: the long window is present and usable, and so is a
    five-hour window when there is one. *)
Definition managedQuotaUsable (quota : ParsedQuota) (observedAt now : Time) (staleAfter : Duration) : bool :=
  match pq_LongWindow quota with
  | None => false
  | Some window =>
      if IsZero observedAt || After observedAt now || (staleAfter <=? 0) || (staleAfter <? Sub now observedAt) then false
      else if windowExhausted (Some window) now then false
      else if match qw_UsedPercent window with Some used => f_le (f_of_Z 100) used | None => false end then false
      else if match pq_FiveHour quota with Some five => windowExhausted (Some five) now | None => false end then false
      else true
  end.

(** What the world answers during an operation: failing reads, the outcome of a
    save, the parsed quota of a successful request, the clock, and the file
    operations of the updates. *)
Record managed_env := mkManagedEnv {
  me_getFails : string -> bool;
  me_save : string -> save_outcome;
  me_quota : string -> option ParsedQuota;
  me_now : Time; me_later : Time;
  me_snapshot : load_io;
  me_first : string -> store_io; me_second : string -> store_io;
}.

Definition getAuth (host : auth_host) (env : managed_env) (index : string) : option AuthFile :=
  if me_getFails env index then None else host !! index.
Definition saveDisabled (host : auth_host) (env : managed_env) (index : string) (file : AuthFile) (disabled : bool)
  : auth_host * option managed_error :=
  let file := file <| af_disabled := disabled |> <| af_byPlugin := disabled |> in
  match me_save env index with
  | SaveAccepted => (<[index := file]> host, None)
  | SaveRejected => (host, Some ErrManagedHost)
  | SaveFailed landed => (if landed then <[index := file]> host else host, Some ErrManagedHost)
  end.

Definition updateRecords (s : StateStore) (fn : gmap string ManagedDisableRecord -> gmap string ManagedDisableRecord) (io : store_io)
  : StateStore * option managed_error :=
  match Update s (fun st => Ok (st <| ps_ManagedLifecycle := fn (ps_ManagedLifecycle st) |>)) (su_load io) (su_backup io) (su_primary io) with
  | (s, Ok _) => (s, None)
  | (s, Err e) => (s, Some (ErrManagedStore e))
  end.
Definition zeroRecord : ManagedDisableRecord := mkManaged zeroTime false zeroFingerprint zeroTime zeroTime zeroTime zeroTime [].
Definition recordOf (m : gmap string ManagedDisableRecord) (index : string) : ManagedDisableRecord := default zeroRecord (m !! index).

Section managed.
Context `{MapRange} (Sum256 : string -> string) (canonicalJSON : string -> option string) (cfg : Config).

Definition managedAuthFingerprint (authIndex : string) (credentials : CodexCredentials) : CredentialFingerprint :=
  NewCredentialFingerprint Sum256 canonicalJSON (cc_ChatGPTAccountID credentials) (cc_RefreshToken credentials) authIndex.

(** Did the credential in the file change since the record was written? *)
Definition rotated (index : string) (record : option ManagedDisableRecord) (file : AuthFile) : bool :=
  match record, af_credentials file with
  | Some r, Some c => ValidHashes Sum256 (mr_Fingerprint r) && negb (bool_decide (mr_Fingerprint r = managedAuthFingerprint index c))
  | _, _ => false
  end.

(** The record as a quota failure changes it. *)
Definition failureRecord (event : QuotaFailureEvent) (now : Time) (fingerprint : CredentialFingerprint) (record : ManagedDisableRecord)
  : ManagedDisableRecord :=
  let record := if IsZero (mr_DisabledAt record) then record <| mr_DisabledAt := now |> else record in
  let record := record <| mr_Last429At := now |> <| mr_ResetAt := qf_ResetAt event |> <| mr_NextQuotaCheckAt := qf_ResetAt event |> in
  let record := if ValidHashes Sum256 fingerprint then record <| mr_Fingerprint := fingerprint |> else record in
  appendLifecycleEvent record (mkLifecycleEvent "quota_429" now (qf_Reason event)) (LifecycleEventLimit cfg).

(** The first part of [ApplyManagedQuotaDisable]: up to the durable plan.  The
    result is the end of the operation or the file to save. *)
Definition planManagedDisable (s : StateStore) (host : auth_host) (event : QuotaFailureEvent) (env : managed_env)
  : StateStore * (option managed_error + AuthFile) :=
  let index := qf_AuthIndex event in
  if negb (EnableManagedQuotaDisable cfg) || String.eqb index "" then (s, inl None)
  else
    match getAuth host env index with
    | None => (s, inl (Some ErrManagedHost))
    | Some file =>
        if negb (af_object file) then (s, inl (Some ErrManagedJSON))
        else
          let '(s, persisted) := PersistentSnapshot s (me_snapshot env) in
          match persisted with
          | Err e => (s, inl (Some (ErrManagedStore e)))
          | Ok persisted =>
              let record := ps_ManagedLifecycle persisted !! index in
              if af_disabled file && bool_decide (record = None) then (s, inl None)
              else if rotated index record file then
                let '(s, err) := updateRecords s (base.delete index) (me_first env index) in (s, inl err)
              else
                let fingerprint := match af_credentials file with
                                   | Some c => managedAuthFingerprint index c
                                   | None => match record with Some r => mr_Fingerprint r | None => zeroFingerprint end
                                   end in
                let '(s, err) := updateRecords s (fun m => <[index := failureRecord event (me_now env) fingerprint (recordOf m index)]> m)
                                   (me_first env index) in
                match err with
                | Some e => (s, inl (Some e))
                | None => if af_disabled file then (s, inl None) else (s, inr file)
                end
          end
    end.

(** The last part: the record of a disabled flag that was written. *)
Definition confirmManagedDisable (s : StateStore) (index : string) (env : managed_env) : StateStore * option managed_error :=
  updateRecords s (fun m => <[index := appendLifecycleEvent ((recordOf m index) <| mr_DisableApplied := true |>)
                                         (mkLifecycleEvent "disabled" (me_later env) "") (LifecycleEventLimit cfg)]> m) (me_second env index).

Definition ApplyManagedQuotaDisable (s : StateStore) (host : auth_host) (event : QuotaFailureEvent) (env : managed_env)
  : StateStore * auth_host * option managed_error :=
  match planManagedDisable s host event env with
  | (s, inl err) => (s, host, err)
  | (s, inr file) =>
      let '(host, err) := saveDisabled host env (qf_AuthIndex event) file true in
      match err with
      | Some e => (s, host, Some e)
      | None => let '(s, err) := confirmManagedDisable s (qf_AuthIndex event) env in (s, host, err)
      end
  end.

(** ** Recovery *)

Definition settlePlanned (s : StateStore) (host : auth_host) (env : managed_env) (index : string) : StateStore * option managed_error :=
  match getAuth host env index with
  | None => (s, None)
  | Some file =>
      if negb (af_object file) then (s, None)
      else
        updateRecords s (fun m =>
          match m !! index with
          | None => m
          | Some record =>
              if af_disabled file
              then <[index := appendLifecycleEvent (record <| mr_DisableApplied := true |>)
                                (mkLifecycleEvent "disable_confirmed" (me_now env) "") (LifecycleEventLimit cfg)]> m
              else base.delete index m
          end) (me_first env index)
  end.

(** A loop that stops at the first error. *)
Fixpoint managed_loop (step : StateStore -> auth_host -> string -> StateStore * auth_host * option managed_error)
    (s : StateStore) (host : auth_host) (indices : list string) : StateStore * auth_host * option managed_error :=
  match indices with
  | [] => (s, host, None)
  | index :: indices =>
      match step s host index with
      | (s, host, Some e) => (s, host, Some e)
      | (s, host, None) => managed_loop step s host indices
      end
  end.

Definition reconcilePlannedManagedRecords (s : StateStore) (host : auth_host) (env : managed_env) : StateStore * option managed_error :=
  let '(s, persisted) := PersistentSnapshot s (me_snapshot env) in
  match persisted with
  | Err e => (s, Some (ErrManagedStore e))
  | Ok persisted =>
      let planned := (filter (fun ir => mr_DisableApplied ir.2 = false) (map_range (ps_ManagedLifecycle persisted))).*1 in
      let '(s, _, err) := managed_loop (fun s host index => let '(s, err) := settlePlanned s host env index in (s, host, err)) s host planned in
      (s, err)
  end.

Definition recordManagedQuotaCheck (s : StateStore) (index : string) (at_ : Time) (io : store_io) : StateStore * option managed_error :=
  updateRecords s (fun m =>
    match m !! index with
    | None => m
    | Some record =>
        <[index := appendLifecycleEvent (record <| mr_LastQuotaCheckAt := at_ |> <| mr_NextQuotaCheckAt := Add at_ (QuotaRefreshInterval cfg) |>)
                     (mkLifecycleEvent "quota_checked" at_ "") (LifecycleEventLimit cfg)]> m
    end) io.

Definition recoverManagedQuotaAccount (env : managed_env) (s : StateStore) (host : auth_host) (index : string)
  : StateStore * auth_host * option managed_error :=
  let now := me_now env in
  match getAuth host env index with
  | None => (s, host, Some ErrManagedHost)
  | Some file =>
      if negb (af_object file) then (s, host, Some ErrManagedJSON)
      else
        let '(s, persisted) := PersistentSnapshot s (me_snapshot env) in
        match persisted with
        | Err e => (s, host, Some (ErrManagedStore e))
        | Ok persisted =>
            let record := ps_ManagedLifecycle persisted !! index in
            let check := let '(s, err) := recordManagedQuotaCheck s index now (me_first env index) in (s, host, err) in
            let disown := let '(s, err) := updateRecords s (base.delete index) (me_first env index) in (s, host, err) in
            if negb (af_disabled file) then disown
            else
              match af_credentials file with
              | None => check
              | Some credentials =>
                  if String.eqb (cc_ChatGPTAccountID credentials) "" then check
                  else if rotated index record file then disown
                  else
                    match me_quota env index with
                    | None => check
                    | Some quota =>
                        if negb (managedQuotaUsable quota now now (QuotaRefreshInterval cfg)) then check
                        else
                          let '(host, err) := saveDisabled host env index file false in
                          match err with
                          | Some e => (s, host, Some e)
                          | None => let '(s, err) := updateRecords s (base.delete index) (me_second env index) in (s, host, err)
                          end
                    end
              end
        end
  end.

Definition recoveryDue (now : Time) (record : ManagedDisableRecord) : bool :=
  mr_DisableApplied record && (IsZero (mr_NextQuotaCheckAt record) || negb (After (mr_NextQuotaCheckAt record) now)).

Definition RecoverManagedQuotaAccounts (s : StateStore) (host : auth_host) (env : managed_env)
  : StateStore * auth_host * option managed_error :=
  if negb (EnableManagedQuotaDisable cfg) then (s, host, None)
  else
    match reconcilePlannedManagedRecords s host env with
    | (s, Some e) => (s, host, Some e)
    | (s, None) =>
        let '(s, persisted) := PersistentSnapshot s (me_snapshot env) in
        match persisted with
        | Err e => (s, host, Some (ErrManagedStore e))
        | Ok persisted =>
            let due := (filter (fun ir => recoveryDue (me_now env) ir.2 = true) (map_range (ps_ManagedLifecycle persisted))).*1 in
            managed_loop (recoverManagedQuotaAccount env) s host (sortStrings due)
        end
    end.

Definition deadline_step (now deadline : Time) (record : ManagedDisableRecord) : Time :=
  if negb (mr_DisableApplied record) then deadline
  else
    let candidate := mr_NextQuotaCheckAt record in
    let candidate := if IsZero candidate || Before candidate now then now else candidate in
    if IsZero deadline || Before candidate deadline then candidate else deadline.
Definition managedRecoveryDeadline (s : StateStore) (now : Time) (io : load_io) : Time :=
  if negb (EnableManagedQuotaDisable cfg) then zeroTime
  else match (PersistentSnapshot s io).2 with
       | Err _ => zeroTime
       | Ok persisted => foldl (deadline_step now) zeroTime (map_range (ps_ManagedLifecycle persisted)).*2
       end.
End managed.

(** ** Ownership *)

Section ownership.
Context `{MapRange} (Sum256 : string -> string) (canonicalJSON : string -> option string) (cfg : Config).
Context (digest_nonzero : forall x, Sum256 x <> zeroHash).

Local Abbreviation fingerprintOf := (managedAuthFingerprint Sum256 canonicalJSON).

(** The record fits the file it is about. *)
Definition matches (index : string) (record : ManagedDisableRecord) (file : AuthFile) : Prop :=
  forall c, af_credentials file = Some c -> ValidHashes Sum256 (mr_Fingerprint record) = true -> mr_Fingerprint record = fingerprintOf index c.

(** Every flag the plugin set has a matching record. *)
Definition owned (host : auth_host) (st : PersistentState) : Prop :=
  forall index file, host !! index = Some file -> af_disabled file = true -> af_byPlugin file = true ->
    exists record, ps_ManagedLifecycle st !! index = Some record /\ matches index record file.

Lemma owned_written host old st : owned host st -> owned host (written old st).
Proof. unfold owned, written. by destruct (ps_FenceUnsafe old). Qed.

Lemma matches_rotated index record file : matches index record file -> rotated Sum256 canonicalJSON index (Some record) file = false.
Proof.
  unfold matches, rotated. destruct (af_credentials file) as [c|]; [|done]. intros Hm. destruct (ValidHashes _ _) eqn:E; [|done].
  rewrite (Hm c eq_refl eq_refl). by rewrite bool_decide_true.
Qed.

Lemma event_fingerprint record e limit : mr_Fingerprint (appendLifecycleEvent record e limit) = mr_Fingerprint record.
Proof. unfold appendLifecycleEvent. by destruct (limit <=? 0). Qed.

(** An update of the records keeps ownership if its function does. *)
Lemma updateRecords_keeps (Q : PersistentState -> Prop) s fn io s' err :
  keeps Q s -> (forall old st, Q st -> Q (written old st)) ->
  Q ((sto_state s) <| ps_ManagedLifecycle := fn (ps_ManagedLifecycle (sto_state s)) |>) ->
  updateRecords s fn io = (s', err) -> keeps Q s'.
Proof.
  intros Hk Hw Hf. unfold updateRecords. set (f := fun st => Ok _).
  pose proof (update_keeps Q s f (su_load io) (su_backup io) (su_primary io) Hk Hw) as Hu.
  destruct (Update _ _ _ _ _) as [s1 [st|e]]; intros [= <- _]; apply Hu; by intros st' <-%Ok_inj.
Qed.
Lemma updateRecords_synced Q s fn io s' :
  keeps Q s -> updateRecords s fn io = (s', None) ->
  exists st', synced s' st' /\ ps_ManagedLifecycle st' = fn (ps_ManagedLifecycle (sto_state s)).
Proof.
  intros Hk. unfold updateRecords. destruct (Update _ _ _ _ _) as [s1 [st|e]] eqn:Eu; [|done]. intros [= <-].
  destruct (updateMode_success false Q _ _ _ _ _ _ _ Hk Eu) as (next & <-%Ok_inj & Hs & _). eexists. split; [exact Hs|].
  unfold written. by destruct (ps_FenceUnsafe _).
Qed.

Lemma owned_change host st index m' :
  owned host st -> (forall i, i <> index -> m' !! i = ps_ManagedLifecycle st !! i) ->
  (forall file, host !! index = Some file -> af_disabled file = true -> af_byPlugin file = true ->
     exists record, m' !! index = Some record /\ matches index record file) ->
  owned host (st <| ps_ManagedLifecycle := m' |>).
Proof.
  intros Ho Hne Heq i file Hf Hd Hp. cbn. destruct (decide (i = index)) as [-> |Hi]; [by apply Heq|]. rewrite Hne by done. by apply Ho.
Qed.

(** The host may change a file whose record is there, or clear the plugin's mark. *)
Lemma owned_save host st index file :
  owned host st ->
  (af_disabled file = true -> af_byPlugin file = true -> exists record, ps_ManagedLifecycle st !! index = Some record /\ matches index record file) ->
  owned (<[index := file]> host) st.
Proof.
  intros Ho Hf i f. destruct (decide (i = index)) as [-> |Hi]; [rewrite lookup_insert_eq; by intros [= <-]|].
  rewrite lookup_insert_ne by done. apply Ho.
Qed.

Lemma save_cases host env index file d host' err :
  saveDisabled host env index file d = (host', err) ->
  host' = host \/ host' = <[index := file <| af_disabled := d |> <| af_byPlugin := d |>]> host.
Proof. unfold saveDisabled. destruct (me_save env index) as [| |[]]; intros [= <- _]; auto. Qed.

Lemma plan_owned s host event env s' out :
  keeps (owned host) s -> planManagedDisable Sum256 canonicalJSON cfg s host event env = (s', out) ->
  keeps (owned host) s' /\ (forall file, out = inr file -> exists st', synced s' st'
    /\ exists record, ps_ManagedLifecycle st' !! qf_AuthIndex event = Some record /\ matches (qf_AuthIndex event) record file).
Proof.
  intros Hk. unfold planManagedDisable. set (index := qf_AuthIndex event). destruct (_ || _); [by intros [= <- <-]|].
  destruct (getAuth host env index) as [file|] eqn:Eg; [|by intros [= <- <-]]. destruct (negb (af_object file)); [by intros [= <- <-]|].
  rewrite (snapshot_loaded _ _ _ Hk). pose proof (kp_memory _ _ Hk) as Hmem.
  assert (host !! index = Some file) as Hfile by (unfold getAuth in Eg; by destruct (me_getFails env index)).
  destruct (af_disabled file && _) eqn:Ed; [by intros [= <- <-]|]. destruct (rotated _ _ _ _ _) eqn:Er.
  { destruct (updateRecords _ _ _) as [s1 err] eqn:Eu. intros [= <- <-]. split; [|done]. eapply updateRecords_keeps; [done|apply owned_written| |done].
    apply owned_change with index; [done|intros; by rewrite lookup_delete_ne|]. intros f Hf Hd Hp.
    assert (f = file) as -> by congruence. destruct (Hmem index file Hfile Hd Hp) as (record & E & Hm). rewrite E in Er.
    by rewrite (matches_rotated _ _ _ Hm) in Er. }
  set (record := ps_ManagedLifecycle (sto_state s) !! index) in *.
  assert (forall r, matches index (failureRecord Sum256 cfg event (me_now env) match af_credentials file with
      | Some c => fingerprintOf index c | None => match record with Some r => mr_Fingerprint r | None => zeroFingerprint end end r) file) as Hnew.
  { intros r c Hc. unfold failureRecord. rewrite event_fingerprint, Hc.
    rewrite (NewCredentialFingerprint_valid Sum256 canonicalJSON _ _ _ digest_nonzero : ValidHashes Sum256 (fingerprintOf index c) = true). done. }
  destruct (updateRecords _ _ _) as [s1 err] eqn:Eu. intros Hout. split.
  - assert (s' = s1) as -> by (destruct err; [by injection Hout as <- _|destruct (af_disabled file); by injection Hout as <- _]).
    eapply updateRecords_keeps; [done|apply owned_written| |done]. apply owned_change with index; [done|intros; by rewrite lookup_insert_ne|].
    intros f Hf _ _. assert (f = file) as -> by congruence. eexists. by rewrite lookup_insert_eq.
  - intros f ->. destruct err; [done|]. destruct (af_disabled file); [done|]. injection Hout as <- <-.
    destruct (updateRecords_synced _ _ _ _ _ Hk Eu) as (st' & Hs & Em). exists st'. split; [done|]. rewrite Em, lookup_insert_eq. eauto.
Qed.

Lemma owned_enable host s index file :
  af_byPlugin file = false -> keeps (owned host) s -> keeps (owned (<[index := file]> host)) s.
Proof.
  intros Hf [H1 H2 H3 (d & H4 & H5 & H6)]. split; [done|done|apply owned_save; [done|congruence]|].
  exists d. split_and!; [done|done|apply owned_save; [done|congruence]].
Qed.

Lemma confirm_owned s host index env s' err :
  keeps (owned host) s -> confirmManagedDisable cfg s index env = (s', err) -> keeps (owned host) s'.
Proof.
  intros Hk Ec. unfold confirmManagedDisable in Ec. eapply updateRecords_keeps; [done|apply owned_written| |done].
  apply owned_change with index; [apply Hk|intros; by rewrite lookup_insert_ne|]. intros f Hf Hd Hp.
  destruct (kp_memory _ _ Hk _ f Hf Hd Hp) as (r & Er & Hmr). eexists. rewrite lookup_insert_eq. split; [done|].
  unfold recordOf. rewrite Er. unfold matches. rewrite event_fingerprint. exact Hmr.
Qed.

Lemma settle_owned s host env index s' err :
  keeps (owned host) s -> settlePlanned cfg s host env index = (s', err) -> keeps (owned host) s'.
Proof.
  intros Hk. unfold settlePlanned. destruct (getAuth host env index) as [file|] eqn:Eg; [|by intros [= <- <-]].
  destruct (negb (af_object file)); [by intros [= <- <-]|]. intros Eu.
  assert (host !! index = Some file) as Hfile by (unfold getAuth in Eg; by destruct (me_getFails env index)).
  eapply updateRecords_keeps; [done|apply owned_written| |done]. pose proof (kp_memory _ _ Hk) as Hmem. apply owned_change with index; [done| |].
  - intros i Hi. cbn beta. destruct (ps_ManagedLifecycle (sto_state s) !! index); [|done]. destruct (af_disabled file); [by rewrite lookup_insert_ne|by rewrite lookup_delete_ne].
  - intros f Hf Hd Hp. destruct (Hmem _ f Hf Hd Hp) as (r & Er & Hmr). assert (f = file) as -> by congruence. rewrite Er, Hd, lookup_insert_eq.
    eexists. split; [done|]. unfold matches. rewrite event_fingerprint. exact Hmr.
Qed.

Lemma loop_owned step s host indices s' host' err :
  (forall s host index s' host' err, keeps (owned host) s -> step s host index = (s', host', err) -> keeps (owned host') s') ->
  keeps (owned host) s -> managed_loop step s host indices = (s', host', err) -> keeps (owned host') s'.
Proof.
  intros Hstep. revert s host. induction indices as [|i indices IH]; intros s host Hk; cbn [managed_loop]; [by intros [= <- <- <-]|].
  destruct (step s host i) as [[s1 h1] [e|]] eqn:E; [intros [= <- <- <-]|intros Hl; eapply IH; [|exact Hl]]; by eapply Hstep.
Qed.

Lemma planned_owned s host env s' err :
  keeps (owned host) s -> reconcilePlannedManagedRecords cfg s host env = (s', err) -> keeps (owned host) s'.
Proof.
  intros Hk. unfold reconcilePlannedManagedRecords. rewrite (snapshot_loaded _ _ _ Hk). set (planned := (filter _ _).*1).
  set (step := fun s host index => _). destruct (managed_loop _ _ _ _) as [[s1 h1] e1] eqn:El. intros [= <- <-].
  assert (forall l s0 s2 h2 e2, keeps (owned host) s0 -> managed_loop step s0 host l = (s2, h2, e2) -> keeps (owned host) s2) as Hgo.
  { induction l as [|i l IH]; intros s0 s2 h2 e2 Hk0; cbn [managed_loop]; [by intros [= <- <- <-]|]. subst step. cbn beta.
    destruct (settlePlanned cfg s0 host env i) as [s3 [e|]] eqn:E; [intros [= <- <- <-]; by eapply settle_owned|].
    intros Hl. eapply IH; [by eapply settle_owned|exact Hl]. }
  by eapply Hgo.
Qed.

Lemma recover_owned env s host index s' host' err :
  keeps (owned host) s -> recoverManagedQuotaAccount Sum256 canonicalJSON cfg env s host index = (s', host', err) -> keeps (owned host') s'.
Proof.
  intros Hk. unfold recoverManagedQuotaAccount. destruct (getAuth host env index) as [file|] eqn:Eg; [|by intros [= <- <- <-]].
  destruct (negb (af_object file)); [by intros [= <- <- <-]|]. rewrite (snapshot_loaded _ _ _ Hk).
  assert (host !! index = Some file) as Hfile by (unfold getAuth in Eg; by destruct (me_getFails env index)). pose proof (kp_memory _ _ Hk) as Hmem.
  assert (forall s1 e1, recordManagedQuotaCheck cfg s index (me_now env) (me_first env index) = (s1, e1) -> keeps (owned host) s1) as Hcheck.
  { intros s1 e1 E. eapply updateRecords_keeps; [done|apply owned_written| |exact E]. apply owned_change with index; [done| |].
    - intros i Hi. cbn beta. destruct (ps_ManagedLifecycle (sto_state s) !! index); [by rewrite lookup_insert_ne|done].
    - intros f Hf Hd Hp. destruct (Hmem _ f Hf Hd Hp) as (r & Er & Hmr). rewrite Er, lookup_insert_eq. eexists. split; [done|].
      unfold matches. rewrite event_fingerprint. exact Hmr. }
  assert (forall h s0 io s1 e1, keeps (owned h) s0 -> (forall f, h !! index = Some f -> af_disabled f = true -> af_byPlugin f = true -> False) ->
    updateRecords s0 (base.delete index) io = (s1, e1) -> keeps (owned h) s1) as Hdisown.
  { intros h s0 io s1 e1 Hk0 Hno E. eapply updateRecords_keeps; [done|apply owned_written| |exact E].
    apply owned_change with index; [apply Hk0|intros; by rewrite lookup_delete_ne|]. intros f Hf Hd Hp. by destruct (Hno f). }
  destruct (recordManagedQuotaCheck _ _ _ _ _) as [sc ec]. specialize (Hcheck sc ec eq_refl).
  destruct (updateRecords s (base.delete index) (me_first env index)) as [sd ed] eqn:Edis.
  destruct (af_disabled file) eqn:Edf; cbn [negb].
  2: { intros [= <- <- <-]. eapply Hdisown; [exact Hk| |exact Edis]. intros f Hf Hd _. congruence. }
  destruct (af_credentials file) as [c|] eqn:Ecr; [|by intros [= <- <- <-]]. destruct (String.eqb _ ""); [by intros [= <- <- <-]|].
  destruct (rotated _ _ _ _ _) eqn:Er.
  { intros [= <- <- <-]. eapply Hdisown; [exact Hk| |exact Edis]. intros f Hf Hd Hp. assert (f = file) as -> by congruence.
    destruct (Hmem _ file Hf Hd Hp) as (r & E & Hm). rewrite E in Er. by rewrite (matches_rotated _ _ _ Hm) in Er. }
  destruct (me_quota env index) as [quota|]; [|by intros [= <- <- <-]]. destruct (negb (managedQuotaUsable _ _ _ _)); [by intros [= <- <- <-]|].
  destruct (saveDisabled _ _ _ _ _) as [h1 [e|]] eqn:Es.
  - intros [= <- <- <-]. destruct (save_cases _ _ _ _ _ _ _ Es) as [-> | ->]; [done|]. by apply owned_enable.
  - destruct (updateRecords s _ (me_second env index)) as [s2 e2] eqn:E2. intros [= <- <- <-].
    unfold saveDisabled in Es. destruct (me_save env index) as [| |]; [|done|done]. injection Es as <-.
    eapply Hdisown; [| |exact E2].
    + by apply owned_enable.
    + intros f. rewrite lookup_insert_eq. intros [= <-]. done.
Qed.

(** ** Handlers on their own goroutines *)

(** A failure handler after its plan is durable: it holds the file it read, which it
    will save; then, after an accepted save, it has the record to confirm. *)
Inductive handler := Planned (file : AuthFile) | Saved.
Abbreviation handlers := (list (string * handler)) (only parsing).

(** Every file a handler still has to save is backed by a record that fits it. *)
Definition backed (hs : handlers) (st : PersistentState) : Prop :=
  forall index file, (index, Planned file) ∈ hs -> exists record, ps_ManagedLifecycle st !! index = Some record /\ matches index record file.
Definition unplanned (hs : handlers) (index : string) : Prop := forall file, (index, Planned file) ∉ hs.

Lemma backed_written hs old st : backed hs st -> backed hs (written old st).
Proof. unfold backed, written. by destruct (ps_FenceUnsafe old). Qed.

(** A change of the records that concerns one account. *)
Definition local_update (index : string) (s s' : StateStore) : Prop :=
  s' = s \/ exists fn io err, (forall m i, i <> index -> fn m !! i = m !! i) /\ updateRecords s fn io = (s', err).

Lemma local_backed hs index s s' : unplanned hs index -> local_update index s s' -> keeps (backed hs) s -> keeps (backed hs) s'.
Proof.
  intros Hno [-> |(fn & io & err & Hfn & E)] Hk; [done|]. eapply updateRecords_keeps; [done|apply backed_written| |exact E].
  intros i file Hin. cbn. rewrite Hfn by (intros ->; by apply (Hno file)). by apply (kp_memory _ _ Hk).
Qed.

Lemma plan_local s host event env s' out :
  keeps (fun _ => True) s -> planManagedDisable Sum256 canonicalJSON cfg s host event env = (s', out) -> local_update (qf_AuthIndex event) s s'.
Proof.
  intros Hk. unfold planManagedDisable. rewrite (snapshot_loaded _ _ _ Hk). destruct (_ || _); [by intros [= <- _]; left|].
  destruct (getAuth _ _ _) as [file|]; [|by intros [= <- _]; left]. destruct (negb _); [by intros [= <- _]; left|]. destruct (_ && _); [by intros [= <- _]; left|].
  destruct (rotated _ _ _ _ _).
  - destruct (updateRecords _ _ _) as [s1 err] eqn:Eu. intros [= <- _]. right. eexists _, _, _. split; [|exact Eu]. intros m i Hi. by rewrite lookup_delete_ne.
  - destruct (updateRecords _ _ _) as [s1 err] eqn:Eu. intros Hout.
    assert (s' = s1) as -> by (destruct err; [by injection Hout as <- _|destruct (af_disabled file); by injection Hout as <- _]).
    right. eexists _, _, _. split; [|exact Eu]. intros m i Hi. cbn beta. by rewrite lookup_insert_ne.
Qed.
Lemma settle_local s host env index s' err : settlePlanned cfg s host env index = (s', err) -> local_update index s s'.
Proof.
  unfold settlePlanned. destruct (getAuth _ _ _) as [file|]; [|by intros [= <- _]; left]. destruct (negb _); [by intros [= <- _]; left|].
  intros E. right. eexists _, _, _. split; [|exact E]. intros m i Hi. cbn beta. destruct (m !! index); [|done].
  destruct (af_disabled file); [by rewrite lookup_insert_ne|by rewrite lookup_delete_ne].
Qed.
Lemma recover_local env s host index s' host' err :
  keeps (fun _ => True) s -> recoverManagedQuotaAccount Sum256 canonicalJSON cfg env s host index = (s', host', err) -> local_update index s s'.
Proof.
  intros Hk. unfold recoverManagedQuotaAccount. rewrite (snapshot_loaded _ _ _ Hk). destruct (getAuth _ _ _) as [file|]; [|by intros [= <- _ _]; left].
  destruct (negb _); [by intros [= <- _ _]; left|]. cbv zeta.
  destruct (recordManagedQuotaCheck _ _ _ _ _) as [sc ec] eqn:Ec. destruct (updateRecords s (base.delete index) (me_first env index)) as [sd ed] eqn:Ed.
  assert (local_update index s sc) as Hc.
  { right. eexists _, _, _. split; [|exact Ec]. intros m i Hi. cbn beta. destruct (m !! index); [by rewrite lookup_insert_ne|done]. }
  assert (local_update index s sd) as Hd by (right; eexists _, _, _; split; [|exact Ed]; intros; by rewrite lookup_delete_ne).
  destruct (negb _); [by intros [= <- _ _]|]. destruct (af_credentials file) as [c|]; [|by intros [= <- _ _]].
  destruct (String.eqb _ ""); [by intros [= <- _ _]|]. destruct (rotated _ _ _ _ _); [by intros [= <- _ _]|].
  destruct (me_quota env index) as [quota|]; [|by intros [= <- _ _]]. destruct (negb _); [by intros [= <- _ _]|].
  destruct (saveDisabled _ _ _ _ _) as [h1 [e|]]; [by intros [= <- _ _]; left|].
  destruct (updateRecords s _ (me_second env index)) as [s2 e2] eqn:E2. intros [= <- _ _]. right. eexists _, _, _. split; [|exact E2].
  intros m i Hi. by rewrite lookup_delete_ne.
Qed.

Lemma confirm_backed hs s index env s' err :
  keeps (backed hs) s -> confirmManagedDisable cfg s index env = (s', err) -> keeps (backed hs) s'.
Proof.
  intros Hk E. unfold confirmManagedDisable in E. eapply updateRecords_keeps; [done|apply backed_written| |exact E].
  intros i file Hin. destruct (kp_memory _ _ Hk i file Hin) as (r & Er & Hm). cbn. destruct (decide (i = index)) as [-> |Hi].
  - rewrite lookup_insert_eq. eexists. split; [done|]. unfold recordOf. rewrite Er. unfold matches. rewrite event_fingerprint. exact Hm.
  - rewrite lookup_insert_ne by done. eauto.
Qed.

Lemma save_owned s host env index file host' err hs :
  keeps (owned host) s -> keeps (backed hs) s -> (index, Planned file) ∈ hs -> saveDisabled host env index file true = (host', err) -> keeps (owned host') s.
Proof.
  intros [H1 H2 H3 (d & H4 & H5 & H6)] [_ _ B3 (d' & B4 & _ & B6)] Hin Es. assert (d' = d) as -> by congruence.
  destruct (save_cases _ _ _ _ _ _ _ Es) as [-> | ->]; [split; eauto|].
  destruct (B3 _ _ Hin) as (r & Er & Hm), (B6 _ _ Hin) as (r' & Er' & Hm').
  split; [done|done|apply owned_save; [done|]; intros _ _; by exists r|].
  exists d. split_and!; [done|done|apply owned_save; [done|]; intros _ _; by exists r'].
Qed.

(** One step: a handler plans, saves or confirms; a recovery pass, as a whole or one
    account at a time; a restart, which ends the handlers; and whatever an operator
    or the host does to the files, which the plugin then does not own.  Excluded is
    that, while a handler has planned and not yet saved, another handler of the same
    account plans or the recovery of the account runs. *)
Inductive managed_step : StateStore * auth_host * handlers -> StateStore * auth_host * handlers -> Prop :=
  | ms_plan s host hs event env s' out :
      unplanned hs (qf_AuthIndex event) -> planManagedDisable Sum256 canonicalJSON cfg s host event env = (s', out) ->
      managed_step (s, host, hs) (s', host, match out with inr file => (qf_AuthIndex event, Planned file) :: hs | inl _ => hs end)
  | ms_save s host hs1 hs2 index file env host' err :
      saveDisabled host env index file true = (host', err) ->
      managed_step (s, host, hs1 ++ (index, Planned file) :: hs2)
                   (s, host', match err with None => hs1 ++ (index, Saved) :: hs2 | Some _ => hs1 ++ hs2 end)
  | ms_confirm s host hs1 hs2 index env s' err :
      confirmManagedDisable cfg s index env = (s', err) -> managed_step (s, host, hs1 ++ (index, Saved) :: hs2) (s', host, hs1 ++ hs2)
  | ms_settle s host hs env index s' err :
      unplanned hs index -> settlePlanned cfg s host env index = (s', err) -> managed_step (s, host, hs) (s', host, hs)
  | ms_check s host hs env index s' host' err :
      unplanned hs index -> recoverManagedQuotaAccount Sum256 canonicalJSON cfg env s host index = (s', host', err) ->
      managed_step (s, host, hs) (s', host', hs)
  | ms_recover s host hs env s' host' err :
      (forall index, unplanned hs index) -> RecoverManagedQuotaAccounts Sum256 canonicalJSON cfg s host env = (s', host', err) ->
      managed_step (s, host, hs) (s', host', hs)
  | ms_restart s host hs io s' r : Load (NewStateStore (sto_disk s)) io = (s', Ok r) -> managed_step (s, host, hs) (s', host, [])
  | ms_operator s host hs index file : af_byPlugin file = false -> managed_step (s, host, hs) (s, <[index := file]> host, hs)
  | ms_remove s host hs index : managed_step (s, host, hs) (s, base.delete index host, hs).

(** The whole handler is three of these steps. *)
Lemma apply_runs s host hs event env s' host' err :
  unplanned hs (qf_AuthIndex event) -> ApplyManagedQuotaDisable Sum256 canonicalJSON cfg s host event env = (s', host', err) ->
  rtc managed_step (s, host, hs) (s', host', hs).
Proof.
  intros Hno. unfold ApplyManagedQuotaDisable. destruct (planManagedDisable _ _ _ _ _ _ _) as [s1 [e|file]] eqn:Ep.
  - intros [= <- <- _]. apply rtc_once. exact (ms_plan _ _ _ _ _ _ _ Hno Ep).
  - destruct (saveDisabled _ _ _ _ _) as [h1 serr] eqn:Es. intros E. eapply rtc_l; [exact (ms_plan _ _ _ _ _ _ _ Hno Ep)|].
    eapply rtc_l; [exact (ms_save s1 host [] hs _ _ _ _ _ Es)|]. destruct serr; [by injection E as <- <- _|].
    destruct (confirmManagedDisable _ _ _ _) as [s2 cerr] eqn:Ec. injection E as <- <- _. apply rtc_once. exact (ms_confirm _ _ [] hs _ _ _ _ Ec).
Qed.

Definition managed_inv (w : StateStore * auth_host * handlers) : Prop := keeps (owned w.1.2) w.1.1 /\ keeps (backed w.2) w.1.1.

Lemma backed_sub hs hs' s : (forall index file, (index, Planned file) ∈ hs' -> (index, Planned file) ∈ hs) -> keeps (backed hs) s -> keeps (backed hs') s.
Proof. intros Hsub. apply keeps_mono. intros st Hb index file Hin. by apply Hb, Hsub. Qed.
Lemma backed_trivial hs (Q : PersistentState -> Prop) s : (forall index, unplanned hs index) -> keeps Q s -> keeps (backed hs) s.
Proof. intros Hno. apply keeps_mono. intros st _ index file Hin. by destruct (Hno index file). Qed.

Lemma recovery_pass_owned s host env s' host' err :
  keeps (owned host) s -> RecoverManagedQuotaAccounts Sum256 canonicalJSON cfg s host env = (s', host', err) -> keeps (owned host') s'.
Proof.
  intros Hk E. unfold RecoverManagedQuotaAccounts in E. destruct (negb _); [by injection E as <- <- <-|].
  destruct (reconcilePlannedManagedRecords _ _ _ _) as [s1 [e|]] eqn:Ep; [injection E as <- <- <-; by eapply planned_owned|].
  pose proof (planned_owned _ _ _ _ _ Hk Ep) as Hk1. rewrite (snapshot_loaded _ _ _ Hk1) in E.
  eapply loop_owned; [|exact Hk1|exact E]. intros. by eapply recover_owned.
Qed.

Lemma managed_step_inv w w' : managed_step w w' -> managed_inv w -> managed_inv w'.
Proof.
  intros Hstep [Hk Hb]. pose proof (keeps_mono _ (fun _ => True) _ (fun _ _ => I) Hk) as Hl.
  destruct Hstep as [s host hs event env s' out Hno E|s host hs1 hs2 index file env host' err E|s host hs1 hs2 index env s' err E
    |s host hs env index s' err Hno E|s host hs env index s' host' err Hno E|s host hs env s' host' err Hno E|s host hs io s' r E
    |s host hs index file Hf|s host hs index]; unfold managed_inv in *; cbn [fst snd] in *.
  - destruct (plan_owned _ _ _ _ _ _ Hk E) as [Hk' Hplan]. split; [done|].
    pose proof (local_backed _ _ _ _ Hno (plan_local _ _ _ _ _ _ Hl E) Hb) as Hb'. destruct out as [e|file]; [done|].
    destruct (Hplan file eq_refl) as (st' & Hs & record & Hr & Hm). eapply synced_keeps; [exact Hs|].
    intros i f [[= -> ->]|Hin]%elem_of_cons; [by exists record|]. rewrite <- (sy_state _ _ Hs). by apply (kp_memory _ _ Hb').
  - split; [eapply save_owned; [exact Hk|exact Hb| |exact E]; set_solver|]. eapply backed_sub; [|exact Hb]. intros i f. destruct err; set_solver.
  - split; [by eapply confirm_owned|]. eapply backed_sub; [|eapply confirm_backed; [exact Hb|exact E]]. set_solver.
  - split; [by eapply settle_owned|]. eapply local_backed; [done|by eapply settle_local|done].
  - split; [by eapply recover_owned|]. eapply local_backed; [done|by eapply recover_local|done].
  - pose proof (recovery_pass_owned _ _ _ _ _ _ Hk E) as Hk'. split; [done|]. by eapply backed_trivial.
  - pose proof (restart_keeps _ _ _ _ _ Hk E) as Hk'. split; [done|]. eapply backed_trivial; [|exact Hk']. intros i f. apply not_elem_of_nil.
  - split; [by apply owned_enable|done].
  - split; [|done]. assert (forall st, owned host st -> owned (base.delete index host) st) as Hd by (intros st Ho i f (_ & Hf)%lookup_delete_Some; by apply Ho).
    destruct Hk as [H1 H2 H3 (d & H4 & H5 & H6)]. split; [done|done|by apply Hd|]. exists d. split_and!; [done|done|by apply Hd].
Qed.

End ownership.

(** ** What recovery may enable *)

Section recovery.
Context `{MapRange} (Sum256 : string -> string) (canonicalJSON : string -> option string) (cfg : Config).

Lemma updateRecords_memory s fn io s' err :
  keeps (fun _ => True) s -> updateRecords s fn io = (s', err) ->
  keeps (fun _ => True) s'
  /\ (ps_ManagedLifecycle (sto_state s') = ps_ManagedLifecycle (sto_state s)
      \/ ps_ManagedLifecycle (sto_state s') = fn (ps_ManagedLifecycle (sto_state s))).
Proof.
  intros Hk E. split; [by eapply updateRecords_keeps; [exact Hk|done|done|]|]. destruct err as [e|].
  - left. unfold updateRecords in E. destruct (Update _ _ _ _ _) as [s1 [st|e1]] eqn:Eu; [done|]. injection E as <- _.
    by rewrite (updateMode_failure false _ _ _ _ _ _ _ _ Hk Eu).
  - right. destruct (updateRecords_synced _ _ _ _ _ Hk E) as (st' & Hs & Em). by rewrite (sy_state _ _ Hs).
Qed.

(** What a recovery of one account found when it enabled it. *)
Definition enabled (env : managed_env) (s : StateStore) (host host' : auth_host) (index : string) : Prop :=
  exists file quota, host !! index = Some file /\ af_disabled file = true
    /\ rotated Sum256 canonicalJSON index (ps_ManagedLifecycle (sto_state s) !! index) file = false
    /\ me_quota env index = Some quota /\ managedQuotaUsable quota (me_now env) (me_now env) (QuotaRefreshInterval cfg) = true
    /\ host' !! index = Some (file <| af_disabled := false |> <| af_byPlugin := false |>).

Definition framed (index : string) (s s' : StateStore) (host host' : auth_host) : Prop :=
  keeps (fun _ => True) s' /\ forall i, i <> index ->
    host' !! i = host !! i /\ ps_ManagedLifecycle (sto_state s') !! i = ps_ManagedLifecycle (sto_state s) !! i.

Lemma update_framed index s host fn io s' err :
  keeps (fun _ => True) s -> (forall m i, i <> index -> fn m !! i = m !! i) -> updateRecords s fn io = (s', err) -> framed index s s' host host.
Proof.
  intros Hk Hfn E. destruct (updateRecords_memory _ _ _ _ _ Hk E) as [Hk' Hm]. split; [done|]. intros i Hi. split; [done|].
  destruct Hm as [-> | ->]; [done|by apply Hfn].
Qed.

Lemma recover_step env s host j s' host' err :
  keeps (fun _ => True) s -> recoverManagedQuotaAccount Sum256 canonicalJSON cfg env s host j = (s', host', err) ->
  framed j s s' host host' /\ (host' !! j = host !! j \/ enabled env s host host' j).
Proof.
  intros Hk. unfold recoverManagedQuotaAccount. assert (framed j s s host host) as Hsame by (split; [done|by intros]).
  destruct (getAuth host env j) as [file|] eqn:Eg; [|intros [= <- <- <-]; eauto]. destruct (negb (af_object file)); [intros [= <- <- <-]; eauto|].
  rewrite (snapshot_loaded _ _ _ Hk). assert (host !! j = Some file) as Hfile by (unfold getAuth in Eg; by destruct (me_getFails env j)).
  destruct (recordManagedQuotaCheck _ _ _ _ _) as [sc ec] eqn:Ec.
  assert (framed j s sc host host) as Hc.
  { eapply update_framed; [done| |exact Ec]. intros m i Hi. cbn beta. destruct (m !! j); [by rewrite lookup_insert_ne|done]. }
  destruct (updateRecords s (base.delete j) (me_first env j)) as [sd ed] eqn:Ed.
  assert (framed j s sd host host) as Hd by (eapply update_framed; [done| |exact Ed]; intros; by rewrite lookup_delete_ne).
  destruct (af_disabled file) eqn:Edf; cbn [negb]; [|intros [= <- <- <-]; eauto]. destruct (af_credentials file) as [c|]; [|intros [= <- <- <-]; eauto].
  destruct (String.eqb _ ""); [intros [= <- <- <-]; eauto|]. destruct (rotated _ _ _ _ _) eqn:Er; [intros [= <- <- <-]; eauto|].
  destruct (me_quota env j) as [quota|] eqn:Eq; [|intros [= <- <- <-]; eauto].
  destruct (managedQuotaUsable _ _ _ _) eqn:Eu; cbn [negb]; [|intros [= <- <- <-]; eauto].
  destruct (saveDisabled _ _ _ _ _) as [h1 serr] eqn:Es.
  assert (h1 !! j = host !! j \/ enabled env s host h1 j) as Hj.
  { destruct (save_cases _ _ _ _ _ _ _ Es) as [-> | ->]; [by left|right]. exists file, quota. by rewrite lookup_insert_eq. }
  assert (forall i, i <> j -> h1 !! i = host !! i) as Hh by (intros i Hi; destruct (save_cases _ _ _ _ _ _ _ Es) as [-> | ->]; [done|by rewrite lookup_insert_ne]).
  destruct serr as [e|]; [intros [= <- <- <-]; split; [split; [done|auto]|done]|].
  destruct (updateRecords s _ (me_second env j)) as [s2 e2] eqn:E2. intros [= <- <- <-]. split; [|done].
  destruct (update_framed j s host _ _ _ _ Hk (fun m i Hi => lookup_delete_ne m j i (not_eq_sym Hi)) E2) as [Hk2 Hf2].
  split; [done|]. intros i Hi. split; [auto|by apply Hf2].
Qed.

Lemma enabled_framed env j i s s1 host h1 host' :
  framed j s s1 host h1 -> i <> j -> enabled env s1 h1 host' i -> enabled env s host host' i.
Proof. intros [_ Hf] Hi (file & quota & H1 & H2 & H3 & H4). destruct (Hf i Hi) as [E1 E2]. exists file, quota. by rewrite <- E1, <- E2. Qed.

Lemma loop_enables env l s host s' host' err :
  keeps (fun _ => True) s -> NoDup l -> managed_loop (recoverManagedQuotaAccount Sum256 canonicalJSON cfg env) s host l = (s', host', err) ->
  forall i, (i ∉ l -> host' !! i = host !! i) /\ (i ∈ l -> host' !! i = host !! i \/ enabled env s host host' i).
Proof.
  revert s host. induction l as [|j l IH]; intros s host Hk Hnd; cbn [managed_loop].
  { intros [= <- <- <-] i. split; [done|by left]. }
  apply NoDup_cons in Hnd as [Hj Hnd].
  destruct (recoverManagedQuotaAccount _ _ _ _ _ _ _) as [[s1 h1] e1] eqn:E. destruct (recover_step _ _ _ _ _ _ _ Hk E) as [Hf Hcase].
  destruct e1 as [e|].
  - intros [= <- <- <-] i. rewrite elem_of_cons. destruct (decide (i = j)) as [-> |Hi]; [naive_solver|].
    destruct (proj2 Hf i Hi) as [E1 _]. rewrite E1. split; [done|by left].
  - intros Hl i. specialize (IH s1 h1 (proj1 Hf) Hnd Hl i) as [IH1 IH2]. rewrite elem_of_cons. destruct (decide (i = j)) as [-> |Hi].
    + split; [naive_solver|]. intros _. rewrite IH1 by done. destruct Hcase as [|(file & quota & Hen)]; [by left|right].
      exists file, quota. by rewrite IH1.
    + destruct (proj2 Hf i Hi) as [E1 _]. rewrite <- E1. split; [naive_solver|]. intros [?|Hin]; [done|].
      destruct (IH2 Hin) as [|Hen]; [by left|right]. by eapply enabled_framed.
Qed.

(** Settling the planned records creates none and keeps their fingerprints. *)
Definition subrecords (m m' : gmap string ManagedDisableRecord) : Prop :=
  forall i r', m' !! i = Some r' -> exists r, m !! i = Some r /\ mr_Fingerprint r = mr_Fingerprint r'.

Lemma settle_sub s host env index s' err :
  keeps (fun _ => True) s -> settlePlanned cfg s host env index = (s', err) ->
  keeps (fun _ => True) s' /\ subrecords (ps_ManagedLifecycle (sto_state s)) (ps_ManagedLifecycle (sto_state s')).
Proof.
  intros Hk. assert (subrecords (ps_ManagedLifecycle (sto_state s)) (ps_ManagedLifecycle (sto_state s))) as Hrefl by (intros i r' ?; eauto).
  unfold settlePlanned. destruct (getAuth host env index) as [file|]; [|by intros [= <- <-]]. destruct (negb _); [by intros [= <- <-]|].
  intros E. destruct (updateRecords_memory _ _ _ _ _ Hk E) as [Hk' [-> | ->]]; [done|]. split; [done|]. cbn beta.
  destruct (ps_ManagedLifecycle (sto_state s) !! index) as [r|] eqn:Er; [|done]. destruct (af_disabled file).
  - intros i r' [[<- <-]|[_ Hi]]%lookup_insert_Some; [|eauto]. exists r. split; [done|]. by rewrite event_fingerprint.
  - intros i r' [_ Hi]%lookup_delete_Some. eauto.
Qed.

Lemma planned_sub s host env s' err :
  keeps (fun _ => True) s -> reconcilePlannedManagedRecords cfg s host env = (s', err) ->
  keeps (fun _ => True) s' /\ subrecords (ps_ManagedLifecycle (sto_state s)) (ps_ManagedLifecycle (sto_state s')).
Proof.
  intros Hk. unfold reconcilePlannedManagedRecords. rewrite (snapshot_loaded _ _ _ Hk). set (planned := (filter _ _).*1). clearbody planned.
  set (step := fun s host index => _). destruct (managed_loop _ _ _ _) as [[s1 h1] e1] eqn:El. intros [= <- <-].
  revert s h1 Hk El. induction planned as [|i l IH]; intros s h1 Hk; cbn [managed_loop].
  - intros [= <- <- <-]. split; [done|]. intros j r' ?; eauto.
  - subst step. cbn beta. destruct (settlePlanned cfg s host env i) as [s2 [e|]] eqn:E; destruct (settle_sub _ _ _ _ _ _ Hk E) as [Hk2 Hs2].
    + by intros [= <- <- <-].
    + intros El. destruct (IH s2 h1 Hk2 El) as [Hk3 Hs3]. split; [done|]. intros j r' Hr'.
      destruct (Hs3 j r' Hr') as (r2 & Hr2 & E2). destruct (Hs2 j r2 Hr2) as (r & Hr & E1). exists r. split; [done|congruence].
Qed.

(** Recovery enables only what the plugin owns and what is usable: if a recovery
    pass changes an auth file, the feature is on, the plugin had an ownership record
    for it before the pass, the file was disabled with a credential that fits the
    record, a quota read in this pass was usable by both windows, and the change
    clears the flag; a disabled file without a record is never touched. *)
Theorem recovery_enables_only_owned (s s' : StateStore) (host host' : auth_host) (env : managed_env) (err : option managed_error) (index : string) :
  keeps (fun _ => True) s -> RecoverManagedQuotaAccounts Sum256 canonicalJSON cfg s host env = (s', host', err) ->
  host' !! index = host !! index
  \/ EnableManagedQuotaDisable cfg = true
     /\ exists record file quota, ps_ManagedLifecycle (sto_state s) !! index = Some record
        /\ host !! index = Some file /\ af_disabled file = true /\ rotated Sum256 canonicalJSON index (Some record) file = false
        /\ me_quota env index = Some quota /\ managedQuotaUsable quota (me_now env) (me_now env) (QuotaRefreshInterval cfg) = true
        /\ host' !! index = Some (file <| af_disabled := false |> <| af_byPlugin := false |>).
Proof.
  intros Hk. unfold RecoverManagedQuotaAccounts. destruct (EnableManagedQuotaDisable cfg); cbn [negb]; [|intros [= <- <- <-]; by left].
  destruct (reconcilePlannedManagedRecords _ _ _ _) as [s1 e1] eqn:Ep. destruct (planned_sub _ _ _ _ _ Hk Ep) as [Hk1 Hsub].
  destruct e1 as [e|]; [intros [= <- <- <-]; by left|]. rewrite (snapshot_loaded _ _ _ Hk1). set (due := (filter _ _).*1). intros El.
  assert (NoDup (sortStrings due)) as Hnd.
  { unfold sortStrings. rewrite sort_slice_perm. apply NoDup_fmap_fst.
    - intros k v1 v2 [_ H1]%list_elem_of_filter [_ H2]%list_elem_of_filter. apply elem_of_map_range in H1, H2. congruence.
    - apply NoDup_filter. rewrite map_range_perm. apply NoDup_map_to_list. }
  destruct (loop_enables _ _ _ _ _ _ _ Hk1 Hnd El index) as [Hout Hin].
  destruct (decide (index ∈ sortStrings due)) as [Hd|Hd]; [|left; by apply Hout].
  destruct (Hin Hd) as [|(file & quota & Hf & Hdis & Hrot & Hq & Hu & Hh)]; [by left|right]. split; [done|].
  rewrite elem_of_sortStrings in Hd. apply list_elem_of_fmap in Hd as ([k r1] & -> & [_ Hr1]%list_elem_of_filter). apply elem_of_map_range in Hr1.
  cbn [fst] in *. destruct (Hsub _ _ Hr1) as (r & Hr & Ef). exists r, file, quota. split_and!; try done.
  rewrite Hr1 in Hrot. unfold rotated in *. destruct (af_credentials file); [|done]. by rewrite Ef.
Qed.
End recovery.

(** ** Examples *)

Definition example_digest : string -> string := fun x => "h" +:+ x.
Lemma example_digest_nonzero x : example_digest x <> zeroHash.
Proof. discriminate. Qed.
Definition example_noCanonical : string -> option string := fun _ => None.
Definition example_managed : Config := DefaultConfig <| EnableManagedQuotaDisable := true |>.
Definition example_file : AuthFile := mkAuthFile "a.json" true false (Some (mkCodexCredentials "at" "rt" "" "acc" zeroTime)) false.
Definition example_files : auth_host := {["1" := example_file]}.
Definition example_failure : QuotaFailureEvent := mkFailureEvent "a" "1" (3 * Hour) "usage_limit_reached".
Definition example_usable : ParsedQuota := emptyQuota <| pq_LongWindow := Some (mkQuotaWindow WindowWeekly (Some (f_of_Z 10)) None (9 * Hour) false) |>.
Definition example_answers (save : save_outcome) (now : Time) : managed_env :=
  mkManagedEnv (fun _ => false) (fun _ => save) (fun _ => Some example_usable) now now io_fine (fun _ => store_fine) (fun _ => store_fine).

(** A quota failure whose save reports an error although it took effect. *)
Definition example_disabled : StateStore * auth_host * option managed_error :=
  ApplyManagedQuotaDisable example_digest example_noCanonical example_managed example_store example_files example_failure
    (example_answers (SaveFailed true) (1 * Hour)).
Definition example_disabled_file : AuthFile := default example_file (example_disabled.1.2 !! "1").
Definition example_enabled : StateStore * auth_host * option managed_error :=
  RecoverManagedQuotaAccounts example_digest example_noCanonical example_managed example_disabled.1.1 example_disabled.1.2
    (example_answers SaveAccepted (4 * Hour)).

Lemma example_store_synced : synced example_store (sto_state example_store).
Proof. by split. Qed.
Lemma example_disabled_loaded : keeps (fun _ => True) example_disabled.1.1.
Proof. split; [vm_compute; reflexivity..|exact I|]. eexists. split; [vm_compute; reflexivity|]. split; [vm_compute; reflexivity|exact I]. Qed.


Lemma recovery_enables_only_owned_witness :
  af_disabled <$> (example_enabled.1.2 !! "1") = Some false
  /\ EnableManagedQuotaDisable example_managed = true
  /\ exists record file quota, ps_ManagedLifecycle (sto_state example_disabled.1.1) !! "1" = Some record
       /\ example_disabled.1.2 !! "1" = Some file /\ af_disabled file = true
       /\ rotated example_digest example_noCanonical "1" (Some record) file = false
       /\ Some example_usable = Some quota /\ managedQuotaUsable quota (4 * Hour) (4 * Hour) (QuotaRefreshInterval example_managed) = true
       /\ example_enabled.1.2 !! "1" = Some (file <| af_disabled := false |> <| af_byPlugin := false |>).
Proof.
  split; [vm_compute; reflexivity|].
  destruct (recovery_enables_only_owned example_digest example_noCanonical example_managed example_disabled.1.1 example_enabled.1.1
    example_disabled.1.2 example_enabled.1.2 (example_answers SaveAccepted (4 * Hour)) example_enabled.2 "1" example_disabled_loaded (triple_eta example_enabled))
    as [E|E]; [vm_compute in E; discriminate E|exact E].
Defined.

(** ** A recovery pass between plan and save *)

(** The failure handler runs on its own goroutine.  A recovery pass that runs after
    its plan is durable and before its save finds the file enabled, takes the plan
    for stale and drops the record; the save then disables the file.  If the process
    stops there, the file stays disabled, no record owns it, and no recovery pass
    will ever enable it. *)
Theorem recovery_between_plan_and_save_orphans :
  let env := example_answers SaveAccepted (1 * Hour) in
  let '(s1, planned) := planManagedDisable example_digest example_noCanonical example_managed example_store example_files example_failure env in
  let '(s2, host2, err2) := RecoverManagedQuotaAccounts example_digest example_noCanonical example_managed s1 example_files env in
  exists file, planned = inr file /\ err2 = None
    /\ let host3 := (saveDisabled host2 env "1" file true).1 in
       af_disabled <$> (host3 !! "1") = Some true /\ ps_ManagedLifecycle (sto_state s2) !! "1" = None
       /\ (RecoverManagedQuotaAccounts example_digest example_noCanonical example_managed s2 host3 (example_answers SaveAccepted (9 * Hour))).1.2 = host3.
Proof. vm_compute. eexists. repeat split; reflexivity. Qed.

(** An event history never outgrows its limit. *)
Lemma appendLifecycleEvent_bounded record event limit :
  0 < limit -> Z.of_nat (length (mr_Events record)) <= limit -> Z.of_nat (length (mr_Events (appendLifecycleEvent record event limit))) <= limit.
Proof.
  intros Hl Hb. unfold appendLifecycleEvent. destruct (Z.leb_spec limit 0); [lia|]. cbn. rewrite length_app. cbn [length].
  destruct (Z.ltb_spec 0 (Z.of_nat (length (mr_Events record) + 1) - limit)); [rewrite length_drop|]; rewrite length_app; cbn [length]; lia.
Qed.
