(* ===== verification/Json.v ===== *)
(** * JSON values (encoding/json)

    What the program uses of [encoding/json]: [json.Valid], and [json.Unmarshal]
    into [any] and into maps of raw messages.  A value keeps its objects as lists
    of fields in the order of the text, duplicates included, and its numbers as
    literals; reading a field takes the last duplicate, as the decoder does.

    The parser is recursive descent with fuel; [Unmarshal] gives it more fuel
    than the text has bytes, and [parse_fuel] shows that more makes no
    difference. *)

From S2P Require Import Prelude GoStrings Float64.
From Stdlib Require Import Ascii.
#[local] Open Scope string_scope.
#[local] Open Scope list_scope.
#[local] Open Scope Z_scope.
#[local] Open Scope go_scope.

Inductive json :=
  | JNull
  | JBool (b : bool)
  | JNumber (literal : string)
  | JString (s : string)
  | JArray (items : list json)
  | JObject (fields : list (string * json)).

(** ** Bytes and runes *)

Definition code (c : ascii) : Z := Z.of_N (N_of_ascii c).
Definition byte (n : Z) : ascii := ascii_of_N (Z.to_N n).
Definition chr (n : Z) : string := String (byte n) EmptyString.

(** [utf8.EncodeRune] *)
Definition encodeRune (r : Z) : string :=
  if r <? 128 then chr r
  else if r <? 2048 then chr (192 + Z.shiftr r 6) +:+ chr (128 + Z.land r 63)
  else if r <? 65536 then chr (224 + Z.shiftr r 12) +:+ chr (128 + Z.land (Z.shiftr r 6) 63) +:+ chr (128 + Z.land r 63)
  else chr (240 + Z.shiftr r 18) +:+ chr (128 + Z.land (Z.shiftr r 12) 63)
       +:+ chr (128 + Z.land (Z.shiftr r 6) 63) +:+ chr (128 + Z.land r 63).
Definition runeError : Z := 65533.

(** The length of a valid encoded rune at the front of a string, as
    [utf8.DecodeRune] accepts it, for the bytes beyond ASCII. *)
Definition cont (lo hi : Z) (c : ascii) : bool := (lo <=? code c) && (code c <=? hi).
Definition runeLength (c : ascii) (s : string) : nat :=
  let n := code c in
  match s with
  | String c1 s1 =>
      if (194 <=? n) && (n <=? 223) then if cont 128 191 c1 then 2%nat else 0%nat
      else
        match s1 with
        | String c2 s2 =>
            if (224 <=? n) && (n <=? 239) then
              let lo := if n =? 224 then 160 else 128 in
              let hi := if n =? 237 then 159 else 191 in
              if cont lo hi c1 && cont 128 191 c2 then 3%nat else 0%nat
            else
              match s2 with
              | String c3 _ =>
                  if (240 <=? n) && (n <=? 244) then
                    let lo := if n =? 240 then 144 else 128 in
                    let hi := if n =? 244 then 143 else 191 in
                    if cont lo hi c1 && cont 128 191 c2 && cont 128 191 c3 then 4%nat else 0%nat
                  else 0%nat
              | EmptyString => 0%nat
              end
        | EmptyString => 0%nat
        end
  | EmptyString => 0%nat
  end.

(** ** Tokens *)

Definition is_space (c : ascii) : bool := (code c =? 32) || (code c =? 9) || (code c =? 10) || (code c =? 13).
Fixpoint skip (s : string) : string :=
  match s with String c rest => if is_space c then skip rest else s | EmptyString => s end.

Definition is_digit (c : ascii) : bool := (48 <=? code c) && (code c <=? 57).
Fixpoint digits (s : string) : string * string :=
  match s with
  | String c rest => if is_digit c then let '(d, r) := digits rest in (String c d, r) else (EmptyString, s)
  | EmptyString => (EmptyString, s)
  end.

(** The literal of a number at the front, and the rest. *)
Definition p_int (s : string) : option (string * string) :=
  match s with
  | String c rest => if code c =? 48 then Some (chr 48, rest)
                     else if is_digit c then Some (digits s) else None
  | EmptyString => None
  end.
Definition p_frac (s : string) : option (string * string) :=
  match s with
  | String c rest => if code c =? 46 then
                       let '(d, r) := digits rest in if String.eqb d "" then None else Some (String c d, r)
                     else Some (EmptyString, s)
  | EmptyString => Some (EmptyString, s)
  end.
Definition p_sign (s : string) : string * string :=
  match s with
  | String c rest => if (code c =? 43) || (code c =? 45) then (chr (code c), rest) else (EmptyString, s)
  | EmptyString => (EmptyString, s)
  end.
Definition p_exp (s : string) : option (string * string) :=
  match s with
  | String c rest => if (code c =? 69) || (code c =? 101) then
                       let '(sg, r) := p_sign rest in
                       let '(d, r) := digits r in if String.eqb d "" then None else Some (String c (sg +:+ d), r)
                     else Some (EmptyString, s)
  | EmptyString => Some (EmptyString, s)
  end.
Definition p_number (s : string) : option (string * string) :=
  let '(neg, s) := match s with
                   | String c rest => if code c =? 45 then (chr 45, rest) else (EmptyString, s)
                   | EmptyString => (EmptyString, s)
                   end in
  match p_int s with
  | None => None
  | Some (i, s) => match p_frac s with
                   | None => None
                   | Some (f, s) => match p_exp s with
                                    | None => None
                                    | Some (e, s) => Some (neg +:+ i +:+ f +:+ e, s)
                                    end
                   end
  end.

Definition hex (c : ascii) : option Z :=
  if is_digit c then Some (code c - 48)
  else if (97 <=? code c) && (code c <=? 102) then Some (code c - 87)
  else if (65 <=? code c) && (code c <=? 70) then Some (code c - 55)
  else None.
Definition hex4 (s : string) : option (Z * string) :=
  match s with
  | String a (String b (String c (String d rest))) =>
      match hex a, hex b, hex c, hex d with
      | Some a, Some b, Some c, Some d => Some (((a * 16 + b) * 16 + c) * 16 + d, rest)
      | _, _, _, _ => None
      end
  | _ => None
  end.

Definition simple_escape (n : Z) : option Z :=
  if n =? 34 then Some 34 else if n =? 92 then Some 92 else if n =? 47 then Some 47
  else if n =? 98 then Some 8 else if n =? 102 then Some 12 else if n =? 110 then Some 10
  else if n =? 114 then Some 13 else if n =? 116 then Some 9 else None.

Definition is_surrogate (r : Z) : bool := (55296 <=? r) && (r <=? 57343).

(** The rune of [\uXXXX], with the second half of a surrogate pair if it follows. *)
Definition p_unicode (s : string) : option (Z * string) :=
  match hex4 s with
  | None => None
  | Some (r, rest) =>
      if negb (is_surrogate r) then Some (r, rest)
      else
        match rest with
        | String b (String u rest2) =>
            if (code b =? 92) && (code u =? 117) then
              match hex4 rest2 with
              | Some (r2, rest3) =>
                  if (r <=? 56319) && (56320 <=? r2) && (r2 <=? 57343)
                  then Some (65536 + Z.shiftl (r - 55296) 10 + (r2 - 56320), rest3)
                  else Some (runeError, rest)
              | None => Some (runeError, rest)
              end
            else Some (runeError, rest)
        | _ => Some (runeError, rest)
        end
  end.

(** The body of a string up to its closing quote: the decoded value and the rest. *)
Fixpoint p_string (fuel : nat) (s : string) : option (string * string) :=
  match fuel with
  | O => None
  | S fuel =>
      match s with
      | EmptyString => None
      | String c rest =>
          let n := code c in
          if n =? 34 then Some (EmptyString, rest)
          else if n <? 32 then None
          else if n =? 92 then
            match rest with
            | EmptyString => None
            | String e rest =>
                match simple_escape (code e) with
                | Some v => match p_string fuel rest with Some (t, r) => Some (chr v +:+ t, r) | None => None end
                | None =>
                    if code e =? 117 then
                      match p_unicode rest with
                      | Some (r, rest) => match p_string fuel rest with Some (t, r2) => Some (encodeRune r +:+ t, r2) | None => None end
                      | None => None
                      end
                    else None
                end
            end
          else if n <? 128 then
            match p_string fuel rest with Some (t, r) => Some (String c t, r) | None => None end
          else
            let k := runeLength c rest in
            let '(v, rest) := if Nat.eqb k 0 then (encodeRune runeError, rest)
                              else (String c (String.substring 0 (k - 1) rest), String.substring (k - 1) (String.length rest) rest) in
            match p_string fuel rest with Some (t, r) => Some (v +:+ t, r) | None => None end
      end
  end.

Definition p_keyword (word : string) (v : json) (s : string) : option (json * string) :=
  if String.prefix word s then Some (v, String.substring (String.length word) (String.length s) s) else None.

(** ** Values *)

Definition maxNestingDepth : Z := 10000.

Fixpoint p_value (fuel : nat) (depth : Z) (s : string) : option (json * string) :=
  match fuel with
  | O => None
  | S fuel =>
      match skip s with
      | EmptyString => None
      | String c rest =>
          let n := code c in
          if n =? 123 then
            if maxNestingDepth <? depth + 1 then None
            else match skip rest with
                 | String d rest2 => if code d =? 125 then Some (JObject [], rest2) else p_members fuel (depth + 1) rest
                 | EmptyString => None
                 end
          else if n =? 91 then
            if maxNestingDepth <? depth + 1 then None
            else match skip rest with
                 | String d rest2 => if code d =? 93 then Some (JArray [], rest2) else p_items fuel (depth + 1) rest
                 | EmptyString => None
                 end
          else if n =? 34 then match p_string (S (String.length rest)) rest with Some (t, r) => Some (JString t, r) | None => None end
          else if n =? 110 then p_keyword "null" JNull (String c rest)
          else if n =? 116 then p_keyword "true" (JBool true) (String c rest)
          else if n =? 102 then p_keyword "false" (JBool false) (String c rest)
          else match p_number (String c rest) with Some (lit, r) => Some (JNumber lit, r) | None => None end
      end
  end
with p_members (fuel : nat) (depth : Z) (s : string) : option (json * string) :=
  match fuel with
  | O => None
  | S fuel =>
      match skip s with
      | EmptyString => None
      | String c rest =>
          if negb (code c =? 34) then None
          else
            match p_string (S (String.length rest)) rest with
            | None => None
            | Some (key, r) =>
                match skip r with
                | EmptyString => None
                | String c r =>
                    if negb (code c =? 58) then None
                    else
                      match p_value fuel depth r with
                      | None => None
                      | Some (v, r) =>
                          match skip r with
                          | EmptyString => None
                          | String c r =>
                              if code c =? 125 then Some (JObject [(key, v)], r)
                              else if code c =? 44 then
                                match p_members fuel depth r with
                                | Some (JObject fields, r) => Some (JObject ((key, v) :: fields), r)
                                | _ => None
                                end
                              else None
                          end
                      end
                end
            end
      end
  end
with p_items (fuel : nat) (depth : Z) (s : string) : option (json * string) :=
  match fuel with
  | O => None
  | S fuel =>
      match p_value fuel depth s with
      | None => None
      | Some (v, r) =>
          match skip r with
          | EmptyString => None
          | String c r =>
              if code c =? 93 then Some (JArray [v], r)
              else if code c =? 44 then
                match p_items fuel depth r with
                | Some (JArray items, r) => Some (JArray (v :: items), r)
                | _ => None
                end
              else None
          end
      end
  end.

(** The syntax check, and the value of a text that passes it. *)
Definition parse_with (fuel : nat) (s : string) : option json :=
  match p_value fuel 0 s with
  | Some (v, rest) => if String.eqb (skip rest) "" then Some v else None
  | None => None
  end.
Definition parse (s : string) : option json := parse_with (S (2 * String.length s)) s.
Definition Valid (s : string) : bool := bool_decide (is_Some (parse s)).

(** ** Decoding

    [json.Unmarshal] checks the syntax of the whole text first; decoding a
    number into [any] then fails when no finite [float64] is nearest to it. *)

Fixpoint decimal (s : string) : Z * Z :=
  match s with
  | String c rest => let '(v, k) := decimal rest in ((code c - 48) * 10 ^ k + v, k + 1)
  | EmptyString => (0, 0)
  end.

(** A literal as its sign, the digits before and after the point and the
    exponent. *)
Record number := mkNumber { n_negative : bool; n_int : string; n_frac : string; n_exp : Z }.

Definition split_number (lit : string) : number :=
  let '(neg, s) := match lit with
                   | String c rest => if code c =? 45 then (true, rest) else (false, lit)
                   | EmptyString => (false, lit)
                   end in
  let '(i, s) := digits s in
  let '(f, s) := match s with
                 | String c rest => if code c =? 46 then digits rest else (EmptyString, s)
                 | EmptyString => (EmptyString, s)
                 end in
  let e := match s with
           | String _ rest => let '(sg, r) := p_sign rest in
                              (if String.eqb sg "-" then -1 else 1) * (decimal r).1
           | EmptyString => 0
           end in
  mkNumber neg i f e.

(** The nearest [float64] of [m * 10^e], half to even; a value beyond the range
    is infinite.  Exponents are cut off where every value of at most [k] digits
    is zero or infinite, so that no needless power is computed. *)
Definition f_decimal (neg : bool) (m : Z) (k e : Z) : float64 :=
  match m with
  | Zpos p =>
      if 400 <? e then S754_infinity neg
      else if e <? - (k + 400) then S754_zero neg
      else
        let sign := fun z => if neg then - z else z in
        if 0 <=? e then binary_normalize 53 1024 (sign (m * 10 ^ e)) 0 false
        else SFdiv 53 1024 (S754_finite neg p 0) (S754_finite false (Z.to_pos (10 ^ (- e))) 0)
  | _ => S754_zero neg
  end.

Definition ParseFloat (lit : string) : option float64 :=
  let n := split_number lit in
  let '(m, k) := decimal (n_int n +:+ n_frac n) in
  let f := f_decimal (n_negative n) m k (n_exp n - Z.of_nat (String.length (n_frac n))) in
  match f with S754_infinity _ => None | _ => Some f end.

(** Whether every number of a value has a [float64]. *)
Fixpoint decodable (v : json) : bool :=
  match v with
  | JNumber lit => bool_decide (is_Some (ParseFloat lit))
  | JArray items => forallb decodable items
  | JObject fields => forallb (fun kv => decodable kv.2) fields
  | _ => true
  end.

(** [json.Unmarshal] into a variable of type [any]. *)
Definition UnmarshalAny (s : string) : option json :=
  match parse s with Some v => if decodable v then Some v else None | None => None end.

(** A field of an object: the last of its duplicates. *)
Fixpoint field (key : string) (fields : list (string * json)) : option json :=
  match fields with
  | [] => None
  | (k, v) :: rest => match field key rest with
                      | Some w => Some w
                      | None => if String.eqb k key then Some v else None
                      end
  end.
Definition getField (key : string) (v : json) : option json :=
  match v with JObject fields => field key fields | _ => None end.

(** A text with each apostrophe for a double quote. *)
Fixpoint js (s : string) : string :=
  match s with
  | String c rest => String (if code c =? 39 then byte 34 else c) (js rest)
  | EmptyString => EmptyString
  end.

Example parse_nested :
  parse (js " {'a' : [1, -2.5e3, true, null], 'b':'x\u00e9\n', 'a':{}} ")
  = Some (JObject [("a", JArray [JNumber "1"; JNumber "-2.5e3"; JBool true; JNull]);
                   ("b", JString ("x" +:+ encodeRune 233 +:+ chr 10)); ("a", JObject [])]).
Proof. vm_compute. reflexivity. Qed.

Example parse_rejects :
  forallb (fun s => negb (Valid (js s))) [""; "01"; "1."; "{'a' 1}"; "[1,]"; "{} x"; "'a"; "nul"; "-"; "{'a':1,}"] = true.
Proof. vm_compute. reflexivity. Qed.

Example parseFloat_rounds :
  (ParseFloat "0.5", ParseFloat "-2.5e1", ParseFloat "1e400", ParseFloat "1e-400", ParseFloat "100")
  = (Some (f_div (f_of_Z 1) (f_of_Z 2)), Some (f_of_Z (-25)), None, Some (S754_zero false), Some (f_of_Z 100)).
Proof. vm_compute. reflexivity. Qed.

Example parseFloat_tenth : ParseFloat "0.1" = Some (f_div (f_of_Z 1) (f_of_Z 10)).
Proof. vm_compute. reflexivity. Qed.

(** ** The fuel is enough

    Every parser returns a shorter rest, so the fuel of [parse] never runs
    out: more makes no difference. *)

Lemma skip_length s : (String.length (skip s) <= String.length s)%nat.
Proof. induction s as [|c s IH]; simpl; [done|]. case_match; simpl; lia. Qed.

Lemma digits_length s : (String.length (digits s).2 <= String.length s)%nat.
Proof. induction s as [|c s IH]; simpl; [done|]. case_match; [destruct (digits s); simpl in *|simpl]; lia. Qed.

Lemma substring_rest_length n s : (String.length (String.substring n (String.length s) s) <= String.length s - n)%nat.
Proof.
  enough (forall m, (String.length (String.substring n m s) <= String.length s - n)%nat) by done.
  revert n. induction s as [|c s IH]; intros n m; [by destruct n, m; simpl|].
  destruct n as [|n]; simpl; [|apply IH].
  destruct m as [|m]; simpl; [lia|]. specialize (IH 0%nat m). lia.
Qed.

Lemma p_int_length s d r : p_int s = Some (d, r) -> (String.length r < String.length s)%nat.
Proof.
  destruct s as [|c s]; simpl; [done|]. case_match; [intros [= _ <-]; simpl; lia|].
  case_match; [|done]. intros [= E]. pose proof (digits_length s). destruct (digits s). simplify_eq. simpl in *. lia.
Qed.
Lemma p_frac_length s d r : p_frac s = Some (d, r) -> (String.length r <= String.length s)%nat.
Proof.
  destruct s as [|c s]; simpl; [intros [= _ <-]; done|]. case_match; [|intros [= _ <-]; simpl; lia].
  pose proof (digits_length s). destruct (digits s). simpl in *. case_match; [done|]. intros [= _ <-]. lia.
Qed.
Lemma p_sign_length s : (String.length (p_sign s).2 <= String.length s)%nat.
Proof. destruct s as [|c s]; simpl; [done|]. case_match; simpl; lia. Qed.
Lemma p_exp_length s d r : p_exp s = Some (d, r) -> (String.length r <= String.length s)%nat.
Proof.
  destruct s as [|c s]; simpl; [intros [= _ <-]; done|]. case_match; [|intros [= _ <-]; simpl; lia].
  pose proof (p_sign_length s). destruct (p_sign s) as [sg s1]. pose proof (digits_length s1). destruct (digits s1).
  simpl in *. case_match; [done|]. intros [= _ <-]. lia.
Qed.
Lemma p_number_length s d r : p_number s = Some (d, r) -> (String.length r < String.length s)%nat.
Proof.
  unfold p_number.
  assert (forall neg t, (String.length t <= String.length s)%nat ->
            match p_int t with
            | Some (i, s) => match p_frac s with
                             | Some (f, s) => match p_exp s with Some (e, s) => Some (neg +:+ i +:+ f +:+ e, s) | None => None end
                             | None => None end
            | None => None end = Some (d, r) -> (String.length r < String.length s)%nat) as G.
  { intros neg t Ht. destruct (p_int t) as [[i t1]|] eqn:E1; [|done]. destruct (p_frac t1) as [[f t2]|] eqn:E2; [|done].
    destruct (p_exp t2) as [[e t3]|] eqn:E3; [|done]. intros [= _ <-].
    apply p_int_length in E1. apply p_frac_length in E2. apply p_exp_length in E3. lia. }
  destruct s as [|c s']; [by apply (G EmptyString)|]. destruct (code c =? 45); [apply (G (chr 45))|apply (G EmptyString)]; simpl; lia.
Qed.

Lemma hex4_length s v r : hex4 s = Some (v, r) -> (String.length r < String.length s)%nat.
Proof. destruct s as [|a [|b [|c [|d s]]]]; simpl; try done. repeat case_match; try done. intros [= _ <-]. lia. Qed.
Lemma p_unicode_length s v r : p_unicode s = Some (v, r) -> (String.length r < String.length s)%nat.
Proof.
  unfold p_unicode. destruct (hex4 s) as [[x t]|] eqn:E; [|done]. apply hex4_length in E.
  case_match; [intros [= _ <-]; done|]. destruct t as [|b [|u t2]]; try (intros [= _ <-]; done).
  case_match; [|intros [= _ <-]; done]. destruct (hex4 t2) as [[y t3]|] eqn:E2; [|intros [= _ <-]; done].
  apply hex4_length in E2. simpl in E. case_match; intros [= _ <-]; simpl; lia.
Qed.

Lemma p_string_length fuel s v r : p_string fuel s = Some (v, r) -> (String.length r < String.length s)%nat.
Proof.
  revert s v r. induction fuel as [|fuel IH]; intros s v r; [done|]. destruct s as [|c s]; [done|]. cbn [p_string String.length].
  assert (forall t (w : string -> string), (String.length t <= String.length s)%nat ->
            match p_string fuel t with Some (t, r) => Some (w t, r) | None => None end = Some (v, r) ->
            (String.length r < S (String.length s))%nat) as G.
  { intros t w Ht. destruct (p_string fuel t) as [[x y]|] eqn:E; [|done]. intros [= _ <-]. apply IH in E. lia. }
  case_match; [intros [= _ <-]; lia|]. case_match; [done|]. case_match.
  - destruct s as [|e s]; [done|]. case_match; [apply (G s (fun t => _ +:+ t)); simpl; lia|]. case_match; [|done].
    destruct (p_unicode s) as [[x t]|] eqn:E; [|done]. apply p_unicode_length in E. apply (G t (fun u => _ +:+ u)). simpl. lia.
  - case_match; [by apply (G s (fun t => String _ t))|].
    match goal with |- context [Nat.eqb ?k 0] => destruct (Nat.eqb k 0) end.
    + by apply (G s (fun t => _ +:+ t)).
    + apply (G _ (fun t => _ +:+ t)). etransitivity; [apply substring_rest_length|lia].
Qed.

Lemma p_keyword_length word v s w r :
  word <> "" -> s <> "" -> p_keyword word v s = Some (w, r) -> (String.length r < String.length s)%nat.
Proof.
  unfold p_keyword. intros Hw Hs. case_match; [|done]. intros [= _ <-].
  pose proof (substring_rest_length (String.length word) s). destruct word, s; simpl in *; try done. lia.
Qed.

Lemma skip_cons_length s c r : skip s = String c r -> (S (String.length r) <= String.length s)%nat.
Proof. intros E. pose proof (skip_length s) as H. rewrite E in H. done. Qed.

Definition shrinks (p : string -> option (json * string)) : Prop :=
  forall s v r, p s = Some (v, r) -> (String.length r < String.length s)%nat.

Lemma p_shrinks fuel :
  (forall d, shrinks (p_value fuel d)) /\ (forall d, shrinks (p_members fuel d)) /\ (forall d, shrinks (p_items fuel d)).
Proof.
  induction fuel as [|fuel (IHv & IHm & IHi)]; [by repeat split|]. split_and!; intros d s v r.
  - cbn [p_value]. destruct (skip s) as [|c t] eqn:E; [done|]. apply skip_cons_length in E.
    destruct (code c =? 123).
    { case_match; [done|]. destruct (skip t) as [|c2 t2] eqn:E2; [done|]. apply skip_cons_length in E2.
      case_match; [intros [= _ <-]|intros H'%IHm]; lia. }
    destruct (code c =? 91).
    { case_match; [done|]. destruct (skip t) as [|c2 t2] eqn:E2; [done|]. apply skip_cons_length in E2.
      case_match; [intros [= _ <-]|intros H'%IHi]; lia. }
    destruct (code c =? 34).
    { destruct (p_string _ t) as [[x y]|] eqn:E2; [|done]. apply p_string_length in E2. intros [= _ <-]. lia. }
    do 3 (case_match; [intros H'%p_keyword_length; simpl in *; done || lia|]).
    destruct (p_number _) as [[x y]|] eqn:E2; [|done]. apply p_number_length in E2. intros [= _ <-]. simpl in E2. lia.
  - cbn [p_members]. destruct (skip s) as [|c t] eqn:E; [done|]. apply skip_cons_length in E. case_match; [done|].
    destruct (p_string _ t) as [[key t1]|] eqn:E1; [|done]. apply p_string_length in E1.
    destruct (skip t1) as [|c2 t2] eqn:E2; [done|]. apply skip_cons_length in E2. case_match; [done|].
    destruct (p_value fuel d t2) as [[w t3]|] eqn:E3; [|done]. apply IHv in E3.
    destruct (skip t3) as [|c4 t4] eqn:E4; [done|]. apply skip_cons_length in E4.
    case_match; [intros [= _ <-]; lia|]. case_match; [|done].
    destruct (p_members fuel d t4) as [[[] t5]|] eqn:E5; try done. apply IHm in E5. intros [= _ <-]. lia.
  - cbn [p_items]. destruct (p_value fuel d s) as [[w t3]|] eqn:E3; [|done]. apply IHv in E3.
    destruct (skip t3) as [|c4 t4] eqn:E4; [done|]. apply skip_cons_length in E4.
    case_match; [intros [= _ <-]; lia|]. case_match; [|done].
    destruct (p_items fuel d t4) as [[[] t5]|] eqn:E5; try done. apply IHi in E5. intros [= _ <-]. lia.
Qed.

Lemma p_fuel_step fuel :
  (forall d s, (2 * String.length s + 1 <= fuel)%nat -> p_value (S fuel) d s = p_value fuel d s)
  /\ (forall d s, (2 * String.length s + 2 <= fuel)%nat -> p_members (S fuel) d s = p_members fuel d s)
  /\ (forall d s, (2 * String.length s + 2 <= fuel)%nat -> p_items (S fuel) d s = p_items fuel d s).
Proof.
  induction fuel as [|fuel (IHv & IHm & IHi)]; [by repeat split; intros; lia|].
  pose proof (p_shrinks fuel) as (Sv & _). split_and!; intros d s Hs.
  - remember (S fuel) as f eqn:Hf. rewrite Hf at 2. cbn [p_value].
    destruct (skip s) as [|c t] eqn:E; [done|]. apply skip_cons_length in E.
    destruct (code c =? 123); [|destruct (code c =? 91); [|done]].
    + case_match; [done|]. destruct (skip t); [done|]. case_match; [done|]. apply IHm. lia.
    + case_match; [done|]. destruct (skip t); [done|]. case_match; [done|]. apply IHi. lia.
  - remember (S fuel) as f eqn:Hf. rewrite Hf at 2. cbn [p_members].
    destruct (skip s) as [|c t] eqn:E; [done|]. apply skip_cons_length in E. case_match; [done|].
    destruct (p_string _ t) as [[key t1]|] eqn:E1; [|done]. apply p_string_length in E1.
    destruct (skip t1) as [|c2 t2] eqn:E2; [done|]. apply skip_cons_length in E2. case_match; [done|].
    rewrite IHv by lia. destruct (p_value fuel d t2) as [[w t3]|] eqn:E3; [|done]. apply Sv in E3.
    destruct (skip t3) as [|c4 t4] eqn:E4; [done|]. apply skip_cons_length in E4.
    case_match; [done|]. case_match; [|done]. by rewrite IHm by lia.
  - remember (S fuel) as f eqn:Hf. rewrite Hf at 2. cbn [p_items].
    rewrite IHv by lia. destruct (p_value fuel d s) as [[w t3]|] eqn:E3; [|done]. apply Sv in E3.
    destruct (skip t3) as [|c4 t4] eqn:E4; [done|]. apply skip_cons_length in E4.
    case_match; [done|]. case_match; [|done]. by rewrite IHi by lia.
Qed.

Lemma parse_fuel fuel s : (S (2 * String.length s) <= fuel)%nat -> parse_with fuel s = parse s.
Proof.
  induction 1 as [|fuel Hf IH]; [done|]. rewrite <- IH. unfold parse_with.
  destruct (p_fuel_step fuel) as (Hv & _). by rewrite Hv by lia.
Qed.
