(* ===== verification/Text.v ===== *)
(** * Text functions of the Go standard library

    What the retry and quota code uses of [strings], [bytes], [unicode] and
    [strconv] on arbitrary text: searching and cutting at a separator, lines,
    the runes of a string ([for range]), decimal digits in any script, case
    folding as far as it can produce ASCII, and [strconv.ParseInt] in base
    10. *)

From S2P Require Import Prelude GoStrings Float64 Json.
From Stdlib Require Import Ascii.
#[local] Open Scope string_scope.
#[local] Open Scope list_scope.
#[local] Open Scope Z_scope.
#[local] Open Scope go_scope.

(** ** Searching *)

Fixpoint sdrop (n : nat) (s : string) : string :=
  match n, s with
  | O, _ => s
  | S n, String _ s => sdrop n s
  | S _, EmptyString => EmptyString
  end.

(** The text before and after the first occurrence of a separator. *)
Fixpoint cut (sep s : string) : option (string * string) :=
  if String.prefix sep s then Some (EmptyString, sdrop (String.length sep) s)
  else match s with
       | EmptyString => None
       | String c rest => match cut sep rest with
                          | Some (before, after) => Some (String c before, after)
                          | None => None
                          end
       end.
Definition Contains (s needle : string) : bool := bool_decide (is_Some (cut needle s)).
Definition HasPrefix (s prefix : string) : bool := String.prefix prefix s.

Definition newline : string := chr 10.
Definition blankLine : string := newline +:+ newline.

(** [bytes.Split(s, "\n")] *)
Fixpoint lines (s : string) : list string :=
  match s with
  | EmptyString => [EmptyString]
  | String c rest =>
      if code c =? 10 then EmptyString :: lines rest
      else match lines rest with
           | [] => [String c EmptyString]
           | l :: ls => String c l :: ls
           end
  end.

(** [bytes.TrimRight(s, "\r")] *)
Fixpoint trimCR (s : string) : string :=
  match s with
  | EmptyString => EmptyString
  | String c rest => match trimCR rest with
                     | EmptyString => if code c =? 13 then EmptyString else String c EmptyString
                     | t => String c t
                     end
  end.

(** ** Runes *)

(** [utf8.DecodeRune]: the rune at the front and its width. *)
Definition tail6 (c : ascii) : Z := Z.land (code c) 63.
Definition decodeRune (c : ascii) (s : string) : Z * nat :=
  if code c <? 128 then (code c, 1%nat)
  else match runeLength c s, s with
       | 2%nat, String c1 _ => (Z.land (code c) 31 * 64 + tail6 c1, 2%nat)
       | 3%nat, String c1 (String c2 _) => ((Z.land (code c) 15 * 64 + tail6 c1) * 64 + tail6 c2, 3%nat)
       | 4%nat, String c1 (String c2 (String c3 _)) =>
           (((Z.land (code c) 7 * 64 + tail6 c1) * 64 + tail6 c2) * 64 + tail6 c3, 4%nat)
       | _, _ => (runeError, 1%nat)
       end.
Fixpoint runes_from (inside : nat) (s : string) : list Z :=
  match s with
  | EmptyString => []
  | String c rest =>
      match inside with
      | S inside => runes_from inside rest
      | O => let '(r, width) := decodeRune c rest in r :: runes_from (width - 1) rest
      end
  end.
Definition runes (s : string) : list Z := runes_from 0 s.

(** The decimal digits outside Latin-1 (category Nd of Unicode 15): each script
    has ten in a row, mathematics five times ten. *)
Definition digitStarts : list Z :=
  [1632; 1776; 1984; 2406; 2534; 2662; 2790; 2918; 3046; 3174; 3302; 3430; 3558; 3664; 3792; 3872; 4160; 4240; 6112; 6160;
   6470; 6608; 6784; 6800; 6992; 7088; 7232; 7248; 42528; 43216; 43264; 43472; 43504; 43600; 44016; 65296; 66720; 68912;
   69734; 69872; 69942; 70096; 70384; 70736; 70864; 71248; 71360; 71472; 71904; 72016; 72784; 73040; 73120; 73552; 92768;
   92864; 93008; 120782; 120792; 120802; 120812; 120822; 123200; 123632; 124144; 125264; 130032].
Definition IsDigit (r : Z) : bool :=
  ((48 <=? r) && (r <=? 57)) || existsb (fun d => (d <=? r) && (r <? d + 10)) digitStarts.

(** [unicode.ToLower] where it matters to a comparison with ASCII text: besides
    A to Z, the dotted capital I and the Kelvin sign become ASCII letters; every
    other rune stays outside ASCII. *)
Definition lowerRune (r : Z) : Z :=
  if (65 <=? r) && (r <=? 90) then r + 32 else if r =? 304 then 105 else if r =? 8490 then 107 else r.
Definition LowerText (s : string) : string :=
  foldr (fun r t => encodeRune (lowerRune r) +:+ t) EmptyString (runes s).

(** [strings.EqualFold] with an ASCII word: the Kelvin sign folds to k and the
    long s to s. *)
Definition foldRune (r : Z) : Z :=
  if (65 <=? r) && (r <=? 90) then r + 32 else if r =? 8490 then 107 else if r =? 383 then 115 else r.
Definition FoldsTo (s word : string) : bool := bool_decide (foldRune <$> runes s = foldRune <$> runes word).

(** ** Integers *)

Fixpoint parseDigits (acc : Z) (s : string) : option Z :=
  match s with
  | EmptyString => Some acc
  | String c rest => if is_digit c then parseDigits (acc * 10 + (code c - 48)) rest else None
  end.

(** [strconv.ParseInt(s, 10, 64)] *)
Definition ParseInt (s : string) : option Z :=
  let '(sg, ds) := p_sign s in
  if String.eqb ds "" then None
  else match parseDigits 0 ds with
       | None => None
       | Some v => if String.eqb sg "-" then if v <=? 9223372036854775808 then Some (- v) else None
                   else if v <=? maxInt64 then Some v else None
       end.

(** [int64(f)] on amd64, where every value out of range becomes the least
    integer. *)
Definition truncate (f : float64) : option Z :=
  match f with
  | S754_zero _ => Some 0
  | S754_finite s m e => let v := Z.quot (Z.shiftl (Z.pos m) (Z.max e 0)) (2 ^ (Z.max (- e) 0)) in Some (if s then - v else v)
  | _ => None
  end.
Definition int64_of (f : float64) : Z :=
  match truncate f with
  | Some v => if (minInt64 <=? v) && (v <=? maxInt64) then v else minInt64
  | None => minInt64
  end.

Example runes_mixed : runes (encodeRune 233 +:+ "a" +:+ chr 255 +:+ encodeRune 8364 +:+ encodeRune 128512) = [233; 97; runeError; 8364; 128512].
Proof. vm_compute. reflexivity. Qed.
Example lower_kelvin : (LowerText (encodeRune 8490 +:+ "X") = "kx") /\ FoldsTo ("re" +:+ encodeRune 383 +:+ "T") "rest" = true.
Proof. vm_compute. done. Qed.
Example truncates :
  (int64_of (f_of_Z (-7)), int64_of (f_div (f_of_Z 7) (f_of_Z 2)), int64_of (f_of_Z (10 ^ 19)), int64_of S754_nan)
  = (-7, 3, minInt64, minInt64).
Proof. vm_compute. reflexivity. Qed.
Example parses_ints : (ParseInt "-12", ParseInt "+7", ParseInt "1.5", ParseInt "9223372036854775808", ParseInt "-") = (Some (-12), Some 7, None, None, None).
Proof. vm_compute. reflexivity. Qed.

(** ** Lemmas on cutting *)

Lemma sapp_cons x (a b : string) : String x a +:+ b = String x (a +:+ b).
Proof. reflexivity. Qed.
Lemma sapp_empty (a : string) : "" +:+ a = a.
Proof. reflexivity. Qed.
Lemma sapp_assoc (a b c : string) : (a +:+ b) +:+ c = a +:+ (b +:+ c).
Proof. induction a as [|x a IH]; [done|]. by rewrite !sapp_cons, IH. Qed.
Lemma sapp_nil (a : string) : a +:+ "" = a.
Proof. induction a as [|x a IH]; [done|]. by rewrite sapp_cons, IH. Qed.
Lemma sapp_length (a b : string) : String.length (a +:+ b) = (String.length a + String.length b)%nat.
Proof. induction a as [|x a IH]; [done|]. rewrite sapp_cons. simpl. by rewrite IH. Qed.

Lemma prefix_long sep s t : (String.length sep <= String.length s)%nat -> String.prefix sep (s +:+ t) = String.prefix sep s.
Proof.
  revert s. induction sep as [|x sep IH]; intros [|y s] H; rewrite ?sapp_cons; simpl in *; try done; [by destruct t|lia|].
  case_match; [apply IH; lia|done].
Qed.
Lemma prefix_split sep s : String.prefix sep s = true -> s = sep +:+ sdrop (String.length sep) s.
Proof.
  revert s. induction sep as [|x sep IH]; intros [|y s] H; simpl in *; try done. case_match; [|done]. subst. rewrite sapp_cons. f_equal. by apply IH.
Qed.
Lemma prefix_length sep s : String.prefix sep s = true -> (String.length sep <= String.length s)%nat.
Proof. intros ->%prefix_split. rewrite sapp_length. lia. Qed.
Lemma sdrop_app n s t : (n <= String.length s)%nat -> sdrop n (s +:+ t) = sdrop n s +:+ t.
Proof. revert n. induction s as [|c s IH]; intros [|n] H; rewrite ?sapp_cons; simpl in *; try done; [lia|]. apply IH. lia. Qed.

Lemma cut_unfold sep s :
  cut sep s = if String.prefix sep s then Some (EmptyString, sdrop (String.length sep) s)
              else match s with
                   | EmptyString => None
                   | String c rest => match cut sep rest with Some (b, a) => Some (String c b, a) | None => None end
                   end.
Proof. by destruct s. Qed.

Lemma cut_spec sep s before after : cut sep s = Some (before, after) -> s = before +:+ sep +:+ after.
Proof.
  revert before after. induction s as [|c s IH]; intros before after; rewrite cut_unfold; case_match.
  - intros [= <- <-]. by apply prefix_split.
  - done.
  - intros [= <- <-]. by apply prefix_split.
  - destruct (cut sep s) as [[b a]|]; [|done]. intros [= <- <-]. rewrite sapp_cons. f_equal. by apply IH.
Qed.

(** Later bytes do not move the first separator. *)
Lemma cut_app sep s t before after : cut sep s = Some (before, after) -> cut sep (s +:+ t) = Some (before, after +:+ t).
Proof.
  revert before after. induction s as [|c s IH]; intros before after; rewrite cut_unfold; destruct (String.prefix sep _) eqn:E; try done.
  - intros [= <- <-]. pose proof (prefix_length _ _ E) as L. rewrite cut_unfold, prefix_long, E by done. do 2 f_equal. by apply sdrop_app.
  - intros [= <- <-]. pose proof (prefix_length _ _ E) as L. rewrite cut_unfold, prefix_long, E by done. do 2 f_equal. by apply sdrop_app.
  - destruct (cut sep s) as [[b a]|] eqn:C; [|done]. intros [= <- <-]. rewrite cut_unfold.
    rewrite prefix_long, E.
    + rewrite sapp_cons. by rewrite (IH _ _ eq_refl).
    + apply cut_spec in C. rewrite C. simpl. rewrite !sapp_length. lia.
Qed.
