(* ===== verification/RetryClassify.v ===== *)
(** * Classification of upstream failures (retry_classify.go)

    Whether a failure observed before any output justifies another attempt,
    from its text or its status code, and the decimal formatting of
    integers. *)

From S2P Require Import Prelude GoStrings Float64 Json Text.
From Stdlib Require Import Ascii.
#[local] Open Scope string_scope.
#[local] Open Scope list_scope.
#[local] Open Scope Z_scope.
#[local] Open Scope go_scope.

Inductive retryFailureKind := retryKindCapacity | retryKindOverload | retryKindRateLimit | retryKindStatus | retryKindTransport.
#[export] Instance retryFailureKind_eq_dec : EqDecision retryFailureKind.
Proof. solve_decision. Defined.

Record RetryClassification := mkClassification {
  rc_Retryable : bool; rc_Kind : option retryFailureKind; rc_Reason : string; rc_Status : Z }.
#[export] Instance RetryClassification_eq_dec : EqDecision RetryClassification.
Proof. solve_decision. Defined.
Definition noClassification : RetryClassification := mkClassification false None "" 0.
Definition retry_as (kind : retryFailureKind) (reason : string) : RetryClassification := mkClassification true (Some kind) reason 0.
Definition no_retry (reason : string) : RetryClassification := mkClassification false None reason 0.

Definition retryableStatuses : list Z := [429; 500; 502; 503; 504; 529].
Definition retryableStatus (status : Z) : bool := bool_decide (status ∈ retryableStatuses).

Definition retryTransportMarkers : list string :=
  ["connection reset"; "connection refused"; "broken pipe"; "unexpected eof"; "i/o timeout"; "deadline exceeded";
   "context deadline"; "no such host"; "tls handshake"; "transport failure"; "stream closed before"; "upstream stream closed"].

(** ** Integers as text *)

(** The loop fills the array from its end; [fuel] is the length of the array,
    which no [int64] overruns: [formatDigits_parse]. *)
Fixpoint formatDigits (fuel : nat) (value : Z) (digits : string) : string :=
  match fuel with
  | O => digits
  | S fuel => if 0 <? value then formatDigits fuel (Z.quot value 10) (chr (48 + Z.rem value 10) +:+ digits) else digits
  end.
Definition formatInt (value : Z) : string :=
  if value =? 0 then "0"
  else
    let negative := value <? 0 in
    let value := if negative then i64 (- value) else value in
    let digits := formatDigits 20 value "" in
    if negative then "-" +:+ digits else digits.

(** [Duration.String] for the durations of the configuration, which are not
    negative: the units of an hour, a minute and a second, the last with its
    fraction; below a second the largest of the smaller units. *)
Fixpoint fraction (digits : nat) (print : bool) (u : Z) (text : string) : string * Z :=
  match digits with
  | O => (if print then "." +:+ text else text, u)
  | S digits => let d := Z.rem u 10 in
                let print := print || negb (d =? 0) in
                fraction digits print (Z.quot u 10) (if print then chr (48 + d) +:+ text else text)
  end.
Definition durationText (u : Duration) : string :=
  if u =? 0 then "0s"
  else if u <? Second then
    let '(prec, unit) := if u <? 1000 then (0%nat, "ns") else if u <? 1000000 then (3%nat, encodeRune 181 +:+ "s") else (6%nat, "ms") in
    let '(f, u) := fraction prec false u "" in formatInt u +:+ f +:+ unit
  else
    let '(f, u) := fraction 9 false u "" in
    let seconds := formatInt (Z.rem u 60) +:+ f +:+ "s" in
    let minutes := Z.quot u 60 in
    if minutes =? 0 then seconds
    else
      let text := formatInt (Z.rem minutes 60) +:+ "m" +:+ seconds in
      let hours := Z.quot minutes 60 in
      if hours =? 0 then text else formatInt hours +:+ "h" +:+ text.

Example duration_texts :
  (durationText (60 * Second), durationText (90 * Minute + 1500000000), durationText 250000000, durationText 1100) = ("1m0s", "1h30m1.5s", "250ms", "1.1" +:+ encodeRune 181 +:+ "s").
Proof. vm_compute. reflexivity. Qed.

(** ** Fields of a JSON text *)

Fixpoint walk (path : list string) (v : json) : option json :=
  match path with
  | [] => Some v
  | key :: path => match getField key v with Some w => walk path w | None => None end
  end.
Definition scalarText (v : json) : string :=
  match v with
  | JString s => s
  | JNumber lit => match ParseFloat lit with
                   | Some f => if f_eq f (f_of_Z (int64_of f)) then formatInt (int64_of f) else ""
                   | None => ""
                   end
  | _ => ""
  end.
(** The field of a value already parsed, for the raw fields of a frame. *)
Definition stringField (v : json) (path : list string) : string :=
  if decodable v then match walk path v with Some w => scalarText w | None => "" end else "".
Definition jsonStringField (body : string) (path : list string) : string :=
  if String.eqb body "" then ""
  else match path with
       | [] => ""
       | _ => match parse body with Some v => stringField v path | None => "" end
       end.

(** ** The first object of a text *)

(** The text up to the brace that closes the first object. *)
Fixpoint object_end (depth : Z) (inString escaped : bool) (s : string) : option string :=
  match s with
  | EmptyString => None
  | String c rest =>
      let more := fun d i e => match object_end d i e rest with Some t => Some (String c t) | None => None end in
      if inString then
        if escaped then more depth true false
        else if code c =? 92 then more depth true true
        else if code c =? 34 then more depth false false
        else more depth true false
      else if code c =? 34 then more depth true false
      else if code c =? 123 then more (depth + 1) false false
      else if code c =? 125 then if depth - 1 =? 0 then Some (String c EmptyString) else more (depth - 1) false false
      else more depth false false
  end.

Definition extractJSONErrorObject (text : string) : string :=
  let trimmed := TrimSpace text in
  if String.eqb trimmed "" then ""
  else if HasPrefix trimmed "{" && Valid trimmed then trimmed
  else match cut "{" trimmed with
       | None => ""
       | Some (_, rest) => match object_end 0 false false ("{" +:+ rest) with
                           | Some candidate => if Valid candidate then candidate else ""
                           | None => ""
                           end
       end.

(** ** Numbers in a text *)

Fixpoint tokens_from (current : list Z) (rs : list Z) : list (list Z) :=
  match rs with
  | [] => match current with [] => [] | _ => [current] end
  | r :: rs => if IsDigit r then tokens_from (current ++ [r]) rs
               else match current with [] => tokens_from [] rs | _ => current :: tokens_from [] rs end
  end.
(** The digits of a token as runes: writing them to a string and ranging over
    it again yields them unchanged. *)
Definition numericTokens (text : string) : list (list Z) := tokens_from [] (runes text).
Definition tokenStatus (token : list Z) : Z := foldl (fun status digit => i64 (status * 10 + (digit - 48))) 0 token.
Definition retryableStatusInText (text : string) : option Z :=
  list_find (fun status => retryableStatus status = true) (tokenStatus <$> numericTokens text) ≫= fun p => Some p.2.

Definition transportMarkerInText (text : string) : option string :=
  list_find (fun marker => Contains text marker = true) retryTransportMarkers ≫= fun p => Some p.2.

Definition isModelCapacityText (text : string) : bool :=
  if String.eqb text "" then false
  else if Contains text "model is at capacity" || Contains text "model_at_capacity" || Contains text "model_is_at_capacity"
          || Contains text "at capacity" then true
  else Contains text "model" && Contains text "capacity".

Definition firstNonEmpty (values : list string) : string :=
  default "" (list_find (fun v => TrimSpace v <> "") values ≫= fun p => Some p.2).

(** ** The verdicts *)

Definition normalized (s : string) : string := LowerText (TrimSpace s).

Definition classifyRetryFailure (text : string) : RetryClassification :=
  let trimmed := TrimSpace text in
  if String.eqb trimmed "" then no_retry "empty failure text"
  else
    let body := extractJSONErrorObject trimmed in
    let nested := fun field => firstNonEmpty [jsonStringField body ["error"; field]; jsonStringField body ["response"; "error"; field]] in
    let errorType := normalized (nested "type") in
    let errorCode := normalized (nested "code") in
    let errorMessage := normalized (nested "message") in
    let errorMessage := if String.eqb errorMessage "" then normalized (jsonStringField body ["message"]) else errorMessage in
    let topType := normalized (jsonStringField body ["type"]) in
    let topCode := normalized (jsonStringField body ["code"]) in
    let lower := LowerText trimmed in
    if isModelCapacityText errorMessage || isModelCapacityText lower then retry_as retryKindCapacity "model at capacity"
    else if String.eqb errorType "service_unavailable_error" || String.eqb errorCode "server_is_overloaded"
    then retry_as retryKindOverload "server overloaded"
    else if String.eqb errorType "rate_limit_error" || String.eqb errorCode "rate_limit_exceeded"
    then retry_as retryKindRateLimit "rate limited"
    else if (String.eqb errorType "server_error" || String.eqb errorCode "server_error") && Contains errorMessage "you can retry your request"
    then retry_as retryKindOverload "server error with retry hint"
    else if String.eqb errorType "overloaded_error" || String.eqb topType "overloaded_error" || String.eqb errorCode "overloaded_error"
    then retry_as retryKindOverload "overloaded"
    else if String.eqb errorCode "resource_exhausted" || String.eqb topCode "resource_exhausted"
    then retry_as retryKindOverload "resource exhausted"
    else match retryableStatusInText lower with
         | Some status => mkClassification true (Some retryKindStatus) "upstream status" status
         | None => match transportMarkerInText lower with
                   | Some marker => retry_as retryKindTransport marker
                   | None => no_retry "unrecognized failure"
                   end
         end.

Definition classifyRetryStatus (status : Z) : RetryClassification :=
  let reason := "upstream status " +:+ formatInt status in
  if retryableStatus status
  then mkClassification true (Some (if status =? 429 then retryKindRateLimit else retryKindOverload)) reason status
  else mkClassification false None reason status.

Example classify_wrapped :
  classifyRetryFailure (js "upstream said {'response':{'error':{'code':'Rate_Limit_Exceeded'}}} after 1s") = retry_as retryKindRateLimit "rate limited".
Proof. vm_compute. reflexivity. Qed.
Example classify_unknown : classifyRetryFailure (js "{'error':{'type':'invalid_request_error','message':'bad tool'}}") = no_retry "unrecognized failure".
Proof. vm_compute. reflexivity. Qed.
Example classify_number_field : jsonStringField (js "{'error':{'code':4.29e2}}") ["error"; "code"] = "429".
Proof. vm_compute. reflexivity. Qed.

(** ** Integers survive formatting *)

Lemma digit_byte d : 0 <= d < 10 -> is_digit (byte (48 + d)) = true /\ code (byte (48 + d)) - 48 = d.
Proof.
  intros H. assert (d = 0 \/ d = 1 \/ d = 2 \/ d = 3 \/ d = 4 \/ d = 5 \/ d = 6 \/ d = 7 \/ d = 8 \/ d = 9) as D by lia.
  destruct_or! D; subst d; by vm_compute.
Qed.

Lemma formatDigits_parse fuel v tail :
  0 <= v < 10 ^ Z.of_nat fuel ->
  exists k, 0 <= k /\ forall acc, parseDigits acc (formatDigits fuel v tail) = parseDigits (acc * 10 ^ k + v) tail.
Proof.
  revert v tail. induction fuel as [|fuel IH]; intros v tail H.
  { simpl in H. exists 0. split; [done|]. intros acc. simpl. f_equal. lia. }
  cbn [formatDigits]. destruct (0 <? v) eqn:E; [|exists 0; split; [done|]; intros acc; f_equal; lia].
  rewrite Nat2Z.inj_succ, Z.pow_succ_r in H by lia.
  rewrite Z.quot_div_nonneg, Z.rem_mod_nonneg by lia.
  pose proof (Z.mod_pos_bound v 10). pose proof (Z.div_mod v 10).
  destruct (IH (v / 10) (chr (48 + v mod 10) +:+ tail)) as (k & K & Hk).
  { split; [apply Z.div_pos; lia|]. apply Z.div_lt_upper_bound; lia. }
  exists (k + 1). split; [lia|]. intros acc. rewrite Hk. unfold chr. rewrite sapp_cons, sapp_empty. cbn [parseDigits].
  destruct (digit_byte (v mod 10)) as [-> ->]; [lia|].
  f_equal. rewrite Z.pow_add_r by lia. lia.
Qed.

(** A value below ten to the fuel leaves digits before the tail. *)
Lemma formatDigits_head fuel v tail :
  0 < v < 10 ^ Z.of_nat fuel -> exists c rest, formatDigits fuel v tail = String c rest /\ is_digit c = true.
Proof.
  revert v tail. induction fuel as [|fuel IH]; intros v tail H; [simpl in H; lia|].
  cbn [formatDigits]. replace (0 <? v) with true by lia.
  rewrite Nat2Z.inj_succ, Z.pow_succ_r in H by lia.
  rewrite Z.quot_div_nonneg, Z.rem_mod_nonneg by lia. pose proof (Z.mod_pos_bound v 10).
  destruct (Z.eq_dec (v / 10) 0) as [E|E].
  - rewrite E. exists (byte (48 + v mod 10)), tail. split; [by destruct fuel|]. apply digit_byte. lia.
  - apply IH. pose proof (Z.div_pos v 10). split; [lia|]. apply Z.div_lt_upper_bound; lia.
Qed.

Lemma p_sign_digit c rest : is_digit c = true -> p_sign (String c rest) = ("", String c rest).
Proof. unfold is_digit, p_sign. intros H. destruct ((code c =? 43) || (code c =? 45)) eqn:E; [lia|done]. Qed.

Lemma formatInt_positive v :
  0 < v < 10 ^ 20 -> ParseInt (formatDigits 20 v "") = (if v <=? maxInt64 then Some v else None)
                     /\ ParseInt ("-" +:+ formatDigits 20 v "") = (if v <=? 9223372036854775808 then Some (- v) else None).
Proof.
  intros H. destruct (formatDigits_head 20 v "") as (c & rest & E & D); [done|].
  destruct (formatDigits_parse 20 v "") as (k & K & P); [change (Z.of_nat 20) with 20; lia|].
  specialize (P 0). cbn [parseDigits] in P. rewrite E in P |- *. split.
  - unfold ParseInt. rewrite p_sign_digit by done. change (String.eqb (String c rest) "") with false. cbn match.
    rewrite P. change (String.eqb "" "-") with false. cbn match. by rewrite Z.mul_0_l, Z.add_0_l.
  - unfold ParseInt. rewrite sapp_cons, sapp_empty. change (p_sign (String "-" (String c rest))) with ("-", String c rest).
    cbn beta iota. change (String.eqb (String c rest) "") with false. cbn match.
    rewrite P. change (String.eqb "-" "-") with true. cbn match. by rewrite Z.mul_0_l, Z.add_0_l.
Qed.

(** The decimal text that [formatInt] builds for a status or a code reads
    back as the same integer, for every [int64] but the least one. *)
Theorem formatInt_roundtrip v : minInt64 < v <= maxInt64 -> ParseInt (formatInt v) = Some v.
Proof.
  unfold minInt64, maxInt64. intros H. unfold formatInt. destruct (v =? 0) eqn:E0; [apply Z.eqb_eq in E0 as ->; done|].
  destruct (v <? 0) eqn:E.
  - rewrite i64_small by (unfold minInt64, maxInt64; lia).
    destruct (formatInt_positive (- v)) as [_ ->]; [lia|].
    replace (- v <=? 9223372036854775808) with true by lia. f_equal. lia.
  - destruct (formatInt_positive v) as [-> _]; [lia|]. unfold maxInt64. by replace (v <=? 9223372036854775807) with true by lia.
Qed.

Lemma formatInt_roundtrip_witness : ParseInt (formatInt (-429)) = Some (-429).
Proof. apply (formatInt_roundtrip (-429)). unfold minInt64, maxInt64. lia. Defined.

(** The least integer is its own negation, so its text has no digits. *)
Theorem formatInt_least : formatInt minInt64 = "-" /\ ParseInt (formatInt minInt64) = None.
Proof. vm_compute. done. Qed.

(** ** The numbers of a text *)

(** A run of digits that no digit precedes or follows. *)
Definition maximal_run (token rs : list Z) : Prop :=
  exists a b, rs = a ++ token ++ b /\ token <> [] /\ Forall (fun r => IsDigit r = true) token
              /\ (forall r, last a = Some r -> IsDigit r = false) /\ (forall r, head b = Some r -> IsDigit r = false).

Lemma tokens_from_sound current rs token :
  Forall (fun r => IsDigit r = true) current -> token ∈ tokens_from current rs ->
  exists a b, current ++ rs = a ++ token ++ b /\ token <> [] /\ Forall (fun r => IsDigit r = true) token
              /\ (forall r, last a = Some r -> IsDigit r = false) /\ (forall r, head b = Some r -> IsDigit r = false).
Proof.
  revert current. induction rs as [|r rs IH]; intros current F; cbn [tokens_from].
  - destruct current as [|x current]; [by intros ?%elem_of_nil|]. intros ->%list_elem_of_singleton.
    exists [], []. by rewrite app_nil_r.
  - destruct (IsDigit r) eqn:E.
    + intros Ht. destruct (IH (current ++ [r])) as (a & b & Eq & R); [|done|].
      * apply Forall_app. split; [done|]. by apply Forall_singleton.
      * exists a, b. by rewrite <- app_assoc in Eq.
    + assert (token ∈ tokens_from [] rs -> exists a b, current ++ r :: rs = a ++ token ++ b /\ token <> []
                /\ Forall (fun r => IsDigit r = true) token
                /\ (forall r, last a = Some r -> IsDigit r = false) /\ (forall r, head b = Some r -> IsDigit r = false)) as G.
      { intros Ht. destruct (IH [] (Forall_nil_2 _) Ht) as (a & b & Eq & N & D & La & Hb). simpl in Eq.
        exists (current ++ r :: a), b. rewrite Eq, <- app_assoc. split_and!; try done.
        intros x. rewrite last_app, last_cons. destruct (last a) eqn:L; [intros [= <-]; by apply La|by intros [= <-]]. }
      destruct current as [|x current]; [done|]. intros [->|Ht]%elem_of_cons; [|by apply G].
      exists [], (r :: rs). split_and!; try done. by intros ? [= <-].
Qed.

Lemma tokens_from_complete current rs a token b :
  Forall (fun r => IsDigit r = true) current -> current ++ rs = a ++ token ++ b -> token <> [] ->
  Forall (fun r => IsDigit r = true) token -> (forall r, last a = Some r -> IsDigit r = false) ->
  (forall r, head b = Some r -> IsDigit r = false) -> token ∈ tokens_from current rs.
Proof.
  revert current a. induction rs as [|r rs IH]; intros current a F Eq N D La Hb; cbn [tokens_from].
  - rewrite app_nil_r in Eq. subst current. apply Forall_app in F as [Fa Fb]. apply Forall_app in Fb as [_ Fb].
    assert (a = []) as ->.
    { destruct a as [|x a' _] using rev_ind; [done|]. specialize (La x). rewrite last_snoc in La.
      apply Forall_app in Fa as [_ Fx]. apply Forall_cons in Fx as [Fx _]. cbn beta in Fx. rewrite La in Fx; done. }
    assert (b = []) as ->.
    { destruct b as [|x b]; [done|]. apply Forall_cons in Fb as [Fx _]. cbn beta in Fx. rewrite (Hb x) in Fx; done. }
    rewrite app_nil_l, app_nil_r. destruct token; [done|]. by apply list_elem_of_singleton.
  - destruct (IsDigit r) eqn:E.
    + apply (IH _ a); try done; [|by rewrite <- app_assoc]. apply Forall_app. split; [done|]. by apply Forall_singleton.
    + assert (current = token /\ a = [] \/ exists a', a = current ++ r :: a' /\ rs = a' ++ token ++ b) as G.
      { revert current F Eq. induction a as [|x a IHa]; intros current F Eq.
        - left. split; [|done]. simpl in Eq.
          apply app_eq_app in Eq as (k & [[-> Eq]|[-> Eq]]).
          + destruct k as [|y k]; [by rewrite app_nil_r|]. simplify_eq/=. specialize (Hb y eq_refl).
            apply Forall_app in F as [_ F]. apply Forall_cons in F as [F _]. cbn beta in F. congruence.
          + destruct k as [|y k]; [by rewrite app_nil_r|]. simplify_eq/=.
            apply Forall_app in D as [_ D]. apply Forall_cons in D as [D _]. cbn beta in D. congruence.
        - destruct current as [|y current]; simplify_eq/=; [right; by exists a|].
          destruct (IHa (fun r Hr => La r ltac:(by rewrite last_cons, Hr)) current) as [[-> ->]|(a' & -> & ->)]; [by apply Forall_cons in F as [_ F]|done|..].
          + exfalso. apply Forall_cons in F as [F _]. cbn beta in F. specialize (La _ eq_refl). congruence.
          + right. by exists a'. }
      destruct G as [[-> ->]|(a' & -> & ->)].
      * destruct token; [done|]. by left.
      * assert (token ∈ tokens_from [] (a' ++ token ++ b)) as Ht.
        { apply (IH [] a'); try done. intros x Hx. apply La. by rewrite last_app, last_cons, Hx. }
        destruct current; [done|by right].
Qed.

Lemma numericTokens_spec text token : token ∈ numericTokens text <-> maximal_run token (runes text).
Proof.
  split.
  - intros H. by apply tokens_from_sound in H.
  - intros (a & b & Eq & N & D & La & Hb). by apply (tokens_from_complete [] _ a _ b).
Qed.

Lemma list_find_Some_elem {A} (P : A -> Prop) `{!forall x, Decision (P x)} (l : list A) x :
  (list_find P l ≫= fun p => Some p.2) = Some x -> x ∈ l /\ P x.
Proof.
  destruct (list_find P l) as [[i y]|] eqn:E; [|done]. intros [= <-]. apply list_find_Some in E as (E & HP & _).
  split; [by eapply list_elem_of_lookup_2|done].
Qed.
Lemma list_find_None_elem {A} (P : A -> Prop) `{!forall x, Decision (P x)} (l : list A) :
  (list_find P l ≫= fun p => Some p.2) = None -> Forall (fun x => ~ P x) l.
Proof. destruct (list_find P l) as [[i y]|] eqn:E; [done|]. intros _. by apply list_find_None in E. Qed.

(** A text names a retryable status exactly when one of its maximal runs of
    digits, read as a 64-bit integer, is one of the retryable statuses; the
    status reported is the value of such a run. *)
Theorem retryable_status_in_text text :
  (forall status, retryableStatusInText text = Some status ->
     status ∈ retryableStatuses /\ exists token, maximal_run token (runes text) /\ tokenStatus token = status)
  /\ (retryableStatusInText text = None -> forall token, maximal_run token (runes text) -> tokenStatus token ∉ retryableStatuses).
Proof.
  unfold retryableStatusInText. split.
  - intros status (Hin & R)%list_find_Some_elem. unfold retryableStatus in R. apply bool_decide_eq_true in R. split; [done|].
    apply list_elem_of_fmap in Hin as (token & -> & Ht). exists token. split; [|done]. by apply numericTokens_spec.
  - intros F%list_find_None_elem token Ht%numericTokens_spec Hin. rewrite Forall_forall in F.
    apply (F (tokenStatus token)); [by apply list_elem_of_fmap_2|]. by apply bool_decide_eq_true.
Qed.

Lemma retryable_status_in_text_witness :
  exists status token, retryableStatusInText "upstream 503 after 12" = Some status /\ status ∈ retryableStatuses
                       /\ maximal_run token (runes "upstream 503 after 12") /\ tokenStatus token = status.
Proof.
  destruct (retryable_status_in_text "upstream 503 after 12") as [H _].
  destruct (H 503) as (Hin & token & M & E); [vm_compute; reflexivity|].
  exists 503, token. split_and!; [vm_compute; reflexivity|exact Hin|exact M|exact E].
Defined.

(** The least a verdict promises: a retryable failure has a kind and another
    has none, there is always a reason, and only a retryable status is retried
    on its number. *)
Definition verdict_ok (c : RetryClassification) : Prop :=
  (rc_Retryable c = true <-> rc_Kind c <> None) /\ rc_Reason c <> ""
  /\ (rc_Retryable c = true -> rc_Status c <> 0 -> rc_Status c ∈ retryableStatuses).

Lemma markers_nonempty marker : marker ∈ retryTransportMarkers -> marker <> "".
Proof. intros H ->. unfold retryTransportMarkers in H. set_solver. Qed.

Lemma retry_as_ok kind reason : reason <> "" -> verdict_ok (retry_as kind reason).
Proof. intros H. by split_and!. Qed.
Lemma no_retry_ok reason : reason <> "" -> verdict_ok (no_retry reason).
Proof. intros H. by split_and!. Qed.

(** Every verdict on a failure text or on a status code is well formed: it
    has a kind exactly when it is retryable, it gives a reason, and a status it
    retries on is one of the retryable ones. *)
Theorem classifications_well_formed text status :
  verdict_ok (classifyRetryFailure text) /\ verdict_ok (classifyRetryStatus status).
Proof.
  split.
  - unfold classifyRetryFailure. cbv zeta.
    repeat match goal with |- verdict_ok (if ?b then _ else _) => destruct b; [by first [apply retry_as_ok|apply no_retry_ok]|] end.
    destruct (retryableStatusInText _) as [st|] eqn:E; [|destruct (transportMarkerInText _) as [m|] eqn:E2; [|by apply no_retry_ok]].
    + apply list_find_Some_elem in E as [_ R]. split_and!; try done. intros _ _. by apply bool_decide_eq_true in R.
    + apply list_find_Some_elem in E2 as [Hin _]. apply retry_as_ok. by apply markers_nonempty.
  - unfold classifyRetryStatus, retryableStatus. case_bool_decide as R; split_and!; try done.
Qed.

(** A status inside a duration or an identifier is taken for the status of the
    response, and a long enough run of digits wraps around to one. *)
Theorem digits_of_other_tokens_match :
  retryableStatusInText "request req-a500b failed after 3 tries" = Some 500
  /\ retryableStatusInText "invalid tool call after 500ms" = Some 500
  /\ retryableStatusInText "trace 18446744073709552045" = Some 429.
Proof. vm_compute. done. Qed.
