(* ===== verification/RetryFrames.v ===== *)
(** * Stream frames and what they mean for a retry (retry_frames.go)

    A stream is a sequence of server-sent events; the first frame that is not a
    handshake decides an attempt.  Raw fields of a frame are modelled by their
    parsed values: decoding a raw field again yields the value it was cut
    from. *)

From S2P Require Import Prelude GoStrings Float64 Json Text RetryClassify.
From Stdlib Require Import Ascii.
#[local] Open Scope string_scope.
#[local] Open Scope list_scope.
#[local] Open Scope Z_scope.
#[local] Open Scope go_scope.

Inductive frameDisposition := frameHandshake | frameContent | frameTerminal | frameFailure.
#[export] Instance frameDisposition_eq_dec : EqDecision frameDisposition.
Proof. solve_decision. Defined.

Record frameVerdict := mkVerdict { fv_Disposition : frameDisposition; fv_Failure : RetryClassification }.
Definition verdict_of (d : frameDisposition) : frameVerdict := mkVerdict d noClassification.
Definition failed (c : RetryClassification) : frameVerdict := mkVerdict frameFailure c.

Definition protocolClaude : string := "claude".
Definition protocolOpenAI : string := "openai".
Definition protocolOpenAIResp : string := "openai-response".
Definition protocolCodex : string := "codex".

(** ** Fields *)

(** The value of a field of an object.  [null] decodes into an empty map. *)
Definition jsonField (data : json) (key : string) : option json := getField key data.

(** [json.Unmarshal] into a slice of maps: each element is an object or [null]. *)
Definition element_map (v : json) : option (list (string * json)) :=
  match v with JObject fields => Some fields | JNull => Some [] | _ => None end.
Definition decodeMaps (v : json) : option (list (list (string * json))) :=
  if negb (decodable v) then None
  else match v with JArray items => mapM element_map items | JNull => Some [] | _ => None end.

Definition textOf (key : string) (fields : list (string * json)) : string :=
  match field key fields with Some (JString s) => s | _ => "" end.

(** Every entry is a textual shape that is still empty. *)
Definition emptyEntry (entry : list (string * json)) : bool :=
  let entryType := textOf "type" entry in
  if existsb (String.eqb entryType) ["output_text"; "summary_text"; "text"; "reasoning_text"] then String.eqb (textOf "text" entry) ""
  else if String.eqb entryType "refusal" then String.eqb (textOf "refusal" entry) ""
  else false.
Definition isEmptyContentList (raw : option json) : bool :=
  match raw with
  | None => true
  | Some v => match decodeMaps v with None => false | Some entries => forallb emptyEntry entries end
  end.

Definition blank (v : json) (key : string) : bool := String.eqb (TrimSpace (stringField v [key])) "".

Definition isBufferableOutputItem (data : json) : bool :=
  match jsonField data "item" with
  | None => false
  | Some item =>
      let itemType := TrimSpace (stringField item ["type"]) in
      if String.eqb itemType "message" then isEmptyContentList (jsonField item "content")
      else if String.eqb itemType "reasoning" then
        if negb (blank item "encrypted_content") then false
        else isEmptyContentList (jsonField item "summary") && isEmptyContentList (jsonField item "content")
      else if String.eqb itemType "function_call" then blank item "arguments"
      else if String.eqb itemType "custom_tool_call" then blank item "input"
      else false
  end.

Definition isBufferablePart (data : json) : bool :=
  match jsonField data "part" with
  | None => false
  | Some part =>
      let partType := TrimSpace (stringField part ["type"]) in
      if existsb (String.eqb partType) ["output_text"; "summary_text"; "text"; "reasoning_text"] then blank part "text"
      else if String.eqb partType "refusal" then blank part "refusal"
      else false
  end.

(** A choice carries text, tool arguments or a finish reason. *)
Definition mapField (key : string) (fields : list (string * json)) : option (list (string * json)) :=
  match field key fields with Some (JObject m) => Some m | _ => None end.
Definition choiceHasContent (choice : list (string * json)) : bool :=
  if negb (String.eqb (TrimSpace (textOf "finish_reason" choice)) "") then true
  else
    match (match mapField "message" choice with Some m => Some m | None => mapField "delta" choice end) with
    | None => false
    | Some message =>
        negb (String.eqb (textOf "content" message) "")
        || (match field "tool_calls" message with Some (JArray (_ :: _)) => true | _ => false end)
        || (match mapField "function_call" message with Some (_ :: _) => true | _ => false end)
        || negb (String.eqb (textOf "refusal" message) "")
    end.
Definition hasChatCompletionContent (choices : json) : bool :=
  match decodeMaps choices with None => true | Some parsed => existsb choiceHasContent parsed end.

(** ** One frame *)

Definition isResponsesEventBody (data : json) : bool :=
  let eventType := TrimSpace (stringField data ["type"]) in
  if String.eqb eventType "" then false else HasPrefix eventType "response." || HasPrefix eventType "codex.".

Definition responsesFailure (text : string) (data : json) : option RetryClassification :=
  if FoldsTo (TrimSpace (stringField data ["type"])) "response.failed" then Some (classifyRetryFailure text)
  else if bool_decide (is_Some (jsonField data "error")) then Some (classifyRetryFailure text)
  else None.

Definition classifyResponsesFrame (text : string) (data : json) : frameVerdict :=
  match responsesFailure text data with
  | Some failure => failed failure
  | None =>
      let eventType := TrimSpace (stringField data ["type"]) in
      if existsb (String.eqb eventType) ["response.created"; "response.in_progress"; "response.queued"; "keepalive"; "codex.rate_limits"]
      then verdict_of frameHandshake
      else if String.eqb eventType "response.output_item.added"
      then verdict_of (if isBufferableOutputItem data then frameHandshake else frameContent)
      else if String.eqb eventType "response.content_part.added" || String.eqb eventType "response.reasoning_summary_part.added"
      then verdict_of (if isBufferablePart data then frameHandshake else frameContent)
      else if String.eqb eventType "response.completed" || String.eqb eventType "response.incomplete" then verdict_of frameTerminal
      else verdict_of frameContent
  end.

Definition classifyClaudeFrame (eventName text : string) (data : json) : frameVerdict :=
  let eventType := TrimSpace (stringField data ["type"]) in
  let eventType := if String.eqb eventType "" then eventName else eventType in
  if String.eqb eventType "error" then failed (classifyRetryFailure text)
  else if existsb (String.eqb eventType) ["ping"; "message_start"; "content_block_start"; "content_block_stop"; "message_delta"]
  then if bool_decide (is_Some (jsonField data "error")) then failed (classifyRetryFailure text) else verdict_of frameHandshake
  else if String.eqb eventType "message_stop" then verdict_of frameTerminal
  else verdict_of frameContent.

Definition classifyChatCompletionFrame (text : string) (data : json) : frameVerdict :=
  if bool_decide (is_Some (jsonField data "error")) then failed (classifyRetryFailure text)
  else match jsonField data "choices" with
       | Some choices => verdict_of (if hasChatCompletionContent choices then frameContent else frameHandshake)
       | None => verdict_of frameContent
       end.

(** The event name and the data of a frame. *)
Record sse := mkSSE { sse_event : string; sse_data : string; sse_found : bool }.
Definition sse_line (acc : sse) (line : string) : sse :=
  let line := trimCR line in
  if HasPrefix line "event:" then mkSSE (TrimSpace (sdrop 6 line)) (sse_data acc) (sse_found acc)
  else if HasPrefix line "data:" then
    let sep := if String.eqb (sse_data acc) "" then "" else newline in
    mkSSE (sse_event acc) (sse_data acc +:+ sep +:+ TrimSpace (sdrop 5 line)) true
  else acc.
Definition splitSSEFrame (frame : string) : sse := foldl sse_line (mkSSE "" "" false) (lines frame).

(** Every line that is not empty is a comment or a field without output. *)
Definition controlLine (line : string) : bool :=
  HasPrefix line ":" || HasPrefix line "event:" || HasPrefix line "id:" || HasPrefix line "retry:" || HasPrefix line "comment:".
Definition isSSEControlFrame (frame : string) : bool :=
  let ls := filter (fun l => l <> "") ((fun l => TrimSpace (trimCR l)) <$> lines frame) in
  bool_decide (ls <> []) && forallb controlLine ls.

Definition classifyFrame (frame protocol : string) : frameVerdict :=
  let split := splitSSEFrame frame in
  if negb (sse_found split) && isSSEControlFrame frame then verdict_of frameHandshake
  else
    let data := if sse_found split then sse_data split else frame in
    let trimmedData := TrimSpace data in
    if String.eqb trimmedData "" then verdict_of frameHandshake
    else if String.eqb trimmedData "[DONE]" then verdict_of frameTerminal
    else match parse trimmedData with
         | None => verdict_of frameContent
         | Some v =>
             if isResponsesEventBody v then classifyResponsesFrame trimmedData v
             else if String.eqb protocol protocolClaude then classifyClaudeFrame (sse_event split) trimmedData v
             else if String.eqb protocol protocolOpenAI then classifyChatCompletionFrame trimmedData v
             else classifyResponsesFrame trimmedData v
         end.

(** ** Buffers of frames *)

Definition looksLikeIncompleteFrame (frame : string) : bool :=
  let trimmed := TrimSpace frame in
  if String.eqb trimmed "" then true
  else if existsb (HasPrefix trimmed) ["{"; "["; ":"] then true
  else existsb (HasPrefix trimmed) ["data:"; "event:"; "id:"; "retry:"; "comment:"].

Definition classifyFrameFragment (frame protocol : string) : frameVerdict :=
  let verdict := classifyFrame frame protocol in
  if negb (bool_decide (fv_Disposition verdict = frameContent)) then verdict
  else if Valid (TrimSpace frame) then verdict
  else if sse_found (splitSSEFrame frame) && Valid (TrimSpace (sse_data (splitSSEFrame frame))) then verdict
  else if negb (looksLikeIncompleteFrame frame) then verdict
  else verdict_of frameHandshake.

Definition isHandshake (v : frameVerdict) : bool := bool_decide (fv_Disposition v = frameHandshake).

(** The loop cuts a frame each time round; the fuel is the number of bytes. *)
Fixpoint buffer_loop (fuel : nat) (sawFrame completeOnly : bool) (remaining protocol : string) : frameVerdict :=
  match fuel with
  | O => verdict_of frameHandshake
  | S fuel =>
      match cut blankLine remaining with
      | None =>
          if negb completeOnly && negb sawFrame && negb (String.eqb (TrimSpace remaining) "") then classifyFrameFragment remaining protocol
          else if negb sawFrame then classifyFrameFragment remaining protocol
          else verdict_of frameHandshake
      | Some (frame, remaining) =>
          let verdict := classifyFrame frame protocol in
          if negb (isHandshake verdict) then verdict
          else if String.eqb (TrimSpace remaining) "" then verdict_of frameHandshake
          else buffer_loop fuel true completeOnly remaining protocol
      end
  end.
Definition classifyStreamBuffer (buffer protocol : string) (completeOnly : bool) : frameVerdict :=
  if String.eqb (TrimSpace buffer) "" then verdict_of frameHandshake
  else buffer_loop (S (String.length buffer)) false completeOnly buffer protocol.
Definition classifyStreamPayload (payload protocol : string) : frameVerdict := classifyStreamBuffer payload protocol false.

(** The frames a payload holds: one per blank line, and an unfinished one. *)
Fixpoint split_frames (fuel : nat) (s : string) : list string * string :=
  match fuel with
  | O => ([], s)
  | S fuel => match cut blankLine s with
              | None => ([], s)
              | Some (frame, rest) => let '(fs, tail) := split_frames fuel rest in (frame :: fs, tail)
              end
  end.
Definition framesOf (s : string) : list string * string := split_frames (S (String.length s)) s.
Definition countSSEFrames (payload : string) : Z :=
  if String.eqb payload "" then 0
  else let '(fs, tail) := framesOf payload in
       Z.of_nat (length fs) + (if String.eqb (TrimSpace tail) "" then 0 else 1).

(** ** The assembler of an attempt (retry_runtime.go) *)

Record retryFrameAssembler := mkAssembler { fa_protocol : string; fa_pending : string }.
#[export] Instance eta_assembler : Eta retryFrameAssembler := fun r => mkAssembler (fa_protocol r) (fa_pending r).

(** The frame is a slice of the pending buffer, and the rest is moved to the
    front of that buffer before the frame is read: the bytes of the rest
    overwrite those of the frame. *)
Fixpoint overwrite (rest frame : string) : string :=
  match frame with
  | EmptyString => EmptyString
  | String f frame' => match rest with
                       | EmptyString => frame
                       | String r rest' => String r (overwrite rest' frame')
                       end
  end.

Fixpoint absorb_loop (fuel : nat) (a : retryFrameAssembler) : retryFrameAssembler * option frameVerdict :=
  match fuel with
  | O => (a, None)
  | S fuel =>
      match cut blankLine (fa_pending a) with
      | None => (a, None)
      | Some (frame, rest) =>
          let a := a <| fa_pending := rest |> in
          let verdict := classifyFrame (overwrite rest frame) (fa_protocol a) in
          if negb (isHandshake verdict) then (a, Some verdict) else absorb_loop fuel a
      end
  end.
(** The decisive verdict, if the payload completes a decisive frame. *)
Definition absorb (a : retryFrameAssembler) (payload : string) : retryFrameAssembler * option frameVerdict :=
  if String.eqb payload "" then (a, None)
  else
    let a := a <| fa_pending := fa_pending a +:+ payload |> in
    let '(a, decided) := absorb_loop (S (String.length (fa_pending a))) a in
    match decided with
    | Some v => (a, Some v)
    | None =>
        let trimmed := TrimSpace (fa_pending a) in
        if negb (String.eqb trimmed "") && Valid trimmed then
          let verdict := classifyFrame trimmed (fa_protocol a) in
          if negb (isHandshake verdict) then (a, Some verdict) else (a <| fa_pending := "" |>, None)
        else (a, None)
    end.

(** ** The hold buffer of an attempt (retry_runtime.go) *)

Record retryHoldBuffer := mkHold {
  hb_payloads : list string; hb_bytes : Z; hb_frames : Z; hb_limitFrames : Z; hb_limitBytes : Z }.
#[export] Instance eta_hold : Eta retryHoldBuffer := fun r =>
  mkHold (hb_payloads r) (hb_bytes r) (hb_frames r) (hb_limitFrames r) (hb_limitBytes r).
Definition hold_add (b : retryHoldBuffer) (payload : string) : retryHoldBuffer :=
  b <| hb_payloads := hb_payloads b ++ [payload] |>
    <| hb_bytes := i64 (hb_bytes b + Z.of_nat (String.length payload)) |>
    <| hb_frames := i64 (hb_frames b + countSSEFrames payload) |>.
Definition overBudget (b : retryHoldBuffer) : bool :=
  if (0 <? hb_limitFrames b) && (hb_limitFrames b <? hb_frames b) then true
  else (0 <? hb_limitBytes b) && (hb_limitBytes b <? hb_bytes b).

Definition event (s : string) : string := "data: " +:+ js s +:+ blankLine.

(** Two frames in one chunk: the first is read after the second was moved over
    it.  Two handshakes are taken for output, so the attempt is committed, and
    so is a handshake followed by a failure that calls for a retry. *)
Theorem frames_sharing_a_chunk_overwritten :
  let created := event "{'type':'response.created'}" in
  let progress := event "{'type':'response.in_progress'}" in
  let overloaded := event "{'type':'response.failed','response':{'error':{'code':'server_is_overloaded'}}}" in
  let decide := fun payload => (absorb (mkAssembler protocolCodex "") payload).2 in
  decide created = None /\ decide progress = None
  /\ decide overloaded = Some (failed (retry_as retryKindOverload "server overloaded"))
  /\ decide (created +:+ progress) = Some (verdict_of frameContent)
  /\ decide (created +:+ overloaded) = Some (verdict_of frameContent)
  /\ classifyStreamPayload (created +:+ overloaded) protocolCodex = failed (retry_as retryKindOverload "server overloaded").
Proof. vm_compute. done. Qed.

(** ** The assembler on well cut streams *)

(** The verdict of the first frame that is no handshake. *)
Definition decisive (protocol : string) (frames : list string) : option frameVerdict :=
  list_find (fun v => isHandshake v = false) ((fun f => classifyFrame f protocol) <$> frames) ≫= fun p => Some p.2.

Fixpoint absorb_all (a : retryFrameAssembler) (payloads : list string) : option frameVerdict :=
  match payloads with
  | [] => None
  | p :: ps => let '(a, decided) := absorb a p in
               match decided with Some v => Some v | None => absorb_all a ps end
  end.

Fixpoint sconcat (l : list string) : string := match l with [] => "" | s :: l => s +:+ sconcat l end.

(** The first byte of a line of an event stream: a comment or the initial of a
    field. *)
Definition sse_start (c : ascii) : bool := existsb (Z.eqb (code c)) [58; 100; 101; 105; 114].

(** A frame as an event stream has it: it starts with a comment or a field, and
    only its terminator is a blank line. *)
Definition sse_frame (f : string) : Prop :=
  (exists c rest, f = String c rest /\ sse_start c = true) /\ cut blankLine (f +:+ newline) = None.

Lemma sse_start_cases c : sse_start c = true -> c = ":"%char \/ c = "d"%char \/ c = "e"%char \/ c = "i"%char \/ c = "r"%char.
Proof. destruct c as [[] [] [] [] [] [] [] []]; vm_compute; intuition discriminate. Qed.

Lemma starts_keep c l : sse_start c = true -> startsL (c :: l) = false.
Proof.
  intros [->|[->|[->|[->| ->]]]]%sse_start_cases; unfold startsL, starts, space1; destruct l as [|x [|y l]];
    unfold space2, space3; simpl; done.
Qed.

(** A byte that ends no encoding stops the trimming. *)
Lemma trim_by_stops p1 p2 p3 (c : ascii) l :
  p1 c = false -> (forall x, p2 x c = false) -> (forall x y, p3 x y c = false) -> trim_by p1 p2 p3 (l ++ [c]) <> [].
Proof.
  intros H1 H2 H3. induction l as [l IH] using (induction_ltof1 _ length). unfold ltof in IH.
  destruct l as [|a l1]; simpl; [by rewrite H1|]. destruct (p1 a); [apply IH; simpl; lia|].
  destruct l1 as [|b l2]; simpl; [by rewrite H2|]. destruct (p2 a b); [apply IH; simpl; lia|].
  destruct l2 as [|d l3]; simpl; [by rewrite H3|]. destruct (p3 a b d); [apply IH; simpl; lia|done].
Qed.

(** Trimming keeps the first byte of such a frame. *)
Lemma trim_keeps_start c s : sse_start c = true -> exists t, TrimSpace (String c s) = String c t.
Proof.
  intros Hc. unfold TrimSpace, trim_list, trim_left, trim_right. cbn [String.list_ascii_of_string].
  rewrite (trim_by_id space1 space2 space3) by (by apply starts_keep).
  set (R := trim_by space1 _ _). set (l := String.list_ascii_of_string s).
  destruct (trim_by_spec space1 (fun b a => space2 a b) (fun c b a => space3 a b c) (reverse (c :: l))) as [_ [k Hk]].
  fold R in Hk. assert (R (reverse (c :: l)) <> []) as N.
  { rewrite reverse_cons. apply trim_by_stops; intros; apply sse_start_cases in Hc as [->|[->|[->|[->| ->]]]]; done. }
  apply (f_equal reverse) in Hk. rewrite reverse_involutive, reverse_app in Hk.
  destruct (reverse (R (reverse (c :: l)))) as [|x m] eqn:E.
  - apply (f_equal reverse) in E. rewrite reverse_involutive in E. done.
  - simpl in Hk. injection Hk as <- _. by eexists.
Qed.

(** No JSON value starts that way. *)
Lemma sse_start_not_json c s : sse_start c = true -> Valid (TrimSpace (String c s)) = false.
Proof.
  intros Hc. destruct (trim_keeps_start c s Hc) as [t ->]. apply bool_decide_eq_false. intros [v H].
  unfold parse, parse_with in H. remember (2 * _)%nat as n. clear Heqn. cbn [p_value] in H.
  apply sse_start_cases in Hc as [->|[->|[->|[->| ->]]]]; discriminate H.
Qed.

Lemma cut_terminated f : cut blankLine (f +:+ newline) = None -> cut blankLine (f +:+ blankLine) = Some (f, "").
Proof.
  induction f as [|c f IH]; [done|]. rewrite !sapp_cons, !(cut_unfold _ (String _ _)).
  assert (forall t, String.prefix blankLine (String c (f +:+ (newline +:+ t))) = String.prefix blankLine (String c (f +:+ newline))) as P.
  { intros t. rewrite <- sapp_assoc, <- sapp_cons. apply prefix_long. simpl. rewrite sapp_length. simpl. lia. }
  change (f +:+ blankLine) with (f +:+ newline +:+ newline). rewrite P. destruct (String.prefix _ _); [done|].
  destruct (cut blankLine (f +:+ newline)) as [[b a]|]; [done|]. intros _.
  change (f +:+ newline +:+ newline) with (f +:+ blankLine). by rewrite IH.
Qed.

Lemma snoc_split p r x c :
  p +:+ r = x +:+ String c "" -> r <> "" -> exists r', p +:+ r' = x.
Proof.
  revert x. induction p as [|a p IH]; intros x.
  - intros _ _. by exists x.
  - destruct x as [|b x]; rewrite !sapp_cons.
    + intros [= _ E] N. destruct p; [by rewrite sapp_empty in E|done].
    + intros [= <- E] N. destruct (IH x E N) as [r' <-]. by exists r'.
Qed.

Lemma unfinished_uncut f p r : sse_frame f -> p +:+ r = f +:+ blankLine -> r <> "" -> cut blankLine p = None.
Proof.
  intros [_ C] E N. unfold blankLine in E. rewrite <- sapp_assoc in E. apply snoc_split in E as [r' E]; [|done].
  destruct (cut blankLine p) as [[b a]|] eqn:D; [|done]. apply (cut_app _ _ r') in D. congruence.
Qed.
Lemma unfinished_start f p r : sse_frame f -> p +:+ r = f +:+ blankLine -> p <> "" -> exists c s, p = String c s /\ sse_start c = true.
Proof.
  intros [(c & rest & -> & Hc) _] E N. destruct p as [|a p]; [done|]. rewrite !sapp_cons in E. injection E as -> _. by exists c, p.
Qed.

Lemma absorb_loop_none fuel a : cut blankLine (fa_pending a) = None -> absorb_loop fuel a = (a, None).
Proof. intros E. destruct fuel; [done|]. cbn [absorb_loop]. by rewrite E. Qed.

(** A payload that leaves the frame unfinished is kept. *)
Lemma absorb_partial protocol f p q r :
  sse_frame f -> p +:+ q +:+ r = f +:+ blankLine -> r <> "" -> absorb (mkAssembler protocol p) q = (mkAssembler protocol (p +:+ q), None).
Proof.
  intros F E N. unfold absorb. destruct (String.eqb_spec q "") as [->|Nq]; [by rewrite sapp_nil|].
  cbn [fa_pending set_field]. simpl (fa_pending _). rewrite <- sapp_assoc in E.
  rewrite absorb_loop_none by (simpl; by eapply unfinished_uncut).
  simpl. destruct (unfinished_start f (p +:+ q) r) as (c & s & -> & Hc); try done.
  - destruct p, q; done.
  - rewrite sse_start_not_json by done. by rewrite andb_false_r.
Qed.

(** The payload that finishes it is judged by the whole frame. *)
Lemma absorb_finish protocol f p q :
  sse_frame f -> p +:+ q = f +:+ blankLine -> q <> "" ->
  absorb (mkAssembler protocol p) q
  = (mkAssembler protocol "", if isHandshake (classifyFrame f protocol) then None else Some (classifyFrame f protocol)).
Proof.
  intros F E N. unfold absorb. destruct (String.eqb_spec q "") as [->|_]; [done|].
  cbn [fa_pending set_field]. simpl (fa_pending _). rewrite E.
  remember (String.length (f +:+ blankLine)) as n eqn:Hn. rewrite sapp_length in Hn. simpl in Hn.
  cbn [absorb_loop]. simpl (fa_pending _). rewrite cut_terminated by apply F.
  replace (overwrite "" f) with f by (by destruct f). simpl (fa_protocol _).
  destruct (isHandshake (classifyFrame f protocol)); [|done]. cbn [negb]. rewrite absorb_loop_none by done. done.
Qed.

Lemma absorb_all_empty a ps more : sconcat ps = "" -> absorb_all a (ps ++ more) = absorb_all a more.
Proof.
  induction ps as [|p ps IH]; [done|]. cbn [sconcat]. intros E. destruct p; [|done]. rewrite sapp_empty in E.
  cbn [app absorb_all absorb]. simpl. by apply IH.
Qed.

Lemma absorb_frame protocol f p ps more :
  sse_frame f -> p +:+ sconcat ps = f +:+ blankLine -> sconcat ps <> "" ->
  absorb_all (mkAssembler protocol p) (ps ++ more)
  = if isHandshake (classifyFrame f protocol) then absorb_all (mkAssembler protocol "") more else Some (classifyFrame f protocol).
Proof.
  intros F. revert p. induction ps as [|q ps IH]; intros p E N; [done|]. cbn [sconcat app absorb_all] in *.
  destruct (String.eqb_spec (sconcat ps) "") as [Eps|Nps].
  - rewrite Eps, sapp_nil in E, N. rewrite (absorb_finish _ f) by done.
    destruct (isHandshake _); [|done]. by apply absorb_all_empty.
  - rewrite (absorb_partial _ f p q (sconcat ps)) by done. apply IH; [|done]. by rewrite sapp_assoc.
Qed.

(** C31: For an event stream whose frames end in two line feeds (not in CRLF line
    ends), hold no blank line and start with a comment or one of the fields data,
    event, id and retry: however it is cut into chunks, as long as no chunk holds
    bytes past the end of the frame it completes, the assembler decides the attempt by
    the first frame that is not a handshake, and does not decide while there is none. *)
Theorem assembler_decides_by_first_frame protocol frames pieces :
  Forall sse_frame frames -> Forall2 (fun f ps => sconcat ps = f +:+ blankLine) frames pieces ->
  absorb_all (mkAssembler protocol "") (concat pieces) = decisive protocol frames.
Proof.
  intros F. revert pieces. induction F as [|f frames Ff F IH]; intros pieces; [by intros ->%Forall2_nil_inv_l|].
  intros (ps & pss & E & Es & ->)%Forall2_cons_inv_l. cbn [concat].
  rewrite (absorb_frame protocol f) by (try done; by rewrite E; destruct f).
  unfold decisive. simpl. destruct (decide _) as [D|D].
  - by rewrite D.
  - apply not_false_is_true in D. rewrite D. rewrite IH by done. unfold decisive.
    destruct (list_find _ _) as [[i v]|]; done.
Qed.

Definition example_created : string := "data: " +:+ js "{'type':'response.created'}".
Definition example_overloaded : string := "data: " +:+ js "{'type':'response.failed','response':{'error':{'code':'server_is_overloaded'}}}".

Lemma assembler_decides_by_first_frame_witness :
  absorb_all (mkAssembler protocolCodex "")
    (concat [["data: " +:+ js "{'type':'resp"; js "onse.created'}" +:+ newline; newline]; [example_overloaded +:+ newline; ""; newline]])
  = decisive protocolCodex [example_created; example_overloaded].
Proof.
  apply assembler_decides_by_first_frame.
  - repeat constructor; try (vm_compute; reflexivity); eexists _, _; split; vm_compute; reflexivity.
  - repeat constructor; vm_compute; reflexivity.
Defined.

(** The frame classifier strips the carriage returns of an event stream with
    CRLF line ends, but no blank line of such a stream is found: its frames are
    never complete, and a failure that calls for a retry stays undecided. *)
Theorem crlf_stream_undecided :
  let crlf := chr 13 +:+ newline in
  let frame := "event: response.failed" +:+ crlf +:+ example_overloaded in
  (classifyFrame frame protocolCodex) = failed (retry_as retryKindOverload "server overloaded")
  /\ absorb_all (mkAssembler protocolCodex "") [frame +:+ crlf +:+ crlf; frame +:+ crlf +:+ crlf] = None
  /\ absorb_all (mkAssembler protocolCodex "") ["event: response.failed" +:+ newline +:+ example_overloaded +:+ blankLine]
     = Some (failed (retry_as retryKindOverload "server overloaded")).
Proof. vm_compute. done. Qed.

(** A null error field counts as an in-band failure. *)
Theorem null_error_field_fails_frame :
  classifyFrame (event "{'choices':[{'delta':{'content':'hi'}}],'error':null}") protocolOpenAI = failed (no_retry "unrecognized failure").
Proof. vm_compute. reflexivity. Qed.
