(* ===== verification/RetryRequest.v ===== *)
(** * Requests of the retry chain (retry_runtime.go)

    Which requests the chain claims, the plan of a request, and the model and
    body of each attempt.  A body that the attempt rewrites is the object it
    encodes: a map from fields to values, as [json.Marshal] writes it in the
    order of the keys. *)

From S2P Require Import Prelude GoStrings Float64 RetryChain Config Json Text RetryClassify RetryFrames.
From Stdlib Require Import Ascii.
#[local] Open Scope string_scope.
#[local] Open Scope list_scope.
#[local] Open Scope Z_scope.
#[local] Open Scope go_scope.

(** What the chain reads of [pluginapi.ExecutorRequest]; the requested model of
    the metadata is there when it is a string. *)
Record ExecutorRequest := mkExecutorRequest {
  er_Model : string; er_Payload : string; er_OriginalRequest : string;
  er_SourceFormat : string; er_Format : string; er_RequestedModel : option string }.

Record retryAttemptState := mkAttemptState { as_index : Z; as_target : RetryTarget; as_requested : RetryTarget }.

(** ** Models *)

(** The text before and after the last occurrence of a byte. *)
Fixpoint cut_last (c : ascii) (s : string) : option (string * string) :=
  match s with
  | EmptyString => None
  | String a rest => match cut_last c rest with
                     | Some (before, after) => Some (String a before, after)
                     | None => if Ascii.eqb a c then Some (EmptyString, rest) else None
                     end
  end.

Definition splitRetryModelSuffix (model : string) : string * string * bool :=
  let trimmed := TrimSpace model in
  match cut_last "(" trimmed with
  | None => (trimmed, "", false)
  | Some (before, after) =>
      match cut_last ")" after with
      | Some (effort, "") =>
          let base := TrimSpace before in
          if String.eqb base "" then (trimmed, "", false) else (base, effort, true)
      | _ => (trimmed, "", false)
      end
  end.

Definition retryPlanForRequest (cfg : Config) (model : string) : option RetryPlan :=
  match RetryPlanFor cfg model with
  | Some plan => Some plan
  | None => let '(base, _, ok) := splitRetryModelSuffix model in
            if ok then RetryPlanFor cfg base else None
  end.

Inductive route := RouteDisabled | RouteNotStreaming | RouteNoChain | RouteSelf.
Definition routeRetryChain (cfg : Config) (stream : bool) (requestedModel : string) : route :=
  if negb (RetryActive cfg) then RouteDisabled
  else if negb stream then RouteNotStreaming
  else match retryPlanForRequest cfg requestedModel with Some _ => RouteSelf | None => RouteNoChain end.

Definition retryRequestedModel (exec : ExecutorRequest) : string :=
  let model := TrimSpace (er_Model exec) in
  if negb (String.eqb model "") then model
  else match er_RequestedModel exec with Some text => TrimSpace text | None => "" end.

Definition retryProtocol (exec : ExecutorRequest) : string :=
  default "" (list_find (fun f => f <> "") ((fun f => ToLower (TrimSpace f)) <$> [er_SourceFormat exec; er_Format exec]) ≫= fun p => Some p.2).

Definition retrySingleTargetPlan (model : string) : RetryPlan := mkRetryPlan model (NormalizeRetryTarget (mkRetryTarget "" model)) [] 1.

(** What [runRetryChain] resolves. *)
Definition planOf (cfg : Config) (requested : string) : RetryPlan := default (retrySingleTargetPlan requested) (RetryPlanFor cfg requested).

Definition retryAttemptModel (exec : ExecutorRequest) (st : retryAttemptState) : string :=
  if as_index st =? 0 then TrimSpace (er_Model exec)
  else let model := TrimSpace (rt_Model (as_target st)) in
       if negb (String.eqb model "") then model else TrimSpace (er_Model exec).

(** ** Bodies *)

(** [json.Unmarshal] into a string: [null] leaves it empty. *)
Definition decodeString (v : option json) : option string :=
  match v with Some (JString s) => Some s | Some JNull => Some "" | _ => None end.

Definition retryItemIsEncryptedReasoning (item : json) : bool :=
  match element_map item with
  | None => false
  | Some fields =>
      match decodeString (field "type" fields) with
      | None => false
      | Some itemType =>
          if negb (FoldsTo (TrimSpace itemType) "reasoning") then false
          else match decodeString (field "encrypted_content" fields) with
               | None => false
               | Some encrypted => negb (String.eqb (TrimSpace encrypted) "")
               end
      end
  end.

Definition stripEncryptedReasoning (raw : option json) : option json :=
  match raw with
  | Some (JArray items) =>
      if existsb retryItemIsEncryptedReasoning items
      then Some (JArray (filter (fun i => retryItemIsEncryptedReasoning i = false) items))
      else None
  | _ => None
  end.

(** [json.Marshal] of a string: invalid bytes become the replacement rune. *)
Definition validText (s : string) : string := foldr (fun r t => encodeRune r +:+ t) EmptyString (runes s).

(** The fields of a decoded object: the last of the duplicates. *)
Definition objectMap (fields : list (string * json)) : gmap string json := list_to_map (reverse fields).

Inductive attempt_body := BodyRaw (text : string) | BodyRewritten (object : gmap string json).

(** [None] is the run-time panic of an assignment to the nil map that a [null]
    body decodes into. *)
Definition retryAttemptBody (cfg : Config) (exec : ExecutorRequest) (st : retryAttemptState) : option attempt_body :=
  let body := if String.eqb (er_Payload exec) "" then er_OriginalRequest exec else er_Payload exec in
  if (as_index st =? 0) || String.eqb body "" then Some (BodyRaw body)
  else
    let model := retryAttemptModel exec st in
    let current := TrimSpace (er_Model exec) in
    if String.eqb model "" || EqualFold model current then Some (BodyRaw body)
    else match parse body with
         | Some JNull => None
         | Some (JObject fields) =>
             let object := <["model" := JString (validText model)]> (objectMap fields) in
             Some (BodyRewritten
               (if RetryStripReasoning cfg then
                  match stripEncryptedReasoning (object !! "input") with
                  | Some filtered => <["input" := filtered]> object
                  | None => object
                  end
                else object))
         | _ => Some (BodyRaw body)
         end.

(** ** Properties *)

Lemma strip_no_encrypted items :
  match default (JArray items) (stripEncryptedReasoning (Some (JArray items))) with
  | JArray kept => kept = filter (fun i => retryItemIsEncryptedReasoning i = false) items
  | _ => False
  end.
Proof.
  simpl. destruct (existsb _ items) eqn:E; simpl; [done|]. symmetry. apply filter_id. apply Forall_forall. intros i Hi.
  destruct (retryItemIsEncryptedReasoning i) eqn:R; [|done].
  apply not_true_iff_false in E. destruct E. apply existsb_exists. exists i. split; [by apply list_elem_of_In|done].
Qed.

(** The body of an attempt: the first attempt and an attempt at the same
    model send the request's bytes; an attempt at another model sends the same
    object with the model replaced and, where the configuration asks for it, the
    encrypted reasoning items removed from its input, and nothing else
    changed. *)
Theorem attempt_body_exact cfg exec st body :
  retryAttemptBody cfg exec st = Some body ->
  let sent := if String.eqb (er_Payload exec) "" then er_OriginalRequest exec else er_Payload exec in
  match body with
  | BodyRaw text => text = sent
  | BodyRewritten object =>
      as_index st <> 0 /\ EqualFold (retryAttemptModel exec st) (TrimSpace (er_Model exec)) = false
      /\ exists fields, parse sent = Some (JObject fields)
         /\ object !! "model" = Some (JString (validText (retryAttemptModel exec st)))
         /\ (forall key, key <> "model" -> key <> "input" -> object !! key = objectMap fields !! key)
         /\ match objectMap fields !! "input" with
            | Some (JArray items) =>
                object !! "input" = Some (JArray (if RetryStripReasoning cfg then filter (fun i => retryItemIsEncryptedReasoning i = false) items else items))
            | input => object !! "input" = input
            end
  end.
Proof.
  intros H sent. unfold retryAttemptBody in H. fold sent in H. cbv zeta in H.
  destruct ((as_index st =? 0) || String.eqb sent "") eqn:E0; [by simplify_eq|].
  destruct (String.eqb (retryAttemptModel exec st) "" || _) eqn:E1; [by simplify_eq|].
  destruct (parse sent) as [[| | | | |fields]|] eqn:P; simplify_eq; try done.
  apply orb_false_iff in E0 as [E0 _], E1 as [_ E1]. apply Z.eqb_neq in E0. split_and!; [done|done|]. exists fields.
  set (object := <["model":=_]> (objectMap fields)).
  assert (object !! "input" = objectMap fields !! "input") as I by (unfold object; by simplify_map_eq).
  rewrite I. destruct (RetryStripReasoning cfg).
  - destruct (stripEncryptedReasoning (objectMap fields !! "input")) as [filtered|] eqn:S.
    + split_and!; [done|unfold object; by simplify_map_eq|intros key N1 N2; unfold object; by simplify_map_eq|].
      destruct (objectMap fields !! "input") as [[| | | |items|]|]; try done.
      pose proof (strip_no_encrypted items) as K. rewrite S in K. simpl in K. destruct filtered; try done. subst. by simplify_map_eq.
    + split_and!; [done|unfold object; by simplify_map_eq|intros key N1 N2; unfold object; by simplify_map_eq|].
      rewrite I. destruct (objectMap fields !! "input") as [[| | | |items|]|]; try done.
      pose proof (strip_no_encrypted items) as K. rewrite S in K. simpl in K. by rewrite <- K.
  - split_and!; [done|unfold object; by simplify_map_eq|intros key N1 N2; unfold object; by simplify_map_eq|].
    rewrite I. by destruct (objectMap fields !! "input") as [[]|].
Qed.

Definition example_exec : ExecutorRequest :=
  mkExecutorRequest "gpt-5" (js "{'model':'gpt-5','input':[{'type':'reasoning','encrypted_content':'x'},{'type':'message'}],'stream':true}")
    "" "codex" "" None.
Definition example_state : retryAttemptState := mkAttemptState 1 (mkRetryTarget "" "gpt-4") (mkRetryTarget "" "gpt-5").
Definition example_body : gmap string json :=
  {["model" := JString "gpt-4"; "input" := JArray [JObject [("type", JString "message")]]; "stream" := JBool true]}.

Lemma attempt_body_exact_witness :
  retryAttemptBody DefaultConfig example_exec example_state = Some (BodyRewritten example_body)
  /\ example_body !! "model" = Some (JString "gpt-4").
Proof.
  assert (retryAttemptBody DefaultConfig example_exec example_state = Some (BodyRewritten example_body)) as E by (vm_compute; reflexivity).
  split; [exact E|].
  destruct (attempt_body_exact DefaultConfig example_exec example_state _ E) as (_ & _ & fields & _ & M & _).
  rewrite M. vm_compute. reflexivity.
Defined.

(** A request routed to the chain for the model behind its suffix is run with
    the plan of the whole name, so without a row of that name it has a single
    attempt. *)
Theorem suffixed_request_single_attempt :
  let cfg := DefaultConfig <| RetryEnabled := true |> <| RetryChain := [mkRetryChainRow "gpt-5" [mkRetryTarget "" "gpt-4"]] |> in
  routeRetryChain cfg true "gpt-5(high)" = RouteSelf
  /\ (TargetCount <$> retryPlanForRequest cfg "gpt-5(high)") = Some 2
  /\ TargetCount (planOf cfg "gpt-5(high)") = 1.
Proof. vm_compute. done. Qed.

(** A [null] body decodes without an error, and the attempt at another model
    assigns to the nil map. *)
Theorem null_body_panics :
  retryAttemptBody DefaultConfig (mkExecutorRequest "gpt-5" "null" "" "codex" "" None) example_state = None.
Proof. vm_compute. reflexivity. Qed.
