(* ===== verification/RetryRuntime.v ===== *)
(** * The retry chain at run time (retry_runtime.go, retry_hostcall.go)

    A request runs the attempts of its plan one after another.  An attempt holds
    the frames of its nested stream back until one of them decides it: a failure
    that justifies it moves on to the next target, anything else commits the
    attempt and passes the stream through.

    The host is what it answers to the calls of the chain: the opening of each
    nested stream, each read of it with the time it takes, and each emission on
    the stream of the plugin.  A read that times out is abandoned but not
    withdrawn, so the answers of a stream belong to its read calls in their
    order.  The calls made, and the names of the nested
    streams they open, are the trace of the run.  The context of a chain is
    never cancelled (executeRetryChainStream starts it with the background
    context) and its stream has a name, so those checks never fail. *)

From S2P Require Import Prelude GoStrings Float64 RetryChain Config Json Text RetryClassify RetryFrames RetryRequest.
From Stdlib Require Import Ascii.
#[local] Open Scope string_scope.
#[local] Open Scope list_scope.
#[local] Open Scope Z_scope.
#[local] Open Scope go_scope.

(** ** The host *)

Inductive host_error := hostCallError (code message : string) (status : Z) | PlainError (text : string).
Definition errorText (e : host_error) : string :=
  match e with
  | hostCallError code message _ => if String.eqb code "" then message else if String.eqb message "" then code else code +:+ ": " +:+ message
  | PlainError text => text
  end.

Record StreamChunk := mkChunk { ch_Payload : string; ch_Error : string; ch_Done : bool }.
Inductive read_answer := ReadChunk (c : StreamChunk) | ReadFailed (e : host_error).
Record nested_read := mkRead { rd_delay : Duration; rd_answer : read_answer }.
Inductive open_answer :=
  | OpenFailed (e : host_error)
  | OpenUndecodable (text : string)
  | OpenAnswered (status : Z) (streamID : string) (reads : list nested_read).
Record nested_open := mkOpen { op_delay : Duration; op_answer : open_answer }.

(** The calls of a chain; an opening carries the clock at which it was made. *)
Inductive host_call :=
  | CallOpen (at_ : Time) (model provider : string) (body : attempt_body)
  | AnswerReady (streamID : string)
  | CallRead (streamID : string)
  | CallCloseNested (streamID : string)
  | CallEmit (payload : string) (failure : option host_error)
  | CallClosePlugin (error : string)
  | CallLog (level event : string).

(** ** Statistics *)

Record RetryEvent := mkRetryEvent {
  re_At : Time; re_Model : string; re_Attempt : Z; re_Target : string; re_Outcome : string;
  re_Kind : option retryFailureKind; re_Reason : string; re_NextTarge : string }.
Record retryStats := mkStats {
  rs_requests : Z; rs_retries : Z; rs_succeeded : Z; rs_failed : Z; rs_shadowHits : Z; rs_events : list RetryEvent }.
#[export] Instance eta_stats : Eta retryStats := fun s =>
  mkStats (rs_requests s) (rs_retries s) (rs_succeeded s) (rs_failed s) (rs_shadowHits s) (rs_events s).
Definition retryEventHistory : nat := 40.

Definition stats_record (s : retryStats) (e : RetryEvent) : retryStats :=
  let events := rs_events s ++ [e] in
  s <| rs_events := drop (length events - retryEventHistory) events |>.
Definition requestStarted (now : Time) (model : string) (attempts : Z) (s : retryStats) : retryStats :=
  stats_record (s <| rs_requests := i64 (rs_requests s + 1) |>) (mkRetryEvent now model attempts "" "request" None "" "").
Definition attemptStarted (now : Time) (model : string) (index : Z) (target : string) (s : retryStats) : retryStats :=
  stats_record s (mkRetryEvent now model (index + 1) target "attempt" None "" "").
Definition retryScheduled (now : Time) (model : string) (index : Z) (target : string) (kind : option retryFailureKind) (reason : string) (s : retryStats) : retryStats :=
  stats_record (s <| rs_retries := i64 (rs_retries s + 1) |>) (mkRetryEvent now model (index + 1) target "retry" kind reason "").
Definition requestFinished (now : Time) (model : string) (ok : bool) (reason : string) (s : retryStats) : retryStats :=
  stats_record (if ok then s <| rs_succeeded := i64 (rs_succeeded s + 1) |> else s <| rs_failed := i64 (rs_failed s + 1) |>)
    (mkRetryEvent now model 0 "" (if ok then "succeeded" else "failed") None reason "").
Definition shadowWouldRetry (now : Time) (model : string) (kind : option retryFailureKind) (reason next : string) (s : retryStats) : retryStats :=
  stats_record (s <| rs_shadowHits := i64 (rs_shadowHits s + 1) |>) (mkRetryEvent now model 0 "" "shadow" kind reason next).

(** ** The world of a chain *)

Record chain_world := mkChain {
  cw_now : Time; cw_opens : list nested_open; cw_emits : list (option host_error); cw_calls : list host_call; cw_stats : retryStats }.
#[export] Instance eta_chain : Eta chain_world := fun w =>
  mkChain (cw_now w) (cw_opens w) (cw_emits w) (cw_calls w) (cw_stats w).

Definition call (w : chain_world) (c : host_call) : chain_world := w <| cw_calls := cw_calls w ++ [c] |>.
Definition pass (w : chain_world) (d : Duration) : chain_world := w <| cw_now := Add (cw_now w) d |>.
Definition counted (w : chain_world) (f : Time -> retryStats -> retryStats) : chain_world := w <| cw_stats := f (cw_now w) (cw_stats w) |>.

(** [Blocked]: the chain waits for an answer that never comes. *)
Inductive outcome (A : Type) := Returned (a : A) | Blocked | Panicked.
Arguments Returned {A} a.
Arguments Blocked {A}.
Arguments Panicked {A}.

(** Emissions past the given outcomes succeed. *)
Definition emitPluginStream (w : chain_world) (payload : string) : option host_error * chain_world :=
  if String.eqb payload "" then (None, w)
  else let failure := default None (head (cw_emits w)) in
       (failure, call (w <| cw_emits := tail (cw_emits w) |>) (CallEmit payload failure)).
Definition closePluginStream (w : chain_world) (errMsg : string) : chain_world := call w (CallClosePlugin (TrimSpace errMsg)).
Definition closeNestedStream (w : chain_world) (streamID : string) : chain_world := call w (CallCloseNested streamID).

Fixpoint emitAll (w : chain_world) (payloads : list string) : option host_error * chain_world :=
  match payloads with
  | [] => (None, w)
  | p :: ps => let '(failure, w) := emitPluginStream w p in
               match failure with Some e => (Some e, w) | None => emitAll w ps end
  end.

(** ** Attempts *)

Record attemptResult := mkAttempt {
  at_committed : bool; at_retryable : bool; at_reason : string; at_kind : option retryFailureKind; at_status : Z;
  at_held : list string; at_heldFailure : bool }.
Definition committedResult (reason : string) : attemptResult := mkAttempt true false reason None 0 [] false.
Definition zeroAttempt : attemptResult := mkAttempt false false "" None 0 [] false.

Definition classifyAttemptError (e : host_error) : RetryClassification :=
  match e with
  | hostCallError _ _ status => if 0 <? status then classifyRetryStatus status else classifyRetryFailure (errorText e)
  | PlainError text => classifyRetryFailure text
  end.
Definition retryFailureText (raw : string) (c : RetryClassification) : string :=
  let text := TrimSpace raw in
  let text := if String.eqb text "" then "upstream failure" else text in
  if String.eqb (rc_Reason c) "" then text
  else if Contains (LowerText text) (LowerText (rc_Reason c)) then text
  else text +:+ " (" +:+ rc_Reason c +:+ ")".
Definition failedAttempt (raw : string) (c : RetryClassification) (held : list string) (heldFailure : bool) : attemptResult :=
  mkAttempt false (rc_Retryable c) (retryFailureText raw c) (rc_Kind c) (rc_Status c) held heldFailure.

(** The pass-through of a committed attempt. *)
Fixpoint forward_loop (id : string) (reads : list nested_read) (w : chain_world) : outcome attemptResult * chain_world :=
  let w := call w (CallRead id) in
  match reads with
  | [] => (Blocked, w)
  | rd :: reads =>
      let w := pass w (rd_delay rd) in
      match rd_answer rd with
      | ReadFailed e => (Returned (committedResult (errorText e)), closeNestedStream w id)
      | ReadChunk c =>
          if negb (String.eqb (ch_Error c) "") then (Returned (committedResult (ch_Error c)), closeNestedStream w id)
          else
            let '(failure, w) := emitPluginStream w (ch_Payload c) in
            match failure with
            | Some e => (Returned (committedResult (errorText e)), closeNestedStream w id)
            | None => if ch_Done c then (Returned (committedResult ""), closeNestedStream w id) else forward_loop id reads w
            end
      end
  end.
Definition forwardCommitted (id : string) (reads : list nested_read) (hold : retryHoldBuffer) (w : chain_world) : outcome attemptResult * chain_world :=
  let '(failure, w) := emitAll w (hb_payloads hold) in
  match failure with
  | Some e => (Returned (committedResult (errorText e)), closeNestedStream w id)
  | None => forward_loop id reads w
  end.

(** Nothing arrived in time: an attempt without held frames gives way to the
    next target, another is handed to the client. *)
Definition onTimeout (cfg : Config) (id : string) (reads : list nested_read) (hold : retryHoldBuffer) (w : chain_world)
  : outcome attemptResult * chain_world :=
  match hb_payloads hold with
  | [] => (Returned (mkAttempt false true ("no upstream output within the " +:+ durationText (RetryStallTimeout cfg) +:+ " stall timeout")
                       (Some retryKindTransport) 0 [] false), closeNestedStream w id)
  | _ => forwardCommitted id reads hold w
  end.

(** The loop of an attempt that is still holding its frames.  An answer that
    comes as the timer fires may be taken or not; here it is late. *)
Fixpoint attempt_loop (cfg : Config) (id : string) (holdDeadline : Time) (reads : list nested_read) (hold : retryHoldBuffer)
    (asm : retryFrameAssembler) (w : chain_world) : outcome attemptResult * chain_world :=
  let wait := Z.min (RetryStallTimeout cfg) (Sub holdDeadline (cw_now w)) in
  if wait <=? 0 then forwardCommitted id reads hold w
  else
    let w := call w (CallRead id) in
    match reads with
    | [] => onTimeout cfg id [] hold (pass w wait)
    | rd :: reads =>
        if negb (rd_delay rd <? wait) then onTimeout cfg id reads hold (pass w wait)
        else
          let w := pass w (rd_delay rd) in
          match rd_answer rd with
          | ReadFailed e => (Returned (failedAttempt (errorText e) (classifyAttemptError e) (hb_payloads hold) false), closeNestedStream w id)
          | ReadChunk c =>
              if negb (String.eqb (ch_Error c) "")
              then (Returned (failedAttempt (ch_Error c) (classifyRetryFailure (ch_Error c)) (hb_payloads hold) false), closeNestedStream w id)
              else if String.eqb (ch_Payload c) ""
              then if ch_Done c then forwardCommitted id reads hold w else attempt_loop cfg id holdDeadline reads hold asm w
              else
                let hold := hold_add hold (ch_Payload c) in
                let '(asm, decided) := absorb asm (ch_Payload c) in
                match decided with
                | Some verdict =>
                    if bool_decide (fv_Disposition verdict = frameFailure)
                    then (Returned (failedAttempt (ch_Payload c) (fv_Failure verdict) (hb_payloads hold) true), closeNestedStream w id)
                    else forwardCommitted id reads hold w
                | None =>
                    if overBudget hold then forwardCommitted id reads hold w
                    else if ch_Done c then forwardCommitted id reads hold w
                    else attempt_loop cfg id holdDeadline reads hold asm w
                end
          end
    end.

Inductive opened := Ready (streamID : string) (reads : list nested_read) | NotReady (result : attemptResult).
Definition openNestedStream (cfg : Config) (exec : ExecutorRequest) (st : retryAttemptState) (w : chain_world)
  : outcome opened * chain_world :=
  match retryAttemptBody cfg exec st with
  | None => (Panicked, w)
  | Some body =>
      let w := call w (CallOpen (cw_now w) (retryAttemptModel exec st) (rt_Provider (as_target st)) body) in
      match cw_opens w with
      | [] => (Blocked, w)
      | op :: ops =>
          let w := pass (w <| cw_opens := ops |>) (op_delay op) in
          let notReady := fun result => (Returned (NotReady result), w) in
          match op_answer op with
          | OpenFailed e => notReady (failedAttempt (errorText e) (classifyAttemptError e) [] false)
          | OpenUndecodable text => notReady (mkAttempt false false ("decode host model stream response: " +:+ text) (Some retryKindTransport) 0 [] false)
          | OpenAnswered status id reads =>
              if 400 <=? status
              then let c := classifyRetryStatus status in
                   notReady (mkAttempt false (rc_Retryable c) ("upstream status " +:+ formatInt status) (rc_Kind c) status [] false)
              else if String.eqb (TrimSpace id) ""
              then notReady (mkAttempt false true "host model stream bridge returned an empty stream id" (Some retryKindTransport) 0 [] false)
              else (Returned (Ready (TrimSpace id) reads), call w (AnswerReady (TrimSpace id)))
          end
      end
  end.

Definition emptyHold (cfg : Config) : retryHoldBuffer := mkHold [] 0 0 (RetryMaxFrames cfg) (RetryMaxBytes cfg).

Definition runRetryAttempt (cfg : Config) (exec : ExecutorRequest) (st : retryAttemptState) (protocol : string) (deadline : Time)
    (w : chain_world) : outcome attemptResult * chain_world :=
  let '(o, w) := openNestedStream cfg exec st w in
  match o with
  | Blocked => (Blocked, w)
  | Panicked => (Panicked, w)
  | Returned (NotReady result) => (Returned result, w)
  | Returned (Ready id reads) =>
      let holdDeadline := Add (cw_now w) (RetryHoldTimeout cfg) in
      let holdDeadline := if Before deadline holdDeadline then deadline else holdDeadline in
      attempt_loop cfg id holdDeadline reads (emptyHold cfg) (mkAssembler protocol "") w
  end.

(** ** The chain *)

Definition finishFailedAttempt (result : attemptResult) (w : chain_world) : chain_world :=
  let '(failure, w) := emitAll w (at_held result) in
  match failure with
  | Some e => closePluginStream w (errorText e)
  | None => if negb (bool_decide (at_held result = [])) && at_heldFailure result then closePluginStream w ""
            else closePluginStream w (at_reason result)
  end.

Definition exhausted (requested lastReason : string) (last : attemptResult) (w : chain_world) : chain_world :=
  let lastReason := if String.eqb lastReason "" then "retry chain exhausted without an upstream response" else lastReason in
  let w := counted w (fun now => requestFinished now requested false lastReason) in
  finishFailedAttempt last (call w (CallLog "warn" "retry.exhausted")).

(** The attempts from [index] on; [n] is how many the plan has left. *)
Fixpoint chain_loop (cfg : Config) (exec : ExecutorRequest) (requested protocol : string) (plan : RetryPlan) (deadline : Time)
    (n : nat) (index : Z) (lastReason : string) (last : attemptResult) (w : chain_world) : outcome unit * chain_world :=
  match n with
  | O => (Returned tt, exhausted requested lastReason last w)
  | S n =>
      match Target plan index with
      | Panic => (Panicked, w)
      | NotFound => (Returned tt, exhausted requested lastReason last w)
      | Found target =>
          if Sub deadline (cw_now w) <=? 0
          then (Returned tt, exhausted requested "retry chain deadline exceeded before the next attempt" last w)
          else
            let label := FormatRetryTarget target in
            let w := counted w (fun now => attemptStarted now requested index label) in
            let w := call w (CallLog "info" "retry.attempt_started") in
            let '(o, w) := runRetryAttempt cfg exec (mkAttemptState index target (plan_Requested plan)) protocol deadline w in
            match o with
            | Blocked => (Blocked, w)
            | Panicked => (Panicked, w)
            | Returned result =>
                if at_committed result then
                  if negb (String.eqb (at_reason result) "")
                  then (Returned tt, counted (closePluginStream w (at_reason result)) (fun now => requestFinished now requested false (at_reason result)))
                  else (Returned tt, closePluginStream (counted w (fun now => requestFinished now requested true "")) "")
                else if at_retryable result then
                  let w := counted w (fun now => retryScheduled now requested index label (at_kind result) (at_reason result)) in
                  let w := call w (CallLog "warn" "retry.retry_scheduled") in
                  chain_loop cfg exec requested protocol plan deadline n (index + 1) (at_reason result) result w
                else
                  let w := counted w (fun now => requestFinished now requested false (at_reason result)) in
                  let w := finishFailedAttempt result w in
                  (Returned tt, call w (CallLog "warn" "retry.aborted"))
            end
      end
  end.

(** ** Shadow mode *)

Fixpoint shadow_loop (cfg : Config) (id : string) (reads : list nested_read) (asm : retryFrameAssembler) (sniff : RetryClassification)
    (w : chain_world) : outcome (attemptResult * RetryClassification) * chain_world :=
  let w := call w (CallRead id) in
  let stalled := committedResult ("upstream stalled for " +:+ durationText (RetryStallTimeout cfg)) in
  match reads with
  | [] => if 0 <? RetryStallTimeout cfg then (Returned (stalled, sniff), pass w (RetryStallTimeout cfg)) else (Blocked, w)
  | rd :: reads =>
      if (0 <? RetryStallTimeout cfg) && negb (rd_delay rd <? RetryStallTimeout cfg)
      then (Returned (stalled, sniff), pass w (RetryStallTimeout cfg))
      else
        let w := pass w (rd_delay rd) in
        match rd_answer rd with
        | ReadFailed e => (Returned (committedResult (errorText e), sniff), w)
        | ReadChunk c =>
            if negb (String.eqb (ch_Error c) "") then (Returned (committedResult (ch_Error c), sniff), w)
            else
              let '(asm, decided) := if String.eqb (ch_Payload c) "" then (asm, None) else absorb asm (ch_Payload c) in
              let sniff := match decided with
                           | Some v => if bool_decide (fv_Disposition v = frameFailure) && negb (rc_Retryable sniff) then fv_Failure v else sniff
                           | None => sniff
                           end in
              let '(failure, w) := emitPluginStream w (ch_Payload c) in
              match failure with
              | Some e => (Returned (committedResult (errorText e), sniff), w)
              | None => if ch_Done c then (Returned (committedResult "", sniff), w) else shadow_loop cfg id reads asm sniff w
              end
        end
  end.
Definition runRetryShadowAttempt (cfg : Config) (exec : ExecutorRequest) (st : retryAttemptState) (protocol : string) (w : chain_world)
  : outcome (attemptResult * RetryClassification) * chain_world :=
  let '(o, w) := openNestedStream cfg exec st w in
  match o with
  | Blocked => (Blocked, w)
  | Panicked => (Panicked, w)
  | Returned (NotReady result) => (Returned (result, noClassification), w)
  | Returned (Ready id reads) =>
      let '(o, w) := shadow_loop cfg id reads (mkAssembler protocol "") noClassification w in
      match o with Returned r => (Returned r, closeNestedStream w id) | o => (o, w) end
  end.
Definition runRetryShadow (cfg : Config) (exec : ExecutorRequest) (plan : RetryPlan) (protocol : string) (w : chain_world)
  : outcome unit * chain_world :=
  let '(o, w) := runRetryShadowAttempt cfg exec (mkAttemptState 0 (plan_Requested plan) (plan_Requested plan)) protocol w in
  match o with
  | Blocked => (Blocked, w)
  | Panicked => (Panicked, w)
  | Returned (result, sniff) =>
      if negb (String.eqb (at_reason result) "") then (Returned tt, closePluginStream w (at_reason result))
      else if negb (rc_Retryable sniff) then (Returned tt, closePluginStream w "")
      else
        let nextLabel := match Target plan 1 with Found next => FormatRetryTarget next | _ => "" end in
        let w := counted w (fun now => shadowWouldRetry now (plan_Key plan) (rc_Kind sniff) (rc_Reason sniff) nextLabel) in
        let w := call w (CallLog "info" "retry.shadow_would_retry") in
        (Returned tt, closePluginStream w "")
  end.

Definition runRetryChain (cfg : Config) (exec : ExecutorRequest) (w : chain_world) : outcome unit * chain_world :=
  let requested := retryRequestedModel exec in
  let plan := planOf cfg requested in
  let protocol := retryProtocol exec in
  if String.eqb protocol "" then (Returned tt, closePluginStream w "retry chain: request has no source protocol")
  else if RetryShadow cfg then runRetryShadow cfg exec plan protocol w
  else
    let deadline := Add (cw_now w) (RetryChainDeadline cfg) in
    let attempts := TargetCount plan in
    let w := counted w (fun now => requestStarted now requested attempts) in
    chain_loop cfg exec requested protocol plan deadline (Z.to_nat attempts) 0 "" zeroAttempt w.

(** The goroutine of a request: a panic closes the stream with its text. *)
Definition executeRetryChainStream (cfg : Config) (exec : ExecutorRequest) (w : chain_world) : outcome unit * chain_world :=
  let '(o, w) := runRetryChain cfg exec w in
  match o with
  | Panicked => (Returned tt, closePluginStream w "retry chain panic: assignment to entry in nil map")
  | o => (o, w)
  end.

(** ** The discipline of the streams *)

(** What the chain has done so far: the nested stream it holds, whether it has
    emitted on the stream of the plugin, whether it has closed that. *)
Record phase := mkPhase { ph_nested : option string; ph_emitted : bool; ph_closed : bool }.
Definition phase0 : phase := mkPhase None false false.

Definition phase_step (p : phase) (c : host_call) : option phase :=
  match c with
  | CallOpen _ _ _ _ => match p with mkPhase None false false => Some p | _ => None end
  | AnswerReady id => match p with mkPhase None false false => Some (mkPhase (Some id) false false) | _ => None end
  | CallRead id => if bool_decide (ph_nested p = Some id) && negb (ph_closed p) then Some p else None
  | CallCloseNested id => if bool_decide (ph_nested p = Some id) then Some (mkPhase None (ph_emitted p) (ph_closed p)) else None
  | CallEmit _ _ => if ph_closed p then None else Some (mkPhase (ph_nested p) true false)
  | CallClosePlugin _ => match p with mkPhase None e false => Some (mkPhase None e true) | _ => None end
  | CallLog _ _ => Some p
  end.
Fixpoint phase_run (p : phase) (cs : list host_call) : option phase :=
  match cs with [] => Some p | c :: cs => match phase_step p c with Some p => phase_run p cs | None => None end end.

Definition reached (w : chain_world) (p : phase) : Prop := phase_run phase0 (cw_calls w) = Some p.

Lemma phase_run_snoc p cs c : phase_run p (cs ++ [c]) = phase_run p cs ≫= fun q => phase_step q c.
Proof. revert p. induction cs as [|d cs IH]; intros p; simpl; [by destruct (phase_step p c)|]. destruct (phase_step p d); [apply IH|done]. Qed.

Lemma reached_call w c p q : reached w p -> phase_step p c = Some q -> reached (call w c) q.
Proof. unfold reached, call. simpl. intros E S. by rewrite phase_run_snoc, E. Qed.
Lemma reached_pass w d p : reached w p -> reached (pass w d) p.
Proof. done. Qed.
Lemma reached_counted w f p : reached w p -> reached (counted w f) p.
Proof. done. Qed.
Lemma reached_read w id e : reached w (mkPhase (Some id) e false) -> reached (call w (CallRead id)) (mkPhase (Some id) e false).
Proof. intros H. eapply reached_call; [done|]. simpl. by rewrite bool_decide_eq_true_2. Qed.
Lemma reached_close_nested w id e c : reached w (mkPhase (Some id) e c) -> reached (closeNestedStream w id) (mkPhase None e c).
Proof. intros H. eapply reached_call; [done|]. simpl. by rewrite bool_decide_eq_true_2. Qed.
Lemma reached_close_plugin w e m : reached w (mkPhase None e false) -> reached (closePluginStream w m) (mkPhase None e true).
Proof. intros H. by eapply reached_call. Qed.
Lemma reached_log w p l m : reached w p -> reached (call w (CallLog l m)) p.
Proof. intros H. by eapply reached_call. Qed.
Create HintDb discipline.
#[local] Hint Resolve reached_pass reached_counted reached_read reached_close_nested reached_close_plugin reached_log : discipline.

Lemma emit_reached w n e p :
  reached w (mkPhase n e false) -> exists e', reached (emitPluginStream w p).2 (mkPhase n e' false).
Proof.
  intros H. unfold emitPluginStream. destruct (String.eqb p ""); [by exists e|]. exists true. by eapply reached_call.
Qed.
Lemma emitAll_reached ps w n e :
  reached w (mkPhase n e false) -> exists e', reached (emitAll w ps).2 (mkPhase n e' false) /\ (ps = [] -> e' = e).
Proof.
  revert w e. induction ps as [|p ps IH]; intros w e H; [by exists e|]. cbn [emitAll].
  destruct (emit_reached w n e p H) as [e1 H1]. destruct (emitPluginStream w p) as [[f|] w1]; [by exists e1|].
  destruct (IH _ _ H1) as (e2 & H2 & _). by exists e2.
Qed.

(** How an attempt leaves the streams: its own stream closed, and nothing
    emitted unless it is committed. *)
Definition attempt_post (o : outcome attemptResult) (w : chain_world) : Prop :=
  match o with
  | Returned r => exists e, reached w (mkPhase None e false) /\ (at_committed r = false -> e = false)
  | Blocked => exists n e, reached w (mkPhase n e false)
  | Panicked => reached w phase0
  end.

Lemma forward_loop_post id reads w e :
  reached w (mkPhase (Some id) e false) -> attempt_post (forward_loop id reads w).1 (forward_loop id reads w).2.
Proof.
  revert w e. induction reads as [|rd reads IH]; intros w e H; cbn [forward_loop].
  { exists (Some id), e. by apply reached_read. }
  set (w1 := pass _ _). assert (reached w1 (mkPhase (Some id) e false)) as H1 by (unfold w1; auto with discipline).
  clearbody w1. destruct (rd_answer rd) as [c|err]; [|exists e; split; [by apply reached_close_nested|done]].
  destruct (String.eqb (ch_Error c) ""); cbn [negb]; [|exists e; split; [by apply reached_close_nested|done]].
  destruct (emit_reached w1 _ _ (ch_Payload c) H1) as [e2 H2]. destruct (emitPluginStream w1 (ch_Payload c)) as [[f|] w2].
  { exists e2; split; [by apply reached_close_nested|done]. }
  destruct (ch_Done c); [exists e2; split; [by apply reached_close_nested|done]|]. by eapply IH.
Qed.

Lemma forwardCommitted_post id reads hold w e :
  reached w (mkPhase (Some id) e false) -> attempt_post (forwardCommitted id reads hold w).1 (forwardCommitted id reads hold w).2.
Proof.
  intros H. unfold forwardCommitted. destruct (emitAll_reached (hb_payloads hold) _ _ _ H) as (e1 & H1 & _).
  destruct (emitAll w (hb_payloads hold)) as [[f|] w1]; [exists e1; split; [by apply reached_close_nested|done]|].
  by eapply forward_loop_post.
Qed.

Lemma onTimeout_post cfg id reads hold w :
  reached w (mkPhase (Some id) false false) -> attempt_post (onTimeout cfg id reads hold w).1 (onTimeout cfg id reads hold w).2.
Proof.
  intros H. unfold onTimeout. destruct (hb_payloads hold); [|by eapply forwardCommitted_post].
  exists false. split; [by apply reached_close_nested|done].
Qed.

Lemma attempt_loop_post cfg id deadline reads hold asm w :
  reached w (mkPhase (Some id) false false) ->
  attempt_post (attempt_loop cfg id deadline reads hold asm w).1 (attempt_loop cfg id deadline reads hold asm w).2.
Proof.
  revert hold asm w. induction reads as [|rd reads IH]; intros hold asm w H; cbn [attempt_loop];
    (destruct (_ <=? 0); [by eapply forwardCommitted_post|]).
  { apply onTimeout_post. auto with discipline. }
  destruct (negb _); [apply onTimeout_post; auto with discipline|].
  set (w1 := pass _ _). assert (reached w1 (mkPhase (Some id) false false)) as H1 by (unfold w1; auto with discipline).
  clearbody w1. assert (forall r, attempt_post (Returned r) (closeNestedStream w1 id)) as Stop.
  { intros r. exists false. split; [by apply reached_close_nested|done]. }
  destruct (rd_answer rd) as [c|err]; [|apply Stop].
  destruct (negb _); [apply Stop|]. destruct (String.eqb _ _).
  { destruct (ch_Done c); [by eapply forwardCommitted_post|by apply IH]. }
  destruct (absorb asm (ch_Payload c)) as [asm' [v|]].
  { destruct (bool_decide _); [apply Stop|by eapply forwardCommitted_post]. }
  destruct (overBudget _); [by eapply forwardCommitted_post|]. destruct (ch_Done c); [by eapply forwardCommitted_post|by apply IH].
Qed.

Lemma openNestedStream_post cfg exec st w :
  reached w phase0 ->
  let '(o, w') := openNestedStream cfg exec st w in
  match o with
  | Returned (Ready id _) => reached w' (mkPhase (Some id) false false)
  | Returned (NotReady r) => reached w' phase0 /\ at_committed r = false
  | _ => reached w' phase0
  end.
Proof.
  intros H. unfold openNestedStream. destruct (retryAttemptBody cfg exec st) as [body|]; [|done].
  set (w1 := call w _). assert (reached w1 phase0) as H1 by (by eapply reached_call). clearbody w1.
  destruct (cw_opens w1) as [|op ops]; [done|].
  assert (forall d, reached (pass (w1 <| cw_opens := ops |>) d) phase0) as H2 by done.
  destruct (op_answer op) as [e|text|status id reads]; [done..|].
  destruct (400 <=? status); [done|]. destruct (String.eqb _ _); [done|].
  by eapply reached_call.
Qed.

Lemma runRetryAttempt_post cfg exec st protocol deadline w :
  reached w phase0 ->
  attempt_post (runRetryAttempt cfg exec st protocol deadline w).1 (runRetryAttempt cfg exec st protocol deadline w).2.
Proof.
  intros H. unfold runRetryAttempt. pose proof (openNestedStream_post cfg exec st w H) as P.
  destruct (openNestedStream cfg exec st w) as [[[id reads|r]| |] w1]; cbn [fst snd].
  - by apply attempt_loop_post.
  - destruct P. by exists false.
  - by exists None, false.
  - done.
Qed.

(** How a chain leaves the streams. *)
Definition chain_post (o : outcome unit) (w : chain_world) : Prop :=
  match o with
  | Returned _ => exists e, reached w (mkPhase None e true)
  | Blocked => exists n e, reached w (mkPhase n e false)
  | Panicked => reached w phase0
  end.

Lemma finishFailedAttempt_post r w : reached w phase0 -> exists e, reached (finishFailedAttempt r w) (mkPhase None e true).
Proof.
  intros H. unfold finishFailedAttempt. destruct (emitAll_reached (at_held r) w None false H) as (e & He & _).
  destruct (emitAll w (at_held r)) as [[f|] w1]; [exists e; by apply reached_close_plugin|].
  case_match; exists e; by apply reached_close_plugin.
Qed.

Lemma chain_loop_post cfg exec requested protocol plan deadline n index lastReason last w :
  reached w phase0 ->
  chain_post (chain_loop cfg exec requested protocol plan deadline n index lastReason last w).1
    (chain_loop cfg exec requested protocol plan deadline n index lastReason last w).2.
Proof.
  revert index lastReason last w. induction n as [|n IH]; intros index lastReason last w H; cbn [chain_loop].
  { apply finishFailedAttempt_post. auto with discipline. }
  destruct (Target plan index) as [target| |]; [|apply finishFailedAttempt_post; auto with discipline|done].
  destruct (_ <=? 0); [apply finishFailedAttempt_post; auto with discipline|].
  set (w1 := call _ (CallLog "info" _)). assert (reached w1 phase0) as H1 by (unfold w1; auto with discipline). clearbody w1.
  pose proof (runRetryAttempt_post cfg exec (mkAttemptState index target (plan_Requested plan)) protocol deadline w1 H1) as P.
  destruct (runRetryAttempt _ _ _ _ _ w1) as [[r| |] w2]; [|done..]. destruct P as (e & P & Q).
  destruct (at_committed r).
  { destruct (String.eqb (at_reason r) ""); exists e; cbn [fst snd]; [|apply reached_counted]; by apply reached_close_plugin. }
  rewrite (Q eq_refl) in P. destruct (at_retryable r); [apply IH; auto with discipline|].
  set (w3 := counted w2 _). destruct (finishFailedAttempt_post r w3) as [e' H3]; [done|]. exists e'. by apply reached_log.
Qed.

Lemma shadow_loop_post cfg id reads asm sniff w e :
  reached w (mkPhase (Some id) e false) ->
  let '(o, w') := shadow_loop cfg id reads asm sniff w in
  o <> Panicked /\ exists e', reached w' (mkPhase (Some id) e' false).
Proof.
  revert asm sniff w e. induction reads as [|rd reads IH]; intros asm sniff w e H; cbn [shadow_loop].
  { destruct (0 <? _); (split; [done|]); exists e; auto with discipline. }
  destruct (_ && _); [split; [done|]; exists e; auto with discipline|].
  set (w1 := pass _ (rd_delay rd)). assert (reached w1 (mkPhase (Some id) e false)) as H1 by (unfold w1; auto with discipline).
  clearbody w1. destruct (rd_answer rd) as [c|err]; [|split; [done|by exists e]].
  destruct (negb _); [split; [done|by exists e]|]. destruct (if String.eqb _ _ then _ else _) as [asm' decided].
  destruct (emit_reached w1 _ _ (ch_Payload c) H1) as [e2 H2].
  destruct (emitPluginStream w1 (ch_Payload c)) as [[f|] w2]; [split; [done|by exists e2]|].
  destruct (ch_Done c); [split; [done|by exists e2]|]. by eapply IH.
Qed.

Lemma runRetryShadow_post cfg exec plan protocol w :
  reached w phase0 -> chain_post (runRetryShadow cfg exec plan protocol w).1 (runRetryShadow cfg exec plan protocol w).2.
Proof.
  intros H. unfold runRetryShadow, runRetryShadowAttempt.
  pose proof (openNestedStream_post cfg exec (mkAttemptState 0 (plan_Requested plan) (plan_Requested plan)) w H) as P.
  destruct (openNestedStream _ _ _ w) as [[[id reads|r]| |] w1].
  - pose proof (shadow_loop_post cfg id reads (mkAssembler protocol "") noClassification w1 false P) as S.
    destruct (shadow_loop _ _ _ _ _ w1) as [[[r sniff]| |] w2]; destruct S as [N [e S]]; [|by exists (Some id), e|done].
    apply reached_close_nested in S. destruct (negb (String.eqb _ _)); [|destruct (negb _)]; exists e; cbn [fst snd]; auto with discipline.
  - destruct P as [P _]. destruct (negb (String.eqb _ _)); [|destruct (negb _)]; exists false; cbn [fst snd]; auto with discipline.
  - by exists None, false.
  - done.
Qed.

(** C28: Whatever the host answers, a chain keeps to the protocol of its streams:
    it opens a nested stream only while it holds none and has emitted nothing,
    reads only the stream it holds, closes every nested stream exactly once, and
    when it ends it has closed the stream of the plugin exactly once, after its
    last emission and with no nested stream left open. *)
Theorem chain_stream_discipline cfg exec w :
  cw_calls w = [] ->
  let '(o, w') := executeRetryChainStream cfg exec w in
  match o with
  | Returned _ => exists emitted, phase_run phase0 (cw_calls w') = Some (mkPhase None emitted true)
  | Blocked => exists nested emitted, phase_run phase0 (cw_calls w') = Some (mkPhase nested emitted false)
  | Panicked => False
  end.
Proof.
  intros E. assert (reached w phase0) as H by (unfold reached; by rewrite E).
  assert (chain_post (runRetryChain cfg exec w).1 (runRetryChain cfg exec w).2) as P.
  { unfold runRetryChain. destruct (String.eqb _ _); [exists false; by apply reached_close_plugin|].
    destruct (RetryShadow cfg); [by apply runRetryShadow_post|]. by apply chain_loop_post. }
  unfold executeRetryChainStream. destruct (runRetryChain cfg exec w) as [[[]| |] w1]; [done|done|].
  exists false. by apply reached_close_plugin.
Qed.

Definition example_sse (s : string) : string := "data: " +:+ js s +:+ blankLine.
Definition example_read (payload : string) (done : bool) : nested_read := mkRead Second (ReadChunk (mkChunk payload "" done)).
Definition example_stats : retryStats := mkStats 0 0 0 0 0 [].
Definition example_retry : Config :=
  DefaultConfig <| RetryEnabled := true |> <| RetryChain := [mkRetryChainRow "gpt-5" [mkRetryTarget "" "gpt-4"]] |>.
(** The first target is overloaded in its stream, the second answers. *)
Definition example_chain : chain_world :=
  mkChain Hour
    [mkOpen Second (OpenAnswered 200 "n1" [example_read (example_sse "{'type':'response.created'}") false;
                                           example_read (example_sse "{'type':'response.failed','response':{'error':{'code':'server_is_overloaded'}}}") false]);
     mkOpen Second (OpenAnswered 200 "n2" [example_read (example_sse "{'type':'response.created'}") false;
                                           example_read (example_sse "{'type':'response.output_text.delta','delta':'hi'}") false;
                                           example_read (example_sse "{'type':'response.completed'}") true])]
    [] [] example_stats.

Lemma chain_stream_discipline_witness :
  exists w', executeRetryChainStream example_retry example_exec example_chain = (Returned tt, w')
             /\ exists emitted, phase_run phase0 (cw_calls w') = Some (mkPhase None emitted true).
Proof.
  pose proof (chain_stream_discipline example_retry example_exec example_chain eq_refl) as D.
  destruct (executeRetryChainStream example_retry example_exec example_chain) as [o w'] eqn:E.
  assert (o = Returned tt) as -> by (apply (f_equal fst) in E; simpl in E; rewrite <- E; vm_compute; reflexivity).
  exists w'. split; [reflexivity|exact D].
Defined.

(** ** What the client receives *)

Definition emittedPayload (c : host_call) : option string := match c with CallEmit p _ => Some p | _ => None end.
Definition emitted (w : chain_world) : list string := omap emittedPayload (cw_calls w).
Definition isOpen (c : host_call) : bool := match c with CallOpen _ _ _ _ => true | _ => false end.
Definition opening (c : host_call) : option (Time * (string * string)) := match c with CallOpen t m p _ => Some (t, (m, p)) | _ => None end.
(** The clock at each opening, with the model and the provider opened, in order. *)
Definition openings (w : chain_world) : list (Time * (string * string)) := omap opening (cw_calls w).
Definition attempted (w : chain_world) : list (string * string) := snd <$> openings w.
Definition openCount (w : chain_world) : nat := length (openings w).
Definition lastOpening (w : chain_world) : Time := default 0 (fst <$> last (openings w)).

(** The output of the answers to the reads of a stream. *)
Definition answerPayload (rd : nested_read) : option string :=
  match rd_answer rd with
  | ReadChunk c => if String.eqb (ch_Error c) "" && negb (String.eqb (ch_Payload c) "") then Some (ch_Payload c) else None
  | ReadFailed _ => None
  end.
Definition output (reads : list nested_read) : list string := omap answerPayload reads.

(** The answer to [rd], asked for after the answers to [a] have come, takes at least
    as long as the chain waits: the stall timeout, or what is left until the frames
    are not held any longer. *)
Definition elapsed (reads : list nested_read) : Duration := foldr (fun rd t => rd_delay rd + t) 0 reads.
Definition timed_out (cfg : Config) (holdEnd now : Time) (a : list nested_read) (rd : nested_read) : Prop :=
  Z.min (RetryStallTimeout cfg) (Sub holdEnd (now + elapsed a)) <= rd_delay rd.
(** The answers that reach the chain: all, or all but that of the one read it
    abandoned on a timeout. *)
Definition answered_from (cfg : Config) (holdEnd now : Time) (reads sub : list nested_read) : Prop :=
  sub = reads \/ exists a rd b, reads = a ++ rd :: b /\ sub = a ++ b /\ timed_out cfg holdEnd now a rd.

Definition streamReads (op : option nested_open) : list nested_read :=
  match op with Some (mkOpen _ (OpenAnswered _ _ reads)) => reads | _ => [] end.
(** The stream was asked for at [t] and opened when the answer came; its frames are
    held for the hold timeout at most, and not beyond the deadline of the chain. *)
Definition streamOpened (t : Time) (op : option nested_open) : Time := match op with Some op => t + op_delay op | None => t end.
Definition answered (cfg : Config) (deadline t : Time) (op : option nested_open) (sub : list nested_read) : Prop :=
  answered_from cfg (Z.min deadline (streamOpened t op + RetryHoldTimeout cfg)) (streamOpened t op) (streamReads op) sub.

(** What a step of an attempt adds to the trace. *)
Definition adds (w w' : chain_world) (out : list string) : Prop :=
  emitted w' = emitted w ++ out /\ cw_opens w' = cw_opens w /\ openings w' = openings w.

Lemma adds_refl w : adds w w [].
Proof. unfold adds. by rewrite app_nil_r. Qed.
Lemma adds_trans w1 w2 w3 out1 out2 : adds w1 w2 out1 -> adds w2 w3 out2 -> adds w1 w3 (out1 ++ out2).
Proof. intros (E1 & O1 & N1) (E2 & O2 & N2). unfold adds. by rewrite E2, E1, O2, O1, N2, N1, app_assoc. Qed.
Lemma adds_call w c :
  isOpen c = false -> adds w (call w c) (option_list (emittedPayload c)).
Proof.
  intros H. unfold adds, emitted, openings, call. simpl. rewrite !omap_app. split_and!.
  - f_equal.
  - done.
  - destruct c; simpl in *; try done; apply app_nil_r.
Qed.
Lemma adds_silent w c w' out :
  isOpen c = false -> emittedPayload c = None -> adds w w' out -> adds w (call w' c) out.
Proof. intros H N A. rewrite <- (app_nil_r out). eapply adds_trans; [done|]. pose proof (adds_call w' c H) as B. by rewrite N in B. Qed.
Lemma adds_before w c w' out :
  isOpen c = false -> emittedPayload c = None -> adds (call w c) w' out -> adds w w' out.
Proof. intros H N A. change (adds w w' ([] ++ out)). eapply adds_trans; [|done]. apply (adds_silent w c w); [done|done|apply adds_refl]. Qed.

Lemma adds_counted w f : adds w (counted w f) [].
Proof. exact (adds_refl w). Qed.

Lemma emit_adds w p : adds w (emitPluginStream w p).2 (if String.eqb p "" then [] else [p]).
Proof.
  unfold emitPluginStream. destruct (String.eqb p ""); [apply adds_refl|].
  pose proof (adds_call (w <| cw_emits := tail (cw_emits w) |>) (CallEmit p (default None (head (cw_emits w)))) eq_refl) as A. exact A.
Qed.
Lemma emitAll_adds ps w :
  Forall (fun p => p <> "") ps -> exists out, out `prefix_of` ps /\ adds w (emitAll w ps).2 out /\ ((emitAll w ps).1 = None -> out = ps).
Proof.
  intros F. revert w. induction F as [|p ps Hp F IH]; intros w; [exists []; split_and!; [done|apply adds_refl|done]|].
  cbn [emitAll]. pose proof (emit_adds w p) as A. rewrite (proj2 (String.eqb_neq _ _) Hp) in A.
  destruct (emitPluginStream w p) as [[f|] w1]; cbn [snd] in A.
  - exists [p]. split_and!; [by exists ps|done|done].
  - destruct (IH w1) as (out & P & A2 & C). exists (p :: out). split_and!; [by apply prefix_cons|by apply (adds_trans _ _ _ [p] out A)|].
    intros E. f_equal. by apply C.
Qed.

Lemma forward_loop_output id reads w :
  exists out, out `prefix_of` output reads /\ adds w (forward_loop id reads w).2 out.
Proof.
  revert w. induction reads as [|rd reads IH]; intros w; cbn [forward_loop].
  { exists []. split; [done|]. apply adds_silent; [done|done|apply adds_refl]. }
  set (w1 := pass _ _). assert (forall w' out, adds w1 w' out -> adds w w' out) as L by (intros w' out; by apply (adds_before w (CallRead id))).
  clearbody w1. assert (forall l, exists out, out `prefix_of` l /\ adds w (closeNestedStream w1 id) out) as Stop.
  { intros l. exists []. split; [apply prefix_nil|]. apply L, adds_silent; [done|done|apply adds_refl]. }
  unfold output at 1. cbn [omap list_omap]. fold (output reads). unfold answerPayload at 1.
  destruct (rd_answer rd) as [c|err]; [|apply Stop]. destruct (String.eqb (ch_Error c) ""); [|apply Stop]. cbn [negb andb]. clear Stop.
  pose proof (emit_adds w1 (ch_Payload c)) as A. destruct (String.eqb (ch_Payload c) ""); cbn [negb].
  - destruct (emitPluginStream w1 (ch_Payload c)) as [[f|] w2]; cbn [snd] in A.
    + exists []. split; [apply prefix_nil|]. by apply L, adds_silent.
    + destruct (ch_Done c).
      * exists []. split; [apply prefix_nil|]. by apply L, adds_silent.
      * destruct (IH w2) as (out & P & A2). exists out. split; [done|]. apply L. by apply (adds_trans _ _ _ [] out A).
  - destruct (emitPluginStream w1 (ch_Payload c)) as [[f|] w2]; cbn [snd] in A.
    + exists [ch_Payload c]. split; [by eexists|]. by apply L, adds_silent.
    + destruct (ch_Done c).
      * exists [ch_Payload c]. split; [by eexists|]. by apply L, adds_silent.
      * destruct (IH w2) as (out & P & A2). exists (ch_Payload c :: out). split; [by apply prefix_cons|].
        apply L. by apply (adds_trans _ _ _ [ch_Payload c] out A).
Qed.

Lemma forwardCommitted_output id reads hold w :
  Forall (fun p => p <> "") (hb_payloads hold) ->
  exists out, out `prefix_of` hb_payloads hold ++ output reads /\ adds w (forwardCommitted id reads hold w).2 out.
Proof.
  intros F. unfold forwardCommitted. destruct (emitAll_adds _ w F) as (out & P & A & C).
  destruct (emitAll w (hb_payloads hold)) as [[f|] w1]; cbn [fst snd] in *.
  - exists out. split; [by apply prefix_app_r|]. by apply adds_silent.
  - rewrite (C eq_refl) in A. destruct (forward_loop_output id reads w1) as (out2 & P2 & A2).
    exists (hb_payloads hold ++ out2). split; [by apply prefix_app|]. by eapply adds_trans.
Qed.

(** What an attempt with these answers left puts out: a committed attempt emits
    it, another hands it over in its held frames. *)
Definition attempt_output (w : chain_world) (o : outcome attemptResult) (w' : chain_world) (source : list string) : Prop :=
  exists out, adds w w' out /\ out `prefix_of` source
              /\ match o with
                 | Returned r => at_committed r = false -> out = [] /\ at_held r `prefix_of` source
                 | Blocked => True
                 | Panicked => False
                 end.

Lemma forward_attempt_output id reads hold w source :
  Forall (fun p => p <> "") (hb_payloads hold) -> (forall out, out `prefix_of` hb_payloads hold ++ output reads -> out `prefix_of` source) ->
  attempt_output w (forwardCommitted id reads hold w).1 (forwardCommitted id reads hold w).2 source.
Proof.
  intros F S. destruct (forwardCommitted_output id reads hold w F) as (out & P & A). exists out. split_and!; [done|by apply S|].
  unfold forwardCommitted. destruct (emitAll w _) as [[f|] w1]; [done|]. clear. cbn [fst].
  enough (forall w, match (forward_loop id reads w).1 with Returned r => at_committed r = true | Blocked => True | Panicked => False end) as C.
  { specialize (C w1). destruct (forward_loop id reads w1) as [[r| |] w2]; cbn [fst] in *; [congruence|done..]. }
  induction reads as [|rd reads IH]; intros w; cbn [forward_loop]; [done|]. destruct (rd_answer rd) as [c|]; [|done].
  destruct (negb _); [done|]. destruct (emitPluginStream _ _) as [[f|] w2]; [done|]. destruct (ch_Done c); [done|]. apply IH.
Qed.

Lemma attempt_loop_output cfg id deadline reads hold asm w :
  Forall (fun p => p <> "") (hb_payloads hold) ->
  exists sub, answered_from cfg deadline (cw_now w) reads sub
    /\ attempt_output w (attempt_loop cfg id deadline reads hold asm w).1 (attempt_loop cfg id deadline reads hold asm w).2
         (hb_payloads hold ++ output sub).
Proof.
  revert hold asm w. induction reads as [|rd reads IH]; intros hold asm w F; cbn [attempt_loop].
  all: destruct (_ <=? 0) eqn:Ew; [eexists; split; [by left|]; by apply forward_attempt_output|].
  all: set (w0 := call w (CallRead id)).
  all: assert (forall w' o w'' s, w' = w0 \/ (exists d, w' = pass w0 d) -> attempt_output w' o w'' s -> attempt_output w o w'' s) as L.
  1,3: intros w' o w'' s E (out & A & P & Q); exists out; split_and!; [|done|done];
       apply (adds_before w (CallRead id)); [done|done|]; by destruct E as [->|[d ->]].
  all: assert (forall d (l : list nested_read) s, (forall out, out `prefix_of` hb_payloads hold ++ output l -> out `prefix_of` s) ->
         attempt_output w (onTimeout cfg id l hold (pass w0 d)).1 (onTimeout cfg id l hold (pass w0 d)).2 s) as T.
  1,3: intros d l s S; apply (L (pass w0 d)); [right; by exists d|]; unfold onTimeout; destruct (hb_payloads hold) as [|p ps] eqn:E;
       [|by apply forward_attempt_output; rewrite ?E];
       exists []; split_and!; [apply adds_silent; [done|done|apply adds_refl]|apply prefix_nil|intros _; split; [done|apply prefix_nil]].
  { exists []. split; [by left|]. by apply T. }
  destruct (negb _) eqn:Ed.
  { exists reads. split; [right; exists [], rd, reads; split_and!; [done|done|]|by apply T].
    apply negb_true_iff, Z.ltb_ge in Ed. unfold timed_out. cbn [elapsed foldr]. by rewrite Z.add_0_r. }
  set (w1 := pass w0 (rd_delay rd)).
  assert (forall sub, answered_from cfg deadline (cw_now w1) reads sub -> answered_from cfg deadline (cw_now w) (rd :: reads) (rd :: sub)) as Ac.
  { intros sub [->|(a & x & b & -> & -> & Ht)]; [by left|]. right. exists (rd :: a), x, b. split_and!; [done|done|].
    unfold timed_out in *. cbn [elapsed foldr]. fold (elapsed a). by rewrite Z.add_assoc. }
  assert (forall raw c s held hf, held `prefix_of` s -> attempt_output w (Returned (failedAttempt raw c held hf)) (closeNestedStream w1 id) s) as Stop.
  { intros raw c s held hf Ph. apply (L w1); [right; by exists (rd_delay rd)|]. exists []. split_and!.
    - apply adds_silent; [done|done|apply adds_refl].
    - apply prefix_nil.
    - intros _. by split. }
  assert (forall o w' s, attempt_output w1 o w' s -> attempt_output w o w' s) as L1 by (intros; eapply L; [right; by exists (rd_delay rd)|done]).
  clearbody w1. clear T L.
  destruct (rd_answer rd) as [c|err] eqn:Ea; [|exists (rd :: reads); split; [by left|]; apply Stop; by apply prefix_app_r].
  destruct (String.eqb (ch_Error c) "") eqn:Ee; cbn [negb]; [|exists (rd :: reads); split; [by left|]; apply Stop; by apply prefix_app_r].
  destruct (String.eqb (ch_Payload c) "") eqn:Ep.
  - assert (forall sub, output (rd :: sub) = output sub) as O.
    { intros sub. unfold output. cbn [omap list_omap]. unfold answerPayload at 1. by rewrite Ea, Ee, Ep. }
    destruct (ch_Done c).
    + exists (rd :: reads). split; [by left|]. rewrite O. apply L1. by apply forward_attempt_output.
    + destruct (IH hold asm w1 F) as (sub & A & Q). exists (rd :: sub). split; [by apply Ac|]. rewrite O. by apply L1.
  - assert (forall sub, output (rd :: sub) = ch_Payload c :: output sub) as O.
    { intros sub. unfold output. cbn [omap list_omap]. unfold answerPayload at 1. by rewrite Ea, Ee, Ep. }
    set (hold' := hold_add hold (ch_Payload c)).
    assert (Forall (fun p => p <> "") (hb_payloads hold')) as F' by (apply Forall_app; split; [done|]; apply Forall_singleton; by apply String.eqb_neq).
    assert (forall sub, hb_payloads hold ++ output (rd :: sub) = hb_payloads hold' ++ output sub) as Q by (intros; rewrite O; simpl; by rewrite <- app_assoc).
    assert (attempt_output w (forwardCommitted id reads hold' w1).1 (forwardCommitted id reads hold' w1).2 (hb_payloads hold ++ output (rd :: reads))) as Fw.
    { rewrite Q. apply L1. by apply forward_attempt_output. }
    destruct (absorb asm (ch_Payload c)) as [asm' [v|]].
    + exists (rd :: reads). split; [by left|]. destruct (bool_decide _); [|exact Fw]. apply Stop. rewrite Q. by apply prefix_app_r.
    + destruct (overBudget hold'); [exists (rd :: reads); split; [by left|exact Fw]|].
      destruct (ch_Done c); [exists (rd :: reads); split; [by left|exact Fw]|].
      destruct (IH hold' asm' w1 F') as (sub & A & R). exists (rd :: sub). split; [by apply Ac|]. rewrite Q. by apply L1.
Qed.

(** One attempt takes one opening, and what it emits or holds comes from the
    answers of the stream so opened. *)
Lemma runRetryAttempt_output cfg exec st protocol deadline w :
  let '(o, w') := runRetryAttempt cfg exec st protocol deadline w in
  match o with
  | Panicked => adds w w' []
  | _ => cw_opens w' = tail (cw_opens w)
         /\ openings w' = openings w ++ [(cw_now w, (retryAttemptModel exec st, rt_Provider (as_target st)))]
         /\ exists sub out, answered cfg deadline (cw_now w) (head (cw_opens w)) sub /\ emitted w' = emitted w ++ out /\ out `prefix_of` output sub
            /\ match o with Returned r => at_committed r = false -> out = [] /\ at_held r `prefix_of` output sub | _ => True end
  end.
Proof.
  unfold runRetryAttempt, openNestedStream. destruct (retryAttemptBody cfg exec st) as [body|]; [|apply adds_refl].
  set (w1 := call w (CallOpen _ _ _ _)). set (x := (cw_now w, (retryAttemptModel exec st, rt_Provider (as_target st)))).
  assert (cw_opens w1 = cw_opens w /\ openings w1 = openings w ++ [x] /\ emitted w1 = emitted w /\ cw_now w1 = cw_now w) as (O1 & N1 & E1 & T1).
  { unfold w1, openings, emitted, call. simpl. rewrite !omap_app. simpl. by rewrite app_nil_r. }
  clearbody w1. rewrite <- O1. destruct (cw_opens w1) as [|op ops] eqn:Eo.
  { split_and!; [by rewrite Eo|done|]. exists [], []. split_and!; [by left|by rewrite app_nil_r|done|done]. }
  set (w2 := pass (w1 <| cw_opens := ops |>) (op_delay op)).
  assert (cw_opens w2 = ops /\ openings w2 = openings w1 /\ emitted w2 = emitted w1 /\ cw_now w2 = cw_now w + op_delay op) as (O2 & N2 & E2 & T2).
  { split_and!; [done..|]. rewrite <- T1. done. }
  clearbody w2.
  assert (forall r, at_held r = [] -> cw_opens w2 = tail (op :: ops)
            /\ openings w2 = openings w ++ [x]
            /\ exists sub out, answered cfg deadline (cw_now w) (head (op :: ops)) sub /\ emitted w2 = emitted w ++ out /\ out `prefix_of` output sub
               /\ (at_committed r = false -> out = [] /\ at_held r `prefix_of` output sub)) as NR.
  { intros r ->. split_and!; [done|congruence|]. eexists _, []. split_and!; [by left|by rewrite app_nil_r; congruence|apply prefix_nil|]. intros _. split; [done|apply prefix_nil]. }
  destruct op as [d [e|text|status id reads]]; cbn [op_answer]; [by apply NR..|].
  destruct (400 <=? status); [by apply NR|]. destruct (String.eqb (TrimSpace id) ""); [by apply NR|]. clear NR.
  set (deadline' := if Before _ _ then _ else _).
  assert (deadline' = Z.min deadline (cw_now w + d + RetryHoldTimeout cfg)) as Ed.
  { subst deadline'. change (cw_now (call w2 (AnswerReady (TrimSpace id)))) with (cw_now w2). rewrite T2. cbn [op_delay]. destruct (Before _ _) eqn:Eb; time_lia. }
  destruct (attempt_loop_output cfg (TrimSpace id) deadline' reads (emptyHold cfg) (mkAssembler protocol "") (call w2 (AnswerReady (TrimSpace id))))
    as (sub & A & out & (Ae & Ao & An) & P & Q); [done|]. change (cw_now (call w2 (AnswerReady (TrimSpace id)))) with (cw_now w2) in A. rewrite Ed, T2 in A.
  destruct (attempt_loop _ _ _ _ _ _ _) as [o w3] eqn:EL. cbn [fst snd] in *.
  assert (adds w2 (call w2 (AnswerReady (TrimSpace id))) []) as (Be & Bo & Bn) by (apply adds_silent; [done|done|apply adds_refl]).
  rewrite app_nil_r in Be.
  assert (cw_opens w3 = ops /\ openings w3 = openings w ++ [x]) as [Oo On] by (split; congruence).
  destruct o; [| |done]; (split_and!; [done|done|]; exists sub, out; split_and!; [done|congruence|done|done]).
Qed.

(** Where the output of a chain over these openings comes from. *)
Definition from_last_stream (cfg : Config) (deadline : Time) (ops : list nested_open) (w : chain_world) : Prop :=
  exists sub, answered cfg deadline (lastOpening w) (last (take (openCount w) ops)) sub /\ emitted w `prefix_of` output sub.

(** Between attempts: nothing emitted, and the frames of the last attempt come
    from the stream opened last. *)
Record between (cfg : Config) (deadline : Time) (ops : list nested_open) (held : list string) (w : chain_world) : Prop := {
  bt_emitted : emitted w = [];
  bt_opens : cw_opens w = drop (openCount w) ops;
  bt_held : exists sub, answered cfg deadline (lastOpening w) (last (take (openCount w) ops)) sub /\ held `prefix_of` output sub;
}.

Lemma between_adds cfg deadline ops held w w' : between cfg deadline ops held w -> adds w w' [] -> between cfg deadline ops held w'.
Proof. intros [E O H] (E' & O' & N'). rewrite app_nil_r in E'. split; unfold openCount, lastOpening in *; rewrite ?N'; congruence. Qed.
Lemma between_from cfg deadline ops held w : between cfg deadline ops held w -> from_last_stream cfg deadline ops w.
Proof. intros [E O (sub & A & _)]. exists sub. split; [done|]. rewrite E. apply prefix_nil. Qed.

Lemma take_S_last {A} (l : list A) n : last (take (S n) l) = match head (drop n l) with Some x => Some x | None => last (take n l) end.
Proof.
  revert n. induction l as [|x l IH]; intros n; [by destruct n|]. destruct n as [|n]; [done|].
  cbn [drop]. change (take (S (S n)) (x :: l)) with (x :: take (S n) l). change (take (S n) (x :: l)) with (x :: take n l).
  rewrite !last_cons, IH. by destruct (head (drop n l)).
Qed.

Lemma finish_from_last cfg deadline ops r w :
  between cfg deadline ops (at_held r) w -> Forall (fun p => p <> "") (at_held r) -> from_last_stream cfg deadline ops (finishFailedAttempt r w).
Proof.
  intros [E O (sub & A & P)] F. unfold finishFailedAttempt. destruct (emitAll_adds (at_held r) w F) as (out & Po & Ad & _).
  destruct (emitAll w (at_held r)) as [f w1]. cbn [snd] in Ad.
  assert (forall m, from_last_stream cfg deadline ops (closePluginStream w1 m)) as G.
  { intros m. assert (adds w (closePluginStream w1 m) out) as (E1 & O1 & N1) by (by apply adds_silent).
    exists sub. unfold openCount, lastOpening in *. rewrite N1, E1, E. split; [done|]. by etransitivity. }
  destruct f; [apply G|]. destruct (_ && _); apply G.
Qed.

Lemma output_nonempty reads : Forall (fun p => p <> "") (output reads).
Proof.
  apply Forall_forall. intros p (rd & _ & E)%list_elem_of_omap. unfold answerPayload in E. repeat case_match; simplify_eq.
  apply andb_true_iff in H0 as [_ H0]. apply negb_true_iff, String.eqb_neq in H0. done.
Qed.

Lemma held_nonempty cfg deadline ops held w : between cfg deadline ops held w -> Forall (fun p => p <> "") held.
Proof. intros [_ _ (sub & _ & (k & E))]. pose proof (output_nonempty sub) as F. rewrite E in F. by apply Forall_app in F as [F _]. Qed.

Lemma tail_drop {A} (l : list A) n : tail (drop n l) = drop (S n) l.
Proof. revert n. induction l as [|x l IH]; intros [|n]; try done. apply IH. Qed.

(** The stream of the next opening is the last one afterwards. *)
Lemma answered_next cfg deadline ops w w' x held :
  between cfg deadline ops held w -> openings w' = openings w ++ [(cw_now w, x)] ->
  forall sub out, answered cfg deadline (cw_now w) (head (cw_opens w)) sub -> out `prefix_of` output sub ->
  exists sub', answered cfg deadline (lastOpening w') (last (take (S (openCount w)) ops)) sub' /\ out `prefix_of` output sub'.
Proof.
  intros [_ O _] N sub out A P. assert (lastOpening w' = cw_now w) as -> by (unfold lastOpening; by rewrite N, last_snoc).
  rewrite O in A. rewrite take_S_last. destruct (head (drop (openCount w) ops)); [by exists sub|].
  destruct A as [->|(a & x' & b & E & _)]; [|by destruct a]. eexists. split; [by left|].
  apply prefix_nil_inv in P as ->. apply prefix_nil.
Qed.

Lemma openCount_snoc w w' x : openings w' = openings w ++ [x] -> openCount w' = S (openCount w).
Proof. unfold openCount. intros ->. rewrite length_app. simpl. lia. Qed.

Lemma chain_loop_output ops cfg exec requested protocol plan deadline n index lastReason last w :
  between cfg deadline ops (at_held last) w ->
  let '(o, w') := chain_loop cfg exec requested protocol plan deadline n index lastReason last w in
  o <> Panicked -> from_last_stream cfg deadline ops w'.
Proof.
  revert index lastReason last w. induction n as [|n IH]; intros index lastReason last w B; cbn [chain_loop].
  { intros _. apply finish_from_last; [|by eapply held_nonempty]. apply (between_adds _ _ _ _ w _ B). apply adds_silent; [done|done|first [apply adds_refl|apply adds_counted]]. }
  assert (forall reason, from_last_stream cfg deadline ops (exhausted requested reason last w)) as Ex.
  { intros reason. apply finish_from_last; [|by eapply held_nonempty]. apply (between_adds _ _ _ _ w _ B). apply adds_silent; [done|done|first [apply adds_refl|apply adds_counted]]. }
  destruct (Target plan index) as [target| |]; [|by intros _; apply Ex|by intros].
  destruct (_ <=? 0); [by intros _; apply Ex|]. clear Ex.
  set (w1 := call _ (CallLog "info" _)). assert (between cfg deadline ops (at_held last) w1) as B1.
  { apply (between_adds _ _ _ _ w _ B). apply adds_silent; [done|done|first [apply adds_refl|apply adds_counted]]. }
  clearbody w1. pose proof (runRetryAttempt_output cfg exec (mkAttemptState index target (plan_Requested plan)) protocol deadline w1) as R.
  destruct (runRetryAttempt _ _ _ _ _ w1) as [[r| |] w2]; [| |by intros].
  2: { intros _. destruct R as (O & N0 & sub & out & A & E & P & _). pose proof (openCount_snoc _ _ _ N0) as N. rewrite (bt_emitted _ _ _ _ _ B1) in E.
       destruct (answered_next _ _ _ _ _ _ _ B1 N0 sub out A P) as (sub' & A' & P'). exists sub'. by rewrite N, E. }
  destruct R as (O & N0 & sub & out & A & E & P & Q). pose proof (openCount_snoc _ _ _ N0) as N. rewrite (bt_emitted _ _ _ _ _ B1) in E.
  destruct (answered_next _ _ _ _ _ _ _ B1 N0 sub out A P) as (sub' & A' & P').
  destruct (at_committed r).
  { assert (forall w3, adds w2 w3 [] -> from_last_stream cfg deadline ops w3) as G.
    { intros w3 (E3 & O3 & N3). exists sub'. unfold openCount, lastOpening. rewrite N3. fold (openCount w2) (lastOpening w2). rewrite N, E3, E, app_nil_r. done. }
    destruct (negb _); intros _; apply G; (apply adds_silent; [done|done|first [apply adds_refl|apply adds_counted]]). }
  destruct (Q eq_refl) as [-> Ph]. destruct (answered_next _ _ _ _ _ _ _ B1 N0 sub (at_held r) A Ph) as (sub2 & A2 & P2).
  assert (between cfg deadline ops (at_held r) w2) as B2.
  { split; [done|by rewrite O, N, (bt_opens _ _ _ _ _ B1), tail_drop|rewrite N; by exists sub2]. }
  destruct (at_retryable r).
  - apply IH. apply (between_adds _ _ _ _ w2 _ B2). apply adds_silent; [done|done|first [apply adds_refl|apply adds_counted]].
  - intros _. set (w3 := counted w2 _). assert (from_last_stream cfg deadline ops (finishFailedAttempt r w3)) as (s & As & Ps).
    { apply finish_from_last; [by apply (between_adds _ _ _ _ w2 _ B2), adds_counted|by eapply held_nonempty]. }
    destruct (adds_call (finishFailedAttempt r w3) (CallLog "warn" "retry.aborted") eq_refl) as (E4 & _ & N4).
    exists s. unfold openCount, lastOpening. rewrite N4. fold (openCount (finishFailedAttempt r w3)) (lastOpening (finishFailedAttempt r w3)). rewrite E4. cbn [emittedPayload option_list]. by rewrite app_nil_r.
Qed.

(** C29: Unless the chain runs in shadow mode, and whatever the host answers, all that
    the client receives comes from one attempt, the last one opened, if the chain does
    not panic: it is a prefix of the output of that stream in the order of its reads,
    of which at most the answer to one read is missing, and then that answer took at
    least the stall timeout, or what was left until the hold timeout of the stream or
    the deadline of the chain. *)
Theorem client_receives_one_stream cfg exec w :
  cw_calls w = [] -> RetryShadow cfg = false ->
  let '(o, w') := runRetryChain cfg exec w in
  let stream := last (take (openCount w') (cw_opens w)) in
  let opened := streamOpened (lastOpening w') stream in
  let holdEnd := Z.min (cw_now w + RetryChainDeadline cfg) (opened + RetryHoldTimeout cfg) in
  o <> Panicked ->
  exists sub, emitted w' `prefix_of` output sub
    /\ (sub = streamReads stream
        \/ exists a rd b, streamReads stream = a ++ rd :: b /\ sub = a ++ b
             /\ Z.min (RetryStallTimeout cfg) (Sub holdEnd (opened + elapsed a)) <= rd_delay rd).
Proof.
  intros C S. unfold runRetryChain. rewrite S. set (deadline := Add (cw_now w) (RetryChainDeadline cfg)).
  assert (between cfg deadline (cw_opens w) [] w) as B.
  { split; [unfold emitted; by rewrite C|unfold openCount, openings; by rewrite C|]. eexists. split; [by left|apply prefix_nil]. }
  enough (forall (o : outcome unit) w', (o <> Panicked -> from_last_stream cfg deadline (cw_opens w) w') -> let stream := last (take (openCount w') (cw_opens w)) in
    let opened := streamOpened (lastOpening w') stream in let holdEnd := Z.min (cw_now w + RetryChainDeadline cfg) (opened + RetryHoldTimeout cfg) in
    o <> Panicked -> exists sub, emitted w' `prefix_of` output sub /\ (sub = streamReads stream \/ exists a rd b, streamReads stream = a ++ rd :: b /\ sub = a ++ b
             /\ Z.min (RetryStallTimeout cfg) (Sub holdEnd (opened + elapsed a)) <= rd_delay rd)) as G.
  2: { intros o w' H stream opened holdEnd No. destruct (H No) as (sub & A & P). by exists sub. }
  destruct (String.eqb _ _).
  - apply G. intros _. apply (between_from _ _ _ []). apply (between_adds _ _ _ _ w _ B). apply adds_silent; [done|done|first [apply adds_refl|apply adds_counted]].
  - pose proof (chain_loop_output (cw_opens w) cfg exec (retryRequestedModel exec) (retryProtocol exec) (planOf cfg (retryRequestedModel exec)) deadline
      (Z.to_nat (TargetCount (planOf cfg (retryRequestedModel exec)))) 0 "" zeroAttempt
      (counted w (fun now => requestStarted now (retryRequestedModel exec) (TargetCount (planOf cfg (retryRequestedModel exec)))))
      ltac:(by apply (between_adds _ _ _ _ w _ B), adds_counted)) as L.
    cbv zeta. destruct (chain_loop _ _ _ _ _ _ _ _ _ _ _) as [o w']. by apply G.
Qed.

(** No read of the second stream is late. *)
Lemma example_reads_timely a rd b :
  streamReads (cw_opens example_chain !! 1%nat) = a ++ rd :: b -> rd_delay rd = Second /\ 0 <= elapsed a <= 3 * Second.
Proof.
  simpl. generalize (example_sse "{'type':'response.created'}") as p1. generalize (example_sse "{'type':'response.output_text.delta','delta':'hi'}") as p2.
  generalize (example_sse "{'type':'response.completed'}") as p3. intros p3 p2 p1.
  destruct a as [|r1 [|r2 [|r3 a]]]; cbn [app]; intros E;
    [injection E as <- _; split; [reflexivity|vm_compute; split; discriminate]|injection E as <- <- _; split; [reflexivity|vm_compute; split; discriminate]
    |injection E as <- <- <- _; split; [reflexivity|vm_compute; split; discriminate]|].
  apply (f_equal length) in E. simpl in E. rewrite length_app in E. simpl in E. lia.
Qed.
Lemma example_wait_long e :
  0 <= e <= 3 * Second ->
  let opened := streamOpened (Hour + 3 * Second) (cw_opens example_chain !! 1%nat) in
  Second < Z.min (RetryStallTimeout example_retry)
             (Sub (Z.min (cw_now example_chain + RetryChainDeadline example_retry) (opened + RetryHoldTimeout example_retry)) (opened + e)).
Proof.
  cbv zeta. replace (RetryStallTimeout example_retry) with (60 * Second) by (vm_compute; reflexivity).
  replace (RetryHoldTimeout example_retry) with (90 * Second) by (vm_compute; reflexivity).
  replace (RetryChainDeadline example_retry) with (240 * Second) by (vm_compute; reflexivity). simpl. unfold Hour, Minute, Second. time_lia.
Qed.

Lemma client_receives_one_stream_witness :
  emitted (runRetryChain example_retry example_exec example_chain).2 `prefix_of` output (streamReads (cw_opens example_chain !! 1%nat))
  /\ length (emitted (runRetryChain example_retry example_exec example_chain).2) = 3%nat.
Proof.
  pose proof (client_receives_one_stream example_retry example_exec example_chain eq_refl eq_refl) as R.
  assert (openCount (runRetryChain example_retry example_exec example_chain).2 = 2%nat) as N by (vm_compute; reflexivity).
  assert (lastOpening (runRetryChain example_retry example_exec example_chain).2 = Hour + 3 * Second) as T by (vm_compute; reflexivity).
  assert (length (emitted (runRetryChain example_retry example_exec example_chain).2) = 3%nat) as L by (vm_compute; reflexivity).
  assert ((runRetryChain example_retry example_exec example_chain).1 <> Panicked) as P by (vm_compute; discriminate).
  destruct (runRetryChain example_retry example_exec example_chain) as [o w']. cbn [fst snd] in *. cbv zeta in R. rewrite N, T in R.
  split; [|exact L]. destruct (R P) as (sub & E & [A|(a & rd & b & A1 & _ & A3)]); [rewrite A in E; exact E|exfalso].
  destruct (example_reads_timely _ _ _ A1) as [Er Ea]. rewrite Er in A3. exact (Zlt_not_le _ _ (example_wait_long _ Ea) A3).
Defined.

(** ** The attempts of a chain *)

(** The model and the provider the plan has for each attempt: first the model of the
    request, under the provider of the requested target, then each fallback's own
    model, or the request's where the fallback names none. *)
Definition planned (exec : ExecutorRequest) (plan : RetryPlan) : list (string * string) :=
  let model := TrimSpace (er_Model exec) in
  take (Z.to_nat (TargetCount plan))
    ((model, rt_Provider (plan_Requested plan))
     :: ((fun t => (if decide (TrimSpace (rt_Model t) = "") then model else TrimSpace (rt_Model t), rt_Provider t)) <$> plan_Fallbacks plan)).

Lemma planned_lookup exec plan i t :
  Target plan (Z.of_nat i) = Found t ->
  planned exec plan !! i = Some (retryAttemptModel exec (mkAttemptState (Z.of_nat i) t (plan_Requested plan)), rt_Provider t).
Proof.
  intros E. unfold planned, retryAttemptModel. cbn [as_index as_target]. unfold Target in E.
  destruct ((_ <? 0) || _) eqn:B; [done|]. apply orb_false_iff in B as [B1 B2].
  rewrite lookup_take_lt by lia. destruct (Z.of_nat i =? 0) eqn:Ez.
  - assert (i = 0%nat) as -> by lia. by simplify_eq.
  - destruct i as [|i]; [done|]. replace (Z.to_nat (Z.of_nat (S i) - 1)) with i in E by lia.
    rewrite lookup_cons, list_lookup_fmap. destruct (plan_Fallbacks plan !! i); simplify_eq. cbn [fmap option_fmap option_map].
    destruct (String.eqb_spec (TrimSpace (rt_Model t)) ""); cbn [negb]; by case_decide.
Qed.

Lemma finish_openings r w : openings (finishFailedAttempt r w) = openings w.
Proof.
  unfold finishFailedAttempt. assert (forall ps w, openings (emitAll w ps).2 = openings w) as E.
  { intros ps. induction ps as [|p ps IH]; intros v; [done|]. cbn [emitAll]. pose proof (emit_adds v p) as (_ & _ & N).
    destruct (emitPluginStream v p) as [[f|] v1]; cbn [snd] in N; [done|]. by rewrite IH. }
  specialize (E (at_held r) w). destruct (emitAll w (at_held r)) as [f w1]. cbn [snd] in E.
  assert (forall m, openings (closePluginStream w1 m) = openings w) as C.
  { intros m. destruct (adds_call w1 (CallClosePlugin (TrimSpace m)) eq_refl) as (_ & _ & N). by rewrite <- E. }
  destruct f; [apply C|]. destruct (_ && _); apply C.
Qed.

Lemma exhausted_openings requested reason r w : openings (exhausted requested reason r w) = openings w.
Proof. unfold exhausted. rewrite finish_openings. apply (adds_call (counted w _) (CallLog _ _) eq_refl). Qed.

Lemma exhausted_attempted requested reason r w : attempted (exhausted requested reason r w) = attempted w.
Proof. unfold attempted. by rewrite exhausted_openings. Qed.

Lemma chain_loop_openings cfg exec requested protocol plan deadline n i lastReason last w :
  attempted w = take i (planned exec plan) -> (i <= length (planned exec plan))%nat ->
  exists k, attempted (chain_loop cfg exec requested protocol plan deadline n (Z.of_nat i) lastReason last w).2 = take k (planned exec plan).
Proof.
  revert i lastReason last w. induction n as [|n IH]; intros i lastReason last w E L; cbn [chain_loop].
  { exists i. rewrite <- E; unfold attempted. f_equal. apply exhausted_openings. }
  destruct (Target plan (Z.of_nat i)) as [target| |] eqn:T; [|exists i; rewrite <- E; apply exhausted_attempted|by exists i].
  destruct (_ <=? 0); [exists i; rewrite <- E; apply exhausted_attempted|]. apply (planned_lookup exec) in T.
  set (w1 := call _ (CallLog "info" _)). assert (openings w1 = openings w) as E1.
  { apply (adds_call (counted w _) (CallLog "info" "retry.attempt_started") eq_refl). }
  clearbody w1. pose proof (runRetryAttempt_output cfg exec (mkAttemptState (Z.of_nat i) target (plan_Requested plan)) protocol deadline w1) as R.
  assert (take (S i) (planned exec plan) = attempted w1 ++ [(retryAttemptModel exec (mkAttemptState (Z.of_nat i) target (plan_Requested plan)), rt_Provider target)]) as S.
  { unfold attempted. by rewrite (take_S_r _ _ _ T), E1, <- E. }
  destruct (runRetryAttempt _ _ _ _ _ w1) as [[r| |] w2].
  - destruct R as (_ & N & _). cbn [as_target] in N. apply (f_equal (fmap snd)) in N. rewrite fmap_app in N. cbn [fmap list_fmap snd] in N. fold (attempted w2) (attempted w1) in N. rewrite <- S in N.
    assert (forall w3, openings w3 = openings w2 -> exists k, attempted w3 = take k (planned exec plan)) as G by (intros w3 E3; exists (Datatypes.S i); unfold attempted; by rewrite E3).
    destruct (at_committed r); [|destruct (at_retryable r)].
    + destruct (negb _); apply G; cbn [snd]; [apply (adds_call w2 (CallClosePlugin _) eq_refl)|apply (adds_call (counted w2 _) (CallClosePlugin _) eq_refl)].
    + replace (Z.of_nat i + 1) with (Z.of_nat (Datatypes.S i)) by lia. apply IH.
      * rewrite <- N. unfold attempted. f_equal. apply (adds_call (counted w2 _) (CallLog _ _) eq_refl).
      * apply lookup_lt_Some in T. lia.
    + apply G. cbn [snd]. rewrite <- (finish_openings r w2). pose proof (finish_openings r (counted w2 (fun now => requestFinished now requested false (at_reason r)))) as F.
      transitivity (openings (finishFailedAttempt r (counted w2 (fun now => requestFinished now requested false (at_reason r))))).
      * apply (adds_call (finishFailedAttempt r _) (CallLog _ _) eq_refl).
      * rewrite F, finish_openings. done.
  - destruct R as (_ & N & _). cbn [as_target] in N. exists (Datatypes.S i). cbn [snd]. unfold attempted in *. by rewrite N, fmap_app, S.
  - destruct R as (_ & _ & N). exists i. cbn [snd]. unfold attempted. by rewrite N, E1.
Qed.

(** C30: Unless it runs in shadow mode, a chain attempts the targets of its plan in
    their order, each at most once and none beyond the attempt budget: what it opens is
    a prefix of the request's model under the provider of the requested target, followed
    by each fallback's model (the request's where the fallback names none) under the
    fallback's provider. *)
Theorem attempts_follow_plan cfg exec w :
  cw_calls w = [] -> RetryShadow cfg = false ->
  let plan := planOf cfg (retryRequestedModel exec) in
  let w' := (runRetryChain cfg exec w).2 in
  attempted w' `prefix_of` planned exec plan /\ Z.of_nat (openCount w') <= 1 + Z.of_nat (length (plan_Fallbacks plan))
  /\ (0 < plan_MaxAttempts plan -> Z.of_nat (openCount w') <= plan_MaxAttempts plan).
Proof.
  intros C S plan w'. assert (exists k, attempted w' = take k (planned exec plan)) as [k E].
  { unfold w', runRetryChain. rewrite S. destruct (String.eqb _ _).
    - exists 0%nat. cbn [snd]. destruct (adds_call w (CallClosePlugin (TrimSpace "retry chain: request has no source protocol")) eq_refl) as (_ & _ & N).
      unfold attempted. etransitivity; [apply f_equal, N|]. unfold openings. by rewrite C.
    - apply (chain_loop_openings cfg exec _ _ plan _ _ 0); [|lia]. unfold attempted, openings. cbn [counted set_field]. simpl. by rewrite C. }
  assert (openCount w' = length (attempted w')) as -> by (unfold openCount, attempted; by rewrite length_fmap).
  rewrite E. split; [exists (drop k (planned exec plan)); symmetry; apply take_drop|].
  pose proof (TargetCount_bounds plan). rewrite length_take. unfold planned. rewrite length_take. split; [lia|]. intros Hm.
  assert (TargetCount plan <= plan_MaxAttempts plan) by (unfold TargetCount; branch; to_prop; lia). lia.
Qed.

Lemma attempts_follow_plan_witness :
  attempted (runRetryChain example_retry example_exec example_chain).2 = [("gpt-5", ""); ("gpt-4", "")]
  /\ attempted (runRetryChain example_retry example_exec example_chain).2 `prefix_of` planned example_exec (planOf example_retry "gpt-5").
Proof.
  split; [vm_compute; reflexivity|].
  destruct (attempts_follow_plan example_retry example_exec example_chain eq_refl eq_refl) as [P _].
  replace (retryRequestedModel example_exec) with "gpt-5" in P by (vm_compute; reflexivity). exact P.
Defined.

(** ** Statistics *)

Lemma stats_record_bounded s e : (length (rs_events (stats_record s e)) <= retryEventHistory)%nat.
Proof. unfold stats_record. simpl. rewrite length_drop, length_app. simpl. unfold retryEventHistory. lia. Qed.

Record RetryStatusPayload := mkRetryStatus {
  sp_Mode : string; sp_Enabled : bool; sp_Chain : list string; sp_Requests : Z; sp_Retries : Z; sp_Succeeded : Z; sp_Failed : Z;
  sp_ShadowHits : Z; sp_Events : list RetryEvent }.

Definition retryMode (cfg : Config) : string :=
  if RetryEnabled cfg && negb (bool_decide (RetryChain cfg = []))
  then if RetryAlways cfg then "always" else if RetryShadow cfg then "shadow" else "live"
  else if RetryEnabled cfg && RetryAlways cfg then "always" else "off".
Definition joinTargets (targets : list string) : string :=
  match targets with [] => "" | t :: ts => foldl (fun acc u => acc +:+ " " +:+ encodeRune 8594 +:+ " " +:+ u) t ts end.
Definition retryStatusSnapshot (cfg : Config) (stats : retryStats) : RetryStatusPayload :=
  mkRetryStatus (retryMode cfg) (RetryEnabled cfg)
    ((fun row => joinTargets (TrimSpace (row_Model row) :: (FormatRetryTarget <$> row_Fallbacks row))) <$> RetryChain cfg)
    (rs_requests stats) (rs_retries stats) (rs_succeeded stats) (rs_failed stats) (rs_shadowHits stats) (rs_events stats).

(** In the mode the page calls [always] a chain with rows may still be in shadow
    mode, in which it never retries. *)
Theorem always_mode_hides_shadow :
  let cfg := example_retry <| RetryAlways := true |> <| RetryShadow := true |> in
  retryMode cfg = "always" /\ attempted (runRetryChain cfg example_exec example_chain).2 = [("gpt-5", "")].
Proof. vm_compute. done. Qed.

(** ** Where the chain departs from its description *)

Definition example_slow (delay : Duration) (payload : string) : nested_read := mkRead delay (ReadChunk (mkChunk payload "" false)).
Definition example_delta (s : string) : string := example_sse ("{'type':'response.output_text.delta','delta':'" +:+ s +:+ "'}").

(** A read that times out while frames are held is abandoned but still takes its
    chunk: the attempt is committed, and that chunk never reaches the client. *)
Theorem abandoned_read_loses_chunk :
  let created := example_sse "{'type':'response.created'}" in
  let reads := [example_slow Second created; example_slow (61 * Second) (example_delta "first"); example_slow Second (example_delta "second");
                example_read (example_sse "{'type':'response.completed'}") true] in
  let w := mkChain Hour [mkOpen Second (OpenAnswered 200 "n1" reads)] [] [] example_stats in
  let '(o, w') := runRetryChain example_retry example_exec w in
  o = Returned tt /\ emitted w' = [created; example_delta "second"; example_sse "{'type':'response.completed'}"]
  /\ last (cw_calls w') = Some (CallClosePlugin "").
Proof. vm_compute. done. Qed.

(** When the chunk that decides an attempt also ends the stream, the stream is
    read once more: a response that is complete ends with the error of that
    read. *)
Theorem finished_stream_read_again :
  let completed := example_sse "{'type':'response.completed'}" in
  let gone := mkRead Second (ReadFailed (PlainError "stream not found")) in
  let w := mkChain Hour [mkOpen Second (OpenAnswered 200 "n1" [example_read completed true; gone])] [] [] example_stats in
  let '(o, w') := runRetryChain example_retry example_exec w in
  o = Returned tt /\ emitted w' = [completed] /\ last (cw_calls w') = Some (CallClosePlugin "stream not found").
Proof. vm_compute. done. Qed.
