(* ===== verification/Quota.v ===== *)
(** * Quota payloads (quota.go) and timestamps

    The quota endpoint's answer, decoded into [map[string]any], as windows,
    family and reset credits; [time.Parse] of the RFC 3339 layout and
    [time.Unix]. *)

From S2P Require Import Prelude GoStrings Float64 Config Models Json Text.
From Stdlib Require Import Ascii.
#[local] Open Scope string_scope.
#[local] Open Scope list_scope.
#[local] Open Scope Z_scope.
#[local] Open Scope go_scope.

(** ** Timestamps *)

(** [time.Unix]: seconds since 1970 as seconds since year 1, in 64 bits. *)
Definition unixTime (seconds : Z) : Time := i64 (seconds + 62135596800) * Second.

Definition isLeap (year : Z) : bool := (Z.rem year 4 =? 0) && (negb (Z.rem year 100 =? 0) || (Z.rem year 400 =? 0)).
Definition daysIn (month year : Z) : Z :=
  if month =? 2 then if isLeap year then 29 else 28
  else if existsb (Z.eqb month) [4; 6; 9; 11] then 30 else 31.
(** Days from 0001-01-01 to the first day of a year, and of a month in it. *)
Definition daysBeforeYear (year : Z) : Z := let y := year - 1 in 365 * y + y / 4 - y / 100 + y / 400.
Definition daysBeforeMonth (month year : Z) : Z :=
  foldl (fun acc m => acc + daysIn m year) 0 (take (Z.to_nat (month - 1)) [1; 2; 3; 4; 5; 6; 7; 8; 9; 10; 11]).

(** A number of exactly [n] digits at the front. *)
Fixpoint fixedDigits (n : nat) (acc : Z) (s : string) : option (Z * string) :=
  match n with
  | O => Some (acc, s)
  | S n => match s with
           | String c rest => if is_digit c then fixedDigits n (acc * 10 + (code c - 48)) rest else None
           | EmptyString => None
           end
  end.
Definition literal (c : ascii) (s : string) : option string :=
  match s with String d rest => if Ascii.eqb c d then Some rest else None | EmptyString => None end.
(** An hour may have a single digit. *)
Definition hourDigits (s : string) : option (Z * string) :=
  match fixedDigits 2 0 s with Some r => Some r | None => fixedDigits 1 0 s end.

(** Nanoseconds of a fraction after a point or a comma; digits past the ninth
    are dropped. *)
Definition fractionDigits (s : string) : Z * string :=
  match s with
  | String c (String d _ as rest) =>
      if ((code c =? 46) || (code c =? 44)) && is_digit d then
        let '(ds, after) := digits rest in
        let kept := String.substring 0 9 ds in
        ((decimal kept).1 * 10 ^ (9 - Z.of_nat (String.length kept)), after)
      else (0, s)
  | _ => (0, s)
  end.

(** The offset of a zone in seconds; it ends the text. *)
Definition zoneOffset (s : string) : option Z :=
  if String.eqb s "Z" then Some 0
  else match s with
       | String sign rest =>
           if negb ((code sign =? 43) || (code sign =? 45)) then None
           else fixedDigits 2 0 rest ≫= fun '(hr, rest) =>
                literal ":" rest ≫= fun rest =>
                fixedDigits 2 0 rest ≫= fun '(mm, rest) =>
                if negb (String.eqb rest "") || (24 <? hr) || (60 <? mm) then None
                else Some ((if code sign =? 45 then -1 else 1) * (hr * 60 + mm) * 60)
       | EmptyString => None
       end.

(** [time.Parse(time.RFC3339, s)] *)
Definition parseRFC3339 (s : string) : option Time :=
  fixedDigits 4 0 s ≫= fun '(year, s) => literal "-" s ≫= fun s =>
  fixedDigits 2 0 s ≫= fun '(month, s) => literal "-" s ≫= fun s =>
  fixedDigits 2 0 s ≫= fun '(day, s) => literal "T" s ≫= fun s =>
  hourDigits s ≫= fun '(hour, s) => literal ":" s ≫= fun s =>
  fixedDigits 2 0 s ≫= fun '(minute, s) => literal ":" s ≫= fun s =>
  fixedDigits 2 0 s ≫= fun '(second, s) =>
  let '(nanos, s) := fractionDigits s in
  zoneOffset s ≫= fun offset =>
  if (month <? 1) || (12 <? month) || (day <? 1) || (daysIn month year <? day) || (23 <? hour) || (59 <? minute) || (59 <? second) then None
  else Some (((daysBeforeYear year + daysBeforeMonth month year + (day - 1)) * 86400 + hour * 3600 + minute * 60 + second - offset) * Second + nanos).

Example rfc3339_times :
  (parseRFC3339 "1970-01-01T00:00:00Z", parseRFC3339 "2024-02-29T12:30:05.25+02:00", parseRFC3339 "2023-02-29T00:00:00Z", parseRFC3339 "2024-01-01 00:00:00Z")
  = (Some (unixTime 0), Some (unixTime 1709202605 + 250000000), None, None).
Proof. vm_compute. reflexivity. Qed.

(** ** Fields of a decoded object *)

Definition fields := list (string * json).

(** [json.Unmarshal] into [map[string]any]. *)
Definition UnmarshalMap (raw : string) : option fields :=
  match UnmarshalAny raw with
  | Some (JObject m) => Some m
  | Some JNull => Some []
  | _ => None
  end.

Fixpoint getAny (m : fields) (keys : list string) : option json :=
  match keys with
  | [] => None
  | key :: keys => match field key m with Some v => Some v | None => getAny m keys end
  end.
Definition getMap (m : fields) (keys : list string) : option fields :=
  match getAny m keys with Some (JObject child) => Some child | _ => None end.
Definition getSlice (m : fields) (keys : list string) : option (list json) :=
  match getAny m keys with Some (JArray items) => Some items | _ => None end.
Definition getString (m : fields) (keys : list string) : string :=
  match getAny m keys with Some (JString s) => s | _ => "" end.
Definition getBool (m : fields) (keys : list string) : option bool :=
  match getAny m keys with Some (JBool b) => Some b | _ => None end.
Definition getFloat64 (m : fields) (keys : list string) : option float64 :=
  match getAny m keys with Some (JNumber lit) => ParseFloat lit | _ => None end.
(** Every number of a decoded document is a [float64]. *)
Definition getInt64 (m : fields) (keys : list string) : option Z := int64_of <$> getFloat64 m keys.
Definition getInt := getInt64.

Definition getTime (m : fields) (keys : list string) : option Time :=
  match getAny m keys with
  | Some (JString s) => parseRFC3339 s
  | Some (JNumber lit) => unixTime ∘ int64_of <$> ParseFloat lit
  | _ => None
  end.

(** [time.Duration(seconds * float64(time.Second))] *)
Definition floatSeconds (seconds : float64) : Duration := int64_of (f_mul seconds (f_of_Z Second)).

Definition getResetAt (m : fields) (now : Time) : option Time :=
  let fromText := match getAny m ["reset_at"; "resetAt"] with Some (JString s) => parseRFC3339 s | _ => None end in
  match fromText with
  | Some t => Some t
  | None => (fun seconds => Add now (floatSeconds seconds)) <$> getFloat64 m ["reset_after_seconds"; "resetAfterSeconds"]
  end.

(** ** Windows *)

Definition fiveHourSeconds : Z := 18000.
Definition weekSeconds : Z := 604800.
Definition minMonthSeconds : Z := 2419200.
Definition maxMonthSeconds : Z := 2678400.
Definition resetCreditValidity : Duration := 30 * 24 * Hour.

Definition parseQuotaWindow (raw : fields) (now : Time) (fallbackKind : WindowKind) (exhaustedByEnvelope : bool) : QuotaWindow :=
  let used := getFloat64 raw ["used_percent"; "usedPercent"] in
  let allowed := getBool raw ["allowed"] in
  let limitReached := getBool raw ["limit_reached"; "limitReached"] in
  let signalled := bool_decide (is_Some used) || bool_decide (is_Some allowed) || bool_decide (is_Some limitReached) in
  let exhausted :=
    match used with Some u => f_le (f_of_Z 100) u | None => false end
    || match allowed with Some a => negb a | None => false end
    || match limitReached with Some l => l | None => false end
    || (negb signalled && exhaustedByEnvelope) in
  mkQuotaWindow fallbackKind used (getInt64 raw ["limit_window_seconds"; "limitWindowSeconds"])
    (default zeroTime (getResetAt raw now)) exhausted.

Definition classifyWindow (w : QuotaWindow) (order : Z) : QuotaWindow :=
  match qw_LimitWindowSeconds w with
  | None => if order =? 0 then w <| qw_Kind := WindowFiveHour |> else if order =? 1 then w <| qw_Kind := WindowWeekly |> else w
  | Some seconds =>
      if seconds =? fiveHourSeconds then w <| qw_Kind := WindowFiveHour |>
      else if seconds =? weekSeconds then w <| qw_Kind := WindowWeekly |>
      else if (minMonthSeconds <=? seconds) && (seconds <=? maxMonthSeconds) then w <| qw_Kind := WindowMonthly |>
      else w
  end.

Definition parseRateLimitWindows (rateLimit : fields) (now : Time) : list QuotaWindow :=
  let allowed := getBool rateLimit ["allowed"] in
  let limitReached := default false (getBool rateLimit ["limit_reached"; "limitReached"]) in
  let exhaustedByEnvelope := match allowed with Some a => negb a | None => false end || limitReached in
  let windows :=
    option_list ((fun m => parseQuotaWindow m now WindowFiveHour exhaustedByEnvelope) <$> getMap rateLimit ["primary_window"; "primaryWindow"])
    ++ option_list ((fun m => parseQuotaWindow m now WindowWeekly exhaustedByEnvelope) <$> getMap rateLimit ["secondary_window"; "secondaryWindow"]) in
  imap (fun i w => classifyWindow w (Z.of_nat i)) windows.

(** ** Reset credits *)

Definition parseResetCredit (raw : fields) : option ResetCredit :=
  let id := getString raw ["id"] in
  let status := getString raw ["status"] in
  let granted := default zeroTime (getTime raw ["granted_at"; "grantedAt"; "created_at"; "createdAt"]) in
  let expires :=
    match getTime raw ["expires_at"; "expiresAt"; "expire_at"; "expireAt"; "expiration"; "expires"] with
    | Some t => t
    | None => if negb (IsZero granted) then Add granted resetCreditValidity else zeroTime
    end in
  let used := default zeroTime (getTime raw ["used_at"; "usedAt"]) in
  if negb (IsZero expires) || negb (String.eqb id "") || negb (String.eqb status "")
  then Some (mkResetCredit id status granted expires used) else None.

Definition asMap (v : json) : option fields := match v with JObject m => Some m | _ => None end.

Fixpoint creditList (raw : fields) (keys : list string) : option (list json) :=
  match keys with
  | [] => None
  | key :: keys => match field key raw with Some (JArray items) => Some items | _ => creditList raw keys end
  end.
Definition parseResetCredits (raw : fields) : list ResetCredit :=
  match creditList raw ["credits"; "items"; "list"; "reset_credits"; "resetCredits"] with
  | Some items => omap (fun item => asMap item ≫= parseResetCredit) items
  | None => option_list (parseResetCredit raw)
  end.

(** ** Payloads *)

Definition placeWindow (parsed : ParsedQuota) (w : QuotaWindow) : ParsedQuota :=
  if String.eqb (qw_Kind w) WindowFiveHour then parsed <| pq_FiveHour := Some w |>
  else if String.eqb (qw_Kind w) WindowWeekly || String.eqb (qw_Kind w) WindowMonthly
  then parsed <| pq_LongWindow := Some w |>
              <| pq_Family := if String.eqb (qw_Kind w) WindowWeekly then AccountFamilyWeekly else AccountFamilyMonthly |>
  else parsed <| pq_AdditionalWindows := pq_AdditionalWindows parsed ++ [w] |>.

Definition ParseCodexUsagePayload (raw : string) (now : Time) : option ParsedQuota :=
  UnmarshalMap raw ≫= fun doc =>
  let credits := getMap doc ["rate_limit_reset_credits"; "rateLimitResetCredits"] in
  let codeReview := getMap doc ["code_review_rate_limit"; "codeReviewRateLimit"] in
  let additional := default [] (getSlice doc ["additional_rate_limits"; "additionalRateLimits"]) in
  let parsed := mkParsedQuota (getString doc ["plan_type"; "planType"]) AccountFamilyUnknown None None
    (match codeReview with Some m => parseRateLimitWindows m now | None => [] end)
    (concat (omap (fun limit => asMap limit ≫= fun m =>
                     (fun r => parseRateLimitWindows r now) <$> getMap m ["rate_limit"; "rateLimit"]) additional))
    (credits ≫= fun m => getInt m ["available_count"; "availableCount"]) None
    (match credits with Some m => parseResetCredits m | None => [] end) in
  Some (match getMap doc ["rate_limit"; "rateLimit"] with
        | None => parsed
        | Some rateLimit => foldl placeWindow parsed (parseRateLimitWindows rateLimit now)
        end).

Definition ParseResetCreditsPayload (raw : string) (now : Time) : option ParsedQuota :=
  UnmarshalMap raw ≫= fun doc =>
  Some (mkParsedQuota "" AccountFamilyUnknown None None [] [] (getInt doc ["available_count"; "availableCount"])
          (getInt doc ["total_earned_count"; "totalEarnedCount"]) (parseResetCredits doc)).

(** ** Properties *)

Definition known_kind (w : QuotaWindow) : Prop := qw_Kind w = WindowFiveHour \/ qw_Kind w = WindowWeekly \/ qw_Kind w = WindowMonthly.

Lemma classifyWindow_known w i : known_kind w -> known_kind (classifyWindow w i).
Proof. unfold known_kind, classifyWindow. intros K. repeat case_match; simpl; auto. Qed.

Lemma parseRateLimitWindows_known rateLimit now : Forall known_kind (parseRateLimitWindows rateLimit now).
Proof.
  unfold parseRateLimitWindows. apply Forall_lookup. intros i w. rewrite list_lookup_imap. intros (v & Hv & ->)%fmap_Some.
  apply classifyWindow_known. apply list_elem_of_lookup_2 in Hv. unfold known_kind.
  apply elem_of_app in Hv as [Hv|Hv]; [destruct (getMap rateLimit ["primary_window"; _])|destruct (getMap rateLimit ["secondary_window"; _])];
    simpl in Hv; try (by apply elem_of_nil in Hv); apply list_elem_of_singleton in Hv as ->; simpl; auto.
Qed.

(** The windows of a quota agree with its family: the five-hour window is one,
    and the long window is weekly or monthly as the family says. *)
Definition quota_ok (q : ParsedQuota) : Prop :=
  (forall w, pq_FiveHour q = Some w -> qw_Kind w = WindowFiveHour)
  /\ match pq_LongWindow q with
     | None => pq_Family q = AccountFamilyUnknown
     | Some w => (qw_Kind w = WindowWeekly /\ pq_Family q = AccountFamilyWeekly)
                 \/ (qw_Kind w = WindowMonthly /\ pq_Family q = AccountFamilyMonthly)
     end.

Lemma placeWindow_ok q w : known_kind w -> quota_ok q -> quota_ok (placeWindow q w) /\ pq_AdditionalWindows (placeWindow q w) = pq_AdditionalWindows q.
Proof.
  intros K [F L]. unfold placeWindow.
  destruct (String.eqb_spec (qw_Kind w) WindowFiveHour) as [E|E]; [split; [split; [by intros ? [= <-]|done]|done]|].
  destruct (String.eqb_spec (qw_Kind w) WindowWeekly) as [Ew|Ew]; [split; [split; [done|simpl; by left]|done]|].
  destruct K as [K|[K|K]]; [done|done|]. rewrite K. simpl. split; [split; [done|simpl; by right]|done].
Qed.

(** C37: A decoded quota payload is consistent: its five-hour window is of that
    kind, its family is weekly or monthly exactly as the kind of its long window,
    and unknown without one; no window of the main rate limit is filed under the
    additional ones. *)
Theorem parsed_quota_consistent raw now q :
  ParseCodexUsagePayload raw now = Some q ->
  quota_ok q /\ exists doc, UnmarshalMap raw = Some doc
    /\ pq_AdditionalWindows q
       = concat (omap (fun limit => asMap limit ≫= fun m => (fun r => parseRateLimitWindows r now) <$> getMap m ["rate_limit"; "rateLimit"])
                   (default [] (getSlice doc ["additional_rate_limits"; "additionalRateLimits"]))).
Proof.
  unfold ParseCodexUsagePayload. intros (doc & D & H)%bind_Some. injection H as <-. set (parsed := mkParsedQuota _ _ _ _ _ _ _ _ _).
  assert (quota_ok parsed) as P by by split. destruct (getMap doc ["rate_limit"; "rateLimit"]) as [rateLimit|]; [|split; [done|by exists doc]].
  pose proof (parseRateLimitWindows_known rateLimit now) as K.
  enough (quota_ok (foldl placeWindow parsed (parseRateLimitWindows rateLimit now))
          /\ pq_AdditionalWindows (foldl placeWindow parsed (parseRateLimitWindows rateLimit now)) = pq_AdditionalWindows parsed) as [G ->]
    by (split; [done|by exists doc]).
  clearbody parsed. revert parsed P. induction K as [|w ws Kw K IH]; intros parsed P; [done|]. simpl.
  destruct (placeWindow_ok parsed w Kw P) as [P' <-]. by apply IH.
Qed.

Definition example_payload : string :=
  js "{'plan_type':'plus','rate_limit':{'primary_window':{'used_percent':10,'limit_window_seconds':18000,'reset_after_seconds':3600},'secondary_window':{'used_percent':100,'limit_window_seconds':2592000}}}".

Lemma parsed_quota_consistent_witness :
  exists q, ParseCodexUsagePayload example_payload Hour = Some q /\ quota_ok q /\ pq_Family q = AccountFamilyMonthly.
Proof.
  destruct (ParseCodexUsagePayload example_payload Hour) as [q|] eqn:E; [|vm_compute in E; discriminate E].
  exists q. split; [reflexivity|]. destruct (parsed_quota_consistent example_payload Hour q E) as [K _]. split; [exact K|].
  assert (pq_Family <$> ParseCodexUsagePayload example_payload Hour = Some AccountFamilyMonthly) as F by (vm_compute; reflexivity).
  rewrite E in F. injection F as F. exact F.
Defined.

(** A payload with only a secondary window of unknown length: the window is
    built with the weekly kind of its position, and then filed by its place in
    the list as the five-hour window. *)
Theorem lone_secondary_window_is_five_hour :
  let q := ParseCodexUsagePayload (js "{'rate_limit':{'secondary_window':{'used_percent':20}}}") Hour in
  (qw_Kind <$> (q ≫= pq_FiveHour)) = Some WindowFiveHour /\ (q ≫= pq_LongWindow) = None.
Proof. vm_compute. done. Qed.

(** A reset too far ahead for a duration wraps around to the distant past. *)
Theorem huge_reset_after_is_past :
  let q := ParseCodexUsagePayload (js "{'rate_limit':{'primary_window':{'reset_after_seconds':1e10}}}") Hour in
  (fun w => Before (qw_ResetAt w) Hour) <$> (q ≫= pq_FiveHour) = Some true.
Proof. vm_compute. reflexivity. Qed.
