(* ===== verification/FloatExact.v ===== *)
(** * Exact arithmetic in binary64

    A positive integer of at most 53 significant bits is represented exactly, and
    so is a product that has no more. *)

From S2P Require Import Prelude Float64 Text.
#[local] Open Scope Z_scope.

Definition bits (n : Z) : Z := Z.log2 n + 1.
(** At most 53 significant bits. *)
Definition exact53 (n : Z) : Prop := exists c j, n = c * 2 ^ j /\ 0 < c < 2 ^ 53 /\ 0 <= j.

Lemma exact53_small n : 0 < n < 2 ^ 53 -> exact53 n.
Proof. intros H. exists n, 0. split; [lia|]. by split. Qed.
Lemma exact53_shift n j : 0 < n < 2 ^ 53 -> 0 <= j -> exact53 (n * 2 ^ j).
Proof. intros H Hj. by exists n, j. Qed.
Lemma exact53_pos n : exact53 n -> 0 < n.
Proof. intros (c & j & -> & Hc & Hj). pose proof (Z.pow_pos_nonneg 2 j). lia. Qed.

Lemma digits2_bits p : Z.pos (digits2_pos p) = bits (Z.pos p).
Proof.
  unfold bits. induction p as [p IH|p IH|]; cbn [digits2_pos]; [| |done]; rewrite Pos2Z.inj_succ, IH.
  - rewrite Pos2Z.inj_xI, Z.log2_succ_double by lia. lia.
  - rewrite Pos2Z.inj_xO, Z.log2_double by lia. lia.
Qed.
Lemma bits_bounds n : 0 < n -> 2 ^ (bits n - 1) <= n < 2 ^ bits n.
Proof. intros H. unfold bits. replace (Z.log2 n + 1 - 1) with (Z.log2 n) by lia. by apply Z.log2_spec. Qed.
Lemma bits_shift n k : 0 < n -> 0 <= k -> bits (n * 2 ^ k) = bits n + k.
Proof. intros Hn Hk. unfold bits. rewrite Z.log2_mul_pow2 by lia. lia. Qed.
Lemma bits_pos n : 0 < n -> 1 <= bits n.
Proof. intros H. unfold bits. pose proof (Z.log2_nonneg n). lia. Qed.
Lemma bits_le n k : 0 < n -> n < 2 ^ k -> bits n <= k.
Proof.
  intros H Hk. pose proof (bits_bounds n H) as [H1 _]. destruct (Z.le_gt_cases (bits n) k); [done|].
  destruct (Z.le_gt_cases 0 k); [|rewrite Z.pow_neg_r in Hk by lia; lia].
  pose proof (Z.pow_le_mono_r 2 k (bits n - 1)). lia.
Qed.

(** ** Shifts to the right *)

Lemma iter_pos_nat {A} (f : A -> A) p x : SpecFloat.iter_pos f p x = Nat.iter (Pos.to_nat p) f x.
Proof.
  revert x. induction p as [p IH|p IH|]; intros x; cbn [SpecFloat.iter_pos]; [| |done]; rewrite !IH.
  - rewrite Pos2Nat.inj_xI, <- Nat.iter_add. simpl. rewrite Nat.add_0_r. by rewrite Nat.iter_swap.
  - rewrite Pos2Nat.inj_xO, <- Nat.iter_add. simpl. by rewrite Nat.add_0_r.
Qed.
Lemma shr_even m : 0 < m -> shr_1 (Build_shr_record (m * 2) false false) = Build_shr_record m false false.
Proof. intros H. destruct m as [|p|p]; try lia. rewrite Z.mul_comm. done. Qed.
Lemma shr_pow m (n : nat) : 0 < m -> Nat.iter n shr_1 (Build_shr_record (m * 2 ^ Z.of_nat n) false false) = Build_shr_record m false false.
Proof.
  intros H. induction n as [|n IH]; [simpl; by rewrite Z.mul_1_r|].
  rewrite Nat.iter_succ_r. rewrite Nat2Z.inj_succ, Z.pow_succ_r by lia.
  replace (m * (2 * 2 ^ Z.of_nat n)) with (m * 2 ^ Z.of_nat n * 2) by lia. rewrite shr_even; [done|].
  pose proof (Z.pow_pos_nonneg 2 (Z.of_nat n)). lia.
Qed.

Lemma shr_exact m e n : 0 < m -> 0 <= n -> shr (Build_shr_record (m * 2 ^ n) false false) e n = (Build_shr_record m false false, e + n).
Proof.
  intros Hm Hn. destruct n as [|p|p]; [|simpl|lia].
  - by rewrite Z.pow_0_r, Z.mul_1_r, Z.add_0_r.
  - rewrite iter_pos_nat. replace (Z.pos p) with (Z.of_nat (Pos.to_nat p)) at 1 by (apply positive_nat_Z). by rewrite shr_pow.
Qed.

Lemma Zdigits2_bits n : 0 < n -> Zdigits2 n = bits n.
Proof. destruct n as [|p|p]; try lia. intros _. apply digits2_bits. Qed.

(** The rounding of a number whose bits beyond the 53rd are zero. *)
Lemma round_exact s m k e :
  0 < m -> bits m = 53 -> 0 <= k -> -1074 <= e + k <= 971 ->
  binary_round_aux 53 1024 s (m * 2 ^ k) e loc_Exact = S754_finite s (Z.to_pos m) (e + k).
Proof.
  intros Hm Hb Hk He. unfold binary_round_aux, shr_fexp, fexp, emin. cbn [shr_record_of_loc].
  pose proof (Z.pow_pos_nonneg 2 k). rewrite Zdigits2_bits, bits_shift, Hb by lia.
  replace (Z.max (53 + k + e - 53) (3 - 1024 - 53) - e) with k by lia. rewrite shr_exact by lia.
  cbn [shr_m loc_of_shr_record round_nearest_even]. rewrite Zdigits2_bits, Hb by lia.
  replace (Z.max (53 + (e + k) - 53) (3 - 1024 - 53) - (e + k)) with 0 by lia. cbn [shr shr_m].
  destruct m as [|p|p]; try lia. rewrite (proj2 (Z.leb_le (e + k) (1024 - 53))) by lia. done.
Qed.

(** ** Integers *)

(** The 53 significant bits of a number. *)
Definition significand (n : Z) : Z := Z.shiftl n (53 - bits n).

Lemma significand_spec n : exact53 n -> significand n * 2 ^ bits n = n * 2 ^ 53 /\ 0 < significand n /\ bits (significand n) = 53.
Proof.
  intros Hn. pose proof (exact53_pos n Hn) as Hp. pose proof (bits_pos n Hp) as Hb. unfold significand.
  assert (Z.shiftl n (53 - bits n) * 2 ^ bits n = n * 2 ^ 53) as E.
  { destruct (Z.le_gt_cases (bits n) 53) as [Hle|Hgt].
    - rewrite Z.shiftl_mul_pow2, <- Z.mul_assoc, <- Z.pow_add_r by lia. do 2 f_equal. lia.
    - replace (53 - bits n) with (- (bits n - 53)) by lia. rewrite Z.shiftl_opp_r, Z.shiftr_div_pow2 by lia.
      destruct Hn as (c & j & -> & Hc & Hj). rewrite bits_shift in * by lia.
      pose proof (bits_le c 53 ltac:(lia) ltac:(lia)). set (t := bits c + j - 53) in *. assert (0 <= t <= j) by lia.
      replace (2 ^ j) with (2 ^ (j - t) * 2 ^ t) by (rewrite <- Z.pow_add_r by lia; f_equal; lia).
      pose proof (Z.pow_pos_nonneg 2 t). rewrite Z.mul_assoc, Z.div_mul by lia.
      rewrite <- !Z.mul_assoc, <- !Z.pow_add_r by lia. do 2 f_equal. lia. }
  split; [done|]. pose proof (Z.pow_pos_nonneg 2 (bits n)). assert (0 < Z.shiftl n (53 - bits n)) as Hs by nia.
  split; [done|]. assert (bits (Z.shiftl n (53 - bits n) * 2 ^ bits n) = bits (n * 2 ^ 53)) as E2 by by rewrite E.
  rewrite !bits_shift in E2 by lia. lia.
Qed.

Lemma pos_iter_xO p (d : positive) : Z.pos (Pos.iter xO p d) = Z.pos p * 2 ^ Z.pos d.
Proof. induction d using Pos.peano_ind; [simpl; lia|]. rewrite Pos.iter_succ, Pos2Z.inj_xO, IHd, Pos2Z.inj_succ, Z.pow_succ_r by lia. lia. Qed.

Lemma f_of_Z_exact n : exact53 n -> bits n <= 1000 -> f_of_Z n = S754_finite false (Z.to_pos (significand n)) (bits n - 53).
Proof.
  intros Hn Hb. pose proof (exact53_pos n Hn) as Hp. destruct (significand_spec n Hn) as (E & Hs & Hsb). pose proof (bits_pos n Hp).
  destruct n as [|p|p]; try lia. unfold f_of_Z, binary_normalize, binary_round. rewrite digits2_bits, Z.add_0_r.
  unfold shl_align, fexp, emin. replace (Z.max (bits (Z.pos p) - 53) (3 - 1024 - 53)) with (bits (Z.pos p) - 53) by lia. rewrite Z.sub_0_r.
  destruct (bits (Z.pos p) - 53) as [|d|d] eqn:Ed.
  - replace (Z.pos p) with (significand (Z.pos p) * 2 ^ 0) at 1; [by rewrite round_exact by lia|].
    assert (bits (Z.pos p) = 53) as E53 by lia. rewrite E53 in E. lia.
  - replace (Z.pos p) with (significand (Z.pos p) * 2 ^ Z.pos d) at 1; [by rewrite round_exact by lia|].
    assert (bits (Z.pos p) = Z.pos d + 53) as E53 by lia. rewrite E53, Z.pow_add_r in E by lia. lia.
  - rewrite pos_iter_xO. replace (Z.pos p * 2 ^ Z.pos d) with (significand (Z.pos p) * 2 ^ 0); [rewrite round_exact by lia; f_equal; lia|].
    assert (2 ^ 53 = 2 ^ bits (Z.pos p) * 2 ^ Z.pos d) as E53 by (rewrite <- Z.pow_add_r by lia; f_equal; lia).
    rewrite E53 in E. pose proof (Z.pow_pos_nonneg 2 (bits (Z.pos p))). nia.
Qed.

(** A product without rounding. *)
Lemma f_mul_exact a b :
  exact53 a -> exact53 b -> exact53 (a * b) -> bits a <= 400 -> bits b <= 400 -> f_mul (f_of_Z a) (f_of_Z b) = f_of_Z (a * b).
Proof.
  intros Ha Hb Hab Ba Bb. pose proof (exact53_pos _ Ha). pose proof (exact53_pos _ Hb). pose proof (exact53_pos _ Hab) as Hpab.
  destruct (significand_spec a Ha) as (Ea & Sa & La), (significand_spec b Hb) as (Eb & Sb & Lb), (significand_spec _ Hab) as (Eab & Sab & Lab).
  assert (bits (a * b) <= bits a + bits b) as Bab.
  { apply bits_le; [done|]. pose proof (bits_bounds a). pose proof (bits_bounds b). rewrite Z.pow_add_r by (pose proof (bits_pos a); pose proof (bits_pos b); lia). nia. }
  assert (bits a + bits b - 1 <= bits (a * b)) as Bab2.
  { unfold bits. pose proof (Z.log2_mul_below a b). lia. }
  pose proof (bits_pos a). pose proof (bits_pos b).
  rewrite !f_of_Z_exact by (done || lia). unfold f_mul, SFmul. rewrite Pos2Z.inj_mul, !Z2Pos.id by lia. cbn [xorb].
  set (k := 53 + bits (a * b) - bits a - bits b). assert (0 <= k) by lia.
  assert (significand a * significand b = significand (a * b) * 2 ^ k) as ->.
  { pose proof (Z.pow_pos_nonneg 2 (bits a)). pose proof (Z.pow_pos_nonneg 2 (bits b)).
    apply (Z.mul_reg_r _ _ (2 ^ bits a * 2 ^ bits b)); [nia|].
    transitivity (a * b * 2 ^ 53 * 2 ^ 53); [nia|]. rewrite <- Eab, <- !Z.mul_assoc, <- !Z.pow_add_r by lia. do 2 f_equal. lia. }
  rewrite round_exact by lia. f_equal. lia.
Qed.

Lemma truncate_exact n : exact53 n -> bits n <= 1000 -> truncate (f_of_Z n) = Some n.
Proof.
  intros Hn Hb. rewrite f_of_Z_exact by done. destruct (significand_spec n Hn) as (E & Hs & _). pose proof (exact53_pos n Hn) as Hp. pose proof (bits_pos n Hp).
  cbn [truncate]. f_equal. rewrite Z2Pos.id, Z.shiftl_mul_pow2 by lia.
  destruct (Z.le_gt_cases 53 (bits n)) as [Hle|Hgt].
  - rewrite Z.max_l, Z.max_r, Z.pow_0_r, Z.quot_1_r by lia. apply (Z.mul_reg_r _ _ (2 ^ 53)); [done|].
    rewrite <- Z.mul_assoc, <- Z.pow_add_r by lia. replace (bits n - 53 + 53) with (bits n) by lia. done.
  - rewrite Z.max_r, Z.max_l, Z.pow_0_r, Z.mul_1_r by lia. replace (- (bits n - 53)) with (53 - bits n) by lia.
    assert (significand n = n * 2 ^ (53 - bits n)) as ->; [|apply Z.quot_mul; pose proof (Z.pow_pos_nonneg 2 (53 - bits n)); lia].
    unfold significand. rewrite Z.shiftl_mul_pow2 by lia. done.
Qed.

(** ** Products have at most 53 significant bits *)

Lemma shr_1_m r : 0 <= shr_m r -> shr_m (shr_1 r) = shr_m r / 2.
Proof. destruct r as [m r s]. rewrite <- Z.div2_div. destruct m as [|[p|p|]|p]; done. Qed.
Lemma shr_m_div r e n : 0 <= shr_m r -> 0 <= n -> shr_m (shr r e n).1 = shr_m r / 2 ^ n.
Proof.
  intros Hr Hn. destruct n as [|p|p]; [by rewrite Z.pow_0_r, Z.div_1_r| |lia]. cbn [shr fst]. rewrite iter_pos_nat, <- (positive_nat_Z p).
  induction (Pos.to_nat p) as [|k IH]; [by rewrite Z.pow_0_r, Z.div_1_r|]. rewrite Nat.iter_succ, shr_1_m, IH.
  - rewrite Z.div_div, Nat2Z.inj_succ, Z.pow_succ_r by (try apply Z.pow_pos_nonneg; lia). f_equal. lia.
  - rewrite IH. apply Z.div_pos; [done|]. apply Z.pow_pos_nonneg; lia.
Qed.
Lemma shr_m_keep r e n : n <= 0 -> shr_m (shr r e n).1 = shr_m r.
Proof. destruct n; [done|lia|done]. Qed.

Lemma shr_fexp_nonneg m e l : 0 <= m -> 0 <= shr_m (shr_fexp 53 1024 m e l).1.
Proof.
  intros Hm. unfold shr_fexp. set (k := _ - e). assert (shr_m (shr_record_of_loc m l) = m) as E by (by destruct l as [|[]]).
  destruct (Z.le_gt_cases k 0); [rewrite shr_m_keep, E by done; done|]. rewrite shr_m_div by (rewrite ?E; lia).
  rewrite E. apply Z.div_pos; [done|]. apply Z.pow_pos_nonneg; lia.
Qed.
Lemma shr_fexp_bound m e l : 0 <= m -> shr_m (shr_fexp 53 1024 m e l).1 < 2 ^ 53.
Proof.
  intros Hm. unfold shr_fexp, fexp, emin. assert (shr_m (shr_record_of_loc m l) = m) as E by (by destruct l as [|[]]).
  set (k := Z.max (Zdigits2 m + e - 53) (3 - 1024 - 53) - e).
  destruct (Z.eq_dec m 0) as [->|Hne].
  { destruct (Z.le_gt_cases k 0); [by rewrite shr_m_keep, E by done|]. rewrite shr_m_div, E by (rewrite ?E; lia). by rewrite Z.div_0_l by (pose proof (Z.pow_pos_nonneg 2 k); lia). }
  pose proof (bits_bounds m ltac:(lia)) as [_ Hb]. assert (bits m <= 53 + Z.max k 0) as Hk by (subst k; rewrite Zdigits2_bits by lia; lia).
  destruct (Z.le_gt_cases k 0) as [Hk0|Hk0].
  - rewrite shr_m_keep, E by done. eapply Z.lt_le_trans; [exact Hb|]. apply Z.pow_le_mono_r; lia.
  - rewrite shr_m_div, E by (rewrite ?E; lia). apply Z.div_lt_upper_bound; [apply Z.pow_pos_nonneg; lia|].
    rewrite <- Z.pow_add_r by lia. eapply Z.lt_le_trans; [exact Hb|]. apply Z.pow_le_mono_r; lia.
Qed.

Lemma round_nonneg m l : 0 <= m -> 0 <= round_nearest_even m l.
Proof. intros H. destruct l as [|[]]; cbn; [lia| |lia|lia]. destruct (Z.even m); lia. Qed.

Lemma rounded_mantissa s m e l s' m' e' : 0 <= m -> binary_round_aux 53 1024 s m e l = S754_finite s' m' e' -> Z.pos m' < 2 ^ 53.
Proof.
  intros Hm. unfold binary_round_aux. pose proof (shr_fexp_nonneg m e l Hm) as H1. destruct (shr_fexp 53 1024 m e l) as [r1 e1]. cbn [fst] in H1.
  set (q := round_nearest_even _ _). pose proof (shr_fexp_bound q e1 loc_Exact (round_nonneg _ _ H1)) as H2. destruct (shr_fexp 53 1024 q e1 loc_Exact) as [r2 e2]. cbn [fst] in H2.
  destruct (shr_m r2) as [|p|p]; [done| |done]. destruct (e2 <=? 1024 - 53); [|done]. by intros [= _ <- _].
Qed.

Lemma f_mul_mantissa a b s m e : f_mul a b = S754_finite s m e -> Z.pos m < 2 ^ 53.
Proof. unfold f_mul. destruct a, b; try done. apply rounded_mantissa. lia. Qed.

(** What a product truncates to is exact. *)
Lemma truncate_mul_exact a b v : truncate (f_mul a b) = Some v -> 0 < v -> exact53 v.
Proof.
  destruct (f_mul a b) as [s|s| |s m e] eqn:E; cbn [truncate]; try (intros [=]; lia). pose proof (f_mul_mantissa _ _ _ _ _ E) as Hm.
  destruct s; intros [= <-] Hv.
  { assert (0 <= Z.quot (Z.shiftl (Z.pos m) (Z.max e 0)) (2 ^ Z.max (- e) 0)); [|lia]. apply Z.quot_pos; [by apply Z.shiftl_nonneg|apply Z.pow_pos_nonneg; lia]. }
  destruct (Z.le_gt_cases 0 e).
  - rewrite Z.max_l, Z.max_r, Z.pow_0_r, Z.quot_1_r, Z.shiftl_mul_pow2 by lia. apply exact53_shift; lia.
  - rewrite Z.max_r, Z.max_l, Z.shiftl_0_r in * by lia. apply exact53_small. split; [done|].
    eapply Z.le_lt_trans; [|exact Hm]. apply Z.quot_le_upper_bound; [apply Z.pow_pos_nonneg; lia|]. pose proof (Z.pow_pos_nonneg 2 (- e)). nia.
Qed.
