(* ===== verification/Durations.v ===== *)
(** * Durations and sizes as text

    [time.Duration.String] and [time.ParseDuration] of the Go standard library, by
    which the settings page shows and reads durations, with their 64-bit overflow
    checks and the floating point product of a fraction. *)

From S2P Require Import Prelude GoStrings Float64 Json Text FloatExact.
From Stdlib Require Import Ascii.
#[local] Open Scope string_scope.
#[local] Open Scope list_scope.
#[local] Open Scope Z_scope.
#[local] Open Scope go_scope.

Definition Microsecond : Duration := 1000.
Definition Millisecond : Duration := 1000 * Microsecond.

(** ** Printing *)

Definition digitChar (d : Z) : ascii := byte (48 + d).

(** [fmtInt], in front of [acc]; a [uint64] has at most 20 digits. *)
Fixpoint fmtInt_from (fuel : nat) (v : Z) (acc : string) : string :=
  match fuel with
  | O => acc
  | S fuel => let acc := String (digitChar (v mod 10)) acc in if v / 10 =? 0 then acc else fmtInt_from fuel (v / 10) acc
  end.
Definition fmtInt (v : Z) (acc : string) : string := fmtInt_from 20 v acc.

(** [fmtFrac]: the fraction of [v/10^prec] without trailing zeros, and the rest. *)
Fixpoint fmtFrac (prec : nat) (v : Z) (print : bool) (acc : string) : string * Z :=
  match prec with
  | O => (if print then String (byte 46) acc else acc, v)
  | S prec =>
      let digit := v mod 10 in
      let print := print || negb (digit =? 0) in
      fmtFrac prec (v / 10) print (if print then String (digitChar digit) acc else acc)
  end.

Definition microSign : string := encodeRune 181.
Definition Duration_String (d : Duration) : string :=
  let u := Z.abs d in
  let text :=
    if u <? Second then
      if u =? 0 then "0s"
      else if u <? Microsecond then fmtInt u "ns"
      else if u <? Millisecond then let '(acc, u) := fmtFrac 3 u false (microSign +:+ "s") in fmtInt u acc
      else let '(acc, u) := fmtFrac 6 u false "ms" in fmtInt u acc
    else
      let '(acc, u) := fmtFrac 9 u false "s" in
      let acc := fmtInt (u mod 60) acc in
      let u := u / 60 in
      if u =? 0 then acc
      else
        let acc := fmtInt (u mod 60) (String (byte 109) acc) in
        let u := u / 60 in
        if u =? 0 then acc else fmtInt u (String (byte 104) acc) in
  if d <? 0 then String (byte 45) text else text.

(** ** Parsing *)

Definition two63 : Z := 9223372036854775808.
Definition digitOf (c : ascii) : option Z := if is_digit c then Some (code c - 48) else None.

Fixpoint leadingInt_from (x : Z) (s : string) : option (Z * string) :=
  match s with
  | String c rest =>
      match digitOf c with
      | None => Some (x, s)
      | Some d => if two63 / 10 <? x then None else let x := x * 10 + d in if two63 <? x then None else leadingInt_from x rest
      end
  | EmptyString => Some (x, s)
  end.
Definition leadingInt := leadingInt_from 0.

(** The digits beyond the range are skipped. *)
Fixpoint leadingFraction_from (x : Z) (scale : float64) (overflow : bool) (s : string) : Z * float64 * string :=
  match s with
  | String c rest =>
      match digitOf c with
      | None => (x, scale, s)
      | Some d =>
          if overflow then leadingFraction_from x scale overflow rest
          else if (two63 - 1) / 10 <? x then leadingFraction_from x scale true rest
          else let y := x * 10 + d in
               if two63 <? y then leadingFraction_from x scale true rest
               else leadingFraction_from y (f_mul scale (f_of_Z 10)) false rest
      end
  | EmptyString => (x, scale, s)
  end.
Definition leadingFraction := leadingFraction_from 0 (f_of_Z 1) false.

Definition isNumberChar (c : ascii) : bool := (code c =? 46) || is_digit c.
Fixpoint unitName (s : string) : string * string :=
  match s with
  | String c rest => if isNumberChar c then (EmptyString, s) else let '(u, r) := unitName rest in (String c u, r)
  | EmptyString => (EmptyString, s)
  end.
Definition unitMap (u : string) : option Z :=
  if String.eqb u "ns" then Some 1
  else if String.eqb u "us" || String.eqb u (microSign +:+ "s") || String.eqb u (encodeRune 956 +:+ "s") then Some Microsecond
  else if String.eqb u "ms" then Some Millisecond
  else if String.eqb u "s" then Some Second
  else if String.eqb u "m" then Some Minute
  else if String.eqb u "h" then Some Hour
  else None.

(** [uint64(f)] of a value in range. *)
Definition uint64_of (f : float64) : Z := u64 (default 0 (truncate f)).

(** One number with its unit: the nanoseconds and the rest. *)
Definition parseTerm (s : string) : option (Z * string) :=
  match s with
  | EmptyString => None
  | String c _ =>
      if negb (isNumberChar c) then None
      else
        match leadingInt s with
        | None => None
        | Some (v, s1) =>
            let pre := negb (Nat.eqb (String.length s) (String.length s1)) in
            let '(f, scale, s2, post) :=
              match s1 with
              | String c rest =>
                  if code c =? 46
                  then let '(f, scale, r) := leadingFraction rest in (f, scale, r, negb (Nat.eqb (String.length rest) (String.length r)))
                  else (0, f_of_Z 1, s1, false)
              | EmptyString => (0, f_of_Z 1, s1, false)
              end in
            if negb pre && negb post then None
            else
              let '(u, s3) := unitName s2 in
              if String.eqb u "" then None
              else
                match unitMap u with
                | None => None
                | Some unit =>
                    if two63 / unit <? v then None
                    else
                      let v := v * unit in
                      let v := if 0 <? f then u64 (v + uint64_of (f_mul (f_of_Z f) (f_div (f_of_Z unit) scale))) else v in
                      if (0 <? f) && (two63 <? v) then None else Some (v, s3)
                end
        end
  end.

(** The loop; every term shortens the text. *)
Fixpoint parseTerms (fuel : nat) (d : Z) (s : string) : option Z :=
  match s with
  | EmptyString => Some d
  | _ =>
      match fuel with
      | O => None
      | S fuel =>
          match parseTerm s with
          | None => None
          | Some (v, rest) => let d := u64 (d + v) in if two63 <? d then None else parseTerms fuel d rest
          end
      end
  end.

Definition ParseDuration (s : string) : option Duration :=
  let '(neg, s) := match s with
                   | String c rest => if (code c =? 45) || (code c =? 43) then (code c =? 45, rest) else (false, s)
                   | EmptyString => (false, s)
                   end in
  if String.eqb s "0" then Some 0
  else if String.eqb s "" then None
  else
    match parseTerms (String.length s) 0 s with
    | None => None
    | Some d => if neg then Some (i64 (- d)) else if maxInt64 <? d then None else Some d
    end.

Example durations_print :
  Duration_String <$> [0; 1; 1500; 2200000; 1500 * Millisecond; 90 * Minute; 30 * Second; -5; maxInt64]
  = ["0s"; "1ns"; "1.5" +:+ microSign +:+ "s"; "2.2ms"; "1.5s"; "1h30m0s"; "30s"; "-5ns"; "2562047h47m16.854775807s"].
Proof. vm_compute. reflexivity. Qed.
Example durations_parse :
  ParseDuration <$> ["1h30m"; "-1.5h"; "0"; ".5s"; "1"; "1.s"; ""; "9223372036854775808ns"; "-9223372036854775808ns"; "100ms100ms"; "1" +:+ encodeRune 956 +:+ "s"; "s"; "3000000h"]
  = [Some (90 * Minute); Some (-90 * Minute); Some 0; Some (500 * Millisecond); None; Some Second; None; None; Some minInt64; Some (200 * Millisecond); Some Microsecond; None; None].
Proof. vm_compute. reflexivity. Qed.

(** ** Reading back what was printed *)

Lemma code_byte n : 0 <= n < 256 -> code (byte n) = n.
Proof. intros H. unfold code, byte. rewrite N_ascii_embedding by lia. lia. Qed.
Lemma digitOf_digit d : 0 <= d < 10 -> digitOf (digitChar d) = Some d.
Proof.
  intros H. unfold digitOf, is_digit, digitChar. rewrite code_byte by lia.
  rewrite (proj2 (Z.leb_le 48 (48 + d))), (proj2 (Z.leb_le (48 + d) 57)) by lia. cbn [andb]. f_equal. lia.
Qed.
Lemma digit_number d : 0 <= d < 10 -> isNumberChar (digitChar d) = true.
Proof.
  intros H. unfold isNumberChar. pose proof (digitOf_digit d H) as E. unfold digitOf in E. destruct (is_digit _); [apply orb_true_r|done].
Qed.
Lemma mod10 v : 0 <= v mod 10 < 10.
Proof. apply Z.mod_pos_bound. lia. Qed.

(** A text that starts with no digit. *)
Definition stops (s : string) : Prop := match s with String c _ => digitOf c = None | EmptyString => True end.
(** A text that starts with a number. *)
Definition numeric (s : string) : Prop := match s with String c _ => isNumberChar c = true | EmptyString => True end.

Lemma leadingInt_stops v s : stops s -> leadingInt_from v s = Some (v, s).
Proof. destruct s as [|c s]; [done|]. cbn. by intros ->. Qed.

Lemma leadingInt_fmt fuel v acc : 0 <= v <= two63 -> v < 10 ^ Z.of_nat fuel -> leadingInt_from 0 (fmtInt_from fuel v acc) = leadingInt_from v acc.
Proof.
  revert v acc. induction fuel as [|fuel IH]; intros v acc Hv Hf; [simpl in Hf; by replace v with 0 by lia|].
  rewrite Nat2Z.inj_succ, Z.pow_succ_r in Hf by lia. cbn [fmtInt_from]. pose proof (mod10 v). pose proof (Z.div_mod v 10 ltac:(done)) as E.
  assert (leadingInt_from (v / 10) (String (digitChar (v mod 10)) acc) = leadingInt_from v acc) as Hstep.
  { cbn [leadingInt_from]. rewrite digitOf_digit by lia. change (two63 / 10) with 922337203685477580. unfold two63 in *. rewrite (proj2 (Z.ltb_ge _ _)) by lia.
    replace (v / 10 * 10 + v mod 10) with v by lia. by rewrite (proj2 (Z.ltb_ge _ _)) by lia. }
  destruct (Z.eqb_spec (v / 10) 0) as [E0|E0]; [by rewrite <- Hstep, E0|]. rewrite IH by lia. exact Hstep.
Qed.

Lemma fmtInt_head fuel v acc : exists c rest, fmtInt_from (S fuel) v acc = String c rest /\ isNumberChar c = true /\ digitOf c <> None
  /\ (String.length acc < String.length (fmtInt_from (S fuel) v acc))%nat.
Proof.
  revert v acc. induction fuel as [|fuel IH]; intros v acc; pose proof (mod10 v) as H.
  - cbn [fmtInt_from]. assert (forall b : bool, (if b then String (digitChar (v mod 10)) acc else String (digitChar (v mod 10)) acc) = String (digitChar (v mod 10)) acc) as -> by by intros [].
    exists (digitChar (v mod 10)), acc. rewrite digitOf_digit, digit_number by done. cbn. split_and!; [done..|lia].
  - cbn [fmtInt_from]. cbn [fmtInt_from] in IH. destruct (v / 10 =? 0).
    + exists (digitChar (v mod 10)), acc. rewrite digitOf_digit, digit_number by done. cbn. split_and!; [done..|lia].
    + destruct (IH (v / 10) (String (digitChar (v mod 10)) acc)) as (c & rest & E & H1 & H2 & H3). exists c, rest. split_and!; [done..|].
      cbn in H3 |- *. lia.
Qed.

Fixpoint fracDigits (k : nat) (v : Z) (tail : string) : string :=
  match k with O => tail | S k => fracDigits k (v / 10) (String (digitChar (v mod 10)) tail) end.

Lemma fmtFrac_print n v acc : fmtFrac n v true acc = (String (byte 46) (fracDigits n v acc), v / 10 ^ Z.of_nat n).
Proof.
  revert v acc. induction n as [|n IH]; intros v acc; [cbn; by rewrite Z.div_1_r|].
  cbn [fmtFrac orb fracDigits]. rewrite IH. f_equal. rewrite Nat2Z.inj_succ, Z.pow_succ_r, Z.div_div by lia. done.
Qed.

Lemma mod_pow_succ v n : v mod 10 ^ Z.of_nat (S n) = ((v / 10) mod 10 ^ Z.of_nat n) * 10 + v mod 10.
Proof. rewrite Nat2Z.inj_succ, Z.pow_succ_r by lia. pose proof (Z.pow_pos_nonneg 10 (Z.of_nat n)). rewrite Z.rem_mul_r by lia. lia. Qed.

Lemma fmtFrac_spec n v acc : 0 <= v ->
  (fmtFrac n v false acc).2 = v / 10 ^ Z.of_nat n
  /\ (v mod 10 ^ Z.of_nat n = 0 /\ (fmtFrac n v false acc).1 = acc
      \/ exists k g, (k <= n)%nat /\ 0 <= g /\ 0 < g mod 10 ^ Z.of_nat k /\ v mod 10 ^ Z.of_nat n = (g mod 10 ^ Z.of_nat k) * 10 ^ Z.of_nat (n - k)
         /\ (fmtFrac n v false acc).1 = String (byte 46) (fracDigits k g acc)).
Proof.
  revert v acc. induction n as [|n IH]; intros v acc Hv.
  { cbn. rewrite Z.div_1_r. split; [done|]. left. by rewrite Z.mod_1_r. }
  cbn [fmtFrac orb]. destruct (Z.eqb_spec (v mod 10) 0) as [E|E]; cbn [negb].
  - destruct (IH (v / 10) acc (Z.div_pos v 10 Hv ltac:(lia))) as [H1 H2]. rewrite H1. split.
    { rewrite Nat2Z.inj_succ, Z.pow_succ_r, Z.div_div by lia. done. }
    rewrite mod_pow_succ, E. destruct H2 as [[-> H2]|(k & g & Hk & Hg0 & Hg & -> & H2)]; [by left|]. right. exists k, g. split_and!; [lia|done|done| |done].
    rewrite Nat.sub_succ_l, Nat2Z.inj_succ, Z.pow_succ_r by lia. lia.
  - rewrite fmtFrac_print. cbn [fst snd]. split.
    { rewrite Nat2Z.inj_succ, Z.pow_succ_r, Z.div_div by lia. done. }
    right. exists (S n), v. rewrite Nat.sub_diag. change (10 ^ Z.of_nat 0) with 1. pose proof (mod10 v). pose proof (Z.pow_pos_nonneg 10 (Z.of_nat n)).
    pose proof (Z.mod_pos_bound (v / 10) (10 ^ Z.of_nat n)). rewrite mod_pow_succ. split_and!; [lia|done|lia|lia|done].
Qed.

Lemma pow10_exact k : (k <= 15)%nat -> exact53 (10 ^ Z.of_nat k).
Proof.
  intros H. apply exact53_small. split; [apply Z.pow_pos_nonneg; lia|].
  apply Z.le_lt_trans with (10 ^ 15); [apply Z.pow_le_mono_r; lia|done].
Qed.
Lemma bits_small n : 0 < n < 2 ^ 53 -> bits n <= 53.
Proof. intros H. apply bits_le; lia. Qed.

Lemma pow10_bits k : (k <= 15)%nat -> bits (10 ^ Z.of_nat k) <= 53.
Proof.
  intros H. apply bits_small. split; [apply Z.pow_pos_nonneg; lia|].
  apply Z.le_lt_trans with (10 ^ 15); [apply Z.pow_le_mono_r; lia|done].
Qed.

Lemma leadingFraction_stops x scale s : stops s -> leadingFraction_from x scale false s = (x, scale, s).
Proof. destruct s as [|c s]; [done|]. cbn. by intros ->. Qed.

(** At most nine digits, so nothing overflows and the scale is exact. *)
Lemma leadingFraction_digits k v tail : (k <= 9)%nat -> 0 <= v ->
  leadingFraction (fracDigits k v tail) = leadingFraction_from (v mod 10 ^ Z.of_nat k) (f_of_Z (10 ^ Z.of_nat k)) false tail.
Proof.
  unfold leadingFraction. revert v tail. induction k as [|k IH]; intros v tail Hk Hv; [cbn -[f_of_Z]; by rewrite Z.mod_1_r|].
  pose proof (mod10 v). cbn [fracDigits]. rewrite IH by (lia || apply Z.div_pos; lia).
  set (y := (v / 10) mod 10 ^ Z.of_nat k). assert (0 <= y < 10 ^ 9) as Hy.
  { pose proof (Z.mod_pos_bound (v / 10) (10 ^ Z.of_nat k) ltac:(apply Z.pow_pos_nonneg; lia)).
    pose proof (Z.pow_le_mono_r 10 (Z.of_nat k) 9 ltac:(lia) ltac:(lia)). subst y. lia. }
  cbn [leadingFraction_from]. rewrite digitOf_digit by lia. change ((two63 - 1) / 10) with 922337203685477580. unfold two63.
  rewrite (proj2 (Z.ltb_ge _ _)) by lia. cbv zeta. rewrite (proj2 (Z.ltb_ge _ _)) by lia.
  rewrite mod_pow_succ. fold y. f_equal. change 10 with (10 ^ Z.of_nat 1) at 2. rewrite f_mul_exact.
  - f_equal. rewrite (Nat2Z.inj_succ k), Z.pow_succ_r by lia. change (10 ^ Z.of_nat 1) with 10. lia.
  - apply pow10_exact. lia.
  - apply pow10_exact. lia.
  - rewrite <- Z.pow_add_r, <- Nat2Z.inj_add by lia. apply pow10_exact. lia.
  - pose proof (pow10_bits k). lia.
  - vm_compute. discriminate.
Qed.

(** The units that are printed with a fraction. *)
Lemma unit_scale n k : n ∈ [3; 6; 9]%nat -> (k <= n)%nat ->
  f_div (f_of_Z (10 ^ Z.of_nat n)) (f_of_Z (10 ^ Z.of_nat k)) = f_of_Z (10 ^ Z.of_nat (n - k)).
Proof.
  intros Hn Hk. rewrite !elem_of_cons in Hn. destruct Hn as [-> |[-> |[-> |Hn%not_elem_of_nil]]]; [| | |done];
    do 10 (destruct k as [|k]; [first [lia|vm_compute; reflexivity]|]); lia.
Qed.

Lemma fraction_exact n k f : n ∈ [3; 6; 9]%nat -> (k <= n)%nat -> 0 < f < 10 ^ Z.of_nat k ->
  uint64_of (f_mul (f_of_Z f) (f_div (f_of_Z (10 ^ Z.of_nat n)) (f_of_Z (10 ^ Z.of_nat k)))) = f * 10 ^ Z.of_nat (n - k).
Proof.
  intros Hn Hk Hf. assert (n <= 9)%nat as Hn9 by (rewrite !elem_of_cons in Hn; destruct Hn as [-> |[-> |[-> |Hn%not_elem_of_nil]]]; [lia..|done]).
  pose proof (Z.pow_pos_nonneg 10 (Z.of_nat (n - k)) ltac:(lia) ltac:(lia)) as Hp. pose proof (Z.pow_le_mono_r 10 (Z.of_nat n) 9 ltac:(lia) ltac:(lia)) as H9.
  assert (10 ^ Z.of_nat k * 10 ^ Z.of_nat (n - k) = 10 ^ Z.of_nat n) as E by (rewrite <- Z.pow_add_r by lia; f_equal; lia).
  assert (0 < f * 10 ^ Z.of_nat (n - k) < 10 ^ 9) as Hb by nia.
  assert (0 < f < 2 ^ 53 /\ 0 < 10 ^ Z.of_nat (n - k) < 2 ^ 53) as [Hf53 Hp53] by nia.
  rewrite unit_scale, f_mul_exact by
    (done || (apply exact53_small; lia) || (pose proof (bits_small f Hf53); pose proof (bits_small _ Hp53); lia)).
  unfold uint64_of. rewrite truncate_exact; [|apply exact53_small; lia|pose proof (bits_small (f * 10 ^ Z.of_nat (n - k)) ltac:(lia)); lia].
  change (u64 (f * 10 ^ Z.of_nat (n - k)) = f * 10 ^ Z.of_nat (n - k)). unfold u64. apply Z.mod_small. lia.
Qed.

(** ** Terms *)

(** A unit in front of [rest]. *)
Definition unitAt (u : string) (unit : Z) (rest tail : string) : Prop :=
  unitName tail = (u, rest) /\ u <> "" /\ unitMap u = Some unit /\ stops tail /\ (exists c t, tail = String c t /\ code c <> 46).

Lemma two63_div v unit : 0 < unit -> v * unit <= two63 -> (two63 / unit <? v) = false.
Proof. intros Hu Hv. apply Z.ltb_ge. apply Z.div_le_lower_bound; lia. Qed.

Lemma term_int v u unit rest tail : 0 <= v -> 0 < unit -> v * unit <= two63 -> unitAt u unit rest tail ->
  parseTerm (fmtInt v tail) = Some (v * unit, rest).
Proof.
  intros Hv Hu Hb (Hn & Hne & Hm & Hs & c0 & t & Et & Hc). unfold fmtInt. destruct (fmtInt_head 19 v tail) as (c & r & E & Hc1 & _ & Hlen).
  assert (leadingInt (fmtInt_from 20 v tail) = Some (v, tail)) as Hl.
  { unfold leadingInt. rewrite leadingInt_fmt; [by apply leadingInt_stops|unfold two63 in *; nia|].
    apply Z.le_lt_trans with two63; [unfold two63 in *; nia|vm_compute; reflexivity]. }
  unfold parseTerm. rewrite E in Hl, Hlen |- *. rewrite Hc1, Hl. cbn [negb]. rewrite (proj2 (Nat.eqb_neq _ _)) by lia. cbn [negb].
  rewrite Et. rewrite (proj2 (Z.eqb_neq _ _) Hc). cbv zeta beta. cbn [andb]. rewrite <- Et, Hn, (proj2 (String.eqb_neq _ _) Hne), Hm.
  by rewrite two63_div.
Qed.

Lemma term_frac n v u rest tail : n ∈ [3; 6; 9]%nat -> 0 <= v <= two63 -> unitAt u (10 ^ Z.of_nat n) rest tail ->
  parseTerm (fmtInt (v / 10 ^ Z.of_nat n) (fmtFrac n v false tail).1) = Some (v, rest).
Proof.
  intros Hn Hv Hat. set (w := 10 ^ Z.of_nat n) in *. assert (0 < w) as Hw by (apply Z.pow_pos_nonneg; lia).
  pose proof (Z.div_mod v w ltac:(lia)) as Ediv. pose proof (Z.mod_pos_bound v w Hw) as Hmod. pose proof (Z.div_pos v w ltac:(lia) Hw).
  destruct (fmtFrac_spec n v tail ltac:(lia)) as [_ [[E0 ->]|(k & g & Hk & Hg0 & Hg & Ev & ->)]].
  { change (10 ^ Z.of_nat n) with w in E0. rewrite (term_int _ u w rest) by (done || lia). f_equal. f_equal. lia. }
  change (10 ^ Z.of_nat n) with w in Ev. destruct Hat as (Hu & Hne & Hm & Hs & _). set (f := g mod 10 ^ Z.of_nat k) in *. set (tail' := String (byte 46) (fracDigits k g tail)).
  set (q := v / w) in *. destruct (fmtInt_head 19 q tail') as (c & r & E & Hc1 & _ & Hlen). unfold fmtInt.
  assert (leadingInt (fmtInt_from 20 q tail') = Some (q, tail')) as Hl.
  { unfold leadingInt. rewrite leadingInt_fmt; [by apply leadingInt_stops|nia|]. apply Z.le_lt_trans with two63; [nia|vm_compute; reflexivity]. }
  assert (n <= 9)%nat as Hn9 by (rewrite !elem_of_cons in Hn; destruct Hn as [-> |[-> |[-> |Hn%not_elem_of_nil]]]; [lia..|done]).
  assert (0 < f < 10 ^ Z.of_nat k) as Hf by (subst f; pose proof (Z.mod_pos_bound g (10 ^ Z.of_nat k) ltac:(apply Z.pow_pos_nonneg; lia)); lia).
  assert (leadingFraction (fracDigits k g tail) = (f, f_of_Z (10 ^ Z.of_nat k), tail)) as Hfr.
  { rewrite leadingFraction_digits by lia. by apply leadingFraction_stops. }
  unfold parseTerm. rewrite E in Hl, Hlen |- *. rewrite Hc1, Hl. cbn [negb]. rewrite (proj2 (Nat.eqb_neq _ _)) by lia. cbn [negb].
  subst tail'. cbv beta iota. rewrite code_byte by lia. cbn [Z.eqb Pos.eqb]. rewrite Hfr. cbv zeta beta. cbn [andb].
  rewrite Hu, (proj2 (String.eqb_neq _ _) Hne), Hm, two63_div by nia.
  rewrite (proj2 (Z.ltb_lt 0 f)) by lia. change (f_of_Z w) with (f_of_Z (10 ^ Z.of_nat n)). rewrite fraction_exact by done. rewrite <- Ev.
  unfold u64. rewrite Z.mod_small by (unfold two63 in *; nia). replace (q * w + v mod w) with v by lia.
  by rewrite (proj2 (Z.ltb_ge _ _)) by lia.
Qed.

(** ** Durations *)

Lemma parseTerms_fuel n m d s x : (n <= m)%nat -> parseTerms n d s = Some x -> parseTerms m d s = Some x.
Proof.
  revert m d s. induction n as [|n IH]; intros m d s Hm.
  - destruct s; [|done]. by destruct m.
  - destruct m as [|m]; [lia|]. cbn [parseTerms]. destruct s; [done|]. destruct (parseTerm _) as [[v rest]|]; [|done]. cbv zeta.
    destruct (two63 <? _); [done|]. apply IH. lia.
Qed.
Lemma parseTerms_step n d s v rest : parseTerm s = Some (v, rest) -> 0 <= v -> 0 <= d -> d + v <= two63 ->
  parseTerms (S n) d s = parseTerms n (d + v) rest.
Proof.
  intros Hp Hv Hd Hb. cbn [parseTerms]. destruct s; [done|]. rewrite Hp. cbv zeta. unfold u64.
  rewrite Z.mod_small by (unfold two63 in *; lia). by rewrite (proj2 (Z.ltb_ge _ _)) by lia.
Qed.

(** A unit of one letter in front of a number. *)
Lemma unit_letter c unit rest : isNumberChar c = false -> numeric rest -> unitMap (String c "") = Some unit -> unitAt (String c "") unit rest (String c rest).
Proof.
  intros Hc Hr Hu. assert (digitOf c = None /\ code c <> 46) as [Hd Hp].
  { unfold isNumberChar in Hc. apply orb_false_iff in Hc as [H1%Z.eqb_neq H2]. unfold digitOf. by rewrite H2. }
  split_and!; try done; [|by exists c, rest]. cbn [unitName]. rewrite Hc. destruct rest as [|c2 rest]; [done|]. cbn [unitName]. by rewrite Hr.
Qed.
Lemma fmtInt_numeric v acc : numeric (fmtInt v acc).
Proof. unfold fmtInt. destruct (fmtInt_head 19 v acc) as (c & r & -> & H & _). exact H. Qed.
Lemma fmtInt_length v acc : (String.length acc < String.length (fmtInt v acc))%nat.
Proof. unfold fmtInt. by destruct (fmtInt_head 19 v acc) as (c & r & _ & _ & _ & H). Qed.

(** The text of a non-negative duration is a sequence of terms that add up to it. *)
Definition printed (s : string) (u : Z) : Prop := numeric s /\ (2 <= String.length s)%nat /\ parseTerms (String.length s) 0 s = Some u.

Lemma printed_term s u : numeric s -> (2 <= String.length s)%nat -> parseTerm s = Some (u, "") -> 0 <= u <= two63 -> printed s u.
Proof.
  intros Hn Hl Hp Hu. split_and!; [done..|]. apply (parseTerms_fuel 1); [lia|]. rewrite (parseTerms_step 0 0 s u "") by (done || lia). done.
Qed.

Lemma fmtFrac_mod n : forall v1 v2 p acc, v1 mod 10 ^ Z.of_nat n = v2 mod 10 ^ Z.of_nat n -> (fmtFrac n v1 p acc).1 = (fmtFrac n v2 p acc).1.
Proof.
  induction n as [|n IH]; intros v1 v2 p acc E; [done|]. rewrite !mod_pow_succ in E. pose proof (mod10 v1). pose proof (mod10 v2).
  assert (v1 mod 10 = v2 mod 10) as E1 by lia. assert ((v1 / 10) mod 10 ^ Z.of_nat n = (v2 / 10) mod 10 ^ Z.of_nat n) as E2 by lia.
  cbn [fmtFrac]. rewrite E1. by apply IH.
Qed.

(** The three forms of a duration of a second or more. *)
Lemma printed_seconds last acc : 0 <= last < Minute -> acc = (fmtFrac 9 last false "s").1 ->
  let s := fmtInt (last / Second) acc in numeric s /\ (2 <= String.length s)%nat /\ parseTerm s = Some (last, "").
Proof.
  intros H -> s. subst s. split; [apply fmtInt_numeric|]. split.
  - pose proof (fmtInt_length (last / Second) (fmtFrac 9 last false "s").1). destruct (fmtFrac_spec 9 last "s" ltac:(lia)) as [_ [[_ E]|(k & g & _ & _ & _ & _ & E)]]; rewrite E in *; cbn in *; lia.
  - apply (term_frac 9 last "s" "" "s"); [by vm_compute; repeat constructor|unfold two63, Minute, Second in *; lia|].
    split_and!; try done. by eexists _, _.
Qed.
Lemma printed_more s v c unit d : numeric s -> parseTerms (String.length s) d s = Some (d + v) ->
  isNumberChar c = false -> 0 < unit -> unitMap (String c "") = Some unit -> forall n, 0 <= n -> 0 <= d - n * unit -> d <= two63 ->
  let t := fmtInt n (String c s) in parseTerms (String.length t) (d - n * unit) t = Some (d + v).
Proof.
  intros Hs Hp Hc Hu Hm n Hn Hd Hb t. pose proof (fmtInt_length n (String c s)) as Hl. fold t in Hl. change (String.length (String c s)) with (S (String.length s)) in Hl.
  apply (parseTerms_fuel (S (String.length s))); [lia|].
  assert (0 <= n * unit) by nia. rewrite (parseTerms_step _ _ t (n * unit) s); [by replace (d - n * unit + n * unit) with d by lia| |lia|lia|lia].
  apply (term_int n (String c "") unit); [lia|lia|lia|by apply unit_letter].
Qed.

Lemma seconds_printed u : 0 <= u <= two63 -> Second <= u ->
  printed (let '(acc, u) := fmtFrac 9 u false "s" in
      let acc := fmtInt (u mod 60) acc in
      let u := u / 60 in
      if u =? 0 then acc
      else
        let acc := fmtInt (u mod 60) (String (byte 109) acc) in
        let u := u / 60 in
        if u =? 0 then acc else fmtInt u (String (byte 104) acc)) u.
Proof.
  intros Hu Hs. destruct (fmtFrac_spec 9 u "s" ltac:(lia)) as [E2 _]. destruct (fmtFrac 9 u false "s") as [frac secs] eqn:Ef. cbn [snd] in E2.
  change (10 ^ Z.of_nat 9) with Second in E2. cbv zeta. assert (0 < Second) as HS by done.
  pose proof (Z.div_mod u Second ltac:(done)) as Eu. pose proof (Z.mod_pos_bound u Second ltac:(done)).
  assert (0 <= secs) by (subst secs; apply Z.div_pos; lia). rewrite <- E2 in Eu.
  pose proof (Z.div_mod secs 60 ltac:(done)) as Es. pose proof (Z.mod_pos_bound secs 60 ltac:(done)). set (m := secs / 60) in *.
  set (last := secs mod 60 * Second + u mod Second). assert (0 <= m) by (apply Z.div_pos; lia).
  assert (0 <= last < Minute) as Hlast by (subst last; unfold Minute, Second in *; lia).
  assert (u = m * Minute + last) as Eum by (subst last; unfold Minute, Second in *; lia).
  assert (last / Second = secs mod 60) as El by (subst last; rewrite Z.div_add_l, (Z.div_small (u mod Second)) by (done || lia); lia).
  assert (frac = (fmtFrac 9 last false "s").1) as Efr.
  { change frac with (frac, secs).1. rewrite <- Ef. apply fmtFrac_mod. change (10 ^ Z.of_nat 9) with Second. subst last.
    rewrite Z.add_comm, Z_mod_plus_full, Z.mod_mod by done. done. }
  destruct (printed_seconds last frac Hlast Efr) as (N1 & L1 & P1). rewrite El in N1, L1, P1. set (t1 := fmtInt (secs mod 60) frac) in *. clearbody t1. clear Ef Efr El.
  assert (forall d, 0 <= d -> d + last <= two63 -> parseTerms (String.length t1) d t1 = Some (d + last)) as T1.
  { intros d Hd Hb. apply (parseTerms_fuel 1); [lia|]. rewrite (parseTerms_step 0 d t1 last "") by (done || lia). done. }
  destruct (Z.eqb_spec m 0) as [E0|E0].
  { split_and!; [done..|]. rewrite T1 by lia. f_equal. lia. }
  pose proof (Z.div_mod m 60 ltac:(done)) as Em. pose proof (Z.mod_pos_bound m 60 ltac:(done)). set (h := m / 60) in *. assert (0 <= h) by (apply Z.div_pos; lia).
  set (t2 := fmtInt (m mod 60) (String (byte 109) t1)).
  assert (numeric t2 /\ (2 <= String.length t2)%nat) as [N2 L2] by (split; [apply fmtInt_numeric|]; pose proof (fmtInt_length (m mod 60) (String (byte 109) t1)) as Hl2; fold t2 in Hl2; change (String.length (String (byte 109) t1)) with (S (String.length t1)) in Hl2; lia).
  assert (forall d, 0 <= d -> d + m mod 60 * Minute + last <= two63 -> parseTerms (String.length t2) d t2 = Some (d + m mod 60 * Minute + last)) as T2.
  { intros d Hd Hb. pose proof (printed_more t1 last (byte 109) Minute (d + m mod 60 * Minute) N1 (T1 (d + m mod 60 * Minute) ltac:(unfold Minute, Second; lia) Hb) eq_refl eq_refl eq_refl (m mod 60)) as Hp.
    replace (d + m mod 60 * Minute - m mod 60 * Minute) with d in Hp by lia. apply Hp; [lia|lia|lia]. }
  destruct (Z.eqb_spec h 0) as [Eh|Eh].
  { split_and!; [done..|]. rewrite T2 by lia. f_equal. lia. }
  set (t3 := fmtInt h (String (byte 104) t2)).
  assert (u = h * Hour + m mod 60 * Minute + last) as Eu3 by (unfold Hour, Minute, Second in *; lia).
  split_and!; [apply fmtInt_numeric|pose proof (fmtInt_length h (String (byte 104) t2)) as Hl3; fold t3 in Hl3; change (String.length (String (byte 104) t2)) with (S (String.length t2)) in Hl3; lia|].
  pose proof (printed_more t2 (m mod 60 * Minute + last) (byte 104) Hour (h * Hour) N2) as Hp.
  rewrite Z.add_assoc in Hp. specialize (Hp (T2 (h * Hour) ltac:(unfold Hour, Minute, Second; lia) ltac:(lia)) eq_refl eq_refl eq_refl h).
  replace (h * Hour - h * Hour) with 0 in Hp by lia. rewrite Eu3. apply Hp; [lia|lia|]. unfold Hour, Minute, Second in *. lia.
Qed.

Lemma printed_short n u tail unit : n ∈ [3; 6; 9]%nat -> 0 <= u <= two63 -> unitAt unit (10 ^ Z.of_nat n) "" tail ->
  printed (fmtInt (u / 10 ^ Z.of_nat n) (fmtFrac n u false tail).1) u.
Proof.
  intros Hn Hu Hat. apply printed_term; [apply fmtInt_numeric| |by eapply term_frac|done].
  pose proof (fmtInt_length (u / 10 ^ Z.of_nat n) (fmtFrac n u false tail).1) as Hl. destruct Hat as (_ & _ & _ & _ & c & t & -> & _).
  destruct (fmtFrac_spec n u (String c t) ltac:(lia)) as [_ [[_ E]|(k & g & _ & _ & _ & _ & E)]]; rewrite E in *; cbn in *; lia.
Qed.

Lemma text_printed u : 0 <= u <= two63 ->
  printed (if u <? Second then
      if u =? 0 then "0s"
      else if u <? Microsecond then fmtInt u "ns"
      else if u <? Millisecond then let '(acc, u) := fmtFrac 3 u false (microSign +:+ "s") in fmtInt u acc
      else let '(acc, u) := fmtFrac 6 u false "ms" in fmtInt u acc
    else
      let '(acc, u) := fmtFrac 9 u false "s" in
      let acc := fmtInt (u mod 60) acc in
      let u := u / 60 in
      if u =? 0 then acc
      else
        let acc := fmtInt (u mod 60) (String (byte 109) acc) in
        let u := u / 60 in
        if u =? 0 then acc else fmtInt u (String (byte 104) acc)) u.
Proof.
  intros Hu. destruct (Z.ltb_spec u Second) as [Hs|Hs]; [|by apply seconds_printed].
  assert (forall n tail, (let '(acc, q) := fmtFrac n u false tail in fmtInt q acc) = fmtInt (u / 10 ^ Z.of_nat n) (fmtFrac n u false tail).1) as Hsplit.
  { intros n tail. destruct (fmtFrac_spec n u tail ltac:(lia)) as [E _]. destruct (fmtFrac n u false tail) as [acc q]. cbn in E |- *. by subst q. }
  destruct (Z.eqb_spec u 0) as [-> |H0]; [by vm_compute|]. destruct (Z.ltb_spec u Microsecond) as [H1|H1]; [|destruct (Z.ltb_spec u Millisecond) as [H2|H2]].
  - apply printed_term; [apply fmtInt_numeric|pose proof (fmtInt_length u "ns") as Hl; cbn in Hl |- *; lia| |done].
    rewrite (term_int u "ns" 1 ""); [by rewrite Z.mul_1_r|lia|lia|lia|]. split_and!; try done. by eexists _, _.
  - rewrite Hsplit. apply (printed_short 3 u _ (microSign +:+ "s")); [by vm_compute; repeat constructor|done|].
    split_and!; try done. eexists _, _. split; [reflexivity|vm_compute; discriminate].
  - rewrite Hsplit. apply (printed_short 6 u _ "ms"); [by vm_compute; repeat constructor|done|].
    split_and!; try done. by eexists _, _.
Qed.

(** The end of [ParseDuration] on a text without a sign. *)
Lemma printed_body text u (neg : bool) : printed text u ->
  (if String.eqb text "0" then Some 0 else if String.eqb text "" then None
   else match parseTerms (String.length text) 0 text with None => None | Some d => if neg then Some (i64 (- d)) else if maxInt64 <? d then None else Some d end)
  = if neg then Some (i64 (- u)) else if maxInt64 <? u then None else Some u.
Proof.
  intros (_ & Hl & Hp). rewrite Hp. destruct (String.eqb_spec text "0") as [-> |_]; [cbn in Hl; lia|]. destruct (String.eqb_spec text "") as [-> |_]; [cbn in Hl; lia|done].
Qed.
Lemma printed_parse text u : printed text u -> u <= maxInt64 -> ParseDuration text = Some u.
Proof.
  intros Hpr Hu. pose proof (printed_body text u false Hpr) as E. destruct Hpr as (Hn & Hl & _). unfold ParseDuration.
  destruct text as [|c rest]; [cbn in Hl; lia|]. cbn in Hn. assert ((code c =? 45) || (code c =? 43) = false) as ->.
  { unfold isNumberChar, is_digit in Hn. apply orb_false_iff. rewrite !Z.eqb_neq. apply orb_true_iff in Hn as [Hn%Z.eqb_eq|[Hn%Z.leb_le _]%andb_true_iff]; lia. }
  cbv iota. rewrite E. by rewrite (proj2 (Z.ltb_ge _ _)) by lia.
Qed.

(** What a duration prints reads back as the duration. *)
Theorem duration_text_roundtrip (d : Duration) : minInt64 <= d <= maxInt64 -> ParseDuration (Duration_String d) = Some d.
Proof.
  unfold minInt64, maxInt64. intros Hd. unfold Duration_String. cbv zeta. set (text := if Z.abs d <? Second then _ else _).
  assert (printed text (Z.abs d)) as Hp by (apply text_printed; unfold two63; lia). clearbody text.
  destruct (Z.ltb_spec d 0) as [Hneg|Hpos]; [|rewrite (printed_parse _ _ Hp) by (unfold maxInt64; lia); f_equal; lia].
  unfold ParseDuration. cbv beta iota. change ((code (byte 45) =? 45) || (code (byte 45) =? 43)) with true. change (code (byte 45) =? 45) with true.
  cbv iota. rewrite (printed_body _ _ true Hp). f_equal. unfold i64. replace (- Z.abs d) with d by lia. rewrite Z.mod_small by lia. lia.
Qed.

Lemma parsed_duration_bound s d : ParseDuration s = Some d -> d <= maxInt64.
Proof.
  unfold ParseDuration. destruct (match s with String _ _ => _ | EmptyString => _ end) as [neg body].
  destruct (String.eqb body "0"); [by intros [= <-]|]. destruct (String.eqb body ""); [done|].
  destruct (parseTerms _ _ _) as [v|]; [|done]. destruct neg; [intros [= <-]; apply i64_range|].
  destruct (Z.ltb_spec maxInt64 v); [done|]. by intros [= <-].
Qed.

(** A text that neither starts nor ends with white space. *)
Lemma TrimSpace_plain s c a d b :
  s = String c a -> s = b +:+ String d "" -> is_digit c = true -> 48 <= code d <= 122 -> TrimSpace s = s.
Proof.
  intros Ec Ed Hc Hd. apply TrimSpace_fixed, trim_list_fixed.
  assert (forall x, 48 <= code x <= 122 -> forall l, startsL (x :: l) = false /\ startsR (x :: l) = false) as Hx.
  { intros x Hx l. unfold startsL, startsR, starts, space1, space2, space3, byte_in, byte_is, code in *.
    assert (forall n, (n > 122)%N -> (N_of_ascii x =? n)%N = false) as H1 by (intros n Hn; apply N.eqb_neq; lia).
    assert ((9 <=? N_of_ascii x)%N && (N_of_ascii x <=? 13)%N = false) as -> by (apply andb_false_iff; right; apply N.leb_gt; lia).
    assert ((N_of_ascii x =? 32)%N = false) as -> by (apply N.eqb_neq; lia).
    assert ((128 <=? N_of_ascii x)%N = false) as E1 by (apply N.leb_gt; lia). assert ((168 <=? N_of_ascii x)%N = false) as E2 by (apply N.leb_gt; lia).
    destruct l as [|y [|z l]]; rewrite ?H1, ?E1, ?E2 by lia; cbn [andb orb]; rewrite ?andb_false_r, ?orb_false_r; by split. }
  assert (forall u v, String.list_ascii_of_string (u +:+ v) = String.list_ascii_of_string u ++ String.list_ascii_of_string v) as Happ.
  { intros u v. induction u as [|y u IH]; [done|]. rewrite sapp_cons. cbn. by rewrite IH. }
  split.
  - rewrite Ec. cbn [String.list_ascii_of_string]. apply Hx. unfold is_digit in Hc. apply andb_true_iff in Hc as [H1%Z.leb_le H2%Z.leb_le]. lia.
  - rewrite Ed, Happ, reverse_app. cbn. by apply Hx.
Qed.
