(* ===== verification/Rfc3339.v ===== *)
(** * Times as text (time.RFC3339)

    [t.Format(time.RFC3339)] for a time shown at an offset from UTC, as the plugin
    writes times into auth files, the status page and the log, and its round trip
    through [time.Parse]. *)

From S2P Require Import Prelude GoStrings Float64 Config Models Json Text FloatExact Durations Quota.
From Stdlib Require Import Ascii.
#[local] Open Scope string_scope.
#[local] Open Scope list_scope.
#[local] Open Scope Z_scope.
#[local] Open Scope go_scope.

(** ** Printing *)

Definition pad2 (v : Z) : string := String (digitChar (v / 10 mod 10)) (String (digitChar (v mod 10)) "").
Definition yearText (year : Z) : string :=
  let y := Z.abs year in
  let text := fmtInt y "" in
  (if year <? 0 then "-" else "") +:+ String.concat "" (repeat "0" (4 - String.length text)%nat) +:+ text.
(** The year and the day of the year, from the days since 0001-01-01. *)
Definition yearOf (day : Z) : Z * Z :=
  let n400 := day / 146097 in let d := day mod 146097 in
  let n100 := Z.min 3 (d / 36524) in let d := d - 36524 * n100 in
  let n4 := d / 1461 in let d := d - 1461 * n4 in
  let n1 := Z.min 3 (d / 365) in
  (400 * n400 + 100 * n100 + 4 * n4 + n1 + 1, d - 365 * n1).
Fixpoint monthOf (year month day : Z) (fuel : nat) : Z * Z :=
  match fuel with
  | O => (month, day)
  | S fuel => let n := daysIn month year in if day <? n then (month, day) else monthOf year (month + 1) (day - n) fuel
  end.
(** The offset of the zone, in seconds; what is below a minute is dropped. *)
Definition zoneText (offset : Z) : string :=
  if offset =? 0 then "Z"
  else let zone := Z.quot offset 60 in
       (if zone <? 0 then "-" else "+") +:+ pad2 (Z.abs zone / 60) +:+ ":" +:+ pad2 (Z.abs zone mod 60).

(** [t.Format(time.RFC3339)] in a zone with this offset: the fraction is dropped. *)
Definition FormatRFC3339In (offset : Z) (t : Time) : string :=
  let secs := t / Second + offset in
  let '(year, yday) := yearOf (secs / 86400) in
  let '(month, mday) := monthOf year 1 yday 11 in
  let s := secs mod 86400 in
  yearText year +:+ "-" +:+ pad2 month +:+ "-" +:+ pad2 (mday + 1) +:+ "T"
    +:+ pad2 (s / 3600) +:+ ":" +:+ pad2 (s / 60 mod 60) +:+ ":" +:+ pad2 (s mod 60) +:+ zoneText offset.
(** In UTC. *)
Definition FormatRFC3339 (t : Time) : string := FormatRFC3339In 0 t.

Example formatted_zones :
  (fun o => FormatRFC3339In o (unixTime 1709202605 + 250000000)) <$> [0; 7200; -12600]
  = ["2024-02-29T10:30:05Z"; "2024-02-29T12:30:05+02:00"; "2024-02-29T07:00:05-03:30"].
Proof. vm_compute. reflexivity. Qed.

(** ** The calendar *)

(** Dividing by the days of a cycle, of which at most [k + 1] fit. *)
Lemma cycle_spec d n k : 0 < n -> 0 <= k -> 0 <= d < n * (k + 1) + n ->
  0 <= Z.min k (d / n) <= k /\ 0 <= d - n * Z.min k (d / n) /\ (n <= d - n * Z.min k (d / n) -> Z.min k (d / n) = k /\ n * (k + 1) <= d).
Proof.
  intros Hn Hk Hd. pose proof (Z.div_mod d n ltac:(lia)) as E. pose proof (Z.mod_pos_bound d n Hn) as B.
  assert (0 <= d / n) by (apply Z.div_pos; lia). destruct (Z.le_ge_cases (d / n) k).
  - rewrite Z.min_r by done. lia.
  - rewrite Z.min_l by done. nia.
Qed.

Lemma yearOf_spec day : 0 <= day ->
  daysBeforeYear (yearOf day).1 + (yearOf day).2 = day /\ 1 <= (yearOf day).1
  /\ 0 <= (yearOf day).2 < 365 + (if isLeap (yearOf day).1 then 1 else 0).
Proof.
  intros H0. unfold yearOf. cbn [fst snd].
  pose proof (Z.div_mod day 146097 ltac:(lia)) as E1. pose proof (Z.mod_pos_bound day 146097 ltac:(lia)) as B1.
  assert (0 <= day / 146097) as A0 by (apply Z.div_pos; lia). set (a := day / 146097) in *. set (d := day mod 146097) in *. clearbody a d.
  destruct (cycle_spec d 36524 3 ltac:(lia) ltac:(lia) ltac:(lia)) as (Rb & Hd2 & Sb). set (b := Z.min 3 (d / 36524)) in *. set (d2 := d - 36524 * b) in *.
  assert (d = 36524 * b + d2) as Ed by lia. clearbody b d2.
  pose proof (Z.div_mod d2 1461 ltac:(lia)) as E3. pose proof (Z.mod_pos_bound d2 1461 ltac:(lia)) as B3.
  set (c := d2 / 1461) in *. replace (d2 - 1461 * c) with (d2 mod 1461) by lia. set (d3 := d2 mod 1461) in *. clearbody c d3.
  assert (0 <= c <= 24) as Rc by lia.
  destruct (cycle_spec d3 365 3 ltac:(lia) ltac:(lia) ltac:(lia)) as (Re & Hy & Se). set (e := Z.min 3 (d3 / 365)) in *. set (yday := d3 - 365 * e) in *.
  assert (d3 = 365 * e + yday) as Ed3 by lia. clearbody e yday.
  set (year := 400 * a + 100 * b + 4 * c + e + 1).
  assert (daysBeforeYear year + yday = day /\ 1 <= year) as [Eyear Eyr].
  { unfold daysBeforeYear. replace (year - 1) with (400 * a + 100 * b + 4 * c + e) by lia.
    assert ((400 * a + 100 * b + 4 * c + e) / 4 = 100 * a + 25 * b + c) as -> by (symmetry; apply (Z.div_unique _ _ _ e); lia).
    assert ((400 * a + 100 * b + 4 * c + e) / 100 = 4 * a + b) as -> by (symmetry; apply (Z.div_unique _ _ _ (4 * c + e)); lia).
    assert ((400 * a + 100 * b + 4 * c + e) / 400 = a) as -> by (symmetry; apply (Z.div_unique _ _ _ (100 * b + 4 * c + e)); lia). lia. }
  split; [done|]. split; [done|]. split; [lia|]. destruct (Z.lt_ge_cases yday 365) as [|Hge]; [destruct (isLeap year); lia|].
  destruct (Se ltac:(lia)) as [-> H1460]. assert (yday = 365) as -> by lia.
  assert (isLeap year = true) as ->; [|lia]. unfold isLeap. rewrite !Z.rem_mod_nonneg by lia.
  assert (year mod 4 = 0) as -> by (symmetry; apply (Z.mod_unique _ _ (100 * a + 25 * b + c + 1)); lia). cbn [Z.eqb andb].
  destruct (Z.eq_dec c 24) as [->|Hc].
  - assert (b = 3) as -> by lia. assert (year mod 400 = 0) as -> by (symmetry; apply (Z.mod_unique _ _ (a + 1)); lia). apply orb_true_r.
  - assert (year mod 100 = 4 * c + 4) as -> by (symmetry; apply (Z.mod_unique _ _ (4 * a + b)); lia).
    rewrite (proj2 (Z.eqb_neq _ _)) by lia. done.
Qed.

Lemma yearOf_bound day : 0 <= day < daysBeforeYear 10000 -> (yearOf day).1 < 10000.
Proof.
  intros [H0 Hd]. destruct (yearOf_spec day H0) as (Y1 & Y2 & Y3). set (year := (yearOf day).1) in *. clearbody year.
  destruct (Z.lt_ge_cases year 10000) as [|Hge]; [done|]. exfalso. unfold daysBeforeYear in *.
  assert ((10000 - 1) / 4 <= (year - 1) / 4) by (apply Z.div_le_mono; lia).
  pose proof (Z.div_mod (year - 1) 100 ltac:(lia)). pose proof (Z.mod_pos_bound (year - 1) 100 ltac:(lia)).
  pose proof (Z.div_mod (year - 1) 400 ltac:(lia)). pose proof (Z.mod_pos_bound (year - 1) 400 ltac:(lia)).
  change ((10000 - 1) / 4) with 2499 in *. change ((10000 - 1) / 100) with 99 in *. change ((10000 - 1) / 400) with 24 in *. lia.
Qed.

(** Cases on a month. *)
Lemma month_cases (P : Z -> Prop) : Forall P [1; 2; 3; 4; 5; 6; 7; 8; 9; 10; 11; 12] -> forall m, 1 <= m <= 12 -> P m.
Proof.
  intros HF m Hm. rewrite Forall_forall in HF. apply HF.
  assert (m = 1 \/ m = 2 \/ m = 3 \/ m = 4 \/ m = 5 \/ m = 6 \/ m = 7 \/ m = 8 \/ m = 9 \/ m = 10 \/ m = 11 \/ m = 12) as Hc by lia.
  repeat destruct Hc as [->|Hc]; [..|subst m]; repeat (first [by left|right]).
Qed.

Lemma daysBeforeMonth_next m year : 1 <= m <= 11 -> daysBeforeMonth (m + 1) year = daysBeforeMonth m year + daysIn m year.
Proof.
  intros Hm. apply (month_cases (fun m => m <= 11 -> daysBeforeMonth (m + 1) year = daysBeforeMonth m year + daysIn m year)); [|lia..].
  repeat constructor; intros Hle; try (unfold daysBeforeMonth, daysIn; cbn; destruct (isLeap year); reflexivity). lia.
Qed.

Lemma year_length year : daysBeforeMonth 12 year + daysIn 12 year = 365 + (if isLeap year then 1 else 0).
Proof. unfold daysBeforeMonth, daysIn. cbn. by destruct (isLeap year). Qed.

Lemma monthOf_spec year fuel : forall month day, month + Z.of_nat fuel = 12 -> 1 <= month -> 0 <= day ->
  daysBeforeMonth month year + day < 365 + (if isLeap year then 1 else 0) ->
  let '(m, d) := monthOf year month day fuel in
  month <= m <= 12 /\ 0 <= d < daysIn m year /\ daysBeforeMonth m year + d = daysBeforeMonth month year + day.
Proof.
  induction fuel as [|fuel IH]; intros month day Hf Hm Hd Hl; cbn [monthOf].
  - assert (month = 12) as -> by lia. pose proof (year_length year). lia.
  - destruct (Z.ltb_spec day (daysIn month year)) as [Hlt|Hge]; [lia|].
    pose proof (daysBeforeMonth_next month year ltac:(lia)) as En.
    specialize (IH (month + 1) (day - daysIn month year) ltac:(lia) ltac:(lia) ltac:(lia) ltac:(lia)).
    destruct (monthOf _ _ _ _) as [m d]. lia.
Qed.

(** ** Digits *)

Lemma digitChar_code d : 0 <= d < 10 -> code (digitChar d) = 48 + d.
Proof. intros H. unfold digitChar. apply code_byte. lia. Qed.
Lemma digitChar_digit d : 0 <= d < 10 -> is_digit (digitChar d) = true.
Proof. intros H. unfold is_digit. rewrite digitChar_code by done. lia. Qed.
Lemma fixedDigits_step n acc d rest : 0 <= d < 10 -> fixedDigits (S n) acc (String (digitChar d) rest) = fixedDigits n (acc * 10 + d) rest.
Proof. intros H. cbn [fixedDigits]. rewrite digitChar_digit, digitChar_code by done. f_equal. lia. Qed.

Lemma fixedDigits_pad2 v rest : 0 <= v < 100 -> fixedDigits 2 0 (pad2 v +:+ rest) = Some (v, rest).
Proof.
  intros H. unfold pad2. rewrite !sapp_cons, sapp_empty. pose proof (Z.div_mod v 10 ltac:(lia)). pose proof (Z.mod_pos_bound v 10 ltac:(lia)).
  assert (0 <= v / 10 < 10) by (split; [apply Z.div_pos; lia|apply Z.div_lt_upper_bound; lia]). rewrite (Z.mod_small (v / 10)) by done.
  rewrite !fixedDigits_step by done. cbn [fixedDigits]. do 2 f_equal. lia.
Qed.

Definition fourDigits (y : Z) : string :=
  String (digitChar (y / 1000 mod 10)) (String (digitChar (y / 100 mod 10)) (String (digitChar (y / 10 mod 10)) (String (digitChar (y mod 10)) ""))).
Lemma yearText_four y : 0 <= y < 10000 -> yearText y = fourDigits y.
Proof.
  intros H. assert (forallb (fun n => String.eqb (yearText (Z.of_nat n)) (fourDigits (Z.of_nat n))) (seq 0 (Z.to_nat 10000)) = true) as HF by (vm_compute; reflexivity).
  rewrite forallb_forall in HF. specialize (HF (Z.to_nat y)). rewrite Z2Nat.id in HF by lia. apply String.eqb_eq, HF, in_seq. lia.
Qed.
Lemma fixedDigits_year y rest : 0 <= y < 10000 -> fixedDigits 4 0 (yearText y +:+ rest) = Some (y, rest).
Proof.
  intros H. rewrite yearText_four by done. unfold fourDigits. rewrite !sapp_cons, sapp_empty.
  rewrite !fixedDigits_step by (apply Z.mod_pos_bound; lia). cbn [fixedDigits]. do 2 f_equal.
  replace (y / 1000) with (y / 10 / 10 / 10) by (rewrite !Z.div_div by lia; done). replace (y / 100) with (y / 10 / 10) by (rewrite Z.div_div by lia; done).
  pose proof (Z.div_mod y 10 ltac:(lia)). pose proof (Z.div_mod (y / 10) 10 ltac:(lia)). pose proof (Z.div_mod (y / 10 / 10) 10 ltac:(lia)).
  assert (0 <= y / 10 / 10 / 10 < 10) by (rewrite !Z.div_div by lia; split; [apply Z.div_pos; lia|apply Z.div_lt_upper_bound; lia]).
  rewrite (Z.mod_small (y / 10 / 10 / 10)) by done. lia.
Qed.

(** ** The round trip *)

(** An offset the text can carry: whole minutes within a day. *)
Definition minuteZone (offset : Z) : Prop := -86400 < offset < 86400 /\ Z.rem offset 60 = 0.

Lemma zoneOffset_text offset : minuteZone offset -> zoneOffset (zoneText offset) = Some offset.
Proof.
  intros [Hr Hm]. unfold zoneText. destruct (Z.eqb_spec offset 0) as [->|Hne]; [done|]. cbv zeta.
  pose proof (Z.quot_rem offset 60 ltac:(lia)) as Eq. rewrite Hm in Eq. set (zone := Z.quot offset 60) in *. clearbody zone.
  pose proof (Z.div_mod (Z.abs zone) 60 ltac:(lia)) as Ed. pose proof (Z.mod_pos_bound (Z.abs zone) 60 ltac:(lia)) as Bm.
  assert (0 <= Z.abs zone / 60 < 24) as Bd by (split; [apply Z.div_pos; lia|apply Z.div_lt_upper_bound; lia]).
  assert (forall c s, (code c =? 43) || (code c =? 45) = true -> zoneOffset (String c s)
    = fixedDigits 2 0 s ≫= fun '(hr, rest) => literal ":" rest ≫= fun rest => fixedDigits 2 0 rest ≫= fun '(mm, rest) =>
      if negb (String.eqb rest "") || (24 <? hr) || (60 <? mm) then None else Some ((if code c =? 45 then -1 else 1) * (hr * 60 + mm) * 60)) as Hz.
  { intros c s Hc. unfold zoneOffset. rewrite Hc. destruct (String.eqb_spec (String c s) "Z") as [[= -> _]|_]; [by vm_compute in Hc|done]. }
  assert (forall c, (code c =? 43) || (code c =? 45) = true ->
    zoneOffset (String c "" +:+ pad2 (Z.abs zone / 60) +:+ ":" +:+ pad2 (Z.abs zone mod 60)) = Some ((if code c =? 45 then -1 else 1) * Z.abs zone * 60)) as Hs.
  { intros c Hc. rewrite sapp_cons, sapp_empty, Hz by done. rewrite fixedDigits_pad2 by lia. cbn [mbind option_bind]. rewrite sapp_cons, sapp_empty.
    cbn [literal Ascii.eqb Bool.eqb mbind option_bind]. rewrite <- (sapp_nil (pad2 (Z.abs zone mod 60))), fixedDigits_pad2 by lia. cbn [mbind option_bind].
    rewrite (proj2 (Z.ltb_ge _ _)), (proj2 (Z.ltb_ge _ _)) by lia. cbn [String.eqb negb orb]. f_equal. destruct (code c =? 45); lia. }
  destruct (Z.ltb_spec zone 0); rewrite Hs by reflexivity; f_equal.
  - change (code "-" =? 45) with true. cbn iota. lia.
  - change (code "+" =? 45) with false. cbn iota. lia.
Qed.

Lemma zoneText_head offset : exists c s, zoneText offset = String c s /\ (code c =? 46) || (code c =? 44) = false /\ 43 <= code c.
Proof.
  unfold zoneText. destruct (offset =? 0); [by exists "Z"%char, ""|]. cbv zeta.
  destruct (_ <? 0); rewrite sapp_cons; eexists _, _; (split; [reflexivity|]); by vm_compute.
Qed.
Lemma fractionDigits_zone offset : fractionDigits (zoneText offset) = (0, zoneText offset).
Proof.
  destruct (zoneText_head offset) as (c & s & -> & Hc & _). unfold fractionDigits. destruct s; [done|]. by rewrite Hc.
Qed.

(** The local years 1 to 9999, which have four digits. *)
Definition fourDigitYear (offset : Z) (t : Time) : Prop := 0 <= t / Second + offset < daysBeforeYear 10000 * 86400.

Lemma parse_fields offset y mo d h mi s :
  0 <= y < 10000 -> 1 <= mo <= 12 -> 1 <= d <= daysIn mo y -> 0 <= h < 24 -> 0 <= mi < 60 -> 0 <= s < 60 -> minuteZone offset ->
  parseRFC3339 (yearText y +:+ "-" +:+ pad2 mo +:+ "-" +:+ pad2 d +:+ "T" +:+ pad2 h +:+ ":" +:+ pad2 mi +:+ ":" +:+ pad2 s +:+ zoneText offset)
  = Some (((daysBeforeYear y + daysBeforeMonth mo y + (d - 1)) * 86400 + h * 3600 + mi * 60 + s - offset) * Second).
Proof.
  intros Hy Hmo Hd Hh Hmi Hs Hz. assert (daysIn mo y <= 31) as Hdi by (unfold daysIn; repeat (destruct (_ : bool)); lia).
  unfold parseRFC3339, hourDigits. rewrite fixedDigits_year by lia.
  repeat first [rewrite fixedDigits_pad2 by lia | progress cbn [mbind option_bind] | rewrite sapp_cons, sapp_empty; cbn [literal Ascii.eqb Bool.eqb]].
  rewrite fractionDigits_zone. cbv iota. rewrite zoneOffset_text by done. cbn [mbind option_bind].
  repeat (rewrite (proj2 (Z.ltb_ge _ _)) by lia). cbn [orb]. f_equal. lia.
Qed.

(** What is parsed back is the time, without its fraction of a second. *)
Lemma RFC3339_roundtrip offset t : minuteZone offset -> fourDigitYear offset t ->
  parseRFC3339 (FormatRFC3339In offset t) = Some (t - t mod Second).
Proof.
  intros Hz [H0 H1]. unfold FormatRFC3339In. set (secs := t / Second + offset) in *.
  pose proof (Z.div_mod secs 86400 ltac:(lia)) as Es. pose proof (Z.mod_pos_bound secs 86400 ltac:(lia)) as Bs.
  assert (0 <= secs / 86400 < daysBeforeYear 10000) as Bd by (split; [apply Z.div_pos; lia|apply Z.div_lt_upper_bound; lia]).
  destruct (yearOf_spec (secs / 86400) (proj1 Bd)) as (Y1 & Y2 & Y3). pose proof (yearOf_bound _ Bd) as Y4. destruct (yearOf (secs / 86400)) as [year yday]. cbn [fst snd] in *.
  pose proof (monthOf_spec year 11 1 yday eq_refl ltac:(lia) ltac:(lia) ltac:(change (daysBeforeMonth 1 year) with 0; lia)) as HM.
  destruct (monthOf year 1 yday 11) as [month mday]. destruct HM as (M1 & M2 & M3). change (daysBeforeMonth 1 year) with 0 in M3.
  set (s := secs mod 86400) in *.
  pose proof (Z.div_mod s 3600 ltac:(lia)) as E1. pose proof (Z.div_mod (s / 60) 60 ltac:(lia)) as E2. pose proof (Z.div_mod s 60 ltac:(lia)) as E3.
  assert (s / 60 / 60 = s / 3600) as E4 by (rewrite Z.div_div by lia; done).
  pose proof (Z.mod_pos_bound s 60 ltac:(lia)). pose proof (Z.mod_pos_bound (s / 60) 60 ltac:(lia)).
  assert (0 <= s / 3600 < 24) by (split; [apply Z.div_pos; lia|apply Z.div_lt_upper_bound; lia]).
  rewrite parse_fields by (done || lia). f_equal. pose proof (Z.div_mod t Second ltac:(unfold Second; lia)) as Et.
  replace ((daysBeforeYear year + daysBeforeMonth month year + (mday + 1 - 1)) * 86400 + s / 3600 * 3600 + s / 60 mod 60 * 60 + s mod 60 - offset)
    with (t / Second) by lia. lia.
Qed.

(** Its text has no white space around it. *)
Definition endsPlain (s : string) : Prop := exists b d, s = b +:+ String d "" /\ 48 <= code d <= 122.
Lemma endsPlain_app a s : endsPlain s -> endsPlain (a +:+ s).
Proof. intros (b & d & -> & Hd). exists (a +:+ b), d. by rewrite sapp_assoc. Qed.

Lemma zoneText_ends offset : endsPlain (zoneText offset).
Proof.
  unfold zoneText. destruct (offset =? 0); [exists "", "Z"%char; by vm_compute|]. cbv zeta. do 3 apply endsPlain_app. unfold pad2.
  eexists (String _ ""), _. split; [reflexivity|]. rewrite digitChar_code by (apply Z.mod_pos_bound; lia).
  pose proof (Z.mod_pos_bound (Z.abs (Z.quot offset 60) mod 60) 10 ltac:(lia)). lia.
Qed.

Lemma RFC3339_trimmed offset t : fourDigitYear offset t ->
  TrimSpace (FormatRFC3339In offset t) = FormatRFC3339In offset t /\ FormatRFC3339In offset t <> "".
Proof.
  intros [H0 H1]. unfold FormatRFC3339In. set (secs := t / Second + offset) in *.
  assert (0 <= secs / 86400 < daysBeforeYear 10000) as Bd by (split; [apply Z.div_pos; lia|apply Z.div_lt_upper_bound; lia]).
  destruct (yearOf_spec (secs / 86400) (proj1 Bd)) as (_ & Y2 & _). pose proof (yearOf_bound _ Bd) as Y4.
  destruct (yearOf (secs / 86400)) as [year yday]. cbn [fst snd] in *. destruct (monthOf year 1 yday 11) as [month mday].
  rewrite yearText_four by lia. unfold fourDigits. set (rest := "-" +:+ _).
  assert (endsPlain (String (digitChar (year / 1000 mod 10)) (String (digitChar (year / 100 mod 10)) (String (digitChar (year / 10 mod 10))
    (String (digitChar (year mod 10)) ""))) +:+ rest)) as (b & d & Eb & Hd).
  { apply endsPlain_app. subst rest. do 10 apply endsPlain_app. apply zoneText_ends. }
  split; [|by rewrite sapp_cons]. eapply TrimSpace_plain; [rewrite sapp_cons; reflexivity|exact Eb| |exact Hd].
  apply digitChar_digit, Z.mod_pos_bound. lia.
Qed.
