(* ===== verification/Usage.v ===== *)
(** * Usage feedback and observed quota (usage.go, stream_observer.go,
    request_complete.go)

    A usage record that reports a usage limit marks its account exhausted until
    the reset the body names; a successful one feeds the circuit breaker.  The
    stream observer picks rate-limit events out of the chunks of a response and
    files their windows.

    [json.Unmarshal] into a struct matches keys without regard to case and takes
    later duplicates over earlier ones; [null] leaves a string as it is and
    clears a pointer.  The quota read from response headers is an argument
    ([Headers] reads it), and so is the time of the clock. *)

From S2P Require Import Prelude GoStrings Float64 RetryChain Config Models Circuit Availability Annotations State Json Text Quota Managed.
From Stdlib Require Import Ascii.
#[local] Open Scope string_scope.
#[local] Open Scope list_scope.
#[local] Open Scope Z_scope.
#[local] Open Scope go_scope.

(** ** Decoding into structs *)

(** Each value of a field in turn; [None] is a value of the wrong type. *)
Definition decodeField {A} (name : string) (step : A -> json -> option A) (init : A) (fs : fields) : option A :=
  foldl (fun acc kv => acc ≫= fun a => if FoldsTo kv.1 name then step a kv.2 else Some a) (Some init) fs.

Definition stringStep (s : string) (v : json) : option string :=
  match v with JString t => Some t | JNull => Some s | _ => None end.
Definition rawStep (_ : option json) (v : json) : option (option json) := Some (Some v).
(** A pointer to a struct: further objects are decoded into the same struct. *)
Definition structStep (p : option fields) (v : json) : option (option fields) :=
  match v with JObject fs => Some (Some (default [] p ++ fs)) | JNull => Some None | _ => None end.
Definition floatStep (_ : option float64) (v : json) : option (option float64) :=
  match v with JNumber lit => Some <$> ParseFloat lit | JNull => Some None | _ => None end.
Definition boolStep (_ : option bool) (v : json) : option (option bool) :=
  match v with JBool b => Some (Some b) | JNull => Some None | _ => None end.

(** ** Usage limits *)

Definition usageLimitReachedReason : string := "usage_limit_reached".
Definition usageLimitNoResetReason : string := "usage_limit_reached_no_reset".

Record quotaFailureDetails := mkDetails { fd_Type : string; fd_ResetsAt : option json; fd_ResetsInSeconds : option json }.
Record quotaFailureBody := mkBody { fb_details : quotaFailureDetails; fb_Error : option quotaFailureDetails }.

Definition decodeDetails (fs : fields) : option quotaFailureDetails :=
  decodeField "type" stringStep "" fs ≫= fun t =>
  decodeField "resets_at" rawStep None fs ≫= fun at_ =>
  decodeField "resets_in_seconds" rawStep None fs ≫= fun seconds => Some (mkDetails t at_ seconds).
Definition decodeBody (raw : string) : option quotaFailureBody :=
  parse raw ≫= fun v =>
  match v with
  | JObject fs =>
      decodeDetails fs ≫= fun details =>
      decodeField "error" structStep None fs ≫= fun e =>
      match e with
      | None => Some (mkBody details None)
      | Some es => decodeDetails es ≫= fun inner => Some (mkBody details (Some inner))
      end
  | JNull => Some (mkBody (mkDetails "" None None) None)
  | _ => None
  end.

Definition equalUsageFailureType (got want : string) : bool := FoldsTo (TrimSpace got) want.
Definition isUsageLimitReached (body : quotaFailureBody) : bool :=
  equalUsageFailureType (fd_Type (fb_details body)) usageLimitReachedReason
  || match fb_Error body with Some e => equalUsageFailureType (fd_Type e) usageLimitReachedReason | None => false end.

Definition parseJSONScalar (raw : option json) : option string :=
  match raw with
  | Some (JString s) => let text := TrimSpace s in if String.eqb text "" then None else Some text
  | Some (JNumber lit) => Some lit
  | _ => None
  end.
Definition parseResetAt (raw : option json) : option Time :=
  parseJSONScalar raw ≫= fun value =>
  match parseRFC3339 value with
  | Some t => Some t
  | None => unixTime <$> ParseInt value
  end.
Definition parseResetSeconds (raw : option json) : option Duration :=
  parseJSONScalar raw ≫= fun value => (fun seconds => i64 (seconds * Second)) <$> ParseInt value.

Definition detailsReset (d : quotaFailureDetails) (now : Time) : option Time :=
  match parseResetAt (fd_ResetsAt d) with
  | Some t => Some t
  | None => Add now <$> parseResetSeconds (fd_ResetsInSeconds d)
  end.
Definition quotaFailureResetAt (body : quotaFailureBody) (now : Time) : option Time :=
  match fb_Error body ≫= fun e => detailsReset e now with
  | Some t => Some t
  | None => detailsReset (fb_details body) now
  end.

Record UsageRecord := mkUsage {
  ur_Provider : string; ur_AuthID : string; ur_AuthIndex : string; ur_Failed : bool; ur_StatusCode : Z; ur_Body : string }.

Definition DetectQuotaFailure (record : UsageRecord) (now : Time) : option QuotaFailureEvent :=
  if negb (String.eqb (ur_Provider record) "codex") || negb (ur_Failed record) || negb (ur_StatusCode record =? 429) then None
  else
    decodeBody (ur_Body record) ≫= fun body =>
    if negb (isUsageLimitReached body) then None
    else Some (match quotaFailureResetAt body now with
               | Some resetAt => mkFailureEvent (ur_AuthID record) (ur_AuthIndex record) resetAt usageLimitReachedReason
               | None => mkFailureEvent (ur_AuthID record) (ur_AuthIndex record) (Add now (2 * Minute)) usageLimitNoResetReason
               end).

Section feedback.
Context `{MapRange}.

Definition recordMatches (record : UsageRecord) (account : AccountState) : bool :=
  if negb (String.eqb (ur_AuthID record) "") then String.eqb (a_AuthID account) (ur_AuthID record)
  else if negb (String.eqb (ur_AuthIndex record) "") then String.eqb (a_AuthIndex account) (ur_AuthIndex record)
  else true.
Definition shouldRecordCircuitSuccess (s : PluginState) (record : UsageRecord) (now : Time) : bool * bool :=
  match List.find (recordMatches record) (ss_Accounts (Snapshot s now)) with
  | None => (false, false)
  | Some account =>
      let circuit := effectiveCircuitState (a_Circuit account) now in
      (negb (bool_decide (cb_EffectiveState circuit = CircuitStateClosed)) || (0 <? cb_FailureCount circuit) || (0 <? cb_SuccessCount circuit)
       || a_TemporaryExhausted account, a_TemporaryExhausted account)
  end.

Definition applyObservedCodexHeaders (s : PluginState) (record : UsageRecord) (headers : option ParsedQuota) (clock now : Time) : PluginState :=
  match headers with
  | Some quota => (ObserveAccountQuota s (ur_AuthID record) (ur_AuthIndex record) quota clock now).1
  | None => s
  end.

Definition circuitText (c : CircuitState) : string :=
  match c with CircuitStateNone => "" | CircuitStateClosed => "closed" | CircuitStateOpen => "open" | CircuitStateHalfOpen => "half_open" end.

(** The fields of the log entries hold the reset time itself for its text. *)
Definition recordSuccess (s : PluginState) (record : UsageRecord) (clock now : Time) : PluginState :=
  let '(wanted, temporaryActive) := shouldRecordCircuitSuccess s record now in
  if negb wanted then s
  else
    match RecordAccountSuccess s (ur_AuthID record) (ur_AuthIndex record) now with
    | (s, None) => s
    | (s, Some account) =>
        let log := {["auth_id" := AnyString (a_AuthID account); "auth_index" := AnyString (a_AuthIndex account);
                     "circuit_state" := AnyString (circuitText (cb_EffectiveState (a_Circuit account)));
                     "success_count" := AnyInt (cb_SuccessCount (a_Circuit account));
                     "failure_count" := AnyInt (cb_FailureCount (a_Circuit account))]} in
        let log := if temporaryActive then <["temporary_exhausted_cleared" := AnyBool true]> log else log in
        RecordLog s "info" "circuit.success" "账号请求成功，熔断状态已更新" log clock now
    end.

Definition HandleUsageFeedback (s : PluginState) (record : UsageRecord) (headers : option ParsedQuota) (clock now : Time) : PluginState :=
  if negb (EnableUsageFeedback (st_cfg s)) then s
  else if String.eqb (ur_Provider record) "codex" && negb (ur_Failed record) then
    recordSuccess (applyObservedCodexHeaders s record headers clock now) record clock now
  else
    match DetectQuotaFailure record now with
    | None => s
    | Some event =>
        let s := if negb (String.eqb (qf_AuthID event) "")
                 then MarkAccountTemporaryExhausted s (qf_AuthID event) (qf_ResetAt event) (qf_Reason event)
                 else MarkAccountTemporaryExhaustedByAuthIndex s (qf_AuthIndex event) (qf_ResetAt event) (qf_Reason event) in
        RecordLog s "warn" "quota.temporary_exhausted" "账号额度已用尽，等待重置"
          {["auth_id" := AnyString (qf_AuthID event); "auth_index" := AnyString (qf_AuthIndex event);
            "reason" := AnyString (qf_Reason event); "reset_at" := AnyInt (qf_ResetAt event)]} clock now
    end.
End feedback.

Example detect_limit :
  DetectQuotaFailure (mkUsage "codex" "a" "1" true 429 (js "{'error':{'type':'Usage_Limit_Reached','resets_in_seconds':90}}")) Hour
  = Some (mkFailureEvent "a" "1" (Hour + 90 * Second) usageLimitReachedReason).
Proof. vm_compute. reflexivity. Qed.

(** ** Markers come from usage limits *)

(** The marked accounts of [s'] were marked in [s] or satisfy [P]. *)
Definition marked_from (s s' : PluginState) (P : AccountState -> Prop) : Prop :=
  forall key a', st_accounts s' !! key = Some a' -> a_TemporaryExhausted a' = true ->
  (exists a, st_accounts s !! key = Some a /\ a_TemporaryExhausted a = true) \/ P a'.

Lemma marked_same s s' P : st_accounts s' = st_accounts s -> marked_from s s' P.
Proof. intros E key a' Ha M. left. exists a'. by rewrite <- E. Qed.
Lemma marked_put s k x P :
  (a_TemporaryExhausted x = true -> (exists a, st_accounts s !! k = Some a /\ a_TemporaryExhausted a = true) \/ P x) ->
  marked_from s (putAccount s k x) P.
Proof. intros H key a' [[<- ->]|Ha]%put_lookup M; [by apply H|left; by exists a']. Qed.
Section marks.
Context `{MapRange}.

Lemma findAccount_found s id i k a : findAccountLocked s id i = Some (k, a) -> st_accounts s !! k = Some a.
Proof. apply findAccount_stored. Qed.

Lemma observe_marks s id i q clock now : marked_from s (ObserveAccountQuota s id i q clock now).1 (fun _ => False).
Proof.
  unfold ObserveAccountQuota. destruct (_ && _); [by apply marked_same|].
  destruct (findAccountLocked s id i) as [[k a]|] eqn:F; [|by apply marked_same]. apply marked_put.
  rewrite reconcile_marker, observed_marker. intros [M _]%andb_true_iff. left. exists a. split; [by apply findAccount_found in F|done].
Qed.

Lemma success_marks s id i now : marked_from s (RecordAccountSuccess s id i now).1 (fun _ => False).
Proof.
  unfold RecordAccountSuccess. destruct (_ && _); [by apply marked_same|].
  destruct (findAccountLocked s id i) as [[k a]|] eqn:F; [|by apply marked_same]. apply marked_put.
  rewrite success_keeps_marker. done.
Qed.

Lemma recordSuccess_marks s record clock now : marked_from s (recordSuccess s record clock now) (fun _ => False).
Proof.
  unfold recordSuccess. destruct (shouldRecordCircuitSuccess s record now) as [[] temporary]; [|by apply marked_same]. cbn [negb].
  pose proof (success_marks s (ur_AuthID record) (ur_AuthIndex record) now) as S.
  destruct (RecordAccountSuccess s _ _ now) as [s1 [account|]]; [|done]. exact S.
Qed.

(** Usage feedback marks an account exhausted only for a failed codex request
    that was answered with status 429 and a body that names the usage limit, and
    then with the reset time of that body, or two minutes ahead if it names
    none; no other record adds a mark. *)
Theorem feedback_marks_usage_limits s record headers clock now :
  marked_from s (HandleUsageFeedback s record headers clock now)
    (fun a => exists body, ur_Provider record = "codex" /\ ur_Failed record = true /\ ur_StatusCode record = 429
                           /\ decodeBody (ur_Body record) = Some body /\ isUsageLimitReached body = true
                           /\ a_TemporaryResetAt a = default (Add now (2 * Minute)) (quotaFailureResetAt body now)).
Proof.
  unfold HandleUsageFeedback. destruct (EnableUsageFeedback (st_cfg s)); [|by apply marked_same]. cbn [negb].
  destruct (_ && negb (ur_Failed record)).
  { intros key a' Ha M. destruct (recordSuccess_marks _ _ _ _ key a' Ha M) as [(a & Hs & Ma)|[]].
    unfold applyObservedCodexHeaders in Hs. destruct headers as [q|]; [|left; by exists a].
    destruct (observe_marks _ _ _ _ _ _ key a Hs Ma) as [L|[]]. by left. }
  destruct (DetectQuotaFailure record now) as [event|] eqn:D; [|by apply marked_same].
  unfold DetectQuotaFailure in D. destruct (negb (String.eqb _ _) || _ || _) eqn:G; [done|].
  apply orb_false_iff in G as [[G1 G2]%orb_false_iff G3]. apply negb_false_iff in G1, G2, G3.
  apply String.eqb_eq in G1. apply Z.eqb_eq in G3. apply bind_Some in D as (body & Db & D).
  destruct (isUsageLimitReached body) eqn:U; [|done]. cbn [negb] in D. injection D as <-.
  set (event := match quotaFailureResetAt body now with Some _ => _ | None => _ end).
  assert (qf_ResetAt event = default (Add now (2 * Minute)) (quotaFailureResetAt body now)) as R by (unfold event; by destruct (quotaFailureResetAt body now)).
  assert (forall a, a_TemporaryResetAt a = qf_ResetAt event -> exists body, ur_Provider record = "codex" /\ ur_Failed record = true /\ ur_StatusCode record = 429
            /\ decodeBody (ur_Body record) = Some body /\ isUsageLimitReached body = true
            /\ a_TemporaryResetAt a = default (Add now (2 * Minute)) (quotaFailureResetAt body now)) as Q by (intros a Ea; exists body; split_and!; congruence).
  clearbody event. destruct (negb _).
  - unfold MarkAccountTemporaryExhausted. destruct (String.eqb _ _); [by apply marked_same|].
    apply (marked_put s (authKey (qf_AuthID event)) (markTemporaryExhausted _ (qf_ResetAt event) (qf_Reason event))). intros _. right. by apply Q.
  - unfold MarkAccountTemporaryExhaustedByAuthIndex. destruct (String.eqb _ _); [by apply marked_same|].
    destruct (findByIndex s _) as [[k a]|]; [|by apply marked_same].
    apply (marked_put s k (markTemporaryExhausted _ (qf_ResetAt event) (qf_Reason event))). intros _. right. by apply Q.
Qed.
End marks.

Definition example_limit : UsageRecord := mkUsage "codex" "a" "1" true 429 (js "{'error':{'type':'usage_limit_reached','resets_in_seconds':90}}").
Definition example_fed : PluginState := HandleUsageFeedback (NewPluginState DefaultConfig) example_limit None Hour Hour.

Lemma feedback_marks_usage_limits_witness :
  exists a', st_accounts example_fed !! "auth:a" = Some a' /\ a_TemporaryExhausted a' = true
             /\ exists body, decodeBody (ur_Body example_limit) = Some body /\ isUsageLimitReached body = true.
Proof.
  destruct (st_accounts example_fed !! "auth:a") as [a'|] eqn:E; [|vm_compute in E; discriminate E].
  assert (a_TemporaryExhausted <$> st_accounts example_fed !! "auth:a" = Some true) as M by (vm_compute; reflexivity).
  rewrite E in M. injection M as M. exists a'. split; [reflexivity|split; [exact M|]].
  destruct (feedback_marks_usage_limits (NewPluginState DefaultConfig) example_limit None Hour Hour "auth:a" a' E M) as [(a & Ha & _)|(body & _ & _ & _ & D & U & _)].
  - vm_compute in Ha. discriminate Ha.
  - exists body. split; [exact D|exact U].
Defined.

(** ** The stream observer *)

Definition rateLimitsEventMarker : string := "codex.rate_limits".
Definition maxObserverBufferBytes : Z := Z.shiftl 1 20.

Definition frameLooksLikeRateLimits (frame : string) : bool := Contains (String.substring 0 256 frame) rateLimitsEventMarker.

(** The first data line of a frame. *)
Fixpoint firstData (ls : list string) : string :=
  match ls with
  | [] => ""
  | l :: ls => let trimmed := TrimSpace l in
               if HasPrefix trimmed "data:" then TrimSpace (sdrop 5 trimmed) else firstData ls
  end.
Definition sseEventData (frame : string) : string := firstData (lines frame).

(** The frames of the buffer that look like rate limits, and what is left. *)
Fixpoint observe_loop (fuel : nat) (buffer : string) : list string * string :=
  match fuel with
  | O => ([], buffer)
  | S fuel =>
      match cut blankLine buffer with
      | None => ([], buffer)
      | Some (frame, rest) =>
          let '(seen, left_) := observe_loop fuel rest in
          (if frameLooksLikeRateLimits frame then frame :: seen else seen, left_)
      end
  end.
Definition observer_absorb (buffer chunk : string) : list string * string :=
  let buffer := if String.eqb chunk "" then buffer
                else if maxObserverBufferBytes <? Z.of_nat (String.length buffer + String.length chunk) then chunk
                else buffer +:+ chunk in
  let '(seen, buffer) := observe_loop (S (String.length buffer)) buffer in
  let marker := String.length rateLimitsEventMarker in
  (seen, if negb (Contains buffer rateLimitsEventMarker) && Nat.ltb marker (String.length buffer)
         then sdrop (String.length buffer - marker) buffer else buffer).

(** The windows of an event. *)
Record codexRateLimitWindow := mkLimitWindow {
  lw_UsedPercent : option float64; lw_WindowMinutes : option float64; lw_ResetAfterSeconds : option float64; lw_ResetAt : option float64 }.
Record codexRateLimitsPayload := mkLimits {
  rl_Allowed : option bool; rl_LimitReached : option bool; rl_Primary : option codexRateLimitWindow; rl_Secondary : option codexRateLimitWindow }.

Definition decodeLimitWindow (fs : option fields) : option (option codexRateLimitWindow) :=
  match fs with
  | None => Some None
  | Some fs =>
      decodeField "used_percent" floatStep None fs ≫= fun used =>
      decodeField "window_minutes" floatStep None fs ≫= fun minutes =>
      decodeField "reset_after_seconds" floatStep None fs ≫= fun after =>
      decodeField "reset_at" floatStep None fs ≫= fun at_ => Some (Some (mkLimitWindow used minutes after at_))
  end.
Definition decodeEvent (raw : string) : option codexRateLimitsPayload :=
  parse raw ≫= fun v =>
  match v with
  | JObject fs =>
      decodeField "rate_limits" structStep None fs ≫= fun limits =>
      limits ≫= fun fs =>
      decodeField "allowed" boolStep None fs ≫= fun allowed =>
      decodeField "limit_reached" boolStep None fs ≫= fun reached =>
      decodeField "primary" structStep None fs ≫= fun p => decodeLimitWindow p ≫= fun primary =>
      decodeField "secondary" structStep None fs ≫= fun q => decodeLimitWindow q ≫= fun secondary =>
      Some (mkLimits allowed reached primary secondary)
  | _ => None
  end.

Definition positive (f : float64) : bool := f_lt f_zero f.
Definition observedQuotaWindow (window : option codexRateLimitWindow) (limits : codexRateLimitsPayload) (now : Time) : option QuotaWindow :=
  window ≫= fun w =>
  lw_UsedPercent w ≫= fun used =>
  let seconds := lw_WindowMinutes w ≫= fun m => if positive m then Some (int64_of (f_mul m (f_of_Z 60))) else None in
  let fromUnix := lw_ResetAt w ≫= fun t => if positive t then Some (unixTime (int64_of t)) else None in
  let resetAt := match fromUnix with
                 | Some t => t
                 | None => default zeroTime (lw_ResetAfterSeconds w ≫= fun after => if f_le f_zero after then Some (Add now (floatSeconds after)) else None)
                 end in
  if IsZero resetAt then None
  else Some (mkQuotaWindow "" (Some used) seconds resetAt
               (match rl_Allowed limits with Some a => negb a | None => false end
                || match rl_LimitReached limits with Some l => l | None => false end || f_le (f_of_Z 100) used)).
Definition familyForWindowMinutes (seconds : option Z) : AccountFamily :=
  match seconds with
  | None => AccountFamilyNone
  | Some s => if s <=? 604800 then AccountFamilyWeekly else AccountFamilyMonthly
  end.

Definition observedQuota (limits : codexRateLimitsPayload) (now : Time) : ParsedQuota :=
  let long := observedQuotaWindow (rl_Secondary limits) limits now in
  emptyQuota <| pq_FiveHour := observedQuotaWindow (rl_Primary limits) limits now |> <| pq_LongWindow := long |>
             <| pq_Family := match long with Some w => familyForWindowMinutes (qw_LimitWindowSeconds w) | None => AccountFamilyNone end |>.

Section observing.
Context `{MapRange}.

Definition applyObservedRateLimits (s : PluginState) (authID authIndex frame : string) (clock now : Time) : PluginState :=
  if String.eqb authID "" && String.eqb authIndex "" then s
  else
    let payload := sseEventData frame in
    if String.eqb payload "" then s
    else match decodeEvent payload with
         | None => s
         | Some limits =>
             let quota := observedQuota limits now in
             match pq_FiveHour quota, pq_LongWindow quota with
             | None, None => s
             | _, _ => (ObserveAccountQuota s authID authIndex quota clock now).1
             end
         end.

(** The observers of the streams under way; [None] is a chunk of headers. *)
Definition observeStreamChunk (s : PluginState) (observers : gmap string string) (requestID authID authIndex : string) (body : option string)
    (hasHistory : bool) (clock now : Time) : PluginState * gmap string string :=
  match body with
  | None => (s, observers)
  | Some body =>
      if String.eqb requestID "" || (String.eqb body "" && negb hasHistory) then (s, observers)
      else
        let '(seen, buffer) := observer_absorb (default "" (observers !! requestID)) body in
        (foldl (fun s frame => applyObservedRateLimits s authID authIndex frame clock now) s seen,
         match seen with [] => <[requestID := buffer]> observers | _ => base.delete requestID observers end)
  end.
End observing.

(** ** The end of a request *)

Inductive RequestCompletionOutcome := CompletionSucceeded | CompletionRejected | CompletionCanceled | CompletionOther.
(** [rq_Error] is the text of the error with its secrets redacted. *)
Record RequestCompletion := mkCompletion {
  rq_RequestID : string; rq_RequestedModel : string; rq_Outcome : RequestCompletionOutcome; rq_StatusCode : Z; rq_Error : string;
  rq_selectedAuth : option string }.

Definition metadataString (value : option string) : string := match value with Some text => TrimSpace text | None => "" end.

Definition handleRequestCompletionEvent `{MapRange} (s : PluginState) (observers : gmap string string) (c : RequestCompletion) (clock now : Time)
  : PluginState * gmap string string :=
  if String.eqb (rq_RequestID c) "" then (s, observers)
  else
    let now := now_or clock now in
    let logged := fun outcome =>
      RecordLog s "info" "request.terminal" "请求在执行前被终止"
        {["request_id" := AnyString (rq_RequestID c); "model" := AnyString (rq_RequestedModel c); "outcome" := AnyString outcome;
          "status_code" := AnyInt (rq_StatusCode c); "error" := AnyString (rq_Error c)]} clock now in
    (match rq_Outcome c with
     | CompletionRejected => logged "rejected"
     | CompletionCanceled => logged "canceled"
     | CompletionSucceeded =>
         let authID := metadataString (rq_selectedAuth c) in
         if String.eqb authID "" then s else (RecordAccountSuccess s authID "" now).1
     | CompletionOther => s
     end, base.delete (rq_RequestID c) observers).

(** The buffer of the observer keeps only the length of the marker when it does
    not hold one yet: an event cut before the end of its marker loses the start
    of its data line, and its windows are not observed. *)
Definition example_limits : string :=
  "data: " +:+ js "{'type':'codex.rate_limits','rate_limits':{'primary':{'used_percent':42,'reset_after_seconds':60}}}" +:+ blankLine.
Definition example_watched : PluginState := UpsertQuota (NewPluginState DefaultConfig) (emptyAccount <| a_AuthID := "a" |>).
Definition example_observe (chunks : list string) : PluginState * gmap string string :=
  foldl (fun acc chunk => observeStreamChunk acc.1 acc.2 "r" "a" "" (Some chunk) false Hour Hour) (example_watched, ∅) chunks.
Definition example_used (s : PluginState) : option float64 :=
  st_accounts s !! "auth:a" ≫= fun a => pq_FiveHour (a_Quota a) ≫= qw_UsedPercent.

Theorem split_event_not_observed :
  example_used (example_observe [example_limits]).1 = Some (f_of_Z 42)
  /\ example_used (example_observe [String.substring 0 24 example_limits; sdrop 24 example_limits]).1 = None
  /\ example_used (example_observe [String.substring 0 40 example_limits; sdrop 40 example_limits]).1 = Some (f_of_Z 42).
Proof. vm_compute. done. Qed.
