(* ===== verification/RefreshLoop.v ===== *)
(** * The refresh loop (refresh_controller.go and the loop of refresh.go)

    Three pieces of control state decide when the plugin works in the
    background.

    - [RefreshController]: picks make it active, the active window without a pick
      makes it dormant, and it issues one refresh per interval while active.
    - [Runs]: the flags of the refresher.  One refresh runs at a time; a due
      refresh requested meanwhile waits in one slot, in which the newest
      admission version wins.
    - [ProbeLaunch]: the flags of the probe launches and the mutex [probeRunMu].
      Every critical section is one step, so that the launch goroutine and
      other callers of the probe runtime interleave.

    [nextRefreshLoopDelay] puts their deadlines together with those of the
    plugin state, the probe controller, the write-ahead log and the managed
    records. *)

From S2P Require Import Prelude Float64 Config Models State ProbeWindow StateStore ProbeWAL CredentialWAL Managed.
#[local] Open Scope string_scope.
#[local] Open Scope list_scope.
#[local] Open Scope Z_scope.
#[local] Open Scope go_scope.

(** ** The controller *)

Inductive RefreshMode := RefreshModeDormant | RefreshModeActive.
#[export] Instance RefreshMode_eq_dec : EqDecision RefreshMode.
Proof. solve_decision. Defined.

Inductive IntentSource := IntentSourceNone | IntentSourceInitial | IntentSourceStaleRecovery | IntentSourceInterval.
#[export] Instance IntentSource_eq_dec : EqDecision IntentSource.
Proof. solve_decision. Defined.

Record CacheSnapshot := mkCache {
  cs_Initial : bool;
  cs_StaleRecovery : bool;
  cs_StaleAfter : Duration;
  cs_Accounts : list AccountState;
}.

Definition UniqueSchedulerSource (initial staleRecovery interval : bool) : IntentSource :=
  if initial then IntentSourceInitial
  else if staleRecovery then IntentSourceStaleRecovery
  else if interval then IntentSourceInterval
  else IntentSourceNone.

Record RefreshController := mkRefreshController {
  rfc_interval : Duration;
  rfc_activeWindow : Duration;
  rfc_mode : RefreshMode;
  rfc_lastActivity : Time;
  rfc_nextInterval : Time;
}.
#[export] Instance RefreshController_eta : Eta RefreshController := fun r => mkRefreshController
  (rfc_interval r) (rfc_activeWindow r) (rfc_mode r) (rfc_lastActivity r) (rfc_nextInterval r).

Definition NewRefreshController (interval activeWindow : Duration) : RefreshController :=
  mkRefreshController
    (if interval <=? 0 then QuotaRefreshInterval DefaultConfig else interval)
    (if activeWindow <=? 0 then RefreshActiveWindow DefaultConfig else activeWindow)
    RefreshModeDormant zeroTime zeroTime.

(** Every intent is of class [OperationLegacyRefresh]; its source is kept. *)
Definition OnPick (c : RefreshController) (now : Time) (snapshot : CacheSnapshot) : RefreshController * list IntentSource :=
  let c := c <| rfc_mode := RefreshModeActive |> <| rfc_lastActivity := now |> in
  let c := if IsZero (rfc_nextInterval c) then c <| rfc_nextInterval := Add now (rfc_interval c) |> else c in
  let source := UniqueSchedulerSource (cs_Initial snapshot) (cs_StaleRecovery snapshot) false in
  if bool_decide (source = IntentSourceNone) then (c, []) else (c, [source]).

Definition goDormant (c : RefreshController) : RefreshController :=
  c <| rfc_mode := RefreshModeDormant |> <| rfc_nextInterval := zeroTime |>.

(** The loop that moves the next interval past [now]; [None] when the fuel runs
    out.  [advance_total] shows that [advance_fuel] is enough. *)
Fixpoint advance_interval (fuel : nat) (next : Time) (interval : Duration) (now : Time) : option Time :=
  match fuel with
  | O => None
  | S fuel => if negb (After next now) then advance_interval fuel (Add next interval) interval now else Some next
  end.
Definition advance_fuel (next : Time) (interval : Duration) (now : Time) : nat := S (Z.to_nat ((now - next) / interval + 1)).

Definition OnDeadline (c : RefreshController) (now : Time) : option (RefreshController * list IntentSource) :=
  if negb (bool_decide (rfc_mode c = RefreshModeActive)) || IsZero (rfc_lastActivity c)
     || negb (Before now (Add (rfc_lastActivity c) (rfc_activeWindow c)))
  then Some (goDormant c, [])
  else if IsZero (rfc_nextInterval c) || Before now (rfc_nextInterval c) then Some (c, [])
  else
    match advance_interval (advance_fuel (rfc_nextInterval c) (rfc_interval c) now) (rfc_nextInterval c) (rfc_interval c) now with
    | Some next => Some (c <| rfc_nextInterval := next |>, [IntentSourceInterval])
    | None => None
    end.

Definition Mode (c : RefreshController) (now : Time) : RefreshController * RefreshMode :=
  let c := if bool_decide (rfc_mode c = RefreshModeActive) && negb (IsZero (rfc_lastActivity c))
              && negb (Before now (Add (rfc_lastActivity c) (rfc_activeWindow c)))
           then goDormant c else c in
  (c, rfc_mode c).

Definition controllerDeadline (c : RefreshController) (now : Time) : RefreshController * Time :=
  if negb (bool_decide (rfc_mode c = RefreshModeActive)) || IsZero (rfc_lastActivity c) then (c, zeroTime)
  else
    let activeDeadline := Add (rfc_lastActivity c) (rfc_activeWindow c) in
    if negb (Before now activeDeadline) then (goDormant c, zeroTime)
    else if IsZero (rfc_nextInterval c) || Before activeDeadline (rfc_nextInterval c) then (c, activeDeadline)
    else (c, rfc_nextInterval c).

(** *** The controllers the program has *)

Inductive controller_reached : RefreshController -> Prop :=
  | reached_new interval window : controller_reached (NewRefreshController interval window)
  | reached_pick c now snapshot : controller_reached c -> 0 < now -> controller_reached (OnPick c now snapshot).1
  | reached_deadline c c' now out : controller_reached c -> OnDeadline c now = Some (c', out) -> controller_reached c'
  | reached_mode c now : controller_reached c -> controller_reached (Mode c now).1
  | reached_next c now : controller_reached c -> controller_reached (controllerDeadline c now).1.

Record ctl_ok (c : RefreshController) : Prop := {
  ok_interval : 0 < rfc_interval c;
  ok_window : 0 < rfc_activeWindow c;
  ok_dormant : rfc_mode c = RefreshModeDormant -> rfc_nextInterval c = 0;
  ok_active : rfc_mode c = RefreshModeActive -> 0 < rfc_lastActivity c /\ 0 < rfc_nextInterval c;
}.

Lemma advance_spec fuel next interval now next' :
  0 < interval -> advance_interval fuel next interval now = Some next' ->
  now < next' /\ next <= next' <= Z.max next (now + interval) /\ (next <= now -> next + interval <= next').
Proof.
  intros Hi. revert next. induction fuel as [|fuel IH]; intros next; simpl; [done|].
  destruct (After next now) eqn:E; simpl; [intros [= <-]; time_lia|].
  intros (H1 & H2 & H3)%IH. revert E H2 H3. time_unfold. lia.
Qed.

Lemma advance_total next interval now :
  0 < interval -> exists next', advance_interval (advance_fuel next interval now) next interval now = Some next'.
Proof.
  intros Hi. assert (forall fuel n, now < n \/ (now - n) / interval + 1 < Z.of_nat fuel -> (0 < fuel)%nat ->
    exists next', advance_interval fuel n interval now = Some next') as Loop.
  { induction fuel as [|fuel IH]; intros n Hn Hp; [lia|]. simpl.
    destruct (After n now) eqn:E; simpl; [by eauto|].
    assert ((now - Add n interval) / interval = (now - n) / interval - 1) as Q
      by (unfold Add; replace (now - (n + interval)) with (now - n + (-1) * interval) by lia; rewrite Z.div_add by lia; lia).
    assert (0 <= (now - n) / interval) by (apply Z.div_pos; revert E; time_unfold; lia).
    destruct Hn as [Hn|Hn]; [revert E; time_unfold; lia|]. apply IH; lia. }
  apply Loop; unfold advance_fuel; lia.
Qed.

Lemma goDormant_ok c : ctl_ok c -> ctl_ok (goDormant c).
Proof. intros []. by split. Qed.

Lemma NewRefreshController_ok interval window : ctl_ok (NewRefreshController interval window).
Proof. split; simpl; [branch; [done|lia]|branch; [done|lia]|done|done]. Qed.

Lemma OnPick_ok c now snapshot : ctl_ok c -> 0 < now -> ctl_ok (OnPick c now snapshot).1.
Proof.
  intros [Hi Hw Hd Ha] Hn. unfold OnPick. destruct (bool_decide (UniqueSchedulerSource _ _ _ = _)); simpl;
    (destruct (IsZero (rfc_nextInterval c)) eqn:E; split; simpl; try done; intros _; split; try done; [time_lia|];
     destruct (rfc_mode c); [revert E; rewrite (Hd eq_refl); done|by apply Ha]).
Qed.

Lemma OnDeadline_ok c now c' out : ctl_ok c -> OnDeadline c now = Some (c', out) -> ctl_ok c'.
Proof.
  intros Hc. unfold OnDeadline. branch; [intros [= <- _]; by apply goDormant_ok|].
  branch; [by intros [= <- _]|]. destruct (advance_interval _ _ _ _) as [next|] eqn:E; [|done]. intros [= <- _].
  apply advance_spec in E as (H1 & H2 & _); [|apply Hc]. destruct Hc as [Hi Hw Hd Ha].
  split; simpl; try done; [|intros Hm; apply Ha in Hm; lia].
  intros Hm. rewrite Hm in *. done.
Qed.

Lemma reached_ok c : controller_reached c -> ctl_ok c.
Proof.
  induction 1 as [| | | |c now _ IH]; eauto using NewRefreshController_ok, OnPick_ok, OnDeadline_ok.
  - unfold Mode. branch; simpl; eauto using goDormant_ok.
  - unfold controllerDeadline. repeat branch; simpl; eauto using goDormant_ok.
Qed.

(** The branches of [OnDeadline] on a controller of the program. *)
Lemma OnDeadline_spec c now :
  ctl_ok c ->
  (rfc_mode c = RefreshModeDormant \/ rfc_lastActivity c + rfc_activeWindow c <= now)
    /\ OnDeadline c now = Some (goDormant c, [])
  \/ rfc_mode c = RefreshModeActive /\ now < rfc_lastActivity c + rfc_activeWindow c /\ now < rfc_nextInterval c
    /\ OnDeadline c now = Some (c, [])
  \/ rfc_mode c = RefreshModeActive /\ now < rfc_lastActivity c + rfc_activeWindow c /\ rfc_nextInterval c <= now
    /\ exists next, OnDeadline c now = Some (c <| rfc_nextInterval := next |>, [IntentSourceInterval])
         /\ now < next /\ rfc_nextInterval c + rfc_interval c <= next <= now + rfc_interval c.
Proof.
  intros [Hi Hw Hd Ha]. unfold OnDeadline. destruct (advance_total (rfc_nextInterval c) (rfc_interval c) now Hi) as [next E].
  rewrite E. apply advance_spec in E as (H1 & H2 & H3); [|done].
  destruct (rfc_mode c) eqn:Em; simpl; [by left; eauto|].
  destruct (Ha eq_refl) as [Hl Hn]. replace (IsZero (rfc_lastActivity c)) with false by time_lia. simpl.
  destruct (Before now _) eqn:E1; simpl; [|left; split; [right; time_lia|done]]. right.
  replace (IsZero (rfc_nextInterval c)) with false by time_lia. simpl.
  destruct (Before now (rfc_nextInterval c)) eqn:E2; [left; split_and!; try done; time_lia|right].
  split_and!; try done; [time_lia..|]. eexists. split_and!; try done; time_lia.
Qed.

(** While nothing else happens, the deadline the refresh controller reports is
    exactly when it next acts: before it a deadline call changes nothing and
    issues nothing, from it on the call either issues one interval refresh and
    moves the next interval into the future, or makes the controller dormant;
    and when it reports no deadline, no later call issues anything. *)
Theorem controller_deadline_exact (c : RefreshController) (now : Time) :
  controller_reached c ->
  let '(c', deadline) := controllerDeadline c now in
  (deadline = zeroTime -> forall t, OnDeadline c' t = Some (goDormant c', []))
  /\ (deadline <> zeroTime ->
      (forall t, now <= t < deadline -> OnDeadline c' t = Some (c', []))
      /\ (forall t, now <= t -> deadline <= t ->
            OnDeadline c' t = Some (goDormant c', [])
            \/ exists next, OnDeadline c' t = Some (c' <| rfc_nextInterval := next |>, [IntentSourceInterval]) /\ t < next)).
Proof.
  intros Hc%reached_ok. unfold controllerDeadline. pose proof Hc as [Hi Hw Hd Ha].
  destruct (rfc_mode c) eqn:Em; simpl.
  { split; [|done]. intros _ t. destruct (OnDeadline_spec c t Hc) as [[_ E]|[(E & _)|(E & _)]]; [done|congruence..]. }
  destruct (Ha eq_refl) as [Hl Hn]. replace (IsZero (rfc_lastActivity c)) with false by time_lia. simpl.
  replace (IsZero (rfc_nextInterval c)) with false by time_lia. simpl.
  destruct (Before now _) eqn:E1; simpl; last first.
  { split; [|done]. intros _ t. pose proof (goDormant_ok c Hc) as Hg.
    destruct (OnDeadline_spec _ t Hg) as [[_ E]|[(E & _)|(E & _)]]; done. }
  destruct (Before (Add _ _) (rfc_nextInterval c)) eqn:E2; (split; [time_lia|intros _]; split; intros t Ht);
    destruct (OnDeadline_spec c t Hc) as [[[?|?] E]|[(_ & ? & ? & E)|(_ & ? & ? & next & E & ? & _)]];
    try congruence; try (revert E1 E2; time_unfold; lia); eauto.
Qed.

Definition no_cache : CacheSnapshot := mkCache false false 0 [].
Definition example_active : RefreshController := (OnPick (NewRefreshController 10 25) 100 no_cache).1.
Lemma example_active_reached : controller_reached example_active.
Proof. apply reached_pick; [apply reached_new|lia]. Qed.

Lemma controller_deadline_exact_witness :
  controllerDeadline example_active 101 = (example_active, 110)
  /\ OnDeadline example_active 109 = Some (example_active, [])
  /\ (OnDeadline example_active 115 = Some (goDormant example_active, [])
      \/ exists next, OnDeadline example_active 115 = Some (example_active <| rfc_nextInterval := next |>, [IntentSourceInterval]) /\ 115 < next).
Proof.
  pose proof (controller_deadline_exact example_active 101 example_active_reached) as H.
  assert (controllerDeadline example_active 101 = (example_active, 110)) as E by reflexivity.
  rewrite E in H. destruct H as [_ H]. destruct (H ltac:(discriminate)) as [H1 H2].
  split; [exact E|]. split; [apply H1; lia|apply H2; lia].
Defined.

(** *** How many interval refreshes one pick causes *)

Fixpoint run_deadlines (c : RefreshController) (ts : list Time) : option (RefreshController * list IntentSource) :=
  match ts with
  | [] => Some (c, [])
  | t :: ts =>
      match OnDeadline c t with
      | None => None
      | Some (c, out) => match run_deadlines c ts with None => None | Some (c, rest) => Some (c, out ++ rest) end
      end
  end.

Lemma run_deadlines_bound c ts :
  ctl_ok c -> exists c' out, run_deadlines c ts = Some (c', out) /\
    (out = [] \/ rfc_mode c = RefreshModeActive
       /\ (Z.of_nat (length out) - 1) * rfc_interval c < rfc_lastActivity c + rfc_activeWindow c - rfc_nextInterval c).
Proof.
  revert c. induction ts as [|t ts IH]; intros c Hc; simpl; [by eauto|].
  destruct (OnDeadline_spec c t Hc) as [[_ E]|[(Hm & ? & ? & E)|(Hm & Hlt & Hge & next & E & Hn & Hb)]]; rewrite E.
  - destruct (IH _ (goDormant_ok c Hc)) as (c' & out & -> & [->|[[=] _]]). eauto.
  - destruct (IH c Hc) as (c' & out & -> & H'). eauto.
  - destruct (IH _ (OnDeadline_ok _ _ _ _ Hc E)) as (c' & out & -> & H'). eexists _, _. split; [done|]. right. split; [done|].
    destruct H' as [->|[_ H']]; simpl in *; lia.
Qed.

(** One pick keeps the refresh controller working for a bounded time only: however
    often the loop calls it afterwards, it issues fewer than
    activeWindow/interval + 2 interval refreshes, and its loop over missed
    intervals always ends. *)
Theorem interval_refreshes_bounded (c : RefreshController) (t0 : Time) (snapshot : CacheSnapshot) (ts : list Time) :
  controller_reached c -> 0 < t0 -> Forall (fun t => t0 <= t) ts ->
  exists c' out, run_deadlines (OnPick c t0 snapshot).1 ts = Some (c', out)
    /\ (Z.of_nat (length out) - 2) * rfc_interval c < rfc_activeWindow c.
Proof.
  intros Hc%reached_ok Ht0 Hts. pose proof (OnPick_ok c t0 snapshot Hc Ht0) as Hp.
  assert (rfc_interval (OnPick c t0 snapshot).1 = rfc_interval c /\ rfc_activeWindow (OnPick c t0 snapshot).1 = rfc_activeWindow c
          /\ rfc_lastActivity (OnPick c t0 snapshot).1 = t0) as (<- & <- & El) by (unfold OnPick; by repeat branch).
  generalize dependent ((OnPick c t0 snapshot).1). clear c Hc. intros c Hc El.
  pose proof (ok_interval _ Hc). pose proof (ok_window _ Hc).
  induction Hts as [|t ts Ht Hts IH]; simpl; [eexists _, _; split; [done|simpl; lia]|].
  destruct (OnDeadline_spec c t Hc) as [[_ E]|[(Hm & ? & ? & E)|(Hm & Hlt & Hge & next & E & Hn & Hb)]]; rewrite E.
  - destruct (run_deadlines_bound _ ts (goDormant_ok c Hc)) as (c' & out & -> & [->|[[=] _]]). eexists _, _. split; [done|simpl; lia].
  - destruct IH as (c' & out & -> & H'). eauto.
  - destruct (run_deadlines_bound _ ts (OnDeadline_ok _ _ _ _ Hc E)) as (c' & out & -> & H').
    eexists _, _. split; [done|]. destruct H' as [->|[_ H']]; simpl in *; lia.
Qed.

Lemma interval_refreshes_bounded_witness :
  exists c' out, run_deadlines example_active [105; 112; 122; 130] = Some (c', out) /\ (Z.of_nat (length out) - 2) * 10 < 25.
Proof. apply (interval_refreshes_bounded (NewRefreshController 10 25) 100 no_cache); [apply reached_new|lia|repeat constructor; lia]. Defined.

(** ** One refresh at a time

    [Runs] holds the flags under the mutex of the refresher, the goroutines that
    run a refresh, and the loop goroutines ([(id, stop closed)]).  [wg] is the
    wait group's counter for refreshes. *)

Inductive due_job := DueAll (version : Z) | DueCandidates (version : Z).
Definition due_version (d : due_job) : Z := match d with DueAll v | DueCandidates v => v end.

Inductive refresh_job := JobAll | JobOne (authID : string) (version : Z) | JobDue (d : due_job).

Record Runs := mkRuns {
  rr_refreshing : bool;
  rr_stopping : bool;
  rr_startRequested : bool;
  rr_running : bool;
  rr_pendingDue : option due_job;
  rr_pendingDueVersion : Z;
  rr_wg : Z;
  rr_wake : bool;
  rr_stop : option nat;
  rr_jobs : list refresh_job;
  rr_loops : list (nat * bool);
  rr_nextLoop : nat;
}.
#[export] Instance Runs_eta : Eta Runs := fun r => mkRuns
  (rr_refreshing r) (rr_stopping r) (rr_startRequested r) (rr_running r) (rr_pendingDue r) (rr_pendingDueVersion r) (rr_wg r)
  (rr_wake r) (rr_stop r) (rr_jobs r) (rr_loops r) (rr_nextLoop r).

Definition noRuns : Runs := mkRuns false false false false None 0 0 false None [] [] O.

(** A send on the buffered wake channel of the current loop. *)
Definition wakeRefreshLoop (r : Runs) : Runs :=
  if negb (rr_running r) || rr_stopping r || bool_decide (rr_stop r = None) then r else r <| rr_wake := true |>.

Definition dueAdvanced (previous next now : Time) : bool :=
  if IsZero next || negb (After next now) then false
  else IsZero previous || negb (After previous now) || Before next previous.
Definition wakeRefreshLoopIfDueAdvanced (r : Runs) (previous next now : Time) : Runs :=
  if dueAdvanced previous next now then wakeRefreshLoop r else r.

(** [RefreshSoon] and [RefreshOneSoon] past the gate on background work. *)
Definition beginRefresh (r : Runs) (job : refresh_job) : Runs :=
  r <| rr_refreshing := true |> <| rr_wg := rr_wg r + 1 |> <| rr_jobs := rr_jobs r ++ [job] |>.
Definition refreshSoon (r : Runs) (job : refresh_job) : Runs :=
  if rr_refreshing r || rr_stopping r then r else beginRefresh r job.
Definition RefreshSoon (r : Runs) : Runs := refreshSoon r JobAll.
Definition RefreshOneSoon (r : Runs) (authID : string) (version : Z) : Runs := refreshSoon r (JobOne authID version).

Definition refreshDueSoon (r : Runs) (refresh : due_job) : Runs :=
  if rr_stopping r then r
  else if rr_refreshing r then
    if bool_decide (rr_pendingDue r = None) || (rr_pendingDueVersion r <=? due_version refresh)
    then r <| rr_pendingDue := Some refresh |> <| rr_pendingDueVersion := due_version refresh |>
    else r
  else beginRefresh r (JobDue refresh).

(** The refresh goroutine [job] ends; [previous], [next] and [now] are the due
    times [wakeRefreshLoopIfDueAdvanced] compares. *)
Definition finishRefresh (r : Runs) (previous next now : Time) : Runs :=
  match rr_jobs r with
  | [] => r
  | _ :: jobs =>
      let r := r <| rr_jobs := jobs |> in
      match rr_pendingDue r with
      | Some pending =>
          if rr_stopping r
          then wakeRefreshLoopIfDueAdvanced
                 (r <| rr_pendingDue := None |> <| rr_pendingDueVersion := 0 |> <| rr_refreshing := false |> <| rr_wg := rr_wg r - 1 |>)
                 previous next now
          else
            let r := r <| rr_pendingDue := None |> <| rr_pendingDueVersion := 0 |> in
            let r := wakeRefreshLoopIfDueAdvanced r previous next now in
            r <| rr_jobs := rr_jobs r ++ [JobDue pending] |>
      | None =>
          wakeRefreshLoopIfDueAdvanced
            (r <| rr_pendingDueVersion := 0 |> <| rr_refreshing := false |> <| rr_wg := rr_wg r - 1 |>) previous next now
      end
  end.

(** [Start] with the outcome of the gate; probes are launched apart. *)
Definition Start (r : Runs) (allowed : bool) : Runs :=
  let r := r <| rr_startRequested := true |> in
  if negb allowed then r
  else if rr_running r then wakeRefreshLoop r
  else
    r <| rr_stop := Some (rr_nextLoop r) |> <| rr_wake := false |> <| rr_running := true |> <| rr_stopping := false |>
      <| rr_loops := rr_loops r ++ [(rr_nextLoop r, false)] |> <| rr_nextLoop := S (rr_nextLoop r) |>.

(** [Stop] up to its waits: the flags, and closing the stop channel. *)
Definition Stop (r : Runs) : Runs :=
  let running := rr_running r in
  let r := r <| rr_stopping := true |> <| rr_running := false |> in
  if running then
    r <| rr_loops := (fun l => if bool_decide (Some l.1 = rr_stop r) then (l.1, true) else l) <$> rr_loops r |>
  else r.

(** A loop goroutine whose stop channel is closed returns. *)
Definition loopExit (r : Runs) (id : nat) : Runs :=
  if bool_decide ((id, true) ∈ rr_loops r)
  then r <| rr_loops := filter (fun l => l.1 <> id) (rr_loops r) |> <| rr_running := false |>
  else r.

Inductive run_op :=
  | OpRefreshSoon
  | OpRefreshOneSoon (authID : string) (version : Z)
  | OpRefreshDueSoon (d : due_job)
  | OpFinish (previous next now : Time)
  | OpWake
  | OpStart (allowed : bool)
  | OpStop
  | OpLoopExit (id : nat).

Definition run_step (r : Runs) (op : run_op) : Runs :=
  match op with
  | OpRefreshSoon => RefreshSoon r
  | OpRefreshOneSoon authID version => RefreshOneSoon r authID version
  | OpRefreshDueSoon d => refreshDueSoon r d
  | OpFinish previous next now => finishRefresh r previous next now
  | OpWake => wakeRefreshLoop r
  | OpStart allowed => Start r allowed
  | OpStop => Stop r
  | OpLoopExit id => loopExit r id
  end.

Definition run_all (r : Runs) (ops : list run_op) : Runs := foldl run_step r ops.

Record runs_ok (r : Runs) : Prop := {
  ok_single : rr_jobs r = [] /\ rr_refreshing r = false \/ exists j, rr_jobs r = [j] /\ rr_refreshing r = true;
  ok_wg : rr_wg r = Z.of_nat (length (rr_jobs r));
  ok_pending : forall d, rr_pendingDue r = Some d -> rr_refreshing r = true /\ rr_pendingDueVersion r = due_version d;
}.

Lemma wake_fields r :
  let r' := wakeRefreshLoop r in
  rr_refreshing r' = rr_refreshing r /\ rr_stopping r' = rr_stopping r /\ rr_pendingDue r' = rr_pendingDue r
  /\ rr_pendingDueVersion r' = rr_pendingDueVersion r /\ rr_wg r' = rr_wg r /\ rr_jobs r' = rr_jobs r.
Proof. unfold wakeRefreshLoop. by branch. Qed.

Lemma wake_ok r : runs_ok r -> runs_ok (wakeRefreshLoop r).
Proof. destruct (wake_fields r) as (E1 & E2 & E3 & E4 & E5 & E6). intros []. split; rewrite ?E1, ?E3, ?E4, ?E5, ?E6; auto. Qed.
Lemma wakeIf_ok r previous next now : runs_ok r -> runs_ok (wakeRefreshLoopIfDueAdvanced r previous next now).
Proof. unfold wakeRefreshLoopIfDueAdvanced. branch; auto using wake_ok. Qed.

Lemma begin_ok r job : runs_ok r -> rr_refreshing r = false -> runs_ok (beginRefresh r job).
Proof.
  intros [Hs Hw Hp] Hf. destruct Hs as [[Hj _]|(j & _ & E)]; [|congruence].
  split; simpl; rewrite ?Hw, ?Hj; simpl; [by eauto|done|]. intros d Hd. apply Hp in Hd as [? _]. congruence.
Qed.

Lemma finish_ok r previous next now : runs_ok r -> runs_ok (finishRefresh r previous next now).
Proof.
  intros Hr. unfold finishRefresh. destruct (rr_jobs r) as [|j jobs] eqn:Ej; [done|].
  pose proof Hr as [Hs Hw Hp]. rewrite Ej in Hs. destruct Hs as [[[=] _]|(j' & [= -> ->] & Hf)].
  rewrite Ej in Hw. simpl in Hw. cbn [set_field rr_pendingDue rr_stopping RefreshLoop.Runs_eta].
  destruct (rr_pendingDue r) as [d|] eqn:Ed; simpl; rewrite ?Ed.
  - destruct (Hp d eq_refl) as [_ Hv]. destruct (rr_stopping r).
    + apply wakeIf_ok. split; simpl; [by left|lia|done].
    + unfold wakeRefreshLoopIfDueAdvanced, wakeRefreshLoop. repeat branch; (split; simpl; [by eauto|simpl; lia|done]).
  - apply wakeIf_ok. split; simpl; [by left|lia|intros; simplify_eq].
Qed.

Lemma due_ok r d : runs_ok r -> runs_ok (refreshDueSoon r d).
Proof.
  intros Hr. unfold refreshDueSoon. branch; [done|]. destruct (rr_refreshing r) eqn:Ef; [|by apply begin_ok].
  branch; [|done]. destruct Hr as [Hs Hw Hp]. split; simpl; auto. by intros d' [= ->].
Qed.

Lemma run_step_ok r op : runs_ok r -> runs_ok (run_step r op).
Proof.
  intros Hr. destruct op; simpl; auto using finish_ok, due_ok, wake_ok.
  - unfold RefreshSoon, refreshSoon. branch; [done|]. apply begin_ok; [done|]. by destruct (rr_refreshing r).
  - unfold RefreshOneSoon, refreshSoon. branch; [done|]. apply begin_ok; [done|]. by destruct (rr_refreshing r).
  - assert (runs_ok (r <| rr_startRequested := true |>)) by (destruct Hr; by split).
    unfold Start. branch; [done|]. branch; [by apply wake_ok|]. destruct Hr; by split.
  - unfold Stop. destruct Hr. branch; by split.
  - unfold loopExit. destruct Hr. branch; by split.
Qed.

Lemma noRuns_ok : runs_ok noRuns.
Proof. split; simpl; [by left|done|done]. Qed.
Lemma run_all_ok r ops : runs_ok r -> runs_ok (run_all r ops).
Proof. revert r. unfold run_all. induction ops as [|op ops IH]; simpl; eauto using run_step_ok. Qed.

(** The job an operation starts: only the end of a refresh can replace one. *)
Definition started (r : Runs) (op : run_op) : list refresh_job :=
  match op with
  | OpFinish _ _ _ => rr_jobs (run_step r op)
  | _ => drop (length (rr_jobs r)) (rr_jobs (run_step r op))
  end.
Fixpoint all_started (r : Runs) (ops : list run_op) : list refresh_job :=
  match ops with
  | [] => []
  | op :: ops => started r op ++ all_started (run_step r op) ops
  end.

Definition pending_at_least (v : Z) (r : Runs) : Prop :=
  exists d j, rr_pendingDue r = Some d /\ v <= due_version d /\ rr_jobs r = [j].

Lemma pending_served v r ops :
  runs_ok r -> rr_stopping r = false -> pending_at_least v r -> OpStop ∉ ops ->
  (exists d, JobDue d ∈ all_started r ops /\ v <= due_version d) \/ pending_at_least v (run_all r ops).
Proof.
  revert r. unfold run_all. induction ops as [|op ops IH]; intros r Hr Hst Hp Hns; simpl; [by right|].
  apply not_elem_of_cons in Hns as [Hop Hns]. pose proof (run_step_ok r op Hr) as Hr'.
  assert ((exists d, JobDue d ∈ started r op /\ v <= due_version d)
          \/ rr_stopping (run_step r op) = false /\ pending_at_least v (run_step r op)) as [(d & Hd & Hv)|[Hst' Hp']].
  2: { left. exists d. rewrite elem_of_app. auto. }
  2: { destruct (IH _ Hr' Hst' Hp' Hns) as [(d & Hd & Hv)|]; [left|by right]. exists d. rewrite elem_of_app. auto. }
  destruct Hp as (d & j & Ed & Hv & Ej). destruct (ok_pending _ Hr d Ed) as [Hf Epv]. clear IH Hr'.
  assert (pending_at_least v r) as Hp by (exists d, j; auto).
  destruct op as [|authID version|d'|previous next now| |allowed| |id]; simpl; try done.
  - right. unfold RefreshSoon, refreshSoon. by rewrite Hf.
  - right. unfold RefreshOneSoon, refreshSoon. by rewrite Hf.
  - right. unfold refreshDueSoon. rewrite Hst, Hf, Ed, Epv. simpl. branch; [|done]. to_prop.
    split; [done|]. exists d', j. simpl. split_and!; [done|lia|done].
  - left. exists d. split; [|done]. unfold started; simpl. unfold finishRefresh. rewrite Ej. simpl. rewrite Ed, Hst.
    unfold wakeRefreshLoopIfDueAdvanced, wakeRefreshLoop. repeat branch; simpl; set_solver.
  - right. destruct (wake_fields r) as (_ & E2 & E3 & _ & _ & E6). rewrite E2. split; [done|]. exists d, j. by rewrite E3, E6.
  - right. unfold Start. branch; [by split; [|exists d, j]|]. branch; [|by split; [|exists d, j]].
    destruct (wake_fields (r <| rr_startRequested := true |>)) as (_ & E2 & E3 & _ & _ & E6). rewrite E2. split; [done|].
    exists d, j. by rewrite E3, E6.
  - right. unfold loopExit. branch; by split; [|exists d, j].
Qed.

(** C38: At most one quota refresh runs at a time, and no due refresh asked for is
    lost: once it is requested and until the refresher is stopped, either a due
    refresh for the same or a newer admission version has started since, or one
    waits in the pending slot behind the refresh that is running. *)
Theorem due_request_served (before after : list run_op) (d : due_job) :
  rr_stopping (run_all noRuns before) = false -> OpStop ∉ after ->
  let r := run_all noRuns before in
  let r' := run_all r (OpRefreshDueSoon d :: after) in
  (length (rr_jobs r') <= 1)%nat
  /\ ((exists d', JobDue d' ∈ all_started r (OpRefreshDueSoon d :: after) /\ due_version d <= due_version d')
      \/ pending_at_least (due_version d) r').
Proof.
  intros Hst Hns. cbv zeta. pose proof (run_all_ok noRuns before noRuns_ok) as Hr.
  generalize dependent (run_all noRuns before). intros r Hst Hr. split.
  { pose proof (run_all_ok r (OpRefreshDueSoon d :: after) Hr) as [[[-> _]|(j & -> & _)] _ _]; simpl; lia. }
  pose proof (run_step_ok r (OpRefreshDueSoon d) Hr) as Hr'. simpl in *.
  destruct (rr_refreshing r) eqn:Ef.
  - assert (rr_stopping (refreshDueSoon r d) = false /\ pending_at_least (due_version d) (refreshDueSoon r d)) as [Hst' Hp].
    { unfold refreshDueSoon. rewrite Hst, Ef. destruct (ok_single _ Hr) as [[_ ?]|(j & Ej & _)]; [congruence|].
      branch; [split; [done|]; exists d, j; simpl; split_and!; [done|lia|done]|]. to_prop. split; [done|].
      destruct (rr_pendingDue r) as [d0|] eqn:E0; [|naive_solver]. destruct (ok_pending _ Hr d0 E0) as [_ Ev].
      exists d0, j. split_and!; try done. rewrite <- Ev. lia. }
    destruct (pending_served _ _ after Hr' Hst' Hp Hns) as [(d' & Hd' & Hv)|]; [left|by right].
    exists d'. rewrite elem_of_app. auto.
  - left. exists d. split; [|done]. rewrite elem_of_app. left. unfold started, run_step, refreshDueSoon. rewrite Hst, Ef. simpl.
    rewrite drop_app_length. set_solver.
Qed.

Lemma due_request_served_witness :
  let r := run_all noRuns [OpStart true; OpRefreshSoon] in
  let r' := run_all r [OpRefreshDueSoon (DueAll 3); OpRefreshDueSoon (DueCandidates 2); OpFinish 0 0 1] in
  (length (rr_jobs r') <= 1)%nat
  /\ ((exists d', JobDue d' ∈ all_started r [OpRefreshDueSoon (DueAll 3); OpRefreshDueSoon (DueCandidates 2); OpFinish 0 0 1] /\ 3 <= due_version d')
      \/ pending_at_least 3 r').
Proof.
  apply (due_request_served [OpStart true; OpRefreshSoon] [OpRefreshDueSoon (DueCandidates 2); OpFinish 0 0 1] (DueAll 3));
    [reflexivity|set_solver].
Defined.

(** A refresh of one account asked for while another refresh runs is dropped:
    [unparkAfterExternalLogin] relies on it to verify a new login. *)
Theorem refresh_one_dropped_while_running :
  let r := run_all noRuns [OpStart true; OpRefreshSoon] in
  all_started r [OpRefreshOneSoon "a" 1; OpFinish 0 0 1] = [] /\ rr_jobs (run_all r [OpRefreshOneSoon "a" 1; OpFinish 0 0 1]) = [].
Proof. split; reflexivity. Qed.

(** [Start] between the flags of [Stop] and the return of the old loop: the
    returning loop marks the refresher as not running although the new loop
    lives, so wake-ups are dropped and the next [Start] adds a second loop. *)
Theorem start_during_stop_runs_two_loops :
  let r := run_all noRuns [OpStart true; OpStop; OpStart true; OpLoopExit 0] in
  rr_running r = false /\ rr_loops r = [(1%nat, false)] /\ rr_wake (run_step r OpWake) = false
  /\ rr_loops (run_step r (OpStart true)) = [(1%nat, false); (2%nat, false)].
Proof. split_and!; reflexivity. Qed.

(** ** Probe launches

    The flags under [probeRunStateMu], the holder of [probeRunMu], and where the
    launch goroutine stands.  Other callers of [RunProbeDueOnce] and
    [RunProbeRecoveryOnce] have no state but the mutex they hold.  What a pass
    does is an argument of the step that ends it: it failed or it did not. *)

Inductive run_holder := HeldByLaunch | HeldByDue | HeldByRecovery.

(** The result of one turn of the launch loop, as [finishProbeLaunch] gets it. *)
Record turn := mkTurn {
  tu_runErr : bool;
  tu_recoveryAttempted : bool;
  tu_recoveryErr : bool;
  tu_dueOwned : bool;
  tu_recoveryRequired : bool;
}.

Inductive launch_pc :=
  | LaunchNone
  | LaunchTop (recoverFirst : bool) (generation : Z)
  | LaunchRecovering (generation : Z)
  | LaunchBeforeDue (recoverFirst : bool) (generation : Z)
  | LaunchDuePass (recoverFirst : bool) (generation : Z)
  | LaunchFinish (t : turn) (generation : Z).

Record ProbeLaunch := mkLaunch {
  pl_stopping : bool;
  pl_launchActive : bool;
  pl_rerunPending : bool;
  pl_recoveryPending : bool;
  pl_retryAt : Time;
  pl_retryGeneration : Z;
  pl_ownerRetryPending : bool;
  pl_holder : option run_holder;
  pl_pc : launch_pc;
}.
#[export] Instance ProbeLaunch_eta : Eta ProbeLaunch := fun r => mkLaunch
  (pl_stopping r) (pl_launchActive r) (pl_rerunPending r) (pl_recoveryPending r) (pl_retryAt r) (pl_retryGeneration r)
  (pl_ownerRetryPending r) (pl_holder r) (pl_pc r).

Definition noLaunch : ProbeLaunch := mkLaunch false false false false zeroTime 0 false None LaunchNone.

Definition launchProbeWithAdmission (p : ProbeLaunch) (enabled recoverFirst timerAdmission : bool) (now : Time) : ProbeLaunch :=
  let noteRecovery p := if recoverFirst then p <| pl_recoveryPending := true |> else p in
  if negb enabled then p
  else if pl_stopping p then p
  else if pl_launchActive p then noteRecovery (p <| pl_rerunPending := true |>)
  else
    let retryDue := negb (IsZero (pl_retryAt p)) && negb (Before now (pl_retryAt p)) in
    if negb (IsZero (pl_retryAt p)) && (negb timerAdmission || negb retryDue) then noteRecovery p
    else
      let p := if timerAdmission && retryDue then p <| pl_ownerRetryPending := false |> else p in
      let recoverFirst := recoverFirst || pl_recoveryPending p in
      let p := if recoverFirst then p <| pl_recoveryPending := false |> else p in
      p <| pl_launchActive := true |> <| pl_pc := LaunchTop recoverFirst (pl_retryGeneration p) |>.

Definition probeLaunchAdmissionCurrentLocked (p : ProbeLaunch) (generation : Z) : bool :=
  (pl_retryGeneration p =? generation) && negb (pl_ownerRetryPending p).

Definition publishProbeRetryLocked (p : ProbeLaunch) (now : Time) (owner : bool) : ProbeLaunch :=
  let p := p <| pl_retryGeneration := u64 (pl_retryGeneration p + 1) |> <| pl_retryAt := Add now (probeBackoff 1) |> in
  if owner then p <| pl_ownerRetryPending := true |> else p.

Definition finishProbeOwnerError (p : ProbeLaunch) (recoverFirst : bool) (now : Time) : ProbeLaunch :=
  let p := if recoverFirst then p <| pl_recoveryPending := true |> else p in
  let p := publishProbeRetryLocked p now true in
  p <| pl_rerunPending := false |> <| pl_holder := None |>.

(** The new flags and, when the loop goes round again, whether it recovers. *)
Definition finishProbeLaunch (p : ProbeLaunch) (t : turn) (generation : Z) (now : Time) : ProbeLaunch * option bool :=
  let p := if (tu_recoveryAttempted t && tu_recoveryErr t) || tu_recoveryRequired t then p <| pl_recoveryPending := true |> else p in
  let newerRetry := negb (pl_retryGeneration p =? generation) in
  if tu_runErr t || tu_recoveryRequired t || pl_ownerRetryPending p || newerRetry then
    let p := if (tu_runErr t || tu_recoveryRequired t) && negb (pl_ownerRetryPending p) && negb newerRetry
             then publishProbeRetryLocked p now false else p in
    (p <| pl_rerunPending := false |> <| pl_launchActive := false |>, None)
  else
    let p := p <| pl_retryAt := zeroTime |> in
    if negb (tu_dueOwned t) && (negb (pl_rerunPending p) || negb (bool_decide (pl_holder p = None)))
    then (p <| pl_launchActive := false |>, None)
    else if pl_rerunPending p then
      (p <| pl_rerunPending := false |> <| pl_recoveryPending := false |>, Some (pl_recoveryPending p))
    else (p <| pl_launchActive := false |>, None).

(** The end of a pass of the holder of the mutex: go round again for a pending
    request, or release. *)
Definition endPass (p : ProbeLaunch) : ProbeLaunch * bool :=
  if pl_rerunPending p then (p <| pl_rerunPending := false |>, true) else (p <| pl_holder := None |>, false).

(** [runProbeDueOnceWithAdmission] up to its first pass; [None] as generation
    for callers other than the launch goroutine.  The boolean is whether the
    mutex was obtained. *)
Definition beginDue (p : ProbeLaunch) (enabled : bool) (generation : option Z) (holder : run_holder) : ProbeLaunch * bool :=
  if negb enabled then (p, false)
  else if negb (bool_decide (pl_holder p = None)) then (p <| pl_rerunPending := true |>, false)
  else if match generation with Some g => negb (probeLaunchAdmissionCurrentLocked p g) | None => false end then (p, false)
  else (p <| pl_rerunPending := false |> <| pl_holder := Some holder |>, true).

(** One step of the launch goroutine; [failed] is the outcome of the pass that
    ends, [required] that of [hasDurableNonterminalProbeAttempts] ([None] for
    its error).  [None]: the goroutine waits for the mutex or does not exist. *)
Definition launch_step (p : ProbeLaunch) (enabled failed : bool) (required : option bool) (now : Time) : option ProbeLaunch :=
  match pl_pc p with
  | LaunchNone => None
  | LaunchTop false g => Some (p <| pl_pc := LaunchBeforeDue false g |>)
  | LaunchTop true g =>
      let notOwned := p <| pl_pc := LaunchFinish (mkTurn false true false false false) g |> in
      if negb enabled then Some notOwned
      else if negb (bool_decide (pl_holder p = None)) then None
      else if negb (probeLaunchAdmissionCurrentLocked p g) then Some notOwned
      else Some (p <| pl_holder := Some HeldByLaunch |> <| pl_pc := LaunchRecovering g |>)
  | LaunchRecovering g =>
      if failed then Some ((finishProbeOwnerError p true now) <| pl_pc := LaunchFinish (mkTurn true true true false false) g |>)
      else let '(p, again) := endPass p in
           Some (if again then p else p <| pl_pc := LaunchBeforeDue true g |>)
  | LaunchBeforeDue rf g =>
      let '(p, owned) := beginDue p enabled (Some g) HeldByLaunch in
      Some (p <| pl_pc := if owned then LaunchDuePass rf g else LaunchFinish (mkTurn false rf false false false) g |>)
  | LaunchDuePass rf g =>
      if failed then Some ((finishProbeOwnerError p true now) <| pl_pc := LaunchFinish (mkTurn true rf false true true) g |>)
      else let '(p, again) := endPass p in
           Some (if again then p
                 else p <| pl_pc := LaunchFinish (match required with
                                                  | None => mkTurn true rf false true true
                                                  | Some b => mkTurn false rf false true b
                                                  end) g |>)
  | LaunchFinish t g =>
      let '(p, again) := finishProbeLaunch p t g now in
      Some (p <| pl_pc := match again with Some recoverNext => LaunchTop recoverNext g | None => LaunchNone end |>)
  end.

Inductive probe_step : ProbeLaunch -> ProbeLaunch -> Prop :=
  | step_launch p enabled recoverFirst timer now :
      probe_step p (launchProbeWithAdmission p enabled recoverFirst timer now)
  | step_goroutine p p' enabled failed required now :
      0 < now -> launch_step p enabled failed required now = Some p' -> probe_step p p'
  | step_due p enabled : probe_step p (beginDue p enabled None HeldByDue).1
  | step_recovery p : pl_holder p = None -> probe_step p (p <| pl_holder := Some HeldByRecovery |>)
  | step_other_ok p h : pl_holder p = Some h -> h <> HeldByLaunch -> probe_step p (endPass p).1
  | step_other_failed p h now : pl_holder p = Some h -> h <> HeldByLaunch -> 0 < now -> probe_step p (finishProbeOwnerError p true now)
  | step_stopping p b : probe_step p (p <| pl_stopping := b |>).

Inductive probe_reached : ProbeLaunch -> Prop :=
  | probe_initial : probe_reached noLaunch
  | probe_next p p' : probe_reached p -> probe_step p p' -> probe_reached p'.

Definition pc_generation (pc : launch_pc) : option Z :=
  match pc with
  | LaunchNone => None
  | LaunchTop _ g | LaunchRecovering g | LaunchBeforeDue _ g | LaunchDuePass _ g | LaunchFinish _ g => Some g
  end.
Definition pc_alive (pc : launch_pc) : bool := match pc with LaunchNone => false | _ => true end.
Definition pc_holds (pc : launch_pc) : bool := match pc with LaunchRecovering _ | LaunchDuePass _ _ => true | _ => false end.

Record launch_ok (p : ProbeLaunch) : Prop := {
  lo_active : pl_launchActive p = pc_alive (pl_pc p);
  lo_holds : pl_holder p = Some HeldByLaunch <-> pc_holds (pl_pc p) = true;
  lo_retry : 0 <= pl_retryAt p;
  lo_owner : pl_ownerRetryPending p = true -> 0 < pl_retryAt p;
  lo_newer : forall g, pc_generation (pl_pc p) = Some g -> g <> pl_retryGeneration p -> 0 < pl_retryAt p;
  lo_rerun : pl_rerunPending p = true -> pl_launchActive p = true \/ pl_holder p <> None;
}.

Lemma noLaunch_ok : launch_ok noLaunch.
Proof. split; simpl; try done. Qed.

Lemma launch_ok_launch p enabled recoverFirst timer now :
  launch_ok p -> launch_ok (launchProbeWithAdmission p enabled recoverFirst timer now).
Proof.
  intros [Ha Hh Hr Ho Hn Hp]. unfold launchProbeWithAdmission. branch; [by split|]. branch; [by split|].
  destruct (pl_launchActive p) eqn:Ea.
  { branch; split; simpl; rewrite ?Ea; auto. }
  destruct (pl_pc p) eqn:Epc; simpl in Ha; try done.
  branch; [branch; split; simpl; rewrite ?Epc, ?Ea; auto|].
  assert (pl_holder p <> Some HeldByLaunch) by (rewrite Hh; done).
  repeat branch; split; simpl; auto; try done; intros; simplify_eq; try done; auto.
Qed.

Lemma launch_ok_owner_error p now pc :
  launch_ok p -> 0 < now -> (forall g, pc_generation pc = Some g -> pc_generation (pl_pc p) = Some g) ->
  pc_alive pc = pc_alive (pl_pc p) -> pc_holds pc = false -> launch_ok ((finishProbeOwnerError p true now) <| pl_pc := pc |>).
Proof.
  intros [Ha Hh Hr Ho Hn Hp] Hnow Hg Hal Hho. split; simpl; try (unfold Add, probeBackoff, Minute, Second; simpl; lia); try done.
  - by rewrite Hal.
  - rewrite Hho. done.
Qed.

Lemma launch_ok_finish p t g now :
  launch_ok p -> 0 < now -> pl_pc p = LaunchFinish t g ->
  let '(p', again) := finishProbeLaunch p t g now in
  launch_ok (p' <| pl_pc := match again with Some recoverNext => LaunchTop recoverNext g | None => LaunchNone end |>)
  /\ (pl_rerunPending p = true -> pl_rerunPending p' = false -> again = None -> 0 < pl_retryAt p').
Proof.
  intros [Ha Hh Hr Ho Hn Hp] Hnow Epc. rewrite Epc in Ha, Hh, Hn. simpl in *.
  assert (pl_holder p <> Some HeldByLaunch) as Hnl by (rewrite Hh; done).
  assert (0 < Add now (probeBackoff 1)) as Hpos by (unfold Add, probeBackoff, Minute, Second; simpl; lia).
  specialize (Hn g eq_refl). unfold finishProbeLaunch.
  set (p0 := if (tu_recoveryAttempted t && tu_recoveryErr t) || tu_recoveryRequired t then p <| pl_recoveryPending := true |> else p).
  assert (pl_retryGeneration p0 = pl_retryGeneration p /\ pl_ownerRetryPending p0 = pl_ownerRetryPending p /\ pl_retryAt p0 = pl_retryAt p
          /\ pl_rerunPending p0 = pl_rerunPending p /\ pl_holder p0 = pl_holder p /\ pl_launchActive p0 = pl_launchActive p)
    as (E1 & E2 & E3 & E4 & E5 & E6) by (unfold p0; by branch).
  rewrite E1, E2. destruct (pl_retryGeneration p =? g) eqn:Eg; to_prop; [subst g|]; simpl;
    destruct (tu_runErr t || tu_recoveryRequired t) eqn:Er, (pl_ownerRetryPending p) eqn:Eo; simpl.
  all: rewrite ?E3, ?E4, ?E5, ?E6; try (split; [split; simpl; rewrite ?E1, ?E2, ?E3, ?E4, ?E5, ?E6, ?Eo; auto; try done; lia|]; intros; simpl; rewrite ?E3; auto; fail).
  destruct (pl_rerunPending p) eqn:Ep, (tu_dueOwned t), (bool_decide (pl_holder p = None)) eqn:Eh; simpl; rewrite ?E4;
    (split; [split; simpl; rewrite ?E1, ?E2, ?E4, ?E5, ?E6, ?Eo; auto; try done|done]).
  4: intros _; right; by apply bool_decide_eq_false in Eh.
  all: intros g' [= <-] []; done.
Qed.

Lemma launch_ok_goroutine p p' enabled failed required now :
  launch_ok p -> 0 < now -> launch_step p enabled failed required now = Some p' -> launch_ok p'.
Proof.
  intros Hok Hnow. pose proof Hok as [Ha Hh Hr Ho Hn Hp]. unfold launch_step.
  destruct (pl_pc p) as [|rf g|g|rf g|rf g|t g] eqn:Epc; [done|..]; simpl in *.
  - destruct rf.
    + repeat branch; intros; simplify_eq; try done; (split; simpl; auto; try done; naive_solver).
    + intros; simplify_eq. split; simpl; auto.
  - destruct failed; [intros [= <-]; apply launch_ok_owner_error; simpl; rewrite ?Epc; auto|].
    unfold endPass. branch; intros [= <-]; split; simpl; rewrite ?Epc; auto; try done; naive_solver.
  - unfold beginDue. repeat branch; simplify_eq; intros [= <-]; (split; simpl; auto; try done; naive_solver).
  - destruct failed; [intros [= <-]; apply launch_ok_owner_error; simpl; rewrite ?Epc; auto|].
    unfold endPass. branch; simpl; intros [= <-]; [split; simpl; rewrite ?Epc; auto; done|].
    destruct required as [b|]; split; simpl; auto; try done; naive_solver.
  - pose proof (launch_ok_finish p t g now Hok Hnow Epc) as H. destruct (finishProbeLaunch p t g now) as [q again].
    intros [= <-]. apply H.
Qed.

Lemma launch_ok_step p p' : launch_ok p -> probe_step p p' -> launch_ok p'.
Proof.
  intros Hok Hs. destruct Hs as [p enabled rf timer now|p p' enabled failed required now Hnow E|p enabled|p Eh|p h Eh Hh|p h now Eh Hh Hnow|p b].
  - by apply launch_ok_launch.
  - by eapply launch_ok_goroutine.
  - destruct Hok as [Ha Hh Hr Ho Hn Hp]. unfold beginDue.
    destruct enabled; simpl; [|by split]. destruct (bool_decide (pl_holder p = None)) eqn:Eh; simpl.
    + apply bool_decide_eq_true in Eh. split; simpl; auto; try done.
      split; [done|]. intros Hq. apply Hh in Hq. congruence.
    + apply bool_decide_eq_false in Eh. split; simpl; auto.
  - destruct Hok as [Ha Hh Hr Ho Hn Hp]. split; simpl; auto; try done.
    split; [done|]. intros Hq. apply Hh in Hq. congruence.
  - destruct Hok as [Ha Hho Hr Ho Hn Hp]. unfold endPass.
    destruct (pl_rerunPending p) eqn:Er; simpl; split; simpl; rewrite ?Er; auto; try done.
    split; [done|]. intros Hq. apply Hho in Hq. congruence.
  - pose proof (lo_holds _ Hok) as Hho. pose proof (launch_ok_owner_error p now (pl_pc p) Hok Hnow) as H.
    destruct (pc_holds (pl_pc p)) eqn:Eq; [assert (pl_holder p = Some HeldByLaunch) by (by apply Hho); congruence|].
    specialize (H (fun g E => E) eq_refl eq_refl). by destruct H; split.
  - destruct Hok. by split.
Qed.

Lemma reached_launch_ok p : probe_reached p -> launch_ok p.
Proof. induction 1; eauto using noLaunch_ok, launch_ok_step. Qed.

(** A probe pass runs, or the launch goroutine goes round again. *)
Definition passing (p : ProbeLaunch) : Prop := pl_holder p <> None \/ exists recoverFirst g, pl_pc p = LaunchTop recoverFirst g.

Lemma rerun_taken p p' :
  launch_ok p -> probe_step p p' -> pl_rerunPending p = true -> pl_rerunPending p' = false ->
  passing p' \/ 0 < pl_retryAt p'.
Proof.
  intros Hok Hs Hr. assert (forall now, 0 < now -> 0 < Add now (probeBackoff 1)) as Hpos
    by (intros; unfold Add, probeBackoff, Minute, Second; simpl; lia).
  destruct Hs as [p enabled rf timer now|p p' enabled failed required now Hnow E|p enabled|p Eh|p h Eh Hh|p h now Eh Hh Hnow|p b];
    simpl; try congruence.
  - unfold launchProbeWithAdmission. repeat branch; simpl; congruence.
  - revert E. unfold launch_step. destruct (pl_pc p) as [|rf g|g|rf g|rf g|t g] eqn:Epc; [done|..].
    + destruct rf; repeat branch; intros; simplify_eq; simpl in *; congruence.
    + pose proof (proj2 (lo_holds _ Hok)) as Hh. rewrite Epc in Hh. specialize (Hh eq_refl).
      destruct failed; [intros [= <-] _; right; simpl; auto|]. unfold endPass. rewrite Hr. intros [= <-] _. left. left. simpl. congruence.
    + unfold beginDue. repeat branch; simplify_eq; intros [= <-]; simpl; try congruence. intros _. by left; left.
    + pose proof (proj2 (lo_holds _ Hok)) as Hh. rewrite Epc in Hh. specialize (Hh eq_refl).
      destruct failed; [intros [= <-] _; right; simpl; auto|]. unfold endPass. rewrite Hr. intros [= <-] _. left. left. simpl. congruence.
    + pose proof (launch_ok_finish p t g now Hok Hnow Epc) as H. destruct (finishProbeLaunch p t g now) as [q again].
      intros [= <-] Hq. destruct H as [_ H]. destruct again as [b|]; [left; right; simpl; eauto|]. right. simpl. auto.
  - unfold beginDue. destruct enabled; simpl; [|congruence]. destruct (bool_decide (pl_holder p = None)); simpl; [|done].
    intros _. by left; left.
  - unfold endPass. rewrite Hr. simpl. intros _. left. left. simpl. congruence.
  - intros _. right. auto.
Qed.

(** A probe pass asked for while another runs is never lost, however the launch
    goroutine and other callers interleave: the request stays pending only while
    somebody is there to take it, it is given up only for a pass or for a retry
    time, and once that time has come the next timer starts a launch. *)
Theorem probe_request_not_lost (p p' : ProbeLaunch) :
  probe_reached p -> probe_step p p' ->
  (pl_rerunPending p = true -> pl_launchActive p = true \/ pl_holder p <> None)
  /\ (pl_rerunPending p = true -> pl_rerunPending p' = false -> passing p' \/ 0 < pl_retryAt p')
  /\ (forall now, pl_launchActive p = false -> pl_stopping p = false -> pl_retryAt p <= now ->
        exists recoverFirst, pl_pc (launchProbeWithAdmission p true false true now) = LaunchTop recoverFirst (pl_retryGeneration p)
          /\ probeLaunchAdmissionCurrentLocked (launchProbeWithAdmission p true false true now) (pl_retryGeneration p) = true).
Proof.
  intros Hp%reached_launch_ok Hs. split_and!; [apply Hp|by apply rerun_taken|].
  intros now Ha Hst Hnow. unfold launchProbeWithAdmission. rewrite Ha, Hst. simpl. pose proof (lo_owner _ Hp) as Ho.
  destruct (IsZero (pl_retryAt p)) eqn:Ez; simpl.
  - destruct (pl_ownerRetryPending p) eqn:Eo; [exfalso; specialize (Ho eq_refl); time_lia|].
    branch; simpl; unfold probeLaunchAdmissionCurrentLocked; simpl; rewrite Z.eqb_refl, ?Eo; eauto.
  - replace (Before now (pl_retryAt p)) with false by time_lia. simpl.
    branch; simpl; unfold probeLaunchAdmissionCurrentLocked; simpl; rewrite Z.eqb_refl; eauto.
Qed.

(** Two launches, the second while the first runs its pass, which then fails. *)
Definition example_launched : ProbeLaunch := launchProbeWithAdmission noLaunch true false false 100.
Definition example_turn : ProbeLaunch := default noLaunch (launch_step example_launched true false None 100).
Definition example_pass : ProbeLaunch := default noLaunch (launch_step example_turn true false None 100).
Definition example_launch : ProbeLaunch := launchProbeWithAdmission example_pass true true false 101.

Lemma example_launch_reached : probe_reached example_launch.
Proof.
  apply probe_next with example_pass; [|apply step_launch].
  apply probe_next with example_turn; [|apply (step_goroutine _ _ true false None 100); [lia|reflexivity]].
  apply probe_next with example_launched; [|apply (step_goroutine _ _ true false None 100); [lia|reflexivity]].
  apply probe_next with noLaunch; [apply probe_initial|apply step_launch].
Qed.

Lemma probe_request_not_lost_witness :
  let p' := default noLaunch (launch_step example_launch true true None 102) in
  pl_rerunPending example_launch = true /\ pl_rerunPending p' = false /\ (passing p' \/ 0 < pl_retryAt p').
Proof.
  assert (probe_step example_launch (default noLaunch (launch_step example_launch true true None 102))) as Hs
    by (apply (step_goroutine _ _ true true None 102); [lia|reflexivity]).
  destruct (probe_request_not_lost _ _ example_launch_reached Hs) as (_ & H & _).
  split; [reflexivity|]. split; [reflexivity|]. apply H; reflexivity.
Defined.

(** ** The delay of the loop

    [earlier t d]: the earlier of two deadlines, of which zero means none. *)

Definition earlier (t d : Time) : Time := if negb (IsZero t) && (IsZero d || Before t d) then t else d.

Section delay.
Context `{MapRange}.

(** The probe part: the retry time, or the earliest window; and the earliest
    attempt of the write-ahead log when it lies ahead. *)
Definition probeLoopDeadline (launch : ProbeLaunch) (controller : ProbeController) (wal : option StateStore) (now : Time) (io : load_io) : Time :=
  let launchActive := pl_launchActive launch in
  let probeRetryAt := pl_retryAt launch in
  let probe := if negb launchActive && negb (IsZero probeRetryAt) then probeRetryAt
               else if negb launchActive then NextDeadline controller else zeroTime in
  match wal with
  | Some store =>
      if negb launchActive && IsZero probeRetryAt then
        let '(recoveryDue, ok) := (RecoveryDeadline store io).2 in
        if ok && After recoveryDue now then
          if IsZero probe || Before recoveryDue probe then recoveryDue else probe
        else probe
      else probe
  | None => probe
  end.

(** [clock] is read by [NextRefreshDueAt] when [now] is zero; [io1] and [io2] are
    the reads of the state file by the log and by the managed records. *)
Definition nextRefreshLoopDelay (c : RefreshController) (launch : ProbeLaunch) (probe : option ProbeController) (wal runtime : option StateStore)
    (s : PluginState) (clock now : Time) (io1 io2 : load_io) : RefreshController * option Duration :=
  let '(c, deadline) := controllerDeadline c now in
  let deadline :=
    match probe with
    | Some controller =>
        if EnableResetProbe (st_cfg s)
        then earlier (probeLoopDeadline launch controller wal now io1) deadline else deadline
    | None => deadline
    end in
  let deadline := earlier (NextRefreshDueAt s clock now) deadline in
  let deadline := earlier (match runtime with Some store => managedRecoveryDeadline (st_cfg s) store now io2 | None => zeroTime end) deadline in
  if IsZero deadline then (c, None)
  else let delay := Sub deadline now in (c, Some (if delay <? 0 then 0 else delay)).

(** What the loop has to wake up for, and when. *)
Inductive probe_wake (launch : ProbeLaunch) (controller : ProbeController) (wal : option StateStore) (now : Time) (io : load_io) : Time -> Prop :=
  | wake_retry :
      pl_launchActive launch = false -> pl_retryAt launch <> 0 -> probe_wake launch controller wal now io (pl_retryAt launch)
  | wake_window i k ws w :
      pl_launchActive launch = false -> pl_retryAt launch = 0 ->
      pr_windows controller !! i = Some ws -> ws !! k = Some w -> sleeping w = true -> pw_Deadline w <> 0 ->
      probe_wake launch controller wal now io (pw_Deadline w)
  | wake_attempt store t :
      pl_launchActive launch = false -> pl_retryAt launch = 0 ->
      wal = Some store -> (RecoveryDeadline store io).2 = (t, true) -> now < t -> probe_wake launch controller wal now io t.

Inductive wake_source (c : RefreshController) (launch : ProbeLaunch) (probe : option ProbeController) (wal runtime : option StateStore)
    (s : PluginState) (clock now : Time) (io1 io2 : load_io) : Time -> Prop :=
  | wake_controller t : (controllerDeadline c now).2 = t -> t <> 0 -> wake_source c launch probe wal runtime s clock now io1 io2 t
  | wake_probe controller t :
      probe = Some controller -> EnableResetProbe (st_cfg s) = true -> probe_wake launch controller wal now io1 t ->
      wake_source c launch probe wal runtime s clock now io1 io2 t
  | wake_account t : NextRefreshDueAt s clock now = t -> t <> 0 -> wake_source c launch probe wal runtime s clock now io1 io2 t
  | wake_managed store persisted index record :
      runtime = Some store -> EnableManagedQuotaDisable (st_cfg s) = true -> (PersistentSnapshot store io2).2 = Ok persisted ->
      ps_ManagedLifecycle persisted !! index = Some record -> mr_DisableApplied record = true ->
      wake_source c launch probe wal runtime s clock now io1 io2 (mr_NextQuotaCheckAt record).

Lemma earlier_spec t d : (earlier t d = t /\ t <> 0 \/ earlier t d = d) /\ (t <> 0 -> earlier t d <> 0 /\ earlier t d <= t)
  /\ (d <> 0 -> earlier t d <> 0 /\ earlier t d <= d).
Proof. unfold earlier. destruct (IsZero t) eqn:E1, (IsZero d) eqn:E2, (Before t d) eqn:E3; simpl; time_lia. Qed.

Lemma earlier_all d0 dp da dm :
  let D := earlier dm (earlier da (earlier dp d0)) in
  (D = d0 \/ D = dp /\ dp <> 0 \/ D = da /\ da <> 0 \/ D = dm /\ dm <> 0)
  /\ (forall x, x = d0 \/ x = dp \/ x = da \/ x = dm -> x <> 0 -> D <> 0 /\ D <= x).
Proof.
  cbv zeta. destruct (earlier_spec dp d0) as (A1 & A2 & A3). generalize dependent (earlier dp d0). intros e1 A1 A2 A3.
  destruct (earlier_spec da e1) as (B1 & B2 & B3). generalize dependent (earlier da e1). intros e2 B1 B2 B3.
  destruct (earlier_spec dm e2) as (D1 & D2 & D3). generalize dependent (earlier dm e2). intros D D1 D2 D3.
  split.
  - destruct D1 as [[-> ?]| ->]; [by do 3 right|]. destruct B1 as [[-> ?]| ->]; [by do 2 right; left|].
    destruct A1 as [[-> ?]| ->]; [by right; left|by left].
  - intros x [->|[->|[->| ->]]] Hn.
    + destruct (A3 Hn) as [N1 L1]. destruct (B3 N1) as [N2 L2]. destruct (D3 N2). split; [done|clear - L1 L2 H1; lia].
    + destruct (A2 Hn) as [N1 L1]. destruct (B3 N1) as [N2 L2]. destruct (D3 N2). split; [done|clear - L1 L2 H1; lia].
    + destruct (B2 Hn) as [N2 L2]. destruct (D3 N2). split; [done|clear - L2 H1; lia].
    + auto.
Qed.

Lemma earliest_fold {A} (f : A -> Time) (step : Time -> A -> Time) (l : list A) (d : Time) :
  (forall d x, step d x = earlier (f x) d) ->
  let r := foldl step d l in
  (r = d \/ exists x, x ∈ l /\ r = f x /\ f x <> 0) /\ (d <> 0 -> r <> 0 /\ r <= d) /\ (forall x, x ∈ l -> f x <> 0 -> r <> 0 /\ r <= f x).
Proof.
  intros Hs. revert d. induction l as [|y l IH]; intros d; simpl; [split_and!; [by left|lia|set_solver]|].
  rewrite Hs. destruct (IH (earlier (f y) d)) as (H1 & H2 & H3). destruct (earlier_spec (f y) d) as (E1 & E2 & E3). split_and!.
  - destruct H1 as [->|(x & Hx & Er & Hf)]; [|right; exists x; set_solver].
    destruct E1 as [[-> Hy]| ->]; [right; exists y; set_solver|by left].
  - intros Hd. destruct (E3 Hd), H2; [done|lia].
  - intros x [->|Hx]%elem_of_cons Hf; [destruct (E2 Hf), H2; [done|lia]|auto].
Qed.

Lemma NextDeadline_spec controller :
  let r := NextDeadline controller in
  (r = 0 \/ exists i ws k w, pr_windows controller !! i = Some ws /\ ws !! k = Some w /\ sleeping w = true /\ r = pw_Deadline w /\ r <> 0)
  /\ (forall i ws k w, pr_windows controller !! i = Some ws -> ws !! k = Some w -> sleeping w = true -> pw_Deadline w <> 0 ->
        r <> 0 /\ r <= pw_Deadline w).
Proof.
  cbv zeta. unfold NextDeadline. set (l := concat _). set (f := fun w => if sleeping w then pw_Deadline w else 0).
  assert (forall w, w ∈ l <-> exists i ws k, pr_windows controller !! i = Some ws /\ ws !! k = Some w) as Hl.
  { intros w. unfold l. rewrite list_elem_of_In, in_concat. setoid_rewrite <- list_elem_of_In. setoid_rewrite list_elem_of_fmap.
    split.
    - intros (? & (ws & -> & Hws) & Hw). apply list_elem_of_fmap in Hws as ([i ?] & -> & Hi). apply list_elem_of_fmap in Hw as ([k ?] & -> & Hk).
      apply elem_of_map_range in Hi, Hk. eauto.
    - intros (i & ws & k & Hi & Hk). exists ((map_range ws).*2). split.
      + exists ws. split; [done|]. apply list_elem_of_fmap. exists (i, ws). by rewrite elem_of_map_range.
      + apply list_elem_of_fmap. exists (k, w). by rewrite elem_of_map_range. }
  destruct (earliest_fold f (fun out w => if negb (sleeping w) then out
      else if negb (IsZero (pw_Deadline w)) && (IsZero out || Before (pw_Deadline w) out) then pw_Deadline w else out) l zeroTime)
    as (H1 & _ & H3); [by intros; unfold earlier, f; destruct (sleeping _)|]. split.
  - destruct H1 as [->|(w & Hw & -> & Hf)]; [by left|]. right. apply Hl in Hw as (i & ws & k & Hi & Hk). exists i, ws, k, w.
    unfold f in *. by destruct (sleeping w).
  - intros i ws k w Hi Hk Hs Hd. replace (pw_Deadline w) with (f w) by (unfold f; by rewrite Hs).
    apply H3; [apply Hl; eauto|]. unfold f. by rewrite Hs.
Qed.

Lemma managedRecoveryDeadline_spec cfg store now io :
  0 < now ->
  let r := managedRecoveryDeadline cfg store now io in
  let applied index record := exists persisted, EnableManagedQuotaDisable cfg = true /\ (PersistentSnapshot store io).2 = Ok persisted
    /\ ps_ManagedLifecycle persisted !! index = Some record /\ mr_DisableApplied record = true in
  (r = 0 \/ exists index record, applied index record /\ r = Z.max now (mr_NextQuotaCheckAt record))
  /\ (forall index record, applied index record -> r <> 0 /\ r <= Z.max now (mr_NextQuotaCheckAt record)).
Proof.
  intros Hnow. cbv zeta. unfold managedRecoveryDeadline. destruct (EnableManagedQuotaDisable cfg); simpl; [|split; [by left|naive_solver]].
  destruct (PersistentSnapshot store io).2 as [persisted|e]; simpl; [|split; [by left|naive_solver]].
  set (f := fun record => if mr_DisableApplied record then Z.max now (mr_NextQuotaCheckAt record) else 0).
  destruct (earliest_fold f (deadline_step now) (map_range (ps_ManagedLifecycle persisted)).*2 zeroTime) as (H1 & _ & H3).
  { intros d record. unfold deadline_step, earlier, f. destruct (mr_DisableApplied record); [|done]. simpl.
    destruct (IsZero (mr_NextQuotaCheckAt record) || Before (mr_NextQuotaCheckAt record) now) eqn:E.
    - replace (Z.max now (mr_NextQuotaCheckAt record)) with now by (revert E; time_unfold; lia).
      by replace (IsZero now) with false by time_lia.
    - replace (Z.max now (mr_NextQuotaCheckAt record)) with (mr_NextQuotaCheckAt record) by (revert E; time_unfold; lia).
      by replace (IsZero (mr_NextQuotaCheckAt record)) with false by (revert E; time_unfold; lia). }
  split.
  - destruct H1 as [->|(record & Hr & -> & Hf)]; [by left|right].
    apply list_elem_of_fmap in Hr as ([index record'] & -> & Hi). apply elem_of_map_range in Hi. simpl in *. unfold f in *.
    destruct (mr_DisableApplied record') eqn:Ea; [|done]. exists index, record'. eauto 10.
  - intros index record (p & _ & [= <-] & Hi & Ha). assert (f record = Z.max now (mr_NextQuotaCheckAt record)) as Ef by (unfold f; by rewrite Ha).
    rewrite <- Ef. apply H3; [|rewrite Ef; lia]. apply list_elem_of_fmap. exists (index, record). by rewrite elem_of_map_range.
Qed.

Lemma probeLoopDeadline_spec launch controller wal now io :
  0 < now ->
  let r := probeLoopDeadline launch controller wal now io in
  (r = 0 \/ probe_wake launch controller wal now io r /\ r <> 0)
  /\ (forall t, probe_wake launch controller wal now io t -> r <> 0 /\ r <= t).
Proof.
  intros Hnow. cbv zeta. unfold probeLoopDeadline. destruct (pl_launchActive launch) eqn:Ea; simpl.
  { destruct wal; split; [by left|intros t Ht; destruct Ht; congruence|by left|intros t Ht; destruct Ht; congruence]. }
  destruct (decide (pl_retryAt launch = 0)) as [Er|Er].
  2: { assert (IsZero (pl_retryAt launch) = false) as Ez by time_lia. rewrite Ez. simpl.
       replace (match wal with Some _ | None => pl_retryAt launch end) with (pl_retryAt launch) by (by destruct wal).
       split; [right; split; [by constructor|done]|]. intros t Ht. destruct Ht; [lia|congruence..]. }
  assert (IsZero (pl_retryAt launch) = true) as Ez by time_lia. rewrite Ez. simpl.
  destruct (NextDeadline_spec controller) as [H1 H2].
  assert (forall r, (r = 0 \/ r = NextDeadline controller) -> r = 0 \/ probe_wake launch controller wal now io r /\ r <> 0) as Hw.
  { intros r [->| ->]; [by left|]. destruct H1 as [->|(i & ws & k & w & Hi & Hk & Hs & -> & Hd)]; [by left|right].
    split; [by eapply wake_window|done]. }
  destruct wal as [store|]; [|split; [auto|]; intros t Ht; destruct Ht; naive_solver].
  destruct (RecoveryDeadline store io).2 as [due ok] eqn:Ed. set (r := if ok && After due now then _ else _).
  assert (r = earlier (if ok && After due now then due else 0) (NextDeadline controller)) as ->.
  { unfold r, earlier. destruct (ok && After due now) eqn:E; [|done]. apply andb_true_iff in E as [-> E].
    assert (IsZero due = false) as -> by (revert E Hnow; clear; time_unfold; lia). done. }
  destruct (earlier_spec (if ok && After due now then due else 0) (NextDeadline controller)) as (E1 & E2 & E3). split.
  - destruct E1 as [[-> Hne]| ->]; [|auto]. destruct ok, (After due now) eqn:Ea'; try done. right. split; [|done].
    apply (wake_attempt _ _ _ _ _ store due); [done|done|done|done|by apply Z.ltb_lt].
  - intros t Ht. destruct Ht as [|i k ws w _ _ Hi Hk Hs Hd|store' t _ _ [= <-] Ed' Hlt]; [congruence|..].
    + destruct (H2 _ _ _ _ Hi Hk Hs Hd) as [Hn Hle]. destruct (E3 Hn). lia.
    + rewrite Ed' in Ed. injection Ed as <- <-. assert (After t now = true) as Ht by (by apply Z.ltb_lt). rewrite Ht in *. simpl in *. apply E2. lia.
Qed.

(** The delay of the refresh loop is exact.  Whatever the plugin waits for (the
    next interval or the end of the active window, a probe retry, a probe window,
    an attempt to verify, a due account, a disabled account to check again), the
    loop wakes up no later than its time, or at once when the time has passed;
    and it sets a timer only for one of them. *)
Theorem loop_wakes_in_time (c : RefreshController) (launch : ProbeLaunch) (probe : option ProbeController) (wal runtime : option StateStore)
    (s : PluginState) (clock now : Time) (io1 io2 : load_io) :
  0 < now ->
  let delay := (nextRefreshLoopDelay c launch probe wal runtime s clock now io1 io2).2 in
  let source := wake_source c launch probe wal runtime s clock now io1 io2 in
  (forall t, source t -> exists d, delay = Some d /\ 0 <= d /\ now + d <= Z.max now t)
  /\ (forall d, delay = Some d -> exists t, source t /\ d = Z.max 0 (Sub t now)).
Proof.
  intros Hnow. cbv zeta. unfold nextRefreshLoopDelay. destruct (controllerDeadline c now) as [c' d0] eqn:Ec.
  set (dp := match probe with Some controller => if EnableResetProbe (st_cfg s) then probeLoopDeadline launch controller wal now io1 else 0
             | None => 0 end).
  assert (dp = 0 \/ wake_source c launch probe wal runtime s clock now io1 io2 dp) as Hp1.
  { unfold dp. destruct probe as [controller|]; [|by left]. destruct (EnableResetProbe (st_cfg s)) eqn:Ee; [|by left].
    destruct (probeLoopDeadline_spec launch controller wal now io1 Hnow) as [[->|[Hw _]] _]; [by left|right; by eapply wake_probe]. }
  set (da := NextRefreshDueAt s clock now).
  set (dm := match runtime with Some store => managedRecoveryDeadline (st_cfg s) store now io2 | None => zeroTime end).
  assert (dm = 0 \/ exists t, wake_source c launch probe wal runtime s clock now io1 io2 t /\ dm = Z.max now t) as Hm1.
  { unfold dm. destruct runtime as [store|]; [|by left].
    destruct (managedRecoveryDeadline_spec (st_cfg s) store now io2 Hnow) as [[->|(i & r & (p & ? & ? & ? & ?) & ->)] _]; [by left|right].
    eexists. split; [by eapply wake_managed|done]. }
  replace (match probe with Some controller => if EnableResetProbe (st_cfg s)
             then earlier (probeLoopDeadline launch controller wal now io1) d0 else d0 | None => d0 end) with (earlier dp d0)
    by (unfold dp; destruct probe; [destruct (EnableResetProbe (st_cfg s))|]; done).
  destruct (earlier_all d0 dp da dm) as [D1 D2]. set (D := earlier dm _) in *. clearbody D.
  assert (forall t x, (x = d0 \/ x = dp \/ x = da \/ x = dm) -> x <> 0 -> x <= Z.max now t -> D <> 0 /\ D <= Z.max now t) as Hle.
  { intros t x Hx Hn Hl. destruct (D2 x Hx Hn) as [H1 H2]. split; [done|]. by transitivity x. }
  split.
  - intros t Ht. assert (D <> 0 /\ D <= Z.max now t) as [Hn HD].
    { destruct Ht as [t Et Hz|controller t Ep Ee Hw|t Et Hz|store p i r Er He Hps Hi Hap].
      - rewrite Ec in Et. simpl in Et. apply (Hle t d0); [auto|congruence|rewrite Et; apply Z.le_max_r].
      - destruct (probeLoopDeadline_spec launch controller wal now io1 Hnow) as [_ H2]. apply H2 in Hw as [? ?].
        apply (Hle t dp); unfold dp; rewrite Ep, Ee; [auto|done|]. rewrite Z.max_le_iff; auto.
      - apply (Hle t da); [auto|unfold da; congruence|]. unfold da. rewrite Et. apply Z.le_max_r.
      - destruct (managedRecoveryDeadline_spec (st_cfg s) store now io2 Hnow) as [_ H2].
        destruct (H2 i r) as [? ?]; [by exists p|]. apply (Hle _ dm); unfold dm; rewrite Er; auto. }
    assert (IsZero D = false) as -> by (by apply Z.eqb_neq). simpl. eexists. split; [done|]. clear - HD. branch; time_lia.
  - intros d. destruct (IsZero D) eqn:Ez; [done|]. simpl. intros [= <-].
    assert (exists t, wake_source c launch probe wal runtime s clock now io1 io2 t /\ (D = t \/ D = Z.max now t)) as (t & Ht & HD).
    { apply Z.eqb_neq in Ez. destruct D1 as [HD|[[HD Hz]|[[HD Hz]|[HD Hz]]]].
      - exists d0. split; [apply wake_controller; [by rewrite Ec|congruence]|auto].
      - destruct Hp1 as [?|?]; [done|]. eauto.
      - exists da. split; [by apply wake_account|auto].
      - destruct Hm1 as [?|(t & ? & ?)]; [done|]. exists t. split; [done|right; congruence]. }
    exists t. split; [done|]. clear - HD Hnow. branch; time_lia.
Qed.
End delay.

(** A controller that waits for its next interval at 110, with a probe retry at
    105 before it. *)
Definition example_retry : ProbeLaunch := noLaunch <| pl_retryAt := 105 |> <| pl_ownerRetryPending := true |>.
Definition example_probing : PluginState := NewPluginState (DefaultConfig <| EnableResetProbe := true |>).

Lemma loop_wakes_in_time_witness :
  exists d, (nextRefreshLoopDelay example_active example_retry (Some (mkProbeController ∅ 0)) None None example_probing 101 101 io_fine io_fine).2
      = Some d /\ 0 <= d /\ 101 + d <= Z.max 101 105.
Proof.
  apply (loop_wakes_in_time example_active example_retry (Some (mkProbeController ∅ 0)) None None example_probing 101 101 io_fine io_fine); [lia|].
  apply (wake_probe _ _ _ _ _ _ _ _ _ _ (mkProbeController ∅ 0)); [reflexivity|reflexivity|].
  apply (wake_retry example_retry); [reflexivity|discriminate].
Defined.

(** While the host cannot return the file of a disabled account whose check is
    due, the recovery changes nothing and the loop's timer fires at once again,
    for as long as the host fails. *)
Definition example_unreadable : managed_env := let env := example_answers SaveAccepted (4 * Hour) in
  mkManagedEnv (fun _ => true) (me_save env) (me_quota env) (me_now env) (me_later env) (me_snapshot env) (me_first env) (me_second env).

Theorem unreadable_account_spins_loop :
  let s := example_disabled.1.1 in
  let applied := (confirmManagedDisable example_managed s "1" (example_answers SaveAccepted (1 * Hour))).1 in
  let '(after, _, err) := RecoverManagedQuotaAccounts example_digest example_noCanonical example_managed applied example_disabled.1.2 example_unreadable in
  after = applied /\ err = Some ErrManagedHost
  /\ (nextRefreshLoopDelay (NewRefreshController 0 0) noLaunch None None (Some after) (NewPluginState example_managed) (4 * Hour) (4 * Hour)
        io_fine io_fine).2 = Some 0.
Proof. vm_compute. split_and!; reflexivity. Qed.
