(* ===== verification/RosterGate.v ===== *)
(** * Roster lifecycle of the refresher (refresh.go)

    The refresher keeps its own copy of the roster and asks it before every
    background request.  The copy changes when the roster controller notifies a
    new lifecycle, when a roster is published, and when a degraded roster
    reaches its limit at the moment of a request.  The lifecycle gate is the
    controller itself: asking it may close its roster, which it notifies.

    On a host that cannot confirm its roster, probes may run on the roster that
    was confirmed last, once its credentials were read back from the host; each
    verification is good for one pass.  Credentials the host returns are the
    argument [getCredentials], file contents decoded; SHA-256 and the canonical
    form of JSON are parameters. *)

From S2P Require Import Prelude Float64 Config Models Capability Identity Roster StateStore Bindings Managed.
#[local] Open Scope string_scope.
#[local] Open Scope list_scope.
#[local] Open Scope Z_scope.
#[local] Open Scope go_scope.

Definition rosterLifecycleDegraded : string := "degraded".
Definition rosterLifecycleProvisional : string := "provisional".

Definition failClosedRosterAt (roster : HostRosterSnapshot) (now : Time) : HostRosterSnapshot * bool :=
  let roster := normalizeHostRosterLifecycle roster in
  if negb (bool_decide (hr_Capability roster = CapabilityA)) || negb (hr_Confirmed roster)
     || negb (bool_decide (hr_Health roster = RosterDegraded)) || IsZero (hr_DegradedSince roster)
     || Before now (Add (hr_DegradedSince roster) rosterDegradedLimit)
  then (roster, false)
  else (roster <| hr_Health := RosterFailClosed |> <| hr_BackgroundAllowed := false |>
               <| hr_LifecycleRevision := u64 (hr_LifecycleRevision roster + 1) |>, true).

(** The refresher's view: its roster, the controller behind the gate (if any),
    and how often the probes were put on hold. *)
Record Gate := mkGate {
  gt_roster : HostRosterSnapshot;
  gt_controller : option RosterController;
  gt_holds : nat;
}.
#[export] Instance Gate_eta : Eta Gate := fun r => mkGate (gt_roster r) (gt_controller r) (gt_holds r).

Definition persistProbeRosterHold (g : Gate) : Gate := g <| gt_holds := S (gt_holds g) |>.

(** [ObserveRosterLifecycle] up to the request to start the loop; [cfg] is [None]
    without a plugin state. *)
Definition ObserveRosterLifecycle (g : Gate) (cfg : option Config) (active : ActiveRoster) (now : Time) : Gate :=
  let next := hostRosterSnapshotFromActive active in
  let next := if hr_Provisional next
                 && (negb (provisionalAgeValid now (hr_ConfirmedAt next))
                     || negb (match cfg with Some cfg => ProbeOnProvisionalRoster cfg | None => false end))
              then next <| hr_BackgroundAllowed := false |> else next in
  let next := if hr_LifecycleRevision next =? 0
              then next <| hr_LifecycleRevision := u64 (hr_LifecycleRevision (gt_roster g) + 1) |> else next in
  if hr_LifecycleRevision next <=? hr_LifecycleRevision (gt_roster g) then g
  else
    let g := g <| gt_roster := next |> in
    if bool_decide (hr_Health next = RosterFailClosed) then persistProbeRosterHold g else g.

(** The gate: the controller closes an expired roster and notifies it. *)
Definition lifecycleGate (g : Gate) (cfg : option Config) (now : Time) : Gate :=
  match gt_controller g with
  | None => g
  | Some c =>
      let '(c, events, _) := EnforceLifecycle c now in
      foldl (fun g event => match event with
                            | NotifyRoster active => ObserveRosterLifecycle g cfg active now
                            | CancelInstances _ => g
                            end) (g <| gt_controller := Some c |>) events
  end.

Definition enforceRosterLifecycle (g : Gate) (cfg : option Config) (now : Time) : Gate * HostRosterSnapshot :=
  let g := lifecycleGate g cfg now in
  let '(next, transitioned) := failClosedRosterAt (gt_roster g) now in
  if negb transitioned then (g, gt_roster g)
  else (persistProbeRosterHold (g <| gt_roster := next |>), next).

Definition normalRosterBackgroundAllowed (roster : HostRosterSnapshot) : bool :=
  bool_decide (hr_Capability roster = CapabilityA) && hr_Confirmed roster && hr_BackgroundAllowed roster
  && (bool_decide (hr_Health roster = RosterHealthy) || bool_decide (hr_Health roster = RosterDegraded)).

Definition provisionalProbeBackgroundAllowed (roster : HostRosterSnapshot) : bool :=
  bool_decide (hr_Capability roster = CapabilityB) && hr_Provisional roster && hr_BackgroundAllowed roster
  && bool_decide (hr_Health roster = RosterWaiting).

Definition normalBackgroundAllowed (g : Gate) (cfg : option Config) (now : Time) : Gate * bool :=
  let '(g, roster) := enforceRosterLifecycle g cfg now in
  (g, normalRosterBackgroundAllowed (normalizeHostRosterLifecycle roster)).

Definition resetProbeEnabled (cfg : option Config) : bool := match cfg with Some cfg => EnableResetProbe cfg | None => false end.

Definition probeBackgroundAllowed (g : Gate) (cfg : option Config) (now : Time) : Gate * bool :=
  if negb (resetProbeEnabled cfg) then (g, false)
  else
    let '(g, normal) := normalBackgroundAllowed g cfg now in
    if normal then (g, true)
    else
      let '(g, roster) := enforceRosterLifecycle g cfg now in
      let roster := normalizeHostRosterLifecycle roster in
      (g, provisionalProbeBackgroundAllowed roster
          && match cfg with Some cfg => ProbeOnProvisionalRoster cfg | None => false end
          && provisionalAgeValid now (hr_ConfirmedAt roster)).

Definition provisionalProbeRiskConfigured (g : Gate) (cfg : option Config) (now : Time) : bool :=
  if negb (match cfg with Some cfg => ProbeOnProvisionalRoster cfg | None => false end) then false
  else
    let roster := normalizeHostRosterLifecycle (gt_roster g) in
    bool_decide (hr_Capability roster = CapabilityB) && hr_Provisional roster && negb (hr_Confirmed roster)
    && provisionalAgeValid now (hr_ConfirmedAt roster).

(** A background request: refused, or sent to the host with the lifecycle header.
    The part after the gate runs under the lock of the roster, which is held
    until the host has answered.  [t1], [t2] and [t3] are the readings of the
    clock. *)
Inductive http_gate := GateRefused | GateSent (marker : option string).

Definition doHTTPUnderLock (g : Gate) (cfg : option Config) (probe : bool) (t1 t2 t3 : Time) : Gate * http_gate :=
  let roster := normalizeHostRosterLifecycle (gt_roster g) in
  if (failClosedRosterAt roster t1).2 then
    let '(latest, changed) := failClosedRosterAt (gt_roster g) t2 in
    let g := if changed then g <| gt_roster := latest |> else g in
    (persistProbeRosterHold g, GateRefused)
  else if bool_decide (cfg = None) && probe then (g, GateRefused)
  else if probe && negb (resetProbeEnabled cfg) then (g, GateRefused)
  else
    let allowed := normalRosterBackgroundAllowed roster || (probe && provisionalProbeBackgroundAllowed roster) in
    if hr_Provisional roster && bool_decide (cfg = None) then (g, GateRefused)
    else
      let allowed := allowed && negb (hr_Provisional roster
                       && (negb (match cfg with Some cfg => ProbeOnProvisionalRoster cfg | None => false end)
                           || negb (provisionalAgeValid t3 (hr_ConfirmedAt roster)))) in
      if negb allowed then (g, GateRefused)
      else (g, GateSent (if bool_decide (hr_Health roster = RosterDegraded) then Some rosterLifecycleDegraded
                         else if probe && hr_Provisional roster then Some rosterLifecycleProvisional else None)).

Definition doBackgroundHTTPRequest (g : Gate) (cfg : option Config) (probe : bool) (t0 t1 t2 t3 : Time) : Gate * http_gate :=
  doHTTPUnderLock (lifecycleGate g cfg t0) cfg probe t1 t2 t3.

(** The permit of an intact roster is the strongest the host can hold. *)
Definition rosterContainsAuthID (roster : ActiveRoster) (authID : string) : bool :=
  if negb (ar_Confirmed roster) || bool_decide (ar_Health roster = RosterFailClosed) then false
  else bool_decide (authID ∈ ar_Instances roster).

Definition highestTierSet (roster : HostRosterSnapshot) : gset string :=
  let '(_, ids, ok) := HighestCodexTier (hr_Entries roster) in if negb ok then ∅ else list_to_set ids.

(** ** What a published roster admits *)

(** The first part of [PublishAuthoritativeRoster]: the admission and the entries
    that get bindings; [None] for [ErrCapabilityB]. *)
Definition rosterAdmission (cfg : Config) (roster : HostRosterSnapshot) : option (CPAAdmissionState * HostRosterSnapshot) :=
  let roster := normalizeHostRosterLifecycle roster in
  let '(priority, ids, ok) := HighestCodexTier (hr_Entries roster) in
  if negb (bool_decide (hr_Capability roster = CapabilityA)) || negb ok then None
  else
    let '(tiers, tiered) := CodexTierGroups (hr_Entries roster) in
    let admission :=
      if ScheduleAcrossPriorities cfg && tiered
      then mkAdmission true priority (⋃ (tier_AuthIDs <$> tiers)) tiers
      else mkAdmission true priority (list_to_set ids) [] in
    Some (admission, roster <| hr_Entries := filter (fun e => re_ID e ∈ adm_AuthIDs admission) (hr_Entries roster) |>).

(** ** The provisional roster *)

Section provisional.
Context (Sum256 : string -> string) (canonicalJSON : string -> option string).

(** The loop over the persisted entries, with the priority of the first. *)
Fixpoint provisionalEntries (first : option Z) (seen : gset string) (entries : list PersistedRosterEntry) : option (list RosterEntry) :=
  match entries with
  | [] => Some []
  | e :: entries =>
      if String.eqb (pre_ID e) "" || String.eqb (pre_AuthIndex e) "" || negb (ValidHashes Sum256 (pre_Fingerprint e)) then None
      else if match first with Some p => negb (pre_Priority e =? p) | None => false end then None
      else if bool_decide (pre_ID e ∈ seen) then None
      else
        match provisionalEntries (Some (default (pre_Priority e) first)) ({[pre_ID e]} ∪ seen) entries with
        | None => None
        | Some rest => Some (mkEntry (pre_ID e) (pre_AuthIndex e) "codex" (Some (pre_Priority e)) :: rest)
        end
  end.

Definition ProvisionalRoster (persisted : option PersistedConfirmedRoster) (now : Time) : option ActiveRoster :=
  match persisted with
  | None => None
  | Some p =>
      if (pcr_Generation p =? 0) || negb (provisionalAgeValid now (pcr_ConfirmedAt p)) || bool_decide (length (pcr_Entries p) = 0%nat) then None
      else
        match provisionalEntries None ∅ (pcr_Entries p) with
        | None => None
        | Some entries =>
            Some (waitingRoster <| ar_Provisional := true |> <| ar_Generation := pcr_Generation p |> <| ar_ConfirmedAt := pcr_ConfirmedAt p |>
                    <| ar_Entries := entries |> <| ar_Instances := sortStrings (re_ID <$> entries) |>
                    <| ar_HighestPriority := default 0 (last (pre_Priority <$> pcr_Entries p)) |>)
        end
  end.

(** The checks of one persisted entry. *)
Definition entryVerified (bindings : BindingRegistry) (getCredentials : string -> option CodexCredentials) (cancelled : string -> bool)
    (roster : ActiveRoster) (want : gmap string RosterEntry) (e : PersistedRosterEntry) : bool :=
  match want !! pre_ID e with
  | None => false
  | Some current =>
      if negb (String.eqb (re_AuthIndex current) (pre_AuthIndex e))
         || negb (bool_decide (re_Priority current = Some (pre_Priority e))) then false
      else
        match Lookup bindings (pre_ID e) with
        | None => false
        | Some b =>
            if negb (String.eqb (rb_AuthID b) (pre_ID e)) || (rb_Instance b =? 0) || negb (rb_Instance b =? legacyAuthInstanceID (pre_ID e))
               || negb (rb_Generation b =? ar_Generation roster) || negb (String.eqb (rb_AuthIndex b) (pre_AuthIndex e))
               || negb (bool_decide (rb_Fingerprint b = pre_Fingerprint e)) then false
            else if cancelled (pre_ID e) then false
            else
              match getCredentials (pre_AuthIndex e) with
              | None => false
              | Some c => bool_decide (NewCredentialFingerprint Sum256 canonicalJSON (cc_ChatGPTAccountID c) (cc_RefreshToken c) (pre_AuthIndex e)
                                       = pre_Fingerprint e)
              end
        end
  end.

Fixpoint verifyEntries (bindings : BindingRegistry) (getCredentials : string -> option CodexCredentials) (cancelled : string -> bool)
    (roster : ActiveRoster) (want : gmap string RosterEntry) (entries : list PersistedRosterEntry) : bool :=
  match entries with
  | [] => true
  | e :: entries =>
      if entryVerified bindings getCredentials cancelled roster want e
      then verifyEntries bindings getCredentials cancelled roster want entries else false
  end.

(** The answer and the permit, which follows it; [t1] and [t2] are the clock at
    the beginning and at the end. *)
Definition VerifyProvisionalRoster (bindings : BindingRegistry) (getCredentials : string -> option CodexCredentials) (cancelled : string -> bool)
    (persisted : option PersistedConfirmedRoster) (roster : ActiveRoster) (t1 t2 : Time) : bool :=
  if negb (ar_Provisional roster) || ar_Confirmed roster || negb (bool_decide (ar_Capability roster = CapabilityB))
     || negb (provisionalAgeValid t1 (ar_ConfirmedAt roster)) then false
  else
    match persisted with
    | None => false
    | Some p =>
        if negb (pcr_Generation p =? ar_Generation roster) || negb (Equal (pcr_ConfirmedAt p) (ar_ConfirmedAt roster))
           || negb (bool_decide (length (pcr_Entries p) = length (ar_Entries roster))) then false
        else
          let want := foldl (fun m e => <[re_ID e := e]> m) (∅ : gmap string RosterEntry) (ar_Entries roster) in
          if negb (verifyEntries bindings getCredentials cancelled roster want (pcr_Entries p)) then false
          else provisionalAgeValid t2 (ar_ConfirmedAt roster)
    end.

(** [VerifyConfiguredProvisionalRoster]: the option is read before and after. *)
Definition VerifyConfiguredProvisionalRoster (before after : option Config) (verified : bool) (roster : ActiveRoster) (t3 : Time) : bool :=
  let on cfg := match cfg with Some cfg => ProbeOnProvisionalRoster cfg | None => false end in
  if negb (on before) then false
  else if negb verified then false
  else on after && provisionalAgeValid t3 (ar_ConfirmedAt roster).
End provisional.

(** The permit: granted by a verification, taken by one pass. *)
Inductive permit_op := PermitVerify (verified : bool) | PermitConfigured (verified configured : bool) | PermitConsume.
Definition consumeProvisionalPermit (permit : bool) : bool * bool := (false, permit).
Definition permit_step (permit : bool) (op : permit_op) : bool * bool :=
  match op with
  | PermitVerify verified => (verified, false)
  | PermitConfigured verified configured => (verified && configured, false)
  | PermitConsume => consumeProvisionalPermit permit
  end.
Fixpoint permit_run (permit : bool) (ops : list permit_op) : nat :=
  match ops with
  | [] => 0
  | op :: ops => let '(permit, taken) := permit_step permit op in (if taken then 1 else 0) + permit_run permit ops
  end.

(** ** Notifications out of order

    The controller notifies without its lock, so notifications may arrive in any
    order. *)

(** The roster a notification stores. *)
Definition observedRoster (cfg : option Config) (now : Time) (active : ActiveRoster) : HostRosterSnapshot :=
  gt_roster (ObserveRosterLifecycle (mkGate (emptyHostRoster <| hr_LifecycleRevision := -1 |>) None 0) cfg active now).

Definition deliver (cfg : option Config) (now : Time) (g : Gate) (notified : list ActiveRoster) : Gate :=
  foldl (fun g active => ObserveRosterLifecycle g cfg active now) g notified.

Lemma observe_positive g cfg active now :
  0 < ar_LifecycleRevision active ->
  gt_roster (ObserveRosterLifecycle g cfg active now) =
    if ar_LifecycleRevision active <=? hr_LifecycleRevision (gt_roster g) then gt_roster g else observedRoster cfg now active.
Proof.
  intros Hpos. unfold observedRoster, ObserveRosterLifecycle. simpl.
  set (b := ar_Provisional active && _). destruct b; simpl;
    (replace (ar_LifecycleRevision active =? 0) with false by lia); simpl;
    (replace (ar_LifecycleRevision active <=? -1) with false by lia); simpl;
    destruct (ar_LifecycleRevision active <=? hr_LifecycleRevision (gt_roster g)); try done;
    destruct (bool_decide (ar_Health active = RosterFailClosed)); done.
Qed.

Lemma observedRoster_revision cfg now active :
  0 < ar_LifecycleRevision active -> hr_LifecycleRevision (observedRoster cfg now active) = ar_LifecycleRevision active.
Proof.
  intros Hpos. unfold observedRoster, ObserveRosterLifecycle. simpl. set (b := ar_Provisional active && _). destruct b; simpl;
    (replace (ar_LifecycleRevision active =? 0) with false by lia); simpl;
    (replace (ar_LifecycleRevision active <=? -1) with false by lia); simpl;
    by destruct (bool_decide (ar_Health active = RosterFailClosed)).
Qed.

Lemma deliver_latest cfg now l g :
  Forall (fun a => 0 < ar_LifecycleRevision a) l ->
  let r := gt_roster (deliver cfg now g l) in
  (r = gt_roster g /\ Forall (fun a => ar_LifecycleRevision a <= hr_LifecycleRevision r) l
   \/ exists a, a ∈ l /\ r = observedRoster cfg now a /\ hr_LifecycleRevision (gt_roster g) < ar_LifecycleRevision a
        /\ Forall (fun b => ar_LifecycleRevision b <= ar_LifecycleRevision a) l).
Proof.
  unfold deliver. revert g. induction l as [|x l IH]; intros g Hl; simpl; [by left|].
  apply Forall_cons in Hl as [Hx Hl]. specialize (IH (ObserveRosterLifecycle g cfg x now) Hl). simpl in IH.
  pose proof (observe_positive g cfg x now Hx) as E. pose proof (observedRoster_revision cfg now x Hx) as Er.
  destruct (Z.leb_spec (ar_LifecycleRevision x) (hr_LifecycleRevision (gt_roster g))) as [Hle|Hlt]; rewrite E in IH.
  - destruct IH as [[-> Ha]|(a & Hin & -> & Hgt & Ha)]; [left|right].
    + split; [done|]. by constructor.
    + exists a. split_and!; [set_solver|done|done|]. constructor; [lia|done].
  - right. destruct IH as [[-> Ha]|(a & Hin & -> & Hgt & Ha)].
    + exists x. split_and!; [set_solver|done|done|]. rewrite Er in Ha. constructor; [lia|done].
    + exists a. split_and!; [set_solver|done|lia|]. constructor; [lia|done].
Qed.

Lemma foldr_max_ge m (l : list Z) : m <= foldr Z.max m l.
Proof. induction l; simpl; lia. Qed.
Lemma foldr_max_in m (l : list Z) x : x ∈ l -> x <= foldr Z.max m l.
Proof. induction 1; simpl; lia. Qed.
Lemma foldr_max_le m (l : list Z) v : m <= v -> Forall (fun x => x <= v) l -> foldr Z.max m l <= v.
Proof. intros Hm. induction 1; simpl; lia. Qed.

(** Lifecycle notifications may arrive in any order: the refresher ends with the
    roster of the greatest revision, so two orders of the same notifications
    leave the same roster, and a late notification never brings back a roster
    that was closed since. *)
Theorem notifications_latest_wins (cfg : option Config) (now : Time) (g : Gate) (l1 l2 : list ActiveRoster) :
  Forall (fun a => 0 < ar_LifecycleRevision a) l1 -> NoDup (ar_LifecycleRevision <$> l1) -> l1 ≡ₚ l2 ->
  gt_roster (deliver cfg now g l1) = gt_roster (deliver cfg now g l2)
  /\ hr_LifecycleRevision (gt_roster (deliver cfg now g l1))
     = foldr Z.max (hr_LifecycleRevision (gt_roster g)) (ar_LifecycleRevision <$> l1).
Proof.
  intros Hpos Hnd Hp. assert (forall l, Forall (fun a => 0 < ar_LifecycleRevision a) l ->
    hr_LifecycleRevision (gt_roster (deliver cfg now g l)) = foldr Z.max (hr_LifecycleRevision (gt_roster g)) (ar_LifecycleRevision <$> l)) as Hmax.
  { intros l Hl.
    destruct (deliver_latest cfg now l g Hl) as [[Er Ha]|(a & Hin & -> & Hgt & Ha)].
    - rewrite Er in *. apply Z.le_antisymm; [apply foldr_max_ge|]. apply foldr_max_le; [done|by rewrite Forall_fmap].
    - rewrite observedRoster_revision by (rewrite Forall_forall in Hl; auto). apply Z.le_antisymm; [by apply foldr_max_in, list_elem_of_fmap_2|].
      apply foldr_max_le; [lia|by rewrite Forall_fmap]. }
  split; [|by apply Hmax].
  assert (Forall (fun a => 0 < ar_LifecycleRevision a) l2) as Hpos2 by (by rewrite <- Hp).
  destruct (deliver_latest cfg now l1 g Hpos) as [[E1 Ha1]|(a & Hin1 & E1 & Hgt1 & Ha1)],
    (deliver_latest cfg now l2 g Hpos2) as [[E2 Ha2]|(b & Hin2 & E2 & Hgt2 & Ha2)].
  - by rewrite E1, E2.
  - rewrite <- Hp in Hin2. rewrite Forall_forall in Ha1. specialize (Ha1 b Hin2). rewrite E1 in Ha1. lia.
  - rewrite Hp in Hin1. rewrite Forall_forall in Ha2. specialize (Ha2 a Hin1). rewrite E2 in Ha2. lia.
  - rewrite E1, E2. rewrite <- Hp in Hin2. rewrite <- Hp in Ha2. rewrite Forall_forall in Ha1, Ha2.
    specialize (Ha1 b Hin2). specialize (Ha2 a Hin1).
    apply list_elem_of_lookup in Hin1 as [i Hi]. apply list_elem_of_lookup in Hin2 as [j Hj].
    assert (i = j) as ->; [|congruence].
    eapply (NoDup_lookup _ _ _ (ar_LifecycleRevision a) Hnd); rewrite list_lookup_fmap; [by rewrite Hi|rewrite Hj; simpl; by rewrite (Z.le_antisymm _ _ Ha1 Ha2)].
Qed.

Definition example_degraded (revision : Z) : ActiveRoster :=
  (confirmedRoster waitingRoster example_entries 1 ["a"] 100) <| ar_Health := RosterDegraded |> <| ar_DegradedSince := 100 |>
    <| ar_LifecycleRevision := revision |>.
Definition example_closed (revision : Z) : ActiveRoster :=
  (example_degraded revision) <| ar_Health := RosterFailClosed |> <| ar_BackgroundAllowed := false |>.
Definition example_gate : Gate := mkGate (hostRosterSnapshotFromActive (example_degraded 3)) None 0.

Lemma notifications_latest_wins_witness :
  gt_roster (deliver None 100 example_gate [example_degraded 4; example_closed 5])
    = gt_roster (deliver None 100 example_gate [example_closed 5; example_degraded 4])
  /\ hr_LifecycleRevision (gt_roster (deliver None 100 example_gate [example_degraded 4; example_closed 5])) = 5.
Proof.
  apply (notifications_latest_wins None 100 example_gate [example_degraded 4; example_closed 5] [example_closed 5; example_degraded 4]).
  - repeat constructor.
  - apply NoDup_cons. split; [vm_compute; set_solver|]. apply NoDup_singleton.
  - apply Permutation_swap.
Defined.

(** ** Background requests

    The roster of the refresher, the controller behind it, and the rosters that
    were notified and may still arrive. *)

Record System := mkSystem { sy_gate : Gate; sy_notified : list ActiveRoster }.

Definition notifiedRosters (events : list roster_event) : list ActiveRoster :=
  omap (fun e => match e with NotifyRoster active => Some active | CancelInstances _ => None end) events.

Inductive system_step (cfg : option Config) : System -> System -> Prop :=
  | sys_sync g notified c c' events out publish interfere listed now :
      gt_controller g = Some c -> 0 < now -> finishSync publish interfere c listed now = (c', events, out) ->
      system_step cfg (mkSystem g notified) (mkSystem (g <| gt_controller := Some c' |>) (notifiedRosters events ++ notified))
  | sys_wake g notified c c' events out probeOn verify commitRuns now1 now2 :
      gt_controller g = Some c -> WakeForProbe_provisional c (rc_current c) probeOn verify commitRuns now1 now2 = (c', events, out) ->
      system_step cfg (mkSystem g notified) (mkSystem (g <| gt_controller := Some c' |>) (notifiedRosters events ++ notified))
  | sys_deliver g notified active now :
      active ∈ notified -> system_step cfg (mkSystem g notified) (mkSystem (ObserveRosterLifecycle g cfg active now) notified)
  | sys_publish g notified roster :
      hr_Health roster = RosterHealthy -> system_step cfg (mkSystem g notified) (mkSystem (g <| gt_roster := roster |>) notified)
  | sys_unpublish g notified :
      system_step cfg (mkSystem g notified) (mkSystem (g <| gt_roster := emptyHostRoster |>) notified)
  | sys_enforce g notified now :
      system_step cfg (mkSystem g notified) (mkSystem (enforceRosterLifecycle g cfg now).1 notified)
  | sys_request g notified probe t0 t1 t2 t3 :
      system_step cfg (mkSystem g notified) (mkSystem (doBackgroundHTTPRequest g cfg probe t0 t1 t2 t3).1 notified).

Inductive system_reached (cfg : option Config) : System -> Prop :=
  | sys_initial roster provisional now :
      hr_Health roster <> RosterDegraded ->
      system_reached cfg (mkSystem (mkGate roster (Some (NewRosterController provisional now)) 0) [])
  | sys_next s s' : system_reached cfg s -> system_step cfg s s' -> system_reached cfg s'.

(** A degraded roster knows since when. *)
Definition dated (r : ActiveRoster) : Prop := ar_Health r = RosterDegraded -> ar_DegradedSince r <> 0.
Definition host_dated (r : HostRosterSnapshot) : Prop := hr_Health r = RosterDegraded -> hr_DegradedSince r <> 0.

Record system_ok (s : System) : Prop := {
  so_roster : host_dated (gt_roster (sy_gate s));
  so_controller : forall c, gt_controller (sy_gate s) = Some c -> dated (rc_current c);
  so_notified : Forall dated (sy_notified s);
}.

Lemma revision_dated r v : dated r -> dated (r <| ar_LifecycleRevision := v |>).
Proof. done. Qed.

Lemma degradedRoster_dated old now v : 0 < now -> dated ((degradedRoster old now) <| ar_LifecycleRevision := v |>).
Proof.
  intros Hnow. apply revision_dated. unfold degradedRoster.
  generalize (old <| ar_LastSyncAt := now |> <| ar_BackgroundAllowed := false |>). intros o. cbv zeta.
  destruct (ar_Provisional o || IsZero (ar_ConfirmedAt o)); [intros [=]|].
  assert (ar_DegradedSince (if IsZero (ar_DegradedSince o) then o <| ar_DegradedSince := now |> else o) <> 0) as Hd
    by (destruct (IsZero (ar_DegradedSince o)) eqn:E; [simpl; lia|time_lia]).
  generalize dependent (if IsZero (ar_DegradedSince o) then o <| ar_DegradedSince := now |> else o). intros o' Hd.
  destruct (Sub now (ar_DegradedSince o') <? rosterDegradedLimit); [intros _; exact Hd|intros [=]].
Qed.

Lemma finishSync_dated publish interfere c listed now c' events out :
  0 < now -> finishSync publish interfere c listed now = (c', events, out) ->
  dated (rc_current c') /\ Forall dated (notifiedRosters events).
Proof.
  intros Hnow. unfold finishSync. cbv zeta.
  assert (forall e v, e = (degradedRoster (rc_current c) now) <| ar_LifecycleRevision := v |> ->
    dated e /\ Forall dated (notifiedRosters [NotifyRoster e])) as Hfail.
  { intros e v ->. split; [by apply degradedRoster_dated|]. constructor; [by apply degradedRoster_dated|constructor]. }
  destruct listed as [entries|err]; [|intros [= <- <- _]; by eapply Hfail].
  destruct (HighestCodexTier entries) as [[priority ids] []]; cbn [negb]; [|intros [= <- <- _]; by eapply Hfail].
  destruct (match publish with Some f => _ | None => _ end) as [committed|err]; [|intros [= <- <- _]; by eapply Hfail].
  set (next := if _ <=? _ then _ else _).
  assert (dated next) as Hn by (unfold next; repeat branch; done).
  intros [= <- <- _]. split; [done|]. branch; simpl; by repeat constructor.
Qed.

Lemma wake_dated c probeOn verify commitRuns now1 now2 c' events out :
  dated (rc_current c) -> WakeForProbe_provisional c (rc_current c) probeOn verify commitRuns now1 now2 = (c', events, out) ->
  dated (rc_current c') /\ Forall dated (notifiedRosters events).
Proof.
  intros Hc. unfold WakeForProbe_provisional.
  destruct (ar_Provisional (rc_current c) && _); cbv beta iota zeta;
    repeat match goal with |- context [if ?b then _ else _] => destruct b end;
    intros [= <- <- _]; simpl; (split; [done|]); repeat constructor; done.
Qed.

Lemma observe_dated g cfg active now :
  host_dated (gt_roster g) -> dated active ->
  host_dated (gt_roster (ObserveRosterLifecycle g cfg active now))
  /\ gt_controller (ObserveRosterLifecycle g cfg active now) = gt_controller g.
Proof. intros Hg Ha. unfold ObserveRosterLifecycle. cbv zeta. repeat branch; simpl; auto. Qed.

Lemma enforce_dated c now c' events out :
  dated (rc_current c) -> EnforceLifecycle c now = (c', events, out) -> dated (rc_current c') /\ Forall dated (notifiedRosters events).
Proof.
  intros Hc. unfold EnforceLifecycle. cbv zeta. destruct (degradationExpired (rc_current c) now); intros [= <- <- _]; [|by split].
  split; [done|]. by repeat constructor.
Qed.

Lemma gate_dated g cfg now :
  host_dated (gt_roster g) -> (forall c, gt_controller g = Some c -> dated (rc_current c)) ->
  host_dated (gt_roster (lifecycleGate g cfg now))
  /\ (forall c, gt_controller (lifecycleGate g cfg now) = Some c -> dated (rc_current c)).
Proof.
  intros Hg Hc. unfold lifecycleGate. destruct (gt_controller g) as [c|] eqn:E; [|by rewrite E].
  destruct (EnforceLifecycle c now) as [[c' events] out] eqn:Ee. destruct (enforce_dated _ _ _ _ _ (Hc c eq_refl) Ee) as [H1 H2].
  clear Ee. assert (host_dated (gt_roster (g <| gt_controller := Some c' |>))) as Hg' by exact Hg.
  assert (forall x, gt_controller (g <| gt_controller := Some c' |>) = Some x -> dated (rc_current x)) as Hc' by (by intros x [= <-]).
  generalize dependent (g <| gt_controller := Some c' |>). clear E Hg Hc g. induction events as [|[active|ids] events IH]; intros g Hg Hc; simpl; [done|..].
  - apply Forall_cons in H2 as [Ha H2]. destruct (observe_dated g cfg active now Hg Ha) as [E1 E2]. apply (IH H2); [done|]. by rewrite E2.
  - by apply (IH H2).
Qed.

Lemma failClosed_dated r now : host_dated r -> host_dated (failClosedRosterAt r now).1.
Proof. intros Hr. unfold failClosedRosterAt, normalizeHostRosterLifecycle. cbv zeta. repeat branch; simpl; done. Qed.

Lemma request_dated g cfg probe t1 t2 t3 :
  host_dated (gt_roster g) ->
  host_dated (gt_roster (doHTTPUnderLock g cfg probe t1 t2 t3).1) /\ gt_controller (doHTTPUnderLock g cfg probe t1 t2 t3).1 = gt_controller g.
Proof.
  intros Hg. unfold doHTTPUnderLock. cbv zeta. branch.
  - pose proof (failClosed_dated (gt_roster g) t2 Hg) as H. destruct (failClosedRosterAt (gt_roster g) t2) as [latest []]; simpl in *; done.
  - repeat branch; done.
Qed.

Lemma system_step_ok cfg s s' : system_ok s -> system_step cfg s s' -> system_ok s'.
Proof.
  intros [Hr Hc Hn] Hs.
  destruct Hs as [g notified c c' events out publish interfere listed now Ec Hnow E|g notified c c' events out p v cr n1 n2 Ec E
    |g notified active now Hin|g notified roster Hh|g notified|g notified now|g notified probe t0 t1 t2 t3]; simpl in *.
  - destruct (finishSync_dated _ _ _ _ _ _ _ _ Hnow E) as [H1 H2]. split; simpl; [done|by intros ? [= <-]|].
    apply Forall_app; auto.
  - destruct (wake_dated _ _ _ _ _ _ _ _ _ (Hc c Ec) E) as [H1 H2]. split; simpl; [done|by intros ? [= <-]|]. apply Forall_app; auto.
  - rewrite Forall_forall in Hn. destruct (observe_dated g cfg active now Hr (Hn _ Hin)) as [H1 H2].
    split; simpl; [done|by rewrite H2|by apply Forall_forall].
  - split; simpl; auto. intros ?; congruence.
  - split; simpl; auto. done.
  - destruct (gate_dated g cfg now Hr Hc) as [H1 H2]. unfold enforceRosterLifecycle.
    pose proof (failClosed_dated _ now H1) as H3. destruct (failClosedRosterAt _ now) as [next []]; simpl in *; by split.
  - destruct (gate_dated g cfg t0 Hr Hc) as [H1 H2]. unfold doBackgroundHTTPRequest.
    destruct (request_dated (lifecycleGate g cfg t0) cfg probe t1 t2 t3 H1) as [H3 H4].
    split; [exact H3|cbn [sy_gate]; rewrite H4; exact H2|exact Hn].
Qed.

Lemma system_reached_ok cfg s : system_reached cfg s -> system_ok s.
Proof.
  induction 1 as [roster provisional now Hh|s s' _ IH Hs]; [|by eapply system_step_ok].
  split; simpl; [by intros ?| |constructor]. intros c [= <-]. unfold NewRosterController, dated. simpl.
  destruct provisional; [branch|]; done.
Qed.

Lemma normalize_twice r : normalizeHostRosterLifecycle (normalizeHostRosterLifecycle r) = normalizeHostRosterLifecycle r.
Proof.
  unfold normalizeHostRosterLifecycle.
  destruct (bool_decide (hr_Capability r = CapabilityA) && bool_decide (hr_Health r = RosterHealthNone)) eqn:E; [|by rewrite E]. simpl.
  by rewrite andb_false_r.
Qed.

(** C39: Whatever the controller, the host and late notifications do, a background
    request leaves the plugin only while its roster allows it: on a confirmed
    roster that is healthy, or degraded for less than thirty minutes and then
    marked so, or, for a probe, on a fresh provisional roster where the
    operator allowed that; and a probe only while probes are enabled. *)
Theorem background_requests_gated (cfg : option Config) (s : System) (probe : bool) (t1 t2 t3 : Time) (g' : Gate) (marker : option string) :
  system_reached cfg s -> doHTTPUnderLock (sy_gate s) cfg probe t1 t2 t3 = (g', GateSent marker) ->
  let r := normalizeHostRosterLifecycle (gt_roster (sy_gate s)) in
  g' = sy_gate s /\ hr_BackgroundAllowed r = true /\ (probe = true -> resetProbeEnabled cfg = true)
  /\ (hr_Capability r = CapabilityA /\ hr_Confirmed r = true
        /\ (hr_Health r = RosterHealthy
            \/ hr_Health r = RosterDegraded /\ t1 < hr_DegradedSince r + rosterDegradedLimit /\ marker = Some rosterLifecycleDegraded)
      \/ probe = true /\ hr_Capability r = CapabilityB /\ hr_Provisional r = true /\ hr_Health r = RosterWaiting
         /\ (exists c, cfg = Some c /\ ProbeOnProvisionalRoster c = true)
         /\ provisionalAgeValid t3 (hr_ConfirmedAt r) = true /\ marker = Some rosterLifecycleProvisional).
Proof.
  intros [Hd _ _]%system_reached_ok. destruct s as [g notified]. simpl in *. unfold doHTTPUnderLock. cbv zeta.
  assert (host_dated (normalizeHostRosterLifecycle (gt_roster g))) as Hr
    by (unfold normalizeHostRosterLifecycle; branch; [intros [=]|done]).
  pose proof (normalize_twice (gt_roster g)) as Hi.
  generalize dependent (normalizeHostRosterLifecycle (gt_roster g)). intros r Hr Hi.
  destruct (failClosedRosterAt r t1).2 eqn:Ef; [by destruct (failClosedRosterAt (gt_roster g) t2)|].
  destruct (bool_decide (cfg = None) && probe) eqn:E1; [done|]. destruct (probe && negb (resetProbeEnabled cfg)) eqn:E2; [done|].
  destruct (hr_Provisional r && bool_decide (cfg = None)) eqn:E3; [done|].
  match goal with |- context [if ?b then (g, GateRefused) else _] => destruct b eqn:E4 end; [done|]. intros [= <- <-].
  apply negb_false_iff, andb_true_iff in E4 as [E4 E5]. apply orb_true_iff in E4.
  assert (probe = true -> resetProbeEnabled cfg = true) as Hprobe by (intros ->; by destruct (resetProbeEnabled cfg)).
  destruct E4 as [E4|E4].
  - unfold normalRosterBackgroundAllowed in E4. apply andb_true_iff in E4 as [[[HA HC]%andb_true_iff HB]%andb_true_iff HH].
    apply bool_decide_eq_true in HA. split_and!; try done. left. split_and!; try done.
    apply orb_true_iff in HH as [HH|HH]; apply bool_decide_eq_true in HH; [by left|right]. split; [done|]. split.
    + unfold failClosedRosterAt in Ef. rewrite Hi in Ef. cbv zeta in Ef.
      rewrite (bool_decide_eq_true_2 _ HA), HC, (bool_decide_eq_true_2 _ HH) in Ef. simpl in Ef.
      specialize (Hr HH). destruct (IsZero (hr_DegradedSince r)) eqn:Ez; [exfalso; time_lia|]. simpl in Ef.
      destruct (Before t1 _) eqn:Eb; [|done]. revert Eb. clear. unfold Before, Add. lia.
    + by rewrite (bool_decide_eq_true_2 _ HH).
  - apply andb_true_iff in E4 as [Ep E4]. unfold provisionalProbeBackgroundAllowed in E4.
    apply andb_true_iff in E4 as [[[HB HP]%andb_true_iff HA]%andb_true_iff HH].
    apply bool_decide_eq_true in HB, HH. rewrite HP in E5. simpl in E5. apply negb_true_iff, orb_false_iff in E5 as [E5 E6].
    apply negb_false_iff in E5, E6. split_and!; try done. right. split_and!; try done.
    + destruct cfg as [c|]; [eauto|done].
    + rewrite (bool_decide_eq_false_2 _); [|by rewrite HH]. by rewrite Ep, HP.
Qed.

(** The host answers at 10 and fails at 100; the notification of the failure is
    delivered. *)
Definition example_failed := finishSync None id example_controller (Err "timeout") 100.
Definition example_listed : System := mkSystem (mkGate emptyHostRoster (Some example_controller) 0) [rc_current example_controller].
Definition example_degrading : System :=
  mkSystem (mkGate emptyHostRoster (Some example_failed.1.1) 0) [rc_current example_failed.1.1; rc_current example_controller].
Definition example_delivered : System :=
  mkSystem (ObserveRosterLifecycle (sy_gate example_degrading) None (rc_current example_failed.1.1) 100) (sy_notified example_degrading).

Lemma sys_sync_eq cfg s s' c publish interfere listed now :
  gt_controller (sy_gate s) = Some c -> 0 < now ->
  s' = mkSystem ((sy_gate s) <| gt_controller := Some (finishSync publish interfere c listed now).1.1 |>)
         (notifiedRosters (finishSync publish interfere c listed now).1.2 ++ sy_notified s) ->
  system_step cfg s s'.
Proof.
  intros Ec Hnow ->. destruct s as [g notified], (finishSync publish interfere c listed now) as [[c' events] out] eqn:E.
  by eapply sys_sync.
Qed.

Lemma example_delivered_reached : system_reached None example_delivered.
Proof.
  apply sys_next with example_degrading; [|apply (sys_deliver None _ (sy_notified example_degrading)); left].
  apply sys_next with example_listed;
    [|apply (sys_sync_eq _ _ _ example_controller None id (Err "timeout") 100); [reflexivity|lia|vm_compute; reflexivity]].
  apply sys_next with (mkSystem (mkGate emptyHostRoster (Some (NewRosterController None 10)) 0) []); [apply sys_initial; discriminate|].
  apply (sys_sync_eq _ _ _ (NewRosterController None 10) None id (Ok example_entries) 10); [reflexivity|lia|vm_compute; reflexivity].
Qed.

Lemma background_requests_gated_witness :
  let r := normalizeHostRosterLifecycle (gt_roster (sy_gate example_delivered)) in
  hr_BackgroundAllowed r = true
  /\ (doHTTPUnderLock (sy_gate example_delivered) None false 200 200 200).2 = GateSent (Some rosterLifecycleDegraded)
  /\ (doHTTPUnderLock (sy_gate example_delivered) None false (100 + 30 * Minute) 200 200).2 = GateRefused.
Proof.
  destruct (background_requests_gated None example_delivered false 200 200 200 (sy_gate example_delivered) (Some rosterLifecycleDegraded)
    example_delivered_reached) as (_ & H & _); [vm_compute; reflexivity|].
  split; [exact H|]. split; vm_compute; reflexivity.
Defined.

(** ** Which accounts a confirmed roster admits

    The controller keeps the entries of the highest tier only before it
    publishes, so the admission never holds an account of a lower tier, also
    with [ScheduleAcrossPriorities], which is meant to admit all tiers. *)
Lemma filtered_members entries ids p id : tier_member (filterRosterEntries entries ids) p id -> id ∈ ids.
Proof.
  intros (e & He & _ & Hid). unfold filterRosterEntries in He. rewrite sort_slice_perm in He.
  apply list_elem_of_filter in He as [Hin _]. by rewrite <- Hid.
Qed.

Theorem lower_tiers_never_admitted (cfg : Config) (old : ActiveRoster) (entries : list RosterEntry) (priority : Z) (ids : list string)
    (now : Time) (admission : CPAAdmissionState) (published : HostRosterSnapshot) :
  rosterAdmission cfg (hostRosterSnapshotFromActive (confirmedRoster old entries priority ids now)) = Some (admission, published) ->
  forall id, id ∈ adm_AuthIDs admission -> id ∈ ids.
Proof.
  unfold rosterAdmission. set (r := normalizeHostRosterLifecycle _).
  assert (hr_Entries r = filterRosterEntries entries ids) as Er by (unfold r, normalizeHostRosterLifecycle; by branch).
  rewrite Er. clearbody r. destruct (HighestCodexTier (filterRosterEntries entries ids)) as [[p hids] ok] eqn:Eh.
  destruct (negb _ || negb ok) eqn:Eok; [done|]. apply orb_false_iff in Eok as [_ ->%negb_false_iff].
  pose proof (CodexTierGroups_tiers (filterRosterEntries entries ids)) as [_ _ Hm].
  destruct (CodexTierGroups (filterRosterEntries entries ids)) as [tiers tiered]. simpl in Hm.
  destruct (ScheduleAcrossPriorities cfg && tiered); intros [= <- _] id; simpl.
  - rewrite elem_of_union_list. intros (X & HX & Hid). apply list_elem_of_fmap in HX as (t & -> & Ht).
    eapply filtered_members, Hm. eauto.
  - rewrite elem_of_list_to_set. intros Hid. unfold HighestCodexTier in Eh.
    pose proof (highest_fold_inv (filterRosterEntries entries ids)) as [_ _ H3 _ _].
    destruct (ts_ok _) eqn:Eo; [|done]. simpl in Eh. injection Eh as <- <-. rewrite elem_of_sortStrings in Hid.
    eapply filtered_members, (H3 eq_refl), Hid.
Qed.

(** The documented default: two tiers, one of them admitted. *)
Definition two_tiers : list RosterEntry := [mkEntry "a" "0" "codex" (Some 1); mkEntry "b" "1" "codex" (Some 0)].
Theorem across_priorities_admits_one_tier :
  let active := confirmedRoster waitingRoster two_tiers 1 ["a"] 100 in
  let admits roster id := match rosterAdmission DefaultConfig roster with
                          | Some (admission, _) => bool_decide (id ∈ adm_AuthIDs admission) | None => false end in
  let listed := emptyHostRoster <| hr_Capability := CapabilityA |> <| hr_Entries := two_tiers |> in
  ScheduleAcrossPriorities DefaultConfig = true
  /\ admits listed "a" = true /\ admits listed "b" = true
  /\ admits (hostRosterSnapshotFromActive active) "a" = true /\ admits (hostRosterSnapshotFromActive active) "b" = false.
Proof. split_and!; vm_compute; reflexivity. Qed.

(** ** The provisional permit *)

Lemma verifyEntries_all bindings get cancelled roster want entries Sum256 canonicalJSON :
  verifyEntries Sum256 canonicalJSON bindings get cancelled roster want entries = true
  <-> Forall (fun e => entryVerified Sum256 canonicalJSON bindings get cancelled roster want e = true) entries.
Proof.
  induction entries as [|e entries IH]; simpl; [done|]. rewrite Forall_cons, <- IH.
  destruct (entryVerified _ _ _ _ _ _ _ e); naive_solver.
Qed.

Lemma want_lookup (entries : list RosterEntry) (m : gmap string RosterEntry) id e :
  foldl (fun m e => <[re_ID e := e]> m) m entries !! id = Some e -> m !! id = Some e \/ (e ∈ entries /\ re_ID e = id).
Proof.
  revert m. induction entries as [|x entries IH]; intros m; simpl; [by left|]. intros [H|[H1 H2]]%IH; [|right; set_solver].
  apply lookup_insert_Some in H as [[<- <-]|[_ H]]; [right; set_solver|by left].
Qed.

Lemma permit_run_bound permit ops :
  (permit_run permit ops <= (if permit then 1 else 0) + length (filter (fun op => (permit_step false op).1 = true) ops))%nat.
Proof.
  revert permit. induction ops as [|op ops IH]; intros permit; [simpl; lia|].
  pose proof (IH true). pose proof (IH false).
  destruct op as [[]|[] []|]; (rewrite filter_cons_True by done) || (rewrite filter_cons_False by done); destruct permit; simpl in *; lia.
Qed.

(** Probing on a provisional roster needs proof that the credentials did not
    change: the roster is verified only when it is the one persisted, is not too
    old before and after the check, and for each of its accounts the binding and
    the credential the host returns carry the fingerprint that was persisted
    when the roster was confirmed.  Each verification is good for one pass. *)
Theorem provisional_permit_verified (Sum256 : string -> string) (canonicalJSON : string -> option string) (bindings : BindingRegistry)
    (get : string -> option CodexCredentials) (cancelled : string -> bool) (persisted : option PersistedConfirmedRoster)
    (roster : ActiveRoster) (t1 t2 : Time) (ops : list permit_op) :
  (VerifyProvisionalRoster Sum256 canonicalJSON bindings get cancelled persisted roster t1 t2 = true ->
    exists p, persisted = Some p /\ pcr_Generation p = ar_Generation roster /\ pcr_ConfirmedAt p = ar_ConfirmedAt roster
      /\ provisionalAgeValid t1 (ar_ConfirmedAt roster) = true /\ provisionalAgeValid t2 (ar_ConfirmedAt roster) = true
      /\ length (pcr_Entries p) = length (ar_Entries roster)
      /\ forall e, e ∈ pcr_Entries p -> exists listed b c,
           listed ∈ ar_Entries roster /\ re_ID listed = pre_ID e /\ re_AuthIndex listed = pre_AuthIndex e
           /\ re_Priority listed = Some (pre_Priority e)
           /\ Lookup bindings (pre_ID e) = Some b /\ rb_Instance b = legacyAuthInstanceID (pre_ID e)
           /\ rb_Generation b = ar_Generation roster /\ rb_Fingerprint b = pre_Fingerprint e
           /\ get (pre_AuthIndex e) = Some c
           /\ NewCredentialFingerprint Sum256 canonicalJSON (cc_ChatGPTAccountID c) (cc_RefreshToken c) (pre_AuthIndex e) = pre_Fingerprint e)
  /\ (permit_run false ops <= length (filter (fun op => (permit_step false op).1 = true) ops))%nat.
Proof.
  split.
  - unfold VerifyProvisionalRoster. destruct (negb (ar_Provisional roster) || _ || _ || _) eqn:E0; [done|].
    apply orb_false_iff in E0 as [_ Ht1%negb_false_iff]. destruct persisted as [p|]; [|done].
    destruct (negb (pcr_Generation p =? _) || _ || _) eqn:E1; [done|].
    apply orb_false_iff in E1 as [[Eg Ec]%orb_false_iff El%negb_false_iff]. apply negb_false_iff, Z.eqb_eq in Eg, Ec.
    apply bool_decide_eq_true in El. cbv zeta. destruct (verifyEntries _ _ _ _ _ _ _ _) eqn:Ev; [|done]. cbn [negb]. intros Ht2.
    exists p. split_and!; try done. intros e He. rewrite verifyEntries_all, Forall_forall in Ev. specialize (Ev e He).
    unfold entryVerified in Ev. destruct (_ !! pre_ID e) as [listed|] eqn:Ew; [|done].
    apply want_lookup in Ew as [?|[Hin Hid]]; [done|]. destruct (negb (String.eqb _ _) || _) eqn:E2; [done|].
    apply orb_false_iff in E2 as [E2%negb_false_iff%String.eqb_eq E3%negb_false_iff%bool_decide_eq_true].
    destruct (Lookup bindings (pre_ID e)) as [b|] eqn:Eb; [|done].
    destruct (negb (String.eqb (rb_AuthID b) _) || _ || _ || _ || _ || _) eqn:E4; [done|].
    apply orb_false_iff in E4 as [[[[[_ _]%orb_false_iff Ei]%orb_false_iff Eg']%orb_false_iff _]%orb_false_iff Ef].
    apply negb_false_iff, Z.eqb_eq in Ei, Eg'. apply negb_false_iff, bool_decide_eq_true in Ef.
    destruct (cancelled (pre_ID e)); [done|]. destruct (get (pre_AuthIndex e)) as [c|] eqn:Eget; [|done].
    apply bool_decide_eq_true in Ev. exists listed, b, c. done.
  - apply (permit_run_bound false).
Qed.

Definition example_reading : CodexCredentials := mkCodexCredentials "at" "rt" "" "acc" zeroTime.
Definition example_print : CredentialFingerprint := NewCredentialFingerprint example_digest example_noCanonical "acc" "rt" "0".
Definition example_persisted : PersistedConfirmedRoster := mkPersistedRoster 3 (1 * Hour) [mkPersistedEntry "a" "0" 0 example_print].
Definition example_bound : BindingRegistry :=
  mkRegistry example_store {["a" := mkBinding "a" "0" "" (legacyAuthInstanceID "a") 1 3 0 0 example_print false]}.
Definition example_provisional : ActiveRoster :=
  default waitingRoster (ProvisionalRoster example_digest (Some example_persisted) (2 * Hour)).

Lemma provisional_permit_verified_witness :
  VerifyProvisionalRoster example_digest example_noCanonical example_bound (fun _ => Some example_reading) (fun _ => false)
    (Some example_persisted) example_provisional (2 * Hour) (2 * Hour) = true
  /\ exists p, Some example_persisted = Some p /\ pcr_Generation p = ar_Generation example_provisional.
Proof.
  destruct (provisional_permit_verified example_digest example_noCanonical example_bound (fun _ => Some example_reading) (fun _ => false)
    (Some example_persisted) example_provisional (2 * Hour) (2 * Hour) []) as [H _].
  split; [vm_compute; reflexivity|]. destruct H as (p & H1 & H2 & _); [vm_compute; reflexivity|]. exists p. split; assumption.
Defined.
