(* ===== verification/Auth.v ===== *)
(** * Credentials of auth files (auth.go, and the rewriting of refresh.go)

    The plugin finds the tokens of an auth file wherever they are nested: it
    takes the key of the outermost object that has it, else searches the values
    depth first.  Go iterates over a map in no fixed order; [order] is the order
    of one run.  The search has fuel one more than the depth of the document,
    which [lookup_complete] shows to be enough.

    An updated file is the document with its top-level fields replaced; the
    text [time.Format] writes for a time is the parameter [format]; a time is shown
    in its own zone, for which the round trip through the file takes any function. *)

From S2P Require Import Prelude GoStrings Float64 Json Text Quota Rfc3339 Managed.
From Stdlib Require Import Ascii.
#[local] Open Scope string_scope.
#[local] Open Scope list_scope.
#[local] Open Scope Z_scope.
#[local] Open Scope go_scope.

(** ** Base64

    [base64.RawURLEncoding.DecodeString]: line ends are skipped, every other
    character stands for six bits, and a single character is left over never. *)

Definition urlDigit (c : ascii) : option Z :=
  let n := code c in
  if (65 <=? n) && (n <=? 90) then Some (n - 65)
  else if (97 <=? n) && (n <=? 122) then Some (n - 71)
  else if (48 <=? n) && (n <=? 57) then Some (n + 4)
  else if n =? 45 then Some 62
  else if n =? 95 then Some 63
  else None.

Fixpoint urlDigits (s : string) : option (list Z) :=
  match s with
  | EmptyString => Some []
  | String c rest =>
      if (code c =? 10) || (code c =? 13) then urlDigits rest
      else urlDigit c ≫= fun d => urlDigits rest ≫= fun ds => Some (d :: ds)
  end.

Fixpoint base64Bytes (ds : list Z) : option string :=
  match ds with
  | [] => Some EmptyString
  | [_] => None
  | [a; b] => Some (chr (a * 4 + b / 16))
  | [a; b; c] => Some (chr (a * 4 + b / 16) +:+ chr (b mod 16 * 16 + c / 4))
  | a :: b :: c :: d :: rest =>
      base64Bytes rest ≫= fun tail =>
      Some (chr (a * 4 + b / 16) +:+ chr (b mod 16 * 16 + c / 4) +:+ chr (c mod 4 * 64 + d) +:+ tail)
  end.
Definition RawURLDecode (s : string) : option string := urlDigits s ≫= base64Bytes.

Example base64_claims : RawURLDecode "eyJhIjoxfQ" = Some (js "{'a':1}") /\ RawURLDecode "eyJh=" = None /\ RawURLDecode "A" = None.
Proof. vm_compute. auto. Qed.

(** [strings.Split(s, ".")] *)
Fixpoint splitDots (s : string) : list string :=
  match s with
  | "" => [""]
  | String a s =>
      if Ascii.eqb a "." then "" :: splitDots s
      else match splitDots s with
           | [] => [String a ""]
           | piece :: rest => String a piece :: rest
           end
  end.

(** ** Searching a document *)

(** The pairs of the map an object decodes to: one per key, the last value. *)
Fixpoint mapPairs (fs : fields) : fields :=
  match fs with
  | [] => []
  | (k, v) :: rest => if bool_decide (k ∈ rest.*1) then mapPairs rest else (k, v) :: mapPairs rest
  end.

Fixpoint jdepth (v : json) : nat :=
  match v with
  | JArray items => S (foldr (fun v n => Nat.max (jdepth v) n) 0%nat items)
  | JObject fs => S (foldr (fun kv n => Nat.max (jdepth kv.2) n) 0%nat fs)
  | _ => 0%nat
  end.

Fixpoint firstSome {A B} (f : A -> option B) (l : list A) : option B :=
  match l with
  | [] => None
  | x :: l => match f x with Some y => Some y | None => firstSome f l end
  end.

Definition stringFromMap (fs : fields) (key : string) : option string :=
  match field key fs with Some (JString s) => Some s | _ => None end.

Section search.
Context (order : fields -> fields).

Fixpoint lookupFuel (fuel : nat) (key : string) (v : json) : option string :=
  match fuel with
  | O => None
  | S fuel =>
      match v with
      | JObject fs =>
          match stringFromMap fs key with
          | Some s => Some s
          | None => firstSome (fun kv => lookupFuel fuel key kv.2) (order (mapPairs fs))
          end
      | JArray items => firstSome (lookupFuel fuel key) items
      | _ => None
      end
  end.
Definition lookupStringDeep (v : json) (key : string) : option string := lookupFuel (S (jdepth v)) key v.

Definition parseAuthTime (raw : string) : option Time :=
  let raw := TrimSpace raw in if String.eqb raw "" then None else parseRFC3339 raw.

Definition lookupTimeDeep (v : json) (keys : list string) : option Time :=
  firstSome (fun key => lookupStringDeep v key ≫= parseAuthTime) keys.

(** ** Credentials *)

Definition decodeJWTClaims (token : string) : option fields :=
  match splitDots token with
  | _ :: payload :: _ => RawURLDecode payload ≫= UnmarshalMap
  | _ => None
  end.

Definition nonEmpty (s : option string) : option string :=
  match s with Some v => if String.eqb v "" then None else Some v | None => None end.

Definition authClaim : string := "https://api.openai.com/auth".
Definition extractChatGPTAccountID (idToken : string) : option string :=
  match decodeJWTClaims idToken with
  | None => None
  | Some claims =>
      firstSome id
        [nonEmpty (stringFromMap claims (authClaim +:+ ".chatgpt_account_id"));
         match field authClaim claims with Some (JObject fs) => nonEmpty (stringFromMap fs "chatgpt_account_id") | _ => None end;
         nonEmpty (lookupStringDeep (JObject claims) (authClaim +:+ ".chatgpt_account_id"));
         nonEmpty (lookupStringDeep (JObject claims) "chatgpt_account_id")]
  end.

(** [ExtractCodexCredentials] on the decoded document; [None] is an error. *)
Definition extractDoc (doc : json) : option CodexCredentials :=
  match nonEmpty (lookupStringDeep doc "access_token") with
  | None => None
  | Some accessToken =>
      let refreshToken := default "" (lookupStringDeep doc "refresh_token") in
      let idToken := default "" (lookupStringDeep doc "id_token") in
      let expiresAt := default zeroTime (lookupTimeDeep doc ["expired"; "expire"; "expires_at"; "expiresAt"]) in
      let found := firstSome id [nonEmpty (lookupStringDeep doc "account_id"); nonEmpty (lookupStringDeep doc "chatgpt_account_id");
                                 extractChatGPTAccountID idToken] in
      match found with
      | Some accountID => Some (mkCodexCredentials accessToken refreshToken idToken accountID expiresAt)
      | None =>
          if negb (String.eqb idToken "") && bool_decide (decodeJWTClaims idToken = None) then None
          else Some (mkCodexCredentials accessToken refreshToken idToken "" expiresAt)
      end
  end.
Definition ExtractCodexCredentials (raw : string) : option CodexCredentials := UnmarshalAny raw ≫= extractDoc.
End search.

Definition accessTokenExpired (c : CodexCredentials) (clock now : Time) : bool :=
  if IsZero (cc_ExpiresAt c) then false
  else let now := if IsZero now then clock else now in negb (Before (Add now (2 * Minute)) (cc_ExpiresAt c)).

(** ** Rewriting the file (refresh.go) *)

Definition setField (key : string) (v : json) (fs : fields) : fields := filter (fun kv => kv.1 <> key) fs ++ [(key, v)].

Definition updateFields (format : Time -> string) (fs : fields) (c : CodexCredentials) (now : Time) : fields :=
  let fs := setField "access_token" (JString (cc_AccessToken c)) fs in
  let fs := setField "refresh_token" (JString (cc_RefreshToken c)) fs in
  let fs := setField "id_token" (JString (cc_IDToken c)) fs in
  let fs := setField "account_id" (JString (cc_ChatGPTAccountID c)) fs in
  let fs := setField "type" (JString "codex") fs in
  let fs := if IsZero (cc_ExpiresAt c) then fs else setField "expired" (JString (format (cc_ExpiresAt c))) fs in
  if IsZero now then fs else setField "last_refresh" (JString (format now)) fs.

(** The document [updateCodexAuthJSON] marshals; [None] when the file is not an
    object or null. *)
Definition updateCodexAuthJSON (format : Time -> string) (raw : string) (c : CodexCredentials) (now : Time) : option json :=
  match (if String.eqb raw "" then Some [] else UnmarshalMap raw) with
  | None => None
  | Some fs => Some (JObject (updateFields format (mapPairs fs) c now))
  end.

(** ** What the search finds *)

(** [occurs key v s]: [s] stands under [key] in [v], not below another string
    under the same key. *)
Inductive occurs (key : string) : json -> string -> Prop :=
  | occurs_here fs s : stringFromMap fs key = Some s -> occurs key (JObject fs) s
  | occurs_below fs k v s : stringFromMap fs key = None -> (k, v) ∈ mapPairs fs -> occurs key v s -> occurs key (JObject fs) s
  | occurs_item items v s : v ∈ items -> occurs key v s -> occurs key (JArray items) s.

Definition unique (key : string) (v : json) : Prop := forall s1 s2, occurs key v s1 -> occurs key v s2 -> s1 = s2.

Lemma firstSome_some {A B} (f : A -> option B) l y : firstSome f l = Some y -> exists x, x ∈ l /\ f x = Some y.
Proof.
  induction l as [|x l IH]; simpl; [done|]. destruct (f x) eqn:E; [intros [= ->]; exists x; set_solver|].
  intros (z & ? & ?)%IH. exists z. set_solver.
Qed.
Lemma firstSome_none {A B} (f : A -> option B) l : firstSome f l = None <-> forall x, x ∈ l -> f x = None.
Proof.
  induction l as [|x l IH]; simpl; [set_solver|]. destruct (f x) eqn:E.
  - split; [done|]. intros H. rewrite (H x) in E by set_solver. done.
  - rewrite IH. split; [intros H y [->|Hy]%elem_of_cons; auto|intros H y Hy; apply H; set_solver].
Qed.

Lemma mapPairs_sub fs kv : kv ∈ mapPairs fs -> kv ∈ fs.
Proof.
  induction fs as [|[k v] fs IH]; simpl; [done|]. branch; [set_solver|]. intros [->|H]%elem_of_cons; set_solver.
Qed.

Lemma foldr_max_depth {A} (f : A -> nat) l x : x ∈ l -> (f x <= foldr (fun v n => Nat.max (f v) n) 0%nat l)%nat.
Proof. induction 1; simpl; lia. Qed.

Section search_facts.
Context (order : fields -> fields) (order_perm : forall l, order l ≡ₚ l).

Lemma lookup_sound fuel key v s : lookupFuel order fuel key v = Some s -> occurs key v s.
Proof.
  revert v. induction fuel as [|fuel IH]; intros v; simpl; [done|]. destruct v as [| | | |items|fs]; try done.
  - intros (v & Hv & E)%firstSome_some. eapply occurs_item; eauto.
  - destruct (stringFromMap fs key) eqn:E; [intros [= ->]; by constructor|].
    intros ([k v] & Hv & E')%firstSome_some. rewrite order_perm in Hv. eapply occurs_below; eauto.
Qed.

Lemma lookup_complete fuel key v s : (jdepth v < fuel)%nat -> occurs key v s -> is_Some (lookupFuel order fuel key v).
Proof.
  intros Hf Ho. revert fuel Hf. induction Ho as [fs s E|fs k v s E Hin Ho IH|items v s Hin Ho IH]; intros [|fuel] Hf; try lia; simpl.
  - rewrite E. eauto.
  - rewrite E. destruct (firstSome _ _) eqn:En; [eauto|]. exfalso. rewrite firstSome_none in En.
    assert (jdepth v < fuel)%nat as Hv.
    { apply mapPairs_sub, (foldr_max_depth (fun kv => jdepth kv.2)) in Hin. simpl in *. lia. }
    destruct (IH fuel Hv) as [x Hx]. specialize (En (k, v)). simpl in En. rewrite En in Hx; [done|]. by rewrite order_perm.
  - destruct (firstSome _ _) eqn:En; [eauto|]. exfalso. rewrite firstSome_none in En.
    assert (jdepth v < fuel)%nat as Hv by (apply (foldr_max_depth jdepth) in Hin; simpl in *; lia).
    destruct (IH fuel Hv) as [x Hx]. by rewrite En in Hx.
Qed.

Lemma lookupStringDeep_unique v key s : unique key v -> lookupStringDeep order v key = Some s <-> occurs key v s.
Proof.
  intros Hu. split; [apply lookup_sound|]. intros Ho. destruct (lookup_complete (S (jdepth v)) key v s) as [s' E]; [lia|done|].
  unfold lookupStringDeep. rewrite E. f_equal. eapply Hu; [by eapply lookup_sound|done].
Qed.

Lemma lookup_top fs key s : stringFromMap fs key = Some s -> lookupStringDeep order (JObject fs) key = Some s.
Proof. unfold lookupStringDeep. simpl. by intros ->. Qed.
End search_facts.

Lemma lookup_orders o1 o2 v key :
  (forall l, o1 l ≡ₚ l) -> (forall l, o2 l ≡ₚ l) -> unique key v -> lookupStringDeep o1 v key = lookupStringDeep o2 v key.
Proof.
  intros H1 H2 Hu. destruct (lookupStringDeep o1 v key) as [s|] eqn:E.
  - symmetry. apply (lookupStringDeep_unique o2 H2 v key s Hu). by apply (lookupStringDeep_unique o1 H1 v key s Hu).
  - destruct (lookupStringDeep o2 v key) as [s|] eqn:E2; [|done].
    apply (lookupStringDeep_unique o2 H2 v key s Hu), (lookupStringDeep_unique o1 H1 v key s Hu) in E2. congruence.
Qed.

Definition credentialKeys : list string :=
  ["access_token"; "refresh_token"; "id_token"; "account_id"; "chatgpt_account_id"; "expired"; "expire"; "expires_at"; "expiresAt"].

(** No key of interest stands for two different strings, in the document or in
    the claims of its token. *)
Definition unambiguous (doc : json) : Prop :=
  Forall (fun key => unique key doc) credentialKeys
  /\ forall token claims, occurs "id_token" doc token -> decodeJWTClaims token = Some claims ->
       unique (authClaim +:+ ".chatgpt_account_id") (JObject claims) /\ unique "chatgpt_account_id" (JObject claims).

(** The credentials found in an auth file do not depend on the order in which Go
    happens to iterate over its objects, as long as none of the keys stands for
    two different strings; and the access token found is one of the document. *)
Theorem extraction_order_independent (o1 o2 : fields -> fields) (doc : json) :
  (forall l, o1 l ≡ₚ l) -> (forall l, o2 l ≡ₚ l) -> unambiguous doc ->
  extractDoc o1 doc = extractDoc o2 doc
  /\ forall c, extractDoc o1 doc = Some c -> cc_AccessToken c <> "" /\ occurs "access_token" doc (cc_AccessToken c).
Proof.
  intros H1 H2 [Hk Hc]. rewrite Forall_forall in Hk.
  assert (forall key, key ∈ credentialKeys -> lookupStringDeep o1 doc key = lookupStringDeep o2 doc key) as E
    by (intros key Hin; apply lookup_orders; auto).
  assert (extractChatGPTAccountID o1 (default "" (lookupStringDeep o1 doc "id_token"))
          = extractChatGPTAccountID o2 (default "" (lookupStringDeep o1 doc "id_token"))) as Ei.
  { unfold extractChatGPTAccountID. destruct (lookupStringDeep o1 doc "id_token") as [token|] eqn:Et; simpl; [|done].
    destruct (decodeJWTClaims token) as [claims|] eqn:Ec; [|done].
    apply (lookup_sound o1 H1) in Et. destruct (Hc token claims Et Ec) as [U1 U2].
    by rewrite !(lookup_orders o1 o2 (JObject claims)). }
  split.
  - unfold extractDoc, lookupTimeDeep. rewrite Ei. simpl. rewrite !E by compute_done. done.
  - intros c. unfold extractDoc. destruct (nonEmpty _) as [t|] eqn:En; [|done].
    assert (t <> "" /\ occurs "access_token" doc t) as Ht.
    { destruct (lookupStringDeep o1 doc "access_token") as [t'|] eqn:Et; [|done]. simpl in En.
      destruct (String.eqb_spec t' ""); [done|]. injection En as ->. split; [done|]. exact (lookup_sound o1 H1 _ _ _ _ Et). }
    destruct (firstSome id _); [by intros [= <-]|]. branch; [done|]. by intros [= <-].
Qed.

Definition example_auth : string :=
  js "{'type':'codex','tokens':{'access_token':'at','refresh_token':'rt'},'account_id':'acc','expired':'2024-01-01T00:00:00Z'}".
Definition example_doc : json := default JNull (UnmarshalAny example_auth).

(** A decision procedure for examples: all occurrences of a key. *)
Fixpoint occurrences (fuel : nat) (key : string) (v : json) : list string :=
  match fuel with
  | O => []
  | S fuel =>
      match v with
      | JObject fs => match stringFromMap fs key with Some s => [s] | None => mapPairs fs ≫= fun kv => occurrences fuel key kv.2 end
      | JArray items => items ≫= occurrences fuel key
      | _ => []
      end
  end.
Lemma occurrences_all fuel key v s : (jdepth v < fuel)%nat -> occurs key v s -> s ∈ occurrences fuel key v.
Proof.
  intros Hf Ho. revert fuel Hf. induction Ho as [fs s E|fs k v s E Hin Ho IH|items v s Hin Ho IH]; intros [|fuel] Hf; try lia; simpl.
  - rewrite E. set_solver.
  - rewrite E. apply list_elem_of_bind. exists (k, v). split; [|done]. apply IH.
    apply mapPairs_sub, (foldr_max_depth (fun kv => jdepth kv.2)) in Hin. simpl in *. lia.
  - apply list_elem_of_bind. exists v. split; [|done]. apply IH. apply (foldr_max_depth jdepth) in Hin. simpl in *. lia.
Qed.
Lemma unique_by_list key v : (length (occurrences (S (jdepth v)) key v) <= 1)%nat -> unique key v.
Proof.
  intros Hl s1 s2 H1 H2. apply (occurrences_all (S (jdepth v))) in H1, H2; [|lia..].
  destruct (occurrences _ _ _) as [|x [|y l]]; simpl in *; [set_solver|set_solver|lia].
Qed.

Lemma extraction_order_independent_witness :
  extractDoc id example_doc = extractDoc reverse example_doc
  /\ extractDoc id example_doc = Some (mkCodexCredentials "at" "rt" "" "acc" (unixTime 1704067200)).
Proof.
  split; [|vm_compute; reflexivity].
  apply (extraction_order_independent id reverse example_doc).
  - reflexivity.
  - intros l. apply reverse_Permutation.
  - split.
    + repeat apply Forall_cons_2; try apply Forall_nil_2; apply unique_by_list; vm_compute; lia.
    + intros token claims H. apply (occurrences_all (S (jdepth example_doc))) in H; [|lia]. vm_compute in H. inversion H.
Defined.

(** Two objects with tokens: which credential is used depends on the run. *)
Theorem nested_tokens_ambiguous :
  let doc := default JNull (UnmarshalAny (js "{'old':{'access_token':'a1'},'new':{'access_token':'a2'}}")) in
  cc_AccessToken <$> extractDoc id doc = Some "a1" /\ cc_AccessToken <$> extractDoc reverse doc = Some "a2".
Proof. vm_compute. auto. Qed.

(** ** The rewritten file *)

Lemma field_app key l1 l2 : field key (l1 ++ l2) = match field key l2 with Some v => Some v | None => field key l1 end.
Proof.
  induction l1 as [|[k v] l1 IH]; simpl; [by destruct (field key l2)|]. rewrite IH. by destruct (field key l2).
Qed.
Lemma field_filter key k fs : k <> key -> field key (filter (fun kv => kv.1 <> k) fs) = field key fs.
Proof.
  intros Hk. induction fs as [|[j v] fs IH]; [done|]. rewrite filter_cons. case_decide as Hd; simpl in *; [by rewrite IH|].
  subst j. rewrite IH. destruct (field key fs); [done|]. by destruct (String.eqb_spec k key).
Qed.
Lemma field_set key k v fs : field key (setField k v fs) = if String.eqb k key then Some v else field key fs.
Proof.
  unfold setField. rewrite field_app. simpl. destruct (String.eqb_spec k key) as [->|Hk]; [done|by rewrite field_filter].
Qed.
Lemma stringFromMap_set key k v fs :
  stringFromMap (setField k v fs) key = if String.eqb k key then match v with JString s => Some s | _ => None end else stringFromMap fs key.
Proof. unfold stringFromMap. rewrite field_set. by destruct (String.eqb k key). Qed.

(** The strings of the rewritten file, key by key. *)
Lemma updated_string format fs c now key :
  stringFromMap (updateFields format fs c now) key =
    if String.eqb "last_refresh" key && negb (IsZero now) then Some (format now)
    else if String.eqb "expired" key && negb (IsZero (cc_ExpiresAt c)) then Some (format (cc_ExpiresAt c))
    else if String.eqb "type" key then Some "codex"
    else if String.eqb "account_id" key then Some (cc_ChatGPTAccountID c)
    else if String.eqb "id_token" key then Some (cc_IDToken c)
    else if String.eqb "refresh_token" key then Some (cc_RefreshToken c)
    else if String.eqb "access_token" key then Some (cc_AccessToken c)
    else stringFromMap fs key.
Proof.
  unfold updateFields. destruct (IsZero now), (IsZero (cc_ExpiresAt c)); rewrite !stringFromMap_set;
    cbn [negb]; rewrite ?andb_false_r, ?andb_true_r; done.
Qed.

Lemma field_present key v fs : (key, v) ∈ fs -> is_Some (field key fs).
Proof.
  induction fs as [|[k w] fs IH]; [by intros ?%not_elem_of_nil|]. cbn [field]. intros [[= -> ->]|Hin]%elem_of_cons.
  - rewrite String.eqb_refl. destruct (field k fs); eauto.
  - destruct (IH Hin) as [x ->]. eauto.
Qed.
Lemma field_mapPairs key fs : field key (mapPairs fs) = field key fs.
Proof.
  induction fs as [|[k v] fs IH]; [done|]. cbn [mapPairs]. case_bool_decide as Hin; cbn [field]; rewrite IH; [|done].
  destruct (field key fs) eqn:E; [done|]. destruct (String.eqb_spec k key) as [->|]; [|done]. exfalso.
  apply list_elem_of_fmap in Hin as ([k' w] & -> & Hin). destruct (field_present _ _ _ Hin) as [x Hx]. cbn [fst] in E. congruence.
Qed.

(** What the text of a time reads back as: the time without its fraction of a second,
    unless the text cannot carry its zone or its year. *)
Lemma parseAuthTime_format offset t :
  minuteZone offset -> fourDigitYear offset t -> parseAuthTime (FormatRFC3339In offset t) = Some (t - t mod Second).
Proof.
  intros Hz Hy. unfold parseAuthTime. destruct (RFC3339_trimmed offset t Hy) as [-> Hne]. rewrite (proj2 (String.eqb_neq _ _) Hne).
  by apply RFC3339_roundtrip.
Qed.

(** C40: A refreshed credential survives the file: whatever the auth file held
    before, reading the rewritten document yields the new access, refresh and identity
    tokens and the account that were written, and the expiry to the whole second, in
    whatever zone it is shown.  Assumed is that the access token and the account are
    not empty, and of the expiry that its local year has four digits and its zone is
    off UTC by whole minutes and by less than a day.  A credential without an expiry
    leaves the one that stands at the top of the old file. *)
Theorem rewritten_file_roundtrip (order : fields -> fields) (zone : Time -> Z) (raw : string) (c : CodexCredentials) (now : Time) (doc : json) :
  let expiry := cc_ExpiresAt c in
  cc_AccessToken c <> "" -> cc_ChatGPTAccountID c <> "" ->
  (expiry <> zeroTime -> minuteZone (zone expiry) /\ fourDigitYear (zone expiry) expiry) ->
  updateCodexAuthJSON (fun t => FormatRFC3339In (zone t) t) raw c now = Some doc ->
  exists expires,
    extractDoc order doc = Some (mkCodexCredentials (cc_AccessToken c) (cc_RefreshToken c) (cc_IDToken c) (cc_ChatGPTAccountID c) expires)
    /\ (expiry <> zeroTime -> expires = expiry - expiry mod Second)
    /\ (expiry = zeroTime -> forall old fs, UnmarshalMap raw = Some fs -> stringFromMap fs "expired" ≫= parseAuthTime = Some old -> expires = old).
Proof.
  intros expiry Ha Hc He. unfold updateCodexAuthJSON. set (format := fun t => FormatRFC3339In (zone t) t).
  destruct (if String.eqb raw "" then Some [] else UnmarshalMap raw) as [fs|] eqn:Efs; [|done].
  intros [= <-]. set (fs' := updateFields format (mapPairs fs) c now).
  assert (forall key s, stringFromMap fs' key = Some s -> lookupStringDeep order (JObject fs') key = Some s) as Hl
    by (intros; by apply lookup_top).
  exists (default zeroTime (lookupTimeDeep order (JObject fs') ["expired"; "expire"; "expires_at"; "expiresAt"])).
  split; [|split].
  - unfold extractDoc.
    rewrite (Hl "access_token" (cc_AccessToken c)), (Hl "refresh_token" (cc_RefreshToken c)), (Hl "id_token" (cc_IDToken c)),
      (Hl "account_id" (cc_ChatGPTAccountID c)) by (unfold fs'; rewrite updated_string; done).
    cbn [nonEmpty default]. rewrite (proj2 (String.eqb_neq _ _) Ha), (proj2 (String.eqb_neq _ _) Hc). done.
  - intros Hz. destruct (He Hz) as [Hm Hy]. assert (IsZero (cc_ExpiresAt c) = false) as Ez by (apply Z.eqb_neq; exact Hz).
    unfold lookupTimeDeep. cbn [firstSome]. rewrite (Hl "expired" (format expiry)) by (unfold fs'; rewrite updated_string, Ez; done).
    cbn [mbind option_bind]. unfold format. by rewrite parseAuthTime_format.
  - intros Hz old fs0 Eraw Eold. assert (fs0 = fs) as ->.
    { destruct (String.eqb_spec raw "") as [->|_]; [by vm_compute in Eraw|congruence]. }
    destruct (stringFromMap fs "expired") as [s|] eqn:Es; [|done]. cbn [mbind option_bind] in Eold.
    assert (IsZero (cc_ExpiresAt c) = true) as Ez by (apply Z.eqb_eq; exact Hz).
    unfold lookupTimeDeep. cbn [firstSome]. rewrite (Hl "expired" s).
    + cbn [mbind option_bind]. by rewrite Eold.
    + unfold fs'. rewrite updated_string, Ez, andb_false_r. unfold stringFromMap in *. by rewrite field_mapPairs, Es.
Qed.

Definition example_rotated : CodexCredentials := mkCodexCredentials "at2" "rt2" "" "acc" (unixTime 1704070800 + 250000000).
(** Two hours east of UTC. *)
Definition example_format : Time -> string := fun t => FormatRFC3339In 7200 t.

Lemma rewritten_file_roundtrip_witness :
  exists expires, extractDoc id (default JNull (updateCodexAuthJSON example_format example_auth example_rotated (unixTime 1704067200)))
                  = Some (mkCodexCredentials "at2" "rt2" "" "acc" expires)
    /\ expires = unixTime 1704070800.
Proof.
  destruct (rewritten_file_roundtrip id (fun _ => 7200) example_auth example_rotated (unixTime 1704067200)
    (default JNull (updateCodexAuthJSON example_format example_auth example_rotated (unixTime 1704067200)))) as (expires & E & H & _).
  - discriminate.
  - discriminate.
  - intros _. unfold minuteZone, fourDigitYear. split_and!; vm_compute; (reflexivity || discriminate).
  - vm_compute. reflexivity.
  - exists expires. split; [exact E|]. rewrite H by discriminate. vm_compute. reflexivity.
Defined.

(** A token response without a lifetime leaves the old expiry in the file, so
    the new token counts as expired and is refreshed again each time. *)
Theorem missing_lifetime_keeps_old_expiry :
  let rotated := mkCodexCredentials "at2" "rt2" "" "acc" zeroTime in
  let now := unixTime 1704067200 + Hour in
  let doc := default JNull (updateCodexAuthJSON example_format example_auth rotated now) in
  match extractDoc id doc with
  | Some c => cc_AccessToken c = "at2" /\ accessTokenExpired c now now = true
  | None => False
  end.
Proof. vm_compute. auto. Qed.
