(* ===== verification/Refresh.v ===== *)
(** * The refresh of one account (refresh.go, auth_transaction.go)

    [refreshAuthVersionedHeld] reads the auth file of an account, rotates an
    expired access token, fetches the quota and the reset credits, and records
    the outcome.  It runs inside [RunHeld] on a copy of the plugin state; what it
    did to the account is a journal that the coordinator applies when the result
    is still current.  The host's answers are an argument ([answers]); every call
    may be refused because the permit of the transaction is gone, may fail, or
    may answer.  The texts of errors matter where the code inspects them; the
    redaction by regular expressions and the texts of library errors are
    parameters. *)

From stdpp Require Import pretty.
From S2P Require Import Prelude GoStrings Float64 Json Text RetryChain Config Models Circuit Trial Capability Identity Annotations State Roster StateStore CredentialWAL Bindings Quota Usage Managed RosterGate Auth.

(** ** Data *)

(** What the code reads of [pluginapi.HostAuthFileEntry]. *)
Record HostAuthFileEntry := mkAuthEntry {
  he_ID : string; he_AuthIndex : string; he_Label : string; he_Email : string; he_Provider : string;
  he_Priority : Z; he_Disabled : bool; he_Unavailable : bool;
}.
Record HostAuthGetResponse := mkGetResponse { gr_Name : string; gr_JSON : string }.
Record HTTPRequest := mkRequest {
  hq_Method : string; hq_URL : string; hq_Headers : list (string * string); hq_Form : list (string * string) }.
Record HTTPResponse := mkResponse { hs_StatusCode : Z; hs_Body : string }.

(** A call to the host inside the transaction: refused with
    [errCPAAdmissionChanged] because the permit is gone, failed, or answered. *)
Inductive call_answer (A : Type) := CallRefused | CallFailed (text : string) | CallAnswered (a : A).
Arguments CallRefused {A}.
Arguments CallFailed {A} _.
Arguments CallAnswered {A} _.

(** What a step of the refresh returns: [errCPAAdmissionChanged], another error,
    or a value. *)
Inductive outcome (E A : Type) := Stale | Failed (e : E) | Done (a : A).
Arguments Stale {E A}.
Arguments Failed {E A} _.
Arguments Done {E A} _.

Definition isRefreshEligible (auth : HostAuthFileEntry) : bool :=
  EqualFold (he_Provider auth) "codex" && negb (he_Disabled auth) && negb (he_Unavailable auth)
  && negb (String.eqb (he_AuthIndex auth) "").
Definition isManualRefreshCandidate (auth : HostAuthFileEntry) : bool :=
  EqualFold (he_Provider auth) "codex" && negb (String.eqb (he_AuthIndex auth) "").

Definition filterAdmittedAuths (auths : list HostAuthFileEntry) (admission : CPAAdmissionState) : list HostAuthFileEntry :=
  filter (fun auth => isRefreshEligible auth = true /\ he_ID auth ∈ adm_AuthIDs admission) auths.

Definition accountStateFromAuth (auth : HostAuthFileEntry) (now : Time) : AccountState :=
  emptyAccount <| a_AuthID := he_ID auth |> <| a_AuthIndex := he_AuthIndex auth |> <| a_DisplayName := he_Label auth |>
               <| a_Email := he_Email auth |> <| a_Provider := he_Provider auth |> <| a_Priority := he_Priority auth |>
               <| a_LastRefreshAt := now |>.

Definition mergeResetCredits (quota resetCredits : ParsedQuota) : ParsedQuota :=
  let quota := match pq_ResetCreditsAvailableCount resetCredits with
               | Some count => quota <| pq_ResetCreditsAvailableCount := Some count |> | None => quota end in
  let quota := match pq_ResetCreditsTotalEarnedCount resetCredits with
               | Some count => quota <| pq_ResetCreditsTotalEarnedCount := Some count |> | None => quota end in
  match pq_ResetCredits resetCredits with [] => quota | credits => quota <| pq_ResetCredits := credits |> end.

Definition quotaSnapshotShowsRecovery (quota : ParsedQuota) (now : Time) : bool :=
  let windows := omap id [pq_FiveHour quota; pq_LongWindow quota] in
  forallb (fun w => windowShowsRemainingCapacity (Some w) now) windows && negb (bool_decide (windows = [])).

(** ** Errors and their texts *)

Inductive token_error :=
  | TokenMissing
  | TokenRequest (text : string)
  | TokenStatus (status : Z) (body : string)
  | TokenDecode (body : string)
  | TokenNoAccess
  | TokenRewrite (raw : string)
  | TokenNoName
  | TokenUnbound
  | TokenStale
  | TokenSave (e : credential_error)
  | TokenHostSave (text : string).

Inductive quota_error :=
  | QuotaRequest (text : string)
  | QuotaStatus (status : Z) (body : string)
  | QuotaDecode (body : string).

Definition maxErrorBodySummaryLen : nat := 220.
Definition ErrCapabilityB_text : string := "authoritative host roster unavailable".

(** [strings.Fields] and [strings.Join]. *)
Definition space_width (l : list Ascii.ascii) : nat :=
  match l with
  | a :: l => if space1 a then 1
              else match l with
                   | b :: l => if space2 a b then 2
                               else match l with c :: _ => if space3 a b c then 3 else 0 | [] => 0 end
                   | [] => 0
                   end
  | [] => 0
  end%nat.
Fixpoint fields_from (word : list Ascii.ascii) (skip : nat) (l : list Ascii.ascii) : list (list Ascii.ascii) :=
  let flush := match word with [] => [] | _ => [reverse word] end in
  match l with
  | [] => flush
  | c :: rest =>
      match skip with
      | S skip => fields_from word skip rest
      | O => match space_width l with
             | O => fields_from (c :: word) 0 rest
             | S w => flush ++ fields_from [] w rest
             end
      end
  end.
Definition Fields (s : string) : list string := String.string_of_list_ascii <$> fields_from [] 0 (String.list_ascii_of_string s).
Definition Join (words : list string) : string := String.concat " " words.

(** [strings.ReplaceAll] of a text that is not empty. *)
Fixpoint replace_from (fuel : nat) (s old new : string) : string :=
  match fuel with
  | O => s
  | S fuel => match cut old s with
              | None => s
              | Some (before, after) => before +:+ new +:+ replace_from fuel after old new
              end
  end.
Definition ReplaceAll (s old new : string) : string := replace_from (String.length s) s old new.

(** ** The transaction *)

(** The points at which the code reads the clock. *)
Inductive instant :=
  | AtStart | AtExpiry | AtLifetime | AtRewrite | AtMerge | AtParse | AtCredits | AtSuccess | AtApply
  | AtEvidence | AtPublish | AtLog | AtTokenLog | AtCreditsLog.

(** One HTTP request: the roster gate at that moment and the host's answer. *)
Record http_env := mkHTTPEnv {
  hv_gate : Gate; hv_cfg : option Config; hv_t0 : Time; hv_t1 : Time; hv_t2 : Time; hv_t3 : Time;
  hv_answer : call_answer HTTPResponse;
}.

(** The answers of one refresh.  The registry is read three times; [an_save] is
    the versioned save, [an_hostSave] the save without runtime store. *)
Record answers := mkAnswers {
  an_now : instant -> Time;
  an_getAuth : call_answer HostAuthGetResponse;
  an_token : http_env; an_quota : http_env; an_credits : http_env;
  an_lookup : BindingRegistry; an_before : BindingRegistry; an_after : BindingRegistry;
  an_save : save_env;
  an_hostSave : call_answer unit;
}.

#[export] Instance answers_eta : Eta answers := fun r => mkAnswers (an_now r) (an_getAuth r) (an_token r) (an_quota r) (an_credits r)
  (an_lookup r) (an_before r) (an_after r) (an_save r) (an_hostSave r).

(** What the refresh does outside its copy of the state, in order; a call that
    failed is listed too, since it may have reached the host. *)
Inductive refresh_effect :=
  | EffectGetAuth (index : string)
  | EffectHTTP (request : HTTPRequest)
  | EffectGate (g : Gate)
  | EffectSaveAuth (name raw : string)
  | EffectTrialEvidence (i : AuthInstanceID) (e : Evidence)
  | EffectTrialRetry (i : AuthInstanceID) (now : Time)
  | EffectPublish (s : PluginState) (now : Time).

(** The refresher of a transaction: its copy of the state, the credential log
    with the host's credentials (when there is a runtime store), the effects. *)
Record Txn := mkTxn {
  tx_state : PluginState;
  tx_credentials : option (CredentialManager * gmap AuthInstanceID HostAuth);
  tx_effects : list refresh_effect;
}.
#[export] Instance Txn_eta : Eta Txn := fun r => mkTxn (tx_state r) (tx_credentials r) (tx_effects r).

Definition effect (x : Txn) (e : refresh_effect) : Txn := x <| tx_effects := tx_effects x ++ [e] |>.

Definition quotaUserAgent : string := "codex_cli_rs/0.76.0 (Debian 13.0.0; x86_64) WindowsTerminal".
Definition resetCreditsEndpoint : string := "https://chatgpt.com/backend-api/wham/rate-limit-reset-credits".
Definition codexTokenEndpoint : string := "https://auth.openai.com/oauth/token".
Definition codexClientID : string := "app_EMoamEEZ73f0CkXaXp7hrann".
Definition rosterLifecycleRequestHeader : string := "X-CPA-Roster-Lifecycle".

Definition usageRequest (url : string) (c : CodexCredentials) : HTTPRequest :=
  mkRequest "GET" url [("Authorization", "Bearer " +:+ cc_AccessToken c); ("Chatgpt-Account-Id", cc_ChatGPTAccountID c);
                       ("Content-Type", "application/json"); ("User-Agent", quotaUserAgent)] [].
Definition tokenRequest (refreshToken : string) : HTTPRequest :=
  mkRequest "POST" codexTokenEndpoint [("Accept", "application/json"); ("Content-Type", "application/x-www-form-urlencoded")]
    [("client_id", codexClientID); ("grant_type", "refresh_token"); ("refresh_token", refreshToken); ("scope", "openid profile email")].

Definition withMarker (req : HTTPRequest) (marker : option string) : HTTPRequest :=
  match marker with
  | None => req
  | Some m => mkRequest (hq_Method req) (hq_URL req) (hq_Headers req ++ [(rosterLifecycleRequestHeader, m)]) (hq_Form req)
  end.

Definition getAuthWithAdmissionPermit (x : Txn) (env : answers) (authID : string) (version : Z) (authIndex : string)
  : Txn * outcome string HostAuthGetResponse :=
  if negb (BeginCPAAdmissionCall (tx_state x) authID version) then (x, Stale)
  else match an_getAuth env with
       | CallRefused => (x, Stale)
       | CallFailed text => (effect x (EffectGetAuth authIndex), Failed text)
       | CallAnswered r => (effect x (EffectGetAuth authIndex), Done r)
       end.

(** The gate may close the roster; then, or when it forbids the request, nothing
    is sent. *)
Definition doWithAdmissionPermit (x : Txn) (env : http_env) (authID : string) (version : Z) (req : HTTPRequest)
  : Txn * outcome string HTTPResponse :=
  if negb (BeginCPAAdmissionCall (tx_state x) authID version) then (x, Stale)
  else
    let '(g, sent) := doBackgroundHTTPRequest (hv_gate env) (hv_cfg env) false (hv_t0 env) (hv_t1 env) (hv_t2 env) (hv_t3 env) in
    let x := effect x (EffectGate g) in
    match sent with
    | GateRefused => (x, Failed ErrCapabilityB_text)
    | GateSent marker =>
        match hv_answer env with
        | CallRefused => (x, Stale)
        | CallFailed text => (effect x (EffectHTTP (withMarker req marker)), Failed text)
        | CallAnswered r => (effect x (EffectHTTP (withMarker req marker)), Done r)
        end
    end.

Definition saveAuthWithAdmissionPermit (x : Txn) (env : answers) (authID : string) (version : Z) (name raw : string)
  : Txn * outcome string unit :=
  if negb (BeginCPAAdmissionCall (tx_state x) authID version) then (x, Stale)
  else match an_hostSave env with
       | CallRefused => (x, Stale)
       | CallFailed text => (effect x (EffectSaveAuth name raw), Failed text)
       | CallAnswered _ => (effect x (EffectSaveAuth name raw), Done tt)
       end.

(** [tokenResp] of [refreshCodexAccessToken]. *)
Record token_response := mkTokenResponse {
  tr_AccessToken : string; tr_RefreshToken : string; tr_IDToken : string; tr_ExpiresIn : Z; tr_AccountID : string }.
Definition intStep (n : Z) (v : json) : option Z :=
  match v with JNumber lit => ParseInt lit | JNull => Some n | _ => None end.
Definition decodeTokenResponse (raw : string) : option token_response :=
  parse raw ≫= fun v =>
  match v with
  | JObject fs =>
      decodeField "access_token" stringStep "" fs ≫= fun access =>
      decodeField "refresh_token" stringStep "" fs ≫= fun refresh =>
      decodeField "id_token" stringStep "" fs ≫= fun id =>
      decodeField "expires_in" intStep 0 fs ≫= fun expires =>
      decodeField "account_id" stringStep "" fs ≫= fun account =>
      Some (mkTokenResponse access refresh id expires account)
  | JNull => Some (mkTokenResponse "" "" "" 0 "")
  | _ => None
  end.

Definition ok_status (status : Z) : bool := negb ((status <? 200) || (300 <=? status)).

Section refresh.
Context `{MapRange} (Sum256 : string -> string) (canonicalJSON : string -> option string).
Context (order : fields -> fields) (format : Time -> string) (Marshal : json -> string).
Context (redactSecrets : string -> string) (decodeErrorText : string -> string) (credentialErrorText : credential_error -> string).

Definition sanitizedBodySummary (body : string) : string :=
  if String.eqb body "" then "<empty>"
  else
    let summary := Join (Fields (redactSecrets body)) in
    if (maxErrorBodySummaryLen <? String.length summary)%nat then String.substring 0 maxErrorBodySummaryLen summary +:+ "..." else summary.

Definition redactWithCredentials (message : string) (c : CodexCredentials) : string :=
  foldl (fun message secret => if String.eqb secret "" then message else ReplaceAll message secret "[redacted]")
        (redactSecrets message) [cc_AccessToken c; cc_IDToken c].

Definition tokenErrorText (e : token_error) : string :=
  match e with
  | TokenMissing => "access_token expired and refresh_token is missing"
  | TokenRequest text => "token refresh request: " +:+ text
  | TokenStatus status body =>
      "token refresh returned status " +:+ pretty status +:+ ": response body: " +:+ sanitizedBodySummary body
  | TokenDecode body => "parse token refresh response: " +:+ decodeErrorText body
  | TokenNoAccess => "refresh response did not include access_token"
  | TokenRewrite raw => decodeErrorText raw
  | TokenNoName => "auth file name is required to save refreshed token"
  | TokenUnbound => "binding is not roster-confirmed"
  | TokenStale => "stale execution token"
  | TokenSave e => credentialErrorText e
  | TokenHostSave text => text
  end.
Definition quotaErrorText (what parsing : string) (e : quota_error) : string :=
  match e with
  | QuotaRequest text => what +:+ ": " +:+ text
  | QuotaStatus status body => what +:+ " returned status " +:+ pretty status +:+ ": response body: " +:+ sanitizedBodySummary body
  | QuotaDecode body => parsing +:+ ": " +:+ decodeErrorText body
  end.

Definition refreshFailureKind (status : Z) : RefreshFailureKind :=
  if status =? 401 then RefreshFailureAuth else RefreshFailureTransient.

Definition refreshTokenFailureKind (e : token_error) : RefreshFailureKind :=
  match e with
  | TokenStatus status _ =>
      if (status =? 400) || (status =? 401) || Contains (ToLower (tokenErrorText e)) "invalid_grant" then RefreshFailureAuth
      else refreshFailureKind status
  | _ =>
      let text := tokenErrorText e in
      if Contains text "refresh_token is missing" || Contains text "auth file name is required"
         || Contains text "refresh response did not include access_token"
      then RefreshFailureLocal else RefreshFailureTransient
  end.

(** ** The steps *)

Definition publish (x : Txn) (now : Time) : Txn := effect x (EffectPublish (tx_state x) now).

Definition mergeExistingAccount (x : Txn) (account : AccountState) (now : Time) : AccountState :=
  let key := accountStateKey account in
  if String.eqb key "" then account
  else
    match list_find (fun existing => accountStateKey existing = key) (ss_Accounts (Snapshot (tx_state x) now)) with
    | None => account
    | Some (_, existing) =>
        let merged := existing <| a_AuthID := a_AuthID account |> <| a_AuthIndex := a_AuthIndex account |>
                               <| a_DisplayName := a_DisplayName account |> <| a_Email := a_Email account |>
                               <| a_Provider := a_Provider account |> <| a_Priority := a_Priority account |> in
        if String.eqb (a_ChatGPTAccountID account) "" then merged else merged <| a_ChatGPTAccountID := a_ChatGPTAccountID account |>
    end.

Definition recordAdmissionLog (x : Txn) (env : answers) (at_ : instant) (authID : string) (version : Z)
    (level event message : string) (fields : gmap string any_value) : Txn :=
  x <| tx_state := (RecordLogIfAdmissionCurrent (tx_state x) authID version level event message fields (an_now env at_) (an_now env at_)).1 |>.

Definition upsertRefreshFailure (x : Txn) (env : answers) (account : AccountState) (version : Z) (message : string)
    (kind : RefreshFailureKind) : Txn :=
  let merged := mergeExistingAccount x account (an_now env AtMerge) in
  let merged := merged <| a_LastRefreshAt := a_LastRefreshAt account |> <| a_LastError := message |> in
  let '(s, applied) := ApplyQuotaRefreshFailureIfAdmissionCurrent (tx_state x) merged version kind message (an_now env AtApply) (an_now env AtApply) in
  let x := x <| tx_state := s |> in
  if applied then
    let x := effect x (EffectTrialRetry (a_Instance merged) (an_now env AtEvidence)) in
    let x := publish x (an_now env AtPublish) in
    recordAdmissionLog x env AtLog (a_AuthID merged) version "warn" "quota.refresh_failed" "账号额度刷新失败"
      {[ "auth_id" := AnyString (a_AuthID merged); "error" := AnyString message ]}
  else x.

Definition refreshCodexAccessToken (x : Txn) (env : answers) (refreshToken authID : string) (version : Z)
  : Txn * outcome token_error CodexCredentials :=
  let '(x, r) := doWithAdmissionPermit x (an_token env) authID version (tokenRequest refreshToken) in
  match r with
  | Stale => (x, Stale)
  | Failed text => (x, Failed (TokenRequest text))
  | Done resp =>
      if negb (ok_status (hs_StatusCode resp)) then (x, Failed (TokenStatus (hs_StatusCode resp) (hs_Body resp)))
      else
        match decodeTokenResponse (hs_Body resp) with
        | None => (x, Failed (TokenDecode (hs_Body resp)))
        | Some t =>
            let idToken := TrimSpace (tr_IDToken t) in
            let account := TrimSpace (tr_AccountID t) in
            let account := if String.eqb account "" && negb (String.eqb idToken "")
                           then default "" (extractChatGPTAccountID order idToken) else account in
            let expires := if 0 <? tr_ExpiresIn t then Add (an_now env AtLifetime) (i64 (tr_ExpiresIn t * Second)) else zeroTime in
            (x, Done (mkCodexCredentials (TrimSpace (tr_AccessToken t)) (TrimSpace (tr_RefreshToken t)) idToken account expires))
        end
  end.

Definition orElse (s t : string) : string := if String.eqb s "" then t else s.

Definition completeCredentials (refreshed current : CodexCredentials) : CodexCredentials :=
  mkCodexCredentials (cc_AccessToken refreshed) (orElse (cc_RefreshToken refreshed) (cc_RefreshToken current))
    (orElse (cc_IDToken refreshed) (cc_IDToken current)) (orElse (cc_ChatGPTAccountID refreshed) (cc_ChatGPTAccountID current))
    (cc_ExpiresAt refreshed).

(** The versioned save: the binding must be current before and after. *)
Definition saveRotated (x : Txn) (env : answers) (m : CredentialManager) (host : gmap AuthInstanceID HostAuth)
    (authID : string) (token : ExecutionToken) (name raw : string) (c : CodexCredentials) : Txn * outcome token_error unit :=
  match Lookup (an_lookup env) authID with
  | None => (x, Failed TokenUnbound)
  | Some binding =>
      let next := mkHostAuth name raw (NewCredentialFingerprint Sum256 canonicalJSON (cc_ChatGPTAccountID c) (cc_RefreshToken c) (rb_AuthIndex binding)) in
      let write := mkWriteback token (rb_Login binding) (rb_Fingerprint binding) in
      if negb (ApplyIfCurrent (an_before env) authID write) then (x, Failed TokenStale)
      else
        let '(m, host, (_, err)) := saveVersionedWithHost m host (rb_Instance binding) next token (an_save env) in
        let x := x <| tx_credentials := Some (m, host) |> in
        match err with
        | Some e => (x, Failed (TokenSave e))
        | None => if negb (ApplyIfCurrent (an_after env) authID write) then (x, Failed TokenStale) else (x, Done tt)
        end
  end.

Definition refreshAndSaveCredentials (x : Txn) (env : answers) (auth : HostAuthGetResponse) (current : CodexCredentials)
    (authID : string) (version : Z) (token : ExecutionToken) : Txn * outcome token_error CodexCredentials :=
  if String.eqb (TrimSpace (cc_RefreshToken current)) "" then (x, Failed TokenMissing)
  else
    let '(x, r) := refreshCodexAccessToken x env (cc_RefreshToken current) authID version in
    match r with
    | Stale => (x, Stale)
    | Failed e => (x, Failed e)
    | Done refreshed =>
        let refreshed := completeCredentials refreshed current in
        if String.eqb (cc_AccessToken refreshed) "" then (x, Failed TokenNoAccess)
        else
          match updateCodexAuthJSON format (gr_JSON auth) refreshed (an_now env AtRewrite) with
          | None => (x, Failed (TokenRewrite (gr_JSON auth)))
          | Some updated =>
              let name := TrimSpace (gr_Name auth) in
              if String.eqb name "" then (x, Failed TokenNoName)
              else
                let '(x, saved) :=
                  match tx_credentials x with
                  | Some (m, host) => saveRotated x env m host authID token name (Marshal updated) refreshed
                  | None =>
                      let '(x, r) := saveAuthWithAdmissionPermit x env authID version name (Marshal updated) in
                      (x, match r with Stale => Stale | Failed text => Failed (TokenHostSave text) | Done u => Done u end)
                  end in
                match saved with
                | Stale => (x, Stale)
                | Failed e => (x, Failed e)
                | Done _ =>
                    (recordAdmissionLog x env AtTokenLog authID version "info" "quota.token_refreshed"
                       "Codex access token refreshed and saved" {[ "auth_file" := AnyString name ]}, Done refreshed)
                end
          end
    end.

(** [fetchQuota] and [refreshResetCredits] differ in the URL and the parser. *)
Definition fetchUsage (x : Txn) (http : http_env) (url : string) (parse : string -> option ParsedQuota) (c : CodexCredentials)
    (authID : string) (version : Z) : Txn * outcome quota_error ParsedQuota :=
  let '(x, r) := doWithAdmissionPermit x http authID version (usageRequest url c) in
  match r with
  | Stale => (x, Stale)
  | Failed text => (x, Failed (QuotaRequest text))
  | Done resp =>
      if negb (ok_status (hs_StatusCode resp)) then (x, Failed (QuotaStatus (hs_StatusCode resp) (hs_Body resp)))
      else match parse (hs_Body resp) with
           | None => (x, Failed (QuotaDecode (hs_Body resp)))
           | Some quota => (x, Done quota)
           end
  end.
Definition fetchQuota (x : Txn) (env : answers) (c : CodexCredentials) (authID : string) (version : Z) :=
  fetchUsage x (an_quota env) (QuotaEndpoint (st_cfg (tx_state x))) (fun raw => ParseCodexUsagePayload raw (an_now env AtParse)) c authID version.
Definition refreshResetCredits (x : Txn) (env : answers) (c : CodexCredentials) (authID : string) (version : Z) :=
  fetchUsage x (an_credits env) resetCreditsEndpoint (fun raw => ParseResetCreditsPayload raw (an_now env AtCredits)) c authID version.

(** ** The refresh *)

(** From the quota on: the reset credits are optional. *)
Definition recordQuota (x : Txn) (env : answers) (account : AccountState) (c : CodexCredentials) (version : Z) (quota : ParsedQuota) : Txn :=
  let '(x, r) := refreshResetCredits x env c (a_AuthID account) version in
  let finish (x : Txn) (quota : ParsedQuota) : Txn :=
    let account := account <| a_Quota := quota |> <| a_Family := pq_Family quota |> <| a_LastError := "" |>
                           <| a_LastSuccessAt := an_now env AtSuccess |> in
    let '(s, applied) := ApplyQuotaRefreshSuccessIfAdmissionCurrent (tx_state x) account version (an_now env AtApply) (an_now env AtApply) in
    let x := x <| tx_state := s |> in
    if applied then
      let x := effect x (EffectTrialEvidence (a_Instance account) (mkEvidence EvidenceReliableQuotaWriteback (an_now env AtEvidence))) in
      let x := publish x (an_now env AtPublish) in
      recordAdmissionLog x env AtLog (a_AuthID account) version "info" "quota.refresh_success" "账号额度刷新成功"
        {[ "auth_id" := AnyString (a_AuthID account) ]}
    else x in
  match r with
  | Stale => x
  | Failed e =>
      finish (recordAdmissionLog x env AtCreditsLog (a_AuthID account) version "warn" "quota.reset_credits_failed" "主动重置次数刷新失败"
                {[ "auth_id" := AnyString (a_AuthID account);
                   "error" := AnyString (redactWithCredentials (quotaErrorText "reset credits request" "parse reset credits" e) c) ]}) quota
  | Done resetCredits => finish x (mergeResetCredits quota resetCredits)
  end.

(** With usable credentials. *)
Definition refreshWithCredentials (x : Txn) (env : answers) (account : AccountState) (c : CodexCredentials) (version : Z) : Txn :=
  let account := mergeExistingAccount x account (an_now env AtMerge) in
  let account := account <| a_ChatGPTAccountID := cc_ChatGPTAccountID c |> in
  if String.eqb (cc_ChatGPTAccountID c) "" then
    let account := account <| a_LastError := "" |> <| a_Refresh := emptyRefresh |> in
    let '(s, applied) := ApplyQuotaRefreshSuccessIfAdmissionCurrent (tx_state x) account version (an_now env AtApply) (an_now env AtApply) in
    let x := x <| tx_state := s |> in
    if applied then publish x (an_now env AtPublish) else x
  else
    let '(x, r) := fetchQuota x env c (a_AuthID account) version in
    match r with
    | Stale => x
    | Failed e =>
        upsertRefreshFailure x env account version (redactWithCredentials (quotaErrorText "quota request" "parse quota" e) c)
          (match e with QuotaStatus status _ => refreshFailureKind status | _ => RefreshFailureTransient end)
    | Done quota => recordQuota x env account c version quota
    end.

Definition noCredentials : CodexCredentials := mkCodexCredentials "" "" "" "" zeroTime.

Definition refreshAuthVersionedHeld (x : Txn) (env : answers) (auth : HostAuthFileEntry) (version : Z) (token : ExecutionToken) : Txn :=
  let '(priority, currentVersion, admitted) := AdmittedCPAPriorityVersioned (tx_state x) (he_ID auth) in
  if negb admitted || negb (currentVersion =? version) then x
  else
    let account := accountStateFromAuth auth (an_now env AtStart) in
    let account := account <| a_Priority := priority |> in
    let '(x, r) := getAuthWithAdmissionPermit x env (a_AuthID account) version (he_AuthIndex auth) in
    match r with
    | Stale => x
    | Failed text => upsertRefreshFailure x env account version (redactSecrets ("get auth: " +:+ text)) RefreshFailureTransient
    | Done authResp =>
        match ExtractCodexCredentials order (gr_JSON authResp) with
        | None => upsertRefreshFailure x env account version
                    (redactWithCredentials ("extract credentials: " +:+ decodeErrorText (gr_JSON authResp)) noCredentials) RefreshFailureLocal
        | Some credentials =>
            if accessTokenExpired credentials (an_now env AtExpiry) (an_now env AtExpiry) then
              let '(x, r) := refreshAndSaveCredentials x env authResp credentials (a_AuthID account) version token in
              match r with
              | Stale => x
              | Failed e => upsertRefreshFailure x env account version
                              (redactWithCredentials ("refresh access token: " +:+ tokenErrorText e) noCredentials) (refreshTokenFailureKind e)
              | Done credentials => refreshWithCredentials x env account credentials version
              end
            else refreshWithCredentials x env account credentials version
        end
    end.

(** [RunHeld]: the refresh on a copy of the state, and the journal of what it did
    to the account.  The baseline of the logs is the number of logs a snapshot
    of the copy retains. *)
Definition RunHeld (live : PluginState) (credentials : option (CredentialManager * gmap AuthInstanceID HostAuth)) (env : answers)
    (snapshotNow : Time) (auth : HostAuthFileEntry) (version : Z) (token : ExecutionToken) : Txn * LegacyEffectJournal :=
  let baselineLogs := Z.of_nat (length (ss_Logs (Snapshot live snapshotNow))) in
  let x := refreshAuthVersionedHeld (mkTxn live credentials []) env auth version token in
  (x, legacyEffectJournal (tx_state x) (he_ID auth) baselineLogs).

(** The permit of a transaction, and [Validate], with and without bindings. *)
Definition txnPermit (live : PluginState) (bindings : option BindingRegistry) (authID : string) (version : Z) (write : WritebackVersion) : bool :=
  CPAAdmissionVersionCurrent live version
  && match bindings with None => true | Some b => ApplyIfCurrent b authID write end.
Definition Validate (live : PluginState) (bindings : option BindingRegistry) (authID : string) (version : Z) (write : WritebackVersion) : bool :=
  match bindings with None => CPAAdmissionVersionCurrent live version | Some b => ApplyIfCurrent b authID write end.
End refresh.

(** ** What a refresh records *)

Section properties.
Context `{mr : MapRange} (Sum256 : string -> string) (canonicalJSON : string -> option string).
Context (order : fields -> fields) (format : Time -> string) (Marshal : json -> string).
Context (redactSecrets : string -> string) (decodeErrorText : string -> string) (credentialErrorText : credential_error -> string).

(** The quota and the time of the last success are those of before. *)
Definition same_evidence (before : option AccountState) (a : AccountState) : Prop :=
  let b := default emptyAccount before in a_Quota a = a_Quota b /\ a_LastSuccessAt a = a_LastSuccessAt b.

(** Upstream rejected the credentials of the account. *)
Definition rejected (env : answers) : Prop :=
  (exists resp, hv_answer (an_token env) = CallAnswered resp /\ ok_status (hs_StatusCode resp) = false
     /\ (hs_StatusCode resp = 400 \/ hs_StatusCode resp = 401
         \/ Contains (ToLower (tokenErrorText redactSecrets decodeErrorText credentialErrorText
                                 (TokenStatus (hs_StatusCode resp) (hs_Body resp)))) "invalid_grant" = true))
  \/ (exists resp, hv_answer (an_quota env) = CallAnswered resp /\ hs_StatusCode resp = 401).

(** The quota is what the host answered, with the credits where they were
    answered too. *)
Definition answered_quota (env : answers) (quota : ParsedQuota) : Prop :=
  exists resp q, hv_answer (an_quota env) = CallAnswered resp /\ ok_status (hs_StatusCode resp) = true
    /\ ParseCodexUsagePayload (hs_Body resp) (an_now env AtParse) = Some q
    /\ (quota = q \/ exists cresp credits, hv_answer (an_credits env) = CallAnswered cresp
          /\ ok_status (hs_StatusCode cresp) = true
          /\ ParseResetCreditsPayload (hs_Body cresp) (an_now env AtCredits) = Some credits /\ quota = mergeResetCredits q credits).

Inductive recorded (env : answers) (before : option AccountState) (a : AccountState) : Prop :=
  | recorded_failure kind :
      same_evidence before a -> rf_LastFailureKind (a_Refresh a) = kind -> kind <> RefreshFailureNone ->
      (kind = RefreshFailureAuth -> rejected env) -> recorded env before a
  | recorded_unidentified :
      same_evidence before a -> a_ChatGPTAccountID a = "" -> a_Refresh a = emptyRefresh -> recorded env before a
  | recorded_quota :
      answered_quota env (a_Quota a) -> a_LastSuccessAt a = an_now env AtSuccess -> a_LastError a = "" -> recorded env before a.

Lemma applyAnnotation_frame ann a :
  same_identity (applyAnnotation ann a) a /\ a_Quota (applyAnnotation ann a) = a_Quota a
  /\ a_LastSuccessAt (applyAnnotation ann a) = a_LastSuccessAt a.
Proof. unfold applyAnnotation. by destruct (_ !! _). Qed.

(** The account a refresh continues with. *)
Lemma merge_spec x account now :
  keys_canonical (tx_state x) -> a_AuthID account <> "" ->
  let before := st_accounts (tx_state x) !! authKey (a_AuthID account) in
  let m := mergeExistingAccount x account now in
  a_AuthID m = a_AuthID account
  /\ (before = None /\ m = account \/ is_Some before /\ same_evidence before m).
Proof.
  intros Hk Hid before m. subst m. unfold mergeExistingAccount. rewrite (accountStateKey_auth _ Hid). cbv zeta.
  rewrite (proj2 (String.eqb_neq _ _)) by (unfold authKey; intros E; by destruct (a_AuthID account)).
  destruct (list_find _ _) as [[i old]|] eqn:E.
  - apply list_find_Some in E as (Hold & Hkey & _). split; [by destruct (String.eqb _ _)|]. right.
    apply list_elem_of_lookup_2 in Hold. cbn [ss_Accounts Snapshot] in Hold. unfold ApplyAnnotations in Hold.
    apply list_elem_of_fmap in Hold as (a0 & -> & H0). rewrite sort_slice_perm in H0.
    apply list_elem_of_fmap in H0 as (a1 & -> & H1). apply list_elem_of_fmap in H1 as ([k a2] & -> & H2%elem_of_map_range).
    simpl in *. destruct (applyAnnotation_frame (NormalizeAnnotationState (st_annotations (tx_state x)))
                            (snapshotAccount (st_cfg (tx_state x)) now a2)) as (Hi & Hq & Hl).
    rewrite (same_identity_key _ _ Hi) in Hkey.
    assert (k = authKey (a_AuthID account)) as ->.
    { rewrite (Hk _ _ H2), <- Hkey. by apply same_identity_key. }
    subst before. rewrite H2. split; [done|]. unfold same_evidence. simpl. by destruct (String.eqb _ _).
  - split; [done|]. left. split; [|done]. subst before. apply eq_None_not_Some. intros [a Ha].
    apply list_find_None in E. rewrite Forall_forall in E.
    apply (E (applyAnnotation (NormalizeAnnotationState (st_annotations (tx_state x))) (snapshotAccount (st_cfg (tx_state x)) now a))).
    + cbn [ss_Accounts Snapshot]. apply list_elem_of_fmap_2. rewrite sort_slice_perm. apply list_elem_of_fmap_2.
      apply list_elem_of_fmap. exists (authKey (a_AuthID account), a). split; [done|]. by apply elem_of_map_range.
    + rewrite (same_identity_key _ _ (proj1 (applyAnnotation_frame _ _))). rewrite (Hk _ _ Ha). by apply same_identity_key.
Qed.

Lemma log_accounts x env at_ id version level event message fs :
  st_accounts (tx_state (recordAdmissionLog x env at_ id version level event message fs)) = st_accounts (tx_state x).
Proof. unfold recordAdmissionLog, RecordLogIfAdmissionCurrent. by destruct (negb _). Qed.

(** Requests and reads leave the copy of the state alone. *)
Lemma get_state x env id version index : tx_state (getAuthWithAdmissionPermit x env id version index).1 = tx_state x.
Proof. unfold getAuthWithAdmissionPermit. by repeat branch. Qed.
Lemma do_state x http id version req : tx_state (doWithAdmissionPermit x http id version req).1 = tx_state x.
Proof. unfold doWithAdmissionPermit. destruct (negb _); [done|]. destruct (doBackgroundHTTPRequest _ _ _ _ _ _ _) as [g []]; [done|]. by destruct (hv_answer http). Qed.
Lemma hostSave_state x env id version name raw : tx_state (saveAuthWithAdmissionPermit x env id version name raw).1 = tx_state x.
Proof. unfold saveAuthWithAdmissionPermit. by repeat branch. Qed.

(** What a call that returned says about the host's answer. *)
Lemma do_answer x http id version req y r :
  doWithAdmissionPermit x http id version req = (y, r) ->
  match r with Done resp => hv_answer http = CallAnswered resp | _ => True end.
Proof.
  unfold doWithAdmissionPermit. destruct (negb _); [by intros [= _ <-]|].
  destruct (doBackgroundHTTPRequest _ _ _ _ _ _ _) as [g []]; [by intros [= _ <-]|].
  destruct (hv_answer http); by intros [= _ <-].
Qed.

Lemma token_state x env refresh id version :
  tx_state (refreshCodexAccessToken order x env refresh id version).1 = tx_state x.
Proof.
  unfold refreshCodexAccessToken. pose proof (do_state x (an_token env) id version (tokenRequest refresh)) as H.
  destruct (doWithAdmissionPermit _ _ _ _ _) as [y []]; simpl in *; [done..|]. by repeat branch.
Qed.

Lemma saveRotated_state x env m host id token name raw c :
  tx_state (saveRotated Sum256 canonicalJSON x env m host id token name raw c).1 = tx_state x.
Proof.
  unfold saveRotated. destruct (Lookup _ _) as [b|]; [|done]. destruct (negb _); [done|].
  destruct (saveVersionedWithHost _ _ _ _ _ _) as [[m' host'] [sr [e|]]]; [done|]. by destruct (negb _).
Qed.

Notation refreshAndSave := (refreshAndSaveCredentials Sum256 canonicalJSON order format Marshal).

Lemma rotation_accounts x env auth c id version token :
  st_accounts (tx_state (refreshAndSave x env auth c id version token).1) = st_accounts (tx_state x).
Proof.
  unfold refreshAndSaveCredentials. destruct (String.eqb _ _); [done|].
  pose proof (token_state x env (cc_RefreshToken c) id version) as Ht.
  destruct (refreshCodexAccessToken _ _ _ _ _ _) as [y []] eqn:E; simpl in Ht; [by rewrite <- Ht..|].
  destruct (String.eqb _ _); [by rewrite <- Ht|]. destruct (updateCodexAuthJSON _ _ _ _); [|by rewrite <- Ht].
  destruct (String.eqb _ _); [by rewrite <- Ht|].
  match goal with |- context [let '(_, _) := ?t in _] => assert (tx_state t.1 = tx_state y) as Hs; [|destruct t as [z []]] end.
  - destruct (tx_credentials y) as [[m host]|]; [apply saveRotated_state|].
    pose proof (hostSave_state y env id version (TrimSpace (gr_Name auth)) (Marshal j)) as H. by destruct (saveAuthWithAdmissionPermit _ _ _ _ _ _).
  - simpl in *. by rewrite Hs, Ht.
  - simpl in *. by rewrite Hs, Ht.
  - cbn [fst]. rewrite log_accounts. simpl in Hs. by rewrite Hs, Ht.
Qed.

(** An authentication failure of the rotation comes from the token endpoint. *)
Lemma token_error_answer x env refresh id version y e :
  refreshCodexAccessToken order x env refresh id version = (y, Failed e) ->
  match e with
  | TokenStatus status body => hv_answer (an_token env) = CallAnswered (mkResponse status body) /\ ok_status status = false
  | _ => True
  end.
Proof.
  unfold refreshCodexAccessToken. destruct (doWithAdmissionPermit _ _ _ _ _) as [z []] eqn:E; [done|by intros [= _ <-]|].
  apply do_answer in E. destruct (negb (ok_status _)) eqn:Ok; [|destruct (decodeTokenResponse _); [done|by intros [= _ <-]]].
  intros [= _ <-]. destruct a. split; [done|]. by apply negb_true_iff in Ok.
Qed.

Lemma rotation_auth_failure x env auth c id version token y e :
  refreshAndSave x env auth c id version token = (y, Failed e) ->
  refreshTokenFailureKind redactSecrets decodeErrorText credentialErrorText e = RefreshFailureAuth -> rejected env.
Proof.
  unfold refreshAndSaveCredentials. destruct (String.eqb _ _); [by intros [= _ <-]|].
  destruct (refreshCodexAccessToken _ _ _ _ _ _) as [z []] eqn:E; [done| |].
  - intros [= _ <-] Hk. apply token_error_answer in E. unfold refreshTokenFailureKind in Hk.
    destruct e0; try (by destruct (_ || _)). destruct E as [E Ok]. left. eexists. split; [done|]. split; [done|].
    cbn [hs_StatusCode hs_Body]. destruct (Z.eqb_spec status 400) as [|N4]; [by left|].
    destruct (Z.eqb_spec status 401) as [|N1]; [by right; left|].
    right. right. destruct (Contains _ _); [done|]. simpl in Hk. unfold refreshFailureKind in Hk. by rewrite (proj2 (Z.eqb_neq _ _) N1) in Hk.
  - destruct (String.eqb _ _); [by intros [= _ <-]|]. destruct (updateCodexAuthJSON _ _ _ _); [|intros [= _ <-]; simpl; by destruct (_ || _)].
    destruct (String.eqb _ _); [by intros [= _ <-]|].
    match goal with |- context [let '(_, _) := ?t in _] => destruct t as [w []] eqn:Et end; [done| |done].
    intros [= _ <-] Hk. exfalso. assert (match e0 with TokenStatus _ _ => False | _ => True end) as Hn; [|by destruct e0; simpl in Hk; try destruct (_ || _)].
    destruct (tx_credentials z) as [[m host]|].
    + unfold saveRotated in Et. destruct (Lookup _ _); [|by injection Et as _ <-]. destruct (negb _); [by injection Et as _ <-|].
      destruct (saveVersionedWithHost _ _ _ _ _ _) as [[m' host'] [sr [e1|]]]; [by injection Et as _ <-|].
      destruct (negb _); [by injection Et as _ <-|done].
    + destruct (saveAuthWithAdmissionPermit _ _ _ _ _ _) as [? []]; [done|by injection Et as _ <-|done].
Qed.

Lemma fetch_answer x http url parse c id version y r :
  fetchUsage x http url parse c id version = (y, r) ->
  tx_state y = tx_state x
  /\ match r with
     | Done q => exists resp, hv_answer http = CallAnswered resp /\ ok_status (hs_StatusCode resp) = true /\ parse (hs_Body resp) = Some q
     | Failed (QuotaStatus status body) => exists resp, hv_answer http = CallAnswered resp /\ hs_StatusCode resp = status
     | _ => True
     end.
Proof.
  unfold fetchUsage. pose proof (do_state x http id version (usageRequest url c)) as Hs.
  destruct (doWithAdmissionPermit _ _ _ _ _) as [z []] eqn:E; simpl in Hs; [by intros [= <- <-]..|].
  apply do_answer in E. destruct (negb (ok_status _)) eqn:Ok; [intros [= <- <-]; eauto|]. apply negb_false_iff in Ok.
  destruct (parse _) eqn:Ep; intros [= <- <-]; eauto 6.
Qed.

(** One entry of the table changes, or none. *)
Definition changes_account (env : answers) (id : string) (s s' : PluginState) : Prop :=
  st_accounts s' = st_accounts s
  \/ exists a, st_accounts s' = <[authKey id := a]> (st_accounts s) /\ a_AuthID a = id /\ recorded env (st_accounts s !! authKey id) a.

Lemma put_recorded env (s s1 : PluginState) account applied (P : PluginState * bool) :
  P = (s1, applied) -> (exists a, P = (putAccount s (accountStateKey a) a, true) /\ a_AuthID a = a_AuthID account
                                  /\ recorded env (st_accounts s !! authKey (a_AuthID account)) a) \/ P = (s, false) ->
  a_AuthID account <> "" -> changes_account env (a_AuthID account) s s1.
Proof.
  intros -> [(a & [= -> ->] & Hid & Hr)|[= -> ->]] Hne; [right|by left].
  exists a. rewrite accountStateKey_auth by congruence. by rewrite Hid.
Qed.

Lemma upsert_changes x env account version message kind :
  keys_canonical (tx_state x) -> a_AuthID account <> "" -> kind <> RefreshFailureNone ->
  (kind = RefreshFailureAuth -> rejected env) ->
  (st_accounts (tx_state x) !! authKey (a_AuthID account) = None -> same_evidence None account) ->
  changes_account env (a_AuthID account) (tx_state x) (tx_state (upsertRefreshFailure x env account version message kind)).
Proof.
  intros Hk Hid Hkind Hauth Hnew. unfold upsertRefreshFailure.
  destruct (merge_spec x account (an_now env AtMerge) Hk Hid) as [Hm He]. cbv zeta in He.
  set (m := mergeExistingAccount _ _ _) in *. clearbody m.
  destruct (ApplyQuotaRefreshFailureIfAdmissionCurrent _ _ _ _ _ _ _) as [s1 applied] eqn:E.
  assert (changes_account env (a_AuthID account) (tx_state x) s1) as Hc.
  { apply (put_recorded env _ _ account applied _ E); [|done]. unfold ApplyQuotaRefreshFailureIfAdmissionCurrent.
    destruct (negb _); [by right|]. cbv zeta. destruct (String.eqb (accountStateKey _) ""); [by right|]. left. eexists. split; [reflexivity|].
    split; [exact Hm|]. apply recorded_failure with kind; [|simpl; by repeat branch|done|done].
    destruct He as [[Hb ->]|[Hb He]]; [rewrite Hb; by apply Hnew|exact He]. }
  destruct applied; [|exact Hc]. unfold changes_account. rewrite log_accounts. exact Hc.
Qed.

Lemma success_applied s account version clock now :
  ApplyQuotaRefreshSuccessIfAdmissionCurrent s account version clock now = (s, false)
  \/ exists a, ApplyQuotaRefreshSuccessIfAdmissionCurrent s account version clock now = (putAccount s (accountStateKey a) a, true)
       /\ same_identity a account /\ a_Quota a = a_Quota account /\ a_LastSuccessAt a = a_LastSuccessAt account
       /\ (a_LastError account = "" -> a_LastError a = "") /\ (a_Refresh account = emptyRefresh -> a_Refresh a = emptyRefresh).
Proof.
  unfold ApplyQuotaRefreshSuccessIfAdmissionCurrent. destruct (negb _); [by left|]. cbv zeta.
  destruct (String.eqb (accountStateKey _) ""); [by left|]. right. eexists. split; [reflexivity|].
  generalize (admissionPriorityLocked s (a_AuthID account)) as p. intros p.
  unfold settleRefresh, reconcileMarker, applyCircuitSuccess. repeat branch; by repeat split.
Qed.

Lemma recordQuota_changes x env account c version quota resp :
  a_AuthID account <> "" -> hv_answer (an_quota env) = CallAnswered resp -> ok_status (hs_StatusCode resp) = true ->
  ParseCodexUsagePayload (hs_Body resp) (an_now env AtParse) = Some quota ->
  changes_account env (a_AuthID account) (tx_state x)
    (tx_state (recordQuota redactSecrets decodeErrorText x env account c version quota)).
Proof.
  intros Hid Ha Ok Hp. unfold recordQuota. destruct (refreshResetCredits _ _ _ _ _) as [y r] eqn:E.
  apply fetch_answer in E as [Hs Hr].
  assert (forall z q, st_accounts (tx_state z) = st_accounts (tx_state x) -> answered_quota env q ->
    forall s applied, ApplyQuotaRefreshSuccessIfAdmissionCurrent (tx_state z)
      (account <| a_Quota := q |> <| a_Family := pq_Family q |> <| a_LastError := "" |> <| a_LastSuccessAt := an_now env AtSuccess |>)
      version (an_now env AtApply) (an_now env AtApply) = (s, applied) ->
    changes_account env (a_AuthID account) (tx_state x) s) as Hf.
  { intros z q Hz Hq s applied E.
    enough (changes_account env (a_AuthID account) (tx_state z) s) by (unfold changes_account in *; by rewrite <- Hz).
    apply (put_recorded env _ _ account applied _ E); [|done].
    destruct (success_applied (tx_state z) (account <| a_Quota := q |> <| a_Family := pq_Family q |> <| a_LastError := "" |>
      <| a_LastSuccessAt := an_now env AtSuccess |>) version (an_now env AtApply) (an_now env AtApply)) as [->|(a & -> & Hi & H1 & H2 & H3 & _)]; [by right|].
    left. exists a. split; [done|]. split; [apply Hi|]. apply recorded_quota; [by rewrite H1|by rewrite H2|by apply H3]. }
  assert (st_accounts (tx_state y) = st_accounts (tx_state x)) as Hy by by rewrite Hs.
  destruct r as [|e|credits]; [by left| |].
  - destruct (ApplyQuotaRefreshSuccessIfAdmissionCurrent _ _ _ _ _) as [s applied] eqn:Es.
    apply Hf in Es; [|by rewrite log_accounts|exists resp, quota; auto].
    destruct applied; [|exact Es]. unfold changes_account in *. by rewrite log_accounts.
  - destruct (ApplyQuotaRefreshSuccessIfAdmissionCurrent _ _ _ _ _) as [s applied] eqn:Es.
    apply Hf in Es; [|done|]. 2:{ destruct Hr as (cresp & Hc1 & Hc2 & Hc3). exists resp, quota. eauto 12. }
    destruct applied; [|exact Es]. unfold changes_account in *. by rewrite log_accounts.
Qed.

Lemma fresh_evidence auth now p : same_evidence None ((accountStateFromAuth auth now) <| a_Priority := p |>).
Proof. done. Qed.

Lemma with_credentials_changes x env account c version :
  keys_canonical (tx_state x) -> a_AuthID account <> "" -> same_evidence None account ->
  changes_account env (a_AuthID account) (tx_state x)
    (tx_state (refreshWithCredentials redactSecrets decodeErrorText x env account c version)).
Proof.
  intros Hk Hid Hnew. unfold refreshWithCredentials.
  destruct (merge_spec x account (an_now env AtMerge) Hk Hid) as [Hm He]. cbv zeta in He.
  set (m := mergeExistingAccount _ _ _) in *. clearbody m.
  assert (same_evidence (st_accounts (tx_state x) !! authKey (a_AuthID account)) m) as Hev.
  { destruct He as [[-> ->]|[_ He]]; [done|exact He]. }
  destruct (String.eqb _ _) eqn:Hc.
  - destruct (ApplyQuotaRefreshSuccessIfAdmissionCurrent _ _ _ _ _) as [s applied] eqn:E.
    assert (changes_account env (a_AuthID account) (tx_state x) s) as H.
    { apply (put_recorded env _ _ account applied _ E); [|done].
      edestruct success_applied as [->|(a & -> & Hi & H1 & H2 & _ & H4)]; [by right|]. left. exists a. split; [done|].
      split; [etransitivity; [apply Hi|exact Hm]|]. apply recorded_unidentified; [unfold same_evidence in *; by rewrite H1, H2| |by apply H4].
      apply String.eqb_eq in Hc. etransitivity; [apply Hi|exact Hc]. }
    by destruct applied.
  - assert (a_AuthID (m <| a_ChatGPTAccountID := cc_ChatGPTAccountID c |>) = a_AuthID account) as Hn by exact Hm.
    assert (same_evidence (st_accounts (tx_state x) !! authKey (a_AuthID account)) (m <| a_ChatGPTAccountID := cc_ChatGPTAccountID c |>))
      as Hevn by exact Hev.
    generalize dependent (m <| a_ChatGPTAccountID := cc_ChatGPTAccountID c |>). intros n Hn Hevn. clear Hm He Hev.
    destruct (fetchQuota _ _ _ _ _) as [y r] eqn:E. apply fetch_answer in E as [Hs Hr]. rewrite <- Hs in *. rewrite <- Hn in *.
    destruct r as [|e|q]; [by left| |].
    + apply upsert_changes; [exact Hk|exact Hid| | |].
      * unfold refreshFailureKind. destruct e; [done| |done]. by destruct (_ =? _).
      * destruct e; [done| |done]. destruct Hr as (resp & Ha & <-). unfold refreshFailureKind.
        destruct (Z.eqb_spec (hs_StatusCode resp) 401); [|done]. intros _. right. eauto.
      * intros Hb. by rewrite Hb in Hevn.
    + destruct Hr as (resp & Ha & Ok & Hp). cbv beta in Hp. by apply recordQuota_changes with resp.
Qed.

(** C27: A refresh of an account changes no other account.  What it records of the
    account is one of three things: a failure that keeps the quota and the time
    of the last success, and that counts as an authentication failure only if
    upstream rejected the credentials; an account without an account identifier,
    whose quota is kept as well; or a success whose quota is the one the host
    answered.  Whatever the answers are, in whichever call the transaction loses
    its permit, no quota is recorded that the host did not report. *)
Theorem refresh_records_only_answers (x : Txn) (env : answers) (auth : HostAuthFileEntry) (version : Z) (token : ExecutionToken) :
  keys_canonical (tx_state x) ->
  let s := tx_state x in
  let s' := tx_state (refreshAuthVersionedHeld Sum256 canonicalJSON order format Marshal redactSecrets decodeErrorText
                        credentialErrorText x env auth version token) in
  st_accounts s' = st_accounts s
  \/ exists a, st_accounts s' = <[authKey (he_ID auth) := a]> (st_accounts s) /\ a_AuthID a = he_ID auth
       /\ recorded env (st_accounts s !! authKey (he_ID auth)) a.
Proof.
  intros Hk s s'. subst s s'. change (changes_account env (he_ID auth) (tx_state x)
    (tx_state (refreshAuthVersionedHeld Sum256 canonicalJSON order format Marshal redactSecrets decodeErrorText
                        credentialErrorText x env auth version token))).
  unfold refreshAuthVersionedHeld, AdmittedCPAPriorityVersioned. destruct (negb _ || String.eqb _ _) eqn:Hadm; [by left|].
  apply orb_false_iff in Hadm as [_ Hid%String.eqb_neq]. destruct (negb _); [by left|]. destruct (negb true || _); [by left|].
  set (account := _ <| a_Priority := _ |>). assert (a_AuthID account = he_ID auth) as Ha by done.
  assert (same_evidence None account) as Hnew by done. clearbody account. rewrite <- Ha in *.
  pose proof (get_state x env (a_AuthID account) version (he_AuthIndex auth)) as Hg.
  destruct (getAuthWithAdmissionPermit _ _ _ _ _) as [y r]. simpl in Hg. rewrite <- Hg in *.
  destruct r as [|text|authResp]; [by left|by apply upsert_changes|].
  destruct (ExtractCodexCredentials _ _) as [c|]; [|by apply upsert_changes].
  destruct (accessTokenExpired _ _ _); [|by apply with_credentials_changes].
  pose proof (rotation_accounts y env authResp c (a_AuthID account) version token) as Hr.
  pose proof (rotation_auth_failure y env authResp c (a_AuthID account) version token) as Hf.
  destruct (refreshAndSaveCredentials _ _ _ _ _ _ _ _ _ _ _ _) as [z r]. simpl in Hr.
  enough (match r with Stale => True | _ => changes_account env (a_AuthID account) (tx_state z)
    (tx_state match r with
     | Failed e => upsertRefreshFailure z env account version
                 (redactWithCredentials redactSecrets ("refresh access token: " +:+ tokenErrorText redactSecrets decodeErrorText credentialErrorText e) noCredentials)
                 (refreshTokenFailureKind redactSecrets decodeErrorText credentialErrorText e)
     | Done credentials => refreshWithCredentials redactSecrets decodeErrorText z env account credentials version
     | Stale => z end) end) as Hz.
  { destruct r; [by left|..]; unfold changes_account in *; by rewrite <- Hr. }
  assert (keys_canonical (tx_state z)) as Hkz by (unfold keys_canonical; by rewrite Hr).
  destruct r as [|e|c']; [done| |by apply with_credentials_changes].
  apply upsert_changes; [done|done| |exact (Hf _ _ eq_refl)|done].
  unfold refreshTokenFailureKind, refreshFailureKind. by repeat branch.
Qed.

(** ** Which credentials travel *)

Definition request_ok (P : HTTPRequest -> Prop) (e : refresh_effect) : Prop := match e with EffectHTTP r => P r | _ => True end.

(** A step keeps the credential log and adds only requests of [P]. *)
Definition sends (P : HTTPRequest -> Prop) (x y : Txn) : Prop :=
  exists l, tx_effects y = tx_effects x ++ l /\ Forall (request_ok P) l.

Lemma sends_refl P x : sends P x x.
Proof. exists []. by rewrite app_nil_r. Qed.
Lemma sends_trans P x y z : sends P x y -> sends P y z -> sends P x z.
Proof. intros (l & Hl & Fl) (k & Hk & Fk). exists (l ++ k). rewrite Hk, Hl, app_assoc. split; [done|]. by apply Forall_app. Qed.
Lemma sends_effect (P : HTTPRequest -> Prop) x y e : request_ok P e -> sends P x y -> sends P x (effect y e).
Proof. intros He (l & Hl & Fl). exists (l ++ [e]). split; [cbn; by rewrite Hl, <- app_assoc|]. apply Forall_app. auto. Qed.
Lemma sends_publish P x y now : sends P x y -> sends P x (publish y now).
Proof. by apply sends_effect. Qed.
Lemma sends_state P x y s : sends P x y -> sends P x (y <| tx_state := s |>).
Proof. done. Qed.
Lemma sends_log P x y env at_ id version level event message fs :
  sends P x y -> sends P x (recordAdmissionLog y env at_ id version level event message fs).
Proof. done. Qed.
Create HintDb sends.
Hint Resolve sends_refl sends_effect sends_publish sends_state sends_log : sends.
Hint Extern 1 (request_ok _ _) => exact I : sends.

Lemma get_sends P x env id version index y r :
  getAuthWithAdmissionPermit x env id version index = (y, r) ->
  sends P x y /\ tx_credentials y = tx_credentials x /\ match r with Done a => an_getAuth env = CallAnswered a | _ => True end.
Proof.
  unfold getAuthWithAdmissionPermit. destruct (negb _); [intros [= <- <-]; eauto with sends|].
  destruct (an_getAuth env); intros [= <- <-]; eauto with sends.
Qed.

Lemma do_sends (P : HTTPRequest -> Prop) x http id version req y r :
  (forall marker, P (withMarker req marker)) -> doWithAdmissionPermit x http id version req = (y, r) ->
  sends P x y /\ tx_credentials y = tx_credentials x.
Proof.
  intros HP. unfold doWithAdmissionPermit. destruct (negb _); [intros [= <- <-]; eauto with sends|].
  destruct (doBackgroundHTTPRequest _ _ _ _ _ _ _) as [g [|marker]]; [intros [= <- <-]; eauto with sends|].
  destruct (hv_answer http); intros [= <- <-]; (split; [|done]); [eauto with sends|..];
    (apply sends_effect; [apply HP|eauto with sends]).
Qed.

Lemma upsert_sends P x env account version message kind :
  sends P x (upsertRefreshFailure x env account version message kind)
  /\ tx_credentials (upsertRefreshFailure x env account version message kind) = tx_credentials x.
Proof.
  unfold upsertRefreshFailure. destruct (ApplyQuotaRefreshFailureIfAdmissionCurrent _ _ _ _ _ _ _) as [s []]; (split; [|done]).
  - apply sends_log, sends_publish, sends_effect; [done|]. eauto with sends.
  - eauto with sends.
Qed.

Lemma fetch_sends (P : HTTPRequest -> Prop) x http url parse c id version y r :
  (forall marker, P (withMarker (usageRequest url c) marker)) -> fetchUsage x http url parse c id version = (y, r) ->
  sends P x y /\ tx_credentials y = tx_credentials x.
Proof.
  intros HP. unfold fetchUsage. destruct (doWithAdmissionPermit _ _ _ _ _) as [z []] eqn:E; apply (do_sends P) in E; auto.
  - by intros [= <- <-].
  - by intros [= <- <-].
  - intros E'. by repeat (branch_in E'); injection E' as <- <-.
Qed.

Lemma recordQuota_sends (P : HTTPRequest -> Prop) x env account c version quota :
  (forall url marker, P (withMarker (usageRequest url c) marker)) ->
  let y := recordQuota redactSecrets decodeErrorText x env account c version quota in
  sends P x y /\ tx_credentials y = tx_credentials x.
Proof.
  intros HP. unfold recordQuota. destruct (refreshResetCredits _ _ _ _ _) as [y r] eqn:E.
  apply (fetch_sends P) in E as [H1 <-]; [|apply HP].
  destruct r as [|e|credits]; [done| |];
    destruct (ApplyQuotaRefreshSuccessIfAdmissionCurrent _ _ _ _ _) as [s []]; (split; [|done]); try (apply sends_log, sends_publish, sends_effect; [done|]);
    (apply sends_state; (exact H1 || (apply sends_log; exact H1))).
Qed.

Lemma with_credentials_sends (P : HTTPRequest -> Prop) x env account c version :
  (forall url marker, P (withMarker (usageRequest url c) marker)) ->
  let y := refreshWithCredentials redactSecrets decodeErrorText x env account c version in
  sends P x y /\ tx_credentials y = tx_credentials x.
Proof.
  intros HP. unfold refreshWithCredentials. destruct (String.eqb _ _).
  - destruct (ApplyQuotaRefreshSuccessIfAdmissionCurrent _ _ _ _ _) as [s []]; (split; [|done]); [apply sends_publish|]; eauto with sends.
  - destruct (fetchQuota _ _ _ _ _) as [y r] eqn:E. apply (fetch_sends P) in E as [H1 <-]; [|apply HP].
    destruct r as [|e|q]; [done| |].
    + destruct (upsert_sends P y env ((mergeExistingAccount x account (an_now env AtMerge)) <| a_ChatGPTAccountID := cc_ChatGPTAccountID c |>) version
        (redactWithCredentials redactSecrets (quotaErrorText redactSecrets decodeErrorText "quota request" "parse quota" e) c)
        (match e with QuotaStatus status _ => refreshFailureKind status | _ => RefreshFailureTransient end)) as [H2 H3].
      split; [|exact H3]. eapply sends_trans; [exact H1|exact H2].
    + destruct (recordQuota_sends P y env ((mergeExistingAccount x account (an_now env AtMerge)) <| a_ChatGPTAccountID := cc_ChatGPTAccountID c |>) c version q HP) as [H2 H3].
      split; [|exact H3]. eapply sends_trans; [exact H1|exact H2].
Qed.

(** A versioned save that reports no error has reached the host. *)
Lemma save_reached_host m host i next token senv m' host' r :
  saveVersionedWithHost m host i next token senv = (m', host', (r, None)) -> host' !! i = Some next /\ sr_Phase r = Some TransitionApplied.
Proof.
  unfold saveVersionedWithHost. destruct (PersistentSnapshot _ _) as [st [fresh|e]]; [|done]. destruct (negb _); [done|].
  destruct (_ !! i) as [chain|]; [|done]. destruct (SaveTail chain) as [tail|]; [|done]. destruct (se_crash _ _); [done|].
  destruct (mutate _ _ _) as [m1 [e|]]; [done|]. unfold deliverSave. cbv zeta. repeat (destruct (se_crash _ _); [done|]).
  unfold hostSaveAuth. destruct (se_host senv) as [| |landed];
    repeat (destruct (se_crash _ _); [done|]); destruct (mutate _ _ _) as [m2 [e|]]; try done.
  intros [= _ <- <-]. by rewrite lookup_insert_eq.
Qed.

(** The credentials of the auth file the host returned. *)
Definition from_file (env : answers) (c : CodexCredentials) : Prop :=
  exists file, an_getAuth env = CallAnswered file /\ ExtractCodexCredentials order (gr_JSON file) = Some c.

(** Rotated credentials that the host holds: saved under the instance of the
    account's binding, which was current before and after the save. *)
Definition saved_rotation (env : answers) (authID : string) (token : ExecutionToken) (host : gmap AuthInstanceID HostAuth)
    (c : CodexCredentials) : Prop :=
  exists file doc binding,
    an_getAuth env = CallAnswered file /\ updateCodexAuthJSON format (gr_JSON file) c (an_now env AtRewrite) = Some doc
    /\ Lookup (an_lookup env) authID = Some binding
    /\ host !! rb_Instance binding = Some (mkHostAuth (TrimSpace (gr_Name file)) (Marshal doc)
         (NewCredentialFingerprint Sum256 canonicalJSON (cc_ChatGPTAccountID c) (cc_RefreshToken c) (rb_AuthIndex binding)))
    /\ forall registry, registry = an_before env \/ registry = an_after env ->
         ApplyIfCurrent registry authID (mkWriteback token (rb_Login binding) (rb_Fingerprint binding)) = true.

(** A request of the refresh: it asks the token endpoint with the refresh token
    of the file, or it carries the access token of the file before it expires, or
    that of a rotation the host holds. *)
Definition request_trusted (env : answers) (authID : string) (token : ExecutionToken) (host : gmap AuthInstanceID HostAuth)
    (req : HTTPRequest) : Prop :=
  exists marker,
    (exists c, from_file env c /\ req = withMarker (tokenRequest (cc_RefreshToken c)) marker)
    \/ (exists c url, from_file env c /\ accessTokenExpired c (an_now env AtExpiry) (an_now env AtExpiry) = false
          /\ req = withMarker (usageRequest url c) marker)
    \/ (exists c url, saved_rotation env authID token host c /\ req = withMarker (usageRequest url c) marker).

Lemma rotation_sends (P : HTTPRequest -> Prop) x env file c id version token y r m host :
  tx_credentials x = Some (m, host) -> (forall marker, P (withMarker (tokenRequest (cc_RefreshToken c)) marker)) ->
  an_getAuth env = CallAnswered file ->
  refreshAndSave x env file c id version token = (y, r) ->
  sends P x y /\ exists m' host', tx_credentials y = Some (m', host')
    /\ match r with Done c' => saved_rotation env id token host' c' | _ => True end.
Proof.
  intros Hx HP Hf. unfold refreshAndSaveCredentials. destruct (String.eqb _ _); [intros [= <- <-]; eauto with sends|].
  destruct (refreshCodexAccessToken _ _ _ _ _ _) as [z r1] eqn:E.
  assert (sends P x z /\ tx_credentials z = Some (m, host)) as [H1 Hz].
  { unfold refreshCodexAccessToken in E. destruct (doWithAdmissionPermit _ _ _ _ _) as [w r2] eqn:E2.
    apply (do_sends P) in E2 as [H1 H2]; [|exact HP]. rewrite Hx in H2. repeat (branch_in E); by injection E as <- <-. }
  destruct r1 as [|e|c1]; [intros [= <- <-]; eauto..|]. set (c2 := completeCredentials c1 c).
  destruct (String.eqb _ _); [intros [= <- <-]; eauto|]. destruct (updateCodexAuthJSON _ _ _ _) as [doc|] eqn:Hd; [|intros [= <- <-]; eauto].
  destruct (String.eqb _ _); [intros [= <- <-]; eauto|]. rewrite Hz. unfold saveRotated.
  destruct (Lookup _ _) as [b|] eqn:Hb; [|intros [= <- <-]; eauto]. destruct (negb (ApplyIfCurrent (an_before env) _ _)) eqn:Hbefore; [intros [= <- <-]; eauto|].
  destruct (saveVersionedWithHost _ _ _ _ _ _) as [[m' host'] [sr [e|]]] eqn:Es; [intros [= <- <-]; split; [exact H1|simpl; eauto]|].
  apply save_reached_host in Es as [Es _]. destruct (negb (ApplyIfCurrent (an_after env) _ _)) eqn:Hafter; [intros [= <- <-]; split; [exact H1|simpl; eauto]|].
  intros [= <- <-]. split; [exact H1|]. exists m', host'. split; [done|].
  exists file, doc, b. repeat (split; [done|]). intros registry [-> | ->]; by apply negb_false_iff.
Qed.

(** C26: With the runtime store, every request a refresh sends carries credentials
    the host holds: the refresh token of the auth file goes to the token endpoint
    only, an access token of the file is used only before it expires, and a
    rotated access token is used only after the host accepted the rewritten file
    under the instance of the account's binding, with the binding current before
    and after the save.  So no token is used that a crash would lose. *)
Theorem rotated_token_saved_before_use (x : Txn) (env : answers) (auth : HostAuthFileEntry) (version : Z) (token : ExecutionToken) :
  is_Some (tx_credentials x) ->
  let y := refreshAuthVersionedHeld Sum256 canonicalJSON order format Marshal redactSecrets decodeErrorText
             credentialErrorText x env auth version token in
  exists m host sent, tx_credentials y = Some (m, host) /\ tx_effects y = tx_effects x ++ sent
    /\ forall req, EffectHTTP req ∈ sent -> request_trusted env (he_ID auth) token host req.
Proof.
  intros [[m host] Hx] y. subst y.
  enough (exists m host, let y := refreshAuthVersionedHeld Sum256 canonicalJSON order format Marshal redactSecrets decodeErrorText
             credentialErrorText x env auth version token in
             tx_credentials y = Some (m, host) /\ sends (request_trusted env (he_ID auth) token host) x y) as (m' & host' & Hc & l & Hl & Fl).
  { exists m', host', l. split; [exact Hc|]. split; [exact Hl|]. intros req Hr. rewrite Forall_forall in Fl. exact (Fl _ Hr). }
  unfold refreshAuthVersionedHeld. destruct (AdmittedCPAPriorityVersioned _ _) as [[p v] admitted].
  destruct (_ || _); [cbv zeta; eauto with sends|]. cbv zeta.
  set (account := _ <| a_Priority := _ |>). assert (a_AuthID account = he_ID auth) as Hid by done. clearbody account. rewrite Hid.
  destruct (getAuthWithAdmissionPermit _ _ _ _ _) as [y r] eqn:E.
  assert (forall P, sends P x y /\ tx_credentials y = Some (m, host) /\ match r with Done a => an_getAuth env = CallAnswered a | _ => True end) as HE.
  { intros P. rewrite <- Hx. by apply (get_sends P) in E. }
  clear E. assert (forall P e, e = upsertRefreshFailure y env account version -> forall message kind, tx_credentials (e message kind) = Some (m, host) /\ sends P x (e message kind)) as Hup.
  { intros P e -> message kind. destruct (upsert_sends P y env account version message kind) as [H1 ->].
    split; [apply (HE P)|]. eapply sends_trans; [apply (HE P)|exact H1]. }
  destruct r as [|text|file]; [exists m, host; split; apply (HE (request_trusted env (he_ID auth) token host))|exists m, host; by apply Hup|].
  destruct (ExtractCodexCredentials _ _) as [c|] eqn:Ec; [|exists m, host; by apply Hup].
  destruct (HE (fun _ => True)) as (_ & Hy & Hfile).
  destruct (accessTokenExpired _ _ _) eqn:Eexp.
  - destruct (refreshAndSaveCredentials _ _ _ _ _ _ _ _ _ _ _ _) as [z r] eqn:Er.
    assert (exists m' host', tx_credentials z = Some (m', host') /\ (forall h, sends (request_trusted env (he_ID auth) token h) x z)
              /\ match r with Done c' => saved_rotation env (he_ID auth) token host' c' | _ => True end) as (m' & host' & Hz & Hs & Hr).
    { assert (forall h, forall marker, request_trusted env (he_ID auth) token h (withMarker (tokenRequest (cc_RefreshToken c)) marker)) as HP.
      { intros h marker. exists marker. left. exists c. split; [by exists file|done]. }
      destruct (rotation_sends _ y env file c _ version token z r m host Hy (HP ∅) Hfile Er) as (_ & m' & host' & Hz & Hr).
      exists m', host'. split; [exact Hz|]. split; [|exact Hr]. intros h. eapply sends_trans; [apply (HE (request_trusted env (he_ID auth) token h))|].
      by destruct (rotation_sends _ y env file c _ version token z r m host Hy (HP h) Hfile Er) as (? & _). }
    exists m', host'. destruct r as [|e|c']; [by split|..].
    + destruct (upsert_sends (request_trusted env (he_ID auth) token host') z env account version
        (redactWithCredentials redactSecrets ("refresh access token: " +:+ tokenErrorText redactSecrets decodeErrorText credentialErrorText e) noCredentials)
        (refreshTokenFailureKind redactSecrets decodeErrorText credentialErrorText e)) as [H1 H2].
      rewrite H2. split; [exact Hz|]. eapply sends_trans; [apply Hs|exact H1].
    + destruct (with_credentials_sends (request_trusted env (he_ID auth) token host') z env account c' version) as [H1 H2].
      { intros url marker. exists marker. right. right. exists c', url. split; [exact Hr|done]. }
      rewrite H2. split; [exact Hz|]. eapply sends_trans; [apply Hs|exact H1].
  - exists m, host. destruct (with_credentials_sends (request_trusted env (he_ID auth) token host) y env account c version) as [H1 H2].
    { intros url marker. exists marker. right. left. exists c, url. split; [by exists file|]. split; [exact Eexp|done]. }
    rewrite H2. split; [exact Hy|]. eapply sends_trans; [apply (HE (request_trusted env (he_ID auth) token host))|exact H1].
Qed.
End properties.

(** ** Examples *)

Definition exampleRotation : answers :=
  let now := unixTime 1704070800 in
  let http answer := mkHTTPEnv (mkGate (emptyHostRoster <| hr_Capability := CapabilityA |>) None 0) None now now now now answer in
  let registry := mkRegistry example_loaded {["a" := example_binding]} in
  mkAnswers (fun _ => now)
    (CallAnswered (mkGetResponse "auth.json" (js "{'access_token':'at1','refresh_token':'r1','account_id':'s','expired':'2024-01-01T01:00:00Z'}")))
    (http (CallAnswered (mkResponse 200 (js "{'access_token':'at2','refresh_token':'r2','expires_in':3600}"))))
    (http (CallAnswered (mkResponse 200 (js "{'plan_type':'plus','rate_limit':{'primary_window':{'used_percent':20,'limit_window_seconds':18000,'reset_at':1704080000}}}"))))
    (http (CallFailed "timeout"))
    registry registry registry (mkSaveEnv now now (fun _ => false) SaveAccepted io_fine store_fine store_fine) CallRefused.
Definition exampleAuth : HostAuthFileEntry := mkAuthEntry "a" "1" "" "" "codex" 0 false false.
Definition exampleToken : ExecutionToken := mkToken 7 1 1 5.
Definition exampleLive : PluginState :=
  (NewPluginState DefaultConfig) <| st_cpaAdmission := mkAdmission true 0 {["a"]} [] |> <| st_cpaAdmissionVersion := 1 |>
    <| st_accounts := {[ "auth:a" := emptyAccount <| a_AuthID := "a" |> <| a_AuthIndex := "1" |> <| a_Instance := 7 |> ]} |>.
Definition exampleRun (live : PluginState) (env : answers) : Txn * LegacyEffectJournal :=
  RunHeld example_hash (fun _ => None) id (fun _ => "2024-01-01T02:00:00Z") (fun _ => "{}") id id (fun _ => "error")
    live (Some (mkCredentials example_loaded CredentialWAL.example_persisted, {[7 := CredentialWAL.example_auth "r1"]})) env (an_now env AtStart) exampleAuth 1 exampleToken.
Definition exampleStored (s : PluginState) : AccountState := default emptyAccount (st_accounts s !! "auth:a").
Definition exampleRefreshed : Txn * LegacyEffectJournal := exampleRun exampleLive exampleRotation.
Definition exampleWrite : WritebackVersion := mkWriteback exampleToken 1 (example_credential "r1").
Definition sentURLs (x : Txn) : list string := omap (fun e => match e with EffectHTTP r => Some (hq_URL r) | _ => None end) (tx_effects x).

Lemma exampleLive_canonical : keys_canonical exampleLive.
Proof. unfold keys_canonical. simpl. by apply map_Forall_singleton. Qed.

Definition exampleTxn : Txn :=
  mkTxn exampleLive (Some (mkCredentials example_loaded CredentialWAL.example_persisted, {[7 := CredentialWAL.example_auth "r1"]})) [].
Lemma exampleRefreshed_run :
  exampleRefreshed.1 = refreshAuthVersionedHeld example_hash (fun _ => None) id (fun _ => "2024-01-01T02:00:00Z") (fun _ => "{}") id id
    (fun _ => "error") exampleTxn exampleRotation exampleAuth 1 exampleToken.
Proof. unfold exampleRefreshed, exampleRun, RunHeld. cbv zeta. cbn [fst]. reflexivity. Qed.

Lemma refresh_records_only_answers_witness :
  exists a, st_accounts (tx_state exampleRefreshed.1) = <["auth:a" := a]> (st_accounts exampleLive)
    /\ recorded id id (fun _ => "error") exampleRotation (st_accounts exampleLive !! "auth:a") a.
Proof.
  destruct (refresh_records_only_answers example_hash (fun _ => None) id (fun _ => "2024-01-01T02:00:00Z") (fun _ => "{}") id id (fun _ => "error")
    exampleTxn exampleRotation exampleAuth 1 exampleToken exampleLive_canonical) as [E|(a & E & _ & Hr)].
  - exfalso. assert (a_LastSuccessAt (exampleStored (tx_state exampleRefreshed.1)) = 0) as H; [|vm_compute in H; discriminate H].
    unfold exampleStored. transitivity (a_LastSuccessAt (default emptyAccount (st_accounts exampleLive !! "auth:a"))); [|vm_compute; reflexivity].
    rewrite exampleRefreshed_run. f_equal. f_equal. f_equal. exact E.
  - exists a. rewrite exampleRefreshed_run. split; [exact E|exact Hr].
Defined.

Lemma rotated_token_saved_before_use_witness :
  sentURLs exampleRefreshed.1 = [codexTokenEndpoint; QuotaEndpoint DefaultConfig; resetCreditsEndpoint]
  /\ exists m host sent, tx_credentials exampleRefreshed.1 = Some (m, host) /\ tx_effects exampleRefreshed.1 = [] ++ sent
       /\ forall req, EffectHTTP req ∈ sent ->
            request_trusted example_hash (fun _ => None) id (fun _ => "2024-01-01T02:00:00Z") (fun _ => "{}") exampleRotation "a" exampleToken host req.
Proof.
  split; [vm_compute; reflexivity|]. rewrite exampleRefreshed_run.
  exact (rotated_token_saved_before_use example_hash (fun _ => None) id (fun _ => "2024-01-01T02:00:00Z") (fun _ => "{}") id id (fun _ => "error")
    exampleTxn exampleRotation exampleAuth 1 exampleToken (ex_intro _ _ eq_refl)).
Defined.

(** The journal holds the whole account as it was when the refresh began, so a
    usage limit that is reported while the refresh waits for the host is undone
    when the journal is applied, although only a request or an operator may clear
    the marker. *)
Theorem commit_loses_usage_limit :
  let marked := MarkAccountTemporaryExhausted exampleLive "a" (unixTime 1704090000) "usage_limit_reached" in
  let committed := applyLegacyEffectJournal marked exampleRefreshed.2 in
  Validate marked (Some (an_lookup exampleRotation)) "a" 1 exampleWrite = true
  /\ a_TemporaryExhausted (exampleStored marked) = true /\ a_TemporaryExhausted (exampleStored committed) = false.
Proof. vm_compute. auto. Qed.

(** The scheduler is published from the copy of the state before the result is
    validated: a result that is rejected is published nevertheless. *)
Theorem published_before_validation :
  let moved := mkRegistry example_loaded {["a" := example_binding <| rb_Admission := 2 |>]} in
  Validate exampleLive (Some moved) "a" 1 exampleWrite = false
  /\ omap (fun e => match e with EffectPublish s _ => Some (a_LastSuccessAt (exampleStored s)) | _ => None end) (tx_effects exampleRefreshed.1)
     = [unixTime 1704070800].
Proof. vm_compute. auto. Qed.

(** The baseline of the logs is a count.  Once the log is full the copy drops an
    old entry for each new one, and the journal has no entry of the refresh; when
    the log holds entries that have expired the journal repeats entries that the
    live log has already. *)
Definition exampleEntry (t : Time) : LogEntry := mkLog t "info" "earlier" "" ∅.
Theorem refresh_log_lost_or_repeated :
  let full := exampleLive <| st_cfg := DefaultConfig <| MaxLogEntries := 1 |> |> <| st_logs := [exampleEntry (unixTime 1704070800)] |> in
  let expired := exampleLive <| st_logs := [exampleEntry 1; exampleEntry (unixTime 1704070800)] |> in
  let refused := exampleRotation <| an_getAuth := CallRefused |> in
  j_Logs (exampleRun full exampleRotation).2 = []
  /\ log_Event <$> st_logs (tx_state (exampleRun full exampleRotation).1) = ["quota.refresh_success"]
  /\ j_Logs (exampleRun expired refused).2 = [exampleEntry (unixTime 1704070800)].
Proof. vm_compute. auto. Qed.

(** A successful refresh of an account that is known already keeps the old time
    of its last refresh; only failures record it. *)
Theorem success_keeps_last_refresh :
  a_LastSuccessAt (exampleStored (tx_state exampleRefreshed.1)) = unixTime 1704070800
  /\ a_LastRefreshAt (exampleStored (tx_state exampleRefreshed.1)) = zeroTime.
Proof. vm_compute. auto. Qed.
