(* ===== verification/RefreshPass.v ===== *)
(** * Which accounts are refreshed (refresh.go)

    The passes over the accounts: the initial one, the one of the loop's timer
    and the one a pick asks for, the workers that carry out a pass, the manual
    refresh of one account with the reconciliation of its usage-limit marker, and
    the cache a pick is judged by.  A pass reads the state before and after the
    host lists its auths; both readings are arguments, since other goroutines run
    in between. *)

From stdpp Require Import pretty.
From S2P Require Import Prelude GoStrings Float64 Json Text RetryChain Config Models Circuit Trial Capability Identity Annotations State Roster StateStore CredentialWAL Bindings Quota Usage Managed RosterGate Auth Refresh RefreshLoop.

(** ** Listing *)

Section passes.
Context `{MapRange}.

Definition rosterAuths (roster : HostRosterSnapshot) : list HostAuthFileEntry :=
  omap (fun e => (fun p => mkAuthEntry (re_ID e) (re_AuthIndex e) "" "" (re_Provider e) p false false) <$> re_Priority e) (hr_Entries roster).

(** [roster] is the refresher's with a runtime store; without one the host lists. *)
Definition listAuthsWithAdmissionPermit (s : PluginState) (roster : option HostRosterSnapshot) (listed : call_answer (list HostAuthFileEntry))
    (version : Z) : outcome string (list HostAuthFileEntry) :=
  if negb (BeginCPAAdmissionVersionCall s version) then Stale
  else match roster with
       | Some roster => if negb (bool_decide (hr_Capability roster = CapabilityA)) then Failed ErrCapabilityB_text else Done (rosterAuths roster)
       | None => match listed with CallRefused => Stale | CallFailed text => Failed text | CallAnswered auths => Done auths end
       end.

Definition knownAccountAuthIDs (snapshot : StateSnapshot) : gset string :=
  list_to_set (filter (fun id => id <> "") (a_AuthID <$> ss_Accounts snapshot)).
Definition hasUnknownCandidate (candidateIDs knownAuthIDs : gset string) : bool := negb (bool_decide (candidateIDs ⊆ knownAuthIDs)).
Definition dueIDs (s : PluginState) (now : Time) : gset string :=
  list_to_set (filter (fun id => id <> "") (a_AuthID <$> DueAccounts s now now)).

Definition recordAuthScan (s : PluginState) (auths : list HostAuthFileEntry) (admission : CPAAdmissionState) (version : Z) (now : Time) : PluginState :=
  (RecordAuthScanIfAdmissionCurrent s version (Z.of_nat (length (filterAdmittedAuths auths admission))) now now).1.

(** What a pass returns: the state, its error, the auths to refresh. *)
Record pass_result := mkPass { pr_state : PluginState; pr_error : option string; pr_refresh : list HostAuthFileEntry }.
Definition noPass (s : PluginState) : pass_result := mkPass s None [].

(** From the listing on: [later] is the state when the listing has returned and
    [wanted] the test of a pass on the admitted auths. *)
Definition scanAndSelect (later : PluginState) (listing : outcome string (list HostAuthFileEntry)) (admission : CPAAdmissionState) (version : Z)
    (now : Time) (wanted : HostAuthFileEntry -> bool) : pass_result :=
  match listing with
  | Stale => noPass later
  | Failed text => if negb (CPAAdmissionVersionCurrent later version) then noPass later else mkPass later (Some ("list auths: " +:+ text)) []
  | Done auths =>
      if negb (CPAAdmissionVersionCurrent later version) then noPass later
      else mkPass (recordAuthScan later auths admission version now) None
                  (filter (fun a => wanted a = true) (filterAdmittedAuths auths admission))
  end.

Definition refreshOnce (s later : PluginState) (roster : option HostRosterSnapshot) (listed : call_answer (list HostAuthFileEntry))
    (version : Z) (now : Time) : pass_result :=
  let admission := st_cpaAdmission s in
  if negb (adm_Observed admission) || negb (st_cpaAdmissionVersion s =? version) then noPass later
  else scanAndSelect later (listAuthsWithAdmissionPermit s roster listed version) admission version now (fun _ => true).

Definition refreshDueOnce (s later : PluginState) (roster : option HostRosterSnapshot) (listed : call_answer (list HostAuthFileEntry))
    (version : Z) (now scanNow : Time) : pass_result :=
  let admission := st_cpaAdmission s in
  if negb (adm_Observed admission) || negb (st_cpaAdmissionVersion s =? version) then noPass later
  else if negb (RefreshActive s now now) then noPass later
  else
    let due := dueIDs s now in
    let known := knownAccountAuthIDs (Snapshot s now) in
    if bool_decide (due = ∅) && negb (bool_decide (known = ∅)) then noPass later
    else scanAndSelect later (listAuthsWithAdmissionPermit s roster listed version) admission version scanNow
           (fun auth => bool_decide (due = ∅) || bool_decide (he_ID auth ∈ due)).

(** [allowed] is [normalBackgroundAllowed] of the nested call. *)
Definition refreshDueCandidatesOnce (s later : PluginState) (roster : option HostRosterSnapshot) (listed : call_answer (list HostAuthFileEntry))
    (version : Z) (now scanNow : Time) (allowed : bool) : pass_result :=
  let admission := st_cpaAdmission s in
  if negb (adm_Observed admission) || negb (st_cpaAdmissionVersion s =? version) then noPass later
  else if negb (RefreshActive s now now) then noPass later
  else
    let candidates := adm_AuthIDs admission in
    if bool_decide (candidates = ∅) then
      if negb allowed then mkPass later (Some ErrCapabilityB_text) []
      else refreshDueOnce s later roster listed (st_cpaAdmissionVersion s) now scanNow
    else
      let due := dueIDs s now in
      let known := knownAccountAuthIDs (Snapshot s now) in
      if bool_decide (due = ∅) && negb (hasUnknownCandidate candidates known) then noPass later
      else scanAndSelect later (listAuthsWithAdmissionPermit s roster listed version) admission version scanNow
             (fun auth => bool_decide (he_ID auth ∈ candidates)
                && (if bool_decide (due = ∅) then negb (bool_decide (he_ID auth ∈ known))
                    else bool_decide (he_ID auth ∈ due) || negb (bool_decide (he_ID auth ∈ known)))).

(** ** The workers of a pass *)

(** [refreshAuths]: entries wait for a worker, are refreshed, are done. *)
Record Pool := mkPool { po_waiting : list HostAuthFileEntry; po_running : list HostAuthFileEntry; po_done : list HostAuthFileEntry }.

Definition poolSize (cfg : Config) (eligible : nat) : nat :=
  let concurrency := if MaxRefreshConcurrency cfg <=? 0 then 1 else MaxRefreshConcurrency cfg in
  if Z.of_nat eligible <? concurrency then eligible else Z.to_nat concurrency.

Inductive pool_step (size : nat) : Pool -> Pool -> Prop :=
  | pool_take auth waiting running done :
      (length running < size)%nat -> pool_step size (mkPool (auth :: waiting) running done) (mkPool waiting (auth :: running) done)
  | pool_finish auth before after waiting done :
      pool_step size (mkPool waiting (before ++ auth :: after) done) (mkPool waiting (before ++ after) (auth :: done)).

(** ** The manual refresh of one account *)

Inductive manual_error := ManualStale | ManualList (text : string) | ManualIneligible | ManualNotFound.

Definition manualOverride (s : PluginState) (authID : string) (version : Z) (now : Time) : PluginState :=
  (RecordLogIfAdmissionCurrent s authID version "warn" "quota.manual_refresh_override" "手动刷新已越过宿主侧的禁用或不可用标记"
     {[ "auth_id" := AnyString authID ]} now now).1.

(** What the reconciliation does besides: the scheduler is published and the host
    is asked to drop its cooldown. *)
Inductive manual_effect := ManualPublish | ManualCooldown (authIndex : string).

(** [resetCoreCooldown]; [models] is the number of models the host reports, or its
    error. *)
Definition resetCoreCooldown (s : PluginState) (authID authIndex : string) (version : Z) (models : result string Z) (redactSecrets : string -> string)
    (now : Time) : PluginState :=
  match models with
  | Err e => (RecordLogIfAdmissionCurrent s authID version "warn" "quota.core_cooldown_reset_unavailable" "当前 CPA 版本不支持清除核心冷却，仅插件侧恢复已生效"
                {[ "auth_id" := AnyString authID; "auth_index" := AnyString authIndex; "error" := AnyString (redactSecrets e) ]} now now).1
  | Ok n => (RecordLogIfAdmissionCurrent s authID version "info" "quota.core_cooldown_reset" "额度恢复已确认，已同步清除 CPA 核心冷却"
               {[ "auth_id" := AnyString authID; "auth_index" := AnyString authIndex; "models" := AnyInt n ]} now now).1
  end.

(** The loop over the snapshot stops at the first account that shows recovery. *)
Definition reconcileTemporaryExhausted (s : PluginState) (authID : string) (version : Z) (models : result string Z) (redactSecrets : string -> string)
    (now : Time) : PluginState * list manual_effect :=
  let authID := TrimSpace authID in
  if String.eqb authID "" then (s, [])
  else
    match list_find (fun a => a_AuthID a = authID /\ quotaSnapshotShowsRecovery (a_Quota a) now = true) (ss_Accounts (Snapshot s now)) with
    | None => (s, [])
    | Some (_, account) =>
        if negb (a_TemporaryExhausted account) && String.eqb (a_AuthIndex account) "" then (s, [])
        else if negb (BeginCPAAdmissionCall s authID version) then (s, [])
        else
          let '(s, effects) :=
            if a_TemporaryExhausted account then
              let '(s, cleared) := ClearAccountTemporaryExhausted s authID in
              if cleared then
                ((RecordLogIfAdmissionCurrent s authID version "info" "quota.temporary_recovered" "手动刷新证实额度已恢复，已清除临时耗尽标记"
                    {[ "auth_id" := AnyString authID ]} now now).1, [ManualPublish])
              else (s, [])
            else (s, []) in
          if String.eqb (a_AuthIndex account) "" then (s, effects)
          else (resetCoreCooldown s authID (a_AuthIndex account) version models redactSecrets now, effects ++ [ManualCooldown (a_AuthIndex account)])
    end.

(** [refreshOneAuthIDVersioned]: [later] is the state after the listing, and
    [refresh] what the submitted refresh has made of the state when it is done. *)
Definition refreshOneAuthIDVersioned (s later : PluginState) (listed : call_answer (list HostAuthFileEntry)) (authID : string) (version : Z)
    (refresh : HostAuthFileEntry -> PluginState -> PluginState) (models : result string Z) (redactSecrets : string -> string) (now reconcileNow : Time)
  : PluginState * option manual_error * list manual_effect :=
  if negb (BeginCPAAdmissionCall s authID version) then (s, Some ManualStale, [])
  else match listed with
       | CallRefused => (later, Some ManualStale, [])
       | CallFailed text => (later, Some (if negb (CPAAdmissionVersionCurrent later version) then ManualStale else ManualList text), [])
       | CallAnswered auths =>
           if negb (BeginCPAAdmissionCall later authID version) then (later, Some ManualStale, [])
           else
             match list_find (fun auth => he_ID auth = authID) auths with
             | None => (later, Some ManualNotFound, [])
             | Some (_, auth) =>
                 if negb (isRefreshEligible auth) && negb (isManualRefreshCandidate auth) then (later, Some ManualIneligible, [])
                 else
                   let s := if negb (isRefreshEligible auth) then manualOverride later authID version now else later in
                   let s := refresh auth s in
                   let '(s, effects) := reconcileTemporaryExhausted s authID version models redactSecrets reconcileNow in
                   (s, None, effects)
             end
       end.

(** ** The cache of a pick *)

(** The loop stops at the first stale account. *)
Fixpoint scanCache (accounts : list AccountState) (staleAfter : Duration) (now : Time) (initial : bool) : bool * bool :=
  match accounts with
  | [] => (initial, false)
  | a :: accounts =>
      let initial := initial || IsZero (a_LastSuccessAt a) in
      if negb (IsZero (a_LastSuccessAt a)) && (staleAfter <? Sub now (a_LastSuccessAt a)) then (initial, true)
      else scanCache accounts staleAfter now initial
  end.
Definition pickCache (s : PluginState) (now : Time) : CacheSnapshot :=
  let snapshot := Snapshot s now in
  let unknown := hasUnknownCandidate (adm_AuthIDs (ss_CPAAdmission snapshot)) (knownAccountAuthIDs snapshot) in
  let '(initial, stale) := scanCache (ss_Accounts snapshot) (StaleAfter (ss_Config snapshot)) now unknown in
  mkCache initial stale (StaleAfter (ss_Config snapshot)) (ss_Accounts snapshot).

(** [OnSchedulerPick]: the controller, and the runs with the loop woken and a due
    refresh requested where the pick calls for one.  [allowed] and [allowedLater]
    are the two readings of [normalBackgroundAllowed]. *)
Definition OnSchedulerPick (c : RefreshController) (r : Runs) (s : PluginState) (allowed allowedLater : bool) (version : Z) (now : Time)
  : RefreshController * Runs :=
  if negb allowed then (c, r)
  else
    let '(c, intents) := OnPick c now (pickCache s now) in
    let r := wakeRefreshLoop r in
    match intents with
    | [] => (c, r)
    | _ => (c, if allowedLater then refreshDueSoon r (DueCandidates version) else r)
    end.
End passes.

(** ** What a pass refreshes *)

Section pass_properties.
Context `{mr : MapRange}.

Definition account_due (s : PluginState) (authID : string) (now : Time) : Prop :=
  authID <> "" /\ exists key a reason, st_accounts s !! key = Some a /\ a_AuthID a = authID
    /\ accountRefreshDue a (NormalizeConfig (st_cfg s)) (now_or now now) = (true, reason).
Definition account_known (s : PluginState) (authID : string) : Prop :=
  authID <> "" /\ exists key a, st_accounts s !! key = Some a /\ a_AuthID a = authID.

Lemma elem_of_dueIDs s now id : id ∈ dueIDs s now <-> account_due s id now.
Proof.
  unfold dueIDs, account_due. rewrite elem_of_list_to_set, list_elem_of_filter, list_elem_of_fmap.
  destruct (due_accounts_exact s now now) as [_ Hd]. apply and_iff_compat_l. split.
  - intros (b & -> & Hb). apply Hd in Hb as (key & a & reason & Ha & E & ->). by exists key, a, reason.
  - intros (key & a & reason & Ha & <- & E). eexists. split; [|apply Hd; exists key, a, reason; done]. done.
Qed.

Lemma applyAnnotation_id ann a : a_AuthID (applyAnnotation ann a) = a_AuthID a.
Proof. apply applyAnnotation_frame. Qed.

Lemma elem_of_known s now id : id ∈ knownAccountAuthIDs (Snapshot s now) <-> account_known s id.
Proof.
  unfold knownAccountAuthIDs, account_known. rewrite elem_of_list_to_set, list_elem_of_filter, list_elem_of_fmap. apply and_iff_compat_l.
  cbn [ss_Accounts Snapshot]. unfold ApplyAnnotations. split.
  - intros (b & -> & Hb). apply list_elem_of_fmap in Hb as (a0 & -> & H0). rewrite sort_slice_perm in H0.
    apply list_elem_of_fmap in H0 as (a1 & -> & H1). apply list_elem_of_fmap in H1 as ([k a2] & -> & H2%elem_of_map_range).
    exists k, a2. split; [done|]. symmetry. etransitivity; [apply applyAnnotation_id|done].
  - intros (key & a & Ha & <-). eexists. split; [|apply list_elem_of_fmap_2; rewrite sort_slice_perm; apply list_elem_of_fmap_2,
      list_elem_of_fmap; exists (key, a); split; [done|by apply elem_of_map_range]].
    symmetry. etransitivity; [apply applyAnnotation_id|done].
Qed.

(** The auths a pass may refresh at all. *)
Definition refreshable (s : PluginState) (auth : HostAuthFileEntry) : Prop :=
  isRefreshEligible auth = true /\ he_ID auth ∈ adm_AuthIDs (st_cpaAdmission s).

Lemma scan_selects later auths admission version now wanted :
  CPAAdmissionVersionCurrent later version = true ->
  pr_refresh (scanAndSelect later (Done auths) admission version now wanted)
    = filter (fun a => wanted a = true /\ isRefreshEligible a = true /\ he_ID a ∈ adm_AuthIDs admission) auths.
Proof.
  intros Hv. unfold scanAndSelect. rewrite Hv. cbn [negb pr_refresh]. unfold filterAdmittedAuths. by rewrite list_filter_filter.
Qed.

Lemma scan_error later auths admission version now wanted :
  CPAAdmissionVersionCurrent later version = true -> pr_error (scanAndSelect later (Done auths) admission version now wanted) = None.
Proof. intros Hv. unfold scanAndSelect. by rewrite Hv. Qed.

(** The pass that starts only while it may. *)
Definition pass_current (s later : PluginState) (version : Z) (now : Time) : Prop :=
  adm_Observed (st_cpaAdmission s) = true /\ st_cpaAdmissionVersion s = version /\ st_cpaAdmissionVersion later = version
  /\ RefreshActive s now now = true.

Lemma nothing_known_nothing_due s now : knownAccountAuthIDs (Snapshot s now) = ∅ -> dueIDs s now = ∅.
Proof.
  intros Hk. apply set_eq. intros id. split; [|set_solver]. rewrite elem_of_dueIDs. intros [Hn (key & a & _ & Ha & <- & _)].
  exfalso. apply (not_elem_of_empty (C := gset string) (a_AuthID a)). rewrite <- Hk. apply elem_of_known. split; [done|]. by exists key, a.
Qed.

(** What the listing gives a pass: with a runtime store (as in production) the
    entries of its roster that have a priority, when the roster is authoritative;
    without one, what the host answers. *)
Inductive lists : option HostRosterSnapshot -> call_answer (list HostAuthFileEntry) -> list HostAuthFileEntry -> Prop :=
  | lists_roster r listed : hr_Capability r = CapabilityA -> lists (Some r) listed (rosterAuths r)
  | lists_host auths : lists None (CallAnswered auths) auths.

Lemma lists_done s roster listed version auths :
  BeginCPAAdmissionVersionCall s version = true ->
  lists roster listed auths <-> listAuthsWithAdmissionPermit s roster listed version = Done auths.
Proof.
  intros Hb. unfold listAuthsWithAdmissionPermit. rewrite Hb. cbn [negb]. split.
  - intros [r ? Hr|]; [by rewrite Hr|done].
  - destruct roster as [r|]; [case_bool_decide as Hr; [|done]|destruct listed; [done|done|]]; intros [= <-]; by constructor.
Qed.

Lemma in_rosterAuths r auth :
  auth ∈ rosterAuths r <-> exists e p, e ∈ hr_Entries r /\ re_Priority e = Some p
    /\ auth = mkAuthEntry (re_ID e) (re_AuthIndex e) "" "" (re_Provider e) p false false.
Proof.
  unfold rosterAuths. rewrite list_elem_of_omap. split.
  - intros (e & He & (p & Hp & ->)%fmap_Some). eauto.
  - intros (e & p & He & Hp & ->). exists e. split; [done|]. apply fmap_Some. eauto.
Qed.

(** C33: A pass of the timer that is current (a codex request was seen within the
    activity window, and the admission is observed and does not change until the
    listing has returned) refreshes exactly the listed auths that are eligible,
    admitted and due, in the order of the listing; when no account is known yet it
    refreshes every eligible and admitted one.  The listing is, in production, the
    roster's entries that have a priority (in a refresher without a runtime store,
    the host's answer).  When the roster is not authoritative or the host does not
    answer, and when the pass is not current, it refreshes none and leaves the state
    as it is. *)
Theorem due_pass_exact (s later : PluginState) (roster : option HostRosterSnapshot) (listed : call_answer (list HostAuthFileEntry))
    (version : Z) (now scanNow : Time) :
  let pass := refreshDueOnce s later roster listed version now scanNow in
  (pass_current s later version now -> forall auths, lists roster listed auths ->
   pr_error pass = None /\ sublist (pr_refresh pass) auths
   /\ (forall auth, auth ∈ pr_refresh pass <->
        auth ∈ auths /\ refreshable s auth /\ (account_due s (he_ID auth) now \/ forall id, ~ account_known s id))
   /\ (forall r, roster = Some r -> forall auth, auth ∈ auths <->
        exists e p, e ∈ hr_Entries r /\ re_Priority e = Some p
          /\ auth = mkAuthEntry (re_ID e) (re_AuthIndex e) "" "" (re_Provider e) p false false))
  /\ ((forall auths, ~ lists roster listed auths) -> pr_refresh pass = [] /\ pr_state pass = later)
  /\ (~ pass_current s later version now -> pass = noPass later).
Proof.
  cbv zeta. unfold refreshDueOnce. split_and!.
  - intros (Ho & Hv & Hl & Hact) auths Hlist. rewrite Ho, Hv, Z.eqb_refl, Hact. cbn [negb andb orb].
    assert (BeginCPAAdmissionVersionCall s version = true) as Hb.
    { unfold BeginCPAAdmissionVersionCall. rewrite Hv, Ho, Z.eqb_refl. done. }
    assert (CPAAdmissionVersionCurrent later version = true) as Hcur by (unfold CPAAdmissionVersionCurrent; lia).
    pose proof (proj1 (lists_done _ _ _ _ _ Hb) Hlist) as ->.
    match goal with |- ?A /\ ?B /\ ?C /\ ?D => assert D as HD; [intros r ->; inversion_clear Hlist; apply in_rosterAuths|cut (A /\ B /\ C); [tauto|clear HD]] end.
    destruct (bool_decide (dueIDs s now = ∅)) eqn:Hd; cbn [negb andb orb].
    + apply bool_decide_eq_true in Hd. destruct (bool_decide (knownAccountAuthIDs _ = ∅)) eqn:Hk; cbn [negb andb orb].
      * apply bool_decide_eq_true in Hk. rewrite (scan_selects _ _ _ _ _ _ Hcur), (scan_error _ _ _ _ _ _ Hcur).
        split; [done|]. split; [apply sublist_filter|]. intros auth. rewrite list_elem_of_filter. unfold refreshable.
        assert (forall id, ~ account_known s id); [|naive_solver]. intros id Hid%(elem_of_known s now). set_solver.
      * apply bool_decide_eq_false in Hk. split; [done|]. split; [apply sublist_nil_l|]. intros auth. split; [by intros ?%not_elem_of_nil|].
        intros (_ & _ & [Hdue%elem_of_dueIDs|Hno]); [set_solver|]. exfalso. apply Hk, set_eq. intros id. rewrite elem_of_known. set_solver.
    + apply bool_decide_eq_false in Hd. rewrite (scan_selects _ _ _ _ _ _ Hcur), (scan_error _ _ _ _ _ _ Hcur).
      split; [done|]. split; [apply sublist_filter|]. intros auth. rewrite list_elem_of_filter, bool_decide_eq_true, elem_of_dueIDs. unfold refreshable.
      assert (~ forall id, ~ account_known s id); [|naive_solver]. intros Hno. apply Hd, (nothing_known_nothing_due s now), set_eq.
      intros id. rewrite elem_of_known. set_solver.
  - intros Hno. case_match; [done|]. case_match; [done|]. case_match; [done|].
    unfold scanAndSelect. destruct (listAuthsWithAdmissionPermit _ _ _ _) as [|text|auths] eqn:E; [done|by case_match|].
    exfalso. apply (Hno auths). destruct (BeginCPAAdmissionVersionCall s version) eqn:Hb; [by apply (lists_done s _ _ version)|].
    unfold listAuthsWithAdmissionPermit in E. by rewrite Hb in E.
  - intros Hn. destruct (adm_Observed _) eqn:Ho; [|done]. destruct (Z.eqb_spec (st_cpaAdmissionVersion s) version) as [Hv|]; [|done].
    destruct (RefreshActive s now now) eqn:Hact; [|done]. simpl. destruct (_ && _); [done|].
    unfold scanAndSelect, listAuthsWithAdmissionPermit. destruct (negb (BeginCPAAdmissionVersionCall _ _)); [done|].
    unfold CPAAdmissionVersionCurrent. destruct (Z.eqb_spec (st_cpaAdmissionVersion later) version); [by destruct Hn|].
    repeat case_match; done.
Qed.

(** ** The workers *)

Inductive pool_run (size : nat) (eligible : list HostAuthFileEntry) : nat -> Pool -> Prop :=
  | run_start : pool_run size eligible 0 (mkPool eligible [] [])
  | run_step n p q : pool_run size eligible n p -> pool_step size p q -> pool_run size eligible (S n) q.

(** Each entry costs two steps, so what is left of a run is known. *)
Definition pool_left (p : Pool) : nat := 2 * length (po_waiting p) + length (po_running p).

Lemma pool_invariant size eligible n p :
  pool_run size eligible n p ->
  po_waiting p ++ po_running p ++ po_done p ≡ₚ eligible /\ (length (po_running p) <= size)%nat /\ (n + pool_left p = 2 * length eligible)%nat.
Proof.
  unfold pool_left. induction 1 as [|n p q Hr (Hp & Hs & Hn) Hq]; [simpl; rewrite app_nil_r; split; [done|lia]|].
  destruct Hq as [auth waiting running done Hlt|auth before after waiting done]; simpl in *.
  - split; [|lia]. rewrite <- Hp. by rewrite <- Permutation_middle.
  - rewrite length_app in *. simpl in *. split; [|lia]. rewrite <- Hp. apply Permutation_app_head.
    rewrite <- app_assoc. simpl. rewrite <- !Permutation_middle. by rewrite app_assoc.
Qed.

(** The workers of a pass refresh every eligible account exactly once: never
    more than [MaxRefreshConcurrency] (at least one) refreshes run at a time, no
    run takes more than two steps per account, a run that is not over can go on,
    and when it is over the accounts refreshed are a permutation of the eligible
    ones. *)
Theorem pass_refreshes_each_once (cfg : Config) (eligible : list HostAuthFileEntry) (n : nat) (p : Pool) :
  let size := poolSize cfg (length eligible) in
  pool_run size eligible n p ->
  Z.of_nat (length (po_running p)) <= Z.max 1 (MaxRefreshConcurrency cfg)
  /\ (n <= 2 * length eligible)%nat
  /\ ((exists q, pool_step size p q) \/ (po_waiting p = [] /\ po_running p = [] /\ po_done p ≡ₚ eligible)).
Proof.
  intros size Hr. pose proof (pool_invariant _ _ _ _ Hr) as (Hp & Hs & Hn).
  assert (Z.of_nat size <= Z.max 1 (MaxRefreshConcurrency cfg) /\ (eligible <> [] -> (0 < size)%nat)) as [Hmax Hpos].
  { subst size. unfold poolSize. destruct (Z.leb_spec (MaxRefreshConcurrency cfg) 0); cbv zeta;
      match goal with |- context [?a <? ?b] => destruct (Z.ltb_spec a b) end; split; try lia; intros Hne; destruct eligible; simpl in *; try done; lia. }
  split; [lia|]. split; [lia|]. destruct p as [waiting running done]. simpl in *.
  destruct running as [|auth running]; [|left; eexists; apply (pool_finish size auth [])].
  destruct waiting as [|auth waiting]; [right; by split|]. left. eexists. apply pool_take. simpl. apply Hpos. intros ->.
  by apply Permutation_nil_r in Hp.
Qed.

(** ** Picks *)

Lemma scanCache_any accounts staleAfter now initial :
  let '(i, st) := scanCache accounts staleAfter now initial in
  i || st = initial || existsb (fun a => IsZero (a_LastSuccessAt a) || (staleAfter <? Sub now (a_LastSuccessAt a))) accounts.
Proof.
  revert initial. induction accounts as [|a accounts IH]; intros initial; simpl; [done|].
  destruct (IsZero (a_LastSuccessAt a)) eqn:E1; simpl.
  - specialize (IH (initial || true)). destruct (scanCache _ _ _ _). by rewrite IH, !orb_true_r.
  - destruct (staleAfter <? _) eqn:E2; simpl; [by rewrite !orb_true_r|].
    specialize (IH (initial || false)). destruct (scanCache _ _ _ _). by rewrite IH, orb_false_r.
Qed.

Lemma unknown_iff s now ids :
  hasUnknownCandidate ids (knownAccountAuthIDs (Snapshot s now)) = true <-> exists id, id ∈ ids /\ ~ account_known s id.
Proof.
  unfold hasUnknownCandidate. rewrite negb_true_iff, bool_decide_eq_false. setoid_rewrite <- (elem_of_known s now).
  generalize (knownAccountAuthIDs (Snapshot s now)). intros known. split; [|set_solver].
  intros Hn. destruct (decide (ids ∖ known = ∅)) as [E|E]; [exfalso; apply Hn; set_solver|].
  apply set_choose_L in E as [id Hid]. exists id. set_solver.
Qed.

(** A pick asks for a refresh exactly when an admitted account is unknown, or a
    known account was never refreshed, or is stale; the order in which the
    accounts are scanned does not matter.  Every pick makes the controller active. *)
Theorem pick_requests_refresh_iff (c : RefreshController) (s : PluginState) (now : Time) :
  let '(c', intents) := OnPick c now (pickCache s now) in
  rfc_mode c' = RefreshModeActive
  /\ (intents <> [] <->
      (exists id, id ∈ adm_AuthIDs (st_cpaAdmission s) /\ ~ account_known s id)
      \/ exists a, a ∈ ss_Accounts (Snapshot s now)
           /\ (IsZero (a_LastSuccessAt a) = true \/ StaleAfter (st_cfg s) < Sub now (a_LastSuccessAt a))).
Proof.
  unfold OnPick, pickCache. pose proof (scanCache_any (ss_Accounts (Snapshot s now)) (StaleAfter (st_cfg s)) now
    (hasUnknownCandidate (adm_AuthIDs (st_cpaAdmission s)) (knownAccountAuthIDs (Snapshot s now)))) as H.
  cbn [ss_CPAAdmission ss_Config Snapshot] in *. destruct (scanCache _ _ _ _) as [i st] eqn:E.
  assert ((if bool_decide (UniqueSchedulerSource i st false = IntentSourceNone) then [] else [UniqueSchedulerSource i st false]) <> []
          <-> i || st = true) as Hi by (destruct i, st; vm_compute; split; done).
  assert (i || st = true <-> (exists id, id ∈ adm_AuthIDs (st_cpaAdmission s) /\ ~ account_known s id)
      \/ exists a, a ∈ ss_Accounts (Snapshot s now)
           /\ (IsZero (a_LastSuccessAt a) = true \/ StaleAfter (st_cfg s) < Sub now (a_LastSuccessAt a))) as Hst.
  { rewrite H, orb_true_iff, unknown_iff, existsb_exists. setoid_rewrite orb_true_iff. setoid_rewrite Z.ltb_lt.
    by setoid_rewrite list_elem_of_In. }
  cbn [cs_Initial cs_StaleRecovery]. destruct (bool_decide _); (split; [by destruct (IsZero _)|]; rewrite <- Hst; exact Hi).
Qed.
End pass_properties.

(** ** Examples *)

Definition exampleOther : HostAuthFileEntry := mkAuthEntry "b" "2" "" "" "codex" 0 false false.
Definition exampleActive : PluginState := exampleLive <| st_lastCodexActivityAt := unixTime 1704070800 |>.

Definition exampleListing : HostRosterSnapshot :=
  emptyHostRoster <| hr_Capability := CapabilityA |>
    <| hr_Entries := [mkEntry "a" "1" "codex" (Some 0); mkEntry "b" "2" "codex" (Some 0); mkEntry "c" "3" "codex" None] |>.
Lemma due_pass_exact_witness :
  let pass := refreshDueOnce exampleActive exampleActive (Some exampleListing) CallRefused 1 (unixTime 1704070800) (unixTime 1704070800) in
  he_ID <$> pr_refresh pass = ["a"] /\ sublist (pr_refresh pass) (rosterAuths exampleListing)
  /\ pr_refresh (refreshDueOnce exampleActive exampleActive (Some (exampleListing <| hr_Capability := CapabilityB |>)) CallRefused 1
                   (unixTime 1704070800) (unixTime 1704070800)) = [].
Proof.
  split; [vm_compute; reflexivity|].
  destruct (due_pass_exact exampleActive exampleActive (Some exampleListing) CallRefused 1 (unixTime 1704070800) (unixTime 1704070800)) as [H _].
  destruct (H ltac:(repeat split; vm_compute; reflexivity) (rosterAuths exampleListing) (lists_roster exampleListing CallRefused eq_refl)) as (_ & Hs & _).
  split; [exact Hs|]. apply due_pass_exact. intros auths Hl. inversion Hl. discriminate.
Defined.

Lemma pass_refreshes_each_once_witness :
  let p := mkPool [exampleOther] [exampleAuth] [] in
  Z.of_nat (length (po_running p)) <= Z.max 1 (MaxRefreshConcurrency DefaultConfig)
  /\ ((exists q, pool_step (poolSize DefaultConfig 2) p q) \/ po_done p ≡ₚ [exampleAuth; exampleOther]).
Proof.
  destruct (pass_refreshes_each_once DefaultConfig [exampleAuth; exampleOther] 1 (mkPool [exampleOther] [exampleAuth] [])) as (H1 & _ & H2).
  - eapply run_step; [apply run_start|]. apply pool_take. vm_compute. lia.
  - split; [exact H1|]. destruct H2 as [H2|(_ & _ & H2)]; [left; exact H2|right; exact H2].
Defined.

(** The reconciliation after a manual refresh reads whatever quota is stored: when
    the refresh failed, the quota of before the usage limit clears the marker and
    the host's cooldown is reset, although nothing was read. *)
Definition exampleExhausted : PluginState :=
  let account := (exampleStored (tx_state exampleRefreshed.1)) <| a_TemporaryExhausted := true |> <| a_TemporaryResetAt := unixTime 1704090000 |> in
  exampleLive <| st_accounts := {["auth:a" := account]} |>.
Definition exampleTimeout : answers := exampleRotation <| an_getAuth := CallFailed "timeout" |>.
Theorem failed_manual_refresh_clears_marker :
  let refresh (_ : HostAuthFileEntry) s := applyLegacyEffectJournal s (exampleRun s exampleTimeout).2 in
  let '(s, err, effects) := refreshOneAuthIDVersioned exampleExhausted exampleExhausted (CallAnswered [exampleAuth]) "a" 1 refresh (Ok 1) id
                              (unixTime 1704070900) (unixTime 1704070900) in
  a_TemporaryExhausted (exampleStored exampleExhausted) = true
  /\ rf_LastFailureKind (a_Refresh (exampleStored (refresh exampleAuth exampleExhausted))) = RefreshFailureTransient
  /\ a_TemporaryExhausted (exampleStored s) = false /\ err = None /\ effects = [ManualPublish; ManualCooldown "1"].
Proof. vm_compute. auto. Qed.
