(* ===== verification/ProbeRuntime.v ===== *)
(** * The windows of the probe runtime (probe_runtime.go)

    The runtime keeps the windows twice: in the controller, which decides, and in
    the durable state, which survives.  This file models the operations that move
    them together: the bootstrap from the account table, the reconciliation with
    an observed quota, the completion and the failure of an attempt, the hold
    while the roster is not confirmed and the recovery from it, the removal of
    windows whose account is gone, and the return of attempts that were prepared
    but not sent.  All of them run under the lock of the hold. *)

From stdpp Require Import pretty.
From S2P Require Import Prelude Float64 Config Models Capability Identity Probe ProbeWindow State Roster StateStore ProbeWAL CredentialWAL Bindings Managed RosterGate.

Record ProbeRuntime := mkProbeRuntime {
  rt_controller : ProbeController;
  rt_store : StateStore;
  rt_persistPending : gset AuthInstanceID;
  rt_holdPending : bool;
}.
#[export] Instance ProbeRuntime_eta : Eta ProbeRuntime := fun r => mkProbeRuntime
  (rt_controller r) (rt_store r) (rt_persistPending r) (rt_holdPending r).

Definition windowOf (c : ProbeController) (i : AuthInstanceID) (k : ProbeWindowKind) : option ProbeWindow := pr_windows c !! i ≫= (.!! k).
Definition probeKinds : list ProbeWindowKind := [ProbeWindowFiveHour; ProbeWindowLong].
Definition observedWindow (quota : ParsedQuota) (k : ProbeWindowKind) : option QuotaWindow :=
  if String.eqb k ProbeWindowFiveHour then pq_FiveHour quota else pq_LongWindow quota.

Definition updateStore (r : ProbeRuntime) (fn : PersistentState -> result string PersistentState) (io : store_io)
  : ProbeRuntime * result store_error PersistentState :=
  let '(s, res) := Update (rt_store r) fn (su_load io) (su_backup io) (su_primary io) in (r <| rt_store := s |>, res).

Definition probeObservationInterval (cfg : Config) : Duration :=
  let interval := QuotaRefreshInterval (NormalizeConfig cfg) in
  if interval <? probeUnknownResetRecheck then probeUnknownResetRecheck else interval.

Definition setWindows (ws : gmap AuthInstanceID (gmap ProbeWindowKind ProbeWindow)) (i : AuthInstanceID) (w : gmap ProbeWindowKind ProbeWindow)
  : gmap AuthInstanceID (gmap ProbeWindowKind ProbeWindow) :=
  if bool_decide (w = ∅) then base.delete i ws else <[i := w]> ws.

Definition nonterminalProbeAttempt (attempt : ProbeAttempt) : bool :=
  match at_Phase attempt with
  | ProbeAttemptPrepared | ProbeAttemptSending | ProbeAttemptSent | ProbeAttemptSentUnknown => true
  end.
Definition attemptReferencesWindow (attempt : ProbeAttempt) (kind : ProbeWindowKind) : bool := bool_decide (kind ∈ at_Windows attempt).
(** The request of the attempt may have been sent. *)
Definition maybeSent (attempt : ProbeAttempt) : bool :=
  match at_Phase attempt with ProbeAttemptPrepared => false | _ => true end.

(** ** Persisting *)

Definition persistProbeInstances (r : ProbeRuntime) (instances : gset AuthInstanceID) (io : store_io) : ProbeRuntime * option store_error :=
  if bool_decide (instances = ∅) then (r, None)
  else
    let snapshot := pr_windows (rt_controller r) in
    let '(r, res) := updateStore r (fun st => Ok (st <| ps_ProbeWindows :=
      set_fold (fun i ws => match snapshot !! i with Some w => <[i := w]> ws | None => base.delete i ws end) (ps_ProbeWindows st) instances |>)) io in
    (r, match res with Ok _ => None | Err e => Some e end).

Definition persistProbeWindows (r : ProbeRuntime) (io : store_io) : ProbeRuntime * option store_error :=
  let snapshot := pr_windows (rt_controller r) in
  let '(r, res) := updateStore r (fun st => Ok (st <| ps_ProbeWindows := snapshot ∪ ps_ProbeWindows st |>)) io in
  (r, match res with Ok _ => None | Err e => Some e end).

Definition syncProbeControllerInstance (r : ProbeRuntime) (i : AuthInstanceID) (st : PersistentState) : ProbeRuntime :=
  r <| rt_controller := ReplaceInstance (rt_controller r) i (default ∅ (ps_ProbeWindows st !! i)) |>.
Definition syncProbeControllerInstanceFromStore (r : ProbeRuntime) (i : AuthInstanceID) (io : load_io) : ProbeRuntime :=
  let '(s, res) := PersistentSnapshot (rt_store r) io in
  let r := r <| rt_store := s |> in
  match res with Ok st => syncProbeControllerInstance r i st | Err _ => r end.

(** ** Bootstrap *)

Definition rearmConfirmedProbeWindow (window : ProbeWindow) (observedAt : Time) (observation : option QuotaWindow) (now : Time)
    (observationInterval : Duration) : ProbeWindow * bool :=
  match observation with
  | None => (window, false)
  | Some q =>
      match qw_UsedPercent q, probeWindowDuration q with
      | Some used, Some duration =>
          if negb (bool_decide (pw_State window = ProbeConfirmed)) || IsZero (qw_ResetAt q) || IsZero observedAt || After observedAt now
             || (duration <=? 0) then (window, false)
          else if bool_decide (pb_Kind (pw_Baseline window) = ProbeBaselineReset) && negb (IsZero (pb_ResetAt (pw_Baseline window)))
                  && negb (After (qw_ResetAt q) (Add (pb_ResetAt (pw_Baseline window)) probeSkewTolerance)) then (window, false)
          else
            let base := (ResetProbeBaseline (qw_ResetAt q) used duration) <| pb_WindowKind := qw_Kind q |> in
            let window := window <| pw_Baseline := base |> <| pw_AttemptID := "" |> <| pw_RetryCount := 0 |> in
            if looksLikeStrictLazyObservation observedAt (Some used) (qw_ResetAt q) duration
            then (window <| pw_Baseline := base <| pb_SuspectedLazy := true |> |> <| pw_State := ProbePendingCheck |> <| pw_Deadline := zeroTime |>, true)
            else (window <| pw_State := ProbeWaitingReset |> <| pw_Deadline := deadlineFor base now observationInterval |>, true)
      | _, _ => (window, false)
      end
  end.

Definition holdUnless (rosterA : bool) (w : ProbeWindow) : ProbeWindow :=
  if rosterA then w else w <| pw_State := ProbeWaitingRoster |> <| pw_Deadline := zeroTime |>.

(** An existing window whose length was not known. *)
Definition learnLength (w : ProbeWindow) (q : QuotaWindow) (observedAt : Time) (strict : bool) (now : Time) (interval : Duration) : option ProbeWindow :=
  if bool_decide (pb_Kind (pw_Baseline w) = ProbeBaselineReset) && (pb_WindowLength (pw_Baseline w) =? 0) then
    match probeWindowDuration q with
    | None => None
    | Some duration =>
        let b := (pw_Baseline w) <| pb_WindowLength := duration |> in
        let b := if String.eqb (pb_WindowKind b) "" then b <| pb_WindowKind := qw_Kind q |> else b in
        if strict && looksLikeStrictLazyObservation observedAt (qw_UsedPercent q) (qw_ResetAt q) duration then
          Some (w <| pw_Baseline := b <| pb_ResetAt := qw_ResetAt q |> <| pb_Usage := default f_zero (qw_UsedPercent q) |> <| pb_SuspectedLazy := true |> |>
                  <| pw_State := ProbePendingCheck |> <| pw_Deadline := zeroTime |>)
        else if bool_decide (pw_State w = ProbeWaitingReset) then
          let deadline := deadlineFor b now interval in
          Some (if After deadline now then w <| pw_Baseline := b |> <| pw_Deadline := deadline |>
                else w <| pw_Baseline := b |> <| pw_State := ProbePendingCheck |> <| pw_Deadline := zeroTime |>)
        else Some (w <| pw_Baseline := b |>)
    end
  else None.

(** The first observation of a window. *)
Definition newWindow (q : QuotaWindow) (observedAt : Time) (strict : bool) (now : Time) (interval : Duration) : ProbeWindow :=
  let base := (ResetProbeBaseline (qw_ResetAt q) (default f_zero (qw_UsedPercent q)) 0) <| pb_WindowKind := qw_Kind q |> in
  let base := match probeWindowDuration q with Some duration => base <| pb_WindowLength := duration |> | None => base end in
  let deadline := deadlineFor base now interval in
  if strict && (firstObservationLazyWindow observedAt q).2
  then mkWindow ProbePendingCheck (base <| pb_SuspectedLazy := true |>) zeroTime 0 "" 0
  else if negb (After deadline now) then mkWindow ProbePendingCheck base zeroTime 0 "" 0
  else mkWindow ProbeWaitingReset base deadline 0 "" 0.

(** One window of one account; [None] when nothing changes. *)
Definition bootstrapWindow (rosterA : bool) (existing : option ProbeWindow) (q : QuotaWindow) (observedAt : Time) (strict : bool) (now : Time)
    (interval : Duration) : option ProbeWindow :=
  match existing with
  | Some w =>
      let '(rearmed, changed) := rearmConfirmedProbeWindow w (if strict then observedAt else zeroTime) (Some q) now interval in
      if changed then Some (holdUnless rosterA rearmed) else holdUnless rosterA <$> learnLength w q observedAt strict now interval
  | None => Some (holdUnless rosterA (newWindow q observedAt strict now interval))
  end.

(** The loops carry the controller and the set of touched instances. *)
Definition touch (acc : ProbeController * gset AuthInstanceID) (i : AuthInstanceID) (k : ProbeWindowKind) (w : option ProbeWindow) :=
  match w with Some w => (SetWindow acc.1 i k w, {[i]} ∪ acc.2) | None => acc end.

Definition tightened (w : ProbeWindow) (now : Time) (interval : Duration) : option ProbeWindow :=
  if negb (bool_decide (pw_State w = ProbeWaitingReset)) || negb (bool_decide (pb_Kind (pw_Baseline w) = ProbeBaselineReset))
     || (pb_WindowLength (pw_Baseline w) <=? 0) then None
  else let deadline := deadlineFor (pw_Baseline w) now interval in
       if IsZero (pw_Deadline w) || Before deadline (pw_Deadline w) then Some (w <| pw_Deadline := deadline |>) else None.

Section runtime.
Context `{MapRange}.

Definition allWindows (c : ProbeController) : list (AuthInstanceID * ProbeWindowKind * ProbeWindow) :=
  map_range (pr_windows c) ≫= fun iw => (fun kw => (iw.1, kw.1, kw.2)) <$> map_range iw.2.

Definition bootstrapAccount (rosterA : bool) (bindings : gmap string RuntimeBinding) (now : Time) (interval : Duration)
    (acc : ProbeController * gset AuthInstanceID) (a : AccountState) : ProbeController * gset AuthInstanceID :=
  let strict := negb (IsZero (a_LastSuccessAt a)) && negb (After (a_LastSuccessAt a) now) in
  let observedAt := if strict then a_LastSuccessAt a else now in
  match bindings !! a_AuthID a with
  | None => acc
  | Some b =>
      foldl (fun acc k => match observedWindow (a_Quota a) k with
                          | None => acc
                          | Some q => touch acc (rb_Instance b) k (bootstrapWindow rosterA (windowOf acc.1 (rb_Instance b) k) q observedAt strict now interval)
                          end) acc probeKinds
  end.

(** [bootstrapProbeWindows] with its lock held; the loop is woken when something
    was persisted. *)
Definition bootstrapProbeWindows (r : ProbeRuntime) (cfg : Config) (accounts : list AccountState) (bindings : gmap string RuntimeBinding)
    (rosterA : bool) (now : Time) (io : store_io) : ProbeRuntime * option store_error * bool :=
  if negb (EnableResetProbe cfg) then (r, None, false)
  else
    let interval := probeObservationInterval cfg in
    let acc := foldl (fun acc ikw => touch acc ikw.1.1 ikw.1.2 (tightened ikw.2 now interval))
                     (rt_controller r, rt_persistPending r) (allWindows (rt_controller r)) in
    let '(c, touched) := foldl (bootstrapAccount rosterA bindings now interval) acc accounts in
    let '(r, err) := persistProbeInstances (r <| rt_controller := c |>) touched io in
    match err with
    | Some e => (r <| rt_persistPending := touched ∪ rt_persistPending r |>, Some e, false)
    | None => (r <| rt_persistPending := rt_persistPending r ∖ touched |>, None, negb (bool_decide (touched = ∅)))
    end.

(** ** An observed quota *)

(** One window of [reconcileObservedProbeWindows] on the durable windows of the
    instance. *)
Definition reconcileWindow (quota : ParsedQuota) (attempt : option ProbeAttempt) (now : Time) (interval : Duration)
    (ws : gmap ProbeWindowKind ProbeWindow) (k : ProbeWindowKind) : gmap ProbeWindowKind ProbeWindow :=
  match observedWindow quota k with
  | Some q =>
      match ws !! k with
      | Some w => let '(rearmed, changed) := rearmConfirmedProbeWindow w now (Some q) now interval in if changed then <[k := rearmed]> ws else ws
      | None => ws
      end
  | None =>
      if match ws !! k with Some w => bool_decide (pw_State w = ProbeConfirmed) | None => false end
         || match attempt with Some a => nonterminalProbeAttempt a && attemptReferencesWindow a k | None => false end
      then ws else base.delete k ws
  end.

(** Emptied instances are removed where a window was deleted; an instance without
    windows has no entry. *)
Definition reconcileObserved (i : AuthInstanceID) (quota : ParsedQuota) (now : Time) (interval : Duration) (st : PersistentState)
  : result string PersistentState :=
  let ws := foldl (reconcileWindow quota (ps_ProbeAttempts st !! i) now interval) (default ∅ (ps_ProbeWindows st !! i)) probeKinds in
  Ok (st <| ps_ProbeWindows := setWindows (ps_ProbeWindows st) i ws |>).

Definition adoptKinds (c : ProbeController) (i : AuthInstanceID) (ws : gmap ProbeWindowKind ProbeWindow) : ProbeController :=
  foldl (fun c k => match ws !! k with Some w => SetWindow c i k w | None => RemoveWindow c i k end) c probeKinds.

Definition reconcileObservedProbeWindows (r : ProbeRuntime) (i : AuthInstanceID) (quota : ParsedQuota) (cfg : Config) (now : Time) (io : store_io)
  : ProbeRuntime * option store_error :=
  if i =? 0 then (r, None)
  else
    let '(r, res) := updateStore r (reconcileObserved i quota now (probeObservationInterval cfg)) io in
    match res with
    | Err e => (r, Some e)
    | Ok st => (r <| rt_controller := adoptKinds (rt_controller r) i (default ∅ (ps_ProbeWindows st !! i)) |>, None)
    end.

(** ** The end of an attempt *)

Definition probeSnapshots (q : ParsedQuota) : gmap ProbeWindowKind QuotaSnapshot :=
  foldl (fun out k => match observedWindow q k with
                      | None => out
                      | Some w => <[k := mkQuotaSnapshot true (Some (qw_ResetAt w)) (qw_UsedPercent w) (qw_Kind w)
                                           (default 0 (probeWindowDuration w)) (bool_decide (is_Some (probeWindowDuration w)))]> out
                      end) ∅ probeKinds.

(** The controller's windows less the two that were not observed. *)
Definition observedOnly (quota : ParsedQuota) (ws : gmap ProbeWindowKind ProbeWindow) : gmap ProbeWindowKind ProbeWindow :=
  foldl (fun ws k => match observedWindow quota k with Some _ => ws | None => base.delete k ws end) ws probeKinds.

Definition completeAttempt (i : AuthInstanceID) (attemptID : string) (windows : gmap ProbeWindowKind ProbeWindow)
    (phases : list ProbeAttemptPhase) (st : PersistentState) : result string PersistentState :=
  let! _ := exactProbeAttempt st i attemptID phases in
  Ok (st <| ps_ProbeWindows := setWindows (ps_ProbeWindows st) i windows |> <| ps_ProbeAttempts := base.delete i (ps_ProbeAttempts st) |>).

Definition persistTerminalProbeCompletionLocked (r : ProbeRuntime) (i : AuthInstanceID) (attemptID : string) (quota : ParsedQuota)
    (phases : list ProbeAttemptPhase) (io : store_io) (syncIO : load_io) : ProbeRuntime * option store_error :=
  let windows := observedOnly quota (default ∅ (pr_windows (rt_controller r) !! i)) in
  let '(r, res) := updateStore r (completeAttempt i attemptID windows phases) io in
  match res with
  | Err e => (syncProbeControllerInstanceFromStore r i syncIO, Some e)
  | Ok _ =>
      (r <| rt_controller := foldl (fun c k => match observedWindow quota k with Some _ => c | None => RemoveWindow c i k end) (rt_controller r) probeKinds |>, None)
  end.

Definition persistTerminalProbeCompletion (r : ProbeRuntime) (i : AuthInstanceID) (attemptID : string) (quota : ParsedQuota)
    (phases : list ProbeAttemptPhase) (io : store_io) (syncIO : load_io) : ProbeRuntime * option store_error :=
  if i =? 0 then (r, None) else persistTerminalProbeCompletionLocked r i attemptID quota phases io syncIO.

Definition persistVerifiedProbeCompletion (r : ProbeRuntime) (i : AuthInstanceID) (attemptID : string) (quota : ParsedQuota)
    (phases : list ProbeAttemptPhase) (now : Time) (io : store_io) (syncIO : load_io) : ProbeRuntime * option store_error :=
  if i =? 0 then (r, None)
  else
    let c := (Advance (rt_controller r) i (mkEvent ProbeEventVerifyResult "" now (probeSnapshots quota) 0)).1 in
    persistTerminalProbeCompletionLocked (r <| rt_controller := c |>) i attemptID quota phases io syncIO.

(** What a failure makes of one window. *)
Definition failWindow (attemptID : string) (sent authBlocked : bool) (login : LoginEpoch) (now : Time) (w : ProbeWindow) : ProbeWindow :=
  if authBlocked then w <| pw_State := ProbeAuthBlocked |> <| pw_AuthBlockedAtLogin := login |> <| pw_Deadline := zeroTime |>
  else
    let w := if sent then w <| pw_State := ProbeSentUnknown |> <| pw_AttemptID := attemptID |>
             else w <| pw_State := ProbeRetryWait |> <| pw_AttemptID := "" |> in
    let count := i64 (pw_RetryCount w + 1) in
    w <| pw_RetryCount := count |> <| pw_Deadline := Add now (probeBackoff count) |>.

Definition failAttempt (i : AuthInstanceID) (attemptID : string) (windows : list ProbeWindowKind) (sent authBlocked : bool) (login : LoginEpoch)
    (suppressUntil now : Time) (controllerWindows : gmap ProbeWindowKind ProbeWindow) (st : PersistentState) : result string PersistentState :=
  let! attempt := exactProbeAttempt st i attemptID
                    (if sent then [ProbeAttemptSending; ProbeAttemptSent; ProbeAttemptSentUnknown] else [ProbeAttemptPrepared; ProbeAttemptSending]) in
  let st :=
    if sent then
      let attempt := attempt <| at_Phase := ProbeAttemptSentUnknown |> in
      putAttempt st i (if After suppressUntil (at_SuppressUntil attempt) then attempt <| at_SuppressUntil := suppressUntil |> else attempt)
    else if bool_decide (at_Phase attempt = ProbeAttemptPrepared) then st <| ps_ProbeAttempts := base.delete i (ps_ProbeAttempts st) |>
    else st in
  let next := foldl (fun next k =>
      match (match controllerWindows !! k with Some w => Some w | None => next !! k end) with
      | None => next
      | Some w => if bool_decide (pw_State w = ProbeWaitingRoster) then next
                  else <[k := failWindow attemptID sent authBlocked login now w]> next
      end) (default ∅ (ps_ProbeWindows st !! i)) windows in
  Ok (st <| ps_ProbeWindows := setWindows (ps_ProbeWindows st) i next |>).

Definition persistProbeFailure (r : ProbeRuntime) (i : AuthInstanceID) (attemptID : string) (windows : list ProbeWindowKind) (sent authBlocked : bool)
    (login : LoginEpoch) (suppressUntil now : Time) (io : store_io) (syncIO : load_io) : ProbeRuntime * option store_error :=
  if i =? 0 then (r, None)
  else
    let controllerWindows := default ∅ (pr_windows (rt_controller r) !! i) in
    let '(r, res) := updateStore r (failAttempt i attemptID windows sent authBlocked login suppressUntil now controllerWindows) io in
    match res with
    | Err e => (syncProbeControllerInstanceFromStore r i syncIO, Some e)
    | Ok st => (syncProbeControllerInstance r i st, None)
    end.

(** ** Accounts that are gone *)

Definition orphans (st : PersistentState) (active : gset AuthInstanceID) : gset AuthInstanceID :=
  (dom (ps_ProbeWindows st) ∪ dom (ps_ProbeAttempts st)) ∖ active.

(** [order] is the order in which Go visits the set of instances. *)
Definition reconcileProbeOrphans (r : ProbeRuntime) (order : list AuthInstanceID) (now : Time) (ios : AuthInstanceID -> store_io)
  : ProbeRuntime * option store_error :=
  foldl (fun acc i =>
      let '(r, firstErr) := acc in
      let c := (Advance (rt_controller r) i (mkEvent ProbeEventInstanceRemoved "" now ∅ 0)).1 in
      let '(r, res) := updateStore (r <| rt_controller := c |>) (fun st => Ok (st <| ps_ProbeWindows := base.delete i (ps_ProbeWindows st) |>
                                                                                 <| ps_ProbeAttempts := base.delete i (ps_ProbeAttempts st) |>)) (ios i) in
      (r, match firstErr, res with None, Err e => Some e | _, _ => firstErr end)) (r, None) order.

(** ** Without a confirmed roster *)

Definition holdWindow (attempt : option ProbeAttempt) (k : ProbeWindowKind) (w : ProbeWindow) : ProbeWindow :=
  let w := w <| pw_Deadline := zeroTime |> in
  match attempt with
  | Some a => if maybeSent a && attemptReferencesWindow a k then w <| pw_State := ProbeSentUnknown |> <| pw_AttemptID := at_AttemptID a |>
              else if bool_decide (pw_State w = ProbeConfirmed) then w else w <| pw_State := ProbeWaitingRoster |> <| pw_AttemptID := "" |>
  | None => if bool_decide (pw_State w = ProbeConfirmed) then w else w <| pw_State := ProbeWaitingRoster |> <| pw_AttemptID := "" |>
  end.

Definition holdInstance (st : PersistentState) (iw : AuthInstanceID * gmap ProbeWindowKind ProbeWindow) : PersistentState :=
  let '(i, ws) := iw in
  let attempt := ps_ProbeAttempts st !! i in
  let st := match attempt with
            | Some a => if maybeSent a then st else st <| ps_ProbeAttempts := base.delete i (ps_ProbeAttempts st) |>
            | None => st
            end in
  st <| ps_ProbeWindows := setWindows (ps_ProbeWindows st) i (map_imap (fun k w => Some (holdWindow attempt k w)) ws) |>.

Definition holdProbeForRoster (r : ProbeRuntime) (io : store_io) : ProbeRuntime * option store_error :=
  let snapshot := map_range (pr_windows (rt_controller r)) in
  let '(r, res) := updateStore r (fun st => Ok (foldl holdInstance st snapshot)) io in
  match res with
  | Err e => (r, Some e)
  | Ok st => (foldl (fun r iw => syncProbeControllerInstance r iw.1 st) r snapshot, None)
  end.

Definition persistRosterHold (r : ProbeRuntime) (io : store_io) : ProbeRuntime * option store_error :=
  let '(r, err) := holdProbeForRoster r io in (r <| rt_holdPending := bool_decide (is_Some err) |>, err).
Definition retryProbeRosterHold (r : ProbeRuntime) (io : store_io) : ProbeRuntime * option store_error :=
  if negb (rt_holdPending r) then (r, None) else persistRosterHold r io.

(** The windows of one binding when the roster is confirmed again. *)
Definition recoverKind (b : RuntimeBinding) (now : Time) (c : ProbeController) (k : ProbeWindowKind) : ProbeController :=
  let pending w := w <| pw_State := ProbePendingCheck |> <| pw_Deadline := zeroTime |> in
  let c := match windowOf c (rb_Instance b) k with
           | Some w => if bool_decide (pw_State w = ProbeAuthBlocked) && (pw_AuthBlockedAtLogin w <? rb_Login b)
                       then SetWindow c (rb_Instance b) k (pending w) else c
           | None => c
           end in
  match windowOf c (rb_Instance b) k with
  | Some w => if bool_decide (pw_State w = ProbeWaitingReset) && negb (After (pw_Deadline w) now)
              then SetWindow c (rb_Instance b) k (pending w) else c
  | None => c
  end.
Definition recoverBinding (now : Time) (interval : Duration) (c : ProbeController) (b : RuntimeBinding) : ProbeController :=
  foldl (recoverKind b now) (Advance c (rb_Instance b) (mkEvent ProbeEventRosterConfirmed "" now ∅ interval)).1 probeKinds.

Definition recoverProbeFromRoster (r : ProbeRuntime) (bindings : gmap string RuntimeBinding) (cfg : Config) (now : Time) (io : store_io)
  : ProbeRuntime * option store_error :=
  let bs := (map_range bindings).*2 in
  let c := foldl (recoverBinding now (probeObservationInterval cfg)) (rt_controller r) bs in
  persistProbeInstances (r <| rt_controller := c |>) (list_to_set (rb_Instance <$> bs)) io.

Definition activeProbeBindings (roster : HostRosterSnapshot) (bindings : gmap string RuntimeBinding) : gmap string RuntimeBinding * gset AuthInstanceID :=
  let byID := filter (fun ib => ib.1 ∈ highestTierSet roster /\ rb_Instance ib.2 <> 0) bindings in
  (byID, list_to_set (rb_Instance <$> (map_to_list byID).*2)).

(** ** Attempts that were prepared and not sent *)

Definition preparedAttempts (st : PersistentState) : list (AuthInstanceID * ProbeAttempt) :=
  filter (fun ia => at_Phase ia.2 = ProbeAttemptPrepared) (map_range (ps_ProbeAttempts st)).

Definition returnWindow (now : Time) (i : AuthInstanceID) (c : ProbeController) (k : ProbeWindowKind) : ProbeController :=
  match windowOf c i k with
  | None => c
  | Some w => SetWindow c i k (w <| pw_State := ProbeRetryWait |> <| pw_AttemptID := "" |> <| pw_RetryCount := i64 (pw_RetryCount w + 1) |> <| pw_Deadline := now |>)
  end.
Definition dropPrepared (windows : gmap AuthInstanceID (gmap ProbeWindowKind ProbeWindow)) (st : PersistentState) (ia : AuthInstanceID * ProbeAttempt)
  : PersistentState :=
  let '(i, attempt) := ia in
  let st := st <| ps_ProbeWindows := match windows !! i with Some ws => <[i := ws]> (ps_ProbeWindows st) | None => base.delete i (ps_ProbeWindows st) end |> in
  match ps_ProbeAttempts st !! i with
  | Some current => if String.eqb (at_AttemptID current) (at_AttemptID attempt) && bool_decide (at_Phase current = ProbeAttemptPrepared)
                    then st <| ps_ProbeAttempts := base.delete i (ps_ProbeAttempts st) |> else st
  | None => st
  end.

Definition recoverPreparedProbeAttempts (r : ProbeRuntime) (now : Time) (loadIO : load_io) (io : store_io) : ProbeRuntime * option store_error :=
  let '(s, res) := PersistentSnapshot (rt_store r) loadIO in
  let r := r <| rt_store := s |> in
  match res with
  | Err e => (r, Some e)
  | Ok st =>
      let prepared := preparedAttempts st in
      let c := foldl (fun c ia => foldl (returnWindow now ia.1) c (at_Windows ia.2)) (rt_controller r) prepared in
      let r := r <| rt_controller := c |> in
      if bool_decide (prepared = []) then (r, None)
      else
        let '(r, res) := updateStore r (fun st => Ok (foldl (dropPrepared (pr_windows c)) st prepared)) io in
        (r, match res with Ok _ => None | Err e => Some e end)
  end.
End runtime.

(** ** The runtime on the write-ahead log

    None of these operations makes an attempt ready to be sent: each is one of the
    other updates of a run of the log. *)

Lemma settles_refl st : settles st st.
Proof. split; [done|]. by left. Qed.
Lemma settles_trans st1 st2 st3 : settles st1 st2 -> settles st2 st3 -> settles st1 st3.
Proof. intros [E1 H1] [E2 H2]. split; [congruence|]. intros i a Ha. destruct (H2 i a Ha) as [Hb|]; [by apply H1|by right]. Qed.
Lemma settles_same st st' :
  ps_ProbeAttemptSeq st' = ps_ProbeAttemptSeq st -> ps_ProbeAttempts st' = ps_ProbeAttempts st -> settles st st'.
Proof. intros E1 E2. split; [done|]. rewrite E2. by left. Qed.
Lemma settles_delete st st' i :
  ps_ProbeAttemptSeq st' = ps_ProbeAttemptSeq st -> ps_ProbeAttempts st' = base.delete i (ps_ProbeAttempts st) -> settles st st'.
Proof. intros E1 E2. split; [done|]. rewrite E2. intros j a [_ Ha]%lookup_delete_Some. by left. Qed.
Lemma settles_foldl {A} (f : PersistentState -> A -> PersistentState) l : forall st,
  (forall st x, settles st (f st x)) -> settles st (foldl f st l).
Proof. induction l as [|x l IH]; intros st Hf; simpl; [apply settles_refl|]. eapply settles_trans; [apply Hf|by apply IH]. Qed.

Lemma complete_settles i id ws phases st st' : completeAttempt i id ws phases st = Ok st' -> settles st st'.
Proof. unfold completeAttempt. destruct (exactProbeAttempt _ _ _ _); [|done]. intros [= <-]. by eapply settles_delete. Qed.

Lemma fail_settles i id windows sent blocked login suppress now cws st st' :
  failAttempt i id windows sent blocked login suppress now cws st = Ok st' -> settles st st'.
Proof.
  unfold failAttempt. destruct (exactProbeAttempt _ _ _ _) as [a|]; [|done]. cbn [rbind]. intros E.
  match type of E with Ok (set_field _ _ ?s) = _ => assert (settles st s) as Hs end.
  { destruct sent; [apply put_settles; by destruct (After _ _)|]. destruct (bool_decide _); [by eapply settles_delete|apply settles_refl]. }
  injection E as <-. eapply settles_trans; [exact Hs|]. by apply settles_same.
Qed.

Lemma hold_settles st iw : settles st (holdInstance st iw).
Proof.
  destruct iw as [i ws]. unfold holdInstance. destruct (ps_ProbeAttempts st !! i) as [a|] eqn:E; [destruct (maybeSent a)|];
    [by apply settles_same|by eapply settles_delete|by apply settles_same].
Qed.

Lemma dropPrepared_settles windows st ia : settles st (dropPrepared windows st ia).
Proof.
  destruct ia as [i a]. unfold dropPrepared. cbv zeta. cbn [ps_ProbeAttempts set_field].
  destruct (ps_ProbeAttempts st !! i) as [b|]; [|by apply settles_same].
  destruct (_ && _); [by eapply settles_delete|by apply settles_same].
Qed.

Section log.
Context `{mr : MapRange}.
Variables (limit : Z) (sends : list (AuthInstanceID * string)).
Hypothesis limit_ok : limit <= maxUint64.
Notation running r := (wal_run limit (rt_store r) sends).

Lemma updateStore_runs r fn io :
  running r -> (forall st st', fn st = Ok st' -> settles st st') -> running (updateStore r fn io).1.
Proof.
  intros Hr Hf. unfold updateStore, Update. pose proof (wr_other limit false _ sends fn (su_load io) (su_backup io) (su_primary io) Hr Hf).
  by destruct (updateMode _ _ _ _ _ _).
Qed.

Lemma snapshot_runs s io : wal_run limit s sends -> PersistentSnapshot s io = (s, Ok (sto_state s)).
Proof. intros [Hk _]%(wal_run_inv _ _ _ limit_ok). by eapply snapshot_loaded. Qed.

Lemma sync_store r i io : running r -> rt_store (syncProbeControllerInstanceFromStore r i io) = rt_store r.
Proof. intros Hr. unfold syncProbeControllerInstanceFromStore. by rewrite (snapshot_runs _ _ Hr). Qed.

Lemma completion_runs r i id quota phases io syncIO :
  running r -> running (persistTerminalProbeCompletionLocked r i id quota phases io syncIO).1.
Proof.
  intros Hr. unfold persistTerminalProbeCompletionLocked. cbv zeta.
  pose proof (updateStore_runs r (completeAttempt i id (observedOnly quota (default ∅ (pr_windows (rt_controller r) !! i))) phases) io Hr
    ltac:(intros; by eapply complete_settles)) as H.
  destruct (updateStore _ _ _) as [r' [st|e]]; [exact H|]. cbn [fst]. by rewrite sync_store.
Qed.

Lemma verified_runs r i id quota phases now io syncIO :
  running r -> running (persistVerifiedProbeCompletion r i id quota phases now io syncIO).1.
Proof. intros Hr. unfold persistVerifiedProbeCompletion. destruct (i =? 0); [done|]. by apply completion_runs. Qed.

Lemma failure_runs r i id windows sent blocked login suppress now io syncIO :
  running r -> running (persistProbeFailure r i id windows sent blocked login suppress now io syncIO).1.
Proof.
  intros Hr. unfold persistProbeFailure. destruct (i =? 0); [done|].
  pose proof (updateStore_runs r (failAttempt i id windows sent blocked login suppress now (default ∅ (pr_windows (rt_controller r) !! i))) io Hr
    ltac:(intros; by eapply fail_settles)) as H.
  cbv zeta. destruct (updateStore _ _ _) as [r' [st|e]]; [exact H|]. cbn [fst]. by rewrite sync_store.
Qed.

Lemma sync_fold_store r l st : rt_store (foldl (fun r (iw : AuthInstanceID * gmap ProbeWindowKind ProbeWindow) => syncProbeControllerInstance r iw.1 st) r l) = rt_store r.
Proof. revert r. induction l as [|iw l IH]; intros r; simpl; [done|]. by rewrite IH. Qed.

Lemma hold_runs r io : running r -> running (persistRosterHold r io).1.
Proof.
  intros Hr. unfold persistRosterHold, holdProbeForRoster. cbv zeta.
  pose proof (updateStore_runs r (fun st => Ok (foldl holdInstance st (map_range (pr_windows (rt_controller r))))) io Hr
    ltac:(intros st st' [= <-]; apply settles_foldl, hold_settles)) as H.
  destruct (updateStore _ _ _) as [r' [st|e]]; cbn [fst] in *; [simpl; by rewrite sync_fold_store|exact H].
Qed.

Lemma persistInstances_runs r instances io : running r -> running (persistProbeInstances r instances io).1.
Proof.
  intros Hr. unfold persistProbeInstances. destruct (bool_decide _); [done|]. cbv zeta.
  match goal with |- context [updateStore ?a ?fn ?b] => pose proof (updateStore_runs a fn b Hr
    ltac:(intros st st' [= <-]; by apply settles_same)) as H; by destruct (updateStore a fn b) end.
Qed.

Lemma bootstrap_runs r cfg accounts bindings rosterA now io :
  running r -> running (bootstrapProbeWindows r cfg accounts bindings rosterA now io).1.1.
Proof.
  intros Hr. unfold bootstrapProbeWindows. destruct (negb _); [done|]. cbv zeta. destruct (foldl _ _ _) as [c touched].
  match goal with |- context [persistProbeInstances ?a ?b ?d] =>
    pose proof (persistInstances_runs a b d Hr) as H; destruct (persistProbeInstances a b d) as [r1 [e|]]; exact H end.
Qed.

Lemma observed_runs r i quota cfg now io : running r -> running (reconcileObservedProbeWindows r i quota cfg now io).1.
Proof.
  intros Hr. unfold reconcileObservedProbeWindows. destruct (i =? 0); [done|].
  pose proof (updateStore_runs r (reconcileObserved i quota now (probeObservationInterval cfg)) io Hr
    ltac:(intros st st' [= <-]; by apply settles_same)) as H. by destruct (updateStore _ _ _) as [r' [st|e]].
Qed.

Lemma rosterRecovery_runs r bindings cfg now io : running r -> running (recoverProbeFromRoster r bindings cfg now io).1.
Proof. intros Hr. unfold recoverProbeFromRoster. cbv zeta. by apply persistInstances_runs. Qed.

Lemma prepared_runs r now loadIO io : running r -> running (recoverPreparedProbeAttempts r now loadIO io).1.
Proof.
  intros Hr. unfold recoverPreparedProbeAttempts. rewrite (snapshot_runs _ _ Hr). cbv zeta. destruct (bool_decide _); [done|].
  match goal with |- context [updateStore ?a ?fn ?b] => pose proof (updateStore_runs a fn b Hr
    ltac:(intros st st' [= <-]; apply settles_foldl, dropPrepared_settles)) as H; by destruct (updateStore a fn b) end.
Qed.

Lemma orphans_runs l : forall r now ios err,
  running r -> running (foldl (fun acc i =>
      let '(r, firstErr) := acc in
      let c := (Advance (rt_controller r) i (mkEvent ProbeEventInstanceRemoved "" now ∅ 0)).1 in
      let '(r, res) := updateStore (r <| rt_controller := c |>) (fun st => Ok (st <| ps_ProbeWindows := base.delete i (ps_ProbeWindows st) |>
                                                                                 <| ps_ProbeAttempts := base.delete i (ps_ProbeAttempts st) |>)) (ios i) in
      (r, match firstErr, res with None, Err e => Some e | _, _ => firstErr end)) (r, err) l : ProbeRuntime * option store_error).1.
Proof.
  induction l as [|i l IH]; intros r now ios err Hr; simpl; [done|].
  match goal with |- context [updateStore ?a ?fn ?b] => pose proof (updateStore_runs a fn b Hr
    ltac:(intros st st' [= <-]; by eapply settles_delete)) as H; destruct (updateStore a fn b) as [r' res] end. by apply IH.
Qed.

Lemma recoverChecked_runs s io ios now : wal_run limit s sends -> wal_run limit (RecoverChecked s io ios now).1 sends.
Proof.
  intros Hr. unfold RecoverChecked. rewrite (snapshot_runs s io Hr). revert Hr. generalize (@nil VerifyIntent). generalize (map_range (ps_ProbeAttempts (sto_state s))).
  intros l. revert s. induction l as [|[i a] l IH]; intros s out Hr; simpl; [done|].
  destruct (negb _); [by apply IH|]. destruct (Before _ _); [by apply IH|]. destruct (bool_decide _); [|by apply IH].
  pose proof (wr_other limit false s sends (persistProbeSentUnknown i (at_AttemptID a) (at_SuppressUntil a)) (wi_load (ios i)) (wi_backup (ios i)) (wi_primary (ios i)) Hr
    ltac:(intros; by eapply unknown_settles)) as H.
  unfold Update. destruct (updateMode _ _ _ _ _ _) as [s' [st|e]]; simpl in H |- *.
  - destruct (ps_ProbeAttempts st !! i); by apply IH.
  - destruct e; try exact H. destruct (String.eqb _ _); [by apply IH|exact H].
Qed.
End log.

(** ** The hold *)

Section hold.
Context `{mr : MapRange}.

Definition keptAttempt (a : option ProbeAttempt) : option ProbeAttempt := a ≫= fun a => if maybeSent a then Some a else None.
Definition heldWindows (a : option ProbeAttempt) (ws : gmap ProbeWindowKind ProbeWindow) : gmap ProbeWindowKind ProbeWindow :=
  map_imap (fun k w => Some (holdWindow a k w)) ws.

Lemma setWindows_lookup ws i w : setWindows ws i w !! i = if bool_decide (w = ∅) then None else Some w.
Proof. unfold setWindows. destruct (bool_decide _); [apply lookup_delete_eq|apply lookup_insert_eq]. Qed.
Lemma setWindows_ne ws i j w : i <> j -> setWindows ws i w !! j = ws !! j.
Proof. intros Hij. unfold setWindows. destruct (bool_decide _); [by apply lookup_delete_ne|by apply lookup_insert_ne]. Qed.

Lemma holdInstance_other st i ws j :
  i <> j -> ps_ProbeAttempts (holdInstance st (i, ws)) !! j = ps_ProbeAttempts st !! j
            /\ ps_ProbeWindows (holdInstance st (i, ws)) !! j = ps_ProbeWindows st !! j.
Proof.
  intros Hij. unfold holdInstance. destruct (ps_ProbeAttempts st !! i) as [a|]; [destruct (maybeSent a)|]; simpl;
    (split; [by rewrite ?lookup_delete_ne by done|by rewrite setWindows_ne by done]).
Qed.
Lemma holdInstance_own st i ws :
  ps_ProbeAttempts (holdInstance st (i, ws)) !! i = keptAttempt (ps_ProbeAttempts st !! i)
  /\ ps_ProbeWindows (holdInstance st (i, ws)) !! i
     = let w := heldWindows (ps_ProbeAttempts st !! i) ws in if bool_decide (w = ∅) then None else Some w.
Proof.
  unfold holdInstance, keptAttempt. cbv zeta.
  destruct (ps_ProbeAttempts st !! i) as [a|] eqn:E; cbn [mbind option_bind]; [destruct (maybeSent a) eqn:Ea|].
  all: split; [cbn; by rewrite ?lookup_delete_eq, ?E|apply setWindows_lookup].
Qed.

Lemma hold_fold l : forall st,
  NoDup l.*1 ->
  let st' := foldl holdInstance st l in
  (forall i, i ∉ l.*1 -> ps_ProbeAttempts st' !! i = ps_ProbeAttempts st !! i /\ ps_ProbeWindows st' !! i = ps_ProbeWindows st !! i)
  /\ (forall i ws, (i, ws) ∈ l -> ps_ProbeAttempts st' !! i = keptAttempt (ps_ProbeAttempts st !! i)
        /\ ps_ProbeWindows st' !! i = let w := heldWindows (ps_ProbeAttempts st !! i) ws in if bool_decide (w = ∅) then None else Some w).
Proof.
  induction l as [|[i ws] l IH]; intros st Hnd; cbv zeta; cbn [foldl]; [split; [done|by intros ? ? ?%not_elem_of_nil]|].
  rewrite fmap_cons in Hnd. apply NoDup_cons in Hnd as [Hi Hnd]. simpl in Hi. destruct (IH (holdInstance st (i, ws)) Hnd) as [H1 H2]. split.
  - intros j [Hj Hl]%not_elem_of_cons. simpl in Hj. destruct (H1 j Hl) as [-> ->]. by apply holdInstance_other.
  - intros j ws' [[= -> ->]|Hin]%elem_of_cons.
    + destruct (H1 i Hi) as [-> ->]. apply holdInstance_own.
    + assert (i <> j) as Hij by (intros ->; apply Hi; apply list_elem_of_fmap; by exists (j, ws')).
      destruct (H2 j ws' Hin) as [-> ->]. by rewrite (proj1 (holdInstance_other st i ws j Hij)).
Qed.

Lemma sync_fold_windows st l : forall r i,
  pr_windows (rt_controller (foldl (fun r (iw : AuthInstanceID * gmap ProbeWindowKind ProbeWindow) => syncProbeControllerInstance r iw.1 st) r l)) !! i
  = if decide (i ∈ l.*1) then (ps_ProbeWindows st !! i ≫= fun w => if bool_decide (w = ∅) then None else Some w) else pr_windows (rt_controller r) !! i.
Proof.
  induction l as [|[j ws] l IH]; intros r i; cbn [foldl]; [rewrite decide_False; [done|apply not_elem_of_nil]|].
  rewrite IH, fmap_cons. cbn [fst].
  assert (pr_windows (rt_controller (syncProbeControllerInstance r j st)) !! i
          = if decide (i = j) then (ps_ProbeWindows st !! i ≫= fun w => if bool_decide (w = ∅) then None else Some w)
            else pr_windows (rt_controller r) !! i) as ->.
  { unfold syncProbeControllerInstance, ReplaceInstance. simpl. destruct (decide (i = j)) as [->|Hij].
    - destruct (ps_ProbeWindows st !! j) as [w|]; simpl; [|rewrite bool_decide_true by done; apply lookup_delete_eq].
      destruct (bool_decide (w = ∅)); [apply lookup_delete_eq|apply lookup_insert_eq].
    - destruct (bool_decide _); [by apply lookup_delete_ne|by apply lookup_insert_ne]. }
  destruct (decide (i ∈ l.*1)) as [Hl|Hl].
  - by rewrite decide_True by (by right).
  - destruct (decide (i = j)) as [->|Hij]; [by rewrite decide_True by (by left)|].
    rewrite decide_False; [done|]. by intros [?|?]%elem_of_cons.
Qed.

(** What a window may be while the roster is not confirmed. *)
Definition held (st : PersistentState) (i : AuthInstanceID) (k : ProbeWindowKind) (w : ProbeWindow) : Prop :=
  pw_Deadline w = zeroTime
  /\ (pw_State w = ProbeConfirmed \/ pw_State w = ProbeWaitingRoster
      \/ pw_State w = ProbeSentUnknown /\ exists a, ps_ProbeAttempts st !! i = Some a /\ maybeSent a = true /\ k ∈ at_Windows a /\ pw_AttemptID w = at_AttemptID a).

Lemma holdWindow_held st i k w a :
  ps_ProbeAttempts st !! i = keptAttempt a -> held st i k (holdWindow a k w).
Proof.
  intros Ha. unfold holdWindow, held, keptAttempt in *. destruct a as [a|]; simpl in Ha.
  - destruct (maybeSent a) eqn:Em; simpl.
    + destruct (attemptReferencesWindow a k) eqn:Er; [|destruct (bool_decide_reflect (pw_State w = ProbeConfirmed)); auto].
      split; [done|]. right. right. split; [done|]. exists a. apply bool_decide_eq_true in Er. auto.
    + destruct (bool_decide_reflect (pw_State w = ProbeConfirmed)); auto.
  - simpl. destruct (bool_decide_reflect (pw_State w = ProbeConfirmed)); auto.
Qed.

Lemma next_deadline_none c : (forall i k w, windowOf c i k = Some w -> pw_Deadline w = zeroTime) -> NextDeadline c = zeroTime.
Proof.
  intros Hc. unfold NextDeadline.
  assert (Forall (fun w => pw_Deadline w = zeroTime) (concat ((fun ws => (map_range ws).*2) <$> (map_range (pr_windows c)).*2))) as Hf.
  { apply Forall_concat, Forall_fmap, Forall_fmap, Forall_forall. intros [i ws] Hi%elem_of_map_range. apply Forall_fmap, Forall_forall.
    intros [k w] Hw%elem_of_map_range. apply (Hc i k). unfold windowOf. by rewrite Hi. }
  revert Hf. generalize (concat ((fun ws => (map_range ws).*2) <$> (map_range (pr_windows c)).*2)). intros l.
  assert (forall out, out = zeroTime -> Forall (fun w => pw_Deadline w = zeroTime) l -> foldl (fun out w => if negb (sleeping w) then out
                      else if negb (IsZero (pw_Deadline w)) && (IsZero out || Before (pw_Deadline w) out) then pw_Deadline w else out) out l = zeroTime) as H;
    [|by apply H].
  induction l as [|w l IH]; intros out Ho Hf; simpl; [done|]. apply Forall_cons in Hf as [Hw Hf]. apply IH; [|done].
  rewrite Hw. by destruct (negb (sleeping w)).
Qed.

(** Putting the probes on hold, once it is durable, stops them: every window is
    confirmed, waits for the roster, or belongs to an attempt on record whose
    request may have been sent; none has a deadline that would wake the loop; no
    attempt that was only prepared is left for a window, so nothing can be sent;
    no attempt that may have been sent is dropped; and the controller agrees with
    the durable state. *)
Theorem hold_stops_probes (r r' : ProbeRuntime) (io : store_io) :
  keeps (fun _ => True) (rt_store r) -> holdProbeForRoster r io = (r', None) ->
  let st := sto_state (rt_store r') in
  (forall i k w, windowOf (rt_controller r') i k = Some w -> held st i k w)
  /\ NextDeadline (rt_controller r') = zeroTime
  /\ (forall i a, is_Some (pr_windows (rt_controller r) !! i) -> ps_ProbeAttempts st !! i = Some a -> maybeSent a = true)
  /\ (forall i a, ps_ProbeAttempts (sto_state (rt_store r)) !! i = Some a -> maybeSent a = true -> ps_ProbeAttempts st !! i = Some a)
  /\ (forall i k, is_Some (pr_windows (rt_controller r) !! i) -> windowOf (rt_controller r') i k = ps_ProbeWindows st !! i ≫= (.!! k)).
Proof.
  intros Hk. unfold holdProbeForRoster, updateStore. cbv zeta. set (l := map_range (pr_windows (rt_controller r))).
  assert (NoDup l.*1) as Hnd by (subst l; rewrite map_range_perm; apply NoDup_fst_map_to_list).
  assert (forall i ws, (i, ws) ∈ l <-> pr_windows (rt_controller r) !! i = Some ws) as Hl by (intros; apply elem_of_map_range).
  assert (forall i, i ∈ l.*1 <-> is_Some (pr_windows (rt_controller r) !! i)) as Hdom.
  { intros i. rewrite list_elem_of_fmap. split; [intros ([j ws] & -> & H%Hl); by exists ws|intros [ws H%Hl]; by exists (i, ws)]. }
  destruct (Update _ _ _ _ _) as [s [st|e]] eqn:EU; [|done]. intros [= <-].
  destruct (update_success _ _ _ _ _ _ _ _ Hk EU) as (next & [= <-] & Hs). rewrite sync_fold_store. cbn [rt_store].
  assert (st = sto_state s) as Est.
  { apply (updateMode_success false _ _ _ _ _ _ _ _ Hk) in EU as (n2 & [= <-] & _ & ->). by rewrite (sy_state _ _ Hs). }
  rewrite Est in *. rewrite (sy_state _ _ Hs) in *. set (old := sto_state (rt_store r)) in *.
  assert (forall x, ps_ProbeAttempts (written old x) = ps_ProbeAttempts x /\ ps_ProbeWindows (written old x) = ps_ProbeWindows x) as Hw
    by (intros x; unfold written; by destruct (ps_FenceUnsafe old)).
  destruct (hold_fold l old Hnd) as [H1 H2]. set (st' := foldl holdInstance old l) in *. destruct (Hw st') as [Ha Hws].
  assert (forall i k, windowOf (rt_controller (foldl (fun r0 iw => syncProbeControllerInstance r0 iw.1 (written old st')) (r <| rt_store := s |>) l)) i k
            = (if decide (i ∈ l.*1) then ps_ProbeWindows st' !! i ≫= (.!! k) else None)) as Hwin.
  { intros i k. unfold windowOf. rewrite sync_fold_windows, Hws. destruct (decide (i ∈ l.*1)) as [Hi|Hi].
    - destruct (ps_ProbeWindows st' !! i) as [w|]; simpl; [|done]. destruct (bool_decide_reflect (w = ∅)) as [->|]; [by rewrite lookup_empty|done].
    - simpl. destruct (pr_windows (rt_controller r) !! i) as [ws|] eqn:E; [|done]. exfalso. apply Hi, Hdom. by exists ws. }
  assert (forall i k w, windowOf (rt_controller (foldl (fun r0 iw => syncProbeControllerInstance r0 iw.1 (written old st')) (r <| rt_store := s |>) l)) i k = Some w ->
            held (written old st') i k w) as Hheld.
  { intros i k w. rewrite Hwin. destruct (decide (i ∈ l.*1)) as [Hi|]; [|done]. apply list_elem_of_fmap in Hi as ([j ws] & -> & Hin). simpl.
    destruct (H2 j ws Hin) as [Ha' ->]. cbv zeta. destruct (bool_decide _); [done|]. simpl. unfold heldWindows. rewrite map_lookup_imap.
    destruct (ws !! k) as [w0|]; simpl; [|done]. intros [= <-]. apply holdWindow_held. by rewrite Ha. }
  split; [exact Hheld|]. split; [|split; [|split]].
  - apply next_deadline_none. intros i k w Hwk. by destruct (Hheld i k w Hwk).
  - intros i a Hi. rewrite Ha. apply Hdom, list_elem_of_fmap in Hi as ([j ws] & -> & Hin). simpl. rewrite (proj1 (H2 j ws Hin)).
    unfold keptAttempt. destruct (ps_ProbeAttempts old !! j) as [b|]; simpl; [|done]. destruct (maybeSent b) eqn:Eb; [|done]. by intros [= <-].
  - intros i a Hi Hm. rewrite Ha. destruct (decide (i ∈ l.*1)) as [Hin|Hin]; [|by rewrite (proj1 (H1 i Hin))].
    apply list_elem_of_fmap in Hin as ([j ws] & -> & Hin). simpl in *. rewrite (proj1 (H2 j ws Hin)), Hi. unfold keptAttempt. simpl. by rewrite Hm.
  - intros i k Hi%Hdom. rewrite Hwin, decide_True by done. by rewrite Hws.
Qed.
End hold.

(** An account with a window in each role: the long window's request is on record
    as sending, the five-hour window waits for its reset. *)
Definition exampleHeldWindow (state : ProbeWindowState) (id : string) : ProbeWindow :=
  mkWindow state (ResetProbeBaseline (10 * Hour) f_zero (5 * Hour)) (11 * Hour) 0 id 0.
Definition exampleHoldRuntime : ProbeRuntime :=
  mkProbeRuntime (mkProbeController {[5 := {[ProbeWindowLong := exampleHeldWindow ProbeSentAwaitingVerify "probe-5-1";
                                              ProbeWindowFiveHour := exampleHeldWindow ProbeWaitingReset ""]}]} 0) example_sending ∅ false.

Lemma hold_stops_probes_witness :
  let '(r, err) := holdProbeForRoster exampleHoldRuntime store_fine in
  err = None /\ NextDeadline (rt_controller exampleHoldRuntime) = 11 * Hour
  /\ (pw_State <$> windowOf (rt_controller r) 5 ProbeWindowLong) = Some ProbeSentUnknown
  /\ (pw_State <$> windowOf (rt_controller r) 5 ProbeWindowFiveHour) = Some ProbeWaitingRoster
  /\ NextDeadline (rt_controller r) = zeroTime.
Proof.
  destruct (holdProbeForRoster exampleHoldRuntime store_fine) as [r err] eqn:E.
  assert ((holdProbeForRoster exampleHoldRuntime store_fine).2 = None) as E2 by (vm_compute; reflexivity). rewrite E in E2. simpl in E2. subst err.
  split; [done|]. split; [vm_compute; reflexivity|]. assert (r = (holdProbeForRoster exampleHoldRuntime store_fine).1) as Er by by rewrite E.
  split; [rewrite Er; vm_compute; reflexivity|]. split; [rewrite Er; vm_compute; reflexivity|].
  refine (proj1 (proj2 (hold_stops_probes exampleHoldRuntime r store_fine _ E))).
  split; try done. eexists. by split_and!.
Defined.
