(* ===== verification/ProbeSequence.v ===== *)
(** * The probe sequence (probe_runtime.go)

    [runTypedHeld] for a probe: read the quota, decide by the controller whether a
    window is lazy, record the attempt as sending, send the small request, record
    it as sent, wait, read again and complete.  A failure at any point is recorded
    by whether the request may have been sent.  Recovery takes the same attempt up
    at the second read.  [between] is what other goroutines do to the shared state
    while the sequence waits for the host; the lock of the hold keeps them out
    otherwise. *)

From stdpp Require Import pretty.
From S2P Require Import Prelude GoStrings Float64 Json Text Config Models Capability Identity Probe ProbeWindow State Roster StateStore Fence ProbeWAL CredentialWAL Bindings Quota Usage Managed RosterGate Auth Refresh ProbeRuntime.

Definition codexResetProbeEndpoint : string := "https://chatgpt.com/backend-api/codex/responses".

(** ** Errors *)

Inductive probe_error :=
  | ProbeHost (text : string)
  | ProbeExtract
  | ProbeIdentity
  | ProbeFingerprint
  | ProbeCapability
  | ProbeQuotaStatus (status : Z) (body : string)
  | ProbeQuotaDecode
  | ProbeActivation (status : Z) (body : string)
  | ProbeFence (e : fence_error)
  | ProbeNoFence
  | ProbeFenceOrder
  | ProbeWal (e : wal_error)
  | ProbeStore (e : store_error)
  | ProbeBinding (e : binding_error)
  | ProbeCancelled
  | ProbeDeadlineExceeded.

(** [recordFailure]: the code, the category and the status it logs. *)
Definition failureFields (e : probe_error) : string * string * option Z :=
  match e with
  | ProbeActivation status _ => ("activation_http_status", "upstream_http", Some status)
  | ProbeQuotaStatus status _ => ("quota_http_status", "upstream_http", Some status)
  | ProbeCapability => ("background_not_authorized", "authorization", None)
  | ProbeIdentity => ("account_identity_unresolved", "authorization", None)
  | ProbeFingerprint => ("credential_fingerprint_mismatch", "authorization", None)
  | ProbeCancelled => ("operation_canceled", "internal", None)
  | ProbeDeadlineExceeded => ("operation_deadline_exceeded", "internal", None)
  | _ => ("probe_operation_failed", "external_callback", None)
  end.

Inductive probe_log :=
  | LogPrecheckStarted (windows : list ProbeWindowKind)
  | LogFailed (code category : string) (status : option Z) (stage : string) (sent : bool) (windows : list ProbeWindowKind)
  | LogActivationSent (windows : list ProbeWindowKind)
  | LogVerified (windows : list ProbeWindowKind).

(** ** The shared state *)

Record ProbeWorld := mkProbeWorld {
  pw_runtime : ProbeRuntime;
  pw_fence : FenceAllocator;
  pw_bindings : gmap string RuntimeBinding;
  pw_gate : Gate;
  pw_permit : bool;
  pw_posts : list (AuthInstanceID * string);
  pw_log : list probe_log;
}.
#[export] Instance ProbeWorld_eta : Eta ProbeWorld := fun r => mkProbeWorld
  (pw_runtime r) (pw_fence r) (pw_bindings r) (pw_gate r) (pw_permit r) (pw_posts r) (pw_log r).

Definition storeOf (w : ProbeWorld) : StateStore := rt_store (pw_runtime w).
Definition withStore (w : ProbeWorld) (s : StateStore) : ProbeWorld := w <| pw_runtime := (pw_runtime w) <| rt_store := s |> |>.
Definition controllerOf (w : ProbeWorld) : ProbeController := rt_controller (pw_runtime w).
Definition withController (w : ProbeWorld) (c : ProbeController) : ProbeWorld := w <| pw_runtime := (pw_runtime w) <| rt_controller := c |> |>.
Definition log (w : ProbeWorld) (l : probe_log) : ProbeWorld := w <| pw_log := pw_log w ++ [l] |>.

(** A call of the host under the lease ([HeldLease.DoHTTP]): [ProbeCancelled] and
    the like stand for a lease that expired during the call. *)
Inductive host_answer (A : Type) := HostFails (e : probe_error) | HostAnswers (a : A).
Arguments HostFails {A} _.
Arguments HostAnswers {A} _.

Record read_env := mkReadEnv {
  re_auth : host_answer HostAuthGetResponse;
  re_cfg : option Config; re_t0 : Time; re_t1 : Time; re_t2 : Time; re_t3 : Time;
  re_lease : option probe_error;
  re_quota : host_answer HTTPResponse;
  re_parse : Time;
}.
(** The activation request: a lease that has expired before the call, the hook
    before the request, the gate's clock, the host's answer, the hook after it,
    and a lease that expires during a call that succeeds. *)
Record post_env := mkPostEnv {
  pv_cfg : option Config; pv_t0 : Time; pv_t1 : Time; pv_t2 : Time; pv_t3 : Time;
  pv_before : bool; pv_after : bool; pv_lease : option probe_error; pv_answer : host_answer HTTPResponse;
  pv_late : option probe_error;
}.
Record fail_env := mkFailEnv { fe_now : Time; fe_store : store_io; fe_sync : load_io; fe_hold : store_io; fe_block : store_io }.

(** The points at which the sequence waits. *)
Inductive wait_point := WaitPrecheck | WaitActivation | WaitPropagation | WaitVerify.

Record sequence_env := mkSequenceEnv {
  sq_between : wait_point -> ProbeWorld -> ProbeWorld;
  sq_fence1 : fence_io; sq_fence2 : fence_io; sq_fence3 : fence_io;
  sq_precheck : read_env; sq_post : post_env; sq_verify : read_env;
  sq_wait : option probe_error;
  sq_precheckNow : Time; sq_createdNow : Time; sq_sentNow : Time; sq_verifyNow : Time;
  sq_sending : wal_io; sq_sent : wal_io; sq_complete : store_io; sq_sync : load_io;
  sq_fail : fail_env;
}.

(** ** Reading the quota *)

Section sequence.
Context `{MapRange} (Sum256 : string -> string) (canonicalJSON : string -> option string) (order : fields -> fields).

Definition typedFetchQuota (w : ProbeWorld) (env : read_env) (c : CodexCredentials) : ProbeWorld * result probe_error ParsedQuota :=
  if String.eqb (cc_ChatGPTAccountID c) "" then (w, Err ProbeIdentity)
  else match re_lease env with Some e => (w, Err e) | None =>
    let '(g, sent) := doBackgroundHTTPRequest (pw_gate w) (re_cfg env) true (re_t0 env) (re_t1 env) (re_t2 env) (re_t3 env) in
    let w := w <| pw_gate := g |> in
    match sent with
    | GateRefused => (w, Err ProbeCapability)
    | GateSent _ =>
        match re_quota env with
        | HostFails e => (w, Err e)
        | HostAnswers resp =>
            if negb (ok_status (hs_StatusCode resp)) then (w, Err (ProbeQuotaStatus (hs_StatusCode resp) (hs_Body resp)))
            else (w, match ParseCodexUsagePayload (hs_Body resp) (re_parse env) with Some q => Ok q | None => Err ProbeQuotaDecode end)
        end
    end
  end.

Definition probeRead (w : ProbeWorld) (env : read_env) (b : RuntimeBinding) : ProbeWorld * result probe_error (ParsedQuota * CodexCredentials) :=
  match re_auth env with
  | HostFails e => (w, Err e)
  | HostAnswers auth =>
      match ExtractCodexCredentials order (gr_JSON auth) with
      | None => (w, Err ProbeExtract)
      | Some c =>
          if String.eqb (cc_ChatGPTAccountID c) "" then (w, Err ProbeIdentity)
          else if hr_Provisional (gt_roster (pw_gate w))
                  && negb (bool_decide (NewCredentialFingerprint Sum256 canonicalJSON (cc_ChatGPTAccountID c) (cc_RefreshToken c) (rb_AuthIndex b) = rb_Fingerprint b))
          then (w, Err ProbeFingerprint)
          else let '(w, r) := typedFetchQuota w env c in (w, match r with Ok q => Ok (q, c) | Err e => Err e end)
      end
  end.

(** ** Failures *)

(** The intent and payload of a sequence. *)
Record probe_sequence := mkSequence {
  ps_AuthID : string; ps_Binding : RuntimeBinding; ps_Windows : list ProbeWindowKind; ps_Attempt : ProbeAttempt; ps_Recovery : bool; ps_StartedAfter : Z }.

Definition recordFailure (w : ProbeWorld) (e : probe_error) (stage : string) (sent : bool) (windows : list ProbeWindowKind) : ProbeWorld :=
  let '(code, category, status) := failureFields e in log w (LogFailed code category status stage sent windows).

Definition isAttemptChanged (e : store_error) : bool :=
  match e with ErrUpdate reason => String.eqb reason ErrProbeAttemptChanged | _ => false end.

Definition blockAuth (w : ProbeWorld) (authID : string) (io : store_io) : ProbeWorld * option binding_error :=
  let '(reg, err) := MarkAuthBlocked (mkRegistry (storeOf w) (pw_bindings w)) authID io in
  ((withStore w (br_store reg)) <| pw_bindings := br_bindings reg |>, err).

Definition failProbe (w : ProbeWorld) (p : probe_sequence) (attempt : ProbeAttempt) (stage : string) (e : probe_error) (sent : bool) (env : fail_env)
  : ProbeWorld * probe_error :=
  let i := rb_Instance (ps_Binding p) in
  if hr_Provisional (gt_roster (pw_gate w)) && match e with ProbeFingerprint | ProbeCapability => true | _ => false end then
    let g := pw_gate w in
    let w := w <| pw_permit := false |>
               <| pw_gate := g <| gt_roster := (gt_roster g) <| hr_BackgroundAllowed := false |> <| hr_Health := RosterWaiting |> |> |> in
    let w := w <| pw_runtime := (persistRosterHold (pw_runtime w) (fe_hold env)).1 |> in
    (recordFailure w e stage sent (ps_Windows p), e)
  else if bool_decide (hr_Health (gt_roster (pw_gate w)) = RosterFailClosed) then (recordFailure w e stage sent (ps_Windows p), e)
  else
    let authBlocked := match e with ProbeQuotaStatus status _ => status =? 401 | _ => false end in
    let '(r, persistErr) := persistProbeFailure (pw_runtime w) i (at_AttemptID attempt) (ps_Windows p) sent authBlocked
                              (rb_Login (ps_Binding p)) (at_SuppressUntil attempt) (fe_now env) (fe_store env) (fe_sync env) in
    let w := w <| pw_runtime := r |> in
    let '(w, e) :=
      match persistErr with
      | Some pe => (w, if isAttemptChanged pe then e else ProbeStore pe)
      | None =>
          if authBlocked then
            let '(w, blockErr) := blockAuth w (ps_AuthID p) (fe_block env) in
            (w, match blockErr with Some be => ProbeBinding be | None => e end)
          else (w, e)
      end in
    (recordFailure w e stage sent (ps_Windows p), e).

Definition nextFence (w : ProbeWorld) (io : fence_io) : ProbeWorld * result fence_error Z :=
  let '(a, s, r) := Fence.Next (pw_fence w) (storeOf w) io in ((withStore w s) <| pw_fence := a |>, r).

(** ** The sequence *)

(** The windows the precheck found lazy, marked with the attempt. *)
Definition markLazy (i : AuthInstanceID) (attemptID : string) (c : ProbeController) (windows : list ProbeWindowKind)
  : ProbeController * list ProbeWindowKind :=
  foldl (fun acc k => match windowOf acc.1 i k with
                      | Some pw => if bool_decide (pw_State pw = ProbeSentAwaitingVerify)
                                   then (SetWindow acc.1 i k (pw <| pw_AttemptID := attemptID |>), acc.2 ++ [k]) else acc
                      | None => acc
                      end) (c, []) windows.

(** After the verification a window still lazy waits out the suppression. *)
Definition suppressRetry (i : AuthInstanceID) (suppressUntil : Time) (c : ProbeController) (windows : list ProbeWindowKind) : ProbeController :=
  foldl (fun c k => match windowOf c i k with
                    | Some pw => if bool_decide (pw_State pw = ProbeRetryWait) && Before (pw_Deadline pw) suppressUntil
                                 then SetWindow c i k (pw <| pw_Deadline := suppressUntil |>) else c
                    | None => c
                    end) c windows.

Definition sequence_result : Type := ProbeWorld * result probe_error (option (Z * ParsedQuota)).

Definition failed (x : ProbeWorld * probe_error) : sequence_result := (x.1, Err x.2).

(** From the record of the send on. *)
Definition verifyActivation (w : ProbeWorld) (p : probe_sequence) (attempt : ProbeAttempt) (lazy : list ProbeWindowKind) (fence : Z) (env : sequence_env)
  : sequence_result :=
  let i := rb_Instance (ps_Binding p) in
  let w := log w (LogActivationSent lazy) in
  match sq_wait env with
  | Some e => failed (failProbe w p attempt "propagation_wait" e true (sq_fail env))
  | None =>
      let w := sq_between env WaitPropagation w in
      let '(w, next) := nextFence w (sq_fence3 env) in
      match next with
      | Err e => failed (failProbe w p attempt "propagation_wait" (ProbeFence e) true (sq_fail env))
      | Ok seq =>
          if seq <=? fence then failed (failProbe w p attempt "propagation_wait" ProbeFenceOrder true (sq_fail env))
          else
            let '(w, r) := probeRead w (sq_verify env) (ps_Binding p) in
            let w := sq_between env WaitVerify w in
            match r with
            | Err e => failed (failProbe w p attempt "verify_quota" e true (sq_fail env))
            | Ok (quota, _) =>
                let c := (Advance (controllerOf w) i (mkEvent ProbeEventVerifyResult "" (sq_verifyNow env) (probeSnapshots quota) 0)).1 in
                let c := suppressRetry i (at_SuppressUntil attempt) c lazy in
                let '(rt, err) := persistTerminalProbeCompletionLocked ((pw_runtime w) <| rt_controller := c |>) i (at_AttemptID attempt) quota
                                    [ProbeAttemptSent] (sq_complete env) (sq_sync env) in
                let w := w <| pw_runtime := rt |> in
                match err with
                | Some e => (recordFailure w (ProbeStore e) "persist_verification" true lazy, Err (ProbeStore e))
                | None => (log w (LogVerified lazy), Ok (Some (seq, quota)))
                end
            end
      end
  end.

(** The request under the gate: whether it was issued, and its error. *)
Definition activate (w : ProbeWorld) (env : post_env) : ProbeWorld * bool * option probe_error :=
  match pv_lease env with
  | Some e => (w, false, Some e)
  | None =>
      if negb (pv_before env) then (w, false, Some (ProbeWal ErrWalCrash))
      else
        let '(g, gated) := doBackgroundHTTPRequest (pw_gate w) (pv_cfg env) true (pv_t0 env) (pv_t1 env) (pv_t2 env) (pv_t3 env) in
        let w := w <| pw_gate := g |> in
        match gated with
        | GateRefused => (w, false, Some ProbeCapability)
        | GateSent _ =>
            (w, true, match pv_answer env with
                      | HostFails e => Some e
                      | HostAnswers resp => if ok_status (hs_StatusCode resp) then (if pv_after env then pv_late env else Some (ProbeWal ErrWalCrash))
                                            else Some (ProbeActivation (hs_StatusCode resp) (hs_Body resp))
                      end)
        end
  end.

(** From the lazy windows on. *)
Definition sendActivation (w : ProbeWorld) (p : probe_sequence) (lazy : list ProbeWindowKind) (env : sequence_env) : sequence_result :=
  let i := rb_Instance (ps_Binding p) in
  let '(w, next) := nextFence w (sq_fence2 env) in
  match next with
  | Err e => failed (failProbe w p (ps_Attempt p) "precheck_quota" (ProbeFence e) false (sq_fail env))
  | Ok fence =>
      let created := sq_createdNow env in
      let attempt := (ps_Attempt p) <| at_Windows := lazy |> <| at_SendFenceSeq := fence |> <| at_CreatedAt := created |>
                       <| at_VerifyNotBefore := Add created (3 * Second) |> <| at_SuppressUntil := Add created (10 * Minute) |> in
      let '(s, err) := PersistSending (storeOf w) attempt (sq_sending env) in
      let w := withStore w s in
      match err with
      | Some e => failed (failProbe w p attempt "persist_activation_prepared" (ProbeWal e) false (sq_fail env))
      | None =>
          let '(w, issued, err) := activate w (sq_post env) in
          let w := if issued then w <| pw_posts := (at_Instance attempt, at_AttemptID attempt) :: pw_posts w |> else w in
          let w := sq_between env WaitActivation w in
          match err with
          | Some e => failed (failProbe w p attempt "activation_post" e true (sq_fail env))
          | None =>
              let '(s, err) := PersistSent (storeOf w) i (at_AttemptID attempt) (sq_sentNow env) (sq_sent env) in
              let w := withStore w s in
              match err with
              | Some e => failed (failProbe w p attempt "persist_activation_sent" (ProbeWal e) true (sq_fail env))
              | None => verifyActivation w p attempt lazy fence env
              end
          end
      end
  end.

Definition recoverSequence (w : ProbeWorld) (p : probe_sequence) (env : sequence_env) : sequence_result :=
  let i := rb_Instance (ps_Binding p) in
  let attempt := if at_SendFenceSeq (ps_Attempt p) =? 0 then (ps_Attempt p) <| at_SendFenceSeq := ps_StartedAfter p |> else ps_Attempt p in
  let stage := "recovery_verify_quota" in
  if at_SendFenceSeq attempt =? 0 then failed (failProbe w p attempt stage ProbeNoFence true (sq_fail env))
  else
    let '(w, next) := nextFence w (sq_fence1 env) in
    match next with
    | Err e => failed (failProbe w p attempt stage (ProbeFence e) true (sq_fail env))
    | Ok seq =>
        if seq <=? at_SendFenceSeq attempt then failed (failProbe w p attempt stage ProbeFenceOrder true (sq_fail env))
        else
          let '(w, r) := probeRead w (sq_verify env) (ps_Binding p) in
          let w := sq_between env WaitVerify w in
          match r with
          | Err e => failed (failProbe w p attempt stage e true (sq_fail env))
          | Ok (quota, _) =>
              let '(rt, err) := persistVerifiedProbeCompletion (pw_runtime w) i (at_AttemptID attempt) quota
                                  [ProbeAttemptSending; ProbeAttemptSent; ProbeAttemptSentUnknown] (sq_verifyNow env) (sq_complete env) (sq_sync env) in
              let w := w <| pw_runtime := rt |> in
              match err with
              | Some e => (recordFailure w (ProbeStore e) "persist_recovery_verification" true (ps_Windows p), Err (ProbeStore e))
              | None => (log w (LogVerified (ps_Windows p)), Ok (Some (seq, quota)))
              end
          end
    end.

Definition runProbeSequence (w : ProbeWorld) (p : probe_sequence) (cfg : Config) (env : sequence_env) : sequence_result :=
  let i := rb_Instance (ps_Binding p) in
  if ps_Recovery p then recoverSequence w p env
  else
    let w := log w (LogPrecheckStarted (ps_Windows p)) in
    let '(w, next) := nextFence w (sq_fence1 env) in
    match next with
    | Err e => failed (failProbe w p (ps_Attempt p) "precheck_quota" (ProbeFence e) false (sq_fail env))
    | Ok _ =>
        let '(w, r) := probeRead w (sq_precheck env) (ps_Binding p) in
        let w := sq_between env WaitPrecheck w in
        match r with
        | Err e => failed (failProbe w p (ps_Attempt p) "precheck_quota" e false (sq_fail env))
        | Ok (quota, _) =>
            let c := (Advance (controllerOf w) i (mkEvent ProbeEventPrecheckResult "" (sq_precheckNow env) (probeSnapshots quota) (probeObservationInterval cfg))).1 in
            let '(c, lazy) := markLazy i (at_AttemptID (ps_Attempt p)) c (ps_Windows p) in
            let w := withController w c in
            match lazy with
            | [] =>
                let '(rt, err) := persistTerminalProbeCompletionLocked (pw_runtime w) i (at_AttemptID (ps_Attempt p)) quota [ProbeAttemptPrepared]
                                    (sq_complete env) (sq_sync env) in
                let w := w <| pw_runtime := rt |> in
                match err with
                | Some e => (recordFailure w (ProbeStore e) "precheck_quota" false (ps_Windows p), Err (ProbeStore e))
                | None => (w, Ok None)
                end
            | _ => sendActivation w p lazy env
            end
        end
    end.

(** The quota reads of [runTypedHeld] outside a sequence; an account that is not
    authorised is blocked, whether or not that could be stored. *)
Definition runQuotaRead (w : ProbeWorld) (authID : string) (env : read_env) (blockIO : store_io)
  : ProbeWorld * result probe_error (ParsedQuota * CodexCredentials) :=
  match re_auth env with
  | HostFails e => (w, Err e)
  | HostAnswers auth =>
      match ExtractCodexCredentials order (gr_JSON auth) with
      | None => (w, Err ProbeExtract)
      | Some c =>
          if String.eqb (cc_ChatGPTAccountID c) "" then (w, Err ProbeIdentity)
          else
            let '(w, r) := typedFetchQuota w env c in
            match r with
            | Ok q => (w, Ok (q, c))
            | Err e =>
                (if match e with ProbeQuotaStatus status _ => status =? 401 | _ => false end then (blockAuth w authID blockIO).1 else w, Err e)
            end
      end
  end.
End sequence.

(** The start of the runtime: its controller and fences from the durable state,
    then the first bootstrap, whose error it returns. *)
Definition initProbeRuntime `{MapRange} (s : StateStore) (loadIO : load_io) (cfg : Config) (accounts : list AccountState)
    (bindings : gmap string RuntimeBinding) (rosterA : bool) (now : Time) (io : store_io)
  : StateStore * option (ProbeRuntime * FenceAllocator) * option store_error :=
  let '(s, res) := PersistentSnapshot s loadIO in
  match res with
  | Err e => (s, None, Some e)
  | Ok st =>
      let '(r, err, _) := bootstrapProbeWindows (mkProbeRuntime (LoadWindows NewProbeController (ps_ProbeWindows st)) s ∅ false)
                            cfg accounts bindings rosterA now io in
      (rt_store r, Some (r, NewFenceAllocator st), err)
  end.

(** ** The passes *)

(** What the coordinator makes of a submitted sequence. *)
Inductive submission := SubmitRejected (e : probe_error) | SubmitRuns (env : sequence_env).

Section passes.
Context `{MapRange} (Sum256 : string -> string) (canonicalJSON : string -> option string) (order : fields -> fields).

Definition mapWindow (c : ProbeController) (i : AuthInstanceID) (f : ProbeWindow -> option ProbeWindow) (k : ProbeWindowKind) : ProbeController :=
  match windowOf c i k ≫= f with Some w => SetWindow c i k w | None => c end.

Definition blockWindow (login : LoginEpoch) (w : ProbeWindow) : option ProbeWindow :=
  Some (w <| pw_State := ProbeAuthBlocked |> <| pw_AuthBlockedAtLogin := login |>).
Definition unblockWindow (login : LoginEpoch) (w : ProbeWindow) : option ProbeWindow :=
  if bool_decide (pw_State w = ProbeAuthBlocked) && (pw_AuthBlockedAtLogin w <? login)
  then Some (w <| pw_State := ProbePendingCheck |> <| pw_Deadline := zeroTime |>) else None.

(** The windows that are due, after their deadlines were delivered. *)
Definition collectDue (i : AuthInstanceID) (now : Time) (c : ProbeController) : ProbeController * list ProbeWindowKind :=
  foldl (fun acc k =>
      let c := match windowOf acc.1 i k with
               | Some w => if negb (IsZero (pw_Deadline w)) && negb (After (pw_Deadline w) now) && negb (bool_decide (pw_State w = ProbePendingCheck))
                           then (Advance acc.1 i (mkEvent ProbeEventDeadline k now ∅ 0)).1 else acc.1
               | None => acc.1
               end in
      match windowOf c i k with
      | Some w => if bool_decide (pw_State w = ProbePendingCheck) then (c, acc.2 ++ [k]) else (c, acc.2)
      | None => (c, acc.2)
      end) (c, []) probeKinds.

(** One account of the due pass: the new state and its error.  [persisted] is the
    snapshot the pass began with. *)
Definition dueBinding (w : ProbeWorld) (cfg : Config) (persisted : PersistentState) (now : Time) (authID : string) (b : RuntimeBinding)
    (claimIO : wal_io) (submit : submission) : ProbeWorld * option probe_error :=
  let i := rb_Instance b in
  if match ps_ProbeAttempts persisted !! i with Some a => maybeSent a | None => false end then (w, None)
  else if rb_AuthBlocked b then (withController w (foldl (fun c k => mapWindow c i (blockWindow (rb_Login b)) k) (controllerOf w) probeKinds), None)
  else
    let c := foldl (fun c k => mapWindow c i (unblockWindow (rb_Login b)) k) (controllerOf w) probeKinds in
    let '(c, due) := collectDue i now c in
    let w := withController w c in
    match due with
    | [] => (w, None)
    | _ =>
        let '(s, res) := Update (storeOf w) (claimAttempt i due now (pr_windows c !! i)) (wi_load claimIO) (wi_backup claimIO) (wi_primary claimIO) in
        let w := withStore w s in
        match res with
        | Err e => (w, Some (ProbeStore e))
        | Ok claimed =>
            match ps_ProbeAttempts claimed !! i with
            | Some attempt =>
                if negb (bool_decide (at_Phase attempt = ProbeAttemptPrepared)) then (w, None)
                else match submit with
                     | SubmitRejected e => (w, Some e)
                     | SubmitRuns env =>
                         let '(w, r) := runProbeSequence Sum256 canonicalJSON order w (mkSequence authID b due attempt false 0) cfg env in
                         (w, match r with Ok _ => None | Err e => Some e end)
                     end
            | None => (w, None)
            end
        end
    end.

Definition firstError (first next : option probe_error) : option probe_error := match first with Some e => Some e | None => next end.

(** The loop of [runProbeDuePass] over the accounts, in the order Go visits them,
    with the answers for each. *)
Definition duePass (w : ProbeWorld) (cfg : Config) (persisted : PersistentState) (now : Time)
    (bindings : list (string * RuntimeBinding)) (ios : string -> wal_io * submission) (err : option probe_error)
  : ProbeWorld * option probe_error :=
  foldl (fun acc ab => let '(w, err) := dueBinding acc.1 cfg persisted now ab.1 ab.2 (ios ab.1).1 (ios ab.1).2 in (w, firstError acc.2 err))
        (w, err) bindings.

(** What both passes require first: the hold is durable, the roster allows probes,
    and a provisional roster has been verified for this pass.  [ge_wake] is what
    the roster controller does when it is woken. *)
Record gate_env := mkGateEnv { ge_hold : store_io; ge_wake : ProbeWorld -> ProbeWorld; ge_allowed : Time; ge_risk : Time }.
Definition probeGate (w : ProbeWorld) (cfg : Config) (env : gate_env) : ProbeWorld * option probe_error :=
  let '(r, err) := retryProbeRosterHold (pw_runtime w) (ge_hold env) in
  let w := w <| pw_runtime := r |> in
  match err with
  | Some e => (w, Some (ProbeStore e))
  | None =>
      let w := ge_wake env w in
      let '(g, allowed) := probeBackgroundAllowed (pw_gate w) (Some cfg) (ge_allowed env) in
      let w := w <| pw_gate := g |> in
      if negb allowed then (w, Some ProbeCapability)
      else if negb (hr_Provisional (gt_roster (pw_gate w))) then (w, None)
      else if negb (provisionalProbeRiskConfigured (pw_gate w) (Some cfg) (ge_risk env)) then (w, Some ProbeCapability)
      else let '(permit, taken) := consumeProvisionalPermit (pw_permit w) in
           (w <| pw_permit := permit |>, if taken then None else Some ProbeCapability)
  end.

Definition reconcileOrphans (w : ProbeWorld) (persisted : PersistentState) (active : gset AuthInstanceID) (now : Time) (ios : AuthInstanceID -> store_io)
  : ProbeWorld * option probe_error :=
  let '(r, err) := reconcileProbeOrphans (pw_runtime w) (map_range (gset_to_gmap tt (orphans persisted active))).*1 now ios in
  (w <| pw_runtime := r |>, ProbeStore <$> err).

Record due_env := mkDueEnv {
  du_gate : gate_env;
  du_accounts : list AccountState; du_bootNow : Time; du_bootstrap : store_io;
  du_now : Time; du_snapshot : load_io;
  du_orphanNow : Time; du_orphans : AuthInstanceID -> store_io;
  du_ios : string -> wal_io * submission;
}.
Definition runProbeDuePass (w : ProbeWorld) (cfg : Config) (env : due_env) : ProbeWorld * option probe_error :=
  if negb (resetProbeEnabled (Some cfg)) then (w, None)
  else
    let '(w, err) := probeGate w cfg (du_gate env) in
    match err with
    | Some e => (w, Some e)
    | None =>
        let '(r, err, _) := bootstrapProbeWindows (pw_runtime w) cfg (du_accounts env) (pw_bindings w)
                              (bool_decide (hr_Capability (gt_roster (pw_gate w)) = CapabilityA)) (du_bootNow env) (du_bootstrap env) in
        let w := w <| pw_runtime := r |> in
        match err with
        | Some e => (w, Some (ProbeStore e))
        | None =>
            let '(s, res) := PersistentSnapshot (storeOf w) (du_snapshot env) in
            let w := withStore w s in
            match res with
            | Err e => (w, Some (ProbeStore e))
            | Ok persisted =>
                let '(byID, active) := activeProbeBindings (gt_roster (pw_gate w)) (pw_bindings w) in
                let '(w, err) := reconcileOrphans w persisted active (du_orphanNow env) (du_orphans env) in
                duePass w cfg persisted (du_now env) (map_range byID) (du_ios env) err
            end
        end
    end.

(** One intent of the recovery pass. *)
Definition recoverIntent (w : ProbeWorld) (cfg : Config) (bindings : list (string * RuntimeBinding)) (intent : VerifyIntent) (loadIO : load_io) (submit : submission)
  : ProbeWorld * option probe_error :=
  match list_find (fun ab => rb_Instance ab.2 = vi_Instance intent) bindings with
  | None => (w, None)
  | Some (_, (authID, b)) =>
      if String.eqb authID "" || rb_AuthBlocked b then (w, None)
      else
        let '(s, res) := PersistentSnapshot (storeOf w) loadIO in
        let w := withStore w s in
        match res with
        | Err e => (w, Some (ProbeStore e))
        | Ok st =>
            let attempt := default (mkAttempt 0 "" [] ProbeAttemptPrepared 0 zeroTime None zeroTime zeroTime) (ps_ProbeAttempts st !! vi_Instance intent) in
            let unknown w := Some (w <| pw_State := ProbeSentUnknown |> <| pw_AttemptID := at_AttemptID attempt |> <| pw_Deadline := zeroTime |>) in
            let w := withController w (foldl (fun c k => mapWindow c (vi_Instance intent) unknown k) (controllerOf w) (at_Windows attempt)) in
            match submit with
            | SubmitRejected e => (w, Some e)
            | SubmitRuns env =>
                let '(w, r) := runProbeSequence Sum256 canonicalJSON order w (mkSequence authID b (vi_Windows intent) attempt true (vi_StartedAfter intent)) cfg env in
                (w, match r with Ok _ => None | Err e => Some e end)
            end
        end
  end.

(** [runProbeRecoveryOwned] up to the release of the pass. *)
Record recovery_env := mkRecoveryEnv {
  rv_gate : gate_env;
  rv_preparedNow : Time; rv_preparedLoad : load_io; rv_preparedIO : store_io;
  rv_walNow : Time; rv_walLoad : load_io; rv_walIO : AuthInstanceID -> wal_io;
  rv_snapshot : load_io; rv_orphanNow : Time; rv_orphans : AuthInstanceID -> store_io;
  rv_load : AuthInstanceID -> load_io; rv_submit : AuthInstanceID -> submission; rv_persist : store_io;
}.
Definition recoverIntents (w : ProbeWorld) (cfg : Config) (bindings : list (string * RuntimeBinding)) (env : recovery_env)
    (intents : list VerifyIntent) (err : option probe_error) : ProbeWorld * option probe_error :=
  foldl (fun acc intent =>
      let '(w, err) := recoverIntent acc.1 cfg bindings intent (rv_load env (vi_Instance intent)) (rv_submit env (vi_Instance intent)) in
      (w, firstError acc.2 err)) (w, err) intents.
Definition runProbeRecoveryOwned (w : ProbeWorld) (cfg : Config) (env : recovery_env) : ProbeWorld * option probe_error :=
  let '(w, err) := probeGate w cfg (rv_gate env) in
  match err with
  | Some e => (w, Some e)
  | None =>
      let '(r, err) := recoverPreparedProbeAttempts (pw_runtime w) (rv_preparedNow env) (rv_preparedLoad env) (rv_preparedIO env) in
      let w := w <| pw_runtime := r |> in
      match err with
      | Some e => (w, Some (ProbeStore e))
      | None =>
          let '(s, intents) := RecoverChecked (storeOf w) (rv_walLoad env) (rv_walIO env) (rv_walNow env) in
          let w := withStore w s in
          match intents with
          | Err e => (w, Some (ProbeStore e))
          | Ok intents =>
              let '(byID, active) := activeProbeBindings (gt_roster (pw_gate w)) (pw_bindings w) in
              let '(s, res) := PersistentSnapshot (storeOf w) (rv_snapshot env) in
              let w := withStore w s in
              match res with
              | Err e => (w, Some (ProbeStore e))
              | Ok persisted =>
                  let '(w, err) := reconcileOrphans w persisted active (rv_orphanNow env) (rv_orphans env) in
                  let '(w, err) := recoverIntents w cfg (map_range byID) env intents err in
                  let '(r, perr) := persistProbeInstances (pw_runtime w) (list_to_set (vi_Instance <$> intents)) (rv_persist env) in
                  (w <| pw_runtime := r |>, firstError err (ProbeStore <$> perr))
              end
          end
      end
  end.
End passes.

(** ** The sequence on the write-ahead log *)

(** The claims so far leave the counter of attempts within [limit]. *)
Definition running (limit : Z) (w : ProbeWorld) : Prop := wal_run limit (storeOf w) (pw_posts w).

Lemma reserve_settles st st' : reserveBlock st = Ok st' -> settles st st'.
Proof. unfold reserveBlock. repeat (destruct (_ : bool); [done|]). intros [= <-]. by apply settles_same. Qed.

Lemma fence_runs limit w io : running limit w -> running limit (nextFence w io).1 /\ pw_posts (nextFence w io).1 = pw_posts w.
Proof.
  intros Hw. unfold nextFence, Fence.Next. destruct (_ && _); [done|]. cbv zeta.
  pose proof (wr_other limit false _ _ reserveBlock (fi_load io) (fi_backup io) (fi_primary io) Hw reserve_settles) as H.
  match goal with |- context [fa_ceiling ?a <? fa_next ?a] => generalize a; intros a0 end.
  destruct (_ <? _); [|done]. destruct (_ <? _); [done|]. destruct (negb _); [done|]. unfold Update.
  destruct (updateMode _ _ _ _ _ _) as [s [st|e]]; [|done]. by destruct (negb _).
Qed.

Section refinement.
Context `{mr : MapRange} (Sum256 : string -> string) (canonicalJSON : string -> option string) (order : fields -> fields).
Variable limit : Z.
Hypothesis limit_ok : limit <= maxUint64.

Lemma read_frame w env b :
  pw_runtime (probeRead Sum256 canonicalJSON order w env b).1 = pw_runtime w /\ pw_posts (probeRead Sum256 canonicalJSON order w env b).1 = pw_posts w.
Proof.
  unfold probeRead, typedFetchQuota. destruct (re_auth env); [done|]. destruct (ExtractCodexCredentials _ _); [|done].
  destruct (String.eqb _ _); [done|]. destruct (_ && _); [done|]. destruct (re_lease env); [done|]. destruct (doBackgroundHTTPRequest _ _ _ _ _ _ _) as [g []]; [done|].
  destruct (re_quota env); [done|]. by destruct (negb _).
Qed.

Lemma read_runs w env b : running limit w -> running limit (probeRead Sum256 canonicalJSON order w env b).1.
Proof. intros Hw. unfold running, storeOf. destruct (read_frame w env b) as [-> ->]. exact Hw. Qed.

Lemma recordFailure_runs w e stage sent windows : running limit w -> running limit (recordFailure w e stage sent windows).
Proof. unfold recordFailure. by destruct (failureFields e) as [[? ?] ?]. Qed.

Lemma block_runs w authID io : running limit w -> running limit (blockAuth w authID io).1.
Proof.
  intros Hw. unfold blockAuth, MarkAuthBlocked, commitBindings, UpdateMirrored. cbv zeta. cbn [br_store].
  match goal with |- context [updateMode ?a ?b ?fn ?c ?d ?e] =>
    pose proof (wr_other limit a b _ fn c d e Hw ltac:(intros st st' [= <-]; by apply settles_same)) as H2; by destruct (updateMode a b fn c d e) as [s [st|e1]] end.
Qed.

Lemma block_posts w authID io : pw_posts (blockAuth w authID io).1 = pw_posts w.
Proof. unfold blockAuth. by destruct (MarkAuthBlocked _ _ _). Qed.

Lemma fail_runs w p attempt stage e sent env : running limit w -> running limit (failProbe w p attempt stage e sent env).1.
Proof.
  intros Hw. unfold failProbe. destruct (_ && _).
  { apply recordFailure_runs. exact (hold_runs limit (pw_posts w) (pw_runtime w) (fe_hold env) Hw). }
  destruct (bool_decide _); [by apply recordFailure_runs|]. cbv zeta.
  match goal with |- context [persistProbeFailure ?a ?b ?c ?d ?e ?f ?g ?h ?i ?j ?k] =>
    pose proof (failure_runs limit (pw_posts w) limit_ok a b c d e f g h i j k Hw) as H; destruct (persistProbeFailure a b c d e f g h i j k) as [r err] end.
  destruct err as [pe|]; [by apply recordFailure_runs|].
  destruct (match e with ProbeQuotaStatus status _ => _ | _ => _ end); [|by apply recordFailure_runs].
  match goal with |- context [blockAuth ?a ?b ?c] => pose proof (block_runs a b c H) as H2; destruct (blockAuth a b c) as [w2 be] end.
  by apply recordFailure_runs.
Qed.

Variables (p : probe_sequence) (cfg : Config) (env : sequence_env).
Hypothesis between_runs : forall point w, running limit w -> running limit (sq_between env point w).

Lemma quota_read_runs w authID renv blockIO :
  running limit w -> let w' := (runQuotaRead order w authID renv blockIO).1 in running limit w' /\ pw_posts w' = pw_posts w.
Proof.
  intros Hw. unfold runQuotaRead, typedFetchQuota. destruct (re_auth renv); [done|]. destruct (ExtractCodexCredentials _ _); [|done].
  destruct (String.eqb _ _); [done|]. destruct (re_lease renv) as [e|].
  - cbv zeta. destruct (match e with ProbeQuotaStatus status _ => _ | _ => _ end); [|done]. split; [by apply block_runs|apply block_posts].
  - destruct (doBackgroundHTTPRequest _ _ _ _ _ _ _) as [g []]; [done|].
    assert (running limit (w <| pw_gate := g |>) /\ pw_posts (w <| pw_gate := g |>) = pw_posts w) as [Hg Hp] by done.
    revert Hg Hp. generalize (w <| pw_gate := g |>). intros w1 Hg Hp. cbv zeta.
    destruct (re_quota renv) as [e|resp]; [|destruct (negb _); [|by destruct (ParseCodexUsagePayload _ _)]].
    all: match goal with |- context [if ?b then _ else _] => destruct b end; [cbn [fst]; rewrite block_posts; split; [by apply block_runs|done]|done].
Qed.

Lemma verify_runs w attempt lazy fence : running limit w -> running limit (verifyActivation Sum256 canonicalJSON order w p attempt lazy fence env).1.
Proof.
  intros Hw. unfold verifyActivation. destruct (sq_wait env); [by apply fail_runs|].
  pose proof (fence_runs limit _ (sq_fence3 env) (between_runs WaitPropagation _ (Hw : running limit (log w (LogActivationSent lazy))))) as [Hn _].
  destruct (nextFence _ _) as [w1 [seq|e]]; [|by apply fail_runs]. destruct (seq <=? fence); [by apply fail_runs|].
  pose proof (between_runs WaitVerify _ (read_runs w1 (sq_verify env) (ps_Binding p) Hn)) as Hr.
  destruct (probeRead _ _ _ _ _ _) as [w2 [[quota c]|e]]; cbn [fst] in Hr; [|by apply fail_runs].
  match goal with |- context [persistTerminalProbeCompletionLocked ?a ?b ?c ?d ?e ?f ?g] =>
    pose proof (completion_runs limit _ limit_ok a b c d e f g Hr) as H; destruct (persistTerminalProbeCompletionLocked a b c d e f g) as [rt [err|]] end;
  [by apply recordFailure_runs|exact H].
Qed.

Lemma activate_frame w post :
  pw_runtime (activate w post).1.1 = pw_runtime w /\ pw_posts (activate w post).1.1 = pw_posts w.
Proof.
  unfold activate. destruct (pv_lease post); [done|]. destruct (negb _); [done|].
  by destruct (doBackgroundHTTPRequest _ _ _ _ _ _ _) as [g []].
Qed.

Lemma send_runs w lazy : running limit w -> running limit (sendActivation Sum256 canonicalJSON order w p lazy env).1.
Proof.
  intros Hw. unfold sendActivation. pose proof (fence_runs limit w (sq_fence2 env) Hw) as [Hn _].
  destruct (nextFence _ _) as [w1 [fence|e]]; [|by apply fail_runs]. cbn [fst] in Hn. cbv zeta.
  set (attempt := (ps_Attempt p) <| at_Windows := lazy |> <| at_SendFenceSeq := fence |> <| at_CreatedAt := _ |>
                       <| at_VerifyNotBefore := _ |> <| at_SuppressUntil := _ |>). clearbody attempt.
  destruct (PersistSending (storeOf w1) attempt (sq_sending env)) as [s [e|]] eqn:Es.
  { apply fail_runs. exact (wr_sending_fails limit _ _ _ _ _ _ Hn Es). }
  destruct (activate_frame (withStore w1 s) (sq_post env)) as [Ha1 Ha2].
  destruct (activate (withStore w1 s) (sq_post env)) as [[w2 issued] err]. cbn [fst] in Ha1, Ha2.
  assert (running limit (if issued then w2 <| pw_posts := (at_Instance attempt, at_AttemptID attempt) :: pw_posts w2 |> else w2)) as H2.
  { pose proof (wr_send limit _ _ _ _ _ issued true true issued (negb issued) Hn Es ltac:(by destruct issued)) as H.
    unfold running, storeOf. destruct issued; simpl in *; rewrite Ha1; [by rewrite Ha2|]. by rewrite Ha2. }
  apply (between_runs WaitActivation) in H2. destruct err as [e|]; [by apply fail_runs|].
  pose proof (wr_sent limit _ _ (rb_Instance (ps_Binding p)) (at_AttemptID attempt) (sq_sentNow env) (sq_sent env) H2) as H3.
  destruct (PersistSent _ _ _ _ _) as [s2 [e|]]; cbn [fst] in H3; [by apply fail_runs|by apply verify_runs].
Qed.

Lemma recovery_runs w : running limit w -> running limit (recoverSequence Sum256 canonicalJSON order w p env).1.
Proof.
  intros Hw. unfold recoverSequence. cbv zeta. destruct (_ =? 0); [by apply fail_runs|].
  pose proof (fence_runs limit w (sq_fence1 env) Hw) as [Hn _]. destruct (nextFence _ _) as [w1 [seq|e]]; [|by apply fail_runs].
  destruct (seq <=? _); [by apply fail_runs|].
  pose proof (between_runs WaitVerify _ (read_runs w1 (sq_verify env) (ps_Binding p) Hn)) as Hr.
  destruct (probeRead _ _ _ _ _ _) as [w2 [[quota c]|e]]; cbn [fst] in Hr; [|by apply fail_runs].
  match goal with |- context [persistVerifiedProbeCompletion ?a ?b ?c ?d ?e ?f ?g ?h] =>
    pose proof (verified_runs limit _ limit_ok a b c d e f g h Hr) as H; destruct (persistVerifiedProbeCompletion a b c d e f g h) as [rt [err|]] end;
  [by apply recordFailure_runs|exact H].
Qed.

Lemma sequence_runs (w : ProbeWorld) :
  running limit w -> running limit (runProbeSequence Sum256 canonicalJSON order w p cfg env).1.
Proof.
  intros Hw. unfold runProbeSequence. destruct (ps_Recovery p); [by apply recovery_runs|].
  pose proof (fence_runs limit (log w (LogPrecheckStarted (ps_Windows p))) (sq_fence1 env) Hw) as [Hn _].
  destruct (nextFence _ _) as [w1 [seq|e]]; [|by apply fail_runs].
  pose proof (between_runs WaitPrecheck _ (read_runs w1 (sq_precheck env) (ps_Binding p) Hn)) as Hr.
  destruct (probeRead _ _ _ _ _ _) as [w2 [[quota c]|e]]; cbn [fst] in Hr; [|by apply fail_runs]. cbv zeta.
  destruct (markLazy _ _ _ _) as [ctl [|k lazy]]; [|by apply send_runs].
  match goal with |- context [persistTerminalProbeCompletionLocked ?a ?b ?c ?d ?e ?f ?g] =>
    pose proof (completion_runs limit _ limit_ok a b c d e f g Hr) as H; destruct (persistTerminalProbeCompletionLocked a b c d e f g) as [rt [err|]] end;
  [by apply recordFailure_runs|exact H].
Qed.

End refinement.

(** ** A request that may have been sent stays on record *)

Definition onRecord (i : AuthInstanceID) (id : string) (st : PersistentState) : Prop :=
  exists a, ps_ProbeAttempts st !! i = Some a /\ at_AttemptID a = id /\ maybeSent a = true.

Lemma onRecord_written i id old st : onRecord i id st -> onRecord i id (written old st).
Proof. unfold onRecord, written. by destruct (ps_FenceUnsafe old). Qed.
Lemma onRecord_same i id st st' : ps_ProbeAttempts st' = ps_ProbeAttempts st -> onRecord i id st -> onRecord i id st'.
Proof. unfold onRecord. by intros ->. Qed.

Section record.
Context `{mr : MapRange} (Sum256 : string -> string) (canonicalJSON : string -> option string) (order : fields -> fields).
Variable limit : Z.
Hypothesis limit_ok : limit <= maxUint64.
Variables (i : AuthInstanceID) (id : string).
Notation kept s := (keeps (onRecord i id) s).

(** Updates that keep the attempt keep it on both sides. *)
Lemma update_kept mirror s fn io ioB ioP :
  kept s -> (forall st st', onRecord i id st -> fn st = Ok st' -> onRecord i id st') -> kept (updateMode mirror s fn io ioB ioP).1.
Proof. intros Hk Hf. apply updateMode_keeps; [done|intros; by apply onRecord_written|]. intros st' E. eapply Hf; [apply Hk|exact E]. Qed.

Lemma updateStore_kept r fn io :
  kept (rt_store r) -> (forall st st', onRecord i id st -> fn st = Ok st' -> onRecord i id st') -> kept (rt_store (updateStore r fn io).1).
Proof.
  intros Hk Hf. unfold updateStore, Update. pose proof (update_kept false (rt_store r) fn (su_load io) (su_backup io) (su_primary io) Hk Hf).
  by destruct (updateMode _ _ _ _ _ _).
Qed.

Lemma sync_kept r io : kept (rt_store r) -> kept (rt_store (syncProbeControllerInstanceFromStore r i io)).
Proof. intros Hk. unfold syncProbeControllerInstanceFromStore. by rewrite (snapshot_loaded _ _ _ Hk). Qed.

Lemma failure_kept r windows blocked login suppress now io syncIO :
  kept (rt_store r) -> kept (rt_store (persistProbeFailure r i id windows true blocked login suppress now io syncIO).1).
Proof.
  intros Hk. unfold persistProbeFailure. destruct (i =? 0); [done|]. cbv zeta.
  pose proof (updateStore_kept r (failAttempt i id windows true blocked login suppress now (default ∅ (pr_windows (rt_controller r) !! i))) io Hk) as H.
  destruct (updateStore _ _ _) as [r' res]. cbn [fst] in H. destruct res as [st|e]; cbn [fst]; [|apply sync_kept]; apply H.
  all: clear; intros st st' _ E; unfold failAttempt in E; destruct (exactProbeAttempt st i id _) as [a|] eqn:Ea; [|done];
    apply exact_ok in Ea as (_ & Hid & _); cbn [rbind] in E; injection E as <-; unfold onRecord; cbn; rewrite lookup_insert_eq;
    eexists; split; [reflexivity|]; by destruct (After _ _).
Qed.

Lemma hold_kept r io : kept (rt_store r) -> kept (rt_store (persistRosterHold r io).1).
Proof.
  intros Hk. unfold persistRosterHold, holdProbeForRoster. cbv zeta.
  pose proof (updateStore_kept r (fun st => Ok (foldl holdInstance st (map_range (pr_windows (rt_controller r))))) io Hk) as H.
  destruct (updateStore _ _ _) as [r' res]. cbn [fst] in H. destruct res as [st|e]; simpl; [rewrite sync_fold_store|]; apply H.
  all: intros st0 st' (a & Ha & Hid & Hm) [= <-]; exists a; split; [|done];
    destruct (hold_fold (map_range (pr_windows (rt_controller r))) st0) as [H1 H2]; [rewrite map_range_perm; apply NoDup_fst_map_to_list|].
  all: destruct (decide (i ∈ (map_range (pr_windows (rt_controller r))).*1)) as [Hin|Hin]; [|by rewrite (proj1 (H1 i Hin))];
    apply list_elem_of_fmap in Hin as ([j ws] & -> & Hin); cbn [fst] in *; rewrite (proj1 (H2 j ws Hin)), Ha;
    unfold keptAttempt; simpl; by rewrite Hm.
Qed.

Lemma fence_kept w io : kept (storeOf w) -> kept (storeOf (nextFence w io).1).
Proof.
  intros Hw. unfold nextFence, Fence.Next. destruct (_ && _); [done|]. cbv zeta.
  pose proof (update_kept false (storeOf w) reserveBlock (fi_load io) (fi_backup io) (fi_primary io) Hw) as H.
  match goal with |- context [fa_ceiling ?a <? fa_next ?a] => generalize a; intros a0 end.
  destruct (_ <? _); [|done]. destruct (_ <? _); [done|]. destruct (negb _); [done|]. unfold Update.
  destruct (updateMode _ _ _ _ _ _) as [s res]. cbn [fst] in H.
  assert (kept s) as Hs.
  { apply H. intros st st' Hst. unfold reserveBlock. repeat (destruct (_ : bool); [done|]). intros [= <-]. by eapply onRecord_same. }
  destruct res as [st|e]; [|done]. by destruct (negb _).
Qed.

Lemma recordFailure_posts w e stage sent windows : pw_posts (recordFailure w e stage sent windows) = pw_posts w.
Proof. unfold recordFailure. by destruct (failureFields e) as [[? ?] ?]. Qed.
Lemma recordFailure_store w e stage sent windows : storeOf (recordFailure w e stage sent windows) = storeOf w.
Proof. unfold recordFailure. by destruct (failureFields e) as [[? ?] ?]. Qed.

Lemma fail_kept w p attempt stage e env :
  rb_Instance (ps_Binding p) = i -> at_AttemptID attempt = id -> kept (storeOf w) -> kept (storeOf (failProbe w p attempt stage e true env).1).
Proof.
  intros Hi Hid Hw. unfold failProbe. rewrite Hi, Hid. destruct (_ && _).
  { cbn [fst]. rewrite recordFailure_store. exact (hold_kept (pw_runtime w) (fe_hold env) Hw). }
  destruct (bool_decide _); [cbn [fst]; by rewrite recordFailure_store|]. cbv zeta.
  match goal with |- context [persistProbeFailure ?a i id ?d true ?f ?g ?h ?k ?l ?m] =>
    pose proof (failure_kept a d f g h k l m Hw) as H; destruct (persistProbeFailure a i id d true f g h k l m) as [r err] end.
  cbn [fst] in H. destruct err as [pe|]; [cbn [fst]; by rewrite recordFailure_store|].
  destruct (match e with ProbeQuotaStatus status _ => _ | _ => _ end); [|cbn [fst]; by rewrite recordFailure_store].
  unfold blockAuth, MarkAuthBlocked, commitBindings, UpdateMirrored. cbv zeta. cbn [br_store fst] in *.
  match goal with |- context [updateMode ?a ?b ?fn ?c ?d ?e] =>
    pose proof (update_kept a b fn c d e H ltac:(intros st st' Hst [= <-]; by eapply onRecord_same)) as H2; destruct (updateMode a b fn c d e) as [s [st|e1]] end;
  cbn [fst] in *; by rewrite recordFailure_store.
Qed.

Lemma fail_posts w p attempt stage e sent env : pw_posts (failProbe w p attempt stage e sent env).1 = pw_posts w.
Proof.
  assert (forall w e stage sent windows, pw_posts (recordFailure w e stage sent windows) = pw_posts w) as Hr.
  { intros. unfold recordFailure. by destruct (failureFields _) as [[? ?] ?]. }
  unfold failProbe. destruct (_ && _); [cbn [fst]; by rewrite Hr|]. destruct (bool_decide _); [cbn [fst]; by rewrite Hr|]. cbv zeta.
  destruct (persistProbeFailure _ _ _ _ _ _ _ _ _ _ _) as [r [pe|]]; [cbn [fst]; by rewrite Hr|].
  destruct (match e with ProbeQuotaStatus status _ => _ | _ => _ end); [|cbn [fst]; by rewrite Hr].
  unfold blockAuth. destruct (MarkAuthBlocked _ _ _) as [reg be]. cbn [fst]. by rewrite Hr.
Qed.

Variables (p : probe_sequence) (cfg : Config) (env : sequence_env).
Hypothesis between_runs : forall point w, running limit w -> running limit (sq_between env point w).
Hypothesis between_kept : forall point w, kept (storeOf w) -> kept (storeOf (sq_between env point w)).
Hypothesis between_posts : forall point w, pw_posts (sq_between env point w) = pw_posts w.
Hypothesis own_instance : rb_Instance (ps_Binding p) = i /\ at_Instance (ps_Attempt p) = i.
Hypothesis own_attempt : at_AttemptID (ps_Attempt p) = id.

(** What the sequence that ends in [w] did to settle its attempt: with every request
    of the run already issued and the attempt still on record it read the quota
    ([before] to [after]), and what it then did to the store, after the wait for
    the probe lock, is the completion of this very attempt with the quota it read. *)
Definition verified_read (w : ProbeWorld) : Prop :=
  exists before after quota c r phases,
    kept (storeOf before) /\ pw_posts before = pw_posts w
    /\ probeRead Sum256 canonicalJSON order before (sq_verify env) (ps_Binding p) = (after, Ok (quota, c))
    /\ rt_store r = storeOf (sq_between env WaitVerify after)
    /\ storeOf w = rt_store (persistTerminalProbeCompletionLocked r i id quota phases (sq_complete env) (sq_sync env)).1.
Definition settled (w : ProbeWorld) : Prop := kept (storeOf w) \/ verified_read w.

(** The end of both verifications, once the quota was read. *)
Lemma completion_settled w w1 w2 quota c r phases :
  kept (storeOf w1) -> pw_posts w = pw_posts w1 ->
  probeRead Sum256 canonicalJSON order w1 (sq_verify env) (ps_Binding p) = (w2, Ok (quota, c)) ->
  rt_store r = storeOf (sq_between env WaitVerify w2) ->
  storeOf w = rt_store (persistTerminalProbeCompletionLocked r i id quota phases (sq_complete env) (sq_sync env)).1 ->
  settled w.
Proof. intros Hk Hp Hr Hs Hw. right. by exists w1, w2, quota, c, r, phases. Qed.

Lemma fence_posts w io : pw_posts (nextFence w io).1 = pw_posts w.
Proof. unfold nextFence. by destruct (Fence.Next _ _ _) as [[? ?] ?]. Qed.

Lemma read_kept w renv : kept (storeOf w) -> kept (storeOf (probeRead Sum256 canonicalJSON order w renv (ps_Binding p)).1).
Proof. intros Hw. unfold storeOf. rewrite (proj1 (read_frame Sum256 canonicalJSON order w renv (ps_Binding p))). exact Hw. Qed.

Lemma verify_settled w attempt lazy fence :
  at_AttemptID attempt = id -> kept (storeOf w) -> settled (verifyActivation Sum256 canonicalJSON order w p attempt lazy fence env).1.
Proof.
  intros Hid Hw. pose proof own_instance as [Hi1 Hi2]. unfold verifyActivation. assert (forall w e stage, kept (storeOf w) -> settled (failed (failProbe w p attempt stage e true (sq_fail env))).1) as Hf.
  { intros. left. by apply fail_kept. }
  destruct (sq_wait env); [by apply Hf|].
  pose proof (fence_kept _ (sq_fence3 env) (between_kept WaitPropagation _ (Hw : kept (storeOf (log w (LogActivationSent lazy)))))) as Hn.
  destruct (nextFence _ _) as [w1 [seq|e]]; [|by apply Hf]. destruct (seq <=? fence); [by apply Hf|].
  pose proof (between_kept WaitVerify _ (read_kept w1 (sq_verify env) Hn)) as Hr.
  destruct (probeRead _ _ _ _ _ _) as [w2 [[quota c]|e]] eqn:E; cbn [fst] in Hr; [|by apply Hf].
  assert (pw_posts (sq_between env WaitVerify w2) = pw_posts w1) as Hp.
  { rewrite between_posts. pose proof (proj2 (read_frame Sum256 canonicalJSON order w1 (sq_verify env) (ps_Binding p))) as H. by rewrite E in H. }
  cbv zeta. rewrite Hi1, Hid.
  match goal with |- context [persistTerminalProbeCompletionLocked ?r i id quota ?ph ?io ?sy] =>
    assert (forall w', pw_posts w' = pw_posts w1 -> storeOf w' = rt_store (persistTerminalProbeCompletionLocked r i id quota ph io sy).1 -> settled w') as Hc
      by (intros w' Hp' Hs'; by apply (completion_settled w' w1 w2 quota c r ph));
    destruct (persistTerminalProbeCompletionLocked r i id quota ph io sy) as [rt [err|]] end;
    cbn [fst]; apply Hc; by rewrite ?recordFailure_posts, ?recordFailure_store.
Qed.

(** The record of the attempt is durable when the request is issued. *)
Lemma sending_kept w attempt io s :
  running limit w -> at_Instance attempt = i -> at_AttemptID attempt = id -> PersistSending (storeOf w) attempt io = (s, None) -> kept s.
Proof.
  intros [Hk _]%(wal_run_inv _ _ _ limit_ok) Hi Hid. unfold PersistSending. destruct (negb _); [done|].
  destruct (Update _ _ _ _ _) as [s1 [st|e]] eqn:EU; [|done]. simpl. intros [= -> _].
  destruct (update_success _ _ _ _ _ _ _ _ Hk EU) as (next & Hn & Hs). apply (synced_keeps _ _ _ Hs), onRecord_written.
  unfold storeSending in Hn. destruct (exactProbeAttempt _ _ _ _); [|done]. injection Hn as <-.
  destruct (sendingAttempt_key attempt) as (K1 & K2 & K3). exists (sendingAttempt attempt). cbn. rewrite K1, Hi, lookup_insert_eq.
  split; [done|]. split; [congruence|]. unfold maybeSent. by rewrite K3.
Qed.

Lemma send_settled w lazy :
  running limit w -> let w' := (sendActivation Sum256 canonicalJSON order w p lazy env).1 in pw_posts w' = pw_posts w \/ settled w'.
Proof.
  intros Hw. pose proof own_instance as [Hi1 Hi2]. unfold sendActivation. destruct (fence_runs limit w (sq_fence2 env) Hw) as [Hn Hp].
  destruct (nextFence _ _) as [w1 [fence|e]]; cbn [fst] in Hn, Hp; [|left; cbn [fst failed]; by rewrite fail_posts]. cbv zeta.
  set (attempt := (ps_Attempt p) <| at_Windows := lazy |> <| at_SendFenceSeq := fence |> <| at_CreatedAt := _ |>
                       <| at_VerifyNotBefore := _ |> <| at_SuppressUntil := _ |>).
  assert (at_Instance attempt = i /\ at_AttemptID attempt = id) as [Ha Hid] by by rewrite <- own_attempt. clearbody attempt.
  destruct (PersistSending (storeOf w1) attempt (sq_sending env)) as [s [e|]] eqn:Es; [left; cbn [fst failed]; by rewrite fail_posts|].
  right. pose proof (sending_kept w1 attempt (sq_sending env) s Hn Ha Hid Es) as Hk.
  destruct (activate_frame (withStore w1 s) (sq_post env)) as [Ha1 Ha2].
  destruct (activate (withStore w1 s) (sq_post env)) as [[w2 issued] err]. cbn [fst] in Ha1, Ha2.
  assert (kept (storeOf (if issued then w2 <| pw_posts := (at_Instance attempt, at_AttemptID attempt) :: pw_posts w2 |> else w2))) as H2.
  { unfold storeOf. destruct issued; cbn; by rewrite Ha1. }
  apply (between_kept WaitActivation) in H2.
  match goal with |- context [sq_between env WaitActivation ?x] => set (w3 := sq_between env WaitActivation x) in *; clearbody w3 end.
  destruct err as [e|]; [left; by apply fail_kept|].
  pose proof (update_kept false _ (storeSent (rb_Instance (ps_Binding p)) (at_AttemptID attempt) (sq_sentNow env)) (wi_load (sq_sent env)) (wi_backup (sq_sent env))
    (wi_primary (sq_sent env)) H2) as H3. unfold PersistSent. rewrite Hi1, Hid in H3 |- *. destruct (negb _); [left; apply fail_kept; [exact Hi1|exact Hid|exact H2]|]. unfold Update.
  destruct (updateMode _ _ _ _ _ _) as [s2 res]. cbn [fst] in H3.
  assert (kept s2) as Hs2.
  { apply H3. intros st st' _ E. unfold storeSent in E. destruct (exactProbeAttempt st i id _) as [a|] eqn:Ea; [|done].
    apply exact_ok in Ea as (_ & Hai & _). injection E as <-. eexists. cbn. rewrite lookup_insert_eq. split; [reflexivity|]. by split. }
  destruct res as [st|e]; cbn [storeErr]; [by apply verify_settled|left; by apply fail_kept].
Qed.

(** C5: The probe sequence never forgets a request that may have reached upstream:
    when it ends, however it ends, and it issued the request (or the attempt was on
    record when recovery took it up), then either the attempt is still on record as
    possibly sent, in memory and in the state file, so that it will be verified and
    not sent again, or the sequence read the account's quota after the request, with
    the attempt still on record, and its last write is the completion of this
    attempt with the quota it read.  Assumed of the other goroutines while the
    sequence waits: they follow the write-ahead log, send no probe request and do
    not drop this attempt from the record, as the removal of the account's instance
    from the roster does.  The attempt is one of the sequence's own instance, and the
    64-bit numbers of attempts are not exhausted. *)
Theorem sent_probe_not_forgotten (w : ProbeWorld) :
  running limit w ->
  let w' := (runProbeSequence Sum256 canonicalJSON order w p cfg env).1 in
  (if ps_Recovery p then kept (storeOf w) else pw_posts w' <> pw_posts w) -> settled w'.
Proof.
  intros Hw. pose proof own_instance as [Hi1 Hi2]. unfold runProbeSequence. destruct (ps_Recovery p) eqn:Erec.
  - intros Hk. unfold recoverSequence. cbv zeta. set (attempt := if at_SendFenceSeq (ps_Attempt p) =? 0 then _ else ps_Attempt p).
    assert (at_AttemptID attempt = id) as Hid by (subst attempt; by destruct (_ =? 0)). clearbody attempt.
    assert (forall w e stage, kept (storeOf w) -> settled (failed (failProbe w p attempt stage e true (sq_fail env))).1) as Hf.
    { intros. left. by apply fail_kept. }
    destruct (_ =? 0); [by apply Hf|].
    pose proof (fence_kept w (sq_fence1 env) Hk) as Hn. destruct (nextFence _ _) as [w1 [seq|e]]; [|by apply Hf].
    destruct (seq <=? _); [by apply Hf|]. pose proof (between_kept WaitVerify _ (read_kept w1 (sq_verify env) Hn)) as Hr.
    destruct (probeRead _ _ _ _ _ _) as [w2 [[quota c]|e]] eqn:E; cbn [fst] in Hr; [|by apply Hf].
    assert (pw_posts (sq_between env WaitVerify w2) = pw_posts w1) as Hp.
    { rewrite between_posts. pose proof (proj2 (read_frame Sum256 canonicalJSON order w1 (sq_verify env) (ps_Binding p))) as H. by rewrite E in H. }
    rewrite Hi1, Hid. unfold persistVerifiedProbeCompletion. destruct (i =? 0).
    { left. exact Hr. }
    cbv zeta. match goal with |- context [persistTerminalProbeCompletionLocked ?r i id quota ?ph ?io ?sy] =>
      assert (forall w', pw_posts w' = pw_posts w1 -> storeOf w' = rt_store (persistTerminalProbeCompletionLocked r i id quota ph io sy).1 -> settled w') as Hc
        by (intros w' Hp' Hs'; by apply (completion_settled w' w1 w2 quota c r ph));
      destruct (persistTerminalProbeCompletionLocked r i id quota ph io sy) as [rt [err|]] end;
      cbn [fst]; apply Hc; by rewrite ?recordFailure_posts, ?recordFailure_store.
  - cbv zeta. destruct (fence_runs limit (log w (LogPrecheckStarted (ps_Windows p))) (sq_fence1 env) Hw) as [Hn Hp].
    destruct (nextFence _ _) as [w1 [seq|e]]; cbn [fst] in Hn, Hp; [|cbn [fst failed]; rewrite fail_posts, Hp; by intros []].
    destruct (read_frame Sum256 canonicalJSON order w1 (sq_precheck env) (ps_Binding p)) as [_ Hp2].
    pose proof (between_runs WaitPrecheck _ (read_runs Sum256 canonicalJSON order limit w1 (sq_precheck env) (ps_Binding p) Hn)) as Hr.
    destruct (probeRead _ _ _ w1 _ _) as [w2 [[quota c]|e]]; cbn [fst] in Hr, Hp2;
      [|cbn [fst failed]; rewrite fail_posts, between_posts, Hp2, Hp; by intros []].
    destruct (markLazy _ _ _ _) as [ctl [|k lazy]].
    + destruct (persistTerminalProbeCompletionLocked _ _ _ _ _ _ _) as [rt [err|]]; cbn [fst];
        [unfold recordFailure; destruct (failureFields _) as [[? ?] ?]|]; cbn; rewrite between_posts, Hp2, Hp; by intros [].
    + destruct (send_settled (withController (sq_between env WaitPrecheck w2) ctl) (k :: lazy) Hr) as [E|Hs]; [|by intros _].
      rewrite E. cbn. rewrite between_posts, Hp2, Hp. by intros [].
Qed.
End record.

(** ** The passes on the write-ahead log *)

Section passes_spec.
Context `{mr : MapRange} (Sum256 : string -> string) (canonicalJSON : string -> option string) (order : fields -> fields).

(** What other goroutines do while the program waits: they follow the log, claim
    nothing (the pass holds the mutex of the passes) and send nothing. *)
Definition quiet (step : ProbeWorld -> ProbeWorld) : Prop :=
  (forall limit w, running limit w -> running limit (step w)) /\ forall w, pw_posts (step w) = pw_posts w.
Definition quiet_submission (submit : submission) : Prop :=
  match submit with SubmitRejected _ => True | SubmitRuns env => forall point, quiet (sq_between env point) end.

Lemma lift_runs limit w : running limit w -> running (limit + 1) w.
Proof. apply wal_run_mono. lia. Qed.

(** The claim of one account is one more claim of the log. *)
Lemma dueBinding_runs limit w cfg persisted now authID b claimIO submit :
  limit < maxUint64 -> running limit w -> quiet_submission submit ->
  running (limit + 1) (dueBinding Sum256 canonicalJSON order w cfg persisted now authID b claimIO submit).1.
Proof.
  intros Hl Hw Hb. unfold dueBinding. cbv zeta.
  destruct (match ps_ProbeAttempts persisted !! rb_Instance b with Some a => maybeSent a | None => false end); [by apply lift_runs|].
  destruct (rb_AuthBlocked b); [by apply lift_runs|]. destruct (collectDue _ _ _) as [c [|k due]]; [by apply lift_runs|].
  assert (ps_ProbeAttemptSeq (sto_state (storeOf w)) < limit + 1) as Hseq.
  { destruct (wal_run_inv limit _ _ ltac:(lia) Hw) as [[_ _ [[Hseq _] _] _] _]. lia. }
  pose proof (wr_claim (limit + 1) _ _ (rb_Instance b) (k :: due) now (pr_windows c !! rb_Instance b) claimIO (lift_runs _ _ Hw) Hseq) as Hc.
  cbn [storeOf withController] in *.
  match goal with |- context [Update ?a ?f ?c ?d ?e] => destruct (Update a f c d e) as [s [st|e1]] eqn:EU end.
  2:{ unfold storeOf in Hc. cbn in EU. unfold running, storeOf. cbn. by rewrite EU in Hc. }
  assert (running (limit + 1) (withStore (withController w c) s)) as Hr by (unfold running, storeOf in *; cbn in *; by rewrite EU in Hc).
  destruct (ps_ProbeAttempts st !! _) as [attempt|]; [|exact Hr]. destruct (negb _); [exact Hr|].
  destruct submit as [e|env]; [exact Hr|].
  pose proof (sequence_runs Sum256 canonicalJSON order (limit + 1) ltac:(lia) (mkSequence authID b (k :: due) attempt false 0) cfg env
    (fun point w0 => proj1 (Hb point) (limit + 1) w0) _ Hr) as H.
  by destruct (runProbeSequence _ _ _ _ _ _ _).
Qed.

Lemma duePass_runs cfg persisted now ios (Hios : forall authID, quiet_submission (ios authID).2) bindings : forall limit w err,
  limit + Z.of_nat (length bindings) <= maxUint64 -> running limit w ->
  running (limit + Z.of_nat (length bindings)) (duePass Sum256 canonicalJSON order w cfg persisted now bindings ios err).1.
Proof.
  unfold duePass. induction bindings as [|[authID b] bindings IH]; intros limit w err; [by rewrite Z.add_0_r|]. cbn [length foldl fst snd]. intros Hl Hw.
  pose proof (dueBinding_runs limit w cfg persisted now authID b (ios authID).1 (ios authID).2 ltac:(lia) Hw (Hios authID)) as H.
  destruct (dueBinding _ _ _ _ _ _ _ _ _ _ _) as [w' err']. cbn [fst] in H.
  replace (limit + Z.of_nat (S (length bindings))) with (limit + 1 + Z.of_nat (length bindings)) by lia. apply IH; [lia|exact H].
Qed.

Section gate.
Variable limit : Z.
Hypothesis limit_ok : limit <= maxUint64.

(** The world in which a pass decides, after the roster controller was woken. *)
Definition woken (w : ProbeWorld) (env : gate_env) : ProbeWorld :=
  ge_wake env (w <| pw_runtime := (retryProbeRosterHold (pw_runtime w) (ge_hold env)).1 |>).

Lemma gate_runs w cfg env :
  running limit w -> quiet (ge_wake env) ->
  let r := probeGate w cfg env in
  running limit r.1 /\ pw_posts r.1 = pw_posts w /\ (r.2 = None -> pw_bindings r.1 = pw_bindings (woken w env)).
Proof.
  intros Hw [Hwake Hposts]. unfold probeGate, woken.
  assert (wal_run limit (rt_store (retryProbeRosterHold (pw_runtime w) (ge_hold env)).1) (pw_posts w)) as Hh.
  { unfold retryProbeRosterHold. destruct (negb _); [exact Hw|]. by apply hold_runs. }
  destruct (retryProbeRosterHold _ _) as [r [e|]]; [done|]. cbn [fst] in Hh |- *. cbv zeta.
  set (w1 := w <| pw_runtime := r |>). pose proof (Hwake limit w1 Hh) as H1. pose proof (Hposts w1) as H2. change (pw_posts w1) with (pw_posts w) in H2.
  destruct (probeBackgroundAllowed _ _ _) as [g allowed]. destruct (negb allowed); [done|]. destruct (negb _); [done|]. by destruct (negb _).
Qed.

Lemma orphans_pass_runs w persisted active now ios :
  running limit w -> let r := reconcileOrphans w persisted active now ios in
  running limit r.1 /\ pw_posts r.1 = pw_posts w.
Proof.
  intros Hw. unfold reconcileOrphans, reconcileProbeOrphans.
  pose proof (orphans_runs limit (pw_posts w) ((map_range (gset_to_gmap tt (orphans persisted active))).*1) (pw_runtime w) now ios None Hw) as H.
  destruct (foldl _ _ _) as [r err]. done.
Qed.

(** Recovery sends nothing. *)
Lemma recovery_posts w p env :
  (forall point, quiet (sq_between env point)) ->
  pw_posts (recoverSequence Sum256 canonicalJSON order w p env).1 = pw_posts w.
Proof.
  intros Hq. unfold recoverSequence. cbv zeta. destruct (_ =? 0); [cbn [fst failed]; by rewrite fail_posts|].
  assert (pw_posts (nextFence w (sq_fence1 env)).1 = pw_posts w) as Hn.
  { unfold nextFence. by destruct (Fence.Next _ _ _) as [[? ?] ?]. }
  destruct (nextFence _ _) as [w1 [seq|e]]; cbn [fst] in Hn; [|cbn [fst failed]; by rewrite fail_posts].
  destruct (seq <=? _); [cbn [fst failed]; by rewrite fail_posts|].
  destruct (read_frame Sum256 canonicalJSON order w1 (sq_verify env) (ps_Binding p)) as [_ Hr].
  destruct (probeRead _ _ _ _ _ _) as [w2 [[quota c]|e]]; cbn [fst] in Hr; [|cbn [fst failed]; by rewrite fail_posts, (proj2 (Hq WaitVerify)), Hr].
  destruct (persistVerifiedProbeCompletion _ _ _ _ _ _ _ _) as [rt [err|]]; cbn [fst];
    [unfold recordFailure; destruct (failureFields _) as [[? ?] ?]|]; cbn; by rewrite (proj2 (Hq WaitVerify)), Hr.
Qed.

Lemma recoverIntent_runs w cfg bindings intent loadIO submit :
  running limit w -> quiet_submission submit ->
  let r := recoverIntent Sum256 canonicalJSON order w cfg bindings intent loadIO submit in
  running limit r.1 /\ pw_posts r.1 = pw_posts w.
Proof.
  intros Hw Hq. unfold recoverIntent. destruct (list_find _ _) as [[n [authID b]]|]; [|done]. destruct (_ || _); [done|].
  rewrite (snapshot_runs limit _ limit_ok _ _ Hw). cbv zeta. destruct submit as [e|env]; [done|].
  match goal with |- context [runProbeSequence _ _ _ ?w1 ?p1 _ _] => set (w1' := w1); set (p' := p1) end.
  pose proof (sequence_runs Sum256 canonicalJSON order limit limit_ok p' cfg env (fun point w0 => proj1 (Hq point) limit w0) w1' Hw) as H.
  pose proof (recovery_posts w1' p' env Hq) as Hp. unfold runProbeSequence in H |- *. cbn [ps_Recovery p'] in H |- *.
  destruct (recoverSequence _ _ _ _ _ _) as [w2 r]. done.
Qed.

Lemma recoverIntents_runs cfg bindings env (Hq : forall i, quiet_submission (rv_submit env i)) intents : forall w err,
  running limit w ->
  let r := recoverIntents Sum256 canonicalJSON order w cfg bindings env intents err in
  running limit r.1 /\ pw_posts r.1 = pw_posts w.
Proof.
  unfold recoverIntents. induction intents as [|intent intents IH]; intros w err Hw; [done|]. cbn [foldl fst snd].
  destruct (recoverIntent_runs w cfg bindings intent (rv_load env (vi_Instance intent)) (rv_submit env (vi_Instance intent)) Hw (Hq _)) as [H1 H2].
  destruct (recoverIntent _ _ _ _ _ _ _ _ _) as [w' err']. cbn [fst] in H1, H2. rewrite <- H2. by apply IH.
Qed.
End gate.

(** C4: The due pass implements the protocol of the write-ahead log: whatever the
    host answers, whichever file operation, fence or hook fails, and in whatever
    order the accounts are visited, the pass only takes steps of the log, claims
    at most one attempt for each account, and issues only requests the log
    counts; so no attempt is sent twice by the program.  What runs while it waits
    follows the log too and, as the pass holds the mutex of the passes, claims
    nothing. *)
Theorem due_pass_refines_wal (w : ProbeWorld) (cfg : Config) (env : due_env) (limit n : Z) :
  running limit w -> quiet (ge_wake (du_gate env)) -> (forall authID, quiet_submission (du_ios env authID).2) ->
  Z.of_nat (size (pw_bindings (woken w (du_gate env)))) <= n -> limit + n <= maxUint64 ->
  let w' := (runProbeDuePass Sum256 canonicalJSON order w cfg env).1 in
  running (limit + n) w' /\ NoDup (pw_posts w').
Proof.
  intros Hw Hg Hios Hn Hl. cbv zeta.
  enough (running (limit + n) (runProbeDuePass Sum256 canonicalJSON order w cfg env).1) as H.
  { split; [exact H|]. exact (proj2 (wal_run_inv (limit + n) _ _ Hl H)). }
  assert (forall w0, running limit w0 -> running (limit + n) w0) as Hup by (intros w0; apply wal_run_mono; lia).
  unfold runProbeDuePass. destruct (negb _); [by apply Hup|].
  destruct (gate_runs limit w cfg (du_gate env) Hw Hg) as (H1 & _ & Hb).
  destruct (probeGate _ _ _) as [w1 [e|]]; cbn [fst snd] in H1, Hb; [by apply Hup|]. rewrite <- Hb in Hn by done.
  pose proof (bootstrap_runs limit (pw_posts w1) (pw_runtime w1) cfg (du_accounts env) (pw_bindings w1)
    (bool_decide (hr_Capability (gt_roster (pw_gate w1)) = CapabilityA)) (du_bootNow env) (du_bootstrap env) H1) as H2.
  destruct (bootstrapProbeWindows _ _ _ _ _ _ _) as [[r [e|]] woke]; cbn [fst] in H2; cbv zeta; [by apply Hup|].
  unfold storeOf. cbn [pw_runtime set_field ProbeWorld_eta]. rewrite (snapshot_runs limit (pw_posts w1) ltac:(lia) (rt_store r) (du_snapshot env) H2).
  destruct (activeProbeBindings _ _) as [byID active] eqn:EA.
  match goal with |- context [reconcileOrphans ?w0 ?a ?b ?c ?d] => destruct (orphans_pass_runs limit w0 a b c d H2) as [H3 _];
    destruct (reconcileOrphans w0 a b c d) as [w3 err] end. cbn [fst] in H3.
  assert (length (map_range byID) <= size (pw_bindings w1))%nat as Hlen.
  { injection EA as <- _. rewrite map_range_perm. rewrite length_map_to_list. apply map_size_filter. }
  apply (wal_run_mono (limit + Z.of_nat (length (map_range byID)))); [lia|].
  apply duePass_runs; [exact Hios|lia|exact H3].
Qed.

(** Recovery sends nothing: whatever the write-ahead log holds and whatever
    fails, a recovery pass only verifies; it follows the log and issues no
    request. *)
Theorem recovery_never_sends (w : ProbeWorld) (cfg : Config) (env : recovery_env) (limit : Z) :
  limit <= maxUint64 -> running limit w -> quiet (ge_wake (rv_gate env)) -> (forall i, quiet_submission (rv_submit env i)) ->
  let w' := (runProbeRecoveryOwned Sum256 canonicalJSON order w cfg env).1 in
  running limit w' /\ pw_posts w' = pw_posts w.
Proof.
  intros Hl Hw Hg Hq. unfold runProbeRecoveryOwned.
  destruct (gate_runs limit w cfg (rv_gate env) Hw Hg) as (H1 & Hp1 & _).
  destruct (probeGate _ _ _) as [w1 [e|]]; cbn [fst snd] in H1, Hp1; [done|]. rewrite <- Hp1.
  pose proof (prepared_runs limit (pw_posts w1) Hl (pw_runtime w1) (rv_preparedNow env) (rv_preparedLoad env) (rv_preparedIO env) H1) as H2.
  destruct (recoverPreparedProbeAttempts _ _ _ _) as [r [e|]]; cbn [fst] in H2; cbv zeta; [done|].
  pose proof (recoverChecked_runs limit (pw_posts w1) Hl (rt_store r) (rv_walLoad env) (rv_walIO env) (rv_walNow env) H2) as H3. unfold storeOf.
  cbn [pw_runtime set_field ProbeWorld_eta]. destruct (RecoverChecked _ _ _ _) as [s [intents|e]]; cbn [fst] in H3; [|done].
  destruct (activeProbeBindings _ _) as [byID active].
  cbn [withStore pw_runtime set_field rt_store].
  match goal with |- context [PersistentSnapshot ?s0 ?io] => rewrite (snapshot_runs limit (pw_posts w1) Hl s0 io H3) end.
  match goal with |- context [reconcileOrphans ?w0 ?a ?b ?c ?d] => destruct (orphans_pass_runs limit w0 a b c d H3) as [H4 Hp4];
    destruct (reconcileOrphans w0 a b c d) as [w4 err] end. cbn [fst] in H4, Hp4.
  destruct (recoverIntents_runs limit Hl cfg (map_range byID) env Hq intents w4 err H4) as [H5 Hp5].
  destruct (recoverIntents _ _ _ _ _ _ _ _ _) as [w5 err']. cbn [fst] in H5, Hp5.
  pose proof (persistInstances_runs limit (pw_posts w5) (pw_runtime w5) (list_to_set (vi_Instance <$> intents)) (rv_persist env) H5) as H6.
  destruct (persistProbeInstances _ _ _) as [r6 perr]. cbn [fst] in *. split; [exact H6|]. cbn. by rewrite Hp5, Hp4.
Qed.
End passes_spec.

(** ** Examples *)

Definition exampleBase : Time := unixTime 1704070800.
Definition examplePending : ProbeWindow :=
  mkWindow ProbePendingCheck (ResetProbeBaseline exampleBase f_zero (5 * Hour)) zeroTime 0 "" 0.
Definition exampleWindows : gmap ProbeWindowKind ProbeWindow := {[ProbeWindowFiveHour := examplePending]}.
Definition exampleClaimed : StateStore :=
  (Update example_store (claimAttempt 5 [ProbeWindowFiveHour] exampleBase (Some exampleWindows)) io_fine WriteOk WriteOk).1.
Definition exampleBound : RuntimeBinding := example_binding <| rb_Instance := 5 |>.
Definition exampleWorldOn (store : StateStore) : ProbeWorld :=
  mkProbeWorld (mkProbeRuntime (mkProbeController {[5 := exampleWindows]} 0) store ∅ false)
    (NewFenceAllocator NewPersistentState) {["a" := exampleBound]}
    (mkGate (emptyHostRoster <| hr_Capability := CapabilityA |> <| hr_Confirmed := true |> <| hr_BackgroundAllowed := true |> <| hr_Health := RosterHealthy |>
               <| hr_Entries := example_entries |>) None 0)
    false [] [].
Definition exampleWorld : ProbeWorld := exampleWorldOn exampleClaimed.
Definition exampleBody : string :=
  js "{'plan_type':'plus','rate_limit':{'primary_window':{'used_percent':0,'limit_window_seconds':18000,'reset_at':'2024-01-01T07:00:00Z'}}}".
Definition exampleProbeRead (quota : host_answer HTTPResponse) : read_env :=
  let t := exampleBase + Hour in
  mkReadEnv (HostAnswers (mkGetResponse "auth.json" (js "{'access_token':'at1','refresh_token':'r1','account_id':'s'}")))
    (Some (DefaultConfig <| EnableResetProbe := true |>)) t t t t None quota t.
Definition examplePost (answer : host_answer HTTPResponse) : post_env :=
  let t := exampleBase + Hour in mkPostEnv (Some (DefaultConfig <| EnableResetProbe := true |>)) t t t t true true None answer None.
Definition exampleEnv (post verify : host_answer HTTPResponse) : sequence_env :=
  let t := exampleBase + Hour in
  mkSequenceEnv (fun _ w => w) fence_fine fence_fine fence_fine (exampleProbeRead (HostAnswers (mkResponse 200 exampleBody))) (examplePost post)
    (exampleProbeRead verify) None t t t t wal_fine wal_fine store_fine io_fine (mkFailEnv t store_fine io_fine store_fine store_fine).
Definition exampleClaim : ProbeAttempt :=
  mkAttempt 5 (attemptIDFor 5 1) [ProbeWindowFiveHour] ProbeAttemptPrepared 0 exampleBase None exampleBase zeroTime.
Definition exampleSequence : probe_sequence := mkSequence "a" exampleBound [ProbeWindowFiveHour] exampleClaim false 0.
Definition exampleTimesOut : host_answer HTTPResponse := HostFails (ProbeHost "timeout").
Definition exampleAnswer (body : string) : host_answer HTTPResponse := HostAnswers (mkResponse 200 body).
Definition exampleRunOf (w : ProbeWorld) (p : probe_sequence) (post verify : host_answer HTTPResponse) : sequence_result :=
  runProbeSequence example_hash (fun _ => None) id w p DefaultConfig (exampleEnv post verify).
(** The request times out: its attempt stays on record.  The quota read after the
    request shows the window still unused: the sequence is complete. *)
Definition exampleLost : sequence_result := exampleRunOf exampleWorld exampleSequence exampleTimesOut exampleTimesOut.
Definition exampleStill : sequence_result := exampleRunOf exampleWorld exampleSequence (exampleAnswer "") (exampleAnswer exampleBody).

Lemma example_numbered limit : (0 <=? limit) = true -> numbered limit NewPersistentState.
Proof. intros H%Z.leb_le. split; [vm_compute; split; [done|exact H]|]. intros i a Ha. change ((∅ : gmap Z ProbeAttempt) !! i = Some a) in Ha. by rewrite lookup_empty in Ha. Qed.
Lemma exampleWorld_runs : running maxUint64 exampleWorld.
Proof.
  apply (wr_claim maxUint64 example_store [] 5 [ProbeWindowFiveHour] exampleBase (Some exampleWindows) wal_fine); [|vm_compute; reflexivity].
  eapply (wr_start maxUint64 example_disk NewPersistentState io_fine); try (vm_compute; reflexivity).
  exact (example_numbered maxUint64 eq_refl).
Qed.

Lemma sent_probe_not_forgotten_witness :
  pw_posts exampleLost.1 = [(5, "probe-5-1")]
  /\ settled example_hash (fun _ => None) id 5 "probe-5-1" exampleSequence (exampleEnv exampleTimesOut exampleTimesOut) exampleLost.1.
Proof.
  assert (pw_posts exampleLost.1 = [(5, "probe-5-1")]) as E by (vm_compute; reflexivity). split; [exact E|].
  apply (sent_probe_not_forgotten example_hash (fun _ => None) id maxUint64 ltac:(lia) 5 "probe-5-1" exampleSequence DefaultConfig (exampleEnv exampleTimesOut exampleTimesOut)
    (fun _ w Hw => Hw) (fun _ w Hw => Hw) (fun _ w => eq_refl) (conj eq_refl eq_refl) eq_refl exampleWorld exampleWorld_runs).
  change (pw_posts exampleLost.1 <> []). by rewrite E.
Defined.

(** A window that is found still lazy waits out the ten minutes of suppression
    when the sequence verifies it itself, but only the ordinary backoff (here five
    minutes) when recovery does, although the request may have been sent. *)
Definition exampleRecovery : sequence_result :=
  exampleRunOf exampleLost.1
    (mkSequence "a" exampleBound [ProbeWindowFiveHour] (default exampleClaim (ps_ProbeAttempts (sto_state (storeOf exampleLost.1)) !! 5)) true 2)
    exampleTimesOut (exampleAnswer exampleBody).
Theorem recovery_resends_within_suppression :
  let retry (w : ProbeWorld) := (fun x => (pw_State x, pw_Deadline x)) <$> windowOf (controllerOf w) 5 ProbeWindowFiveHour in
  let sentAt := exampleBase + Hour in
  at_SuppressUntil <$> ps_ProbeAttempts (sto_state (storeOf exampleLost.1)) !! 5 = Some (Add sentAt (10 * Minute))
  /\ retry exampleStill.1 = Some (ProbeRetryWait, Add sentAt (10 * Minute))
  /\ retry exampleRecovery.1 = Some (ProbeRetryWait, Add sentAt (5 * Minute))
  /\ ps_ProbeAttempts (sto_state (storeOf exampleRecovery.1)) !! 5 = None.
Proof. vm_compute. auto. Qed.

(** A due pass over one account, and a recovery pass after its request timed out. *)
Definition exampleConfig : Config := DefaultConfig <| EnableResetProbe := true |>.
Definition examplePass : due_env :=
  let t := exampleBase + Hour in
  mkDueEnv (mkGateEnv store_fine id t t) [] t store_fine t io_fine t (fun _ => store_fine)
    (fun _ => (wal_fine, SubmitRuns (exampleEnv exampleTimesOut exampleTimesOut))).
Definition exampleRecoveryPass : recovery_env :=
  let t := exampleBase + Hour + Minute in
  mkRecoveryEnv (mkGateEnv store_fine id t t) t io_fine store_fine t io_fine (fun _ => wal_fine) io_fine t (fun _ => store_fine)
    (fun _ => io_fine) (fun _ => SubmitRuns (exampleEnv exampleTimesOut (exampleAnswer exampleBody))) store_fine.
Definition exampleDue := runProbeDuePass example_hash (fun _ => None) id (exampleWorldOn example_store) exampleConfig examplePass.
Definition exampleRecovered := runProbeRecoveryOwned example_hash (fun _ => None) id exampleLost.1 exampleConfig exampleRecoveryPass.

Lemma quiet_id : quiet id.
Proof. by split. Qed.

Lemma due_pass_refines_wal_witness : pw_posts exampleDue.1 = [(5, "probe-5-1")] /\ running (10 + 1) exampleDue.1.
Proof.
  split; [vm_compute; reflexivity|].
  refine (proj1 (due_pass_refines_wal example_hash (fun _ => None) id (exampleWorldOn example_store) exampleConfig examplePass 10 1
    _ quiet_id (fun _ _ => quiet_id) _ _)); [|vm_compute; discriminate..].
  eapply (wr_start 10 example_disk NewPersistentState io_fine); try (vm_compute; reflexivity). exact (example_numbered 10 eq_refl).
Defined.

Lemma recovery_never_sends_witness :
  ps_ProbeAttempts (sto_state (storeOf exampleRecovered.1)) !! 5 = None /\ pw_posts exampleRecovered.1 = [(5, "probe-5-1")].
Proof.
  split; [vm_compute; reflexivity|]. transitivity (pw_posts exampleLost.1); [|vm_compute; reflexivity].
  refine (proj2 (recovery_never_sends example_hash (fun _ => None) id exampleLost.1 exampleConfig exampleRecoveryPass maxUint64 ltac:(lia) _ quiet_id
    (fun _ _ => quiet_id))).
  exact (sequence_runs example_hash (fun _ => None) id maxUint64 ltac:(lia) exampleSequence DefaultConfig (exampleEnv exampleTimesOut exampleTimesOut)
    (fun _ w Hw => Hw) exampleWorld exampleWorld_runs).
Defined.
