(* ===== verification/Publish.v ===== *)
(** * Publishing a roster (refresh.go)

    [PublishAuthoritativeRoster]: a confirmed roster becomes the bindings, the
    durable roster, the instances of the coordinator, the windows of the probes
    and, last, the admission of the account table and the roster of the gates.
    [ResolveCredentialAmbiguity], by which an operator settles a credential chain,
    changes the same state.  The coordinator is told by commands ([CoordActivate]
    and the like); the reads of the host are arguments, and [during] is what other
    goroutines do to the shared state during the read of a resolution. *)

From S2P Require Import Prelude GoStrings Float64 Config Models Capability Identity Probe ProbeWindow State Roster StateStore ProbeWAL CredentialWAL Bindings Managed RosterGate ProbeRuntime.
#[local] Open Scope string_scope.
#[local] Open Scope list_scope.
#[local] Open Scope Z_scope.
#[local] Open Scope go_scope.

Abbreviation generations := (gmap AuthInstanceID TierGeneration) (only parsing).

Inductive publish_effect :=
  | CoordActivate (g : generations)
  | CoordSuspend (i : AuthInstanceID)
  | CoordRestore (g : generations)
  | CoordCancel (instances : list AuthInstanceID)
  | SchedulerPublished (s : PluginState) (tier : gset string) (now : Time)
  | RefreshOneRequested (authID : string)
  | AdapterRoster (roster : HostRosterSnapshot)
  | LoopStart.

Record PublishWorld := mkPublishWorld {
  pb_runtime : ProbeRuntime;
  pb_bindings : gmap string RuntimeBinding;
  pb_credentials : PersistentState;
  pb_state : PluginState;
  pb_gate : Gate;
  pb_effects : list publish_effect;
}.
#[export] Instance PublishWorld_eta : Eta PublishWorld := fun r => mkPublishWorld
  (pb_runtime r) (pb_bindings r) (pb_credentials r) (pb_state r) (pb_gate r) (pb_effects r).

Definition pb_store (w : PublishWorld) : StateStore := rt_store (pb_runtime w).
Definition withStore (w : PublishWorld) (s : StateStore) : PublishWorld := w <| pb_runtime := (pb_runtime w) <| rt_store := s |> |>.
Definition emit (w : PublishWorld) (e : publish_effect) : PublishWorld := w <| pb_effects := pb_effects w ++ [e] |>.
Definition withRoster (w : PublishWorld) (roster : HostRosterSnapshot) : PublishWorld :=
  w <| pb_gate := (pb_gate w) <| gt_roster := roster |> |>.

Inductive publish_error :=
  | PublishStore (e : store_error)
  | PublishBinding (e : binding_error)
  | PublishCapability
  | PublishUnbound
  | PublishScope
  | PublishUnresolved
  | PublishHost
  | PublishCredential (e : credential_error)
  | PublishStale.

Section publish.
Context `{MapRange} (Sum256 : string -> string).

Definition snapshotStore (w : PublishWorld) (io : load_io) : PublishWorld * result publish_error PersistentState :=
  let '(s, res) := PersistentSnapshot (pb_store w) io in
  (withStore w s, match res with Ok st => Ok st | Err e => Err (PublishStore e) end).

(** ** External logins *)

Definition unparkAfterExternalLogin (w : PublishWorld) (authID : string) (now : Time) : PublishWorld :=
  if String.eqb authID "" then w
  else
    let '(s, cleared) := ClearAccountAuthFailure (pb_state w) authID in
    if negb cleared then w
    else
      let s := RecordLog s "info" "credential.external_login_unparked" "检测到账号重新登录，已解除认证异常停机并触发验证刷新"
                 {[ "auth_id" := AnyString authID ]} now now in
      emit (emit (w <| pb_state := s |>) (SchedulerPublished s (highestTierSet (gt_roster (pb_gate w))) now)) (RefreshOneRequested authID).

Definition publishCredentialBindingMirror (w : PublishWorld) (st : PersistentState) : PublishWorld := w <| pb_bindings := ps_Bindings st |>.

Definition reloadCredentialMirrors (w : PublishWorld) (io : load_io) : PublishWorld * option publish_error :=
  let '(w, res) := snapshotStore w io in
  match res with
  | Err e => (w, Some e)
  | Ok st => (w <| pb_credentials := st |> <| pb_bindings := ps_Bindings st |>, None)
  end.

Definition externalLogin (report : CredentialRecoveryReport) : bool :=
  match co_Kind <$> cr_Observation report with Some CredentialExternalLogin => true | _ => false end.
Definition ownedRotation (report : CredentialRecoveryReport) : bool :=
  match co_Kind <$> cr_Observation report with Some CredentialOwnedRotation => true | _ => false end.

(** One account of [reconcileActiveCredentialTails]; [suspends] is whether the
    coordinator gives a token for the suspension. *)
Record tail_env := mkTailEnv { te_reconcile : reconcile_env; te_suspends : bool; te_now : Time }.
Definition reconcileTail (host : gmap AuthInstanceID HostAuth) (w : PublishWorld) (authID : string) (b : RuntimeBinding) (env : tail_env) : PublishWorld :=
  if rb_Instance b =? 0 then w
  else
    let old : generations := {[rb_Instance b := rb_Generation b]} in
    let hooks := mkHooks (Some (fun report => if externalLogin report && negb (te_suspends env) then Some scopeReason else None))
                         (Some (fun _ _ s => (s, None))) in
    let '(m, (report, err)) := ReconcileWithHooks Sum256 (mkCredentials (pb_store w) (pb_credentials w)) host (rb_Instance b) hooks (te_reconcile env) in
    let w := (withStore w (cm_store m)) <| pb_credentials := cm_state m |> in
    let w := if externalLogin report then emit w (CoordSuspend (rb_Instance b)) else w in
    match err with
    | Some e =>
        let w := if externalLogin report && te_suspends env && match e with ErrCredentialRollbackFailed _ _ => false | _ => true end
                 then emit w (CoordRestore old) else w in
        w <| pb_state := RecordLog (pb_state w) "warn" "credential.reconcile_failed" "credential reconciliation will retry on a later authoritative roster sync"
                           {[ "auth_id" := AnyString authID ]} (te_now env) (te_now env) |>
    | None =>
        let w := if externalLogin report || ownedRotation report then publishCredentialBindingMirror w (cm_state m) else w in
        if externalLogin report then
          let w := match pb_bindings w !! authID with
                   | Some current => emit w (CoordActivate {[rb_Instance current := rb_Generation current]})
                   | None => w
                   end in
          unparkAfterExternalLogin w authID (te_now env)
        else w
    end.

Definition reconcileActiveCredentialTails (host : gmap AuthInstanceID HostAuth) (w : PublishWorld) (bindings : gmap string RuntimeBinding)
    (freshlyObserved : gset string) (env : string -> tail_env) : PublishWorld :=
  foldl (fun w authID => if bool_decide (authID ∈ freshlyObserved) then w
                         else match bindings !! authID with Some b => reconcileTail host w authID b (env authID) | None => w end)
        w (sortStrings (map_range bindings).*1).

(** ** Accounts that left *)

Definition dropInstance (st : PersistentState) (i : AuthInstanceID) : PersistentState :=
  st <| ps_ProbeWindows := base.delete i (ps_ProbeWindows st) |> <| ps_ProbeAttempts := base.delete i (ps_ProbeAttempts st) |>.
Definition CancelRosterInstances (w : PublishWorld) (authIDs : list string) (now : Time) (io : store_io) : PublishWorld * option publish_error :=
  match authIDs with
  | [] => (w, None)
  | _ =>
      let instances := legacyAuthInstanceID <$> authIDs in
      let w := emit w (CoordCancel instances) in
      let c := foldl (fun c i => (Advance c i (mkEvent ProbeEventInstanceRemoved "" now ∅ 0)).1) (rt_controller (pb_runtime w)) instances in
      let '(r, res) := updateStore ((pb_runtime w) <| rt_controller := c |>)
                         (fun st => Ok (foldl dropInstance st instances)) io in
      (w <| pb_runtime := r |>, match res with Ok _ => None | Err e => Some (PublishStore e) end)
  end.

(** ** The roster *)

Definition generationsOf (bindings : gmap string RuntimeBinding) : generations :=
  list_to_map (reverse ((fun b => (rb_Instance b, rb_Generation b)) <$> (map_range bindings).*2)).

(** The durable bindings of the accounts that were reconciled. *)
Definition publishedBindings (st : PersistentState) (reconciled : gmap string RuntimeBinding) : option (gmap string RuntimeBinding) :=
  foldr (fun authID acc => match acc, ps_Bindings st !! authID with
                           | Some m, Some b => if rb_Instance b =? 0 then None else Some (<[authID := b]> m)
                           | _, _ => None
                           end) (Some ∅) (map_range reconciled).*1.

Fixpoint persistedEntries (bindings : gmap string RuntimeBinding) (entries : list RosterEntry) : option (list PersistedRosterEntry) :=
  match entries with
  | [] => Some []
  | e :: entries =>
      match bindings !! re_ID e, re_Priority e with
      | Some b, Some priority =>
          (fun rest => mkPersistedEntry (re_ID e) (re_AuthIndex e) priority (rb_Fingerprint b) :: rest) <$> persistedEntries bindings entries
      | _, _ => None
      end
  end.

Record publish_env := mkPublishEnv {
  pe_hold : store_io;
  pe_host : gmap AuthInstanceID HostAuth; pe_snapshot1 : load_io; pe_reconcile : store_io;
  pe_tails : string -> tail_env; pe_snapshot2 : load_io;
  pe_confirmedNow : Time; pe_roster : store_io;
  pe_cancelNow : Time; pe_cancel : store_io;
  pe_recoverNow : Time; pe_recover : store_io;
  pe_publishNow : Time; pe_startRequested : bool;
}.

(** The accounts whose index changed or that were not bound before. *)
Definition freshlyObservedOf (previous reconciled : gmap string RuntimeBinding) : gset string :=
  list_to_set (List.filter (fun authID => match previous !! authID, reconciled !! authID with
                                          | Some p, Some b => negb (String.eqb (rb_AuthIndex p) (rb_AuthIndex b))
                                          | _, _ => true
                                          end) (map_range reconciled).*1).

(** The last steps: the admission, the published scheduler and the gates' roster,
    under the lock of the admission. *)
Definition finishPublication (w : PublishWorld) (admission : CPAAdmissionState) (filtered : HostRosterSnapshot) (env : publish_env) : PublishWorld :=
  let s := (ReplaceCPAAdmission (pb_state w) admission).1 in
  let w := emit (w <| pb_state := s |>) (SchedulerPublished s (adm_AuthIDs admission) (pe_publishNow env)) in
  let w := emit (withRoster w filtered) (AdapterRoster filtered) in
  if pe_startRequested env then emit w LoopStart else w.

(** From the reconciled bindings to the recovery of the probes. *)
Definition commitPublication (w : PublishWorld) (admission : CPAAdmissionState) (filtered : HostRosterSnapshot) (reconciled : RosterReconcileResult)
    (env : publish_env) : PublishWorld * option publish_error :=
  let '(w, res) := snapshotStore w (pe_snapshot2 env) in
  match res with
  | Err e => (w, Some e)
  | Ok published =>
      match publishedBindings published (rec_Bindings reconciled) with
      | None => (w, Some PublishUnbound)
      | Some bindings =>
          let filtered := filtered <| hr_Generation := ps_TierGeneration published |> in
          let filtered := if IsZero (hr_ConfirmedAt filtered) then filtered <| hr_ConfirmedAt := pe_confirmedNow env |> else filtered in
          match persistedEntries bindings (hr_Entries filtered) with
          | None => (w, Some PublishUnbound)
          | Some entries =>
              let durable := mkPersistedRoster (hr_Generation filtered) (hr_ConfirmedAt filtered) entries in
              let '(s, res) := UpdateMirrored (pb_store w) (fun st => Ok (st <| ps_LastConfirmedRoster := Some durable |>))
                                 (su_load (pe_roster env)) (su_backup (pe_roster env)) (su_primary (pe_roster env)) in
              let w := withStore w s in
              match res with
              | Err e => (w, Some (PublishStore e))
              | Ok _ =>
                  let w := emit w (CoordActivate (generationsOf bindings)) in
                  let '(w, err) := CancelRosterInstances w (rb_AuthID <$> rec_Removed reconciled) (pe_cancelNow env) (pe_cancel env) in
                  match err with
                  | Some e => (w, Some e)
                  | None =>
                      let '(r, err) := recoverProbeFromRoster (pb_runtime w) bindings (st_cfg (pb_state w)) (pe_recoverNow env) (pe_recover env) in
                      let w := w <| pb_runtime := r |> in
                      match err with
                      | Some e => (w, Some (PublishStore e))
                      | None => (finishPublication w admission filtered env, None)
                      end
                  end
              end
          end
      end
  end.

Definition PublishAuthoritativeRoster (w : PublishWorld) (roster : HostRosterSnapshot) (env : publish_env) : PublishWorld * option publish_error :=
  let roster := normalizeHostRosterLifecycle roster in
  let '(r, err) := retryProbeRosterHold (pb_runtime w) (pe_hold env) in
  let w := w <| pb_runtime := r |> in
  match err with
  | Some e => (w, Some (PublishStore e))
  | None =>
      match rosterAdmission (st_cfg (pb_state w)) roster with
      | None => (withRoster w (emptyHostRoster <| hr_Capability := CapabilityB |>), Some PublishCapability)
      | Some (admission, filtered) =>
          let previous := pb_bindings w in
          let '(reg, res) := ReconcileRosterTiers (mkRegistry (pb_store w) previous) filtered (fun i => pe_host env !! i) (pe_snapshot1 env) (pe_reconcile env) in
          let w := (withStore w (br_store reg)) <| pb_bindings := br_bindings reg |> in
          match res with
          | Err e => (w, Some (PublishBinding e))
          | Ok reconciled =>
              let w := reconcileActiveCredentialTails (pe_host env) w (rec_Bindings reconciled)
                         (freshlyObservedOf previous (rec_Bindings reconciled)) (pe_tails env) in
              commitPublication w admission filtered reconciled env
          end
      end
  end.

(** ** Resolving a credential chain *)

Inductive CredentialResolutionAction := CredentialConfirmOwned | CredentialConfirmExternal | CredentialReread.

Record resolve_env := mkResolveEnv {
  rs_snapshot : load_io;
  rs_reread : reconcile_env; rs_host : gmap AuthInstanceID HostAuth; rs_reload : load_io;
  rs_get : bool; rs_during : PublishWorld -> PublishWorld;
  rs_commit : store_io; rs_now : Time;
}.

Definition sameBinding (a b : RuntimeBinding) : bool :=
  (rb_Instance a =? rb_Instance b) && (rb_Admission a =? rb_Admission b) && (rb_Generation a =? rb_Generation b)
  && bool_decide (rb_Fingerprint a = rb_Fingerprint b).

(** The update of the durable state. *)
Definition resolveChain (authID : string) (current : RuntimeBinding) (external : bool) (observed : CredentialFingerprint) (st : PersistentState)
  : result string PersistentState :=
  match ps_Bindings st !! authID with
  | None => Err scopeReason
  | Some latest =>
      if negb (sameBinding latest current) || negb (credentialChainUnresolved (chainOf st (rb_Instance current))) then Err scopeReason
      else
        let st := st <| ps_CredentialChains := <[rb_Instance current := mkChain observed []]> (ps_CredentialChains st) |> in
        if external then
          let admission := u64 (rb_Admission latest + 1) in
          let tier := u64 (ps_TierGeneration st + 1) in
          let tier := if tier =? 0 then 1 else tier in
          let latest := latest <| rb_Login := u64 (rb_Login latest + 1) |> <| rb_Admission := admission |> <| rb_Fingerprint := observed |>
                          <| rb_AuthBlocked := false |> <| rb_Generation := tier |> in
          Ok (st <| ps_TierGeneration := tier |> <| ps_AdmissionEpochs := <[rb_Instance current := admission]> (ps_AdmissionEpochs st) |>
                 <| ps_Bindings := <[authID := latest]> ((fun active => active <| rb_Generation := tier |>) <$> ps_Bindings st) |>)
        else
          let latest := latest <| rb_Token := u64 (rb_Token latest + 1) |> <| rb_Fingerprint := observed |> in
          Ok (st <| ps_Bindings := <[authID := latest]> (ps_Bindings st) |>)
  end.

(** The two confirmations, once the chain is known to be unresolved. *)
Definition confirmCredential (w : PublishWorld) (authID : string) (binding : RuntimeBinding) (external : bool) (env : resolve_env)
  : PublishWorld * option publish_error :=
  let i := rb_Instance binding in
  let w := if external then emit w (CoordSuspend i) else w in
  let restore w := if external then emit w (CoordRestore {[i := rb_Generation binding]}) else w in
  let answer := if rs_get env then None else rs_host env !! i in
  let w := rs_during env w in
  match answer with
  | None => (restore w, Some PublishHost)
  | Some observed =>
      if negb (ValidHashes Sum256 (ha_Fingerprint observed)) then (restore w, Some PublishUnresolved)
      else
        match pb_bindings w !! authID with
        | None => (restore w, Some PublishScope)
        | Some current =>
            if negb (sameBinding current binding) then (restore w, Some PublishScope)
            else
              let io := rs_commit env in
              let '(s, res) := UpdateMirrored (pb_store w) (resolveChain authID current external (ha_Fingerprint observed))
                                 (su_load io) (su_backup io) (su_primary io) in
              let w := withStore w s in
              match res with
              | Err e => (restore w, Some (PublishStore e))
              | Ok committed =>
                  let w := w <| pb_bindings := ps_Bindings committed |> <| pb_credentials := committed |> in
                  if external
                  then (unparkAfterExternalLogin (emit w (CoordActivate (generationsOf (ps_Bindings committed)))) authID (rs_now env), None)
                  else (w, None)
              end
        end
  end.

Definition ResolveCredentialAmbiguity (w : PublishWorld) (roster : ActiveRoster) (authID : string) (action : CredentialResolutionAction) (env : resolve_env)
  : PublishWorld * option publish_error :=
  if negb (rosterContainsAuthID roster authID) then (w, Some PublishScope)
  else
    match pb_bindings w !! authID with
    | None => (w, Some PublishUnbound)
    | Some binding =>
        if (rb_Instance binding =? 0) || negb (String.eqb (rb_AuthID binding) authID) then (w, Some PublishUnbound)
        else
          let '(w, res) := snapshotStore w (rs_snapshot env) in
          match res with
          | Err e => (w, Some e)
          | Ok persisted =>
              match ps_CredentialChains persisted !! rb_Instance binding with
              | None => (w, Some PublishScope)
              | Some chain =>
                  if negb (credentialChainUnresolved chain) then (w, Some PublishScope)
                  else
                    match action with
                    | CredentialReread =>
                        let '(m, (report, err)) := ReconcileUnresolved Sum256 (mkCredentials (pb_store w) (pb_credentials w)) (rs_host env)
                                                     (rb_Instance binding) (rs_reread env) in
                        let w := (withStore w (cm_store m)) <| pb_credentials := cm_state m |> in
                        match err with
                        | Some e => (w, Some (PublishCredential e))
                        | None => if cr_Ambiguous report then (w, Some PublishUnresolved) else reloadCredentialMirrors w (rs_reload env)
                        end
                    | CredentialConfirmOwned => confirmCredential w authID binding false env
                    | CredentialConfirmExternal => confirmCredential w authID binding true env
                    end
              end
          end
    end.

(** ** The result of a refresh *)

(** The [Apply] of the coordinator: the observed windows first, then the journal of
    the account table, under the lock of the bindings.  The boolean is whether a
    probe pass is launched. *)
Definition hasPendingProbeWindows (windows : gmap AuthInstanceID (gmap ProbeWindowKind ProbeWindow)) : bool :=
  existsb (fun iw => existsb (fun kw => bool_decide (pw_State kw.2 = ProbePendingCheck)) (map_to_list iw.2)) (map_to_list windows).

Record apply_env := mkApplyEnv { ae_now : Time; ae_observed : AccountState -> store_io; ae_bootNow : Time; ae_bootstrap : store_io; ae_accounts : PluginState -> list AccountState }.

Fixpoint observeAccounts (w : PublishWorld) (authID : string) (i : AuthInstanceID) (accounts : list AccountState) (env : apply_env)
  : PublishWorld * option store_error :=
  match accounts with
  | [] => (w, None)
  | a :: accounts =>
      if negb (String.eqb (a_AuthID a) authID) || IsZero (a_LastSuccessAt a) || negb (String.eqb (a_LastError a) "")
      then observeAccounts w authID i accounts env
      else
        let '(r, err) := reconcileObservedProbeWindows (pb_runtime w) i (a_Quota a) (st_cfg (pb_state w)) (ae_now env) (ae_observed env a) in
        let w := w <| pb_runtime := r |> in
        match err with Some e => (w, Some e) | None => observeAccounts w authID i accounts env end
  end.

(** [errorText] and [redactSecrets] are the text of an error and the redaction of
    secrets. *)
Definition applyRefreshResult (errorText : store_error -> string) (redactSecrets : string -> string) (w : PublishWorld) (authID : string) (i : AuthInstanceID) (write : WritebackVersion) (journal : option LegacyEffectJournal)
    (env : apply_env) : PublishWorld * option publish_error * bool :=
  match journal with
  | None => (w, None, false)
  | Some j =>
      if negb (ApplyIfCurrent (mkRegistry (pb_store w) (pb_bindings w)) authID write) then (w, Some PublishStale, false)
      else
        let '(w, err) := observeAccounts w authID i (j_Accounts j) env in
        match err with
        | Some e => (w, Some (PublishStore e), false)
        | None =>
            let s := applyLegacyEffectJournal (pb_state w) j in
            let w := w <| pb_state := s |> in
            let '(r, err, _) := bootstrapProbeWindows (pb_runtime w) (st_cfg s) (ae_accounts env s) (pb_bindings w)
                                  (bool_decide (hr_Capability (gt_roster (pb_gate w)) = CapabilityA)) (ae_bootNow env) (ae_bootstrap env) in
            let w := w <| pb_runtime := r |> in
            match err with
            | Some e => (w <| pb_state := RecordLog s "warn" "probe.bootstrap_failed" "Probe 状态初始化失败，将在下次刷新重试"
                                            {[ "auth_id" := AnyString authID; "error" := AnyString (redactSecrets (errorText e)) ]}
                                            (ae_bootNow env) (ae_bootNow env) |>, None, false)
            | None => (w, None, hasPendingProbeWindows (pr_windows (rt_controller r)))
            end
        end
  end.
End publish.

(** ** What a publication leaves *)

Section published.
Context `{mr : MapRange} (Sum256 : string -> string).
Notation loaded s := (keeps (fun _ => True) s).

Lemma admission_entries cfg roster admission filtered :
  rosterAdmission cfg roster = Some (admission, filtered) ->
  adm_Observed admission = true /\ (forall id, id ∈ adm_AuthIDs admission <-> exists e, e ∈ hr_Entries filtered /\ re_ID e = id).
Proof.
  unfold rosterAdmission. set (r := normalizeHostRosterLifecycle _). clearbody r.
  destruct (HighestCodexTier (hr_Entries r)) as [[p hids] ok] eqn:Eh.
  destruct (negb _ || negb ok) eqn:Eok; [done|]. apply orb_false_iff in Eok as [_ ->%negb_false_iff].
  pose proof (CodexTierGroups_tiers (hr_Entries r)) as [_ _ Hm].
  destruct (CodexTierGroups (hr_Entries r)) as [tiers tiered]. simpl in Hm.
  assert (forall ids : gset string, (forall id, id ∈ ids -> exists p, tier_member (hr_Entries r) p id) ->
    forall id, id ∈ ids <-> exists e, e ∈ filter (fun e => re_ID e ∈ ids) (hr_Entries r) /\ re_ID e = id) as Hf.
  { intros ids Hids id. split.
    - intros Hid. destruct (Hids id Hid) as (q & e & He & _ & E). exists e. by rewrite list_elem_of_filter, E.
    - intros (e & [Hin _]%list_elem_of_filter & <-). done. }
  destruct (ScheduleAcrossPriorities cfg && tiered); intros [= <- <-]; (split; [done|]); apply Hf; intros id; simpl.
  - rewrite elem_of_union_list. intros (X & HX & Hid). apply list_elem_of_fmap in HX as (t & -> & Ht). exists (tier_Priority t). apply Hm. eauto.
  - rewrite elem_of_list_to_set. intros Hid. unfold HighestCodexTier in Eh.
    pose proof (highest_fold_inv (hr_Entries r)) as [_ _ H3 _ _].
    destruct (ts_ok _) eqn:Eo; [|done]. simpl in Eh. injection Eh as <- <-. rewrite elem_of_sortStrings in Hid. eexists. by apply (H3 eq_refl).
Qed.

(** The identifiers a reconciliation binds are those of the roster's entries. *)
Lemma tier_ids_entries entries : forall seen id, id ∈ tier_ids seen entries -> exists e, e ∈ entries /\ re_ID e = id.
Proof.
  induction entries as [|e entries IH]; intros seen id; simpl; [by intros ?%not_elem_of_nil|].
  destruct (_ || _).
  - intros (x & Hx & E)%IH. exists x. by rewrite elem_of_cons; auto.
  - rewrite elem_of_cons. intros [-> |(x & Hx & E)%IH]; [exists e|exists x]; rewrite elem_of_cons; auto.
Qed.

Lemma reconcileOne_keys bindings chainSeen entries gen host acc id acc' :
  reconcileOne bindings chainSeen entries gen host acc id = Ok acc' ->
  exists b, ac_next acc' = <[id := b]> (ac_next acc).
Proof.
  unfold reconcileOne. cbv zeta.
  destruct (bindings !! id) as [b|]; [destruct (rb_Instance b =? 0); [|destruct (String.eqb _ _)]|].
  all: repeat match goal with |- context [match ?x with Some _ => _ | None => _ end] => destruct x; [|done] end; intros [= <-]; by eexists.
Qed.
Lemma reconcileAll_keys bindings chainSeen entries gen host ids : forall acc acc' a,
  reconcileAll (reconcileOne bindings chainSeen entries gen host) acc ids = Ok acc' ->
  is_Some (ac_next acc' !! a) -> is_Some (ac_next acc !! a) \/ a ∈ ids.
Proof.
  induction ids as [|id ids IH]; intros acc acc' a; simpl; [intros [= <-]; auto|].
  destruct (reconcileOne _ _ _ _ _ acc id) as [acc1|e] eqn:E; [|done]. simpl. intros Ha Hs.
  apply reconcileOne_keys in E as [b E]. destruct (IH _ _ _ Ha Hs) as [H|H]; [|right; by rewrite elem_of_cons; auto].
  rewrite E in H. destruct (decide (a = id)) as [-> |Hne]; [right; apply elem_of_cons; auto|]. rewrite lookup_insert_ne in H by done. auto.
Qed.

(** A reconciliation that succeeds: the store stays loaded, the bindings are those
    of entries of the roster, and the accounts that are bound no longer are removed. *)
Lemma reconcile_success r roster host io1 io2 r' res :
  registry_ok r -> ReconcileRosterTiers r roster host io1 io2 = (r', Ok res) ->
  registry_ok r' /\ rec_Bindings res = br_bindings r'
  /\ (forall a, is_Some (br_bindings r' !! a) -> exists e, e ∈ hr_Entries roster /\ re_ID e = a)
  /\ (forall a b, br_bindings r !! a = Some b -> rb_Instance b <> 0 -> br_bindings r' !! a = None -> b ∈ rec_Removed res).
Proof.
  intros [Hk Hm]. unfold ReconcileRosterTiers, reconcileRosterEntries, rosterIDs. destruct (negb _); [done|].
  destruct (tier_ids ∅ (hr_Entries roster)) as [|id0 ids0] eqn:Et; [done|]. rewrite (snapshot_loaded _ _ _ Hk).
  destruct (durableMarks _) as [epochs tier]. cbv zeta. set (ids := sortStrings (id0 :: ids0)).
  destruct (reconcileAll _ _ _) as [acc|e] eqn:Ea; [|done].
  assert (r <| br_store := br_store r |> = r) as Er by (by destruct r). rewrite Er in *.
  destruct (commitBindings r _ io2) as [r1 [e|]] eqn:Ec; [done|]. intros [= <- <-].
  destruct (commit_ok _ _ _ _ _ (conj Hk Hm) Ec) as [Hr1 Hsy]. specialize (Hsy eq_refl).
  assert (br_bindings r1 = ac_next acc) as En by (rewrite (proj2 Hr1), (sy_state _ _ Hsy); apply written_bindings).
  split; [done|]. split; [done|]. cbn [rec_Removed]. rewrite En. split.
  - intros a Ha. destruct (reconcileAll_keys _ _ _ _ _ _ _ _ a Ea Ha) as [[x Hx]|Hin]; [cbn in Hx; by rewrite lookup_empty in Hx|].
    apply (tier_ids_entries _ ∅). rewrite Et. by apply elem_of_sortStrings.
  - intros a b Hb Hi Hnone. apply list_elem_of_filter. split; [done|]. apply list_elem_of_fmap. exists (a, b). split; [done|].
    apply list_elem_of_filter. split; [done|]. by apply elem_of_map_range.
Qed.

(** The tails leave the store loaded. *)
Lemma tail_loaded host w a b env : loaded (pb_store w) -> loaded (pb_store (reconcileTail Sum256 host w a b env)).
Proof.
  intros Hk. unfold reconcileTail. destruct (_ =? 0); [done|].
  assert (loaded (cm_store (ReconcileWithHooks Sum256 (mkCredentials (pb_store w) (pb_credentials w)) host (rb_Instance b)
    (mkHooks (Some (fun report => if externalLogin report && negb (te_suspends env) then Some scopeReason else None)) (Some (fun _ _ s => (s, None))))
    (te_reconcile env)).1)) as Hm.
  { unfold ReconcileWithHooks, reconcile. cbn [cm_store]. rewrite (snapshot_loaded _ _ _ Hk).
    destruct (_ !! _) as [chain|]; [|done]. destruct (negb _); [done|]. cbn [andb]. destruct (if re_get _ then _ else _) as [current|]; [|done].
    destruct (reconcileCredentialObservation _ _ _) as [next report]. destruct (cr_Ambiguous report); [done|]. cbv zeta. cbn [hk_BeforeCommit hk_AfterCommit].
    destruct (if _ && _ then _ else _); [done|].
    match goal with |- context [mutate ?m ?fn ?io] => pose proof (mutate_keeps (fun _ => True) m fn io Hk (fun _ _ H => H) (fun _ _ => I)) as H;
      destruct (mutate m fn io) as [m1 [e|]] end; exact H. }
  destruct (ReconcileWithHooks _ _ _ _ _ _) as [m [report err]]. cbn [fst] in Hm.
  unfold unparkAfterExternalLogin. destruct err as [e|]; cbv zeta.
  - destruct (externalLogin report), (te_suspends env), e; exact Hm.
  - destruct (externalLogin report) eqn:Ex, (ownedRotation report); cbn [orb]; try exact Hm.
    all: destruct (_ !! a); destruct (String.eqb a ""); try exact Hm; destruct (ClearAccountAuthFailure _ _) as [s []]; exact Hm.
Qed.
Lemma tails_loaded host w bindings fresh env : loaded (pb_store w) -> loaded (pb_store (reconcileActiveCredentialTails Sum256 host w bindings fresh env)).
Proof.
  unfold reconcileActiveCredentialTails. generalize (sortStrings (map_range bindings).*1). intros l. revert w.
  induction l as [|a l IH]; intros w Hk; simpl; [done|]. apply IH. destruct (bool_decide _); [done|]. destruct (bindings !! a); [by apply tail_loaded|done].
Qed.

(** ** The durable roster *)

(** The store is loaded and the registry mirrors its bindings. *)
Definition world_ok (w : PublishWorld) : Prop := registry_ok (mkRegistry (pb_store w) (pb_bindings w)).

Definition entryPersisted (st : PersistentState) (e : RosterEntry) (q : PersistedRosterEntry) : Prop :=
  pre_ID q = re_ID e /\ pre_AuthIndex q = re_AuthIndex e /\ re_Priority e = Some (pre_Priority q)
  /\ exists b, ps_Bindings st !! re_ID e = Some b /\ rb_Instance b <> 0 /\ pre_Fingerprint q = rb_Fingerprint b.
(** [roster] is the confirmed roster on record, entry by entry, with the bindings
    of its accounts. *)
Definition rosterDurable (roster : HostRosterSnapshot) (st : PersistentState) : Prop :=
  ps_TierGeneration st = hr_Generation roster
  /\ exists p, ps_LastConfirmedRoster st = Some p /\ pcr_Generation p = hr_Generation roster /\ pcr_ConfirmedAt p = hr_ConfirmedAt roster
       /\ Forall2 (entryPersisted st) (hr_Entries roster) (pcr_Entries p).
(** No attempt of the account is on record. *)
Definition attemptGone (authID : string) (st : PersistentState) : Prop := ps_ProbeAttempts st !! legacyAuthInstanceID authID = None.

Lemma rosterDurable_same roster st st' :
  ps_TierGeneration st' = ps_TierGeneration st -> ps_LastConfirmedRoster st' = ps_LastConfirmedRoster st -> ps_Bindings st' = ps_Bindings st ->
  rosterDurable roster st -> rosterDurable roster st'.
Proof. unfold rosterDurable, entryPersisted. by intros -> -> ->. Qed.

Lemma publishedBindings_sub st m bs a b :
  publishedBindings st m = Some bs -> bs !! a = Some b -> ps_Bindings st !! a = Some b /\ rb_Instance b <> 0.
Proof.
  unfold publishedBindings. generalize ((map_range m).*1). intros l. revert bs. induction l as [|x l IH]; intros bs; simpl.
  - intros [= <-]. by rewrite lookup_empty.
  - destruct (foldr _ _ l) as [bs'|]; [|done]. destruct (ps_Bindings st !! x) as [bx|] eqn:Ex; [|done].
    destruct (Z.eqb_spec (rb_Instance bx) 0); [done|]. intros [= <-]. destruct (decide (a = x)) as [-> |Hne].
    + rewrite lookup_insert_eq. by intros [= <-].
    + rewrite lookup_insert_ne by done. by apply IH.
Qed.

Lemma persistedEntries_all st m bs entries ps :
  publishedBindings st m = Some bs -> persistedEntries bs entries = Some ps -> Forall2 (entryPersisted st) entries ps.
Proof.
  intros Hbs. revert ps. induction entries as [|e entries IH]; intros ps; simpl; [intros [= <-]; constructor|].
  destruct (bs !! re_ID e) as [b|] eqn:Eb; [|done]. destruct (re_Priority e) as [prio|] eqn:Ep; [|done].
  destruct (persistedEntries bs entries) as [rest|]; [|done]. intros [= <-]. constructor; [|by apply IH].
  unfold entryPersisted. simpl. split_and!; try done. exists b. by destruct (publishedBindings_sub _ _ _ _ _ Hbs Eb).
Qed.

Lemma dropInstances_frame l : forall st, let st' := foldl dropInstance st l in
  ps_TierGeneration st' = ps_TierGeneration st /\ ps_LastConfirmedRoster st' = ps_LastConfirmedRoster st /\ ps_Bindings st' = ps_Bindings st
  /\ (forall i, ps_ProbeAttempts st !! i = None \/ i ∈ l -> ps_ProbeAttempts st' !! i = None).
Proof.
  induction l as [|i l IH]; intros st; cbn [foldl]; [split_and!; try done; intros i [?|?%not_elem_of_nil]; done|].
  destruct (IH (dropInstance st i)) as (E1 & E2 & E3 & H). cbv zeta. rewrite E1, E2, E3. split_and!; try done.
  intros j Hj. apply H. cbn. destruct (decide (j = i)) as [-> |Hne]; [left; by apply lookup_delete_eq|].
  rewrite lookup_delete_ne by done. rewrite elem_of_cons in Hj. naive_solver.
Qed.

(** The accounts that left: their jobs are cancelled, and no attempt of theirs is
    left. *)
Lemma cancel_keeps roster w ids now io w' :
  keeps (rosterDurable roster) (pb_store w) -> CancelRosterInstances w ids now io = (w', None) ->
  keeps (fun st => rosterDurable roster st /\ forall a, a ∈ ids -> attemptGone a st) (pb_store w')
  /\ pb_gate w' = pb_gate w /\ pb_state w' = pb_state w /\ pb_bindings w' = pb_bindings w
  /\ (forall a, a ∈ ids -> exists l, CoordCancel l ∈ pb_effects w' /\ legacyAuthInstanceID a ∈ l).
Proof.
  intros Hk. unfold CancelRosterInstances. destruct ids as [|id0 ids0].
  { intros [= <-]. split; [|split_and!; try done; by intros a ?%not_elem_of_nil]. eapply keeps_mono; [|exact Hk]. intros st Hst. split; [done|]. by intros a ?%not_elem_of_nil. }
  cbv zeta. set (ids := id0 :: ids0). clearbody ids. unfold updateStore.
  set (fn := fun st : PersistentState => _ : result string PersistentState).
  cbn [pb_runtime emit rt_store set_field PublishWorld_eta ProbeRuntime_eta rt_controller].
  match goal with |- context [Update ?s fn ?a ?b ?c] => destruct (Update s fn a b c) as [s1 [got|e]] eqn:EU end; [|done].
  intros [= <-]. destruct (update_success _ _ _ _ _ _ _ _ Hk EU) as (next & [= <-] & Hs). split; [|split_and!; try done].
  - apply (synced_keeps _ _ _ Hs). destruct (dropInstances_frame (legacyAuthInstanceID <$> ids) (sto_state (pb_store w))) as (E1 & E2 & E3 & E4).
    set (st' := foldl _ _ _) in *. assert (forall old Q, (forall b1 b2, Q (st' <| ps_FenceUnsafe := b1 |> <| ps_SchemaVersion := b2 |>)) -> (forall b2, Q (st' <| ps_SchemaVersion := b2 |>)) -> Q (written old st')) as Hw
      by (intros old Q H1 H2; unfold written; destruct (ps_FenceUnsafe old); auto).
    apply (Hw _ (fun x => rosterDurable roster x /\ forall a, a ∈ ids -> attemptGone a x)); intros; (split; [eapply rosterDurable_same; [exact E1|exact E2|exact E3|apply Hk]|]);
      intros a Ha; unfold attemptGone; cbn; apply E4; right; by apply list_elem_of_fmap_2.
  - intros a Ha. exists (legacyAuthInstanceID <$> ids). split; [cbn; apply elem_of_app; right; by left|by apply list_elem_of_fmap_2].
Qed.

(** The recovery of the probes changes windows only. *)
Lemma recover_keeps (Q : PersistentState -> Prop) r bindings cfg now io r' err :
  keeps Q (rt_store r) -> (forall old st, Q st -> Q (written old st)) -> (forall st ws, Q st -> Q (st <| ps_ProbeWindows := ws |>)) ->
  recoverProbeFromRoster r bindings cfg now io = (r', err) -> keeps Q (rt_store r').
Proof.
  intros Hk Hw Hf. unfold recoverProbeFromRoster, persistProbeInstances. cbv zeta. destruct (bool_decide _); [by intros [= <- _]|].
  unfold updateStore. cbn [rt_store set_field ProbeRuntime_eta].
  match goal with |- context [Update ?s ?fn ?a ?b ?c] => pose proof (update_keeps Q s fn a b c Hk Hw ltac:(intros st' [= <-]; apply Hf, Hk)) as H;
    destruct (Update s fn a b c) as [s1 res] end. intros [= <- _]. exact H.
Qed.

Lemma admission_replaced s value : st_cpaAdmission (ReplaceCPAAdmission s value).1 = value.
Proof.
  unfold ReplaceCPAAdmission. destruct (equalCPAAdmission _ _) eqn:E; [by apply equalCPAAdmission_spec in E|]. cbv zeta. by destruct (negb _).
Qed.

Lemma commit_publication w admission filtered reconciled env w' :
  loaded (pb_store w) -> commitPublication w admission filtered reconciled env = (w', None) ->
  st_cpaAdmission (pb_state w') = admission /\ hr_Entries (gt_roster (pb_gate w')) = hr_Entries filtered
  /\ keeps (fun st => rosterDurable (gt_roster (pb_gate w')) st /\ forall a, a ∈ rb_AuthID <$> rec_Removed reconciled -> attemptGone a st) (pb_store w')
  /\ forall a, a ∈ rb_AuthID <$> rec_Removed reconciled -> exists l, CoordCancel l ∈ pb_effects w' /\ legacyAuthInstanceID a ∈ l.
Proof.
  intros Hk. unfold commitPublication, snapshotStore. rewrite (snapshot_loaded _ _ _ Hk). cbv zeta.
  set (st := sto_state (pb_store w)). destruct (publishedBindings st _) as [bs|] eqn:Eb; [|done].
  set (roster := if IsZero _ then _ else _).
  assert (hr_Entries roster = hr_Entries filtered /\ hr_Generation roster = ps_TierGeneration st) as [Er Eg] by (subst roster; by destruct (IsZero _)).
  clearbody roster. destruct (persistedEntries bs _) as [entries|] eqn:Ee; [|done].
  change (pb_store (withStore w (pb_store w))) with (pb_store w). unfold UpdateMirrored.
  match goal with |- context [updateMode true ?s ?fn ?a ?b ?c] => destruct (updateMode true s fn a b c) as [s1 [got|e]] eqn:EU end; [|done].
  destruct (updateMode_success _ _ _ _ _ _ _ _ _ Hk EU) as (next & [= <-] & Hs & _).
  assert (keeps (rosterDurable roster) s1) as Hk1.
  { apply (synced_keeps _ _ _ Hs). fold st. pose proof (persistedEntries_all _ _ _ _ _ Eb Ee) as Hall.
    unfold written. destruct (ps_FenceUnsafe st); (split; [by rewrite Eg|]); eexists; (split; [reflexivity|]); split_and!; done. }
  set (w1 := emit (withStore _ s1) _). change s1 with (pb_store w1) in Hk1.
  destruct (CancelRosterInstances w1 _ _ _) as [w2 [e|]] eqn:Ec; [done|].
  destruct (cancel_keeps _ _ _ _ _ _ Hk1 Ec) as (Hk2 & Eg2 & Es2 & _ & Heff).
  destruct (recoverProbeFromRoster _ _ _ _ _) as [r3 [e|]] eqn:Erec; [done|]. intros [= <-].
  assert (Hk3 : keeps (fun st => rosterDurable roster st /\ forall a, a ∈ rb_AuthID <$> rec_Removed reconciled -> attemptGone a st) (rt_store r3)).
  { eapply recover_keeps; [exact Hk2| | |exact Erec].
    - intros old x [H1 H2]. unfold written. destruct (ps_FenceUnsafe old); (split; [by eapply rosterDurable_same|exact H2]).
    - intros x ws [H1 H2]. split; [by eapply rosterDurable_same|exact H2]. }
  unfold finishPublication. cbv zeta. split_and!; destruct (pe_startRequested env); try apply admission_replaced; try exact Er; try exact Hk3.
  all: intros a Ha; destruct (Heff a Ha) as (l & Hl & Hin); exists l; split; [cbn; rewrite !elem_of_app; auto 6|done].
Qed.

(** Holding the probes leaves the bindings as they were. *)
Lemma hold_bindings r io r' err m :
  registry_ok (mkRegistry (rt_store r) m) -> retryProbeRosterHold r io = (r', err) -> registry_ok (mkRegistry (rt_store r') m).
Proof.
  intros [Hk Hm]. unfold retryProbeRosterHold, persistRosterHold, holdProbeForRoster, updateStore. destruct (negb _); [by intros [= <- _]|].
  cbv zeta. set (l := map_range _). assert (forall st, ps_Bindings (foldl holdInstance st l) = ps_Bindings st) as Hf.
  { clear. induction l as [|[i ws] l IH]; intros st; cbn [foldl]; [done|]. rewrite IH. unfold holdInstance.
    by destruct (ps_ProbeAttempts st !! i) as [a|]; [destruct (maybeSent a)|]. }
  match goal with |- context [Update ?s ?fn ?a ?b ?c] => pose proof (update_keeps (fun _ => True) s fn a b c Hk (fun _ _ H => H) (fun _ _ => I)) as H1;
    destruct (Update s fn a b c) as [s1 [got|e]] eqn:EU end; intros [= <- _].
  - split; cbn; rewrite sync_fold_store; [exact H1|]. destruct (update_success _ _ _ _ _ _ _ _ Hk EU) as (next & [= <-] & Hs).
    cbn. rewrite (sy_state _ _ Hs), (proj1 (written_bindings _ _)), Hf. exact Hm.
  - split; [exact H1|]. cbn. rewrite (updateMode_failure _ _ _ _ _ _ _ _ _ Hk EU). exact Hm.
Qed.

(** C13: A published roster is consistent everywhere: when the publication succeeds,
    the admission is that of the roster and is observed, the accounts admitted are
    those of the entries in force, each has a binding on record, the roster on
    record, in memory and in the state file, is the one in force, entry by entry
    and with its generation and the fingerprints of the bindings; and of the accounts
    that were bound and are not admitted any more the jobs are cancelled and no
    probe attempt is left. *)
Theorem published_roster_consistent (w w' : PublishWorld) (roster : HostRosterSnapshot) (env : publish_env) :
  world_ok w -> PublishAuthoritativeRoster Sum256 w roster env = (w', None) ->
  let admission := st_cpaAdmission (pb_state w') in let published := gt_roster (pb_gate w') in
  let left a := exists b, pb_bindings w !! a = Some b /\ rb_AuthID b = a /\ rb_Instance b <> 0 /\ a ∉ adm_AuthIDs admission in
  adm_Observed admission = true
  /\ (forall a, a ∈ adm_AuthIDs admission <-> exists e, e ∈ hr_Entries published /\ re_ID e = a)
  /\ keeps (fun st => rosterDurable published st /\ (forall a, a ∈ adm_AuthIDs admission -> exists b, ps_Bindings st !! a = Some b /\ rb_Instance b <> 0)
                     /\ forall a, left a -> attemptGone a st) (pb_store w')
  /\ forall a, left a -> exists l, CoordCancel l ∈ pb_effects w' /\ legacyAuthInstanceID a ∈ l.
Proof.
  intros Hr. unfold PublishAuthoritativeRoster.
  destruct (retryProbeRosterHold (pb_runtime w) (pe_hold env)) as [r0 err0] eqn:E0. cbv zeta. destruct err0; [done|].
  assert (registry_ok (mkRegistry (rt_store r0) (pb_bindings w))) as Hr0.
  { exact (hold_bindings _ _ _ _ _ Hr E0). }
  destruct (rosterAdmission _ _) as [[adm filtered]|] eqn:Ea; [|done]. destruct (admission_entries _ _ _ _ Ea) as [Hobs Hids].
  cbn [pb_bindings set_field PublishWorld_eta]. change (pb_store (w <| pb_runtime := r0 |>)) with (rt_store r0).
  destruct (ReconcileRosterTiers _ _ _ _ _) as [reg [reconciled|e]] eqn:Erec; [|done].
  destruct (reconcile_success _ _ _ _ _ _ _ Hr0 Erec) as ([Hk1 _] & Erb & Hin & Hremoved).
  match goal with |- context [reconcileActiveCredentialTails Sum256 ?h ?w0 ?a ?b ?c] => pose proof (tails_loaded h w0 a b c Hk1) as Hk2 end.
  destruct (commitPublication _ _ _ _ _) as [w2 err] eqn:Ecom. intros [= -> ->].
  destruct (commit_publication _ _ _ _ _ _ Hk2 Ecom) as (Eadm & Eent & Hk3 & Heff). rewrite Eadm, Eent.
  assert (Hleft : forall a, (exists b, pb_bindings w !! a = Some b /\ rb_AuthID b = a /\ rb_Instance b <> 0 /\ a ∉ adm_AuthIDs adm) ->
    a ∈ rb_AuthID <$> rec_Removed reconciled).
  { intros a (b & Hb & Eid & Hi & Hna). apply list_elem_of_fmap. exists b. split; [done|]. apply (Hremoved a); [done|done|].
    destruct (br_bindings reg !! a) eqn:E; [|done]. exfalso. apply Hna, Hids, Hin. by rewrite E. }
  split; [done|]. split; [exact Hids|]. split.
  - eapply keeps_mono; [|exact Hk3]. intros st [H1 H2]. split; [exact H1|]. split; [|intros a Ha; by apply H2, Hleft].
    intros a (e & He & <-)%Hids. destruct H1 as (_ & p & _ & _ & _ & Hall). rewrite Eent in Hall.
    apply list_elem_of_lookup_1 in He as [n Hn]. destruct (Forall2_lookup_l _ _ _ _ _ Hall Hn) as (q & _ & _ & _ & _ & b & Hb & Hi & _). by exists b.
  - intros a Ha. by apply Heff, Hleft.
Qed.
End published.

(** ** What a failed publication leaves *)

(** Up to the last steps, nothing touches the admission or the gates' roster. *)
Definition publishes (e : publish_effect) : bool := match e with AdapterRoster _ | LoopStart => true | _ => false end.
Record unpublished (w w' : PublishWorld) : Prop := {
  up_admission : st_cpaAdmission (pb_state w') = st_cpaAdmission (pb_state w);
  up_version : st_cpaAdmissionVersion (pb_state w') = st_cpaAdmissionVersion (pb_state w);
  up_gate : pb_gate w' = pb_gate w;
  up_effects : exists l, pb_effects w' = pb_effects w ++ l /\ existsb publishes l = false;
}.
#[export] Instance unpublished_preorder : PreOrder unpublished.
Proof.
  split.
  - intros w. split; try done. exists []. by rewrite app_nil_r.
  - intros w1 w2 w3 [A1 A2 A3 (l1 & A4 & A5)] [B1 B2 B3 (l2 & B4 & B5)].
    split; [congruence..|]. exists (l1 ++ l2). rewrite B4, A4, existsb_app, A5, B5. by rewrite app_assoc.
Qed.
Lemma unpublished_emit w e : publishes e = false -> unpublished w (emit w e).
Proof. intros He. split; try done. exists [e]. simpl. by rewrite He. Qed.
(** A step that changes the stores, the mirrors, or the account table outside its
    admission. *)
Lemma unpublished_frame w w' : st_cpaAdmission (pb_state w') = st_cpaAdmission (pb_state w) ->
  st_cpaAdmissionVersion (pb_state w') = st_cpaAdmissionVersion (pb_state w) -> pb_gate w' = pb_gate w -> pb_effects w' = pb_effects w -> unpublished w w'.
Proof. intros. split; try done. exists []. by rewrite app_nil_r. Qed.

Lemma unpublished_unpark w authID now : unpublished w (unparkAfterExternalLogin w authID now).
Proof.
  unfold unparkAfterExternalLogin. destruct (String.eqb authID ""); [done|].
  destruct (ClearAccountAuthFailure _ _) as [s cleared] eqn:E.
  assert (st_cpaAdmission s = st_cpaAdmission (pb_state w) /\ st_cpaAdmissionVersion s = st_cpaAdmissionVersion (pb_state w)) as [E1 E2].
  { unfold ClearAccountAuthFailure in E. destruct (String.eqb authID ""); [by injection E as <- _|]. destruct (findAccountLocked _ _ _) as [[key a]|]; [|by injection E as <- _].
    destruct (negb _); by injection E as <- _. }
  destruct (negb cleared); [done|].
  etransitivity; [|by apply unpublished_emit]. etransitivity; [|by apply unpublished_emit]. apply unpublished_frame; [exact E1|exact E2|done..].
Qed.

Section failed.
Context `{mr : MapRange} (Sum256 : string -> string).

Lemma unpublished_tail host w a b env : unpublished w (reconcileTail Sum256 host w a b env).
Proof.
  unfold reconcileTail. destruct (_ =? 0); [done|]. cbv zeta. destruct (ReconcileWithHooks _ _ _ _ _ _) as [m [report err]].
  set (w1 := (withStore w (cm_store m)) <| pb_credentials := cm_state m |>). assert (unpublished w w1) as H1 by by apply unpublished_frame.
  set (w2 := if externalLogin report then emit w1 _ else w1).
  assert (unpublished w w2) as H2 by (subst w2; destruct (externalLogin report); [etransitivity; [exact H1|by apply unpublished_emit]|exact H1]).
  clearbody w2. clear H1 w1. destruct err as [e|].
  - destruct (_ && _ && _); [set (w3 := emit w2 _); assert (unpublished w2 w3) as H3 by by apply unpublished_emit; clearbody w3|].
    + etransitivity; [exact H2|]. etransitivity; [exact H3|]. by apply unpublished_frame.
    + etransitivity; [exact H2|]. by apply unpublished_frame.
  - set (w3 := if _ || _ then _ else w2). assert (unpublished w2 w3) as H3 by (subst w3; destruct (_ || _); [by apply unpublished_frame|done]).
    clearbody w3. destruct (externalLogin report); [|by etransitivity].
    etransitivity; [exact H2|]. etransitivity; [exact H3|]. etransitivity; [|apply unpublished_unpark].
    destruct (pb_bindings w3 !! a); [by apply unpublished_emit|done].
Qed.
Lemma unpublished_tails host w bindings fresh env : unpublished w (reconcileActiveCredentialTails Sum256 host w bindings fresh env).
Proof.
  unfold reconcileActiveCredentialTails. generalize (sortStrings (map_range bindings).*1). intros l. revert w.
  induction l as [|a l IH]; intros w; cbn [foldl]; [done|]. etransitivity; [|apply IH].
  destruct (bool_decide _); [done|]. destruct (bindings !! a); [apply unpublished_tail|done].
Qed.

Lemma unpublished_cancel w ids now io : unpublished w (CancelRosterInstances w ids now io).1.
Proof.
  unfold CancelRosterInstances. destruct ids; [done|]. cbv zeta. destruct (updateStore _ _ _) as [r res].
  etransitivity; [by apply (unpublished_emit w (CoordCancel (legacyAuthInstanceID <$> s :: ids)))|]. by apply unpublished_frame.
Qed.

Lemma unpublished_commit w admission filtered reconciled env w' e :
  commitPublication w admission filtered reconciled env = (w', Some e) -> unpublished w w'.
Proof.
  unfold commitPublication, snapshotStore. destruct (PersistentSnapshot _ _) as [s [st|err]]; cbv zeta; [|intros [= <- _]; by apply unpublished_frame].
  set (w1 := withStore w s). assert (unpublished w w1) as H1 by by apply unpublished_frame. clearbody w1.
  destruct (publishedBindings _ _) as [bs|]; [|by intros [= <- _]]. destruct (persistedEntries _ _); [|by intros [= <- _]].
  destruct (UpdateMirrored _ _ _ _ _) as [s2 [got|err]]; [|intros [= <- _]; etransitivity; [exact H1|by apply unpublished_frame]].
  match goal with |- context [CancelRosterInstances ?w2 ?a ?b ?c] => pose proof (unpublished_cancel w2 a b c) as H2;
    assert (unpublished w w2) as H3 by (etransitivity; [exact H1|]; etransitivity; [|apply unpublished_emit; reflexivity]; by apply unpublished_frame);
    destruct (CancelRosterInstances w2 a b c) as [w3 [err|]] end.
  { intros [= <- _]. etransitivity; [exact H3|exact H2]. }
  destruct (recoverProbeFromRoster _ _ _ _ _) as [r [err|]]; [|done]. intros [= <- _].
  etransitivity; [exact H3|]. etransitivity; [exact H2|]. by apply unpublished_frame.
Qed.

Lemma cancel_error w ids now io w' e : CancelRosterInstances w ids now io = (w', Some e) -> e <> PublishCapability.
Proof. unfold CancelRosterInstances. intros E. repeat case_match; by simplify_eq. Qed.
Lemma commit_error w admission filtered reconciled env w' e :
  commitPublication w admission filtered reconciled env = (w', Some e) -> e <> PublishCapability.
Proof.
  unfold commitPublication, snapshotStore. cbv zeta. destruct (PersistentSnapshot _ _) as [s [st|err]]; [|intros E; by simplify_eq].
  destruct (publishedBindings _ _) as [bs|]; [|intros E; by simplify_eq]. destruct (persistedEntries _ _); [|intros E; by simplify_eq].
  destruct (UpdateMirrored _ _ _ _ _) as [s2 [got|err]]; [|intros E; by simplify_eq].
  destruct (CancelRosterInstances _ _ _ _) as [w3 [err|]] eqn:Ec; [intros [= _ <-]; by eapply cancel_error|].
  destruct (recoverProbeFromRoster _ _ _ _ _) as [r [err|]]; intros E; by simplify_eq.
Qed.

(** C14: A publication that fails publishes nothing: whatever the step that failed and
    whatever the stores and the host answered, the admission of the account table and
    its version, and the roster of the gates and of the host adapter, are those of the
    last publication, and the refresh loop is not started.  Only a roster that cannot be
    admitted closes the gates; it leaves the account table, the bindings and the
    credentials as they were, and the store and the probe windows too, except that a
    roster hold that was still to be written, which every publication retries first,
    is written. *)
Theorem failed_publication_publishes_nothing (w w' : PublishWorld) (roster : HostRosterSnapshot) (env : publish_env) (e : publish_error) :
  PublishAuthoritativeRoster Sum256 w roster env = (w', Some e) ->
  st_cpaAdmission (pb_state w') = st_cpaAdmission (pb_state w) /\ st_cpaAdmissionVersion (pb_state w') = st_cpaAdmissionVersion (pb_state w)
  /\ gt_roster (pb_gate w') = match e with PublishCapability => emptyHostRoster <| hr_Capability := CapabilityB |> | _ => gt_roster (pb_gate w) end
  /\ exists l, pb_effects w' = pb_effects w ++ l /\ existsb publishes l = false
     /\ (e = PublishCapability -> l = [] /\ pb_state w' = pb_state w /\ pb_bindings w' = pb_bindings w /\ pb_credentials w' = pb_credentials w
         /\ pb_runtime w' = if rt_holdPending (pb_runtime w) then (persistRosterHold (pb_runtime w) (pe_hold env)).1 else pb_runtime w).
Proof.
  unfold PublishAuthoritativeRoster. destruct (retryProbeRosterHold _ _) as [r0 err0] eqn:Eh. cbv zeta.
  assert (r0 = if rt_holdPending (pb_runtime w) then (persistRosterHold (pb_runtime w) (pe_hold env)).1 else pb_runtime w) as Er0.
  { unfold retryProbeRosterHold in Eh. destruct (rt_holdPending _); cbn [negb] in Eh; by rewrite ?Eh; simplify_eq. }
  set (w0 := w <| pb_runtime := r0 |>). assert (unpublished w w0) as H0 by by apply unpublished_frame.
  assert (forall w1, unpublished w w1 -> e <> PublishCapability -> (w1, Some e) = (w', Some e) ->
    st_cpaAdmission (pb_state w') = st_cpaAdmission (pb_state w) /\ st_cpaAdmissionVersion (pb_state w') = st_cpaAdmissionVersion (pb_state w)
    /\ gt_roster (pb_gate w') = match e with PublishCapability => emptyHostRoster <| hr_Capability := CapabilityB |> | _ => gt_roster (pb_gate w) end
    /\ exists l, pb_effects w' = pb_effects w ++ l /\ existsb publishes l = false
       /\ (e = PublishCapability -> l = [] /\ pb_state w' = pb_state w /\ pb_bindings w' = pb_bindings w /\ pb_credentials w' = pb_credentials w
           /\ pb_runtime w' = if rt_holdPending (pb_runtime w) then (persistRosterHold (pb_runtime w) (pe_hold env)).1 else pb_runtime w)) as Hdone.
  { intros w1 [A1 A2 A3 (l & A4 & A5)] He [= <-]. rewrite A3. split_and!; [done|done|by destruct e|]. exists l. by split_and!. }
  destruct err0 as [e0|]; [intros [= <- <-]; by apply (Hdone w0)|].
  change (pb_state w0) with (pb_state w). destruct (rosterAdmission _ _) as [[adm filtered]|].
  2: { intros [= <- <-]. split_and!; try done. exists []. by rewrite app_nil_r. }
  destruct (ReconcileRosterTiers _ _ _ _ _) as [reg [reconciled|e0]]; [|intros [= <- <-]; refine (Hdone _ _ _ eq_refl); [etransitivity; [exact H0|by apply unpublished_frame]|done]].
  intros E. pose proof (unpublished_commit _ _ _ _ _ _ _ E) as Hc.
  pose proof (commit_error _ _ _ _ _ _ _ E) as Hne.
  apply (Hdone w' ltac:(etransitivity; [exact H0|]; etransitivity; [|exact Hc]; etransitivity; [|apply unpublished_tails]; by apply unpublished_frame) Hne eq_refl).
Qed.
End failed.

(** ** What a resolution leaves *)

Section resolved.
Context `{mr : MapRange} (Sum256 : string -> string).

Lemma u64_next x : u64 (x + 1) <> x.
Proof. unfold u64. intros E. pose proof (Z.div_mod (x + 1) 18446744073709551616 ltac:(done)). lia. Qed.

(** The binding a confirmation leaves for the account. *)
Definition resolvedBinding (external : bool) (tier : TierGeneration) (observed : CredentialFingerprint) (b : RuntimeBinding) : RuntimeBinding :=
  if external
  then b <| rb_Login := u64 (rb_Login b + 1) |> <| rb_Admission := u64 (rb_Admission b + 1) |> <| rb_Fingerprint := observed |>
         <| rb_AuthBlocked := false |> <| rb_Generation := tier |>
  else b <| rb_Token := u64 (rb_Token b + 1) |> <| rb_Fingerprint := observed |>.

(** What the durable state holds after a confirmation from [st]. *)
Record resolved (authID : string) (b : RuntimeBinding) (external : bool) (observed : CredentialFingerprint) (st st' : PersistentState) : Prop := {
  rs_chain : ps_CredentialChains st' = <[rb_Instance b := mkChain observed []]> (ps_CredentialChains st);
  rs_own : ps_Bindings st' !! authID = Some (resolvedBinding external (ps_TierGeneration st') observed b);
  rs_others : forall a, a <> authID -> ps_Bindings st' !! a
    = (if external then fun x => x <| rb_Generation := ps_TierGeneration st' |> else id) <$> ps_Bindings st !! a;
  rs_epoch : external = true -> ps_AdmissionEpochs st' !! rb_Instance b = Some (u64 (rb_Admission b + 1)) /\ ps_TierGeneration st' <> 0;
}.

Lemma resolve_chain_resolved authID current external observed st st' :
  ps_Bindings st !! authID = Some current -> resolveChain authID current external observed st = Ok st' ->
  credentialChainUnresolved (chainOf st (rb_Instance current)) = true /\ resolved authID current external observed st st'.
Proof.
  intros Hb. unfold resolveChain. rewrite Hb. destruct (sameBinding current current && credentialChainUnresolved (chainOf st (rb_Instance current))) eqn:E.
  - apply andb_true_iff in E as [-> ->]. cbn [negb orb]. destruct external; cbv zeta; intros [= <-].
    + split; [done|]. split; cbn -[u64]; [done|by rewrite lookup_insert_eq|intros a Ha; by rewrite lookup_insert_ne, lookup_fmap by done|].
      intros _. rewrite lookup_insert_eq. split; [done|]. by destruct (Z.eqb_spec (u64 (ps_TierGeneration st + 1)) 0).
    + split; [done|]. split; cbn -[u64]; [done|by rewrite lookup_insert_eq| |done].
      intros a Ha. rewrite lookup_insert_ne by done. by destruct (ps_Bindings st !! a).
  - apply andb_false_iff in E. destruct (negb (sameBinding current current)) eqn:E1; [done|]. apply negb_false_iff in E1. destruct E as [E|E]; [congruence|]. by rewrite E.
Qed.

Lemma resolved_written authID b external observed st st' :
  resolved authID b external observed st st' -> resolved authID b external observed st (written st st').
Proof. intros [H1 H2 H3 H4]. unfold written. by destruct (ps_FenceUnsafe st); split. Qed.

(** The account table after an external login: the failure is cleared, and a refresh
    of the account is asked for when there was one. *)
Lemma unpark_exact w authID now :
  let cleared := (ClearAccountAuthFailure (pb_state w) authID).2 in
  pb_runtime (unparkAfterExternalLogin w authID now) = pb_runtime w /\ pb_bindings (unparkAfterExternalLogin w authID now) = pb_bindings w
  /\ pb_credentials (unparkAfterExternalLogin w authID now) = pb_credentials w
  /\ (forall e, e ∈ pb_effects w -> e ∈ pb_effects (unparkAfterExternalLogin w authID now))
  /\ (cleared = true -> RefreshOneRequested authID ∈ pb_effects (unparkAfterExternalLogin w authID now)).
Proof.
  unfold unparkAfterExternalLogin. destruct (String.eqb_spec authID "") as [-> |Hne]; [cbn; split_and!; done|].
  destruct (ClearAccountAuthFailure _ _) as [s []] eqn:E; cbn; [|by split_and!].
  split_and!; try done; intros; rewrite !elem_of_app, !list_elem_of_singleton; auto.
Qed.

Lemma confirm_atomic (w w' : PublishWorld) authID b external env err :
  world_ok w -> (forall w, pb_effects (rs_during env w) = pb_effects w) ->
  (forall w1, world_ok w1 -> world_ok (rs_during env w1)) ->
  pb_bindings w !! authID = Some b -> confirmCredential Sum256 w authID b external env = (w', err) ->
  let w1 := rs_during env (if external then emit w (CoordSuspend (rb_Instance b)) else w) in
  let st := sto_state (pb_store w1) in
  match err with
  | Some _ => sto_state (pb_store w') = st /\ pb_bindings w' = pb_bindings w1 /\ pb_credentials w' = pb_credentials w1 /\ pb_state w' = pb_state w1
      /\ pb_effects w' = pb_effects w ++ (if external then [CoordSuspend (rb_Instance b); CoordRestore {[rb_Instance b := rb_Generation b]}] else [])
  | None => exists current observed st',
      rs_host env !! rb_Instance b = Some observed /\ ValidHashes Sum256 (ha_Fingerprint observed) = true
      /\ pb_bindings w1 !! authID = Some current /\ sameBinding current b = true
      /\ credentialChainUnresolved (chainOf st (rb_Instance b)) = true
      /\ resolved authID current external (ha_Fingerprint observed) st st'
      /\ synced (pb_store w') st' /\ pb_bindings w' = ps_Bindings st' /\ pb_credentials w' = st'
      /\ (external = true ->
            CoordActivate (generationsOf (ps_Bindings st')) ∈ pb_effects w'
            /\ ((ClearAccountAuthFailure (pb_state w1) authID).2 = true -> RefreshOneRequested authID ∈ pb_effects w')
            /\ forall token now_, ValidFor token (rb_Instance b) (rb_Admission b) (rb_Generation b) = true ->
                 ps_Bindings st' !! authID = Some now_ -> ValidFor token (rb_Instance now_) (rb_Admission now_) (rb_Generation now_) = false)
  end.
Proof.
  intros Hk Heff Hduring Eb. unfold confirmCredential. cbv zeta.
  set (w0 := if external then emit w _ else w).
  assert (world_ok (rs_during env w0)) as [Hk1 Hm] by (apply Hduring; by subst w0; destruct external).
  assert (pb_effects (rs_during env w0) = pb_effects w ++ if external then [CoordSuspend (rb_Instance b)] else []) as E1.
  { rewrite Heff. subst w0. destruct external; [done|by rewrite app_nil_r]. }
  clearbody w0. cbn [br_store br_bindings] in Hk1, Hm. set (w1 := rs_during env w0) in *. clearbody w1.
  assert (forall w2, pb_effects w2 = pb_effects w1 -> pb_effects (if external then emit w2 (CoordRestore {[rb_Instance b := rb_Generation b]}) else w2)
    = pb_effects w ++ (if external then [CoordSuspend (rb_Instance b); CoordRestore {[rb_Instance b := rb_Generation b]}] else [])) as Erestore.
  { intros w2 E2. destruct external; cbn; rewrite E2, E1; [by rewrite <- app_assoc|done]. }
  assert (forall w2 e, sto_state (pb_store w2) = sto_state (pb_store w1) -> pb_bindings w2 = pb_bindings w1 -> pb_credentials w2 = pb_credentials w1 ->
    pb_state w2 = pb_state w1 -> pb_effects w2 = pb_effects w1 ->
    ((if external then emit w2 (CoordRestore {[rb_Instance b := rb_Generation b]}) else w2), Some e) = (w', err) ->
    is_Some err /\ sto_state (pb_store w') = sto_state (pb_store w1) /\ pb_bindings w' = pb_bindings w1 /\ pb_credentials w' = pb_credentials w1 /\ pb_state w' = pb_state w1
    /\ pb_effects w' = pb_effects w ++ (if external then [CoordSuspend (rb_Instance b); CoordRestore {[rb_Instance b := rb_Generation b]}] else [])) as Hfail.
  { intros w2 e F1 F2 F3 F4 F5 [= <- <-]. split; [by eexists|]. rewrite (Erestore _ F5). destruct external; by split_and!. }
  destruct (if rs_get env then None else rs_host env !! rb_Instance b) as [observed|] eqn:Eh; [|intros E; apply Hfail in E as [[e ->] H]; done].
  assert (rs_host env !! rb_Instance b = Some observed) as Eh' by by destruct (rs_get env).
  destruct (ValidHashes Sum256 (ha_Fingerprint observed)) eqn:Ev; cbn [negb]; [|intros E; apply Hfail in E as [[e ->] H]; done].
  destruct (pb_bindings w1 !! authID) as [current|] eqn:Ec; [|intros E; apply Hfail in E as [[e ->] H]; done].
  destruct (sameBinding current b) eqn:Es; cbn [negb]; [|intros E; apply Hfail in E as [[e ->] H]; done].
  unfold UpdateMirrored. match goal with |- context [updateMode true ?s ?fn ?a ?c ?d] => destruct (updateMode true s fn a c d) as [s1 [got|e]] eqn:EU end; cycle 1.
  { intros E. apply Hfail in E as [[e' ->] H]; try done. exact (updateMode_failure _ _ _ _ _ _ _ _ _ Hk1 EU). }
  destruct (updateMode_success _ _ _ _ _ _ _ _ _ Hk1 EU) as (next & Hn & Hs & ->). rewrite Hm in Ec.
  destruct (resolve_chain_resolved _ _ _ _ _ _ Ec Hn) as [Hu Hres%resolved_written]. set (st' := written _ next) in *. clearbody st'.
  assert (rb_Instance current = rb_Instance b /\ rb_Admission current = rb_Admission b) as [Ei Ea].
  { unfold sameBinding in Es. rewrite !andb_true_iff, !Z.eqb_eq in Es. tauto. }
  rewrite <- Ei, <- Ea in *. destruct external; cycle 1.
  { intros [= <- <-]. exists current, observed, st'. by split_and!. }
  set (w2 := emit _ (CoordActivate _)). destruct (unpark_exact w2 authID (rs_now env)) as (R1 & R2 & R3 & U1 & U2).
  assert (pb_store (unparkAfterExternalLogin w2 authID (rs_now env)) = s1) as R0 by (unfold pb_store; by rewrite R1).
  clear Hfail Erestore. intros [= <- <-]. exists current, observed, st'. rewrite R0, R2, R3. split_and!; try done.
  intros _. split; [apply U1; cbn; apply elem_of_app; right; by left|]. split; [exact U2|].
  intros token bn Hv Hbn. rewrite (rs_own _ _ _ _ _ _ Hres) in Hbn. injection Hbn as <-. unfold ValidFor in *. cbn -[u64].
  apply andb_true_iff in Hv as [[_ Hv%Z.eqb_eq]%andb_true_iff _]. rewrite Hv. pose proof (u64_next (rb_Admission current)).
  destruct (Z.eqb_spec (rb_Admission current) (u64 (rb_Admission current + 1))); [congruence|by rewrite andb_false_r].
Qed.

End resolved.

(** ** What the result of a refresh leaves *)

Section applied.
Context `{mr : MapRange}.

Lemma observe_frame authID i accounts env : forall w w' err,
  observeAccounts w authID i accounts env = (w', err) ->
  pb_state w' = pb_state w /\ pb_bindings w' = pb_bindings w /\ pb_credentials w' = pb_credentials w /\ pb_gate w' = pb_gate w /\ pb_effects w' = pb_effects w.
Proof.
  induction accounts as [|a accounts IH]; intros w w' err; cbn [observeAccounts]; [by intros [= <- _]|].
  destruct (_ || _ || _); [apply IH|]. destruct (reconcileObservedProbeWindows _ _ _ _ _ _) as [r [e|]]; cbv zeta; [by intros [= <- _]|].
  intros H. apply (IH _ _ _ H).
Qed.

(** The account table is given a result only when the result is of the current
    binding and the windows it observed are durable; a failure leaves the table as it
    was, and a stale result leaves everything. *)
Theorem refresh_result_after_windows errorText redactSecrets (w w' : PublishWorld) authID i write j env err launch :
  applyRefreshResult errorText redactSecrets w authID i write (Some j) env = (w', err, launch) ->
  (pb_state w' = pb_state w \/ ApplyIfCurrent (mkRegistry (pb_store w) (pb_bindings w)) authID write = true
     /\ err = None /\ (observeAccounts w authID i (j_Accounts j) env).2 = None
     /\ st_accounts (pb_state w') = st_accounts (applyLegacyEffectJournal (pb_state w) j))
  /\ (err = Some PublishStale -> w' = w) /\ (err <> None -> pb_state w' = pb_state w /\ launch = false)
  /\ (launch = true -> hasPendingProbeWindows (pr_windows (rt_controller (pb_runtime w'))) = true).
Proof.
  unfold applyRefreshResult. destruct (ApplyIfCurrent _ _ _) eqn:Ea; cbn [negb]; [|intros [= <- <- <-]; split_and!; [by left|done|done|done]].
  destruct (observeAccounts w authID i (j_Accounts j) env) as [w1 [e|]] eqn:Eo; destruct (observe_frame _ _ _ _ _ _ _ Eo) as (E1 & _).
  { intros [= <- <- <-]. split_and!; [by left|done|done|done]. }
  cbv zeta. destruct (bootstrapProbeWindows _ _ _ _ _ _ _) as [[r [e|]] b]; intros [= <- <- <-]; cbn -[RecordLog hasPendingProbeWindows]; rewrite E1; split_and!; try done; by right.
Qed.
End applied.

(** ** Examples *)

(** Two bound accounts; a probe of the first is on record, and the roster lists the
    second only. *)
Definition examplePublishStored : PersistentState :=
  let i := legacyAuthInstanceID "a" in
  (sto_state (br_store example_both)) <| ps_ProbeAttempts := {[i := mkAttempt i "probe-a" [ProbeWindowFiveHour] ProbeAttemptSent 1 (1 * Hour) None (2 * Hour) zeroTime]} |>.
Definition examplePublishWorld : PublishWorld :=
  mkPublishWorld
    (mkProbeRuntime (mkProbeController ∅ 0) (mkStore (mkDisk (FileState examplePublishStored) FileAbsent FileAbsent FileAbsent) false true examplePublishStored) ∅ false)
    (ps_Bindings examplePublishStored) examplePublishStored (NewPluginState DefaultConfig) (mkGate emptyHostRoster None 0) [].
Definition examplePublishEnv (roster : store_io) : publish_env :=
  mkPublishEnv store_fine {[legacyAuthInstanceID "a" := example_auth "r1"; legacyAuthInstanceID "b" := example_auth "r1"]} io_fine store_fine
    (fun _ => mkTailEnv example_reconcile true (3 * Hour)) io_fine (3 * Hour) roster (3 * Hour) store_fine (3 * Hour) store_fine (3 * Hour) false.
Definition examplePublish (w : PublishWorld) (roster : store_io) : PublishWorld * option publish_error :=
  PublishAuthoritativeRoster example_hash w (example_roster ["b"]) (examplePublishEnv roster).

Lemma example_publish_ok : world_ok examplePublishWorld.
Proof. split; [|reflexivity]. split; [reflexivity|reflexivity|exact I|]. eexists. split; [reflexivity|]. split; [vm_compute; reflexivity|exact I]. Qed.

Lemma published_roster_consistent_witness :
  let w := (examplePublish examplePublishWorld store_fine).1 in
  (examplePublish examplePublishWorld store_fine).2 = None
  /\ ps_ProbeAttempts (sto_state (pb_store examplePublishWorld)) !! legacyAuthInstanceID "a" <> None
  /\ keeps (attemptGone "a") (pb_store w)
  /\ exists l, CoordCancel l ∈ pb_effects w /\ legacyAuthInstanceID "a" ∈ l.
Proof.
  set (w := (examplePublish examplePublishWorld store_fine).1).
  assert (E : (examplePublish examplePublishWorld store_fine).2 = None) by (vm_compute; reflexivity).
  split; [exact E|]. split; [vm_compute; discriminate|].
  pose proof (published_roster_consistent example_hash examplePublishWorld w (example_roster ["b"]) (examplePublishEnv store_fine) example_publish_ok) as H.
  assert (PublishAuthoritativeRoster example_hash examplePublishWorld (example_roster ["b"]) (examplePublishEnv store_fine) = (w, None)) as E'.
  { rewrite <- E. apply surjective_pairing. }
  destruct (H E') as (_ & _ & H3 & H4).
  assert (exists b, pb_bindings examplePublishWorld !! "a" = Some b /\ rb_AuthID b = "a" /\ rb_Instance b <> 0
    /\ "a" ∉ adm_AuthIDs (st_cpaAdmission (pb_state w))) as Hl.
  { eexists. split; [vm_compute; reflexivity|]. split; [reflexivity|]. split; [discriminate|].
    apply (bool_decide_eq_true_1 ("a" ∉ adm_AuthIDs (st_cpaAdmission (pb_state w)))). vm_compute. reflexivity. }
  split; [|exact (H4 "a" Hl)]. eapply keeps_mono; [|exact H3]. intros st (_ & _ & Hst). exact (Hst "a" Hl).
Defined.

Lemma failed_publication_publishes_nothing_witness :
  let failed := examplePublish examplePublishWorld (mkStoreIO io_fine WriteOk FailsBefore) in
  failed.2 = Some (PublishStore ErrWrite)
  /\ gt_roster (pb_gate failed.1) = emptyHostRoster /\ st_cpaAdmission (pb_state failed.1) = emptyAdmission
  /\ pb_bindings failed.1 !! "a" = None.
Proof.
  set (failed := examplePublish _ _). assert (E : failed.2 = Some (PublishStore ErrWrite)) by (vm_compute; reflexivity).
  assert (failed = (failed.1, Some (PublishStore ErrWrite))) as Ef by (rewrite <- E; apply surjective_pairing).
  destruct (failed_publication_publishes_nothing example_hash examplePublishWorld failed.1 (example_roster ["b"])
    (examplePublishEnv (mkStoreIO io_fine WriteOk FailsBefore)) _ Ef) as (H1 & _ & H2 & _).
  split; [exact E|]. split; [exact H2|]. split; [exact H1|]. vm_compute. reflexivity.
Defined.

(** What a publication that fails after the bindings were reconciled leaves undone:
    the next one finds the account gone already, so its jobs are not cancelled and its
    probe stays on record (until the orphans are looked for). *)
Definition examplePublishFailed : PublishWorld * option publish_error := examplePublish examplePublishWorld (mkStoreIO io_fine WriteOk FailsBefore).
Definition examplePublishAgain : PublishWorld * option publish_error := examplePublish examplePublishFailed.1 store_fine.

Definition cancels (e : publish_effect) : bool := match e with CoordCancel _ => true | _ => false end.
Lemma removed_accounts_forgotten_after_failed_publish :
  examplePublishFailed.2 <> None /\ examplePublishAgain.2 = None
  /\ adm_AuthIDs (st_cpaAdmission (pb_state examplePublishAgain.1)) = {["b"]}
  /\ existsb cancels (pb_effects examplePublishAgain.1) = false
  /\ ps_ProbeAttempts (sto_state (pb_store examplePublishAgain.1)) !! legacyAuthInstanceID "a" <> None.
Proof. vm_compute. repeat split; discriminate. Qed.

(** The host holds a credential that fits neither side of the open transition; the
    operator says that it is a login of theirs. *)
Definition exampleResolveWorld : PublishWorld :=
  mkPublishWorld
    (mkProbeRuntime (mkProbeController ∅ 0) (mkStore (mkDisk (FileState example_open) FileAbsent FileAbsent FileAbsent) false true example_open) ∅ false)
    (ps_Bindings example_open) example_open (NewPluginState DefaultConfig) (mkGate emptyHostRoster None 0) [].
Definition exampleResolveEnv (commit : store_io) : resolve_env :=
  mkResolveEnv io_fine example_reconcile {[7 := example_auth "r9"]} io_fine false (fun w => w) commit (3 * Hour).
Definition exampleActive : ActiveRoster :=
  waitingRoster <| ar_Confirmed := true |> <| ar_Health := RosterHealthy |> <| ar_Instances := ["a"] |>.
Definition exampleResolve (commit : store_io) : PublishWorld * option publish_error :=
  ResolveCredentialAmbiguity example_hash exampleResolveWorld exampleActive "a" CredentialConfirmExternal (exampleResolveEnv commit).

