(* ===== verification/UserData.v ===== *)
(** * User data (user_data.go, disk_state.go)

    The configuration and the annotations are the user's data: a file with a
    backup, each replaced atomically, and the migration of the file of earlier
    versions.  A file is what reading and decoding it gives; every replacement may
    fail before or after it happened, and a crash is such a failure after which
    nothing else runs. *)

From S2P Require Import Prelude GoStrings Float64 Text Json RetryChain Config Models Annotations Auth State StateStore.
#[local] Open Scope string_scope.
#[local] Open Scope list_scope.
#[local] Open Scope Z_scope.
#[local] Open Scope go_scope.

Record PluginDiskState := mkDiskState {
  ds_Config : Config;
  ds_Accounts : gmap string AccountAnnotation;
  ds_Groups : gmap string GroupAnnotation;
}.
#[export] Instance PluginDiskState_eta : Eta PluginDiskState := fun r => mkDiskState (ds_Config r) (ds_Accounts r) (ds_Groups r).
#[export] Instance RetryChainRow_eq_dec : EqDecision RetryChainRow.
Proof. solve_decision. Defined.
#[export] Instance Config_eq_dec : EqDecision Config.
Proof. solve_decision. Defined.
#[export] Instance AccountAnnotation_eq_dec : EqDecision AccountAnnotation.
Proof. solve_decision. Defined.
#[export] Instance GroupAnnotation_eq_dec : EqDecision GroupAnnotation.
Proof. solve_decision. Defined.
#[export] Instance PluginDiskState_eq_dec : EqDecision PluginDiskState.
Proof. solve_decision. Defined.

Definition normalizePluginDiskState (state : PluginDiskState) : PluginDiskState :=
  let annotations := NormalizeAnnotationState (mkAnnotations (ds_Accounts state) (ds_Groups state)) in
  mkDiskState (normalizeDiskConfig (ds_Config state)) (ann_Accounts annotations) (ann_Groups annotations).
Definition defaultDiskState : PluginDiskState := normalizePluginDiskState (mkDiskState DefaultConfig ∅ ∅).
Definition diskStateFromStore (s : PluginState) : PluginDiskState :=
  mkDiskState (st_cfg s) (ann_Accounts (st_annotations s)) (ann_Groups (st_annotations s)).

Definition CurrentUserDataSchema : Z := 1.

(** ** Files *)

Inductive user_file := UserAbsent | UserData (schema : Z) (state : PluginDiskState) | UserGarbage | UserUnreadable.

(** A file of an earlier version: its text as any JSON value, and decoded with
    unknown fields refused. *)
Inductive legacy_file := LegacyAbsent | LegacyUnreadable | LegacyEmpty | LegacyText (generic : option json) (strict : option PluginDiskState).

Record UserDisk := mkUserDisk {
  ud_primary : user_file;
  ud_backup : user_file;
  ud_primaryCorrupt : user_file;
  ud_backupCorrupt : user_file;
  ud_legacy : legacy_file;
  ud_migrated : legacy_file;
}.
#[export] Instance UserDisk_eta : Eta UserDisk := fun r => mkUserDisk
  (ud_primary r) (ud_backup r) (ud_primaryCorrupt r) (ud_backupCorrupt r) (ud_legacy r) (ud_migrated r).

Inductive user_error := UserRead | UserDecode | UserFuture | UserWrite | UserEvidence | UserSensitive | UserMismatch.

Definition readUserData (f : user_file) : result user_error (PluginDiskState * bool) :=
  match f with
  | UserAbsent => Ok (defaultDiskState, false)
  | UserUnreadable => Err UserRead
  | UserGarbage => Err UserDecode
  | UserData schema state => if CurrentUserDataSchema <? schema then Err UserFuture else Ok (normalizePluginDiskState state, true)
  end.

(** The file a replacement leaves; a failure after it happened leaves the new one. *)
Definition replaced {A} (old new : A) (outcome : write_outcome) : A :=
  match outcome with FailsBefore => old | _ => new end.
Definition failed (outcome : write_outcome) : bool := match outcome with WriteOk => false | _ => true end.

(** [writeUserDataAtomic], with [writeUserArtifactAtomic] for the backup. *)
Definition writeUserDataAtomic (d : UserDisk) (state : PluginDiskState) (ioBackup ioPrimary : write_outcome) : UserDisk * option user_error :=
  let raw := UserData CurrentUserDataSchema (normalizePluginDiskState state) in
  match (match ud_primary d with UserAbsent => Some raw | UserUnreadable => None | current => Some current end) with
  | None => (d, Some UserRead)
  | Some current =>
      let d := d <| ud_backup := replaced (ud_backup d) current ioBackup |> in
      if failed ioBackup then (d, Some UserWrite)
      else
        let d := d <| ud_primary := replaced (ud_primary d) raw ioPrimary |> in
        (d, if failed ioPrimary then Some UserWrite else None)
  end.
Definition SaveUserData := writeUserDataAtomic.

Definition quarantineUserArtifact (f evidence : user_file) (outcome : write_outcome) : user_file * user_file * option user_error :=
  match f with
  | UserAbsent => (f, evidence, None)
  | _ =>
      match evidence with
      | UserAbsent => (replaced f UserAbsent outcome, replaced evidence f outcome, if failed outcome then Some UserWrite else None)
      | _ => (f, evidence, Some UserEvidence)
      end
  end.
Definition quarantineUserPrimary (d : UserDisk) (outcome : write_outcome) : UserDisk * option user_error :=
  let '(f, ev, err) := quarantineUserArtifact (ud_primary d) (ud_primaryCorrupt d) outcome in
  (d <| ud_primary := f |> <| ud_primaryCorrupt := ev |>, err).
Definition quarantineUserBackup (d : UserDisk) (outcome : write_outcome) : UserDisk * option user_error :=
  let '(f, ev, err) := quarantineUserArtifact (ud_backup d) (ud_backupCorrupt d) outcome in
  (d <| ud_backup := f |> <| ud_backupCorrupt := ev |>, err).

(** ** Loading *)

Record UserDataRecoveryReport := mkUserReport { ur_Migrated : bool; ur_UsedBackup : bool; ur_RecoveredDefault : bool }.
Record user_io := mkUserIO { ui_quarantine1 : write_outcome; ui_quarantine2 : write_outcome; ui_backup : write_outcome; ui_primary : write_outcome }.
Definition user_fine : user_io := mkUserIO WriteOk WriteOk WriteOk WriteOk.

(** The branches on [os.ErrNotExist] are not here: [readUserData] never returns it. *)
Definition loadUserDataRecover (d : UserDisk) (io : user_io) : UserDisk * result user_error (PluginDiskState * bool * UserDataRecoveryReport) :=
  match readUserData (ud_primary d) with
  | Ok (state, loaded) =>
      let old := match ud_primary d with UserData schema _ => schema <? CurrentUserDataSchema | _ => false end in
      if loaded && old then
        let '(d, werr) := SaveUserData d state (ui_backup io) (ui_primary io) in
        (d, match werr with Some e => Err e | None => Ok (state, loaded, mkUserReport true false false) end)
      else (d, Ok (state, loaded, mkUserReport false false false))
  | Err UserFuture => (d, Err UserFuture)
  | Err _ =>
      match readUserData (ud_backup d) with
      | Ok (backup, backupLoaded) =>
          let '(d, qerr) := quarantineUserPrimary d (ui_quarantine1 io) in
          match qerr with
          | Some e => (d, Err e)
          | None =>
              let '(d, werr) := SaveUserData d backup (ui_backup io) (ui_primary io) in
              (d, match werr with Some e => Err e | None => Ok (backup, backupLoaded, mkUserReport false true false) end)
          end
      | Err _ =>
          let '(d, qerr) := quarantineUserPrimary d (ui_quarantine1 io) in
          match qerr with
          | Some e => (d, Err e)
          | None =>
              let '(d, qerr) := quarantineUserBackup d (ui_quarantine2 io) in
              (d, match qerr with Some e => Err e | None => Ok (defaultDiskState, false, mkUserReport false false true) end)
          end
      end
  end.
Definition loadUserData (d : UserDisk) (io : user_io) : UserDisk * result user_error (PluginDiskState * bool) :=
  let '(d, res) := loadUserDataRecover d io in
  (d, match res with Ok (state, loaded, _) => Ok (state, loaded) | Err e => Err e end).

(** ** Migration *)

Section migration.
Context (containsSensitiveCredentialMaterial : string -> bool).

(** Objects are decoded into maps; which of several keys is reported depends on
    their order, whether there is one does not. *)
Definition sensitiveKey (k : string) : bool :=
  let lower := ToLower (String.string_of_list_ascii ((fun c => if Ascii.eqb c (Ascii.ascii_of_nat 45) then Ascii.ascii_of_nat 95 else c) <$> String.list_ascii_of_string k)) in
  existsb (Contains lower) ["token"; "cookie"; "header"; "authorization"].
Fixpoint legacySensitiveKey (fuel : nat) (v : json) : bool :=
  match fuel with
  | O => false
  | S fuel =>
      match v with
      | JObject fs => existsb (fun kv => sensitiveKey kv.1 || legacySensitiveKey fuel kv.2) (mapPairs fs)
      | JArray items => existsb (legacySensitiveKey fuel) items
      | _ => false
      end
  end.
Fixpoint legacyContainsSensitiveValue (fuel : nat) (v : json) : bool :=
  match fuel with
  | O => false
  | S fuel =>
      match v with
      | JString s => containsSensitiveCredentialMaterial s
      | JObject fs => existsb (fun kv => legacyContainsSensitiveValue fuel kv.2) (mapPairs fs)
      | JArray items => existsb (legacyContainsSensitiveValue fuel) items
      | _ => false
      end
  end.

Definition loadStrictLegacyUserData (f : legacy_file) : result user_error (PluginDiskState * bool) :=
  match f with
  | LegacyAbsent | LegacyEmpty => Ok (defaultDiskState, false)
  | LegacyUnreadable => Err UserRead
  | LegacyText None _ => Err UserDecode
  | LegacyText (Some generic) strict =>
      if legacySensitiveKey (S (jdepth generic)) generic || legacyContainsSensitiveValue (S (jdepth generic)) generic then Err UserSensitive
      else match strict with Some state => Ok (normalizePluginDiskState state, true) | None => Err UserDecode end
  end.

(** The outcomes of a migration: the replacements of the user data, what becomes of
    the new file before it is read back (the disk may lose or damage what was
    written), what happens between the verification and the renaming of the old file,
    and the renaming. *)
Record migration_io := mkMigrationIO { mi_load : user_io; mi_backup : write_outcome; mi_primary : write_outcome;
  mi_between : user_file -> user_file; mi_reload : user_io; mi_verified : bool; mi_rename : write_outcome }.

Definition loadUserDataWithMigration (d : UserDisk) (io : migration_io) : UserDisk * result user_error (PluginDiskState * bool) :=
  match ud_primary d with
  | UserAbsent =>
      match loadStrictLegacyUserData (ud_legacy d) with
      | Err e => (d, Err e)
      | Ok (legacy, false) => (d, Ok (legacy, false))
      | Ok (legacy, true) =>
          let '(d, werr) := writeUserDataAtomic d legacy (mi_backup io) (mi_primary io) in
          match werr with
          | Some e => (d, Err e)
          | None =>
              let '(d, res) := loadUserData (d <| ud_primary := mi_between io (ud_primary d) |>) (mi_reload io) in
              match res with
              | Err e => (d, Err e)
              | Ok (verified, _) =>
                  if negb (mi_verified io) then (d, Err UserWrite)
                  else if negb (bool_decide (normalizePluginDiskState legacy = verified)) then (d, Err UserMismatch)
                  else
                    let d := d <| ud_legacy := replaced (ud_legacy d) LegacyAbsent (mi_rename io) |>
                               <| ud_migrated := replaced (ud_migrated d) (ud_legacy d) (mi_rename io) |> in
                    (d, if failed (mi_rename io) then Err UserWrite else Ok (verified, true))
              end
          end
      end
  | _ => loadUserData d (mi_load io)
  end.
End migration.

(** ** Normalisation *)

Definition endpoint_known (c : Config) : Prop := exists e, validateQuotaEndpoint (QuotaEndpoint c) = Ok e.
Lemma normalizeDiskConfig_id c : config_wf c -> endpoint_known c -> normalizeDiskConfig c = c.
Proof.
  intros Hwf [e He]. unfold normalizeDiskConfig. pose proof (wf_interval _ Hwf). rewrite (proj2 (Z.leb_gt _ _)) by done. cbn [andb].
  rewrite (NormalizeConfig_id _ Hwf). by rewrite He.
Qed.
Lemma normalizeDiskConfig_wf cfg : config_wf (normalizeDiskConfig cfg) /\ endpoint_known (normalizeDiskConfig cfg).
Proof.
  unfold normalizeDiskConfig. set (c := if _ : bool then _ else _). pose proof (NormalizeConfig_wf c) as Hwf.
  destruct (validateQuotaEndpoint (QuotaEndpoint (NormalizeConfig c))) eqn:E; [by split; [|eexists]|].
  split; [destruct Hwf; by split|eexists; vm_compute; reflexivity].
Qed.
Lemma normalizeDiskConfig_idem cfg : normalizeDiskConfig (normalizeDiskConfig cfg) = normalizeDiskConfig cfg.
Proof. destruct (normalizeDiskConfig_wf cfg). by apply normalizeDiskConfig_id. Qed.

Lemma normalizeTags_idem tags : normalizeTags (normalizeTags tags) = normalizeTags tags.
Proof. unfold normalizeTags at 1. apply normalizeTags_from_id; [apply normalizeTags_from_spec|]. intros t _. apply not_elem_of_empty. Qed.

Lemma NormalizeAnnotationState_idem a : NormalizeAnnotationState (NormalizeAnnotationState a) = NormalizeAnnotationState a.
Proof.
  unfold NormalizeAnnotationState. cbn. f_equal; rewrite <- map_fmap_compose; apply map_fmap_ext; intros i [] _; cbn; by rewrite normalizeTags_idem.
Qed.

Lemma normalizePluginDiskState_idem st : normalizePluginDiskState (normalizePluginDiskState st) = normalizePluginDiskState st.
Proof.
  unfold normalizePluginDiskState. cbn. rewrite normalizeDiskConfig_idem.
  pose proof (NormalizeAnnotationState_idem (mkAnnotations (ds_Accounts st) (ds_Groups st))) as H. unfold NormalizeAnnotationState in *. cbn in *.
  injection H as -> ->. done.
Qed.

Definition normalized (x : PluginDiskState) : Prop := normalizePluginDiskState x = x.
Lemma normalized_normalize st : normalized (normalizePluginDiskState st).
Proof. exact (normalizePluginDiskState_idem st). Qed.
#[local] Opaque normalizePluginDiskState normalized.
Lemma normalized_eq x : normalized x -> normalizePluginDiskState x = x.
Proof. exact id. Qed.

Lemma load_current d x io : ud_primary d = UserData CurrentUserDataSchema x -> normalized x ->
  loadUserDataRecover d io = (d, Ok (x, true, mkUserReport false false false)).
Proof. intros Hp Hx. unfold loadUserDataRecover. rewrite Hp. cbn. by rewrite (normalized_eq _ Hx). Qed.

Lemma save_user_cases d x st ioB ioP d' err :
  ud_primary d = UserData CurrentUserDataSchema x -> SaveUserData d st ioB ioP = (d', err) ->
  exists y, ud_primary d' = UserData CurrentUserDataSchema y /\ (y = x \/ y = normalizePluginDiskState st)
  /\ (err = None -> y = normalizePluginDiskState st /\ ud_backup d' = UserData CurrentUserDataSchema x)
  /\ ud_primaryCorrupt d' = ud_primaryCorrupt d /\ ud_backupCorrupt d' = ud_backupCorrupt d.
Proof.
  intros Hp. unfold SaveUserData, writeUserDataAtomic. rewrite Hp. destruct ioB, ioP; intros [= <- <-]; cbn; rewrite ?Hp; eexists; (split; [reflexivity|]); split_and!; auto; done.
Qed.

(** ** Saves *)

(** A list of saves, each with the outcomes of its replacements, and the states a
    reader may find afterwards: the last one whose save was acknowledged and those
    whose saves failed since. *)
Fixpoint saves (d : UserDisk) (found : list PluginDiskState) (l : list (PluginDiskState * write_outcome * write_outcome))
  : UserDisk * list PluginDiskState :=
  match l with
  | [] => (d, found)
  | (st, ioB, ioP) :: l =>
      let '(d, err) := SaveUserData d st ioB ioP in
      let st := normalizePluginDiskState st in
      saves d (match err with None => [st] | Some _ => found ++ [st] end) l
  end.

Lemma saves_inv l : forall d found, Forall normalized found ->
  (exists x, ud_primary d = UserData CurrentUserDataSchema x /\ x ∈ found) ->
  let '(d', found') := saves d found l in Forall normalized found' /\ exists x, ud_primary d' = UserData CurrentUserDataSchema x /\ x ∈ found'.
Proof.
  induction l as [|[[st ioB] ioP] l IH]; intros d found Hn Hx; cbn [saves]; [done|].
  destruct Hx as (x & Hp & Hin). destruct (SaveUserData d st ioB ioP) as [d1 err] eqn:E.
  destruct (save_user_cases _ _ _ _ _ _ _ Hp E) as (y & Hy & Hor & Hack & _). apply IH.
  - destruct err; [apply Forall_app_2; [done|]|]; apply Forall_singleton, normalized_normalize.
  - exists y. split; [done|]. destruct err as [e|]; [|rewrite (proj1 (Hack eq_refl)); by left].
    apply elem_of_app. destruct Hor as [-> | ->]; [by left|right; by left].
Qed.

(** A start that finds the file damaged and evidence of an earlier damage gives up
    and leaves everything as it is. *)
Lemma recovery_refused d io y :
  ud_primary d = UserGarbage -> ud_backup d = UserData CurrentUserDataSchema y -> ud_primaryCorrupt d <> UserAbsent ->
  loadUserDataRecover d io = (d, Err UserEvidence).
Proof.
  intros Hp Hb Hc. unfold loadUserDataRecover, quarantineUserPrimary. rewrite Hp, Hb. cbn. destruct d as [p b c e l m]; cbn in *. subst p b.
  by destruct c.
Qed.

Lemma recovery_keeps_backup d io y :
  ud_primary d = UserGarbage -> ud_backup d = UserData CurrentUserDataSchema y -> normalized y ->
  ud_backup (loadUserDataRecover d io).1 = UserData CurrentUserDataSchema y.
Proof.
  intros Hp Hb Hy. unfold loadUserDataRecover, quarantineUserPrimary, SaveUserData, writeUserDataAtomic. rewrite Hp, Hb. cbn.
  rewrite (normalized_eq _ Hy). destruct (ud_primaryCorrupt d), (ui_quarantine1 io), (ui_backup io), (ui_primary io); cbn; rewrite ?(normalized_eq _ Hy); done.
Qed.

Lemma recovery_succeeds d y :
  ud_primary d = UserGarbage -> ud_backup d = UserData CurrentUserDataSchema y -> normalized y -> ud_primaryCorrupt d = UserAbsent ->
  exists d3, loadUserDataRecover d user_fine = (d3, Ok (y, true, mkUserReport false true false))
    /\ ud_primary d3 = UserData CurrentUserDataSchema y /\ ud_primaryCorrupt d3 = UserGarbage.
Proof.
  intros Hp Hb Hy Hc. unfold loadUserDataRecover, quarantineUserPrimary. rewrite Hp, Hb, Hc. cbn. rewrite (normalized_eq _ Hy).
  eexists. split; [reflexivity|]. cbn. rewrite (normalized_eq _ Hy). done.
Qed.

(** C16: User data survives crashes: from a current file on, after any saves, each of
    which may fail or be cut short anywhere, a start reads the last state whose save was acknowledged or one
    whose save was attempted after it.  When the file is damaged after a save was
    acknowledged, its backup holds what the file held before that save and a start,
    however it is disturbed, keeps it in the backup: if no evidence of an earlier
    damage is in the way, an undisturbed start recovers it and keeps the damaged file
    as evidence; if there is, every start refuses to load and changes nothing.  (After
    a start cut short between the removal of the damaged file and its replacement, the
    next one does not read the backup and takes the missing file for a first start.) *)
Theorem user_data_saves_durable (d : UserDisk) (x : PluginDiskState) (l : list (PluginDiskState * write_outcome * write_outcome)) (io : user_io) :
  ud_primary d = UserData CurrentUserDataSchema x -> normalized x ->
  let '(d', found) := saves d [x] l in
  (exists y, loadUserData d' io = (d', Ok (y, true)) /\ y ∈ found)
  /\ forall st ioB ioP d2, SaveUserData d' st ioB ioP = (d2, None) ->
       let damaged := d2 <| ud_primary := UserGarbage |> in
       loadUserData d2 io = (d2, Ok (normalizePluginDiskState st, true))
       /\ exists y, y ∈ found
          /\ (forall io', ud_backup (loadUserDataRecover damaged io').1 = UserData CurrentUserDataSchema y)
          /\ (ud_primaryCorrupt d2 = UserAbsent ->
                exists d3, loadUserDataRecover damaged user_fine = (d3, Ok (y, true, mkUserReport false true false))
                  /\ ud_primary d3 = UserData CurrentUserDataSchema y /\ ud_primaryCorrupt d3 = UserGarbage)
          /\ (ud_primaryCorrupt d2 <> UserAbsent -> forall io', loadUserDataRecover damaged io' = (damaged, Err UserEvidence)).
Proof.
  intros Hp Hx. pose proof (saves_inv l d [x]) as H. destruct (saves d [x] l) as [d' found].
  destruct H as (Hn & y & Hy & Hin); [by apply Forall_singleton|exists x; split; [done|by left]|].
  assert (normalized y) as Hny by (rewrite Forall_forall in Hn; by apply Hn).
  split; [exists y; split; [unfold loadUserData; by rewrite (load_current _ _ _ Hy Hny)|done]|].
  intros st ioB ioP d2 E damaged. destruct (save_user_cases _ _ _ _ _ _ _ Hy E) as (z & Hz & _ & Hack & _). destruct (Hack eq_refl) as [-> Hb].
  split; [unfold loadUserData; by rewrite (load_current _ _ _ Hz (normalized_normalize st))|].
  exists y. split_and!; [done|..].
  - intros io'. by apply recovery_keeps_backup.
  - intros Hc. by apply recovery_succeeds.
  - intros Hc io'. by apply (recovery_refused _ _ y).
Qed.

(** ** Migration *)

Section migrated.
Context (sensitive : string -> bool).

(** What a file reads as. *)
Definition readsAs (f : user_file) (x : PluginDiskState) : Prop := exists b, readUserData f = Ok (x, b).

Lemma readsAs_current x : normalized x -> readsAs (UserData CurrentUserDataSchema x) x.
Proof. intros Hx. exists true. cbn. by rewrite (normalized_eq _ Hx). Qed.
Lemma readsAs_normalized f x : readsAs f x -> normalized x.
Proof. intros [b E]. destruct f as [|v st| |]; cbn [readUserData] in E; [|destruct (_ <? v); [done|]|done..]; injection E as <- _; apply normalized_normalize. Qed.

(** A save leaves the file as it was or the state in it. *)
Lemma save_reads d x ioB ioP d' err :
  normalized x -> SaveUserData d x ioB ioP = (d', err) ->
  (ud_primary d' = ud_primary d \/ ud_primary d' = UserData CurrentUserDataSchema x) /\ (err = None -> ud_primary d' = UserData CurrentUserDataSchema x)
  /\ ud_legacy d' = ud_legacy d /\ ud_migrated d' = ud_migrated d.
Proof.
  intros Hx. unfold SaveUserData, writeUserDataAtomic. rewrite (normalized_eq _ Hx).
  destruct (match ud_primary d with UserAbsent => _ | _ => _ end); [|intros [= <- <-]; split_and!; auto; done].
  destruct (failed ioB) eqn:EB; intros [= <- <-]; [split_and!; auto; done|]. destruct ioP; cbn; split_and!; auto; done.
Qed.
Lemma quarantine_primary_frame d o d' err : quarantineUserPrimary d o = (d', err) -> ud_legacy d' = ud_legacy d /\ ud_migrated d' = ud_migrated d
  /\ (err = None -> ud_primary d' = UserAbsent \/ ud_primary d' = ud_primary d /\ ud_primary d = UserAbsent).
Proof. unfold quarantineUserPrimary, quarantineUserArtifact. intros E. destruct (ud_primary d) eqn:?, (ud_primaryCorrupt d), o; injection E as <- <-; cbn; split_and!; auto; done. Qed.
Lemma quarantine_backup_frame d o d' err : quarantineUserBackup d o = (d', err) ->
  ud_legacy d' = ud_legacy d /\ ud_migrated d' = ud_migrated d /\ ud_primary d' = ud_primary d.
Proof. unfold quarantineUserBackup, quarantineUserArtifact. intros E. destruct (ud_backup d), (ud_backupCorrupt d), o; by injection E as <- <-. Qed.

(** What a load returns is what the file then holds, a file that can be read keeps
    its contents, and the old file is not touched. *)
Lemma load_reads d io d' res :
  loadUserData d io = (d', res) ->
  (forall y b, res = Ok (y, b) -> readsAs (ud_primary d') y)
  /\ (forall x, readsAs (ud_primary d) x -> readsAs (ud_primary d') x /\ forall y b, res = Ok (y, b) -> y = x)
  /\ ud_legacy d' = ud_legacy d /\ ud_migrated d' = ud_migrated d.
Proof.
  unfold loadUserData, loadUserDataRecover. destruct (readUserData (ud_primary d)) as [[st loaded]|e] eqn:Er.
  - assert (readsAs (ud_primary d) st) as Hr by (by exists loaded). pose proof (readsAs_normalized _ _ Hr) as Hst.
    assert (forall x, readsAs (ud_primary d) x -> x = st) as Hun by (intros x [b E]; congruence).
    destruct (loaded && _).
    + destruct (SaveUserData _ _ _ _) as [d1 werr] eqn:Es. destruct (save_reads _ _ _ _ _ _ Hst Es) as (H1 & _ & H3 & H4). intros [= <- <-].
      assert (readsAs (ud_primary d1) st) as Hd1 by (destruct H1 as [-> | ->]; [done|by apply readsAs_current]).
      split_and!; [destruct werr; [done|]; by intros ? ? [= <- <-]|intros x Hx; rewrite (Hun x Hx); split; [done|]; destruct werr; [done|]; by intros ? ? [= <- <-]|done..].
    + intros [= <- <-]. split_and!; [by intros ? ? [= <- <-]|intros x Hx; rewrite (Hun x Hx); split; [done|]; by intros ? ? [= <- <-]|done..].
  - assert (forall x, ~ readsAs (ud_primary d) x) as Hno by (intros x [b E]; congruence).
    assert (forall d1 r, (forall y b, r = Ok (y, b) -> readsAs (ud_primary d1) y) -> ud_legacy d1 = ud_legacy d -> ud_migrated d1 = ud_migrated d ->
      (d1, r) = (d', res) -> (forall y b, res = Ok (y, b) -> readsAs (ud_primary d') y)
      /\ (forall x, readsAs (ud_primary d) x -> readsAs (ud_primary d') x /\ forall y b, res = Ok (y, b) -> y = x)
      /\ ud_legacy d' = ud_legacy d /\ ud_migrated d' = ud_migrated d) as Hdone by (intros d1 r H1 H2 H3 [= <- <-]; split_and!; auto; by intros x Hx%Hno).
    destruct (quarantineUserPrimary d (ui_quarantine1 io)) as [d1 qerr] eqn:Eq. destruct (quarantine_primary_frame _ _ _ _ Eq) as (Q1 & Q2 & Q3).
    destruct (readUserData (ud_backup d)) as [[bk bl]|e2] eqn:Eb.
    + assert (normalized bk) as Hbk by (apply (readsAs_normalized (ud_backup d)); by exists bl).
      destruct (SaveUserData d1 bk _ _) as [d2 werr] eqn:Es. destruct (save_reads _ _ _ _ _ _ Hbk Es) as (_ & S2 & S3 & S4).
      destruct e, qerr as [qe|]; try (apply Hdone; [done|congruence..]);
        (apply Hdone; [|congruence..]; destruct werr; [done|]; intros ? ? [= <- <-]; rewrite S2 by done; by apply readsAs_current).
    + destruct (quarantineUserBackup d1 (ui_quarantine2 io)) as [d2 qerr2] eqn:Eq2. destruct (quarantine_backup_frame _ _ _ _ Eq2) as (B1 & B2 & B3).
      destruct e, qerr as [qe|]; try (apply Hdone; [done|congruence..]);
        (apply Hdone; [|congruence..]; destruct qerr2; [done|]; intros ? ? [= <- <-]; exists false; rewrite B3; by destruct (Q3 eq_refl) as [-> |[-> ->]]).
Qed.

(** Where the data of the old file are: in it, or in the file that replaced it. *)
Definition preserved (f : legacy_file) (x : PluginDiskState) (d : UserDisk) : Prop :=
  ud_legacy d = f \/ ud_legacy d = LegacyAbsent /\ ud_migrated d = f /\ readsAs (ud_primary d) x.

Lemma migration_preserves f x d io :
  loadStrictLegacyUserData sensitive f = Ok (x, true) -> normalized x -> preserved f x d ->
  preserved f x (loadUserDataWithMigration sensitive d io).1.
Proof.
  intros Hl Hx Hd.
  assert (preserved f x (loadUserData d (mi_load io)).1) as Hload.
  { destruct (loadUserData d _) as [d' res] eqn:E. destruct (load_reads _ _ _ _ E) as (_ & H2 & H3 & H4).
    destruct Hd as [<-|(Hle & <- & Hr)]; cbn [fst]; [left; congruence|right]. split_and!; [congruence|done|by apply H2]. }
  unfold loadUserDataWithMigration. destruct (ud_primary d) eqn:Hp; [|exact Hload..]. clear Hload.
  destruct Hd as [Hf|(Hle & Hm & Hr)].
  2: { rewrite Hle. cbn. right. by split_and!. }
  rewrite Hf, Hl. destruct (writeUserDataAtomic _ _ _ _) as [d1 werr] eqn:Ew.
  destruct (save_reads _ _ _ _ _ _ Hx Ew) as (_ & _ & W3 & _). destruct werr; [left; cbn [fst]; congruence|].
  destruct (loadUserData _ _) as [d2 res] eqn:E. destruct (load_reads _ _ _ _ E) as (H1 & _ & H3 & _). cbn in H3.
  assert (ud_legacy d2 = f) as Hf2 by congruence.
  destruct res as [[y b]|e]; [|by left]. destruct (negb (mi_verified io)); [by left|]. rewrite (normalized_eq _ Hx).
  case_bool_decide as Ey; cbn [negb]; [|by left]. subst y. pose proof (H1 _ _ eq_refl) as Hr.
  destruct (mi_rename io); cbn [fst]; unfold preserved; cbn; rewrite Hf2; [right|left|right]; by auto.
Qed.

(** Without interference: where the data are, more exactly. *)
Record migrating (f : legacy_file) (x : PluginDiskState) (d : UserDisk) : Prop := {
  mg_primary : ud_primary d = UserAbsent \/ ud_primary d = UserData CurrentUserDataSchema x;
  mg_legacy : ud_legacy d = f \/ ud_legacy d = LegacyAbsent /\ ud_primary d = UserData CurrentUserDataSchema x /\ ud_migrated d = f;
}.

Definition undisturbed (io : migration_io) : Prop := forall file, mi_between io file = file.

Lemma migration_step f x d io d' res :
  loadStrictLegacyUserData sensitive f = Ok (x, true) -> normalized x -> undisturbed io -> migrating f x d ->
  loadUserDataWithMigration sensitive d io = (d', res) ->
  migrating f x d' /\ res <> Err UserMismatch /\ (forall y b, res = Ok (y, b) -> y = x /\ b = true)
  /\ (mi_backup io = WriteOk -> mi_primary io = WriteOk -> mi_verified io = true -> mi_rename io = WriteOk -> res = Ok (x, true)).
Proof.
  intros Hl Hx Hio [[Hp|Hp] Hf]; unfold loadUserDataWithMigration; rewrite Hp.
  - assert (ud_legacy d = f) as Ef by (destruct Hf as [?|(_ & E & _)]; [done|congruence]). rewrite Ef, Hl. unfold writeUserDataAtomic. rewrite Hp.
    assert (forall d2, ud_legacy d2 = f -> ud_primary d2 = UserAbsent \/ ud_primary d2 = UserData CurrentUserDataSchema (normalizePluginDiskState x) -> migrating f x d2) as Hkeep.
    { intros d2 E1 E2. rewrite (normalized_eq _ Hx) in E2. split; [done|by left]. }
    destruct (failed (mi_backup io)) eqn:Eb.
    { intros [= <- <-]. split_and!; [apply Hkeep; cbn; auto|done|done|]. intros E. by rewrite E in Eb. }
    destruct (failed (mi_primary io)) eqn:Epr.
    { intros [= <- <-]. split_and!; [apply Hkeep; cbn; [done|]|done|done|intros _ E; by rewrite E in Epr].
      rewrite Hp. destruct (mi_primary io); cbn; auto. }
    destruct (mi_primary io); [|done|done]. unfold loadUserData. cbn [replaced].
    match goal with |- context [loadUserDataRecover ?d2 _] => set (d2' := d2) end.
    assert (ud_primary d2' = UserData CurrentUserDataSchema x) as E2 by (subst d2'; cbn; by rewrite Hio, (normalized_eq _ Hx)).
    rewrite (load_current _ _ _ E2 Hx).
    assert (migrating f x d2') as H2 by (apply Hkeep; [subst d2'; done|right; by rewrite (normalized_eq _ Hx)]).
    destruct (mi_verified io); cbn [negb]; [|by intros [= <- <-]].
    rewrite (normalized_eq _ Hx), bool_decide_true by done. cbn [negb].
    destruct (mi_rename io); intros [= <- <-]; split_and!; try done; try (intros ? ? [= <- <-]; done).
    all: split; [right; exact E2|]. all: subst d2'; cbn; rewrite ?Hio, ?Ef, ?(normalized_eq _ Hx); auto.
  - unfold loadUserData. rewrite (load_current _ _ _ Hp Hx). intros [= <- <-]. split_and!; [split; [by right|done]|done|by intros ? ? [= <- <-]|done].
Qed.

Lemma migrations_inv (P : UserDisk -> Prop) (Q : migration_io -> Prop) attempts d :
  (forall d io, Q io -> P d -> P (loadUserDataWithMigration sensitive d io).1) -> Forall Q attempts -> P d ->
  P (foldl (fun d io => (loadUserDataWithMigration sensitive d io).1) d attempts).
Proof. intros Hstep HQ. revert d. induction HQ as [|a l Ha _ IH]; intros d Hd; cbn [foldl]; [done|]. by apply IH, Hstep. Qed.

(** C17: The migration never loses the data of an old file that the strict checks
    accept: however often it is attempted, wherever each attempt fails and whatever
    becomes of a new file between its writing and its verification, the old file stays
    until a new file was read back that holds its data, and from then on the file in
    force reads as those data.  When nothing interferes between the writing and the
    verification, the verification never fails, every start that succeeds returns those
    data, and an undisturbed start succeeds.  (A file that the strict checks refuse, as
    they do one with a secret among its keys or values, is left alone and the start
    fails.) *)
Theorem migration_never_loses_data (f : legacy_file) (x : PluginDiskState) (d : UserDisk) (attempts : list migration_io) (io : migration_io) :
  loadStrictLegacyUserData sensitive f = Ok (x, true) -> ud_legacy d = f -> ud_primary d = UserAbsent ->
  let d' := foldl (fun d io => (loadUserDataWithMigration sensitive d io).1) d attempts in
  let res := (loadUserDataWithMigration sensitive d' io).2 in
  (ud_legacy d' = f \/ ud_migrated d' = f /\ readsAs (ud_primary d') x)
  /\ (Forall undisturbed attempts -> undisturbed io ->
       (ud_legacy d' = f \/ ud_migrated d' = f /\ ud_primary d' = UserData CurrentUserDataSchema x)
       /\ res <> Err UserMismatch /\ (forall y loaded, res = Ok (y, loaded) -> y = x /\ loaded = true)
       /\ (mi_backup io = WriteOk -> mi_primary io = WriteOk -> mi_verified io = true -> mi_rename io = WriteOk -> res = Ok (x, true))).
Proof.
  intros Hl Hf Hp d' res. assert (normalized x) as Hx.
  { destruct f as [| | |generic strict]; try done; cbn in Hl. destruct generic; [|done]. destruct (_ || _); [done|]. destruct strict; [|done].
    injection Hl as <-. apply normalized_normalize. }
  split.
  { assert (preserved f x d') as [?|(_ & ? & ?)]; [|by left|by right].
    apply (migrations_inv _ (fun _ => True)); [intros ? ? _; by apply migration_preserves|by apply Forall_true|by left]. }
  intros Hq Hio. assert (migrating f x d') as Hm.
  { apply (migrations_inv _ undisturbed); [|done|split; by left]. intros d0 a Ha H0.
    destruct (loadUserDataWithMigration sensitive d0 a) as [d1 r1] eqn:E. by apply (migration_step _ _ _ _ _ _ Hl Hx Ha H0 E). }
  destruct (loadUserDataWithMigration sensitive d' io) as [d2 r2] eqn:E. destruct (migration_step _ _ _ _ _ _ Hl Hx Hio Hm E) as (_ & H2 & H3 & H4).
  split; [destruct (mg_legacy _ _ _ Hm) as [?|(_ & ? & ?)]; auto|]. by split_and!.
Qed.
End migrated.

(** ** Examples *)

Definition exampleUser (mode : string) : PluginDiskState :=
  normalizePluginDiskState (mkDiskState (DefaultConfig <| MonthlyMode := mode |>) ∅ ∅).
Definition exampleUserDisk (primary backup : user_file) : UserDisk := mkUserDisk primary backup UserAbsent UserAbsent LegacyAbsent LegacyAbsent.
Definition exampleCurrent (mode : string) : user_file := UserData CurrentUserDataSchema (exampleUser mode).

Lemma user_data_saves_durable_witness :
  let d := exampleUserDisk (exampleCurrent "priority") (exampleCurrent "priority") in
  let '(d', found) := saves d [exampleUser "priority"] [(exampleUser "expiry_order", WriteOk, FailsAfter)] in
  found = [exampleUser "priority"; exampleUser "expiry_order"] /\ exists y, loadUserData d' user_fine = (d', Ok (y, true)) /\ y ∈ found.
Proof.
  cbv zeta. destruct (saves _ _ _) as [d' found] eqn:E. split; [vm_compute in E; injection E as <- <-; vm_compute; reflexivity|].
  pose proof (user_data_saves_durable (exampleUserDisk (exampleCurrent "priority") (exampleCurrent "priority")) (exampleUser "priority")
    [(exampleUser "expiry_order", WriteOk, FailsAfter)] user_fine eq_refl (normalized_normalize _)) as H.
  rewrite E in H. exact (proj1 H).
Defined.

Definition exampleLegacy : legacy_file := LegacyText (Some (JObject [("config", JObject [])])) (Some (exampleUser "priority")).
Lemma migration_never_loses_data_witness :
  let d := (exampleUserDisk UserAbsent UserAbsent) <| ud_legacy := exampleLegacy |> in
  let crash := mkMigrationIO user_fine WriteOk FailsAfter id user_fine true WriteOk in
  let fine := mkMigrationIO user_fine WriteOk WriteOk id user_fine true WriteOk in
  let d' := (loadUserDataWithMigration (fun _ => false) d crash).1 in
  (loadUserDataWithMigration (fun _ => false) d' fine).2 = Ok (exampleUser "priority", true).
Proof.
  cbv zeta.
  refine (proj2 (proj2 (proj2 (proj2 (migration_never_loses_data (fun _ => false) exampleLegacy (exampleUser "priority") ((exampleUserDisk UserAbsent UserAbsent) <| ud_legacy := exampleLegacy |>)
    [mkMigrationIO user_fine WriteOk FailsAfter id user_fine true WriteOk] (mkMigrationIO user_fine WriteOk WriteOk id user_fine true WriteOk) _ eq_refl eq_refl) _ _))) eq_refl eq_refl eq_refl eq_refl).
  - vm_compute. reflexivity.
  - by repeat constructor.
  - done.
Defined.

(** A file that is missing is taken for a first start although its backup is good;
    the first save then replaces the backup.  A crash while a damaged file is being
    replaced by its backup is enough. *)
Lemma backup_ignored_when_file_missing :
  let old := exampleCurrent "priority" in
  let crashed := (loadUserData (exampleUserDisk UserGarbage old) (mkUserIO WriteOk WriteOk WriteOk FailsBefore)).1 in
  ud_backup crashed = old
  /\ (loadUserDataWithMigration (fun _ => false) crashed (mkMigrationIO user_fine WriteOk WriteOk id user_fine true WriteOk)).2 = Ok (defaultDiskState, false)
  /\ let saved := (SaveUserData crashed defaultDiskState WriteOk WriteOk).1 in
     ud_primary saved = UserData 1 defaultDiskState /\ ud_backup saved = UserData 1 defaultDiskState.
Proof. vm_compute. repeat split. Qed.

(** A file of a newer version is not read, but two saves replace it and its backup. *)
Lemma newer_file_overwritten :
  let newer := UserData 2 (exampleUser "priority") in
  let d := exampleUserDisk newer newer in
  (loadUserData d user_fine).2 = Err UserFuture
  /\ let d1 := (SaveUserData d defaultDiskState WriteOk WriteOk).1 in
     let d2 := (SaveUserData d1 defaultDiskState WriteOk WriteOk).1 in
     ud_primary d2 = UserData 1 defaultDiskState /\ ud_backup d2 = UserData 1 defaultDiskState.
Proof. vm_compute. repeat split. Qed.

(** The keys of the annotations are searched too: an account whose file is named
    after a token stops the migration. *)
Lemma account_key_stops_migration :
  let doc := JObject [("accounts", JObject [("auth:my-token.json", JObject [])])] in
  loadStrictLegacyUserData (fun _ => false) (LegacyText (Some doc) (Some (exampleUser "priority"))) = Err UserSensitive.
Proof. vm_compute. reflexivity. Qed.
