(* ===== verification/Sizes.v ===== *)
(** * Sizes as text (config.go, management.go)

    [parseByteSize] and [formatByteSize], with [strconv.ParseFloat] of the standard
    library: signs, infinities, decimal and hexadecimal numbers, underscores between
    digits, and the rounding to the nearest [float64]. *)

From S2P Require Import Prelude GoStrings Float64 Json Text FloatExact Durations.
From Stdlib Require Import Ascii.
#[local] Open Scope string_scope.
#[local] Open Scope list_scope.
#[local] Open Scope Z_scope.
#[local] Open Scope go_scope.

(** ** strconv.ParseFloat *)

Definition lowerCode (c : ascii) : Z := let n := code c in if (65 <=? n) && (n <=? 90) then n + 32 else n.
Definition hexDigit (c : ascii) : option Z :=
  let n := lowerCode c in
  if (48 <=? n) && (n <=? 57) then Some (n - 48) else if (97 <=? n) && (n <=? 102) then Some (n - 87) else None.
Definition isHexLetter (c : ascii) : bool := let n := lowerCode c in (97 <=? n) && (n <=? 102).

(** The digits of the mantissa: the value, the number of digits, the digits before
    the point, whether there are any, whether underscores were skipped, the rest. *)
Record mantissa := mkMantissa { ma_value : Z; ma_digits : Z; ma_dot : option Z; ma_underscore : bool }.
Fixpoint readMantissa (hex : bool) (m : mantissa) (s : string) : mantissa * string :=
  match s with
  | EmptyString => (m, s)
  | String c rest =>
      if code c =? 95 then readMantissa hex (mkMantissa (ma_value m) (ma_digits m) (ma_dot m) true) rest
      else if code c =? 46 then
        match ma_dot m with
        | Some _ => (m, s)
        | None => readMantissa hex (mkMantissa (ma_value m) (ma_digits m) (Some (ma_digits m)) (ma_underscore m)) rest
        end
      else if is_digit c || (hex && isHexLetter c)
           then readMantissa hex (mkMantissa (ma_value m * (if hex then 16 else 10) + default 0 (hexDigit c)) (ma_digits m + 1) (ma_dot m) (ma_underscore m)) rest
           else (m, s)
  end.

Fixpoint readExponent (e : Z) (underscore : bool) (s : string) : Z * bool * string :=
  match s with
  | String c rest =>
      if code c =? 95 then readExponent e true rest
      else if is_digit c then readExponent (if e <? 10000 then e * 10 + (code c - 48) else e) underscore rest
      else (e, underscore, s)
  | EmptyString => (e, underscore, s)
  end.

(** [underscoreOK]: every underscore is between digits, or follows the prefix. *)
Fixpoint underscoresBetween (hex : bool) (prev : Z) (s : string) : bool :=
  match s with
  | EmptyString => negb (prev =? 95)
  | String c rest =>
      if is_digit c || (hex && isHexLetter c) then underscoresBetween hex 48 rest
      else if code c =? 95 then (prev =? 48) && underscoresBetween hex 95 rest
      else negb (prev =? 95) && underscoresBetween hex 33 rest
  end.
Definition dropSign (s : string) : bool * string :=
  match s with
  | String c rest => if code c =? 43 then (false, rest) else if code c =? 45 then (true, rest) else (false, s)
  | EmptyString => (false, s)
  end.
Definition basePrefix (s : string) : option (Z * string) :=
  match s with
  | String c0 (String c1 rest) =>
      if (code c0 =? 48) && ((lowerCode c1 =? 98) || (lowerCode c1 =? 111) || (lowerCode c1 =? 120)) then Some (lowerCode c1, rest) else None
  | _ => None
  end.
Definition underscoreOK (s : string) : bool :=
  match basePrefix (dropSign s).2 with
  | Some (p, rest) => underscoresBetween (p =? 120) 48 rest
  | None => underscoresBetween false 94 (dropSign s).2
  end.

Fixpoint lowerASCII (s : string) : string := match s with String c rest => String (byte (lowerCode c)) (lowerASCII rest) | EmptyString => EmptyString end.

(** [special] *)
Definition parseSpecial (s : string) : option float64 :=
  let '(neg, body) := dropSign s in
  let signed := negb (String.eqb s body) in
  let body := lowerASCII body in
  if String.eqb body "inf" || String.eqb body "infinity" then Some (S754_infinity neg)
  else if negb signed && String.eqb body "nan" then Some S754_nan
  else None.

Definition strconvParseFloat (s : string) : option float64 :=
  match parseSpecial s with
  | Some f => Some f
  | None =>
      let '(neg, body) := dropSign s in
      let hexRest := match body with
                     | String c0 (String c1 (String c2 rest)) => if (code c0 =? 48) && (lowerCode c1 =? 120) then Some (String c2 rest) else None
                     | _ => None
                     end in
      let hex := bool_decide (is_Some hexRest) in
      let '(m, rest) := readMantissa hex (mkMantissa 0 0 None false) (default body hexRest) in
      if ma_digits m =? 0 then None
      else
        let frac := match ma_dot m with Some d => ma_digits m - d | None => 0 end in
        let '(exp, underscore, rest, ok) :=
          match rest with
          | String c rest' =>
              if lowerCode c =? (if hex then 112 else 101) then
                let '(eneg, r) := dropSign rest' in
                match r with
                | String d _ => if is_digit d then let '(e, u, r) := readExponent 0 (ma_underscore m) r in (if eneg then - e else e, u, r, true)
                                else (0, ma_underscore m, r, false)
                | EmptyString => (0, ma_underscore m, r, false)
                end
              else (0, ma_underscore m, rest, negb hex)
          | EmptyString => (0, ma_underscore m, rest, negb hex)
          end in
        if negb ok || (underscore && negb (underscoreOK s)) || negb (String.eqb rest "") then None
        else
          let f := if hex
                   then binary_normalize 53 1024 (if neg then - ma_value m else ma_value m) (exp - 4 * frac) neg
                   else f_decimal neg (ma_value m) (ma_digits m) (exp - frac) in
          match f with S754_infinity _ => None | _ => Some f end
  end.

Example floats_parse :
  strconvParseFloat <$> ["1.5"; "-2e3"; "0x1.8p1"; "1_000"; "1__0"; ".5"; "."; "1e"; "+inf"; "-nan"; "0x10"; "5."; "1e400"; "_1"]
  = [Some (f_div (f_of_Z 3) (f_of_Z 2)); Some (f_of_Z (-2000)); Some (f_of_Z 3); Some (f_of_Z 1000); None; Some (f_div (f_of_Z 1) (f_of_Z 2)); None; None;
     Some (S754_infinity false); None; None; Some (f_of_Z 5); None; None].
Proof. vm_compute. reflexivity. Qed.

(** ** Sizes *)

(** [strings.ToUpper] where it matters to a comparison with ASCII text: besides a to
    z, the dotless i and the long s become ASCII letters. *)
Definition upperRune (r : Z) : Z :=
  if (97 <=? r) && (r <=? 122) then r - 32 else if r =? 305 then 73 else if r =? 383 then 83 else r.
Definition UpperText (s : string) : string := foldr (fun r t => encodeRune (upperRune r) +:+ t) EmptyString (runes s).

Definition HasSuffix (s suffix : string) : bool :=
  (String.length suffix <=? String.length s)%nat && String.eqb (sdrop (String.length s - String.length suffix) s) suffix.
Fixpoint stake (n : nat) (s : string) : string :=
  match n, s with S n, String c s => String c (stake n s) | _, _ => EmptyString end.

Definition sizeUnits : list (string * Z) :=
  [("KIB", 1024); ("MIB", 1024 * 1024); ("GIB", 1024 * 1024 * 1024); ("KB", 1024); ("MB", 1024 * 1024); ("GB", 1024 * 1024 * 1024); ("B", 1)].

Definition parseByteSize (raw : string) : option Z :=
  let trimmed := TrimSpace raw in
  if String.eqb trimmed "" then None
  else
    let upper := UpperText trimmed in
    let '(trimmed, multiplier) :=
      match List.find (fun unit => HasSuffix upper unit.1) sizeUnits with
      | Some (suffix, factor) => (TrimSpace (stake (String.length trimmed - String.length suffix) trimmed), factor)
      | None => (trimmed, 1)
      end in
    match strconvParseFloat trimmed with
    | None => None
    | Some value => let size := int64_of (f_mul value (f_of_Z multiplier)) in if size <=? 0 then None else Some size
    end.

Definition formatByteSize (size : Z) : string :=
  let mib := Z.shiftl 1 20 in
  let kib := Z.shiftl 1 10 in
  if size <=? 0 then "0"
  else if Z.rem size mib =? 0 then fmtInt (Z.quot size mib) "MB"
  else if Z.rem size kib =? 0 then fmtInt (Z.quot size kib) "KB"
  else fmtInt size "B".

Example sizes :
  parseByteSize <$> ["8MB"; "8388608"; "1.5GiB"; " 2 kb "; "-1MB"; "x"; ""; "1e30"; "12B"] = [Some 8388608; Some 8388608; Some 1610612736; Some 2048; None; None; None; None; Some 12]
  /\ formatByteSize <$> [8388608; 1536; 1000; 0] = ["8MB"; "1536B"; "1000B"; "0"].
Proof. vm_compute. split; reflexivity. Qed.

(** ** Reading back what was printed *)

Lemma fmtInt_app f v a b : fmtInt_from f v (a +:+ b) = fmtInt_from f v a +:+ b.
Proof.
  revert v a. induction f as [|f IH]; intros v a; [done|]. cbn [fmtInt_from]. rewrite <- sapp_cons. destruct (_ =? 0); [done|]. apply IH.
Qed.
Lemma fmtInt_last v acc : exists t, fmtInt v acc = t +:+ String (digitChar (v mod 10)) acc.
Proof.
  unfold fmtInt. change (fmtInt_from 20 v acc) with (if v / 10 =? 0 then String (digitChar (v mod 10)) acc else fmtInt_from 19 (v / 10) (String (digitChar (v mod 10)) acc)).
  destruct (v / 10 =? 0); [by exists ""|]. exists (fmtInt_from 19 (v / 10) "").
  change (String (digitChar (v mod 10)) acc) with ("" +:+ String (digitChar (v mod 10)) acc) at 1. apply fmtInt_app.
Qed.

Fixpoint digitsOnly (s : string) : Prop := match s with String c s => is_digit c = true /\ digitsOnly s | EmptyString => True end.
Lemma is_digit_char d : 0 <= d < 10 -> is_digit (digitChar d) = true.
Proof. intros H. pose proof (digitOf_digit d H) as E. unfold digitOf in E. by destruct (is_digit _). Qed.
Lemma digitsOnly_fmt f v acc : digitsOnly acc -> digitsOnly (fmtInt_from f v acc).
Proof.
  revert v acc. induction f as [|f IH]; intros v acc H; [done|]. cbn [fmtInt_from].
  assert (digitsOnly (String (digitChar (v mod 10)) acc)) as Hc by (split; [apply is_digit_char, mod10|done]).
  destruct (_ =? 0); [done|by apply IH].
Qed.
Lemma digitsOnly_code s c rest : digitsOnly s -> s = String c rest -> 48 <= code c <= 57.
Proof. intros H ->. destruct H as [H _]. unfold is_digit in H. apply andb_true_iff in H as [H1%Z.leb_le H2%Z.leb_le]. lia. Qed.

(** *** The number *)

Lemma hexDigit_digit d : 0 <= d < 10 -> hexDigit (digitChar d) = Some d.
Proof.
  intros H. unfold hexDigit, lowerCode, digitChar. rewrite code_byte by lia.
  rewrite (proj2 (Z.leb_gt 65 (48 + d))) by lia. cbn [andb]. rewrite (proj2 (Z.leb_le 48 _)), (proj2 (Z.leb_le _ 57)) by lia. cbn [andb]. f_equal. lia.
Qed.
Lemma readMantissa_digit d v n rest : 0 <= d < 10 ->
  readMantissa false (mkMantissa v n None false) (String (digitChar d) rest) = readMantissa false (mkMantissa (v * 10 + d) (n + 1) None false) rest.
Proof.
  intros H. cbn [readMantissa]. rewrite is_digit_char, hexDigit_digit by done. unfold digitChar. rewrite code_byte by lia.
  rewrite (proj2 (Z.eqb_neq _ 95)), (proj2 (Z.eqb_neq _ 46)) by lia. done.
Qed.
Lemma readMantissa_fmt f : forall v acc, 0 <= v < 10 ^ Z.of_nat (S f) ->
  exists n, 0 < n /\ readMantissa false (mkMantissa 0 0 None false) (fmtInt_from (S f) v acc) = readMantissa false (mkMantissa v n None false) acc.
Proof.
  induction f as [|f IH]; intros v acc Hv; pose proof (mod10 v) as Hd; pose proof (Z.div_mod v 10 ltac:(done)) as E.
  - change (10 ^ Z.of_nat 1) with 10 in Hv. exists 1. split; [lia|]. cbn [fmtInt_from].
    assert (v / 10 = 0) as -> by (apply Z.div_small; lia). cbn [Z.eqb]. rewrite readMantissa_digit by lia. do 2 f_equal. lia.
  - change (fmtInt_from (S (S f)) v acc) with (if v / 10 =? 0 then String (digitChar (v mod 10)) acc else fmtInt_from (S f) (v / 10) (String (digitChar (v mod 10)) acc)).
    destruct (Z.eqb_spec (v / 10) 0) as [E0|E0]; [exists 1; split; [lia|]; rewrite readMantissa_digit by lia; do 2 f_equal; lia|].
    rewrite Nat2Z.inj_succ, Z.pow_succ_r in Hv by lia.
    destruct (IH (v / 10) (String (digitChar (v mod 10)) acc)) as (n & Hn & ->); [split; [apply Z.div_pos; lia|apply Z.div_lt_upper_bound; lia]|].
    exists (n + 1). split; [lia|]. rewrite readMantissa_digit by lia. do 2 f_equal. lia.
Qed.

Lemma parseFloat_int v : exact53 v -> v <= two63 -> strconvParseFloat (fmtInt v "") = Some (f_of_Z v).
Proof.
  intros He Hb. pose proof (exact53_pos v He) as Hv. assert (digitsOnly (fmtInt v "")) as Hd by by apply digitsOnly_fmt.
  destruct (readMantissa_fmt 19 v "") as (n & Hn & Em); [split; [lia|apply Z.le_lt_trans with two63; [done|vm_compute; reflexivity]]|]. fold (fmtInt v "") in Em.
  assert (exists c rest, fmtInt v "" = String c rest) as (c & rest & Es) by (unfold fmtInt; destruct (fmtInt_head 19 v "") as (c & r & -> & _); eauto).
  pose proof (digitsOnly_code _ _ _ Hd Es) as Hc. rewrite Es in *.
  assert (dropSign (String c rest) = (false, String c rest)) as Ed by (cbn [dropSign]; by rewrite !(proj2 (Z.eqb_neq _ _)) by lia).
  assert (lowerCode c = code c) as Elc by (unfold lowerCode; by rewrite (proj2 (Z.leb_gt 65 (code c))) by lia).
  unfold strconvParseFloat. assert (parseSpecial (String c rest) = None) as ->.
  { unfold parseSpecial. rewrite Ed, String.eqb_refl. cbn [negb andb lowerASCII]. rewrite Elc.
    assert (forall x s, code x > 57 -> String.eqb (String (byte (code c)) (lowerASCII rest)) (String x s) = false) as Hx.
    { intros x s Hx. apply String.eqb_neq. intros [= E _]. apply (f_equal code) in E. rewrite code_byte in E by lia. lia. }
    by rewrite !Hx by (vm_compute; reflexivity). }
  rewrite Ed. assert ((match String c rest with String c0 (String c1 (String c2 r)) => if (code c0 =? 48) && (lowerCode c1 =? 120) then Some (String c2 r) else None | _ => None end) = None) as ->.
  { destruct rest as [|c1 rest]; [done|]. destruct rest as [|c2 rest]; [done|]. destruct Hd as [_ Hd]. pose proof (digitsOnly_code _ c1 (String c2 rest) Hd eq_refl).
    assert (lowerCode c1 <> 120) by (unfold lowerCode; rewrite (proj2 (Z.leb_gt 65 (code c1))) by lia; cbn [andb]; lia).
    by rewrite (proj2 (Z.eqb_neq (lowerCode c1) _)), andb_false_r by done. }
  cbv beta iota zeta. rewrite bool_decide_false by (by intros [? ?]). cbn [default]. change (default (String c rest) None) with (String c rest). rewrite Em.
  cbn [readMantissa ma_digits ma_dot ma_underscore ma_value negb orb andb]. rewrite (proj2 (Z.eqb_neq n 0)) by lia. cbn [String.eqb negb orb].
  change (0 - 0) with 0. unfold f_decimal. destruct v as [|p|p]; try lia. cbn [Z.ltb Z.compare Z.leb].
  rewrite (proj2 (Z.ltb_ge 0 (- (n + 400)))) by lia. change (Z.pos p * 10 ^ 0) with (Z.pos p * 1). rewrite Z.mul_1_r.
  change (binary_normalize 53 1024 (Z.pos p) 0 false) with (f_of_Z (Z.pos p)).
  rewrite f_of_Z_exact; [done|done|]. apply bits_le; [lia|]. apply Z.le_lt_trans with two63; [done|vm_compute; reflexivity].
Qed.

(** *** The suffix *)

Lemma sdrop_app_more a t k : sdrop (String.length a + k) (a +:+ t) = sdrop k t.
Proof. induction a as [|c a IH]; [done|]. rewrite sapp_cons. exact IH. Qed.
Lemma stake_app a t : stake (String.length a) (a +:+ t) = a.
Proof. induction a as [|c a IH]; [by destruct t|]. rewrite sapp_cons. cbn. by rewrite IH. Qed.
Lemma sdrop_succ k s : sdrop (S k) s = sdrop 1 (sdrop k s).
Proof. revert s. induction k as [|k IH]; intros [|c s]; try done. cbn [sdrop] in *. by rewrite <- IH. Qed.

Lemma HasSuffix_app a t suffix : (String.length suffix <= String.length t)%nat -> HasSuffix (a +:+ t) suffix = HasSuffix t suffix.
Proof.
  intros H. unfold HasSuffix. rewrite sapp_length.
  rewrite !(proj2 (Nat.leb_le _ _)) by lia. f_equal. rewrite <- Nat.add_sub_assoc by done. by rewrite sdrop_app_more.
Qed.
Lemma HasSuffix_tail s x suffix : HasSuffix s (String x suffix) = true -> HasSuffix s suffix = true.
Proof.
  unfold HasSuffix. cbn [String.length]. intros [H1%Nat.leb_le H2%String.eqb_eq]%andb_true_iff. rewrite (proj2 (Nat.leb_le _ _)) by lia.
  replace (String.length s - String.length suffix)%nat with (S (String.length s - S (String.length suffix))) by lia. rewrite sdrop_succ, H2. cbn [andb sdrop]. apply String.eqb_refl.
Qed.

Lemma UpperText_digit c s : is_digit c = true -> UpperText (String c s) = String c (UpperText s).
Proof.
  intros H. assert (48 <= code c <= 57) as Hc by (unfold is_digit in H; apply andb_true_iff in H as [H1%Z.leb_le H2%Z.leb_le]; lia).
  unfold UpperText, runes. cbn [runes_from]. unfold decodeRune. rewrite (proj2 (Z.ltb_lt (code c) 128)) by lia. cbn [foldr].
  unfold upperRune. rewrite (proj2 (Z.leb_gt 97 (code c))), (proj2 (Z.eqb_neq (code c) 305)), (proj2 (Z.eqb_neq (code c) 383)) by lia. cbn [andb].
  unfold encodeRune. rewrite (proj2 (Z.ltb_lt (code c) 128)) by lia. unfold chr. rewrite sapp_cons, sapp_empty. f_equal.
  unfold byte, code. rewrite N2Z.id. apply ascii_N_embedding.
Qed.
Lemma UpperText_digits a t : digitsOnly a -> UpperText (a +:+ t) = a +:+ UpperText t.
Proof. induction a as [|c a IH]; [done|]. intros [H1 H2]. by rewrite !sapp_cons, UpperText_digit, IH. Qed.

Lemma fmtInt_split v acc : fmtInt v acc = fmtInt v "" +:+ acc.
Proof. unfold fmtInt. by rewrite <- fmtInt_app. Qed.

Lemma parse_size v suffix factor : exact53 v -> v <= two63 -> (suffix, factor) ∈ [("MB", 1024 * 1024); ("KB", 1024); ("B", 1)] ->
  exact53 (v * factor) -> v * factor <= maxInt64 -> parseByteSize (fmtInt v suffix) = Some (v * factor).
Proof.
  intros He Hb Hs Hvf Hmax. pose proof (exact53_pos _ Hvf) as Hp. destruct (fmtInt_last v "") as [t Et]. set (D := fmtInt v "") in *.
  assert (digitsOnly D) as Hd by by apply digitsOnly_fmt. assert (exists c rest, D = String c rest /\ is_digit c = true) as (c & rest & Ec & Hc).
  { subst D. unfold fmtInt. destruct (fmtInt_head 19 v "") as (c & r & -> & _ & H & _). exists c, r. split; [done|]. unfold digitOf in H. by destruct (is_digit c). }
  set (d := v mod 10) in *. pose proof (mod10 v) as Hd10. fold d in Hd10.
  rewrite fmtInt_split. fold D. unfold parseByteSize.
  assert (exists b e, suffix = b +:+ String e "" /\ 48 <= code e <= 122 /\ UpperText suffix = suffix) as (b & e & Esuf & Hce & Hup).
  { rewrite !elem_of_cons in Hs. destruct Hs as [[= -> _]|[[= -> _]|[[= -> _]|Hs%not_elem_of_nil]]]; [exists "M"|exists "K"|exists ""|done];
      eexists; (split; [reflexivity|]); (split; [split; vm_compute; discriminate|vm_compute; reflexivity]). }
  assert (TrimSpace (D +:+ suffix) = D +:+ suffix) as Etrim.
  { apply (TrimSpace_plain _ c (rest +:+ suffix) e (D +:+ b)); [by rewrite Ec|by rewrite Esuf, sapp_assoc|done|done]. }
  assert (TrimSpace D = D) as EtrimD.
  { apply (TrimSpace_plain _ c rest (digitChar d) t); [done|done|done|]. unfold digitChar. rewrite code_byte by lia. lia. }
  fold D. rewrite Etrim. assert (String.eqb (D +:+ suffix) "" = false) as -> by (rewrite Ec, sapp_cons; done).
  rewrite UpperText_digits, Hup by done.
  assert (List.find (fun unit => HasSuffix (D +:+ suffix) unit.1) sizeUnits = Some (suffix, factor)) as ->.
  { assert (forall u, (String.length u <= 1 + String.length suffix)%nat -> HasSuffix (D +:+ suffix) u = HasSuffix (String (digitChar d) suffix) u) as Hshort.
    { intros u Hu. rewrite Et, sapp_assoc. by apply HasSuffix_app. }
    assert (d ∈ [0; 1; 2; 3; 4; 5; 6; 7; 8; 9]) as Hdl.
    { assert (d = 0 \/ d = 1 \/ d = 2 \/ d = 3 \/ d = 4 \/ d = 5 \/ d = 6 \/ d = 7 \/ d = 8 \/ d = 9) as Hor by lia. rewrite !elem_of_cons. tauto. }
    assert (forall x, HasSuffix (D +:+ suffix) (String x "IB") = false) as Hib.
    { intros x. apply not_true_iff_false. intros H%HasSuffix_tail. rewrite Hshort in H by (rewrite Esuf, sapp_length; cbn; lia).
      rewrite !elem_of_cons in Hs. rewrite !elem_of_cons in Hdl. destruct_or? Hs; destruct_or? Hdl; try (by apply not_elem_of_nil in Hdl); try (by apply not_elem_of_nil in Hs);
        injection Hs as -> _; rewrite Hdl in H; vm_compute in H; discriminate. }
    unfold sizeUnits. cbn [List.find fst]. rewrite !Hib. rewrite !Hshort by (rewrite Esuf, sapp_length; cbn; lia).
    rewrite !elem_of_cons in Hs. rewrite !elem_of_cons in Hdl. destruct_or? Hs; destruct_or? Hdl; try (by apply not_elem_of_nil in Hdl); try (by apply not_elem_of_nil in Hs);
        injection Hs as -> ->; rewrite Hdl; vm_compute; reflexivity. }
  rewrite sapp_length, Nat.add_sub, stake_app, EtrimD. unfold D. rewrite parseFloat_int by done.
  assert (exact53 factor /\ bits factor <= 400) as [Hf Hfb].
  { rewrite !elem_of_cons in Hs. destruct Hs as [[= _ ->]|[[= _ ->]|[[= _ ->]|Hs%not_elem_of_nil]]]; [..|done]; (split; [apply exact53_small; lia|vm_compute; discriminate]). }
  assert (forall x, 0 < x <= two63 -> bits x <= 400) as Hbits.
  { intros x Hx. apply bits_le; [lia|]. apply Z.le_lt_trans with two63; [lia|vm_compute; reflexivity]. }
  pose proof (exact53_pos _ He). rewrite f_mul_exact by (done || (apply Hbits; unfold two63, maxInt64 in *; lia)).
  unfold int64_of. rewrite truncate_exact; [|done|pose proof (Hbits (v * factor)); unfold two63, maxInt64 in *; lia].
  unfold minInt64, maxInt64 in *. rewrite (proj2 (Z.leb_le _ (v * factor))), (proj2 (Z.leb_le (v * factor) _)) by lia. cbn [andb].
  by rewrite (proj2 (Z.leb_gt (v * factor) 0)) by lia.
Qed.

(** A size of at most 53 significant bits reads back as it was printed. *)
Theorem size_text_roundtrip (n : Z) : exact53 n -> n <= maxInt64 -> parseByteSize (formatByteSize n) = Some n.
Proof.
  intros He Hb. pose proof (exact53_pos n He) as Hp. unfold formatByteSize. change (Z.shiftl 1 20) with 1048576. change (Z.shiftl 1 10) with 1024.
  rewrite (proj2 (Z.leb_gt n 0)) by done. cbv zeta.
  assert (forall f, 0 < f -> Z.rem n f = 0 -> Z.quot n f * f = n /\ 0 < Z.quot n f) as Hq.
  { intros f Hf Hr. pose proof (Z.quot_rem n f ltac:(lia)). split; [lia|]. nia. }
  unfold maxInt64 in *.
  destruct (Z.eqb_spec (Z.rem n 1048576) 0) as [E|_]; [|destruct (Z.eqb_spec (Z.rem n 1024) 0) as [E|_]].
  - destruct (Hq 1048576 ltac:(lia) E) as [E1 Hp1]. rewrite (parse_size _ "MB" (1024 * 1024)).
    + by rewrite <- E1 at 2.
    + apply exact53_small. lia.
    + unfold two63. lia.
    + by left.
    + change (1024 * 1024) with 1048576. by rewrite E1.
    + change (1024 * 1024) with 1048576. unfold maxInt64. lia.
  - destruct (Hq 1024 ltac:(lia) E) as [E1 Hp1]. rewrite (parse_size _ "KB" 1024).
    + by rewrite <- E1 at 2.
    + apply exact53_small. lia.
    + unfold two63. lia.
    + right. by left.
    + by rewrite E1.
    + unfold maxInt64. lia.
  - rewrite (parse_size _ "B" 1); rewrite ?Z.mul_1_r; try done.
    + unfold two63. lia.
    + right. right. by left.
Qed.

(** What is read is exact, since it was a [float64]. *)
Lemma parsed_size_exact raw n : parseByteSize raw = Some n -> exact53 n /\ n <= maxInt64.
Proof.
  unfold parseByteSize. destruct (String.eqb _ ""); [done|]. destruct (match List.find _ sizeUnits with Some _ => _ | None => _ end) as [number factor].
  destruct (strconvParseFloat number) as [value|]; [|done]. cbv zeta. destruct (_ <=? 0) eqn:E; [done|]. apply Z.leb_gt in E. intros [= <-].
  unfold int64_of in *. destruct (truncate (f_mul value (f_of_Z factor))) as [v|] eqn:Et; [|unfold minInt64 in E; lia].
  destruct ((minInt64 <=? v) && (v <=? maxInt64)) eqn:Eb; [|unfold minInt64 in E; lia]. apply andb_true_iff in Eb as [_ Eb%Z.leb_le].
  split; [by eapply truncate_mul_exact|done].
Qed.
