(* ===== verification/Settings.v ===== *)
(** * Reading and showing the configuration (config.go, management.go)

    [DecodeConfig] on the decoded configuration file, [SettingsFromConfig] and
    [ConfigFromSettings] by which the settings page shows and saves it.  The decoding
    of YAML and JSON into their records is outside the model. *)

From S2P Require Import Prelude GoStrings RetryChain Config Float64 Json Text FloatExact Durations Sizes.
From Stdlib Require Import Ascii.
#[local] Open Scope string_scope.
#[local] Open Scope list_scope.
#[local] Open Scope Z_scope.
#[local] Open Scope go_scope.

Inductive settings_error :=
  | BadDuration (field : string)
  | NotPositive (field : string)
  | BadMonthlyMode
  | BadFallback
  | BadDelays
  | BadEndpoint (message : string)
  | BadAttempts
  | BadSize
  | BadChain (e : ChainError).

(** [strings.Split(s, ",")] *)
Fixpoint splitComma (s : string) : list string :=
  match s with
  | EmptyString => [""]
  | String c s =>
      if code c =? 44 then "" :: splitComma s
      else match splitComma s with [] => [String c ""] | piece :: rest => String c piece :: rest end
  end.

Fixpoint parseDurations (parts : list string) : option (list Duration) :=
  match parts with
  | [] => Some []
  | part :: parts =>
      let part := TrimSpace part in
      if String.eqb part "" then parseDurations parts
      else match ParseDuration part with
           | None => None
           | Some d => if d <=? 0 then None else cons d <$> parseDurations parts
           end
  end.
Definition parseDurationList (raw : string) : option (list Duration) :=
  match parseDurations (splitComma raw) with Some [] => None | r => r end.

Definition formatDurationList (values : list Duration) : string :=
  String.concat "," (Duration_String <$> List.filter (fun v => 0 <? v) values).
Definition formatRetryDuration (value : Duration) : string :=
  if value <=? 0 then "0s" else if Z.rem value Second =? 0 then fmtInt (Z.quot value Second) "s" else Duration_String value.

(** ** The configuration file *)

Record rawConfig := mkRawConfig {
  rw_HandleEnabled : option bool; rw_QuotaRefreshInterval : string; rw_StaleAfter : string; rw_MonthlyMode : string; rw_Fallback : string;
  rw_EnableUsageFeedback : option bool; rw_EnableResetProbe : option bool; rw_ProbeOnProvisionalRoster : option bool;
  rw_MaxRefreshConcurrency : option Z; rw_QuotaEndpoint : string; rw_RefreshActiveWindow : string; rw_RefreshAfterResetDelay : string;
  rw_RefreshRetryDelays : string; rw_AuthFailureRetryInterval : string; rw_RefreshOnStartup : option bool; rw_CircuitFailureThreshold : option Z;
  rw_CircuitOpenDuration : string; rw_CircuitHalfOpenSuccessThreshold : option Z; rw_MaxLogEntries : option Z; rw_LogRetention : string;
  rw_ScheduleAcrossPriorities : option bool; rw_EnableManagedQuotaDisable : option bool; rw_LifecycleEventLimit : option Z;
  rw_RetryEnabled : option bool; rw_RetryShadow : option bool; rw_RetryAlways : option bool; rw_RetryMaxAttempts : option Z;
  rw_RetryStallTimeout : string; rw_RetryHoldTimeout : string; rw_RetryChainDeadline : string; rw_RetryMaxFrames : option Z;
  rw_RetryMaxBytes : string; rw_RetryStripReasoning : option bool; rw_RetryChain : option (list RetryChainRow);
}.
Definition emptyRawConfig : rawConfig :=
  mkRawConfig None "" "" "" "" None None None None "" "" "" "" "" None None "" None None "" None None None None None None None "" "" "" None "" None None.
#[export] Instance rawConfig_eta : Eta rawConfig := fun r => mkRawConfig
  (rw_HandleEnabled r) (rw_QuotaRefreshInterval r) (rw_StaleAfter r) (rw_MonthlyMode r) (rw_Fallback r) (rw_EnableUsageFeedback r)
  (rw_EnableResetProbe r) (rw_ProbeOnProvisionalRoster r) (rw_MaxRefreshConcurrency r) (rw_QuotaEndpoint r) (rw_RefreshActiveWindow r)
  (rw_RefreshAfterResetDelay r) (rw_RefreshRetryDelays r) (rw_AuthFailureRetryInterval r) (rw_RefreshOnStartup r) (rw_CircuitFailureThreshold r)
  (rw_CircuitOpenDuration r) (rw_CircuitHalfOpenSuccessThreshold r) (rw_MaxLogEntries r) (rw_LogRetention r) (rw_ScheduleAcrossPriorities r)
  (rw_EnableManagedQuotaDisable r) (rw_LifecycleEventLimit r) (rw_RetryEnabled r) (rw_RetryShadow r) (rw_RetryAlways r) (rw_RetryMaxAttempts r)
  (rw_RetryStallTimeout r) (rw_RetryHoldTimeout r) (rw_RetryChainDeadline r) (rw_RetryMaxFrames r) (rw_RetryMaxBytes r) (rw_RetryStripReasoning r)
  (rw_RetryChain r).

(** A duration that is given must parse and be positive. *)
Definition decodeDuration (field raw : string) (old : Duration) : result settings_error Duration :=
  if String.eqb raw "" then Ok old
  else match ParseDuration raw with
       | None => Err (BadDuration field)
       | Some d => if d <=? 0 then Err (NotPositive field) else Ok d
       end.
Definition decodePositive (field : string) (value : option Z) (old : Z) : result settings_error Z :=
  match value with None => Ok old | Some v => if v <=? 0 then Err (NotPositive field) else Ok v end.
Definition decodeDelays (raw : string) (old : list Duration) : result settings_error (list Duration) :=
  if String.eqb raw "" then Ok old else match parseDurationList raw with Some l => Ok l | None => Err BadDelays end.
Definition decodeChain (rows : option (list RetryChainRow)) (old : list RetryChainRow) : result settings_error (list RetryChainRow) :=
  match rows with
  | None => Ok old
  | Some rows => let chain := NormalizeRetryChain rows in match validateRetryChain chain with Ok _ => Ok chain | Err e => Err (BadChain e) end
  end.

(** [None] is an empty file. *)
Definition DecodeConfig (raw : option rawConfig) : result settings_error Config :=
  let cfg := DefaultConfig in
  match raw with
  | None => Ok cfg
  | Some r =>
      let cfg := cfg <| HandleEnabled := default (HandleEnabled cfg) (rw_HandleEnabled r) |> in
      let! d := decodeDuration "quota_refresh_interval" (rw_QuotaRefreshInterval r) (QuotaRefreshInterval cfg) in
      let cfg := cfg <| QuotaRefreshInterval := d |> in
      let! d := decodeDuration "stale_after" (rw_StaleAfter r) (StaleAfter cfg) in
      let cfg := cfg <| StaleAfter := d |> in
      let cfg := if String.eqb (rw_MonthlyMode r) "" then cfg else cfg <| MonthlyMode := rw_MonthlyMode r |> in
      if negb (String.eqb (MonthlyMode cfg) MonthlyModePriority) && negb (String.eqb (MonthlyMode cfg) MonthlyModeExpiryOrder) then Err BadMonthlyMode
      else
      let cfg := if String.eqb (rw_Fallback r) "" then cfg else cfg <| Fallback := rw_Fallback r |> in
      if negb (String.eqb (Fallback cfg) "") && negb (String.eqb (Fallback cfg) FallbackFillFirst) then Err BadFallback
      else
      let cfg := cfg <| EnableUsageFeedback := default (EnableUsageFeedback cfg) (rw_EnableUsageFeedback r) |>
                     <| EnableResetProbe := default (EnableResetProbe cfg) (rw_EnableResetProbe r) |>
                     <| ProbeOnProvisionalRoster := default (ProbeOnProvisionalRoster cfg) (rw_ProbeOnProvisionalRoster r) |> in
      let! n := decodePositive "max_refresh_concurrency" (rw_MaxRefreshConcurrency r) (MaxRefreshConcurrency cfg) in
      let cfg := cfg <| MaxRefreshConcurrency := n |> in
      let! endpoint := (if String.eqb (rw_QuotaEndpoint r) "" then Ok (QuotaEndpoint cfg)
                        else match validateQuotaEndpoint (rw_QuotaEndpoint r) with Ok e => Ok e | Err m => Err (BadEndpoint m) end) in
      let cfg := cfg <| QuotaEndpoint := endpoint |> in
      let! d := decodeDuration "refresh_active_window" (rw_RefreshActiveWindow r) (RefreshActiveWindow cfg) in
      let cfg := cfg <| RefreshActiveWindow := d |> in
      let! d := decodeDuration "refresh_after_reset_delay" (rw_RefreshAfterResetDelay r) (RefreshAfterResetDelay cfg) in
      let cfg := cfg <| RefreshAfterResetDelay := d |> in
      let! l := decodeDelays (rw_RefreshRetryDelays r) (RefreshRetryDelays cfg) in
      let cfg := cfg <| RefreshRetryDelays := l |> in
      let! d := decodeDuration "auth_failure_retry_interval" (rw_AuthFailureRetryInterval r) (AuthFailureRetryInterval cfg) in
      let cfg := cfg <| AuthFailureRetryInterval := d |> in
      let cfg := cfg <| RefreshOnStartup := default (RefreshOnStartup cfg) (rw_RefreshOnStartup r) |> in
      let! n := decodePositive "circuit_failure_threshold" (rw_CircuitFailureThreshold r) (CircuitFailureThreshold cfg) in
      let cfg := cfg <| CircuitFailureThreshold := n |> in
      let! d := decodeDuration "circuit_open_duration" (rw_CircuitOpenDuration r) (CircuitOpenDuration cfg) in
      let cfg := cfg <| CircuitOpenDuration := d |> in
      let! n := decodePositive "circuit_half_open_success_threshold" (rw_CircuitHalfOpenSuccessThreshold r) (CircuitHalfOpenSuccessThreshold cfg) in
      let cfg := cfg <| CircuitHalfOpenSuccessThreshold := n |> in
      let! n := decodePositive "max_log_entries" (rw_MaxLogEntries r) (MaxLogEntries cfg) in
      let cfg := cfg <| MaxLogEntries := n |> in
      let! d := decodeDuration "log_retention" (rw_LogRetention r) (LogRetention cfg) in
      let cfg := cfg <| LogRetention := d |> in
      let cfg := cfg <| ScheduleAcrossPriorities := default (ScheduleAcrossPriorities cfg) (rw_ScheduleAcrossPriorities r) |>
                     <| EnableManagedQuotaDisable := default (EnableManagedQuotaDisable cfg) (rw_EnableManagedQuotaDisable r) |> in
      let! n := decodePositive "lifecycle_event_limit" (rw_LifecycleEventLimit r) (LifecycleEventLimit cfg) in
      let cfg := cfg <| LifecycleEventLimit := n |> in
      let cfg := cfg <| RetryEnabled := default (RetryEnabled cfg) (rw_RetryEnabled r) |>
                     <| RetryShadow := default (RetryShadow cfg) (rw_RetryShadow r) |> in
      let cfg := match rw_RetryAlways r with
                 | None => cfg
                 | Some always => let cfg := cfg <| RetryAlways := always |> in if always then cfg <| RetryShadow := false |> else cfg
                 end in
      let! n := (match rw_RetryMaxAttempts r with
                 | None => Ok (RetryMaxAttempts cfg)
                 | Some n => if (n <=? 0) || (maxRetryMaxAttempts <? n) then Err BadAttempts else Ok n
                 end) in
      let cfg := cfg <| RetryMaxAttempts := n |> in
      let! d := decodeDuration "retry_stall_timeout" (rw_RetryStallTimeout r) (RetryStallTimeout cfg) in
      let cfg := cfg <| RetryStallTimeout := d |> in
      let! d := decodeDuration "retry_hold_timeout" (rw_RetryHoldTimeout r) (RetryHoldTimeout cfg) in
      let cfg := cfg <| RetryHoldTimeout := d |> in
      let! d := decodeDuration "retry_chain_deadline" (rw_RetryChainDeadline r) (RetryChainDeadline cfg) in
      let cfg := cfg <| RetryChainDeadline := d |> in
      let! n := decodePositive "retry_max_frames" (rw_RetryMaxFrames r) (RetryMaxFrames cfg) in
      let cfg := cfg <| RetryMaxFrames := n |> in
      let! n := (if String.eqb (rw_RetryMaxBytes r) "" then Ok (RetryMaxBytes cfg)
                 else match parseByteSize (rw_RetryMaxBytes r) with Some n => Ok n | None => Err BadSize end) in
      let cfg := cfg <| RetryMaxBytes := n |> in
      let cfg := cfg <| RetryStripReasoning := default (RetryStripReasoning cfg) (rw_RetryStripReasoning r) |> in
      let! chain := decodeChain (rw_RetryChain r) (RetryChain cfg) in
      Ok (NormalizeConfig (cfg <| RetryChain := chain |>))
  end.

(** ** The settings page *)

Record SettingsPayload := mkSettings {
  sp_HandleEnabled : bool; sp_MonthlyMode : string; sp_QuotaRefreshInterval : string; sp_StaleAfter : string; sp_EnableUsageFeedback : bool;
  sp_EnableResetProbe : bool; sp_ProbeOnProvisionalRoster : bool; sp_MaxRefreshConcurrency : Z; sp_QuotaEndpoint : string;
  sp_RefreshActiveWindow : string; sp_RefreshAfterResetDelay : string; sp_RefreshRetryDelays : string; sp_AuthFailureRetryInterval : string;
  sp_RefreshOnStartup : bool; sp_CircuitFailureThreshold : Z; sp_CircuitOpenDuration : string; sp_CircuitHalfOpenSuccessThreshold : Z;
  sp_MaxLogEntries : Z; sp_LogRetention : string; sp_ScheduleAcrossPriorities : bool; sp_EnableManagedQuotaDisable : bool; sp_LifecycleEventLimit : Z;
  sp_RetryEnabled : bool; sp_RetryShadow : bool; sp_RetryAlways : bool; sp_RetryMaxAttempts : Z; sp_RetryStallTimeout : string;
  sp_RetryHoldTimeout : string; sp_RetryChainDeadline : string; sp_RetryMaxFrames : Z; sp_RetryMaxBytes : string; sp_RetryStripReasoning : bool;
  sp_RetryChain : option (list RetryChainRow);
}.

Definition SettingsFromConfig (cfg : Config) : SettingsPayload := {|
  sp_HandleEnabled := HandleEnabled cfg;
  sp_MonthlyMode := MonthlyMode cfg;
  sp_QuotaRefreshInterval := Duration_String (QuotaRefreshInterval cfg);
  sp_StaleAfter := Duration_String (StaleAfter cfg);
  sp_EnableUsageFeedback := EnableUsageFeedback cfg;
  sp_EnableResetProbe := EnableResetProbe cfg;
  sp_ProbeOnProvisionalRoster := ProbeOnProvisionalRoster cfg;
  sp_MaxRefreshConcurrency := MaxRefreshConcurrency cfg;
  sp_QuotaEndpoint := QuotaEndpoint cfg;
  sp_RefreshActiveWindow := Duration_String (RefreshActiveWindow cfg);
  sp_RefreshAfterResetDelay := Duration_String (RefreshAfterResetDelay cfg);
  sp_RefreshRetryDelays := formatDurationList (RefreshRetryDelays cfg);
  sp_AuthFailureRetryInterval := Duration_String (AuthFailureRetryInterval cfg);
  sp_RefreshOnStartup := RefreshOnStartup cfg;
  sp_CircuitFailureThreshold := CircuitFailureThreshold cfg;
  sp_CircuitOpenDuration := Duration_String (CircuitOpenDuration cfg);
  sp_CircuitHalfOpenSuccessThreshold := CircuitHalfOpenSuccessThreshold cfg;
  sp_MaxLogEntries := MaxLogEntries cfg;
  sp_LogRetention := Duration_String (LogRetention cfg);
  sp_ScheduleAcrossPriorities := ScheduleAcrossPriorities cfg;
  sp_EnableManagedQuotaDisable := EnableManagedQuotaDisable cfg;
  sp_LifecycleEventLimit := LifecycleEventLimit cfg;
  sp_RetryEnabled := RetryEnabled cfg;
  sp_RetryShadow := RetryShadow cfg;
  sp_RetryAlways := RetryAlways cfg;
  sp_RetryMaxAttempts := RetryMaxAttempts cfg;
  sp_RetryStallTimeout := formatRetryDuration (RetryStallTimeout cfg);
  sp_RetryHoldTimeout := formatRetryDuration (RetryHoldTimeout cfg);
  sp_RetryChainDeadline := formatRetryDuration (RetryChainDeadline cfg);
  sp_RetryMaxFrames := RetryMaxFrames cfg;
  sp_RetryMaxBytes := formatByteSize (RetryMaxBytes cfg);
  sp_RetryStripReasoning := RetryStripReasoning cfg;
  sp_RetryChain := Some (NormalizeRetryChain (RetryChain cfg));
|}.

(** The page reports one message for a duration it cannot use. *)
Definition pageDuration (field raw : string) (old : Duration) : result settings_error Duration :=
  if String.eqb raw "" then Ok old
  else match ParseDuration raw with
       | None => Err (NotPositive field)
       | Some d => if d <=? 0 then Err (NotPositive field) else Ok d
       end.
Definition when_positive (value old : Z) : Z := if 0 <? value then value else old.

Definition ConfigFromSettings (base : Config) (p : SettingsPayload) : result settings_error Config :=
  let cfg := NormalizeConfig base in
  let cfg := if String.eqb (sp_MonthlyMode p) "" then cfg else cfg <| MonthlyMode := sp_MonthlyMode p |> in
  if negb (String.eqb (MonthlyMode cfg) MonthlyModePriority) && negb (String.eqb (MonthlyMode cfg) MonthlyModeExpiryOrder) then Err BadMonthlyMode
  else
  let! d := pageDuration "quota_refresh_interval" (sp_QuotaRefreshInterval p) (QuotaRefreshInterval cfg) in
  let cfg := cfg <| QuotaRefreshInterval := d |> in
  let! d := pageDuration "stale_after" (sp_StaleAfter p) (StaleAfter cfg) in
  let cfg := cfg <| StaleAfter := d |> <| HandleEnabled := sp_HandleEnabled p |> <| ScheduleAcrossPriorities := sp_ScheduleAcrossPriorities p |>
                 <| EnableManagedQuotaDisable := sp_EnableManagedQuotaDisable p |>
                 <| LifecycleEventLimit := when_positive (sp_LifecycleEventLimit p) (LifecycleEventLimit cfg) |>
                 <| EnableUsageFeedback := sp_EnableUsageFeedback p |> <| EnableResetProbe := sp_EnableResetProbe p |>
                 <| ProbeOnProvisionalRoster := sp_ProbeOnProvisionalRoster p |> in
  if sp_MaxRefreshConcurrency p <=? 0 then Err (NotPositive "max_refresh_concurrency")
  else
  let cfg := cfg <| MaxRefreshConcurrency := sp_MaxRefreshConcurrency p |> in
  let! endpoint := (if String.eqb (TrimSpace (sp_QuotaEndpoint p)) "" then Ok (QuotaEndpoint cfg)
                    else match validateQuotaEndpoint (sp_QuotaEndpoint p) with Ok e => Ok e | Err m => Err (BadEndpoint m) end) in
  let cfg := cfg <| QuotaEndpoint := endpoint |> in
  let! d := pageDuration "refresh_active_window" (sp_RefreshActiveWindow p) (RefreshActiveWindow cfg) in
  let cfg := cfg <| RefreshActiveWindow := d |> in
  let! d := pageDuration "refresh_after_reset_delay" (sp_RefreshAfterResetDelay p) (RefreshAfterResetDelay cfg) in
  let cfg := cfg <| RefreshAfterResetDelay := d |> in
  let! l := decodeDelays (sp_RefreshRetryDelays p) (RefreshRetryDelays cfg) in
  let cfg := cfg <| RefreshRetryDelays := l |> in
  let! d := pageDuration "auth_failure_retry_interval" (sp_AuthFailureRetryInterval p) (AuthFailureRetryInterval cfg) in
  let cfg := cfg <| AuthFailureRetryInterval := d |> <| RefreshOnStartup := sp_RefreshOnStartup p |>
                 <| CircuitFailureThreshold := when_positive (sp_CircuitFailureThreshold p) (CircuitFailureThreshold cfg) |> in
  let! d := pageDuration "circuit_open_duration" (sp_CircuitOpenDuration p) (CircuitOpenDuration cfg) in
  let cfg := cfg <| CircuitOpenDuration := d |>
                 <| CircuitHalfOpenSuccessThreshold := when_positive (sp_CircuitHalfOpenSuccessThreshold p) (CircuitHalfOpenSuccessThreshold cfg) |>
                 <| MaxLogEntries := when_positive (sp_MaxLogEntries p) (MaxLogEntries cfg) |> in
  let! d := pageDuration "log_retention" (sp_LogRetention p) (LogRetention cfg) in
  let cfg := cfg <| LogRetention := d |> <| RetryEnabled := sp_RetryEnabled p |> <| RetryShadow := sp_RetryShadow p |> <| RetryAlways := sp_RetryAlways p |> in
  let cfg := if sp_RetryAlways p then cfg <| RetryShadow := false |> else cfg in
  let cfg := cfg <| RetryStripReasoning := sp_RetryStripReasoning p |> in
  if (0 <? sp_RetryMaxAttempts p) && (maxRetryMaxAttempts <? sp_RetryMaxAttempts p) then Err BadAttempts
  else
  let cfg := cfg <| RetryMaxAttempts := when_positive (sp_RetryMaxAttempts p) (RetryMaxAttempts cfg) |> in
  let! d := pageDuration "retry_stall_timeout" (sp_RetryStallTimeout p) (RetryStallTimeout cfg) in
  let cfg := cfg <| RetryStallTimeout := d |> in
  let! d := pageDuration "retry_hold_timeout" (sp_RetryHoldTimeout p) (RetryHoldTimeout cfg) in
  let cfg := cfg <| RetryHoldTimeout := d |> in
  let! d := pageDuration "retry_chain_deadline" (sp_RetryChainDeadline p) (RetryChainDeadline cfg) in
  let cfg := cfg <| RetryChainDeadline := d |> <| RetryMaxFrames := when_positive (sp_RetryMaxFrames p) (RetryMaxFrames cfg) |> in
  let! n := (if String.eqb (TrimSpace (sp_RetryMaxBytes p)) "" then Ok (RetryMaxBytes cfg)
             else match parseByteSize (sp_RetryMaxBytes p) with Some n => Ok n | None => Err BadSize end) in
  let cfg := cfg <| RetryMaxBytes := n |> in
  let! chain := decodeChain (sp_RetryChain p) (RetryChain cfg) in
  Ok (NormalizeConfig (cfg <| RetryChain := chain |>)).

Example default_page : ConfigFromSettings DefaultConfig (SettingsFromConfig DefaultConfig) = Ok DefaultConfig.
Proof. vm_compute. reflexivity. Qed.

(** ** The texts of the page *)

Definition endsS (s : string) : Prop := exists b, s = b +:+ "s".
Fixpoint noComma (s : string) : Prop := match s with String c s => code c <> 44 /\ noComma s | EmptyString => True end.
Lemma endsS_cons c s : endsS s -> endsS (String c s).
Proof. intros [b ->]. by exists (String c b). Qed.
Lemma noComma_app a b : noComma a -> noComma b -> noComma (a +:+ b).
Proof. induction a as [|c a IH]; [done|]. intros [H1 H2] Hb. rewrite sapp_cons. split; auto. Qed.

Lemma digitChar_comma d : 0 <= d < 10 -> code (digitChar d) <> 44.
Proof. intros H. unfold digitChar. rewrite code_byte by lia. lia. Qed.
Lemma fmtInt_shape f v acc : endsS acc /\ noComma acc -> endsS (fmtInt_from f v acc) /\ noComma (fmtInt_from f v acc).
Proof.
  revert v acc. induction f as [|f IH]; intros v acc [H1 H2]; [done|]. cbn [fmtInt_from].
  assert (endsS (String (digitChar (v mod 10)) acc) /\ noComma (String (digitChar (v mod 10)) acc)) as H.
  { split; [by apply endsS_cons|]. split; [apply digitChar_comma, mod10|done]. }
  destruct (_ =? 0); [done|by apply IH].
Qed.
Lemma fmtFrac_shape n : forall v p acc, endsS acc /\ noComma acc -> endsS (fmtFrac n v p acc).1 /\ noComma (fmtFrac n v p acc).1.
Proof.
  induction n as [|n IH]; intros v p acc [H1 H2]; cbn [fmtFrac fst].
  - destruct p; [|done]. split; [by apply endsS_cons|]. split; [vm_compute; discriminate|done].
  - apply IH. destruct (p || _); [|done]. split; [by apply endsS_cons|]. split; [apply digitChar_comma, mod10|done].
Qed.

(** A positive duration is printed as a number and more, up to an s. *)
Lemma text_shape d : 0 < d -> exists v acc, Duration_String d = fmtInt v acc /\ endsS acc /\ noComma acc.
Proof.
  intros Hd. unfold Duration_String. rewrite (proj2 (Z.ltb_ge d 0)) by lia. cbv zeta.
  assert (forall s, endsS s /\ noComma s -> forall n u, exists v acc, (let '(acc, q) := fmtFrac n u false s in fmtInt q acc) = fmtInt v acc /\ endsS acc /\ noComma acc) as Hf.
  { intros s Hs n u. pose proof (fmtFrac_shape n u false s Hs) as H. destruct (fmtFrac n u false s) as [acc q]. by exists q, acc. }
  assert (endsS "s" /\ noComma "s") as Hs by (split; [by exists ""|repeat split; vm_compute; discriminate]).
  destruct (_ <? Second).
  - destruct (Z.eqb_spec (Z.abs d) 0); [lia|]. destruct (_ <? Microsecond).
    { exists (Z.abs d), "ns". split; [done|]. split; [by exists "n"|repeat split; vm_compute; discriminate]. }
    destruct (_ <? Millisecond); apply Hf; (split; [|repeat split; vm_compute; discriminate]); [by exists microSign|by exists "m"].
  - pose proof (fmtFrac_shape 9 (Z.abs d) false "s" Hs) as H. destruct (fmtFrac 9 (Z.abs d) false "s") as [frac secs]. cbn [fst] in H.
    destruct (_ =? 0); [by exists (secs mod 60), frac|].
    assert (forall v m c, code c <> 44 -> endsS m /\ noComma m -> endsS (String c (fmtInt v m)) /\ noComma (String c (fmtInt v m))) as Hstep.
    { intros v m c Hc Hm. destruct (fmtInt_shape 20 v m Hm) as [H1 H2]. split; [by apply endsS_cons|by split]. }
    assert (code (byte 109) <> 44 /\ code (byte 104) <> 44) as [Hm Hh] by (split; vm_compute; discriminate).
    pose proof (Hstep (secs mod 60) frac (byte 109) Hm H) as H1.
    destruct (_ =? 0); eexists _, _; (split; [reflexivity|]); [exact H1|]. by apply Hstep.
Qed.

Lemma text_trimmed d : 0 < d -> TrimSpace (Duration_String d) = Duration_String d /\ noComma (Duration_String d) /\ Duration_String d <> "".
Proof.
  intros Hd. destruct (text_shape d Hd) as (v & acc & E & H). rewrite E. destruct (fmtInt_shape 20 v acc H) as [[b Eb] Hn].
  destruct (fmtInt_head 19 v acc) as (c & r & Ec & _ & Hc & _). unfold fmtInt. split; [|split; [done|by rewrite Ec]].
  apply (TrimSpace_plain _ c r "s" b); [done|done| |split; vm_compute; discriminate]. unfold digitOf in Hc. by destruct (is_digit c).
Qed.

Lemma splitComma_plain s : noComma s -> splitComma s = [s].
Proof. induction s as [|c s IH]; [done|]. intros [H1 H2]. cbn. by rewrite (proj2 (Z.eqb_neq _ _) H1), IH. Qed.
Lemma splitComma_app s t : noComma s -> splitComma (s +:+ String "," t) = s :: splitComma t.
Proof.
  induction s as [|c s IH]; [done|]. intros [H1 H2]. rewrite sapp_cons. cbn [splitComma]. by rewrite (proj2 (Z.eqb_neq _ _) H1), IH.
Qed.
Lemma splitComma_concat l : l <> [] -> Forall noComma l -> splitComma (String.concat "," l) = l.
Proof.
  induction l as [|s l IH]; [done|]. intros _ [Hs Hl]%Forall_cons. destruct l as [|t l]; [by apply splitComma_plain|].
  change (String.concat "," (s :: t :: l)) with (s +:+ String "," (String.concat "," (t :: l))). rewrite splitComma_app by done. f_equal. by apply IH.
Qed.

Lemma delays_text l : l <> [] -> Forall (fun d => 0 < d <= maxInt64) l -> parseDurationList (formatDurationList l) = Some l.
Proof.
  intros Hne Hl. unfold parseDurationList, formatDurationList. assert (List.filter (fun v => 0 <? v) l = l) as ->.
  { clear Hne. induction Hl as [|d l Hd Hl IH]; [done|]. cbn. rewrite (proj2 (Z.ltb_lt 0 d)) by lia. by rewrite IH. }
  rewrite splitComma_concat.
  - assert (parseDurations (Duration_String <$> l) = Some l) as ->; [|by destruct l]. clear Hne. induction Hl as [|d l Hd Hl IH]; [done|].
    destruct (text_trimmed d ltac:(lia)) as (Ht & _ & Hn). rewrite fmap_cons. cbn [parseDurations]. rewrite Ht, (proj2 (String.eqb_neq _ _) Hn).
    rewrite duration_text_roundtrip by (unfold minInt64; lia). rewrite (proj2 (Z.leb_gt d 0)) by lia. by rewrite IH.
  - by destruct l.
  - apply Forall_fmap. eapply Forall_impl; [exact Hl|]. intros d [Hd _]. by apply text_trimmed.
Qed.

Lemma page_duration field d old : 0 < d <= maxInt64 -> pageDuration field (Duration_String d) old = Ok d.
Proof.
  intros Hd. destruct (text_trimmed d ltac:(lia)) as (_ & _ & Hn). unfold pageDuration. rewrite (proj2 (String.eqb_neq _ _) Hn).
  rewrite duration_text_roundtrip by (unfold minInt64; lia). by rewrite (proj2 (Z.leb_gt d 0)) by lia.
Qed.
Lemma page_retry_duration field d old : 0 < d <= maxInt64 -> pageDuration field (formatRetryDuration d) old = Ok d.
Proof.
  intros Hd. unfold formatRetryDuration. rewrite (proj2 (Z.leb_gt d 0)) by lia. destruct (Z.eqb_spec (Z.rem d Second) 0) as [E|_]; [|by apply page_duration].
  assert (Z.quot d Second * Second = d /\ 0 <= Z.quot d Second) as [Eq Hq].
  { unfold Second in *. pose proof (Z.quot_rem d 1000000000 ltac:(done)). split; [lia|]. apply Z.quot_pos; lia. }
  assert (ParseDuration (fmtInt (Z.quot d Second) "s") = Some d) as Ep.
  { apply printed_parse; [|lia]. pose proof (fmtInt_length (Z.quot d Second) "s") as Hl. change (String.length "s") with 1%nat in Hl.
    apply printed_term; [apply fmtInt_numeric|lia| |unfold two63, maxInt64 in *; lia].
    rewrite (term_int _ "s" Second ""); [by rewrite Eq|done|done|unfold two63, maxInt64 in *; lia|]. split_and!; try done. by eexists _, _. }
  unfold pageDuration. destruct (String.eqb_spec (fmtInt (Z.quot d Second) "s") "") as [E0|_]; [by rewrite E0 in Ep|].
  rewrite Ep. by rewrite (proj2 (Z.leb_gt d 0)) by lia.
Qed.

(** ** Saving the page as it is shown *)

(** The values a file or the page can give. *)
Record page_ok (c : Config) : Prop := {
  po_interval : QuotaRefreshInterval c <= maxInt64;
  po_stale : StaleAfter c <= maxInt64;
  po_mode : MonthlyMode c = MonthlyModePriority \/ MonthlyMode c = MonthlyModeExpiryOrder;
  po_endpoint : QuotaEndpoint c = chatGPTQuotaEndpoint \/ QuotaEndpoint c = "";
  po_active : RefreshActiveWindow c <= maxInt64;
  po_delay : RefreshAfterResetDelay c <= maxInt64;
  po_delays : Forall (fun d => d <= maxInt64) (RefreshRetryDelays c);
  po_auth : AuthFailureRetryInterval c <= maxInt64;
  po_open : CircuitOpenDuration c <= maxInt64;
  po_retention : LogRetention c <= maxInt64;
  po_stall : RetryStallTimeout c <= maxInt64;
  po_hold : RetryHoldTimeout c <= maxInt64;
  po_deadline : RetryChainDeadline c <= maxInt64;
  po_bytes : exact53 (RetryMaxBytes c) /\ RetryMaxBytes c <= maxInt64;
  po_chain : validateRetryChain (NormalizeRetryChain (RetryChain c)) = Ok tt;
  po_always : RetryAlways c = true -> RetryShadow c = false;
}.

(** A step of the page that leaves the configuration as it is. *)
Ltac unchanged_step cfg :=
  match goal with
  | |- (let x := ?c in @?k x) = _ =>
      let E := fresh in assert (c = cfg) as E by (destruct cfg; reflexivity); transitivity (k cfg); [exact (f_equal k E)|clear E; cbv beta]
  end.
Lemma rbind_ok {E A B} (a : A) (k : A -> result E B) : rbind (Ok a) k = k a.
Proof. reflexivity. Qed.
Ltac duration_step lem := rewrite lem by (split; assumption); rewrite rbind_ok; cbv beta.

Lemma when_positive_same v : when_positive v v = v.
Proof. unfold when_positive. by destruct (0 <? v). Qed.
Lemma decodeDelays_text l old : l <> [] -> Forall (fun d => 0 < d) l -> Forall (fun d => d <= maxInt64) l -> decodeDelays (formatDurationList l) old = Ok l.
Proof.
  intros Hne Hp Hb. assert (parseDurationList (formatDurationList l) = Some l) as E.
  { apply delays_text; [done|]. rewrite Forall_forall in Hp, Hb |- *. auto. }
  unfold decodeDelays. destruct (String.eqb_spec (formatDurationList l) "") as [E0|_]; [|by rewrite E]. by rewrite E0 in E.
Qed.
Lemma decodeChain_text chain old : NormalizeRetryChain chain = chain -> validateRetryChain (NormalizeRetryChain chain) = Ok tt ->
  decodeChain (Some (NormalizeRetryChain chain)) old = Ok chain.
Proof. intros H1 H2. unfold decodeChain. rewrite H1 in *. rewrite H1. by rewrite H2. Qed.
Lemma parseByteSize_nonblank s n : parseByteSize s = Some n -> String.eqb (TrimSpace s) "" = false.
Proof. unfold parseByteSize. by destruct (String.eqb (TrimSpace s) ""). Qed.

Lemma page_round cfg : config_wf cfg -> page_ok cfg -> ConfigFromSettings cfg (SettingsFromConfig cfg) = Ok cfg.
Proof.
  intros Hw Hp. cbv beta delta [ConfigFromSettings]. rewrite NormalizeConfig_id by done. pose proof (NormalizeConfig_id cfg Hw) as Hid.
  destruct Hw as [? ? Hmode _ Hconc Hblank ? ? [? ?] ? _ ? _ _ ? [_ Hatt] ? ? ? _ _ Hchain], Hp as [? ? Hmode2 Hend ? ? ? ? ? ? ? ? ? [Hex Hmax] Hval Halw]. 
  cbv beta iota delta [SettingsFromConfig sp_HandleEnabled sp_MonthlyMode sp_QuotaRefreshInterval sp_StaleAfter sp_EnableUsageFeedback sp_EnableResetProbe sp_ProbeOnProvisionalRoster
       sp_MaxRefreshConcurrency sp_QuotaEndpoint sp_RefreshActiveWindow sp_RefreshAfterResetDelay sp_RefreshRetryDelays sp_AuthFailureRetryInterval
       sp_RefreshOnStartup sp_CircuitFailureThreshold sp_CircuitOpenDuration sp_CircuitHalfOpenSuccessThreshold sp_MaxLogEntries sp_LogRetention
       sp_ScheduleAcrossPriorities sp_EnableManagedQuotaDisable sp_LifecycleEventLimit sp_RetryEnabled sp_RetryShadow sp_RetryAlways sp_RetryMaxAttempts
       sp_RetryStallTimeout sp_RetryHoldTimeout sp_RetryChainDeadline sp_RetryMaxFrames sp_RetryMaxBytes sp_RetryStripReasoning sp_RetryChain].
  unchanged_step cfg. rewrite (proj2 (String.eqb_neq _ _) Hmode). unchanged_step cfg.
  assert (negb (String.eqb (MonthlyMode cfg) MonthlyModePriority) && negb (String.eqb (MonthlyMode cfg) MonthlyModeExpiryOrder) = false) as ->
    by (destruct Hmode2 as [-> | ->]; reflexivity).
  do 2 (duration_step page_duration; rewrite ?when_positive_same; unchanged_step cfg).
  rewrite (proj2 (Z.leb_gt _ _)) by assumption. unchanged_step cfg.
  destruct Hend as [Hend|Hend]; [|by rewrite Hend in Hblank].
  rewrite (proj2 (String.eqb_neq _ _) Hblank). assert (validateQuotaEndpoint (QuotaEndpoint cfg) = Ok (QuotaEndpoint cfg)) as -> by (rewrite Hend; reflexivity).
  rewrite rbind_ok; cbv beta. unchanged_step cfg.
  do 2 (duration_step page_duration; unchanged_step cfg). rewrite decodeDelays_text by assumption. rewrite rbind_ok; cbv beta. unchanged_step cfg.
  duration_step page_duration. rewrite when_positive_same. unchanged_step cfg.
  duration_step page_duration. rewrite !when_positive_same. unchanged_step cfg.
  duration_step page_duration. unchanged_step cfg.
  assert ((if RetryAlways cfg then cfg <| RetryShadow := false |> else cfg) = cfg) as ->.
  { destruct (RetryAlways cfg); [|done]. rewrite <- Halw by done. by destruct cfg. }
  unchanged_step cfg. unchanged_step cfg. rewrite (proj2 (Z.ltb_ge maxRetryMaxAttempts (RetryMaxAttempts cfg))), andb_false_r by assumption.
  rewrite when_positive_same. unchanged_step cfg. do 2 (duration_step page_retry_duration; unchanged_step cfg).
  duration_step page_retry_duration. rewrite when_positive_same. unchanged_step cfg.
  pose proof (size_text_roundtrip _ Hex Hmax) as Hsize. rewrite (parseByteSize_nonblank _ _ Hsize), Hsize. rewrite rbind_ok; cbv beta. unchanged_step cfg.
  rewrite decodeChain_text by assumption. rewrite rbind_ok; cbv beta. assert (cfg <| RetryChain := RetryChain cfg |> = cfg) as -> by by destruct cfg. by rewrite Hid.
Qed.

(** *** Every configuration that was read can be shown *)

Lemma decodeDuration_bound field raw old d : old <= maxInt64 -> decodeDuration field raw old = Ok d -> d <= maxInt64.
Proof.
  unfold decodeDuration. intros Ho. destruct (String.eqb raw ""); [by intros [= <-]|]. destruct (ParseDuration raw) as [v|] eqn:E; [|done].
  destruct (v <=? 0); [done|]. intros [= <-]. by eapply parsed_duration_bound.
Qed.
Lemma pageDuration_bound field raw old d : old <= maxInt64 -> pageDuration field raw old = Ok d -> d <= maxInt64.
Proof.
  unfold pageDuration. intros Ho. destruct (String.eqb raw ""); [by intros [= <-]|]. destruct (ParseDuration raw) as [v|] eqn:E; [|done].
  destruct (v <=? 0); [done|]. intros [= <-]. by eapply parsed_duration_bound.
Qed.
Lemma parseDurations_bound parts l : parseDurations parts = Some l -> Forall (fun d => d <= maxInt64) l.
Proof.
  revert l. induction parts as [|p parts IH]; intros l; [by intros [= <-]|]. cbn [parseDurations]. destruct (String.eqb _ ""); [apply IH|].
  destruct (ParseDuration _) as [d|] eqn:E; [|done]. destruct (d <=? 0); [done|]. destruct (parseDurations parts) as [l'|]; [|done]. intros [= <-].
  constructor; [by eapply parsed_duration_bound|by apply IH].
Qed.
Lemma decodeDelays_bound raw old l : Forall (fun d => d <= maxInt64) old -> decodeDelays raw old = Ok l -> Forall (fun d => d <= maxInt64) l.
Proof.
  unfold decodeDelays, parseDurationList. intros Ho. destruct (String.eqb raw ""); [by intros [= <-]|].
  destruct (parseDurations _) as [[|d l']|] eqn:E; [done| |done]. intros [= <-]. by eapply parseDurations_bound.
Qed.
Lemma decodeChain_valid rows old l : validateRetryChain (NormalizeRetryChain old) = Ok tt -> decodeChain rows old = Ok l -> validateRetryChain (NormalizeRetryChain l) = Ok tt.
Proof.
  unfold decodeChain. intros Ho. destruct rows as [rows|]; [|by intros [= <-]]. cbv zeta.
  destruct (validateRetryChain (NormalizeRetryChain rows)) as [[]|] eqn:E; [|done]. intros [= <-]. by rewrite NormalizeRetryChain_idem.
Qed.
Lemma endpoint_valid raw e : validateQuotaEndpoint raw = Ok e -> e = chatGPTQuotaEndpoint \/ e = "".
Proof.
  unfold validateQuotaEndpoint. destruct (String.eqb (TrimSpace raw) ""); [intros [= <-]; by right|].
  destruct (String.eqb_spec (TrimSpace raw) chatGPTQuotaEndpoint) as [E|_]; [|done]. intros [= <-]. by left.
Qed.

Lemma endpoint_read (b : bool) raw old e : old = chatGPTQuotaEndpoint \/ old = "" ->
  (if b then Ok old else match validateQuotaEndpoint raw with Ok e => Ok e | Err m => Err (BadEndpoint m) end) = Ok e -> e = chatGPTQuotaEndpoint \/ e = "".
Proof. destruct b; [by intros H [= <-]|]. destruct (validateQuotaEndpoint raw) eqn:E; [|done]. intros _ [= <-]. by eapply endpoint_valid. Qed.
Lemma size_read (b : bool) raw old n : exact53 old /\ old <= maxInt64 ->
  (if b then Ok old else match parseByteSize raw with Some n => Ok n | None => Err BadSize end) = Ok n -> exact53 n /\ n <= maxInt64.
Proof. destruct b; [by intros H [= <-]|]. destruct (parseByteSize raw) eqn:E; [|done]. intros _ [= <-]. by eapply parsed_size_exact. Qed.

Lemma positive_or_bound v d : v <= maxInt64 -> d <= maxInt64 -> positive_or v d <= maxInt64.
Proof. unfold positive_or. by destruct (v <=? 0). Qed.
Lemma NormalizeConfig_page_ok cfg : page_ok cfg -> page_ok (NormalizeConfig cfg).
Proof.
  intros [? ? Hm He ? ? Hd ? ? ? ? ? ? [Hb1 Hb2] Hc Ha]. split; cbn -[NormalizeRetryChain validateRetryChain]; try (apply positive_or_bound; [assumption|by vm_compute]).
  - destruct (String.eqb_spec (MonthlyMode cfg) "") as [_|_]; [by right|done].
  - destruct (String.eqb _ ""); [by left|done].
  - unfold normalizeRetryDelays. destruct (filter _ _) as [|x l] eqn:E; [repeat constructor; by vm_compute|]. rewrite <- E.
    apply Forall_forall. intros y [_ Hy]%list_elem_of_filter. rewrite Forall_forall in Hd. auto.
  - unfold positive_or. pose proof (exact53_pos _ Hb1). by rewrite (proj2 (Z.leb_gt _ _)) by done.
  - by rewrite NormalizeRetryChain_idem.
  - done.
Qed.

Lemma default_page_ok : page_ok DefaultConfig.
Proof.
  split; try discriminate; [by right|by left| | |done].
  - cbn [DefaultConfig RefreshRetryDelays]. repeat (apply Forall_cons; split; [by apply Z.leb_le|]). by apply Forall_nil.
  - split; [by exists 1, 23|vm_compute; discriminate].
Qed.
Lemma mode_page_ok cfg mode : page_ok cfg ->
  let cfg' := if String.eqb mode "" then cfg else cfg <| MonthlyMode := mode |> in
  negb (String.eqb (MonthlyMode cfg') MonthlyModePriority) && negb (String.eqb (MonthlyMode cfg') MonthlyModeExpiryOrder) = false -> page_ok cfg'.
Proof.
  intros [] cfg' E. assert (MonthlyMode cfg' = MonthlyModePriority \/ MonthlyMode cfg' = MonthlyModeExpiryOrder) as Hm.
  { apply andb_false_iff in E as [E|E]; apply negb_false_iff, String.eqb_eq in E; auto. }
  clear E. subst cfg'. destruct (String.eqb mode ""); [by split|]. split; cbn in *; done.
Qed.

(** A file is read into a configuration that does not retry always. *)
Definition decoding (c : Config) : Prop := page_ok c /\ RetryAlways c = false.
Lemma mode_decoding cfg mode : decoding cfg ->
  let cfg' := if String.eqb mode "" then cfg else cfg <| MonthlyMode := mode |> in
  negb (String.eqb (MonthlyMode cfg') MonthlyModePriority) && negb (String.eqb (MonthlyMode cfg') MonthlyModeExpiryOrder) = false -> decoding cfg'.
Proof. intros [H1 H2] cfg' E. split; [by apply mode_page_ok|]. subst cfg'. by destruct (String.eqb mode ""). Qed.

(** The invariant moves along the assignments of a decoder. *)
Ltac into := match goal with |- (let x := ?c in @?k x) = ?r -> ?P => change (k c = r -> P) end.
Ltac fresh_config H :=
  match goal with
  | |- ?k ?c = ?r -> ?P =>
      match type of H with ?Q _ => let H' := fresh in assert (Q c) as H' end; [|clear H; generalize dependent c; let cfg := fresh "cfg" in intros cfg H; cbv beta]
  end.
Ltac kept_fields := split; cbn -[NormalizeRetryChain validateRetryChain]; auto.
Ltac kept H := into; fresh_config H; [repeat case_match; solve [exact H | destruct H; kept_fields | destruct H as [[] ?]; split; [kept_fields|done]]|].
Ltac skip v E :=
  match goal with
  | |- rbind ?e ?k = ?r -> ?P => destruct e as [v|] eqn:E; [|discriminate]; change (k v = r -> P); cbv beta
  end.
(** A value that is read without a fact about it. *)
Ltac pass := let v := fresh "v" in let E := fresh "E" in skip v E; clear E.
Ltac read H lem := let v := fresh "v" in let E := fresh "E" in skip v E; eapply lem in E; [|solve [destruct H; eassumption|destruct H as [[] ?]; eassumption]].
Ltac mode_step H mode :=
  into; let Hc := fresh in first [pose proof (mode_page_ok _ mode H) as Hc | pose proof (mode_decoding _ mode H) as Hc]; cbv zeta in Hc;
  match goal with |- ?k ?c = ?r -> ?P => generalize dependent c; let cfg := fresh "cfg" in intros cfg Hc; cbv beta end;
  match goal with |- (if ?b then _ else _) = _ -> _ => destruct b; [discriminate|specialize (Hc eq_refl); clear H; rename Hc into H] end.

Lemma decoded_page_ok raw cfg : DecodeConfig raw = Ok cfg -> config_wf cfg /\ page_ok cfg.
Proof.
  cbv beta delta [DecodeConfig]. pose proof default_page_ok as H. destruct raw as [r|]; [|intros [= <-]; split; [apply DefaultConfig_wf|done]].
  assert (decoding DefaultConfig) as Hd by (split; [exact H|done]). clear H. rename Hd into H. into. fresh_config H; [exact H|]. kept H. do 2 (read H decodeDuration_bound; kept H). mode_step H (rw_MonthlyMode r).
  kept H. destruct (_ && _); [discriminate|]. kept H. skip n En. kept H. read H @endpoint_read. kept H. do 2 (read H decodeDuration_bound; kept H).
  read H decodeDelays_bound. kept H. read H decodeDuration_bound. kept H. kept H. skip n1 En1. kept H. read H decodeDuration_bound. kept H.
  skip n2 En2. kept H. skip n3 En3. kept H. read H decodeDuration_bound. kept H. kept H. skip n4 En4. kept H.
  destruct H as [H Hfalse]. into. cbv beta. into. fresh_config H.
  { destruct (rw_RetryAlways r) as [[]|]; destruct H; split; cbn -[NormalizeRetryChain validateRetryChain]; try done. by rewrite Hfalse. }
  skip n5 En5. kept H. do 3 (read H decodeDuration_bound; kept H). skip n6 En6. kept H. read H @size_read. kept H. kept H. read H decodeChain_valid.
  intros [= <-]. split; [apply NormalizeConfig_wf|]. apply NormalizeConfig_page_ok. destruct H. split; cbn -[NormalizeRetryChain validateRetryChain]; auto.
Qed.

Lemma saved_page_ok base p cfg : page_ok base -> ConfigFromSettings base p = Ok cfg -> config_wf cfg /\ page_ok cfg.
Proof.
  cbv beta delta [ConfigFromSettings]. intros H. into. fresh_config H; [by apply NormalizeConfig_page_ok|]. mode_step H (sp_MonthlyMode p).
  do 2 (read H pageDuration_bound; kept H). destruct (_ <=? 0); [discriminate|]. kept H. read H @endpoint_read. kept H. do 2 (read H pageDuration_bound; kept H).
  read H decodeDelays_bound. kept H. do 2 (read H pageDuration_bound; kept H). read H pageDuration_bound. into. cbv beta. into. fresh_config H.
  { destruct (sp_RetryAlways p); destruct H; split; cbn -[NormalizeRetryChain validateRetryChain]; done. }
  kept H. destruct (_ && _); [discriminate|]. kept H. do 3 (read H pageDuration_bound; kept H). read H @size_read. kept H. read H decodeChain_valid.
  intros [= <-]. split; [apply NormalizeConfig_wf|]. apply NormalizeConfig_page_ok. destruct H. kept_fields.
Qed.

(** A configuration that was read from a file, and then saved from the page any
    number of times. *)
Inductive configured : Config -> Prop :=
  | from_file raw cfg : DecodeConfig raw = Ok cfg -> configured cfg
  | from_page base p cfg : configured base -> ConfigFromSettings base p = Ok cfg -> configured cfg.

Lemma configured_page_ok cfg : configured cfg -> config_wf cfg /\ page_ok cfg.
Proof. induction 1 as [raw cfg E|base p cfg _ [_ IH] E]; [by eapply decoded_page_ok|by eapply saved_page_ok]. Qed.

(** C18: The settings page loses nothing: whatever configuration was read from the
    file, and then saved from the page any number of times, showing it on the page
    (durations, retry delays and sizes as text) and saving the page as it is shown
    is accepted and gives the same configuration; and that configuration is a
    normalised one. *)
Theorem settings_page_roundtrip (cfg : Config) :
  configured cfg -> ConfigFromSettings cfg (SettingsFromConfig cfg) = Ok cfg /\ config_wf cfg.
Proof. intros [Hw Hp]%configured_page_ok. split; [by apply page_round|done]. Qed.

Lemma settings_page_roundtrip_witness :
  exists cfg, DecodeConfig (Some (emptyRawConfig <| rw_StaleAfter := "1h30m" |> <| rw_RetryMaxBytes := "1.5MiB" |> <| rw_RefreshRetryDelays := "500ms, 1.5s" |>)) = Ok cfg
    /\ sp_StaleAfter (SettingsFromConfig cfg) = "1h30m0s" /\ sp_RetryMaxBytes (SettingsFromConfig cfg) = "1536KB"
    /\ ConfigFromSettings cfg (SettingsFromConfig cfg) = Ok cfg /\ config_wf cfg.
Proof.
  eexists. split; [vm_compute; reflexivity|]. split; [vm_compute; reflexivity|]. split; [vm_compute; reflexivity|].
  apply settings_page_roundtrip. eapply (from_file (Some (emptyRawConfig <| rw_StaleAfter := "1h30m" |> <| rw_RetryMaxBytes := "1.5MiB" |> <| rw_RefreshRetryDelays := "500ms, 1.5s" |>))).
  vm_compute. reflexivity.
Defined.

(** A size that is no [float64], which only an imported state can have, is not read
    back as it is shown. *)
Theorem inexact_size_changes_on_the_page :
  formatByteSize (2 ^ 53 + 1) = "9007199254740993B" /\ parseByteSize (formatByteSize (2 ^ 53 + 1)) = Some (2 ^ 53).
Proof. split; vm_compute; reflexivity. Qed.
