(* ===== verification/Status.v ===== *)
(** * The status page (management.go)

    What the management page shows: the projection of the state, of the roster and
    of the managed records into the status payload.  Rendering the payload as HTML
    or JSON is outside the model; so are the patterns of [redactSecrets]. *)

From S2P Require Import ProbeSequence Prelude GoStrings Float64 Json Text RetryChain Config Models Circuit Trial Selection Capability Availability Scheduler Annotations Probe State Roster StateStore Quota Durations Rfc3339 Sizes Settings.
From Stdlib Require Import Ascii.
#[local] Open Scope string_scope.
#[local] Open Scope list_scope.
#[local] Open Scope Z_scope.
#[local] Open Scope go_scope.

Definition PluginID : string := "codex-quota-scheduler".

(** ** Texts *)

Definition formatTime (t : Time) : string := if IsZero t then "" else FormatRFC3339 t.

Example formatted_times :
  formatTime <$> [zeroTime; unixTime 0; unixTime 1709202605 + 250000000; unixTime 4102444799]
  = [""; "1970-01-01T00:00:00Z"; "2024-02-29T10:30:05Z"; "2099-12-31T23:59:59Z"].
Proof. vm_compute. reflexivity. Qed.

(** [fmt.Sprintf("%.0f", f)]: rounded to the nearest integer, ties to even. *)
Definition roundEven (f : float64) : option Z :=
  match f with
  | S754_zero _ => Some 0
  | S754_finite s m e =>
      let v := if 0 <=? e then Z.shiftl (Z.pos m) e
               else let d := 2 ^ (- e) in let q := Z.pos m / d in let r := Z.pos m mod d in
                    if 2 * r <? d then q else if d <? 2 * r then q + 1 else if Z.even q then q else q + 1 in
      Some (if s then - v else v)
  | _ => None
  end.
(** Only percentages from 0 to 100 are printed. *)
Definition percentText (f : float64) : string := match roundEven f with Some v => fmtInt v "" | None => "NaN" end.

(** [strings.ReplaceAll] of a text that is not empty. *)
Fixpoint replaceAll_from (fuel : nat) (s old new : string) : string :=
  match fuel with
  | O => s
  | S fuel =>
      match cut old s with
      | Some (before, after) => before +:+ new +:+ replaceAll_from fuel after old new
      | None => s
      end
  end.
Definition ReplaceAll (s old new : string) : string := replaceAll_from (String.length s) s old new.

(** [Duration.Round(time.Second)] and [int64(Duration.Seconds())] *)
Definition RoundSecond (d : Duration) : Duration :=
  let r := Z.rem d Second in
  if d <? 0 then
    let r := - r in
    if i64 (r + r) <? Second then d + r
    else let d1 := i64 (d - Second + r) in if d1 <? d then d1 else minInt64
  else if r + r <? Second then d - r
  else let d1 := i64 (d + Second - r) in if d <? d1 then d1 else maxInt64.
Definition Seconds (d : Duration) : float64 :=
  f_add (f_of_Z (Z.quot d Second)) (f_div (f_of_Z (Z.rem d Second)) (f_of_Z Second)).

Example texts :
  (percentText (f_div (f_of_Z 145) (f_of_Z 2)), percentText (f_of_Z 7), ReplaceAll "a.b.c" "." "--", Duration_String (RoundSecond (1500 * Millisecond)), int64_of (Seconds (1999 * Millisecond)))
  = ("72", "7", "a--b--c", "2s", 1).
Proof. vm_compute. reflexivity. Qed.

(** ** Parts of the payload *)

Record StatusWindow := mkStatusWindow {
  sw_Kind : WindowKind; sw_Label : string; sw_UsedPercent : float64; sw_RemainingPercent : float64; sw_DisplayText : string;
  sw_Exhausted : bool; sw_ResetAt : Time; sw_ResetText : string; sw_Missing : bool;
}.
Definition hundred : float64 := f_of_Z 100.
(** A negative percentage is 0 and one above 100 is 100. *)
Definition clampPercent (used : float64) : float64 :=
  let used := if f_lt used f_zero then f_zero else used in
  if f_lt hundred used then hundred else used.
Definition statusWindow (window : option QuotaWindow) (label : string) : StatusWindow :=
  match window with
  | None => mkStatusWindow "" label f_zero f_zero "暂无数据" false zeroTime "" true
  | Some w =>
      let used := clampPercent (default f_zero (qw_UsedPercent w)) in
      let remaining := f_sub hundred used in
      let remaining := if f_lt remaining f_zero then f_zero else remaining in
      let exhausted := match qw_UsedPercent w with Some _ => f_le hundred used | None => qw_Exhausted w end in
      let remaining := if exhausted then f_zero else remaining in
      let displayText := if exhausted then "已用完" else "剩余 " +:+ percentText remaining +:+ "%" in
      mkStatusWindow (qw_Kind w) label used remaining displayText exhausted (qw_ResetAt w) (formatTime (qw_ResetAt w)) false
  end.

Record StatusCircuit := mkStatusCircuit {
  sc_State : CircuitState; sc_Label : string; sc_FailureCount : Z; sc_SuccessCount : Z; sc_NextProbeAt : Time; sc_NextProbeText : string; sc_Reason : string;
}.
Definition statusCircuit (circuit : CircuitBreakerState) (now : Time) : StatusCircuit :=
  let circuit := effectiveCircuitState circuit now in
  let label := match cb_EffectiveState circuit with CircuitStateOpen => "熔断" | CircuitStateHalfOpen => "半开" | _ => "全开" end in
  mkStatusCircuit (cb_EffectiveState circuit) label (cb_FailureCount circuit) (cb_SuccessCount circuit) (cb_NextProbeAt circuit)
    (formatTime (cb_NextProbeAt circuit)) (cb_Reason circuit).

Record StatusResetProbe := mkStatusProbe {
  srp_WindowKind : WindowKind; srp_Status : ResetProbeStatus; srp_ResetAt : string; srp_NextCheckAt : string; srp_LastProbeAt : string;
  srp_VerifiedAt : string; srp_Attempts : Z; srp_Error : string;
}.

Section status.
Context `{MapRange} (redactSecrets : string -> string).

Definition redactPublicStatusString (message : string) : string :=
  foldl (fun redacted endpoint => ReplaceAll redacted endpoint "[redacted]") (redactSecrets message) [chatGPTQuotaEndpoint; codexResetProbeEndpoint].
Definition sanitizeResetProbeError (message : string) : string :=
  if String.eqb message "" then ""
  else
    let redacted := redactPublicStatusString message in
    let lower := LowerText redacted in
    if existsb (Contains lower) ["access_token"; "refresh_token"; "id_token"; "bearer"; "authorization"; "cookie"] then "redacted reset probe error"
    else redacted.

Definition statusResetProbes (probes : gmap WindowKind ResetProbeState) : list StatusResetProbe :=
  (fun kind =>
     let probe := default (mkResetProbe "" 0 zeroTime zeroTime zeroTime zeroTime 0 ResetProbeStatusNone "") (probes !! kind) in
     mkStatusProbe (if String.eqb (rp_WindowKind probe) "" then kind else rp_WindowKind probe) (rp_Status probe) (formatTime (rp_ResetAt probe))
       (formatTime (rp_NextCheckAt probe)) (formatTime (rp_LastProbeAt probe)) (formatTime (rp_VerifiedAt probe)) (rp_Attempts probe)
       (sanitizeResetProbeError (rp_Error probe)))
  <$> sortStrings (map_range probes).*1.

Definition longWindowLabelCN (family : AccountFamily) : string := if bool_decide (family = AccountFamilyMonthly) then "月额度" else "周额度".

Definition refreshActiveFromSnapshot (snapshot : StateSnapshot) : bool :=
  if IsZero (ss_LastCodexActivityAt snapshot) then false
  else Before (ss_Now snapshot) (Add (ss_LastCodexActivityAt snapshot) (RefreshActiveWindow (NormalizeConfig (ss_Config snapshot)))).
Definition nextStatusAuthID (ordered : list ScheduledAccount) : string :=
  match List.find sa_Available ordered with Some scheduled => sa_AuthID scheduled | None => "" end.

Record EmptyStatePayload := mkEmptyState { es_Reason : string; es_Title : string; es_Message : string }.
Definition noEmptyState : EmptyStatePayload := mkEmptyState "" "" "".
Definition emptyStatePayload (snapshot : StateSnapshot) (refreshActive : bool) : EmptyStatePayload :=
  let cfg := NormalizeConfig (ss_Config snapshot) in
  let window := Duration_String (RefreshActiveWindow cfg) in
  if negb (IsZero (ss_LastAuthScanAt snapshot)) && (ss_CodexAuthCount snapshot =? 0)
  then mkEmptyState "no_codex_auth" "未发现 Codex 账号" "最近一次扫描认证文件中没有 Codex 账号，请先进行 OS 登录，然后发送一次 Codex 请求或手动刷新额度。"
  else if IsZero (ss_LastCodexActivityAt snapshot)
  then mkEmptyState "sleeping_no_activity" "调度器处于休眠状态"
         ("最近 " +:+ window +:+ " 内没有观察到 Codex 请求，系统暂不主动扫描账号。发送第一次 Codex 请求后将自动获取账号额度信息。")
  else if negb refreshActive
  then mkEmptyState "sleeping_inactive_window" "调度器处于休眠状态"
         ("最近 " +:+ window +:+ " 内没有 Codex 请求，调度器已暂停后台刷新。发送一次 Codex 请求后会重新进入活跃窗口并获取账号额度信息。")
  else mkEmptyState "waiting_for_refresh" "等待账号额度数据" "已观察到 Codex 请求，调度器处于活跃窗口。账号额度刷新完成后，这里会显示账号卡片。".

Definition accountStatusNote (account : AccountState) (dueReason : string) (snapshot : StateSnapshot) (refreshActive : bool) : string :=
  let cfg := NormalizeConfig (ss_Config snapshot) in
  let why := String.eqb dueReason in
  if rf_AuthFailure (a_Refresh account) then "认证信息异常，请重新登录。"
  else if why "retry_wait" && negb (IsZero (rf_NextRetryAt (a_Refresh account))) then "上次额度刷新失败，调度器正在等待下次自动重试。"
  else if negb refreshActive
          && existsb why ["stale"; "never_refreshed"; "retry_due"; "refresh_interval_due"; "five_hour_reset_due"; "long_window_reset_due"; "temporary_reset_due"]
  then "账号额度已过期或待刷新，但最近 " +:+ Duration_String (RefreshActiveWindow cfg)
       +:+ " 内没有 Codex 请求，调度器处于休眠状态。发送一次 Codex 请求后会获取账号额度信息。"
  else if why "stale" then "账号额度已过期，调度器处于活跃窗口，将按刷新队列更新。"
  else if why "never_refreshed" then "账号尚未获取额度信息，调度器处于活跃窗口，将按刷新队列更新。"
  else if why "refresh_interval_due" then "已达到额度刷新间隔，调度器将按刷新队列更新。"
  else if why "retry_due" then "上次额度刷新失败，当前已到重试时间。"
  else if existsb why ["five_hour_reset_due"; "long_window_reset_due"; "temporary_reset_due"] then "额度重置时间已到，调度器将按刷新队列更新。"
  else if why "circuit_wait" then "账号处于熔断等待中，半开探测时间到达后会重试。"
  else if why "auth_failure" then "认证信息异常，请重新登录。"
  else if why "local_failure" then "本地认证信息缺失或格式异常，请检查登录状态。"
  else "".

(** ** The roster *)

(** The callback that resolves a credential is an argument of the handler. *)
Record ManagementLifecycleSnapshot := mkLifecycle {
  ml_Roster : ActiveRoster;
  ml_CredentialAmbiguous : bool;
  ml_ManagedLifecycle : gmap string ManagedDisableRecord;
}.

Record RosterLifecyclePayload := mkRosterPayload {
  rl_Capability : HostCapability; rl_Health : RosterHealth; rl_Confirmed : bool; rl_Provisional : bool; rl_Degraded : bool; rl_FailClosed : bool;
  rl_WaitingRoster : bool; rl_BackgroundAllowed : bool; rl_HighestPriority : Z; rl_Generation : Z; rl_AdmissionObserved : bool; rl_AdmissionVersion : Z;
  rl_AdmissionPriority : Z; rl_AdmittedAuthCount : Z; rl_RosterEntryCount : Z; rl_RosterInstanceCount : Z; rl_CredentialAmbiguous : bool;
  rl_RiskOptionEnabled : bool; rl_RiskOptionAvailable : bool; rl_Warning : string; rl_RiskWarning : string;
}.
Definition emptyRosterPayload : RosterLifecyclePayload :=
  mkRosterPayload CapabilityB RosterHealthNone false false false false false false 0 0 false 0 0 0 0 0 false false false "" "".

Definition rosterLifecyclePayload (lifecycle : ManagementLifecycleSnapshot) (snapshot : StateSnapshot) (now : Time) : RosterLifecyclePayload :=
  let roster := ml_Roster lifecycle in
  let available := negb (ml_CredentialAmbiguous lifecycle) && bool_decide (ar_Capability roster = CapabilityB) && ar_Provisional roster
                   && negb (ar_Confirmed roster) && provisionalAgeValid now (ar_ConfirmedAt roster) in
  let degraded := bool_decide (ar_Health roster = RosterDegraded) in
  let failClosed := bool_decide (ar_Health roster = RosterFailClosed) in
  let waiting := bool_decide (ar_Health roster = RosterWaiting) in
  let enabled := ProbeOnProvisionalRoster (ss_Config snapshot) in
  let admission := ss_CPAAdmission snapshot in
  let warning :=
    if ml_CredentialAmbiguous lifecycle then "CredentialAmbiguous: credential-chain conversion is frozen until a later observation can be classified; existing non-AuthBlocked credentials remain usable."
    else if failClosed then "FailClosed: authoritative roster synchronization exceeded the degraded limit; background requests are stopped."
    else if degraded then "Degraded: Management is showing the last confirmed active roster while synchronization recovers."
    else if waiting then "WaitingRoster: no current authoritative roster is confirmed; normal background refresh is stopped."
    else "" in
  let risk :=
    if enabled then
      if available then "Provisional roster Probe risk mode is enabled. Tier membership cannot be proven; each Probe requires fresh credential verification."
      else "Provisional roster Probe risk mode is enabled but unavailable without a fresh provisional Capability-B roster."
    else if available then "A fresh provisional roster is available, but Probe risk mode is disabled."
    else "" in
  mkRosterPayload (ar_Capability roster) (ar_Health roster) (ar_Confirmed roster) (ar_Provisional roster) degraded failClosed waiting
    (ar_BackgroundAllowed roster) (ar_HighestPriority roster) (ar_Generation roster) (adm_Observed admission) (ss_CPAAdmissionVersion snapshot)
    (adm_Priority admission) (Z.of_nat (size (adm_AuthIDs admission))) (Z.of_nat (length (ar_Entries roster)))
    (Z.of_nat (length (ar_Instances roster))) (ml_CredentialAmbiguous lifecycle) enabled available warning risk.

(** ** The accounts *)

Record ManagedDisableSummary := mkManagedSummary { ms_State : string; ms_DisabledAt : string; ms_NextCheckAt : string; ms_LastQuotaCheck : string }.
Definition managedSummary (record : ManagedDisableRecord) (now : Time) : ManagedDisableSummary :=
  mkManagedSummary
    (if negb (mr_DisableApplied record) then "planned" else if After (mr_NextQuotaCheckAt record) now then "disabled" else "checking")
    (formatTime (mr_DisabledAt record)) (formatTime (mr_NextQuotaCheckAt record)) (formatTime (mr_LastQuotaCheckAt record)).

Record StatusAccount := mkStatusAccount {
  ac_Rank : Z; ac_AuthID : string; ac_Alias : string; ac_Notes : string; ac_GroupID : string; ac_Group : string; ac_GroupNotes : string; ac_Tags : list string;
  ac_CPAPriority : Z; ac_SchedulerPriority : Z; ac_Family : AccountFamily; ac_QueueStatus : QueueStatus; ac_Available : bool; ac_UnavailableReason : string;
  ac_ResetExpiry : Time; ac_ResetExpiryText : string; ac_CacheAge : string; ac_CacheAgeSeconds : Z; ac_QuotaSource : string; ac_QuotaObservedSecondsAgo : Z;
  ac_ManagedDisable : option ManagedDisableSummary; ac_LastError : string; ac_RefreshDueReason : string; ac_NextRetryText : string; ac_AuthFailure : bool;
  ac_StatusNote : string; ac_FiveHour : StatusWindow; ac_LongWindow : StatusWindow; ac_Circuit : StatusCircuit;
  ac_ResetCreditsAvailableCount : option Z; ac_ResetCreditsTotalEarnedCount : option Z; ac_ResetCredits : list ResetCredit; ac_ResetProbes : list StatusResetProbe;
}.

(** The quota source: a newer observation of a response stream, or the polled
    endpoint. *)
Definition quotaSource (account : AccountState) (now : Time) : string * Z :=
  if negb (IsZero (a_LastObservedAt account)) && negb (After (a_LastSuccessAt account) (a_LastObservedAt account))
  then ("observed", let age := Sub now (a_LastObservedAt account) in if 0 <? age then int64_of (Seconds age) else 0)
  else if negb (IsZero (a_LastSuccessAt account)) then ("polled", 0)
  else ("", 0).

Definition statusAccount (snapshot : StateSnapshot) (lifecycle : option ManagementLifecycleSnapshot) (refreshActive : bool) (rank : Z)
    (scheduled : ScheduledAccount) : StatusAccount :=
  let now := ss_Now snapshot in
  let account := default emptyAccount (accountsByID (ss_Accounts snapshot) !! sa_AuthID scheduled) in
  let annotation := sa_Annotation scheduled in
  let groupID := an_GroupID annotation in
  let group := ann_Groups (ss_Annotations snapshot) !! groupID in
  let groupName := match group with Some g => if String.eqb (gr_Name g) "" then groupID else gr_Name g | None => groupID end in
  let dueReason := (accountRefreshDue account (ss_Config snapshot) now).2 in
  let '(cacheAge, cacheAgeSeconds) :=
    if IsZero (a_LastSuccessAt account) then ("", 0)
    else let age := Z.max 0 (Sub now (a_LastSuccessAt account)) in (Duration_String (RoundSecond age), int64_of (Seconds age)) in
  let '(source, observedAgo) := quotaSource account now in
  let managed := match lifecycle with
                 | Some lifecycle =>
                     if String.eqb (a_AuthIndex account) "" then None
                     else (fun record => managedSummary record now) <$> ml_ManagedLifecycle lifecycle !! a_AuthIndex account
                 | None => None
                 end in
  mkStatusAccount rank (sa_AuthID scheduled) (an_Alias annotation) (an_Notes annotation) groupID groupName (match group with Some g => gr_Notes g | None => "" end)
    (an_Tags annotation) (sa_CPAPriority scheduled) (sa_SchedulerPriority scheduled) (sa_Family scheduled) (sa_QueueStatus scheduled) (sa_Available scheduled)
    (sa_UnavailableReason scheduled) (sa_SortTime scheduled) (formatTime (sa_SortTime scheduled)) cacheAge cacheAgeSeconds source observedAgo managed
    (a_LastError account) dueReason (formatTime (rf_NextRetryAt (a_Refresh account))) (rf_AuthFailure (a_Refresh account))
    (accountStatusNote account dueReason snapshot refreshActive) (statusWindow (pq_FiveHour (a_Quota account)) "5 小时额度")
    (statusWindow (pq_LongWindow (a_Quota account)) (longWindowLabelCN (a_Family account))) (statusCircuit (a_Circuit account) now)
    (pq_ResetCreditsAvailableCount (a_Quota account)) (pq_ResetCreditsTotalEarnedCount (a_Quota account)) (pq_ResetCredits (a_Quota account))
    (statusResetProbes (a_ResetProbes account)).

(** ** The payload *)

Record StatusPayload := mkStatus {
  sy_PluginID : string; sy_GeneratedAt : Time; sy_Shell : bool; sy_NextAuthID : string; sy_MonthlyMode : string; sy_HandleEnabled : bool; sy_LastSelected : string;
  sy_LastReason : string; sy_RefreshActive : bool; sy_RefreshState : string; sy_LastCodexActivityText : string; sy_LastAuthScanText : string; sy_CodexAuthCount : Z;
  sy_Roster : RosterLifecyclePayload; sy_EmptyState : EmptyStatePayload; sy_Settings : SettingsPayload; sy_Accounts : list StatusAccount;
  sy_Groups : list (string * GroupAnnotation); sy_Logs : list LogEntry;
}.

Fixpoint statusAccounts (snapshot : StateSnapshot) (lifecycle : option ManagementLifecycleSnapshot) (refreshActive : bool) (rank : Z)
    (ordered : list ScheduledAccount) : list StatusAccount :=
  match ordered with
  | [] => []
  | scheduled :: ordered => statusAccount snapshot lifecycle refreshActive rank scheduled :: statusAccounts snapshot lifecycle refreshActive (rank + 1) ordered
  end.

Definition buildStatusPayload (snapshot : StateSnapshot) (ordered : list ScheduledAccount) (lifecycle : option ManagementLifecycleSnapshot) : StatusPayload :=
  let active := refreshActiveFromSnapshot snapshot in
  let accounts := statusAccounts snapshot lifecycle active 1 ordered in
  mkStatus PluginID (ss_Now snapshot) false (nextStatusAuthID ordered) (MonthlyMode (ss_Config snapshot)) (HandleEnabled (ss_Config snapshot))
    (ss_LastSelected snapshot) (ss_LastReason snapshot) active (if active then "active" else "sleeping") (formatTime (ss_LastCodexActivityAt snapshot))
    (formatTime (ss_LastAuthScanAt snapshot)) (ss_CodexAuthCount snapshot)
    (match lifecycle with Some lifecycle => rosterLifecyclePayload lifecycle snapshot (ss_Now snapshot) | None => emptyRosterPayload end)
    (match accounts with [] => emptyStatePayload snapshot active | _ => noEmptyState end)
    (SettingsFromConfig (ss_Config snapshot)) accounts (map_range (ann_Groups (ss_Annotations snapshot))) (ss_Logs snapshot).
Definition BuildStatusPayload (snapshot : StateSnapshot) (ordered : list ScheduledAccount) : StatusPayload := buildStatusPayload snapshot ordered None.

(** What is shown without a management key holds nothing of the state. *)
Definition BuildStatusShellPayload (now : Time) : StatusPayload :=
  mkStatus PluginID now true "" (MonthlyMode DefaultConfig) (HandleEnabled DefaultConfig) "" "" false "" "" "" 0 emptyRosterPayload
    (mkEmptyState "management_key_required" "需要 CPA 管理密钥" "填写 CPA 管理密钥后将动态加载账号队列、调度日志和当前调度状态。发送 Codex 请求后，调度器会在活跃窗口内刷新额度。")
    (SettingsFromConfig DefaultConfig) [] [] [].

Definition syntheticRosterStatusRequest (snapshot : StateSnapshot) (roster : ActiveRoster) : SchedulerPickRequest :=
  mkPickRequest "codex" [] ((fun account => mkCandidate (a_AuthID account) "codex" (ar_HighestPriority roster))
    <$> filter (fun account => a_AuthID account <> "") (ss_Accounts snapshot)).
Definition syntheticStatusRequest (snapshot : StateSnapshot) : SchedulerPickRequest :=
  mkPickRequest "codex" ["codex"] ((fun account => mkCandidate (a_AuthID account) (if String.eqb (a_Provider account) "" then "codex" else a_Provider account) (a_Priority account))
    <$> filter (fun account => a_AuthID account <> "") (ss_Accounts snapshot)).

Definition buildCurrentStatusPayload (store : PluginState) (globalTrials : TrialRegistry) (now : Time) : StatusPayload :=
  let snapshot := Snapshot store now in
  BuildStatusPayload snapshot (buildOrderedAccounts (syntheticStatusRequest snapshot) snapshot now (Some globalTrials)).

Definition rosterAccounts (snapshot : StateSnapshot) (roster : ActiveRoster) : StateSnapshot :=
  let active : gset string := list_to_set (filter (fun id => id <> "") (ar_Instances roster)) in
  snapshot <| ss_Accounts := (fun account => account <| a_Priority := ar_HighestPriority roster |>)
                             <$> filter (fun account => a_AuthID account ∈ active) (ss_Accounts snapshot) |>.
Definition buildCurrentStatusPayloadWithLifecycle (store : PluginState) (globalTrials : TrialRegistry) (now : Time) (lifecycle : ManagementLifecycleSnapshot)
  : StatusPayload :=
  let filtered := rosterAccounts (Snapshot store now) (ml_Roster lifecycle) in
  let ordered := buildOrderedAccounts (syntheticRosterStatusRequest filtered (ml_Roster lifecycle)) filtered now (Some globalTrials) in
  buildStatusPayload filtered ordered (Some lifecycle).
End status.

(** ** What the page shows *)

Lemma clampPercent_range f : is_nan f = false -> f_lt (clampPercent f) f_zero = false /\ f_lt hundred (clampPercent f) = false.
Proof.
  intros Hn. unfold clampPercent. destruct (f_lt f f_zero) eqn:E; cbn zeta.
  - split; vm_compute; reflexivity.
  - destruct (f_lt hundred f) eqn:E2; [split; vm_compute; reflexivity|done].
Qed.
Lemma f_le_not_lt a b : is_nan a = false -> is_nan b = false -> f_le a b = negb (f_lt b a).
Proof.
  intros Ha Hb. unfold f_le, f_lt, SFleb, SFltb. destruct a as [sa|[]| |[] ma ea], b as [sb|[]| |[] mb eb]; try done; cbn;
    change (Pos.compare_cont Eq ma mb) with (Pos.compare ma mb); change (Pos.compare_cont Eq mb ma) with (Pos.compare mb ma);
    rewrite (Z.compare_antisym ea eb), ?(Pos.compare_antisym ma mb); destruct (Z.compare ea eb), (Pos.compare ma mb); done.
Qed.

(** A window is shown as used up exactly when nothing is shown to remain. *)
Lemma statusWindow_percent w label used : qw_UsedPercent w = Some used -> is_nan used = false ->
  let s := statusWindow (Some w) label in
  f_lt (sw_UsedPercent s) f_zero = false /\ f_lt hundred (sw_UsedPercent s) = false
  /\ sw_Exhausted s = f_le hundred used /\ (sw_Exhausted s = true -> sw_RemainingPercent s = f_zero /\ sw_DisplayText s = "已用完").
Proof.
  intros Hu Hn. unfold statusWindow. rewrite Hu. cbn -[f_le f_lt f_sub clampPercent percentText hundred].
  destruct (clampPercent_range used Hn) as [H1 H2]. split_and!; [done|done| |by intros ->].
  pose proof (f_key_weak_order (fun _ => True)) as Hw. rewrite (f_le_not_lt hundred used) by (done || vm_compute; reflexivity).
  unfold clampPercent. destruct (f_lt used f_zero) eqn:E0; cbn zeta.
  - assert (f_lt used hundred = true) as ->; [|vm_compute; reflexivity]. rewrite f_lt_key in E0 |- * by (done || vm_compute; reflexivity).
    destruct (wo_split _ _ Hw used hundred f_zero I I I E0) as [H|H]; [done|]. vm_compute in H. done.
  - destruct (f_lt hundred used) eqn:E1; [|by apply f_le_not_lt; [vm_compute|]].
    assert (f_lt used hundred = false) as ->; [|vm_compute; reflexivity]. rewrite f_lt_key in E1 |- * by (done || vm_compute; reflexivity).
    by apply (wo_asym _ _ Hw).
Qed.

(** An account that is shown available is one the selection would take. *)
Lemma scheduled_available_selectable snapshot now trials p id known :
  sa_Available (scheduledFor snapshot now trials p id known) = true -> sa_selectionClass (scheduledFor snapshot now trials p id known) <> Excluded.
Proof.
  unfold scheduledFor. destruct known as [a|]; [|done]. destruct (accountQueueState a now) as [[[status avail] reason] t] eqn:E. cbv zeta.
  set (view := set_field v_CPAPriority _ _). destruct (_ && _ && _) eqn:Eq; [done|]. cbn [sa_Available sa_selectionClass]. intros ->.
  rewrite andb_true_r in Eq. intros Hx. rewrite Hx in Eq. cbn [bool_decide andb] in Eq. apply negb_false_iff, bool_decide_eq_true in Eq.
  assert (ClassifyAccount view now = ClassifyAccount (accountViewFromState a (ss_Config snapshot) now trials) now) as Ev by done.
  rewrite Ev, available_class in Hx; [by destruct (IsZero _)|unfold accountAvailable; by rewrite E|exact Eq].
Qed.

Section shown.
Context `{MapRange} (redactSecrets : string -> string).
#[local] Notation accounts_of := (statusAccounts redactSecrets).

Lemma statusAccount_fields sn lc act k x :
  let y := statusAccount redactSecrets sn lc act k x in
  ac_Rank y = k /\ ac_AuthID y = sa_AuthID x /\ ac_Available y = sa_Available x /\ ac_CPAPriority y = sa_CPAPriority x.
Proof. cbn zeta. unfold statusAccount. destruct (if IsZero _ then _ else _) as [? ?], (quotaSource _ _) as [? ?]. done. Qed.
Lemma statusAccounts_ids sn lc act l k : ac_AuthID <$> accounts_of sn lc act k l = sa_AuthID <$> l.
Proof. revert k. induction l as [|x l IH]; intros k; [done|]. cbn. f_equal; [apply statusAccount_fields|apply IH]. Qed.
Lemma statusAccounts_ranks sn lc act l k : ac_Rank <$> accounts_of sn lc act k l = (fun i => k + Z.of_nat i) <$> seq 0 (length l).
Proof.
  revert k. induction l as [|x l IH]; intros k; [done|]. cbn. f_equal; [rewrite (proj1 (statusAccount_fields sn lc act k x)); lia|].
  rewrite IH, <- seq_shift, <- list_fmap_compose. apply list_fmap_ext. intros ? ? ?. cbn. lia.
Qed.
Lemma statusAccounts_next sn lc act l k :
  nextStatusAuthID l = match List.find ac_Available (accounts_of sn lc act k l) with Some y => ac_AuthID y | None => "" end.
Proof.
  unfold nextStatusAuthID. revert k. induction l as [|x l IH]; intros k; [done|]. cbn.
  destruct (statusAccount_fields sn lc act k x) as (_ & E1 & E2 & _). rewrite E2. destruct (sa_Available x); [by rewrite E1|apply IH].
Qed.

Lemma syntheticRoster_offered sn roster p id :
  offered (syntheticRosterStatusRequest sn roster) p id
  <-> p = ar_HighestPriority roster /\ id <> "" /\ exists a, a ∈ ss_Accounts sn /\ a_AuthID a = id.
Proof.
  unfold offered, syntheticRosterStatusRequest. cbn [req_Candidates]. split.
  - intros (c & (a & -> & [Ha Hin]%list_elem_of_filter)%list_elem_of_fmap & _ & <- & <-). cbn. eauto.
  - intros (-> & Hne & a & Hin & <-). exists (mkCandidate (a_AuthID a) "codex" (ar_HighestPriority roster)).
    split_and!; [|by split|done|done]. apply list_elem_of_fmap. exists a. split; [done|]. by apply list_elem_of_filter.
Qed.
Lemma rosterAccounts_spec sn roster id :
  (exists a, a ∈ ss_Accounts (rosterAccounts sn roster) /\ a_AuthID a = id)
  <-> id <> "" /\ id ∈ ar_Instances roster /\ exists a, a ∈ ss_Accounts sn /\ a_AuthID a = id.
Proof.
  unfold rosterAccounts. cbn [ss_Accounts set_field]. split.
  - intros (b & (a & -> & [Ha Hin]%list_elem_of_filter)%list_elem_of_fmap & <-). cbn. apply elem_of_list_to_set, list_elem_of_filter in Ha as [? ?]. eauto.
  - intros (Hne & Hr & a & Hin & <-). exists (a <| a_Priority := ar_HighestPriority roster |>). split; [|done].
    apply list_elem_of_fmap. exists a. split; [done|]. apply list_elem_of_filter. split; [|done]. apply elem_of_list_to_set, list_elem_of_filter. done.
Qed.

Lemma accountsByID_elem accounts id a : accountsByID accounts !! id = Some a -> a ∈ accounts /\ a_AuthID a = id.
Proof.
  unfold accountsByID. assert (forall m : gmap string AccountState,
    foldl (fun m a => if String.eqb (a_AuthID a) "" then m else <[a_AuthID a := a]> m) m accounts !! id = Some a -> m !! id = Some a \/ a ∈ accounts /\ a_AuthID a = id) as Hg.
  { induction accounts as [|b l IH]; intros m; cbn [foldl]; [auto|]. intros [Hm|[? ?]]%IH; [|by right; split; [by right|]].
    destruct (String.eqb (a_AuthID b) ""); [by left|]. apply lookup_insert_Some in Hm as [[? ->]|[_ ?]]; [right; split; [by left|done]|by left]. }
  intros [Hm|?]%Hg; [by rewrite lookup_empty in Hm|done].
Qed.

Lemma roster_admission sn roster across id :
  id ∈ adm_AuthIDs (CodexAdmissionFromRequest (syntheticRosterStatusRequest sn roster) across).1
  <-> exists p, offered (syntheticRosterStatusRequest sn roster) p id.
Proof.
  pose proof (CodexAdmissionFromRequest_spec (syntheticRosterStatusRequest sn roster) across) as Ha.
  destruct (CodexAdmissionFromRequest _ across) as [adm [|]]; cbn [fst].
  - rewrite (ao_ids _ _ _ Ha). split; [intros (p & Hp & _); by exists p|]. intros (p & Hp). exists p. split; [done|right].
    destruct (ao_highest _ _ _ Ha) as [id' Hid']. apply syntheticRoster_offered in Hp as [-> _], Hid' as [-> _]. done.
  - destruct Ha as [-> Hno]. split; [by intros ?%not_elem_of_empty|]. intros (p & Hp). by destruct (Hno p id).
Qed.
Lemma scheduledFor_priority sn now tr p id known : sa_CPAPriority (scheduledFor sn now tr p id known) = p.
Proof. unfold scheduledFor. destruct known; [|done]. destruct (accountQueueState _ now) as [[[? ?] ?] ?]. cbv zeta. by destruct (_ && _ && _). Qed.

(** An account of the state that the selection would take. *)
Definition selectable (store : PluginState) (trials : TrialRegistry) (now : Time) (id : string) : Prop :=
  exists a, a ∈ ss_Accounts (Snapshot store now) /\ a_AuthID a = id /\ ClassifyAccount (accountViewFromState a (st_cfg store) now (Some trials)) now <> Excluded.

Lemma scheduledFor_class sn now tr p id a :
  sa_selectionClass (scheduledFor sn now tr p id (Some a)) = ClassifyAccount (accountViewFromState a (ss_Config sn) now tr) now.
Proof.
  unfold scheduledFor. destruct (accountQueueState a now) as [[[status avail] reason] t]. cbv zeta. set (view := set_field v_CPAPriority _ _).
  assert (ClassifyAccount view now = ClassifyAccount (accountViewFromState a (ss_Config sn) now tr) now) as <- by done. by destruct (_ && _ && _).
Qed.
Lemma roster_entry_selectable store trials now roster p id :
  let sn := rosterAccounts (Snapshot store now) roster in
  sa_Available (scheduledFor sn now (Some trials) p id (accountsByID (ss_Accounts sn) !! id)) = true -> selectable store trials now id.
Proof.
  intros sn Hav. pose proof (scheduled_available_selectable _ _ _ _ _ _ Hav) as Hcl.
  destruct (accountsByID (ss_Accounts sn) !! id) as [b|] eqn:E; [|done]. apply accountsByID_elem in E as [Hin Hid].
  apply list_elem_of_fmap in Hin as (a & -> & [_ Hin]%list_elem_of_filter). exists a. split_and!; [done|done|].
  rewrite scheduledFor_class in Hcl. unfold accountViewFromState in *.
  change (accountExhaustion (a <| a_Priority := ar_HighestPriority roster |>) now) with (accountExhaustion a now) in Hcl. by destruct (accountExhaustion a now).
Qed.

Lemma statusAccounts_entry sn lc act l k y : y ∈ accounts_of sn lc act k l ->
  exists x, x ∈ l /\ sa_AuthID x = ac_AuthID y /\ ac_Available y = sa_Available x /\ ac_CPAPriority y = sa_CPAPriority x.
Proof.
  revert k. induction l as [|x l IH]; intros k; cbn; [by intros ?%not_elem_of_nil|]. intros [->|Hy]%elem_of_cons.
  - destruct (statusAccount_fields sn lc act k x) as (_ & E1 & E2 & E3). exists x. split; [by left|done].
  - destruct (IH _ Hy) as (z & ? & ?). exists z. split; [by right|done].
Qed.

(** What the scheduler makes of the listed account [id]: its class, its place in
    the order of the selection and the time it is expected back. *)
Definition listedEntry (store : PluginState) (trials : TrialRegistry) (now : Time) (roster : ActiveRoster) (id : string) : ScheduledAccount :=
  let sn := rosterAccounts (Snapshot store now) roster in
  scheduledFor sn now (Some trials) (ar_HighestPriority roster) id (accountsByID (ss_Accounts sn) !! id).

(** C23: The status page shows the roster faithfully (at a time that is not the zero
    time): it lists every account of the state that the roster names, each once, ranked from 1, at the roster's priority
    and in the order the scheduler gives them.  That order, written out: the
    preferred accounts, the opportunistic ones, the excluded ones; within a
    selectable class no account stands behind one the selection would place after
    it; the excluded accounts stand by the time they are expected back, unknown
    times last, ties by identifier (provided the order of the selection is
    meaningful on the selectable accounts listed: no figure is NaN and, in the
    monthly priority mode, every family is known).  An account shown available is
    one the selection would take; the account announced as next is the first
    available one; the explanation of an empty page is given exactly when no
    account is listed; and the page is active exactly while the background refresh
    is. *)
Theorem status_page_faithful (store : PluginState) (trials : TrialRegistry) (clock now : Time) (lifecycle : ManagementLifecycleSnapshot) :
  IsZero now = false ->
  let roster := ml_Roster lifecycle in
  let sn := rosterAccounts (Snapshot store now) roster in
  let page := buildCurrentStatusPayloadWithLifecycle redactSecrets store trials now lifecycle in
  let accounts := sy_Accounts page in
  let entries := listedEntry store trials now roster <$> (ac_AuthID <$> accounts) in
  let mode := MonthlyMode (st_cfg store) in
  NoDup (ac_AuthID <$> accounts)
  /\ (forall id, id ∈ ac_AuthID <$> accounts
       <-> id <> "" /\ id ∈ ar_Instances roster /\ exists a, a ∈ ss_Accounts (Snapshot store now) /\ a_AuthID a = id)
  /\ ac_Rank <$> accounts = (fun i => 1 + Z.of_nat i) <$> seq 0 (length accounts)
  /\ entries = buildOrderedAccounts (syntheticRosterStatusRequest sn roster) sn now (Some trials)
  /\ (Forall (placeable mode) entries -> StronglySorted (listed_before mode) entries)
  /\ Forall (fun y => ac_CPAPriority y = ar_HighestPriority roster /\ (ac_Available y = true -> selectable store trials now (ac_AuthID y))) accounts
  /\ sy_NextAuthID page = match List.find ac_Available accounts with Some y => ac_AuthID y | None => "" end
  /\ (es_Reason (sy_EmptyState page) = "" <-> accounts <> [])
  /\ sy_RefreshActive page = RefreshActive store clock now.
Proof.
  intros Hnow roster sn page accounts entries mode.
  set (ordered := buildOrderedAccounts (syntheticRosterStatusRequest sn roster) sn now (Some trials)).
  destruct (ordered_accounts_spec (syntheticRosterStatusRequest sn roster) sn now (Some trials)) as (Hnd & Hent & Hids). fold ordered in Hnd, Hent, Hids.
  assert (accounts = accounts_of sn (Some lifecycle) (refreshActiveFromSnapshot sn) 1 ordered) as Ea by done.
  assert (entries = ordered) as Ee.
  { subst entries. rewrite Ea, statusAccounts_ids. rewrite <- list_fmap_compose. transitivity (id <$> ordered); [|apply list_fmap_id].
    rewrite <- Forall_fmap_ext. eapply Forall_impl; [exact Hent|]. intros x (p & Ho & _ & E). apply syntheticRoster_offered in Ho as [-> _]. by symmetry. }
  rewrite Forall_forall in Hent. split_and!.
  - by rewrite Ea, statusAccounts_ids.
  - intros id. rewrite Ea, statusAccounts_ids, Hids, <- rosterAccounts_spec. fold sn.
    rewrite roster_admission. setoid_rewrite syntheticRoster_offered. split; [by intros (p & _ & Hne & a & ? & ?); exists a|].
    intros (a & Ha & <-). exists (ar_HighestPriority roster). split_and!; [done| |by exists a].
    pose proof (proj1 (rosterAccounts_spec (Snapshot store now) roster (a_AuthID a)) (ex_intro _ a (conj Ha eq_refl))). tauto.
  - rewrite Ea, statusAccounts_ranks. f_equal. f_equal. by rewrite <- (length_fmap ac_AuthID), statusAccounts_ids, length_fmap.
  - exact Ee.
  - rewrite Ee. exact (ordered_accounts_sorted (syntheticRosterStatusRequest sn roster) sn now (Some trials)).
  - rewrite Ea. apply Forall_forall. intros y Hy. split.
    + destruct (statusAccounts_entry _ _ _ _ _ _ Hy) as (x & Hx & E1 & _ & ->). destruct (Hent x Hx) as (p & Ho & _ & ->).
      apply syntheticRoster_offered in Ho as [-> _]. apply scheduledFor_priority.
    + intros Hav. destruct (statusAccounts_entry _ _ _ _ _ _ Hy) as (x & Hx & <- & Ea2 & _). rewrite Ea2 in Hav.
      destruct (Hent x Hx) as (p & Ho & _ & E). rewrite E in Hav. by eapply roster_entry_selectable.
  - rewrite Ea. apply statusAccounts_next.
  - assert (sy_EmptyState page = match accounts with [] => emptyStatePayload sn (refreshActiveFromSnapshot sn) | _ => noEmptyState end) as -> by done.
    destruct accounts as [|y l]; [|done]. split; [|done]. unfold emptyStatePayload. by repeat case_match.
  - assert (sy_RefreshActive page = refreshActiveFromSnapshot (Snapshot store now)) as -> by done. unfold refreshActiveFromSnapshot, RefreshActive, now_or.
    rewrite Hnow. unfold Snapshot. cbn [ss_LastCodexActivityAt ss_Now ss_Config]. by destruct (IsZero (st_lastCodexActivityAt store)).
Qed.
End shown.

Definition exampleRoster : ActiveRoster := waitingRoster <| ar_Confirmed := true |> <| ar_HighestPriority := 3 |> <| ar_Instances := ["a"; "c"] |> <| ar_Health := RosterHealthy |>.
Definition exampleStore : PluginState :=
  UpsertQuota (UpsertQuota (UpsertQuota (NewPluginState DefaultConfig) (emptyAccount <| a_AuthID := "c" |>)) (emptyAccount <| a_AuthID := "b" |>)) (emptyAccount <| a_AuthID := "a" |>).
Lemma status_page_faithful_witness :
  let page := buildCurrentStatusPayloadWithLifecycle id exampleStore NewTrialRegistry 100 (mkLifecycle exampleRoster false ∅) in
  let entries := listedEntry exampleStore NewTrialRegistry 100 exampleRoster <$> (ac_AuthID <$> sy_Accounts page) in
  ac_AuthID <$> sy_Accounts page = ["a"; "c"] /\ ac_CPAPriority <$> sy_Accounts page = [3; 3] /\ sy_NextAuthID page = ""
  /\ StronglySorted (listed_before (MonthlyMode (st_cfg exampleStore))) entries
  /\ sy_RefreshActive page = RefreshActive exampleStore 100 100.
Proof.
  cbv zeta. split; [vm_compute; reflexivity|]. split; [vm_compute; reflexivity|]. split; [vm_compute; reflexivity|].
  destruct (status_page_faithful id exampleStore NewTrialRegistry 100 100 (mkLifecycle exampleRoster false ∅) eq_refl)
    as (_ & _ & _ & _ & Hs & _ & _ & _ & Ha).
  split; [|exact Ha]. apply Hs. vm_compute. repeat apply Forall_cons_2; [intros _; by split..|constructor].
Defined.
