(* ===== verification/Decode.v ===== *)
(** * Decoding JSON into structs

    [json.Unmarshal] of the Go standard library, as far as the bodies of the
    management requests need it: a key sets the field it names exactly, or else the
    first one it names up to case; null leaves a value as it is; an unknown key is
    skipped; a value of the wrong type is an error. *)

From S2P Require Import Prelude GoStrings Float64 Json Text RetryChain Config Models Settings UserData.
From Stdlib Require Import Ascii.
#[local] Open Scope string_scope.
#[local] Open Scope list_scope.
#[local] Open Scope Z_scope.
#[local] Open Scope go_scope.

(** A decoder of a value takes the value it replaces. *)
Abbreviation decoder T := (json -> T -> option T).
Abbreviation table R := (list (string * decoder R)).

Definition findField {R} (t : table R) (key : string) : option (decoder R) :=
  match List.find (fun e => String.eqb e.1 key) t with
  | Some e => Some e.2
  | None => snd <$> List.find (fun e => FoldsTo key e.1) t
  end.
(** Every key is looked up; the first error is reported when all were. *)
Fixpoint setFields {R} (t : table R) (fields : list (string * json)) (r : R) : option R :=
  match fields with
  | [] => Some r
  | (key, v) :: fields =>
      match findField t key with
      | None => setFields t fields r
      | Some set => match set v r with Some r => setFields t fields r | None => None end
      end
  end.
Definition decStruct {R} (t : table R) : decoder R := fun v r =>
  match v with JObject fields => setFields t fields r | JNull => Some r | _ => None end.

Definition decString : decoder string := fun v old => match v with JString s => Some s | JNull => Some old | _ => None end.
Definition decBool : decoder bool := fun v old => match v with JBool b => Some b | JNull => Some old | _ => None end.
Definition decInt : decoder Z := fun v old => match v with JNumber lit => ParseInt lit | JNull => Some old | _ => None end.
Definition decPtr {T} (zero : T) (dec : decoder T) : decoder (option T) := fun v old =>
  match v with JNull => Some None | _ => Some <$> dec v (default zero old) end.
(** The elements of a slice that is replaced keep what a null leaves. *)
Fixpoint decItems {T} (zero : T) (dec : decoder T) (items : list json) (old : list T) : option (list T) :=
  match items with
  | [] => Some []
  | v :: items =>
      match dec v (default zero (head old)), decItems zero dec items (tail old) with
      | Some x, Some l => Some (x :: l)
      | _, _ => None
      end
  end.
(** A slice that may be nil, and one for which nil and empty are the same. *)
Definition decSlice {T} (zero : T) (dec : decoder T) : decoder (option (list T)) := fun v old =>
  match v with JNull => Some None | JArray items => Some <$> decItems zero dec items (default [] old) | _ => None end.
Definition decList {T} (zero : T) (dec : decoder T) : decoder (list T) := fun v old =>
  default [] <$> decSlice zero dec v (Some old).
Fixpoint setKeys {T} (zero : T) (dec : decoder T) (fields : list (string * json)) (m : gmap string T) : option (gmap string T) :=
  match fields with
  | [] => Some m
  | (key, v) :: fields => match dec v zero with Some x => setKeys zero dec fields (<[key := x]> m) | None => None end
  end.
Definition decMap {T} (zero : T) (dec : decoder T) : decoder (gmap string T) := fun v old =>
  match v with JNull => Some ∅ | JObject fields => setKeys zero dec fields old | _ => None end.
(** [json.RawMessage] keeps the value, a null too. *)
Definition decRaw : decoder (option json) := fun v _ => Some (Some v).

#[local] Notation "p <~ dec" := (fun v r => match dec v (p r) with Some x => Some (r <| p := x |>) | None => None end) (at level 70).

(** ** The types of the bodies *)

#[local] Instance RetryTarget_eta : Eta RetryTarget := fun r => mkRetryTarget (rt_Provider r) (rt_Model r).
#[local] Instance RetryChainRow_eta : Eta RetryChainRow := fun r => mkRetryChainRow (row_Model r) (row_Fallbacks r).
#[local] Instance SettingsPayload_eta : Eta SettingsPayload := fun r => mkSettings
  (sp_HandleEnabled r) (sp_MonthlyMode r) (sp_QuotaRefreshInterval r) (sp_StaleAfter r) (sp_EnableUsageFeedback r) (sp_EnableResetProbe r) (sp_ProbeOnProvisionalRoster r) (sp_MaxRefreshConcurrency r) (sp_QuotaEndpoint r) (sp_RefreshActiveWindow r) (sp_RefreshAfterResetDelay r) (sp_RefreshRetryDelays r) (sp_AuthFailureRetryInterval r) (sp_RefreshOnStartup r) (sp_CircuitFailureThreshold r) (sp_CircuitOpenDuration r) (sp_CircuitHalfOpenSuccessThreshold r) (sp_MaxLogEntries r) (sp_LogRetention r) (sp_ScheduleAcrossPriorities r) (sp_EnableManagedQuotaDisable r) (sp_LifecycleEventLimit r) (sp_RetryEnabled r) (sp_RetryShadow r) (sp_RetryAlways r) (sp_RetryMaxAttempts r) (sp_RetryStallTimeout r) (sp_RetryHoldTimeout r) (sp_RetryChainDeadline r) (sp_RetryMaxFrames r) (sp_RetryMaxBytes r) (sp_RetryStripReasoning r) (sp_RetryChain r).

Definition fieldsOfTarget : table RetryTarget := [("provider", rt_Provider <~ decString); ("model", rt_Model <~ decString)].
Definition emptyTarget : RetryTarget := mkRetryTarget "" "".
Definition fieldsOfRow : table RetryChainRow :=
  [("model", row_Model <~ decString); ("fallbacks", row_Fallbacks <~ decList emptyTarget (decStruct fieldsOfTarget))].
Definition emptyRow : RetryChainRow := mkRetryChainRow "" [].

Definition fieldsOfSettings : table SettingsPayload :=
  [("handle_enabled", sp_HandleEnabled <~ decBool); ("monthly_mode", sp_MonthlyMode <~ decString);
   ("quota_refresh_interval", sp_QuotaRefreshInterval <~ decString); ("stale_after", sp_StaleAfter <~ decString);
   ("enable_usage_feedback", sp_EnableUsageFeedback <~ decBool); ("enable_reset_probe", sp_EnableResetProbe <~ decBool);
   ("probe_on_provisional_roster", sp_ProbeOnProvisionalRoster <~ decBool); ("max_refresh_concurrency", sp_MaxRefreshConcurrency <~ decInt);
   ("quota_endpoint", sp_QuotaEndpoint <~ decString); ("refresh_active_window", sp_RefreshActiveWindow <~ decString);
   ("refresh_after_reset_delay", sp_RefreshAfterResetDelay <~ decString); ("refresh_retry_delays", sp_RefreshRetryDelays <~ decString);
   ("auth_failure_retry_interval", sp_AuthFailureRetryInterval <~ decString); ("refresh_on_startup", sp_RefreshOnStartup <~ decBool);
   ("circuit_failure_threshold", sp_CircuitFailureThreshold <~ decInt); ("circuit_open_duration", sp_CircuitOpenDuration <~ decString);
   ("circuit_half_open_success_threshold", sp_CircuitHalfOpenSuccessThreshold <~ decInt); ("max_log_entries", sp_MaxLogEntries <~ decInt);
   ("log_retention", sp_LogRetention <~ decString); ("schedule_across_priorities", sp_ScheduleAcrossPriorities <~ decBool);
   ("enable_managed_quota_disable", sp_EnableManagedQuotaDisable <~ decBool); ("lifecycle_event_limit", sp_LifecycleEventLimit <~ decInt);
   ("retry_enabled", sp_RetryEnabled <~ decBool); ("retry_shadow", sp_RetryShadow <~ decBool); ("retry_always", sp_RetryAlways <~ decBool);
   ("retry_max_attempts", sp_RetryMaxAttempts <~ decInt); ("retry_stall_timeout", sp_RetryStallTimeout <~ decString);
   ("retry_hold_timeout", sp_RetryHoldTimeout <~ decString); ("retry_chain_deadline", sp_RetryChainDeadline <~ decString);
   ("retry_max_frames", sp_RetryMaxFrames <~ decInt); ("retry_max_bytes", sp_RetryMaxBytes <~ decString);
   ("retry_strip_reasoning", sp_RetryStripReasoning <~ decBool); ("retry_chain", sp_RetryChain <~ decSlice emptyRow (decStruct fieldsOfRow))].
Definition emptySettings : SettingsPayload :=
  mkSettings false "" "" "" false false false 0 "" "" "" "" "" false 0 "" 0 0 "" false false 0 false false false 0 "" "" "" 0 "" false None.

Definition fieldsOfConfig : table Config :=
  [("HandleEnabled", HandleEnabled <~ decBool); ("QuotaRefreshInterval", QuotaRefreshInterval <~ decInt); ("StaleAfter", StaleAfter <~ decInt);
   ("MonthlyMode", MonthlyMode <~ decString); ("Fallback", Fallback <~ decString); ("EnableUsageFeedback", EnableUsageFeedback <~ decBool);
   ("EnableResetProbe", EnableResetProbe <~ decBool); ("ProbeOnProvisionalRoster", ProbeOnProvisionalRoster <~ decBool);
   ("MaxRefreshConcurrency", MaxRefreshConcurrency <~ decInt); ("QuotaEndpoint", QuotaEndpoint <~ decString);
   ("RefreshActiveWindow", RefreshActiveWindow <~ decInt); ("RefreshAfterResetDelay", RefreshAfterResetDelay <~ decInt);
   ("RefreshRetryDelays", RefreshRetryDelays <~ decList 0 decInt); ("AuthFailureRetryInterval", AuthFailureRetryInterval <~ decInt);
   ("RefreshOnStartup", RefreshOnStartup <~ decBool); ("CircuitFailureThreshold", CircuitFailureThreshold <~ decInt);
   ("CircuitOpenDuration", CircuitOpenDuration <~ decInt); ("CircuitHalfOpenSuccessThreshold", CircuitHalfOpenSuccessThreshold <~ decInt);
   ("MaxLogEntries", MaxLogEntries <~ decInt); ("LogRetention", LogRetention <~ decInt);
   ("ScheduleAcrossPriorities", ScheduleAcrossPriorities <~ decBool); ("EnableManagedQuotaDisable", EnableManagedQuotaDisable <~ decBool);
   ("LifecycleEventLimit", LifecycleEventLimit <~ decInt); ("retry_enabled", RetryEnabled <~ decBool); ("retry_shadow", RetryShadow <~ decBool);
   ("retry_always", RetryAlways <~ decBool); ("retry_max_attempts", RetryMaxAttempts <~ decInt); ("retry_stall_timeout", RetryStallTimeout <~ decInt);
   ("retry_hold_timeout", RetryHoldTimeout <~ decInt); ("retry_chain_deadline", RetryChainDeadline <~ decInt);
   ("retry_max_frames", RetryMaxFrames <~ decInt); ("retry_max_bytes", RetryMaxBytes <~ decInt);
   ("retry_strip_reasoning", RetryStripReasoning <~ decBool); ("retry_chain", RetryChain <~ decList emptyRow (decStruct fieldsOfRow))].
Definition emptyConfig : Config :=
  mkConfig false 0 0 "" "" false false false 0 "" 0 0 [] 0 false 0 0 0 0 0 false false 0 false false false 0 0 0 0 0 0 false [].

Definition fieldsOfAccountAnnotation : table AccountAnnotation :=
  [("alias", an_Alias <~ decString); ("notes", an_Notes <~ decString); ("tags", an_Tags <~ decList "" decString);
   ("group_id", an_GroupID <~ decString); ("scheduler_priority", an_SchedulerPriority <~ decInt)].
Definition fieldsOfGroupAnnotation : table GroupAnnotation :=
  [("name", gr_Name <~ decString); ("notes", gr_Notes <~ decString); ("tags", gr_Tags <~ decList "" decString); ("color", gr_Color <~ decString)].
Definition emptyGroup : GroupAnnotation := mkGroup "" "" [] "".
Definition fieldsOfAnnotations : table AnnotationState :=
  [("accounts", ann_Accounts <~ decMap emptyAnnotation (decStruct fieldsOfAccountAnnotation));
   ("groups", ann_Groups <~ decMap emptyGroup (decStruct fieldsOfGroupAnnotation))].
Definition fieldsOfDiskState : table PluginDiskState :=
  [("config", ds_Config <~ decStruct fieldsOfConfig); ("accounts", ds_Accounts <~ decMap emptyAnnotation (decStruct fieldsOfAccountAnnotation));
   ("groups", ds_Groups <~ decMap emptyGroup (decStruct fieldsOfGroupAnnotation))].

Record annotationPatch := mkPatch {
  pt_Key : string; pt_ID : string; pt_AuthID : string; pt_Alias : option string; pt_Name : option string; pt_Notes : option string;
  pt_Tags : option (list string); pt_GroupID : option string; pt_SchedulerPriority : option Z; pt_Color : option string; pt_Annotation : option json;
}.
#[local] Instance annotationPatch_eta : Eta annotationPatch := fun r => mkPatch
  (pt_Key r) (pt_ID r) (pt_AuthID r) (pt_Alias r) (pt_Name r) (pt_Notes r) (pt_Tags r) (pt_GroupID r) (pt_SchedulerPriority r) (pt_Color r) (pt_Annotation r).
Definition emptyPatch : annotationPatch := mkPatch "" "" "" None None None None None None None None.
Definition fieldsOfPatch : table annotationPatch :=
  [("key", pt_Key <~ decString); ("id", pt_ID <~ decString); ("auth_id", pt_AuthID <~ decString); ("alias", pt_Alias <~ decPtr "" decString);
   ("name", pt_Name <~ decPtr "" decString); ("notes", pt_Notes <~ decPtr "" decString); ("tags", pt_Tags <~ decSlice "" decString);
   ("group_id", pt_GroupID <~ decPtr "" decString); ("scheduler_priority", pt_SchedulerPriority <~ decPtr 0 decInt);
   ("color", pt_Color <~ decPtr "" decString); ("annotation", pt_Annotation <~ decRaw)].

(** The bodies of the refresh of an account and of the resolution of a credential. *)
Record authPayload := mkAuthPayload { ap_AuthID : string; ap_Action : string }.
#[local] Instance authPayload_eta : Eta authPayload := fun r => mkAuthPayload (ap_AuthID r) (ap_Action r).
Definition fieldsOfRefreshAccount : table authPayload := [("auth_id", ap_AuthID <~ decString)].
Definition fieldsOfResolution : table authPayload := [("auth_id", ap_AuthID <~ decString); ("action", ap_Action <~ decString)].

(** [json.Unmarshal] into a zero value. *)
Definition Unmarshal {R} (t : table R) (zero : R) (body : string) : option R :=
  match parse body with Some v => decStruct t v zero | None => None end.

Example bodies :
  (Unmarshal fieldsOfRefreshAccount (mkAuthPayload "" "") (js "{'AUTH_ID':'a','other':[1]}"), Unmarshal fieldsOfRefreshAccount (mkAuthPayload "" "") (js "{'auth_id':1}"),
   Unmarshal fieldsOfRefreshAccount (mkAuthPayload "" "") "null",
   pt_Tags <$> Unmarshal fieldsOfPatch emptyPatch (js "{'tags':['x',null],'alias':null}"), pt_SchedulerPriority <$> Unmarshal fieldsOfPatch emptyPatch (js "{'scheduler_priority':1.0}"),
   sp_RetryChain <$> Unmarshal fieldsOfSettings emptySettings (js "{'retry_chain':[{'model':'m','fallbacks':[{'model':'f'}]}]}"))
  = (Some (mkAuthPayload "a" ""), None, Some (mkAuthPayload "" ""), Some (Some ["x"; ""]), None, Some (Some [mkRetryChainRow "m" [mkRetryTarget "" "f"]])).
Proof. vm_compute. reflexivity. Qed.
