(* ===== verification/Management.v ===== *)
(** * The management interface (management.go, dispatch.go)

    Requests of the host's management and resource routes: which handler serves
    them, what each handler changes and answers, and the file it saves first.
    Answers are what is encoded as JSON or rendered as HTML. *)

From S2P Require Import RosterGate CredentialWAL Publish Prelude GoStrings Float64 Json Text RetryChain Config Models Trial Annotations Capability State Roster StateStore Bindings Identity RetryRuntime Durations Sizes Settings UserData Status Decode.
From Stdlib Require Import Ascii.
#[local] Open Scope string_scope.
#[local] Open Scope list_scope.
#[local] Open Scope Z_scope.
#[local] Open Scope go_scope.

(** ** Paths *)

Definition managementBasePath : string := "/plugins/" +:+ PluginID.
Definition resourceBasePath : string := "/v0/resource" +:+ managementBasePath.

Definition isResourcePath (path : string) : bool := String.eqb path resourceBasePath || HasPrefix path (resourceBasePath +:+ "/").

(** The loop over the prefixes returns on an exact match and stops at the first
    prefix that was trimmed. *)
Fixpoint trimManagementPrefix (prefixes : list string) (path : string) : string :=
  match prefixes with
  | [] => path
  | prefix :: prefixes =>
      if String.eqb path prefix then "/"
      else if HasPrefix path (prefix +:+ "/") then sdrop (String.length prefix) path
      else trimManagementPrefix prefixes path
  end.
Definition normalizeManagementPath (path : string) : string :=
  let path := trimManagementPrefix ["/v0/management" +:+ managementBasePath; resourceBasePath; managementBasePath] path in
  if String.eqb path (resourceBasePath +:+ "/status") then "/status" else if String.eqb path "" then "/" else path.

(** Resource routes expose the static status shell only. *)
Definition resourceRouteAllowed (method path : string) : bool := String.eqb method "GET" && String.eqb path "/status".

Record route := mkRoute { ro_Method : string; ro_Path : string }.
(** [RegisterManagement]; the resource route is [/status]. *)
Definition managementRoutes : list route :=
  (fun r => mkRoute r.1 (managementBasePath +:+ r.2)) <$>
  [("GET", "/status"); ("GET", "/settings"); ("PUT", "/settings"); ("POST", "/refresh"); ("POST", "/refresh/account"); ("GET", "/logs"); ("GET", "/export");
   ("POST", "/import"); ("GET", "/annotations"); ("PUT", "/annotations"); ("PATCH", "/annotations/account"); ("PATCH", "/annotations/group");
   ("POST", "/credentials/resolve"); ("GET", "/retry/status")].

(** ** Requests and answers *)

Record ManagementRequest := mkRequest { mq_Method : string; mq_Path : string; mq_Query : gmap string (list string); mq_Body : string }.
(** [req.Query.Get(key)] *)
Definition queryGet (req : ManagementRequest) (key : string) : string := default "" (mq_Query req !! key ≫= head).

Inductive management_error :=
  | MgmtNotFound
  | MgmtBody
  | MgmtSettings (e : settings_error)
  | MgmtEndpoint (message : string)
  | MgmtDataRequired
  | MgmtSave (e : user_error)
  | MgmtAuthRequired
  | MgmtOutsideTier (authID : string)
  | MgmtKeyRequired
  | MgmtResolutionUnavailable
  | MgmtResolutionPayload
  | MgmtResolution (e : publish_error).

Inductive answer :=
  | AnswerError (e : management_error)
  | AnswerOk
  | AnswerSettings (s : SettingsPayload)
  | AnswerLogs (logs : list LogEntry)
  | AnswerRetry (s : RetryStatusPayload)
  | AnswerState (s : PluginDiskState)
  | AnswerAnnotations (s : AnnotationState)
  | AnswerStatus (s : StatusPayload)
  | AnswerPage (s : StatusPayload).
Record ManagementResponse := mkResponse { mr_StatusCode : Z; mr_Answer : answer }.
Definition failure (status : Z) (e : management_error) : ManagementResponse := mkResponse status (AnswerError e).
Definition succeeded (r : ManagementResponse) : bool := (200 <=? mr_StatusCode r) && (mr_StatusCode r <? 300).

(** What handlers start elsewhere. *)
Inductive management_call := CallRefreshSoon | CallRefreshOneSoon (authID : string) | CallRiskChanged (enabled : bool).

(** The state in memory, the configuration that requests are routed by, the files
    and the calls. *)
Record ManagementWorld := mkManagementWorld {
  mw_Store : PluginState;
  mw_Config : Config;
  mw_Disk : UserDisk;
  mw_Calls : list management_call;
}.
#[export] Instance ManagementWorld_eta : Eta ManagementWorld := fun r => mkManagementWorld (mw_Store r) (mw_Config r) (mw_Disk r) (mw_Calls r).

(** The time and what becomes of the two file replacements of a save. *)
Record request_env := mkRequestEnv { re_now : Time; re_backup : write_outcome; re_primary : write_outcome }.

Definition log (w : ManagementWorld) (event message : string) (fields : gmap string any_value) (env : request_env) : ManagementWorld :=
  w <| mw_Store := RecordLog (mw_Store w) "info" event message fields (re_now env) (re_now env) |>.
Definition call (w : ManagementWorld) (c : management_call) : ManagementWorld := w <| mw_Calls := mw_Calls w ++ [c] |>.
Definition saveDisk (w : ManagementWorld) (state : PluginDiskState) (env : request_env) : ManagementWorld * option user_error :=
  let '(disk, err) := SaveUserData (mw_Disk w) state (re_backup env) (re_primary env) in (w <| mw_Disk := disk |>, err).

Section management.
Context `{MapRange} (redactSecrets : string -> string).

(** ** Settings *)

Definition saveSettingsPayload (w : ManagementWorld) (payload : SettingsPayload) (env : request_env) : ManagementWorld * ManagementResponse :=
  let previousRisk := ProbeOnProvisionalRoster (st_cfg (mw_Store w)) in
  match ConfigFromSettings (st_cfg (mw_Store w)) payload with
  | Err e => (w, failure 400 (MgmtSettings e))
  | Ok cfg =>
      let '(w, err) := saveDisk w ((diskStateFromStore (mw_Store w)) <| ds_Config := cfg |>) env in
      match err with
      | Some e => (w, failure 500 (MgmtSave e))
      | None =>
          let w := w <| mw_Store := ReplaceConfig (mw_Store w) cfg |> <| mw_Config := cfg |> in
          let w := if bool_decide (ProbeOnProvisionalRoster cfg = previousRisk) then w else call w (CallRiskChanged (ProbeOnProvisionalRoster cfg)) in
          (w, mkResponse 200 (AnswerSettings (SettingsFromConfig cfg)))
      end
  end.
Definition handlePutSettings (w : ManagementWorld) (req : ManagementRequest) (env : request_env) : ManagementWorld * ManagementResponse :=
  match Unmarshal fieldsOfSettings emptySettings (mq_Body req) with
  | None => (w, failure 400 MgmtBody)
  | Some payload =>
      let '(w, resp) := saveSettingsPayload w payload env in
      (if succeeded resp then log w "ui.settings_saved" "页面保存调度设置" ∅ env else w, resp)
  end.

(** ** Export and import *)

Definition handleExportState (w : ManagementWorld) (env : request_env) : ManagementWorld * ManagementResponse :=
  let state := diskStateFromStore (mw_Store w) in
  (log w "ui.config_exported" "页面导出插件配置" ∅ env, mkResponse 200 (AnswerState (normalizePluginDiskState state))).

Definition handleImportState (w : ManagementWorld) (body : string) (env : request_env) : ManagementWorld * ManagementResponse :=
  let raw := TrimSpace body in
  if String.eqb raw "" then (w, failure 400 MgmtDataRequired)
  else
    match Unmarshal fieldsOfDiskState (mkDiskState emptyConfig ∅ ∅) raw with
    | None => (w, failure 400 MgmtBody)
    | Some state =>
        match validateQuotaEndpoint (QuotaEndpoint (ds_Config state)) with
        | Err m => (w, failure 400 (MgmtEndpoint m))
        | Ok _ =>
            let state := normalizePluginDiskState state in
            let '(w, err) := saveDisk w state env in
            match err with
            | Some e => (w, failure 500 (MgmtSave e))
            | None =>
                let w := w <| mw_Store := SetAnnotations (ReplaceConfig (mw_Store w) (ds_Config state)) (mkAnnotations (ds_Accounts state) (ds_Groups state)) |>
                           <| mw_Config := ds_Config state |> in
                (log w "ui.config_imported" "页面导入插件配置" ∅ env, mkResponse 200 AnswerOk)
            end
        end
    end.

(** ** Annotations *)

Definition persistAnnotationState (w : ManagementWorld) (state : AnnotationState) (env : request_env) : ManagementWorld * option user_error :=
  saveDisk w ((diskStateFromStore (mw_Store w)) <| ds_Accounts := ann_Accounts state |> <| ds_Groups := ann_Groups state |>) env.

(** The end of every handler that changes the annotations. *)
Definition commitAnnotations (w : ManagementWorld) (state : AnnotationState) (env : request_env) : ManagementWorld * ManagementResponse :=
  let state := NormalizeAnnotationState state in
  let '(w, err) := persistAnnotationState w state env in
  match err with
  | Some e => (w, failure 500 (MgmtSave e))
  | None => (w <| mw_Store := SetAnnotations (mw_Store w) state |>, mkResponse 200 AnswerOk)
  end.

Definition handlePutAnnotations (w : ManagementWorld) (req : ManagementRequest) (env : request_env) : ManagementWorld * ManagementResponse :=
  match Unmarshal fieldsOfAnnotations (mkAnnotations ∅ ∅) (mq_Body req) with
  | None => (w, failure 400 MgmtBody)
  | Some state => commitAnnotations w state env
  end.

Definition accountKey (p : annotationPatch) : string :=
  if negb (String.eqb (pt_Key p) "") then pt_Key p
  else if negb (String.eqb (pt_ID p) "") then pt_ID p
  else if negb (String.eqb (pt_AuthID p) "") then "auth:" +:+ pt_AuthID p
  else "".
Definition groupKey (p : annotationPatch) : string := if negb (String.eqb (pt_Key p) "") then pt_Key p else pt_ID p.

(** The [annotation] of the body is decoded over the present one. *)
Definition decodedOver {R} (t : table R) (raw : option json) (r : R) : option R :=
  match raw with None => Some r | Some v => decStruct t v r end.
Definition patchAccount (p : annotationPatch) (a : AccountAnnotation) : AccountAnnotation :=
  a <| an_Alias := default (an_Alias a) (pt_Alias p) |> <| an_Notes := default (an_Notes a) (pt_Notes p) |>
    <| an_Tags := default (an_Tags a) (pt_Tags p) |> <| an_GroupID := default (an_GroupID a) (pt_GroupID p) |>
    <| an_SchedulerPriority := default (an_SchedulerPriority a) (pt_SchedulerPriority p) |>.
Definition patchGroup (p : annotationPatch) (g : GroupAnnotation) : GroupAnnotation :=
  g <| gr_Name := default (gr_Name g) (pt_Name p) |> <| gr_Notes := default (gr_Notes g) (pt_Notes p) |>
    <| gr_Tags := default (gr_Tags g) (pt_Tags p) |> <| gr_Color := default (gr_Color g) (pt_Color p) |>.

(** What an account patch makes of the annotations it read. *)
Definition patchedAccounts (state : AnnotationState) (p : annotationPatch) : option AnnotationState :=
  (fun a => state <| ann_Accounts := <[accountKey p := patchAccount p a]> (ann_Accounts state) |>)
  <$> decodedOver fieldsOfAccountAnnotation (pt_Annotation p) (default emptyAnnotation (ann_Accounts state !! accountKey p)).
Definition patchedGroups (state : AnnotationState) (p : annotationPatch) : option AnnotationState :=
  (fun g => state <| ann_Groups := <[groupKey p := patchGroup p g]> (ann_Groups state) |>)
  <$> decodedOver fieldsOfGroupAnnotation (pt_Annotation p) (default emptyGroup (ann_Groups state !! groupKey p)).

Definition applyAccountAnnotationPatch (w : ManagementWorld) (p : annotationPatch) (env : request_env) : ManagementWorld * ManagementResponse :=
  if String.eqb (accountKey p) "" then (w, failure 400 MgmtKeyRequired)
  else match patchedAccounts (st_annotations (mw_Store w)) p with
       | None => (w, failure 400 MgmtBody)
       | Some state => commitAnnotations w state env
       end.
Definition applyGroupAnnotationPatch (w : ManagementWorld) (p : annotationPatch) (env : request_env) : ManagementWorld * ManagementResponse :=
  if String.eqb (groupKey p) "" then (w, failure 400 MgmtKeyRequired)
  else match patchedGroups (st_annotations (mw_Store w)) p with
       | None => (w, failure 400 MgmtBody)
       | Some state => commitAnnotations w state env
       end.

Definition handlePatchAccountAnnotation (w : ManagementWorld) (req : ManagementRequest) (env : request_env) : ManagementWorld * ManagementResponse :=
  match Unmarshal fieldsOfPatch emptyPatch (mq_Body req) with
  | None => (w, failure 400 MgmtBody)
  | Some p =>
      let '(w, resp) := applyAccountAnnotationPatch w p env in
      (if succeeded resp then log w "ui.account_saved" "页面保存账号卡片" {["auth_id" := AnyString (pt_AuthID p); "key" := AnyString (pt_Key p)]} env else w, resp)
  end.
Definition handlePatchGroupAnnotation (w : ManagementWorld) (req : ManagementRequest) (env : request_env) : ManagementWorld * ManagementResponse :=
  match Unmarshal fieldsOfPatch emptyPatch (mq_Body req) with
  | None => (w, failure 400 MgmtBody)
  | Some p =>
      let '(w, resp) := applyGroupAnnotationPatch w p env in
      (if succeeded resp then log w "ui.group_saved" "页面保存账号分组" {["group_id" := AnyString (pt_ID p); "key" := AnyString (pt_Key p)]} env else w, resp)
  end.

(** ** Refreshes *)

(** Whether there is a refresher. *)
Context (globalRefresher : bool).

Definition refreshGlobalRefresherSoon (w : ManagementWorld) (env : request_env) : ManagementWorld :=
  if globalRefresher then call (log w "quota.refresh_requested" "已请求后台刷新额度" ∅ env) CallRefreshSoon else w.
Definition refreshGlobalRefresherOneSoon (w : ManagementWorld) (authID : string) (env : request_env) : ManagementWorld :=
  if globalRefresher then call (log w "quota.refresh_one_requested" "已请求后台刷新单个账号额度" {["auth_id" := AnyString authID]} env) (CallRefreshOneSoon authID) else w.

Definition handleRefresh (w : ManagementWorld) (env : request_env) : ManagementWorld * ManagementResponse :=
  (log (refreshGlobalRefresherSoon w env) "ui.refresh_requested" "页面请求刷新额度" ∅ env, mkResponse 202 AnswerOk).

Definition refreshAccountOf (req : ManagementRequest) : option string :=
  let authID := TrimSpace (queryGet req "auth_id") in
  if String.eqb authID "" && negb (String.eqb (mq_Body req) "")
  then (fun payload => TrimSpace (ap_AuthID payload)) <$> Unmarshal fieldsOfRefreshAccount (mkAuthPayload "" "") (mq_Body req)
  else Some authID.
Definition handleRefreshAccountRequest (w : ManagementWorld) (req : ManagementRequest) (env : request_env) : ManagementWorld * ManagementResponse :=
  match refreshAccountOf req with
  | None => (w, failure 400 MgmtBody)
  | Some authID =>
      if String.eqb authID "" then (w, failure 400 MgmtAuthRequired)
      else if negb (IsAuthAdmitted (mw_Store w) authID) then (w, failure 409 (MgmtOutsideTier authID))
      else
        let w := refreshGlobalRefresherOneSoon w authID env in
        (log w "ui.refresh_one_requested" "页面请求刷新单个账号额度" {["auth_id" := AnyString authID]} env, mkResponse 202 AnswerOk)
  end.

(** ** Credentials *)

(** The resolution of the refresher ([Publish.ResolveCredentialAmbiguity]); it may
    change the state of the accounts. *)
Definition resolver : Type := string -> CredentialResolutionAction -> PluginState -> PluginState * option publish_error.

(** [CredentialResolutionAction.Valid] *)
Definition resolutionAction (text : string) : option CredentialResolutionAction :=
  if String.eqb text "confirm_owned_rotation" then Some CredentialConfirmOwned
  else if String.eqb text "confirm_external_login" then Some CredentialConfirmExternal
  else if String.eqb text "reread" then Some CredentialReread
  else None.
(** [ErrCredentialResolutionScope] and [ErrBindingNotRosterConfirmed] *)
Definition resolutionConflict (e : publish_error) : bool :=
  match e with
  | PublishScope | PublishUnbound | PublishBinding ErrBindingNotRosterConfirmed => true
  | PublishStore (ErrUpdate reason) => String.eqb reason scopeReason
  | _ => false
  end.

Definition handleCredentialResolution (w : ManagementWorld) (req : ManagementRequest) (ResolveCredential : option resolver) (env : request_env)
  : ManagementWorld * ManagementResponse :=
  match ResolveCredential with
  | None => (w, failure 409 MgmtResolutionUnavailable)
  | Some resolve =>
      match Unmarshal fieldsOfResolution (mkAuthPayload "" "") (mq_Body req) with
      | None => (w, failure 400 MgmtResolutionPayload)
      | Some payload =>
          match resolutionAction (ap_Action payload) with
          | None => (w, failure 400 MgmtResolutionPayload)
          | Some action =>
              if String.eqb (TrimSpace (ap_AuthID payload)) "" then (w, failure 400 MgmtResolutionPayload)
              else
                let '(store, err) := resolve (ap_AuthID payload) action (mw_Store w) in
                let w := w <| mw_Store := store |> in
                match err with
                | Some e => (w, failure (if resolutionConflict e then 409 else 500) (MgmtResolution e))
                | None =>
                    (log w "credential.ambiguity_resolved" "credential ambiguity resolution completed"
                       {["auth_id" := AnyString (ap_AuthID payload); "action" := AnyString (ap_Action payload)]} env, mkResponse 200 AnswerOk)
                end
          end
      end
  end.

(** ** The status page *)

Definition handleStatusRequest (w : ManagementWorld) (req : ManagementRequest) (globalTrials : TrialRegistry)
    (lifecycle : option ManagementLifecycleSnapshot) (env : request_env) : ManagementResponse :=
  if isResourcePath (mq_Path req) then mkResponse 200 (AnswerPage (BuildStatusShellPayload (re_now env)))
  else
    let payload := match lifecycle with
                   | Some lifecycle => buildCurrentStatusPayloadWithLifecycle redactSecrets (mw_Store w) globalTrials (re_now env) lifecycle
                   | None => buildCurrentStatusPayload redactSecrets (mw_Store w) globalTrials (re_now env)
                   end in
    mkResponse 200 (if String.eqb (queryGet req "format") "json" then AnswerStatus payload else AnswerPage payload).

(** ** Routing *)

Record request_context := mkContext {
  cx_Trials : TrialRegistry; cx_Retry : retryStats; cx_Lifecycle : option ManagementLifecycleSnapshot; cx_Resolve : option resolver;
}.

Definition handleManagementRequest (w : ManagementWorld) (req : ManagementRequest) (cx : request_context) (env : request_env)
  : ManagementWorld * ManagementResponse :=
  let method := UpperText (mq_Method req) in
  let path := normalizeManagementPath (mq_Path req) in
  let at_ m p := String.eqb method m && String.eqb path p in
  if isResourcePath (mq_Path req) && negb (resourceRouteAllowed method path) then (w, failure 404 MgmtNotFound)
  else if at_ "GET" "/status" then (w, handleStatusRequest w req (cx_Trials cx) (cx_Lifecycle cx) env)
  else if at_ "GET" "/settings" then (w, mkResponse 200 (AnswerSettings (SettingsFromConfig (st_cfg (mw_Store w)))))
  else if at_ "PUT" "/settings" then handlePutSettings w req env
  else if at_ "POST" "/refresh" then handleRefresh w env
  else if at_ "POST" "/refresh/account" then handleRefreshAccountRequest w req env
  else if at_ "GET" "/logs" then (w, mkResponse 200 (AnswerLogs (ss_Logs (Snapshot (mw_Store w) (re_now env)))))
  else if at_ "GET" "/retry/status" then (w, mkResponse 200 (AnswerRetry (retryStatusSnapshot (st_cfg (mw_Store w)) (cx_Retry cx))))
  else if at_ "GET" "/export" then handleExportState w env
  else if at_ "POST" "/import" then handleImportState w (mq_Body req) env
  else if at_ "GET" "/annotations" then (w, mkResponse 200 (AnswerAnnotations (st_annotations (mw_Store w))))
  else if at_ "PUT" "/annotations" then handlePutAnnotations w req env
  else if at_ "PATCH" "/annotations/account" then handlePatchAccountAnnotation w req env
  else if at_ "PATCH" "/annotations/group" then handlePatchGroupAnnotation w req env
  else if at_ "POST" "/credentials/resolve" then handleCredentialResolution w req (cx_Resolve cx) env
  else (w, failure 404 MgmtNotFound).

(** ** The entry point *)

Definition managementCredentialAmbiguous (persisted : option PersistentState) (active : ActiveRoster) (now : Time) : bool :=
  match persisted with
  | None => false
  | Some state =>
      existsb (fun authID =>
        match ps_Bindings state !! authID with
        | None => false
        | Some binding =>
            if negb (String.eqb (rb_AuthID binding) authID) || (rb_Instance binding =? 0) then false
            else match ps_CredentialChains state !! rb_Instance binding with
                 | None => false
                 | Some chain =>
                     match last (tc_Transitions chain) with
                     | Some tr => bool_decide (ct_Phase tr = TransitionPlanned) || bool_decide (ct_Phase tr = TransitionOutcomeUnknown)
                     | None => false
                     end || match co_Kind (ClassifyObservedCredentialAt chain (rb_Fingerprint binding) now) with CredentialAmbiguous => true | _ => false end
                 end
        end) (ar_Instances active)
  end.

(** What the entry point finds: the roster after [WakeForManagement] when there is
    a controller, what the stores of the refresher and of the refresher that owns
    the lifecycle say, and the resolver. *)
Record management_host := mkManagementHost {
  mh_Controller : option ActiveRoster; mh_Persisted : option PersistentState; mh_Owner : option PersistentState; mh_Resolve : resolver;
}.

Definition handleManagementHandle (w : ManagementWorld) (req : ManagementRequest) (trials : TrialRegistry) (stats : retryStats) (host : management_host)
    (env : request_env) : ManagementWorld * ManagementResponse :=
  if isResourcePath (mq_Path req) then handleManagementRequest w req (mkContext trials stats None None) env
  else
    match mh_Controller host with
    | None => handleManagementRequest w req (mkContext trials stats (Some (mkLifecycle waitingRoster false ∅)) None) env
    | Some active =>
        let lifecycle := mkLifecycle active (if globalRefresher then managementCredentialAmbiguous (mh_Persisted host) active (re_now env) else false)
                           (if globalRefresher then match mh_Owner host with Some state => ps_ManagedLifecycle state | None => ∅ end else ∅) in
        handleManagementRequest w req (mkContext trials stats (Some lifecycle) (if globalRefresher then Some (mh_Resolve host) else None)) env
    end.
End management.

(** ** Which requests are served *)

Section routing.
Context `{MapRange} (redactSecrets : string -> string) (globalRefresher : bool).
#[local] Notation handle := (handleManagementRequest redactSecrets globalRefresher).

(** C24: The resource routes expose nothing: a request there, whatever its method,
    its path and its body, changes no state, no file and starts nothing, and it is
    refused or answered with a page that depends on the time only. *)
Theorem resource_requests_isolated (w : ManagementWorld) (req : ManagementRequest) (trials : TrialRegistry) (stats : retryStats)
    (host : management_host) (env : request_env) :
  isResourcePath (mq_Path req) = true ->
  let '(w', resp) := handleManagementHandle redactSecrets globalRefresher w req trials stats host env in
  w' = w /\ (resp = failure 404 MgmtNotFound \/ resp = mkResponse 200 (AnswerPage (BuildStatusShellPayload (re_now env)))).
Proof.
  intros Hp. unfold handleManagementHandle. rewrite Hp. unfold handleManagementRequest. cbv zeta. rewrite Hp. cbn [andb].
  unfold resourceRouteAllowed. destruct (String.eqb _ "GET" && String.eqb _ "/status"); [|by cbn [negb]; auto].
  cbn [negb]. unfold handleStatusRequest. rewrite Hp. auto.
Qed.


Definition found (r : ManagementWorld * ManagementResponse) : Prop := mr_StatusCode r.2 <> 404.
Ltac found := repeat match goal with
  | |- context [match ?x with _ => _ end] => destruct x
  | |- context [if ?b then _ else _] => destruct b
  end; discriminate.
Lemma saveSettings_found w p env : found (saveSettingsPayload w p env).
Proof. unfold found, saveSettingsPayload, saveDisk. cbv zeta. found. Qed.
Lemma commit_found w st env : found (commitAnnotations w st env).
Proof. unfold found, commitAnnotations, persistAnnotationState, saveDisk. cbv zeta. found. Qed.
Lemma accountPatch_found w p env : found (applyAccountAnnotationPatch w p env).
Proof. unfold applyAccountAnnotationPatch. destruct (String.eqb _ ""); [discriminate|]. destruct (patchedAccounts _ _); [apply commit_found|discriminate]. Qed.
Lemma groupPatch_found w p env : found (applyGroupAnnotationPatch w p env).
Proof. unfold applyGroupAnnotationPatch. destruct (String.eqb _ ""); [discriminate|]. destruct (patchedGroups _ _); [apply commit_found|discriminate]. Qed.
Lemma handlers_found w req cx env :
  found (handlePutSettings w req env) /\ found (handleImportState w (mq_Body req) env) /\ found (handlePutAnnotations w req env)
  /\ found (handlePatchAccountAnnotation w req env) /\ found (handlePatchGroupAnnotation w req env)
  /\ found (handleRefreshAccountRequest globalRefresher w req env) /\ found (handleCredentialResolution w req (cx_Resolve cx) env).
Proof.
  split_and!.
  - unfold handlePutSettings. destruct (Unmarshal _ _ _) as [p|]; [|discriminate]. pose proof (saveSettings_found w p env). by destruct (saveSettingsPayload w p env).
  - unfold found, handleImportState, saveDisk. cbv zeta. found.
  - unfold handlePutAnnotations. destruct (Unmarshal _ _ _); [apply commit_found|discriminate].
  - unfold handlePatchAccountAnnotation. destruct (Unmarshal _ _ _) as [p|]; [|discriminate]. pose proof (accountPatch_found w p env). by destruct (applyAccountAnnotationPatch w p env).
  - unfold handlePatchGroupAnnotation. destruct (Unmarshal _ _ _) as [p|]; [|discriminate]. pose proof (groupPatch_found w p env). by destruct (applyGroupAnnotationPatch w p env).
  - unfold found, handleRefreshAccountRequest. cbv zeta. found.
  - unfold found, handleCredentialResolution, resolutionConflict. found.
Qed.

Lemma managementRoutes_paths : (fun r => (ro_Method r, normalizeManagementPath (ro_Path r))) <$> managementRoutes =
  [("GET", "/status"); ("GET", "/settings"); ("PUT", "/settings"); ("POST", "/refresh"); ("POST", "/refresh/account"); ("GET", "/logs"); ("GET", "/export");
   ("POST", "/import"); ("GET", "/annotations"); ("PUT", "/annotations"); ("PATCH", "/annotations/account"); ("PATCH", "/annotations/group");
   ("POST", "/credentials/resolve"); ("GET", "/retry/status")].
Proof. vm_compute. reflexivity. Qed.

(** The routes that are registered with the host are the ones that are served: a
    management request is answered with not found exactly when no registered route
    has its method and its path. *)
Theorem registered_routes_served (w : ManagementWorld) (req : ManagementRequest) (cx : request_context) (env : request_env) :
  isResourcePath (mq_Path req) = false ->
  (mr_StatusCode (handle w req cx env).2 = 404
   <-> forall r, r ∈ managementRoutes -> ro_Method r = UpperText (mq_Method req) -> normalizeManagementPath (ro_Path r) <> normalizeManagementPath (mq_Path req)).
Proof.
  intros Hp. set (m := UpperText (mq_Method req)). set (p := normalizeManagementPath (mq_Path req)).
  assert ((forall r, r ∈ managementRoutes -> ro_Method r = m -> normalizeManagementPath (ro_Path r) <> p)
          <-> (m, p) ∉ (fun r => (ro_Method r, normalizeManagementPath (ro_Path r))) <$> managementRoutes) as ->.
  { rewrite list_elem_of_fmap. split; [|by intros Hno r Hr Hm Hq; apply Hno; exists r; rewrite Hm, Hq].
    intros Hall (r & [= Em Eq] & Hr). by apply (Hall r). }
  rewrite managementRoutes_paths. pose proof (handlers_found w req cx env) as (H1 & H2 & H3 & H4 & H5 & H6 & H7).
  unfold handleManagementRequest. cbv zeta. rewrite Hp. cbn [andb]. fold m p.
  repeat match goal with
  | |- context [String.eqb m ?a && String.eqb p ?b] =>
      destruct (String.eqb m a && String.eqb p b) eqn:?;
      [match goal with E : _ = true |- _ => apply andb_true_iff in E as [->%String.eqb_eq ->%String.eqb_eq] end;
       split; [intros E; exfalso; revert E; solve [assumption | discriminate | unfold handleStatusRequest; repeat case_match; discriminate]
              | intros Hno; exfalso; apply Hno; vm_compute; repeat constructor]|]
  end.
  split; [intros _|done]. intros Hin.
  repeat (apply elem_of_cons in Hin as [[= Em Eq]|Hin]; [rewrite Em, Eq in *; discriminate|]). by apply not_elem_of_nil in Hin.
Qed.
End routing.

Definition exampleWorld : ManagementWorld := mkManagementWorld exampleStore DefaultConfig (exampleUserDisk UserAbsent UserAbsent) [].
Definition exampleContext : request_context := mkContext NewTrialRegistry (mkStats 0 0 0 0 0 []) None None.
Definition exampleEnv : request_env := mkRequestEnv 100 WriteOk WriteOk.
Definition exampleRequest (method path body : string) : ManagementRequest := mkRequest method ("/v0/management" +:+ managementBasePath +:+ path) ∅ (js body).

Lemma registered_routes_served_witness :
  let req := exampleRequest "DELETE" "/settings" "" in
  mr_StatusCode (handleManagementRequest id true exampleWorld req exampleContext exampleEnv).2 = 404
  /\ (mr_StatusCode (handleManagementRequest id true exampleWorld req exampleContext exampleEnv).2 = 404
      <-> forall r, r ∈ managementRoutes -> ro_Method r = UpperText (mq_Method req) -> normalizeManagementPath (ro_Path r) <> normalizeManagementPath (mq_Path req)).
Proof.
  cbv zeta. split; [vm_compute; reflexivity|].
  apply (registered_routes_served id true exampleWorld (exampleRequest "DELETE" "/settings" "") exampleContext exampleEnv). vm_compute. reflexivity.
Defined.

Lemma resource_requests_isolated_witness :
  let req := mkRequest "PUT" (resourceBasePath +:+ "/settings") ∅ "{}" in
  let host := mkManagementHost (Some waitingRoster) None None (fun _ _ s => (s, None)) in
  let '(w', resp) := handleManagementHandle id true exampleWorld req NewTrialRegistry (mkStats 0 0 0 0 0 []) host exampleEnv in
  w' = exampleWorld /\ (resp = failure 404 MgmtNotFound \/ resp = mkResponse 200 (AnswerPage (BuildStatusShellPayload 100))).
Proof.
  cbv zeta. apply (resource_requests_isolated id true exampleWorld (mkRequest "PUT" (resourceBasePath +:+ "/settings") ∅ "{}") NewTrialRegistry
    (mkStats 0 0 0 0 0 []) (mkManagementHost (Some waitingRoster) None None (fun _ _ s => (s, None))) exampleEnv).
  vm_compute. reflexivity.
Defined.
(** ** Saving before changing *)

(** The user's data as they are in memory. *)
Definition liveData (w : ManagementWorld) : PluginDiskState := diskStateFromStore (mw_Store w).
(** It is in the form in which it is kept, and requests are routed by it. *)
Record data_ok (w : ManagementWorld) : Prop := { do_normal : normalized (liveData w); do_routed : mw_Config w = st_cfg (mw_Store w) }.
Definition savesData (req : ManagementRequest) : bool :=
  let at_ m p := String.eqb (UpperText (mq_Method req)) m && String.eqb (normalizeManagementPath (mq_Path req)) p in
  negb (isResourcePath (mq_Path req))
  && (at_ "PUT" "/settings" || at_ "POST" "/import" || at_ "PUT" "/annotations" || at_ "PATCH" "/annotations/account" || at_ "PATCH" "/annotations/group").

(** What a request may do to the user's data. *)
Record serves (saves : bool) (w : ManagementWorld) (r : ManagementWorld * ManagementResponse) : Prop := {
  se_ok : data_ok r.1;
  se_refused : succeeded r.2 = false -> liveData r.1 = liveData w;
  se_saved : saves = true -> succeeded r.2 = true -> ud_primary (mw_Disk r.1) = UserData CurrentUserDataSchema (liveData r.1);
  se_reads : saves = false -> liveData r.1 = liveData w /\ mw_Disk r.1 = mw_Disk w;
  se_disk : mw_Disk r.1 = mw_Disk w \/ succeeded r.2 = true \/ mr_StatusCode r.2 = 500;
}.

Lemma normalized_parts x : normalized x ->
  (config_wf (ds_Config x) /\ endpoint_known (ds_Config x))
  /\ NormalizeAnnotationState (mkAnnotations (ds_Accounts x) (ds_Groups x)) = mkAnnotations (ds_Accounts x) (ds_Groups x).
Proof.
  destruct x as [c accounts groups]. unfold normalized, normalizePluginDiskState. cbn [ds_Config ds_Accounts ds_Groups]. intros [= Ec Ea Eg].
  split; [rewrite <- Ec; apply normalizeDiskConfig_wf|]. unfold NormalizeAnnotationState. cbn [ann_Accounts ann_Groups]. by f_equal.
Qed.
Lemma parts_normalized c a : config_wf c -> endpoint_known c ->
  normalizePluginDiskState (mkDiskState c (ann_Accounts a) (ann_Groups a)) = mkDiskState c (ann_Accounts (NormalizeAnnotationState a)) (ann_Groups (NormalizeAnnotationState a)).
Proof. intros Hc He. unfold normalizePluginDiskState. cbn [ds_Config ds_Accounts ds_Groups]. rewrite (normalizeDiskConfig_id _ Hc He). by destruct a. Qed.
(** Data that are put into the state. *)
Lemma installed_data s x : normalized x ->
  diskStateFromStore (SetAnnotations (ReplaceConfig s (ds_Config x)) (mkAnnotations (ds_Accounts x) (ds_Groups x))) = x.
Proof.
  intros Hx. pose proof (normalized_parts _ Hx) as [[Hc _] Ha].
  trans (mkDiskState (NormalizeConfig (ds_Config x)) (ann_Accounts (NormalizeAnnotationState (mkAnnotations (ds_Accounts x) (ds_Groups x))))
    (ann_Groups (NormalizeAnnotationState (mkAnnotations (ds_Accounts x) (ds_Groups x))))); [done|].
  rewrite Ha, (NormalizeConfig_id _ Hc). by destruct x.
Qed.
Lemma data_config w : data_ok w -> config_wf (st_cfg (mw_Store w)) /\ endpoint_known (st_cfg (mw_Store w)).
Proof. intros [Hn _]. exact (proj1 (normalized_parts _ Hn)). Qed.
Lemma data_annotations w : data_ok w -> NormalizeAnnotationState (st_annotations (mw_Store w)) = st_annotations (mw_Store w).
Proof. intros [Hn _]. pose proof (proj2 (normalized_parts _ Hn)) as E. cbn [liveData diskStateFromStore ds_Accounts ds_Groups] in E. by destruct (st_annotations (mw_Store w)). Qed.
#[local] Opaque normalizePluginDiskState.
Lemma save_ok d st ioB ioP d' : SaveUserData d st ioB ioP = (d', None) -> ud_primary d' = UserData CurrentUserDataSchema (normalizePluginDiskState st).
Proof.
  unfold SaveUserData, writeUserDataAtomic. destruct (match ud_primary d with UserAbsent => _ | _ => _ end); [|done].
  destruct ioB, ioP; cbn; by intros [= <-].
Qed.

Lemma log_ok w e m f env : data_ok w -> data_ok (log w e m f env).
Proof. intros []. by split. Qed.

Lemma serves_refused saves w resp : data_ok w -> succeeded resp = false -> serves saves w (w, resp).
Proof. intros H E. split; cbn; try done; [by rewrite E|by left]. Qed.
Lemma serves_read w w' resp : data_ok w -> liveData w' = liveData w -> mw_Disk w' = mw_Disk w -> mw_Config w' = mw_Config w -> serves false w (w', resp).
Proof.
  intros [Hn Hr] El Ed Ec. split; cbn; try done; [|by left]. split; [by rewrite El|]. rewrite Ec, Hr.
  by injection El.
Qed.
(** A log entry after a success. *)
Lemma serves_logged w r e m f env : serves true w r ->
  serves true w (let '(w', resp) := r in (if succeeded resp then log w' e m f env else w', resp)).
Proof.
  destruct r as [w' resp]. intros [H1 H2 H3 _ H5]. cbn in *. destruct (succeeded resp) eqn:E; cbn; [|by split; cbn; rewrite ?E].
  split; cbn; rewrite ?E; try done; first [by apply log_ok|by auto].
Qed.

(** The save and what follows it: the data in memory become the saved ones. *)
Lemma serves_save w state env f answer : data_ok w ->
  (forall d, let w' := f (w <| mw_Disk := d |>) in
    liveData w' = normalizePluginDiskState state /\ mw_Disk w' = d /\ mw_Config w' = st_cfg (mw_Store w')) ->
  serves true w (let '(w, err) := saveDisk w state env in match err with Some e => (w, failure 500 (MgmtSave e)) | None => (f w, mkResponse 200 answer) end).
Proof.
  intros Hok Hf. unfold saveDisk. destruct (SaveUserData _ _ _ _) as [d' err] eqn:E. destruct err as [e|]; cbv beta iota zeta.
  - split; cbn; try done; [|by right; right]. destruct Hok. by split.
  - destruct (Hf d') as (H1 & H2 & H3). generalize dependent (f (w <| mw_Disk := d' |>)). intros w' H1 H2 H3.
    split; cbn [fst snd]; try done; [| |by right; left].
    + split; [rewrite H1; apply normalizePluginDiskState_idem|done].
    + intros _ _. rewrite H2, H1. exact (save_ok _ _ _ _ _ E).
Qed.

(** A check that passed. *)
Ltac checked := match goal with |- (if ?b then _ else _) = _ -> _ => destruct b; [discriminate|] end.
Lemma page_endpoint base p cfg : endpoint_known base -> ConfigFromSettings base p = Ok cfg -> config_wf cfg /\ endpoint_known cfg.
Proof.
  assert (forall c, endpoint_known c -> endpoint_known (NormalizeConfig c)) as Hnorm.
  { intros c [e He]. unfold endpoint_known. cbn [NormalizeConfig QuotaEndpoint]. destruct (String.eqb (TrimSpace (QuotaEndpoint c)) ""); [|by exists e].
    eexists. vm_compute. reflexivity. }
  assert (forall b raw old e, (exists e, validateQuotaEndpoint old = Ok e) ->
    (if b : bool then Ok old else match validateQuotaEndpoint raw with Ok e => Ok e | Err m => Err (BadEndpoint m) end) = Ok e -> exists e', validateQuotaEndpoint e = Ok e') as Hend.
  { intros [] raw old e Ho; [by intros [= <-]|]. destruct (validateQuotaEndpoint raw) eqn:E; [|done]. intros [= <-].
    destruct (endpoint_valid _ _ E) as [-> | ->]; eexists; vm_compute; reflexivity. }
  cbv beta delta [ConfigFromSettings]. intros H. into. fresh_config H; [by apply Hnorm|]. into. fresh_config H; [by destruct (String.eqb _ "")|].
  checked. do 2 (pass; kept H). checked. kept H.
  skip endpoint Ev. apply Hend in Ev; [|exact H]. change (endpoint_known (DefaultConfig <| QuotaEndpoint := endpoint |>)) in Ev. clear H. rename Ev into H. kept H.
  do 6 (pass; kept H). into. fresh_config H; [by destruct (sp_RetryAlways p)|]. kept H. checked. kept H.
  do 4 (pass; kept H). pass. intros [= <-]. split; [apply NormalizeConfig_wf|by apply Hnorm].
Qed.

Section saves.
Context `{MapRange} (globalRefresher : bool).

Lemma saveSettings_serves w p env : data_ok w -> serves true w (saveSettingsPayload w p env).
Proof.
  intros Hok. pose proof (data_config _ Hok) as [Hc He]. pose proof (data_annotations _ Hok) as Ha. unfold saveSettingsPayload. cbv zeta.
  destruct (ConfigFromSettings _ p) as [cfg|e] eqn:E; [|by apply serves_refused]. destruct (page_endpoint _ _ _ He E) as [Hwf Hend].
  apply (serves_save w _ env (fun w0 : ManagementWorld => let w1 := w0 <| mw_Store := ReplaceConfig (mw_Store w0) cfg |> <| mw_Config := cfg |> in
    if bool_decide (ProbeOnProvisionalRoster cfg = ProbeOnProvisionalRoster (st_cfg (mw_Store w))) then w1 else call w1 (CallRiskChanged (ProbeOnProvisionalRoster cfg)))); [done|].
  intros d. cbv zeta. split_and!; [|by case_bool_decide|case_bool_decide; cbn; by rewrite (NormalizeConfig_id _ Hwf)].
  trans (mkDiskState cfg (ann_Accounts (st_annotations (mw_Store w))) (ann_Groups (st_annotations (mw_Store w)))).
  - unfold liveData, diskStateFromStore. case_bool_decide; cbn; by rewrite (NormalizeConfig_id _ Hwf).
  - rewrite <- Ha at 1 2. symmetry. exact (parts_normalized cfg (st_annotations (mw_Store w)) Hwf Hend).
Qed.
Lemma handlePutSettings_serves w req env : data_ok w -> serves true w (handlePutSettings w req env).
Proof.
  intros Hok. unfold handlePutSettings. destruct (Unmarshal _ _ _); [|by apply serves_refused]. apply serves_logged, saveSettings_serves, Hok.
Qed.

Lemma handleImportState_serves w body env : data_ok w -> serves true w (handleImportState w body env).
Proof.
  intros Hok. unfold handleImportState. cbv zeta. destruct (String.eqb _ ""); [by apply serves_refused|].
  destruct (Unmarshal _ _ _) as [state|]; [|by apply serves_refused]. destruct (validateQuotaEndpoint _); [|by apply serves_refused].
  set (x := normalizePluginDiskState state). pose proof (normalized_normalize state : normalized x) as Hx. pose proof (normalized_parts _ Hx) as [[Hc _] _].
  apply (serves_save w x env (fun w0 : ManagementWorld =>
    log (w0 <| mw_Store := SetAnnotations (ReplaceConfig (mw_Store w0) (ds_Config x)) (mkAnnotations (ds_Accounts x) (ds_Groups x)) |> <| mw_Config := ds_Config x |>)
      "ui.config_imported" "页面导入插件配置" ∅ env)); [done|].
  intros d. cbv zeta. split_and!; [|done|cbn; by rewrite (NormalizeConfig_id _ Hc)].
  rewrite (normalized_eq _ Hx). exact (installed_data (mw_Store w) x Hx).
Qed.

Lemma commit_serves w st env : data_ok w -> serves true w (commitAnnotations w st env).
Proof.
  intros Hok. pose proof (data_config _ Hok) as [Hc He]. unfold commitAnnotations, persistAnnotationState. cbv zeta.
  apply (serves_save w _ env (fun w0 : ManagementWorld => w0 <| mw_Store := SetAnnotations (mw_Store w0) (NormalizeAnnotationState st) |>)); [done|].
  intros d. cbv zeta. split_and!; [|done|exact (do_routed _ Hok)]. symmetry. exact (parts_normalized _ (NormalizeAnnotationState st) Hc He).
Qed.
Lemma applyAccount_serves w p env : data_ok w -> serves true w (applyAccountAnnotationPatch w p env).
Proof.
  intros Hok. unfold applyAccountAnnotationPatch. destruct (String.eqb _ ""); [by apply serves_refused|].
  destruct (patchedAccounts _ _); [by apply commit_serves|by apply serves_refused].
Qed.
Lemma applyGroup_serves w p env : data_ok w -> serves true w (applyGroupAnnotationPatch w p env).
Proof.
  intros Hok. unfold applyGroupAnnotationPatch. destruct (String.eqb _ ""); [by apply serves_refused|].
  destruct (patchedGroups _ _); [by apply commit_serves|by apply serves_refused].
Qed.
Lemma annotations_serve w req env : data_ok w ->
  serves true w (handlePutAnnotations w req env) /\ serves true w (handlePatchAccountAnnotation w req env) /\ serves true w (handlePatchGroupAnnotation w req env).
Proof.
  intros Hok. unfold handlePutAnnotations, handlePatchAccountAnnotation, handlePatchGroupAnnotation.
  split_and!; (destruct (Unmarshal _ _ _) as [p|]; [|by apply serves_refused]);
    [by apply commit_serves|by apply serves_logged, applyAccount_serves|by apply serves_logged, applyGroup_serves].
Qed.

Lemma refreshes_serve w req env : data_ok w ->
  serves false w (handleRefresh globalRefresher w env) /\ serves false w (handleRefreshAccountRequest globalRefresher w req env).
Proof.
  intros Hok. unfold handleRefresh, handleRefreshAccountRequest, refreshGlobalRefresherSoon, refreshGlobalRefresherOneSoon.
  split; [destruct globalRefresher; by apply serves_read|]. destruct (refreshAccountOf req); [|by apply serves_refused].
  destruct (String.eqb _ ""); [by apply serves_refused|]. destruct (IsAuthAdmitted _ _); [|by apply serves_refused].
  cbn [negb]. destruct globalRefresher; by apply serves_read.
Qed.

(** The resolver is the refresher's: it leaves the user's data alone. *)
Definition resolver_ok (cx : request_context) : Prop :=
  forall resolve, cx_Resolve cx = Some resolve -> forall authID action s, st_cfg (resolve authID action s).1 = st_cfg s /\ st_annotations (resolve authID action s).1 = st_annotations s.
Lemma resolution_serves w req cx env : data_ok w -> resolver_ok cx -> serves false w (handleCredentialResolution w req (cx_Resolve cx) env).
Proof.
  intros Hok Hres. unfold handleCredentialResolution. destruct (cx_Resolve cx) as [resolve|] eqn:E; [|by apply serves_refused].
  destruct (Unmarshal _ _ _) as [p|]; [|by apply serves_refused]. destruct (resolutionAction _) as [a|]; [|by apply serves_refused].
  destruct (String.eqb _ ""); [by apply serves_refused|]. pose proof (Hres _ E (ap_AuthID p) a (mw_Store w)) as [H1 H2].
  destruct (resolve _ _ _) as [s err]. cbn [fst] in H1, H2.
  destruct err; apply serves_read; try done; unfold liveData, diskStateFromStore; cbn; by rewrite H1, H2.
Qed.

Context (redactSecrets : string -> string).
Lemma request_serves w req cx env : data_ok w -> resolver_ok cx ->
  serves (savesData req) w (handleManagementRequest redactSecrets globalRefresher w req cx env).
Proof.
  intros Hok Hres. unfold handleManagementRequest, savesData. cbv zeta. set (m := UpperText (mq_Method req)). set (p := normalizeManagementPath (mq_Path req)).
  destruct (isResourcePath (mq_Path req)) eqn:Er.
  { unfold resourceRouteAllowed. destruct (String.eqb m "GET" && String.eqb p "/status"); [|by apply serves_refused]. by apply serves_read. }
  cbn [andb negb]. pose proof (annotations_serve w req env Hok) as (A1 & A2 & A3). pose proof (refreshes_serve w req env Hok) as [R1 R2].
  pose proof (handlePutSettings_serves w req env Hok) as A4. pose proof (handleImportState_serves w (mq_Body req) env Hok) as A5.
  pose proof (resolution_serves w req cx env Hok Hres) as R3.
  repeat match goal with
  | |- context [if String.eqb m ?a && String.eqb p ?b then _ else _] =>
      destruct (String.eqb m a && String.eqb p b) eqn:?;
      [match goal with E : _ = true |- _ => apply andb_true_iff in E as [->%String.eqb_eq ->%String.eqb_eq] end; first [assumption | by apply serves_read]|]
  end.
  by apply serves_refused.
Qed.
End saves.

(** C19: A change of the user's data is in the file before it is in memory. While the
    data in memory are in normal form, whatever the request and whatever becomes of
    its file replacements: they stay in normal form, and requests are routed by them;
    a request that is refused or fails changes nothing of them; a request that
    changes them and succeeds leaves a file that a restart reads back as exactly the
    data in memory; and no other request touches them or the files. *)
Theorem management_saves_before_live `{MapRange} (redactSecrets : string -> string) (globalRefresher : bool)
    (w : ManagementWorld) (req : ManagementRequest) (cx : request_context) (env : request_env) :
  data_ok w -> resolver_ok cx ->
  let '(w', resp) := handleManagementRequest redactSecrets globalRefresher w req cx env in
  data_ok w'
  /\ (succeeded resp = false -> liveData w' = liveData w)
  /\ (if savesData req then succeeded resp = true -> forall io, (loadUserData (mw_Disk w') io).2 = Ok (liveData w', true)
      else liveData w' = liveData w /\ mw_Disk w' = mw_Disk w)
  /\ (mw_Disk w' = mw_Disk w \/ succeeded resp = true \/ mr_StatusCode resp = 500).
Proof.
  intros Hok Hres. pose proof (request_serves globalRefresher redactSecrets w req cx env Hok Hres) as [H1 H2 H3 H4 H5].
  destruct (handleManagementRequest _ _ _ _ _ _) as [w' resp]. cbn [fst snd] in *. split_and!; [done|done| |done].
  destruct (savesData req); [|by apply H4]. intros Es io. unfold loadUserData.
  by rewrite (load_current _ (liveData w') io (H3 eq_refl Es) (do_normal _ H1)).
Qed.

Section resolution.
Context `{mr : MapRange} (Sum256 : string -> string).

(** The resolver of a refresher: [Publish.ResolveCredentialAmbiguity] on its parts. *)
Definition refresherResolver (refresher : PublishWorld) (roster : ActiveRoster) (env : resolve_env) (authID : string) (action : CredentialResolutionAction) (s : PluginState)
  : PluginState * option publish_error :=
  let '(w, err) := ResolveCredentialAmbiguity Sum256 (refresher <| pb_state := s |>) roster authID action env in (pb_state w, err).

Definition data_kept (s s' : PluginState) : Prop := st_cfg s' = st_cfg s /\ st_annotations s' = st_annotations s.
Lemma clear_kept s authID : data_kept s (ClearAccountAuthFailure s authID).1.
Proof. unfold ClearAccountAuthFailure. repeat case_match; done. Qed.
Lemma unpark_kept w authID now : data_kept (pb_state w) (pb_state (unparkAfterExternalLogin w authID now)).
Proof.
  unfold unparkAfterExternalLogin. destruct (String.eqb _ _); [done|]. pose proof (clear_kept (pb_state w) authID) as H.
  destruct (ClearAccountAuthFailure _ _) as [s []]; [exact H|done].
Qed.
Lemma data_kept_trans a b c : data_kept a b -> data_kept b c -> data_kept a c.
Proof. intros [H1 H2] [H3 H4]. split; by etrans. Qed.
Lemma confirm_kept w authID binding external env : (forall w, data_kept (pb_state w) (pb_state (rs_during env w))) ->
  data_kept (pb_state w) (pb_state (confirmCredential Sum256 w authID binding external env).1).
Proof.
  intros Hd. unfold confirmCredential. cbv zeta. set (w1 := if external then _ else w).
  assert (data_kept (pb_state w) (pb_state (rs_during env w1))) as H1.
  { eapply data_kept_trans; [|apply Hd]. by destruct external. }
  assert (forall w2, pb_state w2 = pb_state (rs_during env w1) -> data_kept (pb_state w) (pb_state w2)) as Hk by (by intros w2 ->).
  clear Hd. generalize dependent (rs_during env w1). clear w1. intros w1 H1 Hk.
  destruct (if rs_get env then _ else _) as [observed|]; [|apply Hk; by destruct external].
  destruct (ValidHashes _ _); cbn [negb]; [|apply Hk; by destruct external].
  destruct (pb_bindings w1 !! authID) as [current|]; [|apply Hk; by destruct external].
  destruct (sameBinding _ _); cbn [negb]; [|apply Hk; by destruct external].
  destruct (UpdateMirrored _ _ _ _ _) as [s [committed|e]]; [|apply Hk; by destruct external].
  destruct external; [|by apply Hk]. cbn [fst]. eapply data_kept_trans; [|apply unpark_kept]. by apply Hk.
Qed.
Lemma snapshotStore_kept w io : pb_state (snapshotStore w io).1 = pb_state w.
Proof. unfold snapshotStore. by destruct (PersistentSnapshot _ _). Qed.
Lemma reload_kept w io : pb_state (reloadCredentialMirrors w io).1 = pb_state w.
Proof. unfold reloadCredentialMirrors. pose proof (snapshotStore_kept w io). by destruct (snapshotStore w io) as [? []]. Qed.

(** The refresher leaves the user's data alone, as long as what runs beside it does. *)
Lemma refresherResolver_kept refresher roster env authID action s : (forall w, data_kept (pb_state w) (pb_state (rs_during env w))) ->
  data_kept s (refresherResolver refresher roster env authID action s).1.
Proof.
  intros Hd. unfold refresherResolver, ResolveCredentialAmbiguity. set (w := refresher <| pb_state := s |>). change s with (pb_state w). generalize w. clear w s. intros w.
  destruct (rosterContainsAuthID roster authID); cbn [negb]; [|done]. cbn [negb]. destruct (pb_bindings w !! authID) as [b|]; [|done].
  destruct (_ || _); [done|]. pose proof (snapshotStore_kept w (rs_snapshot env)) as Hs.
  destruct (snapshotStore w (rs_snapshot env)) as [w1 [st|e]]; cbn [fst] in Hs; [|by rewrite <- Hs]. rewrite <- Hs. clear w Hs.
  destruct (ps_CredentialChains st !! _) as [chain|]; [|done]. destruct (credentialChainUnresolved chain); [|done]. cbn [negb].
  destruct action.
  - pose proof (confirm_kept w1 authID b false env Hd). by destruct (confirmCredential _ _ _ _ _ _).
  - pose proof (confirm_kept w1 authID b true env Hd). by destruct (confirmCredential _ _ _ _ _ _).
  - destruct (ReconcileUnresolved _ _ _ _ _) as [m [report [e|]]]; [done|]. destruct (cr_Ambiguous report); [done|].
    match goal with |- context [reloadCredentialMirrors ?x ?io] => pose proof (reload_kept x io) as Hr; destruct (reloadCredentialMirrors x io) as [w2 err] end.
    cbn [fst] in Hr. by rewrite Hr.
Qed.
End resolution.

(** ** Examples *)

Definition exampleResolver : request_context :=
  mkContext NewTrialRegistry (mkStats 0 0 0 0 0 []) None
  (Some (refresherResolver example_hash exampleResolveWorld exampleActive (exampleResolveEnv store_fine))).

Lemma exampleWorld_ok : data_ok exampleWorld.
Proof. split; vm_compute; reflexivity. Qed.
Lemma exampleResolver_ok : resolver_ok exampleResolver.
Proof. intros resolve [= <-] authID action s. apply (refresherResolver_kept example_hash). done. Qed.

Lemma management_saves_before_live_witness :
  let req := exampleRequest "PATCH" "/annotations/account" "{'key':'auth:a','alias':'first'}" in
  let '(w', resp) := handleManagementRequest id true exampleWorld req exampleResolver exampleEnv in
  savesData req = true /\ succeeded resp = true /\ an_Alias <$> ann_Accounts (st_annotations (mw_Store w')) !! "auth:a" = Some "first"
  /\ data_ok w' /\ forall io, (loadUserData (mw_Disk w') io).2 = Ok (liveData w', true).
Proof.
  cbv zeta. set (req := exampleRequest _ _ _).
  assert (savesData req = true) as Er by (vm_compute; reflexivity).
  pose proof (management_saves_before_live id true exampleWorld req exampleResolver exampleEnv exampleWorld_ok exampleResolver_ok) as H.
  rewrite Er in H.
  assert (succeeded (handleManagementRequest id true exampleWorld req exampleResolver exampleEnv).2 = true) as Es by (vm_compute; reflexivity).
  assert (an_Alias <$> ann_Accounts (st_annotations (mw_Store (handleManagementRequest id true exampleWorld req exampleResolver exampleEnv).1)) !! "auth:a" = Some "first")
    as Ea by (vm_compute; reflexivity).
  destruct (handleManagementRequest id true exampleWorld req exampleResolver exampleEnv) as [w' resp]. cbn [fst snd] in Es, Ea.
  destruct H as (H1 & _ & H2 & _). split_and!; [done|done|done|done|]. exact (H2 Es).
Defined.

(** The page pins an account by its auth ID; an account that has an instance and no
    ChatGPT account ID is looked up by its instance, so the pin has no effect. *)
Example page_pin_unused :
  let req := exampleRequest "PATCH" "/annotations/account" "{'auth_id':'a','scheduler_priority':999}" in
  let '(w', resp) := handleManagementRequest id true exampleWorld req exampleContext exampleEnv in
  let pinned := fun account => an_SchedulerPriority (a_Annotation (applyAnnotation (st_annotations (mw_Store w')) account)) in
  let account := emptyAccount <| a_AuthID := "a" |> <| a_Instance := 7 |> in
  mr_StatusCode resp = 200 /\ pinned account = 0 /\ pinned (account <| a_ChatGPTAccountID := "c" |>) = 999.
Proof. vm_compute. repeat split. Qed.

(** An import may switch the probing of provisional rosters without the call that the
    settings page makes. *)
Example import_skips_risk_change :
  let probing := negb (ProbeOnProvisionalRoster DefaultConfig) in
  let imported := exampleRequest "POST" "/import"
    ("{'config':{'QuotaEndpoint':'https://chatgpt.com/backend-api/wham/usage','QuotaRefreshInterval':60000000000,'ProbeOnProvisionalRoster':" +:+ (if probing then "true" else "false") +:+ "}}") in
  let w1 := (handleManagementRequest id true exampleWorld imported exampleContext exampleEnv).1 in
  let w2 := (saveSettingsPayload exampleWorld (SettingsFromConfig (DefaultConfig <| ProbeOnProvisionalRoster := probing |>)) exampleEnv).1 in
  ProbeOnProvisionalRoster (mw_Config w1) = probing /\ mw_Calls w1 = []
  /\ ProbeOnProvisionalRoster (mw_Config w2) = probing /\ mw_Calls w2 = [CallRiskChanged probing].
Proof. vm_compute. repeat split. Qed.

(** An import accepts a monthly mode that the page then refuses to save. *)
Example imported_mode_blocks_page :
  let imported := exampleRequest "POST" "/import" "{'config':{'QuotaEndpoint':'https://chatgpt.com/backend-api/wham/usage','QuotaRefreshInterval':60000000000,'MonthlyMode':'weekly'}}" in
  let '(w', resp) := handleManagementRequest id true exampleWorld imported exampleContext exampleEnv in
  mr_StatusCode resp = 200 /\ MonthlyMode (mw_Config w') = "weekly"
  /\ (saveSettingsPayload w' (SettingsFromConfig (st_cfg (mw_Store w'))) exampleEnv).2 = failure 400 (MgmtSettings BadMonthlyMode).
Proof. vm_compute. repeat split. Qed.

(** Two account patches that both read the annotations before either saves: both
    succeed and the first one is lost, in memory and in the file. *)
Example concurrent_patches_lose_one :
  let first := mkPatch "auth:a" "" "" (Some "first") None None None None None None None in
  let second := mkPatch "auth:b" "" "" (Some "second") None None None None None None None in
  let read := st_annotations (mw_Store exampleWorld) in
  exists state1 state2, patchedAccounts read first = Some state1 /\ patchedAccounts read second = Some state2
  /\ let '(w1, resp1) := commitAnnotations exampleWorld state1 exampleEnv in
     let '(w2, resp2) := commitAnnotations w1 state2 exampleEnv in
     succeeded resp1 = true /\ succeeded resp2 = true
     /\ an_Alias <$> ann_Accounts (st_annotations (mw_Store w1)) !! "auth:a" = Some "first"
     /\ ann_Accounts (st_annotations (mw_Store w2)) !! "auth:a" = None
     /\ (match ud_primary (mw_Disk w2) with UserData _ st => ds_Accounts st !! "auth:a" | _ => None end) = None.
Proof. eexists _, _. split; [reflexivity|]. split; [reflexivity|]. vm_compute. repeat split. Qed.
