(* ===== verification/PickActivity.v ===== *)
(** * The pick-activity pump (pick_activity.go, the decision log of dispatch.go)

    A pick must not wait, so what follows it is handed to two goroutines: the
    newest pick wakes the roster and the refresher through a one-element slot and
    a wake-up channel of one element, and every decision is recorded through a
    bounded queue.  Each atomic operation of the callers and of the goroutines is
    one step. *)

From S2P Require Import Prelude GoStrings Float64 Config Models Selection Availability Scheduler State Durations Sizes Settings Status Rfc3339.
#[local] Open Scope string_scope.
#[local] Open Scope list_scope.
#[local] Open Scope Z_scope.
#[local] Open Scope go_scope.

(** ** The log of a decision *)

Definition queueStatusText (s : QueueStatus) : string :=
  match s with
  | QueueStatusNone => "" | QueueStatusAvailable => "available" | QueueStatusFiveHourExhausted => "five_hour_exhausted"
  | QueueStatusLongWindowExhausted => "long_window_exhausted" | QueueStatusUnavailable => "unavailable"
  end.
Fixpoint findScheduledAccount (accounts : list ScheduledAccount) (authID : string) : option ScheduledAccount :=
  match accounts with
  | [] => None
  | account :: accounts => if String.eqb (sa_AuthID account) authID then Some account else findScheduledAccount accounts authID
  end.
Definition unavailableSummary (accounts : list ScheduledAccount) : string :=
  match accounts with
  | [] => "no ordered candidates"
  | _ =>
      String.concat "; " ((fun account =>
        let reason := sa_UnavailableReason account in
        let reason := if String.eqb reason "" && sa_Available account then "available" else reason in
        let reason := if String.eqb reason "" then queueStatusText (sa_QueueStatus account) else reason in
        sa_AuthID account +:+ ":" +:+ queueStatusText (sa_QueueStatus account) +:+ ":" +:+ reason) <$> accounts)
  end.
Definition logSchedulerDecision (store : PluginState) (model : string) (req : SchedulerPickRequest) (decision : PickDecision) (clock now : Time) : PluginState :=
  let fields : gmap string any_value :=
    {[ "model" := AnyString model; "provider" := AnyString (req_Provider req); "reason" := AnyString (pd_Reason decision);
       "ordered_count" := AnyInt (Z.of_nat (length (pd_Ordered decision))) ]} in
  let '(event, message, fields) :=
    if negb (String.eqb (pd_AuthID decision) "") then
      let fields := <["auth_id" := AnyString (pd_AuthID decision)]> fields in
      ("scheduler.selected", "请求已由插件接管",
       match findScheduledAccount (pd_Ordered decision) (pd_AuthID decision) with
       | None => fields
       | Some selected =>
           <["selected_queue_status" := AnyString (queueStatusText (sa_QueueStatus selected))]>
           (<["selected_sort_time" := AnyString (FormatRFC3339 (sa_SortTime selected))]>
           (<["selected_cpa_priority" := AnyInt (sa_CPAPriority selected)]>
           (<["selected_scheduler_priority" := AnyInt (sa_SchedulerPriority selected)]> fields)))
       end)
    else if negb (String.eqb (pd_DelegateBuiltin decision) "") then
      let summary := if String.eqb (pd_UnavailableSummary decision) "" then unavailableSummary (pd_Ordered decision) else pd_UnavailableSummary decision in
      ("scheduler.fallback", "插件触发内置调度 fallback", <["unavailable_summary" := AnyString summary]> (<["fallback" := AnyString (pd_DelegateBuiltin decision)]> fields))
    else if pd_Handled decision then ("scheduler.handled", "插件已处理但未选择账号", fields)
    else ("scheduler.unhandled", "请求未由插件接管", fields) in
  RecordLog store "info" event message fields clock now.

(** ** The pump *)

Record pickActivityIntent := mkActivity { pi_Request : SchedulerPickRequest; pi_Version : Z; pi_Now : Time }.
Record pickObservationIntent := mkObservation { po_Model : string; po_Request : SchedulerPickRequest; po_Decision : PickDecision; po_Now : Time }.

(** A caller between two atomic operations of [enqueue] or [enqueueObservation]: it
    found the pump running, or it has stored its intent and will wake the loop. *)
Inductive caller := CallerChecked (intent : pickActivityIntent) | CallerStored | CallerObserves (intent : pickObservationIntent).

(** Where the loop of [run] is: waiting, emptying the slot, with an intent before and
    after the roster was woken, after the context was found alive, returned. *)
Inductive run_phase := RunWaiting | RunEmptying | RunTaken (intent : pickActivityIntent) | RunWoken (intent : pickActivityIntent)
  | RunServing (intent : pickActivityIntent) | RunReturned.

Record pickActivityPump := mkPump {
  pp_latest : option pickActivityIntent;
  pp_wake : bool;
  pp_observations : list pickObservationIntent;
  pp_observationDrops : Z;
  pp_stopped : bool;
  pp_cancelled : bool;
  pp_run : run_phase;
  pp_observing : bool;
  pp_state : PluginState;
  pp_callers : list caller;
  (* what happened: the intents stored, those given to [OnSchedulerPick], those observed *)
  pp_stored : list pickActivityIntent;
  pp_served : list pickActivityIntent;
  pp_queued : list pickObservationIntent;
  pp_observed : list pickObservationIntent;
}.
#[export] Instance pickActivityPump_eta : Eta pickActivityPump := fun r => mkPump (pp_latest r) (pp_wake r) (pp_observations r) (pp_observationDrops r) (pp_stopped r)
  (pp_cancelled r) (pp_run r) (pp_observing r) (pp_state r) (pp_callers r) (pp_stored r) (pp_served r) (pp_queued r) (pp_observed r).

Definition observationCapacity : Z := 256.
Definition newPickActivityPump (state : PluginState) : pickActivityPump :=
  mkPump None false [] 0 false false RunWaiting true state [] [] [] [] [].

Definition enqueue (p : pickActivityPump) (intent : pickActivityIntent) : pickActivityPump :=
  if pp_stopped p then p else p <| pp_callers := CallerChecked intent :: pp_callers p |>.
Definition enqueueObservation (p : pickActivityPump) (intent : pickObservationIntent) : pickActivityPump :=
  if pp_stopped p then p else p <| pp_callers := CallerObserves intent :: pp_callers p |>.

(** The next operation of a caller that is taken out of the list. *)
Definition callerStep (p : pickActivityPump) (c : caller) : pickActivityPump :=
  match c with
  | CallerChecked intent => p <| pp_latest := Some intent |> <| pp_stored := pp_stored p ++ [intent] |> <| pp_callers := CallerStored :: pp_callers p |>
  | CallerStored => p <| pp_wake := true |>
  | CallerObserves intent =>
      if Z.of_nat (length (pp_observations p)) <? observationCapacity
      then p <| pp_observations := pp_observations p ++ [intent] |> <| pp_queued := pp_queued p ++ [intent] |>
      else p <| pp_observationDrops := u64 (pp_observationDrops p + 1) |>
  end.

(** One step of [run]; a loop that waits does not step. A cancelled context and a
    wake-up are taken in either order. *)
Definition runStep (p : pickActivityPump) (preferDone : bool) : option pickActivityPump :=
  match pp_run p with
  | RunWaiting =>
      if pp_cancelled p && (preferDone || negb (pp_wake p)) then Some (p <| pp_run := RunReturned |>)
      else if pp_wake p then Some (p <| pp_wake := false |> <| pp_run := RunEmptying |>)
      else None
  | RunEmptying =>
      Some (match pp_latest p with
            | None => p <| pp_run := RunWaiting |>
            | Some intent => p <| pp_latest := None |> <| pp_run := RunTaken intent |>
            end)
  | RunTaken intent => Some (p <| pp_run := RunWoken intent |>)
  | RunWoken intent => Some (p <| pp_run := if pp_cancelled p then RunReturned else RunServing intent |>)
  | RunServing intent => Some (p <| pp_served := pp_served p ++ [intent] |> <| pp_run := RunEmptying |>)
  | RunReturned => None
  end.

Definition observe (s : PluginState) (intent : pickObservationIntent) (clock : Time) : PluginState :=
  let s := RecordCodexActivity s clock (po_Now intent) in
  let s := if String.eqb (pd_AuthID (po_Decision intent)) "" then s else RecordSelection s (pd_AuthID (po_Decision intent)) (pd_Reason (po_Decision intent)) in
  logSchedulerDecision s (po_Model intent) (po_Request intent) (po_Decision intent) clock (po_Now intent).
(** One step of [runObservations]. *)
Definition observationStep (p : pickActivityPump) (preferDone : bool) (clock : Time) : option pickActivityPump :=
  if negb (pp_observing p) then None
  else match pp_observations p with
       | [] => if pp_cancelled p then Some (p <| pp_observing := false |>) else None
       | intent :: rest =>
           if pp_cancelled p && preferDone then Some (p <| pp_observing := false |>)
           else Some (p <| pp_observations := rest |> <| pp_state := observe (pp_state p) intent clock |> <| pp_observed := pp_observed p ++ [intent] |>)
       end.

(** The two operations of [stop]. *)
Definition stopFlag (p : pickActivityPump) : pickActivityPump := p <| pp_stopped := true |>.
Definition stopContext (p : pickActivityPump) : pickActivityPump := if pp_stopped p then p <| pp_cancelled := true |> else p.

(** A step of the pump by itself: of a caller that is under way, or of a loop. *)
Inductive internal_step : pickActivityPump -> pickActivityPump -> Prop :=
  | step_caller p before c after : pp_callers p = before ++ c :: after -> internal_step p (callerStep (p <| pp_callers := before ++ after |>) c)
  | step_run p preferDone p' : runStep p preferDone = Some p' -> internal_step p p'
  | step_observe p preferDone clock p' : observationStep p preferDone clock = Some p' -> internal_step p p'.
(** A step of the program: a call, a stop, or a change of the state elsewhere. *)
Inductive pump_step : pickActivityPump -> pickActivityPump -> Prop :=
  | step_internal p p' : internal_step p p' -> pump_step p p'
  | step_enqueue p intent : pump_step p (enqueue p intent)
  | step_enqueueObservation p intent : pump_step p (enqueueObservation p intent)
  | step_stop p : pump_step p (stopFlag p)
  | step_cancel p : pump_step p (stopContext p)
  | step_state p s : pump_step p (p <| pp_state := s |>).

(** ** What the pump keeps *)

Definition inHand (r : run_phase) : list pickActivityIntent :=
  match r with RunTaken i | RunWoken i | RunServing i => [i] | _ => [] end.
Definition slot (p : pickActivityPump) : list pickActivityIntent := match pp_latest p with Some i => [i] | None => [] end.
(** An intent in the slot, and the loop will look at it. *)
Definition announced (p : pickActivityPump) : Prop :=
  pp_latest p = None \/ pp_run p <> RunWaiting \/ pp_wake p = true \/ CallerStored ∈ pp_callers p.

Record pump_ok (p : pickActivityPump) : Prop := {
  ok_sublist : pp_served p ++ inHand (pp_run p) ++ slot p `sublist_of` pp_stored p;
  ok_queue : pp_queued p = pp_observed p ++ pp_observations p;
  ok_capacity : Z.of_nat (length (pp_observations p)) <= observationCapacity;
  ok_last : pp_cancelled p = false -> last (pp_served p ++ inHand (pp_run p) ++ slot p) = last (pp_stored p);
  ok_running : pp_cancelled p = false -> pp_run p <> RunReturned /\ pp_observing p = true /\ announced p;
}.

Lemma new_pump_ok s : pump_ok (newPickActivityPump s).
Proof. split; cbn; try done. intros _. split_and!; [done|done|by left]. Qed.

Lemma callerStep_ok p before c after : pump_ok p -> pp_callers p = before ++ c :: after -> pump_ok (callerStep (p <| pp_callers := before ++ after |>) c).
Proof.
  intros [H1 H2 H3 H4 H5] Ec. destruct c as [i| |i]; unfold callerStep; cbn [pp_callers].
  - assert (pp_served p ++ inHand (pp_run p) `sublist_of` pp_stored p) as Hs.
    { etrans; [|exact H1]. rewrite (assoc_L app). by apply sublist_inserts_r. }
    split; cbn; try done.
    + rewrite (assoc_L app). by apply sublist_app.
    + intros _. by rewrite (assoc_L app), !last_snoc.
    + intros Hc. destruct (H5 Hc) as (? & ? & _). split_and!; [done|done|]. right. right. right. cbn. by left.
  - split; cbn; try done. intros Hc. destruct (H5 Hc) as (? & ? & _). split_and!; [done|done|]. right. right. by left.
  - assert (announced p -> announced (p <| pp_callers := before ++ after |>)) as Ha.
    { unfold announced. cbn. rewrite Ec. intros [?|[?|[?|Hin]]]; [by left|by right; left|by right; right; left|].
      right. right. right. apply elem_of_app. apply elem_of_app in Hin as [?|[?|?]%elem_of_cons]; [by left|done|by right]. }
    destruct (Z.ltb_spec (Z.of_nat (length (pp_observations p))) observationCapacity); cbn [pp_observations].
    + replace (Z.of_nat _ <? _) with true by (symmetry; by apply Z.ltb_lt). split; cbn; try done.
      * by rewrite H2, <- (assoc_L app).
      * rewrite length_app. cbn. lia.
      * intros Hc. destruct (H5 Hc) as (? & ? & ?). split_and!; [done|done|by apply Ha].
    + replace (Z.of_nat _ <? _) with false by (symmetry; by apply Z.ltb_ge). split; cbn; try done.
      intros Hc. destruct (H5 Hc) as (? & ? & ?). split_and!; [done|done|by apply Ha].
Qed.

Lemma runStep_ok p pd p' : pump_ok p -> runStep p pd = Some p' -> pump_ok p'.
Proof.
  intros [H1 H2 H3 H4 H5]. unfold runStep, slot, announced in *. destruct (pp_run p) as [| |i|i|i|] eqn:Er; cbn [inHand] in *.
  - destruct (pp_cancelled p) eqn:Ec; cbn [andb].
    + destruct (pd || negb (pp_wake p)); [|destruct (pp_wake p); [|done]]; intros [= <-]; split; unfold slot, announced; cbn; rewrite ?Ec; done.
    + destruct (pp_wake p); [|done]. intros [= <-]. destruct (H5 eq_refl) as (_ & ? & _).
      split; unfold slot, announced; cbn; rewrite ?Ec; try done. intros _. split_and!; [done|done|]. by right; left.
  - destruct (pp_latest p) as [i|] eqn:El; intros [= <-]; split; unfold slot, announced; cbn; rewrite ?El; try done.
    + intros Hc. destruct (H5 Hc) as (_ & ? & _). split_and!; [done|done|]. by left.
    + intros Hc. destruct (H5 Hc) as (_ & ? & _). split_and!; [done|done|]. by left.
  - intros [= <-]. split; unfold slot, announced; cbn; try done. intros Hc. destruct (H5 Hc) as (_ & ? & _). split_and!; [done|done|]. by right; left.
  - intros [= <-]. destruct (pp_cancelled p) eqn:Ec; split; unfold slot, announced; cbn; rewrite ?Ec; try done.
    + etrans; [|exact H1]. apply sublist_app; [done|]. by apply sublist_cons.
    + intros _. destruct (H5 eq_refl) as (_ & ? & _). split_and!; [done|done|]. by right; left.
  - intros [= <-]. split; unfold slot, announced; cbn; rewrite <- ?(assoc_L app); try done.
    intros Hc. destruct (H5 Hc) as (_ & ? & _). split_and!; [done|done|]. by right; left.
  - done.
Qed.
Lemma observationStep_ok p pd clock p' : pump_ok p -> observationStep p pd clock = Some p' -> pump_ok p'.
Proof.
  intros [H1 H2 H3 H4 H5]. unfold observationStep. destruct (pp_observing p) eqn:Eo; [cbn [negb]|done].
  destruct (pp_observations p) as [|o rest] eqn:El; destruct (pp_cancelled p) eqn:Ec; cbn [andb]; try done.
  - intros [= <-]. split; unfold slot, announced; cbn; rewrite ?El, ?Ec; done.
  - destruct pd; intros [= <-]; split; unfold slot, announced; cbn; rewrite ?El, ?Ec; try done; [by rewrite H2, <- (assoc_L app)|cbn in H3; lia].
  - intros [= <-]. split; unfold slot, announced; cbn; rewrite ?El, ?Ec; try done; [by rewrite H2, <- (assoc_L app)|cbn in H3; lia|].
    intros _. by destruct (H5 eq_refl) as (? & _ & ?).
Qed.
Lemma internal_step_ok p p' : pump_ok p -> internal_step p p' -> pump_ok p' /\ pp_cancelled p' = pp_cancelled p.
Proof.
  intros H Hs. revert H. destruct Hs as [p0 before c after Ec|p0 pd p1 E|p0 pd clock p1 E]; intros H.
  - split; [by apply callerStep_ok|]. destruct c as [| |o]; [done|done|]. unfold callerStep. by destruct (_ <? _).
  - split; [by eapply runStep_ok|]. unfold runStep in E. repeat case_match; by simplify_eq.
  - split; [by eapply observationStep_ok|]. unfold observationStep in E. repeat case_match; by simplify_eq.
Qed.

Lemma announced_more p c : announced p -> announced (p <| pp_callers := c :: pp_callers p |>).
Proof. unfold announced. cbn. intros [?|[?|[?|?]]]; [by left|by right; left|by right; right; left|]. right. right. right. by right. Qed.
Lemma pump_step_ok p p' : pump_ok p -> pump_step p p' -> pump_ok p'.
Proof.
  intros H Hs. revert H. destruct Hs as [p0 p1 Hi|p0 i|p0 o|p0|p0|p0 s]; intros H.
  - by eapply internal_step_ok.
  - unfold enqueue. destruct (pp_stopped p0); [done|]. destruct H as [H1 H2 H3 H4 H5]. split; try done.
    intros Hc. destruct (H5 Hc) as (? & ? & ?). split_and!; [done|done|by apply announced_more].
  - unfold enqueueObservation. destruct (pp_stopped p0); [done|]. destruct H as [H1 H2 H3 H4 H5]. split; try done.
    intros Hc. destruct (H5 Hc) as (? & ? & ?). split_and!; [done|done|by apply announced_more].
  - by destruct H.
  - unfold stopContext. destruct (pp_stopped p0); [|done]. destruct H. by split.
  - by destruct H.
Qed.
Lemma reachable_pump_ok s p : rtc pump_step (newPickActivityPump s) p -> pump_ok p.
Proof.
  intros Hr. pose proof (new_pump_ok s) as H. revert H. induction Hr as [|p0 p1 p2 Hs _ IH]; [done|]. intros H. by eapply IH, pump_step_ok.
Qed.

(** ** The pump comes to rest *)

Definition callerWork (c : caller) : nat := match c with CallerChecked _ => 8 | CallerStored => 3 | CallerObserves _ => 2 end.
Definition runWork (r : run_phase) : nat :=
  match r with RunWaiting | RunReturned => 0 | RunEmptying => 1 | RunServing _ => 2 | RunWoken _ => 3 | RunTaken _ => 4 end.
(** A bound on the steps the pump can still make by itself. *)
Definition pumpWork (p : pickActivityPump) : nat :=
  sum_list (callerWork <$> pp_callers p) + runWork (pp_run p) + (if pp_latest p then 4 else 0) + (if pp_wake p then 2 else 0) + length (pp_observations p).

Lemma callers_work before c after : sum_list (callerWork <$> before ++ c :: after) = (callerWork c + sum_list (callerWork <$> before ++ after))%nat.
Proof. induction before as [|x before IH]; cbn; [done|]. cbn in IH. rewrite IH. lia. Qed.
Lemma internal_step_work p p' : pp_cancelled p = false -> internal_step p p' -> (pumpWork p' < pumpWork p)%nat.
Proof.
  intros Hc Hs. revert Hc. destruct Hs as [p0 before c after Ec|p0 pd p1 E|p0 pd clock p1 E]; intros Hc; unfold pumpWork.
  - rewrite Ec, callers_work. unfold callerStep. destruct c as [i| |o]; [cbn; case_match; lia|cbn; case_match; lia|].
    destruct (_ <? _); cbn; rewrite ?length_app; cbn; lia.
  - revert E. unfold runStep. rewrite Hc. cbn [andb]. destruct (pp_run p0); [destruct (pp_wake p0) eqn:Ew|destruct (pp_latest p0) eqn:El|..]; try done;
      intros [= <-]; cbn; rewrite ?Hc, ?El, ?Ew; cbn; lia.
  - revert E. unfold observationStep. rewrite Hc. cbn [andb]. destruct (pp_observing p0), (pp_observations p0) eqn:Eo; try done; intros [= <-]; cbn; lia.
Qed.

(** At rest nothing is left to do. *)
Lemma resting p : pump_ok p -> pp_cancelled p = false -> (forall p', ~ internal_step p p') ->
  pp_run p = RunWaiting /\ pp_latest p = None /\ pp_observations p = [].
Proof.
  intros [_ _ _ _ Hr] Hc Hno. destruct (Hr Hc) as (Hrun & Hobs & Ha).
  assert (pp_callers p = []) as Ecs.
  { destruct (pp_callers p) as [|c l] eqn:E; [done|]. destruct (Hno (callerStep (p <| pp_callers := [] ++ l |>) c)). by apply step_caller. }
  assert (forall pd, runStep p pd = None) as Hrs by (intros pd; destruct (runStep p pd) eqn:E; [destruct (Hno _ (step_run _ _ _ E))|done]).
  specialize (Hrs false). unfold runStep in Hrs. rewrite Hc in Hrs. cbn [andb] in Hrs.
  destruct (pp_run p) eqn:Er; try done. destruct (pp_wake p) eqn:Ew; [done|]. split; [done|].
  split; [|destruct (pp_observations p) as [|o l] eqn:E; [done|]].
  - unfold announced in Ha. rewrite Er, Ew, Ecs in Ha. destruct Ha as [?|[?|[?|Hin]]]; [done|done|done|by apply not_elem_of_nil in Hin].
  - destruct (observationStep p false 0) as [p'|] eqn:Eo; [destruct (Hno _ (step_observe _ _ _ _ Eo))|].
    unfold observationStep in Eo. by rewrite Hobs, E, Hc in Eo.
Qed.

(** C22: No pick is forgotten by the pump. In every reachable state that is not
    cancelled: what was given to the refresher is a part of the picks stored, in
    their order; the pump comes to rest by itself within a bound, whichever of its
    callers and loops steps next; and at rest the pick stored last is the one given
    to the refresher last, and every queued decision has been recorded in order. *)
Theorem latest_pick_served (state : PluginState) (p : pickActivityPump) :
  rtc pump_step (newPickActivityPump state) p -> pp_cancelled p = false ->
  (forall n p', nsteps internal_step n p p' -> (n <= pumpWork p)%nat)
  /\ (forall p', rtc internal_step p p' ->
        pp_served p' `sublist_of` pp_stored p'
        /\ ((forall p'', ~ internal_step p' p'') -> last (pp_served p') = last (pp_stored p') /\ pp_observed p' = pp_queued p')).
Proof.
  intros Hr Hc. pose proof (reachable_pump_ok _ _ Hr) as Hok. clear Hr. split.
  - intros n. revert p Hok Hc. induction n as [|n IH]; intros p Hok Hc p'; [lia|].
    intros Hns. inversion Hns as [|? ? p1 ? Hs Hn]; subst. destruct (internal_step_ok _ _ Hok Hs) as [Hok1 Hc1]. rewrite Hc in Hc1.
    pose proof (internal_step_work _ _ Hc Hs). pose proof (IH p1 Hok1 Hc1 _ Hn). lia.
  - intros p' Hi. assert (pump_ok p' /\ pp_cancelled p' = false) as [Hok' Hc'].
    { revert Hok Hc. induction Hi as [|p p1 p2 Hs _ IH]; [done|]. intros Hok Hc. destruct (internal_step_ok _ _ Hok Hs) as [H1 H2]. rewrite Hc in H2. by apply IH. }
    split; [etrans; [|exact (ok_sublist _ Hok')]; by apply sublist_inserts_r|]. intros Hno.
    destruct (resting _ Hok' Hc' Hno) as (Er & El & Eo). pose proof (ok_last _ Hok' Hc') as H. unfold slot in H. rewrite Er, El in H. cbn in H.
    rewrite !app_nil_r in H. split; [done|]. by rewrite (ok_queue _ Hok'), Eo, app_nil_r.
Qed.

Definition examplePick (version : Z) : pickActivityIntent := mkActivity (mkPickRequest "codex" [] []) version 100.
(** Two picks at the same time; the second one is stored last. *)
Definition examplePump : pickActivityPump :=
  let p := enqueue (enqueue (newPickActivityPump exampleStore) (examplePick 1)) (examplePick 2) in
  let p := callerStep (p <| pp_callers := [CallerChecked (examplePick 2)] |>) (CallerChecked (examplePick 1)) in
  callerStep (p <| pp_callers := [CallerStored] |>) (CallerChecked (examplePick 2)).

Lemma latest_pick_served_witness :
  rtc pump_step (newPickActivityPump exampleStore) examplePump /\ pp_stored examplePump = [examplePick 1; examplePick 2]
  /\ (forall n p', nsteps internal_step n examplePump p' -> (n <= 10)%nat)
  /\ forall p', rtc internal_step examplePump p' -> (forall p'', ~ internal_step p' p'') -> last (pp_served p') = last (pp_stored p').
Proof.
  assert (rtc pump_step (newPickActivityPump exampleStore) examplePump) as Hr.
  { set (p1 := enqueue (newPickActivityPump exampleStore) (examplePick 1)). set (p2 := enqueue p1 (examplePick 2)).
    set (p3 := callerStep (p2 <| pp_callers := [CallerChecked (examplePick 2)] |>) (CallerChecked (examplePick 1))).
    apply (rtc_l _ _ p1); [apply step_enqueue|]. apply (rtc_l _ _ p2); [apply step_enqueue|].
    apply (rtc_l _ _ p3); [apply step_internal, (step_caller p2 [CallerChecked (examplePick 2)] _ []); reflexivity|].
    apply (rtc_l _ _ examplePump); [apply step_internal, (step_caller p3 [CallerStored] _ []); reflexivity|]. apply rtc_refl. }
  destruct (latest_pick_served exampleStore examplePump Hr eq_refl) as [H1 H2].
  split; [exact Hr|]. split; [reflexivity|]. split; [exact H1|]. intros p' Hi Hno. exact (proj1 (proj2 (H2 p' Hi) Hno)).
Defined.

(** A full queue drops the decision and counts it. *)
Example full_queue_drops :
  let observation := mkObservation "m" (mkPickRequest "codex" [] []) (declined "none") 100 in
  let full := (newPickActivityPump exampleStore) <| pp_observations := repeat observation 256 |> in
  let p := callerStep full (CallerObserves observation) in
  length (pp_observations p) = 256%nat /\ pp_observationDrops p = 1.
Proof. vm_compute. repeat split. Qed.
