(* ===== verification/HostAdapter.v ===== *)
(** * The host adapter (main.go, runtime_host_adapter.go)

    How answers of the host become values of the program: the envelope of a callback,
    the roster of [host.auth.list], and the auth files that the credential log reads
    and writes for an account instance. The transport of the bytes through the C ABI
    is outside the model; a call is a code and a text. *)

From S2P Require Import Prelude GoStrings Float64 Json Text RetryChain Config Models Capability Roster StateStore Identity Managed Quota CredentialWAL Bindings RetryRuntime Auth Settings UserData Decode.
#[local] Open Scope string_scope.
#[local] Open Scope list_scope.
#[local] Open Scope Z_scope.
#[local] Open Scope go_scope.

#[local] Notation "p <~ dec" := (fun v r => match dec v (p r) with Some x => Some (r <| p := x |>) | None => None end) (at level 70).

(** ** Envelopes *)

Record abiErrorBody := mkErrorBody { ae_Code : string; ae_Message : string; ae_HTTPStatus : Z }.
#[local] Instance abiErrorBody_eta : Eta abiErrorBody := fun r => mkErrorBody (ae_Code r) (ae_Message r) (ae_HTTPStatus r).
Definition noErrorBody : abiErrorBody := mkErrorBody "" "" 0.
Record abiErrorEnvelope := mkEnvelope { env_OK : bool; env_Result : option json; env_Error : option abiErrorBody }.
#[local] Instance abiErrorEnvelope_eta : Eta abiErrorEnvelope := fun r => mkEnvelope (env_OK r) (env_Result r) (env_Error r).
Definition noEnvelope : abiErrorEnvelope := mkEnvelope false None None.

Definition fieldsOfError : table abiErrorBody := [("code", ae_Code <~ decString); ("message", ae_Message <~ decString)].
Definition fieldsOfStatusError : table abiErrorBody := fieldsOfError ++ [("http_status", ae_HTTPStatus <~ decInt)].
Definition fieldsOfEnvelope (errors : table abiErrorBody) : table abiErrorEnvelope :=
  [("ok", env_OK <~ decBool); ("result", env_Result <~ decRaw); ("error", env_Error <~ decPtr noErrorBody (decStruct errors))].

Inductive callback_error :=
  | CallbackNoResponse (code : Z) | CallbackUndecodable | CallbackRefused (code message : string) | CallbackFailed | CallbackCode (code : Z)
  | CallbackStatus (e : host_error).

(** [hostCallRaw]: an empty answer is an error. *)
Definition hostCallRaw (answer : string * Z) : result callback_error (string * Z) :=
  if String.eqb answer.1 "" then Err (CallbackNoResponse answer.2) else Ok answer.
Definition callHostCallbackABI (answer : string * Z) : result callback_error (option json) :=
  let! call := hostCallRaw answer in
  match Unmarshal (fieldsOfEnvelope fieldsOfError) noEnvelope call.1 with
  | None => Err CallbackUndecodable
  | Some env =>
      if negb (env_OK env) then Err (match env_Error env with Some e => CallbackRefused (ae_Code e) (ae_Message e) | None => CallbackFailed end)
      else if negb (call.2 =? 0) then Err (CallbackCode call.2)
      else Ok (env_Result env)
  end.
Definition callHostCallbackStatus (method : string) (answer : string * Z) : result callback_error (option json) :=
  let! call := hostCallRaw answer in
  match Unmarshal (fieldsOfEnvelope fieldsOfStatusError) noEnvelope call.1 with
  | None => Err CallbackUndecodable
  | Some env =>
      if negb (env_OK env) then
        Err (CallbackStatus (match env_Error env with
                             | Some e => hostCallError (TrimSpace (ae_Code e)) (TrimSpace (ae_Message e)) (ae_HTTPStatus e)
                             | None => hostCallError "host_call_failed" ("host callback " +:+ method +:+ " failed") call.2
                             end))
      else if negb (call.2 =? 0) then Err (CallbackCode call.2)
      else Ok (env_Result env)
  end.

(** ** The roster *)

Record listedFile := mkListed { lf_ID : string; lf_AuthIndex : string; lf_Provider : string; lf_Priority : option Z }.
#[local] Instance listedFile_eta : Eta listedFile := fun r => mkListed (lf_ID r) (lf_AuthIndex r) (lf_Provider r) (lf_Priority r).
Definition fieldsOfFile : table listedFile :=
  [("id", lf_ID <~ decString); ("auth_index", lf_AuthIndex <~ decString); ("provider", lf_Provider <~ decString); ("priority", lf_Priority <~ decPtr 0 decInt)].
Record listedFiles := mkListing { ls_Files : list listedFile }.
#[local] Instance listedFiles_eta : Eta listedFiles := fun r => mkListing (ls_Files r).
Definition fieldsOfListing : table listedFiles := [("files", ls_Files <~ decList (mkListed "" "" "" None) (decStruct fieldsOfFile))].

Definition codexFile (file : listedFile) : bool := EqualFold (TrimSpace (lf_Provider file)) "codex".
(** [ABIHostAuthLister.ListHostAuths] on the answer of the callback. *)
Definition ListHostAuths (answer : result callback_error (option json)) : result callback_error (list RosterEntry) :=
  match answer with
  | Err e => Err e
  | Ok None => Err CallbackUndecodable
  | Ok (Some v) =>
      match decStruct fieldsOfListing v (mkListing []) with
      | None => Err CallbackUndecodable
      | Some listing =>
          Ok ((fun file => mkEntry (lf_ID file) (lf_AuthIndex file) "codex" (Some (default 0 (lf_Priority file)))) <$> filter (fun file => codexFile file = true) (ls_Files listing))
      end
  end.

(** ** Auth files of instances *)

Section credentials.
Context `{mr : MapRange} (Sum256 : string -> string) (canonicalJSON : string -> option string) (order : fields -> fields).

Record rosterCredentialHost := mkCredentialHost { rh_bindings : option (gmap string RuntimeBinding); rh_roster : HostRosterSnapshot }.

Definition boundInstance (h : rosterCredentialHost) (instance : AuthInstanceID) : option RuntimeBinding :=
  rh_bindings h ≫= fun bindings => List.find (fun b => rb_Instance b =? instance) (map_range bindings).*2.
Definition entryOf (entries : list RosterEntry) (instance : AuthInstanceID) : option RosterEntry :=
  List.find (fun e => legacyAuthInstanceID (re_ID e) =? instance) entries.
(** The auth index that is read for an instance: of the roster before the bindings. *)
Definition indexFor (h : rosterCredentialHost) (instance : AuthInstanceID) : option string :=
  match entryOf (hr_Entries (rh_roster h)) instance with
  | Some entry => Some (re_AuthIndex entry)
  | None => rb_AuthIndex <$> boundInstance h instance
  end.

Inductive adapter_error := AdapterUnbound | AdapterHost (e : callback_error) | AdapterCredentials | AdapterReadOnly | AdapterJSON.

(** The host answers with a name and a text for an auth index. *)
Definition readAuth (host : string -> result callback_error (string * string)) (index : string) : result adapter_error HostAuth :=
  match host index with
  | Err e => Err (AdapterHost e)
  | Ok (name, raw) =>
      match ExtractCodexCredentials order raw with
      | None => Err AdapterCredentials
      | Some c => Ok (mkHostAuth name raw (NewCredentialFingerprint Sum256 canonicalJSON (cc_ChatGPTAccountID c) (cc_RefreshToken c) index))
      end
  end.
Definition GetAuth (h : rosterCredentialHost) (host : string -> result callback_error (string * string)) (instance : AuthInstanceID) : result adapter_error HostAuth :=
  match indexFor h instance with None => Err AdapterUnbound | Some index => readAuth host index end.
Definition bootstrapGetAuth (host : string -> result callback_error (string * string)) (instance : AuthInstanceID) (roster : HostRosterSnapshot) : result adapter_error HostAuth :=
  match entryOf (hr_Entries roster) instance with None => Err AdapterUnbound | Some entry => readAuth host (re_AuthIndex entry) end.
(** The name and the text that are written, or the error. *)
Definition SaveAuth (h : rosterCredentialHost) (instance : AuthInstanceID) (auth : HostAuth) : result adapter_error (string * string) :=
  match boundInstance h instance with
  | None => Err AdapterUnbound
  | Some b =>
      if String.eqb (ha_Raw auth) "" || bool_decide (parse (ha_Raw auth) = None) then Err AdapterJSON
      else Ok (if String.eqb (rb_AuthName b) "" then rb_AuthIndex b else rb_AuthName b, ha_Raw auth)
  end.
End credentials.

(** ** Properties *)

Definition detected (answer : result callback_error (option json)) (now : Time) : HostRosterSnapshot :=
  DetectHostRoster (Some (match ListHostAuths answer with Ok entries => Ok entries | Err _ => Err "" end)) now.
(** The roster is authoritative exactly when the host listed a codex file; then it
    holds the codex files in their order, each with a priority, 0 where none is given. *)
Theorem listed_roster_detected (v : json) (listing : listedFiles) (now : Time) :
  decStruct fieldsOfListing v (mkListing []) = Some listing ->
  let codex := filter (fun file => codexFile file = true) (ls_Files listing) in
  (hr_Capability (detected (Ok (Some v)) now) = CapabilityA <-> codex <> [])
  /\ (fun e => (re_ID e, re_AuthIndex e, re_Provider e, re_Priority e)) <$> hr_Entries (detected (Ok (Some v)) now)
     = (fun file => (lf_ID file, lf_AuthIndex file, "codex", Some (default 0 (lf_Priority file)))) <$> codex.
Proof.
  intros E codex. unfold detected, ListHostAuths. rewrite E. fold codex. unfold DetectHostRoster.
  destruct codex as [|f l]; [by split; [split|]|]. rewrite bool_decide_false by done.
  assert (existsb (fun e => bool_decide (re_Priority e = None)) ((fun file => mkEntry (lf_ID file) (lf_AuthIndex file) "codex" (Some (default 0 (lf_Priority file)))) <$> f :: l) = false) as ->.
  { induction (f :: l) as [|g l' IH]; [done|]. cbn. by rewrite IH. }
  split; [by split|]. cbn [hr_Entries set_field]. by rewrite <- list_fmap_compose.
Qed.

(** Where an instance has one binding, which one is found does not depend on the
    order of the map. *)
Theorem bound_instance_exact `{mr : MapRange} (bindings : gmap string RuntimeBinding) (roster : HostRosterSnapshot) (instance : AuthInstanceID) (b : RuntimeBinding) :
  (forall id1 id2 b1 b2, bindings !! id1 = Some b1 -> bindings !! id2 = Some b2 -> rb_Instance b1 = rb_Instance b2 -> b1 = b2) ->
  boundInstance (mkCredentialHost (Some bindings) roster) instance = Some b <-> exists id, bindings !! id = Some b /\ rb_Instance b = instance.
Proof.
  intros Hu. unfold boundInstance. cbn. split.
  - intros [Hin Hi]%find_some. apply Z.eqb_eq in Hi. apply list_elem_of_In, list_elem_of_fmap in Hin as ([id b'] & -> & Hin). apply elem_of_map_range in Hin. by exists id.
  - intros (id & Hb & Hi). destruct (List.find _ _) as [b'|] eqn:E.
    + apply find_some in E as [Hin Hi']. apply Z.eqb_eq in Hi'. apply list_elem_of_In, list_elem_of_fmap in Hin as ([id' b2] & -> & Hin). apply elem_of_map_range in Hin.
      f_equal. apply (Hu id' id); [done|done|]. cbn [snd fst] in *. congruence.
    + assert (b ∈ (map_range bindings).*2) as Hin by (apply list_elem_of_fmap; exists (id, b); split; [done|by apply elem_of_map_range]).
      apply list_elem_of_In in Hin. apply (find_none _ _ E) in Hin. apply Z.eqb_neq in Hin. done.
Qed.

Example listed :
  hr_Entries (detected (callHostCallbackABI (js "{'ok':true,'result':{'files':[{'id':'a','auth_index':'1','provider':' Codex '},{'id':'b','provider':'other','priority':3},{'id':'c','provider':'codex','priority':5}]}}", 0)) 100)
  = [mkEntry "a" "1" "codex" (Some 0); mkEntry "c" "" "codex" (Some 5)]
  /\ callHostCallbackStatus "m" (js "{'ok':false,'error':{'code':'rate','message':'slow','http_status':429}}", 1) = Err (CallbackStatus (hostCallError "rate" "slow" 429))
  /\ callHostCallbackABI ("", 2) = Err (CallbackNoResponse 2).
Proof. vm_compute. repeat split. Qed.
