(* ===== verification/Dispatch.v ===== *)
(** * The plugin's entry points (dispatch.go, quota_provider.go, publication)

    What a call of the host does to the plugin as a whole: registration loads the
    user's data and publishes a snapshot for the picks, a usage record feeds the
    account table and the trials, an evidence intent starts a refresh, a quota
    query reads the cache.  Goroutines that a call starts are recorded as calls. *)

From S2P Require Import ProbeSequence Prelude GoStrings Float64 Json Text RetryChain Config Models Circuit Trial Selection Capability Availability Scheduler SchedulerSnapshot Annotations State Roster StateStore Quota Managed Usage Durations Sizes Settings UserData Status Decode Management Rfc3339.
#[local] Open Scope string_scope.
#[local] Open Scope list_scope.
#[local] Open Scope Z_scope.
#[local] Open Scope go_scope.

(** ** Publication (scheduler_snapshot.go) *)

Section publication.
Context `{MapRange}.

(** [PublishSchedulerSnapshot] stores a copy of the value. *)
Definition publishSchedulerState (state : PluginState) (trials : TrialRegistry) (pump : bool) (active : option (gset string)) (now : Time) : Published :=
  let s := Snapshot state now in
  let s := match active with Some ids => s <| ss_CPAAdmission := emptyAdmission <| adm_Observed := true |> <| adm_AuthIDs := ids |> |> | None => s end in
  let p := schedulerSnapshotFromState s (Some trials) pump in
  mkPublished ((pub_snapshot p) <| sn_AdmissionVersion := st_cpaAdmissionVersion state |>) (pub_hasActivity p) (pub_hasObservation p).

(** ** The plugin *)

Inductive plugin_call :=
  | CallStart | CallRefresh | CallRefreshOne (authID : string) | CallStop | CallStopPump
  | CallActivity | CallManagedDisable (event : QuotaFailureEvent).

(** The globals of dispatch.go: the state, the configuration and the files; the
    registry of trials, the published snapshot, whether there are a pump, a
    refresher and a roster controller; and the calls made to these. *)
Record Plugin := mkPlugin {
  pl_Management : ManagementWorld;
  pl_Trials : TrialRegistry;
  pl_Published : option Published;
  pl_Pump : bool;
  pl_Refresher : bool;
  pl_Controller : bool;
  pl_Calls : list plugin_call;
}.
#[export] Instance Plugin_eta : Eta Plugin := fun r => mkPlugin (pl_Management r) (pl_Trials r) (pl_Published r) (pl_Pump r) (pl_Refresher r) (pl_Controller r) (pl_Calls r).
Definition plugin_state (p : Plugin) : PluginState := mw_Store (pl_Management p).
Definition withState (p : Plugin) (s : PluginState) : Plugin := p <| pl_Management := (pl_Management p) <| mw_Store := s |> |>.
Definition starts (p : Plugin) (c : plugin_call) : Plugin := p <| pl_Calls := pl_Calls p ++ [c] |>.

Definition activeConfig (currentConfig : option Config) : Config := default DefaultConfig currentConfig.

(** ** Registration *)

Section configuration.
Context (sensitive : string -> bool).

(** The part of [configure] that changes the state; the argument is the decoded
    configuration file, or what became of decoding it. *)
Definition configureData (w : ManagementWorld) (raw : option (option rawConfig)) (io : migration_io) : ManagementWorld * bool :=
  match raw with
  | None => (w, false)
  | Some raw =>
      match DecodeConfig raw with
      | Err _ => (w, false)
      | Ok cfg =>
          let '(disk, res) := loadUserDataWithMigration sensitive (mw_Disk w) io in
          let data := match res with
                      | Ok (data, true) => data
                      | _ => mkDiskState cfg ∅ ∅
                      end in
          (w <| mw_Disk := disk |> <| mw_Config := ds_Config data |>
             <| mw_Store := SetAnnotations (ReplaceConfig (mw_Store w) (ds_Config data)) (mkAnnotations (ds_Accounts data) (ds_Groups data)) |>, true)
      end
  end.
Definition configure (p : Plugin) (raw : option (option rawConfig)) (io : migration_io) (now : Time) : Plugin * bool :=
  let '(w, ok) := configureData (pl_Management p) raw io in
  if ok then (p <| pl_Management := w |> <| pl_Published := Some (publishSchedulerState (mw_Store w) (pl_Trials p) (pl_Pump p) None now) |>, true)
  else (p, false).
Definition startGlobalRefresher (p : Plugin) : Plugin :=
  if pl_Refresher p then let p := starts p CallStart in if RefreshOnStartup (st_cfg (plugin_state p)) then starts p CallRefresh else p else p.
(** The register and reconfigure methods of [handleMethod]. *)
Definition handleRegister (p : Plugin) (raw : option (option rawConfig)) (io : migration_io) (now : Time) : Plugin * bool :=
  let '(p, ok) := configure p raw io now in (if ok then startGlobalRefresher p else p, ok).
End configuration.

(** ** Evidence *)

Definition consumeEvidenceIntent (p : Plugin) (intent : EvidenceIntent) : Plugin :=
  let p := p <| pl_Trials := MarkEvidencePending (pl_Trials p) (ei_Instance intent) true |> in
  if pl_Refresher p then starts p (CallRefreshOne (ei_AuthID intent)) else p.

(** ** Usage records *)

Definition viewMatches (record : UsageRecord) (account : AccountView) : bool :=
  if String.eqb (ur_AuthID record) "" && negb (String.eqb (ur_AuthIndex record) "") then String.eqb (v_AuthIndex account) (ur_AuthIndex record)
  else negb (String.eqb (ur_AuthID record) "") && String.eqb (v_ID account) (ur_AuthID record).
Definition evidenceOf (record : UsageRecord) (now : Time) : EvidenceKind :=
  if String.eqb (ur_Provider record) "codex" && negb (ur_Failed record) then EvidenceRequestSuccess
  else match DetectQuotaFailure record now with Some _ => EvidenceUsageFeedback | None => EvidenceUnknown end.
Definition quotaLimitFeedback (record : UsageRecord) (now : Time) : option QuotaFailureEvent :=
  if String.eqb (ur_Provider record) "codex" && negb (ur_Failed record) then None else DetectQuotaFailure record now.
(** The loop over the published accounts. *)
Definition observeTrial (published : Published) (record : UsageRecord) (now : Time) (trials : TrialRegistry) : TrialRegistry :=
  match evidenceOf record now with
  | EvidenceUnknown => trials
  | kind => match List.find (viewMatches record) (sn_Accounts (pub_snapshot published)) with
            | Some account => ObserveEvidence trials (v_Instance account) (mkEvidence kind now)
            | None => trials
            end
  end.

Definition handleUsageHandle (p : Plugin) (record : UsageRecord) (headers : option ParsedQuota) (clock now : Time) : Plugin :=
  let p := if pl_Controller p then starts p CallActivity else p in
  let p := withState p (HandleUsageFeedback (plugin_state p) record headers clock now) in
  let snapshot := pl_Published p in
  let p := match snapshot with Some published => p <| pl_Trials := observeTrial published record now (pl_Trials p) |> | None => p end in
  match quotaLimitFeedback record now with
  | None => p
  | Some event =>
      let p := match snapshot with
               | Some published =>
                   p <| pl_Published := Some (publishSchedulerState (plugin_state p) (pl_Trials p) (pl_Pump p) (Some (sn_ActiveHighestTier (pub_snapshot published))) now) |>
               | None => p
               end in
      if pl_Refresher p then starts p (CallManagedDisable event) else p
  end.

(** ** Picks *)

(** The pick changes the trials and puts an intent into the channel; its callbacks
    are those of the pump. *)
Definition handleSchedulerPick (builtin : string) (fuel : nat) (env : nat -> TrialRegistry -> TrialRegistry) (p : Plugin) (req : SchedulerPickRequest)
    (intents : option EvidenceChan) (now : Time) : option (Plugin * PickOutcome) :=
  (fun out => (p <| pl_Trials := default (pl_Trials p) (po_trials out) |>, out))
  <$> schedulerPickPublished builtin fuel env (pl_Published p) req now (Some (pl_Trials p)) intents.

(** ** Quota queries (quota_provider.go) *)

Record QuotaFetchRequest := mkQuotaFetch { qr_Provider : string; qr_AuthID : string; qr_AuthIndex : string }.
Record QuotaBucket := mkBucket { qb_Window : string; qb_RemainingFraction : float64; qb_ResetTime : string }.
Record QuotaGroup := mkQuotaGroup { qg_DisplayName : string; qg_Buckets : list QuotaBucket }.
Record QuotaFetchResponse := mkQuotaResponse { qp_Plan : option string; qp_Groups : list QuotaGroup }.

Definition windowRemainingFraction (window : option QuotaWindow) : float64 :=
  match window with
  | None => f_zero
  | Some w =>
      match qw_UsedPercent w with
      | None => f_of_Z 1
      | Some used =>
          let fraction := f_div (f_sub hundred used) hundred in
          if f_lt fraction f_zero then f_zero else if f_lt (f_of_Z 1) fraction then f_of_Z 1 else fraction
      end
  end.
Definition quotaGroupFromWindow (displayName windowLabel : string) (window : option QuotaWindow) : list QuotaGroup :=
  match window with
  | None => []
  | Some w => [mkQuotaGroup displayName [mkBucket windowLabel (windowRemainingFraction window) (if IsZero (qw_ResetAt w) then "" else FormatRFC3339 (qw_ResetAt w))]]
  end.
Definition fetchMatches (req : QuotaFetchRequest) (candidate : AccountState) : bool :=
  negb (String.eqb (qr_AuthID req) "") && String.eqb (a_AuthID candidate) (qr_AuthID req)
  || String.eqb (qr_AuthID req) "" && negb (String.eqb (qr_AuthIndex req) "") && String.eqb (a_AuthIndex candidate) (qr_AuthIndex req).
Definition quotaFetchResponseForAuth (store : PluginState) (req : QuotaFetchRequest) (now : Time) : QuotaFetchResponse :=
  if negb (EqualFold (qr_Provider req) "codex") then mkQuotaResponse None []
  else
    match List.find (fetchMatches req) (ss_Accounts (Snapshot store now)) with
    | None => mkQuotaResponse None []
    | Some account =>
        let '(longLabel, longWindow) := match a_Family account with
                                        | AccountFamilyWeekly => ("Weekly window", "7d")
                                        | AccountFamilyMonthly => ("Monthly window", "30d")
                                        | _ => ("Long window", "long")
                                        end in
        mkQuotaResponse (if String.eqb (pq_PlanType (a_Quota account)) "" then None else Some (pq_PlanType (a_Quota account)))
          (quotaGroupFromWindow "5-hour window" "5h" (pq_FiveHour (a_Quota account)) ++ quotaGroupFromWindow longLabel longWindow (pq_LongWindow (a_Quota account)))
    end.

(** ** Quiescence and shutdown *)

Definition handlePluginQuiesce (p : Plugin) (now : Time) : Plugin :=
  let p := if pl_Refresher p then starts p CallStop else p in
  withState p (RecordLog (plugin_state p) "info" "plugin.quiesced" "插件已静默，后台刷新暂停" ∅ now now).
(** [cliproxyPluginShutdown] *)
Definition pluginShutdown (p : Plugin) : Plugin :=
  let p := if pl_Pump p then starts p CallStopPump else p in
  let refresher := pl_Refresher p in
  let p := p <| pl_Pump := false |> <| pl_Refresher := false |> <| pl_Controller := false |> in
  if refresher then starts p CallStop else p.
End publication.

(** ** The user's data across restarts *)

Lemma loaded_normalized d io d' x b : loadUserData d io = (d', Ok (x, b)) -> normalized x.
Proof.
  unfold loadUserData, loadUserDataRecover, readUserData. intros E.
  repeat case_match; simplify_eq; try apply normalized_normalize.
Qed.
Lemma legacy_normalized sensitive f x b : loadStrictLegacyUserData sensitive f = Ok (x, b) -> normalized x.
Proof. unfold loadStrictLegacyUserData. intros E. repeat case_match; simplify_eq; apply normalized_normalize. Qed.
Lemma migrated_normalized sensitive d io d' x b : loadUserDataWithMigration sensitive d io = (d', Ok (x, b)) -> normalized x.
Proof.
  unfold loadUserDataWithMigration. destruct (ud_primary d); [|apply loaded_normalized..].
  destruct (loadStrictLegacyUserData sensitive (ud_legacy d)) as [[legacy []]|] eqn:El; [|intros [= <- <- <-]; by eapply legacy_normalized|done].
  destruct (writeUserDataAtomic _ _ _ _) as [d1 [e|]]; [done|]. destruct (loadUserData _ (mi_reload io)) as [d2 [[verified b2]|e]] eqn:Ev; [|done].
  destruct (mi_verified io); [cbn [negb]|done]. destruct (bool_decide _); [cbn [negb]|done]. destruct (failed _); [done|].
  intros [= <- <- <-]. by eapply loaded_normalized.
Qed.

Lemma decoded_normalized raw cfg : DecodeConfig raw = Ok cfg -> normalized (mkDiskState cfg ∅ ∅).
Proof.
  intros [Hwf Hp]%decoded_page_ok. assert (endpoint_known cfg) as He.
  { destruct (po_endpoint _ Hp) as [E|E]; unfold endpoint_known; rewrite E; eexists; vm_compute; reflexivity. }
  pose proof (parts_normalized cfg (mkAnnotations ∅ ∅) Hwf He) as E. exact E.
Qed.

Section restarts.
Context (sensitive : string -> bool).

Lemma configured_data w raw io w' : configureData sensitive w raw io = (w', true) ->
  data_ok w' /\ (forall x, (loadUserDataWithMigration sensitive (mw_Disk w) io) = (mw_Disk w', Ok (x, true)) -> liveData w' = x).
Proof.
  unfold configureData. destruct raw as [raw|]; [|done]. destruct (DecodeConfig raw) as [cfg|] eqn:Ec; [|done].
  destruct (loadUserDataWithMigration sensitive (mw_Disk w) io) as [disk res] eqn:El. intros [= <-].
  set (data := match res with Ok (data, true) => data | _ => _ end).
  assert (normalized data) as Hd.
  { subst data. destruct res as [[x []]|]; [by eapply migrated_normalized|by eapply decoded_normalized..]. }
  pose proof (installed_data (mw_Store w) data Hd) as Hi. pose proof (normalized_parts _ Hd) as [[Hc _] _]. split.
  - split; [unfold liveData; cbn [mw_Store]; by rewrite Hi|]. symmetry. exact (NormalizeConfig_id _ Hc).
  - intros x E. trans data; [exact Hi|]. subst data. by injection E as ->.
Qed.

Context (redactSecrets : string -> string) `{mr : MapRange} (globalRefresher : bool).
#[local] Notation handle := (handleManagementRequest redactSecrets globalRefresher).

(** The plugin since a registration: management requests, and whatever else changes
    the account table. *)
Inductive registered : ManagementWorld -> Prop :=
  | registered_configure w raw io w' : configureData sensitive w raw io = (w', true) -> registered w'
  | registered_request w req cx env : registered w -> resolver_ok cx -> registered (handle w req cx env).1
  | registered_state w s : registered w -> data_kept (mw_Store w) s -> registered (w <| mw_Store := s |>).
(** What may follow a change: requests whose saves do not fail, and changes of the
    account table. *)
Inductive later (w : ManagementWorld) : ManagementWorld -> Prop :=
  | later_none : later w w
  | later_request w1 req cx env : later w w1 -> resolver_ok cx -> mr_StatusCode (handle w1 req cx env).2 <> 500 -> later w (handle w1 req cx env).1
  | later_state w1 s : later w w1 -> data_kept (mw_Store w1) s -> later w (w1 <| mw_Store := s |>).

Lemma kept_live w s : data_kept (mw_Store w) s -> liveData (w <| mw_Store := s |>) = liveData w.
Proof. intros [E1 E2]. unfold liveData, diskStateFromStore. cbn. by rewrite E1, E2. Qed.
Lemma kept_ok w s : data_ok w -> data_kept (mw_Store w) s -> data_ok (w <| mw_Store := s |>).
Proof. intros [Hn Hr] Hk. split; [by rewrite (kept_live _ _ Hk)|]. destruct Hk as [E _]. cbn. by rewrite E. Qed.
Lemma registered_ok w : registered w -> data_ok w.
Proof.
  induction 1 as [w raw io w' E|w req cx env _ IH Hr|w s _ IH Hk]; [by eapply configured_data| |by apply kept_ok].
  by eapply se_ok, request_serves.
Qed.

(** The file holds what is in memory. *)
Definition in_file (w : ManagementWorld) : Prop := data_ok w /\ ud_primary (mw_Disk w) = UserData CurrentUserDataSchema (liveData w).
Lemma later_in_file w w1 : in_file w -> later w w1 -> in_file w1.
Proof.
  intros H. induction 1 as [|w1 req cx env _ [IH Hf] Hr Hs|w1 s _ [IH Hf] Hk]; [done| |split; [by apply kept_ok|by rewrite (kept_live _ _ Hk)]].
  pose proof (request_serves globalRefresher redactSecrets w1 req cx env IH Hr) as [H1 H2 H3 H4 H5]. split; [done|].
  destruct (savesData req); [|by destruct (H4 eq_refl) as [-> ->]].
  destruct (succeeded (handle w1 req cx env).2) eqn:E; [by apply H3|]. rewrite (H2 eq_refl). by destruct H5 as [->|[?|?]].
Qed.
Lemma restart_reads w restarted raw io w' : in_file w -> mw_Disk restarted = mw_Disk w -> configureData sensitive restarted raw io = (w', true) ->
  liveData w' = liveData w /\ mw_Disk w' = mw_Disk w.
Proof.
  intros [[Hn _] Hf] Ed E. assert (loadUserDataWithMigration sensitive (mw_Disk restarted) io = (mw_Disk w, Ok (liveData w, true))) as El.
  { unfold loadUserDataWithMigration, loadUserData. rewrite Ed, Hf. by rewrite (load_current _ _ _ Hf Hn). }
  pose proof (proj2 (configured_data _ _ _ _ E)) as H. rewrite El in H.
  assert (mw_Disk w' = mw_Disk w) as Ew.
  { unfold configureData in E. destruct raw as [raw|]; [|done]. destruct (DecodeConfig raw); [|done]. rewrite El in E. by injection E as <-. }
  rewrite Ew in H. split; [by apply H|done].
Qed.

(** C20: An acknowledged change of the settings, the annotations or the whole
    configuration survives a restart. Since any registration, whatever requests and
    changes of the account table came before and, as long as no save fails, after
    it: a new process that finds the files and registers with any configuration file
    has exactly the settings and annotations that were in memory, and leaves the
    files as they are. *)
Theorem changes_survive_restart (w : ManagementWorld) (req : ManagementRequest) (cx : request_context) (env : request_env)
    (w1 restarted w' : ManagementWorld) (raw : option (option rawConfig)) (io : migration_io) :
  registered w -> resolver_ok cx -> savesData req = true -> succeeded (handle w req cx env).2 = true ->
  later (handle w req cx env).1 w1 ->
  mw_Disk restarted = mw_Disk w1 -> configureData sensitive restarted raw io = (w', true) ->
  liveData w' = liveData w1 /\ mw_Disk w' = mw_Disk w1.
Proof.
  intros Hw Hr Hs Hok Hl Ed E. apply (restart_reads w1 restarted raw io w'); [|done|done].
  revert Hl. apply later_in_file. pose proof (request_serves globalRefresher redactSecrets w req cx env (registered_ok _ Hw) Hr) as [H1 _ H3 _ _].
  split; [done|by apply H3].
Qed.
End restarts.

(** ** Usage limits and picks *)

Section limits.
Context `{mr : MapRange}.

(** The account a pick returns was not marked unavailable when it was published. *)
Lemma picked_available fuel env snapshot candidates now skip trials0 trials trials' r :
  pick_loop fuel env snapshot candidates now skip trials (selectAccountSkipping snapshot candidates now skip trials0).2 = Some (trials', r) ->
  sel_AuthID r <> "" -> exists a, a ∈ sn_Accounts snapshot /\ v_ID a = sel_AuthID r /\ v_TemporaryUnavailable a = false.
Proof.
  revert skip trials0 trials. induction fuel as [|fuel IH]; intros skip trials0 trials; cbn [pick_loop]; [done|].
  set (r0 := (selectAccountSkipping snapshot candidates now skip trials0).2).
  assert (sel_AuthID r0 <> "" -> exists a, a ∈ sn_Accounts snapshot /\ v_ID a = sel_AuthID r0 /\ v_TemporaryUnavailable a = false) as H0.
  { intros Hne. destruct (select_result_account snapshot candidates now skip trials0 Hne) as (a & Ha & Hid & _ & _ & _ & Hc & Hx).
    exists a. split_and!; [done|done|]. fold r0 in Hc, Hx. rewrite <- Hc in Hx. destruct (v_TemporaryUnavailable a) eqn:E; [|done]. exfalso. apply Hx.
    unfold ClassifyAccount. assert (v_TemporaryUnavailable (view_now trials0 now a) = true) as -> by (unfold view_now; by destruct trials0). by rewrite orb_true_r. }
  destruct (_ || _); [intros [= <- <-]; exact H0|].
  destruct (match trials with Some _ => _ | None => _ end) as [trials1 [|]]; [intros [= <- <-]; exact H0|].
  pose proof (IH ({[sel_Instance r0]} ∪ skip) trials1) as IH'.
  destruct (selectAccountSkipping snapshot candidates now ({[sel_Instance r0]} ∪ skip) trials1) as [trials2 r2]. exact (IH' trials2).
Qed.

Lemma published_marked s trials pump active now id resetAt :
  keys_canonical s -> id <> "" -> (exists a, st_accounts s !! authKey id = Some a /\ a_TemporaryExhausted a = true /\ a_TemporaryResetAt a = resetAt) ->
  After resetAt now = true ->
  forall v, v ∈ sn_Accounts (pub_snapshot (publishSchedulerState s trials pump active now)) -> v_ID v = id -> v_TemporaryUnavailable v = true.
Proof.
  intros Hk Hne (a & Ha & Hx & Hr) Haf v Hv Hid.
  assert (exists x, x ∈ ss_Accounts (Snapshot s now) /\ v = accountViewFromState x (st_cfg s) now (Some trials)) as (x & Hx' & ->).
  { unfold publishSchedulerState, schedulerSnapshotFromState in Hv. cbn in Hv. apply list_elem_of_fmap in Hv as (x & -> & Hin). exists x. by destruct active. }
  unfold Snapshot in Hx'. cbn [ss_Accounts] in Hx'. apply list_elem_of_fmap in Hx' as (y & -> & Hy).
  rewrite (sort_slice_perm keyLess) in Hy. apply list_elem_of_fmap in Hy as (z & -> & Hz). apply list_elem_of_fmap in Hz as ([key z'] & -> & Hz).
  apply elem_of_map_range in Hz. cbn [snd] in *.
  assert (a_AuthID (applyAnnotation (NormalizeAnnotationState (st_annotations s)) (snapshotAccount (st_cfg s) now z')) = a_AuthID z') as E1
    by (unfold applyAnnotation; by case_match).
  assert (v_TemporaryUnavailable (accountViewFromState (applyAnnotation (NormalizeAnnotationState (st_annotations s)) (snapshotAccount (st_cfg s) now z')) (st_cfg s) now (Some trials))
          = a_TemporaryExhausted z' && After (a_TemporaryResetAt z') now) as ->.
  { unfold accountViewFromState. destruct (accountExhaustion _ now) as [? ?]. unfold applyAnnotation. by case_match. }
  assert (v_ID (accountViewFromState (applyAnnotation (NormalizeAnnotationState (st_annotations s)) (snapshotAccount (st_cfg s) now z')) (st_cfg s) now (Some trials)) = a_AuthID z') as E2
    by (rewrite <- E1; unfold accountViewFromState; by destruct (accountExhaustion _ now)).
  rewrite E2 in Hid. pose proof (Hk _ _ Hz : key = accountStateKey z') as Ekey. rewrite accountStateKey_auth, Hid in Ekey by congruence. subst key.
  rewrite Ha in Hz. injection Hz as <-. by rewrite Hx, Hr, Haf.
Qed.

Lemma marked_state s id resetAt reason level event message fields clock now : keys_canonical s -> id <> "" ->
  let s' := RecordLog (MarkAccountTemporaryExhausted s id resetAt reason) level event message fields clock now in
  keys_canonical s' /\ exists a, st_accounts s' !! authKey id = Some a /\ a_TemporaryExhausted a = true /\ a_TemporaryResetAt a = resetAt.
Proof.
  intros Hk Hne s'. split; [exact (state_apply_canonical s (OpMarkExhausted id resetAt reason) Hk)|].
  subst s'. unfold MarkAccountTemporaryExhausted. rewrite (proj2 (String.eqb_neq _ _) Hne). eexists. cbn. rewrite lookup_insert_eq. by split.
Qed.

(** C21: A usage limit keeps the account out of the picks, when the option
    EnableUsageFeedback is on. When a request of a codex account, reported with a
    non-empty auth ID, ends with a usage limit whose reset lies ahead, a scheduler is
    published and the account table is keyed by its accounts, then, as soon as the
    call that reports it has returned and until the next publication, no pick returns
    that account, whatever the request offers and whatever happens to the trials; and
    the disabling of the account is started where there is a refresher. *)
Theorem usage_limit_stops_picks (p : Plugin) (record : UsageRecord) (headers : option ParsedQuota) (clock now : Time) (event : QuotaFailureEvent)
    (builtin : string) (fuel : nat) (env : nat -> TrialRegistry -> TrialRegistry) (req : SchedulerPickRequest) (intents : option EvidenceChan) (at_ : Time) :
  keys_canonical (plugin_state p) -> EnableUsageFeedback (st_cfg (plugin_state p)) = true -> is_Some (pl_Published p) ->
  DetectQuotaFailure record now = Some event -> qf_AuthID event <> "" -> After (qf_ResetAt event) now = true ->
  let p' := handleUsageHandle p record headers clock now in
  (forall q q' out, pl_Published q = pl_Published p' ->
     handleSchedulerPick builtin fuel env q req intents at_ = Some (q', out) -> pd_AuthID (po_decision out) <> qf_AuthID event)
  /\ (pl_Refresher p = true -> CallManagedDisable event ∈ pl_Calls p').
Proof.
  intros Hk Hen [published Hp] Hd Hne Haf p'.
  assert (quotaLimitFeedback record now = Some event /\ String.eqb (ur_Provider record) "codex" && negb (ur_Failed record) = false) as [Hq Hf].
  { unfold quotaLimitFeedback. pose proof Hd as Hd'. unfold DetectQuotaFailure in Hd'.
    destruct (String.eqb (ur_Provider record) "codex"), (ur_Failed record); cbn [negb orb andb] in Hd' |- *; done. }
  set (s' := HandleUsageFeedback (plugin_state p) record headers clock now).
  assert (keys_canonical s' /\ exists a, st_accounts s' !! authKey (qf_AuthID event) = Some a /\ a_TemporaryExhausted a = true /\ a_TemporaryResetAt a = qf_ResetAt event) as [Hk' Ha].
  { subst s'. unfold HandleUsageFeedback. rewrite Hen, Hf, Hd. cbn [negb]. rewrite (proj2 (String.eqb_neq _ _) Hne). cbn [negb]. by apply marked_state. }
  assert (exists trials, pl_Published p' = Some (publishSchedulerState s' trials (pl_Pump p) (Some (sn_ActiveHighestTier (pub_snapshot published))) now)) as [trials Epub].
  { subst p'. unfold handleUsageHandle. rewrite Hq. destruct (pl_Controller p); cbn; rewrite Hp; cbn; destruct (pl_Refresher p); by exists (observeTrial published record now (pl_Trials p)). }
  split.
  - intros q q' out Eq Ho. unfold handleSchedulerPick in Ho. apply fmap_Some in Ho as (out' & Ho & [= -> ->]). rewrite Eq, Epub in Ho.
    unfold schedulerPickPublished in Ho. revert Ho. destruct (negb (requestIncludesCodex req)); [intros [= <-]; cbn; congruence|].
    destruct (negb (sn_HandleEnabled _)); [intros [= <-]; cbn; congruence|]. cbv zeta. set (snapshot := pub_snapshot _).
    pose proof (fun t1 t' r' => picked_available fuel env snapshot (pickCandidates req) at_ ∅ (Some (pl_Trials q)) t1 t' r') as Hl.
    destruct (selectAccountSkipping _ _ _ _ _) as [trials1 r1]. cbn [snd] in Hl.
    destruct (pick_loop _ _ _ _ _ _ _ _) as [[trials2 r]|] eqn:El; [|done]. specialize (Hl _ _ _ El).
    assert (sel_AuthID r <> qf_AuthID event) as Hr.
    { intros E. rewrite E in Hl. destruct (Hl Hne) as (v & Hin & Hid & Hun).
      assert (v_TemporaryUnavailable v = true) by (apply (published_marked s' trials (pl_Pump p) (Some (sn_ActiveHighestTier (pub_snapshot published))) now (qf_AuthID event) (qf_ResetAt event)); [exact Hk'|exact Hne|exact Ha|exact Haf|exact Hin|exact Hid]). congruence. }
    destruct (String.eqb_spec (sel_AuthID r) "") as [E|_]; cbn [negb andb].
    + intros [= <-]. cbn. destruct (String.eqb _ FallbackFillFirst); cbn; congruence.
    + destruct (bool_decide _); [destruct (trySend _ _)|]; intros [= <-]; cbn; congruence.
  - intros Href. subst p'. unfold handleUsageHandle. rewrite Hq. destruct (pl_Controller p); cbn; rewrite Hp; cbn; rewrite Href; cbn; apply elem_of_app; right; by left.
Qed.
End limits.

(** ** Examples *)

Definition exampleMigration : migration_io := mkMigrationIO user_fine WriteOk WriteOk id user_fine true WriteOk.
Definition exampleConfigured : ManagementWorld := (configureData (fun _ => false) exampleWorld (Some None) exampleMigration).1.
Definition exampleChange : ManagementRequest := exampleRequest "PATCH" "/annotations/account" "{'key':'auth:a','alias':'first'}".
Definition exampleChanged : ManagementWorld := (handleManagementRequest id true exampleConfigured exampleChange exampleContext exampleEnv).1.
Definition exampleRestarted : ManagementWorld := mkManagementWorld (NewPluginState DefaultConfig) DefaultConfig (mw_Disk exampleChanged) [].

Lemma changes_survive_restart_witness :
  let w' := (configureData (fun _ => false) exampleRestarted (Some None) exampleMigration).1 in
  an_Alias <$> ann_Accounts (st_annotations (mw_Store w')) !! "auth:a" = Some "first" /\ liveData w' = liveData exampleChanged /\ mw_Disk w' = mw_Disk exampleChanged.
Proof.
  cbv zeta. split; [vm_compute; reflexivity|].
  apply (changes_survive_restart (fun _ => false) id true exampleConfigured exampleChange exampleContext exampleEnv exampleChanged exampleRestarted _ (Some None) exampleMigration).
  - apply (registered_configure (fun _ => false) id true exampleWorld (Some None) exampleMigration). vm_compute. reflexivity.
  - intros resolve E. discriminate E.
  - vm_compute. reflexivity.
  - vm_compute. reflexivity.
  - apply later_none.
  - reflexivity.
  - rewrite (surjective_pairing (configureData _ _ _ _)). f_equal.
Defined.

Definition examplePlugin : Plugin :=
  mkPlugin exampleWorld NewTrialRegistry (Some (publishSchedulerState exampleStore NewTrialRegistry true (Some {["a"; "b"]}) 100)) true true true [].
Definition exampleLimit : UsageRecord := mkUsage "codex" "a" "" true 429 (js "{'error':{'type':'usage_limit_reached','resets_in_seconds':90}}").
Definition exampleOffer : SchedulerPickRequest := mkPickRequest "codex" [] ((fun id => mkCandidate id "codex" 0) <$> ["a"; "b"]).
Definition examplePicked (p : Plugin) (at_ : Time) : option string :=
  (fun o => pd_AuthID (po_decision o.2)) <$> handleSchedulerPick "fill-first" 5 (fun _ reg => reg) p exampleOffer None at_.

Lemma usage_limit_stops_picks_witness :
  let p' := handleUsageHandle examplePlugin exampleLimit None 100 100 in
  examplePicked examplePlugin 200 = Some "a" /\ examplePicked p' 200 = Some "b"
  /\ forall p'' out, handleSchedulerPick "fill-first" 5 (fun _ reg => reg) p' exampleOffer None 200 = Some (p'', out) -> pd_AuthID (po_decision out) <> "a".
Proof.
  cbv zeta. split; [vm_compute; reflexivity|]. split; [vm_compute; reflexivity|].
  intros p'' out. refine (proj1 (usage_limit_stops_picks examplePlugin exampleLimit None 100 100 (mkFailureEvent "a" "" (100 + 90 * Second) usageLimitReachedReason)
    "fill-first" 5 (fun _ reg => reg) exampleOffer None 200 _ _ _ _ _ _) _ p'' out eq_refl).
  - apply (bool_decide_eq_true_1 _). vm_compute. reflexivity.
  - vm_compute. reflexivity.
  - eexists. reflexivity.
  - vm_compute. reflexivity.
  - discriminate.
  - vm_compute. reflexivity.
Defined.

(** The mark of a published account is as of its publication: an hour after the
    limit was lifted the account is still left out. *)
Example limit_outlasts_its_reset :
  examplePicked ((handleUsageHandle examplePlugin exampleLimit None 100 100) <| pl_Trials := NewTrialRegistry |>) (Hour + 90 * Second) = Some "b"
  /\ examplePicked (examplePlugin <| pl_Published := Some (publishSchedulerState (plugin_state (handleUsageHandle examplePlugin exampleLimit None 100 100)) NewTrialRegistry true
       (Some {["a"; "b"]}) (Hour + 90 * Second)) |>) (Hour + 90 * Second) = Some "a".
Proof. vm_compute. split; reflexivity. Qed.
