(* ===== verification/Headers.v ===== *)
(** * The quota of response headers (stream_observer.go)

    The X-Codex headers that the host attaches to a usage record, as quota windows.
    The headers are a map whose order is a parameter. *)

From S2P Require Import Prelude GoStrings Float64 Json Text Config Models Circuit State Quota Managed Usage Durations Sizes.
#[local] Open Scope string_scope.
#[local] Open Scope list_scope.
#[local] Open Scope Z_scope.
#[local] Open Scope go_scope.

Section headers.
Context `{mr : MapRange}.

Abbreviation http_header := (gmap string (list string)).

(** The first value that is not blank, of the keys equal up to case. *)
Definition headerValue (headers : http_header) (name : string) : string :=
  default "" (TrimSpace <$> List.find (fun value => negb (String.eqb (TrimSpace value) ""))
    (concat ((fun kv => kv.2) <$> filter (fun kv => FoldsTo kv.1 name = true) (map_range headers)))).

Definition positiveFloat (text : string) : option float64 :=
  if String.eqb text "" then None
  else match strconvParseFloat text with Some f => if f_lt f_zero f then Some f else None | None => None end.
Definition quotaWindowFromHeaders (get : string -> string) (prefix : string) (limited : bool) (now : Time) : option QuotaWindow :=
  let usedText := get (prefix +:+ "-Used-Percent") in
  if String.eqb usedText "" then None
  else
    match strconvParseFloat usedText with
    | None => None
    | Some used =>
        if f_lt used f_zero || f_lt (f_of_Z 100) used then None
        else
          let seconds := (fun minutes => int64_of (f_mul minutes (f_of_Z 60))) <$> positiveFloat (get (prefix +:+ "-Window-Minutes")) in
          let resetAt := match positiveFloat (get (prefix +:+ "-Reset-At")) with Some unix => unixTime (int64_of unix) | None => zeroTime end in
          let afterText := get (prefix +:+ "-Reset-After-Seconds") in
          let resetAt := if IsZero resetAt && negb (String.eqb afterText "") then
                           match strconvParseFloat afterText with
                           | Some after => if f_le f_zero after then Add now (floatSeconds after) else resetAt
                           | None => resetAt
                           end
                         else resetAt in
          if IsZero resetAt then None
          else Some (mkQuotaWindow "" (Some used) seconds resetAt (limited || f_le (f_of_Z 100) used))
    end.
Definition quotaFromHeaders (get : string -> string) (now : Time) : option ParsedQuota :=
  let limited := String.eqb (get "X-Codex-Allowed") "false" || String.eqb (get "X-Codex-Limit-Reached") "true" in
  let five := quotaWindowFromHeaders get "X-Codex-Primary" limited now in
  let long := quotaWindowFromHeaders get "X-Codex-Secondary" limited now in
  let quota := emptyQuota <| pq_FiveHour := five |> <| pq_LongWindow := long |>
                 <| pq_Family := match long with Some w => familyForWindowMinutes (qw_LimitWindowSeconds w) | None => AccountFamilyNone end |> in
  if bool_decide (five = None) && bool_decide (long = None) then None else Some quota.
Definition codexQuotaFromHeaders (headers : http_header) (now : Time) : option ParsedQuota := quotaFromHeaders (headerValue headers) now.

(** [HandleUsageFeedback] with the headers of the record. *)
Definition usageFeedback (s : PluginState) (record : UsageRecord) (headers : http_header) (clock now : Time) : PluginState :=
  HandleUsageFeedback s record (codexQuotaFromHeaders headers now) clock now.
End headers.

(** ** Properties *)

(** The windows that are read. *)
Record header_window (limited : bool) (w : QuotaWindow) : Prop := {
  hw_reset : IsZero (qw_ResetAt w) = false;
  hw_used : exists used, qw_UsedPercent w = Some used /\ f_lt used f_zero = false /\ f_lt (f_of_Z 100) used = false
            /\ qw_Exhausted w = limited || f_le (f_of_Z 100) used;
}.
Lemma header_window_ok get prefix limited now w : quotaWindowFromHeaders get prefix limited now = Some w -> header_window limited w.
Proof.
  unfold quotaWindowFromHeaders. cbv zeta. destruct (String.eqb _ ""); [done|]. destruct (strconvParseFloat _) as [used|]; [|done].
  destruct (f_lt used f_zero) eqn:E1; [done|]. destruct (f_lt (f_of_Z 100) used) eqn:E2; [done|]. cbn [orb].
  match goal with |- (if IsZero ?r then _ else _) = _ -> _ => destruct (IsZero r) eqn:Er; [done|] end. intros [= <-]. split; [exact Er|]. by exists used.
Qed.

Lemma singleton_perm {A} (l1 l2 : list A) : l1 ≡ₚ l2 -> NoDup l1 -> (forall x y, x ∈ l1 -> y ∈ l1 -> x = y) -> l1 = l2.
Proof.
  intros Hp Hd Ha. destruct l1 as [|x [|y l]].
  - by apply Permutation_nil in Hp.
  - by apply Permutation_singleton_l in Hp.
  - apply NoDup_cons in Hd as [Hx _]. destruct Hx. rewrite (Ha x y); [by left|by left|by right; left].
Qed.
Definition unambiguous (headers : gmap string (list string)) : Prop :=
  forall name k1 k2, is_Some (headers !! k1) -> is_Some (headers !! k2) -> FoldsTo k1 name = true -> FoldsTo k2 name = true -> k1 = k2.
Lemma headerValue_order (mr1 mr2 : MapRange) headers name : unambiguous headers -> @headerValue mr1 headers name = @headerValue mr2 headers name.
Proof.
  intros Hu. unfold headerValue.
  assert (filter (fun kv => FoldsTo kv.1 name = true) (@map_range mr1 _ _ _ _ headers) = filter (fun kv => FoldsTo kv.1 name = true) (@map_range mr2 _ _ _ _ headers)) as ->; [|done].
  apply singleton_perm.
  - by rewrite (@map_range_perm mr1), (@map_range_perm mr2).
  - apply NoDup_filter. rewrite (@map_range_perm mr1). apply NoDup_map_to_list.
  - intros [k1 v1] [k2 v2] [H1 E1]%list_elem_of_filter [H2 E2]%list_elem_of_filter. apply elem_of_map_range in E1, E2. cbn [fst] in *.
    assert (k1 = k2) as -> by (eapply Hu; [by eexists|by eexists|exact H1|exact H2]). congruence.
Qed.

Lemma get_same get1 get2 now : (forall name, get1 name = get2 name) -> quotaFromHeaders get1 now = quotaFromHeaders get2 now.
Proof. intros E. unfold quotaFromHeaders, quotaWindowFromHeaders. rewrite !E. reflexivity. Qed.

(** Where no two keys are equal up to case the order of the map does not matter, and
    every window that is read has a reset time and a percentage that is not outside
    of its range. *)
Theorem header_quota_exact (mr1 mr2 : MapRange) (headers : gmap string (list string)) (now : Time) :
  unambiguous headers ->
  @codexQuotaFromHeaders mr1 headers now = @codexQuotaFromHeaders mr2 headers now
  /\ forall q, @codexQuotaFromHeaders mr1 headers now = Some q ->
       exists limited, (forall w, pq_FiveHour q = Some w -> header_window limited w) /\ (forall w, pq_LongWindow q = Some w -> header_window limited w)
         /\ (pq_FiveHour q <> None \/ pq_LongWindow q <> None).
Proof.
  intros Hu. split.
  - unfold codexQuotaFromHeaders. apply get_same. intros name. exact (headerValue_order mr1 mr2 headers name Hu).
  - intros q. unfold codexQuotaFromHeaders, quotaFromHeaders. generalize (@headerValue mr1 headers). intros get. cbv zeta.
    match goal with |- context [quotaWindowFromHeaders get "X-Codex-Primary" ?l now] => generalize l end. intros limited E. exists limited. revert E.
    pose proof (header_window_ok get "X-Codex-Primary" limited now) as H1. pose proof (header_window_ok get "X-Codex-Secondary" limited now) as H2.
    destruct (quotaWindowFromHeaders get "X-Codex-Primary" limited now) as [five|], (quotaWindowFromHeaders get "X-Codex-Secondary" limited now) as [long|];
      cbn [bool_decide andb]; try done; intros [= <-]; (split; [by intros w [= <-]; apply H1 || done|split; [by intros w [= <-]; apply H2 || done|auto]]).
Qed.

Definition exampleHeaders (percent minutes : string) : gmap string (list string) :=
  {["x-codex-primary-used-percent" := [percent]; "X-Codex-Primary-Window-Minutes" := [""; minutes]; "X-Codex-Primary-Reset-After-Seconds" := ["90"]]}.
Example headers_read :
  (fun q => (qw_UsedPercent <$> pq_FiveHour q, pq_FiveHour q ≫= qw_LimitWindowSeconds, qw_ResetAt <$> pq_FiveHour q)) <$> codexQuotaFromHeaders (exampleHeaders "12.5" "300") Hour
  = Some (Some (Some (f_div (f_of_Z 125) (f_of_Z 10))), Some 18000, Some (Hour + 90 * Second)).
Proof. vm_compute. reflexivity. Qed.
(** The primary window is the five-hour window, whatever its length says. *)
Example weekly_primary_header :
  (fun q => (pq_FiveHour q ≫= qw_LimitWindowSeconds, pq_LongWindow q)) <$> codexQuotaFromHeaders (exampleHeaders "12.5" "10080") Hour = Some (Some 604800, None).
Proof. vm_compute. reflexivity. Qed.
(** A percentage that is not a number passes the range check. *)
Example nan_header_accepted :
  (fun q => qw_UsedPercent <$> pq_FiveHour q) <$> codexQuotaFromHeaders (exampleHeaders "NaN" "300") Hour = Some (Some (Some SpecFloat.S754_nan)).
Proof. vm_compute. reflexivity. Qed.
