(* ===== verification/Redact.v ===== *)
(** * Redaction of secrets (refresh.go)

    The regular expressions of refresh.go that find credentials in a text, the
    redaction that every log text and every answer of an upstream passes through, and
    the test for credentials that the migration of the user's data uses.  A regular
    expression is matched as package regexp does: leftmost, and at one place by the
    priorities of a backtracking search (greedy repetition, alternatives in order).
    Texts are decoded into runes, an invalid byte being one of its own; a rune keeps
    its bytes, which are copied where nothing matches.  Files that only pass texts on
    take the redaction as a parameter. *)

From S2P Require Import Prelude GoStrings Float64 Json Text Refresh.
From Stdlib Require Import Ascii.
#[local] Open Scope string_scope.
#[local] Open Scope list_scope.
#[local] Open Scope Z_scope.
#[local] Open Scope go_scope.

(** ** Runes with their bytes *)

Abbreviation cell := (Z * string)%type (only parsing).

Fixpoint cells_from (inside : nat) (s : string) : list cell :=
  match s with
  | EmptyString => []
  | String c rest =>
      match inside with
      | S inside => cells_from inside rest
      | O => let '(r, width) := decodeRune c rest in (r, String c (String.substring 0 (width - 1) rest)) :: cells_from (width - 1) rest
      end
  end.
Definition cells (s : string) : list cell := cells_from 0 s.
Definition text (l : list cell) : string := foldr (fun c s => c.2 +:+ s) EmptyString l.

(** ** Regular expressions *)

Inductive re :=
  | Eps
  | WordBoundary
  | Class (member : Z -> bool)
  | Seq (a b : re)
  | Alt (a b : re)
  | Star (a : re).

Definition isWord (r : Z) : bool := ((48 <=? r) && (r <=? 57)) || ((65 <=? r) && (r <=? 90)) || (r =? 95) || ((97 <=? r) && (r <=? 122)).
(** A place in a text: the rune before it and what follows. *)
Abbreviation place := (option Z * list cell)%type (only parsing).
Definition boundary (p : place) : bool :=
  xorb (from_option isWord false p.1) (from_option (fun c => isWord c.1) false (head p.2)).

(** All the places a match may end at, by priority. *)
Fixpoint iterate (step : place -> list place) (fuel : nat) (p : place) : list place :=
  match fuel with
  | O => [p]
  | S fuel => (step p ≫= iterate step fuel) ++ [p]
  end.
Fixpoint ends (r : re) (p : place) : list place :=
  match r with
  | Eps => [p]
  | WordBoundary => if boundary p then [p] else []
  | Class member => match p.2 with c :: rest => if member c.1 then [(Some c.1, rest)] else [] | [] => [] end
  | Seq a b => ends a p ≫= ends b
  | Alt a b => ends a p ++ ends b p
  | Star a => iterate (ends a) (length p.2) p
  end.

(** A pattern begins with the group that its replacement keeps. *)
Record pattern := mkPattern { pt_group : re; pt_rest : re; pt_replacement : string -> string }.
Definition found (pt : pattern) (p : place) : list (place * place) := ends (pt_group pt) p ≫= fun g => (fun q => (g, q)) <$> ends (pt_rest pt) g.
Definition find (pt : pattern) (p : place) : option (place * place) := head (found pt p).

(** [ReplaceAllString]: [skip] runes are left of the last match. *)
Fixpoint replace (pt : pattern) (skip : nat) (before : option Z) (l : list cell) : string :=
  match l with
  | [] => EmptyString
  | c :: rest =>
      match skip with
      | S skip => replace pt skip (Some c.1) rest
      | O =>
          match find pt (before, l) with
          | Some (g, q) =>
              pt_replacement pt (text (take (length l - length g.2) l)) +:+ replace pt (length l - length q.2 - 1) (Some c.1) rest
          | None => c.2 +:+ replace pt 0 (Some c.1) rest
          end
      end
  end.
Definition ReplaceAllString (pt : pattern) (s : string) : string := replace pt 0 None (cells s).

Fixpoint matches (pt : pattern) (before : option Z) (l : list cell) : bool :=
  bool_decide (is_Some (find pt (before, l))) || match l with [] => false | c :: rest => matches pt (Some c.1) rest end.
Definition MatchString (pt : pattern) (s : string) : bool := matches pt None (cells s).

(** ** The patterns *)

Definition opt (r : re) : re := Alt r Eps.
Definition plus (r : re) : re := Seq r (Star r).
(** A letter under (?i), given in lower case, and a word. *)
Definition letter (c : ascii) : re := Class (fun r => foldRune r =? code c).
Definition word (s : string) : re := foldr (fun c r => Seq (letter c) r) Eps (String.list_ascii_of_string s).
Definition oneOf (set : list Z) : re := Class (fun r => bool_decide (r ∈ set)).
Definition noneOf (set : list Z) : re := Class (fun r => bool_decide (r ∉ set)).

Definition whitespace : list Z := [9; 10; 12; 13; 32].
Definition spaces : re := Star (oneOf whitespace).
Definition separator : re := Seq spaces (Seq (oneOf [58; 61]) spaces).
Definition joined (a b : string) : re := Seq (word a) (Seq (opt (oneOf [95; 45])) (word b)).
Definition secretName : re :=
  Alt (joined "access" "token") (Alt (joined "id" "token") (Alt (joined "refresh" "token") (Alt (word "authorization") (Alt (word "cookie")
    (Alt (joined "api" "key") (joined "session" "token")))))).
Definition quotes : re := oneOf [34].

(** Runes that end the value of a cookie. *)
Definition cookieStop : list Z := 59 :: whitespace ++ [44; 125; 34; 39].
Definition cookiePair : re := plus (noneOf cookieStop).
Definition rawCookiePattern : pattern :=
  mkPattern (Seq WordBoundary (Seq (word "cookie") separator))
    (Seq cookiePair (Star (Seq spaces (Seq (oneOf [59]) (Seq spaces cookiePair))))) (fun g => g +:+ "[redacted]").
Definition rawSecretPattern : pattern :=
  mkPattern (Seq WordBoundary (Seq secretName separator))
    (Seq (opt (Seq (word "bearer") (plus (oneOf whitespace)))) (plus (noneOf (whitespace ++ [44; 125; 34; 39])))) (fun g => g +:+ "[redacted]").
Definition secretFieldPattern : pattern :=
  mkPattern (Seq (opt quotes) (Seq secretName (Seq (opt quotes) separator)))
    (Alt (Seq quotes (Seq (Star (noneOf [34])) quotes)) (plus (noneOf (whitespace ++ [44; 125; 93])))) (fun g => g +:+ js "'[redacted]'").
(** [A-Za-z0-9._~+/=-]; under (?i) the long s and the Kelvin sign are letters too. *)
Definition bearerRune (r : Z) : bool :=
  ((48 <=? r) && (r <=? 57)) || ((97 <=? foldRune r) && (foldRune r <=? 122)) || bool_decide (r ∈ [46; 95; 126; 43; 47; 61; 45]).
Definition bearerPattern : pattern :=
  mkPattern Eps (Seq (word "bearer") (Seq (plus (oneOf whitespace)) (plus (Class bearerRune)))) (fun _ => "Bearer [redacted]").

Definition redactSecrets (message : string) : string :=
  let message := ReplaceAllString rawCookiePattern message in
  let message := ReplaceAllString rawSecretPattern message in
  let message := ReplaceAllString secretFieldPattern message in
  ReplaceAllString bearerPattern message.
Definition containsSensitiveCredentialMaterial (value : string) : bool :=
  MatchString rawCookiePattern value || MatchString rawSecretPattern value || MatchString secretFieldPattern value || MatchString bearerPattern value.

Example redacts :
  (redactSecrets (js "{'access_token':'abc.def','x':1}"), redactSecrets "Bearer  abc== end", redactSecrets "set Cookie: a=b; c=d, next", redactSecrets "x refresh-token = t", redactSecrets "nothing here: 5")
  = (js "{'access_token':'[redacted]','x':1}", "Bearer [redacted] end", js "set Cookie: '[redacted]'], next", js "x refresh-token = '[redacted]']", "nothing here: 5").
Proof. vm_compute. reflexivity. Qed.
(** The scheme of an authorization header is redacted and its credentials are left. *)
Example basic_authorization_leaks : redactSecrets "Authorization: Basic dXNlcjpwYXNz" = js "Authorization: '[redacted]'] dXNlcjpwYXNz".
Proof. vm_compute. reflexivity. Qed.
(** A quoted value ends at an escaped quote. *)
Example escaped_quote_leaks : redactSecrets ("{" +:+ js "'cookie':'a=" +:+ chr 92 +:+ js "'secret" +:+ chr 92 +:+ js "''}") = js "{'cookie':'[redacted]'secret" +:+ chr 92 +:+ js "''}".
Proof. vm_compute. reflexivity. Qed.
(** The summary of a body joins its words after the redaction, and a space outside
    ASCII keeps a bearer token from being found before. *)
Example joined_bearer_leaks : sanitizedBodySummary redactSecrets ("Bearer" +:+ encodeRune 160 +:+ "secret") = "Bearer secret".
Proof. vm_compute. reflexivity. Qed.

(** ** What the matcher finds *)

Inductive Match : re -> place -> place -> Prop :=
  | MatchEps p : Match Eps p p
  | MatchBoundary p : boundary p = true -> Match WordBoundary p p
  | MatchClass member b c rest : member c.1 = true -> Match (Class member) (b, c :: rest) (Some c.1, rest)
  | MatchSeq r1 r2 p q s : Match r1 p q -> Match r2 q s -> Match (Seq r1 r2) p s
  | MatchLeft r1 r2 p q : Match r1 p q -> Match (Alt r1 r2) p q
  | MatchRight r1 r2 p q : Match r2 p q -> Match (Alt r1 r2) p q
  | MatchStop r p : Match (Star r) p p
  | MatchMore r p q s : Match r p q -> Match (Star r) q s -> Match (Star r) p s.
#[local] Hint Constructors Match : core.

Fixpoint nullable (r : re) : bool :=
  match r with
  | Eps | WordBoundary | Star _ => true
  | Class _ => false
  | Seq a b => nullable a && nullable b
  | Alt a b => nullable a || nullable b
  end.
(** No expression under a star matches the empty text. *)
Fixpoint proper (r : re) : bool :=
  match r with
  | Eps | WordBoundary | Class _ => true
  | Seq a b | Alt a b => proper a && proper b
  | Star a => proper a && negb (nullable a)
  end.

Lemma match_length r p q : Match r p q -> (length q.2 <= length p.2)%nat /\ (nullable r = false -> (length q.2 < length p.2)%nat).
Proof.
  induction 1; cbn in *; repeat match goal with H : _ /\ _ |- _ => destruct H end; split; try done; try lia; try (intros Hn).
  - apply andb_false_iff in Hn as [Hn|Hn]; repeat match goal with H : _ = false -> _ |- _ => first [specialize (H Hn)|clear H] end; lia.
  - apply orb_false_iff in Hn as [Hn _]. auto.
  - apply orb_false_iff in Hn as [_ Hn]. auto.
Qed.

Lemma iterate_spec (step : place -> list place) r :
  (forall p q, q ∈ step p <-> Match r p q) -> nullable r = false ->
  forall fuel p q, (length p.2 <= fuel)%nat -> q ∈ iterate step fuel p <-> Match (Star r) p q.
Proof.
  intros Hs Hn fuel. induction fuel as [|fuel IH]; intros p q Hl; cbn [iterate].
  - rewrite list_elem_of_singleton. split; [by intros ->|]. intros H. inversion H as [| | | | | |? ?|? ? s ? H1 H2]; subst; [done|].
    apply match_length in H1 as [_ H1]. specialize (H1 Hn). lia.
  - rewrite elem_of_app, list_elem_of_bind, list_elem_of_singleton. split.
    + intros [(s & Hq & Hp)| ->]; [|done]. apply Hs in Hp. pose proof (match_length _ _ _ Hp) as [_ L]. specialize (L Hn). apply IH in Hq; [eauto|lia].
    + intros H. inversion H as [| | | | | |? ?|? ? s ? H1 H2]; subst; [by right|]. left. exists s. pose proof (match_length _ _ _ H1) as [_ L]. specialize (L Hn).
      split; [apply IH; [lia|done]|by apply Hs].
Qed.

(** The places the search tries are exactly those the expression matches up to. *)
Theorem ends_exact r p q : proper r = true -> q ∈ ends r p <-> Match r p q.
Proof.
  revert p q. induction r as [| |member|a IHa b IHb|a IHa b IHb|a IHa]; intros p q Hp; cbn in *.
  - rewrite list_elem_of_singleton. split; [by intros ->|by inversion 1].
  - destruct (boundary p) eqn:E; [rewrite list_elem_of_singleton|rewrite elem_of_nil]; (split; [|inversion 1; congruence]); [intros ->; auto|done].
  - destruct p as [before [|c rest]]; cbn; [rewrite elem_of_nil; split; [done|inversion 1]|].
    destruct (member c.1) eqn:E; [rewrite list_elem_of_singleton|rewrite elem_of_nil]; (split; [|inversion 1; congruence]); [intros ->; auto|done].
  - apply andb_true_iff in Hp as [Ha Hb]. rewrite list_elem_of_bind. split.
    + intros (s & H1 & H2). apply IHa in H2; [|done]. apply IHb in H1; [|done]. eauto.
    + inversion 1; subst. eexists. split; [by apply IHb|by apply IHa].
  - apply andb_true_iff in Hp as [Ha Hb]. rewrite elem_of_app, IHa, IHb by done. split; [intros [|]; auto|inversion 1; auto].
  - apply andb_true_iff in Hp as [Ha Hn]. apply iterate_spec; [by intros; apply IHa|by apply negb_true_iff|done].
Qed.

Definition proper_pattern (pt : pattern) : bool := proper (pt_group pt) && proper (pt_rest pt).
Lemma found_exact pt p g q : proper_pattern pt = true -> (g, q) ∈ found pt p <-> Match (pt_group pt) p g /\ Match (pt_rest pt) g q.
Proof.
  intros [Hg Hr]%andb_true_iff. unfold found. rewrite list_elem_of_bind. setoid_rewrite list_elem_of_fmap. rewrite <- !ends_exact by done. split.
  - intros (g' & (q' & [= -> ->] & Hq) & Hg'). done.
  - intros [H1 H2]. exists g. split; [|done]. by exists q.
Qed.
Lemma find_none pt p : proper_pattern pt = true -> find pt p = None <-> forall g q, Match (pt_group pt) p g -> ~ Match (pt_rest pt) g q.
Proof.
  intros Hp. unfold find. split.
  - intros H g q H1 H2. assert ((g, q) ∈ found pt p) as Hin by by apply found_exact. destruct (found pt p); [by apply elem_of_nil in Hin|done].
  - intros H. destruct (found pt p) as [|[g q] l] eqn:E; [done|]. exfalso. destruct (proj1 (found_exact pt p g q Hp)) as [H1 H2]; [rewrite E; by left|]. by apply (H g q).
Qed.
Lemma find_some pt p g q : proper_pattern pt = true -> find pt p = Some (g, q) -> Match (pt_group pt) p g /\ Match (pt_rest pt) g q.
Proof. intros Hp H. apply found_exact; [done|]. unfold find in H. destruct (found pt p); [done|]. injection H as ->. by left. Qed.
Lemma find_unique pt p g q : proper_pattern pt = true -> Match (pt_group pt) p g -> Match (pt_rest pt) g q ->
  (forall g' q', Match (pt_group pt) p g' -> Match (pt_rest pt) g' q' -> (g', q') = (g, q)) -> find pt p = Some (g, q).
Proof.
  intros Hp H1 H2 Hu. destruct (find pt p) as [[g' q']|] eqn:E.
  - apply find_some in E as [E1 E2]; [|done]. f_equal. by apply Hu.
  - by destruct (proj1 (find_none pt p Hp) E g q H1).
Qed.

(** ** Texts and their runes *)

Lemma runeLength_ascii c s x y : code x < 128 -> runeLength c (s +:+ String x y) = runeLength c s.
Proof.
  intros Hx. assert (forall hi, cont 128 hi x = false /\ cont 160 hi x = false /\ cont 144 hi x = false) as Hc.
  { intros hi. unfold cont. repeat split; apply andb_false_iff; left; apply Z.leb_gt; lia. }
  pose proof (fun hi => proj1 (Hc hi)) as H1. pose proof (fun hi => proj1 (proj2 (Hc hi))) as H2. pose proof (fun hi => proj2 (proj2 (Hc hi))) as H3.
  assert (forall n hi, cont (if n =? 224 then 160 else 128) hi x = false) as H4 by (intros n ?; destruct (n =? 224); auto).
  assert (forall n hi, cont (if n =? 240 then 144 else 128) hi x = false) as H5 by (intros n ?; destruct (n =? 240); auto).
  destruct s as [|c1 [|c2 [|c3 s]]]; rewrite ?sapp_cons, ?sapp_empty; unfold runeLength; rewrite ?H1, ?H4, ?H5, ?andb_false_r; cbn [andb]; try done.
  - destruct ((194 <=? code c) && (code c <=? 223)); [done|]. destruct y as [|y1 [|y2 y]]; by rewrite ?if_same; repeat case_match.
  - destruct ((194 <=? code c) && (code c <=? 223)); [done|]. destruct y as [|y1 y]; by repeat case_match.
  - destruct ((194 <=? code c) && (code c <=? 223)); [done|]. by repeat case_match.
Qed.
Lemma decodeRune_width c s : (decodeRune c s).2 = S ((decodeRune c s).2 - 1) /\ ((decodeRune c s).2 - 1 <= String.length s)%nat.
Proof.
  unfold decodeRune. destruct (code c <? 128); [cbn; split; [done|lia]|].
  destruct (runeLength c s) as [|[|[|[|[|n]]]]]; destruct s as [|c1 [|c2 [|c3 s]]]; cbn; (split; [done|lia]).
Qed.
Lemma runeLength_length c s : (runeLength c s - 1 <= String.length s)%nat.
Proof. unfold runeLength. destruct s as [|c1 [|c2 [|c3 s]]]; repeat case_match; cbn; lia. Qed.
Lemma decodeRune_ascii c s x y : code x < 128 -> decodeRune c (s +:+ String x y) = decodeRune c s.
Proof.
  intros Hx. unfold decodeRune. rewrite runeLength_ascii by done. destruct (code c <? 128); [done|].
  pose proof (runeLength_length c s) as L. destruct (runeLength c s) as [|[|[|[|[|n]]]]]; destruct s as [|c1 [|c2 [|c3 s]]]; cbn in *; try done; try lia.
  all: destruct y as [|y1 [|y2 y]]; done.
Qed.

Lemma substring_sdrop n s : String.substring 0 n s +:+ sdrop n s = s.
Proof. revert s. induction n as [|n IH]; intros [|c s]; cbn; try done. by rewrite sapp_cons, IH. Qed.
Lemma substring_app n s t : (n <= String.length s)%nat -> String.substring 0 n (s +:+ t) = String.substring 0 n s.
Proof. revert s. induction n as [|n IH]; intros [|c s] H; cbn in *; try done; try lia; [by destruct t|]. rewrite sapp_cons. cbn. f_equal. apply IH. lia. Qed.
Lemma cells_from_skip n s : cells_from n s = cells (sdrop n s).
Proof. revert n. induction s as [|c s IH]; intros [|n]; cbn; try done. Qed.
Lemma cells_cons c s :
  cells (String c s) = let '(r, width) := decodeRune c s in (r, String c (String.substring 0 (width - 1) s)) :: cells (sdrop (width - 1) s).
Proof. unfold cells at 1. cbn [cells_from]. destruct (decodeRune c s) as [r width]. by rewrite cells_from_skip. Qed.
Lemma sdrop_length n s : (String.length (sdrop n s) <= String.length s)%nat.
Proof. revert s. induction n as [|n IH]; intros [|c s]; cbn; try lia. specialize (IH s). lia. Qed.

Lemma string_len_ind (P : string -> Prop) : (forall s, (forall t, (String.length t < String.length s)%nat -> P t) -> P s) -> forall s, P s.
Proof. intros H s. remember (String.length s) as n eqn:E. revert s E. induction (lt_wf n) as [n _ IH]. intros s ->. apply H. intros t L. by apply (IH _ L). Qed.

Lemma text_cells s : text (cells s) = s.
Proof.
  induction s as [[|c s] IH] using string_len_ind; [done|]. rewrite cells_cons. destruct (decodeRune c s) as [r width]. cbn [text foldr snd].
  change (foldr _ _ ?l) with (text l). rewrite IH; [|cbn; pose proof (sdrop_length (width - 1) s); lia]. rewrite sapp_cons. by rewrite substring_sdrop.
Qed.
Lemma cells_app_ascii s x y : code x < 128 -> cells (s +:+ String x y) = cells s ++ cells (String x y).
Proof.
  intros Hx. induction s as [[|c s] IH] using string_len_ind; [done|]. rewrite sapp_cons, (cells_cons c), (cells_cons c s), decodeRune_ascii by done.
  pose proof (decodeRune_width c s) as [_ L]. destruct (decodeRune c s) as [r width]. cbn [snd] in L.
  rewrite substring_app by lia. rewrite sdrop_app by lia. cbn [app]. f_equal. apply IH. cbn. pose proof (sdrop_length (width - 1) s). lia.
Qed.
Lemma cells_ascii c s : code c < 128 -> cells (String c s) = (code c, String c "") :: cells s.
Proof. intros H. rewrite cells_cons. unfold decodeRune. apply Z.ltb_lt in H. rewrite H. cbn. by destruct s. Qed.

Lemma text_app l1 l2 : text (l1 ++ l2) = text l1 +:+ text l2.
Proof. induction l1 as [|c l1 IH]; [done|]. cbn. change (foldr _ _ ?l) with (text l). by rewrite IH, sapp_assoc. Qed.

(** Runes as a text decodes into them. *)
Definition decoded (l : list cell) : Prop := cells (text l) = l.
Lemma decoded_tail c l : decoded (c :: l) -> decoded l /\ exists x t, c.2 = String x t.
Proof.
  unfold decoded. cbn [text foldr]. change (foldr _ _ ?l) with (text l). intros H. destruct (c.2 +:+ text l) as [|x s] eqn:E; [done|].
  rewrite cells_cons in H. pose proof (decodeRune_width x s) as [_ L]. destruct (decodeRune x s) as [r width]. cbn [snd] in L. injection H as Hc Hl. subst c. split.
  - cbn [snd] in E. rewrite sapp_cons in E. injection E as E. assert (text l = sdrop (width - 1) s) as ->; [|done]. by rewrite <- Hl, text_cells.
  - by eexists _, _.
Qed.
Lemma decoded_suffix l1 l2 : decoded (l1 ++ l2) -> decoded l2.
Proof. induction l1 as [|c l1 IH]; [done|]. intros H. apply IH. by apply decoded_tail in H as [? _]. Qed.
Lemma decoded_cells s : decoded (cells s).
Proof. unfold decoded. by rewrite text_cells. Qed.

(** Without credentials a text stays as it is. *)
Lemma replace_none pt b l : matches pt b l = false -> replace pt 0 b l = text l.
Proof.
  revert b. induction l as [|c l IH]; intros b; [done|]. cbn [matches replace]. intros [H1 H2]%orb_false_iff.
  destruct (find pt (b, c :: l)) as [x|]; [rewrite bool_decide_true in H1 by eauto; done|]. cbn. by rewrite IH.
Qed.
Lemma ReplaceAllString_none pt s : MatchString pt s = false -> ReplaceAllString pt s = s.
Proof. intros H. unfold ReplaceAllString. rewrite replace_none by done. apply text_cells. Qed.
Theorem redaction_only_where_found s : containsSensitiveCredentialMaterial s = false -> redactSecrets s = s.
Proof.
  unfold containsSensitiveCredentialMaterial. rewrite !orb_false_iff. intros [[[H1 H2] H3] H4].
  unfold redactSecrets. by rewrite (ReplaceAllString_none rawCookiePattern), (ReplaceAllString_none rawSecretPattern), (ReplaceAllString_none secretFieldPattern), (ReplaceAllString_none bearerPattern).
Qed.

(** ** No bearer token is left *)

Fixpoint spaceThenRune (seen : bool) (l : list cell) : bool :=
  match l with
  | [] => false
  | c :: l => if bool_decide (c.1 ∈ whitespace) then spaceThenRune true l else seen && bearerRune c.1
  end.
Fixpoint bearerAt (w : list Z) (l : list cell) : bool :=
  match w, l with
  | [], _ => spaceThenRune false l
  | x :: w, c :: l => (foldRune c.1 =? x) && bearerAt w l
  | _, [] => false
  end.
Definition bearerWord : list Z := [98; 101; 97; 114; 101; 114].

Lemma match_class f p q : Match (Class f) p q -> exists c, p.2 = c :: q.2 /\ f c.1 = true /\ q.1 = Some c.1.
Proof. inversion 1; subst. by eexists. Qed.
Lemma match_seq a b p q : Match (Seq a b) p q -> exists s, Match a p s /\ Match b s q.
Proof. inversion 1; subst. by eexists. Qed.
Lemma match_alt a b p q : Match (Alt a b) p q -> Match a p q \/ Match b p q.
Proof. inversion 1; subst; auto. Qed.
Lemma match_opt a p q : Match (opt a) p q -> Match a p q \/ q = p.
Proof. intros [H|H]%match_alt; [by left|right]. by inversion H. Qed.
Lemma match_star_class f p q : Match (Star (Class f)) p q -> exists w, p.2 = w ++ q.2 /\ Forall (fun c => f c.1 = true) w.
Proof.
  intros H. remember (Star (Class f)) as r eqn:E. induction H; try done; injection E as ->; [by exists []|].
  apply match_class in H as (c & Hc & Hf & _). destruct IHMatch2 as (w & Hw & Hall); [done|]. exists (c :: w). split; [by rewrite Hc, Hw|by constructor].
Qed.
Lemma star_class f w : Forall (fun c : cell => f c.1 = true) w -> forall b rest, exists b', Match (Star (Class f)) (b, w ++ rest) (b', rest).
Proof. induction 1 as [|c w Hc _ IH]; intros b rest; [by eexists|]. destruct (IH (Some c.1) rest) as [b' H]. exists b'. cbn. eapply MatchMore; [by apply MatchClass|done]. Qed.

Lemma spaceThenRune_match seen b l :
  spaceThenRune seen l = true <-> exists q, Match (Seq (if seen then spaces else plus (oneOf whitespace)) (plus (Class bearerRune))) (b, l) q.
Proof.
  revert seen b. induction l as [|c l IH]; intros seen b; cbn [spaceThenRune].
  - split; [done|]. intros [q (s & H1 & (t & H2 & _)%match_seq)%match_seq]. apply match_class in H2 as (c & Hc & _).
    destruct (match_length _ _ _ H1) as [L _]. cbn in L. rewrite Hc in L. cbn in L. lia.
  - case_bool_decide as Hw.
    + rewrite (IH true (Some c.1)). assert (Match (oneOf whitespace) (b, c :: l) (Some c.1, l)) as Hc by by apply MatchClass, bool_decide_eq_true.
      split; intros [q Hq]; exists q; apply match_seq in Hq as (s & H1 & H2).
      * destruct seen; (eapply MatchSeq; [|done]); [by eapply MatchMore|by eapply MatchSeq].
      * destruct seen.
        -- inversion H1 as [| | | | | |? ?|? ? s' ? H3 H4]; subst.
           ++ apply match_seq in H2 as (t & H2 & _). apply match_class in H2 as (c' & [= <- _] & Hb & _).
              exfalso. revert Hb. unfold whitespace in Hw. rewrite !elem_of_cons, elem_of_nil in Hw. destruct c as [r t']; cbn in *. destruct_or!; try done; by subst.
           ++ apply match_class in H3 as (c' & [= <- E] & _ & E'). destruct s' as [b1 l1]. cbn in *. subst. by eapply MatchSeq.
        -- apply match_seq in H1 as (s' & H3 & H4). apply match_class in H3 as (c' & [= <- E] & _ & E'). destruct s' as [b1 l1]. cbn in *. subst. by eapply MatchSeq.
    + split.
      * intros [-> Hb]%andb_true_iff. exists (Some c.1, l). eapply MatchSeq; [apply MatchStop|]. eapply MatchSeq; [by apply MatchClass|apply MatchStop].
      * intros [q (s & H1 & (t & H2 & _)%match_seq)%match_seq]. apply match_class in H2 as (c' & Hc & Hb & _). destruct seen.
        -- apply match_star_class in H1 as (w & E & Hall). destruct w as [|d w]; cbn in E.
           ++ rewrite Hc in E. injection E as <- _. done.
           ++ injection E as <- _. apply Forall_cons in Hall as [Hd _]. by apply bool_decide_eq_true in Hd.
        -- apply match_seq in H1 as (s' & H1 & _). apply match_class in H1 as (d & [= <- _] & Hd & _). by apply bool_decide_eq_true in Hd.
Qed.

Lemma match_word (w : list ascii) r b l :
  (exists q, Match (Seq (foldr (fun c r => Seq (letter c) r) Eps w) r) (b, l) q)
  <-> exists pre rest b' q, l = pre ++ rest /\ foldRune <$> pre.*1 = code <$> w /\ b' = foldl (fun _ c => Some c.1) b pre /\ Match r (b', rest) q.
Proof.
  revert b l. induction w as [|c w IH]; intros b l; cbn [foldr].
  - split.
    + intros [q (s & H1 & H2)%match_seq]. inversion H1; subst. by exists [], l, b, q.
    + intros (pre & rest & b' & q & -> & H & -> & Hq). destruct pre; [|done]. exists q. by eapply MatchSeq.
  - split.
    + intros [q (s & (t & H1 & H2)%match_seq & H3)%match_seq]. apply match_class in H1 as (x & Hx & Hf & Ht). apply Z.eqb_eq in Hf. destruct t as [b1 l1]. cbn in *. subst.
      destruct (proj1 (IH (Some x.1) l1)) as (pre & rest & b' & q' & -> & Hp & -> & Hq); [by exists q; eapply MatchSeq|].
      exists (x :: pre), rest, (foldl (fun _ c => Some c.1) (Some x.1) pre), q'. repeat split; try done. cbn. by rewrite Hf, Hp.
    + intros (pre & rest & b' & q & -> & H & -> & Hq). destruct pre as [|x pre]; [done|]. injection H as Hx Hp.
      destruct (proj2 (IH (Some x.1) (pre ++ rest))) as [q' H']; [by exists pre, rest, (foldl (fun _ c => Some c.1) (Some x.1) pre), q|].
      apply match_seq in H' as (s & H1 & H2). exists q'. eapply MatchSeq; [|exact H2]. eapply MatchSeq; [|exact H1]. apply MatchClass. by apply Z.eqb_eq.
Qed.
Lemma bearerAt_split w l : bearerAt w l = true <-> exists pre rest, l = pre ++ rest /\ foldRune <$> pre.*1 = w /\ spaceThenRune false rest = true.
Proof.
  revert l. induction w as [|x w IH]; intros l; cbn [bearerAt].
  - split; [by exists [], l|]. intros (pre & rest & -> & H & Hr). by destruct pre.
  - destruct l as [|c l]; [split; [done|]; intros (pre & rest & E & H & _); by destruct pre|]. rewrite andb_true_iff, IH, Z.eqb_eq. split.
    + intros [Hc (pre & rest & -> & Hp & Hr)]. exists (c :: pre), rest. cbn. by rewrite Hc, Hp.
    + intros (pre & rest & E & H & Hr). destruct pre as [|d pre]; [done|]. injection E as <- ->. injection H as Hc Hp. split; [done|]. by exists pre, rest.
Qed.
Lemma bearer_found b l : find bearerPattern (b, l) = None <-> bearerAt bearerWord l = false.
Proof.
  rewrite find_none by done. rewrite <- not_true_iff_false, bearerAt_split.
  assert ((exists q, Match (pt_rest bearerPattern) (b, l) q) <-> exists pre rest, l = pre ++ rest /\ foldRune <$> pre.*1 = bearerWord /\ spaceThenRune false rest = true) as H.
  { cbn [pt_rest bearerPattern]. unfold word. rewrite match_word. split.
    - intros (pre & rest & b' & q & -> & Hp & _ & Hq). exists pre, rest. repeat split; [done|]. apply (spaceThenRune_match false b'). by exists q.
    - intros (pre & rest & -> & Hp & Hr). apply (spaceThenRune_match false (foldl (fun _ c => Some c.1) b pre)) in Hr as [q Hq]. by exists pre, rest, (foldl (fun _ c => Some c.1) b pre), q. }
  rewrite <- H. split.
  - intros Hn [q Hq]. by apply (Hn (b, l) q).
  - intros Hn g q Hg Hq. inversion Hg; subst. apply Hn. by exists q.
Qed.

Fixpoint bearerFree (l : list cell) : bool :=
  negb (bearerAt bearerWord l) && match l with [] => true | _ :: l => bearerFree l end.
Lemma matches_bearer b l : matches bearerPattern b l = negb (bearerFree l).
Proof.
  revert b. induction l as [|c l IH]; intros b; cbn [matches bearerFree].
  - rewrite bool_decide_false; [done|]. rewrite (proj2 (bearer_found b [])) by done. by intros [].
  - rewrite IH. destruct (bearerAt bearerWord (c :: l)) eqn:E; cbn [negb andb].
    + rewrite bool_decide_true; [done|]. destruct (find _ _) eqn:F; [done|]. apply bearer_found in F. congruence.
    + rewrite bool_decide_false; [done|]. rewrite (proj2 (bearer_found b (c :: l))) by done. by intros [].
Qed.

(** Whether a bearer token begins at a place of a text is not changed by what follows
    a later letter B. *)
Definition isB (x : ascii) : bool := (code x =? 66) || (code x =? 98).
Lemma isB_ascii x : isB x = true -> code x < 128.
Proof. unfold isB. rewrite orb_true_iff, !Z.eqb_eq. lia. Qed.
Lemma isB_fold x : isB x = true -> foldRune (code x) = 98 /\ bearerRune (code x) = true /\ code x ∉ whitespace.
Proof.
  unfold isB. rewrite orb_true_iff, !Z.eqb_eq. intros [-> | ->]; (split; [done|]); (split; [done|]); unfold whitespace; rewrite !not_elem_of_cons; repeat split; try lia; by apply not_elem_of_nil.
Qed.
Lemma spaceThenRune_B seen u x y l1 l2 t1 t2 : isB x = true -> isB y = true ->
  spaceThenRune seen (u ++ (code x, t1) :: l1) = spaceThenRune seen (u ++ (code y, t2) :: l2).
Proof.
  intros (_ & Hx & Wx)%isB_fold (_ & Hy & Wy)%isB_fold. revert seen. induction u as [|c u IH]; intros seen; cbn [app spaceThenRune fst].
  - rewrite (bool_decide_false _ Wx), (bool_decide_false _ Wy). by rewrite Hx, Hy.
  - by rewrite IH.
Qed.
Lemma bearerAt_B w u x y l1 l2 t1 t2 : isB x = true -> isB y = true -> 98 ∉ w ->
  bearerAt w (u ++ (code x, t1) :: l1) = bearerAt w (u ++ (code y, t2) :: l2).
Proof.
  intros Hx Hy. revert w. induction u as [|c u IH]; intros [|z w] Hw; cbn [app bearerAt fst].
  - by apply (spaceThenRune_B false []).
  - apply not_elem_of_cons in Hw as [Hz _]. apply isB_fold in Hx as [-> _], Hy as [-> _]. by rewrite (proj2 (Z.eqb_neq 98 z)).
  - by apply (spaceThenRune_B false (c :: u)).
  - apply not_elem_of_cons in Hw as [_ Hw]. by rewrite IH.
Qed.

Lemma replace_skip pt k b l : exists b', replace pt k b l = replace pt 0 b' (drop k l).
Proof. revert k b. induction l as [|c l IH]; intros [|k] b; try by exists b. destruct (IH k (Some c.1)) as [b' H]. by exists b'. Qed.

(** Two texts agree up to their ends or up to a letter B of each. *)
Definition agree (s t : string) : Prop :=
  s = t \/ exists u x y s' t', s = u +:+ String x s' /\ t = u +:+ String y t' /\ isB x = true /\ isB y = true.
Lemma agree_app a s t : agree s t -> agree (a +:+ s) (a +:+ t).
Proof. intros [->|(u & x & y & s' & t' & -> & -> & Hx & Hy)]; [by left|]. right. exists (a +:+ u), x, y, s', t'. by rewrite !sapp_assoc. Qed.
Lemma bearerAt_cons x w c l : bearerAt (x :: w) (c :: l) = (foldRune c.1 =? x) && bearerAt w l.
Proof. reflexivity. Qed.
(** Before a text that agrees with the rest, a rune is decoded as it was, and a bearer
    token begins at it as it did. *)
Lemma decoded_agree c l t : decoded (c :: l) -> agree (text l) t ->
  cells (c.2 +:+ t) = c :: cells t /\ bearerAt bearerWord (c :: cells t) = bearerAt bearerWord (c :: l).
Proof.
  intros Hd Ha. destruct (decoded_tail _ _ Hd) as [Hl _]. destruct Ha as [<-|(u & x & y & s' & t' & Es & -> & Hx & Hy)].
  { split; [|by rewrite Hl]. change (c.2 +:+ text l) with (text (c :: l)). by rewrite Hd, Hl. }
  unfold decoded in Hd, Hl. cbn [text foldr] in Hd. change (foldr _ _ l) with (text l) in Hd. rewrite Es in Hl, Hd. rewrite <- sapp_assoc in Hd.
  pose proof (isB_ascii _ Hx) as Ax. pose proof (isB_ascii _ Hy) as Ay. rewrite cells_app_ascii in Hd, Hl by done.
  assert (cells (c.2 +:+ u) = c :: cells u) as Ec.
  { rewrite <- Hl, app_comm_cons in Hd. by apply app_inv_tail in Hd. }
  split; [rewrite <- sapp_assoc, !cells_app_ascii, Ec by done; done|].
  rewrite <- Hl, cells_app_ascii, !cells_ascii by done. change bearerWord with (98 :: [101; 97; 114; 101; 114]). rewrite !(bearerAt_cons 98). f_equal.
  apply bearerAt_B; [done|done|]. rewrite !not_elem_of_cons. repeat split; try lia. apply not_elem_of_nil.
Qed.

Definition bytes : list ascii := (fun n => ascii_of_N (N.of_nat n)) <$> seq 0 256.
Lemma byte_check (f : ascii -> bool) : forallb f bytes = true -> forall c, f c = true.
Proof.
  intros H c. rewrite forallb_forall in H. apply H. apply list_elem_of_In, list_elem_of_fmap. exists (N.to_nat (N_of_ascii c)).
  rewrite N2Nat.id, ascii_N_embedding. split; [done|]. apply elem_of_seq. pose proof (N_ascii_bounded c). lia.
Qed.
Lemma decodeRune_small c s : (decodeRune c s).1 < 128 -> code c < 128.
Proof.
  unfold decodeRune. destruct (code c <? 128) eqn:E; [by intros _; apply Z.ltb_lt|].
  assert (forall d, 0 <= tail6 d) as H0 by (intros d; apply Z.land_nonneg; right; lia).
  assert (forall d, 194 <= code d <= 223 -> 2 <= Z.land (code d) 31) as H2.
  { intros d. pose proof (byte_check (fun d => negb ((194 <=? code d) && (code d <=? 223)) || (2 <=? Z.land (code d) 31)) eq_refl d) as H. cbv beta in H. lia. }
  assert (forall d, 225 <= code d <= 239 -> 1 <= Z.land (code d) 15) as H3.
  { intros d. pose proof (byte_check (fun d => negb ((225 <=? code d) && (code d <=? 239)) || (1 <=? Z.land (code d) 15)) eq_refl d) as H. cbv beta in H. lia. }
  assert (forall d, 241 <= code d <= 244 -> 1 <= Z.land (code d) 7) as H4.
  { intros d. pose proof (byte_check (fun d => negb ((241 <=? code d) && (code d <=? 244)) || (1 <=? Z.land (code d) 7)) eq_refl d) as H. cbv beta in H. lia. }
  assert (forall d, 144 <= code d <= 191 -> 16 <= tail6 d) as H5.
  { intros d. pose proof (byte_check (fun d => negb ((144 <=? code d) && (code d <=? 191)) || (16 <=? tail6 d)) eq_refl d) as H. cbv beta in H. lia. }
  assert (0 <= Z.land (code c) 15 /\ 0 <= Z.land (code c) 7) as [H6 H7] by (split; apply Z.land_nonneg; right; lia).
  unfold runeError. destruct s as [|c1 s]; [cbn; lia|].
  pose proof (H0 c1); pose proof (H5 c1); specialize (H2 c); specialize (H3 c); specialize (H4 c).
  destruct (runeLength c (String c1 s)) as [|[|[|[|[|n]]]]] eqn:El; cbn; try lia.
  - unfold runeLength in El. destruct ((194 <=? code c) && (code c <=? 223)) eqn:E2; [lia|]. repeat case_match; done.
  - destruct s as [|c2 s]; cbn; [lia|]. pose proof (H0 c2). unfold runeLength in El. unfold cont in El.
    destruct ((194 <=? code c) && (code c <=? 223)) eqn:E2; [by case_match|].
    destruct ((224 <=? code c) && (code c <=? 239)) eqn:E3; [|repeat case_match; done].
    destruct (code c =? 224) eqn:E4, (code c =? 237); case_match; try done; lia.
  - destruct s as [|c2 [|c3 s]]; cbn; try lia. pose proof (H0 c2). pose proof (H0 c3). unfold runeLength in El. unfold cont in El.
    destruct ((194 <=? code c) && (code c <=? 223)) eqn:E2; [by case_match|].
    destruct ((224 <=? code c) && (code c <=? 239)) eqn:E3; [by case_match|].
    destruct ((240 <=? code c) && (code c <=? 244)) eqn:E5; [|done].
    destruct (code c =? 240) eqn:E4, (code c =? 244); case_match; try done; lia.
Qed.
(** A rune that is a letter B is one byte. *)
Lemma decoded_B c l : decoded (c :: l) -> foldRune c.1 = 98 -> exists x t, c.2 = String x t /\ isB x = true.
Proof.
  intros Hd Hf. destruct (decoded_tail _ _ Hd) as [_ (x & t & Ex)]. exists x, t. split; [done|].
  unfold decoded in Hd. cbn [text foldr] in Hd. rewrite Ex, sapp_cons, cells_cons in Hd.
  pose proof (decodeRune_small x (t +:+ foldr (fun c s => c.2 +:+ s) "" l)) as Hs. destruct (decodeRune x _) as [r width] eqn:Er. cbn [fst] in Hs. injection Hd as Hc _.
  subst c. cbn [fst] in Hf. assert (r = 66 \/ r = 98) as Hr.
  { revert Hf. unfold foldRune. destruct ((65 <=? r) && (r <=? 90)) eqn:E; [lia|]. destruct (r =? 8490); [lia|]. destruct (r =? 383); lia. }
  assert (code x < 128) as Hx by (apply Hs; lia). unfold decodeRune in Er. apply Z.ltb_lt in Hx. rewrite Hx in Er. injection Er as <- _.
  unfold isB. destruct Hr as [-> | ->]; done.
Qed.

Lemma cells_ascii_app a s : forallb (fun x => code x <? 128) (String.list_ascii_of_string a) = true -> cells (a +:+ s) = cells a ++ cells s.
Proof.
  induction a as [|x a IH]; [done|]. cbn [forallb String.list_ascii_of_string]. intros [Hx Ha]%andb_true_iff. apply Z.ltb_lt in Hx. rewrite sapp_cons, !cells_ascii, IH by done. done.
Qed.
Lemma bearerFree_redacted l : bearerFree l = true -> bearerFree (cells "Bearer [redacted]" ++ l) = true.
Proof. intros H. by cbn. Qed.

Lemma bearer_replaced b l : decoded l ->
  bearerFree (cells (replace bearerPattern 0 b l)) = true /\ agree (text l) (replace bearerPattern 0 b l).
Proof.
  remember (length l) as n eqn:En. revert b l En. induction (lt_wf n) as [n _ IH]. intros b [|c l] -> Hd; [by split; [|left]|].
  cbn [replace]. destruct (find bearerPattern (b, c :: l)) as [[g q]|] eqn:Ef.
  - assert (bearerAt bearerWord (c :: l) = true) as Hb by (apply not_false_iff_true; intros H%(bearer_found b); congruence).
    destruct (replace_skip bearerPattern (length (c :: l) - length q.2 - 1) (Some c.1) l) as [b' ->].
    destruct (IH (length (drop (length (c :: l) - length q.2 - 1) l))) with (b := b') (l := drop (length (c :: l) - length q.2 - 1) l) as [IH1 _]; [rewrite length_drop; cbn; lia|done| |].
    { apply (decoded_suffix (c :: take (length (c :: l) - length q.2 - 1) l)). cbn [app]. by rewrite take_drop. }
    cbn [pt_replacement bearerPattern]. split.
    + rewrite cells_ascii_app by done. by apply bearerFree_redacted.
    + right. destruct (decoded_B _ _ Hd) as (x & t & Ex & Hx); [unfold bearerWord in Hb; cbn [bearerAt] in Hb; apply andb_true_iff in Hb as [Hb _]; by apply Z.eqb_eq|].
      destruct c as [r s]. cbn in Ex. subst s.
      exists "", x, "B"%char, (t +:+ text l), (js "earer [redacted]" +:+ replace bearerPattern 0 b' (drop (length ((r, String x t) :: l) - length q.2 - 1) l)).
      by repeat split.
  - apply bearer_found in Ef. destruct (decoded_tail _ _ Hd) as [Hl _].
    destruct (IH (length l)) with (b := Some c.1) (l := l) as [IH1 IH2]; [cbn; lia|done|done|]. split; [|by apply (agree_app c.2)].
    destruct (decoded_agree _ _ _ Hd IH2) as [-> Eb]. cbn [bearerFree]. by rewrite Eb, Ef, IH1.
Qed.
Lemma redacted_bearerFree message : bearerFree (cells (redactSecrets message)) = true.
Proof.
  unfold redactSecrets. unfold ReplaceAllString at 1.
  destruct (bearer_replaced None (cells (ReplaceAllString secretFieldPattern (ReplaceAllString rawSecretPattern (ReplaceAllString rawCookiePattern message))))) as [H _]; [apply decoded_cells|done].
Qed.

(** ** The value of a quoted secret plays no role *)

Definition lastRune (b : option Z) (w : list cell) : option Z := foldl (fun _ c => Some c.1) b w.
Fixpoint alphabet (r : re) (x : Z) : bool :=
  match r with
  | Eps | WordBoundary => false
  | Class member => member x
  | Seq a b | Alt a b => alphabet a x || alphabet b x
  | Star a => alphabet a x
  end.
Definition over (r : re) (w : list cell) : Prop := Forall (fun c => alphabet r c.1 = true) w.
Lemma over_mono r r' w : (forall x, alphabet r x = true -> alphabet r' x = true) -> over r w -> over r' w.
Proof. intros H Hw. eapply Forall_impl; [exact Hw|]. intros c. apply H. Qed.
Lemma match_over r p q : Match r p q -> exists w, p.2 = w ++ q.2 /\ q.1 = lastRune p.1 w /\ over r w.
Proof.
  induction 1 as [p|p Hp|member b c rest Hm|r1 r2 p q s _ IH1 _ IH2|r1 r2 p q _ IH|r1 r2 p q _ IH|r p|r p q s _ IH1 _ IH2]; try (exists []; repeat split; by constructor).
  - exists [c]. repeat split. by constructor.
  - destruct IH1 as (w1 & E1 & L1 & O1), IH2 as (w2 & E2 & L2 & O2). exists (w1 ++ w2). unfold lastRune. rewrite E1, E2, L2, L1, foldl_app, app_assoc. repeat split.
    apply Forall_app. split; eapply over_mono; [|done| |done]; intros x Hx; cbn; rewrite Hx; by rewrite ?orb_true_r.
  - destruct IH as (w & E & L & O). exists w. repeat split; [done|done|]. eapply over_mono; [|done]. intros x Hx. cbn. by rewrite Hx.
  - destruct IH as (w & E & L & O). exists w. repeat split; [done|done|]. eapply over_mono; [|done]. intros x Hx. cbn. by rewrite Hx, orb_true_r.
  - destruct IH1 as (w1 & E1 & L1 & O1), IH2 as (w2 & E2 & L2 & O2). exists (w1 ++ w2). unfold lastRune. rewrite E1, E2, L2, L1, foldl_app, app_assoc. repeat split.
    by apply Forall_app.
Qed.
Lemma match_nonempty r p q w : Match r p q -> nullable r = false -> p.2 = w ++ q.2 -> w <> [].
Proof. intros H Hn E ->. apply match_length in H as [_ H]. specialize (H Hn). rewrite E in H. cbn in H. lia. Qed.

(** What is matched does not depend on what follows, where no boundary is asked for. *)
Fixpoint boundaryFree (r : re) : bool :=
  match r with Eps | Class _ => true | WordBoundary => false | Seq a b | Alt a b => boundaryFree a && boundaryFree b | Star a => boundaryFree a end.
Lemma match_extend r p q w b l : boundaryFree r = true -> Match r p q -> p.2 = w ++ q.2 -> Match r (b, w ++ l) (lastRune b w, l).
Proof.
  intros Hb H. revert w b l Hb. induction H as [p|p Hp|member b0 c rest Hm|r1 r2 p q s H1 IH1 H2 IH2|r1 r2 p q H1 IH|r1 r2 p q H1 IH|r p|r p q s H1 IH1 H2 IH2]; intros w b l Hb E; cbn in Hb.
  - apply (app_inv_tail _ [] w) in E as <-. constructor.
  - done.
  - cbn in E. apply (app_inv_tail _ [c] w) in E as <-. by constructor.
  - apply andb_true_iff in Hb as [Hb1 Hb2]. destruct (match_over _ _ _ H1) as (w1 & E1 & _), (match_over _ _ _ H2) as (w2 & E2 & _).
    rewrite E1, E2, app_assoc in E. apply app_inv_tail in E as <-. rewrite <- app_assoc. eapply MatchSeq; [by apply IH1|]. unfold lastRune. rewrite foldl_app. by apply IH2.
  - apply andb_true_iff in Hb as [Hb1 Hb2]. apply MatchLeft. by apply IH.
  - apply andb_true_iff in Hb as [Hb1 Hb2]. apply MatchRight. by apply IH.
  - apply (app_inv_tail _ [] w) in E as <-. constructor.
  - destruct (match_over _ _ _ H1) as (w1 & E1 & _), (match_over _ _ _ H2) as (w2 & E2 & _).
    rewrite E1, E2, app_assoc in E. apply app_inv_tail in E as <-. rewrite <- app_assoc. eapply MatchMore; [by apply IH1|]. unfold lastRune. rewrite foldl_app. by apply IH2.
Qed.

Lemma replace_skip_exact pt k b l : replace pt k b l = replace pt 0 (lastRune b (take k l)) (drop k l).
Proof. revert k b. induction l as [|c l IH]; intros [|k] b; try done. cbn [replace take drop]. by rewrite IH. Qed.
(** Nothing is found at the places of [pre]. *)
Fixpoint quiet (pt : pattern) (b : option Z) (pre l : list cell) : Prop :=
  match pre with [] => True | c :: pre => find pt (b, c :: pre ++ l) = None /\ quiet pt (Some c.1) pre l end.
Lemma replace_prefix pt b pre l : quiet pt b pre l -> replace pt 0 b (pre ++ l) = text pre +:+ replace pt 0 (lastRune b pre) l.
Proof.
  revert b. induction pre as [|c pre IH]; intros b; [done|]. cbn [quiet app replace]. intros [-> H]. cbn [text foldr]. change (foldr _ _ pre) with (text pre).
  rewrite sapp_assoc, IH by done. done.
Qed.
Lemma matches_cons pt b c l : matches pt b (c :: l) = false -> find pt (b, c :: l) = None /\ matches pt (Some c.1) l = false.
Proof. cbn [matches]. intros [H1 H2]%orb_false_iff. split; [|done]. apply bool_decide_eq_false in H1. destruct (find _ _); [by destruct H1|done]. Qed.
(** What is done where something is found. *)
Lemma replace_found pt b c v r p g gb qb : find pt (b, c :: v ++ r) = Some ((gb, g), (qb, r)) -> c :: v ++ r = p ++ g ->
  replace pt 0 b (c :: v ++ r) = pt_replacement pt (text p) +:+ replace pt 0 (lastRune (Some c.1) v) r.
Proof.
  intros Hf E. cbn [replace]. rewrite Hf. cbn [snd]. f_equal.
  - do 2 f_equal. rewrite E, length_app. by rewrite Nat.add_sub, take_app_length.
  - replace (length (c :: v ++ r) - length r - 1)%nat with (length v) by (cbn; rewrite length_app; lia).
    by rewrite replace_skip_exact, take_app_length, drop_app_length.
Qed.

(** Only whether a word ends before a place matters of what is before it. *)
Definition similar (p p' : place) : Prop := p'.2 = p.2 /\ from_option isWord false p'.1 = from_option isWord false p.1.
Lemma match_similar r p q p' : Match r p q -> similar p p' -> exists q', similar q q' /\ Match r p' q'.
Proof.
  intros H. revert p'. induction H as [p|p Hp|member b0 c rest Hm|r1 r2 p q s H1 IH1 H2 IH2|r1 r2 p q H1 IH|r1 r2 p q H1 IH|r p|r p q s H1 IH1 H2 IH2]; intros p' Hs.
  - exists p'. by split; [|constructor].
  - exists p'. split; [done|]. constructor. rewrite <- Hp. destruct Hs as [E1 E2]. unfold boundary. by rewrite E1, E2.
  - exists (Some c.1, rest). split; [done|]. destruct p' as [b' l'], Hs as [E _]. cbn in E. subst. by constructor.
  - destruct (IH1 _ Hs) as (q' & Hq & M1), (IH2 _ Hq) as (s' & Hs' & M2). exists s'. split; [done|]. by eapply MatchSeq.
  - destruct (IH _ Hs) as (q' & Hq & M). exists q'. split; [done|]. by apply MatchLeft.
  - destruct (IH _ Hs) as (q' & Hq & M). exists q'. split; [done|]. by apply MatchRight.
  - exists p'. by split; [|constructor].
  - destruct (IH1 _ Hs) as (q' & Hq & M1), (IH2 _ Hq) as (s' & Hs' & M2). exists s'. split; [done|]. by eapply MatchMore.
Qed.
Lemma matches_similar pt b b' l : proper_pattern pt = true -> from_option isWord false b' = from_option isWord false b -> matches pt b l = false -> matches pt b' l = false.
Proof.
  intros Hp Hw H. assert (find pt (b, l) = None) as Hf.
  { destruct l; [|by apply matches_cons in H as [? _]]. cbn in H. rewrite orb_false_r in H. apply bool_decide_eq_false in H. destruct (find _ _); [by destruct H|done]. }
  assert (find pt (b', l) = None) as Hf'.
  { apply find_none; [done|]. intros g q H1 H2. destruct (match_similar _ _ _ (b, l) H1) as (g' & Hg & M1); [by split|]. destruct (match_similar _ _ _ g' H2) as (q' & _ & M2); [done|].
    by apply (proj1 (find_none pt (b, l) Hp) Hf g' q'). }
  destruct l as [|c l]; cbn [matches] in *; rewrite Hf'; [done|]. rewrite Hf in H. done.
Qed.

(** The shapes of the groups. *)
Lemma match_separator p q : Match separator p q -> exists w c w', p.2 = w ++ c :: w' ++ q.2 /\ c.1 ∈ [58; 61] /\ over spaces w /\ over spaces w'.
Proof.
  intros (s & H1 & (t & H2 & H3)%match_seq)%match_seq. apply match_over in H1 as (w & E1 & _ & O1). apply match_class in H2 as (c & E2 & Hc & _). apply match_over in H3 as (w' & E3 & _ & O3).
  exists w, c, w'. rewrite E1, E2, E3. repeat split; try done. by apply bool_decide_eq_true in Hc.
Qed.

Definition separators : list Z := [58; 61].
(** No rune of a list is in a set of them. *)
Definition avoids (set : list Z) (w : list cell) : Prop := Forall (fun c => c.1 ∉ set) w.
Lemma over_avoid r set w : forallb (fun x => negb (alphabet r x)) set = true -> over r w -> avoids set w.
Proof.
  intros H Hw. eapply Forall_impl; [exact Hw|]. intros c Hc Hin. rewrite forallb_forall in H. apply list_elem_of_In in Hin. apply H in Hin. by rewrite Hc in Hin.
Qed.
Lemma first_separator x y c d r s : avoids separators x -> avoids separators y -> c.1 ∈ separators -> d.1 ∈ separators ->
  x ++ c :: r = y ++ d :: s -> x = y /\ c = d /\ r = s.
Proof.
  intros Hx. revert y. induction Hx as [|a x Ha Hx IH]; intros [|b y] Hy Hc Hd E; cbn in E; injection E as -> E.
  - done.
  - by apply Forall_cons in Hy as [Hy _].
  - done.
  - apply Forall_cons in Hy as [_ Hy]. destruct (IH y) as (-> & -> & ->); done.
Qed.

(** A quote comes before the next separator. *)
Fixpoint blocked (l : list cell) : bool :=
  match l with
  | [] => true
  | c :: l => if c.1 =? 34 then true else if bool_decide (c.1 ∈ separators) then false else blocked l
  end.
Lemma blocked_app w l : avoids separators w -> blocked l = true -> blocked (w ++ l) = true.
Proof. induction 1 as [|c w Hc _ IH]; [done|]. intros Hl. cbn. rewrite (bool_decide_false _ Hc). destruct (c.1 =? 34); auto. Qed.
Lemma not_blocked w c r : avoids (34 :: separators) w -> c.1 ∈ separators -> blocked (w ++ c :: r) = false.
Proof.
  intros Hw Hc. induction Hw as [|a w Ha _ IH]; cbn.
  - rewrite (bool_decide_true _ Hc). destruct (c.1 =? 34) eqn:E; [|done]. apply Z.eqb_eq in E. rewrite E in Hc. exfalso. revert Hc. by apply (bool_decide_eq_false (34 ∈ separators)).
  - apply not_elem_of_cons in Ha as [Ha Ha']. apply Z.eqb_neq in Ha. by rewrite Ha, (bool_decide_false _ Ha').
Qed.
Lemma raw_quiet (pt : pattern) name l : proper_pattern pt = true -> pt_group pt = Seq WordBoundary (Seq name separator) ->
  nullable name = false -> forallb (fun x => negb (alphabet name x)) (34 :: separators) = true ->
  (bool_decide (from_option (fun c : cell => c.1) 0 (head l) ∈ separators) || blocked l = true) -> forall b, find pt (b, l) = None.
Proof.
  intros Hp Hg Hn Ha Hl b. apply find_none; [done|]. intros g q H _. rewrite Hg in H.
  apply match_seq in H as (s & Hb & (t & Hw & (w & c & w' & Et & Hc & Ow & _)%match_separator)%match_seq). inversion Hb; subst s. clear Hb.
  destruct (match_over _ _ _ Hw) as (n & En & _ & On). pose proof (match_nonempty _ _ _ _ Hw Hn En) as Hne. cbn in En. subst l. apply (over_avoid _ _ _ Ha) in On.
  rewrite Et, app_assoc, not_blocked in Hl; [|apply Forall_app; split; [done|by apply (over_avoid spaces)]|done].
  destruct n as [|d n]; [done|]. apply Forall_cons in On as [Hd _]. cbn in Hl. rewrite orb_false_r, bool_decide_eq_true in Hl. apply Hd. by right.
Qed.

(** A field of a JSON text: a quoted name and a quoted value. *)
Definition quote : ascii := ascii_of_N 34.
Definition colon : ascii := ascii_of_N 58.
Definition quotedField (name value rest : string) : string :=
  String quote (name +:+ String quote (String colon (String quote (value +:+ String quote rest)))).
Definition Q : cell := (34, String quote "").
Definition C : cell := (58, String colon "").
Definition fieldCells (name value : list cell) : list cell := Q :: name ++ Q :: C :: Q :: value ++ [Q].
Lemma cells_quotedField a name value rest :
  cells (a +:+ quotedField name value rest) = cells a ++ fieldCells (cells name) (cells value) ++ cells rest.
Proof.
  unfold quotedField, fieldCells. rewrite cells_app_ascii, cells_ascii, cells_app_ascii, !cells_ascii, cells_app_ascii, cells_ascii by done.
  cbn [app]. f_equal. f_equal. rewrite <- app_assoc. cbn [app]. do 4 f_equal. by rewrite <- app_assoc.
Qed.
Definition isSecretName (name : string) : bool := existsb (fun q => bool_decide (q.2 = [])) (ends secretName (None, cells name)).
Lemma secretName_spec name : isSecretName name = true ->
  (forall b l, Match secretName (b, cells name ++ l) (lastRune b (cells name), l)) /\ cells name <> [] /\ avoids (34 :: separators ++ whitespace) (cells name).
Proof.
  unfold isSecretName. rewrite existsb_exists. intros ([b' l'] & Hq & E). apply bool_decide_eq_true in E. cbn in E. subst l'.
  apply list_elem_of_In, ends_exact in Hq; [|done]. destruct (match_over _ _ _ Hq) as (w & E & _ & Ow). cbn in E. rewrite app_nil_r in E. subst w. split; [|split].
  - intros b l. eapply match_extend; [done|exact Hq|]. cbn. by rewrite app_nil_r.
  - eapply match_nonempty; [exact Hq|done|]. cbn. by rewrite app_nil_r.
  - by apply (over_avoid secretName).
Qed.

Lemma avoids_mono set set' w : set' ⊆ set -> avoids set w -> avoids set' w.
Proof. intros Hs Hw. eapply Forall_impl; [exact Hw|]. intros c Hc Hin. by apply Hc, Hs. Qed.
(** Bytes none of which is a quote. *)
Definition plain (s : string) : bool := forallb (fun x => negb (code x =? 34)) (String.list_ascii_of_string s).
Lemma plain_app s t : plain (s +:+ t) = plain s && plain t.
Proof. unfold plain. induction s as [|x s IH]; [done|]. rewrite sapp_cons. cbn [String.list_ascii_of_string forallb]. by rewrite IH, andb_assoc. Qed.
Lemma plain_text l : plain (text l) = forallb (fun c => plain c.2) l.
Proof. induction l as [|c l IH]; [done|]. cbn [text foldr forallb]. change (foldr _ _ l) with (text l). by rewrite plain_app, IH. Qed.
Lemma plain_cells s : plain s = true -> avoids [34] (cells s).
Proof.
  induction s as [[|x s] IH] using string_len_ind; [by constructor|]. intros Hp. rewrite cells_cons. pose proof (decodeRune_small x s) as Hs.
  destruct (decodeRune x s) as [r width] eqn:Er. cbn in Hp. apply andb_true_iff in Hp as [Hx Hp]. constructor.
  - cbn. intros ->%list_elem_of_singleton. cbn in Hs. unfold decodeRune in Er. rewrite (proj2 (Z.ltb_lt (code x) 128)) in Er by (apply Hs; lia). injection Er as Er _. by rewrite Er in Hx.
  - apply IH; [cbn; pose proof (sdrop_length (width - 1) s); lia|]. rewrite <- (substring_sdrop (width - 1) s) in Hp. change (plain (String.substring 0 (width - 1) s +:+ sdrop (width - 1) s) = true) in Hp.
    rewrite plain_app in Hp. by apply andb_true_iff in Hp as [_ Hp].
Qed.

(** A pattern that does not cross a quote. *)
Section raw.
Context (pt : pattern) (names : re).
Hypothesis (Hgroup : pt_group pt = Seq WordBoundary (Seq names separator)) (Hproper : proper_pattern pt = true) (Hnames : negb (nullable names) && boundaryFree names = true).
Hypothesis (Halphabet : forallb (fun x => negb (alphabet names x)) (34 :: separators) = true).
Hypothesis (Hrest : negb (alphabet (pt_rest pt) 34) && boundaryFree (pt_rest pt) = true) (Hrepl : forall g, pt_replacement pt g = g +:+ "[redacted]").

Lemma raw_match b l g q : Match (pt_group pt) (b, l) g -> Match (pt_rest pt) g q ->
  exists w1 w2, l = w1 ++ g.2 /\ g.2 = w2 ++ q.2 /\ w1 <> [] /\ avoids [34] (w1 ++ w2) /\ forall l2, find pt (b, w1 ++ w2 ++ l2) <> None.
Proof.
  rewrite Hgroup. intros (s & Hb & Hg)%match_seq Hq. inversion Hb as [|? Hbd| | | | | |]; subst s. clear Hb.
  apply andb_true_iff in Hnames as [Hn1 Hn2], Hrest as [Hr1 Hr2].
  destruct (match_over _ _ _ Hg) as (w1 & E1 & _ & O1), (match_over _ _ _ Hq) as (w2 & E2 & _ & O2). cbn in E1. subst l. exists w1, w2.
  assert (w1 <> []) as Hne.
  { eapply match_nonempty; [exact Hg| |done]. cbn. by destruct (nullable names). }
  repeat split; try done.
  - apply Forall_app. split; [eapply over_avoid; [|exact O1]|eapply over_avoid; [|exact O2]]; cbn [forallb].
    + cbn [forallb] in Halphabet. apply andb_true_iff in Halphabet as [Ha _]. cbn [alphabet]. by destruct (alphabet names 34).
    + by rewrite andb_true_r.
  - intros l2 Hf. apply (proj1 (find_none pt _ Hproper) Hf (lastRune b w1, w2 ++ l2) (lastRune (lastRune b w1) w2, l2)).
    + rewrite Hgroup. eapply MatchSeq; [apply MatchBoundary|].
      * rewrite <- Hbd. unfold boundary. cbn. by destruct w1.
      * eapply match_extend; [|exact Hg|done]. cbn. by rewrite Hn2.
    + eapply match_extend; [done|exact Hq|done].
Qed.
Lemma quote_ends w k v X : avoids [34] w -> w ++ k = v ++ Q :: X -> exists k', v = w ++ k' /\ k = k' ++ Q :: X.
Proof.
  intros Hw. revert v. induction Hw as [|c w Hc _ IH]; intros v E; [by exists v|]. destruct v as [|d v]; cbn in E; injection E as -> E.
  - destruct Hc. by left.
  - destruct (IH v E) as (k' & -> & ->). by exists k'.
Qed.
Lemma raw_harmless b pre X : matches pt b (pre ++ [Q]) = false -> quiet pt b pre (Q :: X).
Proof.
  revert b. induction pre as [|c pre IH]; intros b; [done|]. intros [H1 H2]%matches_cons. split; [|by apply IH].
  apply find_none; [done|]. intros g q Hg Hq. destruct (raw_match _ _ _ _ Hg Hq) as (w1 & w2 & E1 & E2 & _ & Hw & Hf).
  destruct (quote_ends (w1 ++ w2) q.2 (c :: pre) X Hw) as (k & Ek & _); [by rewrite <- app_assoc, <- E2, <- E1|].
  apply (Hf (k ++ [Q])). rewrite !app_assoc, <- Ek. done.
Qed.
Lemma raw_value b v X : avoids [34] v -> plain (text v) = true -> exists v' b', plain v' = true /\ replace pt 0 b (v ++ Q :: X) = v' +:+ replace pt 0 b' (Q :: X).
Proof.
  remember (length v) as n eqn:En. revert b v En. induction (lt_wf n) as [n _ IH]. intros b [|c v] -> Hv Hp; [by exists "", b|].
  destruct (find pt (b, c :: v ++ Q :: X)) as [[[gb g] [qb q]]|] eqn:Ef.
  - destruct (find_some _ _ _ _ Hproper Ef) as [Hg Hq]. destruct (raw_match _ _ _ _ Hg Hq) as (w1 & w2 & E1 & E2 & Hne & Hw & _). cbn in E1, E2.
    destruct (quote_ends (w1 ++ w2) q (c :: v) X Hw) as (k & Ek & ->); [by rewrite <- app_assoc, <- E2, <- E1|].
    destruct w1 as [|d w1]; [done|]. injection Ek as <- ->. rewrite plain_text in Hp. cbn [forallb] in Hp. rewrite !forallb_app, !andb_true_iff in Hp. destruct Hp as (Hc & (Hp1 & _) & Hpk).
    assert ((c :: (w1 ++ w2) ++ k) ++ Q :: X = c :: (w1 ++ w2) ++ k ++ Q :: X) as El by (cbn; by rewrite <- app_assoc).
    change (c :: ((w1 ++ w2) ++ k) ++ Q :: X) with ((c :: (w1 ++ w2) ++ k) ++ Q :: X) in Ef, E1. rewrite El in Ef, E1 |- *.
    destruct (IH (length k)) with (b := lastRune (Some c.1) (w1 ++ w2)) (v := k) as (v' & b' & Hv' & E'); [cbn; rewrite !length_app; lia|done| |by rewrite plain_text|].
    { apply Forall_cons in Hv as [_ Hv]. by apply Forall_app in Hv as [_ Hv]. }
    exists ((text (c :: w1) +:+ "[redacted]") +:+ v'), b'. split.
    + rewrite !plain_app, Hv', plain_text. cbn [forallb]. by rewrite Hc, Hp1.
    + rewrite (replace_found pt b c (w1 ++ w2) (k ++ Q :: X) (c :: w1) g gb qb); [|done|done].
      by rewrite Hrepl, E', !sapp_assoc.
  - cbn [app replace]. rewrite Ef. apply Forall_cons in Hv as [_ Hv]. cbn [text foldr] in Hp. change (foldr _ _ v) with (text v) in Hp. rewrite plain_app in Hp. apply andb_true_iff in Hp as [Hc Hp].
    destruct (IH (length v)) with (b := Some c.1) (v := v) as (v' & b' & Hv' & E'); [cbn; lia|done|done|done|].
    exists (c.2 +:+ v'), b'. by rewrite plain_app, Hc, Hv', E', sapp_assoc.
Qed.

Lemma raw_through b l r : find pt (b, (l :: r)) = None -> replace pt 0 b (l :: r) = l.2 +:+ replace pt 0 (Some l.1) r.
Proof. intros H. cbn [replace]. by rewrite H. Qed.
Lemma raw_word_quiet b w r : avoids separators w -> quiet pt b w (Q :: r).
Proof.
  intros Hw. revert b. induction Hw as [|c w Hc Hw IH]; intros b; [done|]. split; [|done]. apply (raw_quiet pt names); try done; [by apply andb_true_iff in Hnames as [? _]; destruct (nullable names)|].
  apply orb_true_iff. right. apply (blocked_app (c :: w)); [by constructor|done].
Qed.
Lemma raw_Q b r : find pt (b, Q :: r) = None.
Proof. apply (raw_quiet pt names); try done. by apply andb_true_iff in Hnames as [? _]; destruct (nullable names). Qed.
Lemma raw_C b r : find pt (b, C :: r) = None.
Proof. apply (raw_quiet pt names); try done. by apply andb_true_iff in Hnames as [? _]; destruct (nullable names). Qed.
(** A raw pattern leaves the quotes of a field in their places. *)
Lemma raw_field b a name value X : matches pt b (cells a ++ [Q]) = false -> isSecretName name = true -> plain value = true ->
  exists value', plain value' = true /\
    replace pt 0 b (cells a ++ fieldCells (cells name) (cells value) ++ X) = a +:+ quotedField name value' (replace pt 0 (Some 34) X).
Proof.
  intros Ha Hs Hv. destruct (secretName_spec _ Hs) as (_ & _ & An). assert (avoids separators (cells name)) as An' by (eapply avoids_mono; [|exact An]; set_solver).
  destruct (raw_value (Some 34) (cells value) X) as (value' & b' & Hv' & E); [by apply plain_cells|by rewrite text_cells|]. exists value'. split; [done|].
  replace (fieldCells (cells name) (cells value) ++ X) with (Q :: cells name ++ Q :: C :: Q :: cells value ++ Q :: X) by (unfold fieldCells; cbn; rewrite <- app_assoc; cbn; by rewrite <- app_assoc).
  rewrite replace_prefix, text_cells by by apply raw_harmless. f_equal. rewrite raw_through by apply raw_Q. unfold quotedField. cbn [snd fst Q]. rewrite sapp_cons, sapp_empty. f_equal.
  rewrite replace_prefix, text_cells by by apply raw_word_quiet. f_equal. rewrite raw_through by apply raw_Q. cbn [snd fst Q]. rewrite sapp_cons, sapp_empty. f_equal.
  rewrite raw_through by apply raw_C. cbn [snd fst C]. rewrite sapp_cons, sapp_empty. f_equal. rewrite raw_through by apply raw_Q. cbn [snd fst Q]. rewrite sapp_cons, sapp_empty. f_equal.
  rewrite E. f_equal. rewrite raw_through by apply raw_Q. by cbn.
Qed.
End raw.

(** The field of a text, once its separator is found. *)
Definition maybeQuote (o : list cell) : Prop := o = [] \/ exists s, o = [(34, s)].
Lemma match_optQuote p q : Match (opt quotes) p q -> exists o, p.2 = o ++ q.2 /\ maybeQuote o.
Proof.
  intros [H| ->]%match_opt; [|by exists []; split; [|left]]. apply match_class in H as ([x s] & E & H & _). apply bool_decide_eq_true, list_elem_of_singleton in H. cbn in H. subst x.
  exists [(34, s)]. split; [by rewrite E|]. right. by exists s.
Qed.
Lemma maybeQuote_avoids o : maybeQuote o -> avoids separators o.
Proof. intros [->|[s ->]]; [by constructor|]. constructor; [|by constructor]. by apply (bool_decide_eq_false (34 ∈ separators)). Qed.
Lemma avoids_not c set w : c ∈ w -> c.1 ∈ set -> ~ avoids set w.
Proof. intros Hc Hs H. unfold avoids in H. rewrite Forall_forall in H. by apply (H c Hc). Qed.
Lemma quote_splits o1 nm o2 w a n : maybeQuote o1 -> maybeQuote o2 -> nm <> [] -> avoids [34] nm -> avoids [34] w ->
  o1 ++ nm ++ o2 ++ w = a ++ Q :: n ++ [Q] -> a = [].
Proof.
  intros H1 H2 Hne Hnm Hw E. assert (forall v, avoids [34] v -> Q ∉ v) as Hno by (intros v Hv Hin; revert Hv; apply (avoids_not Q); [done|by left]).
  assert (forall v s, ~ avoids [34] (v ++ Q :: s)) as Hno' by (intros v s H%Hno; apply H, elem_of_app; right; by left).
  replace (a ++ Q :: n ++ [Q]) with ((a ++ Q :: n) ++ [Q]) in E by (by rewrite <- app_assoc).
  destruct w as [|x w _] using rev_ind.
  - rewrite app_nil_r in E. destruct H2 as [->|[s ->]].
    + rewrite app_nil_r in E. destruct nm as [|x nm _] using rev_ind; [done|]. rewrite app_assoc in E. apply app_inj_tail in E as [_ ->]. by destruct (Hno' nm []).
    + rewrite app_assoc in E. apply app_inj_tail in E as [E _]. destruct a as [|x a]; [done|]. destruct H1 as [->|[s1 ->]]; cbn in E.
      * subst nm. by destruct (Hno' (x :: a) n).
      * injection E as _ ->. by destruct (Hno' a n).
  - rewrite !app_assoc in E. apply app_inj_tail in E as [_ ->]. by destruct (Hno' w []).
Qed.
Lemma Q_not_separator : Q.1 ∉ separators.
Proof. by apply (bool_decide_eq_false (34 ∈ separators)). Qed.
(** The group of a secret field that is found before a quoted field, or at it: it is
    found before the quote already, or it ends behind the separator of the field. *)
Lemma field_group a n r b g : avoids separators n -> Match (pt_group secretFieldPattern) (b, a ++ Q :: n ++ Q :: C :: r) g ->
  (exists v k, a = v ++ k /\ g.2 = k ++ Q :: n ++ Q :: C :: r) \/ (a = [] /\ exists w, r = w ++ g.2 /\ over spaces w).
Proof.
  intros Hn (p1 & (o1 & E1 & Ho1)%match_optQuote & (p2 & H2 & (p3 & (o2 & E3 & Ho2)%match_optQuote & (w & c & w' & E4 & Hc & Ow & Ow')%match_separator)%match_seq)%match_seq)%match_seq.
  destruct (match_over _ _ _ H2) as (nm & E2 & _ & Onm). pose proof (match_nonempty _ _ _ _ H2 eq_refl E2) as Hne.
  cbn in E1. rewrite E2, E3, E4 in E1.
  replace (o1 ++ nm ++ o2 ++ w ++ c :: w' ++ g.2) with ((o1 ++ nm ++ o2 ++ w) ++ c :: w' ++ g.2) in E1 by (by rewrite <- !app_assoc).
  assert (avoids separators [Q]) as HQ by (apply maybeQuote_avoids; right; by eexists).
  assert (avoids separators (o1 ++ nm ++ o2 ++ w)) as HX.
  { repeat (apply Forall_app; split); [by apply maybeQuote_avoids|by apply (over_avoid secretName)|by apply maybeQuote_avoids|by apply (over_avoid spaces)]. }
  assert (avoids separators (Q :: n ++ [Q])) as HY by (apply (Forall_app _ [Q]); split; [done|]; apply Forall_app; by split).
  symmetry in E1. apply app_eq_inv in E1 as [(k & Ea & Ek)|(k & Ea & Ek)].
  - right. replace (Q :: n ++ Q :: C :: r) with ((Q :: n ++ [Q]) ++ C :: r) in Ek by (cbn; by rewrite <- app_assoc).
    rewrite Ea in HX. apply Forall_app in HX as [_ Hk]. apply first_separator in Ek as (<- & _ & ->); [|exact HY|done|by left|done].
    split; [|by exists w']. eapply quote_splits; [exact Ho1|exact Ho2|exact Hne| | |exact Ea]; [by apply (over_avoid secretName)|by apply (over_avoid spaces)].
  - left. destruct k as [|d k]; cbn in Ek; injection Ek as E0 Ek; [destruct Q_not_separator; by (rewrite E0 || rewrite <- E0)|].
    destruct (quote_ends w' g.2 k (n ++ Q :: C :: r)) as (k' & -> & Eg); [by apply (over_avoid spaces)|done|].
    subst d. exists ((o1 ++ nm ++ o2 ++ w) ++ c :: w'), k'. split; [|done]. rewrite Ea, <- (app_assoc _ (c :: w')). done.
Qed.
Lemma rest_first p q : Match (pt_rest secretFieldPattern) p q -> exists c l, p.2 = c :: l /\ c.1 ∉ whitespace ++ [44; 125; 93].
Proof.
  intros [(s & (c & E & Hc & _)%match_class & _)%match_seq|(s & (c & E & Hc & _)%match_class & _)%match_seq]%match_alt; exists c, s.2; (split; [done|]).
  - apply bool_decide_eq_true, list_elem_of_singleton in Hc. rewrite Hc. by apply (bool_decide_eq_false (34 ∈ whitespace ++ [44; 125; 93])).
  - by apply bool_decide_eq_true in Hc.
Qed.
Lemma field_harmless b a n r : avoids separators n -> matches secretFieldPattern b (a ++ [Q]) = false -> quiet secretFieldPattern b a (Q :: n ++ Q :: C :: r).
Proof.
  intros Hn. revert b. induction a as [|c a IH]; intros b; [done|]. intros [H1 H2]%matches_cons. split; [|by apply IH].
  apply find_none; [done|]. intros g q Hg Hq. destruct (field_group (c :: a) n r b g Hn Hg) as [(v & k & Ev & Ek)|[E _]]; [|done].
  destruct (rest_first _ _ Hq) as (d & l & Ed & Hd). rewrite Ek in Ed.
  assert (exists k', k ++ [Q] = d :: k') as [k' Ek'] by (destruct k; injection Ed as -> _; by eexists).
  assert (find secretFieldPattern (b, v ++ k ++ [Q]) = None) as H1' by (rewrite app_assoc, <- Ev; exact H1).
  apply (proj1 (find_none secretFieldPattern (b, v ++ k ++ [Q]) eq_refl) H1' (lastRune b v, k ++ [Q]) (Some d.1, k')).
  - eapply match_extend; [done|exact Hg|]. cbn [snd]. rewrite Ek. rewrite app_assoc, <- Ev. done.
  - rewrite Ek'. apply MatchRight. eapply MatchSeq; [apply MatchClass; by apply bool_decide_eq_true|apply MatchStop].
Qed.

Lemma head_same {A} (l : list A) x : x ∈ l -> (forall y, y ∈ l -> y = x) -> exists l', l = x :: l'.
Proof. destruct l as [|y l]; [by intros H%elem_of_nil|]. intros _ H. exists l. by rewrite (H y) by left. Qed.
Lemma ends_first r p q : proper r = true -> Match r p q -> (forall q', Match r p q' -> q' = q) -> exists rest, ends r p = q :: rest.
Proof. intros Hp H Hu. apply head_same; [by apply ends_exact|]. intros y Hy. apply Hu. by apply (ends_exact r). Qed.

Lemma field_group_unique b n r g : avoids separators n -> Match (pt_group secretFieldPattern) (b, Q :: n ++ Q :: C :: Q :: r) g -> g = (Some 58, Q :: r).
Proof.
  intros Hn H. destruct (match_over _ _ _ H) as (v & Ev & Lv & _). destruct (field_group [] n (Q :: r) b g Hn H) as [(v' & k & E & Ek)|(_ & w & Ew & Ow)].
  { symmetry in E. apply app_eq_nil in E as [-> ->]. exfalso. by apply (match_nonempty _ _ _ [] H eq_refl). }
  destruct w as [|x w]; cbn in Ew; [|injection Ew as <- _; apply Forall_cons in Ow as [Ow _]; done]. destruct g as [gb gl]. cbn in *. subst gl.
  assert (v = Q :: n ++ [Q; C]) as ->.
  { apply (app_inv_tail (Q :: r)). rewrite <- Ev. cbn. by rewrite <- app_assoc. }
  rewrite Lv. unfold lastRune. cbn. by rewrite foldl_app.
Qed.
Lemma field_group_match b (name : string) r : isSecretName name = true ->
  Match (pt_group secretFieldPattern) (b, Q :: cells name ++ Q :: C :: Q :: r) (Some 58, Q :: r).
Proof.
  intros (Hm & _ & _)%secretName_spec. eapply MatchSeq; [apply MatchLeft; by apply (MatchClass _ b Q)|]. eapply MatchSeq; [apply Hm|].
  eapply MatchSeq; [apply MatchLeft; by apply (MatchClass _ _ Q)|]. eapply MatchSeq; [apply MatchStop|]. eapply MatchSeq; [by apply (MatchClass _ _ C)|]. apply MatchStop.
Qed.
Definition quotedValue : re := Seq quotes (Seq (Star (noneOf [34])) quotes).
Lemma quotedValue_match b t l : avoids [34] t -> Match quotedValue (b, Q :: t ++ Q :: l) (Some 34, l).
Proof.
  intros Ht. eapply MatchSeq; [by apply (MatchClass _ b Q)|]. destruct (star_class (fun r => bool_decide (r ∉ [34])) t) with (b := Some 34) (rest := Q :: l) as [b' H].
  { eapply Forall_impl; [exact Ht|]. intros c Hc. by apply bool_decide_eq_true. }
  eapply MatchSeq; [exact H|]. by apply (MatchClass _ b' Q).
Qed.
Lemma quotedValue_unique b t l q : avoids [34] t -> Match quotedValue (b, Q :: t ++ Q :: l) q -> q = (Some 34, l).
Proof.
  intros Ht (s & (c & E1 & _ & _)%match_class & (s2 & (w & E2 & Hw)%match_star_class & ([x tx] & E3 & Hc & L3)%match_class)%match_seq)%match_seq.
  injection E1 as _ E1. rewrite <- E1, E3 in E2. apply bool_decide_eq_true, list_elem_of_singleton in Hc. cbn in Hc. subst x. destruct q as [qb ql]. cbn in *. subst qb. f_equal.
  assert (avoids [34] w) as Aw by (eapply Forall_impl; [exact Hw|]; intros c' H'; by apply bool_decide_eq_true in H').
  clear -E2 Ht Aw. revert w E2 Aw. induction Ht as [|d t Hd _ IH]; intros [|e w] E Aw; cbn in E; injection E as E0 E.
  - done.
  - subst e. apply Forall_cons in Aw as [Aw _]. destruct Aw. by left.
  - subst d. destruct Hd. by left.
  - apply Forall_cons in Aw as [_ Aw]. by apply (IH w).
Qed.
Lemma field_found b name t l : isSecretName name = true -> avoids [34] t ->
  find secretFieldPattern (b, Q :: cells name ++ Q :: C :: Q :: t ++ Q :: l) = Some ((Some 58, Q :: t ++ Q :: l), (Some 34, l)).
Proof.
  intros Hn Ht. pose proof (secretName_spec _ Hn) as (_ & _ & An).
  assert (avoids separators (cells name)) as An' by (eapply avoids_mono; [|exact An]; set_solver).
  destruct (ends_first (pt_group secretFieldPattern) (b, Q :: cells name ++ Q :: C :: Q :: t ++ Q :: l) (Some 58, Q :: t ++ Q :: l)) as [rest1 E1]; [done|by apply field_group_match| |].
  { intros g. by apply field_group_unique. }
  destruct (ends_first quotedValue (Some 58, Q :: t ++ Q :: l) (Some 34, l)) as [rest2 E2]; [done|by apply quotedValue_match|intros q; by apply quotedValue_unique|].
  unfold find, found. rewrite E1. change ((?g :: rest1) ≫= ?f) with (f g ++ (rest1 ≫= f)). cbv beta.
  assert (ends (pt_rest secretFieldPattern) (Some 58, Q :: t ++ Q :: l) = ends quotedValue (Some 58, Q :: t ++ Q :: l) ++ ends (plus (noneOf (whitespace ++ [44; 125; 93]))) (Some 58, Q :: t ++ Q :: l)) as -> by reflexivity.
  by rewrite E2.
Qed.

(** The pass of the secret fields, up to the field and past it. *)
Lemma field_replaced b a name value X : matches secretFieldPattern b (cells a ++ [Q]) = false -> isSecretName name = true -> plain value = true ->
  replace secretFieldPattern 0 b (cells a ++ fieldCells (cells name) (cells value) ++ X) = a +:+ quotedField name "[redacted]" (replace secretFieldPattern 0 (Some 34) X).
Proof.
  intros Ha Hn Hv%plain_cells. pose proof (secretName_spec _ Hn) as (_ & _ & An).
  assert (avoids separators (cells name)) as An' by (eapply avoids_mono; [|exact An]; set_solver).
  assert (fieldCells (cells name) (cells value) ++ X = Q :: cells name ++ Q :: C :: Q :: cells value ++ Q :: X) as EL by (unfold fieldCells; cbn; rewrite <- app_assoc; cbn; by rewrite <- app_assoc).
  rewrite EL, replace_prefix, text_cells by by apply field_harmless. f_equal.
  pose proof (field_found (lastRune b (cells a)) name (cells value) X Hn Hv) as Hf.
  replace (Q :: cells name ++ Q :: C :: Q :: cells value ++ Q :: X) with (Q :: (cells name ++ Q :: C :: Q :: cells value ++ [Q]) ++ X) in Hf |- * by (rewrite <- app_assoc; cbn; by rewrite <- app_assoc).
  erewrite replace_found; [|exact Hf|]; [|instantiate (1 := Q :: cells name ++ [Q; C]); cbn; rewrite <- !app_assoc; cbn; by rewrite <- app_assoc].
  assert (lastRune (Some Q.1) (cells name ++ Q :: C :: Q :: cells value ++ [Q]) = Some 34) as -> by (unfold lastRune; rewrite foldl_app; cbn; by rewrite foldl_app).
  cbn [pt_replacement secretFieldPattern]. change (text (Q :: ?l)) with (String quote (text l)). rewrite text_app, text_cells. unfold quotedField.
  rewrite !sapp_cons, !sapp_assoc. done.
Qed.

(** A text with quoted fields: before each of them some other text. *)
Fixpoint fieldsText (parts : list (string * string)) (values : list string) (rest : string) : string :=
  match parts, values with
  | (a, name) :: parts, value :: values => a +:+ quotedField name value (fieldsText parts values rest)
  | _, _ => rest
  end.
Definition harmless (part : string * string) : bool :=
  negb (containsSensitiveCredentialMaterial (part.1 +:+ String quote "")) && isSecretName part.2.
Lemma harmless_matches part : harmless part = true ->
  isSecretName part.2 = true /\ forall b, from_option isWord false b = false ->
  matches rawCookiePattern b (cells part.1 ++ [Q]) = false /\ matches rawSecretPattern b (cells part.1 ++ [Q]) = false /\ matches secretFieldPattern b (cells part.1 ++ [Q]) = false.
Proof.
  unfold harmless, containsSensitiveCredentialMaterial, MatchString. rewrite cells_app_ascii, cells_ascii by done. intros [H1 H2]%andb_true_iff. split; [done|]. intros b Hb.
  apply negb_true_iff, orb_false_iff in H1 as [[[H3 H4]%orb_false_iff H5]%orb_false_iff _]. split; [|split]; by apply (matches_similar _ None).
Qed.
Definition passed (parts : list (string * string)) (b : option Z) : option Z := if bool_decide (parts = []) then b else Some 34.

Section passes.
Context (pt : pattern) (keeps : string -> string -> Prop).
Hypothesis (one : forall b part value X, harmless part = true -> from_option isWord false b = false -> plain value = true ->
  exists value', keeps value value' /\ plain value' = true /\
    replace pt 0 b (cells part.1 ++ fieldCells (cells part.2) (cells value) ++ X) = part.1 +:+ quotedField part.2 value' (replace pt 0 (Some 34) X)).
Lemma pass_fields parts values rest b : forallb harmless parts = true -> length values = length parts -> forallb plain values = true -> from_option isWord false b = false ->
  exists values', Forall2 keeps values values' /\ forallb plain values' = true /\
    replace pt 0 b (cells (fieldsText parts values rest)) = fieldsText parts values' (replace pt 0 (passed parts b) (cells rest)).
Proof.
  revert values b. induction parts as [|[a name] parts IH]; intros [|value values] b Hh Hl Hv Hb; try done; [by exists []; split; [constructor|]|].
  cbn [forallb] in Hh, Hv. apply andb_true_iff in Hh as [H1 H2], Hv as [H3 H4]. cbn [fieldsText]. rewrite cells_quotedField.
  destruct (one b (a, name) value (cells (fieldsText parts values rest)) H1 Hb H3) as (value' & K & P & E). cbn [fst snd] in E. rewrite E.
  destruct (IH values (Some 34)) as (values' & Ks & Ps & ->); try done; [by injection Hl|].
  exists (value' :: values'). split; [by constructor|]. split; [by cbn; rewrite P|]. cbn. do 3 f_equal. unfold passed. by case_bool_decide.
Qed.
End passes.

(** The text after the quoted fields is all that reaches the last pass. *)
Lemma fields_redacted parts values rest : forallb harmless parts = true -> length values = length parts -> forallb plain values = true ->
  redactSecrets (fieldsText parts values rest)
  = ReplaceAllString bearerPattern (fieldsText parts ((fun _ => "[redacted]") <$> parts)
      (replace secretFieldPattern 0 (passed parts None) (cells (replace rawSecretPattern 0 (passed parts None) (cells (replace rawCookiePattern 0 (passed parts None) (cells rest))))))).
Proof.
  intros Hh Hl Hv. unfold redactSecrets, ReplaceAllString.
  destruct (pass_fields rawCookiePattern (fun _ _ => True)) with (parts := parts) (values := values) (rest := rest) (b := @None Z) as (vs1 & K1 & P1 & ->); try done.
  { intros b part value X [Hn Hm]%harmless_matches Hb Hp. destruct (Hm b Hb) as (H & _). destruct (raw_field rawCookiePattern (word "cookie")) with (b := b) (a := part.1) (name := part.2) (value := value) (X := X) as (v' & ? & ->); try done. by exists v'. }
  pose proof (Forall2_length _ _ _ K1) as L1. set (rest1 := replace rawCookiePattern 0 _ _).
  destruct (pass_fields rawSecretPattern (fun _ _ => True)) with (parts := parts) (values := vs1) (rest := rest1) (b := @None Z) as (vs2 & K2 & P2 & ->); try done; [|lia|].
  { intros b part value X [Hn Hm]%harmless_matches Hb Hp. destruct (Hm b Hb) as (_ & H & _). destruct (raw_field rawSecretPattern secretName) with (b := b) (a := part.1) (name := part.2) (value := value) (X := X) as (v' & ? & ->); try done. by exists v'. }
  pose proof (Forall2_length _ _ _ K2) as L2. set (rest2 := replace rawSecretPattern 0 _ _).
  destruct (pass_fields secretFieldPattern (fun _ v' => v' = "[redacted]")) with (parts := parts) (values := vs2) (rest := rest2) (b := @None Z) as (vs3 & K3 & P3 & ->); try done; [|lia|].
  { intros b part value X [Hn Hm]%harmless_matches Hb Hp. destruct (Hm b Hb) as (_ & _ & H). exists "[redacted]". split; [done|]. split; [done|]. by apply field_replaced. }
  do 3 f_equal. assert (length parts = length vs2) as L3 by lia. clear -K3 L3. revert parts L3. induction K3 as [|v v' vs vs' -> _ IH]; intros [|p parts] L; try done. cbn in *. f_equal. apply IH. lia.
Qed.
Lemma quoted_secrets_erased parts values values' rest :
  forallb harmless parts = true -> length values = length parts -> length values' = length parts -> forallb plain values = true -> forallb plain values' = true ->
  redactSecrets (fieldsText parts values rest) = redactSecrets (fieldsText parts values' rest).
Proof. intros Hh L1 L2 P1 P2. by rewrite !fields_redacted. Qed.

(** C25: No text keeps a bearer token, and the values of quoted secret fields play no
    role: in the redacted text of a message no match of the bearer pattern is left,
    whatever the message, and a message with any number of quoted fields named like a
    secret, with text between them in which nothing sensitive is found, gives the same
    redacted text whatever the values are that hold no quote themselves. *)
Theorem secrets_redacted message parts values values' rest :
  forallb harmless parts = true -> length values = length parts -> length values' = length parts -> forallb plain values = true -> forallb plain values' = true ->
  MatchString bearerPattern (redactSecrets message) = false
  /\ redactSecrets (fieldsText parts values rest) = redactSecrets (fieldsText parts values' rest).
Proof. intros. split; [|by apply quoted_secrets_erased]. unfold MatchString. rewrite matches_bearer. by rewrite redacted_bearerFree. Qed.
Lemma secrets_redacted_witness :
  let parts := [(js "{'type':'codex',", "access_token"); (js ",'n':5,", "Refresh-Token")] in
  fieldsText parts ["eyJ.x="; "t Bearer u"] (js "}") = js "{'type':'codex','access_token':'eyJ.x=','n':5,'Refresh-Token':'t Bearer u'}"
  /\ MatchString bearerPattern (redactSecrets "a BEARER  x/y== z") = false
  /\ redactSecrets (fieldsText parts ["eyJ.x="; "t Bearer u"] (js "}")) = redactSecrets (fieldsText parts [""; "cookie: y"] (js "}")).
Proof.
  intros parts. split; [vm_compute; reflexivity|]. apply (secrets_redacted "a BEARER  x/y== z" parts ["eyJ.x="; "t Bearer u"] [""; "cookie: y"] (js "}")); vm_compute; reflexivity.
Defined.
