(* ===== verification/Diagnostics.v ===== *)
(** * The summary of an answer in a log (refresh.go)

    What a failed probe logs of the body of an answer: the values under a few
    diagnostic names, with their texts redacted.  Writing the value as JSON is the
    library's and a parameter. *)

From S2P Require Import Prelude GoStrings Float64 Json Text Refresh Redact.
From stdpp Require Import pretty.
#[local] Open Scope string_scope.
#[local] Open Scope list_scope.
#[local] Open Scope Z_scope.
#[local] Open Scope go_scope.

Definition diagnosticNames : list string := ["error"; "type"; "code"; "message"; "detail"; "title"; "status"; "param"].
Definition diagnosticName (key : string) : bool := bool_decide (LowerText key ∈ diagnosticNames).
Definition overridden (key : string) (rest : list (string * json)) : bool := existsb (fun kv => String.eqb kv.1 key) rest.
(** A map or a slice without entries is no value. *)
Definition nonempty {A} (l : list A) (v : json) : option json := match l with [] => None | _ => Some v end.

Fixpoint probeDiagnosticValue (value : json) : option json :=
  match value with
  | JObject fields =>
      let out := (fix go (fields : list (string * json)) : list (string * json) :=
                    match fields with
                    | [] => []
                    | (key, child) :: rest =>
                        if diagnosticName key && negb (overridden key rest) then
                          match probeDiagnosticValue child with Some sanitized => (key, sanitized) :: go rest | None => go rest end
                        else go rest
                    end) fields in
      nonempty out (JObject out)
  | JArray items =>
      let out := (fix go (items : list json) : list json :=
                    match items with
                    | [] => []
                    | child :: rest => match probeDiagnosticValue child with Some sanitized => sanitized :: go rest | None => go rest end
                    end) items in
      nonempty out (JArray out)
  | JString s => Some (JString (redactSecrets s))
  | JNumber _ | JBool _ => Some value
  | JNull => None
  end.

Definition sanitizedProbeResponseSummary (Marshal : json -> option string) (body : string) : string :=
  if String.eqb body "" then "<empty>"
  else
    match UnmarshalAny body with
    | None => "<non-json response body: " +:+ pretty (Z.of_nat (String.length body)) +:+ " bytes>"
    | Some value =>
        match probeDiagnosticValue value with
        | None => "<json response without diagnostic fields>"
        | Some safe =>
            match Marshal safe with
            | None => "<unavailable>"
            | Some encoded =>
                let summary := redactSecrets encoded in
                if (maxErrorBodySummaryLen <? String.length summary)%nat then String.substring 0 maxErrorBodySummaryLen summary +:+ "..." else summary
            end
        end
    end.

(** ** Properties *)

Section json_induction.
Context (P : json -> Prop) (HNull : P JNull) (HBool : forall b, P (JBool b)) (HNumber : forall n, P (JNumber n)) (HString : forall s, P (JString s)).
Context (HArray : forall items, Forall P items -> P (JArray items)) (HObject : forall fields, Forall (fun kv => P kv.2) fields -> P (JObject fields)).
Fixpoint json_induction (v : json) : P v :=
  match v with
  | JNull => HNull | JBool b => HBool b | JNumber n => HNumber n | JString s => HString s
  | JArray items => HArray items ((fix go l : Forall P l := match l with [] => List.Forall_nil _ | v :: l => List.Forall_cons _ _ _ (json_induction v) (go l) end) items)
  | JObject fields => HObject fields ((fix go l : Forall (fun kv => P kv.2) l := match l with [] => List.Forall_nil _ | kv :: l => List.Forall_cons _ _ _ (json_induction kv.2) (go l) end) fields)
  end.
End json_induction.

Fixpoint keptItems (items : list json) : list json :=
  match items with
  | [] => []
  | child :: rest => match probeDiagnosticValue child with Some sanitized => sanitized :: keptItems rest | None => keptItems rest end
  end.
Fixpoint keptFields (fields : list (string * json)) : list (string * json) :=
  match fields with
  | [] => []
  | (key, child) :: rest =>
      if diagnosticName key && negb (overridden key rest) then
        match probeDiagnosticValue child with Some sanitized => (key, sanitized) :: keptFields rest | None => keptFields rest end
      else keptFields rest
  end.
Lemma diagnostic_array items : probeDiagnosticValue (JArray items) = nonempty (keptItems items) (JArray (keptItems items)).
Proof. done. Qed.
Lemma keptItems_spec items v : v ∈ keptItems items <-> exists child, child ∈ items /\ probeDiagnosticValue child = Some v.
Proof. assert (keptItems items = omap probeDiagnosticValue items) as -> by (induction items as [|c l IH]; [done|]; cbn; by rewrite IH). by rewrite list_elem_of_omap. Qed.
Lemma diagnostic_object fields : probeDiagnosticValue (JObject fields) = nonempty (keptFields fields) (JObject (keptFields fields)).
Proof. done. Qed.

Lemma overridden_field key rest : overridden key rest = bool_decide (is_Some (field key rest)).
Proof.
  induction rest as [|[k v] rest IH]; [done|]. change (overridden key ((k, v) :: rest)) with (String.eqb k key || overridden key rest). rewrite IH. cbn [field].
  destruct (field key rest) as [w|]; [by rewrite orb_true_r|]. destruct (String.eqb k key); done.
Qed.
(** The fields kept are the values that the decoder leaves under a diagnostic name. *)
Lemma keptFields_spec fields key v : (key, v) ∈ keptFields fields <-> diagnosticName key = true /\ exists child, field key fields = Some child /\ probeDiagnosticValue child = Some v.
Proof.
  induction fields as [|[k c] rest IH]; cbn [keptFields field].
  - rewrite elem_of_nil. split; [done|]. by intros (_ & ? & ? & _).
  - assert ((key, v) ∈ keptFields rest <-> diagnosticName key = true /\ exists child, field key rest = Some child /\ probeDiagnosticValue child = Some v) as IH' by done. clear IH.
    destruct (diagnosticName k && negb (overridden k rest)) eqn:E.
    + apply andb_true_iff in E as [Ek Eo]. rewrite overridden_field in Eo. apply negb_true_iff, bool_decide_eq_false in Eo.
      assert (field k rest = None) as Ef by (destruct (field k rest); [by destruct Eo|done]).
      destruct (String.eqb k key) eqn:Eq.
      * apply String.eqb_eq in Eq. subst k. rewrite Ef in IH' |- *. split.
        -- intros Hin. split; [done|]. exists c. split; [done|]. destruct (probeDiagnosticValue c) as [s|]; [apply elem_of_cons in Hin as [[= ->]|Hin]; [done|]|]; apply IH' in Hin as (_ & ? & ? & _); done.
        -- intros (_ & ? & [= <-] & ->). by left.
      * apply String.eqb_neq in Eq. assert ((key, v) ∈ match probeDiagnosticValue c with Some s => (k, s) :: keptFields rest | None => keptFields rest end <-> (key, v) ∈ keptFields rest) as ->.
        { destruct (probeDiagnosticValue c); [|done]. rewrite elem_of_cons. split; [intros [[= -> _]|]; done|by right]. }
        rewrite IH'. destruct (field key rest); [done|]. split; [by intros (_ & ? & ? & _)|by intros (_ & ? & ? & _)].
    + rewrite IH'. destruct (field key rest) as [w|] eqn:Ef; [done|]. split; [by intros (_ & ? & ? & _)|]. intros (Hk & child & Hc & _). destruct (String.eqb k key) eqn:Eq; [|done].
      apply String.eqb_eq in Eq. subst k. rewrite Hk, overridden_field, Ef in E. done.
Qed.

(** A scalar of a value, and one that lies under diagnostic names only. *)
Inductive scalar : json -> Prop := ScalarBool b : scalar (JBool b) | ScalarNumber n : scalar (JNumber n) | ScalarString s : scalar (JString s).
#[local] Hint Constructors scalar : core.
Inductive occurs (leaf : json) : json -> Prop :=
  | OccursHere : scalar leaf -> occurs leaf leaf
  | OccursItem items v : v ∈ items -> occurs leaf v -> occurs leaf (JArray items)
  | OccursField fields key v : (key, v) ∈ fields -> occurs leaf v -> occurs leaf (JObject fields).
Inductive diagnosed (leaf : json) : json -> Prop :=
  | DiagnosedHere : scalar leaf -> diagnosed leaf leaf
  | DiagnosedItem items v : v ∈ items -> diagnosed leaf v -> diagnosed leaf (JArray items)
  | DiagnosedField fields key v : diagnosticName key = true -> field key fields = Some v -> diagnosed leaf v -> diagnosed leaf (JObject fields).
Definition redactedScalar (leaf : json) : json := match leaf with JString s => JString (redactSecrets s) | _ => leaf end.

Lemma nonempty_some {A} (l : list A) v out : nonempty l v = Some out <-> l <> [] /\ out = v.
Proof. destruct l; cbn; split; [done|by intros []|intros [= <-]; done|by intros [_ ->]]. Qed.
Lemma field_in key fields v : field key fields = Some v -> (key, v) ∈ fields.
Proof.
  induction fields as [|[k w] rest IH]; [done|]. cbn. destruct (field key rest) as [w'|]; [intros [= ->]; right; by apply IH|]. destruct (String.eqb k key) eqn:E; [|done]. apply String.eqb_eq in E as ->. intros [= ->]. by left.
Qed.
(** The summary shows exactly the scalars that lie under diagnostic names, redacted. *)
Theorem diagnostic_exact v leaf :
  (exists out, probeDiagnosticValue v = Some out /\ occurs leaf out) <-> exists leaf0, diagnosed leaf0 v /\ leaf = redactedScalar leaf0.
Proof.
  induction v as [| | | |items IH|fields IH] using json_induction.
  1: split; [by intros (out & ? & _)|intros (leaf0 & Hd & _); inversion Hd as [Hs| |]; inversion Hs].
  1-3: split; [intros (out & [= <-] & Ho); inversion Ho; subst; eexists; split; [by apply DiagnosedHere|done]|intros (leaf0 & Hd & ->); inversion Hd; subst; eexists; split; [done|]; by apply OccursHere].
  - rewrite diagnostic_array. rewrite Forall_forall in IH. split.
    + intros (out & [_ ->]%nonempty_some & Ho). inversion Ho as [Hs|? w Hw Ho'|]; subst; [by inversion Hs|]. apply keptItems_spec in Hw as (c & Hc & Hp).
      destruct (proj1 (IH c Hc)) as (leaf0 & Hd & ->); [by exists w|]. exists leaf0. split; [by eapply DiagnosedItem|done].
    + intros (leaf0 & Hd & ->). inversion Hd as [Hs|? w Hw Hd'|]; subst; [by inversion Hs|]. destruct (proj2 (IH w Hw)) as (out & Hp & Ho); [by exists leaf0|].
      assert (out ∈ keptItems items) as Hin by (apply keptItems_spec; by exists w). exists (JArray (keptItems items)). split; [|by eapply OccursItem].
      apply nonempty_some. split; [|done]. intros E. rewrite E in Hin. by apply elem_of_nil in Hin.
  - rewrite diagnostic_object. rewrite Forall_forall in IH. split.
    + intros (out & [_ ->]%nonempty_some & Ho). inversion Ho as [Hs| |? k w Hw Ho']; subst; [by inversion Hs|]. apply keptFields_spec in Hw as (Hk & c & Hc & Hp).
      destruct (proj1 (IH (k, c) (field_in _ _ _ Hc))) as (leaf0 & Hd & ->); [by exists w|]. exists leaf0. split; [by eapply DiagnosedField|done].
    + intros (leaf0 & Hd & ->). inversion Hd as [Hs| |? k w Hk Hw Hd']; subst; [by inversion Hs|]. destruct (proj2 (IH (k, w) (field_in _ _ _ Hw))) as (out & Hp & Ho); [by exists leaf0|].
      assert ((k, out) ∈ keptFields fields) as Hin by (apply keptFields_spec; split; [done|]; by exists w). exists (JObject (keptFields fields)). split; [|by eapply OccursField].
      apply nonempty_some. split; [|done]. intros E. rewrite E in Hin. by apply elem_of_nil in Hin.
Qed.

Example summarised :
  probeDiagnosticValue (JObject [("Error", JObject [("message", JString "Bearer abc"); ("user", JString "x"); ("code", JNull)]); ("status", JNumber "1"); ("status", JNumber "403"); ("detail", JArray [JNull])])
  = Some (JObject [("Error", JObject [("message", JString "Bearer [redacted]")]); ("status", JNumber "403")])
  /\ sanitizedProbeResponseSummary (fun _ => Some "{}") "<html>" = "<non-json response body: 6 bytes>"
  /\ sanitizedProbeResponseSummary (fun _ => Some "{}") (js "{'token':'x'}") = "<json response without diagnostic fields>".
Proof. vm_compute. repeat split. Qed.
