(* ===== verification/HttpSlots.v ===== *)
(** * The slots of outgoing calls (coordinator.go)

    The calls of DoHTTP and DoHostCallback share a buffered channel of slots: a call
    runs while it holds one.  A step of the model is one step of one caller, or the
    cancellation of a caller's context; what a call returns is an argument. *)

From S2P Require Import Prelude.
#[local] Open Scope list_scope.
#[local] Open Scope Z_scope.
#[local] Open Scope go_scope.

Inductive call_error := ContextDone | CallFailed (code : Z).
Inductive call_kind := HTTPCall | HostCallback.
(** Where a caller is: before its first look at its context, at the channel, holding a
    slot before its second look, in the call, with its result before the deferred
    release, and returned. *)
Inductive call_phase :=
  | CallEntered | CallWaiting | CallAcquired | CallRunning
  | CallReleasing (err : option call_error) | CallReturned (err : option call_error).
Record slotCaller := mkCaller { sc_Kind : call_kind; sc_Phase : call_phase; sc_Cancelled : bool }.
#[export] Instance slotCaller_eta : Eta slotCaller := fun r => mkCaller (sc_Kind r) (sc_Phase r) (sc_Cancelled r).
Record slots := mkSlots { sl_Max : Z; sl_Used : Z; sl_Callers : list slotCaller }.
#[export] Instance slots_eta : Eta slots := fun r => mkSlots (sl_Max r) (sl_Used r) (sl_Callers r).

Definition newSlots (MaxHTTPSlots : Z) (kinds : list call_kind) : slots :=
  mkSlots (if MaxHTTPSlots <=? 0 then 1 else MaxHTTPSlots) 0 ((fun k => mkCaller k CallEntered false) <$> kinds).

(** [ctx.Err()] *)
Definition contextErr (c : slotCaller) : option call_error := if sc_Cancelled c then Some ContextDone else None.
Inductive slot_event :=
  | Proceed          (** the caller goes on: past a look at its context, into the channel, or past the release *)
  | Abandon          (** the caller at the channel takes the branch of its context *)
  | Finish (err : option Z)  (** the call returns *)
  | Cancel.          (** the context of the caller is cancelled *)

(** What DoHTTP returns after the call, and DoHostCallback, whose call has no result. *)
Definition callResult (c : slotCaller) (err : option Z) : option call_error :=
  match sc_Kind c with
  | HTTPCall => match err with Some code => Some (CallFailed code) | None => contextErr c end
  | HostCallback => None
  end.
(** One step of a caller, with the change of the slots in use; [None] where the event
    cannot happen. *)
Definition callerSlotStep (free : bool) (c : slotCaller) (event : slot_event) : option (slotCaller * Z) :=
  match event, sc_Phase c with
  | Cancel, _ => Some (c <| sc_Cancelled := true |>, 0)
  | Proceed, CallEntered => Some (c <| sc_Phase := if sc_Cancelled c then CallReturned (Some ContextDone) else CallWaiting |>, 0)
  | Proceed, CallWaiting => if free then Some (c <| sc_Phase := CallAcquired |>, 1) else None
  | Abandon, CallWaiting => if sc_Cancelled c then Some (c <| sc_Phase := CallReturned (Some ContextDone) |>, 0) else None
  | Proceed, CallAcquired => Some (c <| sc_Phase := if sc_Cancelled c then CallReleasing (Some ContextDone) else CallRunning |>, 0)
  | Finish err, CallRunning => Some (c <| sc_Phase := CallReleasing (callResult c err) |>, 0)
  | Proceed, CallReleasing err => Some (c <| sc_Phase := CallReturned err |>, -1)
  | _, _ => None
  end.
Definition slotStep (s : slots) (i : nat) (event : slot_event) : option slots :=
  match sl_Callers s !! i with
  | None => None
  | Some c =>
      match callerSlotStep (sl_Used s <? sl_Max s) c event with
      | None => None
      | Some (c', change) => Some (s <| sl_Used := sl_Used s + change |> <| sl_Callers := <[i := c']> (sl_Callers s) |>)
      end
  end.
Fixpoint slotRun (s : slots) (events : list (nat * slot_event)) : option slots :=
  match events with
  | [] => Some s
  | (i, event) :: events => match slotStep s i event with Some s => slotRun s events | None => None end
  end.

(** ** Properties *)

Definition holds (c : slotCaller) : Z := match sc_Phase c with CallAcquired | CallRunning | CallReleasing _ => 1 | _ => 0 end.
Definition running (c : slotCaller) : Z := match sc_Phase c with CallRunning => 1 | _ => 0 end.
Definition pending (c : slotCaller) : nat :=
  match sc_Phase c with CallEntered => 5 | CallWaiting => 4 | CallAcquired => 3 | CallRunning => 2 | CallReleasing _ => 1 | CallReturned _ => 0 end.
Definition total (f : slotCaller -> Z) (l : list slotCaller) : Z := foldr (fun c n => f c + n) 0 l.
Lemma total_cons f c l : total f (c :: l) = f c + total f l.
Proof. done. Qed.
Lemma total_insert f l i c c' : l !! i = Some c -> total f (<[i := c']> l) = total f l - f c + f c'.
Proof. revert i. induction l as [|d l IH]; intros [|i] H; [done|done| |]; cbn [insert list_insert]; rewrite !total_cons; [injection H as ->; lia|]. rewrite IH by done. lia. Qed.
Lemma total_le f g l : (forall c, f c <= g c) -> total f l <= total g l.
Proof. intros H. induction l as [|c l IH]; [done|]. rewrite !total_cons. pose proof (H c). lia. Qed.
Lemma holds_range c : 0 <= holds c <= 1.
Proof. unfold holds. case_match; lia. Qed.
Lemma total_holds_nonneg l : 0 <= total holds l.
Proof. induction l as [|c l IH]; [done|]. rewrite total_cons. pose proof (holds_range c). lia. Qed.

Record slots_ok (s : slots) : Prop := {
  so_used : sl_Used s = total holds (sl_Callers s);
  so_bound : 0 <= sl_Used s <= sl_Max s;
  so_some : 1 <= sl_Max s;
}.
Lemma caller_step_holds free c event c' change : callerSlotStep free c event = Some (c', change) ->
  holds c' = holds c + change /\ (change = 1 -> free = true) /\ (event <> Cancel -> (pending c' < pending c)%nat) /\ (event = Cancel -> pending c' = pending c).
Proof.
  destruct c as [kind phase cancelled], event, phase; cbn; try done; repeat case_match; intros [= <- <-]; cbn; repeat split; try done; intros; lia.
Qed.
Lemma slot_step_ok s i event s' : slots_ok s -> slotStep s i event = Some s' -> slots_ok s' /\ sl_Max s' = sl_Max s.
Proof.
  intros [Hu Hb Hs]. unfold slotStep. destruct (sl_Callers s !! i) as [c|] eqn:Ec; [|done]. destruct (callerSlotStep _ c event) as [[c' change]|] eqn:E; [|done]. intros [= <-]. split; [|done].
  apply caller_step_holds in E as (Hh & Hf & _). assert (sl_Used s + change = total holds (<[i := c']> (sl_Callers s))) as Hu' by (rewrite (total_insert _ _ _ _ _ Ec); lia).
  split; [done| |done]. cbn. pose proof (total_holds_nonneg (<[i := c']> (sl_Callers s))). pose proof (holds_range c). pose proof (holds_range c').
  split; [lia|]. destruct (sl_Used s <? sl_Max s) eqn:El; [apply Z.ltb_lt in El; lia|]. assert (change <> 1) by (intros H2; by apply Hf in H2). lia.
Qed.
Lemma slot_run_ok s events s' : slots_ok s -> slotRun s events = Some s' -> slots_ok s' /\ sl_Max s' = sl_Max s.
Proof.
  revert s. induction events as [|[i e] events IH]; intros s Hs; cbn; [by intros [= <-]|]. destruct (slotStep s i e) as [s1|] eqn:E; [|done].
  destruct (slot_step_ok _ _ _ _ Hs E) as [Hs1 <-]. by apply IH.
Qed.
Lemma new_slots_ok max kinds : slots_ok (newSlots max kinds).
Proof.
  assert (total holds ((fun k => mkCaller k CallEntered false) <$> kinds) = 0) as H by (induction kinds as [|k l IH]; [done|]; cbn [fmap list_fmap]; by rewrite total_cons).
  split; [exact (eq_sym H)| |]; cbn; destruct (max <=? 0) eqn:E; lia.
Qed.

(** No more calls run at once than there are slots, and a slot whose caller returned
    is free again. *)
Theorem slots_bounded max kinds events s : slotRun (newSlots max kinds) events = Some s ->
  total running (sl_Callers s) <= Z.max 1 max
  /\ (Forall (fun c => exists err, sc_Phase c = CallReturned err) (sl_Callers s) -> sl_Used s = 0).
Proof.
  intros H. destruct (slot_run_ok _ _ _ (new_slots_ok max kinds) H) as [[Hu Hb _] Hm].
  assert (sl_Max (newSlots max kinds) = Z.max 1 max) as Hn by (cbn; destruct (max <=? 0) eqn:E; lia). rewrite Hn in Hm.
  split.
  - pose proof (total_le running holds (sl_Callers s)) as Hr. rewrite <- Hm. assert (total running (sl_Callers s) <= total holds (sl_Callers s)); [|lia]. apply Hr. intros c. unfold running, holds. case_match; lia.
  - intros Hall. rewrite Hu. clear -Hall. induction Hall as [|c l [err Hc] _ IH]; [done|]. rewrite total_cons, IH. unfold holds. by rewrite Hc.
Qed.

(** The callers never block each other: while nobody is in a call, some caller that has
    not returned can go on. *)
Theorem slots_progress s : slots_ok s -> Forall (fun c => sc_Phase c <> CallRunning) (sl_Callers s) ->
  Forall (fun c => pending c = 0%nat) (sl_Callers s) \/ exists i s', slotStep s i Proceed = Some s'.
Proof.
  intros [Hu Hb Hs] Hr. destruct (decide (Forall (fun c => pending c = 0%nat) (sl_Callers s))) as [|Hn]; [by left|right].
  assert (forall i c, sl_Callers s !! i = Some c -> pending c <> 0%nat -> holds c = 1 \/ (sl_Used s <? sl_Max s) = true -> exists i s', slotStep s i Proceed = Some s') as Hgo.
  { intros i c Hi Hp Hh. rewrite Forall_lookup in Hr. specialize (Hr i c Hi). exists i. unfold slotStep. rewrite Hi.
    destruct c as [kind phase cancelled], phase; cbn in *; try done; eauto. destruct Hh as [| ->]; [done|eauto]. }
  destruct (decide (Exists (fun c => holds c = 1) (sl_Callers s))) as [(c & Hin & Hc)%Exists_exists|Hx].
  - apply list_elem_of_lookup in Hin as [i Hi]. apply (Hgo i c Hi); [|by left]. unfold holds, pending in *. by case_match.
  - apply not_Forall_Exists in Hn as (c & Hin & Hc)%Exists_exists; [|solve_decision]. apply list_elem_of_lookup in Hin as [i Hi]. apply (Hgo i c Hi Hc). right. apply Z.ltb_lt.
    assert (total holds (sl_Callers s) = 0); [|lia]. clear -Hx. induction (sl_Callers s) as [|d l IH]; [done|]. rewrite total_cons, IH by (intros H; apply Hx; by right).
    pose proof (holds_range d). assert (holds d <> 1) by (intros E; apply Hx; by left). lia.
Qed.

(** A caller takes at most five steps of its own. *)
Definition pendingOf (l : list slotCaller) : nat := foldr (fun c n => (pending c + n)%nat) 0%nat l.
Definition pendingSteps (s : slots) : nat := pendingOf (sl_Callers s).
Lemma pendingOf_cons c l : pendingOf (c :: l) = (pending c + pendingOf l)%nat.
Proof. done. Qed.
Lemma pending_insert l i c c' : l !! i = Some c -> (pendingOf (<[i := c']> l) + pending c = pendingOf l + pending c')%nat.
Proof.
  revert i. induction l as [|d l IH]; intros [|i] H; [done|done| |].
  - injection H as ->. change (<[0%nat := c']> (c :: l)) with (c' :: l). rewrite !pendingOf_cons. lia.
  - change (<[S i := c']> (d :: l)) with (d :: <[i := c']> l). rewrite !pendingOf_cons. specialize (IH i H). lia.
Qed.
Definition own (event : slot_event) : bool := match event with Cancel => false | _ => true end.
Theorem slots_terminate s events s' : slotRun s events = Some s' ->
  (length (filter (fun e => own e.2 = true) events) + pendingSteps s' <= pendingSteps s)%nat.
Proof.
  revert s. induction events as [|[i e] events IH]; intros s; cbn [slotRun]; [intros [= <-]; cbn; lia|]. destruct (slotStep s i e) as [s1|] eqn:E; [|done]. intros H%IH.
  unfold slotStep in E. destruct (sl_Callers s !! i) as [c|] eqn:Ec; [|done]. destruct (callerSlotStep _ c e) as [[c' change]|] eqn:Es; [|done]. injection E as <-.
  apply caller_step_holds in Es as (_ & _ & Hlt & Heq). pose proof (pending_insert _ _ _ c' Ec) as Hp. unfold pendingSteps in *. cbn [sl_Callers set_field] in *.
  rewrite filter_cons. destruct e; cbn [own snd]; (rewrite decide_True by done) || (rewrite decide_False by done); cbn [length].
  4: specialize (Heq eq_refl); lia.
  all: assert (pending c' < pending c)%nat by (by apply Hlt); lia.
Qed.

(** A caller whose context is done before it holds a slot never starts its call. *)
Example one_slot :
  slotRun (newSlots 0 [HTTPCall; HostCallback; HTTPCall]) [(0%nat, Proceed); (1%nat, Proceed); (0%nat, Proceed); (2%nat, Proceed); (2%nat, Cancel); (2%nat, Abandon); (0%nat, Proceed)]
  = Some (mkSlots 1 1 [mkCaller HTTPCall CallRunning false; mkCaller HostCallback CallWaiting false; mkCaller HTTPCall (CallReturned (Some ContextDone)) true])
  /\ slotRun (newSlots 0 [HTTPCall; HostCallback]) [(0%nat, Proceed); (1%nat, Proceed); (0%nat, Proceed); (1%nat, Proceed)] = None.
Proof. vm_compute. done. Qed.
