(* ===== verification/RosterFlight.v ===== *)
(** * One synchronisation at a time (roster_controller.go)

    The callers of sync and the channel inFlight of the controller: the caller that
    finds none opens one and asks the host, the others wait until it is closed.
    [Roster] says what a synchronisation does; here are the steps of its callers under
    the lock.  Closing a closed channel panics. *)

From S2P Require Import Prelude Roster.
#[local] Open Scope list_scope.
#[local] Open Scope Z_scope.
#[local] Open Scope go_scope.

Inductive sync_phase :=
  | SyncEntered              (** before the first lock of sync *)
  | SyncInjected             (** before OnSyncResult *)
  | SyncListing              (** asking the host *)
  | SyncPublishing (done : nat)  (** in finishSync, where the lock is free *)
  | SyncWaiting (wait : nat)
  | SyncReturned.
Record flight := mkFlight { fl_inFlight : option nat; fl_made : nat; fl_closed : list nat; fl_Panicked : bool; fl_Callers : list sync_phase }.
#[export] Instance flight_eta : Eta flight := fun r => mkFlight (fl_inFlight r) (fl_made r) (fl_closed r) (fl_Panicked r) (fl_Callers r).
Definition newFlight (callers : list sync_phase) : flight := mkFlight None 0 [] false callers.

(** [SyncServed]: the roster is recent enough.  [SyncGoes]: the ordinary step.
    [SyncGivesUp]: the context of a waiting caller is done. *)
Inductive sync_event := SyncServed | SyncGoes | SyncGivesUp.

(** The channel of the controller, made where there is none. *)
Definition openFlight (f : flight) : flight * nat :=
  match fl_inFlight f with
  | Some ch => (f, ch)
  | None => (f <| fl_inFlight := Some (fl_made f) |> <| fl_made := S (fl_made f) |>, fl_made f)
  end.
Definition closeFlight (f : flight) (done : nat) : flight :=
  f <| fl_inFlight := None |> <| fl_closed := done :: fl_closed f |> <| fl_Panicked := fl_Panicked f || bool_decide (done ∈ fl_closed f) |>.
Definition callerSyncStep (f : flight) (phase : sync_phase) (event : sync_event) : option (flight * sync_phase) :=
  match phase, event with
  | SyncEntered, SyncServed => Some (f, SyncReturned)
  | SyncEntered, SyncGoes =>
      match fl_inFlight f with
      | Some wait => Some (f, SyncWaiting wait)
      | None => Some ((openFlight f).1, SyncListing)
      end
  | SyncListing, SyncGoes | SyncInjected, SyncGoes => let '(f, done) := openFlight f in Some (f, SyncPublishing done)
  | SyncPublishing done, SyncGoes => Some (closeFlight f done, SyncReturned)
  | SyncWaiting wait, SyncGoes => if bool_decide (wait ∈ fl_closed f) then Some (f, SyncReturned) else None
  | SyncWaiting wait, SyncGivesUp => Some (f, SyncReturned)
  | _, _ => None
  end.
Definition syncStep (f : flight) (i : nat) (event : sync_event) : option flight :=
  match fl_Callers f !! i with
  | None => None
  | Some phase =>
      match callerSyncStep f phase event with
      | None => None
      | Some (f', phase') => Some (f' <| fl_Callers := <[i := phase']> (fl_Callers f) |>)
      end
  end.
Fixpoint syncRun (f : flight) (events : list (nat * sync_event)) : option flight :=
  match events with
  | [] => Some f
  | (i, event) :: events => match syncStep f i event with Some f => syncRun f events | None => None end
  end.

(** ** Properties *)

Definition leads (phase : sync_phase) : bool := match phase with SyncListing | SyncPublishing _ => true | _ => false end.
(** At most one caller leads, exactly while a channel is open, and a caller waits for
    that channel or for one that is closed. *)
Record flight_ok (f : flight) : Prop := {
  fo_panic : fl_Panicked f = false;
  fo_leader : forall i phase, fl_Callers f !! i = Some phase -> leads phase = true ->
    is_Some (fl_inFlight f) /\ (forall done, phase = SyncPublishing done -> fl_inFlight f = Some done)
    /\ forall j phase', fl_Callers f !! j = Some phase' -> leads phase' = true -> j = i;
  fo_open : forall ch, fl_inFlight f = Some ch -> ch ∉ fl_closed f /\ (ch < fl_made f)%nat /\ exists i phase, fl_Callers f !! i = Some phase /\ leads phase = true;
  fo_closed : forall ch, ch ∈ fl_closed f -> (ch < fl_made f)%nat;
  fo_wait : forall i ch, fl_Callers f !! i = Some (SyncWaiting ch) -> ch ∈ fl_closed f \/ fl_inFlight f = Some ch;
  fo_own : forall i, fl_Callers f !! i <> Some SyncInjected;
}.

Lemma insert_cases {A} (l : list A) i j x y : <[i := x]> l !! j = Some y -> (j = i /\ y = x) \/ (j <> i /\ l !! j = Some y).
Proof. intros [(-> & -> & _)|[Hn H]]%list_lookup_insert_Some; auto. Qed.
Lemma insert_here {A} (l : list A) i x y : l !! i = Some y -> <[i := x]> l !! i = Some x.
Proof. intros H. apply list_lookup_insert_Some. left. split; [done|]. split; [done|]. by eapply lookup_lt_Some. Qed.

(** A caller that does not lead moves to a phase in which it does not lead. *)
Lemma follower_ok f i old new : flight_ok f -> fl_Callers f !! i = Some old -> leads old = false -> leads new = false -> new <> SyncInjected ->
  (forall ch, new = SyncWaiting ch -> ch ∈ fl_closed f \/ fl_inFlight f = Some ch) -> flight_ok (f <| fl_Callers := <[i := new]> (fl_Callers f) |>).
Proof.
  intros [H1 H2 H3 H4 H5 H6] Hi Ho Hn Hinj Hw. split; cbn; try done.
  - intros j p Hj Hl. apply insert_cases in Hj as [[-> ->]|[Hne Hj]]; [congruence|]. destruct (H2 j p Hj Hl) as (E1 & E2 & E3). split; [done|]. split; [done|].
    intros k q Hk Hq. apply insert_cases in Hk as [[-> ->]|[_ Hk]]; [congruence|]. by apply (E3 k q).
  - intros ch Hc. destruct (H3 ch Hc) as (E1 & E2 & k & p & Hk & Hp). split; [done|]. split; [done|]. exists k, p. split; [|done].
    rewrite list_lookup_insert_ne; [done|]. intros ->. congruence.
  - intros j ch Hj. apply insert_cases in Hj as [[-> E]|[_ Hj]]; [by apply Hw|by apply (H5 j)].
  - intros j Hj. apply insert_cases in Hj as [[_ E]|[_ Hj]]; [by rewrite E in Hinj|by apply (H6 j)].
Qed.
Lemma sync_step_ok f i event f' : flight_ok f -> syncStep f i event = Some f' -> flight_ok f'.
Proof.
  intros Hok. unfold syncStep. destruct (fl_Callers f !! i) as [phase|] eqn:Hi; [|done]. destruct phase; destruct event; cbn [callerSyncStep]; try done.
  - intros [= <-]. by eapply follower_ok.
  - destruct (fl_inFlight f) as [ch|] eqn:Ef.
    + intros [= <-]. eapply follower_ok; try done. intros c [= <-]. by right.
    + unfold openFlight. rewrite Ef. intros [= <-]. destruct Hok as [H1 H2 H3 H4 H5 H6]. cbn.
      assert (forall j p, fl_Callers f !! j = Some p -> leads p = false) as Hno.
      { intros j p Hj. destruct (leads p) eqn:E; [|done]. destruct (H2 j p Hj E) as ([? ?] & _). congruence. }
      split; cbn; try done.
      * intros j p Hj Hl. split; [by eexists|]. apply insert_cases in Hj as [[-> ->]|[_ Hj]]; [|rewrite (Hno _ _ Hj) in Hl; done]. split; [done|].
        intros k q Hk Hq. apply insert_cases in Hk as [[-> _]|[_ Hk]]; [done|rewrite (Hno _ _ Hk) in Hq; done].
      * intros ch [= <-]. split; [intros Hin; apply H4 in Hin; lia|]. split; [lia|]. exists i, SyncListing. split; [by eapply insert_here|done].
      * intros ch Hin. apply H4 in Hin. lia.
      * intros j ch Hj. apply insert_cases in Hj as [[_ E]|[_ Hj]]; [done|]. destruct (H5 j ch Hj) as [|E]; [by left|congruence].
      * intros j Hj. apply insert_cases in Hj as [[_ E]|[_ Hj]]; [done|by apply (H6 j)].
  - by destruct (fo_own f Hok i).
  - destruct Hok as [H1 H2 H3 H4 H5 H6]. destruct (H2 i _ Hi eq_refl) as ([ch Ech] & _ & Hu). unfold openFlight. rewrite Ech. intros [= <-]. split; cbn; try done.
    + intros j p Hj Hl. split; [by eexists|]. apply insert_cases in Hj as [[-> ->]|[Hne Hj]]; [|destruct Hne; by eapply Hu]. split; [by intros d [= ->]|].
      intros k q Hk Hq. apply insert_cases in Hk as [[-> _]|[Hne Hk]]; [done|by eapply Hu].
    + intros c Hc. destruct (H3 c Hc) as (E1 & E2 & _). split; [done|]. split; [done|]. exists i, (SyncPublishing ch). split; [by eapply insert_here|done].
    + intros j c Hj. apply insert_cases in Hj as [[_ E]|[_ Hj]]; [done|by apply (H5 j)].
    + intros j Hj. apply insert_cases in Hj as [[_ E]|[_ Hj]]; [done|by apply (H6 j)].
  - destruct Hok as [H1 H2 H3 H4 H5 H6]. destruct (H2 i _ Hi eq_refl) as (_ & Hd & Hu). specialize (Hd _ eq_refl). destruct (H3 _ Hd) as (E1 & E2 & _). unfold closeFlight. intros [= <-]. split; cbn; try done.
    + by rewrite H1, bool_decide_false.
    + intros j p Hj Hl. apply insert_cases in Hj as [[_ ->]|[Hne Hj]]; [done|]. destruct Hne. by eapply Hu.
    + intros c [->|Hc]%elem_of_cons; [done|by apply H4].
    + intros j c Hj. apply insert_cases in Hj as [[_ E]|[_ Hj]]; [done|]. left. destruct (H5 j c Hj) as [Hc|Hc]; [by right|]. rewrite Hd in Hc. injection Hc as <-. by left.
    + intros j Hj. apply insert_cases in Hj as [[_ E]|[_ Hj]]; [done|by apply (H6 j)].
  - case_bool_decide; [|done]. intros [= <-]. by eapply follower_ok.
  - intros [= <-]. by eapply follower_ok.
Qed.

(** Whatever the order of the callers of sync, no channel is closed twice, at most one
    of them asks the host or publishes, and while a caller waits for a channel that is
    open there is one. *)
Theorem one_sync_at_a_time n events f : syncRun (newFlight (replicate n SyncEntered)) events = Some f ->
  fl_Panicked f = false
  /\ (forall i j p q, fl_Callers f !! i = Some p -> fl_Callers f !! j = Some q -> leads p = true -> leads q = true -> i = j)
  /\ (forall i ch, fl_Callers f !! i = Some (SyncWaiting ch) -> ch ∈ fl_closed f \/ exists j p, fl_Callers f !! j = Some p /\ leads p = true).
Proof.
  intros H. assert (flight_ok f) as [H1 H2 H3 _ H5 _].
  { assert (flight_ok (newFlight (replicate n SyncEntered))) as H0.
    { split; cbn; try done; intros; match goal with E : replicate _ _ !! _ = Some _ |- _ => apply lookup_replicate in E as [? _] | _ => idtac end; subst; try done; [by apply elem_of_nil in H0|]. intros [E _]%lookup_replicate. done. }
    revert H H0. generalize (newFlight (replicate n SyncEntered)). induction events as [|[i e] events IH]; intros f0; cbn; [by intros [= ->]|].
    destruct (syncStep f0 i e) as [f1|] eqn:E; [|done]. intros Hr H0. apply (IH f1 Hr). by eapply sync_step_ok. }
  split; [done|]. split.
  - intros i j p q Hp Hq Lp Lq. destruct (H2 j q Hq Lq) as (_ & _ & Hu). by apply (Hu i p).
  - intros i ch Hw. destruct (H5 i ch Hw) as [|Ho]; [by left|]. right. by destruct (H3 ch Ho) as (_ & _ & ?).
Qed.

(** A result that is injected while a synchronisation publishes closes the channel that
    the synchronisation closes again. *)
Example injected_result_panics :
  fl_Panicked <$> syncRun (newFlight [SyncEntered; SyncInjected]) [(0%nat, SyncGoes); (0%nat, SyncGoes); (1%nat, SyncGoes); (1%nat, SyncGoes); (0%nat, SyncGoes)] = Some true.
Proof. vm_compute. reflexivity. Qed.
